(* ===== verification/_CoqProject ===== *)
-Q . S2P
Prelude.v
Str.v
FrameAlloc.v
CapScope.v
CapToken.v
Ipc.v
IrqTable.v
Pipe.v
Fd.v
Sched.v
IpcSched.v
ProcTable.v
Paging.v
ElfLoader.v
UserStack.v
Vfs.v
Initramfs.v
Net.v
Tcp.v
BlockBitmap.v
FsBlocks.v
FsSpec.v
MemFs.v
OnDisk.v
OnDiskSync.v
FsService.v
Glob.v
ShellLex.v
ShellParse.v
ShellEnv.v
ShellExec.v
LineEditor.v
Ring.v
NvmeQueue.v
NvmeIo.v
Bringup.v
NvmeNs.v
BlkWire.v
CapDeposit.v
DriverSys.v
DriverDma.v
DriverIrq.v
DriverPack.v
ShellSys.v
ShellEntry.v
Arp.v
Datagram.v
Dns.v
Dhcp.v
NetSvc.v
Iommu.v
Vtd.v
Amdvi.v
IommuKind.v
NetChannel.v
Virtio.v
E1000e.v
Gguf.v
Bpe.v
