(* ===== verification/Prelude.v ===== *)
(** * OMNI OS: a verification library for the kernel core

    OMNI OS (src/) is a capability-based microkernel with user-space services.
    This library models the state that the kernel (src/crates/omni-kernel),
    the capability crate (src/crates/omni-capability), the network stack
    (src/crates/omni-net), the file system (src/crates/omni-fs), the shell
    (src/crates/omni-shell) and the drivers (src/crates/omni-driver-nvme,
    omni-driver-net-virtio, omni-driver-e1000e) keep, the operations
    on it, and proves the properties that make them correct.

    ** The program and how its parts interact

    - The physical frame allocator hands 4 KiB frames to the page-table
      mapper, which takes table frames from it on the way down and maps data
      frames given to it by the ELF loader.
    - A task acts on resources through capability tokens.  A token's scope
      says which actions on which resources it allows, in which time window
      and under which caveats; attenuation narrows a scope; delegation chains
      link attenuated tokens; the revocation list withdraws them.
    - IPC channels are created with tokens: the capability provider turns a
      token into the principal that may send or receive.  Interrupts are
      delivered as messages through the same channel registry.
    - The system-call handlers for blocking IPC glue the registry to the
      scheduler: a call that cannot proceed parks its task on the channel's
      wait queue and yields; the operation that makes it possible again
      returns whom to wake.
    - Processes have a descriptor table and an entry in the process table;
      pipes connect descriptors.  A new process starts on a stack that holds
      its arguments and environment.
    - At boot an archive of executables is unpacked into the in-memory file
      system, from which programs are later loaded.
    - The network service parses the frames its drivers deliver, header by
      header, and hands TCP segments to the connection table, datagrams to
      their sockets and echo requests to the responder; what they answer is
      built, checksummed and framed on the way out, for the link address that
      the table of address resolution knows or after it has learnt it.
    - The file-system service answers requests from an in-memory volume and
      keeps an on-disk volume: a block bitmap, an inode table and data blocks
      with an authentication tag each, rewritten by copy on write, written out
      as an image of 4 KiB blocks and mounted from one.
    - The shell reads keys into an edited line, cuts the line into tokens,
      parses them into pipelines joined by connectors, expands variables and
      file-name patterns (asking the file system for directory entries) and
      runs the builtins, carrying variables and the working directory from
      one line to the next.
    - A driver is a user process. Its image comes in a signed pack, which
      [DriverLoad] admits when a known issuer signed its manifest; the kernel
      leaves it a page of signed capability tokens, which the driver presents
      to map device registers, to get memory a device can reach, and to attach
      interrupts.  What a driver holds is taken back when it exits.
    - The IOMMU layer gives each driver a domain, a page-table root and a
      record of the PCI devices bound to it.  Its backends (VT-d, AMD-Vi,
      pass-through) write the unit's tables in memory and tell the unit
      through its registers and a queue of commands in memory.
    - The NVMe driver brings its controller up through a machine of phases,
      talks to it through submission and completion rings, describes buffers
      by page lists, and answers block requests from its clients.  The virtio
      and e1000e network drivers come up through the same machine and move
      frames between the network channel and their rings.
    - The inference runtime reads model files and turns text into the numbers
      of tokens and back.
    - User programs reach descriptors, pipes, files and processes through the
      shell system calls.  The kernel has them twice: over one state record,
      tested on the host, and over its global tables in the kernel image.

    ** Files

    - [Prelude]: machine integers and their overflow behaviour, the outcome
      monads [run] (value or panic) and [result], little-endian integers,
      slices, counting, tactics and hints.
    - [Str]: strings as lists of bytes (of characters in the shell, which
      works on [char]s), their order and splitting, UTF-8 validation, encoding,
      decoding and lossy decoding.
    - [FrameAlloc]: memory.rs, [BitmapFrameAllocator], bit by bit.
    - [CapScope]: omni-capability scope.rs and attenuation.rs (scopes, subset
      tests, caveats), with a denotation of scopes as sets of requests.
    - [CapToken]: token.rs, revocation.rs and the token half of
      attenuation.rs.  Serialization, hash and signature are parameters.
    - [Ipc]: ipc.rs (channel registry) and the part of capabilities.rs that
      authenticates tokens; the capability check is the class
      [KernelCapabilityCheck], as the trait is in the source.
    - [IrqTable]: irq_table.rs, with [irq_notify] sending on [Ipc].
    - [Pipe], [Fd], [ProcTable]: pipe.rs, fd.rs, process_table.rs.
    - [Sched]: scheduling.rs and bare_metal/per_cpu_run_queue.rs.
    - [IpcSched]: the blocking IPC paths of bare_metal/syscall_entry.rs, on
      [Ipc] and [Sched] together.
    - [Paging]: bare_metal/paging.rs.  The mapper uses any allocator that
      satisfies the class [FrameSource] with its laws [FrameSourceLaws];
      [bitmap_source] shows that [FrameAlloc] does.
    - [ElfLoader]: bare_metal/elf_loader.rs, against the same interface.
    - [UserStack]: user_stack_args.rs, the block at the top of a new process's
      stack, with the reading of it that a program's entry code does.
    - [Vfs]: vfs.rs, the in-memory file system as a table of inodes that
      refines a map from paths to nodes.
    - [Initramfs]: initramfs.rs, the boot archive's writer and parser and the
      loading of its entries into [Vfs].
    - [Net]: omni-types net.rs (checksum, header formats, prefixes) and
      omni-net ip.rs (routing, packets).  Each format is an instance of the
      class [Codec] and its laws are the class [CodecLaws].
    - [Tcp]: omni-net tcp.rs, the connection table, the segment state machine
      and the timers, on the packets of [Net]; and the path of a received
      packet to it in service.rs.
    - [Arp]: arp.rs.  [Datagram]: udp.rs and icmp.rs.  [Dns]: dns.rs, lower
      case of Unicode being a parameter.  [Dhcp]: dhcp.rs.  [NetSvc]:
      service.rs and socket_api.rs, on all of these.
    - [BlockBitmap]: omni-fs allocator.rs, bit by bit.
    - [FsBlocks]: the types of omni-fs lib.rs and the block arithmetic that
      both volumes share; [FsSpec]: the abstract view of a volume, a map from
      paths to files and directories, with the contract of each operation.
    - [MemFs]: [InMemoryFs] of lib.rs; [OnDisk]: integrity.rs and the
      operations and the checker of ondisk.rs, over any cipher of the class
      [Aead] with its laws [AeadLaws]; [OnDiskSync]: [sync_to_bytes], [mount]
      and their codecs; [FsService]: the registry, the block requests and the
      service of lib.rs on these volumes.
    - [Glob]: omni-shell glob.rs, patterns and their expansion; the trait
      [FsQuery] is a class.  [ShellLex], [ShellParse], [ShellEnv]: lexer.rs,
      parser.rs, env.rs.  [ShellExec]: executor.rs, command.rs, [process_line]
      of repl.rs and the path functions of glob.rs; the commands of commands/
      are a parameter of the table of builtins.  [LineEditor]: line_editor.rs.
    - [Ring]: slots, laps and byte ranges, shared by the driver files.
      [NvmeQueue]: omni-driver-nvme admin.rs, controller_regs.rs, ring.rs and
      queue.rs, with a controller on the other side of the pages and doorbells;
      register access is the class [Mmio].  [NvmeIo]: io.rs, transfer_model.rs,
      discard.rs, blk_gateway.rs, admin_session.rs, io_session.rs.  [Bringup]:
      bringup.rs of the three drivers as instances of the class
      [BringUpPhases] with its laws [PhaseLaws], bringup_live.rs and
      io_error.rs.  [NvmeNs]: identify.rs, namespace_map.rs, queue_config.rs,
      interrupt.rs.  [BlkWire]: omni-driver-shared blk.rs and blk_channel.rs.
    - [CapDeposit]: cap_deposit.rs and driver_cap_issuer.rs of the kernel with
      the driver's side, omni-driver-shared lib.rs; token encoding and random
      numbers are the class [DepositEnv].
    - [DriverSys], [DriverDma], [DriverIrq]: [mmio_map], [dma_map] and
      [irq_attach] of bare_metal/syscall_entry.rs with their teardown, on the
      page tables of [Paging].  DMA memory comes from any allocator of the
      class [FramePool]; the IOMMU is the class [IommuBackend].
    - [Iommu]: bare_metal/iommu domain.rs, pt_alloc.rs, kernel_frame_source.rs
      and the data of mod.rs; the frame source is the class [PtSource] with its
      laws, which the kernel's source keeps on any allocator, and the register
      window of a unit is the class [MmioUnit].  [Vtd]: vtd.rs and [Amdvi]:
      amdvi.rs, on any unit that keeps the laws [VtdUnitLaws], [AmdUnitLaws]
      (its caches, the queue it reads, its status bits).  [IommuKind]: the
      dispatch of mod.rs, and the binding of a driver's devices in
      bare_metal/syscall_entry.rs.
    - [NetChannel]: omni-types net_channel.rs.  [Virtio]: omni-driver-net-virtio
      and [E1000e]: omni-driver-e1000e, the rings and the driver over them,
      each with the device on the other side of the rings.
    - [Gguf], [Bpe]: gguf.rs and bpe.rs of omni-runtime, on [Str].
    - [DriverPack]: driver_manifest.rs, known_issuers.rs, the admission half of
      [driver_load], and [build_opack] of tools/omni-driver-pack.
    - [ShellSys]: syscall_handlers.rs and console_input.rs, on [Fd], [Pipe],
      [Vfs] and [ProcTable]; [ShellEntry]: the shell calls of the kernel image
      in bare_metal/syscall_entry.rs.

    Each file lists its data and operations first, in the order and with the
    names of the source, then sequences of operations (as lists of operations
    or a step relation), lemmas, theorems, and witnesses that run the theorems
    on concrete states.

    ** What the theorems show

    - Memory: the allocator is first-fit, its counter is exact over any
      sequence of calls, ranges mark exactly the frames they name.  Mapping a
      page adds exactly that translation, keeps the tables a tree and touches
      nothing else; unmapping removes exactly it; loading an executable makes
      every byte of its segments readable at its address.  The parser accepts
      exactly the files whose header table lies within them.
    - Capabilities: the subset test is sound for the denotation, attenuation
      is exact, delegation never gains authority, [verify_full] decides
      validity and reports the first failing check, the Bloom-filtered
      revocation list is equivalent to a set.
    - IPC: channels, created with or without a signed token, are FIFO and lose
      nothing, senders are authentic, the registry keeps its invariant; the
      interrupt table refines a partial function with owners.
    - Scheduling: the invariant of the run queues over all reachable states,
      conservation of tasks, strict priority, round-robin fairness, stack
      isolation, exact work stealing; with IPC: no lost wake-up over all
      interleavings of the blocking calls.
    - Processes: pipes are byte streams, broken pipes stay broken, descriptor
      numbers are handed out first-fit and not re-issued, every child is
      reaped at most once with the code it exited with.  A program reads from
      its initial stack exactly the arguments and environment it was given.
    - Files: creation, deletion, reading and writing on the inode table,
      errors included, are these operations on a map from paths to nodes;
      normalization is idempotent, does not change what a path resolves to and
      leaves only plain names.  The archive format and its parser are inverse
      to each other, and loading an archive adds exactly its entries.
    - File system: the block allocator is first-fit, exact and never panics;
      from a fresh volume, on disk or in memory, every sequence of calls acts
      on the files by the contracts of [FsSpec], errors included; the checker
      reports nothing exactly on consistent volumes; an image written and
      mounted again gives back the volume; the service's answers follow from
      the files alone.
    - Network: each header format round-trips both ways, the checksum of a
      list of slices is that of their concatenation and detects any change of
      one word, a built packet parses back to what it was built from, routing
      is longest prefix then lowest metric.  No sequence of calls, segments
      and timer ticks makes the TCP table panic, and each step is a transition
      of RFC 793 or the installation of an accepted block, which RFC 793 does
      not have and which may replace a connection; what the application reads
      is a prefix of the peer's stream whatever the network does; the three
      packets of a handshake establish both ends; a connection whose peer is
      silent ends.  The address table knows what was last announced; names are
      decoded as RFC 1035 says, whatever their pointers do, up to sixteen
      labels and with the reserved length bytes taken as labels; a DHCP lease
      is what the chosen server granted; and the service, over any requests
      and ticks and frames of any content, shorter than 130,000 bytes as what
      is sent must be, is the composition of these tables and loses no packet.
    - Shell: every line is lexed and parsed without a panic, the parser keeps
      every word, and a printed command list parses back to itself; the
      backtracking matcher always ends and decides the documented language of
      its pattern on names without a separator, beyond which its star takes
      the separator too; expansion gives exactly the matching names in order;
      a line runs as its connectors mean, and its arguments expand piece by
      piece; over any session the working directory stays normal and paths
      resolve as the file system resolves them; the line editor is a text with
      a cursor and a bounded history, for any bytes it is sent.
    - Drivers: between the host and any controller that completes commands in
      any order, the rings lose, duplicate and invent nothing, and never
      overwrite an entry in flight (with a completion queue of one entry,
      which the constructor takes, nothing ever completes); a block request is
      refused for exactly the stated faults or a full queue, and otherwise
      decodes to the command it asks for, and its page list names exactly the
      pages of its buffer; bring-up ends after a bounded number of events and
      is live exactly after all its phases; the namespace map is what the
      pages say; frames and packs round-trip.  A driver finds in its page the
      token of each capability it was given, signed by the kernel.  A granted
      [MmioMap] or [DmaMap] adds exactly the pages asked for, a refused one
      leaves translations, frames and records as they were, and exit takes all
      of them back; a claim of device registers that runs past 2^64 panics
      instead; each interrupt line has one owner at a time, and each errno of
      an attach request has its exact cause; [DriverLoad] admits exactly the
      packs a known issuer signed, presented with a token that allows it.
      Both network drivers, whatever their device does and in whatever order
      it completes buffers, are queues of frames to send and of buffers to
      receive into.
    - IOMMU: over any history of operations on an activated unit, enabling
      translation among them, the tables in memory, as the unit walks them,
      and what the unit has cached of them and of translations agree with the
      devices installed and released, the queue never overruns, and no frame
      is lost or used twice; loading and ending drivers keeps on record
      exactly their devices and gives every frame back.
    - Shell calls: from a fresh kernel every sequence of calls keeps the joint
      state well formed and panics only on an oversized transfer; bytes
      written to a pipe or a file come back; and the kernel image answers each
      of the nineteen calls like the tested handlers, but for the access mode
      of files, the polling of the serial port and the cutting of listings to
      the user's buffer ([entry_agrees]).
    - Models: the parser of model files never panics and accepts exactly the
      files of the format behind four leading bytes that are not the format's,
      so no real file; encoding a text always ends, in the one list of tokens
      that the merge rules define by their order, and decodes back to the
      text.
    - A last group of theorems records where the code departs from its
      documentation or from what it means to do: freeing an address below the
      allocator's base, a failed channel creation that leaves the channel
      behind, a waiter stranded by an interrupt or by a destroyed channel, a
      descriptor number re-issued at [u32::MAX], a 4 KiB mapping under a large
      page, an archive entry whose name climbs out of /bin, an acknowledged
      segment that stays queued, a segment that resets a connection waiting to
      be accepted, blocks leaked by a write that runs out of space, a hole
      reported by the checker, and what a volume loses or how its mount panics
      when a condition of the round trip fails, and in the shell a star that
      crosses a path separator, a connector without a right side, quoted
      variables that are expanded, [$?] that is not, and the output of all
      pipelines of a line but the last; for drivers a self-signed token that
      is granted, a first DMA buffer that is refused, a long transfer that
      passes one limit and fails the next, a byte size that wraps; in the
      shell calls pipes broken by closing or duplicating another descriptor,
      an access mode that is not checked, a seek and a write that stop the
      kernel; in the network service a table that grows without bound, a SYN
      that is never sent, an address nobody asks for, frames for other hosts
      that are answered, a query taken for a response, a datagram whose length
      stops the service, an accept that replaces a connection; for drivers, a
      device address that overflows and a completion queue of one entry that
      never completes; in the network drivers a receive buffer that is not
      posted again or not the one that was filled; in the model parser a magic
      number that no model file has; in the IOMMU layer a freed table that
      stays linked, and devices that are never given an entry.
      [elf_load_correct] and [elf_parse_exact] state the loader's departures
      (the first page of an unaligned segment, the overflow panics on crafted
      headers) as part of its exact behaviour, [tcp_packet_roundtrip] that the
      bytes behind a packet are taken for payload.

    ** Conventions, bounds and fuel

    Memory for [Vec], [String] and maps is always found, up to the length limit
    of a [Vec] ([ISIZE_MAX], beyond which growth panics): the exhaustion of the
    kernel heap is outside the model.
    The workspace profiles set [overflow-checks = true], so [+], [-] and [*]
    on machine integers panic on overflow: they are [add64], [sub64], [mul64]
    in [run].  [usize] is 64 bits wide.  Loops over ranges recurse on the
    number of rounds.  Where a loop's bound is not structural: the allocator's
    range loop gets as many rounds as frames remain below its capacity, which
    its own break enforces; the descriptor scan gets one round more than the
    table has entries ([fd_scan_full] shows that it only fails when every
    number is taken); a page walk has four levels; the program-header iterator
    gets one round more than the headers that remain and the segment loop one
    more than there are headers ([collect_spec]); the dynamic-section loop gets
    one round more than the entries that fit ([find_rela_fuel]); the archive
    parser gets one round more than the archive has bytes, and each round
    consumes at least six ([parse_loop_inv]); the carry fold of the checksum
    gets 32 rounds, of which a 32-bit sum needs two ([fold_carries_spec]); the
    reader of the tag block gets as many rounds as the block has bytes, and
    each round consumes 24 ([read_tags_spec]); the lexer and the expansion of
    variables get as many rounds as characters, the parser's loops one more
    than tokens, and each round consumes at least one ([lex_loop_total],
    [expand_total], [parse_args_spec], [parse_stages_spec],
    [parse_entries_spec]); the pattern matcher gets [glob_fuel], a bound on the
    tries of its last star times the length of a walk, which its invariant
    [walk_inv] shows to be enough; the page loops of the driver calls get one
    round more than the pages of the request ([page_fuel]); the polling loops
    of the NVMe driver and of the IOMMU units have the source's own limit
    (the latter counted in binary, [poll_upto_nat]); a name gets one round
    more than the source's limit of pointer hops, the DHCP options as many
    rounds as bytes; completed descriptors are taken from a virtio queue in one
    round more than there are ([drain_fuel_exact]) and from an e1000e ring in
    as many as its size ([reap_tx_spec]); a text of [n] bytes is merged in
    [n] rounds ([merge_loop_spec]); a console read takes the
    list of what the serial port will answer and is still waiting ([None]) when
    that list ends, since the source's loop has no bound.

    Statics guarded by the single-CPU discipline or a spin lock are state
    arguments, and each operation is atomic.  The direct-map pointer
    [phys_offset + p] is the physical address [p].

    ** What is not modelled

    Assembly and register-level code (context switch, system-call entry,
    descriptor tables, APIC, multi-processor start-up, TLB shoot-down) has its
    meaning in the hardware. Third-party code (postcard, BLAKE3, Ed25519,
    ChaCha20-Poly1305) is a parameter with the hypotheses the code relies on.
    [spawn_kernel_task] maps a stack and builds a register frame: only its
    scheduling effect, an enqueue of a fresh task, is here. Of the driver
    and shell calls, process creation ([spawn_from_elf], [process_spawn], the
    part of [driver_load] behind admission other than the binding of devices)
    and the block-channel calls are not here. Neither are
    per-process address spaces, the shell's completion, intents
    and remaining commands, and the crates that touch no state of the kernel
    (tensors, serving, containers, agents, display, consensus). The intent label
    and the audit record of a shell line do not reach its result. *)

From stdpp Require Import base numbers list gmap sets.
From Stdlib Require Import ZArith Lia.

#[global] Open Scope Z_scope.

(** ** Machine integers

    A Rust unsigned integer of width [w] is a [Z] in [0, 2^w).  Plain [+],
    [-] and [*] are compiled with [overflow-checks = true] (src/Cargo.toml),
    so an overflow aborts the computation: these operations return in the
    [run] monad below.  The explicitly wrapping, saturating and checked
    variants of the standard library are total. *)

Definition u64_max : Z := 2 ^ 64 - 1.
Definition u32_max : Z := 2 ^ 32 - 1.
Definition is_u8 (x : Z) : Prop := 0 <= x < 256.
Definition is_u16 (x : Z) : Prop := 0 <= x < 2 ^ 16.
Definition is_u32 (x : Z) : Prop := 0 <= x < 2 ^ 32.
Definition is_u64 (x : Z) : Prop := 0 <= x < 2 ^ 64.

Definition wrap64 (x : Z) : Z := x mod 2 ^ 64.
Definition wrap32 (x : Z) : Z := x mod 2 ^ 32.
Definition saturating_add64 (a b : Z) : Z := Z.min (a + b) u64_max.
Definition saturating_sub (a b : Z) : Z := Z.max (a - b) 0.
Definition saturating_add32 (a b : Z) : Z := Z.min (a + b) u32_max.
Definition checked_add64 (a b : Z) : option Z :=
  if a + b <? 2 ^ 64 then Some (a + b) else None.
Definition checked_mul64 (a b : Z) : option Z :=
  if a * b <? 2 ^ 64 then Some (a * b) else None.
Definition checked_add32 (a b : Z) : option Z :=
  if a + b <? 2 ^ 32 then Some (a + b) else None.

(** Bitwise complement [!x] of a [u64]. *)
Definition not64 (x : Z) : Z := Z.lxor x u64_max.

(** ** Evaluation outcomes

    [run] is the outcome of a Rust evaluation: a value, or a panic (failed
    overflow check, slice index out of bounds).  [result] is Rust's
    [Result].  Both are monads with stdpp's [x ← c; k] notation. *)

Inductive run (A : Type) : Type :=
| Done (a : A)
| Panicked.
Arguments Done {A} _.
Arguments Panicked {A}.

Inductive result (E A : Type) : Type :=
| Ok (a : A)
| Err (e : E).
Arguments Ok {E A} _.
Arguments Err {E A} _.

#[global] Instance run_ret : MRet run := @Done.
#[global] Instance run_bind : MBind run := fun A B f c =>
  match c with Done a => f a | Panicked => Panicked end.
#[global] Instance result_ret {E} : MRet (result E) := @Ok E.
#[global] Instance result_bind {E} : MBind (result E) := fun A B f c =>
  match c with Ok a => f a | Err e => Err e end.

Definition ok_or {E A} (o : option A) (e : E) : result E A :=
  match o with Some a => Ok a | None => Err e end.

Definition add64 (a b : Z) : run Z :=
  if a + b <? 2 ^ 64 then Done (a + b) else Panicked.
Definition mul64 (a b : Z) : run Z :=
  if a * b <? 2 ^ 64 then Done (a * b) else Panicked.
Definition sub64 (a b : Z) : run Z :=
  if b <=? a then Done (a - b) else Panicked.

(** Slice indexing [v[i]], which panics out of bounds. *)
Definition index_run {A} (l : list A) (i : nat) : run A :=
  match l !! i with Some x => Done x | None => Panicked end.

(** [slice.get(a..b)]: [None] when the range is reversed or runs past the
    end. The bounds are compared as integers before any list is cut. *)
Definition slice_get {A} (l : list A) (a b : Z) : option (list A) :=
  if (a <=? b) && (b <=? Z.of_nat (length l))
  then Some (take (Z.to_nat (b - a)) (drop (Z.to_nat a) l)) else None.

(** ** Little-endian integers *)

Fixpoint from_le_bytes (bs : list Z) : Z :=
  match bs with
  | [] => 0
  | b :: bs => b + 256 * from_le_bytes bs
  end.

Fixpoint to_le_bytes (n : nat) (x : Z) : list Z :=
  match n with
  | O => []
  | S n => x mod 256 :: to_le_bytes n (x / 256)
  end.

(** ** Counting

    [count_below p n] is the number of [i] in [0, n) with [p i]. *)
Fixpoint count_below (p : Z -> bool) (n : nat) : Z :=
  match n with
  | O => 0
  | S k => count_below p k + Z.b2z (p (Z.of_nat k))
  end.

(** ** Automation *)

Create HintDb omni.

(** Boolean comparisons of [Z] to propositions, then [lia]. *)
Ltac zbool :=
  repeat match goal with
    | H : (_ <? _) = true |- _ => apply Z.ltb_lt in H
    | H : (_ <? _) = false |- _ => apply Z.ltb_ge in H
    | H : (_ <=? _) = true |- _ => apply Z.leb_le in H
    | H : (_ <=? _) = false |- _ => apply Z.leb_gt in H
    | H : (_ =? _) = true |- _ => apply Z.eqb_eq in H
    | H : (_ =? _) = false |- _ => apply Z.eqb_neq in H
    | H : (_ && _)%bool = true |- _ => apply andb_true_iff in H as [? ?]
    | H : (_ || _)%bool = false |- _ => apply orb_false_iff in H as [? ?]
    | H : negb _ = true |- _ => apply negb_true_iff in H
    | H : negb _ = false |- _ => apply negb_false_iff in H
    end.

(** Invert a successful step of a [run] or [result] computation. *)
Ltac run_inv :=
  repeat match goal with
    | H : mbind _ ?c = Done _ |- _ =>
        let E := fresh "E" in destruct c eqn:E; cbn in H; [|discriminate H]
    | H : mbind _ ?c = Ok _ |- _ =>
        let E := fresh "E" in destruct c eqn:E; cbn in H; [|discriminate H]
    | H : Done _ = Done _ |- _ => injection H as H; subst
    | H : Ok _ = Ok _ |- _ => injection H as H; subst
    end.

(** ** Lemmas on machine integers *)

Lemma add64_done a b : a + b < 2 ^ 64 -> add64 a b = Done (a + b).
Proof. intros H. unfold add64. by rewrite (proj2 (Z.ltb_lt _ _) H). Qed.

Lemma mul64_done a b : a * b < 2 ^ 64 -> mul64 a b = Done (a * b).
Proof. intros H. unfold mul64. by rewrite (proj2 (Z.ltb_lt _ _) H). Qed.

Lemma add64_inv a b c : add64 a b = Done c -> c = a + b /\ a + b < 2 ^ 64.
Proof. unfold add64. case_match; zbool; naive_solver. Qed.

Lemma mul64_inv a b c : mul64 a b = Done c -> c = a * b /\ a * b < 2 ^ 64.
Proof. unfold mul64. case_match; zbool; naive_solver. Qed.

Lemma checked_add64_some a b c :
  checked_add64 a b = Some c <-> c = a + b /\ a + b < 2 ^ 64.
Proof.
  unfold checked_add64. case_match; zbool.
  - split; [intros [= <-]; lia|intros [-> _]; done].
  - split; [done|lia].
Qed.

Lemma testbit_u8_high x n : is_u8 x -> 8 <= n -> Z.testbit x n = false.
Proof.
  intros H Hn. destruct (decide (x = 0)) as [->|]; [apply Z.testbit_0_l|]. unfold is_u8 in H.
  apply Z.bits_above_log2; [lia|]. apply Z.log2_lt_pow2; [lia|]. apply Z.lt_le_trans with (2 ^ 8); [lia|].
  apply Z.pow_le_mono_r; lia.
Qed.

Lemma testbit_u64_high x n : is_u64 x -> 64 <= n -> Z.testbit x n = false.
Proof.
  intros [H0 H1] Hn. destruct (decide (x = 0)) as [->|Hx]; [apply Z.testbit_0_l|].
  apply Z.bits_above_log2; [lia|].
  apply Z.log2_lt_pow2; [lia|]. eapply Z.lt_le_trans; [exact H1|].
  apply Z.pow_le_mono_r; lia.
Qed.

Lemma testbit_u64_max n : 0 <= n -> Z.testbit u64_max n = (n <? 64).
Proof.
  intros Hn. change u64_max with (Z.ones 64).
  destruct (Z.ltb_spec n 64).
  - apply Z.ones_spec_low; lia.
  - apply Z.ones_spec_high; lia.
Qed.

Lemma is_u64_bits x :
  0 <= x -> (forall n, 64 <= n -> Z.testbit x n = false) -> is_u64 x.
Proof.
  intros H0 H. split; [done|].
  destruct (Z.lt_ge_cases x (2 ^ 64)) as [|Hge]; [done|].
  assert (64 <= Z.log2 x) by (apply Z.log2_le_pow2; lia).
  assert (Z.testbit x (Z.log2 x) = true) by (apply Z.bit_log2; lia).
  rewrite H in *; [discriminate|lia].
Qed.

Lemma testbit_bit b n : 0 <= b -> Z.testbit (Z.shiftl 1 b) n = (n =? b).
Proof.
  intros Hb. rewrite Z.shiftl_1_l. rewrite Z.pow2_bits_eqb by done.
  apply Z.eqb_sym.
Qed.

Lemma testbit_not64 x n : 0 <= n -> Z.testbit (not64 x) n = xorb (Z.testbit x n) (n <? 64).
Proof. intros Hn. unfold not64. by rewrite Z.lxor_spec, testbit_u64_max. Qed.

(** Testing a single bit with [w & (1 << b)]. *)
Lemma land_bit_zero w b : 0 <= b -> (Z.land w (Z.shiftl 1 b) =? 0) = negb (Z.testbit w b).
Proof.
  intros Hb. destruct (Z.testbit w b) eqn:E; cbn.
  - apply Z.eqb_neq. intros H.
    assert (Z.testbit (Z.land w (Z.shiftl 1 b)) b = true) as H1.
    { rewrite Z.land_spec, testbit_bit, E, Z.eqb_refl; done. }
    rewrite H, Z.testbit_0_l in H1. discriminate.
  - apply Z.eqb_eq. apply Z.bits_inj'. intros n Hn.
    rewrite Z.land_spec, testbit_bit, Z.testbit_0_l by done.
    destruct (Z.eqb_spec n b) as [->|]; [by rewrite E|apply andb_false_r].
Qed.

Lemma testbit_set_bit w b n :
  0 <= b -> Z.testbit (Z.lor w (Z.shiftl 1 b)) n = Z.testbit w n || (n =? b).
Proof. intros. by rewrite Z.lor_spec, testbit_bit. Qed.

Lemma testbit_clear_bit w b n :
  0 <= b < 64 -> 0 <= n -> is_u64 w ->
  Z.testbit (Z.land w (not64 (Z.shiftl 1 b))) n = Z.testbit w n && negb (n =? b).
Proof.
  intros Hb Hn Hw. rewrite Z.land_spec, testbit_not64, testbit_bit by lia.
  destruct (Z.ltb_spec n 64); [by destruct (n =? b)|].
  by rewrite testbit_u64_high.
Qed.

Lemma set_bit_u64 w b : is_u64 w -> 0 <= b < 64 -> is_u64 (Z.lor w (Z.shiftl 1 b)).
Proof.
  intros Hw Hb. apply is_u64_bits.
  - apply Z.lor_nonneg. rewrite Z.shiftl_1_l. destruct Hw; lia.
  - intros n Hn. rewrite testbit_set_bit by lia.
    rewrite testbit_u64_high by (done || lia).
    destruct (Z.eqb_spec n b); [lia|done].
Qed.

Lemma clear_bit_u64 w x : is_u64 w -> is_u64 (Z.land w x).
Proof.
  intros Hw. apply is_u64_bits.
  - apply Z.land_nonneg. destruct Hw; lia.
  - intros n Hn. rewrite Z.land_spec, testbit_u64_high by done. done.
Qed.

(** Masks: [x & !(2^k - 1)] rounds down to a multiple of [2^k]. *)
Lemma land_ones_mod x k : 0 <= k -> Z.land x (2 ^ k - 1) = x mod 2 ^ k.
Proof.
  intros Hk. replace (2 ^ k - 1) with (Z.ones k) by (rewrite Z.ones_equiv; lia).
  by apply Z.land_ones.
Qed.

Lemma land_not_mask x k :
  is_u64 x -> 0 <= k <= 64 -> Z.land x (not64 (2 ^ k - 1)) = x - x mod 2 ^ k.
Proof.
  intros Hx Hk. pose proof (Z.div_mod x (2 ^ k)) as Hdm.
  assert (Z.land x (not64 (2 ^ k - 1)) = Z.shiftl (Z.shiftr x k) k) as ->.
  { apply Z.bits_inj'. intros n Hn.
    rewrite Z.land_spec, testbit_not64 by done.
    replace (2 ^ k - 1) with (Z.ones k) by (rewrite Z.ones_equiv; lia).
    rewrite Z.testbit_ones by lia.
    destruct (Z.lt_ge_cases n k).
    - rewrite Z.shiftl_spec_low by done.
      rewrite (proj2 (Z.ltb_lt n k)), (proj2 (Z.leb_le 0 n)), (proj2 (Z.ltb_lt n 64)) by lia.
      apply andb_false_r.
    - rewrite Z.shiftl_spec_high, Z.shiftr_spec by lia.
      replace (n - k + k) with n by lia.
      rewrite (proj2 (Z.ltb_ge n k)), andb_false_r by lia.
      destruct (Z.ltb_spec n 64); [by rewrite andb_true_r|].
      rewrite testbit_u64_high by done. done. }
  rewrite Z.shiftl_mul_pow2, Z.shiftr_div_pow2 by lia.
  rewrite Z.mul_comm. lia.
Qed.

(** ** Lemmas on counting *)

Lemma count_below_ext p q n :
  (forall i, 0 <= i < Z.of_nat n -> p i = q i) -> count_below p n = count_below q n.
Proof.
  induction n as [|n IH]; intros H; cbn; [done|].
  rewrite IH by (intros; apply H; lia). by rewrite H by lia.
Qed.

Lemma count_below_bounds p n : 0 <= count_below p n <= Z.of_nat n.
Proof. induction n as [|n IH]; cbn [count_below]; [lia|]. destruct (p (Z.of_nat n)); cbn; lia. Qed.

Lemma count_below_flip p q n j :
  0 <= j < Z.of_nat n -> p j = false -> q j = true ->
  (forall i, 0 <= i < Z.of_nat n -> i <> j -> p i = q i) ->
  count_below q n = count_below p n + 1.
Proof.
  induction n as [|n IH]; intros Hj Hp Hq H; [lia|]. cbn [count_below].
  destruct (decide (j = Z.of_nat n)) as [->|Hne].
  - rewrite Hp, Hq. cbn. rewrite (count_below_ext q p); [lia|].
    intros; symmetry; apply H; lia.
  - rewrite IH; [|lia|done|done|intros; apply H; lia].
    rewrite (H (Z.of_nat n)) by lia. lia.
Qed.

Lemma count_below_zero p n :
  count_below p n = 0 <-> (forall i, 0 <= i < Z.of_nat n -> p i = false).
Proof.
  induction n as [|n IH]; cbn [count_below]; [split; [lia|done]|].
  pose proof (count_below_bounds p n) as Hb. split.
  - intros H i Hi. destruct (p (Z.of_nat n)) eqn:E; cbn in H; [lia|].
    destruct (decide (i = Z.of_nat n)) as [->|]; [done|]. apply IH; lia.
  - intros H'. rewrite (H' (Z.of_nat n)) by lia. cbn. rewrite (proj2 IH); [lia|].
    intros; apply H'; lia.
Qed.

Lemma count_below_all p n :
  (forall i, 0 <= i < Z.of_nat n -> p i = true) -> count_below p n = Z.of_nat n.
Proof.
  induction n as [|n IH]; intros H; cbn [count_below]; [done|].
  rewrite IH by (intros; apply H; lia). rewrite H by lia. cbn. lia.
Qed.

(** ** Lemmas on little-endian integers *)

Lemma to_le_bytes_length n x : length (to_le_bytes n x) = n.
Proof. revert x. induction n; intros x; cbn; [done|]. by rewrite IHn. Qed.

Lemma from_to_le_bytes n x : from_le_bytes (to_le_bytes n x) = x mod 2 ^ (8 * Z.of_nat n).
Proof.
  revert x. induction n as [|n IH]; intros x; cbn [to_le_bytes from_le_bytes].
  - by rewrite Z.mod_1_r.
  - rewrite IH. replace (8 * Z.of_nat (S n)) with (8 + 8 * Z.of_nat n) by lia.
    rewrite Z.pow_add_r by lia. change (2 ^ 8) with 256.
    rewrite (Z.rem_mul_r x 256) by lia. lia.
Qed.

Lemma to_le_bytes_u8 n x : Forall is_u8 (to_le_bytes n x).
Proof.
  revert x. induction n; intros x; cbn; constructor; [|done].
  apply Z.mod_pos_bound. lia.
Qed.

Lemma from_le_bytes_bound bs :
  Forall is_u8 bs -> 0 <= from_le_bytes bs < 2 ^ (8 * Z.of_nat (length bs)).
Proof.
  induction 1 as [|b bs Hb _ IH]; cbn [from_le_bytes length]; [lia|].
  replace (8 * Z.of_nat (S (length bs))) with (8 + 8 * Z.of_nat (length bs)) by lia.
  rewrite Z.pow_add_r by lia. change (2 ^ 8) with 256. unfold is_u8 in Hb. nia.
Qed.

Lemma to_from_le_bytes bs : Forall is_u8 bs -> to_le_bytes (length bs) (from_le_bytes bs) = bs.
Proof.
  induction 1 as [|b bs Hb _ IH]; cbn [from_le_bytes length to_le_bytes]; [done|].
  unfold is_u8 in Hb. f_equal.
  - rewrite Z.mul_comm, Z.mod_add by lia. apply Z.mod_small. lia.
  - replace ((b + 256 * from_le_bytes bs) / 256) with (from_le_bytes bs); [done|].
    rewrite Z.add_comm, Z.mul_comm, Z.div_add_l by lia.
    rewrite (Z.div_small b) by lia. lia.
Qed.

(** ** Lemmas on slices *)

Lemma slice_get_some {A} (l : list A) a b s :
  slice_get l a b = Some s ->
  a <= b <= Z.of_nat (length l) /\ s = take (Z.to_nat (b - a)) (drop (Z.to_nat a) l).
Proof. unfold slice_get. case_match; [|done]. zbool. intros [= <-]. split; [lia|done]. Qed.

Lemma slice_get_length {A} (l : list A) a b s :
  0 <= a -> slice_get l a b = Some s -> Z.of_nat (length s) = b - a.
Proof.
  intros Ha [H ->]%slice_get_some. rewrite length_take, length_drop. lia.
Qed.

Lemma slice_get_Forall {A} (P : A -> Prop) (l : list A) a b s :
  Forall P l -> slice_get l a b = Some s -> Forall P s.
Proof. intros HP [_ ->]%slice_get_some. by apply Forall_take, Forall_drop. Qed.

Lemma slice_get_full {A} (l r : list A) n :
  Z.of_nat (length l) = n -> slice_get (l ++ r) 0 n = Some l.
Proof.
  intros <-. unfold slice_get. rewrite length_app.
  rewrite (proj2 (Z.leb_le _ _)), (proj2 (Z.leb_le _ _)) by lia. cbn [andb].
  rewrite Z.sub_0_r, Nat2Z.id, drop_0. by rewrite take_app_length.
Qed.

#[export] Hint Rewrite to_le_bytes_length : omni.
