(* ===== verification/Str.v ===== *)
(** * Strings

    What the components use of Rust's [str] and [String]: byte strings, search
    and comparison, the order in which [BTreeMap] iterates over string keys,
    UTF-8 validation and its lossy decoding. *)

From Stdlib Require Import ZArith Lia Ascii String.
From stdpp Require Import base numbers list sorting.
From S2P Require Import Prelude.
Local Open Scope list_scope.

(** ** Strings *)

Abbreviation str := (list Z).

(** The bytes of a string literal. *)
Definition lit (s : string) : str :=
  map (fun c => Z.of_N (Ascii.N_of_ascii c)) (String.list_ascii_of_string s).

Definition str_eqb (a b : str) : bool := bool_decide (a = b).

(** [str::starts_with]. *)
Fixpoint starts_with (s p : str) {struct p} : bool :=
  match p, s with
  | [], _ => true
  | c :: p, d :: s => (c =? d) && starts_with s p
  | _ :: _, [] => false
  end.

(** [str::strip_suffix]. *)
Definition strip_suffix (s suf : str) : option str :=
  let n := (length s - length suf)%nat in
  if str_eqb (drop n s) suf then Some (take n s) else None.

(** [str::rsplit_once] on a one-byte separator: split at its last occurrence. *)
Fixpoint rsplit_once (s : str) (c : Z) : option (str * str) :=
  match s with
  | [] => None
  | d :: s' =>
      match rsplit_once s' c with
      | Some (a, b) => Some (d :: a, b)
      | None => if d =? c then Some ([], s') else None
      end
  end.

(** [str::split] on a one-byte separator. *)
Fixpoint split_on (c : Z) (s : str) : list str :=
  match s with
  | [] => [[]]
  | x :: s =>
      if x =? c then [] :: split_on c s
      else match split_on c s with
           | [] => [[x]]
           | w :: ws => (x :: w) :: ws
           end
  end.

Definition SLASH : Z := 47.

(** [BTreeMap] iteration: names in byte order. *)
Fixpoint str_leb (a b : str) : bool :=
  match a, b with
  | [], _ => true
  | _ :: _, [] => false
  | x :: a, y :: b => (x <? y) || ((x =? y) && str_leb a b)
  end.

Definition str_le (a b : str) : Prop := str_leb a b = true.
#[global] Instance str_le_dec : RelDecision str_le.
Proof. intros a b. unfold str_le. apply _. Defined.

Definition name_le (x y : str * Z) : Prop := str_leb (fst x) (fst y) = true.
#[global] Instance name_le_dec : RelDecision name_le.
Proof. intros x y. unfold name_le. apply _. Defined.

(** ** UTF-8

    [core::str::from_utf8] accepts exactly the byte sequences of RFC 3629. *)

Definition cont (b : Z) : bool := (0x80 <=? b) && (b <=? 0xBF).
Definition within (lo hi b : Z) : bool := (lo <=? b) && (b <=? hi).

Fixpoint utf8_valid (l : list Z) : bool :=
  match l with
  | [] => true
  | b0 :: l1 =>
      if b0 <? 0x80 then utf8_valid l1 else
      match l1 with
      | [] => false
      | b1 :: l2 =>
          if within 0xC2 0xDF b0 then cont b1 && utf8_valid l2 else
          match l2 with
          | [] => false
          | b2 :: l3 =>
              if (b0 =? 0xE0) && within 0xA0 0xBF b1 || within 0xE1 0xEC b0 && cont b1 ||
                 (b0 =? 0xED) && within 0x80 0x9F b1 || within 0xEE 0xEF b0 && cont b1
              then cont b2 && utf8_valid l3 else
              match l3 with
              | [] => false
              | b3 :: l4 =>
                  ((b0 =? 0xF0) && within 0x90 0xBF b1 || within 0xF1 0xF3 b0 && cont b1 ||
                   (b0 =? 0xF4) && within 0x80 0x8F b1) && cont b2 && cont b3 && utf8_valid l4
              end
          end
      end
  end.

(** [str::as_bytes], on the characters of a string, and the characters of
    valid UTF-8. *)
Definition char_bytes (c : Z) : list Z :=
  if c <? 0x80 then [c] else
  if c <? 0x800 then [0xC0 + c / 64; 0x80 + c mod 64] else
  if c <? 0x10000 then [0xE0 + c / 4096; 0x80 + c / 64 mod 64; 0x80 + c mod 64]
  else [0xF0 + c / 262144; 0x80 + c / 4096 mod 64; 0x80 + c / 64 mod 64; 0x80 + c mod 64].
Definition as_bytes (s : str) : list Z := concat (map char_bytes s).

Fixpoint decode_utf8 (l : list Z) : list Z :=
  match l with
  | [] => []
  | b0 :: l1 =>
      if b0 <? 0x80 then b0 :: decode_utf8 l1 else
      match l1 with
      | [] => []
      | b1 :: l2 =>
          if b0 <? 0xE0 then (b0 - 0xC0) * 64 + (b1 - 0x80) :: decode_utf8 l2 else
          match l2 with
          | [] => []
          | b2 :: l3 =>
              if b0 <? 0xF0 then (b0 - 0xE0) * 4096 + (b1 - 0x80) * 64 + (b2 - 0x80) :: decode_utf8 l3 else
              match l3 with
              | [] => []
              | b3 :: l4 => (b0 - 0xF0) * 262144 + (b1 - 0x80) * 4096 + (b2 - 0x80) * 64 + (b3 - 0x80) :: decode_utf8 l4
              end
          end
      end
  end.

(** [core::str::from_utf8] followed by [chars()]. *)
Definition from_utf8 (l : list Z) : option (list Z) := if utf8_valid l then Some (decode_utf8 l) else None.

(** A [char]: a scalar value, no surrogate. *)
Definition is_char (c : Z) : Prop := 0 <= c < 0xD800 \/ 0xE000 <= c < 0x110000.

(** [String::from_utf8_lossy]: each maximal prefix of a character that cannot
    be continued becomes U+FFFD. *)

Definition REPLACEMENT : str := [0xEF; 0xBF; 0xBD].

Definition second_of_3 (b0 b1 : Z) : bool :=
  (b0 =? 0xE0) && within 0xA0 0xBF b1 || within 0xE1 0xEC b0 && cont b1 ||
  (b0 =? 0xED) && within 0x80 0x9F b1 || within 0xEE 0xEF b0 && cont b1.
Definition second_of_4 (b0 b1 : Z) : bool :=
  (b0 =? 0xF0) && within 0x90 0xBF b1 || within 0xF1 0xF3 b0 && cont b1 || (b0 =? 0xF4) && within 0x80 0x8F b1.

Fixpoint from_utf8_lossy (l : list Z) : str :=
  match l with
  | [] => []
  | b0 :: l1 =>
      if b0 <? 0x80 then b0 :: from_utf8_lossy l1 else
      if within 0xC2 0xDF b0 then
        match l1 with
        | b1 :: l2 => if cont b1 then b0 :: b1 :: from_utf8_lossy l2 else REPLACEMENT ++ from_utf8_lossy l1
        | [] => REPLACEMENT
        end
      else if within 0xE0 0xEF b0 then
        match l1 with
        | b1 :: l2 =>
            if second_of_3 b0 b1 then
              match l2 with
              | b2 :: l3 => if cont b2 then b0 :: b1 :: b2 :: from_utf8_lossy l3 else REPLACEMENT ++ from_utf8_lossy l2
              | [] => REPLACEMENT
              end
            else REPLACEMENT ++ from_utf8_lossy l1
        | [] => REPLACEMENT
        end
      else if within 0xF0 0xF4 b0 then
        match l1 with
        | b1 :: l2 =>
            if second_of_4 b0 b1 then
              match l2 with
              | b2 :: l3 =>
                  if cont b2 then
                    match l3 with
                    | b3 :: l4 =>
                        if cont b3 then b0 :: b1 :: b2 :: b3 :: from_utf8_lossy l4 else REPLACEMENT ++ from_utf8_lossy l3
                    | [] => REPLACEMENT
                    end
                  else REPLACEMENT ++ from_utf8_lossy l2
              | [] => REPLACEMENT
              end
            else REPLACEMENT ++ from_utf8_lossy l1
        | [] => REPLACEMENT
        end
      else REPLACEMENT ++ from_utf8_lossy l1
  end.

(** [&bytes[a..b]], which panics out of bounds. *)
Definition slice_run (l : list Z) (a b : Z) : run (list Z) :=
  match slice_get l a b with Some s => Done s | None => Panicked end.

(** ** Lemmas *)

Lemma str_eqb_eq a b : str_eqb a b = true <-> a = b.
Proof. apply bool_decide_eq_true. Qed.

Lemma starts_with_spec s p : starts_with s p = true <-> exists r, s = p ++ r.
Proof.
  revert s. induction p as [|c p IH]; intros s; cbn.
  - split; intros _; [by exists s|reflexivity].
  - destruct s as [|d s].
    + split; [done|]. by intros [r ?].
    + rewrite andb_true_iff, Z.eqb_eq, IH. split.
      * intros [-> [r ->]]. by exists r.
      * intros [r [= -> ->]]. eauto.
Qed.

Lemma strip_suffix_some s suf p : strip_suffix s suf = Some p -> s = p ++ suf.
Proof.
  unfold strip_suffix. destruct (str_eqb _ _) eqn:E; [|done].
  apply str_eqb_eq in E. intros [= <-].
  remember (length s - length suf)%nat as n eqn:Hn. clear Hn. subst suf. by rewrite take_drop.
Qed.

Lemma strip_suffix_app p suf : strip_suffix (p ++ suf) suf = Some p.
Proof.
  unfold strip_suffix. rewrite length_app. replace (length p + length suf - length suf)%nat with (length p) by lia.
  rewrite drop_app_length, take_app_length. by rewrite (proj2 (str_eqb_eq suf suf)).
Qed.

Lemma rsplit_once_last a b c : c ∉ b -> rsplit_once (a ++ c :: b) c = Some (a, b).
Proof.
  intros Hb. assert (rsplit_once b c = None) as Hn.
  { induction b as [|x b IH]; cbn; [done|]. apply not_elem_of_cons in Hb as [Hx Hb].
    rewrite IH by done. by rewrite (proj2 (Z.eqb_neq x c)) by congruence. }
  induction a as [|x a IH]; cbn; [by rewrite Hn, Z.eqb_refl|]. by rewrite IH.
Qed.

Lemma str_leb_total a b : str_leb a b = true \/ str_leb b a = true.
Proof.
  revert b. induction a as [|x a IH]; intros [|y b]; cbn [str_leb]; [by left|by left|by right|].
  destruct (Z.lt_trichotomy x y) as [H|[->|H]].
  - left. by rewrite (proj2 (Z.ltb_lt _ _) H).
  - rewrite Z.ltb_irrefl, Z.eqb_refl. apply IH.
  - right. by rewrite (proj2 (Z.ltb_lt _ _) H).
Qed.

Lemma str_leb_trans a b c : str_leb a b = true -> str_leb b c = true -> str_leb a c = true.
Proof.
  revert b c. induction a as [|x a IH]; intros [|y b] [|z c]; cbn [str_leb]; try done.
  rewrite !orb_true_iff, !andb_true_iff, !Z.ltb_lt, !Z.eqb_eq.
  intros [H|[-> H]] [H'|[E H']]; [left; lia|left; lia|left; lia|right]. split; [done|]. by apply (IH b).
Qed.

#[global] Instance str_le_trans : Transitive str_le.
Proof. intros a b c. apply str_leb_trans. Qed.
#[global] Instance str_le_total : Total str_le.
Proof. intros a b. apply str_leb_total. Qed.
#[global] Instance name_le_trans : Transitive name_le.
Proof. intros x y z. apply str_leb_trans. Qed.
#[global] Instance name_le_total : Total name_le.
Proof. intros x y. apply str_leb_total. Qed.

Lemma sorted_fst {A} (l : list (str * A)) :
  StronglySorted (fun a b => str_leb (fst a) (fst b) = true) l <-> StronglySorted (fun a b => str_leb a b = true) (fst <$> l).
Proof.
  induction l as [|x l IH]; [by split; constructor|]. rewrite fmap_cons. split; intros H; apply StronglySorted_inv in H as [H1 H2].
  - constructor; [by apply IH|by apply Forall_fmap].
  - constructor; [by apply IH|by rewrite Forall_fmap in H2].
Qed.

Lemma within_true lo hi b : within lo hi b = true <-> lo <= b <= hi.
Proof. unfold within. rewrite andb_true_iff, !Z.leb_le. done. Qed.

Lemma cont_true b : cont b = true <-> 0x80 <= b <= 0xBF.
Proof. apply within_true. Qed.

Lemma split_on_nonempty c s : split_on c s <> [].
Proof. destruct s as [|x s]; cbn; [done|]. destruct (x =? c); [done|]. by destruct (split_on c s). Qed.

Lemma split_on_no_sep c s : Forall (fun w => c ∉ w) (split_on c s).
Proof.
  induction s as [|x s IH]; cbn; [by repeat constructor; apply not_elem_of_nil|].
  destruct (Z.eqb_spec x c) as [->|Hx]; [constructor; [apply not_elem_of_nil|done]|].
  destruct (split_on c s) as [|w ws] eqn:E; [by apply split_on_nonempty in E|]. apply Forall_cons in IH as [Hw IH].
  constructor; [|done]. rewrite not_elem_of_cons. split; [congruence|done].
Qed.

Lemma split_on_app c w s : c ∉ w -> split_on c (w ++ c :: s) = w :: split_on c s.
Proof.
  induction w as [|x w IH]; intros Hw; cbn; [by rewrite Z.eqb_refl|].
  apply not_elem_of_cons in Hw as [Hx Hw]. rewrite (proj2 (Z.eqb_neq x c)) by congruence. by rewrite IH.
Qed.

Lemma split_on_word c w : c ∉ w -> split_on c w = [w].
Proof.
  induction w as [|x w IH]; intros Hw; cbn; [done|].
  apply not_elem_of_cons in Hw as [Hx Hw]. rewrite (proj2 (Z.eqb_neq x c)) by congruence. by rewrite IH.
Qed.

(** Lossy decoding of valid text loses nothing. *)
Lemma from_utf8_lossy_valid l : utf8_valid l = true -> from_utf8_lossy l = l.
Proof.
  remember (length l) as n eqn:Hn. revert l Hn. induction (lt_wf n) as [n _ IH]. intros [|b0 l1] Hn H; [done|].
  assert (forall k, (length k < n)%nat -> utf8_valid k = true -> from_utf8_lossy k = k) as IH' by (intros k Hk; by eapply IH). clear IH.
  cbn [length] in Hn. cbn [utf8_valid] in H. cbn [from_utf8_lossy].
  destruct (Z.ltb_spec b0 0x80). { f_equal. apply IH'; [lia|done]. }
  destruct l1 as [|b1 l2]; [done|]. cbn [length] in Hn.
  destruct (within 0xC2 0xDF b0) eqn:E2.
  { apply andb_true_iff in H as [-> H]. do 2 f_equal. apply IH'; [lia|done]. }
  destruct l2 as [|b2 l3]; [done|]. cbn [length] in Hn.
  fold (second_of_3 b0 b1) in H. destruct (second_of_3 b0 b1) eqn:E3.
  { assert (within 0xE0 0xEF b0 = true) as ->.
    { apply within_true. unfold second_of_3 in E3. rewrite !orb_true_iff, !andb_true_iff, !within_true, !Z.eqb_eq in E3. lia. }
    apply andb_true_iff in H as [-> H]. do 3 f_equal. apply IH'; [lia|done]. }
  destruct l3 as [|b3 l4]; [done|]. cbn [length] in Hn. fold (second_of_4 b0 b1) in H.
  apply andb_true_iff in H as [[[H4 Hb2]%andb_true_iff Hb3]%andb_true_iff H].
  assert (0xF0 <= b0 <= 0xF4) as Hw.
  { unfold second_of_4 in H4. rewrite !orb_true_iff, !andb_true_iff, !within_true, !Z.eqb_eq in H4. lia. }
  assert (within 0xE0 0xEF b0 = false) as -> by (apply not_true_iff_false; rewrite within_true; lia).
  rewrite (proj2 (within_true _ _ _) Hw), H4, Hb2, Hb3. do 4 f_equal. apply IH'; [lia|done].
Qed.

(** A string's bytes decode to its characters. *)
Lemma from_utf8_char c l : is_char c -> utf8_valid (char_bytes c ++ l) = utf8_valid l /\ decode_utf8 (char_bytes c ++ l) = c :: decode_utf8 l.
Proof.
  intros Hc. unfold is_char in Hc. unfold char_bytes.
  pose proof (Z.div_mod c 64 ltac:(lia)). pose proof (Z.mod_pos_bound c 64 ltac:(lia)).
  pose proof (Z.div_mod (c / 64) 64 ltac:(lia)). pose proof (Z.mod_pos_bound (c / 64) 64 ltac:(lia)).
  pose proof (Z.div_mod (c / 4096) 64 ltac:(lia)). pose proof (Z.mod_pos_bound (c / 4096) 64 ltac:(lia)).
  assert (c / 4096 = c / 64 / 64) by (rewrite Z.div_div by lia; done).
  assert (c / 262144 = c / 4096 / 64) by (rewrite Z.div_div by lia; done).
  assert (forall x, 0x80 <= x < 0xC0 -> cont x = true) as Hcont by (intros x Hx; apply cont_true; lia).
  destruct (Z.ltb_spec c 0x80); [|destruct (Z.ltb_spec c 0x800); [|destruct (Z.ltb_spec c 0x10000)]]; cbn [app utf8_valid decode_utf8].
  - by rewrite (proj2 (Z.ltb_lt c 0x80)).
  - rewrite (proj2 (Z.ltb_ge _ _)) by lia. rewrite (proj2 (within_true _ _ _)), Hcont, (proj2 (Z.ltb_lt _ 0xE0)) by lia. split; [done|f_equal; lia].
  - rewrite (proj2 (Z.ltb_ge _ _)) by lia. rewrite (proj2 (Z.ltb_ge _ 0xE0)), (proj2 (Z.ltb_lt _ 0xF0)) by lia.
    assert (second_of_3 (0xE0 + c / 4096) (0x80 + c / 64 mod 64) = true) as E3.
    { unfold second_of_3. rewrite !orb_true_iff, !andb_true_iff, !within_true, !cont_true, !Z.eqb_eq. lia. }
    assert (within 0xC2 0xDF (0xE0 + c / 4096) = false) as -> by (apply not_true_iff_false; rewrite within_true; lia).
    unfold second_of_3 in E3. rewrite E3, Hcont by lia. split; [done|f_equal; lia].
  - rewrite (proj2 (Z.ltb_ge _ _)) by lia. rewrite (proj2 (Z.ltb_ge _ 0xE0)), (proj2 (Z.ltb_ge _ 0xF0)) by lia.
    assert (second_of_4 (0xF0 + c / 262144) (0x80 + c / 4096 mod 64) = true) as E4.
    { unfold second_of_4. rewrite !orb_true_iff, !andb_true_iff, !within_true, !cont_true, !Z.eqb_eq. lia. }
    assert (second_of_3 (0xF0 + c / 262144) (0x80 + c / 4096 mod 64) = false) as E3.
    { apply not_true_iff_false. unfold second_of_3. rewrite !orb_true_iff, !andb_true_iff, !within_true, !Z.eqb_eq. lia. }
    assert (within 0xC2 0xDF (0xF0 + c / 262144) = false) as -> by (apply not_true_iff_false; rewrite within_true; lia).
    unfold second_of_3 in E3. unfold second_of_4 in E4. rewrite E3, E4, !Hcont by lia. split; [done|f_equal; lia].
Qed.

Lemma from_utf8_as_bytes s : Forall is_char s -> from_utf8 (as_bytes s) = Some s.
Proof.
  intros H. unfold from_utf8. enough (utf8_valid (as_bytes s) = true /\ decode_utf8 (as_bytes s) = s) as [-> ->] by done. unfold as_bytes.
  induction H as [|c s Hc _ [IH1 IH2]]; [done|]. cbn [map concat]. destruct (from_utf8_char c (concat (map char_bytes s)) Hc) as [-> ->]. by rewrite IH2.
Qed.
