(* ===== verification/FrameAlloc.v ===== *)
(** * Physical frame allocator (omni-kernel, memory.rs)

    [BitmapFrameAllocator<N>]: one bit per 4 KiB frame, [N] words of 64 bits,
    first-fit allocation.  The const parameter [N] is the length of the
    [bitmap] list.  The view [frame_used] reads the state of a frame; the
    invariant [alloc_wf] says that the cached counter [free_frames] is the
    number of clear bits.  Every operation is described on that view. *)

From stdpp Require Import base numbers list.
From Stdlib Require Import ZArith Lia.
From S2P Require Import Prelude.

(** ** State *)

Record BitmapFrameAllocator := mkAlloc {
  bitmap : list Z;
  base : Z;
  total_frames : Z;
  free_frames : Z;
}.

Definition FRAME_BYTES : Z := 4096.
Definition FRAMES_PER_WORD : Z := 64.

Definition CAPACITY (a : BitmapFrameAllocator) : Z :=
  Z.of_nat (length (bitmap a)) * FRAMES_PER_WORD.

(** ** Operations *)

(** [BitmapFrameAllocator::new]: every frame starts used. *)
Definition alloc_new (n : nat) (b : Z) : BitmapFrameAllocator :=
  mkAlloc (replicate n u64_max) b 0 0.

Definition frame_idx (a : BitmapFrameAllocator) (phys : Z) : Z :=
  saturating_sub phys (base a) / FRAME_BYTES.

Definition word_bit (i : Z) : nat * Z :=
  (Z.to_nat (i / FRAMES_PER_WORD), i mod FRAMES_PER_WORD).

(** One iteration of the loop of [mark_range_free]. *)
Definition mark_free_step (i : Z) (a : BitmapFrameAllocator) : run BitmapFrameAllocator :=
  let '(w, b) := word_bit i in
  word ← index_run (bitmap a) w;
  if negb (Z.land word (Z.shiftl 1 b) =? 0) then
    t ← add64 (total_frames a) 1;
    f ← add64 (free_frames a) 1;
    Done (mkAlloc (<[w := Z.land word (not64 (Z.shiftl 1 b))]> (bitmap a)) (base a) t f)
  else Done a.

(** One iteration of the loop of [mark_range_used]. *)
Definition mark_used_step (i : Z) (a : BitmapFrameAllocator) : run BitmapFrameAllocator :=
  let '(w, b) := word_bit i in
  word ← index_run (bitmap a) w;
  if Z.land word (Z.shiftl 1 b) =? 0 then
    Done (mkAlloc (<[w := Z.lor word (Z.shiftl 1 b)]> (bitmap a)) (base a)
            (total_frames a) (saturating_sub (free_frames a) 1))
  else Done a.

(** [for i in first..last { if i >= CAPACITY { break } step(i) }]; the loop
    runs at most [CAPACITY - first] times, which is the fuel given below. *)
Fixpoint range_loop (step : Z -> BitmapFrameAllocator -> run BitmapFrameAllocator)
    (fuel : nat) (i last : Z) (a : BitmapFrameAllocator) : run BitmapFrameAllocator :=
  match fuel with
  | O => Done a
  | S fuel =>
      if last <=? i then Done a
      else if CAPACITY a <=? i then Done a
      else a' ← step i a; range_loop step fuel (i + 1) last a'
  end.

Definition mark_range_free (start size : Z) (a : BitmapFrameAllocator)
    : run BitmapFrameAllocator :=
  let first := frame_idx a (Z.land start (not64 (FRAME_BYTES - 1))) in
  let count := size / FRAME_BYTES in
  range_loop mark_free_step (S (Z.to_nat (CAPACITY a - first)))
    first (saturating_add64 first count) a.

Definition mark_range_used (start size : Z) (a : BitmapFrameAllocator)
    : run BitmapFrameAllocator :=
  let first := frame_idx a (Z.land start (not64 (FRAME_BYTES - 1))) in
  let count := (size + FRAME_BYTES - 1) / FRAME_BYTES in
  range_loop mark_used_step (S (Z.to_nat (CAPACITY a - first)))
    first (saturating_add64 first count) a.

(** [u64::trailing_ones]. *)
Fixpoint trailing_ones_from (fuel : nat) (b w : Z) : Z :=
  match fuel with
  | O => b
  | S fuel => if Z.testbit w b then trailing_ones_from fuel (b + 1) w else b
  end.
Definition trailing_ones (w : Z) : Z := trailing_ones_from 64 0 w.

(** The scan of [alloc_frame] for a word that is not full. *)
Fixpoint first_nonfull (wi : nat) (ws : list Z) : option (nat * Z) :=
  match ws with
  | [] => None
  | w :: ws => if w =? u64_max then first_nonfull (S wi) ws else Some (wi, w)
  end.

Definition alloc_frame (a : BitmapFrameAllocator) : run (option Z * BitmapFrameAllocator) :=
  match first_nonfull 0 (bitmap a) with
  | None => Done (None, a)
  | Some (wi, word) =>
      let bit := trailing_ones word in
      let a' := mkAlloc (<[wi := Z.lor word (Z.shiftl 1 bit)]> (bitmap a)) (base a)
                  (total_frames a) (saturating_sub (free_frames a) 1) in
      wbase ← mul64 (Z.of_nat wi) FRAMES_PER_WORD;
      idx ← add64 wbase bit;
      off ← mul64 idx FRAME_BYTES;
      addr ← add64 (base a) off;
      Done (Some addr, a')
  end.

Definition free_frame (addr : Z) (a : BitmapFrameAllocator) : run (bool * BitmapFrameAllocator) :=
  if negb (addr mod FRAME_BYTES =? 0) then Done (false, a) else
  let idx := frame_idx a addr in
  if CAPACITY a <=? idx then Done (false, a) else
  let '(w, b) := word_bit idx in
  word ← index_run (bitmap a) w;
  if Z.land word (Z.shiftl 1 b) =? 0 then Done (false, a) else
  f ← add64 (free_frames a) 1;
  Done (true, mkAlloc (<[w := Z.land word (not64 (Z.shiftl 1 b))]> (bitmap a)) (base a)
                (total_frames a) f).

Definition total_bytes (a : BitmapFrameAllocator) : run Z := mul64 (total_frames a) FRAME_BYTES.
Definition free_bytes (a : BitmapFrameAllocator) : run Z := mul64 (free_frames a) FRAME_BYTES.

(** ** Specification vocabulary *)

(** State of frame [i]: the bit the code reads for it. *)
Definition frame_used (a : BitmapFrameAllocator) (i : Z) : bool :=
  Z.testbit (nth (Z.to_nat (i / 64)) (bitmap a) u64_max) (i mod 64).

Definition frame_addr (a : BitmapFrameAllocator) (i : Z) : Z := base a + i * 4096.

Definition in_cap (a : BitmapFrameAllocator) (i : Z) : Prop := 0 <= i < CAPACITY a.

Record alloc_wf (a : BitmapFrameAllocator) : Prop := {
  wf_words : Forall is_u64 (bitmap a);
  wf_base : is_u64 (base a);
  wf_aligned : base a mod 4096 = 0;
  wf_range : base a + CAPACITY a * 4096 <= 2 ^ 64;
  wf_total : is_u64 (total_frames a);
  wf_free : free_frames a = count_below (fun i => negb (frame_used a i)) (Z.to_nat (CAPACITY a));
}.

(** [a'] is [a] with the state of frame [j] set to [u]; geometry unchanged. *)
Record frame_set (a a' : BitmapFrameAllocator) (j : Z) (u : bool) : Prop := {
  fs_len : length (bitmap a') = length (bitmap a);
  fs_base : base a' = base a;
  fs_words : Forall is_u64 (bitmap a');
  fs_at : frame_used a' j = u;
  fs_other : forall i, in_cap a i -> i <> j -> frame_used a' i = frame_used a i;
}.

(** ** Words and bits *)

Lemma word_index_lt a i : in_cap a i -> (Z.to_nat (i / 64) < length (bitmap a))%nat.
Proof. unfold in_cap, CAPACITY, FRAMES_PER_WORD. intros. apply Nat2Z.inj_lt. rewrite Z2Nat.id; [apply Z.div_lt_upper_bound; lia|apply Z.div_pos; lia]. Qed.

Lemma word_lookup a i :
  in_cap a i -> alloc_wf a \/ Forall is_u64 (bitmap a) ->
  exists w, bitmap a !! Z.to_nat (i / 64) = Some w /\ is_u64 w /\
            frame_used a i = Z.testbit w (i mod 64).
Proof.
  intros Hi Hw. assert (Forall is_u64 (bitmap a)) as Hu by (destruct Hw as [[]|]; done).
  pose proof (word_index_lt _ _ Hi) as Hlt.
  destruct (lookup_lt_is_Some_2 _ _ Hlt) as [w Hl]. exists w. split; [done|].
  split; [by eapply Forall_lookup_1 in Hl|].
  unfold frame_used. rewrite (nth_lookup_Some _ _ _ _ Hl). done.
Qed.

Lemma same_slot i j : 0 <= i -> 0 <= j -> Z.to_nat (i / 64) = Z.to_nat (j / 64) ->
  i mod 64 = j mod 64 -> i = j.
Proof.
  intros Hi Hj Hd Hm. apply Z2Nat.inj in Hd; try (apply Z.div_pos; lia).
  rewrite (Z.div_mod i 64), (Z.div_mod j 64) by lia. lia.
Qed.

(** Replacing the word of frame [j] by one that differs only in its bit. *)
Lemma frame_set_word a j w w' t f u :
  in_cap a j -> Forall is_u64 (bitmap a) ->
  bitmap a !! Z.to_nat (j / 64) = Some w -> is_u64 w' ->
  (forall n, 0 <= n -> Z.testbit w' n = if n =? j mod 64 then u else Z.testbit w n) ->
  frame_set a (mkAlloc (<[Z.to_nat (j / 64) := w']> (bitmap a)) (base a) t f) j u.
Proof.
  intros Hj Hu Hl Hw' Hbit. pose proof (word_index_lt _ _ Hj) as Hlt.
  assert (0 <= j mod 64 < 64) by (apply Z.mod_pos_bound; lia).
  split; cbn.
  - apply length_insert.
  - done.
  - by apply Forall_insert.
  - unfold frame_used; cbn.
    rewrite (nth_lookup_Some _ _ _ w') by (by apply list_lookup_insert_eq).
    rewrite Hbit by lia. by rewrite Z.eqb_refl.
  - intros i Hi Hne. unfold frame_used; cbn.
    assert (0 <= i mod 64 < 64) by (apply Z.mod_pos_bound; lia).
    destruct (decide (Z.to_nat (i / 64) = Z.to_nat (j / 64))) as [Heq|Hd].
    + rewrite Heq.
      rewrite (nth_lookup_Some _ _ _ w') by (by apply list_lookup_insert_eq).
      rewrite (nth_lookup_Some _ _ _ w) by done.
      rewrite Hbit by lia. destruct (Z.eqb_spec (i mod 64) (j mod 64)); [|done].
      destruct Hne. unfold in_cap in *. apply same_slot; lia.
    + destruct (bitmap a !! Z.to_nat (i / 64)) as [x|] eqn:Hx.
      * rewrite !(nth_lookup_Some _ _ _ x); [done|done|].
        rewrite list_lookup_insert_ne; done.
      * apply lookup_ge_None in Hx. pose proof (word_index_lt _ _ Hi). lia.
Qed.

Lemma frame_set_cap a a' j u : frame_set a a' j u -> CAPACITY a' = CAPACITY a.
Proof. intros []. unfold CAPACITY. by rewrite fs_len0. Qed.

(** A [frame_set] that flips a bit moves the free count by one, so the
    invariant is kept when the counter is moved the same way. *)
Lemma wf_frame_set a a' j u :
  alloc_wf a -> in_cap a j -> frame_set a a' j u -> frame_used a j = negb u ->
  is_u64 (total_frames a') ->
  free_frames a' = free_frames a + (if u then -1 else 1) ->
  alloc_wf a'.
Proof.
  intros Hwf Hj Hs Hold Ht Hf. pose proof (frame_set_cap _ _ _ _ Hs) as Hc.
  destruct Hwf, Hs. split; rewrite ?fs_base0, ?Hc; try done.
  rewrite Hf, wf_free0. unfold in_cap in Hj.
  destruct u.
  - rewrite (count_below_flip (fun i => negb (frame_used a' i))
               (fun i => negb (frame_used a i)) _ j); [lia|lia|by rewrite fs_at0|by rewrite Hold|].
    intros i Hi Hne. rewrite fs_other0; [done|unfold in_cap; lia|done].
  - rewrite (count_below_flip (fun i => negb (frame_used a i))
               (fun i => negb (frame_used a' i)) _ j); [lia|lia|by rewrite Hold|by rewrite fs_at0|].
    intros i Hi Hne. rewrite fs_other0; [done|unfold in_cap; lia|done].
Qed.

Lemma free_frames_bounds a : alloc_wf a -> 0 <= free_frames a <= CAPACITY a.
Proof.
  intros [? ? ? ? ? ->]. pose proof (count_below_bounds (fun i => negb (frame_used a i)) (Z.to_nat (CAPACITY a))).
  unfold CAPACITY, FRAMES_PER_WORD in *. lia.
Qed.

Lemma free_frames_pos a j : alloc_wf a -> in_cap a j -> frame_used a j = false -> 0 < free_frames a.
Proof.
  intros Hwf Hj Hu. pose proof (free_frames_bounds _ Hwf). destruct Hwf.
  destruct (Z.eq_dec (free_frames a) 0) as [Hz|]; [|lia].
  rewrite wf_free0 in Hz. rewrite count_below_zero in Hz.
  specialize (Hz j). unfold in_cap in Hj. rewrite Hu in Hz. cbn in Hz.
  assert (true = false) by (apply Hz; lia). done.
Qed.

Lemma cap_small a : alloc_wf a -> 0 <= CAPACITY a < 2 ^ 53.
Proof.
  intros [? ? ? ? ? ?]. unfold is_u64 in *. unfold CAPACITY, FRAMES_PER_WORD in *. lia.
Qed.

Lemma alloc_new_wf n b :
  is_u64 b -> b mod 4096 = 0 -> b + Z.of_nat n * 64 * 4096 <= 2 ^ 64 -> alloc_wf (alloc_new n b).
Proof.
  intros Hb Ha Hr. split; cbn; try done.
  - apply Forall_replicate. unfold is_u64, u64_max. lia.
  - unfold CAPACITY. cbn. by rewrite length_replicate.
  - symmetry. apply count_below_zero. intros i Hi.
    unfold frame_used. cbn. apply negb_false_iff.
    assert (0 <= i mod 64 < 64) by (apply Z.mod_pos_bound; lia).
    destruct (nth_in_or_default (Z.to_nat (i / 64)) (replicate n u64_max) u64_max) as [Hin| ->].
    + apply list_elem_of_In, elem_of_replicate in Hin as [-> _]. rewrite testbit_u64_max by lia. lia.
    + rewrite testbit_u64_max by lia. lia.
Qed.

(** ** Single-frame steps *)

Lemma set_word_bits w b : 0 <= b ->
  forall n, 0 <= n -> Z.testbit (Z.lor w (Z.shiftl 1 b)) n = if n =? b then true else Z.testbit w n.
Proof. intros Hb n Hn. rewrite testbit_set_bit by done. destruct (n =? b); by rewrite ?orb_true_r, ?orb_false_r. Qed.

Lemma clear_word_bits w b : 0 <= b < 64 -> is_u64 w ->
  forall n, 0 <= n -> Z.testbit (Z.land w (not64 (Z.shiftl 1 b))) n = if n =? b then false else Z.testbit w n.
Proof. intros Hb Hw n Hn. rewrite testbit_clear_bit by done. destruct (n =? b); by rewrite ?andb_true_r, ?andb_false_r. Qed.

Lemma mod64_bound i : 0 <= i mod 64 < 64.
Proof. apply Z.mod_pos_bound. lia. Qed.

(** The effect of one loop iteration on a frame in range. *)
Lemma mark_free_step_spec a i :
  alloc_wf a -> in_cap a i -> total_frames a + 1 < 2 ^ 64 ->
  exists a', mark_free_step i a = Done a' /\ alloc_wf a' /\ frame_set a a' i false /\
             total_frames a' = total_frames a + Z.b2z (frame_used a i).
Proof.
  intros Hwf Hi Ht. pose proof (word_lookup _ _ Hi (or_introl Hwf)) as (w & Hl & Hw & Hu).
  pose proof (free_frames_bounds _ Hwf). pose proof (cap_small _ Hwf).
  pose proof (mod64_bound i) as Hm. assert (Forall is_u64 (bitmap a)) as Hf by (by destruct Hwf).
  unfold mark_free_step, word_bit, FRAMES_PER_WORD, index_run. cbn. rewrite Hl. cbn.
  rewrite land_bit_zero, negb_involutive, <- Hu by lia. destruct (frame_used a i) eqn:E.
  - rewrite !add64_done by lia. cbn. eexists. split; [done|].
    assert (frame_set a (mkAlloc (<[Z.to_nat (i / 64) := Z.land w (not64 (Z.shiftl 1 (i mod 64)))]> (bitmap a))
              (base a) (total_frames a + 1) (free_frames a + 1)) i false) as Hs.
    { eapply frame_set_word; eauto using clear_bit_u64. by apply clear_word_bits. }
    split; [|split; [done|cbn; lia]].
    eapply wf_frame_set; eauto; cbn; try lia. destruct Hwf. unfold is_u64 in *. lia.
  - exists a. split; [done|]. split; [done|]. split; [|cbn; lia]. by split.
Qed.

Lemma mark_used_step_spec a i :
  alloc_wf a -> in_cap a i ->
  exists a', mark_used_step i a = Done a' /\ alloc_wf a' /\ frame_set a a' i true /\
             total_frames a' = total_frames a.
Proof.
  intros Hwf Hi. pose proof (word_lookup _ _ Hi (or_introl Hwf)) as (w & Hl & Hw & Hu).
  pose proof (mod64_bound i) as Hm. assert (Forall is_u64 (bitmap a)) as Hf by (by destruct Hwf).
  unfold mark_used_step, word_bit, FRAMES_PER_WORD, index_run. cbn. rewrite Hl. cbn.
  rewrite land_bit_zero, <- Hu by lia. destruct (frame_used a i) eqn:E; cbn.
  - exists a. split; [done|]. split; [done|]. by split.
  - pose proof (free_frames_pos _ _ Hwf Hi E) as Hp. eexists. split; [done|].
    assert (frame_set a (mkAlloc (<[Z.to_nat (i / 64) := Z.lor w (Z.shiftl 1 (i mod 64))]> (bitmap a))
              (base a) (total_frames a) (saturating_sub (free_frames a) 1)) i true) as Hs.
    { eapply frame_set_word; eauto; [apply set_bit_u64; done|]. apply set_word_bits; lia. }
    split; [|by split].
    eapply wf_frame_set; eauto; cbn; [by destruct Hwf|]. unfold saturating_sub. lia.
Qed.

(** ** Range operations *)

(** [a'] is [a] with every in-capacity frame of [lo, hi) set to [u]. *)
Record frames_set (a a' : BitmapFrameAllocator) (lo hi : Z) (u : bool) : Prop := {
  fr_cap : CAPACITY a' = CAPACITY a;
  fr_base : base a' = base a;
  fr_in : forall i, in_cap a i -> lo <= i < hi -> frame_used a' i = u;
  fr_out : forall i, in_cap a i -> ~ (lo <= i < hi) -> frame_used a' i = frame_used a i;
}.

Lemma frames_set_empty a lo hi u :
  (forall i, in_cap a i -> ~ (lo <= i < hi)) -> frames_set a a lo hi u.
Proof. intros H. split; try done. intros i Hi Hr. by destruct (H i Hi). Qed.

Lemma frames_set_cons a a1 a2 lo hi u :
  in_cap a lo -> lo < hi -> frame_set a a1 lo u -> frames_set a1 a2 (lo + 1) hi u ->
  frames_set a a2 lo hi u.
Proof.
  intros Hlo Hlt Hs [Hc Hb Hin Hout]. pose proof (frame_set_cap _ _ _ _ Hs) as Hc1.
  destruct Hs. split; [congruence|congruence| |]; unfold in_cap in *.
  - intros i Hi Hr. destruct (decide (i = lo)) as [->|].
    + rewrite Hout by lia. done.
    + apply Hin; lia.
  - intros i Hi Hr. rewrite Hout by lia. apply fs_other0; [done|lia].
Qed.

Lemma mark_free_loop_spec fuel i last a :
  alloc_wf a -> 0 <= i -> CAPACITY a - i < Z.of_nat fuel ->
  total_frames a + (CAPACITY a - i) < 2 ^ 64 - 1 -> total_frames a < 2 ^ 64 - 1 ->
  exists a', range_loop mark_free_step fuel i last a = Done a' /\ alloc_wf a' /\
             frames_set a a' i last false /\
             total_frames a' <= total_frames a + Z.max 0 (CAPACITY a - i).
Proof.
  revert i a. induction fuel as [|fuel IH]; intros i a Hwf Hi Hfuel Ht Ht0; cbn [range_loop].
  - exists a. split_and!; try done; [|lia]. apply frames_set_empty. unfold in_cap. lia.
  - destruct (Z.leb_spec last i).
    { exists a. split_and!; try done; [|lia]. apply frames_set_empty. unfold in_cap. lia. }
    destruct (Z.leb_spec (CAPACITY a) i).
    { exists a. split_and!; try done; [|lia]. apply frames_set_empty. unfold in_cap. lia. }
    destruct (mark_free_step_spec a i) as (a1 & -> & Hwf1 & Hs & Ht1); [done|unfold in_cap; lia|lia|].
    cbn. pose proof (frame_set_cap _ _ _ _ Hs) as Hc.
    assert (total_frames a <= total_frames a1 <= total_frames a + 1) by (destruct (frame_used a i); cbn in Ht1; lia).
    destruct (IH (i + 1) a1) as (a2 & -> & Hwf2 & Hr & Hle); [done|lia|lia|lia|lia|].
    exists a2. split_and!; [done|done| |lia].
    eapply frames_set_cons; eauto. unfold in_cap. lia.
Qed.

Lemma mark_used_loop_spec fuel i last a :
  alloc_wf a -> 0 <= i -> CAPACITY a - i < Z.of_nat fuel ->
  exists a', range_loop mark_used_step fuel i last a = Done a' /\ alloc_wf a' /\
             frames_set a a' i last true /\ total_frames a' = total_frames a.
Proof.
  revert i a. induction fuel as [|fuel IH]; intros i a Hwf Hi Hfuel; cbn [range_loop].
  - exists a. split_and!; try done. apply frames_set_empty. unfold in_cap. lia.
  - destruct (Z.leb_spec last i).
    { exists a. split_and!; try done. apply frames_set_empty. unfold in_cap. lia. }
    destruct (Z.leb_spec (CAPACITY a) i).
    { exists a. split_and!; try done. apply frames_set_empty. unfold in_cap. lia. }
    destruct (mark_used_step_spec a i) as (a1 & -> & Hwf1 & Hs & Ht1); [done|unfold in_cap; lia|].
    cbn. pose proof (frame_set_cap _ _ _ _ Hs) as Hc.
    destruct (IH (i + 1) a1) as (a2 & -> & Hwf2 & Hr & Ht2); [done|lia|lia|].
    exists a2. split_and!; [done|done| |congruence].
    eapply frames_set_cons; eauto. unfold in_cap. lia.
Qed.

Lemma frame_idx_nonneg a p : 0 <= frame_idx a p.
Proof. unfold frame_idx, saturating_sub, FRAME_BYTES. apply Z.div_pos; lia. Qed.

(** ** Allocation *)

Lemma trailing_ones_from_spec fuel b w :
  0 <= b -> (forall n, 0 <= n < b -> Z.testbit w n = true) ->
  let r := trailing_ones_from fuel b w in
  b <= r <= b + Z.of_nat fuel /\ (forall n, 0 <= n < r -> Z.testbit w n = true) /\
  (r < b + Z.of_nat fuel -> Z.testbit w r = false).
Proof.
  revert b. induction fuel as [|fuel IH]; intros b Hb Hlow; cbn [trailing_ones_from].
  - split_and!; [lia|lia|assumption|lia].
  - destruct (Z.testbit w b) eqn:E.
    + destruct (IH (b + 1)) as (H1 & H2 & H3); [lia| |].
      { intros n Hn. destruct (decide (n = b)) as [->|]; [done|apply Hlow; lia]. }
      split_and!; [lia|lia|assumption|intros; apply H3; lia].
    + split_and!; [lia|lia|assumption|done].
Qed.

Lemma trailing_ones_spec w :
  is_u64 w -> w <> u64_max ->
  0 <= trailing_ones w < 64 /\ Z.testbit w (trailing_ones w) = false /\
  (forall n, 0 <= n < trailing_ones w -> Z.testbit w n = true).
Proof.
  intros Hw Hne. unfold trailing_ones.
  destruct (trailing_ones_from_spec 64 0 w) as (H1 & H2 & H3); [lia|lia|].
  set (r := trailing_ones_from 64 0 w) in *.
  destruct (Z.eq_dec r 64) as [Hr|]; [|split_and!; [lia|lia|apply H3; lia|assumption]].
  destruct Hne. apply Z.bits_inj'. intros n Hn. rewrite testbit_u64_max by done.
  destruct (Z.ltb_spec n 64); [apply H2; lia|by apply testbit_u64_high].
Qed.

Lemma first_nonfull_spec k ws :
  match first_nonfull k ws with
  | Some (wi, w) => (k <= wi)%nat /\ ws !! (wi - k)%nat = Some w /\ w <> u64_max /\
                    (forall j, (j < wi - k)%nat -> ws !! j = Some u64_max)
  | None => forall j w, ws !! j = Some w -> w = u64_max
  end.
Proof.
  revert k. induction ws as [|x ws IH]; intros k; cbn [first_nonfull]; [done|].
  destruct (Z.eqb_spec x u64_max) as [->|Hx].
  - specialize (IH (S k)). destruct (first_nonfull (S k) ws) as [[wi w]|].
    + destruct IH as (H1 & H2 & H3 & H4).
      replace (wi - k)%nat with (S (wi - S k)) by lia.
      split_and!; [lia|done|done|]. intros [|j] Hj; [done|]. apply H4. lia.
    + intros [|j] w; [by intros [= <-]|apply IH].
  - rewrite Nat.sub_diag. split_and!; [lia|done|done|lia].
Qed.

Lemma frame_used_full_word a j :
  in_cap a j -> bitmap a !! Z.to_nat (j / 64) = Some u64_max -> frame_used a j = true.
Proof.
  intros Hj Hl. unfold frame_used. rewrite (nth_lookup_Some _ _ _ _ Hl).
  pose proof (mod64_bound j). rewrite testbit_u64_max by lia. lia.
Qed.

(** Complete description of [alloc_frame] on a well-formed allocator. *)
(** Every frame before the lowest clear bit of the first non-full word is in
    use. *)
Lemma frames_before_used a wi w b j :
  (wi < length (bitmap a))%nat -> bitmap a !! wi = Some w ->
  (forall k, (k < wi)%nat -> bitmap a !! k = Some u64_max) -> b <= 64 ->
  (forall n, 0 <= n < b -> Z.testbit w n = true) -> 0 <= j < Z.of_nat wi * 64 + b -> frame_used a j = true.
Proof.
  intros Hlt Hl Hfull Hb Hones Hj. destruct (Z.lt_ge_cases j (Z.of_nat wi * 64)).
  - apply frame_used_full_word; [unfold in_cap, CAPACITY, FRAMES_PER_WORD; lia|]. apply Hfull.
    apply Nat2Z.inj_lt. rewrite Z2Nat.id by (apply Z.div_pos; lia). apply Z.div_lt_upper_bound; lia.
  - assert (j / 64 = Z.of_nat wi) as Hd by (symmetry; apply Z.div_unique with (j - Z.of_nat wi * 64); lia).
    unfold frame_used. rewrite Hd, Nat2Z.id, (nth_lookup_Some _ _ _ _ Hl). apply Hones. rewrite Z.mod_eq, Hd by lia. lia.
Qed.

Lemma alloc_frame_spec a :
  alloc_wf a ->
  (exists i a', alloc_frame a = Done (Some (frame_addr a i), a') /\ in_cap a i /\
     frame_used a i = false /\ (forall j, 0 <= j < i -> frame_used a j = true) /\
     frame_set a a' i true /\ alloc_wf a' /\ total_frames a' = total_frames a /\
     free_frames a' = free_frames a - 1) \/
  (alloc_frame a = Done (None, a) /\ forall j, in_cap a j -> frame_used a j = true).
Proof.
  intros Hwf. unfold alloc_frame. pose proof (first_nonfull_spec 0 (bitmap a)) as Hf.
  destruct (first_nonfull 0 (bitmap a)) as [[wi w]|]; [left|right].
  - destruct Hf as (_ & Hl & Hne & Hfull). rewrite Nat.sub_0_r in *.
    assert (is_u64 w) as Hw by (destruct Hwf; by eapply Forall_lookup_1 in Hl).
    destruct (trailing_ones_spec w Hw Hne) as (Hb & Hz & Hones).
    remember (trailing_ones w) as b eqn:Hbdef. clear Hbdef.
    remember (Z.of_nat wi * 64 + b) as i eqn:Hidef.
    pose proof (lookup_lt_Some _ _ _ Hl) as Hlt.
    assert (i / 64 = Z.of_nat wi) as Hd by (subst i; rewrite Z.div_add_l, Z.div_small by lia; lia).
    assert (i mod 64 = b) as Hm by (subst i; rewrite Z.add_comm, Z.mod_add, Z.mod_small by lia; lia).
    assert (Z.to_nat (i / 64) = wi) as Hn by (rewrite Hd; lia).
    assert (in_cap a i) as Hi by (unfold in_cap, CAPACITY, FRAMES_PER_WORD; lia).
    assert (frame_used a i = false) as Hu.
    { unfold frame_used. rewrite Hn, Hm, (nth_lookup_Some _ _ _ _ Hl). done. }
    pose proof (free_frames_pos _ _ Hwf Hi Hu) as Hp. pose proof (cap_small _ Hwf).
    assert (frame_set a (mkAlloc (<[wi := Z.lor w (Z.shiftl 1 b)]> (bitmap a)) (base a)
              (total_frames a) (saturating_sub (free_frames a) 1)) i true) as Hs.
    { rewrite <- Hn. apply frame_set_word with w; rewrite ?Hn, ?Hm; try done.
      - by destruct Hwf.
      - by apply set_bit_u64.
      - apply set_word_bits. lia. }
    exists i. eexists. unfold FRAMES_PER_WORD, FRAME_BYTES.
    unfold in_cap in Hi. assert (0 <= i * 4096 <= CAPACITY a * 4096) by lia.
    assert (0 <= base a + i * 4096 < 2 ^ 64) by (destruct Hwf; unfold is_u64 in *; lia).
    assert (0 <= base a) by (destruct Hwf; unfold is_u64 in *; lia).
    assert (i < 2 ^ 53) as Hi53 by lia.
    rewrite (mul64_done (Z.of_nat wi) 64) by lia. cbn -[Z.mul Z.add].
    rewrite (add64_done _ b) by lia. cbn -[Z.mul Z.add]. rewrite <- Hidef.
    rewrite (mul64_done i 4096) by lia. cbn -[Z.mul Z.add].
    rewrite (add64_done (base a)) by lia. cbn -[Z.mul Z.add].
    split; [done|]. split; [done|]. split; [done|]. split_and!; try done.
    + intros j Hj. eapply frames_before_used; eauto; lia.
    + eapply wf_frame_set; eauto; cbn; [by destruct Hwf|unfold saturating_sub; lia].
    + cbn. unfold saturating_sub. lia.
  - split; [done|]. intros j Hj. apply frame_used_full_word; [done|].
    destruct (word_lookup _ _ Hj (or_introl Hwf)) as (w & Hl & _). rewrite Hl. f_equal. by eapply Hf.
Qed.

(** ** Release *)

Lemma frame_idx_addr a i : 0 <= i -> frame_idx a (frame_addr a i) = i.
Proof.
  intros Hi. unfold frame_idx, frame_addr, saturating_sub, FRAME_BYTES.
  replace (Z.max (base a + i * 4096 - base a) 0) with (i * 4096) by lia.
  by rewrite Z.div_mul by lia.
Qed.

Lemma frame_addr_aligned a i : alloc_wf a -> frame_addr a i mod 4096 = 0.
Proof. intros []. unfold frame_addr. rewrite Z.mod_add by lia. done. Qed.

(** [free_frame] at any address whose index is in range. *)
Lemma free_frame_at a addr :
  alloc_wf a -> addr mod 4096 = 0 -> frame_idx a addr < CAPACITY a ->
  if frame_used a (frame_idx a addr) then
    exists a', free_frame addr a = Done (true, a') /\ alloc_wf a' /\
      frame_set a a' (frame_idx a addr) false /\ total_frames a' = total_frames a /\
      free_frames a' = free_frames a + 1
  else free_frame addr a = Done (false, a).
Proof.
  intros Hwf Ha Hc. pose proof (frame_idx_nonneg a addr) as H0.
  assert (in_cap a (frame_idx a addr)) as Hi by (unfold in_cap; lia).
  set (i := frame_idx a addr) in *.
  destruct (word_lookup _ _ Hi (or_introl Hwf)) as (w & Hl & Hw & Hu).
  pose proof (mod64_bound i). pose proof (free_frames_bounds _ Hwf). pose proof (cap_small _ Hwf).
  unfold free_frame, FRAME_BYTES. rewrite Ha, Z.eqb_refl. cbn [negb]. fold i.
  rewrite (proj2 (Z.leb_gt _ _)) by done.
  unfold word_bit, FRAMES_PER_WORD, index_run. rewrite Hl. cbn.
  rewrite land_bit_zero, <- Hu by lia. destruct (frame_used a i) eqn:E; cbn; [|done].
  rewrite add64_done by lia. cbn. eexists. split; [done|].
  assert (frame_set a (mkAlloc (<[Z.to_nat (i / 64) := Z.land w (not64 (Z.shiftl 1 (i mod 64)))]> (bitmap a))
            (base a) (total_frames a) (free_frames a + 1)) i false) as Hs.
  { eapply frame_set_word; eauto using clear_bit_u64; [by destruct Hwf|]. by apply clear_word_bits. }
  split_and!; try done. eapply wf_frame_set; eauto; cbn; try lia. by destruct Hwf.
Qed.

Lemma alloc_frame_inv a p a' :
  alloc_wf a -> alloc_frame a = Done (Some p, a') ->
  exists i, p = frame_addr a i /\ in_cap a i /\ frame_used a i = false /\
    frame_set a a' i true /\ alloc_wf a' /\ total_frames a' = total_frames a /\
    free_frames a' = free_frames a - 1.
Proof.
  intros Hwf H. destruct (alloc_frame_spec a Hwf) as [(i & a2 & E & Hi & Hu & _ & Hs & Hw & Ht & Hf)|[E _]];
    rewrite E in H; simplify_eq. eauto 10.
Qed.

(** Two well-formed allocators of one geometry with the same frames and
    counters are equal. *)
Lemma alloc_ext a b :
  Forall is_u64 (bitmap a) -> Forall is_u64 (bitmap b) ->
  length (bitmap a) = length (bitmap b) -> base a = base b ->
  total_frames a = total_frames b -> free_frames a = free_frames b ->
  (forall i, in_cap a i -> frame_used a i = frame_used b i) -> a = b.
Proof.
  intros Ha Hb Hlen Hbase Ht Hf Hu.
  assert (bitmap a = bitmap b) as Hbm; [|destruct a, b; cbn in *; congruence].
  apply list_eq. intros k. destruct (bitmap a !! k) as [w|] eqn:Ew.
  - pose proof (lookup_lt_Some _ _ _ Ew) as Hk.
    destruct (lookup_lt_is_Some_2 (bitmap b) k) as [w' Ew']; [lia|]. rewrite Ew'. f_equal.
    assert (is_u64 w) by (by eapply Forall_lookup_1 in Ew).
    assert (is_u64 w') by (by eapply Forall_lookup_1 in Ew').
    apply Z.bits_inj'. intros n Hn. destruct (Z.lt_ge_cases n 64).
    + assert (in_cap a (Z.of_nat k * 64 + n)) as Hi by (unfold in_cap, CAPACITY, FRAMES_PER_WORD; lia).
      specialize (Hu _ Hi). unfold frame_used in Hu.
      rewrite Z.div_add_l, (Z.div_small n), Z.add_0_r, Nat2Z.id in Hu by lia.
      rewrite Z.add_comm, Z.mod_add, (Z.mod_small n) in Hu by lia.
      by rewrite (nth_lookup_Some _ _ _ _ Ew), (nth_lookup_Some _ _ _ _ Ew') in Hu.
    + by rewrite !testbit_u64_high.
  - symmetry. apply lookup_ge_None. apply lookup_ge_None in Ew. lia.
Qed.

(** ** Sequences of operations *)

Inductive alloc_op :=
| OpMarkFree (start size : Z)
| OpMarkUsed (start size : Z)
| OpAlloc
| OpFree (addr : Z).

Definition apply_op (op : alloc_op) (a : BitmapFrameAllocator) : run BitmapFrameAllocator :=
  match op with
  | OpMarkFree s n => mark_range_free s n a
  | OpMarkUsed s n => mark_range_used s n a
  | OpAlloc => '(_, a') ← alloc_frame a; Done a'
  | OpFree p => '(_, a') ← free_frame p a; Done a'
  end.

Fixpoint run_ops (ops : list alloc_op) (a : BitmapFrameAllocator) : run BitmapFrameAllocator :=
  match ops with
  | [] => Done a
  | op :: ops => a' ← apply_op op a; run_ops ops a'
  end.

Lemma free_frame_total a p :
  alloc_wf a -> exists r a', free_frame p a = Done (r, a') /\ alloc_wf a' /\
    CAPACITY a' = CAPACITY a /\ total_frames a' = total_frames a.
Proof.
  intros Hwf. destruct (Z.eq_dec (p mod 4096) 0) as [Hm|Hm].
  - destruct (Z.lt_ge_cases (frame_idx a p) (CAPACITY a)) as [Hc|Hc].
    + pose proof (free_frame_at a p Hwf Hm Hc) as H. destruct (frame_used _ _).
      * destruct H as (a' & -> & Hw & Hs & Ht & _). exists true, a'. split_and!; try done.
        by eapply frame_set_cap.
      * exists false, a. done.
    + exists false, a. unfold free_frame, FRAME_BYTES. rewrite Hm. cbn.
      by rewrite (proj2 (Z.leb_le _ _)).
  - exists false, a. unfold free_frame, FRAME_BYTES.
    by rewrite (proj2 (Z.eqb_neq _ _) Hm).
Qed.

Lemma apply_op_wf op a :
  alloc_wf a -> total_frames a + CAPACITY a < 2 ^ 64 - 1 ->
  exists a', apply_op op a = Done a' /\ alloc_wf a' /\ CAPACITY a' = CAPACITY a /\
             total_frames a' <= total_frames a + CAPACITY a.
Proof.
  intros Hwf Ht. pose proof (cap_small _ Hwf) as Hcap. destruct op as [s n|s n| |p]; cbn [apply_op].
  - unfold mark_range_free.
    pose proof (frame_idx_nonneg a (Z.land s (not64 (FRAME_BYTES - 1)))) as H0.
    edestruct (mark_free_loop_spec (S (Z.to_nat (CAPACITY a - frame_idx a (Z.land s (not64 (FRAME_BYTES - 1))))))
      (frame_idx a (Z.land s (not64 (FRAME_BYTES - 1))))) as (a' & E & Hw & [Hc _ _ _] & Hle);
      [done|done|lia|lia|lia|].
    exists a'. split_and!; [exact E|done|done|lia].
  - unfold mark_range_used.
    pose proof (frame_idx_nonneg a (Z.land s (not64 (FRAME_BYTES - 1)))) as H0.
    edestruct (mark_used_loop_spec (S (Z.to_nat (CAPACITY a - frame_idx a (Z.land s (not64 (FRAME_BYTES - 1))))))
      (frame_idx a (Z.land s (not64 (FRAME_BYTES - 1))))) as (a' & E & Hw & [Hc _ _ _] & Hle);
      [done|done|lia|].
    exists a'. split_and!; [exact E|done|done|lia].
  - destruct (alloc_frame_spec a Hwf) as [(i & a' & -> & _ & _ & _ & Hs & Hw & Htot & _)|[-> _]]; cbn.
    + exists a'. split_and!; [done|done|by eapply frame_set_cap|lia].
    + exists a. split_and!; try done. lia.
  - destruct (free_frame_total a p Hwf) as (r & a' & -> & Hw & Hc & Htot). cbn.
    exists a'. split_and!; try done. lia.
Qed.

Lemma run_ops_wf ops a :
  alloc_wf a -> total_frames a + Z.of_nat (length ops) * CAPACITY a < 2 ^ 64 - 1 ->
  exists a', run_ops ops a = Done a' /\ alloc_wf a'.
Proof.
  revert a. induction ops as [|op ops IH]; intros a Hwf Hb; cbn [run_ops length] in *; [eauto|].
  pose proof (cap_small _ Hwf).
  destruct (apply_op_wf op a) as (a1 & -> & Hwf1 & Hc & Hle); [done|nia|]. cbn.
  apply IH; [done|]. rewrite Hc. lia.
Qed.

(** ** Properties *)

(** C35: [alloc_frame] is a first-fit allocator that never panics: either it
    returns the address of the lowest-numbered free frame, which becomes used
    while every other frame keeps its state, or no frame is free, it returns
    [None] and leaves the allocator unchanged.  It returns [None] exactly when
    the counter reported by [free_frames()] is zero. *)
Theorem alloc_frame_first_fit (a : BitmapFrameAllocator) (Hwf : alloc_wf a) :
  exists r a', alloc_frame a = Done (r, a') /\ alloc_wf a' /\
    (r = None <-> free_frames a = 0) /\
    match r with
    | Some p => exists i, p = frame_addr a i /\ in_cap a i /\ frame_used a i = false /\
        (forall j, 0 <= j < i -> frame_used a j = true) /\
        frame_used a' i = true /\
        (forall j, in_cap a j -> j <> i -> frame_used a' j = frame_used a j) /\
        free_frames a' = free_frames a - 1
    | None => a' = a /\ forall j, in_cap a j -> frame_used a j = true
    end.
Proof.
  destruct (alloc_frame_spec a Hwf) as [(i & a' & E & Hi & Hu & Hlow & Hs & Hw & Ht & Hf)|[E Hall]].
  - exists (Some (frame_addr a i)), a'. destruct Hs. pose proof (free_frames_pos _ _ Hwf Hi Hu).
    split_and!; try done; [split; [done|lia]|]. exists i. split_and!; try done; apply Hi.
  - exists None, a. split_and!; try done. split; [intros _|done].
    destruct Hwf as [? ? ? ? ? ->]. apply count_below_zero. intros j Hj.
    rewrite Hall; [done|]. unfold in_cap, CAPACITY, FRAMES_PER_WORD in *. lia.
Qed.

Definition demo_alloc : BitmapFrameAllocator := mkAlloc [u64_max; u64_max - 4 - 8] 0x100000 2 2.

Lemma demo_alloc_wf : alloc_wf demo_alloc.
Proof.
  split.
  - repeat constructor; vm_compute; congruence.
  - split; vm_compute; congruence.
  - reflexivity.
  - vm_compute. congruence.
  - split; vm_compute; congruence.
  - reflexivity.
Qed.

Lemma alloc_frame_first_fit_witness :
  alloc_wf demo_alloc /\
  exists r a', alloc_frame demo_alloc = Done (r, a') /\ alloc_wf a' /\
    (r = None <-> free_frames demo_alloc = 0).
Proof.
  split; [exact demo_alloc_wf|].
  destruct (alloc_frame_first_fit demo_alloc demo_alloc_wf) as (r & a' & H1 & H2 & H3 & _).
  exists r, a'. split; [exact H1|]. split; [exact H2|exact H3].
Defined.

(** Freeing the frame that [alloc_frame] just returned succeeds and gives
    back exactly the allocator before the allocation (bitmap and counters); a
    second free of the same address is refused and changes nothing (the
    double-free guard). *)
Theorem alloc_free_roundtrip (a a' : BitmapFrameAllocator) (p : Z)
    (Hwf : alloc_wf a) (H : alloc_frame a = Done (Some p, a')) :
  free_frame p a' = Done (true, a) /\ free_frame p a = Done (false, a).
Proof.
  destruct (alloc_frame_inv _ _ _ Hwf H) as (i & -> & Hi & Hu & Hs & Hw & Ht & Hf).
  pose proof (frame_set_cap _ _ _ _ Hs) as Hc. destruct Hs as [Hlen Hb Hwords Hat Hoth].
  assert (0 <= i) by (unfold in_cap in Hi; lia).
  assert (frame_addr a i = frame_addr a' i) as Heq by (unfold frame_addr; by rewrite Hb).
  split.
  - rewrite Heq. pose proof (free_frame_at a' (frame_addr a' i) Hw) as Hfr.
    rewrite frame_idx_addr, Hat in Hfr by done.
    destruct Hfr as (a2 & -> & Hw2 & Hs2 & Ht2 & Hf2);
      [by apply frame_addr_aligned|unfold in_cap in Hi; lia|].
    repeat f_equal. destruct Hs2. apply alloc_ext; try congruence; [by destruct Hwf|lia|].
    intros k Hk. destruct (decide (k = i)) as [->|]; [congruence|].
    unfold in_cap in *. rewrite fs_other0 by (unfold in_cap in *; unfold CAPACITY in *; rewrite ?fs_len0, ?Hlen in *; lia).
    apply Hoth; [|done]. unfold in_cap, CAPACITY in *. rewrite ?fs_len0, ?Hlen in *. lia.
  - pose proof (free_frame_at a (frame_addr a i) Hwf) as Hfr.
    rewrite frame_idx_addr, Hu in Hfr by done.
    apply Hfr; [by apply frame_addr_aligned|unfold in_cap in Hi; lia].
Qed.

Lemma alloc_free_roundtrip_witness :
  exists a', alloc_frame demo_alloc = Done (Some 0x142000, a') /\
    free_frame 0x142000 a' = Done (true, demo_alloc).
Proof.
  eexists. split; [reflexivity|].
  eapply (alloc_free_roundtrip demo_alloc); [exact demo_alloc_wf|reflexivity].
Defined.

(** From a fresh allocator, no sequence of [mark_range_free],
    [mark_range_used], [alloc_frame] and [free_frame] calls (with any
    arguments) panics, as long as fewer than [2^64 / CAPACITY] calls are made,
    and in every state reached the counter [free_frames()] is the exact number
    of free frames in the bitmap. *)
Theorem alloc_ops_invariant (n : nat) (b : Z) (ops : list alloc_op)
    (Hb : is_u64 b) (Ha : b mod 4096 = 0) (Hr : b + Z.of_nat n * 64 * 4096 <= 2 ^ 64)
    (Hn : Z.of_nat (length ops) * (Z.of_nat n * 64) < 2 ^ 64 - 1) :
  exists a, run_ops ops (alloc_new n b) = Done a /\
    free_frames a = count_below (fun i => negb (frame_used a i)) (Z.to_nat (CAPACITY a)).
Proof.
  destruct (run_ops_wf ops (alloc_new n b)) as (a & E & Hwf).
  - by apply alloc_new_wf.
  - unfold CAPACITY, FRAMES_PER_WORD. cbn. rewrite length_replicate. lia.
  - exists a. split; [done|]. by destruct Hwf.
Qed.

Lemma alloc_ops_invariant_witness :
  exists a, run_ops [OpMarkFree 0x1000 0x5000; OpAlloc; OpMarkUsed 0x1800 0x1000; OpFree 0x1000; OpFree 77]
              (alloc_new 2 0) = Done a /\
    free_frames a = count_below (fun i => negb (frame_used a i)) (Z.to_nat (CAPACITY a)).
Proof.
  apply (alloc_ops_invariant 2 0 [OpMarkFree 0x1000 0x5000; OpAlloc; OpMarkUsed 0x1800 0x1000; OpFree 0x1000; OpFree 77]);
    [split; vm_compute; congruence|reflexivity|vm_compute; congruence|vm_compute; congruence].
Defined.

(** The range operations act on exactly the frames they name: starting at
    an address inside the managed range, [mark_range_free] frees the
    [size / 4096] frames from the (rounded-down) start and [mark_range_used]
    reserves the [ceil(size / 4096)] frames from it, frames beyond [CAPACITY]
    are ignored, and no other frame changes state. *)
Theorem mark_range_exact (a : BitmapFrameAllocator) (start size : Z)
    (Hwf : alloc_wf a) (Hs : is_u64 start) (Hge : base a <= start) (Hsz : is_u64 size)
    (Ht : total_frames a + CAPACITY a < 2 ^ 64 - 1) :
  let first := (start - base a) / 4096 in
  (exists a', mark_range_free start size a = Done a' /\
     frames_set a a' first (first + size / 4096) false) /\
  (exists a', mark_range_used start size a = Done a' /\
     frames_set a a' first (first + (size + 4095) / 4096) true).
Proof.
  intros first. pose proof (cap_small _ Hwf) as Hcap.
  assert (frame_idx a (Z.land start (not64 (FRAME_BYTES - 1))) = first) as Hfirst.
  { unfold frame_idx, FRAME_BYTES, first. change (4096 - 1) with (2 ^ 12 - 1).
    rewrite land_not_mask by (done || lia). change (2 ^ 12) with 4096. unfold saturating_sub.
    destruct Hwf. pose proof (Z.div_mod start 4096). pose proof (Z.div_mod (base a) 4096).
    pose proof (Z.mod_pos_bound start 4096).
    rewrite Z.max_l by (pose proof (Z.div_le_mono (base a) start 4096); lia).
    replace (start - start mod 4096 - base a) with ((start / 4096 - base a / 4096) * 4096) by lia.
    replace (start - base a) with ((start / 4096 - base a / 4096) * 4096 + start mod 4096) by lia.
    rewrite Z.div_mul, Z.div_add_l, (Z.div_small (start mod 4096)) by lia. lia. }
  assert (0 <= first) by (subst first; apply Z.div_pos; lia).
  assert (first < 2 ^ 52) by (subst first; apply Z.div_lt_upper_bound; destruct Hwf; unfold is_u64 in *; lia).
  assert (0 <= size / 4096 < 2 ^ 52) by (split; [apply Z.div_pos|apply Z.div_lt_upper_bound]; unfold is_u64 in *; lia).
  assert (0 <= (size + 4096 - 1) / 4096 < 2 ^ 52 + 1) by (split; [apply Z.div_pos|apply Z.div_lt_upper_bound]; unfold is_u64 in *; lia).
  unfold mark_range_free, mark_range_used. rewrite Hfirst. unfold FRAME_BYTES, saturating_add64, u64_max.
  rewrite !Z.min_l by lia. split.
  - edestruct (mark_free_loop_spec (S (Z.to_nat (CAPACITY a - first))) first (first + size / 4096) a)
      as (a' & E & _ & Hset & _); [done|done|lia|lia|lia|eauto].
  - replace (size + 4095) with (size + 4096 - 1) by lia.
    edestruct (mark_used_loop_spec (S (Z.to_nat (CAPACITY a - first))) first (first + (size + 4096 - 1) / 4096) a)
      as (a' & E & _ & Hset & _); [done|done|lia|eauto].
Qed.

Lemma mark_range_exact_witness :
  (exists a', mark_range_free 0x140000 0x2fff demo_alloc = Done a' /\
     frames_set demo_alloc a' 64 (64 + 2) false) /\
  (exists a', mark_range_used 0x140000 0x2fff demo_alloc = Done a' /\
     frames_set demo_alloc a' 64 (64 + 3) true).
Proof.
  apply (mark_range_exact demo_alloc 0x140000 0x2fff demo_alloc_wf);
    try split; vm_compute; congruence.
Defined.

(** An address below the managed range is not rejected: [frame_idx]
    saturates to index 0, so [free_frame] on any 4 KiB-aligned address below
    [base] releases frame 0 and reports success whenever frame 0 is in use,
    although the documentation says that addresses outside the range are
    ignored by every method and make [free_frame] return [false]. *)
Theorem free_frame_below_base (a : BitmapFrameAllocator) (addr : Z)
    (Hwf : alloc_wf a) (Hlow : 0 <= addr < base a) (Hal : addr mod 4096 = 0)
    (Hcap : 0 < CAPACITY a) (Hused : frame_used a 0 = true) :
  exists a', free_frame addr a = Done (true, a') /\ frame_used a' 0 = false /\
    free_frames a' = free_frames a + 1.
Proof.
  assert (frame_idx a addr = 0) as Hidx.
  { unfold frame_idx, saturating_sub, FRAME_BYTES. by rewrite Z.max_r by lia. }
  pose proof (free_frame_at a addr Hwf Hal) as H. rewrite Hidx, Hused in H.
  destruct H as (a' & E & _ & [] & _ & Hf); [lia|]. eauto.
Qed.

Lemma free_frame_below_base_witness :
  exists a', free_frame 0x3000 demo_alloc = Done (true, a') /\ frame_used a' 0 = false /\
    free_frames a' = free_frames demo_alloc + 1.
Proof.
  apply (free_frame_below_base demo_alloc 0x3000 demo_alloc_wf);
    try split; vm_compute; congruence.
Defined.
