(* ===== verification/CapScope.v ===== *)
(** * Capability scopes and attenuation (omni-capability: scope.rs, attenuation.rs)

    The authority a token grants ([Scope]), the subset test that every
    delegation must pass, and the attenuation operations.  The subset test is
    checked against a denotation: [resource_matches] and [authorises] say
    which concrete requests a scope admits.

    Strings are byte lists ([str]); identifiers are the byte lists of their
    array representation. *)

From Stdlib Require Import ZArith Lia Ascii String.
From stdpp Require Import base numbers list.
From S2P Require Import Prelude Str.
Local Open Scope list_scope.

(** ** Data *)

Inductive Action :=
| Read | Write | Append | Execute | Delete | Connect | Listen
| ModelInfer | ModelLoad | AgentSpawn | AgentSend | IpcSend | IpcRecv
| MmioMap | DmaMap | IrqAttach | PciConfigRead | PciConfigWrite
| DriverLoad | DriverUnload | TeeProbe.

Inductive Resource :=
| RAny
| Filesystem (path : str)
| Network (endpoint : str)
| Model (id : list Z)
| Agent (id : list Z)
| Node (id : list Z)
| IpcChannel (id : Z)
| PciDevice (segment bus device function : Z)
| MmioRegion (phys_base len : Z)
| DmaWindow (iova_base len : Z)
| IrqLine (line : Z).

Record TimeWindow := { not_before : Z; not_after : Z }.

Inductive Caveat :=
| ExpiresAt (t : Z)
| NotBefore (t : Z)
| BoundToNode (node : list Z)
| BoundToSession (session : list Z)
| Custom (tag : str) (payload : list Z).

Record Scope := {
  action : Action;
  resource : Resource;
  window : TimeWindow;
  caveats : list Caveat;
}.

#[global] Instance Action_eq_dec : EqDecision Action.
Proof. solve_decision. Defined.
#[global] Instance Resource_eq_dec : EqDecision Resource.
Proof. solve_decision. Defined.
#[global] Instance TimeWindow_eq_dec : EqDecision TimeWindow.
Proof. solve_decision. Defined.
#[global] Instance Caveat_eq_dec : EqDecision Caveat.
Proof. solve_decision. Defined.
#[global] Instance Scope_eq_dec : EqDecision Scope.
Proof. solve_decision. Defined.

Inductive CapabilityErrorKind :=
| Expired | NotYetValid | InvalidSignature | ScopeViolation
| AttenuationViolation | AttestationMismatch | Revoked | MalformedToken.

(** ** Subset tests *)

(** The end of a half-open range is computed in [u128], so it never wraps. *)
Definition range_is_subset (child_base child_len parent_base parent_len : Z) : bool :=
  let child_end := child_base + child_len in
  let parent_end := parent_base + parent_len in
  (parent_base <=? child_base) && (child_end <=? parent_end).

Definition path_is_subset (a b : str) : bool :=
  match strip_suffix b (lit "/**") with
  | Some b_prefix =>
      match strip_suffix a (lit "/**") with
      | Some a_prefix => str_eqb a_prefix b_prefix || starts_with a_prefix (b_prefix ++ lit "/")
      | None => str_eqb a b_prefix || starts_with a (b_prefix ++ lit "/")
      end
  | None => str_eqb a b
  end.

Definition endpoint_is_subset (a b : str) : bool :=
  match rsplit_once a 58 with
  | None => false
  | Some (a_host, a_port) =>
      match rsplit_once b 58 with
      | None => false
      | Some (b_host, b_port) =>
          let host_ok := str_eqb b_host (lit "*") || str_eqb a_host b_host in
          let port_ok := str_eqb b_port (lit "0") || str_eqb a_port b_port in
          host_ok && port_ok
      end
  end.

Definition resource_is_subset_of (self other : Resource) : bool :=
  match self, other with
  | _, RAny => true
  | Filesystem a, Filesystem b => path_is_subset a b
  | Network a, Network b => endpoint_is_subset a b
  | Model a, Model b => str_eqb a b
  | Agent a, Agent b => str_eqb a b
  | Node a, Node b => str_eqb a b
  | IpcChannel a, IpcChannel b => a =? b
  | PciDevice _ _ _ _, PciDevice _ _ _ _ => bool_decide (self = other)
  | MmioRegion ab al, MmioRegion bb bl => range_is_subset ab al bb bl
  | DmaWindow ab al, DmaWindow bb bl => range_is_subset ab al bb bl
  | IrqLine a, IrqLine b => a =? b
  | _, _ => false
  end.

Definition window_new (nb na : Z) : option TimeWindow :=
  if nb <=? na then Some {| not_before := nb; not_after := na |} else None.

Definition window_contains (w : TimeWindow) (now : Z) : bool :=
  (not_before w <=? now) && (now <? not_after w).

Definition window_is_subset_of (self other : TimeWindow) : bool :=
  (not_before other <=? not_before self) && (not_after self <=? not_after other).

Definition duration_secs (w : TimeWindow) : run Z := sub64 (not_after w) (not_before w).

Definition caveats_contain (cs : list Caveat) (c : Caveat) : bool := bool_decide (c ∈ cs).

Definition scope_is_subset_of (self other : Scope) : bool :=
  if negb (bool_decide (action self = action other)) then false
  else if negb (resource_is_subset_of (resource self) (resource other)) then false
  else if negb (window_is_subset_of (window self) (window other)) then false
  else forallb (caveats_contain (caveats self)) (caveats other).

(** ** Attenuation *)

Definition narrow_window (w : TimeWindow) (c : Caveat) : TimeWindow :=
  match c with
  | ExpiresAt t => if t <? not_after w then {| not_before := not_before w; not_after := t |} else w
  | NotBefore t => if not_before w <? t then {| not_before := t; not_after := not_after w |} else w
  | BoundToNode _ | BoundToSession _ | Custom _ _ => w
  end.

Definition apply_caveat (s : Scope) (c : Caveat) : result CapabilityErrorKind Scope :=
  let w := narrow_window (window s) c in
  if not_after w <? not_before w then Err AttenuationViolation else
  let cs := if caveats_contain (caveats s) c then caveats s else caveats s ++ [c] in
  let child := {| action := action s; resource := resource s; window := w; caveats := cs |} in
  if negb (scope_is_subset_of child s) then Err AttenuationViolation else Ok child.

Fixpoint apply_caveats (s : Scope) (cs : list Caveat) : result CapabilityErrorKind Scope :=
  match cs with
  | [] => Ok s
  | c :: cs => s' ← apply_caveat s c; apply_caveats s' cs
  end.

Definition restrict_resource (s : Scope) (r : Resource) : result CapabilityErrorKind Scope :=
  if negb (resource_is_subset_of r (resource s)) then Err AttenuationViolation
  else Ok {| action := action s; resource := r; window := window s; caveats := caveats s |}.

(** ** Denotation

    The concrete requests a pattern admits.  A concrete endpoint is a pair of
    a host and a port; a concrete memory request is a byte address. *)

Inductive concrete :=
| CPath (p : str)
| CEndpoint (host port : str)
| CModel (id : list Z)
| CAgent (id : list Z)
| CNode (id : list Z)
| CChannel (id : Z)
| CPci (segment bus device function : Z)
| CMmio (addr : Z)
| CDma (addr : Z)
| CIrq (line : Z).

Definition path_matches (p pat : str) : Prop :=
  match strip_suffix pat (lit "/**") with
  | Some pre => p = pre \/ exists rest, p = pre ++ lit "/" ++ rest
  | None => p = pat
  end.

Definition resource_matches (c : concrete) (r : Resource) : Prop :=
  match r, c with
  | RAny, _ => True
  | Filesystem pat, CPath p => path_matches p pat
  | Network pat, CEndpoint h p =>
      exists ph pp, rsplit_once pat 58 = Some (ph, pp) /\
        (ph = lit "*" \/ h = ph) /\ (pp = lit "0" \/ p = pp)
  | Model a, CModel b | Agent a, CAgent b | Node a, CNode b => a = b
  | IpcChannel a, CChannel b | IrqLine a, CIrq b => a = b
  | PciDevice s b d f, CPci s' b' d' f' => (s, b, d, f) = (s', b', d', f')
  | MmioRegion b l, CMmio a | DmaWindow b l, CDma a => b <= a < b + l
  | _, _ => False
  end.

(** A request: an action on a concrete resource at a time, in a context that
    decides which use-time caveats hold. *)
Record request := {
  req_action : Action;
  req_resource : concrete;
  req_now : Z;
  req_caveat_ok : Caveat -> bool;
}.

Definition authorises (s : Scope) (q : request) : Prop :=
  action s = req_action q /\ resource_matches (req_resource q) (resource s) /\
  not_before (window s) <= req_now q < not_after (window s) /\
  forall c, c ∈ caveats s -> req_caveat_ok q c = true.

(** The one resource form on which the subset test is not reflexive: an
    endpoint with no [:] is a subset of nothing but [Any]. *)
Definition resource_wf (r : Resource) : Prop :=
  match r with
  | Network e => rsplit_once e 58 <> None
  | _ => True
  end.

(** ** Soundness of the resource subset test *)

Lemma path_under_trans a b c :
  (a = b \/ exists r, a = b ++ lit "/" ++ r) ->
  (b = c \/ exists r, b = c ++ lit "/" ++ r) ->
  a = c \/ exists r, a = c ++ lit "/" ++ r.
Proof.
  intros [->|[r ->]] [->|[r' ->]]; [by left|right; by exists r'|right; by exists r|].
  right. exists (r' ++ lit "/" ++ r). by rewrite <- !app_assoc.
Qed.

Lemma path_subset_spec a b :
  path_is_subset a b = true <->
  match strip_suffix b (lit "/**") with
  | Some bp => let ap := default a (strip_suffix a (lit "/**")) in
               ap = bp \/ exists r, ap = bp ++ lit "/" ++ r
  | None => a = b
  end.
Proof.
  unfold path_is_subset. destruct (strip_suffix b _) as [bp|]; [|apply str_eqb_eq].
  destruct (strip_suffix a _) as [ap|]; cbn [default]; rewrite orb_true_iff, str_eqb_eq, starts_with_spec;
    setoid_rewrite <- app_assoc; done.
Qed.

Lemma path_subset_sound p a b : path_is_subset a b = true -> path_matches p a -> path_matches p b.
Proof.
  rewrite path_subset_spec. unfold path_matches.
  destruct (strip_suffix b _) as [bp|] eqn:Eb.
  - destruct (strip_suffix a _) as [ap|]; cbn [default]; intros Hs Hp.
    + by eapply path_under_trans.
    + by subst p.
  - intros ->. by rewrite Eb.
Qed.

Lemma range_subset_sound x cb cl pb pl :
  range_is_subset cb cl pb pl = true -> cb <= x < cb + cl -> pb <= x < pb + pl.
Proof. unfold range_is_subset. intros H. zbool. lia. Qed.

Lemma endpoint_subset_spec a b :
  endpoint_is_subset a b = true <->
  exists ah ap bh bp, rsplit_once a 58 = Some (ah, ap) /\ rsplit_once b 58 = Some (bh, bp) /\
    (bh = lit "*" \/ ah = bh) /\ (bp = lit "0" \/ ap = bp).
Proof.
  unfold endpoint_is_subset.
  destruct (rsplit_once a 58) as [[ah ap]|]; [|naive_solver].
  destruct (rsplit_once b 58) as [[bh bp]|]; [|naive_solver].
  rewrite andb_true_iff, !orb_true_iff, !str_eqb_eq. naive_solver.
Qed.

Lemma endpoint_subset_sound h p a b :
  endpoint_is_subset a b = true ->
  resource_matches (CEndpoint h p) (Network a) -> resource_matches (CEndpoint h p) (Network b).
Proof.
  rewrite endpoint_subset_spec. intros (ah & ap & bh & bp & Ea & Eb & Hh & Hp) (ph & pp & E & Hh' & Hp').
  rewrite Ea in E. simplify_eq. exists bh, bp. naive_solver.
Qed.

Lemma resource_subset_sound c a b :
  resource_is_subset_of a b = true -> resource_matches c a -> resource_matches c b.
Proof.
  intros Hs Hm. destruct b; [by destruct c|..]; destruct a; cbn in Hs; try discriminate;
    destruct c; try (cbn in Hm; contradiction).
  - cbn in *. by eapply path_subset_sound.
  - by eapply endpoint_subset_sound.
  - cbn in *. apply str_eqb_eq in Hs. congruence.
  - cbn in *. apply str_eqb_eq in Hs. congruence.
  - cbn in *. apply str_eqb_eq in Hs. congruence.
  - cbn in *. zbool. congruence.
  - apply bool_decide_eq_true in Hs. by rewrite Hs in Hm.
  - cbn in *. by eapply range_subset_sound.
  - cbn in *. by eapply range_subset_sound.
  - cbn in *. zbool. congruence.
Qed.

Lemma path_subset_refl a : path_is_subset a a = true.
Proof. rewrite path_subset_spec. destruct (strip_suffix a _); [by left|done]. Qed.

Lemma path_subset_trans a b c :
  path_is_subset a b = true -> path_is_subset b c = true -> path_is_subset a c = true.
Proof.
  rewrite !path_subset_spec. destruct (strip_suffix c _) as [cp|] eqn:Ec.
  - intros Hab Hbc. destruct (strip_suffix b _) as [bp|] eqn:Eb; cbn [default] in Hbc.
    + by eapply path_under_trans.
    + subst a. by rewrite Eb.
  - intros Hab ->. by rewrite Ec in Hab.
Qed.

Lemma resource_subset_refl r : resource_wf r -> resource_is_subset_of r r = true.
Proof.
  destruct r as [|a|a| | | | | | | | ]; cbn; intros Hw; rewrite ?str_eqb_eq, ?Z.eqb_eq, ?bool_decide_eq_true; try done.
  - apply path_subset_refl.
  - rewrite endpoint_subset_spec. destruct (rsplit_once a 58) as [[h p]|]; [|done]. naive_solver.
  - unfold range_is_subset. lia.
  - unfold range_is_subset. lia.
Qed.

Lemma resource_subset_trans a b c :
  resource_is_subset_of a b = true -> resource_is_subset_of b c = true ->
  resource_is_subset_of a c = true.
Proof.
  destruct c; [by destruct a|..]; destruct b; cbn; try discriminate; destruct a; cbn; try discriminate;
    rewrite ?str_eqb_eq, ?Z.eqb_eq, ?bool_decide_eq_true; try congruence.
  - apply path_subset_trans.
  - rewrite !endpoint_subset_spec. naive_solver.
  - unfold range_is_subset. intros. zbool. lia.
  - unfold range_is_subset. intros. zbool. lia.
Qed.

(** ** Scopes *)

Lemma scope_subset_spec a b :
  scope_is_subset_of a b = true <->
  action a = action b /\ resource_is_subset_of (resource a) (resource b) = true /\
  (not_before (window b) <= not_before (window a) /\ not_after (window a) <= not_after (window b)) /\
  (forall c, c ∈ caveats b -> c ∈ caveats a).
Proof.
  unfold scope_is_subset_of. destruct (bool_decide (action a = action b)) eqn:Ea; cbn [negb].
  2:{ apply bool_decide_eq_false in Ea. naive_solver. }
  apply bool_decide_eq_true in Ea.
  destruct (resource_is_subset_of _ _); cbn [negb]; [|naive_solver].
  destruct (window_is_subset_of _ _) eqn:Ew; cbn [negb]; unfold window_is_subset_of in Ew.
  2:{ split; [done|]. intros (_ & _ & Hw & _). exfalso.
      rewrite (proj2 (Z.leb_le _ _)), (proj2 (Z.leb_le _ _)) in Ew; [done|lia|lia]. }
  zbool. rewrite forallb_forall. unfold caveats_contain.
  setoid_rewrite bool_decide_eq_true. setoid_rewrite <- list_elem_of_In. naive_solver.
Qed.

Lemma scope_subset_sound a b q :
  scope_is_subset_of a b = true -> authorises a q -> authorises b q.
Proof.
  rewrite scope_subset_spec. intros (Ha & Hr & Hw & Hc) (H1 & H2 & H3 & H4).
  split_and!; [congruence|by eapply resource_subset_sound|lia|lia|]. eauto.
Qed.

Lemma scope_subset_refl s : resource_wf (resource s) -> scope_is_subset_of s s = true.
Proof. intros. apply scope_subset_spec. split_and!; try done. by apply resource_subset_refl. Qed.

Lemma scope_subset_trans a b c :
  scope_is_subset_of a b = true -> scope_is_subset_of b c = true -> scope_is_subset_of a c = true.
Proof.
  rewrite !scope_subset_spec. intros (? & ? & ? & ?) (? & ? & ? & ?).
  split_and!; [congruence|by eapply resource_subset_trans|lia|lia|eauto].
Qed.

#[export] Hint Resolve scope_subset_refl : omni.

(** ** Attenuation *)

(** What a caveat demands of the time of a request. *)
Definition caveat_time_ok (c : Caveat) (now : Z) : Prop :=
  match c with
  | ExpiresAt t => now < t
  | NotBefore t => t <= now
  | _ => True
  end.

(** What a request must satisfy to pass a caveat. *)
Definition caveat_holds (c : Caveat) (q : request) : Prop :=
  caveat_time_ok c (req_now q) /\ req_caveat_ok q c = true.

Lemma narrow_window_spec w c now :
  not_before (narrow_window w c) <= now < not_after (narrow_window w c) <->
  not_before w <= now < not_after w /\ caveat_time_ok c now.
Proof.
  destruct c; cbn; try naive_solver.
  - destruct (Z.ltb_spec t (not_after w)); cbn; lia.
  - destruct (Z.ltb_spec (not_before w) t); cbn; lia.
Qed.

Lemma narrow_window_subset w c :
  not_before w <= not_before (narrow_window w c) /\ not_after (narrow_window w c) <= not_after w.
Proof.
  destruct c; cbn; try lia.
  - destruct (Z.ltb_spec t (not_after w)); cbn; lia.
  - destruct (Z.ltb_spec (not_before w) t); cbn; lia.
Qed.

Lemma elem_of_add_caveat x cs c :
  x ∈ (if caveats_contain cs c then cs else cs ++ [c]) <-> x ∈ cs \/ x = c.
Proof.
  unfold caveats_contain. case_bool_decide as E; [split; [by left|by intros [| ->]]|].
  rewrite elem_of_app, list_elem_of_singleton. done.
Qed.

(** The defence-in-depth check of [apply_caveat] never fires on a scope whose
    subset test is reflexive, so only an inverted window is refused. *)
Lemma apply_caveat_spec s c :
  resource_wf (resource s) ->
  apply_caveat s c =
    let w := narrow_window (window s) c in
    if not_after w <? not_before w then Err AttenuationViolation
    else Ok {| action := action s; resource := resource s; window := w;
               caveats := if caveats_contain (caveats s) c then caveats s else caveats s ++ [c] |}.
Proof.
  intros Hr. unfold apply_caveat. cbn zeta. case_match; [done|].
  rewrite (proj2 (scope_subset_spec _ s)); [done|]. cbn.
  pose proof (narrow_window_subset (window s) c).
  split_and!; [done|by apply resource_subset_refl|lia|lia|].
  intros x Hx. apply elem_of_add_caveat. by left.
Qed.

Lemma apply_caveat_ok s c child :
  apply_caveat s c = Ok child ->
  scope_is_subset_of child s = true /\ resource child = resource s /\
  forall q, authorises child q <-> authorises s q /\ caveat_holds c q.
Proof.
  unfold apply_caveat. case_match; [done|].
  destruct (scope_is_subset_of _ s) eqn:E; cbn [negb]; [|done]. intros [= <-].
  split; [done|]. split; [done|]. intros q. unfold authorises, caveat_holds. cbn [action resource window caveats].
  rewrite narrow_window_spec. setoid_rewrite elem_of_add_caveat. naive_solver.
Qed.

Lemma apply_caveat_err s c e :
  resource_wf (resource s) -> apply_caveat s c = Err e ->
  e = AttenuationViolation /\ forall q, ~ (authorises s q /\ caveat_holds c q).
Proof.
  intros Hr. rewrite apply_caveat_spec by done. cbn zeta. case_match eqn:Hlt; [|done]. zbool.
  intros [= <-]. split; [done|]. intros q [(_ & _ & Hw & _) [Ht _]].
  pose proof (proj2 (narrow_window_spec (window s) c (req_now q)) (conj Hw Ht)). lia.
Qed.

Lemma apply_caveats_spec s cs :
  resource_wf (resource s) ->
  match apply_caveats s cs with
  | Ok child => scope_is_subset_of child s = true /\ resource child = resource s /\
      forall q, authorises child q <-> authorises s q /\ Forall (fun c => caveat_holds c q) cs
  | Err e => e = AttenuationViolation /\
      forall q, ~ (authorises s q /\ Forall (fun c => caveat_holds c q) cs)
  end.
Proof.
  revert s. induction cs as [|c cs IH]; intros s Hr; cbn [apply_caveats].
  - split_and!; [by apply scope_subset_refl|done|]. intros q. rewrite Forall_nil. naive_solver.
  - destruct (apply_caveat s c) as [s1|e] eqn:E; cbn.
    + destruct (apply_caveat_ok _ _ _ E) as (Hs & Hres & Hq).
      assert (resource_wf (resource s1)) as Hr1 by (by rewrite Hres).
      specialize (IH s1 Hr1). destruct (apply_caveats s1 cs) as [child|e].
      * destruct IH as (Hs2 & Hres2 & Hq2). split_and!; [by eapply scope_subset_trans|congruence|].
        intros q. rewrite Hq2, Hq, Forall_cons. naive_solver.
      * destruct IH as (-> & Hno). split; [done|]. intros q [Ha Hc].
        apply Forall_cons in Hc as [Hc Hcs]. apply (Hno q). rewrite Hq. done.
    + destruct (apply_caveat_err _ _ _ Hr E) as [-> Hno]. split; [done|].
      intros q [Ha Hc]. apply Forall_cons in Hc as [Hc _]. by apply (Hno q).
Qed.

(** [restrict_resource] only narrows: what the result authorises was
    authorised before. *)
Lemma restrict_resource_sound s r child :
  restrict_resource s r = Ok child -> resource_wf r ->
  scope_is_subset_of child s = true /\ forall q, authorises child q -> authorises s q.
Proof.
  unfold restrict_resource. destruct (resource_is_subset_of r _) eqn:E; cbn [negb]; [|done].
  intros [= <-] _. assert (scope_is_subset_of {| action := action s; resource := r; window := window s; caveats := caveats s |} s = true) as Hs.
  { apply scope_subset_spec. cbn. split_and!; try done. }
  split; [done|]. intros q. by apply scope_subset_sound.
Qed.

(** ** Properties *)

(** C19: The subset test is sound: when [Scope::is_subset_of] accepts a child
    scope, every concrete request (action, resource, time, use-time caveats)
    the child authorises is authorised by the parent.  The test is transitive,
    and reflexive on every scope except one whose network endpoint has no
    [:] separator. *)
Theorem scope_subset_admits_no_escalation (child parent : Scope)
    (H : scope_is_subset_of child parent = true) :
  (forall q, authorises child q -> authorises parent q) /\
  (forall root, scope_is_subset_of parent root = true -> scope_is_subset_of child root = true) /\
  (resource_wf (resource parent) -> scope_is_subset_of parent parent = true).
Proof.
  split_and!.
  - intros q. by apply scope_subset_sound.
  - intros root. by apply scope_subset_trans.
  - apply scope_subset_refl.
Qed.

Definition demo_parent : Scope :=
  {| action := Read; resource := Filesystem (lit "/data/**");
     window := {| not_before := 100; not_after := 200 |}; caveats := [] |}.
Definition demo_child : Scope :=
  {| action := Read; resource := Filesystem (lit "/data/log/x");
     window := {| not_before := 120; not_after := 180 |}; caveats := [ExpiresAt 180] |}.

Lemma scope_subset_admits_no_escalation_witness :
  scope_is_subset_of demo_child demo_parent = true /\
  (forall q, authorises demo_child q -> authorises demo_parent q).
Proof.
  split; [vm_compute; reflexivity|].
  apply (scope_subset_admits_no_escalation demo_child demo_parent). vm_compute; reflexivity.
Defined.

(** Attenuation is exact: applying a list of caveats to a scope yields a
    scope that authorises precisely the requests which the original authorised
    and which satisfy every caveat (expiry and start times as well as the
    use-time bindings); it fails, always with [AttenuationViolation], only
    when no request at all could satisfy the scope and the caveats. *)
Theorem attenuation_exact (s : Scope) (cs : list Caveat) (Hr : resource_wf (resource s)) :
  match apply_caveats s cs with
  | Ok child => scope_is_subset_of child s = true /\
      forall q, authorises child q <-> authorises s q /\ Forall (fun c => caveat_holds c q) cs
  | Err e => e = AttenuationViolation /\
      forall q, ~ (authorises s q /\ Forall (fun c => caveat_holds c q) cs)
  end.
Proof.
  pose proof (apply_caveats_spec s cs Hr) as H.
  destruct (apply_caveats s cs); [|exact H]. destruct H as (H1 & _ & H2). by split.
Qed.

Lemma attenuation_exact_witness :
  match apply_caveats demo_parent [ExpiresAt 150; NotBefore 110; BoundToSession [1; 2]] with
  | Ok child => scope_is_subset_of child demo_parent = true /\
      forall q, authorises child q <-> authorises demo_parent q /\
        Forall (fun c => caveat_holds c q) [ExpiresAt 150; NotBefore 110; BoundToSession [1; 2]]
  | Err e => False
  end.
Proof.
  exact (attenuation_exact demo_parent [ExpiresAt 150; NotBefore 110; BoundToSession [1; 2]] I).
Defined.

