(* ===== verification/CapToken.v ===== *)
(** * Capability tokens and revocation (omni-capability: token.rs,
      attenuation.rs, revocation.rs, tee.rs)

    Signed tokens, their full verification, token-level attenuation and the
    Bloom-filtered revocation list.  The canonical encoder (postcard), the
    Ed25519 primitives and the domain-separated hash (BLAKE3) are code outside
    this repository: they are the [Context] of the sections below, and the
    only fact used about them is that a signature made with a key verifies
    under its public key ([sign_verifies]). *)

From Stdlib Require Import ZArith Lia Ascii String.
From stdpp Require Import base numbers list sets gmap.
From S2P Require Import Prelude Str CapScope.
Local Open Scope list_scope.

(** ** Data *)

Record TokenPayload := {
  tp_id : list Z;
  tp_subject : list Z;
  tp_issuer : list Z;
  tp_parent : option (list Z);
  tp_scope : Scope;
}.

Record CapabilityToken := { payload : TokenPayload; signature : list Z }.

(** The Bloom filter: [num_bits / 8] bytes. *)
Record MicroBloom := { bits : list Z; num_bits : Z; num_hashes : Z }.

Record RevocationList := { bloom : MicroBloom; full : gset (list Z) }.

(** ** Bloom filter and revocation list *)

Section Revocation.
Context (domain_separated_hash : str -> list Z -> list Z).

(** [usize::next_multiple_of(8)]. *)
Definition next_multiple_of_8 (n : Z) : Z := (n + 7) / 8 * 8.

Definition bloom_new (expected : Z) : run MicroBloom :=
  let n := Z.max expected 8 in
  n10 ← mul64 n 10;
  let nb := next_multiple_of_8 n10 in
  let num_bytes := nb / 8 in
  Done {| bits := replicate (Z.to_nat num_bytes) 0; num_bits := nb; num_hashes := 7 |}.

Definition base_hashes (item : list Z) : Z * Z :=
  let h0 := domain_separated_hash (lit "omni-capability::bloom::h0") item in
  let h1 := domain_separated_hash (lit "omni-capability::bloom::h1") item in
  (from_le_bytes (take 8 h0), from_le_bytes (take 8 h1)).

(** The first [num_hashes] of the (at most 8) indices; both users of the
    array only look at those. *)
Definition indices (b : MicroBloom) (item : list Z) : list Z :=
  let '(h0, h1) := base_hashes item in
  map (fun i => wrap64 (h0 + wrap64 (i * h1)) mod num_bits b)
      (seqZ 0 (Z.min (num_hashes b) 8)).

Definition set_index (bs : list Z) (idx : Z) : run (list Z) :=
  byte ← index_run bs (Z.to_nat (idx / 8));
  Done (<[Z.to_nat (idx / 8) := Z.lor byte (Z.shiftl 1 (idx mod 8))]> bs).

Fixpoint insert_indices (bs : list Z) (idxs : list Z) : run (list Z) :=
  match idxs with
  | [] => Done bs
  | i :: idxs => bs' ← set_index bs i; insert_indices bs' idxs
  end.

Definition bloom_insert (b : MicroBloom) (item : list Z) : run MicroBloom :=
  bs ← insert_indices (bits b) (indices b item);
  Done {| bits := bs; num_bits := num_bits b; num_hashes := num_hashes b |}.

Fixpoint test_indices (bs : list Z) (idxs : list Z) : run bool :=
  match idxs with
  | [] => Done true
  | i :: idxs =>
      byte ← index_run bs (Z.to_nat (i / 8));
      if Z.land byte (Z.shiftl 1 (i mod 8)) =? 0 then Done false else test_indices bs idxs
  end.

Definition might_contain (b : MicroBloom) (item : list Z) : run bool :=
  test_indices (bits b) (indices b item).

Definition with_expected_capacity (expected : Z) : run RevocationList :=
  b ← bloom_new expected; Done {| bloom := b; full := ∅ |}.

Definition revocation_new : run RevocationList := with_expected_capacity 1024.

Definition revoke (l : RevocationList) (id : list Z) : run RevocationList :=
  b ← bloom_insert (bloom l) id; Done {| bloom := b; full := {[ id ]} ∪ full l |}.

Definition revocation_contains (l : RevocationList) (id : list Z) : run bool :=
  hit ← might_contain (bloom l) id;
  if negb hit then Done false else Done (bool_decide (id ∈ full l)).

Fixpoint revoke_all (l : RevocationList) (ids : list (list Z)) : run RevocationList :=
  match ids with
  | [] => Done l
  | id :: ids => l' ← revoke l id; revoke_all l' ids
  end.

(** A set bit [i] of the byte array. *)
Definition bit_set (bs : list Z) (i : Z) : Prop :=
  exists byte, bs !! Z.to_nat (i / 8) = Some byte /\ Z.testbit byte (i mod 8) = true.

Record bloom_wf (b : MicroBloom) : Prop := {
  bw_pos : 0 < num_bits b;
  bw_len : Z.of_nat (length (bits b)) * 8 = num_bits b;
}.

(** The filter covers the authoritative set: no false negatives. *)
Record revocation_wf (l : RevocationList) : Prop := {
  rw_bloom : bloom_wf (bloom l);
  rw_cover : forall id i, id ∈ full l -> i ∈ indices (bloom l) id -> bit_set (bits (bloom l)) i;
}.

Lemma bloom_new_wf e : 0 <= e -> e * 10 + 80 < 2 ^ 64 -> exists b, bloom_new e = Done b /\ bloom_wf b.
Proof.
  intros He Hb. unfold bloom_new. rewrite mul64_done by lia. cbn. eexists. split; [done|].
  unfold next_multiple_of_8.
  assert (1 <= (Z.max e 8 * 10 + 7) / 8) by (apply Z.div_le_lower_bound; lia).
  split; cbn [bits num_bits]; [lia|]. rewrite length_replicate, Z.div_mul by lia. lia.
Qed.

Lemma indices_range b item i : 0 < num_bits b -> i ∈ indices b item -> 0 <= i < num_bits b.
Proof.
  intros Hp. unfold indices. destruct (base_hashes item).
  rewrite list_elem_of_In, in_map_iff. intros (x & <- & _). by apply Z.mod_pos_bound.
Qed.

Lemma byte_lookup (bs : list Z) m i :
  Z.of_nat (length bs) * 8 = m -> 0 <= i < m -> is_Some (bs !! Z.to_nat (i / 8)).
Proof.
  intros Hl Hi. apply lookup_lt_is_Some_2. apply Nat2Z.inj_lt.
  rewrite Z2Nat.id by (apply Z.div_pos; lia). apply Z.div_lt_upper_bound; lia.
Qed.

Lemma set_index_spec (bs : list Z) m i :
  Z.of_nat (length bs) * 8 = m -> 0 <= i < m ->
  exists bs', set_index bs i = Done bs' /\ length bs' = length bs /\ bit_set bs' i /\
    forall j, bit_set bs j -> bit_set bs' j.
Proof.
  intros Hl Hi. destruct (byte_lookup bs m i Hl Hi) as [x Hx]. unfold set_index, index_run.
  rewrite Hx. cbn. eexists. split; [done|]. split; [apply length_insert|].
  pose proof (lookup_lt_Some _ _ _ Hx). assert (0 <= i mod 8 < 8) by (apply Z.mod_pos_bound; lia).
  split.
  - eexists. rewrite list_lookup_insert_eq by done. split; [done|].
    by rewrite testbit_set_bit, Z.eqb_refl, orb_true_r by lia.
  - intros j (y & Hy & Hb). destruct (decide (Z.to_nat (j / 8) = Z.to_nat (i / 8))) as [Heq|Hne].
    + rewrite Heq in Hy. rewrite Hx in Hy. injection Hy as <-.
      eexists. rewrite Heq, list_lookup_insert_eq by done. split; [done|].
      rewrite testbit_set_bit by lia. by rewrite Hb.
    + exists y. by rewrite list_lookup_insert_ne.
Qed.

Lemma insert_indices_spec bs m idxs :
  Z.of_nat (length bs) * 8 = m -> (forall i, i ∈ idxs -> 0 <= i < m) ->
  exists bs', insert_indices bs idxs = Done bs' /\ length bs' = length bs /\
    (forall i, i ∈ idxs -> bit_set bs' i) /\ (forall j, bit_set bs j -> bit_set bs' j).
Proof.
  revert bs. induction idxs as [|i idxs IH]; intros bs Hl Hr; cbn [insert_indices].
  - exists bs. split_and!; try done. intros i Hi. by apply elem_of_nil in Hi.
  - destruct (set_index_spec bs m i) as (b1 & -> & Hl1 & Hi1 & Hm1); [done|apply Hr; left|]. cbn.
    destruct (IH b1) as (b2 & -> & Hl2 & Hi2 & Hm2); [by rewrite Hl1|intros; apply Hr; by right|].
    exists b2. split_and!; [done|congruence| |eauto].
    intros x [->|Hx]%elem_of_cons; eauto.
Qed.

Lemma test_indices_spec bs m idxs :
  Z.of_nat (length bs) * 8 = m -> (forall i, i ∈ idxs -> 0 <= i < m) ->
  exists r, test_indices bs idxs = Done r /\ (r = true <-> forall i, i ∈ idxs -> bit_set bs i).
Proof.
  intros Hl. induction idxs as [|i idxs IH]; intros Hr; cbn [test_indices].
  - exists true. split; [done|]. split; [|done]. intros _ i Hi. by apply elem_of_nil in Hi.
  - destruct (byte_lookup bs m i Hl) as [x Hx]; [apply Hr; left|]. unfold index_run. rewrite Hx. cbn.
    assert (0 <= i mod 8 < 8) by (apply Z.mod_pos_bound; lia).
    rewrite land_bit_zero by lia. destruct (Z.testbit x (i mod 8)) eqn:E; cbn [negb].
    + destruct IH as (r & -> & Hiff); [intros; apply Hr; by right|]. exists r. split; [done|].
      rewrite Hiff. setoid_rewrite elem_of_cons. split; [|by eauto].
      intros H' j [->|Hj]; [by exists x|eauto].
    + exists false. split; [done|]. split; [done|]. intros H'.
      destruct (H' i) as (y & Hy & Hb); [left|]. rewrite Hx in Hy. simplify_eq. congruence.
Qed.

Lemma revoke_wf l id :
  revocation_wf l -> exists l', revoke l id = Done l' /\ revocation_wf l' /\ full l' = {[ id ]} ∪ full l.
Proof.
  intros [[Hp Hl] Hc]. unfold revoke, bloom_insert.
  destruct (insert_indices_spec (bits (bloom l)) (num_bits (bloom l)) (indices (bloom l) id))
    as (bs & -> & Hlen & Hin & Hmono); [done|intros; by eapply indices_range|]. cbn.
  eexists. split; [done|]. split; [|done]. split; cbn.
  - split; cbn; [done|by rewrite Hlen].
  - intros x i. rewrite elem_of_union, elem_of_singleton.
    change (indices _ x) with (indices (bloom l) x). intros [->|Hx] Hi; eauto.
Qed.

Lemma revoke_all_wf l ids :
  revocation_wf l ->
  exists l', revoke_all l ids = Done l' /\ revocation_wf l' /\
    forall id, id ∈ full l' <-> id ∈ full l \/ id ∈ ids.
Proof.
  revert l. induction ids as [|id ids IH]; intros l Hwf; cbn [revoke_all].
  - exists l. split_and!; try done. intros x. rewrite elem_of_nil. naive_solver.
  - destruct (revoke_wf l id Hwf) as (l1 & -> & Hwf1 & Hf). cbn.
    destruct (IH l1 Hwf1) as (l2 & -> & Hwf2 & Hiff). exists l2. split_and!; try done.
    intros x. rewrite Hiff, Hf, elem_of_union, elem_of_singleton, elem_of_cons. tauto.
Qed.

Lemma revocation_contains_spec l id :
  revocation_wf l -> revocation_contains l id = Done (bool_decide (id ∈ full l)).
Proof.
  intros [[Hp Hl] Hc]. unfold revocation_contains, might_contain.
  destruct (test_indices_spec (bits (bloom l)) (num_bits (bloom l)) (indices (bloom l) id))
    as (r & -> & Hiff); [done|intros; by eapply indices_range|]. cbn.
  destruct r; cbn [negb]; [done|]. f_equal. symmetry. apply bool_decide_eq_false. intros Hin.
  assert (false = true) by (apply Hiff; intros; by eapply Hc). done.
Qed.

(** Whatever the hash function, after any sequence of revocations the
    Bloom-filtered list never panics and answers [contains] exactly as the
    set of revoked identifiers does: the filter causes neither a false
    negative nor a false positive. *)
Theorem revocation_list_exact (expected : Z) (ids : list (list Z))
    (He : 0 <= expected) (Hb : expected * 10 + 80 < 2 ^ 64) :
  exists l0 l, with_expected_capacity expected = Done l0 /\ revoke_all l0 ids = Done l /\
    forall id, revocation_contains l id = Done (bool_decide (id ∈ ids)).
Proof.
  destruct (bloom_new_wf expected He Hb) as (b & Eb & Hwf).
  destruct (revoke_all_wf {| bloom := b; full := ∅ |} ids) as (l & Hl & Hw & Hiff).
  { split; cbn; [done|]. intros id i Hid. by apply not_elem_of_empty in Hid. }
  exists {| bloom := b; full := ∅ |}, l. split_and!; [unfold with_expected_capacity; by rewrite Eb|done|]. intros id.
  rewrite revocation_contains_spec by done. f_equal. apply bool_decide_ext.
  rewrite Hiff. cbn. rewrite elem_of_empty. naive_solver.
Qed.
End Revocation.

Lemma revocation_list_exact_witness :
  exists l0 l, with_expected_capacity 8 = Done l0 /\
    revoke_all (fun d x => x ++ d) l0 [[1; 2]; [3]] = Done l /\
    forall id, revocation_contains (fun d x => x ++ d) l id = Done (bool_decide (id ∈ [[1; 2]; [3]])).
Proof.
  apply (revocation_list_exact (fun d x => x ++ d) 8 [[1; 2]; [3]]); vm_compute; congruence.
Defined.

(** ** Tokens *)

(** The primitives a token relies on: the canonical encoder, Ed25519 signature
    verification and signing, and the key derivation. *)
Class SigningPrimitives := {
  encode_canonical : TokenPayload -> option (list Z);
  sig_verify : list Z -> list Z -> list Z -> bool;
  sign : list Z -> list Z -> list Z;
  verifying_key : list Z -> list Z;
}.

(** Documented behaviour of Ed25519: a signature made with a key verifies
    under its public key. *)
Class SigningLaws `{SigningPrimitives} : Prop := {
  sign_verifies : forall sk msg, sig_verify (verifying_key sk) msg (sign sk msg) = true;
}.

Section Tokens.
Context `{SigningPrimitives}.
Context (domain_separated_hash : str -> list Z -> list Z).

Definition canonical_bytes (p : TokenPayload) : result CapabilityErrorKind (list Z) :=
  ok_or (encode_canonical p) MalformedToken.

Definition sign_payload (sk : list Z) (p : TokenPayload) : result CapabilityErrorKind CapabilityToken :=
  bytes ← canonical_bytes p;
  Ok {| payload := p; signature := sign sk bytes |}.

(** [CapabilityToken::mint]; [fresh] is the identifier drawn from the CSPRNG. *)
Definition mint (sk subject : list Z) (s : Scope) (parent : option (list Z)) (fresh : list Z)
    : result CapabilityErrorKind CapabilityToken :=
  let p := {| tp_id := fresh; tp_subject := subject; tp_issuer := verifying_key sk;
              tp_parent := parent; tp_scope := s |} in
  bytes ← canonical_bytes p;
  Ok {| payload := p; signature := sign sk bytes |}.

Definition verify_signature (t : CapabilityToken) : result CapabilityErrorKind unit :=
  bytes ← canonical_bytes (payload t);
  if sig_verify (tp_issuer (payload t)) bytes (signature t) then Ok () else Err InvalidSignature.

(** [verify_full]; [node] is the outcome of [current_node_id], [None] when the
    attestation is unavailable. *)
Definition verify_full (t : CapabilityToken) (now : Z) (node : option (list Z))
    (rl : RevocationList) : run (result CapabilityErrorKind unit) :=
  match verify_signature t with
  | Err e => Done (Err e)
  | Ok _ =>
      revoked ← revocation_contains domain_separated_hash rl (tp_id (payload t));
      let w := window (tp_scope (payload t)) in
      Done (if (revoked : bool) then Err Revoked
            else if now <? not_before w then Err NotYetValid
            else if not_after w <=? now then Err Expired
            else match node with
                 | None => Err AttestationMismatch
                 | Some n => if negb (str_eqb n (tp_subject (payload t))) then Err AttestationMismatch
                             else Ok ()
                 end)
  end.

Definition attenuate (parent : CapabilityToken) (sk : list Z) (cs : list Caveat) (fresh : list Z)
    : result CapabilityErrorKind CapabilityToken :=
  new_scope ← apply_caveats (tp_scope (payload parent)) cs;
  if negb (scope_is_subset_of new_scope (tp_scope (payload parent))) then Err AttenuationViolation
  else sign_payload sk
    {| tp_id := fresh; tp_subject := tp_subject (payload parent); tp_issuer := verifying_key sk;
       tp_parent := Some (tp_id (payload parent)); tp_scope := new_scope |}.

Definition verify_chain_link (parent child : CapabilityToken) : result CapabilityErrorKind unit :=
  if negb (bool_decide (tp_parent (payload child) = Some (tp_id (payload parent)))) then Err AttenuationViolation
  else if negb (scope_is_subset_of (tp_scope (payload child)) (tp_scope (payload parent))) then Err AttenuationViolation
  else Ok ().

(** A delegation chain: every consecutive pair passes [verify_chain_link]. *)
Fixpoint chain_ok (root : CapabilityToken) (rest : list CapabilityToken) : bool :=
  match rest with
  | [] => true
  | t :: rest => match verify_chain_link root t with Ok _ => chain_ok t rest | Err _ => false end
  end.

Lemma verify_chain_link_ok p c :
  verify_chain_link p c = Ok () <->
  tp_parent (payload c) = Some (tp_id (payload p)) /\
  scope_is_subset_of (tp_scope (payload c)) (tp_scope (payload p)) = true.
Proof.
  unfold verify_chain_link. case_bool_decide; cbn [negb]; [|naive_solver].
  destruct (scope_is_subset_of _ _); cbn [negb]; naive_solver.
Qed.

Lemma chain_ok_subset root rest q :
  chain_ok root rest = true ->
  authorises (tp_scope (payload (List.last rest root))) q -> authorises (tp_scope (payload root)) q.
Proof.
  revert root. induction rest as [|t rest IH]; intros root Hc Ha; [done|].
  cbn [chain_ok] in Hc. destruct (verify_chain_link root t) as [[]|] eqn:E; [|done].
  apply verify_chain_link_ok in E as [_ Hs]. eapply scope_subset_sound; [exact Hs|].
  apply IH; [done|].
  replace (List.last rest t) with (List.last (t :: rest) root); [done|].
  destruct rest as [|u rest]; [done|]. cbn. clear. revert u. induction rest as [|v rest IHr]; intros u; [done|].
  apply IHr.
Qed.

Lemma verify_signature_ok t :
  verify_signature t = Ok () <->
  exists bytes, encode_canonical (payload t) = Some bytes /\
    sig_verify (tp_issuer (payload t)) bytes (signature t) = true.
Proof.
  unfold verify_signature, canonical_bytes, ok_or.
  destruct (encode_canonical (payload t)) as [bs|]; cbn.
  - destruct (sig_verify _ _ _) eqn:E.
    + split; [by exists bs|done].
    + split; [done|]. intros (b & [= <-] & Hv). congruence.
  - split; [done|]. by intros (b & ? & _).
Qed.

Lemma verify_full_accepts t now node rl :
  revocation_wf domain_separated_hash rl ->
  verify_full t now node rl = Done (Ok ()) <->
     (exists bytes, encode_canonical (payload t) = Some bytes /\
        sig_verify (tp_issuer (payload t)) bytes (signature t) = true) /\
     tp_id (payload t) ∉ full rl /\
     not_before (window (tp_scope (payload t))) <= now < not_after (window (tp_scope (payload t))) /\
     node = Some (tp_subject (payload t)).
Proof.
  intros Hwf. pose proof (verify_signature_ok t) as Hsig. unfold verify_full.
  rewrite revocation_contains_spec by done. cbn.
  destruct (verify_signature t) as [[]|e] eqn:E.
  2:{ split; [done|]. intros [Hx _]. by apply Hsig in Hx. }
  assert (exists bytes, encode_canonical (payload t) = Some bytes /\
        sig_verify (tp_issuer (payload t)) bytes (signature t) = true) as Hs by (by apply Hsig).
  set (w := window (tp_scope (payload t))).
  case_bool_decide as Hr; [naive_solver|].
  destruct (Z.ltb_spec now (not_before w)); [split; [done|lia]|].
  destruct (Z.leb_spec (not_after w) now); [split; [done|lia]|].
  destruct node as [n|]; [|naive_solver]. unfold str_eqb.
  case_bool_decide; cbn [negb]; [subst; by split_and!|naive_solver].
Qed.

(** [verify_full] accepts a token exactly when its signature verifies
    under the embedded issuer key, it is not revoked, the current time is in
    its half-open window and the attested node is its subject; on any other
    input it reports the first failing check, in the order signature,
    revocation, not-before, not-after, attestation. *)
Theorem verify_full_decides (t : CapabilityToken) (now : Z) (node : option (list Z)) (rl : RevocationList)
    (Hwf : revocation_wf domain_separated_hash rl) :
  let w := window (tp_scope (payload t)) in
  (verify_full t now node rl = Done (Ok ()) <->
     (exists bytes, encode_canonical (payload t) = Some bytes /\
        sig_verify (tp_issuer (payload t)) bytes (signature t) = true) /\
     tp_id (payload t) ∉ full rl /\ not_before w <= now < not_after w /\
     node = Some (tp_subject (payload t))) /\
  (verify_signature t = Ok () -> tp_id (payload t) ∈ full rl ->
     verify_full t now node rl = Done (Err Revoked)) /\
  (verify_signature t = Ok () -> tp_id (payload t) ∉ full rl -> now < not_before w ->
     verify_full t now node rl = Done (Err NotYetValid)) /\
  (verify_signature t = Ok () -> tp_id (payload t) ∉ full rl -> not_before w <= now ->
     not_after w <= now -> verify_full t now node rl = Done (Err Expired)).
Proof.
  intros w. split; [by apply verify_full_accepts|]. unfold verify_full.
  rewrite revocation_contains_spec by done. cbn.
  destruct (verify_signature t) as [[]|e]; [|done]. fold w. split_and!.
  - intros _ Hin. by rewrite bool_decide_eq_true_2.
  - intros _ Hin Hlt. rewrite bool_decide_eq_false_2 by done. by rewrite (proj2 (Z.ltb_lt _ _) Hlt).
  - intros _ Hin Hge Hle. rewrite bool_decide_eq_false_2 by done.
    rewrite (proj2 (Z.ltb_ge _ _) Hge). by rewrite (proj2 (Z.leb_le _ _) Hle).
Qed.

(** C18: A delegation chain never gains authority: if each token of a chain
    passes [verify_chain_link] against its predecessor, then every request
    authorised by the last token's scope is authorised by the first's.  A
    token made by [attenuate] verifies under the attenuating key, links to its
    parent, keeps the parent's subject, and authorises exactly the parent's
    requests that satisfy the caveats. *)
Theorem delegation_chain_sound {Hl : SigningLaws} (root : CapabilityToken) (rest : list CapabilityToken)
    (Hc : chain_ok root rest = true) :
  (forall q, authorises (tp_scope (payload (List.last rest root))) q ->
     authorises (tp_scope (payload root)) q) /\
  (forall sk cs fresh child, resource_wf (resource (tp_scope (payload root))) ->
     attenuate root sk cs fresh = Ok child ->
     verify_signature child = Ok () /\ verify_chain_link root child = Ok () /\
     tp_subject (payload child) = tp_subject (payload root) /\
     forall q, authorises (tp_scope (payload child)) q <->
       authorises (tp_scope (payload root)) q /\ Forall (fun c => caveat_holds c q) cs).
Proof.
  split; [intros q; by apply chain_ok_subset|].
  intros sk cs fresh child Hr Hat. unfold attenuate in Hat.
  pose proof (apply_caveats_spec (tp_scope (payload root)) cs Hr) as Hspec.
  destruct (apply_caveats (tp_scope (payload root)) cs) as [s1|e]; cbn in Hat; [|done].
  destruct Hspec as (Hs & _ & Hq). rewrite Hs in Hat. cbn [negb] in Hat.
  unfold sign_payload, canonical_bytes, ok_or in Hat.
  destruct (encode_canonical _) as [bs|] eqn:Eb; cbn in Hat; [|done]. injection Hat as <-. cbn.
  split_and!; [|by apply verify_chain_link_ok|done|exact Hq].
  apply verify_signature_ok. exists bs. split; [done|]. apply sign_verifies.
Qed.
End Tokens.

(** A toy instance of the primitives: the "signature" is the key prepended to
    the message. *)
Definition toy_prims : SigningPrimitives := {|
  encode_canonical := fun p => Some (tp_id p);
  sig_verify := fun pk msg sg => str_eqb sg (pk ++ msg);
  sign := fun sk msg => sk ++ msg;
  verifying_key := fun sk => sk;
|}.

Lemma toy_laws : @SigningLaws toy_prims.
Proof. split. intros sk msg. cbn. by apply str_eqb_eq. Qed.

Definition demo_root : CapabilityToken :=
  {| payload := {| tp_id := [1]; tp_subject := [7]; tp_issuer := [9]; tp_parent := None; tp_scope := demo_parent |};
     signature := [9; 1] |}.
Definition demo_leaf : CapabilityToken :=
  {| payload := {| tp_id := [2]; tp_subject := [7]; tp_issuer := [9]; tp_parent := Some [1]; tp_scope := demo_child |};
     signature := [9; 2] |}.
Definition demo_empty_rl : RevocationList :=
  {| bloom := {| bits := [0; 0]; num_bits := 16; num_hashes := 7 |}; full := ∅ |}.

Lemma demo_empty_rl_wf h : revocation_wf h demo_empty_rl.
Proof. split; [split; vm_compute; reflexivity|]. intros id i Hid. by apply not_elem_of_empty in Hid. Qed.

Lemma verify_full_decides_witness :
  @verify_full toy_prims (fun d x => x) demo_root 150 (Some [7]) demo_empty_rl = Done (Ok ()).
Proof.
  apply (@verify_full_decides toy_prims (fun d x => x) demo_root 150 (Some [7]) demo_empty_rl (demo_empty_rl_wf _)).
  split; [exists [1]; split; vm_compute; reflexivity|].
  split; [cbn; apply not_elem_of_empty|]. split; [cbn; lia|reflexivity].
Defined.

Lemma delegation_chain_sound_witness :
  chain_ok demo_root [demo_leaf] = true /\
  forall q, authorises demo_child q -> authorises demo_parent q.
Proof.
  split; [vm_compute; reflexivity|].
  apply (@delegation_chain_sound toy_prims toy_laws demo_root [demo_leaf]). vm_compute; reflexivity.
Defined.
