(* ===== verification/Ipc.v ===== *)
(** * Kernel capability check and IPC registry (omni-kernel: capabilities.rs, ipc.rs)

    [KernelIpcRegistry]: channels in a [BTreeMap] keyed by id (a [gmap]), with
    bounded FIFO queues, back-pressure policies, wait queues and per-direction
    authentication.  Tokens presented at creation are checked through the
    [KernelCapabilityCheck] interface, or, for signed blobs, through
    [decode_and_authenticate_token].  The registry never calls the scheduler:
    it returns a [WakeAction]. *)

From Stdlib Require Import ZArith Lia.
From stdpp Require Import base numbers list gmap.
From S2P Require Import Prelude Str CapScope CapToken.

(** ** Kernel-wide types (lib.rs, scheduling.rs) *)

Inductive KernelError :=
| NotYetImplemented
| CapabilityDenied
| ResourceExhausted
| InvalidArgument
| Internal.

#[global] Instance KernelError_eq_dec : EqDecision KernelError.
Proof. solve_decision. Defined.

Abbreviation KernelResult := (result KernelError).

(** [TaskId(pub u64)], [ChannelId(pub u64)]: newtypes over [u64]. *)
Abbreviation TaskId := Z.
Abbreviation ChannelId := Z.

(** [KernelPrincipal([u8; 32])]. *)
Abbreviation KernelPrincipal := (list Z).
Definition principal_ZERO : KernelPrincipal := replicate 32 0.

(** ** Capability check (capabilities.rs) *)

Inductive KernelAction := KIpcSend | KIpcRecv.
Inductive KernelResource := KIpcChannel (id : Z).

Record KernelCapabilityToken := {
  kt_subject : KernelPrincipal;
  kt_action : KernelAction;
  kt_resource : KernelResource;
}.

Inductive CapabilityVerdict := Authorised | Denied.

#[global] Instance KernelAction_eq_dec : EqDecision KernelAction.
Proof. solve_decision. Defined.
#[global] Instance KernelResource_eq_dec : EqDecision KernelResource.
Proof. solve_decision. Defined.
#[global] Instance CapabilityVerdict_eq_dec : EqDecision CapabilityVerdict.
Proof. solve_decision. Defined.

(** The trait [KernelCapabilityCheck]. *)
Class KernelCapabilityCheck (C : Type) :=
  kcc_verify : C -> KernelCapabilityToken -> KernelAction -> KernelResource -> CapabilityVerdict.

Record Ed25519CapabilityProvider := { node_id_bytes : list Z }.

Definition provider_placeholder : Ed25519CapabilityProvider := {| node_id_bytes := replicate 32 0 |}.

(** Per-IPC check: shape match on action and resource. *)
Definition ed25519_verify (_ : Ed25519CapabilityProvider) (t : KernelCapabilityToken)
    (a : KernelAction) (r : KernelResource) : CapabilityVerdict :=
  if bool_decide (kt_action t = a) && bool_decide (kt_resource t = r) then Authorised else Denied.

#[global] Instance ed25519_check : KernelCapabilityCheck Ed25519CapabilityProvider := ed25519_verify.

Section SignedTokens.
Context `{SigningPrimitives}.
Context (domain_separated_hash : str -> list Z -> list Z).
Context (decode_canonical : list Z -> option CapabilityToken).

(** The TEE source is a [StubAttestation] fixed to the provider's node id, the
    revocation list is a fresh empty one. *)
Definition verify_signed_token (p : Ed25519CapabilityProvider) (t : CapabilityToken) (now : Z)
    : run CapabilityVerdict :=
  rl ← revocation_new;
  v ← verify_full domain_separated_hash t now (Some (node_id_bytes p)) rl;
  Done (match v with Ok _ => Authorised | Err _ => Denied end).

Definition decode_and_authenticate_token (bytes : list Z) (expected : KernelAction)
    (p : Ed25519CapabilityProvider) (now : Z) : run (KernelResult KernelPrincipal) :=
  match decode_canonical bytes with
  | None => Done (Err InvalidArgument)
  | Some t =>
      v ← verify_signed_token p t now;
      if negb (bool_decide (v = Authorised)) then Done (Err CapabilityDenied) else
      let expected_user := match expected with KIpcSend => IpcSend | KIpcRecv => IpcRecv end in
      if negb (bool_decide (action (tp_scope (payload t)) = expected_user)) then Done (Err CapabilityDenied)
      else match resource (tp_scope (payload t)) with
           | IpcChannel _ => Done (Ok (tp_subject (payload t)))
           | _ => Done (Err CapabilityDenied)
           end
  end.
End SignedTokens.

(** ** IPC data (ipc.rs) *)

Inductive MessageKind :=
| KRequest | KReply | KNotification | KCapabilityHandoff | KSharedMemoryGrant.

Inductive BackpressurePolicy := BpBlock | BpDrop | BpEvictOldest.

Record ChannelPolicy := {
  queue_depth : Z;
  backpressure : BackpressurePolicy;
  tee_bound : bool;
}.

Record MessageEnvelope := {
  env_sender : TaskId;
  env_channel : ChannelId;
  env_kind : MessageKind;
  env_payload : list Z;
}.

Inductive WakeAction :=
| WakeNone
| Wake (t : TaskId)
| Block (t : TaskId).

Record Channel := {
  ch_id : ChannelId;
  ch_policy : ChannelPolicy;
  ch_owner : TaskId;
  send_subject : option KernelPrincipal;
  recv_subject : option KernelPrincipal;
  queue : list MessageEnvelope;
  waiters_send : list TaskId;
  waiters_recv : list TaskId;
}.

Record KernelIpcRegistry := { channels : gmap Z Channel; next_id : Z }.

(** ** Operations *)

Definition channel_new (id : ChannelId) (pol : ChannelPolicy) (owner : TaskId)
    (ss rs : option KernelPrincipal) : Channel :=
  {| ch_id := id; ch_policy := pol; ch_owner := owner; send_subject := ss; recv_subject := rs;
     queue := []; waiters_send := []; waiters_recv := [] |}.

Definition depth (c : Channel) : Z := Z.of_nat (length (queue c)).

Definition registry_new : KernelIpcRegistry := {| channels := ∅; next_id := 1 |}.

Definition channel_count (r : KernelIpcRegistry) : nat := size (channels r).

(** The subject of an optional creation token, once the verifier accepts it. *)
Definition token_subject {C} `{KernelCapabilityCheck C} (v : C) (tok : option KernelCapabilityToken)
    (a : KernelAction) (res : KernelResource) : KernelResult (option KernelPrincipal) :=
  match tok with
  | None => Ok None
  | Some t => if negb (bool_decide (kcc_verify v t a res = Authorised)) then Err CapabilityDenied
              else Ok (Some (kt_subject t))
  end.

(** The common tail of both creation paths: the channel is inserted first and
    the id counter is advanced afterwards, so on counter overflow the call
    fails with the channel already in the map. *)
Definition install_channel (pol : ChannelPolicy) (owner : TaskId) (ss rs : option KernelPrincipal)
    (r : KernelIpcRegistry) : KernelResult ChannelId * KernelIpcRegistry :=
  let id := next_id r in
  let chans := <[id := channel_new id pol owner ss rs]> (channels r) in
  match checked_add64 (next_id r) 1 with
  | Some n => (Ok id, {| channels := chans; next_id := n |})
  | None => (Err ResourceExhausted, {| channels := chans; next_id := next_id r |})
  end.

Definition create_channel {C} `{KernelCapabilityCheck C} (owner : TaskId) (pol : ChannelPolicy)
    (send_token recv_token : option KernelCapabilityToken) (v : C)
    (r : KernelIpcRegistry) : KernelResult ChannelId * KernelIpcRegistry :=
  if queue_depth pol =? 0 then (Err InvalidArgument, r) else
  let res := KIpcChannel (next_id r) in
  match token_subject v send_token KIpcSend res with
  | Err e => (Err e, r)
  | Ok ss =>
      match token_subject v recv_token KIpcRecv res with
      | Err e => (Err e, r)
      | Ok rs => install_channel pol owner ss rs r
      end
  end.

Section CreateSigned.
Context `{SigningPrimitives}.
Context (domain_separated_hash : str -> list Z -> list Z).
Context (decode_canonical : list Z -> option CapabilityToken).

Definition signed_subject (blob : option (list Z)) (a : KernelAction) (p : Ed25519CapabilityProvider)
    (now : Z) : run (KernelResult (option KernelPrincipal)) :=
  match blob with
  | None => Done (Ok None)
  | Some b => s ← decode_and_authenticate_token domain_separated_hash decode_canonical b a p now;
              Done (x ← s; Ok (Some x))
  end.

Definition create_channel_signed (owner : TaskId) (pol : ChannelPolicy)
    (send_bytes recv_bytes : option (list Z)) (p : Ed25519CapabilityProvider) (now : Z)
    (r : KernelIpcRegistry) : run (KernelResult ChannelId * KernelIpcRegistry) :=
  match send_bytes, recv_bytes with
  | None, None => Done (create_channel owner pol None None p r)
  | _, _ =>
      if queue_depth pol =? 0 then Done (Err InvalidArgument, r) else
      ss ← signed_subject send_bytes KIpcSend p now;
      match ss with
      | Err e => Done (Err e, r)
      | Ok ss =>
          rs ← signed_subject recv_bytes KIpcRecv p now;
          match rs with
          | Err e => Done (Err e, r)
          | Ok rs => Done (install_channel pol owner ss rs r)
          end
      end
  end.
End CreateSigned.

Definition destroy_channel (id : ChannelId) (requester : TaskId) (r : KernelIpcRegistry)
    : KernelResult unit * KernelIpcRegistry :=
  match channels r !! id with
  | None => (Err InvalidArgument, r)
  | Some c =>
      if negb (ch_owner c =? requester) then (Err CapabilityDenied, r)
      else (Ok (), {| channels := delete id (channels r); next_id := next_id r |})
  end.

Definition set_queues (c : Channel) (q : list MessageEnvelope) (ws wr : list TaskId) : Channel :=
  {| ch_id := ch_id c; ch_policy := ch_policy c; ch_owner := ch_owner c;
     send_subject := send_subject c; recv_subject := recv_subject c;
     queue := q; waiters_send := ws; waiters_recv := wr |}.

Definition update_channel (r : KernelIpcRegistry) (id : Z) (c : Channel) : KernelIpcRegistry :=
  {| channels := <[id := c]> (channels r); next_id := next_id r |}.

(** [VecDeque::pop_front] on a wait queue, mapped to a wake action. *)
Definition pop_waiter (ws : list TaskId) : WakeAction * list TaskId :=
  match ws with
  | [] => (WakeNone, [])
  | t :: ws => (Wake t, ws)
  end.

(** Whether an optional subject denies a requester. *)
Definition denies (subject : option KernelPrincipal) (requester : KernelPrincipal) : bool :=
  match subject with
  | Some allowed => negb (bool_decide (allowed = requester))
  | None => false
  end.

Definition ipc_send (env : MessageEnvelope) (sender_task : TaskId) (requester : KernelPrincipal)
    (r : KernelIpcRegistry) : KernelResult WakeAction * KernelIpcRegistry :=
  match channels r !! env_channel env with
  | None => (Err InvalidArgument, r)
  | Some c =>
      if denies (send_subject c) requester then (Err CapabilityDenied, r) else
      let env' := {| env_sender := sender_task; env_channel := ch_id c;
                     env_kind := env_kind env; env_payload := env_payload env |} in
      let enqueue q :=
        let '(wake, wr) := pop_waiter (waiters_recv c) in
        (Ok wake, update_channel r (env_channel env) (set_queues c (q ++ [env']) (waiters_send c) wr)) in
      if queue_depth (ch_policy c) <=? depth c then
        match backpressure (ch_policy c) with
        | BpDrop => (Err ResourceExhausted, r)
        | BpEvictOldest => enqueue (tail (queue c))
        | BpBlock =>
            (Ok (Block sender_task),
             update_channel r (env_channel env)
               (set_queues c (queue c) (waiters_send c ++ [sender_task]) (waiters_recv c)))
        end
      else enqueue (queue c)
  end.

Definition ipc_receive (id : ChannelId) (task : TaskId) (requester : KernelPrincipal) (blocking : bool)
    (r : KernelIpcRegistry)
    : KernelResult (option MessageEnvelope * WakeAction) * KernelIpcRegistry :=
  match channels r !! id with
  | None => (Err InvalidArgument, r)
  | Some c =>
      if denies (recv_subject c) requester then (Err CapabilityDenied, r) else
      match queue c with
      | env :: q =>
          let '(wake, ws) := pop_waiter (waiters_send c) in
          (Ok (Some env, wake), update_channel r id (set_queues c q ws (waiters_recv c)))
      | [] =>
          if blocking then
            (Ok (None, Block task),
             update_channel r id (set_queues c [] (waiters_send c) (waiters_recv c ++ [task])))
          else (Ok (None, WakeNone), r)
      end
  end.

Definition ipc_queue_depth (id : ChannelId) (r : KernelIpcRegistry) : KernelResult Z :=
  ok_or (depth <$> channels r !! id) InvalidArgument.

(** ** Traces

    A registry runs a sequence of operations; each step emits what it did to a
    channel.  [sent id] and [received id] project the accepted and delivered
    messages of one channel from a trace. *)

Inductive ipc_op :=
| OpCreate (owner : TaskId) (pol : ChannelPolicy) (st rt : option KernelCapabilityToken)
| OpCreateSigned (owner : TaskId) (pol : ChannelPolicy) (send_bytes recv_bytes : option (list Z)) (p : Ed25519CapabilityProvider) (now : Z)
| OpDestroy (id : ChannelId) (requester : TaskId)
| OpSend (env : MessageEnvelope) (task : TaskId) (requester : KernelPrincipal)
| OpReceive (id : ChannelId) (task : TaskId) (requester : KernelPrincipal) (blocking : bool).

Inductive ipc_event :=
| EvAccepted (id : ChannelId) (env : MessageEnvelope) (task : TaskId) (requester : KernelPrincipal)
| EvDelivered (id : ChannelId) (env : MessageEnvelope)
| EvDestroyed (id : ChannelId)
| EvNone.

(** The envelope the kernel enqueues: sender and channel stamped. *)
Definition stamp (env : MessageEnvelope) (id task : Z) : MessageEnvelope :=
  {| env_sender := task; env_channel := id; env_kind := env_kind env; env_payload := env_payload env |}.

Section Runs.
Context `{SigningPrimitives}.
Context (domain_separated_hash : str -> list Z -> list Z).
Context (decode_canonical : list Z -> option CapabilityToken).

(** A creation from signed blobs always returns ([create_signed_returns]). *)
Definition ipc_step (op : ipc_op) (r : KernelIpcRegistry) : ipc_event * KernelIpcRegistry :=
  match op with
  | OpCreate o pol st rt => (EvNone, snd (create_channel o pol st rt provider_placeholder r))
  | OpCreateSigned o pol sb rb p now =>
      (EvNone, match create_channel_signed domain_separated_hash decode_canonical o pol sb rb p now r with Done (_, r') => r' | Panicked => r end)
  | OpDestroy id t =>
      let '(res, r') := destroy_channel id t r in
      (match res with Ok _ => EvDestroyed id | Err _ => EvNone end, r')
  | OpSend env t p =>
      let '(res, r') := ipc_send env t p r in
      (match res with
       | Ok (Block _) => EvNone
       | Ok _ => EvAccepted (env_channel env) (stamp env (env_channel env) t) t p
       | Err _ => EvNone
       end, r')
  | OpReceive id t p b =>
      let '(res, r') := ipc_receive id t p b r in
      (match res with Ok (Some env, _) => EvDelivered id env | _ => EvNone end, r')
  end.

Fixpoint ipc_run (ops : list ipc_op) (r : KernelIpcRegistry) : list ipc_event * KernelIpcRegistry :=
  match ops with
  | [] => ([], r)
  | op :: ops =>
      let '(ev, r1) := ipc_step op r in
      let '(evs, r2) := ipc_run ops r1 in
      (ev :: evs, r2)
  end.
End Runs.

Definition sent (id : Z) (evs : list ipc_event) : list MessageEnvelope :=
  omap (fun ev => match ev with EvAccepted i e _ _ => if i =? id then Some e else None | _ => None end) evs.
Definition received (id : Z) (evs : list ipc_event) : list MessageEnvelope :=
  omap (fun ev => match ev with EvDelivered i e => if i =? id then Some e else None | _ => None end) evs.

(** ** Invariant *)

Record channel_wf (id : Z) (c : Channel) : Prop := {
  cw_id : ch_id c = id;
  cw_depth : 0 < queue_depth (ch_policy c);
  cw_bound : depth c <= queue_depth (ch_policy c);
  cw_stamped : Forall (fun e => env_channel e = id) (queue c);
}.

Record registry_wf (r : KernelIpcRegistry) : Prop := {
  rg_next : 1 <= next_id r < 2 ^ 64;
  rg_chan : forall id c, channels r !! id = Some c -> channel_wf id c;
  rg_ids : forall id, is_Some (channels r !! id) ->
    1 <= id <= next_id r /\ (next_id r < u64_max -> id < next_id r);
}.

(** Policies reach the kernel as [usize]: a depth is never negative. *)
Definition op_ok (op : ipc_op) : Prop :=
  match op with OpCreate _ pol _ _ | OpCreateSigned _ pol _ _ _ _ => 0 <= queue_depth pol | _ => True end.

(** ** Lemmas *)

Lemma registry_new_wf : registry_wf registry_new.
Proof.
  split; cbn; [lia|intros id c Hc|intros id [c Hc]]; by rewrite lookup_empty in Hc.
Qed.

Lemma install_channel_wf pol o ss rs r :
  registry_wf r -> 0 < queue_depth pol -> registry_wf (snd (install_channel pol o ss rs r)).
Proof.
  intros [Hn Hc Hi] Hd. unfold install_channel.
  assert (forall id c, <[next_id r := channel_new (next_id r) pol o ss rs]> (channels r) !! id = Some c -> channel_wf id c) as Hc'.
  { intros id c. rewrite lookup_insert_Some. intros [[<- <-]|[_ Hl]]; [|eauto].
    split; unfold depth; cbn; [done|done|lia|constructor]. }
  destruct (checked_add64 (next_id r) 1) as [n|] eqn:E; cbn.
  - apply checked_add64_some in E as [-> E]. split; cbn; [lia|done|].
    intros id [c Hl]. apply lookup_insert_Some in Hl as [[<- _]|[_ Hl]]; [unfold u64_max in *; lia|].
    destruct (Hi id); [eauto|]. lia.
  - assert (next_id r = u64_max).
    { unfold checked_add64 in E. case_match; [done|]. zbool. unfold u64_max. lia. }
    split; cbn; [lia|done|].
    intros id [c Hl]. apply lookup_insert_Some in Hl as [[<- _]|[_ Hl]]; [lia|].
    destruct (Hi id); [eauto|]. lia.
Qed.

Lemma create_channel_cases {C} `{KernelCapabilityCheck C} o pol st rt (v : C) r :
  (exists e, create_channel o pol st rt v r = (Err e, r)) \/
  (queue_depth pol <> 0 /\ exists ss rs, create_channel o pol st rt v r = install_channel pol o ss rs r).
Proof.
  unfold create_channel. destruct (Z.eqb_spec (queue_depth pol) 0); [eauto|].
  destruct (token_subject v st _ _); [|eauto]. destruct (token_subject v rt _ _); eauto 6.
Qed.

Lemma update_channel_wf r id c c' :
  registry_wf r -> channels r !! id = Some c -> channel_wf id c' -> registry_wf (update_channel r id c').
Proof.
  intros [Hn Hc Hi] Hl Hw. split; cbn; [done| |].
  - intros id' x. rewrite lookup_insert_Some. intros [[<- <-]|[_ Hx]]; eauto.
  - intros id' [x Hx]. apply lookup_insert_Some in Hx as [[<- _]|[_ Hx]]; eauto.
Qed.

(** Every branch of [send]. *)
Lemma ipc_send_cases env t p r c :
  channels r !! env_channel env = Some c -> ch_id c = env_channel env ->
  let full := queue_depth (ch_policy c) <=? depth c in
  let e := stamp env (env_channel env) t in
  let '(wake, wr) := pop_waiter (waiters_recv c) in
  ipc_send env t p r =
    if denies (send_subject c) p then (Err CapabilityDenied, r)
    else if full then
      match backpressure (ch_policy c) with
      | BpDrop => (Err ResourceExhausted, r)
      | BpEvictOldest => (Ok wake, update_channel r (env_channel env)
                            (set_queues c (tail (queue c) ++ [e]) (waiters_send c) wr))
      | BpBlock => (Ok (Block t), update_channel r (env_channel env)
                            (set_queues c (queue c) (waiters_send c ++ [t]) (waiters_recv c)))
      end
    else (Ok wake, update_channel r (env_channel env)
                     (set_queues c (queue c ++ [e]) (waiters_send c) wr)).
Proof.
  intros Hl Hid. unfold ipc_send, stamp. rewrite Hl, Hid.
  destruct (pop_waiter (waiters_recv c)). destruct (denies _ _); [done|].
  destruct (_ <=? _); [|done]. by destruct (backpressure _).
Qed.

Lemma pop_waiter_not_block ws t : fst (pop_waiter ws) <> Block t.
Proof. by destruct ws. Qed.

Lemma channel_wf_send id c e ws wr q :
  channel_wf id c -> env_channel e = id ->
  (q = queue c /\ depth c < queue_depth (ch_policy c)) \/ q = tail (queue c) ->
  channel_wf id (set_queues c (q ++ [e]) ws wr).
Proof.
  intros [Hid Hd Hb Hs] He Hq. unfold depth in *. split; cbn; try done.
  - unfold depth. cbn. rewrite length_app. cbn. destruct Hq as [[-> Hlt]| ->]; [lia|].
    destruct (queue c); cbn in *; lia.
  - apply Forall_app. split; [|by constructor].
    destruct Hq as [[-> _]| ->]; [done|]. by apply Forall_tail.
Qed.

Lemma create_channel_wf {C} `{KernelCapabilityCheck C} o pol st rt (v : C) r :
  0 <= queue_depth pol -> registry_wf r -> registry_wf (snd (create_channel o pol st rt v r)).
Proof.
  intros Hd Hwf. destruct (create_channel_cases o pol st rt v r) as [[e ->]|[Hne (ss & rs & ->)]]; [done|].
  apply install_channel_wf; [done|]. lia.
Qed.

Lemma ipc_send_wf env t p r : registry_wf r -> registry_wf (snd (ipc_send env t p r)).
Proof.
  intros Hwf. destruct (channels r !! env_channel env) as [c|] eqn:Hl.
  2:{ unfold ipc_send. by rewrite Hl. }
  pose proof (rg_chan _ Hwf _ _ Hl) as Hw.
  pose proof (ipc_send_cases env t p r c Hl (cw_id _ _ Hw)) as Hs. cbn zeta in Hs.
  destruct (pop_waiter (waiters_recv c)) as [wake wr]. rewrite Hs. clear Hs.
  destruct (denies _ _); [done|]. destruct (Z.leb_spec (queue_depth (ch_policy c)) (depth c)).
  - destruct (backpressure _); cbn [snd].
    + eapply update_channel_wf; eauto. destruct Hw. by split.
    + done.
    + eapply update_channel_wf; eauto. apply channel_wf_send; auto.
  - cbn [snd]. eapply update_channel_wf; eauto. apply channel_wf_send; auto.
Qed.

Lemma ipc_receive_wf id t p b r : registry_wf r -> registry_wf (snd (ipc_receive id t p b r)).
Proof.
  intros Hwf. unfold ipc_receive. destruct (channels r !! id) as [c|] eqn:Hl; [|done].
  pose proof (rg_chan _ Hwf _ _ Hl) as [Hid Hd Hb Hst]. destruct (denies _ _); [done|].
  destruct (queue c) as [|e q] eqn:Hq.
  - destruct b; [|done]. cbn [snd]. eapply update_channel_wf; eauto.
    split; cbn; try done. unfold depth. cbn. lia.
  - destruct (pop_waiter _). cbn [snd]. eapply update_channel_wf; eauto.
    split; cbn; try done; [unfold depth in *; rewrite Hq in Hb; cbn in *; lia|].
    by apply Forall_cons in Hst as [_ ?].
Qed.

Lemma destroy_channel_wf id t r : registry_wf r -> registry_wf (snd (destroy_channel id t r)).
Proof.
  intros Hwf. unfold destroy_channel. destruct (channels r !! id) as [c|] eqn:Hl; [|done].
  destruct (negb _); [done|]. destruct Hwf as [Hn Hc Hi]. split; cbn; [done| |].
  - intros x y [_ Hy]%lookup_delete_Some. eauto.
  - intros x [y [_ Hy]%lookup_delete_Some]. eauto.
Qed.

(** What either creation does to the registry: nothing, or an installation. *)
Definition created (pol : ChannelPolicy) (r r' : KernelIpcRegistry) : Prop :=
  r' = r \/ (queue_depth pol <> 0 /\ exists o ss rs, r' = snd (install_channel pol o ss rs r)).

Lemma create_channel_created {C} `{KernelCapabilityCheck C} o pol st rt (v : C) r : created pol r (snd (create_channel o pol st rt v r)).
Proof. destruct (create_channel_cases o pol st rt v r) as [[e ->]|[Hne (ss & rs & ->)]]; [by left|]. right. split; [done|]. by exists o, ss, rs. Qed.

Lemma created_channel_wf pol r r' : 0 <= queue_depth pol -> registry_wf r -> created pol r r' -> registry_wf r'.
Proof. intros Hd Hwf [->|(Hne & o & ss & rs & ->)]; [done|]. apply install_channel_wf; [done|]. lia. Qed.

Lemma created_keeps pol r r' id c : created pol r r' -> channels r !! id = Some c -> id < next_id r -> channels r' !! id = Some c /\ next_id r <= next_id r'.
Proof.
  intros [->|(_ & o & ss & rs & ->)] Hc Hlt; [done|]. unfold install_channel. destruct (checked_add64 (next_id r) 1) as [n|] eqn:E; cbn; rewrite lookup_insert_ne by lia; (split; [done|]); [|done].
  apply checked_add64_some in E. lia.
Qed.

Section RunLemmas.
Context `{SigningPrimitives}.
Context (domain_separated_hash : str -> list Z -> list Z).
Context (decode_canonical : list Z -> option CapabilityToken).
Notation ipc_step := (ipc_step domain_separated_hash decode_canonical).
Notation ipc_run := (ipc_run domain_separated_hash decode_canonical).

Lemma create_signed_created o pol sb rb p now r res r' :
  create_channel_signed domain_separated_hash decode_canonical o pol sb rb p now r = Done (res, r') -> created pol r r'.
Proof.
  unfold create_channel_signed. intros E.
  assert (forall x : run (KernelResult ChannelId * KernelIpcRegistry), x = (if queue_depth pol =? 0 then Done (Err InvalidArgument, r) else
      ss ← signed_subject domain_separated_hash decode_canonical sb KIpcSend p now;
      match ss with Err e => Done (Err e, r) | Ok ss =>
        rs ← signed_subject domain_separated_hash decode_canonical rb KIpcRecv p now;
        match rs with Err e => Done (Err e, r) | Ok rs => Done (install_channel pol o ss rs r) end end) -> x = Done (res, r') -> created pol r r') as Hmain.
  { intros x -> Ex. destruct (Z.eqb_spec (queue_depth pol) 0) as [|Hne]; [injection Ex as <- <-; by left|].
    destruct (signed_subject _ _ sb _ _ _) as [[ss|e]|]; cbn [mbind run_bind] in Ex; [|injection Ex as <- <-; by left|done].
    destruct (signed_subject _ _ rb _ _ _) as [[rs|e]|]; cbn [mbind run_bind] in Ex; [|injection Ex as <- <-; by left|done].
    injection Ex as Ex. right. split; [done|]. exists o, ss, rs. by rewrite Ex. }
  destruct sb, rb; try (by eapply Hmain). injection E as E. pose proof (create_channel_created o pol None None p r) as Hc. by rewrite E in Hc.
Qed.

Lemma signed_step_created o pol sb rb p now r : created pol r (snd (ipc_step (OpCreateSigned o pol sb rb p now) r)).
Proof.
  cbn. destruct (create_channel_signed _ _ _ _ _ _ _ _ _) as [[res r']|] eqn:E; [|by left]. by eapply create_signed_created.
Qed.

Lemma ipc_step_wf op r : op_ok op -> registry_wf r -> registry_wf (snd (ipc_step op r)).
Proof.
  intros Hop Hwf. destruct op as [o pol st rt|o pol sb rb p now|id t|env t p|id t p b].
  - by apply create_channel_wf.
  - eapply created_channel_wf; [exact Hop|done|]. apply signed_step_created.
  - pose proof (destroy_channel_wf id t r Hwf) as Hw. cbn [Ipc.ipc_step]. by destruct (destroy_channel id t r).
  - pose proof (ipc_send_wf env t p r Hwf) as Hw. cbn [Ipc.ipc_step]. by destruct (ipc_send env t p r).
  - pose proof (ipc_receive_wf id t p b r Hwf) as Hw. cbn [Ipc.ipc_step]. by destruct (ipc_receive id t p b r).
Qed.

Lemma ipc_run_wf ops r : Forall op_ok ops -> registry_wf r -> registry_wf (snd (ipc_run ops r)).
Proof.
  revert r. induction ops as [|op ops IH]; intros r Hops Hwf; [done|].
  apply Forall_cons in Hops as [Ho Hops]. cbn [Ipc.ipc_run].
  pose proof (ipc_step_wf op r Ho Hwf) as Hw. destruct (ipc_step op r) as [ev r1]. cbn [snd] in Hw.
  specialize (IH r1 Hops Hw). by destruct (ipc_run ops r1).
Qed.

(** One step seen from one live channel: the id counter does not go back, the
    policy and the send subject are kept, an accepted message joins the tail
    of the queue and a delivered one leaves its head (unless the policy
    evicts), and an accepted sender was authorised. *)
Record chan_step (id : Z) (c : Channel) (r r' : KernelIpcRegistry) (ev : ipc_event) (c' : Channel) : Prop := {
  cs_at : channels r' !! id = Some c';
  cs_next : next_id r <= next_id r';
  cs_policy : ch_policy c' = ch_policy c;
  cs_subject : send_subject c' = send_subject c;
  cs_fifo : backpressure (ch_policy c) <> BpEvictOldest ->
    queue c ++ sent id [ev] = received id [ev] ++ queue c';
  cs_auth : forall e t p, ev = EvAccepted id e t p -> env_sender e = t /\ denies (send_subject c) p = false;
}.

(** Events that are silent on channel [id]. *)
Definition off (id : Z) (ev : ipc_event) : Prop :=
  match ev with EvAccepted i _ _ _ | EvDelivered i _ => i <> id | _ => True end.

Lemma chan_step_off id c r r' ev :
  channels r' !! id = Some c -> next_id r <= next_id r' -> off id ev -> chan_step id c r r' ev c.
Proof.
  intros Hc Hn Ho. split; try done.
  - intros _. destruct ev as [i ? ? ?|i ?|i|]; cbn in *; try rewrite (proj2 (Z.eqb_neq _ _) Ho); by rewrite app_nil_r.
  - intros e t p ->. by destruct Ho.
Qed.

Lemma send_step_channel env t p r ev r' id c :
  registry_wf r -> channels r !! id = Some c ->
  ipc_step (OpSend env t p) r = (ev, r') -> exists c', chan_step id c r r' ev c'.
Proof.
  intros Hwf Hc Hs. cbn [Ipc.ipc_step] in Hs.
  destruct (channels r !! env_channel env) as [ci|] eqn:Hi.
  2:{ unfold ipc_send in Hs. rewrite Hi in Hs. injection Hs as <- <-. exists c. by apply chan_step_off. }
  pose proof (ipc_send_cases env t p r ci Hi (cw_id _ _ (rg_chan _ Hwf _ _ Hi))) as Hcase. cbn zeta in Hcase.
  pose proof (pop_waiter_not_block (waiters_recv ci)) as Hnb.
  destruct (pop_waiter (waiters_recv ci)) as [wake wr]. rewrite Hcase in Hs. clear Hcase. cbn [fst] in Hnb.
  assert (forall x, match wake with Block _ => EvNone | _ => x end = x) as Hwake.
  { intros x. destruct wake as [|w|w]; [done|done|by destruct (Hnb w)]. }
  destruct (denies (send_subject ci) p) eqn:Hden.
  { injection Hs as <- <-. exists c. by apply chan_step_off. }
  destruct (decide (env_channel env = id)) as [<-|Hne].
  - rewrite Hc in Hi. injection Hi as <-.
    destruct (queue_depth (ch_policy c) <=? depth c); [destruct (backpressure (ch_policy c)) eqn:Ebp|].
    all: try rewrite Hwake in Hs; injection Hs as <- <-.
    all: eexists; split; cbn; rewrite ?Z.eqb_refl, ?lookup_insert_eq, ?app_nil_r; try done.
    all: by intros e t' p' [= <- <- <-].
  - exists c. destruct (queue_depth (ch_policy ci) <=? depth ci); [destruct (backpressure (ch_policy ci))|].
    all: try rewrite Hwake in Hs; injection Hs as <- <-.
    all: apply chan_step_off; cbn; rewrite ?lookup_insert_ne by done; done.
Qed.

Lemma receive_step_channel i t p b r ev r' id c :
  channels r !! id = Some c ->
  ipc_step (OpReceive i t p b) r = (ev, r') -> exists c', chan_step id c r r' ev c'.
Proof.
  intros Hc Hs. cbn [Ipc.ipc_step] in Hs. unfold ipc_receive in Hs. destruct (channels r !! i) as [ci|] eqn:Hi.
  2:{ injection Hs as <- <-. exists c. by apply chan_step_off. }
  destruct (denies (recv_subject ci) p).
  { injection Hs as <- <-. exists c. by apply chan_step_off. }
  destruct (decide (i = id)) as [->|Hne].
  - rewrite Hc in Hi. injection Hi as <-. destruct (queue c) as [|e q] eqn:Hq.
    + destruct b; injection Hs as <- <-; [|exists c; by apply chan_step_off].
      exists (set_queues c [] (waiters_send c) (waiters_recv c ++ [t])).
      split; cbn; rewrite ?lookup_insert_eq, ?Hq; done.
    + destruct (pop_waiter (waiters_send c)) as [w ws]. injection Hs as <- <-.
      exists (set_queues c q ws (waiters_recv c)). split; cbn; rewrite ?lookup_insert_eq, ?Hq, ?Z.eqb_refl, ?app_nil_r; done.
  - exists c. destruct (queue ci) as [|e q].
    + destruct b; injection Hs as <- <-; apply chan_step_off; cbn; rewrite ?lookup_insert_ne by done; done.
    + destruct (pop_waiter (waiters_send ci)). injection Hs as <- <-.
      apply chan_step_off; cbn; rewrite ?lookup_insert_ne by done; done.
Qed.

Lemma ipc_step_channel op r ev r' id c :
  registry_wf r -> channels r !! id = Some c -> id < next_id r ->
  ipc_step op r = (ev, r') -> ev <> EvDestroyed id -> exists c', chan_step id c r r' ev c'.
Proof.
  intros Hwf Hc Hlt Hs Hnd. destruct op as [o pol st rt|o pol sb rb p now|i t|env t p|i t p b].
  - cbn [Ipc.ipc_step] in Hs. injection Hs as <- <-. exists c. destruct (created_keeps pol r _ id c (create_channel_created o pol st rt provider_placeholder r) Hc Hlt). by apply chan_step_off.
  - pose proof (signed_step_created o pol sb rb p now r) as Hcr. rewrite Hs in Hcr. cbn [Ipc.ipc_step snd] in Hs, Hcr. injection Hs as <- _. exists c. destruct (created_keeps pol r r' id c Hcr Hc Hlt). by apply chan_step_off.
  - cbn [Ipc.ipc_step] in Hs. unfold destroy_channel in Hs. destruct (channels r !! i) as [ci|] eqn:Hi.
    2:{ injection Hs as <- <-. exists c. by apply chan_step_off. }
    destruct (negb _); injection Hs as <- <-; exists c; apply chan_step_off; try done.
    cbn. by rewrite lookup_delete_ne by congruence.
  - by eapply send_step_channel.
  - by eapply receive_step_channel.
Qed.

Lemma sent_cons id ev evs : sent id (ev :: evs) = sent id [ev] ++ sent id evs.
Proof. unfold sent. cbn. by case_match. Qed.
Lemma received_cons id ev evs : received id (ev :: evs) = received id [ev] ++ received id evs.
Proof. unfold received. cbn. by case_match. Qed.

(** ** Theorems *)

Lemma wf_below r id : registry_wf r -> is_Some (channels r !! id) -> id < u64_max -> id < next_id r.
Proof.
  intros Hwf Hid Hlt. destruct (rg_ids _ Hwf id Hid) as [Hle Hn]. destruct (Z.lt_ge_cases (next_id r) u64_max) as [H1|]; [by apply Hn|]. pose proof (rg_next _ Hwf). lia.
Qed.

(** C1: First in, first out: for any channel of a well-formed registry whose
    policy does not evict, other than the channel numbered 2^64 - 1, over any
    sequence of operations on the whole registry (creations with and without
    signed tokens, destructions of other channels, sends and receives by any
    task on any channel), the messages initially queued followed by those
    accepted are exactly those delivered followed by those still queued:
    nothing is lost, duplicated, reordered or leaked between channels. The
    channel numbered 2^64 - 1 is left out because the next creation, which
    fails, replaces it. *)
Theorem ipc_fifo (ops : list ipc_op) (r : KernelIpcRegistry) (id : Z) (c : Channel)
    (Hwf : registry_wf r) (Hops : Forall op_ok ops)
    (Hc : channels r !! id = Some c) (Hid : id < u64_max)
    (Hbp : backpressure (ch_policy c) <> BpEvictOldest)
    (Hlive : EvDestroyed id ∉ fst (ipc_run ops r)) :
  exists c', channels (snd (ipc_run ops r)) !! id = Some c' /\
    queue c ++ sent id (fst (ipc_run ops r)) = received id (fst (ipc_run ops r)) ++ queue c'.
Proof.
  revert r c Hwf Hc Hbp Hlive. induction ops as [|op ops IH]; intros r c Hwf Hc Hbp Hlive.
  { exists c. cbn. by rewrite app_nil_r. }
  apply Forall_cons in Hops as [Ho Hops]. cbn [Ipc.ipc_run] in *.
  pose proof (ipc_step_wf op r Ho Hwf) as Hw1. destruct (ipc_step op r) as [ev r1] eqn:E. cbn [snd] in Hw1.
  specialize (IH Hops r1). destruct (ipc_run ops r1) as [evs r2]. cbn [fst snd] in *.
  apply not_elem_of_cons in Hlive as [Hne Hlive].
  destruct (ipc_step_channel op r ev r1 id c) as [c1 [Hat Hn Hpol Hsub Hf _]]; try done; [by apply wf_below|].
  destruct (IH c1) as (c2 & Hc2 & Hq2); try done; [by rewrite Hpol|].
  exists c2. split; [done|]. rewrite sent_cons, received_cons, app_assoc, Hf by done.
  by rewrite <- !app_assoc, Hq2.
Qed.

(** Sender authenticity: on a channel created with a send principal, every
    message accepted in any run was submitted by exactly that principal, and
    its sender field is the task that made the call, whatever the submitted
    envelope said. *)
Theorem ipc_sender_authentic (ops : list ipc_op) (r : KernelIpcRegistry) (id : Z) (c : Channel)
    (s : KernelPrincipal) (Hwf : registry_wf r) (Hops : Forall op_ok ops)
    (Hc : channels r !! id = Some c) (Hid : id < next_id r) (Hs : send_subject c = Some s)
    (Hlive : EvDestroyed id ∉ fst (ipc_run ops r)) :
  forall e t p, EvAccepted id e t p ∈ fst (ipc_run ops r) -> p = s /\ env_sender e = t.
Proof.
  revert r c Hwf Hc Hid Hs Hlive. induction ops as [|op ops IH]; intros r c Hwf Hc Hid Hs Hlive e t p Hin.
  { by apply elem_of_nil in Hin. }
  apply Forall_cons in Hops as [Ho Hops]. cbn [Ipc.ipc_run] in *.
  pose proof (ipc_step_wf op r Ho Hwf) as Hw1. destruct (ipc_step op r) as [ev r1] eqn:E. cbn [snd] in Hw1.
  specialize (IH Hops r1). destruct (ipc_run ops r1) as [evs r2]. cbn [fst snd] in *.
  apply not_elem_of_cons in Hlive as [Hne Hlive].
  destruct (ipc_step_channel op r ev r1 id c) as [c1 [Hat Hn Hpol Hsub _ Ha]]; try done.
  apply elem_of_cons in Hin as [Hev|Hin].
  - destruct (Ha e t p) as [He Hden]; [done|]. split; [|done].
    rewrite Hs in Hden. cbn in Hden. case_bool_decide; cbn in *; congruence.
  - apply (IH c1) with (e := e) (t := t); try done; [lia|congruence].
Qed.

(** Registry invariant: from the empty registry, any sequence of
    operations with any arguments leaves every channel within its configured
    depth, with a positive depth, every queued message stamped with the id of
    the channel that holds it, and every live id in [1, next_id]. *)
Theorem ipc_registry_invariant (ops : list ipc_op) (Hops : Forall op_ok ops) :
  let r := snd (ipc_run ops registry_new) in
  1 <= next_id r < 2 ^ 64 /\
  forall id c, channels r !! id = Some c ->
    1 <= id <= next_id r /\ ch_id c = id /\
    0 < queue_depth (ch_policy c) /\ depth c <= queue_depth (ch_policy c) /\
    Forall (fun e => env_channel e = id) (queue c).
Proof.
  intros r. subst r. destruct (ipc_run_wf ops registry_new Hops registry_new_wf) as [Hn Hc Hi].
  split; [exact Hn|]. intros id c Hl. destruct (Hc id c Hl). destruct (Hi id); [by eexists|]. split_and!; done || lia.
Qed.

End RunLemmas.

(** The id counter is advanced after the channel is stored: a creation at
    the last id reports [ResourceExhausted] and still leaves the channel in
    the registry. *)
Theorem create_channel_exhausted_leaks {C} `{KernelCapabilityCheck C} (o : TaskId) (pol : ChannelPolicy)
    (v : C) (r : KernelIpcRegistry) (Hn : next_id r = u64_max) (Hd : queue_depth pol <> 0) :
  fst (create_channel o pol None None v r) = Err ResourceExhausted /\
  channels (snd (create_channel o pol None None v r)) !! u64_max = Some (channel_new u64_max pol o None None) /\
  next_id (snd (create_channel o pol None None v r)) = u64_max.
Proof.
  unfold create_channel, install_channel. rewrite (proj2 (Z.eqb_neq _ _) Hd), Hn.
  assert (checked_add64 u64_max 1 = None) as -> by reflexivity.
  split; [done|]. split; [apply lookup_insert_eq|done].
Qed.

Section SignedTheorems.
Context `{SigningPrimitives}.
Context (domain_separated_hash : str -> list Z -> list Z).
Context (decode_canonical : list Z -> option CapabilityToken).

Lemma revocation_new_wf :
  exists rl, revocation_new = Done rl /\ revocation_wf domain_separated_hash rl /\ full rl = ∅.
Proof.
  destruct (bloom_new_wf 1024) as (b & Eb & Hb); [lia|lia|].
  exists {| bloom := b; full := ∅ |}. split_and!; [|split; cbn; [done|]|done].
  - unfold revocation_new, with_expected_capacity. by rewrite Eb.
  - intros id i Hid. by apply not_elem_of_empty in Hid.
Qed.

Lemma verify_signed_token_spec p t now :
  exists v, verify_signed_token domain_separated_hash p t now = Done v /\
    (v = Authorised <->
       (exists bytes, encode_canonical (payload t) = Some bytes /\
          sig_verify (tp_issuer (payload t)) bytes (signature t) = true) /\
       not_before (window (tp_scope (payload t))) <= now < not_after (window (tp_scope (payload t))) /\
       tp_subject (payload t) = node_id_bytes p).
Proof.
  destruct revocation_new_wf as (rl & E & Hwf & Hf). unfold verify_signed_token. rewrite E. cbn.
  pose proof (verify_full_accepts domain_separated_hash t now (Some (node_id_bytes p)) rl Hwf) as Ha.
  assert (exists x, verify_full domain_separated_hash t now (Some (node_id_bytes p)) rl = Done x) as [x Ex].
  { unfold verify_full. destruct (verify_signature t); [|eauto].
    rewrite revocation_contains_spec by done. cbn. eauto. }
  rewrite Ex in *. cbn. eexists. split; [done|]. rewrite Hf in Ha.
  destruct x as [[]|e]; cbn.
  - split; [intros _|done]. destruct Ha as [Ha _]. destruct Ha as (? & _ & ? & [=]); [done|]. split_and!; done || lia || congruence.
  - split; [done|]. intros (Hs & Hw & Hsub). destruct Ha as [_ Ha]. assert (Done (A:=result CapabilityErrorKind unit) (Err e) = Done (Ok ())) by
      (apply Ha; split_and!; [done|apply not_elem_of_empty|lia|lia|by rewrite Hsub]). done.
Qed.

(** Signed channel tokens: authentication never panics, and it yields a
    principal exactly when the blob decodes to a token whose signature
    verifies under its issuer key, whose window contains the clock, whose
    action is the requested one and whose resource is some IPC channel; the
    principal is then always the provider's own node id. *)
Theorem signed_token_principal (bytes : list Z) (a : KernelAction) (p : Ed25519CapabilityProvider) (now : Z) :
  exists res,
    decode_and_authenticate_token domain_separated_hash decode_canonical bytes a p now = Done res /\
    forall s, res = Ok s <->
      s = node_id_bytes p /\ exists t i,
        decode_canonical bytes = Some t /\
        (exists enc, encode_canonical (payload t) = Some enc /\
           sig_verify (tp_issuer (payload t)) enc (signature t) = true) /\
        not_before (window (tp_scope (payload t))) <= now < not_after (window (tp_scope (payload t))) /\
        action (tp_scope (payload t)) = match a with KIpcSend => IpcSend | KIpcRecv => IpcRecv end /\
        resource (tp_scope (payload t)) = IpcChannel i /\
        tp_subject (payload t) = node_id_bytes p.
Proof.
  unfold decode_and_authenticate_token. destruct (decode_canonical bytes) as [t|].
  2:{ eexists. split; [done|]. intros s. split; [done|]. by intros (_ & t & i & ? & _). }
  destruct (verify_signed_token_spec p t now) as (v & -> & Hv). cbn.
  case_bool_decide as Hva; cbn [negb].
  2:{ eexists. split; [done|]. intros s. split; [done|].
      intros (_ & t' & i & [= <-] & Hs & Hw & _ & _ & Hsub). destruct Hva. apply Hv. done. }
  apply Hv in Hva as (Hs & Hw & Hsub). case_bool_decide as Hact; cbn [negb].
  2:{ eexists. split; [done|]. intros s. split; [done|]. intros (_ & t' & i & [= <-] & _ & _ & Ha & _). done. }
  destruct (resource (tp_scope (payload t))) eqn:Er.
  all: eexists; split; [done|]; intros s; split; [intros Heq|intros (Hseq & t' & i' & [= <-] & _ & _ & _ & Hr & _)].
  all: try congruence.
  injection Heq as <-. split; [done|]. by do 2 eexists.
Qed.

Lemma create_signed_returns o pol sb rb p now r : exists x, create_channel_signed domain_separated_hash decode_canonical o pol sb rb p now r = Done x.
Proof.
  assert (forall b a, exists x, signed_subject domain_separated_hash decode_canonical b a p now = Done x) as Hs.
  { intros [b|] a; cbn; [|by eexists]. unfold decode_and_authenticate_token. destruct (decode_canonical b) as [t|]; cbn; [|by eexists].
    destruct (verify_signed_token_spec p t now) as (v & -> & _). cbn. destruct (negb _); [by eexists|]. destruct (negb _); [by eexists|]. destruct (resource _); by eexists. }
  unfold create_channel_signed. destruct (Hs sb KIpcSend) as [x Ex], (Hs rb KIpcRecv) as [y Ey]. rewrite Ex, Ey. cbn [mbind run_bind].
  destruct sb, rb; try (by eexists); (destruct (_ =? 0); [by eexists|]; destruct x; [|by eexists]; cbn [mbind run_bind]; destruct y; by eexists).
Qed.
End SignedTheorems.

(** ** Witnesses *)

Definition demo_policy (bp : BackpressurePolicy) : ChannelPolicy :=
  {| queue_depth := 2; backpressure := bp; tee_bound := false |}.
Definition demo_channel : Channel := channel_new 1 (demo_policy BpBlock) 7 (Some [5]) None.
Definition demo_registry : KernelIpcRegistry := {| channels := {[ 1 := demo_channel ]}; next_id := 2 |}.
Definition demo_env (b : Z) : MessageEnvelope :=
  {| env_sender := 0; env_channel := 1; env_kind := KRequest; env_payload := [b] |}.
(** A token blob is its last byte; only [9] decodes, to a token of the
    provider's own node that its key signed. *)
Definition demo_node : Ed25519CapabilityProvider := {| node_id_bytes := [7] |}.
Definition demo_blob_token : CapabilityToken :=
  {| payload := {| tp_id := [1]; tp_subject := [7]; tp_issuer := [9]; tp_parent := None;
       tp_scope := {| resource := IpcChannel 3; action := IpcSend; window := window demo_parent; caveats := [] |} |}; signature := [9; 1] |}.
Definition demo_hash (domain : str) (bytes : list Z) : list Z := replicate 32 0.
Definition demo_decode (bytes : list Z) : option CapabilityToken := if bool_decide (bytes = [9]) then Some demo_blob_token else None.
Notation demo_run := (@ipc_run toy_prims demo_hash demo_decode).
Definition demo_ops : list ipc_op :=
  [OpSend (demo_env 1) 3 [5]; OpSend (demo_env 2) 4 [5]; OpSend (demo_env 9) 4 [6];
   OpCreate 8 (demo_policy BpDrop) None None; OpCreateSigned 8 (demo_policy BpDrop) (Some [9]) None demo_node 150; OpReceive 1 9 [1] true; OpSend (demo_env 3) 3 [5]].

Lemma demo_registry_wf : registry_wf demo_registry.
Proof.
  split; cbn; [lia|intros id c|intros id [c Hc]].
  - rewrite lookup_singleton_Some. intros [<- <-]. split; unfold depth; cbn; [done|lia|lia|constructor].
  - apply lookup_singleton_Some in Hc as [<- _]. lia.
Qed.

Lemma demo_ops_ok : Forall op_ok demo_ops.
Proof. repeat constructor; cbn; lia. Qed.

Lemma demo_live : EvDestroyed 1 ∉ fst (demo_run demo_ops demo_registry).
Proof.
  set (evs := fst (demo_run demo_ops demo_registry)). vm_compute in evs. subst evs.
  intros H. repeat (apply elem_of_cons in H as [H|H]; [discriminate H|]). by apply elem_of_nil in H.
Qed.

Lemma ipc_fifo_witness :
  send_subject <$> channels (snd (demo_run demo_ops demo_registry)) !! 3 = Some (Some [7]) /\
  exists c', channels (snd (demo_run demo_ops demo_registry)) !! 1 = Some c' /\
    sent 1 (fst (demo_run demo_ops demo_registry)) = received 1 (fst (demo_run demo_ops demo_registry)) ++ queue c'.
Proof.
  split; [vm_compute; reflexivity|]. apply (@ipc_fifo toy_prims demo_hash demo_decode demo_ops demo_registry 1 demo_channel demo_registry_wf demo_ops_ok).
  - vm_compute. reflexivity.
  - vm_compute. reflexivity.
  - discriminate.
  - exact demo_live.
Defined.

Lemma ipc_sender_authentic_witness :
  [5] = [5] /\ env_sender (stamp (demo_env 1) 1 3) = 3.
Proof.
  apply (@ipc_sender_authentic toy_prims demo_hash demo_decode demo_ops demo_registry 1 demo_channel [5] demo_registry_wf demo_ops_ok).
  - vm_compute. reflexivity.
  - cbn. lia.
  - reflexivity.
  - exact demo_live.
  - set (evs := fst (demo_run demo_ops demo_registry)). vm_compute in evs. subst evs. left.
Defined.

Lemma ipc_registry_invariant_witness :
  1 <= next_id (snd (demo_run demo_ops registry_new)) < 2 ^ 64.
Proof. apply (@ipc_registry_invariant toy_prims demo_hash demo_decode demo_ops demo_ops_ok). Defined.

Lemma create_channel_exhausted_leaks_witness :
  fst (create_channel 1 (demo_policy BpDrop) None None provider_placeholder
         {| channels := ∅; next_id := u64_max |}) = Err ResourceExhausted.
Proof.
  apply (create_channel_exhausted_leaks 1 (demo_policy BpDrop) provider_placeholder
           {| channels := ∅; next_id := u64_max |}); [reflexivity|discriminate].
Defined.
