(* ===== verification/IrqTable.v ===== *)
(** * IRQ-to-IPC routing (omni-kernel: irq_table.rs)

    A fixed array of 256 slots maps interrupt vectors to IPC channels.  Drivers
    bind and unbind device vectors (32..255); [irq_notify] is the interrupt
    path: it turns a fire into a message on the bound channel through
    [ipc_send] of the registry. *)

From Stdlib Require Import ZArith Lia.
From stdpp Require Import base numbers list gmap.
From S2P Require Import Prelude Str CapScope CapToken Ipc.

(** ** Data *)

Definition MAX_IRQ_VECTORS : Z := 256.
Definition IRQ_VECTOR_DEVICE_BASE : Z := 32.

Inductive IrqBindError := AlreadyBound | InvalidVector | NotBound | NotOwner | TableFull.

Record IrqBinding := {
  irq_vector : Z;
  channel_id : Z;
  owner_task_id : Z;
  masked : bool;
}.

Record IrqTable := { bindings : list (option IrqBinding) }.

(** ** Operations *)

Definition irq_table_new : IrqTable := {| bindings := replicate (Z.to_nat MAX_IRQ_VECTORS) None |}.

Definition validate_vector (v : Z) : result IrqBindError nat :=
  if v <? IRQ_VECTOR_DEVICE_BASE then Err InvalidVector else Ok (Z.to_nat v).

Definition set_slot (t : IrqTable) (i : nat) (b : option IrqBinding) : IrqTable :=
  {| bindings := <[i := b]> (bindings t) |}.

Definition irq_bind (v ch owner : Z) (t : IrqTable) : run (result IrqBindError unit * IrqTable) :=
  match validate_vector v with
  | Err e => Done (Err e, t)
  | Ok idx =>
      slot ← index_run (bindings t) idx;
      match slot with
      | Some _ => Done (Err AlreadyBound, t)
      | None => Done (Ok (), set_slot t idx (Some {| irq_vector := v; channel_id := ch;
                                                     owner_task_id := owner; masked := false |}))
      end
  end.

Definition irq_unbind (v owner : Z) (t : IrqTable) : run (result IrqBindError unit * IrqTable) :=
  match validate_vector v with
  | Err e => Done (Err e, t)
  | Ok idx =>
      slot ← index_run (bindings t) idx;
      match slot with
      | None => Done (Err NotBound, t)
      | Some b => if negb (owner_task_id b =? owner) then Done (Err NotOwner, t)
                  else Done (Ok (), set_slot t idx None)
      end
  end.

Definition irq_lookup (v : Z) (t : IrqTable) : run (option IrqBinding) :=
  match validate_vector v with
  | Err _ => Done None
  | Ok idx => index_run (bindings t) idx
  end.

Definition with_mask (b : IrqBinding) (m : bool) : IrqBinding :=
  {| irq_vector := irq_vector b; channel_id := channel_id b;
     owner_task_id := owner_task_id b; masked := m |}.

Definition irq_mask (v : Z) (t : IrqTable) : run IrqTable :=
  match validate_vector v with
  | Err _ => Done t
  | Ok idx =>
      slot ← index_run (bindings t) idx;
      Done (match slot with Some b => set_slot t idx (Some (with_mask b true)) | None => t end)
  end.

Definition irq_unmask (v : Z) (t : IrqTable) : run IrqTable :=
  match validate_vector v with
  | Err _ => Done t
  | Ok idx =>
      slot ← index_run (bindings t) idx;
      Done (match slot with Some b => set_slot t idx (Some (with_mask b false)) | None => t end)
  end.

(** The message of one fire: the vector as a little-endian [u64]. *)
Definition irq_envelope (v : Z) (b : IrqBinding) : MessageEnvelope :=
  {| env_sender := 0; env_channel := channel_id b; env_kind := KNotification;
     env_payload := to_le_bytes 8 v |}.

(** [irq_notify]: the outcome of [send], wake action included, is discarded. *)
Definition irq_notify (v : Z) (t : IrqTable) (r : KernelIpcRegistry) : run KernelIpcRegistry :=
  b ← irq_lookup v t;
  match b with
  | None => Done r
  | Some b => if masked b then Done r else Done (snd (ipc_send (irq_envelope v b) 0 principal_ZERO r))
  end.

(** ** Sequences of table operations *)

Inductive irq_op :=
| IBind (v ch owner : Z)
| IUnbind (v owner : Z)
| IMask (v : Z)
| IUnmask (v : Z).

Definition irq_step (op : irq_op) (t : IrqTable) : run IrqTable :=
  match op with
  | IBind v ch o => x ← irq_bind v ch o t; Done (snd x)
  | IUnbind v o => x ← irq_unbind v o t; Done (snd x)
  | IMask v => irq_mask v t
  | IUnmask v => irq_unmask v t
  end.

Fixpoint irq_run (ops : list irq_op) (t : IrqTable) : run IrqTable :=
  match ops with
  | [] => Done t
  | op :: ops => t' ← irq_step op t; irq_run ops t'
  end.

(** Vectors reach the table as [u8]. *)
Definition irq_op_ok (op : irq_op) : Prop :=
  match op with IBind v _ _ | IUnbind v _ | IMask v | IUnmask v => is_u8 v end.

(** ** Invariant: one slot per vector, exceptions never bound, every binding
    in the slot of its own vector. *)
Record irq_wf (t : IrqTable) : Prop := {
  iw_len : length (bindings t) = Z.to_nat MAX_IRQ_VECTORS;
  iw_slot : forall i b, bindings t !! i = Some (Some b) ->
    irq_vector b = Z.of_nat i /\ IRQ_VECTOR_DEVICE_BASE <= irq_vector b;
}.

(** The abstract table: a partial function from vectors to bindings. *)
Definition irq_at (t : IrqTable) (v : Z) : option IrqBinding :=
  if 0 <=? v then mjoin (bindings t !! Z.to_nat v) else None.

(** ** Lemmas *)

Lemma irq_table_new_wf : irq_wf irq_table_new.
Proof.
  split; cbn [bindings irq_table_new]; [by rewrite length_replicate|].
  intros i b H. apply lookup_replicate in H as [H _]. discriminate.
Qed.

Lemma irq_index t v : irq_wf t -> is_u8 v -> index_run (bindings t) (Z.to_nat v) = Done (irq_at t v).
Proof.
  intros [Hl _] [Hv0 Hv1]. unfold index_run, irq_at. rewrite (proj2 (Z.leb_le 0 v) Hv0).
  destruct (lookup_lt_is_Some_2 (bindings t) (Z.to_nat v)) as [x ->]; [|by destruct x].
  rewrite Hl. unfold MAX_IRQ_VECTORS. lia.
Qed.

Lemma irq_at_wf t v b : irq_wf t -> irq_at t v = Some b -> irq_vector b = v /\ 32 <= v.
Proof.
  intros [_ Hs] H. unfold irq_at in H. destruct (Z.leb_spec 0 v); [|done].
  destruct (bindings t !! Z.to_nat v) as [[x|]|] eqn:E; cbn in H; [|done|done].
  injection H as ->. apply Hs in E as [E1 E2]. unfold IRQ_VECTOR_DEVICE_BASE in E2. lia.
Qed.

Lemma irq_at_exception t v : irq_wf t -> v < 32 -> irq_at t v = None.
Proof. intros Hwf Hv. destruct (irq_at t v) as [b|] eqn:E; [|done]. apply irq_at_wf in E; [lia|done]. Qed.

Lemma set_slot_at t v w o :
  irq_wf t -> is_u8 v -> irq_at (set_slot t (Z.to_nat v) o) w = if w =? v then o else irq_at t w.
Proof.
  intros [Hl _] [Hv0 Hv1]. unfold irq_at, set_slot. cbn [bindings].
  destruct (Z.eqb_spec w v) as [->|Hne].
  - rewrite (proj2 (Z.leb_le 0 v) Hv0), list_lookup_insert_eq; [done|].
    rewrite Hl. unfold MAX_IRQ_VECTORS. lia.
  - destruct (Z.leb_spec 0 w); [|done]. rewrite list_lookup_insert_ne; [done|lia].
Qed.

Lemma set_slot_wf t v o :
  irq_wf t -> is_u8 v -> (forall b, o = Some b -> irq_vector b = v /\ 32 <= v) ->
  irq_wf (set_slot t (Z.to_nat v) o).
Proof.
  intros [Hl Hs] [Hv0 Hv1] Ho. split; cbn [bindings set_slot]; [by rewrite length_insert|].
  intros i b H. destruct (decide (i = Z.to_nat v)) as [->|Hne].
  - rewrite list_lookup_insert_eq in H by (rewrite Hl; unfold MAX_IRQ_VECTORS; lia).
    injection H as ->. destruct (Ho b) as [-> ?]; [done|]. unfold IRQ_VECTOR_DEVICE_BASE. lia.
  - rewrite list_lookup_insert_ne in H by done. eauto.
Qed.

(** What an operation does to the abstract table. *)
Definition irq_spec (op : irq_op) (f : Z -> option IrqBinding) (w : Z) : option IrqBinding :=
  match op with
  | IBind v ch o =>
      if (w =? v) && (32 <=? v) then
        match f v with
        | None => Some {| irq_vector := v; channel_id := ch; owner_task_id := o; masked := false |}
        | Some b => Some b
        end
      else f w
  | IUnbind v o =>
      if w =? v then match f v with
                     | Some b => if owner_task_id b =? o then None else Some b
                     | None => None
                     end
      else f w
  | IMask v => if w =? v then (fun b => with_mask b true) <$> f v else f w
  | IUnmask v => if w =? v then (fun b => with_mask b false) <$> f v else f w
  end.

Lemma irq_step_spec op t :
  irq_wf t -> irq_op_ok op ->
  exists t', irq_step op t = Done t' /\ irq_wf t' /\ forall w, irq_at t' w = irq_spec op (irq_at t) w.
Proof.
  intros Hwf Hop.
  destruct op as [v ch o|v o|v|v]; cbn [irq_op_ok] in Hop; cbn [irq_step irq_spec];
    unfold irq_bind, irq_unbind, irq_mask, irq_unmask, validate_vector, IRQ_VECTOR_DEVICE_BASE;
    destruct (Z.ltb_spec v 32) as [Hlt|Hge]; cbn [mbind run_bind snd];
    rewrite ?irq_index by done; cbn [mbind run_bind snd].
  all: try (eexists; split; [done|]; split; [done|]; intros w;
            destruct (Z.eqb_spec w v) as [->|]; [by rewrite !irq_at_exception|done]).
  all: destruct (irq_at t v) as [b|] eqn:E; cbn [mbind run_bind snd].
  all: try destruct (owner_task_id b =? o) eqn:Eo; cbn [negb mbind run_bind snd].
  all: eexists; split; [done|]; split.
  all: try (apply set_slot_wf; [done|done|]; intros b' Hb; injection Hb as <-; cbn; first
              [by split|by eapply irq_at_wf]).
  all: try (apply set_slot_wf; done).
  all: try done.
  all: intros w; try (rewrite set_slot_at by done).
  all: destruct (Z.eqb_spec w v) as [->|]; cbn; try done.
  all: rewrite ?E, ?Eo; try done.
  all: destruct (Z.leb_spec 32 v); done || lia.
Qed.

(** The abstract table after a sequence of operations. *)
Fixpoint irq_spec_run (ops : list irq_op) (f : Z -> option IrqBinding) : Z -> option IrqBinding :=
  match ops with
  | [] => f
  | op :: ops => irq_spec_run ops (irq_spec op f)
  end.

Lemma irq_spec_ext op f g : (forall w, f w = g w) -> forall w, irq_spec op f w = irq_spec op g w.
Proof. intros H w. destruct op; cbn; by rewrite !H. Qed.

Lemma irq_spec_run_ext ops f g : (forall w, f w = g w) -> forall w, irq_spec_run ops f w = irq_spec_run ops g w.
Proof.
  revert f g. induction ops as [|op ops IH]; intros f g H w; [done|].
  cbn [irq_spec_run]. apply IH. by apply irq_spec_ext.
Qed.

Lemma irq_run_spec ops t :
  irq_wf t -> Forall irq_op_ok ops ->
  exists t', irq_run ops t = Done t' /\ irq_wf t' /\ forall w, irq_at t' w = irq_spec_run ops (irq_at t) w.
Proof.
  revert t. induction ops as [|op ops IH]; intros t Hwf Hops; [by exists t|].
  apply Forall_cons in Hops as [Ho Hops]. cbn [irq_run irq_spec_run].
  destruct (irq_step_spec op t) as (t1 & -> & Hw1 & Ha1); [done|done|]. cbn [mbind run_bind].
  destruct (IH t1) as (t2 & -> & Hw2 & Ha2); [done|done|]. exists t2. split_and!; try done.
  intros w. rewrite Ha2. by apply irq_spec_run_ext.
Qed.

Lemma irq_lookup_at t v : irq_wf t -> is_u8 v -> irq_lookup v t = Done (irq_at t v).
Proof.
  intros Hwf Hv. unfold irq_lookup, validate_vector, IRQ_VECTOR_DEVICE_BASE.
  destruct (Z.ltb_spec v 32); [by rewrite irq_at_exception|]. by apply irq_index.
Qed.

Lemma irq_spec_keeps op f v b :
  f v = Some b -> op <> IUnbind v (owner_task_id b) ->
  exists b', irq_spec op f v = Some b' /\ channel_id b' = channel_id b /\ owner_task_id b' = owner_task_id b.
Proof.
  intros Hf Hne. destruct op as [w ch o|w o|w|w]; cbn; destruct (Z.eqb_spec v w) as [->|]; cbn; rewrite ?Hf; cbn; eauto.
  - destruct (32 <=? w); eauto.
  - destruct (Z.eqb_spec (owner_task_id b) o) as [<-|]; [done|eauto].
Qed.

Lemma irq_spec_run_keeps ops f v b :
  f v = Some b -> IUnbind v (owner_task_id b) ∉ ops ->
  exists b', irq_spec_run ops f v = Some b' /\ channel_id b' = channel_id b /\ owner_task_id b' = owner_task_id b.
Proof.
  revert f b. induction ops as [|op ops IH]; intros f b Hf Hno; [by exists b|].
  apply not_elem_of_cons in Hno as [Hne Hno]. cbn [irq_spec_run].
  destruct (irq_spec_keeps op f v b) as (b1 & H1 & Hc1 & Ho1); [done|congruence|].
  destruct (IH (irq_spec op f) b1) as (b2 & H2 & Hc2 & Ho2); [done|by rewrite Ho1|].
  exists b2. split_and!; congruence.
Qed.

(** ** Theorems *)

(** Refinement: from the empty table, any sequence of bind, unbind, mask
    and unmask calls on any vectors runs without an out-of-bounds index, and
    every lookup then answers as the abstract partial function on which each
    operation acts by its contract (a second bind keeps the first, unbind
    needs the owner, exception vectors stay unbound). *)
Theorem irq_table_refines (ops : list irq_op) (Hops : Forall irq_op_ok ops) :
  exists t, irq_run ops irq_table_new = Done t /\
    forall v, is_u8 v ->
      irq_lookup v t = Done (irq_spec_run ops (fun _ => None) v) /\
      (v < 32 -> irq_lookup v t = Done None) /\
      (forall b, irq_lookup v t = Done (Some b) -> irq_vector b = v).
Proof.
  destruct (irq_run_spec ops irq_table_new irq_table_new_wf Hops) as (t & Hr & Hw & Ha).
  exists t. split; [done|]. intros v Hv. rewrite irq_lookup_at by done. split_and!.
  - f_equal. rewrite Ha. apply irq_spec_run_ext. intros w. unfold irq_at.
    destruct (0 <=? w); [|done].
    destruct (bindings irq_table_new !! Z.to_nat w) as [x|] eqn:E; [|done].
    apply lookup_replicate in E as [-> _]. done.
  - intros Hlt. by rewrite irq_at_exception.
  - intros b [= Hb]. by apply irq_at_wf in Hb as [? _].
Qed.

(** Ownership: a bound vector stays bound to the same channel and the same
    owner through any sequence of operations that does not contain an unbind
    of that vector by that owner, whatever other tasks attempt. *)
Theorem irq_binding_owned (ops : list irq_op) (t : IrqTable) (v : Z) (b : IrqBinding)
    (Hwf : irq_wf t) (Hops : Forall irq_op_ok ops) (Hb : irq_at t v = Some b)
    (Hno : IUnbind v (owner_task_id b) ∉ ops) :
  exists t' b', irq_run ops t = Done t' /\ irq_at t' v = Some b' /\
    channel_id b' = channel_id b /\ owner_task_id b' = owner_task_id b.
Proof.
  destruct (irq_run_spec ops t Hwf Hops) as (t' & Hr & _ & Ha).
  destruct (irq_spec_run_keeps ops (irq_at t) v b) as (b' & Hb' & ? & ?); [done|done|].
  exists t', b'. rewrite Ha. done.
Qed.

(** Interrupt delivery: a fire on an unbound or masked vector leaves the
    registry alone; on a live vector whose channel has room it appends one
    notification stamped by the kernel whose payload decodes to the vector.
    The wake action of the send is discarded: a receiver parked on the
    channel leaves the wait queue and nothing of [irq_notify]'s outcome
    names it. *)
Theorem irq_notify_delivers (t : IrqTable) (r : KernelIpcRegistry) (v : Z)
    (Ht : irq_wf t) (Hr : registry_wf r) (Hv : is_u8 v) :
  (irq_at t v = None -> irq_notify v t r = Done r) /\
  forall b, irq_at t v = Some b ->
    (masked b = true -> irq_notify v t r = Done r) /\
    (masked b = false -> forall c, channels r !! channel_id b = Some c ->
       denies (send_subject c) principal_ZERO = false -> depth c < queue_depth (ch_policy c) ->
       exists e, irq_notify v t r = Done (update_channel r (channel_id b)
           (set_queues c (queue c ++ [e]) (waiters_send c) (tail (waiters_recv c)))) /\
         env_sender e = 0 /\ env_channel e = channel_id b /\ from_le_bytes (env_payload e) = v).
Proof.
  unfold irq_notify. rewrite irq_lookup_at by done. cbn [mbind run_bind].
  split; [by intros ->|]. intros b ->. split; [by intros ->|].
  intros -> c Hc Hden Hlt. exists (stamp (irq_envelope v b) (channel_id b) 0).
  pose proof (ipc_send_cases (irq_envelope v b) 0 principal_ZERO r c Hc) as Hs.
  cbn zeta in Hs. specialize (Hs (cw_id _ _ (rg_chan _ Hr _ _ Hc))).
  assert (snd (pop_waiter (waiters_recv c)) = tail (waiters_recv c)) as Hpop by (by destruct (waiters_recv c)).
  destruct (pop_waiter (waiters_recv c)) as [wake wr]. cbn [snd] in Hpop. subst wr.
  rewrite Hs, Hden, (proj2 (Z.leb_gt _ _) Hlt). split_and!; try done.
  cbn [stamp irq_envelope env_payload]. rewrite from_to_le_bytes. apply Z.mod_small.
  unfold is_u8 in Hv. lia.
Qed.

(** ** Witnesses *)

Definition demo_irq_ops : list irq_op := [IBind 33 1 7; IBind 33 2 8; IUnbind 33 8; IMask 33; IUnmask 33; IBind 3 1 7].

Lemma demo_irq_ops_ok : Forall irq_op_ok demo_irq_ops.
Proof. repeat constructor; cbn; lia. Qed.

Lemma irq_table_refines_witness :
  exists t, irq_run demo_irq_ops irq_table_new = Done t /\
    irq_lookup 33 t = Done (irq_spec_run demo_irq_ops (fun _ => None) 33).
Proof.
  destruct (irq_table_refines demo_irq_ops demo_irq_ops_ok) as (t & Ht & Hl).
  exists t. split; [exact Ht|]. apply Hl. split; vm_compute; congruence.
Defined.

Definition demo_irq_table : IrqTable :=
  set_slot irq_table_new 40 (Some {| irq_vector := 40; channel_id := 1; owner_task_id := 7; masked := false |}).

Lemma demo_irq_table_wf : irq_wf demo_irq_table.
Proof.
  apply (set_slot_wf irq_table_new 40); [apply irq_table_new_wf|split; vm_compute; congruence|].
  intros b [= <-]. cbn. lia.
Qed.

Lemma irq_binding_owned_witness :
  exists t' b', irq_run demo_irq_ops demo_irq_table = Done t' /\ irq_at t' 40 = Some b' /\
    channel_id b' = 1 /\ owner_task_id b' = 7.
Proof.
  apply (irq_binding_owned demo_irq_ops demo_irq_table 40
           {| irq_vector := 40; channel_id := 1; owner_task_id := 7; masked := false |}
           demo_irq_table_wf demo_irq_ops_ok).
  - vm_compute. reflexivity.
  - cbn. intros H. repeat (apply elem_of_cons in H as [H|H]; [discriminate H|]). by apply elem_of_nil in H.
Defined.

Definition demo_irq_channel : Channel := channel_new 1 (demo_policy BpDrop) 7 None None.
Definition demo_irq_registry : KernelIpcRegistry :=
  {| channels := {[ 1 := set_queues demo_irq_channel [] [] [9] ]}; next_id := 2 |}.

Lemma demo_irq_registry_wf : registry_wf demo_irq_registry.
Proof.
  split; cbn; [lia|intros id c|intros id [c Hc]].
  - rewrite lookup_singleton_Some. intros [<- <-]. split; unfold depth; cbn; [done|lia|lia|constructor].
  - apply lookup_singleton_Some in Hc as [<- _]. lia.
Qed.

Lemma irq_notify_delivers_witness :
  exists e, irq_notify 40 demo_irq_table demo_irq_registry =
      Done (update_channel demo_irq_registry 1 (set_queues demo_irq_channel [e] [] [])) /\
    env_sender e = 0 /\ env_channel e = 1 /\ from_le_bytes (env_payload e) = 40.
Proof.
  destruct (irq_notify_delivers demo_irq_table demo_irq_registry 40 demo_irq_table_wf demo_irq_registry_wf)
    as [_ H]; [split; vm_compute; congruence|].
  apply (H {| irq_vector := 40; channel_id := 1; owner_task_id := 7; masked := false |}) with
    (c := set_queues demo_irq_channel [] [] [9]); vm_compute; reflexivity.
Defined.
