(* ===== verification/Pipe.v ===== *)
(** * Kernel pipes (omni-kernel: pipe.rs)

    Bounded byte streams with two ends, wait queues that the scheduler drains,
    and the registry of live pipes.  Blocking is the caller's business: a full
    write and an empty read both return [Ok 0]. *)

From Stdlib Require Import ZArith Lia.
From stdpp Require Import base numbers list gmap.
From S2P Require Import Prelude.

(** ** Data *)

Definition PIPE_CAPACITY : Z := 65536.

Inductive PipeError := BrokenPipe.

Record PipeRing := {
  pr_buffer : list Z;
  pr_capacity : Z;
  pr_write_end_open : bool;
  pr_read_end_open : bool;
  pr_waiters_read : list Z;
  pr_waiters_write : list Z;
}.

Record PipeRegistry := { pipes : gmap Z PipeRing; pipe_next_id : Z }.

(** ** Operations of a ring *)

Definition pipe_new : PipeRing :=
  {| pr_buffer := []; pr_capacity := PIPE_CAPACITY; pr_write_end_open := true;
     pr_read_end_open := true; pr_waiters_read := []; pr_waiters_write := [] |}.

Definition pipe_len (p : PipeRing) : Z := Z.of_nat (length (pr_buffer p)).
Definition pipe_is_empty (p : PipeRing) : bool := bool_decide (pr_buffer p = []).
Definition pipe_is_full (p : PipeRing) : bool := pr_capacity p <=? pipe_len p.

Definition set_buffer (p : PipeRing) (b : list Z) : PipeRing :=
  {| pr_buffer := b; pr_capacity := pr_capacity p; pr_write_end_open := pr_write_end_open p;
     pr_read_end_open := pr_read_end_open p; pr_waiters_read := pr_waiters_read p;
     pr_waiters_write := pr_waiters_write p |}.

Definition set_waiters (p : PipeRing) (wo ro : bool) (wr ww : list Z) : PipeRing :=
  {| pr_buffer := pr_buffer p; pr_capacity := pr_capacity p; pr_write_end_open := wo;
     pr_read_end_open := ro; pr_waiters_read := wr; pr_waiters_write := ww |}.

Definition pipe_write (data : list Z) (p : PipeRing) : result PipeError Z * PipeRing :=
  if negb (pr_read_end_open p) then (Err BrokenPipe, p)
  else if bool_decide (data = []) then (Ok 0, p)
  else
    let available := saturating_sub (pr_capacity p) (pipe_len p) in
    if available =? 0 then (Ok 0, p)
    else
      let to_write := Z.min (Z.of_nat (length data)) available in
      let chunk := default data (slice_get data 0 to_write) in
      (Ok to_write, set_buffer p (pr_buffer p ++ chunk)).

(** [read] fills a prefix of the caller's buffer and leaves the rest. *)
Definition pipe_read (buf : list Z) (p : PipeRing) : result PipeError Z * list Z * PipeRing :=
  if bool_decide (buf = []) || pipe_is_empty p then (Ok 0, buf, p)
  else
    let to_read := Nat.min (length buf) (length (pr_buffer p)) in
    (Ok (Z.of_nat to_read), take to_read (pr_buffer p) ++ drop to_read buf,
     set_buffer p (drop to_read (pr_buffer p))).

Definition drain_read_waiters (p : PipeRing) : list Z * PipeRing :=
  (pr_waiters_read p, set_waiters p (pr_write_end_open p) (pr_read_end_open p) [] (pr_waiters_write p)).
Definition drain_write_waiters (p : PipeRing) : list Z * PipeRing :=
  (pr_waiters_write p, set_waiters p (pr_write_end_open p) (pr_read_end_open p) (pr_waiters_read p) []).

Definition pipe_close_write (p : PipeRing) : list Z * PipeRing :=
  drain_read_waiters (set_waiters p false (pr_read_end_open p) (pr_waiters_read p) (pr_waiters_write p)).
Definition pipe_close_read (p : PipeRing) : list Z * PipeRing :=
  drain_write_waiters (set_waiters p (pr_write_end_open p) false (pr_waiters_read p) (pr_waiters_write p)).

Definition park_reader (t : Z) (p : PipeRing) : PipeRing :=
  set_waiters p (pr_write_end_open p) (pr_read_end_open p) (pr_waiters_read p ++ [t]) (pr_waiters_write p).
Definition park_writer (t : Z) (p : PipeRing) : PipeRing :=
  set_waiters p (pr_write_end_open p) (pr_read_end_open p) (pr_waiters_read p) (pr_waiters_write p ++ [t]).

(** ** Operations of the registry *)

Definition pipe_registry_new : PipeRegistry := {| pipes := ∅; pipe_next_id := 1 |}.

Definition pipe_create (r : PipeRegistry) : Z * PipeRegistry :=
  (pipe_next_id r,
   {| pipes := <[pipe_next_id r := pipe_new]> (pipes r); pipe_next_id := wrap64 (pipe_next_id r + 1) |}).

Definition pipe_get (id : Z) (r : PipeRegistry) : option PipeRing := pipes r !! id.

Definition pipe_remove (id : Z) (r : PipeRegistry) : bool * PipeRegistry :=
  (bool_decide (is_Some (pipes r !! id)), {| pipes := delete id (pipes r); pipe_next_id := pipe_next_id r |}).

(** ** Traces

    What one ring operation moved: bytes accepted, bytes delivered, readers
    and writers parked, readers and writers released. *)

Inductive ring_op :=
| RWrite (data : list Z)
| RRead (buf : list Z)
| RCloseWrite
| RCloseRead
| RParkReader (t : Z)
| RParkWriter (t : Z)
| RDrainRead
| RDrainWrite.

Record ring_event := {
  ev_in : list Z;
  ev_out : list Z;
  ev_parked_r : list Z;
  ev_woken_r : list Z;
  ev_parked_w : list Z;
  ev_woken_w : list Z;
}.

Definition ev_data (i o : list Z) : ring_event :=
  {| ev_in := i; ev_out := o; ev_parked_r := []; ev_woken_r := []; ev_parked_w := []; ev_woken_w := [] |}.
Definition ev_tasks (pr wr pw ww : list Z) : ring_event :=
  {| ev_in := []; ev_out := []; ev_parked_r := pr; ev_woken_r := wr; ev_parked_w := pw; ev_woken_w := ww |}.

(** The bytes a caller sees as moved are those counted by the returned length:
    the prefix of its data accepted by [write], the prefix of its buffer
    filled by [read]. *)
Definition ring_step (op : ring_op) (p : PipeRing) : ring_event * PipeRing :=
  match op with
  | RWrite data =>
      let '(res, p') := pipe_write data p in
      (ev_data (match res with Ok n => take (Z.to_nat n) data | Err _ => [] end) [], p')
  | RRead buf =>
      let '(res, buf', p') := pipe_read buf p in
      (ev_data [] (match res with Ok n => take (Z.to_nat n) buf' | Err _ => [] end), p')
  | RCloseWrite => let '(ts, p') := pipe_close_write p in (ev_tasks [] ts [] [], p')
  | RCloseRead => let '(ts, p') := pipe_close_read p in (ev_tasks [] [] [] ts, p')
  | RParkReader t => (ev_tasks [t] [] [] [], park_reader t p)
  | RParkWriter t => (ev_tasks [] [] [t] [], park_writer t p)
  | RDrainRead => let '(ts, p') := drain_read_waiters p in (ev_tasks [] ts [] [], p')
  | RDrainWrite => let '(ts, p') := drain_write_waiters p in (ev_tasks [] [] [] ts, p')
  end.

(** Operations of the registry, each ring operation reached through
    [get_mut]. *)
Inductive pipe_op :=
| PCreate
| PRemove (id : Z)
| POn (id : Z) (op : ring_op).

Definition pipe_step (op : pipe_op) (r : PipeRegistry) : option (Z * ring_event) * PipeRegistry :=
  match op with
  | PCreate => (None, snd (pipe_create r))
  | PRemove id => (None, snd (pipe_remove id r))
  | POn id op =>
      match pipe_get id r with
      | None => (None, r)
      | Some p => let '(ev, p') := ring_step op p in
                  (Some (id, ev), {| pipes := <[id := p']> (pipes r); pipe_next_id := pipe_next_id r |})
      end
  end.

Fixpoint pipe_run (ops : list pipe_op) (r : PipeRegistry) : list (Z * ring_event) * PipeRegistry :=
  match ops with
  | [] => ([], r)
  | op :: ops =>
      let '(ev, r1) := pipe_step op r in
      let '(evs, r2) := pipe_run ops r1 in
      (option_list ev ++ evs, r2)
  end.

(** The projection of a trace to one pipe. *)
Definition pipe_trace (f : ring_event -> list Z) (id : Z) (evs : list (Z * ring_event)) : list Z :=
  flat_map (fun '(i, ev) => if i =? id then f ev else []) evs.

(** ** Lemmas *)

Record ring_wf (p : PipeRing) : Prop := {
  rw_cap : pr_capacity p = PIPE_CAPACITY;
  rw_len : pipe_len p <= PIPE_CAPACITY;
}.

Lemma pipe_new_wf : ring_wf pipe_new.
Proof. split; [done|]. vm_compute. congruence. Qed.

(** Everything that enters a ring leaves it once, in order. *)
Record ring_conserves (p : PipeRing) (ev : ring_event) (p' : PipeRing) : Prop := {
  rc_bytes : pr_buffer p ++ ev_in ev = ev_out ev ++ pr_buffer p';
  rc_readers : pr_waiters_read p ++ ev_parked_r ev = ev_woken_r ev ++ pr_waiters_read p';
  rc_writers : pr_waiters_write p ++ ev_parked_w ev = ev_woken_w ev ++ pr_waiters_write p';
}.

Lemma pipe_write_spec data p :
  ring_wf p ->
  pipe_write data p =
    if pr_read_end_open p then
      let n := Z.min (Z.of_nat (length data)) (PIPE_CAPACITY - pipe_len p) in
      (Ok n, set_buffer p (pr_buffer p ++ take (Z.to_nat n) data))
    else (Err BrokenPipe, p).
Proof.
  intros [Hc Hl]. unfold pipe_write. destruct (pr_read_end_open p); cbn [negb]; [|done].
  assert (forall q, set_buffer q (pr_buffer q ++ []) = q) as Hid by (intros q; rewrite app_nil_r; by destruct q).
  rewrite Hc. unfold saturating_sub. rewrite Z.max_l by lia.
  case_bool_decide as Hd.
  - subst data. cbn [length]. rewrite Z.min_l by (cbn; lia). cbn. by rewrite Hid.
  - destruct (Z.eqb_spec (PIPE_CAPACITY - pipe_len p) 0) as [He|Hne].
    + rewrite He. rewrite Z.min_r by lia. cbn. by rewrite Hid.
    + cbn zeta. f_equal. f_equal. f_equal. unfold slice_get.
      rewrite (proj2 (Z.leb_le _ _)), (proj2 (Z.leb_le _ _)) by lia. cbn [andb default from_option].
      by rewrite Z.sub_0_r, drop_0.
Qed.

Lemma pipe_read_spec buf p :
  pipe_read buf p =
    let n := Nat.min (length buf) (length (pr_buffer p)) in
    (Ok (Z.of_nat n), take n (pr_buffer p) ++ drop n buf, set_buffer p (drop n (pr_buffer p))).
Proof.
  unfold pipe_read, pipe_is_empty. case_bool_decide as Hb; [subst buf; cbn; destruct p; cbn; by rewrite drop_0|].
  case_bool_decide as He; [|done]. destruct p as [b ? ? ? ? ?]; cbn in *. subst b. cbn.
  rewrite Nat.min_0_r. cbn. by rewrite drop_0.
Qed.

Lemma ring_step_spec op p :
  ring_wf p -> ring_wf (snd (ring_step op p)) /\ ring_conserves p (fst (ring_step op p)) (snd (ring_step op p)).
Proof.
  intros Hwf. destruct op as [data|buf| | | | | |]; cbn [ring_step].
  1:{ rewrite pipe_write_spec by done. destruct Hwf as [Hc Hl]. destruct (pr_read_end_open p); cbn [fst snd].
      - unfold pipe_len in *. split; [split; [done|]|split; cbn; by rewrite ?app_nil_r].
        unfold pipe_len. cbn. rewrite length_app, length_take. lia.
      - split; [done|]. split; cbn; by rewrite ?app_nil_r. }
  1:{ rewrite pipe_read_spec. cbn zeta. destruct Hwf as [Hc Hl].
      unfold pipe_len in *. cbn [fst snd]. split; [split; [done|]|split; cbn; rewrite ?app_nil_r; try done].
      - unfold pipe_len. cbn. rewrite length_drop. lia.
      - rewrite Nat2Z.id, take_app_le, take_take, Nat.min_id by (rewrite length_take; lia).
        by rewrite take_drop. }
  all: cbn; destruct Hwf as [Hc Hl]; split; [by split|]; split; cbn; by rewrite ?app_nil_r.
Qed.

Record pipe_registry_wf (r : PipeRegistry) : Prop := {
  pg_rings : forall id p, pipes r !! id = Some p -> ring_wf p;
  pg_next : 1 <= pipe_next_id r < 2 ^ 64;
}.

Lemma pipe_trace_cons f id ev evs :
  pipe_trace f id (option_list ev ++ evs) =
    match ev with Some (i, e) => if i =? id then f e else [] | None => [] end ++ pipe_trace f id evs.
Proof. by destruct ev as [[i e]|]. Qed.

(** One registry step seen from the live pipe [id]. *)
Lemma pipe_step_at op r id p :
  pipe_registry_wf r -> pipes r !! id = Some p -> id < pipe_next_id r -> pipe_next_id r < u64_max ->
  op <> PRemove id ->
  let '(ev, r') := pipe_step op r in
  pipe_registry_wf r' /\ pipe_next_id r <= pipe_next_id r' <= pipe_next_id r + 1 /\
  exists p', pipes r' !! id = Some p' /\ ring_wf p' /\
    match ev with
    | Some (i, e) => if i =? id then exists o, op = POn id o /\ e = fst (ring_step o p) /\ p' = snd (ring_step o p) else p' = p
    | None => p' = p
    end.
Proof.
  intros Hwf Hp Hid Hmax Hne. pose proof (pg_rings _ Hwf _ _ Hp) as Hpw. destruct op as [|i|i o]; cbn [pipe_step].
  - assert (wrap64 (pipe_next_id r + 1) = pipe_next_id r + 1) as Hw.
    { apply Z.mod_small. unfold u64_max in Hmax. destruct Hwf. lia. }
    cbn [pipe_create snd]. rewrite Hw. split_and!; cbn; try lia.
    + split; cbn; [|unfold u64_max in Hmax; destruct Hwf; lia]. intros x q. rewrite lookup_insert_Some.
      intros [[<- <-]|[_ Hq]]; [apply pipe_new_wf|by eapply pg_rings].
    + exists p. rewrite lookup_insert_ne by lia. done.
  - cbn [pipe_remove snd]. split_and!; cbn; try lia.
    + split; cbn; [|by destruct Hwf]. intros x q [_ Hq]%lookup_delete_Some. by eapply pg_rings.
    + exists p. rewrite lookup_delete_ne by congruence. done.
  - unfold pipe_get. destruct (pipes r !! i) as [q|] eqn:Hi; [|split_and!; try done; try lia; by exists p].
    destruct (ring_step_spec o q) as [Hw' _]; [by eapply pg_rings|].
    destruct (ring_step o q) as [ev q'] eqn:Eo. cbn [snd] in Hw'. split_and!; cbn; try lia.
    + split; cbn; [|by destruct Hwf]. intros x y. rewrite lookup_insert_Some.
      intros [[<- <-]|[_ Hq]]; [done|by eapply pg_rings].
    + destruct (Z.eqb_spec i id) as [->|Hn].
      * rewrite Hp in Hi. injection Hi as <-. exists q'. rewrite lookup_insert_eq. split_and!; try done.
        exists o. by rewrite Eo.
      * exists p. by rewrite lookup_insert_ne.
Qed.

(** ** Theorems *)

(** C39: Byte-stream integrity: for a live pipe, over any sequence of registry
    operations (creations, removals of other pipes, reads, writes, closes and
    wait-queue operations on any pipe), the bytes buffered at the start
    followed by those accepted are exactly those delivered followed by those
    still buffered; the same holds for the parked and released readers and
    writers; the buffer never exceeds its capacity. *)
Theorem pipe_stream (ops : list pipe_op) (r : PipeRegistry) (id : Z) (p : PipeRing)
    (Hwf : pipe_registry_wf r) (Hp : pipes r !! id = Some p) (Hid : id < pipe_next_id r)
    (Hmax : pipe_next_id r + Z.of_nat (length ops) < 2 ^ 64) (Hno : PRemove id ∉ ops) :
  let evs := fst (pipe_run ops r) in
  exists p', pipes (snd (pipe_run ops r)) !! id = Some p' /\
    pr_buffer p ++ pipe_trace ev_in id evs = pipe_trace ev_out id evs ++ pr_buffer p' /\
    pr_waiters_read p ++ pipe_trace ev_parked_r id evs = pipe_trace ev_woken_r id evs ++ pr_waiters_read p' /\
    pr_waiters_write p ++ pipe_trace ev_parked_w id evs = pipe_trace ev_woken_w id evs ++ pr_waiters_write p' /\
    pipe_len p' <= PIPE_CAPACITY.
Proof.
  revert r p Hwf Hp Hid Hmax. induction ops as [|op ops IH]; intros r p Hwf Hp Hid Hmax.
  { exists p. cbn. rewrite !app_nil_r. split_and!; try done. exact (rw_len _ (pg_rings _ Hwf _ _ Hp)). }
  apply not_elem_of_cons in Hno as [Hne Hno]. cbn [length] in Hmax. cbn [pipe_run].
  pose proof (pipe_step_at op r id p Hwf Hp Hid) as Hs. destruct (pipe_step op r) as [ev r1].
  destruct Hs as (Hw1 & Hn1 & p1 & Hp1 & Hpw1 & Hev); [unfold u64_max; lia|congruence|].
  specialize (IH Hno r1 p1 Hw1 Hp1 ltac:(lia) ltac:(lia)). destruct (pipe_run ops r1) as [evs r2].
  cbn [fst snd] in *. destruct IH as (p2 & Hp2 & Hb & Hr & Hw & Hl). exists p2. rewrite !pipe_trace_cons.
  destruct ev as [[i e]|]; [|by subst p1]. destruct (i =? id); [|by subst p1].
  destruct Hev as (o & -> & -> & ->). destruct (ring_step_spec o p (pg_rings _ Hwf _ _ Hp)) as [_ [Cb Cr Cw]].
  rewrite !app_assoc, Cb, Cr, Cw, <- !app_assoc, Hb, Hr, Hw. done.
Qed.

Lemma ring_step_read_closed o p :
  pr_read_end_open p = false ->
  pr_read_end_open (snd (ring_step o p)) = false /\ ev_in (fst (ring_step o p)) = [].
Proof.
  intros H. destruct o; cbn; try done.
  - unfold pipe_write. rewrite H. by split.
  - by rewrite pipe_read_spec.
Qed.

(** Broken pipes stay broken: once the read end of a pipe is closed, no
    sequence of operations makes it accept another byte, every write fails
    with [BrokenPipe] and changes nothing; and closing the write end leaves
    the buffered bytes readable, after which reads report zero bytes. *)
Theorem pipe_ends (ops : list pipe_op) (r : PipeRegistry) (id : Z) (p : PipeRing)
    (Hwf : pipe_registry_wf r) (Hp : pipes r !! id = Some p) (Hid : id < pipe_next_id r)
    (Hmax : pipe_next_id r + Z.of_nat (length ops) < 2 ^ 64) (Hno : PRemove id ∉ ops) :
  (pr_read_end_open p = false ->
     pipe_trace ev_in id (fst (pipe_run ops r)) = [] /\
     exists p', pipes (snd (pipe_run ops r)) !! id = Some p' /\
       forall data, pipe_write data p' = (Err BrokenPipe, p')) /\
  (forall buf, let q := snd (pipe_close_write p) in
     pr_buffer q = pr_buffer p /\
     (pr_buffer p = [] -> pipe_read buf q = (Ok 0, buf, q))).
Proof.
  split.
  2:{ intros buf q. split; [done|]. intros He. unfold q, pipe_read, pipe_is_empty. cbn. rewrite He.
      rewrite (bool_decide_eq_true_2 ([] = [])) by done. by rewrite orb_true_r. }
  revert r p Hwf Hp Hid Hmax. induction ops as [|op ops IH]; intros r p Hwf Hp Hid Hmax Hc.
  { split; [done|]. exists p. split; [done|]. intros data. unfold pipe_write. by rewrite Hc. }
  apply not_elem_of_cons in Hno as [Hne Hno]. cbn [length] in Hmax. cbn [pipe_run].
  pose proof (pipe_step_at op r id p Hwf Hp Hid) as Hs. destruct (pipe_step op r) as [ev r1].
  destruct Hs as (Hw1 & Hn1 & p1 & Hp1 & Hpw1 & Hev); [unfold u64_max; lia|congruence|].
  specialize (IH Hno r1 p1 Hw1 Hp1 ltac:(lia) ltac:(lia)). destruct (pipe_run ops r1) as [evs r2].
  cbn [fst snd] in *. rewrite pipe_trace_cons.
  destruct ev as [[i e]|]; [|subst p1; by apply IH]. destruct (i =? id); [|subst p1; by apply IH].
  destruct Hev as (o & -> & -> & ->). destruct (ring_step_read_closed o p Hc) as [Hc1 ->].
  by apply IH.
Qed.

(** ** Witnesses *)

Definition demo_pipe_ops : list pipe_op :=
  [POn 1 (RWrite [1; 2; 3]); PCreate; POn 1 (RParkReader 5); POn 1 (RRead [0; 0]); PRemove 2; POn 1 RCloseWrite].
Definition demo_pipes : PipeRegistry := snd (pipe_create pipe_registry_new).

Lemma demo_pipes_wf : pipe_registry_wf demo_pipes.
Proof.
  split; [|vm_compute; split; congruence]. intros id p. cbn. rewrite lookup_insert_Some, lookup_empty.
  intros [[<- <-]|[_ ?]]; [apply pipe_new_wf|done].
Qed.

Lemma demo_pipes_live : PRemove 1 ∉ demo_pipe_ops.
Proof. intros H. repeat (apply elem_of_cons in H as [H|H]; [discriminate H|]). by apply elem_of_nil in H. Qed.

Lemma pipe_stream_witness :
  exists p', pipes (snd (pipe_run demo_pipe_ops demo_pipes)) !! 1 = Some p' /\
    [1; 2; 3] = pipe_trace ev_out 1 (fst (pipe_run demo_pipe_ops demo_pipes)) ++ pr_buffer p'.
Proof.
  destruct (pipe_stream demo_pipe_ops demo_pipes 1 pipe_new demo_pipes_wf) as (p' & Hp' & Hb & _).
  - reflexivity.
  - reflexivity.
  - reflexivity.
  - exact demo_pipes_live.
  - exists p'. split; [exact Hp'|exact Hb].
Defined.

Lemma pipe_ends_witness : pr_buffer (snd (pipe_close_write pipe_new)) = [].
Proof.
  refine (proj1 (proj2 (pipe_ends demo_pipe_ops demo_pipes 1 pipe_new demo_pipes_wf _ _ _ _) [])).
  - reflexivity.
  - reflexivity.
  - reflexivity.
  - exact demo_pipes_live.
Defined.
