(* ===== verification/Fd.v ===== *)
(** * Per-process file descriptor table (omni-kernel: fd.rs)

    A map from [u32] descriptor numbers to open resources, with a cursor that
    only moves forward.  [open] scans from the cursor for a vacant number. *)

From Stdlib Require Import ZArith Lia Sorted.
From stdpp Require Import base numbers list gmap.
From S2P Require Import Prelude Str CapScope CapToken Ipc.

(** ** Data *)

Record FdFlags := { close_on_exec : bool; non_block : bool }.
Definition fd_flags_default : FdFlags := {| close_on_exec := false; non_block := false |}.

(** [OpenFlags(pub u32)], a bit field. *)
Definition O_RDONLY : Z := 0.
Definition O_WRONLY : Z := 1.
Definition O_RDWR : Z := 2.
Definition O_CREAT : Z := 0x40.
Definition O_TRUNC : Z := 0x200.
Definition O_APPEND : Z := 0x400.
Definition ACCESS_MASK : Z := 0x3.

Definition is_readable (f : Z) : bool :=
  let mode := Z.land f ACCESS_MASK in (mode =? O_RDONLY) || (mode =? O_RDWR).
Definition is_writable (f : Z) : bool :=
  let mode := Z.land f ACCESS_MASK in (mode =? O_WRONLY) || (mode =? O_RDWR).
Definition has_create (f : Z) : bool := negb (Z.land f O_CREAT =? 0).
Definition has_trunc (f : Z) : bool := negb (Z.land f O_TRUNC =? 0).
Definition has_append (f : Z) : bool := negb (Z.land f O_APPEND =? 0).

Inductive FdKind :=
| FkConsole (readable writable : bool)
| FkPipe (pipe_id : Z) (is_read_end : bool)
| FkFsFile (inode offset : Z) (flags : Z)
| FkIpcChannel (id : Z).

Record FileDescriptor := { fd_kind : FdKind; fd_flags : FdFlags }.

Record FileDescriptorTable := { entries : gmap Z FileDescriptor; next_fd : Z }.

(** ** Operations *)

Definition fd_new : FileDescriptorTable := {| entries := ∅; next_fd := 0 |}.

Definition new_with_stdio : FileDescriptorTable :=
  let console r w := {| fd_kind := FkConsole r w; fd_flags := fd_flags_default |} in
  {| entries := <[2 := console false true]> (<[1 := console false true]> (<[0 := console true false]> ∅));
     next_fd := 3 |}.

(** The scan of [open]: the first vacant number from [candidate] on, [None]
    past [u32::MAX].  Every iteration but the last meets an occupied number,
    so the table's size bounds the iterations. *)
Fixpoint fd_scan (fuel : nat) (candidate : Z) (m : gmap Z FileDescriptor) : option Z :=
  match fuel with
  | O => None
  | S fuel =>
      match m !! candidate with
      | None => Some candidate
      | Some _ => match checked_add32 candidate 1 with
                  | Some next => fd_scan fuel next m
                  | None => None
                  end
      end
  end.

Definition fd_open (d : FileDescriptor) (t : FileDescriptorTable) : KernelResult Z * FileDescriptorTable :=
  match fd_scan (S (size (entries t))) (next_fd t) (entries t) with
  | Some fd => (Ok fd, {| entries := <[fd := d]> (entries t); next_fd := saturating_add32 fd 1 |})
  | None => (Err ResourceExhausted, t)
  end.

Definition fd_close (fd : Z) (t : FileDescriptorTable) : KernelResult unit * FileDescriptorTable :=
  match entries t !! fd with
  | Some _ => (Ok (), {| entries := delete fd (entries t); next_fd := next_fd t |})
  | None => (Err InvalidArgument, t)
  end.

Definition fd_get (fd : Z) (t : FileDescriptorTable) : option FileDescriptor := entries t !! fd.

(** [get_mut] lends a mutable reference: the caller replaces the descriptor by
    any [f] of it (the handlers advance a file offset this way). *)
Definition fd_get_mut (fd : Z) (f : FileDescriptor -> FileDescriptor) (t : FileDescriptorTable)
    : option FileDescriptor * FileDescriptorTable :=
  match entries t !! fd with
  | None => (None, t)
  | Some d => (Some (f d), {| entries := <[fd := f d]> (entries t); next_fd := next_fd t |})
  end.

Definition fd_dup (old_fd : Z) (t : FileDescriptorTable) : KernelResult Z * FileDescriptorTable :=
  match entries t !! old_fd with
  | None => (Err InvalidArgument, t)
  | Some d => fd_open {| fd_kind := fd_kind d; fd_flags := fd_flags_default |} t
  end.

Definition fd_dup2 (old_fd new_fd : Z) (t : FileDescriptorTable) : KernelResult Z * FileDescriptorTable :=
  if old_fd =? new_fd then
    (if bool_decide (is_Some (entries t !! old_fd)) then Ok new_fd else Err InvalidArgument, t)
  else
    match entries t !! old_fd with
    | None => (Err InvalidArgument, t)
    | Some d =>
        (Ok new_fd,
         {| entries := <[new_fd := {| fd_kind := fd_kind d; fd_flags := fd_flags_default |}]>
                         (delete new_fd (entries t));
            next_fd := next_fd t |})
    end.

Definition clone_for_child (t : FileDescriptorTable) : FileDescriptorTable :=
  {| entries := filter (fun '(_, d) => close_on_exec (fd_flags d) = false) (entries t); next_fd := next_fd t |}.

(** ** Sequences of operations *)

Inductive fd_op :=
| FOpen (d : FileDescriptor)
| FClose (fd : Z)
| FDup (fd : Z)
| FDup2 (old_fd new_fd : Z)
| FMut (fd : Z) (f : FileDescriptor -> FileDescriptor)
| FFork.

(** The number a step issued through the cursor, if any. *)
Definition fd_step (op : fd_op) (t : FileDescriptorTable) : option Z * FileDescriptorTable :=
  let issued (x : KernelResult Z * FileDescriptorTable) :=
    (match fst x with Ok fd => Some fd | Err _ => None end, snd x) in
  match op with
  | FOpen d => issued (fd_open d t)
  | FClose fd => (None, snd (fd_close fd t))
  | FDup fd => issued (fd_dup fd t)
  | FDup2 a b => (None, snd (fd_dup2 a b t))
  | FMut fd f => (None, snd (fd_get_mut fd f t))
  | FFork => (None, clone_for_child t)
  end.

Fixpoint fd_run (ops : list fd_op) (t : FileDescriptorTable) : list Z * FileDescriptorTable :=
  match ops with
  | [] => ([], t)
  | op :: ops =>
      let '(i, t1) := fd_step op t in
      let '(iss, t2) := fd_run ops t1 in
      (option_list i ++ iss, t2)
  end.

(** ** Invariant: the cursor and every number are [u32]. *)
Record fd_wf (t : FileDescriptorTable) : Prop := {
  fw_next : is_u32 (next_fd t);
  fw_keys : forall fd, is_Some (entries t !! fd) -> is_u32 fd;
}.

Definition fd_op_ok (op : fd_op) : Prop :=
  match op with FDup2 _ b => is_u32 b | _ => True end.

(** ** Lemmas *)

(** Distinct occupied numbers are bounded by the table's size. *)
Lemma occupied_run_size (m : gmap Z FileDescriptor) c n :
  (forall i, 0 <= i < Z.of_nat n -> is_Some (m !! (c + i))) -> (n <= size m)%nat.
Proof.
  intros H. rewrite <- size_dom.
  assert (list_to_set (seqZ c (Z.of_nat n)) ⊆ dom m) as Hs.
  { intros x. rewrite elem_of_list_to_set, elem_of_seqZ, elem_of_dom. intros Hx.
    replace x with (c + (x - c)) by lia. apply H. lia. }
  apply subseteq_size in Hs. rewrite size_list_to_set in Hs by apply NoDup_seqZ.
  rewrite length_seqZ, Nat2Z.id in Hs. done.
Qed.

Lemma fd_scan_some fuel c m fd :
  is_u32 c -> fd_scan fuel c m = Some fd ->
  c <= fd /\ is_u32 fd /\ m !! fd = None /\ forall i, c <= i < fd -> is_Some (m !! i).
Proof.
  revert c. induction fuel as [|fuel IH]; intros c Hc H; [done|]. cbn [fd_scan] in H.
  destruct (m !! c) as [d|] eqn:E.
  - unfold checked_add32 in H. destruct (Z.ltb_spec (c + 1) (2 ^ 32)); [|done].
    destruct (IH (c + 1)) as (H1 & H2 & H3 & H4); [unfold is_u32 in *; lia|done|].
    split_and!; [lia|done|done|].
    intros i Hi. destruct (decide (i = c)) as [->|]; [by exists d|]. apply H4. lia.
  - injection H as <-. split_and!; [lia|done|done|lia].
Qed.

Lemma fd_scan_none fuel c m :
  is_u32 c -> fd_scan fuel c m = None ->
  (forall i, c <= i < c + Z.of_nat fuel -> is_Some (m !! i)) \/ (forall i, c <= i < 2 ^ 32 -> is_Some (m !! i)).
Proof.
  revert c. induction fuel as [|fuel IH]; intros c Hc H; [left; lia|]. cbn [fd_scan] in H.
  destruct (m !! c) as [d|] eqn:E; [|done].
  unfold checked_add32 in H. destruct (Z.ltb_spec (c + 1) (2 ^ 32)).
  - assert (is_u32 (c + 1)) as Hc' by (unfold is_u32 in *; lia).
    destruct (IH (c + 1) Hc' H) as [H'|H']; [left|right]; intros i Hi.
    all: destruct (decide (i = c)) as [->|]; [by exists d|]; apply H'; lia.
  - right. intros i Hi. replace i with c by lia. by exists d.
Qed.

(** The scan fails only when every number from the cursor on is taken. *)
Lemma fd_scan_full c m :
  is_u32 c -> fd_scan (S (size m)) c m = None -> forall i, c <= i < 2 ^ 32 -> is_Some (m !! i).
Proof.
  intros Hc H. destruct (fd_scan_none _ _ _ Hc H) as [H'|H']; [|done].
  assert (S (size m) <= size m)%nat; [|lia].
  apply (occupied_run_size m c). intros i Hi. apply H'. lia.
Qed.

Lemma fd_open_cases d t :
  fd_wf t ->
  (exists fd, fd_open d t = (Ok fd, {| entries := <[fd := d]> (entries t); next_fd := saturating_add32 fd 1 |}) /\
     next_fd t <= fd < 2 ^ 32 /\ entries t !! fd = None /\
     forall i, next_fd t <= i < fd -> is_Some (entries t !! i)) \/
  (fd_open d t = (Err ResourceExhausted, t) /\
     forall i, next_fd t <= i < 2 ^ 32 -> is_Some (entries t !! i)).
Proof.
  intros [Hn _]. unfold fd_open. destruct (fd_scan _ _ _) as [fd|] eqn:E.
  - left. exists fd. apply fd_scan_some in E as (H1 & H2 & H3 & H4); [|done]. unfold is_u32 in H2.
    by split_and!; try lia.
  - right. split; [done|]. by apply fd_scan_full.
Qed.

Lemma fd_open_wf d t : fd_wf t -> fd_wf (snd (fd_open d t)).
Proof.
  intros Hwf. destruct (fd_open_cases d t Hwf) as [(fd & -> & Hfd & _)|[-> _]]; [|done].
  destruct Hwf as [Hn Hk]. split; cbn; unfold is_u32, saturating_add32, u32_max in *; [lia|].
  intros x. rewrite lookup_insert_is_Some. intros [<-|[_ Hx]]; [lia|]. by apply Hk.
Qed.

Lemma fd_step_wf op t : fd_op_ok op -> fd_wf t -> fd_wf (snd (fd_step op t)).
Proof.
  intros Hop Hwf. destruct op as [d|fd|fd|a b|fd f|]; cbn.
  - by apply fd_open_wf.
  - unfold fd_close. case_match; [|done]. destruct Hwf as [Hn Hk]. split; cbn; [done|].
    intros x [y [_ Hy]%lookup_delete_Some]. eauto.
  - unfold fd_dup. case_match; [|done]. by apply fd_open_wf.
  - unfold fd_dup2. destruct (a =? b); [done|]. case_match; [|done]. destruct Hwf as [Hn Hk]. split; cbn; [done|].
    intros x. rewrite lookup_insert_is_Some. intros [<-|[_ [y [_ Hy]%lookup_delete_Some]]]; [done|eauto].
  - unfold fd_get_mut. destruct (entries t !! fd) eqn:E; [|done]. destruct Hwf as [Hn Hk]. split; cbn; [done|].
    intros x. rewrite lookup_insert_is_Some. intros [<-|[_ Hx]]; eauto.
  - destruct Hwf as [Hn Hk]. split; cbn; [done|]. intros x [y [Hy _]%map_lookup_filter_Some]. eauto.
Qed.

(** A step either issues nothing and keeps the cursor, or issues a number at
    or after it and moves the cursor just past (saturating). *)
Lemma fd_step_cursor op t :
  fd_wf t ->
  match fst (fd_step op t) with
  | None => next_fd (snd (fd_step op t)) = next_fd t
  | Some fd => next_fd t <= fd < 2 ^ 32 /\ next_fd (snd (fd_step op t)) = saturating_add32 fd 1
  end.
Proof.
  intros Hwf.
  assert (forall d, match (match fst (fd_open d t) with Ok fd => Some fd | Err _ => None end) with
     | None => next_fd (snd (fd_open d t)) = next_fd t
     | Some fd => next_fd t <= fd < 2 ^ 32 /\ next_fd (snd (fd_open d t)) = saturating_add32 fd 1 end) as Ho.
  { intros d. destruct (fd_open_cases d t Hwf) as [(fd & -> & Hfd & _)|[-> _]]; by cbn. }
  destruct op as [d|fd|fd|a b|fd f|]; cbn [fd_step fst snd];
    [apply Ho|unfold fd_close|unfold fd_dup|unfold fd_dup2|unfold fd_get_mut|done].
  - by destruct (entries t !! fd).
  - destruct (entries t !! fd); [apply Ho|done].
  - destruct (a =? b); [done|]. by destruct (entries t !! a).
  - by destruct (entries t !! fd).
Qed.

Lemma fd_run_issued_ge ops t :
  fd_wf t -> Forall fd_op_ok ops -> Forall (fun fd => next_fd t <= fd < 2 ^ 32) (fst (fd_run ops t)).
Proof.
  revert t. induction ops as [|op ops IH]; intros t Hwf Hops; [constructor|].
  apply Forall_cons in Hops as [Ho Hops]. cbn [fd_run].
  pose proof (fd_step_cursor op t Hwf) as Hc. pose proof (fd_step_wf op t Ho Hwf) as Hw.
  destruct (fd_step op t) as [i t1]. cbn [fst snd] in *. specialize (IH t1 Hw Hops).
  destruct (fd_run ops t1) as [iss t2]. cbn [fst] in *. destruct i as [fd|]; cbn; [|by rewrite Hc in IH].
  destruct Hc as [Hfd Hn]. constructor; [done|]. rewrite Hn in IH.
  eapply Forall_impl; [exact IH|]. cbn. unfold saturating_add32, u32_max. lia.
Qed.

(** ** Theorems *)

(** First fit: [open] returns the lowest vacant number at or after the
    cursor, stores the descriptor there, leaves every other number alone and
    moves the cursor just past it; it fails, changing nothing, exactly when
    every number from the cursor to [u32::MAX] is taken.  In particular the
    scan always terminates within the table's size. *)
Theorem fd_open_first_fit (d : FileDescriptor) (t : FileDescriptorTable) (Hwf : fd_wf t) :
  (exists fd t', fd_open d t = (Ok fd, t') /\ next_fd t <= fd < 2 ^ 32 /\ fd_get fd t = None /\
     (forall i, next_fd t <= i < fd -> is_Some (fd_get i t)) /\
     fd_get fd t' = Some d /\ (forall i, i <> fd -> fd_get i t' = fd_get i t) /\
     next_fd t' = Z.min (fd + 1) u32_max) \/
  (fd_open d t = (Err ResourceExhausted, t) /\ forall i, next_fd t <= i < 2 ^ 32 -> is_Some (fd_get i t)).
Proof.
  destruct (fd_open_cases d t Hwf) as [(fd & He & Hfd & Hv & Hocc)|H]; [left|by right].
  exists fd. eexists. split; [exact He|]. unfold fd_get. cbn [entries next_fd].
  split; [done|]. split; [done|]. split; [done|]. split; [apply lookup_insert_eq|].
  split; [|done]. intros i Hi. by apply lookup_insert_ne.
Qed.

(** No re-issue: over any sequence of opens, closes, dups, dup2s,
    in-place updates and forks, the numbers handed out by the cursor below [u32::MAX] are strictly
    increasing, so a closed number is never handed out again by [open] or
    [dup]. *)
Theorem fd_no_reissue (ops : list fd_op) (t : FileDescriptorTable)
    (Hwf : fd_wf t) (Hops : Forall fd_op_ok ops) :
  StronglySorted Z.lt (filter (fun fd => fd < u32_max) (fst (fd_run ops t))).
Proof.
  revert t Hwf. induction ops as [|op ops IH]; intros t Hwf; [constructor|].
  apply Forall_cons in Hops as [Ho Hops]. cbn [fd_run].
  pose proof (fd_step_cursor op t Hwf) as Hc. pose proof (fd_step_wf op t Ho Hwf) as Hw.
  destruct (fd_step op t) as [i t1]. cbn [fst snd] in *.
  specialize (IH Hops t1 Hw). pose proof (fd_run_issued_ge ops t1 Hw Hops) as Hge.
  destruct (fd_run ops t1) as [iss t2]. cbn [fst] in *. destruct i as [fd|]; [|done].
  change (option_list (Some fd) ++ iss) with (fd :: iss). rewrite filter_cons. destruct (decide (fd < u32_max)); [|done]. constructor; [done|].
  apply Forall_forall. intros x Hx%list_elem_of_filter. rewrite Forall_forall in Hge.
  destruct Hx as [_ Hx]. apply Hge in Hx. destruct Hc as [_ Hc]. rewrite Hc in Hx.
  unfold saturating_add32 in Hx. lia.
Qed.

(** At the last number the promise fails: the cursor saturates there, so
    after opening and closing [u32::MAX] the next [open] hands it out again. *)
Theorem fd_reissue_at_max (d d' : FileDescriptor) :
  let t := {| entries := ∅; next_fd := u32_max |} in
  fst (fd_run [FOpen d; FClose u32_max; FOpen d'] t) = [u32_max; u32_max].
Proof.
  intros t. unfold t. cbn -[u32_max lookup insert delete fd_scan size]. reflexivity.
Qed.

(** Duplication and inheritance: on a table where [a] is open, [dup2 a b]
    with [b <> a] makes [b] refer to the same resource with cleared flags,
    closing what was there, and touches no other number; [dup2 a a] changes
    nothing; on a closed [a] both fail with [InvalidArgument]; and a forked
    child sees exactly the descriptors that are not close-on-exec, so a
    duplicated descriptor is always inherited. *)
Theorem fd_dup2_fork (a b : Z) (t : FileDescriptorTable) (d : FileDescriptor) (Ha : fd_get a t = Some d) :
  let t' := snd (fd_dup2 a b t) in
  fst (fd_dup2 a b t) = Ok b /\
  (a = b -> t' = t) /\
  (a <> b ->
     fd_get b t' = Some {| fd_kind := fd_kind d; fd_flags := fd_flags_default |} /\
     (forall i, i <> b -> fd_get i t' = fd_get i t) /\
     fd_get b (clone_for_child t') = Some {| fd_kind := fd_kind d; fd_flags := fd_flags_default |}) /\
  (forall i x, fd_get i (clone_for_child t) = Some x <-> fd_get i t = Some x /\ close_on_exec (fd_flags x) = false) /\
  (forall i c, fd_get i t = None ->
     fd_dup2 i c t = (Err InvalidArgument, t) /\ fd_dup i t = (Err InvalidArgument, t) /\
     fd_close i t = (Err InvalidArgument, t)).
Proof.
  unfold fd_get, fd_dup2, fd_dup, fd_close in *. cbn zeta. split_and!.
  - rewrite Ha. destruct (a =? b); [|done]. by rewrite bool_decide_eq_true_2.
  - intros ->. by rewrite Z.eqb_refl.
  - intros Hne. rewrite (proj2 (Z.eqb_neq _ _) Hne), Ha. cbn. rewrite lookup_insert_eq. split_and!; [done| |].
    + intros i Hi. by rewrite lookup_insert_ne, lookup_delete_ne.
    + apply map_lookup_filter_Some. by rewrite lookup_insert_eq.
  - intros i x. apply map_lookup_filter_Some.
  - intros i c Hi. rewrite Hi. destruct (Z.eqb_spec i c); by rewrite ?bool_decide_eq_false_2 by (by intros [? ?]).
Qed.

(** ** Witnesses *)

Lemma new_with_stdio_wf : fd_wf new_with_stdio.
Proof.
  split; [split; vm_compute; congruence|]. intros fd. cbn. rewrite !lookup_insert_is_Some, lookup_empty.
  unfold is_u32. intros [<-|[_ [<-|[_ [<-|[_ [? ?]]]]]]]; [lia|lia|lia|done].
Qed.

Definition demo_fd : FileDescriptor := {| fd_kind := FkIpcChannel 42; fd_flags := fd_flags_default |}.

Lemma fd_open_first_fit_witness :
  fst (fd_open demo_fd new_with_stdio) = Ok 3 /\ fd_get 3 (snd (fd_open demo_fd new_with_stdio)) = Some demo_fd.
Proof.
  split; [reflexivity|].
  destruct (fd_open_first_fit demo_fd new_with_stdio new_with_stdio_wf) as [(fd & t' & He & _ & _ & _ & Hg & _)|[H _]].
  - replace 3 with fd; [by rewrite He|]. apply (f_equal fst) in He. vm_compute in He. by injection He.
  - apply (f_equal fst) in H. vm_compute in H. discriminate H.
Defined.

Lemma fd_no_reissue_witness :
  StronglySorted Z.lt (filter (fun fd => fd < u32_max)
    (fst (fd_run [FOpen demo_fd; FClose 3; FOpen demo_fd; FDup2 1 5; FFork; FDup 0] new_with_stdio))).
Proof.
  apply (fd_no_reissue [FOpen demo_fd; FClose 3; FOpen demo_fd; FDup2 1 5; FFork; FDup 0]
           new_with_stdio new_with_stdio_wf).
  repeat constructor; vm_compute; congruence.
Defined.

Lemma fd_dup2_fork_witness :
  fd_get 7 (snd (fd_dup2 1 7 new_with_stdio)) =
    Some {| fd_kind := FkConsole false true; fd_flags := fd_flags_default |}.
Proof.
  refine (proj1 (proj1 (proj2 (proj2 (fd_dup2_fork 1 7 new_with_stdio
            {| fd_kind := FkConsole false true; fd_flags := fd_flags_default |} _))) _)).
  - reflexivity.
  - discriminate.
Defined.
