(* ===== verification/Sched.v ===== *)
(** * Scheduler (omni-kernel: scheduling.rs, bare_metal/per_cpu_run_queue.rs)

    The round-robin scheduler's bookkeeping (task table, six priority queues,
    current task, stack slots) and the per-CPU run queues with work stealing.
    The register switch itself is assembly: [yield_current] returns the task
    it would switch to. *)

From Stdlib Require Import ZArith Lia.
From stdpp Require Import base numbers list.
From S2P Require Import Prelude Str CapScope CapToken Ipc.

(** ** Data *)

Inductive PriorityClass := PSystem | PRealTime | PInteractive | PAiInference | PBackground | PIdle.

(** [priority as usize]. *)
Definition prio_idx (p : PriorityClass) : nat :=
  match p with
  | PSystem => 0 | PRealTime => 1 | PInteractive => 2
  | PAiInference => 3 | PBackground => 4 | PIdle => 5
  end.

Inductive TaskState := TsRunnable | TsRunning | TsBlockedOnIpc | TsBlockedOnSyscall | TsSleeping | TsTerminated.

#[global] Instance TaskState_eq_dec : EqDecision TaskState.
Proof. solve_decision. Defined.

Record TaskControlBlock := {
  tcb_id : Z;
  tcb_state : TaskState;
  tcb_priority : PriorityClass;
  tcb_rsp : Z;
  tcb_stack_phys : Z;
  tcb_stack_va : Z;
}.

Definition KERNEL_STACK_VA_BASE : Z := 0xFFFFC00000000000.
Definition KERNEL_STACK_VA_END : Z := 0xFFFFC80000000000.
Definition KERNEL_STACK_SIZE : Z := 0x1000.
Definition KERNEL_STACK_STRIDE : Z := 0x2000.
Definition NUM_PRIORITY_CLASSES : nat := 6.

Record RoundRobinScheduler := {
  tasks : list TaskControlBlock;
  run_queues : list (list Z);
  current : option Z;
  sched_next_id : Z;
  next_kernel_stack_slot : Z;
}.

(** ** Field updates *)

Definition with_tasks (s : RoundRobinScheduler) (ts : list TaskControlBlock) : RoundRobinScheduler :=
  {| tasks := ts; run_queues := run_queues s; current := current s; sched_next_id := sched_next_id s;
     next_kernel_stack_slot := next_kernel_stack_slot s |}.
Definition with_queues (s : RoundRobinScheduler) (qs : list (list Z)) : RoundRobinScheduler :=
  {| tasks := tasks s; run_queues := qs; current := current s; sched_next_id := sched_next_id s;
     next_kernel_stack_slot := next_kernel_stack_slot s |}.
Definition with_current (s : RoundRobinScheduler) (c : option Z) : RoundRobinScheduler :=
  {| tasks := tasks s; run_queues := run_queues s; current := c; sched_next_id := sched_next_id s;
     next_kernel_stack_slot := next_kernel_stack_slot s |}.
Definition with_next_id (s : RoundRobinScheduler) (n : Z) : RoundRobinScheduler :=
  {| tasks := tasks s; run_queues := run_queues s; current := current s; sched_next_id := n;
     next_kernel_stack_slot := next_kernel_stack_slot s |}.
Definition with_slot (s : RoundRobinScheduler) (n : Z) : RoundRobinScheduler :=
  {| tasks := tasks s; run_queues := run_queues s; current := current s; sched_next_id := sched_next_id s;
     next_kernel_stack_slot := n |}.

Definition set_state (st : TaskState) (t : TaskControlBlock) : TaskControlBlock :=
  {| tcb_id := tcb_id t; tcb_state := st; tcb_priority := tcb_priority t; tcb_rsp := tcb_rsp t;
     tcb_stack_phys := tcb_stack_phys t; tcb_stack_va := tcb_stack_va t |}.
Definition set_priority (p : PriorityClass) (t : TaskControlBlock) : TaskControlBlock :=
  {| tcb_id := tcb_id t; tcb_state := tcb_state t; tcb_priority := p; tcb_rsp := tcb_rsp t;
     tcb_stack_phys := tcb_stack_phys t; tcb_stack_va := tcb_stack_va t |}.

(** ** Queues, shared by the scheduler and the per-CPU tables *)

(** [queues[priority as usize].push(id)]. *)
Definition queue_push (p : PriorityClass) (id : Z) (qs : list (list Z)) : list (list Z) :=
  alter (fun q => q ++ [id]) (prio_idx p) qs.

(** Remove the head of the first non-empty queue. *)
Fixpoint queue_pop_front (qs : list (list Z)) : option (Z * list (list Z)) :=
  match qs with
  | [] => None
  | [] :: qs => x ← queue_pop_front qs; Some (fst x, [] :: snd x)
  | (t :: q) :: qs => Some (t, q :: qs)
  end.

(** [queue.pop()]: the last element. *)
Definition vec_pop (q : list Z) : option (Z * list Z) :=
  t ← last q; Some (t, take (pred (length q)) q).

(** Remove the last element of the last non-empty queue. *)
Fixpoint queue_steal_back (qs : list (list Z)) : option (Z * list (list Z)) :=
  match qs with
  | [] => None
  | q :: qs =>
      match queue_steal_back qs with
      | Some (t, qs') => Some (t, q :: qs')
      | None => x ← vec_pop q; Some (fst x, snd x :: qs)
      end
  end.

(** [queue.retain(|&id| id != task)] on every queue. *)
Definition queue_retain (id : Z) (qs : list (list Z)) : list (list Z) :=
  map (filter (fun x => x <> id)) qs.

(** ** Scheduler operations *)

Definition sched_new : RoundRobinScheduler :=
  {| tasks := []; run_queues := replicate NUM_PRIORITY_CLASSES []; current := None;
     sched_next_id := 1; next_kernel_stack_slot := 0 |}.

Definition allocate_task_id (s : RoundRobinScheduler) : run (Z * RoundRobinScheduler) :=
  n ← add64 (sched_next_id s) 1;
  Done (sched_next_id s, with_next_id s n).

Definition register_process (tcb : TaskControlBlock) (p : PriorityClass) (s : RoundRobinScheduler) : RoundRobinScheduler :=
  with_queues (with_tasks s (tasks s ++ [tcb])) (queue_push p (tcb_id tcb) (run_queues s)).

Definition allocate_stack_slot (s : RoundRobinScheduler) : option (Z * RoundRobinScheduler) :=
  let slot := next_kernel_stack_slot s in
  off ← checked_mul64 slot KERNEL_STACK_STRIDE;
  slot_base ← checked_add64 KERNEL_STACK_VA_BASE off;
  stack_top ← checked_add64 slot_base KERNEL_STACK_STRIDE;
  if KERNEL_STACK_VA_END <? stack_top then None
  else n ← checked_add64 slot 1; Some (slot_base + KERNEL_STACK_SIZE, with_slot s n).

Definition spawn_bootstrap_task (p : PriorityClass) (s : RoundRobinScheduler) : run (KernelResult Z * RoundRobinScheduler) :=
  let id := sched_next_id s in
  n ← add64 (sched_next_id s) 1;
  let tcb := {| tcb_id := id; tcb_state := TsRunning; tcb_priority := p; tcb_rsp := 0;
                tcb_stack_phys := 0; tcb_stack_va := 0 |} in
  Done (Ok id, with_current (with_tasks (with_next_id s n) (tasks s ++ [tcb])) (Some id)).

(** [tasks.iter().position(|t| t.id == id)], with the block found. *)
Definition find_task (id : Z) (ts : list TaskControlBlock) : option (nat * TaskControlBlock) :=
  list_find (fun t => tcb_id t = id) ts.
#[global] Arguments find_task : simpl never.

Definition enqueue (id : Z) (p : PriorityClass) (s : RoundRobinScheduler) : KernelResult unit * RoundRobinScheduler :=
  match find_task id (tasks s) with
  | None => (Err InvalidArgument, s)
  | Some (i, _) =>
      (Ok (), with_queues (with_tasks s (alter (fun t => set_priority p (set_state TsRunnable t)) i (tasks s)))
                (queue_push p id (run_queues s)))
  end.

Definition dequeue (id : Z) (s : RoundRobinScheduler) : KernelResult unit * RoundRobinScheduler :=
  let s1 := with_queues s (queue_retain id (run_queues s)) in
  let s2 := match find_task id (tasks s1) with
            | Some (i, _) => with_tasks s1 (alter (set_state TsTerminated) i (tasks s1))
            | None => s1
            end in
  (Ok (), if bool_decide (current s2 = Some id) then with_current s2 None else s2).

Definition pick_next (s : RoundRobinScheduler) : option Z * RoundRobinScheduler :=
  match queue_pop_front (run_queues s) with
  | Some (t, qs) => (Some t, with_queues s qs)
  | None => (None, s)
  end.

(** What [yield_current] hands to the context switch: nothing, or the task
    whose registers are loaded next. *)
Inductive Switch := SwitchNone | SwitchTo (id : Z).

Definition yield_current (cur : Z) (st : TaskState) (s : RoundRobinScheduler) : KernelResult Switch * RoundRobinScheduler :=
  match find_task cur (tasks s) with
  | None => (Err InvalidArgument, s)
  | Some (cur_idx, tcb) =>
      let s1 := with_tasks s (alter (set_state st) cur_idx (tasks s)) in
      let s2 := if bool_decide (st = TsRunnable)
                then with_queues s1 (queue_push (tcb_priority tcb) cur (run_queues s1)) else s1 in
      match pick_next s2 with
      | (None, s3) => (Ok SwitchNone, s3)
      | (Some next, s3) =>
          if next =? cur then
            (Ok SwitchNone, with_current (with_tasks s3 (alter (set_state TsRunning) cur_idx (tasks s3))) (Some next))
          else
            match find_task next (tasks s3) with
            | None => (Err Internal, s3)
            | Some (next_idx, _) =>
                (Ok (SwitchTo next),
                 with_current (with_tasks s3 (alter (set_state TsRunning) next_idx (tasks s3))) (Some next))
            end
      end
  end.

Definition preempt (cur : Z) (s : RoundRobinScheduler) : KernelResult Switch * RoundRobinScheduler :=
  yield_current cur TsRunnable s.

(** The cross-CPU lock flag: [compare_exchange(false, true)] and the release
    store. *)
Definition try_acquire_sched_lock (flag : bool) : bool * bool := (negb flag, true).
Definition release_sched_lock (_ : bool) : bool := false.

(** ** Per-CPU run queues *)

Definition NUM_CPU_SLOTS : nat := 32.

(** The table of all CPUs' queues; each entry is only touched under its
    slot's lock, so an operation is one atomic update of one entry. *)
Abbreviation cpu_table := (list (list (list Z))).

Definition cpu_table_new : cpu_table := replicate NUM_CPU_SLOTS (replicate NUM_PRIORITY_CLASSES []).

Definition enqueue_on_cpu (cpu : Z) (task : Z) (p : PriorityClass) (t : cpu_table) : bool * cpu_table :=
  match t !! Z.to_nat cpu with
  | None => (false, t)
  | Some qs => (true, <[Z.to_nat cpu := queue_push p task qs]> t)
  end.

Definition pop_for_cpu (cpu : Z) (t : cpu_table) : option Z * cpu_table :=
  match t !! Z.to_nat cpu with
  | None => (None, t)
  | Some qs => match queue_pop_front qs with
               | Some (x, qs') => (Some x, <[Z.to_nat cpu := qs']> t)
               | None => (None, t)
               end
  end.

Definition steal_from (victim : Z) (t : cpu_table) : option Z * cpu_table :=
  match t !! Z.to_nat victim with
  | None => (None, t)
  | Some qs => match queue_steal_back qs with
               | Some (x, qs') => (Some x, <[Z.to_nat victim := qs']> t)
               | None => (None, t)
               end
  end.

(** The scan over the victims. *)
Fixpoint steal_scan (cpu : Z) (victims : list Z) (t : cpu_table) : option Z * cpu_table :=
  match victims with
  | [] => (None, t)
  | v :: victims =>
      if v =? cpu then steal_scan cpu victims t
      else match steal_from v t with
           | (Some x, t') => (Some x, t')
           | (None, t') => steal_scan cpu victims t'
           end
  end.

Definition pop_for_cpu_with_stealing (cpu : Z) (t : cpu_table) : option Z * cpu_table :=
  match pop_for_cpu cpu t with
  | (Some x, t') => (Some x, t')
  | (None, t') => steal_scan cpu (seqZ 0 (Z.of_nat NUM_CPU_SLOTS)) t'
  end.

Definition local_len (cpu : Z) (t : cpu_table) : Z :=
  match t !! Z.to_nat cpu with
  | None => 0
  | Some qs => Z.of_nat (length (concat qs))
  end.

(** The scheduler's own per-CPU entry points: the legacy queues mirror the
    table. *)
Definition enqueue_for_cpu (cpu id : Z) (p : PriorityClass) (st : RoundRobinScheduler * cpu_table)
    : bool * (RoundRobinScheduler * cpu_table) :=
  let s1 := with_queues (fst st) (queue_push p id (run_queues (fst st))) in
  let '(b, t1) := enqueue_on_cpu cpu id p (snd st) in
  (b, (s1, t1)).

Definition pick_next_for_cpu (cpu : Z) (st : RoundRobinScheduler * cpu_table)
    : option Z * (RoundRobinScheduler * cpu_table) :=
  match pop_for_cpu_with_stealing cpu (snd st) with
  | (None, t1) => (None, (fst st, t1))
  | (Some picked, t1) => (Some picked, (with_queues (fst st) (queue_retain picked (run_queues (fst st))), t1))
  end.

(** ** Lemmas on queues *)

Lemma queue_pop_front_none qs : queue_pop_front qs = None <-> concat qs = [].
Proof.
  induction qs as [|[|t q] qs IH]; cbn; [done| |done].
  rewrite <- IH. by destruct (queue_pop_front qs).
Qed.

Lemma queue_pop_front_some qs t qs' :
  queue_pop_front qs = Some (t, qs') ->
  exists i q, qs !! i = Some (t :: q) /\ (forall j, (j < i)%nat -> qs !! j = Some []) /\ qs' = <[i := q]> qs.
Proof.
  revert qs'. induction qs as [|[|x q] qs IH]; intros qs' H; cbn in H; [done| |].
  - destruct (queue_pop_front qs) as [[y ys]|]; cbn in H; [|done]. injection H as <- <-.
    destruct (IH ys eq_refl) as (i & q & Hi & Hj & ->). exists (S i), q. split_and!; [done| |done].
    intros [|j] Hlt; [done|]. apply Hj. lia.
  - injection H as <- <-. exists 0%nat, q. split_and!; [done|lia|done].
Qed.

Lemma concat_insert (qs : list (list Z)) i (q q' : list Z) :
  qs !! i = Some q -> exists l1 l2, concat qs = l1 ++ q ++ l2 /\ concat (<[i := q']> qs) = l1 ++ q' ++ l2.
Proof.
  revert i. induction qs as [|x qs IH]; intros [|i] H; [done|done| |].
  - injection H as ->. by exists [], (concat qs).
  - destruct (IH i H) as (l1 & l2 & E1 & E2). exists (x ++ l1), l2. rewrite <- !app_assoc.
    change (x ++ concat qs = x ++ l1 ++ q ++ l2 /\ x ++ concat (<[i := q']> qs) = x ++ l1 ++ q' ++ l2).
    by rewrite E1, E2.
Qed.

Lemma queue_pop_front_perm qs t qs' : queue_pop_front qs = Some (t, qs') -> concat qs ≡ₚ t :: concat qs'.
Proof.
  intros H. apply queue_pop_front_some in H as (i & q & Hi & _ & ->).
  destruct (concat_insert qs i (t :: q) q Hi) as (l1 & l2 & -> & ->). cbn. symmetry. apply Permutation_middle.
Qed.

Lemma vec_pop_spec q t q' : vec_pop q = Some (t, q') -> q = q' ++ [t].
Proof.
  unfold vec_pop. destruct (last q) as [x|] eqn:E; cbn; [|done]. apply last_Some in E as [l ->].
  intros [= <- <-]. rewrite length_app, Nat.add_1_r. cbn. by rewrite take_app_length.
Qed.

Lemma vec_pop_none q : vec_pop q = None <-> q = [].
Proof.
  unfold vec_pop. rewrite <- last_None. by destruct (last q).
Qed.

Lemma queue_steal_back_none qs : queue_steal_back qs = None <-> concat qs = [].
Proof.
  induction qs as [|q qs IH]; [done|]. cbn [queue_steal_back concat].
  destruct (queue_steal_back qs) as [[t ts]|]; cbn.
  - split; [done|]. intros [_ H]%app_nil. by apply IH in H.
  - destruct (vec_pop q) as [[t q']|] eqn:E; cbn.
    + apply vec_pop_spec in E as ->. split; [done|]. intros [H _]%app_nil. by destruct q'.
    + apply vec_pop_none in E as ->. tauto.
Qed.

Lemma queue_steal_back_some qs t qs' :
  queue_steal_back qs = Some (t, qs') ->
  exists i q, qs !! i = Some (q ++ [t]) /\ (forall j x, (i < j)%nat -> qs !! j = Some x -> x = []) /\ qs' = <[i := q]> qs.
Proof.
  revert qs'. induction qs as [|q qs IH]; intros qs' H; [done|]. cbn [queue_steal_back] in H.
  destruct (queue_steal_back qs) as [[y ys]|] eqn:E.
  - injection H as <- <-. destruct (IH ys eq_refl) as (i & q' & Hi & Hj & ->). exists (S i), q'.
    split_and!; [done| |done]. intros [|j] x Hlt Hx; [lia|]. apply (Hj j x); [lia|done].
  - destruct (vec_pop q) as [[y q']|] eqn:Ev; cbn in H; [|done]. injection H as <- <-.
    apply vec_pop_spec in Ev as ->. exists 0%nat, q'. split_and!; [done| |done].
    intros [|j] x Hlt Hx; [lia|]. cbn in Hx. apply queue_steal_back_none in E.
    clear -E Hx. revert j Hx. induction qs as [|y qs IH]; intros [|j] Hx; [done|done| |].
    all: cbn in *; apply app_nil in E as [E1 E2]; subst.
    + by injection Hx as <-.
    + by eapply IH.
Qed.

Lemma queue_steal_back_perm qs t qs' : queue_steal_back qs = Some (t, qs') -> concat qs ≡ₚ t :: concat qs'.
Proof.
  intros H. apply queue_steal_back_some in H as (i & q & Hi & _ & ->).
  destruct (concat_insert qs i (q ++ [t]) q Hi) as (l1 & l2 & -> & ->).
  rewrite <- !app_assoc. cbn. rewrite !app_assoc. symmetry. apply Permutation_middle.
Qed.

Lemma prio_idx_lt p : (prio_idx p < NUM_PRIORITY_CLASSES)%nat.
Proof. unfold NUM_PRIORITY_CLASSES. destruct p; cbn; lia. Qed.

Lemma queue_push_lookup p id qs i :
  queue_push p id qs !! i = (if decide (i = prio_idx p) then (fun q => q ++ [id]) <$> qs !! i else qs !! i).
Proof.
  unfold queue_push. case_decide as H; [subst; apply list_lookup_alter_eq|by apply list_lookup_alter_ne].
Qed.

Lemma queue_push_perm p id qs :
  length qs = NUM_PRIORITY_CLASSES -> concat (queue_push p id qs) ≡ₚ id :: concat qs.
Proof.
  intros Hl. destruct (lookup_lt_is_Some_2 qs (prio_idx p)) as [q Hq]; [rewrite Hl; apply prio_idx_lt|].
  assert (queue_push p id qs = <[prio_idx p := q ++ [id]]> qs) as ->.
  { apply list_eq. intros i. rewrite queue_push_lookup. case_decide as Hi.
    - subst i. rewrite Hq, list_lookup_insert_eq; [done|]. rewrite Hl. apply prio_idx_lt.
    - by rewrite list_lookup_insert_ne. }
  destruct (concat_insert qs (prio_idx p) q (q ++ [id]) Hq) as (l1 & l2 & -> & ->).
  rewrite <- !app_assoc. cbn. rewrite !app_assoc. symmetry. apply Permutation_middle.
Qed.

(** ** Lemmas on the task table *)

Definition task_of (s : RoundRobinScheduler) (id : Z) : option TaskControlBlock := snd <$> find_task id (tasks s).
#[global] Arguments task_of : simpl never.

Lemma find_task_alter (f : TaskControlBlock -> TaskControlBlock) id ts i t :
  (forall x, tcb_id (f x) = tcb_id x) -> find_task id ts = Some (i, t) ->
  forall id', find_task id' (alter f i ts) = if id' =? id then Some (i, f t) else find_task id' ts.
Proof.
  intros Hf. revert i t. unfold find_task. induction ts as [|x ts IH]; intros i t H id'; cbn in H; [done|].
  destruct (decide (tcb_id x = id)) as [Hx|Hx].
  - injection H as <- <-. cbn. rewrite Hf. destruct (Z.eqb_spec id' id) as [->|Hne].
    + by rewrite decide_True.
    + rewrite decide_False by congruence. symmetry. by rewrite decide_False by congruence.
  - destruct (list_find _ ts) as [[j y]|] eqn:E; cbn in H; [|done]. injection H as <- <-.
    specialize (IH j y eq_refl id'). cbn. destruct (decide (tcb_id x = id')) as [Hx'|Hx'].
    + destruct (Z.eqb_spec id' id); [congruence|done].
    + rewrite IH. by destruct (id' =? id).
Qed.

Lemma find_task_id id ts i t : find_task id ts = Some (i, t) -> tcb_id t = id /\ t ∈ ts.
Proof. unfold find_task. intros (H1 & H2 & _)%list_find_Some. split; [done|]. by eapply list_elem_of_lookup_2. Qed.

Lemma find_task_app id ts tcb :
  snd <$> find_task id (ts ++ [tcb]) =
    match find_task id ts with Some (_, t) => Some t | None => if id =? tcb_id tcb then Some tcb else None end.
Proof.
  unfold find_task. induction ts as [|x ts IH]; cbn.
  - destruct (Z.eqb_spec id (tcb_id tcb)) as [->|]; [by rewrite decide_True|by rewrite decide_False by congruence].
  - destruct (decide (tcb_id x = id)); [done|].
    assert (forall o : option (nat * TaskControlBlock), snd <$> (prod_map S Datatypes.id <$> o) = snd <$> o) as Hs
      by (by intros [[]|]).
    rewrite Hs, IH. by destruct (list_find _ ts) as [[? ?]|].
Qed.

(** ** Invariant

    Queued tasks are known, runnable and in the queue of their priority; no
    task is queued twice; ids are below the counter; the current task is
    known and not queued. *)
Record sched_core (s : RoundRobinScheduler) : Prop := {
  sc_len : length (run_queues s) = NUM_PRIORITY_CLASSES;
  sc_ids : forall t, t ∈ tasks s -> tcb_id t < sched_next_id s;
  sc_queued : forall i q id, run_queues s !! i = Some q -> id ∈ q ->
    exists t, task_of s id = Some t /\ tcb_state t = TsRunnable /\ prio_idx (tcb_priority t) = i;
  sc_nodup : NoDup (concat (run_queues s));
}.

Record sched_inv (s : RoundRobinScheduler) : Prop := {
  si_core : sched_core s;
  si_current : forall c, current s = Some c -> is_Some (task_of s c) /\ c ∉ concat (run_queues s);
}.

Lemma elem_of_queues id (qs : list (list Z)) : id ∈ concat qs <-> exists i q, qs !! i = Some q /\ id ∈ q.
Proof.
  induction qs as [|x qs IH]; cbn [concat].
  - rewrite elem_of_nil. split; [done|]. by intros (i & q & ? & _).
  - rewrite elem_of_app, IH. split.
    + intros [H|(i & q & H1 & H2)]; [by exists 0%nat, x|by exists (S i), q].
    + intros ([|i] & q & H1 & H2); cbn in H1; [left; by injection H1 as ->|right; by exists i, q].
Qed.

Lemma sched_core_alter s f id i t :
  sched_core s -> (forall x, tcb_id (f x) = tcb_id x) -> find_task id (tasks s) = Some (i, t) ->
  id ∉ concat (run_queues s) -> sched_core (with_tasks s (alter f i (tasks s))).
Proof.
  intros [Hl Hi Hq Hn] Hf Hfind Hnot. split; cbn; try done.
  - intros x (j & Hj)%list_elem_of_lookup. destruct (decide (j = i)) as [->|Hne].
    + rewrite list_lookup_alter_eq in Hj. destruct (tasks s !! i) as [y|] eqn:Ey; [|done].
      cbn in Hj. injection Hj as <-. rewrite Hf. apply Hi. by eapply list_elem_of_lookup_2.
    + rewrite list_lookup_alter_ne in Hj by done. apply Hi. by eapply list_elem_of_lookup_2.
  - intros j q x Hj Hx. destruct (Hq j q x Hj Hx) as (y & Hy & ?). exists y. split; [|done].
    unfold task_of. cbn [tasks with_tasks]. rewrite (find_task_alter f id _ i t) by done.
    destruct (Z.eqb_spec x id) as [->|]; [|exact Hy]. destruct Hnot. apply elem_of_queues. eauto.
Qed.

Lemma sched_core_push s id t p :
  sched_core s -> task_of s id = Some t -> tcb_state t = TsRunnable -> tcb_priority t = p ->
  id ∉ concat (run_queues s) -> sched_core (with_queues s (queue_push p id (run_queues s))).
Proof.
  intros [Hl Hi Hq Hn] Ht Hst Hp Hnot. split; cbn; try done.
  - unfold queue_push. by rewrite length_alter.
  - intros j q x Hj Hx. rewrite queue_push_lookup in Hj. case_decide as Hd; [|by eapply Hq].
    destruct (run_queues s !! j) as [q0|] eqn:E; [|done]. cbn in Hj. injection Hj as <-.
    apply elem_of_app in Hx as [Hx|Hx%list_elem_of_singleton]; [by eapply Hq|].
    subst. by exists t.
  - rewrite queue_push_perm by done. by constructor.
Qed.

Lemma sched_core_pop s x qs' :
  sched_core s -> queue_pop_front (run_queues s) = Some (x, qs') ->
  sched_core (with_queues s qs') /\ x ∉ concat qs' /\ is_Some (task_of s x).
Proof.
  intros [Hl Hi Hq Hn] E. pose proof (queue_pop_front_perm _ _ _ E) as Hp. rewrite Hp in Hn.
  apply queue_pop_front_some in E as (i & q & Hi' & _ & ->). apply NoDup_cons in Hn as [Hx Hn].
  split_and!; [|done|].
  - split; cbn; try done; [by rewrite length_insert|]. intros j q' y Hj Hy.
    destruct (decide (j = i)) as [->|Hne].
    + rewrite list_lookup_insert_eq in Hj by (by eapply lookup_lt_Some). injection Hj as <-.
      apply (Hq i (x :: q)); [done|by right].
    + rewrite list_lookup_insert_ne in Hj by done. by eapply Hq.
  - destruct (Hq i (x :: q) x Hi') as (t & Ht & _); [left|by exists t].
Qed.

(** [yield_current] on a known current task never fails; it either finds no
    runnable task, or moves one from the ready set to the CPU. *)
(** Updating a found task is seen by exactly that task. *)
Lemma task_of_alter f s s' c i t id :
  (forall x, tcb_id (f x) = tcb_id x) -> find_task c (tasks s) = Some (i, t) -> tasks s' = alter f i (tasks s) ->
  task_of s' id = if id =? c then Some (f t) else task_of s id.
Proof.
  intros Hf Hc Hts. unfold task_of. rewrite Hts, (find_task_alter f c _ i t) by done. by destruct (id =? c).
Qed.

Lemma yield_current_cases s c t st :
  sched_core s -> task_of s c = Some t -> c ∉ concat (run_queues s) ->
  let ready := concat (run_queues s) ++ (if bool_decide (st = TsRunnable) then [c] else []) in
  exists sw s', yield_current c st s = (Ok sw, s') /\ sched_core s' /\
    sched_next_id s' = sched_next_id s /\
    (forall id, is_Some (task_of s id) -> is_Some (task_of s' id)) /\
    ((ready = [] /\ sw = SwitchNone /\ current s' = current s /\ concat (run_queues s') = []) \/
     (exists next, current s' = Some next /\ sw = (if next =? c then SwitchNone else SwitchTo next) /\
        is_Some (task_of s' next) /\ next ∉ concat (run_queues s') /\ ready ≡ₚ next :: concat (run_queues s') /\
        forall id, tcb_state <$> task_of s' id =
          if id =? next then Some TsRunning else if id =? c then Some st else tcb_state <$> task_of s id)).
Proof.
  intros Hcore Ht Hnot ready. unfold yield_current.
  unfold task_of in Ht. destruct (find_task c (tasks s)) as [[i t0]|] eqn:Ef; cbn in Ht; [|done]. injection Ht as ->.
  set (s1 := with_tasks s (alter (set_state st) i (tasks s))).
  assert (sched_core s1) as H1 by (by eapply sched_core_alter).
  assert (forall id, task_of s1 id = if id =? c then Some (set_state st t) else task_of s id) as Htk1.
  { intros id. by apply (task_of_alter (set_state st) s s1 c i t). }
  set (s2 := if bool_decide (st = TsRunnable) then _ else _).
  assert (sched_core s2 /\ ready ≡ₚ concat (run_queues s2) /\ tasks s2 = tasks s1 /\
          current s2 = current s /\ sched_next_id s2 = sched_next_id s) as (H2 & Hready & Hts & Hcur & Hnx).
  { unfold s2, ready. case_bool_decide as Hst; [|rewrite app_nil_r; by split_and!].
    split_and!; try done.
    - apply (sched_core_push s1 c (set_state st t)); try done. by rewrite Htk1, Z.eqb_refl.
    - cbn. rewrite queue_push_perm by apply Hcore. by rewrite Permutation_app_comm. }
  assert (forall id, task_of s2 id = task_of s1 id) as Htk2 by (intros; unfold task_of; by rewrite Hts).
  assert (forall id, is_Some (task_of s id) -> is_Some (task_of s2 id)) as Hkeep.
  { intros id. rewrite Htk2, Htk1. by destruct (id =? c). }
  clearbody s2. unfold pick_next. destruct (queue_pop_front (run_queues s2)) as [[next qs']|] eqn:Ep.
  2:{ apply queue_pop_front_none in Ep. exists SwitchNone, s2. split_and!; try done. left.
      rewrite Ep in Hready. apply Permutation_nil_r in Hready. by split_and!. }
  pose proof (queue_pop_front_perm _ _ _ Ep) as Hperm.
  destruct (sched_core_pop s2 next qs' H2 Ep) as (H3 & Hnn & Hkn).
  set (s3 := with_queues s2 qs').
  assert (exists idx y, find_task next (tasks s3) = Some (idx, y) /\ (next = c -> idx = i)) as (idx & y & Hy & Hix).
  { unfold task_of in Hkn. cbn [tasks with_queues s3]. destruct (find_task next (tasks s2)) as [[k y]|] eqn:Ek; [|by destruct Hkn].
    exists k, y. split; [done|]. intros ->. rewrite Hts in Ek. cbn [tasks with_tasks s1] in Ek.
    rewrite (find_task_alter (set_state st) c _ i t), Z.eqb_refl in Ek by done. congruence. }
  set (s4 := with_current (with_tasks s3 (alter (set_state TsRunning) idx (tasks s3))) (Some next)).
  assert (sched_core s4) as H4.
  { destruct (sched_core_alter s3 (set_state TsRunning) next idx y H3) as [A1 A2 A3 A4]; try done. }
  assert (forall id, task_of s4 id = if id =? next then Some (set_state TsRunning y) else task_of s2 id) as Htk4.
  { intros id. by apply (task_of_alter (set_state TsRunning) s3 s4 next idx y). }
  assert ((if next =? c then (Ok SwitchNone, with_current (with_tasks s3 (alter (set_state TsRunning) i (tasks s3))) (Some next))
     else match find_task next (tasks s3) with
          | Some (next_idx, _) => (Ok (SwitchTo next), with_current (with_tasks s3 (alter (set_state TsRunning) next_idx (tasks s3))) (Some next))
          | None => (Err Internal, s3) end) = (Ok (if next =? c then SwitchNone else SwitchTo next), s4)) as ->.
  { unfold s4. destruct (Z.eqb_spec next c) as [He|]; [by rewrite (Hix He)|by rewrite Hy]. }
  eexists _, s4. split; [done|]. split_and!; try done.
  - intros id Hid. rewrite Htk4. destruct (id =? next); [done|]. by apply Hkeep.
  - right. exists next. split; [done|]. split; [done|]. split; [rewrite Htk4, Z.eqb_refl; by eexists|].
    split; [exact Hnn|]. split; [by rewrite Hready, Hperm|].
    intros id. rewrite Htk4, Htk2, Htk1. destruct (id =? next); [done|]. by destruct (id =? c).
Qed.

(** ** The scheduler as a transition system

    The calls the kernel makes: spawning a task with a fresh id, waking a
    task that is neither queued nor current, terminating a task, and yielding
    or preempting the current one. *)
Inductive sched_step : RoundRobinScheduler -> RoundRobinScheduler -> Prop :=
| step_spawn s s1 id tcb p :
    allocate_task_id s = Done (id, s1) ->
    tcb_id tcb = id -> tcb_state tcb = TsRunnable -> tcb_priority tcb = p ->
    sched_step s (register_process tcb p s1)
| step_bootstrap s s' r p :
    spawn_bootstrap_task p s = Done (r, s') -> sched_step s s'
| step_wake s id p :
    id ∉ concat (run_queues s) -> current s <> Some id -> sched_step s (snd (enqueue id p s))
| step_exit s id : sched_step s (snd (dequeue id s))
| step_yield s c st :
    current s = Some c -> sched_step s (snd (yield_current c st s)).

Inductive sched_reachable : RoundRobinScheduler -> Prop :=
| reach_new : sched_reachable sched_new
| reach_step s s' : sched_reachable s -> sched_step s s' -> sched_reachable s'.

Lemma sched_new_inv : sched_inv sched_new.
Proof.
  split; [split|]; cbn; try done.
  - intros t Ht. by apply elem_of_nil in Ht.
  - intros i q id Hi Hid. apply (lookup_replicate NUM_PRIORITY_CLASSES []) in Hi as [-> _]. by apply elem_of_nil in Hid.
  - constructor.
Qed.

(** Appending a block whose id is the old counter. *)
Lemma sched_core_append s tcb n :
  sched_core s -> tcb_id tcb = sched_next_id s -> n = sched_next_id s + 1 ->
  let s' := with_tasks (with_next_id s n) (tasks s ++ [tcb]) in
  sched_core s' /\ task_of s' (tcb_id tcb) = Some tcb /\
  (forall id t, task_of s id = Some t -> task_of s' id = Some t) /\
  tcb_id tcb ∉ concat (run_queues s).
Proof.
  intros [Hl Hi Hq Hn] Hid -> s'.
  assert (forall id t, task_of s id = Some t -> id < sched_next_id s) as Hlt.
  { intros id t H. unfold task_of in H. destruct (find_task id (tasks s)) as [[k x]|] eqn:E; [|done].
    apply find_task_id in E as [<- Hx]. by apply Hi. }
  assert (forall id t, task_of s id = Some t -> task_of s' id = Some t) as Hkeep.
  { intros id t H. unfold task_of, s' in *. cbn [tasks with_tasks]. rewrite find_task_app.
    by destruct (find_task id (tasks s)) as [[k x]|]. }
  split_and!; [|  |done|].
  - split; cbn; try done.
    + intros t [Ht|Ht%list_elem_of_singleton]%elem_of_app; [specialize (Hi t Ht); lia|subst t; lia].
    + intros i q id H1 H2. destruct (Hq i q id H1 H2) as (t & Ht & ?). exists t. split; [by apply Hkeep|done].
  - unfold task_of, s'. cbn [tasks with_tasks]. rewrite find_task_app, Z.eqb_refl.
    destruct (find_task (tcb_id tcb) (tasks s)) as [[k x]|] eqn:E; [|done].
    assert (tcb_id tcb < sched_next_id s) by (apply (Hlt _ x); unfold task_of; by rewrite E). lia.
  - rewrite elem_of_queues. intros (i & q & H1 & H2). destruct (Hq i q _ H1 H2) as (t & Ht & _).
    apply Hlt in Ht. lia.
Qed.

Lemma queue_retain_lookup id qs i : queue_retain id qs !! i = filter (fun x => x <> id) <$> qs !! i.
Proof. apply list_lookup_fmap. Qed.

Lemma queue_retain_concat id qs : concat (queue_retain id qs) = filter (fun x => x <> id) (concat qs).
Proof. unfold queue_retain. induction qs as [|q qs IH]; cbn; [done|]. by rewrite filter_app, IH. Qed.

Lemma dequeue_inv s id : sched_inv s -> sched_inv (snd (dequeue id s)).
Proof.
  intros [[Hl Hi Hq Hn] Hc]. set (s1 := with_queues s (queue_retain id (run_queues s))).
  assert (id ∉ concat (run_queues s1)) as Hnot.
  { cbn. rewrite queue_retain_concat, list_elem_of_filter. naive_solver. }
  assert (sched_core s1) as H1.
  { split; cbn; [unfold queue_retain; by rewrite length_map|done| |].
    - intros i q x Hx Hin. rewrite queue_retain_lookup in Hx. destruct (run_queues s !! i) as [q0|] eqn:E; [|done].
      cbn in Hx. injection Hx as <-. apply list_elem_of_filter in Hin as [_ Hin]. by apply (Hq i q0).
    - rewrite queue_retain_concat. by apply NoDup_filter. }
  set (s2 := match find_task id (tasks s1) with
             | Some (i, _) => with_tasks s1 (alter (set_state TsTerminated) i (tasks s1)) | None => s1 end).
  assert (sched_core s2 /\ run_queues s2 = run_queues s1 /\ current s2 = current s /\
          forall x, is_Some (task_of s x) -> is_Some (task_of s2 x)) as (H2 & Hqs & Hcur & Hk).
  { unfold s2. destruct (find_task id (tasks s1)) as [[i t]|] eqn:E; [|by split_and!].
    split_and!; try done; [by eapply sched_core_alter|]. intros x Hx. unfold task_of. cbn [tasks with_tasks].
    rewrite (find_task_alter (set_state TsTerminated) id _ i t) by done. by destruct (x =? id). }
  change (snd (dequeue id s)) with (if bool_decide (current s2 = Some id) then with_current s2 None else s2).
  clearbody s2. case_bool_decide as Hd.
  - destruct H2 as [A1 A2 A3 A4]. split; [by split|done].
  - split; [done|]. intros c Hcc. rewrite Hcur in Hcc. destruct (Hc c Hcc) as [Hs Hni]. split; [by apply Hk|].
    rewrite Hqs. cbn. rewrite queue_retain_concat, list_elem_of_filter. naive_solver.
Qed.

Lemma enqueue_states s id p x :
  is_Some (task_of s id) ->
  tcb_state <$> task_of (snd (enqueue id p s)) x = if x =? id then Some TsRunnable else tcb_state <$> task_of s x.
Proof.
  intros [t Ht]. unfold enqueue, task_of in *. destruct (find_task id (tasks s)) as [[i t']|] eqn:E; [|done].
  cbn [snd tasks with_queues with_tasks].
  rewrite (find_task_alter (fun t => set_priority p (set_state TsRunnable t)) id _ i t') by done.
  by destruct (x =? id).
Qed.

Lemma enqueue_queues s id p :
  sched_core s -> is_Some (task_of s id) ->
  current (snd (enqueue id p s)) = current s /\
  concat (run_queues (snd (enqueue id p s))) ≡ₚ id :: concat (run_queues s).
Proof.
  intros Hc [t Ht]. unfold enqueue, task_of in *. destruct (find_task id (tasks s)) as [[i t']|] eqn:E; [|done].
  split; [done|]. cbn. apply queue_push_perm, Hc.
Qed.

Lemma enqueue_inv s id p :
  sched_inv s -> id ∉ concat (run_queues s) -> current s <> Some id -> sched_inv (snd (enqueue id p s)).
Proof.
  intros [Hcore Hc] Hnot Hcur. unfold enqueue.
  destruct (find_task id (tasks s)) as [[i t]|] eqn:E; [|by split]. cbn [snd].
  set (f := fun t => set_priority p (set_state TsRunnable t)). set (s1 := with_tasks s (alter f i (tasks s))).
  assert (sched_core s1) as H1 by (by apply (sched_core_alter s f id i t)).
  assert (forall x, task_of s1 x = if x =? id then Some (f t) else task_of s x) as Hk.
  { intros x. unfold task_of, s1. cbn [tasks with_tasks]. rewrite (find_task_alter f id _ i t) by done.
    by destruct (x =? id). }
  assert (task_of s1 id = Some (f t)) as Hid by (by rewrite Hk, Z.eqb_refl).
  pose proof (sched_core_push s1 id (f t) p H1 Hid eq_refl eq_refl Hnot) as H2.
  split; [exact H2|]. intros c Hcc. destruct (Hc c Hcc) as [Hs Hni]. split.
  - change (is_Some (task_of s1 c)). rewrite Hk. by destruct (c =? id).
  - cbn. rewrite queue_push_perm by apply Hcore. apply not_elem_of_cons. split; [|done]. intros ->. done.
Qed.

Lemma sched_step_inv s s' : sched_inv s -> sched_step s s' -> sched_inv s'.
Proof.
  intros Hinv Hstep. destruct Hstep as [s s1 id tcb p Ha Hid Hst Hp|s s' r p Hb|s id p Hn Hc|s id|s c st Hc].
  - unfold allocate_task_id in Ha. destruct (add64 (sched_next_id s) 1) as [n|] eqn:E; cbn in Ha; [|done].
    injection Ha as <- <-. apply add64_inv in E as [-> _].
    destruct (sched_core_append s tcb _ (si_core _ Hinv) Hid eq_refl) as (A1 & A2 & A3 & A4).
    split.
    + apply (sched_core_push _ (tcb_id tcb) tcb p A1 A2 Hst Hp A4).
    + intros c Hcc. destruct (si_current _ Hinv c Hcc) as [[t Ht] Hni]. split.
      * exists t. by apply A3.
      * cbn. rewrite queue_push_perm by apply Hinv. apply not_elem_of_cons. split; [|done]. intros ->.
        destruct A4. unfold task_of in Ht. destruct (find_task (tcb_id tcb) (tasks s)) as [[k x]|] eqn:E; [|done].
        apply find_task_id in E as [E Hx]. apply (sc_ids _ (si_core _ Hinv)) in Hx. lia.
  - unfold spawn_bootstrap_task in Hb. destruct (add64 (sched_next_id s) 1) as [n|] eqn:E; cbn in Hb; [|done].
    injection Hb as <- <-. apply add64_inv in E as [-> _].
    set (tcb := {| tcb_id := sched_next_id s; tcb_state := TsRunning; tcb_priority := p; tcb_rsp := 0;
                   tcb_stack_phys := 0; tcb_stack_va := 0 |}).
    destruct (sched_core_append s tcb _ (si_core _ Hinv) eq_refl eq_refl) as ([B1 B2 B3 B4] & A2 & A3 & A4).
    split; [by split|]. intros c [= <-]. split; [by exists tcb|exact A4].
  - by apply enqueue_inv.
  - by apply dequeue_inv.
  - destruct (si_current _ Hinv c Hc) as [[t Ht] Hni].
    destruct (yield_current_cases s c t st (si_core _ Hinv) Ht Hni) as (sw & s' & -> & Hcore & _ & Hk & Hcase).
    cbn [snd]. split; [done|]. intros x Hx. destruct Hcase as [(_ & _ & Hcur & Hq)|(next & Hcur & _ & Hn & Hq & _ & _)].
    + rewrite Hq. split; [|apply not_elem_of_nil]. apply Hk. assert (x = c) as -> by congruence. by exists t.
    + assert (x = next) as -> by congruence. done.
Qed.

Lemma sched_reachable_inv s : sched_reachable s -> sched_inv s.
Proof. induction 1 as [|s s' _ IH Hs]; [apply sched_new_inv|by eapply sched_step_inv]. Qed.

(** ** Round robin within one class *)

Definition preempt_current (s : RoundRobinScheduler) : RoundRobinScheduler :=
  match current s with Some c => snd (preempt c s) | None => s end.

(** The tasks of class [i] in the order they will run, when no higher class
    is ready: the current one, then the queue. *)
Definition rr_state (i : nat) (l : list Z) (s : RoundRobinScheduler) : Prop :=
  sched_inv s /\ exists c q t, l = c :: q /\ current s = Some c /\ task_of s c = Some t /\
    prio_idx (tcb_priority t) = i /\ run_queues s !! i = Some q /\
    forall j, (j < i)%nat -> run_queues s !! j = Some [].

Lemma queue_pop_front_at qs i x q :
  qs !! i = Some (x :: q) -> (forall j, (j < i)%nat -> qs !! j = Some []) ->
  queue_pop_front qs = Some (x, <[i := q]> qs).
Proof.
  revert i. induction qs as [|y qs IH]; intros i Hi Hj; [done|]. destruct i as [|i]; cbn in Hi.
  - injection Hi as ->. done.
  - assert (y = []) as -> by (specialize (Hj 0%nat ltac:(lia)); by injection Hj).
    cbn. rewrite (IH i Hi); [done|]. intros j Hlt. apply (Hj (S j)). lia.
Qed.

Lemma preempt_rotates i c q s : rr_state i (c :: q) s -> rr_state i (q ++ [c]) (preempt_current s).
Proof.
  intros [Hinv (c' & q' & t & [= <- <-] & Hc & Ht & Hp & Hq & Hlow)].
  assert (sched_inv (preempt_current s)) as Hinv'.
  { unfold preempt_current. rewrite Hc. apply (sched_step_inv s); [done|]. by apply step_yield. }
  split; [done|]. unfold preempt_current in *. rewrite Hc in *. unfold preempt, yield_current in *.
  pose proof Ht as Ht'. unfold task_of in Ht'.
  destruct (find_task c (tasks s)) as [[k t0]|] eqn:Ef; cbn in Ht'; [|done]. injection Ht' as ->.
  rewrite bool_decide_eq_true_2 in * by done. unfold pick_next in *. cbn [run_queues with_queues with_tasks] in *.
  assert (queue_push (tcb_priority t) c (run_queues s) !! i = Some (q ++ [c])) as Hpi.
  { rewrite queue_push_lookup, decide_True by done. by rewrite Hq. }
  destruct (q ++ [c]) as [|x l] eqn:Eql; [by destruct q|].
  rewrite (queue_pop_front_at _ i x l Hpi) in *.
  2, 3: intros j Hj; rewrite queue_push_lookup, decide_False by lia; by apply Hlow.
  set (qs' := <[i := l]> (queue_push (tcb_priority t) c (run_queues s))) in *.
  assert (qs' !! i = Some l) as Hqi.
  { apply list_lookup_insert_eq. by eapply lookup_lt_Some. }
  assert (forall j, (j < i)%nat -> qs' !! j = Some []) as Hqj.
  { intros j Hj. unfold qs'. rewrite list_lookup_insert_ne, queue_push_lookup, decide_False by lia. by apply Hlow. }
  assert (exists t', task_of s x = Some t' /\ prio_idx (tcb_priority t') = i) as (tx & Hx & Hpx).
  { assert (x ∈ q ++ [c]) as [Hin|Hin%list_elem_of_singleton]%elem_of_app by (rewrite Eql; left).
    - destruct (sc_queued _ (si_core _ Hinv) i q x Hq Hin) as (t' & H1 & _ & H2). by exists t'.
    - subst x. by exists t. }
  exists x, l. destruct (Z.eqb_spec x c) as [->|Hne].
  - exists (set_state TsRunning (set_state TsRunnable t)). split_and!; try done.
    unfold task_of. cbn [snd tasks with_tasks with_current with_queues].
    assert (find_task c (alter (set_state TsRunnable) k (tasks s)) = Some (k, set_state TsRunnable t)) as Ef1
      by (by rewrite (find_task_alter _ c _ k t), Z.eqb_refl).
    by rewrite (find_task_alter (set_state TsRunning) c _ k _ (fun _ => eq_refl) Ef1), Z.eqb_refl.
  - cbn [tasks with_tasks with_queues] in *.
    assert (find_task x (alter (set_state TsRunnable) k (tasks s)) = find_task x (tasks s)) as Efx.
    { rewrite (find_task_alter _ c _ k t) by done. by rewrite (proj2 (Z.eqb_neq _ _) Hne). }
    rewrite Efx in *. unfold task_of in Hx. destruct (find_task x (tasks s)) as [[kx ty]|] eqn:Ex; [|done].
    cbn in Hx. injection Hx as ->. exists (set_state TsRunning tx). split_and!; try done.
    unfold task_of. cbn [snd tasks with_tasks with_current with_queues].
    by rewrite (find_task_alter (set_state TsRunning) x _ kx _ (fun _ => eq_refl) Efx), Z.eqb_refl.
Qed.

Lemma rr_iter i l s k :
  rr_state i l s -> (k <= length l)%nat -> rr_state i (drop k l ++ take k l) (Nat.iter k preempt_current s).
Proof.
  intros Hs. induction k as [|k IH]; intros Hk; [by rewrite drop_0, take_0, app_nil_r|].
  specialize (IH ltac:(lia)). destruct (lookup_lt_is_Some_2 l k) as [x Hx]; [lia|].
  rewrite (drop_S l x k Hx) in IH. cbn [Nat.iter app] in *.
  apply preempt_rotates in IH. rewrite <- app_assoc in IH. by rewrite (take_S_r l k x Hx).
Qed.

(** ** Theorems *)

(** C22: Scheduler invariant: in every state reachable by spawning, waking,
    terminating and yielding, no task is queued twice, every queued task is
    known, runnable and in the queue of its priority class, the current task
    is not queued, and a yield of the current task with any new state always
    succeeds. *)
Theorem sched_invariant (s : RoundRobinScheduler) (Hs : sched_reachable s) :
  NoDup (concat (run_queues s)) /\
  (forall i q id, run_queues s !! i = Some q -> id ∈ q ->
     exists t, task_of s id = Some t /\ tcb_state t = TsRunnable /\ prio_idx (tcb_priority t) = i) /\
  (forall c, current s = Some c -> c ∉ concat (run_queues s) /\
     forall st, exists sw, fst (yield_current c st s) = Ok sw).
Proof.
  pose proof (sched_reachable_inv s Hs) as [Hcore Hc]. split; [apply Hcore|]. split; [apply Hcore|].
  intros c Hcc. destruct (Hc c Hcc) as [[t Ht] Hni]. split; [done|]. intros st.
  destruct (yield_current_cases s c t st Hcore Ht Hni) as (sw & s' & -> & _). by exists sw.
Qed.

(** Work conservation: yielding the current task of a reachable state
    moves exactly one task from the ready set (the queued tasks, plus the
    yielder when it stays runnable) to the CPU and loses none; only when
    nothing is ready does no switch happen. *)
Theorem yield_conserves_tasks (s : RoundRobinScheduler) (c : Z) (st : TaskState)
    (Hs : sched_reachable s) (Hc : current s = Some c) :
  let ready := concat (run_queues s) ++ (if bool_decide (st = TsRunnable) then [c] else []) in
  let s' := snd (yield_current c st s) in
  (ready = [] -> fst (yield_current c st s) = Ok SwitchNone /\ current s' = Some c /\ concat (run_queues s') = []) /\
  (ready <> [] -> exists next, current s' = Some next /\ ready ≡ₚ next :: concat (run_queues s')).
Proof.
  intros ready s'. pose proof (sched_reachable_inv s Hs) as [Hcore Hcur].
  destruct (Hcur c Hc) as [[t Ht] Hni].
  destruct (yield_current_cases s c t st Hcore Ht Hni) as (sw & s1 & E & _ & _ & _ & Hcase).
  unfold s'. rewrite E. cbn [fst snd]. destruct Hcase as [(Hr & -> & Hcu & Hq)|(next & Hcu & _ & _ & _ & Hp & _)].
  - split; [|done]. intros _. by rewrite Hcu.
  - split; [|by exists next]. intros Hr. change (ready ≡ₚ next :: concat (run_queues s1)) in Hp.
    rewrite Hr in Hp. by apply Permutation_nil_l in Hp.
Qed.

(** Strict priority, first come first served: [pick_next] returns the head
    of the first non-empty class, every higher class being empty, and removes
    only that entry; it returns nothing exactly when every queue is empty. *)
Theorem pick_next_highest (s : RoundRobinScheduler) :
  match pick_next s with
  | (Some t, s') => exists i q, run_queues s !! i = Some (t :: q) /\
      (forall j, (j < i)%nat -> run_queues s !! j = Some []) /\ s' = with_queues s (<[i := q]> (run_queues s))
  | (None, s') => s' = s /\ concat (run_queues s) = []
  end.
Proof.
  unfold pick_next. destruct (queue_pop_front (run_queues s)) as [[t qs]|] eqn:E.
  - apply queue_pop_front_some in E as (i & q & Hi & Hj & ->). by exists i, q.
  - split; [done|]. by apply queue_pop_front_none.
Qed.

(** C38: Round-robin fairness: when the current task's class is the highest
    ready one, [k] timer preemptions bring to the CPU the [k]-th task of that
    class in queue order, and a full turn restores the initial order; so each
    of the [n] ready tasks of the class runs once in every [n] quanta. *)
Theorem preempt_round_robin (s : RoundRobinScheduler) (c : Z) (q : list Z) (t : TaskControlBlock)
    (Hs : sched_reachable s) (Hc : current s = Some c) (Ht : task_of s c = Some t)
    (Hq : run_queues s !! prio_idx (tcb_priority t) = Some q)
    (Hlow : forall j, (j < prio_idx (tcb_priority t))%nat -> run_queues s !! j = Some []) :
  (forall k x, (c :: q) !! k = Some x -> current (Nat.iter k preempt_current s) = Some x) /\
  current (Nat.iter (S (length q)) preempt_current s) = Some c /\
  run_queues (Nat.iter (S (length q)) preempt_current s) !! prio_idx (tcb_priority t) = Some q.
Proof.
  assert (rr_state (prio_idx (tcb_priority t)) (c :: q) s) as Hr.
  { split; [by apply sched_reachable_inv|]. by exists c, q, t. }
  split; [|].
  - intros k x Hx. destruct (rr_iter _ _ _ k Hr) as [_ (c' & q' & t' & El & Hcur & _)].
    { apply lookup_lt_Some in Hx. lia. }
    rewrite (drop_S _ _ _ Hx) in El. injection El as <- _. done.
  - destruct (rr_iter _ _ _ (S (length q)) Hr) as [_ (c' & q' & t' & El & Hcur & _ & _ & Hqq & _)]; [done|].
    rewrite drop_ge, take_ge in El by done. cbn in El. injection El as <- <-. done.
Qed.

(** ** Kernel stack slots *)

Lemma allocate_stack_slot_spec s :
  0 <= next_kernel_stack_slot s < 2 ^ 64 ->
  allocate_stack_slot s =
    if next_kernel_stack_slot s <? 2 ^ 30
    then Some (KERNEL_STACK_VA_BASE + next_kernel_stack_slot s * KERNEL_STACK_STRIDE + KERNEL_STACK_SIZE,
               with_slot s (next_kernel_stack_slot s + 1))
    else None.
Proof.
  intros Hn. unfold allocate_stack_slot, checked_mul64, checked_add64.
  unfold KERNEL_STACK_VA_BASE, KERNEL_STACK_VA_END, KERNEL_STACK_STRIDE, KERNEL_STACK_SIZE.
  set (n := next_kernel_stack_slot s) in *. destruct (Z.ltb_spec n (2 ^ 30)) as [Hlt|Hge].
  - repeat (rewrite (proj2 (Z.ltb_lt _ _)) by lia; cbn [mbind option_bind]).
    rewrite (proj2 (Z.ltb_ge _ _)) by lia. done.
  - destruct (Z.ltb_spec (n * 0x2000) (2 ^ 64)); [|done]. cbn [mbind option_bind].
    destruct (Z.ltb_spec (0xFFFFC00000000000 + n * 0x2000) (2 ^ 64)); [|done]. cbn [mbind option_bind].
    destruct (Z.ltb_spec (0xFFFFC00000000000 + n * 0x2000 + 0x2000) (2 ^ 64)); [|done]. cbn [mbind option_bind].
    rewrite (proj2 (Z.ltb_lt _ _)) by lia. done.
Qed.

(** Stack isolation: an allocated kernel stack lies in the reserved window
    with its guard page, a later allocation lies strictly above it with an
    unmapped guard page between the two, and the allocator hands out exactly
    2^30 stacks before reporting exhaustion. *)
Theorem stack_slots_isolated (s1 s2 : RoundRobinScheduler)
    (H1 : 0 <= next_kernel_stack_slot s1) (H12 : next_kernel_stack_slot s1 < next_kernel_stack_slot s2)
    (H2 : next_kernel_stack_slot s2 < 2 ^ 64) :
  (is_Some (allocate_stack_slot s2) <-> next_kernel_stack_slot s2 < 2 ^ 30) /\
  forall va1 s1' va2 s2',
    allocate_stack_slot s1 = Some (va1, s1') -> allocate_stack_slot s2 = Some (va2, s2') ->
    next_kernel_stack_slot s1' = next_kernel_stack_slot s1 + 1 /\
    KERNEL_STACK_VA_BASE <= va1 - KERNEL_STACK_SIZE /\
    va1 + KERNEL_STACK_SIZE <= va2 - KERNEL_STACK_SIZE /\
    va2 + KERNEL_STACK_SIZE <= KERNEL_STACK_VA_END.
Proof.
  rewrite !allocate_stack_slot_spec by lia. split.
  - destruct (Z.ltb_spec (next_kernel_stack_slot s2) (2 ^ 30)); split; intros Hx; [done|by eexists|by destruct Hx|lia].
  - intros va1 s1' va2 s2' E1 E2.
    destruct (Z.ltb_spec (next_kernel_stack_slot s1) (2 ^ 30)); [|done].
    destruct (Z.ltb_spec (next_kernel_stack_slot s2) (2 ^ 30)); [|done].
    injection E1 as <- <-. injection E2 as <- <-. cbn [next_kernel_stack_slot with_slot].
    unfold KERNEL_STACK_VA_BASE, KERNEL_STACK_VA_END, KERNEL_STACK_STRIDE, KERNEL_STACK_SIZE. lia.
Qed.

(** ** Work stealing *)

(** All tasks queued on all CPUs. *)
Definition all_queued (t : cpu_table) : list Z := concat (map (@concat Z) t).

Lemma all_queued_insert t i qs qs' x :
  t !! i = Some qs -> concat qs ≡ₚ x :: concat qs' -> all_queued t ≡ₚ x :: all_queued (<[i := qs']> t).
Proof.
  unfold all_queued. revert i. induction t as [|y t IH]; intros [|i] Hi Hp; [done|done| |].
  - injection Hi as ->. cbn. by rewrite Hp.
  - cbn. change (concat y ++ concat (map (@concat Z) t) ≡ₚ x :: concat y ++ concat (map (@concat Z) (<[i:=qs']> t))).
    rewrite (IH i Hi Hp). by rewrite Permutation_middle.
Qed.

Lemma all_queued_nil t : all_queued t = [] <-> forall i qs, t !! i = Some qs -> concat qs = [].
Proof.
  unfold all_queued. induction t as [|y t IH]; cbn; [split; [intros _ i qs ?; done|done]|]. split.
  - intros [H1 H2]%app_nil [|i] qs Hi; cbn in Hi; [by injection Hi as <-|]. by eapply (proj1 IH).
  - intros H. rewrite (H 0%nat y eq_refl), (proj2 IH); [done|]. intros i qs Hi. by apply (H (S i)).
Qed.

Lemma steal_scan_spec cpu vs t :
  match steal_scan cpu vs t with
  | (Some x, t') => all_queued t ≡ₚ x :: all_queued t'
  | (None, t') => t' = t /\ forall v qs, v ∈ vs -> v <> cpu -> t !! Z.to_nat v = Some qs -> concat qs = []
  end.
Proof.
  induction vs as [|v vs IH]; cbn [steal_scan].
  - split; [done|]. intros v qs Hv. by apply elem_of_nil in Hv.
  - destruct (Z.eqb_spec v cpu) as [->|Hne].
    + destruct (steal_scan cpu vs t) as [[x|] t']; [done|]. destruct IH as [-> IH]. split; [done|].
      intros w qs [->|Hw]%elem_of_cons; [done|]. by apply IH.
    + unfold steal_from. destruct (t !! Z.to_nat v) as [qs|] eqn:Ev.
      * destruct (queue_steal_back qs) as [[x qs']|] eqn:Es.
        { eapply all_queued_insert; [done|]. by apply queue_steal_back_perm. }
        apply queue_steal_back_none in Es. destruct (steal_scan cpu vs t) as [[x|] t']; [done|].
        destruct IH as [-> IH]. split; [done|].
        intros w qs' [->|Hw]%elem_of_cons; [intros _; congruence|]. by apply IH.
      * destruct (steal_scan cpu vs t) as [[x|] t']; [done|]. destruct IH as [-> IH]. split; [done|].
        intros w qs' [->|Hw]%elem_of_cons; [intros _; congruence|]. by apply IH.
Qed.

(** Work stealing: picking for a CPU fails exactly when every CPU's queues
    are empty; otherwise it removes exactly the returned task from the table,
    and when the CPU has local work the task is its own highest-priority
    head and no other CPU is touched. *)
Theorem stealing_exact (cpu : Z) (t : cpu_table)
    (Ht : length t = NUM_CPU_SLOTS) (Hcpu : 0 <= cpu < Z.of_nat NUM_CPU_SLOTS) :
  match pop_for_cpu_with_stealing cpu t with
  | (None, t') => t' = t /\ all_queued t = []
  | (Some x, t') => all_queued t ≡ₚ x :: all_queued t' /\
      forall qs, t !! Z.to_nat cpu = Some qs -> concat qs <> [] ->
        exists i q, qs !! i = Some (x :: q) /\ (forall j, (j < i)%nat -> qs !! j = Some []) /\
          t' = <[Z.to_nat cpu := <[i := q]> qs]> t
  end.
Proof.
  unfold pop_for_cpu_with_stealing, pop_for_cpu.
  destruct (lookup_lt_is_Some_2 t (Z.to_nat cpu)) as [qs Hqs]; [lia|]. rewrite Hqs.
  destruct (queue_pop_front qs) as [[x qs']|] eqn:Ep.
  - split; [eapply all_queued_insert; [done|by apply queue_pop_front_perm]|].
    intros qs0 [= <-] _. apply queue_pop_front_some in Ep as (i & q & Hi & Hj & ->). by exists i, q.
  - apply queue_pop_front_none in Ep.
    pose proof (steal_scan_spec cpu (seqZ 0 (Z.of_nat NUM_CPU_SLOTS)) t) as Hs.
    destruct (steal_scan cpu _ t) as [[x|] t']; [split; [done|intros qs0 [= <-]; done]|].
    destruct Hs as [-> Hs]. split; [done|]. apply all_queued_nil. intros i qs0 Hi.
    destruct (decide (i = Z.to_nat cpu)) as [->|Hne]; [congruence|].
    apply (Hs (Z.of_nat i)); [|lia|by rewrite Nat2Z.id].
    apply elem_of_seqZ. apply lookup_lt_Some in Hi. lia.
Qed.

(** ** Witnesses *)

Definition demo_tcb (id : Z) (p : PriorityClass) : TaskControlBlock :=
  {| tcb_id := id; tcb_state := TsRunnable; tcb_priority := p; tcb_rsp := 0; tcb_stack_phys := 0; tcb_stack_va := 0 |}.
Definition demo_s0 : RoundRobinScheduler :=
  match spawn_bootstrap_task PInteractive sched_new with Done (_, s) => s | Panicked => sched_new end.
Definition demo_spawn (id : Z) (p : PriorityClass) (s : RoundRobinScheduler) : RoundRobinScheduler :=
  match allocate_task_id s with Done (_, s1) => register_process (demo_tcb id p) p s1 | Panicked => s end.
Definition demo_sched : RoundRobinScheduler := demo_spawn 4 PIdle (demo_spawn 3 PInteractive (demo_spawn 2 PInteractive demo_s0)).

Lemma demo_spawn_step id p s : sched_next_id s = id -> id + 1 < 2 ^ 64 -> sched_step s (demo_spawn id p s).
Proof.
  intros <- H. unfold demo_spawn, allocate_task_id. rewrite add64_done by done. cbn [mbind run_bind].
  apply (step_spawn s (with_next_id s (sched_next_id s + 1)) (sched_next_id s) (demo_tcb (sched_next_id s) p) p); try done.
  unfold allocate_task_id. by rewrite add64_done.
Qed.

Lemma demo_sched_reachable : sched_reachable demo_sched.
Proof.
  assert (sched_reachable demo_s0) as H0.
  { eapply reach_step; [apply reach_new|]. by apply (step_bootstrap sched_new demo_s0 (Ok 1) PInteractive). }
  do 3 (eapply reach_step; [|apply demo_spawn_step; [reflexivity|lia]]). exact H0.
Qed.

Lemma sched_invariant_witness : NoDup (concat (run_queues demo_sched)).
Proof. apply (sched_invariant demo_sched demo_sched_reachable). Defined.

Lemma yield_conserves_tasks_witness :
  exists next, current (snd (yield_current 1 TsBlockedOnIpc demo_sched)) = Some next.
Proof.
  destruct (yield_conserves_tasks demo_sched 1 TsBlockedOnIpc demo_sched_reachable eq_refl) as [_ H].
  destruct H as (next & Hn & _); [vm_compute; congruence|]. exists next. exact Hn.
Defined.

Lemma preempt_round_robin_witness :
  current (Nat.iter 2 preempt_current demo_sched) = Some 3 /\
  current (Nat.iter 3 preempt_current demo_sched) = Some 1.
Proof.
  assert (forall j, (j < 2)%nat -> run_queues demo_sched !! j = Some []) as Hlow.
  { intros [|[|j]] Hj; [reflexivity|reflexivity|lia]. }
  destruct (preempt_round_robin demo_sched 1 [2; 3]
              {| tcb_id := 1; tcb_state := TsRunning; tcb_priority := PInteractive; tcb_rsp := 0;
                 tcb_stack_phys := 0; tcb_stack_va := 0 |} demo_sched_reachable) as [H1 [H2 _]];
    [vm_compute; reflexivity..|exact Hlow|].
  split; [apply (H1 2%nat); reflexivity|exact H2].
Defined.

Lemma stack_slots_isolated_witness :
  is_Some (allocate_stack_slot (with_slot sched_new 1)) <-> 1 < 2 ^ 30.
Proof. apply (stack_slots_isolated sched_new (with_slot sched_new 1)); vm_compute; congruence. Defined.

Lemma stealing_exact_witness :
  match pop_for_cpu_with_stealing 3 (snd (enqueue_on_cpu 5 42 PIdle cpu_table_new)) with
  | (None, t') => t' = snd (enqueue_on_cpu 5 42 PIdle cpu_table_new)
  | (Some x, t') => all_queued (snd (enqueue_on_cpu 5 42 PIdle cpu_table_new)) ≡ₚ x :: all_queued t'
  end.
Proof.
  pose proof (stealing_exact 3 (snd (enqueue_on_cpu 5 42 PIdle cpu_table_new))) as H.
  assert (length (snd (enqueue_on_cpu 5 42 PIdle cpu_table_new)) = NUM_CPU_SLOTS) as Hl by (vm_compute; reflexivity).
  assert (0 <= 3 < Z.of_nat NUM_CPU_SLOTS) as Hc by (vm_compute; split; congruence).
  specialize (H Hl Hc). destruct (pop_for_cpu_with_stealing 3 _) as [[x|] t']; apply H.
Defined.
