(* ===== verification/IpcSched.v ===== *)
(** * Blocking IPC over the scheduler (omni-kernel: bare_metal/syscall_entry.rs)

    The [IpcSend], [IpcReceive] and [IpcDestroyChannel] handlers: they loop on
    the registry, park the calling task as [BlockedOnIpc] when told to block
    and put woken tasks back on their run queue.  A parked task resumes its
    loop when the scheduler dispatches it again; [k_pend] records the call
    each task is in.  Copies to and from user memory are not modelled: a call
    carries its envelope.

    The kernel runs these paths on one CPU without preemption, so one loop
    iteration of the current task is one step. *)

From Stdlib Require Import ZArith Lia.
From stdpp Require Import base numbers list gmap.
From S2P Require Import Prelude Str CapScope CapToken Ipc IrqTable Sched.

(** ** State *)

(** The call a task is executing. *)
Inductive ksyscall :=
| KSend (env : MessageEnvelope)
| KRecv (ch dst_cap : Z) (blocking : bool).

Record ksys := {
  k_reg : KernelIpcRegistry;
  k_sched : RoundRobinScheduler;
  k_pend : gmap Z ksyscall;
}.

Definition SYSCALL_ERROR : Z := u64_max.

Section Handlers.
(** The process control block of a task: its principal and its priority. *)
Context (principal_of : Z -> KernelPrincipal) (prio_of : Z -> PriorityClass).

(** ** Operations *)

Definition park_until_woken (t : Z) (s : RoundRobinScheduler) : RoundRobinScheduler :=
  snd (yield_current t TsBlockedOnIpc s).

Definition unpark (t : Z) (s : RoundRobinScheduler) : RoundRobinScheduler := snd (enqueue t (prio_of t) s).

(** One iteration of the loop of [ipc_send] by the current task: [Some] is
    the value the call returns, [None] means parked. *)
Definition send_iter (c : Z) (env : MessageEnvelope) (r : KernelIpcRegistry) (s : RoundRobinScheduler)
    : option Z * KernelIpcRegistry * RoundRobinScheduler :=
  let '(res, r') := ipc_send env c (principal_of c) r in
  match res with
  | Ok WakeNone => (Some 0, r', s)
  | Ok (Wake t) => (Some 0, r', unpark t s)
  | Ok (Block _) => (None, r', park_until_woken c s)
  | Err _ => (Some SYSCALL_ERROR, r', s)
  end.

(** One iteration of the loop of [ipc_receive]; the returned value is the
    number of payload bytes copied to the caller's buffer of [dst_cap] bytes. *)
Definition recv_iter (c ch dst_cap : Z) (blocking : bool) (r : KernelIpcRegistry) (s : RoundRobinScheduler)
    : option Z * KernelIpcRegistry * RoundRobinScheduler :=
  let '(res, r') := ipc_receive ch c (principal_of c) blocking r in
  match res with
  | Ok (Some env, wake) =>
      (Some (Z.min (Z.of_nat (length (env_payload env))) dst_cap), r', match wake with Wake t => unpark t s | _ => s end)
  | Ok (None, Block _) => (None, r', park_until_woken c s)
  | Ok (None, _) => (Some 0, r', s)
  | Err _ => (Some SYSCALL_ERROR, r', s)
  end.

Definition call_iter (c : Z) (call : ksyscall) (r : KernelIpcRegistry) (s : RoundRobinScheduler)
    : option Z * KernelIpcRegistry * RoundRobinScheduler :=
  match call with
  | KSend env => send_iter c env r s
  | KRecv ch cap b => recv_iter c ch cap b r s
  end.

(** [IpcDestroyChannel]: no waiter is woken. *)
Definition ipc_destroy_handler (c ch : Z) (r : KernelIpcRegistry) : Z * KernelIpcRegistry :=
  let '(res, r') := destroy_channel ch c r in
  (match res with Ok _ => 0 | Err _ => SYSCALL_ERROR end, r').

(** ** Transitions *)

(** Run one iteration and record whether the task is still in the call. *)
Definition after_iter (c : Z) (call : ksyscall) (k : ksys) : ksys :=
  let '(res, r', s') := call_iter c call (k_reg k) (k_sched k) in
  {| k_reg := r'; k_sched := s';
     k_pend := match res with Some _ => delete c (k_pend k) | None => <[c := call]> (k_pend k) end |}.

(** [idle] is the idle task, which makes no call. *)
Inductive kstep (idle : Z) : ksys -> ksys -> Prop :=
| ks_call k c call :
    current (k_sched k) = Some c -> c <> idle ->
    (k_pend k !! c = None \/ k_pend k !! c = Some call) -> kstep idle k (after_iter c call k)
| ks_preempt k c :
    current (k_sched k) = Some c ->
    kstep idle k {| k_reg := k_reg k; k_sched := snd (preempt c (k_sched k)); k_pend := k_pend k |}
| ks_create k o pol st rt :
    0 <= queue_depth pol -> next_id (k_reg k) < u64_max ->
    kstep idle k {| k_reg := snd (create_channel o pol st rt provider_placeholder (k_reg k));
                    k_sched := k_sched k; k_pend := k_pend k |}.

(** ** Invariant *)

(** [t] waits on channel [ch], to send ([true]) or to receive ([false]). *)
Definition waiters (d : bool) (c : Channel) : list Z := if d then waiters_send c else waiters_recv c.
Definition waiting (r : KernelIpcRegistry) (t ch : Z) (d : bool) : Prop :=
  exists c, channels r !! ch = Some c /\ t ∈ waiters d c.

Definition blocked (s : RoundRobinScheduler) (t : Z) : Prop := tcb_state <$> task_of s t = Some TsBlockedOnIpc.

Definition call_on (call : ksyscall) (ch : Z) (d : bool) : Prop :=
  match call with KSend env => ch = env_channel env /\ d = true | KRecv c _ _ => ch = c /\ d = false end.

Record kinv (idle : Z) (k : ksys) : Prop := {
  ki_sched : sched_inv (k_sched k);
  ki_reg : registry_wf (k_reg k);
  ki_wait_blocked : forall t ch d, waiting (k_reg k) t ch d -> blocked (k_sched k) t /\ current (k_sched k) <> Some t;
  ki_wait_unique : forall t ch d ch' d', waiting (k_reg k) t ch d -> waiting (k_reg k) t ch' d' -> ch = ch' /\ d = d';
  ki_wait_nodup : forall ch c d, channels (k_reg k) !! ch = Some c -> NoDup (waiters d c);
  ki_blocked : forall t, blocked (k_sched k) t -> exists ch d call,
    waiting (k_reg k) t ch d /\ k_pend k !! t = Some call /\ call_on call ch d;
  ki_current : exists c, current (k_sched k) = Some c /\ ~ blocked (k_sched k) c;
  ki_idle : current (k_sched k) = Some idle \/ idle ∈ concat (run_queues (k_sched k));
}.

(** ** Lemmas *)

Lemma queued_not_blocked s t : sched_core s -> t ∈ concat (run_queues s) -> ~ blocked s t.
Proof.
  intros Hc (i & q & Hi & Hin)%elem_of_queues Hb. destruct (sc_queued _ Hc i q t Hi Hin) as (tcb & Ht & Hst & _).
  unfold blocked in Hb. rewrite Ht in Hb. cbn in Hb. congruence.
Qed.

(** The waiters after replacing one channel. *)
Lemma waiting_update r ch c' t x d :
  waiting (update_channel r ch c') t x d <->
  (x = ch /\ t ∈ waiters d c') \/ (x <> ch /\ waiting r t x d).
Proof.
  unfold waiting. cbn. split.
  - intros (c & Hc & Hin). apply lookup_insert_Some in Hc as [[<- <-]|[Hne Hc]]; [by left|right; split; [done|by exists c]].
  - intros [[-> Hin]|[Hne (c & Hc & Hin)]].
    + exists c'. by rewrite lookup_insert_eq.
    + exists c. by rewrite lookup_insert_ne.
Qed.

(** A step that leaves the waiters and the scheduler alone keeps the
    invariant. *)
Lemma kinv_same idle k r' p' c :
  kinv idle k -> current (k_sched k) = Some c -> registry_wf r' ->
  (forall t ch d, waiting r' t ch d <-> waiting (k_reg k) t ch d) ->
  (forall ch c' d, channels r' !! ch = Some c' -> NoDup (waiters d c')) ->
  (forall t, t <> c -> p' !! t = k_pend k !! t) ->
  kinv idle {| k_reg := r'; k_sched := k_sched k; k_pend := p' |}.
Proof.
  intros [K1 K2 K3 K4 K5 K6 K7 K8] Hc Hr Hw Hn Hp. split; cbn; try done.
  - intros t ch d Hx%Hw. by eapply K3.
  - intros t ch d ch' d' Hx%Hw Hy%Hw. by eapply K4.
  - intros t Hb. destruct (K6 t Hb) as (ch & d & call & Hx & Hpp & Hon). exists ch, d, call.
    split; [by apply Hw|]. split; [|done]. rewrite Hp; [done|]. intros ->.
    destruct K7 as (c0 & Hc0 & Hnb). rewrite Hc in Hc0. injection Hc0 as <-. done.
Qed.

(** Waking the head [t] of a wait queue: it leaves the queue and becomes
    runnable. *)
Lemma kinv_wake idle k r' p' c t ch d :
  kinv idle k -> current (k_sched k) = Some c -> registry_wf r' ->
  waiting (k_reg k) t ch d ->
  (forall x y e, waiting r' x y e <-> waiting (k_reg k) x y e /\ x <> t) ->
  (forall y c' e, channels r' !! y = Some c' -> NoDup (waiters e c')) ->
  (forall x, x <> c -> p' !! x = k_pend k !! x) ->
  kinv idle {| k_reg := r'; k_sched := unpark t (k_sched k); k_pend := p' |}.
Proof.
  intros [K1 K2 K3 K4 K5 K6 K7 K8] Hc Hr Ht Hw Hn Hp.
  destruct (K3 t ch d Ht) as [Hbt Hct].
  assert (t ∉ concat (run_queues (k_sched k))) as Hnq.
  { intros Hq. by apply (queued_not_blocked _ t (si_core _ K1)) in Hq. }
  assert (is_Some (task_of (k_sched k) t)) as Hst.
  { unfold blocked in Hbt. destruct (task_of (k_sched k) t); [by eexists|done]. }
  destruct (enqueue_queues (k_sched k) t (prio_of t) (si_core _ K1) Hst) as [Hcur Hqs].
  assert (forall x, blocked (unpark t (k_sched k)) x <-> blocked (k_sched k) x /\ x <> t) as Hbl.
  { intros x. unfold blocked, unpark. rewrite enqueue_states by done.
    destruct (Z.eqb_spec x t) as [->|]; [split; [done|by intros [_ ?]]|]. tauto. }
  split; cbn; try done.
  - by apply enqueue_inv.
  - intros x y e [Hx Hxt]%Hw. destruct (K3 x y e Hx) as [Hb Hcx]. split; [by apply Hbl|]. unfold unpark. congruence.
  - intros x y e y' e' [Hx _]%Hw [Hy _]%Hw. by eapply K4.
  - intros x [Hb Hxt]%Hbl. destruct (K6 x Hb) as (y & e & call & Hx & Hpp & Hon). exists y, e, call.
    split; [by apply Hw|]. split; [|done]. rewrite Hp; [done|]. intros ->.
    destruct K7 as (c0 & Hc0 & Hnb). rewrite Hc in Hc0. injection Hc0 as <-. done.
  - destruct K7 as (c0 & Hc0 & Hnb). exists c0. unfold unpark. rewrite Hcur. split; [done|].
    intros [Hb _]%Hbl. done.
  - unfold unpark. rewrite Hcur, Hqs. destruct K8 as [|Hid]; [by left|]. right. by apply elem_of_cons; right.
Qed.

(** Yielding the current task when something is ready: the next task runs, the
    yielder has its new state, every other state is kept. *)
Lemma yield_next s c st :
  sched_inv s -> current s = Some c ->
  (st = TsRunnable \/ concat (run_queues s) <> []) ->
  exists next, let s' := snd (yield_current c st s) in
    sched_inv s' /\ current s' = Some next /\ (next = c /\ st = TsRunnable \/ next ∈ concat (run_queues s)) /\
    (forall x, x ∈ concat (run_queues s) -> x = next \/ x ∈ concat (run_queues s')) /\
    (st = TsRunnable -> c = next \/ c ∈ concat (run_queues s')) /\
    forall x, tcb_state <$> task_of s' x =
      if x =? next then Some TsRunning else if x =? c then Some st else tcb_state <$> task_of s x.
Proof.
  intros Hinv Hc Hr. destruct (si_current _ Hinv c Hc) as [[t Ht] Hni].
  assert (sched_inv (snd (yield_current c st s))) as Hinv' by (eapply sched_step_inv; [exact Hinv|by apply step_yield]).
  destruct (yield_current_cases s c t st (si_core _ Hinv) Ht Hni) as (sw & s' & E & _ & _ & _ & Hcase).
  rewrite E in *. cbn [snd] in *. destruct Hcase as [(Hrd & _)|(next & Hcur & _ & _ & _ & Hp & Hst)].
  { exfalso. apply app_nil in Hrd as [H1 H2]. destruct Hr as [->|Hr]; [|done].
    by rewrite bool_decide_eq_true_2 in H2. }
  exists next. split_and!; try done.
  - assert (next ∈ concat (run_queues s) ++ (if bool_decide (st = TsRunnable) then [c] else [])) as Hin.
    { rewrite Hp. left. }
    apply elem_of_app in Hin as [|Hin]; [by right|left]. case_bool_decide; [|by apply elem_of_nil in Hin].
    by apply list_elem_of_singleton in Hin.
  - intros x Hx. apply elem_of_cons. rewrite <- Hp. apply elem_of_app. by left.
  - intros ->. apply elem_of_cons. rewrite <- Hp, bool_decide_eq_true_2 by done. apply elem_of_app. right. left.
Qed.

(** Preemption keeps the invariant. *)
Lemma kinv_preempt idle k c :
  kinv idle k -> current (k_sched k) = Some c ->
  kinv idle {| k_reg := k_reg k; k_sched := snd (preempt c (k_sched k)); k_pend := k_pend k |}.
Proof.
  intros [K1 K2 K3 K4 K5 K6 K7 K8] Hc.
  destruct (yield_next (k_sched k) c TsRunnable K1 Hc (or_introl eq_refl)) as (next & Hi & Hcur & Hin & Hq & Hcq & Hst).
  fold (preempt c (k_sched k)) in *. set (s' := snd (preempt c (k_sched k))) in *.
  destruct K7 as (c0 & Hc0 & Hnb). rewrite Hc in Hc0. injection Hc0 as <-.
  assert (~ blocked (k_sched k) next) as Hnn.
  { destruct Hin as [[-> _]|Hin]; [done|]. by apply queued_not_blocked; [apply K1|]. }
  assert (forall x, blocked s' x <-> blocked (k_sched k) x) as Hbl.
  { intros x. unfold blocked. rewrite Hst. destruct (Z.eqb_spec x next) as [->|]; [split; [done|by intros ?]|].
    destruct (Z.eqb_spec x c) as [->|]; [split; [done|by intros ?]|done]. }
  split; cbn; try done.
  - intros t ch d Hw. destruct (K3 t ch d Hw) as [Hb _]. split; [by apply Hbl|]. rewrite Hcur. intros [= ->]. done.
  - intros t Hb%Hbl. by apply K6.
  - exists next. split; [done|]. by rewrite Hbl.
  - destruct K8 as [Hid|Hid].
    + rewrite Hc in Hid. injection Hid as ->. destruct (Hcq eq_refl) as [->|]; [by left|by right].
    + destruct (Hq idle Hid) as [->|]; [by left|by right].
Qed.

(** Parking the current task on a wait queue keeps the invariant. *)
Lemma kinv_park idle k r' c call ch d :
  kinv idle k -> current (k_sched k) = Some c -> c <> idle -> registry_wf r' -> call_on call ch d ->
  (forall x y e, waiting r' x y e <-> waiting (k_reg k) x y e \/ (x = c /\ y = ch /\ e = d)) ->
  (forall y c' e, channels r' !! y = Some c' -> NoDup (waiters e c')) ->
  kinv idle {| k_reg := r'; k_sched := park_until_woken c (k_sched k); k_pend := <[c := call]> (k_pend k) |}.
Proof.
  intros [K1 K2 K3 K4 K5 K6 K7 K8] Hc Hci Hr Hon Hw Hn.
  assert (idle ∈ concat (run_queues (k_sched k))) as Hidq by (destruct K8 as [Hid|]; [congruence|done]).
  assert (concat (run_queues (k_sched k)) <> []) as Hne by (intros E; rewrite E in Hidq; by apply elem_of_nil in Hidq).
  destruct (yield_next (k_sched k) c TsBlockedOnIpc K1 Hc (or_intror Hne)) as (next & Hi & Hcur & Hin & Hq & _ & Hst).
  fold (park_until_woken c (k_sched k)) in *. set (s' := park_until_woken c (k_sched k)) in *.
  destruct K7 as (c0 & Hc0 & Hnb). rewrite Hc in Hc0. injection Hc0 as <-.
  destruct Hin as [[_ ?]|Hin]; [done|].
  assert (~ blocked (k_sched k) next) as Hnn by (apply queued_not_blocked; [apply K1|done]).
  assert (next <> c) as Hnc. { intros ->. by apply (si_current _ K1 c Hc) in Hin. }
  assert (forall x, blocked s' x <-> blocked (k_sched k) x \/ x = c) as Hbl.
  { intros x. unfold blocked. rewrite Hst. destruct (Z.eqb_spec x next) as [->|]; [split; [done|by intros [?|?]]|].
    destruct (Z.eqb_spec x c) as [->|]; [split; [by right|done]|]. split; [by left|by intros [?|?]]. }
  split; cbn; try done.
  - intros t y e [Hx|(-> & _)]%Hw.
    + destruct (K3 t y e Hx) as [Hb _]. split; [apply Hbl; by left|]. rewrite Hcur. by intros [= ->].
    + split; [apply Hbl; by right|]. rewrite Hcur. congruence.
  - intros t y e y' e' [Hx|(-> & -> & ->)]%Hw [Hy|(E & -> & ->)]%Hw; try done; [by eapply K4| |].
    + subst t. by destruct (K3 c y e Hx) as [? _].
    + by destruct (K3 c y' e' Hy) as [? _].
  - intros t [Hb| ->]%Hbl.
    + destruct (K6 t Hb) as (y & e & cl & Hx & Hpp & Hcl). exists y, e, cl. split; [apply Hw; by left|].
      split; [|done]. rewrite lookup_insert_ne; [done|]. intros <-. done.
    + exists ch, d, call. split; [apply Hw; by right|]. by rewrite lookup_insert_eq.
  - exists next. split; [done|]. rewrite Hbl. by intros [?|?].
  - destruct (Hq idle Hidq) as [->|]; [by left|by right].
Qed.

(** Updating the queue of a channel and releasing the head of one of its wait
    queues. *)
Lemma kinv_release idle k c ch ci ci' d :
  kinv idle k -> current (k_sched k) = Some c -> channels (k_reg k) !! ch = Some ci ->
  registry_wf (update_channel (k_reg k) ch ci') ->
  waiters d ci' = tail (waiters d ci) -> waiters (negb d) ci' = waiters (negb d) ci ->
  kinv idle {| k_reg := update_channel (k_reg k) ch ci';
               k_sched := match fst (pop_waiter (waiters d ci)) with Wake t => unpark t (k_sched k) | _ => k_sched k end;
               k_pend := delete c (k_pend k) |}.
Proof.
  intros Hk Hc Hch Hr Hd Hnd.
  assert (forall y x e, channels (update_channel (k_reg k) ch ci') !! y = Some x -> NoDup (waiters e x)) as Hn.
  { intros y x e. cbn. rewrite lookup_insert_Some. intros [[<- <-]|[_ Hx]]; [|by eapply ki_wait_nodup].
    pose proof (ki_wait_nodup _ _ Hk ch ci e Hch) as Hnn. destruct (decide (e = d)) as [->|Hne].
    - rewrite Hd. destruct (waiters d ci); [done|]. by apply NoDup_cons in Hnn as [_ ?].
    - replace e with (negb d) in * by (by destruct e, d). by rewrite Hnd. }
  assert (forall x, x <> c -> delete c (k_pend k) !! x = k_pend k !! x) as Hp by (intros; by apply lookup_delete_ne).
  destruct (waiters d ci) as [|t ws] eqn:Ew; cbn [pop_waiter fst tail] in *.
  - apply (kinv_same idle k _ _ c); try done. intros x y e. rewrite waiting_update. split.
    + intros [[-> Hin]|[_ ?]]; [|done]. exists ci. split; [done|].
      destruct (decide (e = d)) as [->|Hne]; [by rewrite Hd in Hin; apply elem_of_nil in Hin|].
      replace e with (negb d) in * by (by destruct e, d). by rewrite <- Hnd.
    + intros Hw. destruct (decide (y = ch)) as [->|]; [left; split; [done|]|by right].
      destruct Hw as (c2 & Hc2 & Hin). rewrite Hch in Hc2. injection Hc2 as <-.
      destruct (decide (e = d)) as [->|Hne]; [by rewrite Ew in Hin; apply elem_of_nil in Hin|].
      replace e with (negb d) in * by (by destruct e, d). by rewrite Hnd.
  - assert (waiting (k_reg k) t ch d) as Ht by (exists ci; rewrite Ew; split; [done|left]).
    pose proof (ki_wait_nodup _ _ Hk ch ci d Hch) as Hnn. rewrite Ew in Hnn. apply NoDup_cons in Hnn as [Htn _].
    apply (kinv_wake idle k _ _ c t ch d); try done. intros x y e. rewrite waiting_update. split.
    + intros [[-> Hin]|[Hne Hw]].
      * destruct (decide (e = d)) as [->|Hne].
        { rewrite Hd in Hin. split; [exists ci; rewrite Ew; split; [done|by right]|]. by intros ->. }
        replace e with (negb d) in * by (by destruct e, d). rewrite Hnd in Hin.
        assert (waiting (k_reg k) x ch (negb d)) as Hw by (by exists ci). split; [done|]. intros ->.
        destruct (ki_wait_unique _ _ Hk _ _ _ _ _ Hw Ht) as [_ E]. by destruct d.
      * split; [done|]. intros ->. by destruct (ki_wait_unique _ _ Hk _ _ _ _ _ Hw Ht) as [? _].
    + intros [Hw Hxt]. destruct (decide (y = ch)) as [->|]; [left; split; [done|]|by right].
      destruct Hw as (c2 & Hc2 & Hin). rewrite Hch in Hc2. injection Hc2 as <-.
      destruct (decide (e = d)) as [->|Hne].
      * rewrite Ew in Hin. apply elem_of_cons in Hin as [|Hin]; [done|]. by rewrite Hd.
      * replace e with (negb d) in * by (by destruct e, d). by rewrite Hnd.
Qed.

(** Appending the current task to a wait queue and parking it. *)
Lemma kinv_block idle k c call ch ci ci' d :
  kinv idle k -> current (k_sched k) = Some c -> c <> idle -> channels (k_reg k) !! ch = Some ci ->
  registry_wf (update_channel (k_reg k) ch ci') -> call_on call ch d ->
  waiters d ci' = waiters d ci ++ [c] -> waiters (negb d) ci' = waiters (negb d) ci ->
  kinv idle {| k_reg := update_channel (k_reg k) ch ci'; k_sched := park_until_woken c (k_sched k);
               k_pend := <[c := call]> (k_pend k) |}.
Proof.
  intros Hk Hc Hci Hch Hr Hon Hd Hnd.
  assert (forall y e, ~ waiting (k_reg k) c y e) as Hcw.
  { intros y e Hw. by destruct (ki_wait_blocked _ _ Hk c y e Hw). }
  apply (kinv_park idle k _ c call ch d); try done.
  - intros x y e. rewrite waiting_update. split.
    + intros [[-> Hin]|[_ ?]]; [|by left]. destruct (decide (e = d)) as [->|Hne].
      * rewrite Hd in Hin. apply elem_of_app in Hin as [Hin|Hin%list_elem_of_singleton]; [left; by exists ci|by right].
      * replace e with (negb d) in * by (by destruct e, d). rewrite Hnd in Hin. left. by exists ci.
    + intros [Hw|(-> & -> & ->)]; [|left; split; [done|]; rewrite Hd; apply elem_of_app; right; left].
      destruct (decide (y = ch)) as [->|]; [left; split; [done|]|by right].
      destruct Hw as (c2 & Hc2 & Hin). rewrite Hch in Hc2. injection Hc2 as <-.
      destruct (decide (e = d)) as [->|Hne]; [rewrite Hd; apply elem_of_app; by left|].
      replace e with (negb d) in * by (by destruct e, d). by rewrite Hnd.
  - intros y x e. cbn. rewrite lookup_insert_Some. intros [[<- <-]|[_ Hx]]; [|by eapply ki_wait_nodup].
    pose proof (ki_wait_nodup _ _ Hk ch ci e Hch) as Hnn. destruct (decide (e = d)) as [->|Hne].
    + rewrite Hd. apply NoDup_app. split; [done|]. split; [|apply NoDup_singleton].
      intros x Hx ->%list_elem_of_singleton. apply (Hcw ch d). by exists ci.
    + replace e with (negb d) in * by (by destruct e, d). by rewrite Hnd.
Qed.

Lemma kinv_quiet idle k c : kinv idle k -> current (k_sched k) = Some c ->
  kinv idle {| k_reg := k_reg k; k_sched := k_sched k; k_pend := delete c (k_pend k) |}.
Proof.
  intros Hk Hc. apply (kinv_same idle k _ _ c); try done; [apply Hk|by eapply ki_wait_nodup|].
  intros t Ht. by apply lookup_delete_ne.
Qed.

Lemma kinv_call idle k c call :
  kinv idle k -> current (k_sched k) = Some c -> c <> idle -> kinv idle (after_iter c call k).
Proof.
  intros Hk Hc Hci. pose proof (ki_reg _ _ Hk) as Hr. unfold after_iter, call_iter.
  destruct call as [env|ch cap b]; [unfold send_iter|unfold recv_iter].
  - pose proof (ipc_send_wf env c (principal_of c) (k_reg k) Hr) as Hw'.
    destruct (channels (k_reg k) !! env_channel env) as [ci|] eqn:Hch.
    2:{ unfold ipc_send. rewrite Hch. by apply kinv_quiet. }
    pose proof (ipc_send_cases env c (principal_of c) (k_reg k) ci Hch (cw_id _ _ (rg_chan _ Hr _ _ Hch))) as Hs.
    cbn zeta in Hs.
    assert (pop_waiter (waiters_recv ci) = (fst (pop_waiter (waiters_recv ci)), tail (waiters_recv ci))) as Hpop
      by (by destruct (waiters_recv ci)).
    assert (forall x, fst (pop_waiter (waiters_recv ci)) <> Block x) as Hnb by (apply pop_waiter_not_block).
    rewrite Hpop in Hs. rewrite Hs in *. clear Hs Hpop.
    destruct (denies (send_subject ci) (principal_of c)); [by apply kinv_quiet|].
    assert (forall q, registry_wf (update_channel (k_reg k) (env_channel env) (set_queues ci q (waiters_send ci) (tail (waiters_recv ci)))) ->
      kinv idle (let '(res, r', s') :=
         match fst (pop_waiter (waiters_recv ci)) with
         | WakeNone => (Some 0, update_channel (k_reg k) (env_channel env) (set_queues ci q (waiters_send ci) (tail (waiters_recv ci))), k_sched k)
         | Wake t => (Some 0, update_channel (k_reg k) (env_channel env) (set_queues ci q (waiters_send ci) (tail (waiters_recv ci))), unpark t (k_sched k))
         | Block _ => (None, update_channel (k_reg k) (env_channel env) (set_queues ci q (waiters_send ci) (tail (waiters_recv ci))), park_until_woken c (k_sched k))
         end in {| k_reg := r'; k_sched := s'; k_pend := match res with Some _ => delete c (k_pend k) | None => <[c := KSend env]> (k_pend k) end |})) as Hgo.
    { intros q Hq. pose proof (kinv_release idle k c (env_channel env) ci _ false Hk Hc Hch Hq eq_refl eq_refl) as Hrel.
      cbn [waiters] in Hrel. destruct (fst (pop_waiter (waiters_recv ci))) as [|t|x]; [done|done|by destruct (Hnb x)]. }
    destruct (queue_depth (ch_policy ci) <=? depth ci); [destruct (backpressure (ch_policy ci))|]; cbn [snd] in Hw'.
    + by apply (kinv_block idle k c (KSend env) (env_channel env) ci _ true).
    + by apply kinv_quiet.
    + by apply Hgo.
    + by apply Hgo.
  - pose proof (ipc_receive_wf ch c (principal_of c) b (k_reg k) Hr) as Hw'. unfold ipc_receive in *.
    destruct (channels (k_reg k) !! ch) as [ci|] eqn:Hch; [|by apply kinv_quiet].
    destruct (denies (recv_subject ci) (principal_of c)); [by apply kinv_quiet|].
    destruct (queue ci) as [|e q].
    + destruct b; [|by apply kinv_quiet]. cbn [snd] in Hw'.
      by apply (kinv_block idle k c (KRecv ch cap true) ch ci _ false).
    + assert (pop_waiter (waiters_send ci) = (fst (pop_waiter (waiters_send ci)), tail (waiters_send ci))) as Hpop
        by (by destruct (waiters_send ci)).
      rewrite Hpop in *. cbn [snd] in Hw'.
      exact (kinv_release idle k c ch ci _ true Hk Hc Hch Hw' eq_refl eq_refl).
Qed.

Lemma kinv_create idle k c o pol st rt :
  kinv idle k -> current (k_sched k) = Some c -> 0 <= queue_depth pol -> next_id (k_reg k) < u64_max ->
  kinv idle {| k_reg := snd (create_channel o pol st rt provider_placeholder (k_reg k));
               k_sched := k_sched k; k_pend := k_pend k |}.
Proof.
  intros Hk Hc Hd Hmax. pose proof (ki_reg _ _ Hk) as Hr.
  pose proof (create_channel_wf o pol st rt provider_placeholder (k_reg k) Hd Hr) as Hw'.
  destruct (create_channel_cases o pol st rt provider_placeholder (k_reg k)) as [[e E]|[Hq (ss & rs & E)]]; rewrite E in *.
  { by destruct k. }
  assert (channels (k_reg k) !! next_id (k_reg k) = None) as Hfresh.
  { destruct (channels (k_reg k) !! next_id (k_reg k)) as [x|] eqn:Ex; [|done].
    destruct (rg_ids _ Hr (next_id (k_reg k))) as [_ Hlt]; [by eexists|]. specialize (Hlt Hmax). lia. }
  set (nc := channel_new (next_id (k_reg k)) pol o ss rs).
  assert (channels (snd (install_channel pol o ss rs (k_reg k))) = <[next_id (k_reg k) := nc]> (channels (k_reg k))) as Hchs.
  { unfold install_channel. by destruct (checked_add64 _ _). }
  assert (forall e, waiters e nc = []) as Hnil by (by intros []).
  apply (kinv_same idle k _ _ c); try done.
  - intros t ch d. unfold waiting. rewrite Hchs. split; intros (x & Hx & Hin).
    + apply lookup_insert_Some in Hx as [[<- <-]|[_ Hx]]; [by rewrite Hnil in Hin; apply elem_of_nil in Hin|by exists x].
    + exists x. rewrite lookup_insert_ne; [done|]. congruence.
  - intros ch x d. rewrite Hchs, lookup_insert_Some. intros [[<- <-]|[_ Hx]]; [rewrite Hnil; constructor|by eapply ki_wait_nodup].
Qed.

Lemma kstep_inv idle k k' : kinv idle k -> kstep idle k k' -> kinv idle k'.
Proof.
  intros Hk Hs. destruct Hs as [k c call Hc Hci _|k c Hc|k o pol st rt Hd Hm].
  - by apply kinv_call.
  - by apply kinv_preempt.
  - destruct (ki_current _ _ Hk) as (c & Hc & _). by apply (kinv_create idle k c).
Qed.

(** A booted system: an empty registry, nobody blocked or in a call, the idle
    task ready. *)
Record kboot (idle : Z) (k : ksys) : Prop := {
  kb_reg : k_reg k = registry_new;
  kb_sched : sched_reachable (k_sched k);
  kb_pend : k_pend k = ∅;
  kb_ready : forall t, ~ blocked (k_sched k) t;
  kb_current : exists c, current (k_sched k) = Some c;
  kb_idle : current (k_sched k) = Some idle \/ idle ∈ concat (run_queues (k_sched k));
}.

Lemma kboot_inv idle k : kboot idle k -> kinv idle k.
Proof.
  intros [B1 B2 B3 B4 [c B5] B6].
  assert (forall t ch d, ~ waiting (k_reg k) t ch d) as Hw.
  { intros t ch d (x & Hx & _). rewrite B1 in Hx. cbn in Hx. done. }
  split; try done.
  - by apply sched_reachable_inv.
  - rewrite B1. apply registry_new_wf.
  - intros t ch d H. by apply Hw in H.
  - intros t ch d ch' d' H. by apply Hw in H.
  - intros ch x d Hx. rewrite B1 in Hx. cbn in Hx. done.
  - intros t H. by apply B4 in H.
  - by exists c.
Qed.

Lemma kreach_inv idle k k' : kboot idle k -> rtc (kstep idle) k k' -> kinv idle k'.
Proof.
  intros Hb Hr. apply kboot_inv in Hb. induction Hr as [|k1 k2 k3 Hs _ IH]; [done|]. apply IH. by eapply kstep_inv.
Qed.

(** ** Theorems *)

(** C2: No lost wake-up: however the tasks of a booted system interleave their
    blocking sends and receives, channel creations and timer preemptions, a
    task that is blocked on IPC is always on the wait queue of exactly the
    channel and direction of the call it is in; a task on a wait queue is
    blocked, neither running nor ready, and on no other wait queue; some task
    that is not blocked is always running. *)
Theorem ipc_no_lost_wakeup (idle : Z) (k0 k : ksys) (Hb : kboot idle k0) (Hr : rtc (kstep idle) k0 k) :
  (forall t, blocked (k_sched k) t -> exists ch d call,
     waiting (k_reg k) t ch d /\ k_pend k !! t = Some call /\ call_on call ch d) /\
  (forall t ch d, waiting (k_reg k) t ch d ->
     blocked (k_sched k) t /\ current (k_sched k) <> Some t /\ t ∉ concat (run_queues (k_sched k)) /\
     forall ch' d', waiting (k_reg k) t ch' d' -> ch' = ch /\ d' = d) /\
  exists c, current (k_sched k) = Some c /\ ~ blocked (k_sched k) c.
Proof.
  destruct (kreach_inv idle k0 k Hb Hr) as [K1 K2 K3 K4 K5 K6 K7 K8]. split; [done|]. split; [|done].
  intros t ch d Hw. destruct (K3 t ch d Hw) as [Hbt Hc]. split_and!; try done.
  - intros Hq. by apply (queued_not_blocked _ t (si_core _ K1)) in Hq.
  - intros ch' d' Hw'. by apply (K4 t).
Qed.

(** A send wakes: when the current task's send finds room on a channel
    whose first parked receiver is [t], the message is queued, the call
    returns 0 and [t] is back on a run queue, runnable. *)
Theorem ipc_send_wakes_receiver (idle : Z) (k0 k : ksys) (c t : Z) (env : MessageEnvelope) (ci : Channel) (ws : list Z)
    (Hb : kboot idle k0) (Hr : rtc (kstep idle) k0 k) (Hc : current (k_sched k) = Some c)
    (Hch : channels (k_reg k) !! env_channel env = Some ci) (Hden : denies (send_subject ci) (principal_of c) = false)
    (Hroom : depth ci < queue_depth (ch_policy ci)) (Hws : waiters_recv ci = t :: ws) :
  exists r' s', send_iter c env (k_reg k) (k_sched k) = (Some 0, r', s') /\
    t ∈ concat (run_queues s') /\ tcb_state <$> task_of s' t = Some TsRunnable /\
    exists ci', channels r' !! env_channel env = Some ci' /\
      queue ci' = queue ci ++ [stamp env (env_channel env) c] /\ waiters_recv ci' = ws.
Proof.
  destruct (kreach_inv idle k0 k Hb Hr) as [K1 K2 K3 _ _ _ _ _]. unfold send_iter.
  pose proof (ipc_send_cases env c (principal_of c) (k_reg k) ci Hch (cw_id _ _ (rg_chan _ K2 _ _ Hch))) as Hs.
  rewrite Hws in Hs. cbn [pop_waiter] in Hs. cbn zeta in Hs. rewrite Hden, (proj2 (Z.leb_gt _ _) Hroom) in Hs. rewrite Hs.
  do 2 eexists. split; [done|].
  destruct (K3 t (env_channel env) false) as [Hbt _]; [exists ci; cbn [waiters]; rewrite Hws; split; [done|left]|].
  assert (is_Some (task_of (k_sched k) t)) as Hst.
  { unfold blocked in Hbt. destruct (task_of (k_sched k) t); [by eexists|done]. }
  destruct (enqueue_queues (k_sched k) t (prio_of t) (si_core _ K1) Hst) as [_ Hq].
  split; [unfold unpark; rewrite Hq; left|]. split; [unfold unpark; by rewrite enqueue_states, Z.eqb_refl|].
  eexists. cbn. rewrite lookup_insert_eq. done.
Qed.

(** Two paths strand a waiter.  A task [t] parked as first receiver of a
    channel bound to a live interrupt vector loses its place on the wait queue
    when the interrupt fires, while [irq_notify] wakes nobody: [t] stays
    blocked and waits on nothing.  The same happens to every task parked on a
    channel its owner destroys. *)
Theorem ipc_waiter_stranded (idle : Z) (k0 k : ksys) (t : Z) (Hb : kboot idle k0) (Hr : rtc (kstep idle) k0 k) :
  (forall tbl v b ci ws, irq_wf tbl -> is_u8 v -> irq_at tbl v = Some b -> masked b = false ->
     channels (k_reg k) !! channel_id b = Some ci -> denies (send_subject ci) principal_ZERO = false ->
     depth ci < queue_depth (ch_policy ci) -> waiters_recv ci = t :: ws ->
     exists r', irq_notify v tbl (k_reg k) = Done r' /\ blocked (k_sched k) t /\ forall ch d, ~ waiting r' t ch d) /\
  (forall ch ci d, channels (k_reg k) !! ch = Some ci -> t ∈ waiters d ci ->
     fst (ipc_destroy_handler (ch_owner ci) ch (k_reg k)) = 0 /\ blocked (k_sched k) t /\
     forall ch' d', ~ waiting (snd (ipc_destroy_handler (ch_owner ci) ch (k_reg k))) t ch' d').
Proof.
  pose proof (kreach_inv idle k0 k Hb Hr) as Hk. pose proof Hk as [K1 K2 K3 K4 K5 _ _ _]. split.
  - intros tbl v b ci ws Ht Hv Hat Hm Hch Hden Hroom Hws.
    assert (waiting (k_reg k) t (channel_id b) false) as Hw
      by (exists ci; cbn [waiters]; rewrite Hws; split; [done|left]).
    unfold irq_notify. rewrite irq_lookup_at by done. cbn [mbind run_bind]. rewrite Hat, Hm.
    pose proof (ipc_send_cases (irq_envelope v b) 0 principal_ZERO (k_reg k) ci Hch (cw_id _ _ (rg_chan _ K2 _ _ Hch))) as Hs.
    rewrite Hws in Hs. cbn [pop_waiter] in Hs. cbn zeta in Hs. rewrite Hden, (proj2 (Z.leb_gt _ _) Hroom) in Hs. rewrite Hs.
    eexists. split; [done|]. split; [by eapply K3|]. intros ch d. cbn [snd]. rewrite waiting_update.
    pose proof (K5 _ _ false Hch) as Hnd. cbn [waiters] in Hnd. rewrite Hws in Hnd. apply NoDup_cons in Hnd as [Hnin _].
    intros [[-> Hin]|[Hne Hw']]; [|by destruct (K4 _ _ _ _ _ Hw' Hw)]. destruct d; [|done].
    assert (waiting (k_reg k) t (channel_id b) true) as Hw' by (by exists ci).
    by destruct (K4 _ _ _ _ _ Hw' Hw).
  - intros ch ci d Hch Hin. assert (waiting (k_reg k) t ch d) as Hw by (by exists ci).
    unfold ipc_destroy_handler, destroy_channel. rewrite Hch, Z.eqb_refl. cbn [negb fst snd].
    split; [done|]. split; [by eapply K3|]. intros ch' d' (x & Hx & Hix). cbn in Hx.
    apply lookup_delete_Some in Hx as [Hne Hx]. assert (waiting (k_reg k) t ch' d') as Hw' by (by exists x).
    by destruct (K4 _ _ _ _ _ Hw Hw').
Qed.
End Handlers.

(** ** Witnesses *)

Definition demo_princ (_ : Z) : KernelPrincipal := principal_ZERO.
Definition demo_prio (_ : Z) : PriorityClass := PInteractive.

(** Tasks 1 (running), 2, 3 and the idle task 4; channel 1 is created, then
    task 1 blocks receiving on it. *)
Definition demo_k0 : ksys := {| k_reg := registry_new; k_sched := demo_sched; k_pend := ∅ |}.
Definition demo_k1 : ksys :=
  {| k_reg := snd (create_channel 2 (demo_policy BpBlock) None None provider_placeholder registry_new);
     k_sched := demo_sched; k_pend := ∅ |}.
Definition demo_k2 : ksys := after_iter demo_princ demo_prio 1 (KRecv 1 64 true) demo_k1.

Lemma demo_k0_boot : kboot 4 demo_k0.
Proof.
  split; try done.
  - exact demo_sched_reachable.
  - intros t Ht. unfold blocked, task_of in Ht. cbn [k_sched demo_k0] in Ht.
    destruct (find_task t (tasks demo_sched)) as [[i x]|] eqn:E; [|done]. cbn in Ht.
    apply find_task_id in E as [_ Hin]. vm_compute in Hin.
    repeat (apply elem_of_cons in Hin as [->|Hin]; [done|]). by apply elem_of_nil in Hin.
  - by exists 1.
  - right. vm_compute. do 2 right. left.
Qed.

Lemma demo_k2_reach : rtc (kstep demo_princ demo_prio 4) demo_k0 demo_k2.
Proof.
  eapply rtc_l; [apply (ks_create _ _ 4 demo_k0 2 (demo_policy BpBlock) None None); vm_compute; congruence|].
  apply rtc_once. apply (ks_call _ _ 4 demo_k1 1 (KRecv 1 64 true)); [reflexivity|lia|by left].
Qed.

Lemma ipc_no_lost_wakeup_witness :
  exists c, current (k_sched demo_k2) = Some c /\ ~ blocked (k_sched demo_k2) c.
Proof. apply (ipc_no_lost_wakeup demo_princ demo_prio 4 demo_k0 demo_k2 demo_k0_boot demo_k2_reach). Defined.

Definition demo_ci : Channel :=
  set_queues (channel_new 1 (demo_policy BpBlock) 2 None None) [] [] [1].

Lemma ipc_send_wakes_receiver_witness :
  exists r' s', send_iter demo_princ demo_prio 2 (demo_env 9) (k_reg demo_k2) (k_sched demo_k2) = (Some 0, r', s') /\
    1 ∈ concat (run_queues s').
Proof.
  destruct (ipc_send_wakes_receiver demo_princ demo_prio 4 demo_k0 demo_k2 2 1 (demo_env 9) demo_ci []
              demo_k0_boot demo_k2_reach) as (r' & s' & H1 & H2 & _); [vm_compute; reflexivity..|].
  exists r', s'. split; [exact H1|exact H2].
Defined.

Lemma ipc_waiter_stranded_witness :
  fst (ipc_destroy_handler 2 1 (k_reg demo_k2)) = 0 /\ blocked (k_sched demo_k2) 1.
Proof.
  destruct (ipc_waiter_stranded demo_princ demo_prio 4 demo_k0 demo_k2 1 demo_k0_boot demo_k2_reach) as [_ H].
  destruct (H 1 demo_ci false) as (H1 & H2 & _); [vm_compute; reflexivity|left|]. split; [exact H1|exact H2].
Defined.
