(* ===== verification/ProcTable.v ===== *)
(** * Process table (omni-kernel: process_table.rs)

    Parent/child links, exit codes and reaping ([waitpid]).  Entries live in a
    map keyed by task id; a process that has exited stays as a zombie until
    its parent reaps it. *)

From Stdlib Require Import ZArith Lia Sorted.
From stdpp Require Import base numbers list gmap sorting.
From S2P Require Import Prelude Str CapScope.

(** ** Data *)

Record ProcessEntry := {
  pe_id : Z;
  pe_parent : option Z;
  pe_children : list Z;
  pe_exit_code : option Z;
  pe_cwd : str;
  pe_name : str;
}.

Record ProcessTable := { procs : gmap Z ProcessEntry }.

(** ** Operations *)

Definition proc_table_new : ProcessTable := {| procs := ∅ |}.

Definition set_children (cs : list Z) (e : ProcessEntry) : ProcessEntry :=
  {| pe_id := pe_id e; pe_parent := pe_parent e; pe_children := cs; pe_exit_code := pe_exit_code e;
     pe_cwd := pe_cwd e; pe_name := pe_name e |}.
Definition set_exit (code : Z) (e : ProcessEntry) : ProcessEntry :=
  {| pe_id := pe_id e; pe_parent := pe_parent e; pe_children := pe_children e; pe_exit_code := Some code;
     pe_cwd := pe_cwd e; pe_name := pe_name e |}.

Definition proc_register (id : Z) (parent : option Z) (name : str) (t : ProcessTable) : ProcessTable :=
  let m := <[id := {| pe_id := id; pe_parent := parent; pe_children := []; pe_exit_code := None;
                      pe_cwd := [47]; pe_name := name |}]> (procs t) in
  {| procs := match parent with
              | None => m
              | Some p => alter (fun e => set_children (pe_children e ++ [id]) e) p m
              end |}.

Definition record_exit (id code : Z) (t : ProcessTable) : option Z * ProcessTable :=
  match procs t !! id with
  | None => (None, t)
  | Some e => (pe_parent e, {| procs := <[id := set_exit code e]> (procs t) |})
  end.

(** The first listed child that is present and has exited. *)
Fixpoint first_exited (m : gmap Z ProcessEntry) (ids : list Z) : option (Z * Z) :=
  match ids with
  | [] => None
  | c :: ids =>
      match e ← m !! c; pe_exit_code e with
      | Some code => Some (c, code)
      | None => first_exited m ids
      end
  end.

Definition reap_child (parent : Z) (t : ProcessTable) : option (Z * Z) * ProcessTable :=
  match procs t !! parent with
  | None => (None, t)
  | Some pe =>
      match first_exited (procs t) (merge_sort Z.le (pe_children pe)) with
      | None => (None, t)
      | Some (c, code) =>
          (Some (c, code),
           {| procs := alter (fun e => set_children (filter (fun id => id <> c) (pe_children e)) e) parent
                         (delete c (procs t)) |})
      end
  end.

Definition proc_get (id : Z) (t : ProcessTable) : option ProcessEntry := procs t !! id.

(** [get_mut] lends a mutable reference to one entry (only tests use it). *)
Definition proc_get_mut (id : Z) (f : ProcessEntry -> ProcessEntry) (t : ProcessTable) : option ProcessEntry * ProcessTable :=
  match procs t !! id with
  | None => (None, t)
  | Some e => (Some (f e), {| procs := <[id := f e]> (procs t) |})
  end.

Definition get_cwd (id : Z) (t : ProcessTable) : option str := pe_cwd <$> procs t !! id.

Definition set_cwd (id : Z) (cwd : str) (t : ProcessTable) : bool * ProcessTable :=
  match procs t !! id with
  | None => (false, t)
  | Some e => (true, {| procs := <[id := {| pe_id := pe_id e; pe_parent := pe_parent e; pe_children := pe_children e;
                                            pe_exit_code := pe_exit_code e; pe_cwd := cwd; pe_name := pe_name e |}]>
                                  (procs t) |})
  end.

Definition proc_remove (id : Z) (t : ProcessTable) : bool * ProcessTable :=
  (bool_decide (is_Some (procs t !! id)), {| procs := delete id (procs t) |}).

(** ** Sequences of operations *)

Inductive proc_op :=
| PoRegister (id : Z) (parent : option Z) (name : str)
| PoExit (id code : Z)
| PoReap (parent : Z)
| PoCwd (id : Z) (cwd : str)
| PoRemove (id : Z).

(** The pairs handed out by [reap_child], with the reaping parent. *)
Definition proc_step (op : proc_op) (t : ProcessTable) : list (Z * (Z * Z)) * ProcessTable :=
  match op with
  | PoRegister id p n => ([], proc_register id p n t)
  | PoExit id code => ([], snd (record_exit id code t))
  | PoReap p => let '(r, t') := reap_child p t in
                (match r with Some x => [(p, x)] | None => [] end, t')
  | PoCwd id cwd => ([], snd (set_cwd id cwd t))
  | PoRemove id => ([], snd (proc_remove id t))
  end.

Fixpoint proc_run (ops : list proc_op) (t : ProcessTable) : list (Z * (Z * Z)) * ProcessTable :=
  match ops with
  | [] => ([], t)
  | op :: ops =>
      let '(r, t1) := proc_step op t in
      let '(rs, t2) := proc_run ops t1 in
      (r ++ rs, t2)
  end.

(** The ids registered by a sequence. *)
Definition registered (ops : list proc_op) : list Z :=
  omap (fun op => match op with PoRegister id _ _ => Some id | _ => None end) ops.

(** ** Lemmas *)

Lemma first_exited_some m ids c code :
  first_exited m ids = Some (c, code) ->
  exists e l1 l2, ids = l1 ++ c :: l2 /\ m !! c = Some e /\ pe_exit_code e = Some code /\
    forall x ex, x ∈ l1 -> m !! x = Some ex -> pe_exit_code ex = None.
Proof.
  induction ids as [|y ids IH]; cbn; [done|]. destruct (m !! y) as [e|] eqn:Ey; cbn.
  - destruct (pe_exit_code e) as [k|] eqn:Ee.
    + intros [= <- <-]. exists e, [], ids. split_and!; try done. intros x ex Hx. by apply elem_of_nil in Hx.
    + intros H. destruct (IH H) as (e' & l1 & l2 & -> & H1 & H2 & H3). exists e', (y :: l1), l2.
      split_and!; try done. intros x ex [->|Hx]%elem_of_cons Hm; [congruence|eauto].
  - intros H. destruct (IH H) as (e' & l1 & l2 & -> & H1 & H2 & H3). exists e', (y :: l1), l2.
    split_and!; try done. intros x ex [->|Hx]%elem_of_cons Hm; [congruence|eauto].
Qed.

Lemma first_exited_none m ids :
  first_exited m ids = None <-> forall x e, x ∈ ids -> m !! x = Some e -> pe_exit_code e = None.
Proof.
  induction ids as [|y ids IH]; cbn.
  - split; [|done]. intros _ x e Hx. by apply elem_of_nil in Hx.
  - destruct (m !! y) as [e|] eqn:Ey; cbn; [destruct (pe_exit_code e) eqn:Ee|].
    + split; [done|]. intros H. specialize (H y e ltac:(left) Ey). congruence.
    + rewrite IH. split; [intros H x ex [->|Hx]%elem_of_cons; [congruence|eauto]|].
      intros H x ex Hx. apply H. by right.
    + rewrite IH. split; [intros H x ex [->|Hx]%elem_of_cons; [congruence|eauto]|].
      intros H x ex Hx. apply H. by right.
Qed.

Lemma reap_child_some p t c code t' :
  reap_child p t = (Some (c, code), t') ->
  exists pe e, procs t !! p = Some pe /\ c ∈ pe_children pe /\ procs t !! c = Some e /\
    pe_exit_code e = Some code /\ procs t' !! c = None /\
    (forall x ex, x ∈ pe_children pe -> procs t !! x = Some ex -> is_Some (pe_exit_code ex) -> c <= x) /\
    (forall x, x <> c -> procs t' !! x =
       if x =? p then Some (set_children (filter (fun id => id <> c) (pe_children pe)) pe) else procs t !! x).
Proof.
  unfold reap_child. destruct (procs t !! p) as [pe|] eqn:Ep; [|done].
  destruct (first_exited _ _) as [[c' code']|] eqn:Ef; [|done]. intros [= <- <- <-].
  apply first_exited_some in Ef as (e & l1 & l2 & Es & He & Hc & Hl). exists pe, e.
  pose proof (merge_sort_Permutation Z.le (pe_children pe)) as Hperm.
  pose proof (StronglySorted_merge_sort Z.le (pe_children pe)) as Hs. rewrite Es in Hperm, Hs.
  split_and!; try done.
  - rewrite <- Hperm. apply elem_of_app. right. left.
  - cbn. rewrite lookup_alter. case_decide; [subst|]; by rewrite lookup_delete_eq.
  - intros x ex Hx Hex [k Hk]. rewrite <- Hperm in Hx. apply elem_of_app in Hx as [Hx|[->|Hx]%elem_of_cons].
    + rewrite (Hl x ex Hx Hex) in Hk. done.
    + lia.
    + apply StronglySorted_app_1_r, StronglySorted_inv in Hs as [_ Hs]. rewrite Forall_forall in Hs. by apply Hs.
  - intros x Hx. cbn. destruct (Z.eqb_spec x p) as [->|Hne].
    + by rewrite lookup_alter_eq, lookup_delete_ne, Ep.
    + by rewrite lookup_alter_ne, lookup_delete_ne.
Qed.

(** The table against the operations already done ([h]) and still to come
    ([ops]): recorded exit codes and parents come from past operations,
    children lists agree with recorded parents, future ids are fresh. *)
Record pt_inv (t : ProcessTable) (h ops : list proc_op) : Prop := {
  pi_exit : forall c e code, procs t !! c = Some e -> pe_exit_code e = Some code -> PoExit c code ∈ h;
  pi_parent : forall c e p, procs t !! c = Some e -> pe_parent e = Some p ->
    exists n, PoRegister c (Some p) n ∈ h;
  pi_link : forall p pe c e, procs t !! p = Some pe -> c ∈ pe_children pe -> procs t !! c = Some e ->
    pe_parent e = Some p;
  pi_fresh : forall id, id ∈ registered ops ->
    procs t !! id = None /\ forall p pe, procs t !! p = Some pe -> id ∉ pe_children pe;
  pi_nodup : NoDup (registered ops);
}.

Lemma registered_cons op ops :
  registered (op :: ops) = match op with PoRegister id _ _ => id :: registered ops | _ => registered ops end.
Proof. by destruct op. Qed.

Lemma pt_inv_shrink t t' h op ops :
  pt_inv t h (op :: ops) -> (forall id p n, op <> PoRegister id p n) ->
  (forall x e', procs t' !! x = Some e' -> exists e, procs t !! x = Some e /\ pe_parent e' = pe_parent e /\
     (forall c, c ∈ pe_children e' -> c ∈ pe_children e) /\
     (pe_exit_code e' = pe_exit_code e \/ exists code, pe_exit_code e' = Some code /\ op = PoExit x code)) ->
  pt_inv t' (h ++ [op]) ops.
Proof.
  intros [He Hp Hl Hf Hn] Hop Hsub.
  assert (registered (op :: ops) = registered ops) as Hreg.
  { rewrite registered_cons. destruct op; try done. by destruct (Hop id parent name). }
  rewrite Hreg in *. split; [| | | |done].
  - intros c e code Hc Hcode. destruct (Hsub c e Hc) as (e0 & H0 & _ & _ & [Hx|(k & Hx & ->)]).
    + apply elem_of_app. left. eapply He; [done|congruence].
    + apply elem_of_app. right. apply list_elem_of_singleton. congruence.
  - intros c e p Hc Hpp. destruct (Hsub c e Hc) as (e0 & H0 & Hpar & _).
    destruct (Hp c e0 p H0) as [n Hn']; [congruence|]. exists n. apply elem_of_app. by left.
  - intros p pe c e Hpp Hin Hc. destruct (Hsub p pe Hpp) as (p0 & Hp0 & _ & Hch & _).
    destruct (Hsub c e Hc) as (e0 & He0 & Hpar & _). rewrite Hpar. by eapply Hl; [exact Hp0|apply Hch|exact He0].
  - intros id Hid. destruct (Hf id Hid) as [H1 H2]. split.
    + destruct (procs t' !! id) as [e|] eqn:E; [|done]. destruct (Hsub id e E) as (e0 & H0 & _). congruence.
    + intros p pe Hpp Hin. destruct (Hsub p pe Hpp) as (p0 & Hp0 & _ & Hch & _). by apply (H2 p p0 Hp0), Hch.
Qed.

Lemma proc_register_lookup id parent n t x e :
  procs (proc_register id parent n t) !! x = Some e ->
  (x = id /\ pe_parent e = parent /\ pe_exit_code e = None /\ (forall c, c ∈ pe_children e -> c = id /\ parent = Some id)) \/
  (x <> id /\ exists e0, procs t !! x = Some e0 /\ pe_parent e = pe_parent e0 /\ pe_exit_code e = pe_exit_code e0 /\
     forall c, c ∈ pe_children e -> c ∈ pe_children e0 \/ c = id /\ parent = Some x).
Proof.
  intros H. unfold proc_register in H. cbn in H. destruct parent as [p|].
  - rewrite lookup_alter_Some in H. destruct H as [(<- & y & Hy & ->)|[Hne H]].
    + apply lookup_insert_Some in Hy as [[<- <-]|[Hne Hy]].
      * left. split_and!; try done. cbn. intros c Hc%list_elem_of_singleton. done.
      * right. split; [done|]. exists y. split_and!; try done. cbn.
        intros c [Hc|Hc%list_elem_of_singleton]%elem_of_app; [by left|by right].
    + apply lookup_insert_Some in H as [[<- <-]|[Hne' H]].
      * left. split_and!; try done. cbn. intros c Hc. by apply elem_of_nil in Hc.
      * right. split; [done|]. exists e. split_and!; try done. by left.
  - apply lookup_insert_Some in H as [[<- <-]|[Hne' H]].
    + left. split_and!; try done. cbn. intros c Hc. by apply elem_of_nil in Hc.
    + right. split; [done|]. exists e. split_and!; try done. by left.
Qed.

Lemma pt_inv_register t h ops id parent n :
  pt_inv t h (PoRegister id parent n :: ops) ->
  pt_inv (proc_register id parent n t) (h ++ [PoRegister id parent n]) ops.
Proof.
  intros [He Hp Hl Hf Hn]. rewrite registered_cons in Hn, Hf. apply NoDup_cons in Hn as [Hni Hn].
  destruct (Hf id ltac:(left)) as [Hid Hch]. split; [| | | |done].
  - intros c e code Hc Hcode. apply elem_of_app. left.
    destruct (proc_register_lookup _ _ _ _ _ _ Hc) as [(_ & _ & Hx & _)|(_ & e0 & H0 & _ & Hx & _)]; [congruence|].
    eapply He; [done|congruence].
  - intros c e p Hc Hpp. destruct (proc_register_lookup _ _ _ _ _ _ Hc) as [(-> & Hpar & _ & _)|(_ & e0 & H0 & Hpar & _)].
    + exists n. apply elem_of_app. right. apply list_elem_of_singleton. congruence.
    + destruct (Hp c e0 p H0) as [m Hm]; [congruence|]. exists m. apply elem_of_app. by left.
  - intros p pe c e Hpp Hin Hc.
    destruct (proc_register_lookup _ _ _ _ _ _ Hpp) as [(-> & _ & _ & Hkids)|(Hpne & p0 & Hp0 & _ & _ & Hkids)].
    + destruct (Hkids c Hin) as [-> ->].
      destruct (proc_register_lookup _ _ _ _ _ _ Hc) as [(_ & -> & _)|(? & _)]; done.
    + destruct (Hkids c Hin) as [Hin0|[-> ->]].
      * destruct (proc_register_lookup _ _ _ _ _ _ Hc) as [(-> & _)|(_ & e0 & He0 & -> & _)];
          [by destruct (Hch p p0 Hp0)|by eapply Hl].
      * destruct (proc_register_lookup _ _ _ _ _ _ Hc) as [(_ & -> & _)|(? & _)]; done.
  - intros x Hx. destruct (Hf x) as [H1 H2]; [by right|]. assert (x <> id) by (by intros ->). split.
    + destruct (procs (proc_register id parent n t) !! x) as [e|] eqn:E; [|done].
      destruct (proc_register_lookup _ _ _ _ _ _ E) as [(? & _)|(_ & e0 & H0 & _)]; congruence.
    + intros p pe Hpp Hin. destruct (proc_register_lookup _ _ _ _ _ _ Hpp) as [(_ & _ & _ & Hk)|(_ & p0 & Hp0 & _ & _ & Hk)].
      * by destruct (Hk x Hin).
      * destruct (Hk x Hin) as [?|[? _]]; [by apply (H2 p p0 Hp0)|done].
Qed.

(** Operations other than registration only shrink the table, drop children
    and record exit codes. *)
Lemma proc_step_shrink op t :
  (forall id p n, op <> PoRegister id p n) ->
  forall x e', procs (snd (proc_step op t)) !! x = Some e' ->
    exists e, procs t !! x = Some e /\ pe_parent e' = pe_parent e /\
     (forall c, c ∈ pe_children e' -> c ∈ pe_children e) /\
     (pe_exit_code e' = pe_exit_code e \/ exists code, pe_exit_code e' = Some code /\ op = PoExit x code).
Proof.
  intros Hop. destruct op as [id p n|id code|p|id cwd|id]; cbn [proc_step snd].
  - by destruct (Hop id p n).
  - unfold record_exit. destruct (procs t !! id) as [e0|] eqn:E; cbn; [|intros x e' He; exists e'; eauto].
    intros x e' [[<- <-]|[Hne He]]%lookup_insert_Some; [exists e0; split_and!; eauto|exists e'; eauto].
  - destruct (reap_child p t) as [[[c code]|] t'] eqn:Er; cbn [snd]; intros x e' Hx.
    + destruct (reap_child_some p t c code t' Er) as (pe & e & Hp & _ & Hc & _ & Hnone & _ & Hoth).
      assert (x <> c) as Hxc by congruence. rewrite Hoth in Hx by done.
      destruct (Z.eqb_spec x p) as [->|]; [|exists e'; eauto]. injection Hx as <-. exists pe.
      split_and!; try done; [|by left]. cbn. by intros y [_ Hy]%list_elem_of_filter.
    + assert (t' = t) as ->; [|exists e'; eauto].
      unfold reap_child in Er. destruct (procs t !! p); [|congruence].
      destruct (first_exited _ _) as [[? ?]|]; congruence.
  - unfold set_cwd. destruct (procs t !! id) as [e0|] eqn:E; cbn; [|intros x e' He; exists e'; eauto].
    intros x e' [[<- <-]|[Hne He]]%lookup_insert_Some; [exists e0; split_and!; eauto|exists e'; eauto].
  - cbn. intros x e' [_ He]%lookup_delete_Some. exists e'. eauto.
Qed.

Lemma pt_inv_step t h op ops : pt_inv t h (op :: ops) -> pt_inv (snd (proc_step op t)) (h ++ [op]) ops.
Proof.
  intros Hinv. assert ((exists id p n, op = PoRegister id p n) \/ forall id p n, op <> PoRegister id p n) as [(id & p & n & ->)|Hop].
  { destruct op; [left; eauto|right; done..]. }
  - by apply pt_inv_register.
  - apply (pt_inv_shrink t _ h _ ops Hinv Hop). by apply proc_step_shrink.
Qed.

Lemma proc_step_dom op t c :
  is_Some (procs (snd (proc_step op t)) !! c) -> is_Some (procs t !! c) \/ c ∈ registered [op].
Proof.
  intros [e He]. destruct op as [id p n| | | |].
  1:{ destruct (proc_register_lookup _ _ _ _ _ _ He) as [(-> & _)|(_ & e0 & H0 & _)]; [right; left|left; by exists e0]. }
  all: left; eapply proc_step_shrink in He as (e0 & H0 & _); [by exists e0|done].
Qed.

(** A process reaped during a run was in the table or is registered by it. *)
Lemma reaped_known ops t p c code :
  (p, (c, code)) ∈ fst (proc_run ops t) -> is_Some (procs t !! c) \/ c ∈ registered ops.
Proof.
  revert t. induction ops as [|op ops IH]; intros t Hin; [by apply elem_of_nil in Hin|].
  cbn [proc_run] in Hin. pose proof (proc_step_dom op t c) as Hdom.
  destruct (proc_step op t) as [r t1] eqn:Es. cbn [snd] in Hdom. specialize (IH t1).
  destruct (proc_run ops t1) as [rs t2]. cbn [fst] in *.
  assert (forall y, y ∈ registered [op] \/ y ∈ registered ops -> y ∈ registered (op :: ops)) as Hreg.
  { intros y. rewrite !registered_cons. cbn. destruct op; rewrite ?elem_of_cons, ?elem_of_nil; tauto. }
  apply elem_of_app in Hin as [Hin|Hin].
  - left. destruct op as [| |q| |]; cbn in Es; try (injection Es as <- <-; by apply elem_of_nil in Hin).
    destruct (reap_child q t) as [[[c' k]|] t'] eqn:Er; injection Es as <- <-; [|by apply elem_of_nil in Hin].
    apply list_elem_of_singleton in Hin. injection Hin as <- <- <-.
    destruct (reap_child_some _ _ _ _ _ Er) as (pe & e & _ & _ & Hc & _). by exists e.
  - destruct (IH Hin) as [Hs|Hr]; [|right; apply Hreg; by right].
    destruct (Hdom Hs) as [?|?]; [by left|right; apply Hreg; by left].
Qed.

Lemma wait_exit_gen ops t h :
  pt_inv t h ops ->
  NoDup (map (fun x => fst (snd x)) (fst (proc_run ops t))) /\
  forall p c code, (p, (c, code)) ∈ fst (proc_run ops t) ->
    PoExit c code ∈ h ++ ops /\ exists n, PoRegister c (Some p) n ∈ h ++ ops.
Proof.
  revert t h. induction ops as [|op ops IH]; intros t h Hinv.
  { split; [constructor|]. intros p c code Hin. by apply elem_of_nil in Hin. }
  pose proof (pt_inv_step t h op ops Hinv) as Hi1. cbn [proc_run].
  destruct (proc_step op t) as [r t1] eqn:Es. cbn [snd] in Hi1. destruct (IH t1 _ Hi1) as [IH1 IH2].
  pose proof (reaped_known ops t1) as Hk. destruct (proc_run ops t1) as [rs t2]. cbn [fst] in *.
  rewrite <- app_assoc in IH2. cbn [app] in IH2.
  assert (r = [] \/ exists p c code e pe, r = [(p, (c, code))] /\ procs t !! c = Some e /\ pe_exit_code e = Some code /\
            procs t !! p = Some pe /\ c ∈ pe_children pe /\ procs t1 !! c = None) as [->|Hr].
  { destruct op as [| |q| |]; cbn in Es; try (injection Es as <- <-; by left).
    destruct (reap_child q t) as [[[c' k]|] t'] eqn:Er; injection Es as <- <-; [right|by left].
    destruct (reap_child_some _ _ _ _ _ Er) as (pe & e & H1 & H2 & H3 & H4 & H5 & _).
    by exists q, c', k, e, pe. }
  - by split.
  - destruct Hr as (p & c & code & e & pe & -> & Hc & Hcode & Hp & Hin & Hgone). split.
    + cbn. constructor; [|done]. intros (x & Hx & Hxin)%list_elem_of_fmap. destruct x as [p' [c' k']]. cbn in Hx. subst c'.
      destruct (Hk _ _ _ Hxin) as [[? ?]|Hreg]; [congruence|].
      destruct (pi_fresh _ _ _ Hinv c) as [Hnone _]; [|congruence].
      rewrite registered_cons. destruct op; solve [done|by right].
    + intros p' c' code' [Heq|Hx]%elem_of_cons; [|by apply IH2]. injection Heq as -> -> ->. split.
      * apply elem_of_app. left. by eapply pi_exit.
      * destruct (pi_parent _ _ _ Hinv c e p Hc) as [n Hn]; [exact (pi_link _ _ _ Hinv p pe c e Hp Hin Hc)|].
        exists n. apply elem_of_app. by left.
Qed.

(** ** Theorems *)

(** Wait/exit: over any sequence of operations on an initially empty table
    in which no task id is registered twice, every process is reaped at most
    once; and a reap by [p] that returns child [c] with some code is always
    of a process that was registered with parent [p] and exited with that
    very code. *)
Theorem proc_wait_exit (ops : list proc_op) (Hn : NoDup (registered ops)) :
  let reaped := fst (proc_run ops proc_table_new) in
  NoDup (map (fun x => fst (snd x)) reaped) /\
  forall p c code, (p, (c, code)) ∈ reaped ->
    PoExit c code ∈ ops /\ exists n, PoRegister c (Some p) n ∈ ops.
Proof.
  intros reaped. assert (pt_inv proc_table_new [] ops) as Hinv; [|exact (wait_exit_gen ops proc_table_new [] Hinv)].
  split; cbn; try done; try (intros *; by rewrite lookup_empty).
Qed.

(** [reap_child] returns the exited child with the smallest id, removes
    exactly that entry and its link; it returns nothing, changing nothing,
    exactly when the parent is unknown or none of its listed children is a
    zombie. *)
Theorem reap_child_exact (p : Z) (t : ProcessTable) :
  match reap_child p t with
  | (Some (c, code), t') => exists pe e, procs t !! p = Some pe /\ c ∈ pe_children pe /\
      procs t !! c = Some e /\ pe_exit_code e = Some code /\ procs t' !! c = None /\
      (forall x ex, x ∈ pe_children pe -> procs t !! x = Some ex -> is_Some (pe_exit_code ex) -> c <= x) /\
      (forall x, x <> c -> procs t' !! x =
         if x =? p then Some (set_children (filter (fun id => id <> c) (pe_children pe)) pe) else procs t !! x)
  | (None, t') => t' = t /\ forall pe x e, procs t !! p = Some pe -> x ∈ pe_children pe ->
      procs t !! x = Some e -> pe_exit_code e = None
  end.
Proof.
  destruct (reap_child p t) as [[[c code]|] t'] eqn:E; [by apply reap_child_some|].
  unfold reap_child in E. destruct (procs t !! p) as [pe|] eqn:Ep; [|injection E as <-; split; [done|congruence]].
  destruct (first_exited _ _) as [[? ?]|] eqn:Ef; [done|]. injection E as <-. split; [done|].
  intros pe' x e [= <-] Hx He. eapply first_exited_none; [exact Ef| |exact He].
  by rewrite merge_sort_Permutation.
Qed.

(** ** Witnesses *)

Definition demo_proc_ops : list proc_op :=
  [PoRegister 1 None [105]; PoRegister 3 (Some 1) [115]; PoRegister 2 (Some 1) [119];
   PoExit 3 7; PoReap 1; PoExit 2 0; PoReap 1; PoReap 1].

Lemma proc_wait_exit_witness :
  PoExit 3 7 ∈ demo_proc_ops /\ exists n, PoRegister 3 (Some 1) n ∈ demo_proc_ops.
Proof.
  apply (proc_wait_exit demo_proc_ops).
  - apply (bool_decide_unpack _). vm_compute. exact I.
  - assert (fst (proc_run demo_proc_ops proc_table_new) = [(1, (3, 7)); (1, (2, 0))]) as -> by (vm_compute; reflexivity).
    left.
Defined.
