(* ===== verification/Paging.v ===== *)
(** * Page tables (omni-kernel: bare_metal/paging.rs)

    The 4-level x86_64 page-table walker and mapper.  Physical memory is seen
    as frames of 512 words of 64 bits, keyed by (frame address, index); a word
    absent from the map reads as zero.  The direct-map pointer
    [phys_offset + p] of the code is the frame [p] here, so [table_ptr] is the
    identity; TLB invalidation has no effect on memory.

    The mapper takes frames from any allocator that satisfies the interface
    [FrameSource]; the bitmap allocator is shown to implement it. *)

From Stdlib Require Import ZArith Lia.
From stdpp Require Import base numbers list gmap sets.
From S2P Require Import Prelude FrameAlloc.

(** ** Entries *)

Definition PTE_PRESENT : Z := Z.shiftl 1 0.
Definition PTE_WRITABLE : Z := Z.shiftl 1 1.
Definition PTE_USER : Z := Z.shiftl 1 2.
Definition PTE_HUGE : Z := Z.shiftl 1 7.
Definition PTE_NO_EXEC : Z := Z.shiftl 1 63.
Definition HUGE_1G_FRAME_MASK : Z := 0x000FFFFFC0000000.
Definition HUGE_1G_OFFSET_MASK : Z := 0x3FFFFFFF.
Definition HUGE_2M_FRAME_MASK : Z := 0x000FFFFFFFE00000.
Definition HUGE_2M_OFFSET_MASK : Z := 0x1FFFFF.
Definition FRAME_MASK : Z := 0x000FFFFFFFFFF000.

(** [PageTableEntry(pub u64)]. *)
Definition is_present (e : Z) : bool := negb (Z.land e PTE_PRESENT =? 0).
Definition is_huge (e : Z) : bool := negb (Z.land e PTE_HUGE =? 0).
Definition is_user (e : Z) : bool := negb (Z.land e PTE_USER =? 0).
Definition pte_phys_addr (e : Z) : Z := Z.land e FRAME_MASK.
Definition pte_set_frame (frame flags : Z) : Z := Z.lor (Z.land frame FRAME_MASK) flags.

(** ** Tables in memory *)

Abbreviation phys_mem := (gmap (Z * Z) Z).

Definition entry (m : phys_mem) (t i : Z) : Z := default 0 (m !! (t, i)).
Definition set_entry (t i v : Z) (m : phys_mem) : phys_mem := <[(t, i) := v]> m.

(** [zero_table]: every word of the frame reads as zero. *)
Definition zero_table (f : Z) (m : phys_mem) : phys_mem := filter (fun '((t, _), _) => t <> f) m.

Inductive PageLevel := Pml4 | Pdpt | Pd | Pt.

Definition level_shift (l : PageLevel) : Z :=
  match l with Pml4 => 39 | Pdpt => 30 | Pd => 21 | Pt => 12 end.
Definition virt_index (v : Z) (l : PageLevel) : Z := Z.land (Z.shiftr v (level_shift l)) 0x1FF.

(** ** Translation *)

Definition translate_in (m : phys_mem) (root v : Z) : option Z :=
  let pml4e := entry m root (virt_index v Pml4) in
  if negb (is_present pml4e) then None else
  let pdpte := entry m (pte_phys_addr pml4e) (virt_index v Pdpt) in
  if negb (is_present pdpte) then None else
  if is_huge pdpte then Some (Z.land pdpte HUGE_1G_FRAME_MASK + Z.land v HUGE_1G_OFFSET_MASK) else
  let pde := entry m (pte_phys_addr pdpte) (virt_index v Pd) in
  if negb (is_present pde) then None else
  if is_huge pde then Some (Z.land pde HUGE_2M_FRAME_MASK + Z.land v HUGE_2M_OFFSET_MASK) else
  let pte := entry m (pte_phys_addr pde) (virt_index v Pt) in
  if negb (is_present pte) then None else
  Some (pte_phys_addr pte + Z.land v 0xFFF).

Record PageMapper := { phys_offset : Z; root_phys : Z }.

Definition translate (pm : PageMapper) (m : phys_mem) (v : Z) : option Z := translate_in m (root_phys pm) v.

(** ** Interface: a source of free frames *)

Class FrameSource (A : Type) := {
  fs_alloc : A -> run (option Z * A);
  fs_wf : A -> Prop;
  fs_avail : A -> Z -> Prop;
}.

Class FrameSourceLaws (A : Type) `{FrameSource A} : Prop := {
  fs_alloc_spec : forall a, fs_wf a ->
    (exists f a', fs_alloc a = Done (Some f, a') /\ fs_wf a' /\ fs_avail a f /\
       f mod 4096 = 0 /\ 0 <= f < 2 ^ 52 /\ forall x, fs_avail a' x <-> fs_avail a x /\ x <> f) \/
    (fs_alloc a = Done (None, a) /\ forall x, ~ fs_avail a x);
}.

(** The bitmap allocator, when the frames it manages fit in 52-bit physical
    addresses. *)
#[global] Instance bitmap_source : FrameSource BitmapFrameAllocator := {|
  fs_alloc := alloc_frame;
  fs_wf := fun a => alloc_wf a /\ base a + CAPACITY a * 4096 <= 2 ^ 52;
  fs_avail := fun a x => exists i, in_cap a i /\ frame_used a i = false /\ x = frame_addr a i;
|}.

#[global] Instance bitmap_source_laws : FrameSourceLaws BitmapFrameAllocator.
Proof.
  split. intros a [Hwf Hb].
  destruct (alloc_frame_spec a Hwf) as [(i & a' & E & Hi & Hu & _ & Hs & Hw & _ & _)|[E Hall]].
  - left. exists (frame_addr a i), a'. pose proof (frame_set_cap _ _ _ _ Hs) as Hcap.
    destruct Hs as [_ Hbase _ Hat Hoth]. split; [exact E|]. split; [split; [done|congruence]|].
    split; [by exists i|]. split; [by apply frame_addr_aligned|].
    split; [pose proof (wf_base _ Hwf); unfold is_u64, frame_addr, in_cap in *; lia|].
    intros x. cbn. unfold in_cap, frame_addr in *. rewrite Hcap, Hbase. split.
    + intros (j & Hjc & Hju & ->). assert (j <> i) as Hne by (intros ->; congruence).
      split; [|lia]. exists j. rewrite <- Hoth by done. done.
    + intros [(j & Hjc & Hju & ->) Hne]. assert (j <> i) by (intros ->; done).
      exists j. rewrite Hoth by done. done.
  - right. split; [done|]. intros x (j & Hj & Hju & _). rewrite Hall in Hju by done. done.
Qed.

Section Mapper.
Context {A : Type} `{FrameSource A}.

(** ** Mapping *)

Definition intermediate_flags (flags : Z) : Z :=
  if is_user flags then Z.lor (Z.lor PTE_PRESENT PTE_WRITABLE) PTE_USER else Z.lor PTE_PRESENT PTE_WRITABLE.

(** One intermediate level of [map_4k_into]: follow the entry, upgrading it
    for a user mapping, or allocate, zero and link a new table. *)
Definition ensure_table (flags t i : Z) (m : phys_mem) (a : A) : run (option Z * phys_mem * A) :=
  let e := entry m t i in
  if is_present e then
    Done (Some (pte_phys_addr e),
          if is_user flags && negb (is_user e)
          then set_entry t i (pte_set_frame (pte_phys_addr e) (intermediate_flags flags)) m else m, a)
  else
    x ← fs_alloc a;
    match fst x with
    | None => Done (None, m, snd x)
    | Some f => Done (Some f, set_entry t i (pte_set_frame f (intermediate_flags flags)) (zero_table f m), snd x)
    end.

(** The leaf step. *)
Definition map_leaf (phys flags t i : Z) (m : phys_mem) (a : A) : run (bool * phys_mem * A) :=
  if is_present (entry m t i) then Done (false, m, a)
  else Done (true, set_entry t i (pte_set_frame phys (Z.lor flags PTE_PRESENT)) m, a).

Definition map_4k_into (root v phys flags : Z) (m : phys_mem) (a : A) : run (bool * phys_mem * A) :=
  '(pdpt, m1, a1) ← ensure_table flags root (virt_index v Pml4) m a;
  match pdpt with
  | None => Done (false, m1, a1)
  | Some pdpt =>
      '(pd, m2, a2) ← ensure_table flags pdpt (virt_index v Pdpt) m1 a1;
      match pd with
      | None => Done (false, m2, a2)
      | Some pd =>
          '(pt, m3, a3) ← ensure_table flags pd (virt_index v Pd) m2 a2;
          match pt with
          | None => Done (false, m3, a3)
          | Some pt => map_leaf phys flags pt (virt_index v Pt) m3 a3
          end
      end
  end.

Definition map_4k (pm : PageMapper) (v phys flags : Z) (m : phys_mem) (a : A) : run (bool * phys_mem * A) :=
  map_4k_into (root_phys pm) v phys flags m a.

End Mapper.

Definition unmap_4k (pm : PageMapper) (v : Z) (m : phys_mem) : bool * phys_mem :=
  let pml4e := entry m (root_phys pm) (virt_index v Pml4) in
  if negb (is_present pml4e) then (false, m) else
  let pdpte := entry m (pte_phys_addr pml4e) (virt_index v Pdpt) in
  if negb (is_present pdpte) then (false, m) else
  let pde := entry m (pte_phys_addr pdpte) (virt_index v Pd) in
  if negb (is_present pde) then (false, m) else
  let pte := entry m (pte_phys_addr pde) (virt_index v Pt) in
  if negb (is_present pte) then (false, m) else
  (true, set_entry (pte_phys_addr pde) (virt_index v Pt) 0 m).

(** ** Level-indexed view

    Levels are numbered 4 (PML4) to 1 (PT). *)

Definition level_of (L : nat) : PageLevel :=
  match L with 4%nat => Pml4 | 3%nat => Pdpt | 2%nat => Pd | _ => Pt end.
Definition idx (L : nat) (v : Z) : Z := virt_index v (level_of L).

(** Whether an entry at level [L] is a large-page leaf. *)
Definition large (L : nat) (e : Z) : bool :=
  match L with 3%nat | 2%nat => is_huge e | _ => false end.

(** The leaf entry an address resolves to, with its level. *)
Fixpoint walk (L : nat) (m : phys_mem) (t v : Z) : option (nat * Z) :=
  match L with
  | O => None
  | S L' =>
      let e := entry m t (idx L v) in
      if negb (is_present e) then None
      else match L' with
           | O => Some (1%nat, e)
           | _ => if large L e then Some (L, e) else walk L' m (pte_phys_addr e) v
           end
  end.

(** [v] is unmapped or mapped by a 4 KiB leaf: no large page covers it. *)
Definition no_huge (L : nat) (m : phys_mem) (t v : Z) : Prop :=
  forall k e, walk L m t v = Some (k, e) -> k = 1%nat.

(** Two addresses with the same indices at levels 1..L. *)
Fixpoint same_path (L : nat) (v w : Z) : bool :=
  match L with
  | O => true
  | S L' => (idx L v =? idx L w) && same_path L' v w
  end.

Definition in9 (i : Z) : Prop := 0 <= i < 512.

(** Whether the entry [i] of the level-[L] table [t] points to a table. *)
Definition descends (L : nat) (m : phys_mem) (t i : Z) : bool :=
  is_present (entry m t i) && negb (large L (entry m t i)) && negb (L =? 1)%nat.

(** [tree L m t X]: the level-[L] table at [t] heads a tree whose tables are
    exactly the frames [X], no frame being used twice. *)
Fixpoint tree (L : nat) (m : phys_mem) (t : Z) (X : gset Z) : Prop :=
  match L with
  | O => True
  | S L' =>
      exists F : Z -> gset Z,
        (forall i, in9 i -> t ∉ F i) /\
        (forall i j, in9 i -> in9 j -> i <> j -> F i ## F j) /\
        (forall x, x ∈ X <-> x = t \/ exists i, in9 i /\ x ∈ F i) /\
        (forall i, in9 i -> if descends L m t i then tree L' m (pte_phys_addr (entry m t i)) (F i) else F i = ∅)
  end.

(** ** Lemmas on entries *)

Lemma entry_set m t i v x k : entry (set_entry t i v m) x k = if (x =? t) && (k =? i) then v else entry m x k.
Proof.
  unfold entry, set_entry. destruct (Z.eqb_spec x t) as [->|Hx]; cbn; [destruct (Z.eqb_spec k i) as [->|Hk]; cbn|].
  - by rewrite lookup_insert_eq.
  - by rewrite lookup_insert_ne by congruence.
  - by rewrite lookup_insert_ne by congruence.
Qed.

Lemma entry_zero f m x k : entry (zero_table f m) x k = if x =? f then 0 else entry m x k.
Proof.
  unfold entry, zero_table. destruct (Z.eqb_spec x f) as [->|Hx].
  - destruct (filter _ m !! (f, k)) as [v|] eqn:E; [|done]. apply map_lookup_filter_Some in E as [_ E]. done.
  - destruct (m !! (x, k)) as [v|] eqn:E.
    + assert (filter (fun '((t, _), _) => t <> f) m !! (x, k) = Some v) as ->; [|done].
      by apply map_lookup_filter_Some.
    + assert (filter (fun '((t, _), _) => t <> f) m !! (x, k) = None) as ->; [|done].
      apply map_lookup_filter_None. by left.
Qed.

Lemma frame_mask_bits n : 0 <= n -> Z.testbit FRAME_MASK n = (12 <=? n) && (n <? 52).
Proof.
  intros Hn. change FRAME_MASK with (Z.shiftl (Z.ones 40) 12).
  rewrite Z.shiftl_spec by lia. destruct (Z.leb_spec 12 n); cbn.
  - rewrite Z.testbit_ones by lia. rewrite (proj2 (Z.leb_le 0 (n - 12))) by lia. cbn.
    destruct (Z.ltb_spec (n - 12) 40), (Z.ltb_spec n 52); lia || done.
  - by rewrite Z.testbit_neg_r by lia.
Qed.

Lemma frame_masked f : f mod 4096 = 0 -> 0 <= f < 2 ^ 52 -> Z.land f FRAME_MASK = f.
Proof.
  intros Hm Hf. apply Z.bits_inj'. intros n Hn. rewrite Z.land_spec, frame_mask_bits by done.
  destruct (Z.leb_spec 12 n); cbn; [destruct (Z.ltb_spec n 52)|]; rewrite ?andb_true_r, ?andb_false_r; [done| |].
  - symmetry. destruct (decide (f = 0)) as [->|]; [apply Z.testbit_0_l|]. apply Z.bits_above_log2; [lia|].
    apply Z.lt_le_trans with 52; [|lia]. apply Z.log2_lt_pow2; lia.
  - symmetry. change 4096 with (2 ^ 12) in Hm. rewrite <- (Z.mod_pow2_bits_low f 12 n) by lia.
    rewrite Hm. apply Z.testbit_0_l.
Qed.

Lemma set_frame_phys f flags :
  f mod 4096 = 0 -> 0 <= f < 2 ^ 52 -> Z.land flags FRAME_MASK = 0 ->
  pte_phys_addr (pte_set_frame f flags) = f.
Proof.
  intros Hm Hf Hfl. unfold pte_phys_addr, pte_set_frame.
  rewrite Z.land_lor_distr_l, Hfl, Z.lor_0_r, <- Z.land_assoc, Z.land_diag. by apply frame_masked.
Qed.

Lemma phys_addr_idem e : Z.land (pte_phys_addr e) FRAME_MASK = pte_phys_addr e.
Proof. unfold pte_phys_addr. by rewrite <- Z.land_assoc, Z.land_diag. Qed.

Lemma set_frame_same e flags :
  Z.land flags FRAME_MASK = 0 -> pte_phys_addr (pte_set_frame (pte_phys_addr e) flags) = pte_phys_addr e.
Proof.
  intros Hfl. unfold pte_set_frame. rewrite phys_addr_idem. unfold pte_phys_addr at 1.
  by rewrite Z.land_lor_distr_l, Hfl, Z.lor_0_r, phys_addr_idem.
Qed.

(** Flag bits of a masked frame are clear. *)
Lemma set_frame_bit f flags k :
  0 <= k < 12 -> Z.testbit (pte_set_frame f flags) k = Z.testbit flags k.
Proof.
  intros Hk. unfold pte_set_frame. rewrite Z.lor_spec, Z.land_spec, frame_mask_bits by lia.
  rewrite (proj2 (Z.leb_gt 12 k)) by lia. by rewrite andb_false_r.
Qed.

Lemma is_present_bit e : is_present e = Z.testbit e 0.
Proof. unfold is_present, PTE_PRESENT. rewrite land_bit_zero by lia. apply negb_involutive. Qed.
Lemma is_huge_bit e : is_huge e = Z.testbit e 7.
Proof. unfold is_huge, PTE_HUGE. rewrite land_bit_zero by lia. apply negb_involutive. Qed.

Lemma intermediate_present f flags : is_present (pte_set_frame f (intermediate_flags flags)) = true.
Proof.
  rewrite is_present_bit, set_frame_bit by lia. unfold intermediate_flags. by destruct (is_user flags).
Qed.
Lemma intermediate_not_large L f flags : large L (pte_set_frame f (intermediate_flags flags)) = false.
Proof.
  unfold large. assert (is_huge (pte_set_frame f (intermediate_flags flags)) = false) as Hh.
  { rewrite is_huge_bit, set_frame_bit by lia. unfold intermediate_flags. by destruct (is_user flags). }
  by do 4 (destruct L as [|L]; [done|]).
Qed.
Lemma intermediate_mask flags : Z.land (intermediate_flags flags) FRAME_MASK = 0.
Proof. unfold intermediate_flags. by destruct (is_user flags). Qed.

Lemma present_leaf f flags : is_present (pte_set_frame f (Z.lor flags PTE_PRESENT)) = true.
Proof. rewrite is_present_bit, set_frame_bit, Z.lor_spec by lia. by rewrite orb_true_r. Qed.

Lemma idx_in9 L v : in9 (idx L v).
Proof.
  unfold idx, virt_index, in9. change 0x1FF with (2 ^ 9 - 1). rewrite land_ones_mod by lia.
  apply Z.mod_pos_bound. lia.
Qed.

(** ** Trees *)

(** A tree and its translations depend only on the frames of the tree. *)
Lemma tree_frame L m m' t X :
  tree L m t X -> (forall x k, x ∈ X -> entry m' x k = entry m x k) ->
  tree L m' t X /\ forall v, walk L m' t v = walk L m t v.
Proof.
  revert t X. induction L as [|L IH]; intros t X Ht Hag; [done|]. cbn [tree] in Ht.
  destruct Ht as (F & Ht & Hd & Hx & Hsub).
  assert (forall k, entry m' t k = entry m t k) as He by (intros k; apply Hag, Hx; by left).
  assert (forall i, in9 i -> descends (S L) m t i = true ->
    tree L m' (pte_phys_addr (entry m t i)) (F i) /\
    forall v, walk L m' (pte_phys_addr (entry m t i)) v = walk L m (pte_phys_addr (entry m t i)) v) as Hc.
  { intros i Hi Hde. specialize (Hsub i Hi). rewrite Hde in Hsub. apply IH; [done|].
    intros x k Hxk. apply Hag, Hx. right. by exists i. }
  split.
  - exists F. split_and!; try done. intros i Hi. unfold descends. rewrite He.
    specialize (Hsub i Hi). fold (descends (S L) m t i). destruct (descends (S L) m t i) eqn:Ed; [|done].
    by apply Hc.
  - intros v. cbn [walk]. rewrite He. destruct (is_present (entry m t (idx (S L) v))) eqn:Ep; cbn [negb]; [|done].
    destruct L as [|L]; [done|]. destruct (large (S (S L)) _) eqn:El; [done|]. apply Hc; [apply idx_in9|].
    unfold descends. by rewrite Ep, El.
Qed.

(** A zeroed frame is an empty table. *)
Lemma tree_empty L m t :
  (0 < L)%nat -> (forall k, entry m t k = 0) -> tree L m t {[ t ]} /\ forall v, walk L m t v = None.
Proof.
  intros HL Hz. destruct L as [|L]; [lia|]. cbn [tree walk]. split.
  - exists (fun _ => ∅). split_and!; [set_solver|set_solver|set_solver|].
    intros i _. unfold descends. by rewrite Hz.
  - intros v. by rewrite Hz.
Qed.

(** The body of [tree] with its children's footprints exposed. *)
Definition tree_node (L : nat) (m : phys_mem) (t : Z) (X : gset Z) (F : Z -> gset Z) : Prop :=
  (forall i, in9 i -> t ∉ F i) /\
  (forall i j, in9 i -> in9 j -> i <> j -> F i ## F j) /\
  (forall x, x ∈ X <-> x = t \/ exists i, in9 i /\ x ∈ F i) /\
  (forall i, in9 i -> if descends (S L) m t i then tree L m (pte_phys_addr (entry m t i)) (F i) else F i = ∅).

(** Replacing the subtree at index [i]: [m1] differs from [m] at most in that
    entry and outside the tree, the new child [c] is a tree over [Y] in [m'],
    and [m'] only changed frames of [Y]. *)
Lemma tree_graft L m t X F i m1 c m' Y :
  (0 < L)%nat -> tree_node L m t X F -> in9 i ->
  (forall x k, x ∈ X -> x <> t \/ k <> i -> entry m1 x k = entry m x k) ->
  pte_phys_addr (entry m1 t i) = c -> descends (S L) m1 t i = true ->
  tree L m' c Y -> (forall x k, x ∉ Y -> entry m' x k = entry m1 x k) ->
  (forall x, x ∈ Y -> x ∈ F i \/ x ∉ X) ->
  tree (S L) m' t (Y ∪ X ∖ F i) /\
  forall v, walk (S L) m' t v = if idx (S L) v =? i then walk L m' c v else walk (S L) m t v.
Proof.
  intros HL (Ht & Hd & HX & Hsub) Hi Hm1 Hc Hde HY Hm' HYX.
  assert (t ∈ X) as HtX by (apply HX; by left).
  assert (t ∉ Y) as HtY by (intros Hin; destruct (HYX t Hin) as [Hin'|]; [by apply (Ht i Hi)|done]).
  assert (forall j, in9 j -> j <> i -> Y ## F j) as HYF.
  { intros j Hj Hne x Hy Hf. destruct (HYX x Hy) as [Hxi|Hnx]; [by apply (Hd i j Hi Hj ltac:(done) x)|].
    apply Hnx, HX. right. by exists j. }
  assert (forall k, entry m' t k = entry m1 t k) as Het by (intros k; by apply Hm').
  assert (forall k, k <> i -> entry m' t k = entry m t k) as Het' by (intros k Hk; rewrite Het; apply Hm1; auto).
  assert (forall j x k, in9 j -> j <> i -> x ∈ F j -> entry m' x k = entry m x k) as HeF.
  { intros j x k Hj Hne Hx. rewrite Hm' by (intros Hy; by apply (HYF j Hj Hne x)).
    apply Hm1; [apply HX; right; by exists j|]. left. intros ->. by apply (Ht j Hj). }
  split.
  - cbn [tree]. exists (fun j => if j =? i then Y else F j). split_and!.
    + intros j Hj. destruct (j =? i); [done|by apply Ht].
    + intros j k Hj Hk Hne. destruct (Z.eqb_spec j i) as [->|], (Z.eqb_spec k i) as [->|]; [done| | |by apply Hd].
      * by apply HYF.
      * symmetry. by apply HYF.
    + intros x. rewrite elem_of_union, elem_of_difference, HX. split.
      * intros [Hy|[[->|(j & Hj & Hx)] Hn]]; [right; exists i; by rewrite Z.eqb_refl|by left|].
        right. exists j. destruct (Z.eqb_spec j i) as [->|]; done.
      * intros [->|(j & Hj & Hx)]; [right; split; [by left|by apply Ht]|].
        destruct (Z.eqb_spec j i) as [->|Hne]; [by left|]. right. split; [right; by exists j|].
        intros Hxi. by apply (Hd i j Hi Hj ltac:(done) x).
    + intros j Hj. unfold descends. destruct (Z.eqb_spec j i) as [->|Hne].
      * rewrite Het. fold (descends (S L) m1 t i). by rewrite Hde, Hc.
      * rewrite Het' by done. specialize (Hsub j Hj). fold (descends (S L) m t j).
        destruct (descends (S L) m t j); [|done]. eapply tree_frame; [exact Hsub|]. intros; by eapply HeF.
  - intros v. cbn [walk]. destruct (Z.eqb_spec (idx (S L) v) i) as [E|Hne].
    + rewrite E, Het. unfold descends in Hde. apply andb_true_iff in Hde as [[Hp Hl]%andb_true_iff _].
      apply negb_true_iff in Hl. rewrite Hp, Hl, Hc. cbn [negb]. by destruct L; [lia|].
    + rewrite Het' by done. pose proof (idx_in9 (S L) v) as Hj. specialize (Hsub _ Hj). unfold descends in Hsub.
      destruct (is_present (entry m t (idx (S L) v))); cbn [negb andb] in *; [|done].
      destruct L as [|L']; [lia|]. destruct (large _ _); [done|]. cbn in Hsub.
      eapply tree_frame; [exact Hsub|]. intros; by eapply HeF.
Qed.

(** Changing only the leaf entry [i] of a level-1 table. *)
Lemma leaf_set m t i e v :
  walk 1 (set_entry t i e m) t v =
    if idx 1 v =? i then (if is_present e then Some (1%nat, e) else None) else walk 1 m t v.
Proof.
  cbn [walk]. rewrite entry_set, Z.eqb_refl. cbn. destruct (idx 1 v =? i); [|done]. by destruct (is_present e).
Qed.

Lemma tree_leaf m t X : tree 1 m t X <-> X = {[ t ]}.
Proof.
  cbn [tree]. split.
  - intros (F & _ & _ & HX & Hs). apply set_eq. intros x. rewrite HX, elem_of_singleton. split; [|by left].
    intros [->|(i & Hi & Hx)]; [done|]. specialize (Hs i Hi). unfold descends in Hs.
    rewrite andb_false_r in Hs. rewrite Hs in Hx. by apply not_elem_of_empty in Hx.
  - intros ->. exists (fun _ => ∅). split_and!; [set_solver|set_solver|set_solver|].
    intros i _. unfold descends. by rewrite andb_false_r.
Qed.

(** ** The mapper, level by level *)

Section MapperSpec.
Context {A : Type} `{FrameSource A} {Hlaws : FrameSourceLaws A}.
Context (v phys flags : Z).

Fixpoint map_level (L : nat) (m : phys_mem) (a : A) (t : Z) : run (bool * phys_mem * A) :=
  match L with
  | O => Done (false, m, a)
  | S L' =>
      match L' with
      | O => map_leaf phys flags t (idx 1 v) m a
      | _ =>
          '(c, m1, a1) ← ensure_table flags t (idx L v) m a;
          match c with
          | None => Done (false, m1, a1)
          | Some c => map_level L' m1 a1 c
          end
      end
  end.

Lemma map_4k_into_level root m a : map_4k_into root v phys flags m a = map_level 4 m a root.
Proof. reflexivity. Qed.

Definition new_leaf : Z := pte_set_frame phys (Z.lor flags PTE_PRESENT).

(** The effect of a mapping attempt on a tree over [X]: the new tree [X'] adds
    only frames taken from the allocator, memory outside it is untouched, and
    the leaf of every address is unchanged except, on success, those of the
    target page. *)
Record map_post (L : nat) (m : phys_mem) (a : A) (t : Z) (X : gset Z)
    (ok : bool) (m' : phys_mem) (a' : A) (X' : gset Z) : Prop := {
  mp_wf : fs_wf a';
  mp_tree : tree L m' t X';
  mp_new : forall x, x ∈ X' -> x ∈ X \/ (fs_avail a x /\ ~ fs_avail a' x);
  mp_old : X ⊆ X';
  mp_avail : forall x, fs_avail a' x -> fs_avail a x;
  mp_frame : forall x k, x ∉ X' -> entry m' x k = entry m x k;
  mp_walk : forall w, walk L m' t w = if ok && same_path L v w then Some (1%nat, new_leaf) else walk L m t w;
  mp_ok : ok = true -> walk L m t v = None;
  mp_fail : ok = false -> is_Some (walk L m t v) \/ forall x, ~ fs_avail a' x;
  mp_taken : forall x, fs_avail a x -> fs_avail a' x \/ x ∈ X';
}.

Lemma map_leaf_spec m a t X :
  fs_wf a -> tree 1 m t X ->
  exists ok m', map_leaf phys flags t (idx 1 v) m a = Done (ok, m', a) /\ map_post 1 m a t X ok m' a X.
Proof.
  intros Ha Ht. unfold map_leaf. destruct (is_present (entry m t (idx 1 v))) eqn:E.
  - exists false, m. split; [done|]. split; try done; [by left| |by left]. intros _. left. cbn [walk]. rewrite E. by eexists.
  - exists true, (set_entry t (idx 1 v) new_leaf m). split; [done|]. apply tree_leaf in Ht as ->.
    split; try done; [by apply tree_leaf|by left| | | |by left].
    + intros x k Hx. rewrite entry_set. rewrite not_elem_of_singleton in Hx.
      by rewrite (proj2 (Z.eqb_neq _ _) Hx).
    + intros w. rewrite leaf_set. unfold new_leaf at 1. rewrite present_leaf. cbn [andb same_path].
      rewrite andb_true_r, Z.eqb_sym. by destruct (idx 1 v =? idx 1 w).
    + intros _. cbn [walk]. by rewrite E.
Qed.

(** The entry [i] of [t] leads, in [m1], to a child [c] that is a tree over
    [Y]; against [m], only that entry and frames of [Y] changed, and
    addresses through the entry resolve as before. *)
Record ensured (L : nat) (m : phys_mem) (a : A) (t : Z) (X : gset Z) (F : Z -> gset Z) (i : Z)
    (c : Z) (m1 : phys_mem) (a1 : A) (Y : gset Z) : Prop := {
  en_wf : fs_wf a1;
  en_same : forall x k, x ∈ X -> x <> t \/ k <> i -> entry m1 x k = entry m x k;
  en_out : forall x k, x ∉ X -> x ∉ Y -> entry m1 x k = entry m x k;
  en_child : pte_phys_addr (entry m1 t i) = c;
  en_desc : descends (S L) m1 t i = true;
  en_tree : tree L m1 c Y;
  en_new : forall x, x ∈ Y -> x ∈ F i \/ (fs_avail a x /\ ~ fs_avail a1 x);
  en_old : F i ⊆ Y;
  en_avail : forall x, fs_avail a1 x -> fs_avail a x /\ x ∉ Y;
  en_walk : forall w, idx (S L) w = i -> walk L m1 c w = walk (S L) m t w;
  en_taken : forall x, fs_avail a x -> fs_avail a1 x \/ x ∈ Y;
}.

Lemma descends_intro L m t i :
  (0 < L)%nat -> is_present (entry m t i) = true -> large (S L) (entry m t i) = false -> descends (S L) m t i = true.
Proof. intros HL Hp Hl. unfold descends. rewrite Hp, Hl. by destruct L; [lia|]. Qed.

(** Following a present entry, upgraded or not. *)
Lemma ensure_present_spec L m a t X F i :
  (0 < L)%nat -> fs_wf a -> tree_node L m t X F -> (forall x, fs_avail a x -> x ∉ X) -> in9 i ->
  is_present (entry m t i) = true -> large (S L) (entry m t i) = false ->
  exists m1, ensure_table flags t i m a = Done (Some (pte_phys_addr (entry m t i)), m1, a) /\
    ensured L m a t X F i (pte_phys_addr (entry m t i)) m1 a (F i).
Proof.
  intros HL Ha (Ht & Hd & HX & Hsub) Hav Hi Ep Hnl. assert (t ∈ X) as HtX by (apply HX; by left).
  unfold ensure_table. rewrite Ep. eexists. split; [reflexivity|]. set (m1 := if _ && _ then _ else m).
  pose proof (Hsub i Hi) as Hti. rewrite (descends_intro L m t i HL Ep Hnl) in Hti.
  assert (forall x k, x <> t \/ k <> i -> entry m1 x k = entry m x k) as Hm1.
  { intros x k Hne. unfold m1. destruct (_ && _); [|done]. rewrite entry_set.
    destruct (Z.eqb_spec x t), (Z.eqb_spec k i); cbn; try done. naive_solver. }
  assert (pte_phys_addr (entry m1 t i) = pte_phys_addr (entry m t i) /\ descends (S L) m1 t i = true) as [Hph Hde].
  { unfold m1. destruct (_ && _); [|split; [done|by apply descends_intro]]. split.
    - rewrite entry_set, !Z.eqb_refl. apply set_frame_same, intermediate_mask.
    - apply descends_intro; [done|..]; rewrite entry_set, !Z.eqb_refl;
        [apply intermediate_present|apply intermediate_not_large]. }
  destruct (tree_frame L m m1 _ (F i) Hti) as [Ht1 Hw1].
  { intros x k Hx. apply Hm1. left. intros ->. by apply (Ht i Hi). }
  split; try done.
  - intros x k _. apply Hm1.
  - intros x k Hx _. apply Hm1. left. by intros ->.
  - intros x Hx. by left.
  - intros x Hx. split; [done|]. intros Hf. apply (Hav x Hx), HX. right. by exists i.
  - intros w Hw. rewrite Hw1. cbn [walk]. rewrite Hw, Ep, Hnl. cbn [negb]. by destruct L; [lia|].
  - by left.
Qed.

(** Allocating, zeroing and linking a table for an absent entry. *)
Lemma ensure_absent_spec L m a t X F i f a1 :
  (0 < L)%nat -> tree_node L m t X F -> (forall x, fs_avail a x -> x ∉ X) -> in9 i ->
  is_present (entry m t i) = false -> fs_wf a1 -> fs_avail a f -> f mod 4096 = 0 -> 0 <= f < 2 ^ 52 ->
  (forall x, fs_avail a1 x <-> fs_avail a x /\ x <> f) ->
  ensured L m a t X F i f (set_entry t i (pte_set_frame f (intermediate_flags flags)) (zero_table f m)) a1 {[ f ]}.
Proof.
  intros HL (Ht & Hd & HX & Hsub) Hav Hi Ep Hw1 Haf Hal Hran Hav1. set (m1 := set_entry t i _ _).
  assert (t ∈ X) as HtX by (apply HX; by left).
  assert (f ∉ X) as HfX by (by apply Hav). assert (f <> t) as Hft by (by intros ->).
  assert (forall x k, x <> f -> x <> t \/ k <> i -> entry m1 x k = entry m x k) as Hm1.
  { intros x k Hxf Hne. unfold m1. rewrite entry_set, entry_zero, (proj2 (Z.eqb_neq _ _) Hxf).
    destruct (Z.eqb_spec x t), (Z.eqb_spec k i); cbn; try done. naive_solver. }
  assert (entry m1 t i = pte_set_frame f (intermediate_flags flags)) as He1.
  { unfold m1. by rewrite entry_set, !Z.eqb_refl. }
  destruct (tree_empty L m1 f HL) as [Ht1 Hw1'].
  { intros k. unfold m1. rewrite entry_set, entry_zero, Z.eqb_refl, (proj2 (Z.eqb_neq f t) Hft). done. }
  pose proof (Hsub i Hi) as Hti. unfold descends in Hti. rewrite Ep in Hti. cbn in Hti.
  split; try done.
  - intros x k Hx. apply Hm1. by intros ->.
  - intros x k Hx Hxf%not_elem_of_singleton. apply Hm1; [done|]. left. by intros ->.
  - rewrite He1. apply set_frame_phys; [done|done|apply intermediate_mask].
  - apply descends_intro; [done|..]; rewrite He1; [apply intermediate_present|apply intermediate_not_large].
  - intros x ->%elem_of_singleton. right. split; [done|]. rewrite Hav1. naive_solver.
  - rewrite Hti. apply empty_subseteq.
  - intros x Hx%Hav1. rewrite not_elem_of_singleton. done.
  - intros w Hw. rewrite Hw1'. cbn [walk]. by rewrite Hw, Ep.
  - intros x Hx. destruct (decide (x = f)) as [->|]; [right; by apply elem_of_singleton|left; by apply Hav1].
Qed.

(** Either the allocator is exhausted and nothing changed, or the entry leads
    to a child (the old one, or a fresh empty table). *)
Lemma ensure_table_spec L m a t X F :
  (0 < L)%nat -> fs_wf a -> tree_node L m t X F -> (forall x, fs_avail a x -> x ∉ X) ->
  large (S L) (entry m t (idx (S L) v)) = false \/ is_present (entry m t (idx (S L) v)) = false ->
  let i := idx (S L) v in
  (ensure_table flags t i m a = Done (None, m, a) /\ forall x, ~ fs_avail a x) \/
  exists c m1 a1 Y, ensure_table flags t i m a = Done (Some c, m1, a1) /\ ensured L m a t X F i c m1 a1 Y.
Proof.
  intros HL Ha Hnode Hav Hnl i. assert (in9 i) as Hi by apply idx_in9. fold i in Hnl.
  destruct (is_present (entry m t i)) eqn:Ep.
  - destruct Hnl as [Hnl|]; [|congruence]. right.
    destruct (ensure_present_spec L m a t X F i HL Ha Hnode Hav Hi Ep Hnl) as (m1 & E & Hen).
    by exists (pte_phys_addr (entry m t i)), m1, a, (F i).
  - unfold ensure_table. rewrite Ep.
    destruct (fs_alloc_spec a Ha) as [(f & a1 & -> & Hw1 & Haf & Hal & Hran & Hav1)|[-> Hno]]; [right|by left].
    cbn [mbind run_bind fst snd]. eexists f, _, a1, {[ f ]}. split; [reflexivity|]. by apply ensure_absent_spec.
Qed.

Lemma no_huge_head L m t :
  (0 < L)%nat -> no_huge (S L) m t v ->
  large (S L) (entry m t (idx (S L) v)) = false \/ is_present (entry m t (idx (S L) v)) = false.
Proof.
  intros HL Hh. destruct (is_present (entry m t (idx (S L) v))) eqn:Ep; [left|by right].
  destruct (large (S L) (entry m t (idx (S L) v))) eqn:El; [|done].
  assert (S L = 1%nat); [|lia]. apply (Hh _ (entry m t (idx (S L) v))).
  cbn [walk]. rewrite Ep. cbn [negb]. destruct L; [lia|]. by rewrite El.
Qed.

Lemma map_level_spec L m a t X :
  (0 < L)%nat -> fs_wf a -> tree L m t X -> (forall x, fs_avail a x -> x ∉ X) -> no_huge L m t v ->
  exists ok m' a' X', map_level L m a t = Done (ok, m', a') /\ map_post L m a t X ok m' a' X'.
Proof.
  revert m a t X. induction L as [|[|L] IH]; intros m a t X HL Ha Ht Hav Hh; [lia| |].
  { destruct (map_leaf_spec m a t X Ha Ht) as (ok & m' & E & Hp). by exists ok, m', a, X. }
  destruct Ht as [F Hnode]. pose proof Hnode as (HtF & Hd & HX & _).
  cbn [map_level]. pose proof (ensure_table_spec (S L) m a t X F ltac:(lia) Ha Hnode Hav (no_huge_head (S L) m t ltac:(lia) Hh)) as He.
  cbn zeta in He. pose proof (idx_in9 (S (S L)) v) as Hi. remember (idx (S (S L)) v) as i eqn:Ei.
  destruct He as [(-> & Hno)|(c & m1 & a1 & Y & -> & [Ha1 Hm1 Hm1' Hc Hde HtY HYn HFY Hav1 Hw1 Htk1])].
  - exists false, m, a, X. split; [done|]. split; try done; [by exists F|by left| |by left]. intros _. by right.
  - cbn [mbind run_bind]. destruct (IH m1 a1 c Y ltac:(lia) Ha1 HtY) as (ok & m' & a' & Y' & E & Hpost).
    { intros x Hx. by apply Hav1. }
    { intros k e Hk. apply (Hh k e). rewrite <- (Hw1 v); [done|by rewrite Ei]. }
    destruct Hpost as [P1 P2 P3 P4 P5 P6 P7 P8 P9 P10].
    assert (forall x, x ∈ F i -> x ∈ X) as HFX by (intros x Hx; apply HX; right; by exists i).
    assert (forall x, x ∈ Y' -> x ∈ F i \/ (fs_avail a x /\ ~ fs_avail a' x)) as HY'.
    { intros x [Hx|[Hx Hn]]%P3.
      - destruct (HYn x Hx) as [|[? Hn]]; [by left|right]. split; [done|]. intros Hx'%P5. done.
      - right. split; [by apply Hav1|done]. }
    destruct (tree_graft (S L) m t X F i m1 c m' Y' ltac:(lia) Hnode Hi Hm1 Hc Hde P2 P6) as [Htree Hwalk].
    { intros x Hx. destruct (HY' x Hx) as [|[? _]]; [by left|right; by apply Hav]. }
    exists ok, m', a', (Y' ∪ X ∖ F i). split; [exact E|]. split; try done.
    + intros x [Hx|[Hx _]%elem_of_difference]%elem_of_union; [|by left].
      destruct (HY' x Hx); [left; by apply HFX|by right].
    + intros x Hx. destruct (decide (x ∈ F i)); [apply elem_of_union_l, P4; by apply HFY|set_solver].
    + intros x Hx%P5. by apply Hav1.
    + intros x k Hx. apply not_elem_of_union in Hx as [Hx1 Hx2].
      assert (x ∉ Y) by (intros ?; by apply Hx1, P4). rewrite P6, Hm1'; try done.
      intros HxX. apply Hx2, elem_of_difference. split; [done|]. intros HxF. by apply Hx1, P4, HFY.
    + intros w. rewrite Hwalk. cbn [same_path]. rewrite <- Ei, (Z.eqb_sym i).
      destruct (Z.eqb_spec (idx (S (S L)) w) i) as [Ew|]; cbn [andb]; [|by rewrite andb_false_r].
      rewrite P7. by rewrite (Hw1 w Ew).
    + intros Hok. rewrite <- (Hw1 v) by done. by apply P8.
    + intros Hok. rewrite <- (Hw1 v) by done. by apply P9.
    + intros x Hx. destruct (Htk1 x Hx) as [Hx1|Hx1]; [|right; apply elem_of_union_l; by apply P4].
      destruct (P10 x Hx1); [by left|right; by apply elem_of_union_l].
Qed.

(** What allocation preserves, mapping preserves. *)
Lemma map_level_alloc (P : A -> Prop) L m a t ok m' a' : (forall a r a', P a -> fs_alloc a = Done (r, a') -> P a') ->
  map_level L m a t = Done (ok, m', a') -> P a -> P a'.
Proof.
  intros Hp. revert m a t. induction L as [|[|L] IH]; intros m a t E Ha; [by injection E as _ _ <-| |].
  - cbn [map_level] in E. unfold map_leaf in E. destruct (is_present _); by injection E as _ _ <-.
  - change (map_level (S (S L)) m a t) with ('(r, m, a) ← ensure_table flags t (idx (S (S L)) v) m a; match r with Some c => map_level (S L) m a c | None => Done (false, m, a) end) in E.
    unfold ensure_table in E. destruct (is_present (entry m t (idx (S (S L)) v))); [by eapply IH|].
    destruct (fs_alloc a) as [[r a1]|] eqn:Ea; [|done]. cbn [mbind run_bind] in E. pose proof (Hp _ _ _ Ha Ea). destruct r as [f|]; cbn in E; [by eapply IH|by injection E as _ _ <-].
Qed.
End MapperSpec.

(** ** Unmapping, level by level *)

Section UnmapSpec.
Context (v : Z).

Fixpoint unmap_level (L : nat) (m : phys_mem) (t : Z) : bool * phys_mem :=
  match L with
  | O => (false, m)
  | S L' =>
      let e := entry m t (idx L v) in
      if negb (is_present e) then (false, m)
      else match L' with
           | O => (true, set_entry t (idx 1 v) 0 m)
           | _ => unmap_level L' m (pte_phys_addr e)
           end
  end.

Lemma unmap_4k_level pm m : unmap_4k pm v m = unmap_level 4 m (root_phys pm).
Proof. reflexivity. Qed.

Lemma walk_absent L m t :
  is_present (entry m t (idx (S L) v)) = false ->
  walk (S L) m t v = None /\ forall w, walk (S L) m t w = if same_path (S L) v w then None else walk (S L) m t w.
Proof.
  intros Ep. assert (forall w, idx (S L) w = idx (S L) v -> walk (S L) m t w = None) as Hn.
  { intros w E. cbn [walk]. by rewrite E, Ep. }
  split; [by apply Hn|]. intros w. destruct (same_path (S L) v w) eqn:Es; [|done].
  apply Hn. cbn [same_path] in Es. apply andb_true_iff in Es as [Es _]. by apply Z.eqb_eq in Es.
Qed.

Lemma unmap_level_spec L m t X :
  (0 < L)%nat -> tree L m t X -> no_huge L m t v ->
  let '(ok, m') := unmap_level L m t in
  tree L m' t X /\ (forall x k, x ∉ X -> entry m' x k = entry m x k) /\
  (ok = true <-> is_Some (walk L m t v)) /\
  forall w, walk L m' t w = if same_path L v w then None else walk L m t w.
Proof.
  revert t X. induction L as [|[|L] IH]; intros t X HL Ht Hh; [lia| |].
  - cbn [unmap_level]. destruct (is_present (entry m t (idx 1 v))) eqn:Ep; cbn [negb].
    + apply tree_leaf in Ht as ->. split; [by apply tree_leaf|]. split.
      { intros x k Hx%not_elem_of_singleton. by rewrite entry_set, (proj2 (Z.eqb_neq _ _) Hx). }
      split; [cbn [walk]; rewrite Ep; split; [by eexists|done]|].
      intros w. rewrite leaf_set. cbn [same_path]. rewrite andb_true_r, (Z.eqb_sym (idx 1 w)).
      by destruct (idx 1 v =? idx 1 w).
    + destruct (walk_absent 0 m t Ep) as [Hv Hw]. rewrite Hv. by split_and!; try done.
  - destruct Ht as [F Hnode]. pose proof Hnode as (HtF & Hd & HX & Hsub).
    change (unmap_level (S (S L)) m t) with
      (if negb (is_present (entry m t (idx (S (S L)) v))) then (false, m)
       else unmap_level (S L) m (pte_phys_addr (entry m t (idx (S (S L)) v)))).
    pose proof (idx_in9 (S (S L)) v) as Hi. set (i := idx (S (S L)) v) in *.
    destruct (is_present (entry m t i)) eqn:Ep; cbn [negb].
    2:{ destruct (walk_absent (S L) m t Ep) as [Hv Hw]. rewrite Hv. split; [by exists F|]. by split_and!. }
    destruct (no_huge_head v (S L) m t ltac:(lia) Hh) as [Hnl|Hnp]; [fold i in Hnl|fold i in Hnp; congruence].
    assert (descends (S (S L)) m t i = true) as Hde by (unfold descends; by rewrite Ep, Hnl).
    assert (forall w, idx (S (S L)) w = i -> walk (S (S L)) m t w = walk (S L) m (pte_phys_addr (entry m t i)) w) as Hw.
    { intros w Hwi. cbn [walk]. rewrite Hwi, Ep, Hnl. done. }
    pose proof (Hsub i Hi) as Hti. rewrite Hde in Hti.
    specialize (IH (pte_phys_addr (entry m t i)) (F i) ltac:(lia) Hti).
    destruct (unmap_level (S L) m (pte_phys_addr (entry m t i))) as [ok m'].
    destruct IH as (I1 & I2 & I3 & I4). { intros k e Hk. apply (Hh k e). by rewrite Hw. }
    destruct (tree_graft (S L) m t X F i m _ m' (F i) ltac:(lia) Hnode Hi ltac:(done) eq_refl Hde I1 I2) as [Htree Hwalk];
      [by left|].
    assert (F i ⊆ X) as HFX by (intros x Hx; apply HX; right; by exists i).
    assert (F i ∪ X ∖ F i = X) as HU by (symmetry; by apply union_difference_L). rewrite HU in Htree.
    split; [exact Htree|]. split; [intros x k Hx; apply I2; by intros ?%HFX|].
    split; [by rewrite (Hw v)|]. intros w. rewrite Hwalk.
    change (same_path (S (S L)) v w) with ((i =? idx (S (S L)) w) && same_path (S L) v w). rewrite (Z.eqb_sym i).
    destruct (Z.eqb_spec (idx (S (S L)) w) i) as [E|]; [|done]. rewrite I4. by rewrite (Hw w E).
Qed.
End UnmapSpec.

(** ** Translation as a walk *)

Definition leaf_phys (v : Z) (x : nat * Z) : Z :=
  match x with
  | (3%nat, e) => Z.land e HUGE_1G_FRAME_MASK + Z.land v HUGE_1G_OFFSET_MASK
  | (2%nat, e) => Z.land e HUGE_2M_FRAME_MASK + Z.land v HUGE_2M_OFFSET_MASK
  | (_, e) => pte_phys_addr e + Z.land v 0xFFF
  end.

Lemma translate_walk m root v : translate_in m root v = leaf_phys v <$> walk 4 m root v.
Proof.
  unfold translate_in. cbn [walk]. change (idx 4 v) with (virt_index v Pml4).
  change (idx 3 v) with (virt_index v Pdpt). change (idx 2 v) with (virt_index v Pd).
  change (idx 1 v) with (virt_index v Pt). cbn [large].
  destruct (negb (is_present _)); [done|]. destruct (negb (is_present _)); [done|].
  destruct (is_huge _); [done|]. destruct (negb (is_present _)); [done|].
  destruct (is_huge _); [done|]. by destruct (negb (is_present _)).
Qed.

Lemma virt_index_div v l : virt_index v l = (v / 2 ^ level_shift l) mod 512.
Proof.
  unfold virt_index. change 0x1FF with (2 ^ 9 - 1). rewrite land_ones_mod by lia.
  by rewrite Z.shiftr_div_pow2 by (destruct l; cbn; lia).
Qed.

(** Agreeing indices at all four levels is being in the same 4 KiB page (of
    the 48-bit space the tables cover). *)
Lemma same_path_page v w : same_path 4 v w = (v / 4096 mod 2 ^ 36 =? w / 4096 mod 2 ^ 36).
Proof.
  assert (forall x, x / 4096 mod 2 ^ 36 =
    virt_index x Pt + 512 * (virt_index x Pd + 512 * (virt_index x Pdpt + 512 * virt_index x Pml4))) as Hx.
  { intros x. rewrite !virt_index_div. cbn [level_shift].
    change (2 ^ 39) with (4096 * 512 * 512 * 512). change (2 ^ 30) with (4096 * 512 * 512).
    change (2 ^ 21) with (4096 * 512). change (2 ^ 12) with 4096. rewrite <- !Z.div_div by lia.
    change (2 ^ 36) with (512 * (512 * (512 * 512))). rewrite !Z.rem_mul_r by lia. lia. }
  rewrite !Hx. assert (forall x l, 0 <= virt_index x l < 512) as Hb.
  { intros x l. rewrite virt_index_div. apply Z.mod_pos_bound. lia. }
  cbn [same_path]. unfold idx. cbn [level_of].
  pose proof (Hb v Pt). pose proof (Hb v Pd). pose proof (Hb v Pdpt). pose proof (Hb v Pml4).
  pose proof (Hb w Pt). pose proof (Hb w Pd). pose proof (Hb w Pdpt). pose proof (Hb w Pml4).
  destruct (Z.eqb_spec (virt_index v Pml4) (virt_index w Pml4)), (Z.eqb_spec (virt_index v Pdpt) (virt_index w Pdpt)),
    (Z.eqb_spec (virt_index v Pd) (virt_index w Pd)), (Z.eqb_spec (virt_index v Pt) (virt_index w Pt)); cbn;
    symmetry; rewrite ?Z.eqb_eq, ?Z.eqb_neq; lia.
Qed.

(** Two addresses in the same 4 KiB page. *)
Definition same_page (v w : Z) : bool := v / 4096 mod 2 ^ 36 =? w / 4096 mod 2 ^ 36.

Lemma leaf_phys_new phys flags w :
  phys mod 4096 = 0 -> 0 <= phys < 2 ^ 52 -> Z.land flags FRAME_MASK = 0 ->
  leaf_phys w (1%nat, new_leaf phys flags) = phys + w mod 4096.
Proof.
  intros Hm Hp Hf. cbn [leaf_phys]. unfold new_leaf. rewrite set_frame_phys; [|done|done|].
  - f_equal. change 0xFFF with (2 ^ 12 - 1). by rewrite land_ones_mod.
  - rewrite Z.land_lor_distr_l, Hf. reflexivity.
Qed.

(** An entry keeps the 52 low bits of an address. *)
Lemma land_frame_mask f : Z.land (f mod 2 ^ 52) FRAME_MASK = Z.land f FRAME_MASK.
Proof.
  apply Z.bits_inj'. intros n Hn. rewrite !Z.land_spec, frame_mask_bits by done. destruct (Z.ltb_spec n 52).
  - by rewrite Z.mod_pow2_bits_low by lia.
  - by rewrite !andb_false_r.
Qed.

Lemma new_leaf_mod f flags : new_leaf f flags = new_leaf (f mod 2 ^ 52) flags.
Proof. unfold new_leaf, pte_set_frame. by rewrite land_frame_mask. Qed.

(** The leaf found depends only on the page of the address. *)
Lemma walk_same_path L m t v w : same_path L v w = true -> walk L m t v = walk L m t w.
Proof.
  revert t. induction L as [|L IH]; intros t Hs; [done|]. cbn [same_path] in Hs.
  apply andb_true_iff in Hs as [Hi%Z.eqb_eq Hs]. cbn [walk]. rewrite Hi.
  destruct (negb _); [done|]. destruct L; [done|]. destruct (large _ _); [done|]. by apply IH.
Qed.
Lemma walk_same_page m root v w : v / 4096 mod 2 ^ 36 = w / 4096 mod 2 ^ 36 -> walk 4 m root v = walk 4 m root w.
Proof. intros E. apply walk_same_path. rewrite same_path_page. by apply Z.eqb_eq. Qed.

(** ** Theorems *)

(** C3: Mapping a 4 KiB page: on any well-formed table tree whose frames the
    allocator does not hold, and an address no large page covers,
    [map_4k_into] terminates without a panic.  On [true] the address was
    unmapped, its page now translates to the given frame and every other
    page translates as before; on [false] no translation changed, and either
    the address was already mapped or the allocator has no frame left.  In
    both cases the tables stay a tree, grown only by frames taken from the
    allocator, and no word outside the tree is written. *)
Theorem map_4k_correct {A} `{FrameSource A} {Hlaws : FrameSourceLaws A}
    (root v phys flags : Z) (m : phys_mem) (a : A) (X : gset Z)
    (Ha : fs_wf a) (Ht : tree 4 m root X) (Hav : forall x, fs_avail a x -> x ∉ X)
    (Hh : no_huge 4 m root v) (Hal : phys mod 4096 = 0) (Hp : 0 <= phys < 2 ^ 52)
    (Hf : Z.land flags FRAME_MASK = 0) :
  exists ok m' a' X', map_4k_into root v phys flags m a = Done (ok, m', a') /\
    fs_wf a' /\ tree 4 m' root X' /\
    (forall x, x ∈ X' -> x ∈ X \/ (fs_avail a x /\ ~ fs_avail a' x)) /\
    (forall x k, x ∉ X' -> entry m' x k = entry m x k) /\
    (ok = true -> translate_in m root v = None /\
       forall w, translate_in m' root w =
         if same_page v w then Some (phys + w mod 4096) else translate_in m root w) /\
    (ok = false -> (forall w, translate_in m' root w = translate_in m root w) /\
       (is_Some (translate_in m root v) \/ forall x, ~ fs_avail a' x)).
Proof.
  rewrite map_4k_into_level.
  destruct (map_level_spec v phys flags 4 m a root X ltac:(lia) Ha Ht Hav Hh) as (ok & m' & a' & X' & E & [P1 P2 P3 _ _ P6 P7 P8 P9 _]).
  exists ok, m', a', X'. split; [exact E|]. split_and!; try done.
  - intros ->. rewrite translate_walk, P8 by done. split; [done|]. intros w.
    rewrite !translate_walk, P7, same_path_page. fold (same_page v w). cbn [andb].
    destruct (same_page v w); [|done]. cbn [fmap option_fmap option_map]. by rewrite leaf_phys_new.
  - intros ->. split; [intros w; by rewrite !translate_walk, P7|]. rewrite translate_walk.
    destruct (P9 eq_refl) as [[x Hx]|Hno]; [left; rewrite Hx; by eexists|by right].
Qed.

(** Unmapping: [unmap_4k] reports whether the address was mapped, leaves
    exactly its 4 KiB page untranslated and every other page as before, keeps
    the table tree and writes nothing outside it. *)
Theorem unmap_4k_correct (pm : PageMapper) (v : Z) (m : phys_mem) (X : gset Z)
    (Ht : tree 4 m (root_phys pm) X) (Hh : no_huge 4 m (root_phys pm) v) :
  let '(ok, m') := unmap_4k pm v m in
  (ok = true <-> is_Some (translate pm m v)) /\
  tree 4 m' (root_phys pm) X /\ (forall x k, x ∉ X -> entry m' x k = entry m x k) /\
  forall w, translate pm m' w = if same_page v w then None else translate pm m w.
Proof.
  rewrite unmap_4k_level. pose proof (unmap_level_spec v 4 m (root_phys pm) X ltac:(lia) Ht Hh) as Hs.
  destruct (unmap_level v 4 m (root_phys pm)) as [ok m']. destruct Hs as (S1 & S2 & S3 & S4).
  unfold translate. split_and!; try done.
  - rewrite S3, translate_walk. by rewrite fmap_is_Some.
  - intros w. rewrite !translate_walk, S4, same_path_page. fold (same_page v w). by destruct (same_page v w).
Qed.

(** The converse of the large-page side condition: under a present 2 MiB
    entry, [map_4k_into] reports success for an address that is already
    translated, writes the leaf into the mapped data frame itself and leaves
    the translation unchanged. *)
Theorem map_4k_into_large_page_writes_data :
  let flags := Z.lor PTE_PRESENT PTE_WRITABLE in
  let m := set_entry 0x3000 0 (Z.lor (pte_set_frame 0x200000 flags) PTE_HUGE)
             (set_entry 0x2000 0 (pte_set_frame 0x3000 flags)
               (set_entry 0x1000 0 (pte_set_frame 0x2000 flags) ∅)) in
  translate_in m 0x1000 0x5000 = Some 0x205000 /\
  exists m', map_4k_into 0x1000 0x5000 0x700000 flags m demo_alloc = Done (true, m', demo_alloc) /\
    entry m 0x200000 5 = 0 /\ entry m' 0x200000 5 = 0x700003 /\ translate_in m' 0x1000 0x5000 = Some 0x205000.
Proof.
  intros flags m. split; [reflexivity|].
  exists (set_entry 0x200000 5 0x700003 m). split_and!; vm_compute; reflexivity.
Qed.

(** ** Witnesses *)

Definition demo_frames : BitmapFrameAllocator := mkAlloc [0] 0x100000 64 64.

Lemma demo_frames_wf : fs_wf demo_frames.
Proof.
  split; [|vm_compute; congruence]. split.
  - repeat constructor; vm_compute; congruence.
  - split; vm_compute; congruence.
  - reflexivity.
  - vm_compute. congruence.
  - split; vm_compute; congruence.
  - vm_compute. reflexivity.
Qed.

Lemma demo_frames_disjoint x : fs_avail demo_frames x -> x ∉ ({[ 0x1000 ]} : gset Z).
Proof. intros (i & [Hi _] & _ & ->). rewrite not_elem_of_singleton. unfold frame_addr. cbn [base demo_frames]. lia. Qed.

Lemma demo_root_tree : tree 4 ∅ 0x1000 {[ 0x1000 ]}.
Proof. apply tree_empty; [lia|done]. Qed.

Lemma demo_no_huge v : no_huge 4 ∅ 0x1000 v.
Proof. intros k e H. destruct (tree_empty 4 ∅ 0x1000) as [_ Hw]; [lia|done|]. by rewrite Hw in H. Qed.

Lemma map_4k_correct_witness :
  exists ok m' a' X', map_4k_into 0x1000 0x400000 0x7000 PTE_USER ∅ demo_frames = Done (ok, m', a') /\
    fs_wf a' /\ tree 4 m' 0x1000 X'.
Proof.
  destruct (map_4k_correct 0x1000 0x400000 0x7000 PTE_USER ∅ demo_frames {[ 0x1000 ]} demo_frames_wf demo_root_tree
              demo_frames_disjoint (demo_no_huge _)) as (ok & m' & a' & X' & H1 & H2 & H3 & _).
  - reflexivity.
  - split; vm_compute; congruence.
  - reflexivity.
  - exists ok, m', a', X'. split; [exact H1|]. split; [exact H2|exact H3].
Defined.

Lemma unmap_4k_correct_witness :
  let '(ok, m') := unmap_4k {| phys_offset := 0; root_phys := 0x1000 |} 0x400000 ∅ in
  tree 4 m' 0x1000 {[ 0x1000 ]}.
Proof.
  pose proof (unmap_4k_correct {| phys_offset := 0; root_phys := 0x1000 |} 0x400000 ∅ {[ 0x1000 ]}
                demo_root_tree (demo_no_huge _)) as H.
  destruct (unmap_4k _ _ _) as [ok m']. apply H.
Defined.
