(* ===== verification/ElfLoader.v ===== *)
(** * ELF loader (omni-kernel: bare_metal/elf_loader.rs)

    The header parser, the iterator over [PT_LOAD] program headers, and the
    loader that allocates a frame per page, maps it, copies the file image,
    zeroes the rest and relocates position-independent images.  A file is a
    list of bytes.  The loader writes bytes through the direct map; here it
    writes the bytes of the words of the same physical memory in which
    [Paging] keeps the tables. *)

From Stdlib Require Import ZArith Lia.
From stdpp Require Import base numbers list gmap sets.
From S2P Require Import Prelude FrameAlloc Paging.

(** ** Constants and data *)

Definition ELF_MAGIC : list Z := [0x7f; 0x45; 0x4c; 0x46].
Definition ELFCLASS64 : Z := 2.
Definition ELFDATA2LSB : Z := 1.
Definition ET_EXEC : Z := 2.
Definition ET_DYN : Z := 3.
Definition EM_X86_64 : Z := 62.
Definition PT_LOAD : Z := 1.
Definition PF_X : Z := 1.
Definition PF_W : Z := 2.
Definition PF_R : Z := 4.

Inductive ElfError :=
| TooShort | BadMagic | NotElf64 | NotLittleEndian | UnsupportedMachine | UnsupportedType | BadPhdrs
| OutOfFrames | MappingFailed.

Record LoadSegment := { seg_virt_addr : Z; seg_file_data : list Z; seg_mem_size : Z; seg_flags : Z }.

Record SegIter := { si_data : list Z; si_phoff : Z; si_phentsize : Z; si_phnum : Z; si_idx : Z }.

Record Elf64 := {
  elf_data : list Z; elf_entry : Z; elf_type : Z; elf_phoff : Z; elf_phentsize : Z; elf_phnum : Z }.

(** ** Reading integers *)

Definition read_le (n : Z) (data : list Z) (off : Z) : run (option Z) :=
  stop ← add64 off n; Done (from_le_bytes <$> slice_get data off stop).

Definition r_u16 (data : list Z) (off : Z) : run (option Z) := read_le 2 data off.
Definition r_u32 (data : list Z) (off : Z) : run (option Z) := read_le 4 data off.
Definition r_u64 (data : list Z) (off : Z) : run (option Z) := read_le 8 data off.

(** [let Some(x) = c else { return Err(e) }], and [c.ok_or(e)?]. *)
Definition or_err {T U} (e : ElfError) (c : run (option T)) (k : T -> run (result ElfError U))
    : run (result ElfError U) :=
  o ← c; match o with None => Done (Err e) | Some x => k x end.

(** ** Program headers *)

(** The fields of the [PT_LOAD] header at [base]. *)
Definition read_segment (data : list Z) (base : Z) : run (result ElfError LoadSegment) :=
  b4 ← add64 base 4; or_err BadPhdrs (r_u32 data b4) (fun p_flags =>
  b8 ← add64 base 8; or_err BadPhdrs (r_u64 data b8) (fun p_offset =>
  b16 ← add64 base 16; or_err BadPhdrs (r_u64 data b16) (fun p_vaddr =>
  b32 ← add64 base 32; or_err BadPhdrs (r_u64 data b32) (fun p_filesz =>
  b40 ← add64 base 40; or_err BadPhdrs (r_u64 data b40) (fun p_memsz =>
  stop ← add64 p_offset p_filesz;
  Done (match slice_get data p_offset stop with
        | None => Err BadPhdrs
        | Some file_data => Ok {| seg_virt_addr := p_vaddr; seg_file_data := file_data;
                                  seg_mem_size := p_memsz; seg_flags := p_flags |}
        end)))))).

(** [SegIter::next]: skip the entries that are not [PT_LOAD].  Each round
    advances [idx], so [phnum - idx] rounds are enough. *)
Fixpoint seg_next_loop (fuel : nat) (it : SegIter) : run (option (result ElfError LoadSegment) * SegIter) :=
  match fuel with
  | O => Done (None, it)
  | S fuel =>
      if si_phnum it <=? si_idx it then Done (None, it) else
      let i := si_idx it in
      let it := {| si_data := si_data it; si_phoff := si_phoff it; si_phentsize := si_phentsize it;
                   si_phnum := si_phnum it; si_idx := i + 1 |} in
      off ← mul64 i (si_phentsize it);
      base ← add64 (si_phoff it) off;
      p_type ← r_u32 (si_data it) base;
      match p_type with
      | None => Done (Some (Err BadPhdrs), it)
      | Some p_type =>
          if negb (p_type =? PT_LOAD) then seg_next_loop fuel it
          else seg ← read_segment (si_data it) base; Done (Some seg, it)
      end
  end.

Definition seg_next (it : SegIter) : run (option (result ElfError LoadSegment) * SegIter) :=
  seg_next_loop (S (Z.to_nat (si_phnum it - si_idx it))) it.

(** ** The file header *)

Definition parse (data : list Z) : run (result ElfError Elf64) :=
  if Z.of_nat (length data) <? 64 then Done (Err TooShort)
  else if negb (bool_decide (slice_get data 0 4 = Some ELF_MAGIC)) then Done (Err BadMagic)
  else if negb (bool_decide (data !! 4%nat = Some ELFCLASS64)) then Done (Err NotElf64)
  else if negb (bool_decide (data !! 5%nat = Some ELFDATA2LSB)) then Done (Err NotLittleEndian)
  else
    or_err TooShort (r_u16 data 16) (fun e_type =>
    if negb (e_type =? ET_EXEC) && negb (e_type =? ET_DYN) then Done (Err UnsupportedType) else
    or_err TooShort (r_u16 data 18) (fun e_machine =>
    if negb (e_machine =? EM_X86_64) then Done (Err UnsupportedMachine) else
    or_err TooShort (r_u64 data 24) (fun entry =>
    or_err TooShort (r_u64 data 32) (fun phoff =>
    or_err TooShort (r_u16 data 54) (fun phentsize =>
    or_err TooShort (r_u16 data 56) (fun phnum =>
    if (phentsize <? 56) || (phoff =? 0) || (phnum =? 0) then Done (Err BadPhdrs) else
    size ← mul64 phnum phentsize;
    stop ← add64 phoff size;
    if Z.of_nat (length data) <? stop then Done (Err TooShort) else
    Done (Ok {| elf_data := data; elf_entry := entry; elf_type := e_type; elf_phoff := phoff;
                elf_phentsize := phentsize; elf_phnum := phnum |}))))))).

Definition load_bias (e : Elf64) : Z := if elf_type e =? ET_DYN then 0x400000 else 0.

Definition entry_point (e : Elf64) : run Z := add64 (elf_entry e) (load_bias e).

Definition load_segments (e : Elf64) : SegIter :=
  {| si_data := elf_data e; si_phoff := elf_phoff e; si_phentsize := elf_phentsize e;
     si_phnum := elf_phnum e; si_idx := 0 |}.

Definition pte_flags (elf_flags : Z) : Z :=
  let f := Z.lor PTE_PRESENT PTE_USER in
  if negb (Z.land elf_flags PF_W =? 0) then Z.lor f PTE_WRITABLE else f.

(** ** Bytes of physical memory

    Byte [a] lies in word [(a mod 4096) / 8] of the frame [a - a mod 4096],
    at bits [8 * (a mod 8)] and up. *)

Definition byte_frame (a : Z) : Z := a - a mod 4096.
Definition byte_word (a : Z) : Z := a mod 4096 / 8.
Definition byte_shift (a : Z) : Z := 8 * (a mod 8).

Definition mem_byte (m : phys_mem) (a : Z) : Z :=
  Z.land (Z.shiftr (entry m (byte_frame a) (byte_word a)) (byte_shift a)) 255.

Definition set_byte (a b : Z) (m : phys_mem) : phys_mem :=
  set_entry (byte_frame a) (byte_word a)
    (Z.lor (Z.ldiff (entry m (byte_frame a) (byte_word a)) (Z.shiftl 255 (byte_shift a)))
           (Z.shiftl b (byte_shift a))) m.

(** [ptr::copy_nonoverlapping] from a byte slice, and [ptr::write_bytes]. *)
Fixpoint copy_bytes (dst : Z) (src : list Z) (m : phys_mem) : phys_mem :=
  match src with
  | [] => m
  | b :: src => copy_bytes (dst + 1) src (set_byte dst b m)
  end.
Definition write_bytes (dst v : Z) (n : nat) (m : phys_mem) : phys_mem := copy_bytes dst (replicate n v) m.

(** ** Relocation of position-independent images *)

Definition PT_DYNAMIC : Z := 2.
Definition DT_RELA : Z := 7.
Definition DT_RELASZ : Z := 8.
Definition R_X86_64_RELATIVE : Z := 8.

(** [r_u64(..).unwrap_or(0)]. *)
Definition r_u64_or_0 (data : list Z) (off : Z) : run Z := o ← r_u64 data off; Done (default 0 o).

(** File offset and size of the first [PT_DYNAMIC] entry, [(0, 0)] without. *)
Fixpoint find_dynamic (n : nat) (e : Elf64) (i : Z) : run (Z * Z) :=
  match n with
  | O => Done (0, 0)
  | S n =>
      off ← mul64 i (elf_phentsize e);
      base ← add64 (elf_phoff e) off;
      p_type ← r_u32 (elf_data e) base;
      if bool_decide (p_type = Some PT_DYNAMIC) then
        b8 ← add64 base 8; dyn_offset ← r_u64_or_0 (elf_data e) b8;
        b32 ← add64 base 32; dyn_size ← r_u64_or_0 (elf_data e) b32;
        Done (dyn_offset, dyn_size)
      else find_dynamic n e (i + 1)
  end.

(** The [DYNAMIC] entries from [pos]: the last [DT_RELA] and [DT_RELASZ]
    values before the end or a [DT_NULL].  A position advances by 16 and stays
    below the end, so [dyn_size / 16] rounds are enough. *)
Fixpoint find_rela (fuel : nat) (data : list Z) (pos dyn_offset dyn_size rela_off rela_sz : Z) : run (Z * Z) :=
  match fuel with
  | O => Done (rela_off, rela_sz)
  | S fuel =>
      p16 ← add64 pos 16;
      stop ← add64 dyn_offset dyn_size;
      if stop <? p16 then Done (rela_off, rela_sz) else
      tag ← r_u64_or_0 data pos;
      p8 ← add64 pos 8;
      val ← r_u64_or_0 data p8;
      if tag =? 0 then Done (rela_off, rela_sz) else
      find_rela fuel data p16 dyn_offset dyn_size
        (if tag =? DT_RELA then val else rela_off) (if tag =? DT_RELASZ then val else rela_sz)
  end.

(** One RELA entry. *)
Definition apply_rela (data : list Z) (root bias ent_off : Z) (m : phys_mem) : run phys_mem :=
  r_offset ← r_u64 data ent_off;
  match r_offset with
  | None => Done m
  | Some r_offset =>
      e8 ← add64 ent_off 8;
      r_info ← r_u64 data e8;
      match r_info with
      | None => Done m
      | Some r_info =>
          e16 ← add64 ent_off 16;
          r_addend ← r_u64 data e16;
          match r_addend with
          | None => Done m
          | Some r_addend =>
              if negb (Z.land r_info 0xFFFFFFFF =? R_X86_64_RELATIVE) then Done m else
              target_va ← add64 bias r_offset;
              value ← add64 bias r_addend;
              Done (match translate_in m root target_va with
                    | Some phys => copy_bytes phys (to_le_bytes 8 value) m
                    | None => m
                    end)
          end
      end
  end.

Fixpoint rela_loop (n : nat) (data : list Z) (root bias rela_file_off i : Z) (m : phys_mem) : run phys_mem :=
  match n with
  | O => Done m
  | S n =>
      off ← mul64 i 24;
      ent_off ← add64 rela_file_off off;
      m' ← apply_rela data root bias ent_off m;
      rela_loop n data root bias rela_file_off (i + 1) m'
  end.

Definition apply_relative_relocs (e : Elf64) (root bias : Z) (m : phys_mem) : run phys_mem :=
  '(dyn_offset, dyn_size) ← find_dynamic (Z.to_nat (elf_phnum e)) e 0;
  if (dyn_offset =? 0) || (dyn_size =? 0) then Done m else
  '(rela_off, rela_sz) ← find_rela (S (Z.to_nat (dyn_size / 16))) (elf_data e) dyn_offset dyn_offset dyn_size 0 0;
  if (rela_off =? 0) || (rela_sz =? 0) then Done m else
  rela_loop (Z.to_nat (rela_sz / 24)) (elf_data e) root bias rela_off 0 m.

(** ** The loader *)

Section Loader.
Context {A : Type} `{FrameSource A}.

(** What a page receives: the file bytes from [start] on, then zeroes. *)
Definition fill_page (file : list Z) (start stop frame : Z) (m : phys_mem) : phys_mem :=
  let len := Z.of_nat (length file) in
  if start <? len then
    let copy_len := Z.to_nat (Z.min len stop - start) in
    write_bytes (frame + Z.of_nat copy_len) 0 (4096 - copy_len)
      (copy_bytes frame (take copy_len (drop (Z.to_nat start) file)) m)
  else write_bytes frame 0 4096 m.

(** One round of the page loop: a frame, a mapping, the page's bytes. *)
Definition load_page (root page_base page_intra : Z) (seg : LoadSegment) (page_i : Z) (m : phys_mem) (a : A)
    : run (result ElfError unit * phys_mem * A) :=
  off ← mul64 page_i 4096;
  virt ← add64 page_base off;
  x ← fs_alloc a;
  match fst x with
  | None => Done (Err OutOfFrames, m, snd x)
  | Some frame =>
      '(ok, m1, a1) ← map_4k_into root virt frame (pte_flags (seg_flags seg)) m (snd x);
      if negb ok then Done (Err MappingFailed, m1, a1) else
      let page_file_start := saturating_sub off page_intra in
      page_file_end ← add64 page_file_start 4096;
      Done (Ok (), fill_page (seg_file_data seg) page_file_start page_file_end frame m1, a1)
  end.

Fixpoint load_pages (n : nat) (root page_base page_intra : Z) (seg : LoadSegment) (page_i : Z) (m : phys_mem) (a : A)
    : run (result ElfError unit * phys_mem * A) :=
  match n with
  | O => Done (Ok (), m, a)
  | S n =>
      '(r, m1, a1) ← load_page root page_base page_intra seg page_i m a;
      match r with
      | Err e => Done (Err e, m1, a1)
      | Ok _ => load_pages n root page_base page_intra seg (page_i + 1) m1 a1
      end
  end.

Definition load_segment (root bias : Z) (seg : LoadSegment) (m : phys_mem) (a : A)
    : run (result ElfError unit * phys_mem * A) :=
  v ← add64 (seg_virt_addr seg) bias;
  let page_base := Z.land v (not64 0xFFF) in
  let page_intra := Z.land (seg_virt_addr seg) 0xFFF in
  total_mem ← add64 page_intra (seg_mem_size seg);
  rounded ← add64 total_mem 4095;
  load_pages (Z.to_nat (rounded / 4096)) root page_base page_intra seg 0 m a.

(** The segment loop: the iterator yields at most [phnum] items. *)
Fixpoint load_loop (fuel : nat) (root bias : Z) (it : SegIter) (m : phys_mem) (a : A)
    : run (result ElfError unit * phys_mem * A) :=
  match fuel with
  | O => Done (Ok (), m, a)
  | S fuel =>
      '(item, it') ← seg_next it;
      match item with
      | None => Done (Ok (), m, a)
      | Some (Err e) => Done (Err e, m, a)
      | Some (Ok seg) =>
          '(r, m1, a1) ← load_segment root bias seg m a;
          match r with
          | Err e => Done (Err e, m1, a1)
          | Ok _ => load_loop fuel root bias it' m1 a1
          end
      end
  end.

Definition map_and_load_into (e : Elf64) (root : Z) (m : phys_mem) (a : A)
    : run (result ElfError Z * phys_mem * A) :=
  let bias := load_bias e in
  '(r, m1, a1) ← load_loop (S (Z.to_nat (elf_phnum e))) root bias (load_segments e) m a;
  match r with
  | Err err => Done (Err err, m1, a1)
  | Ok _ =>
      m2 ← (if negb (bias =? 0) then apply_relative_relocs e root bias m1 else Done m1);
      entry ← add64 (elf_entry e) bias;
      Done (Ok entry, m2, a1)
  end.

Definition map_and_load (e : Elf64) (pm : PageMapper) (m : phys_mem) (a : A) : run (result ElfError Z * phys_mem * A) :=
  map_and_load_into e (root_phys pm) m a.
End Loader.

(** ** Lemmas on bytes *)

Lemma testbit_255 n : 0 <= n -> Z.testbit 255 n = (n <? 8).
Proof.
  intros Hn. change 255 with (Z.ones 8). rewrite Z.testbit_ones by lia.
  by rewrite (proj2 (Z.leb_le 0 n)).
Qed.

(** Replacing the byte at [8 * i] of a word. *)
Lemma byte_of_replaced w b i j :
  is_u8 b -> 0 <= i -> 0 <= j ->
  Z.land (Z.shiftr (Z.lor (Z.ldiff w (Z.shiftl 255 (8 * i))) (Z.shiftl b (8 * i))) (8 * j)) 255 =
  if j =? i then b else Z.land (Z.shiftr w (8 * j)) 255.
Proof.
  intros Hb Hi Hj. apply Z.bits_inj'. intros n Hn.
  rewrite Z.land_spec, testbit_255, Z.shiftr_spec, Z.lor_spec, Z.ldiff_spec, !Z.shiftl_spec by lia.
  destruct (Z.ltb_spec n 8) as [Hn8|Hn8]; rewrite ?andb_true_r, ?andb_false_r.
  - destruct (Z.eqb_spec j i) as [->|Hne].
    + replace (n + 8 * i - 8 * i) with n by lia. rewrite testbit_255, (proj2 (Z.ltb_lt n 8)) by lia. cbn [negb].
      by rewrite andb_false_r.
    + rewrite Z.land_spec, (testbit_255 n), (proj2 (Z.ltb_lt n 8)), Z.shiftr_spec, andb_true_r by lia.
      destruct (decide (j < i)).
      * rewrite !(Z.testbit_neg_r _ (n + 8 * j - 8 * i)) by lia. cbn [negb]. by rewrite andb_true_r, orb_false_r.
      * rewrite testbit_255, (proj2 (Z.ltb_ge (n + 8 * j - 8 * i) 8)) by lia. cbn [negb].
        rewrite andb_true_r, (testbit_u8_high b) by (done || lia). apply orb_false_r.
  - destruct (j =? i); [by rewrite testbit_u8_high|].
    by rewrite Z.land_spec, testbit_255, (proj2 (Z.ltb_ge n 8)), andb_false_r by lia.
Qed.

Lemma mem_byte_set a b m c :
  is_u8 b -> mem_byte (set_byte a b m) c = if c =? a then b else mem_byte m c.
Proof.
  intros Hb. unfold mem_byte, set_byte. rewrite entry_set. unfold byte_frame, byte_word, byte_shift.
  pose proof (Z.div_mod a 8) as Da. pose proof (Z.div_mod c 8) as Dc.
  destruct (Z.eqb_spec (c - c mod 4096) (a - a mod 4096)) as [Ef|Ef]; cbn [andb].
  2:{ by destruct (Z.eqb_spec c a) as [->|]. }
  destruct (Z.eqb_spec (c mod 4096 / 8) (a mod 4096 / 8)) as [Ew|Ew].
  2:{ by destruct (Z.eqb_spec c a) as [->|]. }
  pose proof (Z.mod_pos_bound a 8 ltac:(lia)). pose proof (Z.mod_pos_bound c 8 ltac:(lia)).
  rewrite byte_of_replaced by (done || lia). rewrite <- Ew, <- Ef.
  assert (c mod 8 = a mod 8 <-> c = a) as Hca.
  { split; [|by intros ->]. intros E8.
    pose proof (Z.div_mod (c mod 4096) 8). pose proof (Z.div_mod (a mod 4096) 8).
    assert (forall x, x mod 4096 mod 8 = x mod 8) as Hmm.
    { intros x. apply Z.mod_mod_divide. by exists 512. }
    rewrite !Hmm in *. lia. }
  destruct (Z.eqb_spec (c mod 8) (a mod 8)), (Z.eqb_spec c a); naive_solver.
Qed.

Lemma entry_set_byte a b m x k : x <> byte_frame a -> entry (set_byte a b m) x k = entry m x k.
Proof. intros Hx. unfold set_byte. by rewrite entry_set, (proj2 (Z.eqb_neq _ _) Hx). Qed.

Lemma copy_bytes_byte dst src m c :
  Forall is_u8 src ->
  mem_byte (copy_bytes dst src m) c =
    default (mem_byte m c) (if dst <=? c then src !! Z.to_nat (c - dst) else None).
Proof.
  intros Hs. revert dst m. induction Hs as [|b src Hb Hs IH]; intros dst m; cbn [copy_bytes].
  { by destruct (dst <=? c). }
  rewrite IH, mem_byte_set by done.
  destruct (Z.leb_spec (dst + 1) c), (Z.leb_spec dst c), (Z.eqb_spec c dst) as [->|]; try lia; try done.
  - by replace (Z.to_nat (c - dst)) with (S (Z.to_nat (c - (dst + 1)))) by lia.
  - by rewrite Z.sub_diag.
Qed.

Lemma copy_bytes_entry f o src m x k :
  f mod 4096 = 0 -> 0 <= o -> o + Z.of_nat (length src) <= 4096 -> x <> f ->
  entry (copy_bytes (f + o) src m) x k = entry m x k.
Proof.
  intros Hf. revert o m. induction src as [|b src IH]; intros o m Ho Hl Hx; cbn [copy_bytes]; [done|].
  cbn [length] in Hl. rewrite <- Z.add_assoc, IH by (done || lia). apply entry_set_byte.
  unfold byte_frame. rewrite Z.add_mod, Hf, Z.add_0_l, Z.mod_mod, (Z.mod_small o) by lia. lia.
Qed.

(** A page holds the file from [start] on, zero past its end, and no other
    frame is written. *)
Lemma fill_page_spec file start f m :
  f mod 4096 = 0 -> 0 <= start -> Forall is_u8 file ->
  (forall x k, x <> f -> entry (fill_page file start (start + 4096) f m) x k = entry m x k) /\
  forall j, 0 <= j < 4096 ->
    mem_byte (fill_page file start (start + 4096) f m) (f + j) = default 0 (file !! Z.to_nat (start + j)).
Proof.
  intros Hf Hs Hfile. unfold fill_page, write_bytes.
  assert (forall n, Forall is_u8 (replicate n 0)) as Hz by (intros n; apply Forall_replicate; unfold is_u8; lia).
  destruct (Z.ltb_spec start (Z.of_nat (length file))) as [Hlt|Hge].
  - set (n := Z.to_nat _). set (chunk := take n (drop (Z.to_nat start) file)).
    assert (length chunk = n) as Hn by (unfold chunk, n; rewrite length_take, length_drop; lia).
    assert (Forall is_u8 chunk) as Hc by (by apply Forall_take, Forall_drop).
    assert (n <= 4096)%nat by lia. split.
    + intros x k Hx. rewrite copy_bytes_entry by (rewrite ?length_replicate; done || lia).
      rewrite <- (Z.add_0_r f) at 1. by apply copy_bytes_entry; [done| |rewrite Hn; lia|done].
    + intros j Hj. rewrite !copy_bytes_byte, (proj2 (Z.leb_le f (f + j))) by (done || lia).
      replace (f + j - f) with j by lia.
      destruct (Z.leb_spec (f + Z.of_nat n) (f + j)).
      * rewrite lookup_replicate_2 by lia. cbn. symmetry. rewrite lookup_ge_None_2 by lia. done.
      * cbn [default from_option]. unfold chunk. rewrite lookup_take_lt, lookup_drop by lia.
        replace (Z.to_nat start + Z.to_nat j)%nat with (Z.to_nat (start + j)) by lia.
        destruct (lookup_lt_is_Some_2 file (Z.to_nat (start + j))) as [b Hb]; [lia|]. by rewrite Hb.
  - split.
    + intros x k Hx. rewrite <- (Z.add_0_r f) at 1.
      apply copy_bytes_entry; [done|lia| |done]. rewrite length_replicate. lia.
    + intros j Hj. rewrite copy_bytes_byte, (proj2 (Z.leb_le f (f + j))) by (done || lia).
      rewrite lookup_replicate_2 by lia. rewrite lookup_ge_None_2 by lia. done.
Qed.

(** ** Pages of an image

    What one round of the page loop asks for: a page address, its flags, and
    the part of the file it shows. *)

Record page_spec := { pg_virt : Z; pg_flags : Z; pg_file : list Z; pg_start : Z }.

Definition pg_byte (p : page_spec) (j : Z) : Z := default 0 (pg_file p !! Z.to_nat (pg_start p + j)).
Definition pg_number (p : page_spec) : Z := pg_virt p / 4096 mod 2 ^ 36.

Definition seg_page (bias : Z) (s : LoadSegment) (i : Z) : page_spec :=
  {| pg_virt := seg_virt_addr s + bias - (seg_virt_addr s + bias) mod 4096 + i * 4096;
     pg_flags := pte_flags (seg_flags s); pg_file := seg_file_data s;
     pg_start := saturating_sub (i * 4096) (seg_virt_addr s mod 4096) |}.

Definition seg_npages (s : LoadSegment) : Z := (seg_virt_addr s mod 4096 + seg_mem_size s + 4095) / 4096.

Definition seg_pages (bias : Z) (s : LoadSegment) : list page_spec :=
  seg_page bias s <$> seqZ 0 (seg_npages s).

(** A segment of user space: its bytes are bytes and it ends below 2^47. *)
Record seg_ok (bias : Z) (s : LoadSegment) : Prop := {
  so_virt : 0 <= seg_virt_addr s;
  so_mem : 0 <= seg_mem_size s;
  so_end : seg_virt_addr s + bias + seg_mem_size s <= 2 ^ 47;
  so_file : Forall is_u8 (seg_file_data s);
}.

(** The segments the iterator yields until its end or its first error. *)
Fixpoint collect (fuel : nat) (it : SegIter) : run (result ElfError (list LoadSegment)) :=
  match fuel with
  | O => Done (Ok [])
  | S fuel =>
      '(item, it') ← seg_next it;
      match item with
      | None => Done (Ok [])
      | Some (Err e) => Done (Err e)
      | Some (Ok s) => r ← collect fuel it'; Done (r' ← r; Ok (s :: r'))
      end
  end.

Definition segments (e : Elf64) : run (result ElfError (list LoadSegment)) :=
  collect (S (Z.to_nat (elf_phnum e))) (load_segments e).

Lemma pte_flags_mask fl : Z.land (pte_flags fl) FRAME_MASK = 0.
Proof. unfold pte_flags. by destruct (negb _). Qed.

(** The rounds given to [find_rela] are enough: more change nothing. *)
Lemma find_rela_fuel fuel k data pos off size ro rs :
  (0 < fuel)%nat -> off + size - pos < 16 * Z.of_nat fuel ->
  find_rela (fuel + k) data pos off size ro rs = find_rela fuel data pos off size ro rs.
Proof.
  revert pos ro rs. induction fuel as [|fuel IH]; intros pos ro rs Hf Hm; [lia|]. cbn [find_rela Nat.add].
  destruct (add64 pos 16) as [p16|] eqn:E16; cbn [mbind run_bind]; [|done]. apply add64_inv in E16 as [-> _].
  destruct (add64 off size) as [stop|] eqn:Est; cbn [mbind run_bind]; [|done]. apply add64_inv in Est as [-> _].
  destruct (Z.ltb_spec (off + size) (pos + 16)); [done|].
  destruct (r_u64_or_0 data pos) as [tag|]; cbn [mbind run_bind]; [|done].
  destruct (add64 pos 8) as [p8|]; cbn [mbind run_bind]; [|done].
  destruct (r_u64_or_0 data p8) as [val|]; cbn [mbind run_bind]; [|done].
  destruct (tag =? 0); [done|]. apply IH; lia.
Qed.

(** ** The loading invariant *)

Section LoaderSpec.
Context {A : Type} `{FrameSource A} {Hlaws : FrameSourceLaws A}.
Context (root : Z) (m0 : phys_mem) (a0 : A) (X0 : gset Z).
Context (Hhuge : forall w, 0 <= w < 2 ^ 47 -> no_huge 4 m0 root w).

(** The leaf of [w] once the pages [D] (newest first, each with its frame) are
    mapped over [m0]. *)
Fixpoint walk_over (D : list (page_spec * Z)) (w : Z) : option (nat * Z) :=
  match D with
  | [] => walk 4 m0 root w
  | (p, f) :: D => if same_path 4 (pg_virt p) w then Some (1%nat, new_leaf f (pg_flags p)) else walk_over D w
  end.

Record load_inv (D : list (page_spec * Z)) (m : phys_mem) (a : A) (X : gset Z) : Prop := {
  li_wf : fs_wf a;
  li_tree : tree 4 m root X;
  li_apart : forall x, fs_avail a x -> x ∉ X;
  li_taken : forall x, fs_avail a x -> fs_avail a0 x;
  li_grown : forall x, x ∈ X -> x ∈ X0 \/ fs_avail a0 x;
  li_frames : forall p f, (p, f) ∈ D ->
    f ∉ X /\ ~ fs_avail a f /\ fs_avail a0 f /\ f mod 4096 = 0 /\ 0 <= f < 2 ^ 52;
  li_bytes : forall p f j, (p, f) ∈ D -> 0 <= j < 4096 -> mem_byte m (f + j) = pg_byte p j;
  li_walk : forall w, walk 4 m root w = walk_over D w;
  li_nodup : NoDup (pg_number <$> D.*1);
  li_fresh : forall p, p ∈ D.*1 -> walk 4 m0 root (pg_virt p) = None;
  li_out : forall x k, x ∉ X0 -> ~ fs_avail a0 x -> entry m x k = entry m0 x k;
}.

Lemma same_path_number p w : same_path 4 (pg_virt p) w = (pg_number p =? w / 4096 mod 2 ^ 36).
Proof. apply same_path_page. Qed.

Lemma walk_over_miss D w :
  (forall p, p ∈ D.*1 -> pg_number p <> w / 4096 mod 2 ^ 36) -> walk_over D w = walk 4 m0 root w.
Proof.
  induction D as [|[p f] D IH]; intros Hw; cbn [walk_over]; [done|].
  rewrite same_path_number, (proj2 (Z.eqb_neq _ _)) by (apply Hw; left).
  apply IH. intros q Hq. apply Hw. by right.
Qed.

Lemma walk_over_hit D p f w :
  NoDup (pg_number <$> D.*1) -> (p, f) ∈ D -> pg_number p = w / 4096 mod 2 ^ 36 ->
  walk_over D w = Some (1%nat, new_leaf f (pg_flags p)).
Proof.
  induction D as [|[q g] D IH]; intros Hn Hin Hw; [by apply elem_of_nil in Hin|].
  cbn in Hn. apply NoDup_cons in Hn as [Hq Hn]. cbn [walk_over]. rewrite same_path_number.
  apply elem_of_cons in Hin as [[= <- <-]|Hin].
  - by rewrite (proj2 (Z.eqb_eq _ _) Hw).
  - destruct (Z.eqb_spec (pg_number q) (w / 4096 mod 2 ^ 36)) as [E|]; [|by apply IH].
    destruct Hq. apply list_elem_of_fmap. exists p. split; [congruence|].
    apply list_elem_of_fmap. by exists (p, f).
Qed.

(** A mapped address is in a page of [D] or was mapped at the start. *)
Lemma walk_over_some D w :
  is_Some (walk_over D w) ->
  (exists p, p ∈ D.*1 /\ pg_number p = w / 4096 mod 2 ^ 36) \/ is_Some (walk 4 m0 root w).
Proof.
  induction D as [|[p f] D IH]; cbn [walk_over]; [by right|]. rewrite same_path_number.
  destruct (Z.eqb_spec (pg_number p) (w / 4096 mod 2 ^ 36)) as [E|]; intros Hs.
  - left. exists p. split; [left|done].
  - destruct (IH Hs) as [(q & Hq & E)|]; [left; exists q; split; [by right|done]|by right].
Qed.

Lemma load_inv_no_huge D m a X w : load_inv D m a X -> 0 <= w < 2 ^ 47 -> no_huge 4 m root w.
Proof.
  intros Hi Hw k e. rewrite (li_walk _ _ _ _ Hi). intros Hk. clear Hi.
  induction D as [|[p f] D IH]; cbn [walk_over] in Hk; [by apply (Hhuge w Hw) in Hk|].
  destruct (same_path 4 (pg_virt p) w); [by injection Hk as <- <-|by apply IH].
Qed.

Lemma mem_byte_frame m m' f j :
  f mod 4096 = 0 -> 0 <= j < 4096 -> (forall k, entry m' f k = entry m f k) ->
  mem_byte m' (f + j) = mem_byte m (f + j).
Proof.
  intros Hf Hj He. unfold mem_byte. assert (byte_frame (f + j) = f) as ->; [|by rewrite He].
  unfold byte_frame. rewrite Z.add_mod, Hf, Z.add_0_l, Z.mod_mod, (Z.mod_small j) by lia. lia.
Qed.

(** Taking a frame from the allocator. *)
Lemma load_inv_alloc D m a X f a1 :
  load_inv D m a X -> fs_wf a1 -> (forall x, fs_avail a1 x <-> fs_avail a x /\ x <> f) -> load_inv D m a1 X.
Proof.
  intros [I1 I2 I3 I4 I5 I6 I7 I8 I9 I10 I11] Hw Hav. split; try done.
  - intros x [Hx _]%Hav. by apply I3.
  - intros x [Hx _]%Hav. by apply I4.
  - intros p g Hin. destruct (I6 p g Hin) as (H1 & H2 & H3). split_and!; try done; try apply H3. rewrite Hav. tauto.
Qed.

(** A mapping attempt that fails leaves the loaded pages as they were. *)
Lemma load_inv_map D m a X v phys flags m' a' X' ok :
  load_inv D m a X -> map_post v phys flags 4 m a root X ok m' a' X' ->
  (forall p f, (p, f) ∈ D -> f ∉ X' /\ ~ fs_avail a' f) /\
  (forall x, fs_avail a' x -> x ∉ X') /\ (forall x, x ∈ X' -> x ∈ X0 \/ fs_avail a0 x).
Proof.
  intros [I1 I2 I3 I4 I5 I6 I7 I8 I9 I10 I11] [P1 P2 P3 P4 P5 P6 P7 P8 P9 P10]. split_and!.
  - intros p f Hin. destruct (I6 p f Hin) as (H1 & H2 & _). split.
    + intros Hx. destruct (P3 f Hx) as [|[? _]]; done.
    + intros Hx. by apply H2, P5.
  - intros x Hx Hin. destruct (P3 x Hin) as [|[_ ?]]; [by apply (I3 x (P5 x Hx))|done].
  - intros x Hin. destruct (P3 x Hin) as [|[? _]]; [by apply I5|right; by apply I4].
Qed.

(** A failed attempt keeps the invariant: the tables may have grown, no
    translation changed. *)
Lemma load_inv_map_fail D m a X v phys flags m' a' X' :
  load_inv D m a X -> map_post v phys flags 4 m a root X false m' a' X' -> load_inv D m' a' X'.
Proof.
  intros Hi Hp. destruct (load_inv_map _ _ _ _ _ _ _ _ _ _ _ Hi Hp) as (H1 & H2 & H3).
  destruct Hi as [I1 I2 I3 I4 I5 I6 I7 I8 I9 I10 I11], Hp as [P1 P2 P3 P4 P5 P6 P7 P8 P9 P10]. split; try done.
  - intros x Hx. by apply I4, P5.
  - intros p f Hin. destruct (I6 p f Hin) as (_ & _ & H4). destruct (H1 p f Hin). split; [done|]. split; [done|]. exact H4.
  - intros p f j Hin Hj. rewrite <- (I7 p f j Hin Hj). destruct (I6 p f Hin) as (_ & _ & _ & Hf & _).
    apply mem_byte_frame; [done|done|]. intros k. apply P6. by apply (H1 p f).
  - intros w. rewrite P7. apply I8.
  - intros x k Hx Hn. rewrite P6, I11; try done. by intros [|]%H3.
Qed.

(** A successful attempt with a frame [f] just taken, and the page's bytes
    then written to it, adds the page. *)
Lemma load_inv_page D m a X p f m' a' X' :
  load_inv D m a X -> map_post (pg_virt p) f (pg_flags p) 4 m a root X true m' a' X' ->
  ~ fs_avail a f -> fs_avail a0 f -> f ∉ X -> f ∉ D.*2 -> f mod 4096 = 0 -> 0 <= f < 2 ^ 52 ->
  0 <= pg_start p -> Forall is_u8 (pg_file p) ->
  load_inv ((p, f) :: D) (fill_page (pg_file p) (pg_start p) (pg_start p + 4096) f m') a' X'.
Proof.
  intros Hi Hp Hfa Hfa0 HfX HfD Hf Hfr Hst Hu8. destruct (load_inv_map _ _ _ _ _ _ _ _ _ _ _ Hi Hp) as (H1 & H2 & H3).
  destruct (fill_page_spec (pg_file p) (pg_start p) f m' Hf Hst Hu8) as [Hfill Hbytes].
  set (m2 := fill_page _ _ _ _ _) in *.
  destruct Hi as [I1 I2 I3 I4 I5 I6 I7 I8 I9 I10 I11], Hp as [P1 P2 P3 P4 P5 P6 P7 P8 P9 P10].
  assert (f ∉ X') as HfX' by (intros Hx; destruct (P3 f Hx) as [|[? _]]; done).
  destruct (tree_frame 4 m' m2 root X' P2) as [Ht Hw].
  { intros x k Hx. apply Hfill. by intros ->. }
  specialize (P8 eq_refl). rewrite I8 in P8.
  assert (forall q, q ∈ D.*1 -> pg_number q <> pg_number p) as Hnew.
  { intros q Hq E. apply list_elem_of_fmap in Hq as [[q' g] [-> Hin]]. cbn in E.
    rewrite (walk_over_hit D q' g (pg_virt p) I9 Hin E) in P8. done. }
  split; try done.
  - intros x Hx. by apply I4, P5.
  - intros q g [[= -> ->]|Hin]%elem_of_cons.
    + split_and!; try done; try lia. by intros Hx%P5.
    + destruct (I6 q g Hin) as (_ & _ & H4). destruct (H1 q g Hin). split; [done|]. split; [done|]. exact H4.
  - intros q g j [[= -> ->]|Hin]%elem_of_cons Hj; [by apply Hbytes|].
    rewrite <- (I7 q g j Hin Hj). destruct (I6 q g Hin) as (_ & _ & _ & Hg & _).
    apply mem_byte_frame; [done|done|]. intros k. rewrite Hfill, P6; [done|by apply (H1 q g)|].
    intros ->. apply HfD, list_elem_of_fmap. by exists (q, f).
  - intros w. rewrite Hw, P7. cbn [walk_over andb]. by rewrite I8.
  - cbn. apply NoDup_cons. split; [|done]. intros (q & E & Hq)%list_elem_of_fmap. by apply (Hnew q Hq).
  - intros q [->|Hq]%elem_of_cons; [|by apply I10]. rewrite <- P8. symmetry. apply walk_over_miss. exact Hnew.
  - intros x k Hx Hn. rewrite Hfill, P6, I11; try done; [by intros [|]%H3|by intros ->].
Qed.

(** The whole sequence of pages to load; [bias] is page-aligned. *)
Context (pages : list page_spec) (bias : Z) (Hbias : bias mod 4096 = 0) (Hbias0 : 0 <= bias).

(** Why a load may stop: no frame left, or a page mapped twice. *)
Definition load_failure (e : ElfError) (a' : A) : Prop :=
  ((e = OutOfFrames \/ e = MappingFailed) /\ forall x, ~ fs_avail a' x) \/
  (e = MappingFailed /\
     (~ NoDup (pg_number <$> pages) \/ exists p, p ∈ pages /\ is_Some (walk 4 m0 root (pg_virt p)))).

(** Having loaded [ps], the attempt to load [next] ends with all of it loaded,
    or with a prefix of the pages loaded and a reason. *)
Definition load_post (ps next : list page_spec) (out : run (result ElfError unit * phys_mem * A)) : Prop :=
  exists r m' a' X' D' ps', out = Done (r, m', a') /\ load_inv D' m' a' X' /\
    D'.*1 = reverse ps' /\ ps' `prefix_of` pages /\
    match r with Ok _ => ps' = ps ++ next | Err e => load_failure e a' end.

Lemma load_post_app ps next1 next2 out : load_post (ps ++ next1) next2 out -> load_post ps (next1 ++ next2) out.
Proof. unfold load_post. by rewrite app_assoc. Qed.

Lemma load_post_nil ps D m a X :
  load_inv D m a X -> D.*1 = reverse ps -> ps `prefix_of` pages -> load_post ps [] (Done (Ok (), m, a)).
Proof. intros Hi HD Hp. exists (Ok ()), m, a, X, D, ps. by rewrite app_nil_r. Qed.

Lemma load_page_spec ps rest D m a X seg i :
  let p := seg_page bias seg i in
  let base := seg_virt_addr seg + bias - (seg_virt_addr seg + bias) mod 4096 in
  pages = ps ++ p :: rest -> D.*1 = reverse ps -> load_inv D m a X ->
  0 <= i -> 0 <= base -> pg_virt p < 2 ^ 47 -> Forall is_u8 (seg_file_data seg) ->
  load_post ps [p] (load_page root base (seg_virt_addr seg mod 4096) seg i m a).
Proof.
  intros p base Hpages HD Hi Hi0 Hb0 Hv Hu8. unfold load_page.
  change (pg_virt p) with (base + i * 4096) in Hv.
  rewrite mul64_done by lia. cbn [mbind run_bind]. rewrite (add64_done base) by lia. cbn [mbind run_bind].
  assert (ps `prefix_of` pages) as Hpre by (rewrite Hpages; by eexists).
  destruct (fs_alloc_spec a (li_wf _ _ _ _ Hi)) as [(f & a1 & -> & Hw1 & Haf & Hal & Hran & Hav1)|[-> Hno]].
  2:{ exists (Err OutOfFrames), m, a, X, D, ps. cbn. split_and!; try done. left. by split; [left|]. }
  cbn [mbind run_bind fst snd]. rewrite map_4k_into_level.
  pose proof (load_inv_alloc _ _ _ _ _ _ Hi Hw1 Hav1) as Hi1.
  destruct (map_level_spec (base + i * 4096) f (pte_flags (seg_flags seg)) 4 m a1 root X ltac:(lia) Hw1
    (li_tree _ _ _ _ Hi1) (li_apart _ _ _ _ Hi1)) as (ok & m' & a' & X' & -> & Hpost).
  { eapply load_inv_no_huge; [exact Hi1|lia]. }
  cbn [mbind run_bind]. destruct ok; cbn [negb].
  - rewrite add64_done by (unfold saturating_sub; pose proof (Z.mod_pos_bound (seg_virt_addr seg) 4096); lia).
    cbn [mbind run_bind]. eexists (Ok ()), _, a', X', ((p, f) :: D), (ps ++ [p]). split; [done|]. split.
    { change (pte_flags (seg_flags seg)) with (pg_flags p) in Hpost.
      apply (load_inv_page D m a1 X p f m' a' X' Hi1 Hpost); try done.
      - rewrite Hav1. tauto.
      - by apply (li_taken _ _ _ _ Hi).
      - by apply (li_apart _ _ _ _ Hi).
      - intros ([q g] & -> & Hin)%list_elem_of_fmap. by apply (li_frames _ _ _ _ Hi) in Hin as (_ & ? & _).
      - cbn. unfold saturating_sub. lia. }
    split_and!; [cbn; by rewrite HD, reverse_snoc| |done]. exists rest. by rewrite Hpages, <- app_assoc.
  - exists (Err MappingFailed), m', a', X', D, ps. split; [done|].
    split; [by apply (load_inv_map_fail _ _ _ _ _ _ _ _ _ _ Hi1 Hpost)|]. split_and!; try done.
    destruct (mp_fail _ _ _ _ _ _ _ _ _ _ _ _ Hpost eq_refl) as [Hs|Hno]; [right; split; [done|]|left; split; [by right|done]].
    rewrite (li_walk _ _ _ _ Hi) in Hs. destruct (walk_over_some _ _ Hs) as [(q & Hq & E)|Hs']; [left|right].
    + rewrite Hpages, fmap_app. intros (_ & Hdis & _)%NoDup_app. apply (Hdis (pg_number q)).
      * apply list_elem_of_fmap. exists q. split; [done|]. by rewrite HD, elem_of_reverse in Hq.
      * rewrite fmap_cons. change (base + i * 4096) with (pg_virt p) in E. rewrite E. left.
    + exists p. split; [|done]. rewrite Hpages. apply elem_of_app. right. left.
Qed.

Lemma load_pages_spec n i ps rest D m a X seg :
  let base := seg_virt_addr seg + bias - (seg_virt_addr seg + bias) mod 4096 in
  let next := seg_page bias seg <$> seqZ i (Z.of_nat n) in
  pages = ps ++ next ++ rest -> D.*1 = reverse ps -> load_inv D m a X ->
  0 <= i -> 0 <= base -> base + (i + Z.of_nat n) * 4096 <= 2 ^ 47 + 4095 -> Forall is_u8 (seg_file_data seg) ->
  load_post ps next (load_pages n root base (seg_virt_addr seg mod 4096) seg i m a).
Proof.
  intros base. revert i ps D m a X. induction n as [|n IH]; intros i ps D m a X next Hpages HD Hi Hi0 Hb0 Hv Hu8.
  { apply load_post_nil with D X; [done|done|]. rewrite Hpages. by eexists. }
  assert (next = [seg_page bias seg i] ++ (seg_page bias seg <$> seqZ (i + 1) (Z.of_nat n))) as Hnext.
  { unfold next. rewrite seqZ_cons by lia. replace (Z.pred (Z.of_nat (S n))) with (Z.of_nat n) by lia.
    by replace (Z.succ i) with (i + 1) by lia. }
  rewrite Hnext in *. clear Hnext next. cbn [load_pages].
  pose proof (load_page_spec ps ((seg_page bias seg <$> seqZ (i + 1) (Z.of_nat n)) ++ rest) D m a X seg i
                Hpages HD Hi Hi0 Hb0) as Hlp. cbn zeta in Hlp. fold base in Hlp.
  destruct Hlp as (r & m1 & a1 & X1 & D1 & ps1 & -> & Hi1 & HD1 & Hp1 & Hr); [cbn; fold base; lia|done|].
  cbn [mbind run_bind]. destruct r as [[]|err].
  - subst ps1. apply load_post_app. eapply IH; try done; try lia. rewrite Hpages. by rewrite <- !app_assoc.
  - by exists (Err err), m1, a1, X1, D1, ps1.
Qed.

Lemma seg_base_bounds s :
  seg_ok bias s ->
  let base := seg_virt_addr s + bias - (seg_virt_addr s + bias) mod 4096 in
  0 <= base /\ 0 <= seg_npages s /\ base + seg_npages s * 4096 <= 2 ^ 47 + 4095 /\
  (seg_virt_addr s + bias) mod 4096 = seg_virt_addr s mod 4096.
Proof.
  intros [Hv Hm He _] base. assert ((seg_virt_addr s + bias) mod 4096 = seg_virt_addr s mod 4096) as Hmod.
  { rewrite Z.add_mod, Hbias, Z.add_0_r by lia. apply Z.mod_mod. lia. }
  unfold seg_npages. pose proof (Z.mod_pos_bound (seg_virt_addr s) 4096 ltac:(lia)).
  pose proof (Z.mod_le (seg_virt_addr s + bias) 4096 ltac:(lia) ltac:(lia)).
  pose proof (Z.mul_div_le (seg_virt_addr s mod 4096 + seg_mem_size s + 4095) 4096 ltac:(lia)).
  unfold base. split; [lia|]. split; [apply Z.div_pos; lia|]. split; [lia|done].
Qed.

Lemma load_segment_spec ps rest D m a X s :
  pages = ps ++ seg_pages bias s ++ rest -> D.*1 = reverse ps -> load_inv D m a X -> seg_ok bias s ->
  load_post ps (seg_pages bias s) (load_segment root bias s m a).
Proof.
  intros Hpages HD Hi Hok. destruct (seg_base_bounds s Hok) as (Hb & Hn & He & Hmod). destruct Hok as [Hv Hm Hend Hu8].
  pose proof (Z.mod_pos_bound (seg_virt_addr s) 4096 ltac:(lia)).
  unfold load_segment. rewrite (add64_done (seg_virt_addr s) bias) by lia. cbn [mbind run_bind].
  change 0xFFF with (2 ^ 12 - 1). rewrite land_ones_mod, land_not_mask by (unfold is_u64; lia). change (2 ^ 12) with 4096.
  rewrite (add64_done _ (seg_mem_size s)) by lia. cbn [mbind run_bind]. rewrite (add64_done _ 4095) by lia.
  cbn [mbind run_bind]. fold (seg_npages s). unfold seg_pages in *. rewrite <- (Z2Nat.id (seg_npages s)) in Hpages, He |- * by done.
  rewrite Nat2Z.id. eapply (load_pages_spec _ 0 ps rest D m a X s); try done; lia.
Qed.

(** The segment loop loads the pages of the collected segments in order. *)
Lemma load_loop_spec fuel it segs ps rest D m a X :
  collect fuel it = Done (Ok segs) -> Forall (seg_ok bias) segs ->
  pages = ps ++ concat (seg_pages bias <$> segs) ++ rest -> D.*1 = reverse ps -> load_inv D m a X ->
  load_post ps (concat (seg_pages bias <$> segs)) (load_loop fuel root bias it m a).
Proof.
  revert it segs ps D m a X. induction fuel as [|fuel IH]; intros it segs ps D m a X Hc Hok Hpages HD Hi;
    cbn [collect load_loop] in *.
  { injection Hc as <-. apply load_post_nil with D X; [done|done|]. rewrite Hpages. by eexists. }
  destruct (seg_next it) as [[item it']|]; [|done]. cbn [mbind run_bind] in *. destruct item as [[s|err]|].
  - destruct (collect fuel it') as [[segs'|]|] eqn:Ec; cbn in Hc; try done. injection Hc as <-.
    apply Forall_cons in Hok as [Hs Hok]. rewrite fmap_cons in *. cbn [concat] in *. rewrite <- app_assoc in Hpages.
    destruct (load_segment_spec ps (concat (seg_pages bias <$> segs') ++ rest) D m a X s Hpages HD Hi Hs)
      as (r & m1 & a1 & X1 & D1 & ps1 & -> & Hi1 & HD1 & Hp1 & Hr). cbn [mbind run_bind]. destruct r as [[]|err].
    + subst ps1. apply load_post_app. eapply IH; try done. by rewrite Hpages, <- app_assoc.
    + by exists (Err err), m1, a1, X1, D1, ps1.
  - done.
  - injection Hc as <-. apply load_post_nil with D X; [done|done|]. rewrite Hpages. by eexists.
Qed.
End LoaderSpec.

(** The address of byte [k] of a segment is in page [(intra + k) / 4096] of it,
    and shows the file byte that page holds there. *)
Lemma seg_byte_page s k :
  seg_ok 0 s -> 0 <= k < seg_mem_size s ->
  let w := seg_virt_addr s + k in
  let intra := seg_virt_addr s mod 4096 in
  exists p, p ∈ seg_pages 0 s /\ pg_flags p = pte_flags (seg_flags s) /\
    pg_number p = w / 4096 mod 2 ^ 36 /\ pg_number p = pg_virt p / 4096 mod 2 ^ 36 /\
    pg_byte p (w mod 4096) =
      default 0 (seg_file_data s !! Z.to_nat (if intra + k <? 4096 then intra + k else k)).
Proof.
  intros Hok Hk w intra. destruct (seg_base_bounds 0 eq_refl ltac:(lia) s Hok) as (Hb & Hn & _ & Hmod).
  destruct Hok as [Hv Hm _ _]. pose proof (Z.mod_pos_bound (seg_virt_addr s) 4096 ltac:(lia)) as Hin. fold intra in Hin.
  pose proof (Z.div_mod (seg_virt_addr s) 4096 ltac:(lia)) as Hdm. fold intra in Hdm.
  set (i := (intra + k) / 4096).
  pose proof (Z.div_mod (intra + k) 4096 ltac:(lia)) as Hik. fold i in Hik.
  pose proof (Z.mod_pos_bound (intra + k) 4096 ltac:(lia)) as Hjb.
  assert (0 <= i < seg_npages s) as Hi.
  { split; [apply Z.div_pos; lia|]. unfold seg_npages, i. fold intra.
    apply Z.le_succ_l, Z.div_le_lower_bound; [lia|]. unfold Z.succ. fold i. lia. }
  assert (w mod 4096 = (intra + k) mod 4096) as Hwm.
  { unfold w. rewrite Hdm. replace (4096 * (seg_virt_addr s / 4096) + intra + k)
      with (intra + k + (seg_virt_addr s / 4096) * 4096) by lia. by rewrite Z.mod_add by lia. }
  assert (w / 4096 = seg_virt_addr s / 4096 + i) as Hwd.
  { symmetry. apply (Z.div_unique w 4096 _ ((intra + k) mod 4096)); [lia|]. unfold w. lia. }
  exists (seg_page 0 s i). split; [|split; [done|]].
  { apply list_elem_of_fmap. exists i. split; [done|]. apply elem_of_seqZ. lia. }
  split; [|split; [done|]].
  - unfold pg_number, seg_page. cbn [pg_virt]. f_equal. rewrite Hwd. rewrite Z.add_0_r. fold intra.
    symmetry. apply (Z.div_unique _ 4096 _ 0); lia.
  - unfold pg_byte, seg_page. cbn [pg_file pg_start]. rewrite Hwm. fold intra. do 3 f_equal. unfold saturating_sub.
    destruct (Z.ltb_spec (intra + k) 4096) as [Hlt|Hge].
    + assert (i = 0) as -> by (apply Z.div_small; lia). rewrite (Z.mod_small (intra + k)) by lia. lia.
    + assert (1 <= i) by (apply Z.div_le_lower_bound; lia). lia.
Qed.

Lemma load_inv_init {A} `{FrameSource A} root m a X :
  fs_wf a -> tree 4 m root X -> (forall x, fs_avail a x -> x ∉ X) -> load_inv root m a X [] m a X.
Proof.
  intros Ha Ht Hav. split; try done; try (by left); try (by intros ? ? ?%elem_of_nil);
    try (by intros ? ? ? ?%elem_of_nil); try (by intros ? ?%elem_of_nil); by constructor.
Qed.

(** What the invariant says of translations and bytes. *)
Lemma load_inv_translate {A} `{FrameSource A} root m0 (a0 : A) X0 D m a X p f w :
  load_inv root m0 a0 X0 D m a X -> (p, f) ∈ D -> pg_number p = w / 4096 mod 2 ^ 36 ->
  Z.land (pg_flags p) FRAME_MASK = 0 ->
  translate_in m root w = Some (f + w mod 4096) /\ mem_byte m (f + w mod 4096) = pg_byte p (w mod 4096).
Proof.
  intros [I1 I2 I3 I4 I5 I6 I7 I8 I9 I10 I11] Hin Hn Hfl. destruct (I6 p f Hin) as (_ & _ & _ & Hf & Hr). split.
  - rewrite translate_walk, I8, (walk_over_hit root m0 D p f w I9 Hin Hn). cbn [fmap option_fmap option_map].
    by rewrite leaf_phys_new.
  - apply I7; [done|]. apply Z.mod_pos_bound. lia.
Qed.

(** ** The parser against the file's fields

    The integer at a byte offset, the fields of a program header, and the
    header conditions, read off the file directly. *)

Definition field (data : list Z) (n : nat) (off : Z) : Z := from_le_bytes (take n (drop (Z.to_nat off) data)).

Definition header_ok (data : list Z) : bool :=
  (64 <=? Z.of_nat (length data)) && bool_decide (take 4 data = ELF_MAGIC) &&
  (field data 1 4 =? ELFCLASS64) && (field data 1 5 =? ELFDATA2LSB) &&
  ((field data 2 16 =? ET_EXEC) || (field data 2 16 =? ET_DYN)) && (field data 2 18 =? EM_X86_64) &&
  (56 <=? field data 2 54) && negb (field data 8 32 =? 0) && negb (field data 2 56 =? 0).

(** The end of the program-header table. *)
Definition table_end (data : list Z) : Z := field data 8 32 + field data 2 56 * field data 2 54.

Definition elf_of (data : list Z) : Elf64 :=
  {| elf_data := data; elf_entry := field data 8 24; elf_type := field data 2 16; elf_phoff := field data 8 32;
     elf_phentsize := field data 2 54; elf_phnum := field data 2 56 |}.

(** Offsets of the [PT_LOAD] headers among those numbered [i] to [i + n - 1]. *)
Definition load_headers_from (data : list Z) (i n : Z) : list Z :=
  filter (fun b => field data 4 b = PT_LOAD) ((fun j => field data 8 32 + j * field data 2 54) <$> seqZ i n).
Definition load_headers (data : list Z) : list Z := load_headers_from data 0 (field data 2 56).

Definition image_end (data : list Z) (base : Z) : Z := field data 8 (base + 8) + field data 8 (base + 32).
Definition seg_of (data : list Z) (base : Z) : LoadSegment :=
  {| seg_virt_addr := field data 8 (base + 16);
     seg_file_data := take (Z.to_nat (field data 8 (base + 32))) (drop (Z.to_nat (field data 8 (base + 8))) data);
     seg_mem_size := field data 8 (base + 40); seg_flags := field data 4 (base + 4) |}.
Definition image_fits (data : list Z) (base : Z) : bool := image_end data base <=? Z.of_nat (length data).

Section Parser.
Context (data : list Z) (Hu8 : Forall is_u8 data) (Hlen : Z.of_nat (length data) < 2 ^ 63).

Lemma field_bound n off : 0 <= field data n off < 2 ^ (8 * Z.of_nat n).
Proof.
  pose proof (from_le_bytes_bound (take n (drop (Z.to_nat off) data)) ltac:(by apply Forall_take, Forall_drop)) as Hb.
  unfold field. split; [lia|]. eapply Z.lt_le_trans; [apply Hb|]. apply Z.pow_le_mono_r; [lia|].
  rewrite length_take. lia.
Qed.

Lemma read_le_field n off :
  0 <= off -> 0 <= n -> off + n <= Z.of_nat (length data) ->
  read_le n data off = Done (Some (field data (Z.to_nat n) off)).
Proof.
  intros Ho Hn Hl. unfold read_le. rewrite add64_done by lia. cbn [mbind run_bind]. unfold slice_get.
  rewrite (proj2 (Z.leb_le off _)), (proj2 (Z.leb_le (off + n) _)) by lia. cbn [andb].
  by replace (off + n - off) with n by lia.
Qed.

Lemma field_byte off : 0 <= off < Z.of_nat (length data) -> data !! Z.to_nat off = Some (field data 1 off).
Proof.
  intros Ho. destruct (lookup_lt_is_Some_2 data (Z.to_nat off)) as [b Hb]; [lia|]. rewrite Hb. unfold field.
  rewrite (drop_S _ b) by done. cbn [take]. rewrite take_0. cbn [from_le_bytes]. f_equal. lia.
Qed.

Lemma parse_spec :
  if header_ok data then
    parse data = if 2 ^ 64 <=? table_end data then Panicked
                 else if Z.of_nat (length data) <? table_end data then Done (Err TooShort)
                 else Done (Ok (elf_of data))
  else exists err, parse data = Done (Err err).
Proof.
  unfold header_ok, parse.
  destruct (Z.leb_spec 64 (Z.of_nat (length data))) as [H64|H64]; cbn [andb].
  2:{ rewrite (proj2 (Z.ltb_lt _ _)) by lia. by eexists. }
  rewrite (proj2 (Z.ltb_ge _ 64)) by lia.
  assert (slice_get data 0 4 = Some (take 4 data)) as ->.
  { unfold slice_get. rewrite (proj2 (Z.leb_le _ (Z.of_nat (length data)))) by lia. done. }
  destruct (decide (take 4 data = ELF_MAGIC)) as [Hm|Hm].
  2:{ rewrite !bool_decide_eq_false_2 by congruence. by eexists. }
  rewrite !bool_decide_eq_true_2 by congruence. cbn [andb negb].
  assert (data !! 4%nat = Some (field data 1 4)) as -> by (apply (field_byte 4); lia).
  assert (data !! 5%nat = Some (field data 1 5)) as -> by (apply (field_byte 5); lia).
  assert (forall x y : Z, bool_decide (Some x = Some y) = (x =? y)) as Hbe.
  { intros x y. destruct (Z.eqb_spec x y) as [->|]; [by apply bool_decide_eq_true_2|apply bool_decide_eq_false_2; congruence]. }
  rewrite !Hbe. destruct (field data 1 4 =? ELFCLASS64); cbn [andb negb]; [|by eexists].
  destruct (field data 1 5 =? ELFDATA2LSB); cbn [andb negb]; [|by eexists].
  unfold or_err, r_u16, r_u64.
  rewrite (read_le_field 2 16), (read_le_field 2 18), (read_le_field 8 24), (read_le_field 8 32),
    (read_le_field 2 54), (read_le_field 2 56) by lia.
  cbn [mbind run_bind]. change (Z.to_nat 2) with 2%nat. change (Z.to_nat 8) with 8%nat.
  rewrite <- negb_orb. destruct ((field data 2 16 =? ET_EXEC) || (field data 2 16 =? ET_DYN)); cbn [andb negb]; [|by eexists].
  destruct (field data 2 18 =? EM_X86_64); cbn [andb negb]; [|by eexists].
  rewrite (Z.ltb_antisym 56). destruct (56 <=? field data 2 54); cbn [andb negb orb]; [|by eexists].
  destruct (field data 8 32 =? 0); cbn [andb negb orb]; [by eexists|].
  destruct (field data 2 56 =? 0); cbn [andb negb orb]; [by eexists|].
  pose proof (field_bound 2 54) as H1. pose proof (field_bound 2 56) as H2. cbn in H1, H2.
  rewrite mul64_done by nia. cbn [mbind run_bind]. unfold add64. fold (table_end data).
  rewrite (Z.ltb_antisym (2 ^ 64)). by destruct (2 ^ 64 <=? table_end data).
Qed.

(** ** Program headers *)

Context (Htab : table_end data <= Z.of_nat (length data)) (Hent : 56 <= field data 2 54) (Hoff : 0 < field data 8 32).

Lemma header_bounds i :
  0 <= i < field data 2 56 ->
  0 <= field data 8 32 + i * field data 2 54 /\
  field data 8 32 + i * field data 2 54 + 56 <= Z.of_nat (length data).
Proof. intros Hi. unfold table_end in Htab. nia. Qed.

Lemma read_segment_spec base :
  0 <= base -> base + 56 <= Z.of_nat (length data) ->
  read_segment data base =
    if 2 ^ 64 <=? image_end data base then Panicked
    else Done (if image_fits data base then Ok (seg_of data base) else Err BadPhdrs).
Proof.
  intros Hb Hl. unfold read_segment, or_err, r_u32, r_u64.
  rewrite !(add64_done base) by lia. cbn [mbind run_bind].
  rewrite (read_le_field 4 (base + 4)), (read_le_field 8 (base + 8)), (read_le_field 8 (base + 16)),
    (read_le_field 8 (base + 32)), (read_le_field 8 (base + 40)) by lia.
  cbn [mbind run_bind]. change (Z.to_nat 4) with 4%nat. change (Z.to_nat 8) with 8%nat.
  unfold add64. fold (image_end data base). rewrite (Z.ltb_antisym (2 ^ 64)).
  destruct (2 ^ 64 <=? image_end data base); cbn [negb mbind run_bind]; [done|]. f_equal. unfold slice_get, image_fits.
  pose proof (field_bound 8 (base + 32)) as Hf. rewrite (proj2 (Z.leb_le _ (image_end data base))) by (unfold image_end; lia).
  cbn [andb]. destruct (image_end data base <=? _); [|done]. unfold image_end.
  by replace (field data 8 (base + 8) + field data 8 (base + 32) - field data 8 (base + 8)) with (field data 8 (base + 32)) by lia.
Qed.

Definition iter_at (i : Z) : SegIter :=
  {| si_data := data; si_phoff := field data 8 32; si_phentsize := field data 2 54;
     si_phnum := field data 2 56; si_idx := i |}.

Lemma seg_next_loop_spec n i :
  0 <= i -> i + Z.of_nat n = field data 2 56 ->
  match load_headers_from data i (Z.of_nat n) with
  | [] => exists it, seg_next_loop (S n) (iter_at i) = Done (None, it)
  | b :: bs => exists i', 0 <= i' <= field data 2 56 /\ load_headers_from data i' (field data 2 56 - i') = bs /\
      0 <= b /\ b + 56 <= Z.of_nat (length data) /\
      seg_next_loop (S n) (iter_at i) = (s ← read_segment data b; Done (Some s, iter_at i'))
  end.
Proof.
  revert i. induction n as [|n IH]; intros i Hi Hn.
  { cbn. rewrite (proj2 (Z.leb_le _ i)) by lia. by eexists. }
  destruct (header_bounds i) as [Hb Hl]; [lia|]. pose proof (field_bound 2 54) as H54. cbn in H54.
  pose proof (field_bound 2 56) as H56. cbn in H56.
  specialize (IH (i + 1) ltac:(lia) ltac:(lia)).
  assert (load_headers_from data i (Z.of_nat (S n)) =
    (if decide (field data 4 (field data 8 32 + i * field data 2 54) = PT_LOAD)
     then [field data 8 32 + i * field data 2 54] else []) ++ load_headers_from data (i + 1) (Z.of_nat n)) as ->.
  { unfold load_headers_from. rewrite seqZ_cons by lia. replace (Z.pred (Z.of_nat (S n))) with (Z.of_nat n) by lia.
    rewrite fmap_cons, filter_cons. by case_decide. }
  change (seg_next_loop (S (S n)) (iter_at i)) with
    (if field data 2 56 <=? i then Done (None, iter_at i) else
     off ← mul64 i (field data 2 54); base ← add64 (field data 8 32) off; p_type ← r_u32 data base;
     match p_type with
     | None => Done (Some (Err BadPhdrs), iter_at (i + 1))
     | Some p_type => if negb (p_type =? PT_LOAD) then seg_next_loop (S n) (iter_at (i + 1))
                      else seg ← read_segment data base; Done (Some seg, iter_at (i + 1))
     end).
  rewrite (proj2 (Z.leb_gt _ i)), mul64_done by nia. cbn [mbind run_bind].
  rewrite (add64_done (field data 8 32)) by lia. cbn [mbind run_bind]. unfold r_u32.
  rewrite (read_le_field 4 (field data 8 32 + i * field data 2 54)) by lia.
  cbn [mbind run_bind]. change (Z.to_nat 4) with 4%nat. case_decide as Hp.
  - rewrite Hp. cbn [Z.eqb PT_LOAD negb app]. exists (i + 1). split_and!; try done; try lia.
    by replace (field data 2 56 - (i + 1)) with (Z.of_nat n) by lia.
  - rewrite (proj2 (Z.eqb_neq _ _) Hp). cbn [negb app]. exact IH.
Qed.

Lemma collect_spec fuel i :
  0 <= i <= field data 2 56 -> let hs := load_headers_from data i (field data 2 56 - i) in
  (length hs < fuel)%nat ->
  (forallb (image_fits data) hs = true -> collect fuel (iter_at i) = Done (Ok (seg_of data <$> hs))) /\
  (forall l1 b l2, hs = l1 ++ b :: l2 -> forallb (image_fits data) l1 = true -> image_fits data b = false ->
     collect fuel (iter_at i) = if 2 ^ 64 <=? image_end data b then Panicked else Done (Err BadPhdrs)).
Proof.
  revert i. induction fuel as [|fuel IH]; intros i Hi hs Hf; [lia|]. cbn [collect].
  change (seg_next (iter_at i)) with (seg_next_loop (S (Z.to_nat (field data 2 56 - i))) (iter_at i)).
  pose proof (seg_next_loop_spec (Z.to_nat (field data 2 56 - i)) i ltac:(lia) ltac:(lia)) as Hnext.
  rewrite Z2Nat.id in Hnext by lia. fold hs in Hnext. destruct hs as [|b bs].
  { destruct Hnext as [it ->]. cbn. split; [done|]. intros l1 b l2 H0. by destruct l1. }
  destruct Hnext as (i' & Hi' & Hbs & Hb0 & Hb1 & ->). rewrite read_segment_spec by done. cbn [length] in Hf.
  assert (image_fits data b = true -> (2 ^ 64 <=? image_end data b) = false) as Hfit.
  { unfold image_fits. intros Hle%Z.leb_le. apply Z.leb_gt. lia. }
  destruct (IH i' Hi') as [IH1 IH2]; [by rewrite Hbs; lia|]. rewrite Hbs in IH1, IH2. split.
  - cbn [forallb]. intros [Hfb Hrest]%andb_true_iff. rewrite (Hfit Hfb), Hfb. cbn [mbind run_bind].
    by rewrite (IH1 Hrest).
  - intros [|c l1] b' l2 Heq Hl1 Hb'; injection Heq as -> Heq.
    + rewrite Hb'. by destruct (2 ^ 64 <=? image_end data b').
    + cbn [forallb] in Hl1. apply andb_true_iff in Hl1 as [Hfb Hl1]. rewrite (Hfit Hfb), Hfb. cbn [mbind run_bind].
      rewrite (IH2 l1 b' l2 Heq Hl1 Hb'). by destruct (2 ^ 64 <=? image_end data b').
Qed.
End Parser.

(** ** Theorems *)

(** C6: Loading an executable: on well-formed tables without large pages in
    the user half, and a frame source whose frames the tables do not use,
    loading an [ET_EXEC] image whose segments lie in user space always ends
    without a panic.  On success the result is the entry point, no page of a
    segment was mapped before, and byte [k] of every segment is then mapped
    and holds byte [k] of the segment's file image (zero past its end), except
    in the first page of a segment that does not start on a page boundary:
    that page holds the file image from the page's own start.  A failure means
    that no frame is left or that a page was mapped before or occurs twice.
    In every case other pages translate as before, and only the tables and
    frames taken from the source are written. *)
Theorem elf_load_correct {A} `{FrameSource A} {Hlaws : FrameSourceLaws A}
    (e : Elf64) (segs : list LoadSegment) (root : Z) (m : phys_mem) (a : A) (X : gset Z)
    (Ha : fs_wf a) (Ht : tree 4 m root X) (Hav : forall x, fs_avail a x -> x ∉ X)
    (Hh : forall w, 0 <= w < 2 ^ 47 -> no_huge 4 m root w)
    (Hexec : elf_type e = ET_EXEC) (Hent : is_u64 (elf_entry e))
    (Hsegs : segments e = Done (Ok segs)) (Hok : Forall (seg_ok 0) segs) :
  let pages := concat (seg_pages 0 <$> segs) in
  exists r m' a' X', map_and_load_into e root m a = Done (r, m', a') /\ fs_wf a' /\ tree 4 m' root X' /\
    (forall x k, x ∉ X -> ~ fs_avail a x -> entry m' x k = entry m x k) /\
    (forall w, (forall p, p ∈ pages -> same_page (pg_virt p) w = false) ->
       translate_in m' root w = translate_in m root w) /\
    match r with
    | Ok entry_point => entry_point = elf_entry e /\
        forall s k, s ∈ segs -> 0 <= k < seg_mem_size s ->
          let intra := seg_virt_addr s mod 4096 in
          translate_in m root (seg_virt_addr s + k) = None /\
          exists phys, translate_in m' root (seg_virt_addr s + k) = Some phys /\
            mem_byte m' phys = default 0 (seg_file_data s !! Z.to_nat (if intra + k <? 4096 then intra + k else k))
    | Err err =>
        ((err = OutOfFrames \/ err = MappingFailed) /\ forall x, ~ fs_avail a' x) \/
        (err = MappingFailed /\
           (~ NoDup (pg_number <$> pages) \/ exists p, p ∈ pages /\ is_Some (translate_in m root (pg_virt p))))
    end.
Proof.
  intros pages. pose proof (load_inv_init root m a X Ha Ht Hav) as Hi0.
  destruct (load_loop_spec root m a X Hh pages 0 eq_refl ltac:(lia) (S (Z.to_nat (elf_phnum e))) (load_segments e) segs
    [] [] [] m a X Hsegs Hok) as (r & m' & a' & X' & D & ps & E & Hi & HD & Hpre & Hr); [by rewrite app_nil_r|done|done|].
  assert (load_bias e = 0) as Hb by (unfold load_bias; by rewrite Hexec).
  unfold map_and_load_into. rewrite Hb, E. cbn [mbind run_bind].
  assert (forall w, (forall p, p ∈ pages -> same_page (pg_virt p) w = false) ->
    translate_in m' root w = translate_in m root w) as Htr.
  { intros w Hw. rewrite !translate_walk, (li_walk _ _ _ _ _ _ _ _ Hi), walk_over_miss; [done|].
    intros p Hp. rewrite HD, elem_of_reverse in Hp. apply Z.eqb_neq. apply (Hw p).
    eapply elem_of_prefix; [exact Hp|exact Hpre]. }
  destruct r as [[]|err].
  - rewrite add64_done by (unfold is_u64 in Hent; lia). rewrite Z.add_0_r. cbn [Z.eqb negb mbind run_bind].
    exists (Ok (elf_entry e)), m', a', X'. split; [done|]. split; [apply Hi|]. split; [apply Hi|]. split; [apply Hi|].
    split; [exact Htr|]. split; [done|]. intros s k Hs Hk. cbn zeta. rewrite Forall_forall in Hok.
    destruct (seg_byte_page s k (Hok s Hs) Hk) as (p & Hp & Hfl & Hn & Hv & Hbyte).
    assert (p ∈ D.*1) as HpD.
    { rewrite HD, Hr, elem_of_reverse. cbn [app]. apply list_elem_of_In, in_concat.
      exists (seg_pages 0 s). rewrite <- !list_elem_of_In. split; [|done]. apply list_elem_of_fmap. by exists s. }
    pose proof (li_fresh _ _ _ _ _ _ _ _ Hi p HpD) as Hfresh.
    apply list_elem_of_fmap in HpD as [[p' f] [-> HpD]]. cbn [fst] in *.
    assert (Z.land (pg_flags p') FRAME_MASK = 0) as Hmask by (rewrite Hfl; apply pte_flags_mask).
    destruct (load_inv_translate _ _ _ _ _ _ _ _ _ _ _ Hi HpD Hn Hmask) as [Htw Hbw].
    split; [|by exists (f + (seg_virt_addr s + k) mod 4096); rewrite Hbw].
    rewrite translate_walk. rewrite (walk_same_page m root (seg_virt_addr s + k) (pg_virt p')) by congruence.
    by rewrite Hfresh.
  - exists (Err err), m', a', X'. split; [done|]. split; [apply Hi|]. split; [apply Hi|]. split; [apply Hi|].
    split; [exact Htr|]. destruct Hr as [Hr|[-> [Hr|(p & Hp & Hs)]]]; [by left|right..]; (split; [done|]); [by left|right].
    exists p. split; [done|]. rewrite translate_walk. by apply fmap_is_Some.
Qed.

(** Parsing: on a file of bytes, [parse] fails with an error on a bad
    header; on a good one it accepts exactly when the program-header table
    ends within the file, and it panics when the table's end exceeds [u64].
    For an accepted file the iterator yields the [PT_LOAD] headers in file
    order, each with the file bytes its offset and size name; the first header
    whose image does not lie in the file stops it with [BadPhdrs], or with a
    panic when the sum of offset and size exceeds [u64]. *)
Theorem elf_parse_exact (data : list Z) (Hu8 : Forall is_u8 data) (Hlen : Z.of_nat (length data) < 2 ^ 63) :
  (header_ok data = false -> exists err, parse data = Done (Err err)) /\
  (header_ok data = true ->
     parse data = if 2 ^ 64 <=? table_end data then Panicked
                  else if Z.of_nat (length data) <? table_end data then Done (Err TooShort)
                  else Done (Ok (elf_of data))) /\
  (forall e, parse data = Done (Ok e) ->
     let hs := load_headers data in
     (forallb (image_fits data) hs = true -> segments e = Done (Ok (seg_of data <$> hs))) /\
     (forall l1 b l2, hs = l1 ++ b :: l2 -> forallb (image_fits data) l1 = true -> image_fits data b = false ->
        segments e = if 2 ^ 64 <=? image_end data b then Panicked else Done (Err BadPhdrs))).
Proof.
  pose proof (parse_spec data Hu8 Hlen) as Hp. split; [by intros Hh; rewrite Hh in Hp|].
  split; [by intros Hh; rewrite Hh in Hp|]. intros e He hs.
  destruct (header_ok data) eqn:Hh; [|destruct Hp as [err Hp]; congruence]. rewrite He in Hp.
  destruct (Z.leb_spec (2 ^ 64) (table_end data)); [done|].
  destruct (Z.ltb_spec (Z.of_nat (length data)) (table_end data)); [done|]. injection Hp as ->.
  unfold header_ok in Hh. zbool. pose proof (field_bound data Hu8 8 32). pose proof (field_bound data Hu8 2 56).
  pose proof (collect_spec data Hu8 Hlen ltac:(done) ltac:(done) ltac:(lia) (S (Z.to_nat (field data 2 56))) 0 ltac:(lia)) as Hc.
  cbn zeta in Hc. rewrite Z.sub_0_r in Hc. apply Hc. clear Hc. unfold load_headers_from.
  apply Nat.lt_succ_r. etransitivity; [apply length_filter|]. by rewrite length_fmap, length_seqZ.
Qed.

(** ** Witnesses *)

(** An executable with one page-aligned segment of three bytes and a tail. *)
Definition demo_file : list Z :=
  ELF_MAGIC ++ [2; 1; 1] ++ replicate 9 0 ++
  to_le_bytes 2 ET_EXEC ++ to_le_bytes 2 EM_X86_64 ++ to_le_bytes 4 1 ++ to_le_bytes 8 0x400000 ++
  to_le_bytes 8 64 ++ replicate 14 0 ++ to_le_bytes 2 56 ++ to_le_bytes 2 1 ++ replicate 6 0 ++
  to_le_bytes 4 PT_LOAD ++ to_le_bytes 4 (PF_R + PF_X) ++ to_le_bytes 8 120 ++ to_le_bytes 8 0x400000 ++
  to_le_bytes 8 0x400000 ++ to_le_bytes 8 3 ++ to_le_bytes 8 100 ++ to_le_bytes 8 4096 ++ [11; 22; 33].

Definition demo_segment : LoadSegment :=
  {| seg_virt_addr := 0x400000; seg_file_data := [11; 22; 33]; seg_mem_size := 100; seg_flags := 5 |}.

Lemma elf_parse_exact_witness :
  parse demo_file = Done (Ok (elf_of demo_file)) /\ segments (elf_of demo_file) = Done (Ok [demo_segment]).
Proof.
  destruct (elf_parse_exact demo_file) as (_ & H1 & H2).
  - apply Forall_forall. intros x Hx. repeat (apply elem_of_cons in Hx as [->|Hx]; [split; vm_compute; congruence|]).
    by apply elem_of_nil in Hx.
  - vm_compute. reflexivity.
  - specialize (H1 ltac:(vm_compute; reflexivity)). vm_compute in H1.
    assert (parse demo_file = Done (Ok (elf_of demo_file))) as Hp by (vm_compute; exact H1).
    split; [exact Hp|]. apply (H2 _ Hp). vm_compute. reflexivity.
Defined.

Lemma elf_load_correct_witness :
  exists m' a' phys, map_and_load_into (elf_of demo_file) 0x1000 ∅ demo_frames = Done (Ok 0x400000, m', a') /\
    translate_in m' 0x1000 0x400001 = Some phys /\ mem_byte m' phys = 22.
Proof.
  destruct (elf_load_correct (elf_of demo_file) [demo_segment] 0x1000 ∅ demo_frames {[ 0x1000 ]} demo_frames_wf demo_root_tree
              demo_frames_disjoint (fun w _ => demo_no_huge w)) as (r & m' & a' & X' & E & _ & _ & _ & _ & Hr).
  - reflexivity.
  - split; vm_compute; congruence.
  - vm_compute. reflexivity.
  - repeat constructor; vm_compute; congruence.
  - assert (r = Ok 0x400000) as ->.
    { assert (match map_and_load_into (elf_of demo_file) 0x1000 ∅ demo_frames with
              | Done (r, _, _) => Some r | Panicked => None end = Some (Ok 0x400000)) as Hc by (vm_compute; reflexivity).
      rewrite E in Hc. by injection Hc. }
    destruct Hr as [_ Hr]. destruct (Hr demo_segment 1) as (_ & phys & Ht & Hb).
    + left.
    + split; vm_compute; congruence.
    + exists m', a', phys. split; [exact E|]. split; [exact Ht|exact Hb].
Defined.
