(* ===== verification/UserStack.v ===== *)
(** * Initial user stack (omni-kernel: user_stack_args.rs)

    The block of [argc], [argv] and [envp] that the kernel writes at the top
    of a new process's stack, as the System V AMD64 ABI lays it out.  Strings
    are lists of bytes; [data[0]] is the byte at the initial stack pointer. *)

From Stdlib Require Import ZArith Lia.
From stdpp Require Import base numbers list.
From S2P Require Import Prelude.

(** ** Data *)

Record StackArgsLayout := { sa_data : list Z; sa_rsp_offset : Z; sa_argc : Z }.

(** ** Operations *)

(** Append each string with its terminator, recording where it starts. *)
Fixpoint push_strings (strs : list (list Z)) (offsets : list Z) (buf : list Z) : list Z * list Z :=
  match strs with
  | [] => (offsets, buf)
  | s :: strs => push_strings strs (offsets ++ [Z.of_nat (length buf)]) (buf ++ s ++ [0])
  end.

(** [k=v]. *)
Definition env_string (kv : list Z * list Z) : list Z := fst kv ++ [61] ++ snd kv.

(** [data[cursor..cursor + n].copy_from_slice(bytes)], then advance. *)
Definition write_at (bytes : list Z) (st : list Z * Z) : run (list Z * Z) :=
  let '(data, cursor) := st in
  stop ← add64 cursor (Z.of_nat (length bytes));
  if stop <=? Z.of_nat (length data)
  then Done (take (Z.to_nat cursor) data ++ bytes ++ drop (Z.to_nat stop) data, stop) else Panicked.

Definition write_u64 (v : Z) (st : list Z * Z) : run (list Z * Z) := write_at (to_le_bytes 8 v) st.

(** One pointer per recorded offset. *)
Fixpoint write_ptrs (base : Z) (offsets : list Z) (st : list Z * Z) : run (list Z * Z) :=
  match offsets with
  | [] => Done st
  | off :: offsets => st' ← write_u64 (wrap64 (base + off)) st; write_ptrs base offsets st'
  end.

(** Step 2, the sizes: the padding before the strings and the total. *)
Definition stack_sizes (stack_top argc envc strings_len : Z) : run (Z * Z) :=
  n1 ← add64 argc 1; b1 ← mul64 n1 8; t1 ← add64 8 b1;
  n2 ← add64 envc 1; b2 ← mul64 n2 8;
  ptr_table_bytes ← add64 t1 b2;
  let str_pad_min := Z.land (wrap64 (stack_top - strings_len)) 7 in
  c1 ← add64 ptr_table_bytes str_pad_min;
  candidate_total ← add64 c1 strings_len;
  let rsp_va_candidate := wrap64 (stack_top - candidate_total) in
  let extra := if negb (Z.land rsp_va_candidate 15 =? 0) then 8 else 0 in
  str_pad ← add64 str_pad_min extra;
  c2 ← add64 ptr_table_bytes str_pad;
  total_size ← add64 c2 strings_len;
  Done (str_pad, total_size).

(** Step 3, the contents. *)
Definition fill_block (stack_top argc : Z) (argv_offsets envp_offsets strings_buf : list Z) (str_pad total_size : Z)
    : run (list Z) :=
  st0 ← write_u64 argc (replicate (Z.to_nat total_size) 0, 0);
  let strings_va_base := wrap64 (stack_top - Z.of_nat (length strings_buf)) in
  st1 ← write_ptrs strings_va_base argv_offsets st0;
  st2 ← write_u64 0 st1;
  st3 ← write_ptrs strings_va_base envp_offsets st2;
  '(data, cursor) ← write_u64 0 st3;
  cursor' ← add64 cursor str_pad;
  '(data', _) ← write_at strings_buf (data, cursor');
  Done data'.

Definition build_stack_args (stack_top : Z) (argv : list (list Z)) (envp : list (list Z * list Z))
    : run StackArgsLayout :=
  let '(envp_offsets, buf1) := push_strings (env_string <$> envp) [] [] in
  let '(argv_offsets, strings_buf) := push_strings argv [] buf1 in
  let argc := Z.of_nat (length argv) in
  '(str_pad, total_size) ← stack_sizes stack_top argc (Z.of_nat (length envp)) (Z.of_nat (length strings_buf));
  data ← fill_block stack_top argc argv_offsets envp_offsets strings_buf str_pad total_size;
  Done {| sa_data := data; sa_rsp_offset := total_size; sa_argc := argc |}.

(** ** The process's view

    What a program's entry code finds at its stack pointer [rsp], the block
    [data] being there: the word and the C string at an address, a
    null-terminated array of strings, and from these the arguments. *)

Section Reader.
Context (data : list Z) (rsp : Z).

Definition user_u64 (va : Z) : Z := from_le_bytes (take 8 (drop (Z.to_nat (va - rsp)) data)).

Fixpoint until_nul (l : list Z) : list Z :=
  match l with
  | [] => []
  | b :: l => if b =? 0 then [] else b :: until_nul l
  end.

Definition user_cstr (va : Z) : list Z := until_nul (drop (Z.to_nat (va - rsp)) data).

Fixpoint user_vec (fuel : nat) (va : Z) : list (list Z) :=
  match fuel with
  | O => []
  | S fuel => if user_u64 va =? 0 then [] else user_cstr (user_u64 va) :: user_vec fuel (va + 8)
  end.

Definition start_args : Z * list (list Z) * list (list Z) :=
  let argc := user_u64 rsp in
  (argc, user_vec (length data) (rsp + 8), user_vec (length data) (rsp + 8 + (argc + 1) * 8)).
End Reader.

(** ** Lemmas on the string block *)

Definition nul_terminated (strs : list (list Z)) : list Z := concat ((fun s => s ++ [0]) <$> strs).

(** Where each string of a block that starts at [n] starts. *)
Fixpoint starts (n : Z) (strs : list (list Z)) : list Z :=
  match strs with
  | [] => []
  | s :: strs => n :: starts (n + Z.of_nat (length s) + 1) strs
  end.

Lemma push_strings_spec strs offs buf :
  push_strings strs offs buf = (offs ++ starts (Z.of_nat (length buf)) strs, buf ++ nul_terminated strs).
Proof.
  revert offs buf. induction strs as [|s strs IH]; intros offs buf; cbn [push_strings starts].
  { by rewrite !app_nil_r. }
  rewrite IH. unfold nul_terminated. rewrite fmap_cons. cbn [concat]. rewrite <- !app_assoc. f_equal. cbn [app].
  do 3 f_equal. rewrite !length_app. cbn [length]. lia.
Qed.

Lemma length_starts n strs : length (starts n strs) = length strs.
Proof. revert n. induction strs; intros n; cbn; [done|]. by rewrite IHstrs. Qed.

(** At the start of a string lies the string and a terminator. *)
Lemma starts_lookup strs pre i off post :
  starts (Z.of_nat (length pre)) strs !! i = Some off ->
  exists s rest, strs !! i = Some s /\ Z.of_nat (length pre) <= off /\
    off < Z.of_nat (length (pre ++ nul_terminated strs ++ post)) /\
    drop (Z.to_nat off) (pre ++ nul_terminated strs ++ post) = s ++ 0 :: rest.
Proof.
  revert pre i. induction strs as [|s strs IH]; intros pre i H; [done|].
  change (nul_terminated (s :: strs)) with ((s ++ [0]) ++ nul_terminated strs). destruct i as [|i]; cbn in H.
  - injection H as <-. exists s, (nul_terminated strs ++ post). split; [done|]. split; [lia|].
    split; [rewrite !length_app; cbn [length]; lia|].
    rewrite Nat2Z.id, drop_app_length, <- !app_assoc. done.
  - replace (Z.of_nat (length pre) + Z.of_nat (length s) + 1) with (Z.of_nat (length (pre ++ s ++ [0]))) in H
      by (rewrite !length_app; cbn [length]; lia).
    destruct (IH _ _ H) as (s' & rest & Hs & Hle & Hlt & Hd). exists s', rest.
    replace (pre ++ ((s ++ [0]) ++ nul_terminated strs) ++ post) with ((pre ++ s ++ [0]) ++ nul_terminated strs ++ post)
      by (by rewrite <- !app_assoc).
    split; [done|]. split; [rewrite !length_app in Hle; lia|]. by split.
Qed.

Lemma until_nul_string s rest : 0 ∉ s -> until_nul (s ++ 0 :: rest) = s.
Proof.
  induction s as [|b s IH]; intros Hs; cbn; [done|]. apply not_elem_of_cons in Hs as [Hb Hs].
  destruct (Z.eqb_spec b 0); [congruence|]. by rewrite IH.
Qed.

(** ** Lemmas on the writes *)

(** Writing at the boundary between what is written and the zeroes left. *)
Lemma write_at_next done n bytes :
  (length bytes <= n)%nat -> Z.of_nat (length done) + Z.of_nat n < 2 ^ 64 ->
  write_at bytes (done ++ replicate n 0, Z.of_nat (length done)) =
    Done ((done ++ bytes) ++ replicate (n - length bytes) 0, Z.of_nat (length (done ++ bytes))).
Proof.
  intros Hn Hb. unfold write_at. rewrite add64_done by lia. cbn [mbind run_bind].
  rewrite length_app, length_replicate, (proj2 (Z.leb_le _ _)) by lia. rewrite Nat2Z.id, take_app_length.
  replace (Z.to_nat (Z.of_nat (length done) + Z.of_nat (length bytes))) with (length done + length bytes)%nat by lia.
  rewrite drop_app_add, drop_replicate, length_app, <- app_assoc. do 2 f_equal. lia.
Qed.

Definition words (ws : list Z) : list Z := concat (to_le_bytes 8 <$> ws).

Lemma length_words ws : length (words ws) = (8 * length ws)%nat.
Proof.
  unfold words. induction ws as [|w ws IH]; [done|]. rewrite fmap_cons. cbn [concat].
  rewrite length_app, IH, to_le_bytes_length. cbn [length]. lia.
Qed.

Lemma words_app l k : words (l ++ k) = words l ++ words k.
Proof. unfold words. by rewrite fmap_app, concat_app. Qed.

(** The state once the words [ws] are written and [n] zeroes are left. *)
Definition cur (ws : list Z) (n : nat) : list Z * Z := (words ws ++ replicate n 0, Z.of_nat (length (words ws))).

Lemma write_word ws n v :
  (8 <= n)%nat -> 8 * Z.of_nat (length ws) + Z.of_nat n < 2 ^ 64 ->
  write_u64 v (cur ws n) = Done (cur (ws ++ [v]) (n - 8)).
Proof.
  intros Hn Hb. unfold write_u64, cur. rewrite write_at_next by (rewrite ?to_le_bytes_length, ?length_words; lia).
  rewrite to_le_bytes_length, words_app. assert (words [v] = to_le_bytes 8 v) as -> by apply app_nil_r. done.
Qed.

Lemma write_ptrs_words base offs ws n :
  (8 * length offs <= n)%nat -> 8 * Z.of_nat (length ws) + Z.of_nat n < 2 ^ 64 ->
  write_ptrs base offs (cur ws n) =
    Done (cur (ws ++ ((fun o => wrap64 (base + o)) <$> offs)) (n - 8 * length offs)).
Proof.
  revert ws n. induction offs as [|o offs IH]; intros ws n Hn Hb; cbn [write_ptrs length] in *.
  { cbn [fmap list_fmap]. by rewrite app_nil_r, Nat.sub_0_r. }
  rewrite write_word by lia. cbn [mbind run_bind]. rewrite IH.
  - rewrite fmap_cons, <- app_assoc. by replace (n - 8 - 8 * length offs)%nat with (n - 8 * S (length offs))%nat by lia.
  - lia.
  - rewrite length_app. cbn [length]. lia.
Qed.

(** ** The layout *)

Section Layout.
Context (stack_top : Z) (argv : list (list Z)) (envp : list (list Z * list Z)).

Definition env_block : list Z := nul_terminated (env_string <$> envp).
Definition string_block : list Z := env_block ++ nul_terminated argv.
Definition table_bytes : Z := 8 * (3 + Z.of_nat (length argv) + Z.of_nat (length envp)).
Definition strings_base : Z := wrap64 (stack_top - Z.of_nat (length string_block)).
Definition env_ptrs : list Z := (fun o => wrap64 (strings_base + o)) <$> starts 0 (env_string <$> envp).
Definition argv_ptrs : list Z := (fun o => wrap64 (strings_base + o)) <$> starts (Z.of_nat (length env_block)) argv.
Definition table_words : list Z := [Z.of_nat (length argv)] ++ argv_ptrs ++ [0] ++ env_ptrs ++ [0].

(** The stack has room for the block. *)
Context (Htop : is_u64 stack_top) (Hroom : table_bytes + Z.of_nat (length string_block) + 16 <= stack_top).

Lemma pad_aligned :
  let slen := Z.of_nat (length string_block) in
  let pmin := Z.land (wrap64 (stack_top - slen)) 7 in
  let extra := if negb (Z.land (wrap64 (stack_top - (table_bytes + pmin + slen))) 15 =? 0) then 8 else 0 in
  0 <= pmin < 8 /\ 0 <= extra <= 8 /\ (stack_top - (table_bytes + (pmin + extra) + slen)) mod 16 = 0.
Proof.
  intros slen pmin extra. unfold is_u64 in Htop. fold slen in Hroom.
  assert (0 <= slen) by lia. assert (0 <= table_bytes) by (unfold table_bytes; lia).
  assert (pmin = (stack_top - slen) mod 8) as Hp.
  { unfold pmin, wrap64. rewrite Z.mod_small by lia. by apply (land_ones_mod _ 3). }
  pose proof (Z.mod_pos_bound (stack_top - slen) 8 ltac:(lia)) as Hb. pose proof (Z.div_mod (stack_top - slen) 8 ltac:(lia)) as Hd.
  assert (exists j, stack_top - (table_bytes + pmin + slen) = 8 * j) as [j Hj].
  { exists ((stack_top - slen) / 8 - (3 + Z.of_nat (length argv) + Z.of_nat (length envp))). unfold table_bytes. lia. }
  assert (extra = if negb ((8 * j) mod 16 =? 0) then 8 else 0) as He.
  { unfold extra, wrap64. rewrite Hj, Z.mod_small by lia. change 15 with (2 ^ 4 - 1). by rewrite land_ones_mod. }
  clearbody pmin extra. pose proof (Z.mod_pos_bound (8 * j) 16 ltac:(lia)). pose proof (Z.div_mod (8 * j) 16 ltac:(lia)).
  split; [lia|]. destruct (Z.eqb_spec ((8 * j) mod 16) 0) as [Hz|Hz]; cbn [negb] in He; subst extra; (split; [lia|]).
  - replace (stack_top - _) with (8 * j) by lia. done.
  - replace (stack_top - _) with ((8 * j / 16) * 16) by lia. by apply Z.mod_mul.
Qed.

Lemma length_table_words : 8 * Z.of_nat (length table_words) = table_bytes.
Proof.
  unfold table_words, argv_ptrs, env_ptrs, table_bytes.
  rewrite !length_app, !length_fmap, !length_starts, length_fmap. cbn [length]. lia.
Qed.

Lemma stack_sizes_spec :
  let slen := Z.of_nat (length string_block) in
  exists pad, stack_sizes stack_top (Z.of_nat (length argv)) (Z.of_nat (length envp)) slen =
      Done (pad, table_bytes + pad + slen) /\
    0 <= pad < 16 /\ (stack_top - (table_bytes + pad + slen)) mod 16 = 0.
Proof.
  intros slen. destruct pad_aligned as (Hp & He & Hal). fold slen in Hp, He, Hal, Hroom.
  set (pmin := Z.land (wrap64 (stack_top - slen)) 7) in *.
  set (extra := if negb (Z.land (wrap64 (stack_top - (table_bytes + pmin + slen))) 15 =? 0) then 8 else 0) in *.
  unfold is_u64 in Htop. assert (0 <= slen) by lia.
  exists (pmin + extra). split; [|split; [lia|done]]. unfold stack_sizes. fold pmin.
  assert (8 * (3 + Z.of_nat (length argv) + Z.of_nat (length envp)) < 2 ^ 64) as Hlen by (unfold table_bytes in Hroom; lia).
  rewrite (add64_done (Z.of_nat (length argv))) by lia. cbn [mbind run_bind]. rewrite mul64_done by lia. cbn [mbind run_bind].
  rewrite (add64_done 8) by lia. cbn [mbind run_bind].
  rewrite (add64_done (Z.of_nat (length envp))) by lia. cbn [mbind run_bind]. rewrite mul64_done by lia. cbn [mbind run_bind].
  rewrite (add64_done (8 + _)) by lia. cbn [mbind run_bind].
  replace (8 + (Z.of_nat (length argv) + 1) * 8 + (Z.of_nat (length envp) + 1) * 8) with table_bytes by (unfold table_bytes; lia).
  rewrite (add64_done table_bytes pmin) by lia. cbn [mbind run_bind]. rewrite (add64_done _ slen) by lia. cbn [mbind run_bind].
  fold extra. rewrite (add64_done pmin) by lia. cbn [mbind run_bind]. rewrite (add64_done table_bytes) by lia. cbn [mbind run_bind].
  by rewrite (add64_done _ slen) by lia.
Qed.

Lemma fill_block_spec pad :
  0 <= pad < 16 -> table_bytes + pad + Z.of_nat (length string_block) < 2 ^ 64 ->
  fill_block stack_top (Z.of_nat (length argv)) (starts (Z.of_nat (length env_block)) argv) (starts 0 (env_string <$> envp))
    string_block pad (table_bytes + pad + Z.of_nat (length string_block)) =
  Done (words table_words ++ replicate (Z.to_nat pad) 0 ++ string_block).
Proof.
  intros Hp Ht. unfold fill_block. fold strings_base. set (n := Z.to_nat (table_bytes + pad + Z.of_nat (length string_block))).
  assert (Z.of_nat n = table_bytes + pad + Z.of_nat (length string_block)) as Hn by (unfold table_bytes in *; lia).
  unfold table_bytes in Hn.
  change (replicate n 0, 0) with (cur [] n). rewrite write_word by (cbn [length]; lia). cbn [mbind run_bind app].
  rewrite write_ptrs_words by (rewrite ?length_starts; cbn [length]; lia). cbn [mbind run_bind]. fold argv_ptrs.
  assert (length argv_ptrs = length argv /\ length env_ptrs = length envp) as [La Le].
  { unfold argv_ptrs, env_ptrs. by rewrite !length_fmap, !length_starts, length_fmap. }
  rewrite write_word by (rewrite ?length_starts, ?length_app, ?La; cbn [length]; lia). cbn [mbind run_bind].
  rewrite write_ptrs_words by (rewrite ?length_starts, ?length_fmap, ?length_app, ?La; cbn [length]; lia).
  cbn [mbind run_bind]. fold env_ptrs.
  rewrite write_word by (rewrite ?length_starts, ?length_fmap, ?length_app, ?La, ?Le; cbn [length]; lia). cbn [mbind run_bind].
  rewrite !length_starts, length_fmap.
  match goal with |- context [cur ?ws _] =>
    assert (ws = table_words) as -> by (unfold table_words; cbn [app]; by rewrite <- !app_assoc) end.
  unfold cur. cbn [mbind run_bind].
  set (k := (n - 8 - 8 * length argv - 8 - 8 * length envp - 8)%nat).
  assert (k = Z.to_nat pad + length string_block)%nat as -> by lia.
  pose proof length_table_words as Hlw. rewrite add64_done by (rewrite length_words; lia). cbn [mbind run_bind].
  rewrite replicate_add, app_assoc.
  replace (Z.of_nat (length (words table_words)) + pad) with (Z.of_nat (length (words table_words ++ replicate (Z.to_nat pad) 0)))
    by (rewrite length_app, length_replicate; lia).
  rewrite write_at_next; [|done|rewrite length_app, length_replicate, length_words; unfold table_bytes in *; lia].
  cbn [mbind run_bind]. rewrite Nat.sub_diag. cbn [replicate]. by rewrite app_nil_r, <- app_assoc.
Qed.

(** The block is the pointer table, the padding and the strings. *)
Lemma build_stack_args_layout :
  exists pad, 0 <= pad < 16 /\ (stack_top - (table_bytes + pad + Z.of_nat (length string_block))) mod 16 = 0 /\
    build_stack_args stack_top argv envp =
      Done {| sa_data := words table_words ++ replicate (Z.to_nat pad) 0 ++ string_block;
              sa_rsp_offset := table_bytes + pad + Z.of_nat (length string_block);
              sa_argc := Z.of_nat (length argv) |}.
Proof.
  destruct stack_sizes_spec as (pad & E & Hp & Hal). exists pad. split; [done|]. split; [done|].
  unfold build_stack_args. rewrite push_strings_spec. cbn [app length]. rewrite push_strings_spec. cbn [app].
  fold env_block. fold string_block. rewrite E. cbn [mbind run_bind].
  rewrite fill_block_spec by (done || (unfold is_u64 in Htop; lia)). done.
Qed.
End Layout.

(** ** Reading the block back *)

Lemma words_lookup ws i w rest :
  ws !! i = Some w -> take 8 (drop (8 * i) (words ws ++ rest)) = to_le_bytes 8 w.
Proof.
  revert i. induction ws as [|x ws IH]; intros i Hi; [done|].
  change (words (x :: ws)) with (to_le_bytes 8 x ++ words ws). destruct i as [|i]; cbn in Hi.
  - injection Hi as ->. rewrite drop_0, <- app_assoc. by apply take_app_length'.
  - replace (8 * S i)%nat with (length (to_le_bytes 8 x) + 8 * i)%nat by (rewrite to_le_bytes_length; lia).
    rewrite <- app_assoc, drop_app_add. by apply IH.
Qed.

Lemma user_u64_word ws rest rsp i w :
  ws !! i = Some w -> is_u64 w -> user_u64 (words ws ++ rest) rsp (rsp + 8 * Z.of_nat i) = w.
Proof.
  intros Hi Hw. unfold user_u64. replace (Z.to_nat (rsp + 8 * Z.of_nat i - rsp)) with (8 * i)%nat by lia.
  rewrite (words_lookup _ _ w), from_to_le_bytes by done. by apply Z.mod_small.
Qed.

Lemma user_vec_spec ws rest rsp fuel i ps strs tl :
  drop i ws = ps ++ 0 :: tl ->
  Forall2 (fun p s => is_u64 p /\ p <> 0 /\ user_cstr (words ws ++ rest) rsp p = s) ps strs ->
  (length ps < fuel)%nat -> user_vec (words ws ++ rest) rsp fuel (rsp + 8 * Z.of_nat i) = strs.
Proof.
  intros Hd H. revert fuel i Hd. induction H as [|p s ps strs (Hp & Hnz & Hs) H IH]; intros [|fuel] i Hd Hf; try (cbn in Hf; lia);
    cbn [user_vec app length] in *.
  - rewrite (user_u64_word ws rest rsp i 0); [done| |split; lia]. rewrite <- (Nat.add_0_r i), <- lookup_drop, Hd. done.
  - assert (ws !! i = Some p) as Hi by (rewrite <- (Nat.add_0_r i), <- lookup_drop, Hd; done).
    rewrite (user_u64_word ws rest rsp i p Hi Hp), (proj2 (Z.eqb_neq p 0) Hnz), Hs. f_equal.
    replace (rsp + 8 * Z.of_nat i + 8) with (rsp + 8 * Z.of_nat (S i)) by lia. apply IH; [|lia].
    by rewrite (drop_S _ p i Hi) in Hd; injection Hd.
Qed.

Section RoundTrip.
Context (stack_top : Z) (argv : list (list Z)) (envp : list (list Z * list Z)).
Context (Htop : is_u64 stack_top)
  (Hroom : table_bytes argv envp + Z.of_nat (length (string_block argv envp)) + 16 <= stack_top).
Context (pad : Z) (Hpad : 0 <= pad).

Definition block : list Z :=
  words (table_words stack_top argv envp) ++ replicate (Z.to_nat pad) 0 ++ string_block argv envp.
Definition block_rsp : Z := stack_top - (table_bytes argv envp + pad + Z.of_nat (length (string_block argv envp))).

(** The pointer made from the start of a string leads to that string. *)
Lemma block_ptr strs pre post i off s :
  string_block argv envp = pre ++ nul_terminated strs ++ post -> starts (Z.of_nat (length pre)) strs !! i = Some off ->
  strs !! i = Some s -> 0 ∉ s ->
  let p := wrap64 (strings_base stack_top argv envp + off) in
  is_u64 p /\ p <> 0 /\ user_cstr block block_rsp p = s.
Proof.
  intros Hblk Hoff Hs Hnul p. destruct (starts_lookup strs pre i off post Hoff) as (s' & rest & Hs' & Hle & Hlt & Hd).
  rewrite <- Hblk in Hlt, Hd. assert (s' = s) as -> by congruence. clear Hs'. unfold is_u64 in Htop.
  set (slen := Z.of_nat (length (string_block argv envp))) in *.
  assert (0 <= table_bytes argv envp) by (unfold table_bytes; lia).
  assert (p = stack_top - slen + off) as ->.
  { unfold p, strings_base, wrap64. fold slen. rewrite (Z.mod_small (stack_top - slen)), Z.mod_small by lia. done. }
  split; [unfold is_u64; lia|]. split; [lia|]. unfold user_cstr, block, block_rsp. fold slen.
  rewrite app_assoc. pose proof (length_table_words stack_top argv envp) as Hlw.
  replace (Z.to_nat (stack_top - slen + off - (stack_top - (table_bytes argv envp + pad + slen))))
    with (length (words (table_words stack_top argv envp) ++ replicate (Z.to_nat pad) 0%Z) + Z.to_nat off)%nat
    by (rewrite length_app, length_replicate, length_words; lia).
  rewrite drop_app_add, Hd. by apply until_nul_string.
Qed.

Lemma block_ptrs strs pre post :
  string_block argv envp = pre ++ nul_terminated strs ++ post -> Forall (fun s => 0 ∉ s) strs ->
  Forall2 (fun p s => is_u64 p /\ p <> 0 /\ user_cstr block block_rsp p = s)
    ((fun o => wrap64 (strings_base stack_top argv envp + o)) <$> starts (Z.of_nat (length pre)) strs) strs.
Proof.
  intros Hblk Hnul. rewrite Forall_forall in Hnul. apply Forall2_fmap_l, Forall2_lookup. intros i.
  destruct (starts (Z.of_nat (length pre)) strs !! i) as [off|] eqn:Eo, (strs !! i) as [s|] eqn:Es; [|exfalso|exfalso|by constructor].
  - constructor. apply (block_ptr strs pre post i off s Hblk Eo Es). apply Hnul. by eapply list_elem_of_lookup_2.
  - apply lookup_lt_Some in Eo. apply lookup_ge_None in Es. rewrite length_starts in Eo. lia.
  - apply lookup_ge_None in Eo. apply lookup_lt_Some in Es. rewrite length_starts in Eo. lia.
Qed.

Lemma block_args :
  Forall (fun s => 0 ∉ s) argv -> Forall (fun s => 0 ∉ s) (env_string <$> envp) ->
  start_args block block_rsp = (Z.of_nat (length argv), argv, env_string <$> envp).
Proof.
  intros Ha He. unfold start_args.
  assert (length (argv_ptrs stack_top argv envp) = length argv /\ length (env_ptrs stack_top argv envp) = length envp) as [La Le].
  { unfold argv_ptrs, env_ptrs. by rewrite !length_fmap, !length_starts, length_fmap. }
  assert (length (words (table_words stack_top argv envp)) <= length block)%nat as Hlen by (unfold block; rewrite length_app; lia).
  rewrite length_words in Hlen. unfold table_words in Hlen. rewrite !length_app, La, Le in Hlen. cbn [length] in Hlen.
  assert (Z.of_nat (length argv) < 2 ^ 64) by (unfold table_bytes, is_u64 in *; lia).
  assert (user_u64 block block_rsp block_rsp = Z.of_nat (length argv)) as Hargc.
  { replace block_rsp with (block_rsp + 8 * Z.of_nat 0) at 2 by lia. unfold block. apply user_u64_word; [done|unfold is_u64; lia]. }
  rewrite Hargc. f_equal; [f_equal|].
  - replace (block_rsp + 8) with (block_rsp + 8 * Z.of_nat 1) by lia. unfold block at 1.
    eapply (user_vec_spec _ _ _ _ 1 (argv_ptrs stack_top argv envp)); [done| |lia]. fold block.
    apply (block_ptrs argv (env_block envp) []); [by rewrite app_nil_r|done].
  - replace (block_rsp + 8 + (Z.of_nat (length argv) + 1) * 8) with (block_rsp + 8 * Z.of_nat (2 + length argv)) by lia.
    unfold block at 1. eapply (user_vec_spec _ _ _ _ _ (env_ptrs stack_top argv envp)); [| |lia].
    + unfold table_words. rewrite <- La.
      change (2 + length (argv_ptrs stack_top argv envp))%nat with (S (S (length (argv_ptrs stack_top argv envp)))).
      cbn [app drop]. replace (S (length (argv_ptrs stack_top argv envp))) with (length (argv_ptrs stack_top argv envp ++ [0]))
        by (rewrite length_app; cbn; lia).
      change (0 :: env_ptrs stack_top argv envp ++ [0]) with ([0] ++ env_ptrs stack_top argv envp ++ [0]).
      by rewrite app_assoc, drop_app_length.
    + fold block. apply (block_ptrs (env_string <$> envp) [] (nul_terminated argv)); [done|done].
Qed.
End RoundTrip.

(** ** Theorems *)

(** Initial stack: when the stack has room for the block and no string
    contains a NUL, [build_stack_args] never panics or writes out of bounds;
    the stack pointer is 16-byte aligned, the block reaches exactly from it to
    the top of the stack, and a program that reads [argc], the [argv] array
    and the [envp] array from its stack pointer, as the ABI says, finds
    exactly the given arguments and the environment as [k=v] strings. *)
Theorem stack_args_roundtrip (stack_top : Z) (argv : list (list Z)) (envp : list (list Z * list Z))
    (Htop : is_u64 stack_top)
    (Hroom : table_bytes argv envp + Z.of_nat (length (string_block argv envp)) + 16 <= stack_top)
    (Hargv : Forall (fun s => 0 ∉ s) argv) (Henvp : Forall (fun s => 0 ∉ s) (env_string <$> envp)) :
  exists L, build_stack_args stack_top argv envp = Done L /\
    Z.of_nat (length (sa_data L)) = sa_rsp_offset L /\ sa_argc L = Z.of_nat (length argv) /\
    let rsp := stack_top - sa_rsp_offset L in
    0 <= rsp /\ rsp mod 16 = 0 /\
    start_args (sa_data L) rsp = (Z.of_nat (length argv), argv, env_string <$> envp).
Proof.
  destruct (build_stack_args_layout stack_top argv envp Htop Hroom) as (pad & Hp & Hal & E).
  eexists. split; [exact E|]. cbn [sa_data sa_rsp_offset sa_argc]. pose proof (length_table_words stack_top argv envp) as Hlw.
  split; [rewrite !length_app, length_replicate, length_words; lia|]. split; [done|]. split; [lia|]. split; [done|].
  apply (block_args stack_top argv envp Htop Hroom pad ltac:(lia) Hargv Henvp).
Qed.

(** ** Witnesses *)

(** ["sh"], ["-c"] and [PATH=/]. *)
Lemma stack_args_roundtrip_witness :
  exists L, build_stack_args 0x100000 [[115; 104]; [45; 99]] [([80; 65; 84; 72], [47])] = Done L /\
    start_args (sa_data L) (0x100000 - sa_rsp_offset L) = (2, [[115; 104]; [45; 99]], [[80; 65; 84; 72; 61; 47]]).
Proof.
  destruct (stack_args_roundtrip 0x100000 [[115; 104]; [45; 99]] [([80; 65; 84; 72], [47])]) as (L & H1 & _ & _ & _ & _ & H2).
  - split; vm_compute; congruence.
  - vm_compute. congruence.
  - repeat (constructor; [intros Hx; repeat (apply elem_of_cons in Hx as [Hx|Hx]; [discriminate Hx|]); by apply elem_of_nil in Hx|]).
    constructor.
  - repeat (constructor; [intros Hx; repeat (apply elem_of_cons in Hx as [Hx|Hx]; [discriminate Hx|]); by apply elem_of_nil in Hx|]).
    constructor.
  - exists L. split; [exact H1|exact H2].
Defined.
