(* ===== verification/Vfs.v ===== *)
(** * In-memory file system (omni-kernel: vfs.rs)

    A flat table of inodes; directories map names to inode numbers.  Paths are
    byte strings, normalised before every walk.  The abstract view is a map
    from paths (lists of names) to files and directories; every operation is
    shown to act on it by its contract. *)

From Stdlib Require Import ZArith Lia String.
From stdpp Require Import base numbers list gmap sorting.
From S2P Require Import Prelude Str.

(** ** Data *)

Inductive FileType := RegularFile | Directory.

#[global] Instance file_type_eq : EqDecision FileType.
Proof. solve_decision. Defined.

Inductive VfsError := NotFound | AlreadyExists | NotADirectory | IsADirectory | NotEmpty | InvalidPath.

Record Inode := {
  in_id : Z;
  in_name : str;
  in_type : FileType;
  in_data : list Z;
  in_children : gmap str Z;
  in_parent : option Z;
}.

Record InMemoryVfs := { inodes : gmap Z Inode; next_inode : Z }.

Record FileStat := { st_inode : Z; st_size : Z; st_type : FileType }.
Record DirEntry := { de_name : str; de_inode : Z; de_type : FileType }.

(** ** Paths *)

(** The component loop: ["" | "."] skipped, [".."] pops, others are pushed. *)
Fixpoint norm_stack (components stack : list str) : list str :=
  match components with
  | [] => stack
  | c :: components =>
      norm_stack components
        (if str_eqb c [] || str_eqb c (lit ".") then stack
         else if str_eqb c (lit "..") then removelast stack
         else stack ++ [c])
  end.

Definition raw_path (base path : str) : str :=
  if starts_with path (lit "/") then path
  else (if bool_decide (last base = Some SLASH) then base else base ++ lit "/") ++ path.

Definition join_path (stack : list str) : str := concat ((fun c => SLASH :: c) <$> stack).

Definition normalize_path (base path : str) : str :=
  match norm_stack (split_on SLASH (raw_path base path)) [] with
  | [] => lit "/"
  | stack => join_path stack
  end.

(** ** Operations *)

Definition new_inode (id : Z) (name : str) (t : FileType) (parent : option Z) : Inode :=
  {| in_id := id; in_name := name; in_type := t; in_data := []; in_children := ∅; in_parent := parent |}.
Definition set_in_children (cs : gmap str Z) (i : Inode) : Inode :=
  {| in_id := in_id i; in_name := in_name i; in_type := in_type i; in_data := in_data i; in_children := cs;
     in_parent := in_parent i |}.
Definition set_in_data (d : list Z) (i : Inode) : Inode :=
  {| in_id := in_id i; in_name := in_name i; in_type := in_type i; in_data := d; in_children := in_children i;
     in_parent := in_parent i |}.

Definition vfs_new : InMemoryVfs :=
  {| inodes := <[1 := new_inode 1 (lit "/") Directory None]> ∅; next_inode := 2 |}.

(** The walk of [resolve_path] from inode [cur]. *)
Fixpoint walk_names (fs : InMemoryVfs) (cur : Z) (components : list str) : result VfsError Z :=
  match components with
  | [] => Ok cur
  | c :: components =>
      if bool_decide (c = []) then walk_names fs cur components else
      match inodes fs !! cur with
      | None => Err NotFound
      | Some i =>
          if negb (bool_decide (in_type i = Directory)) then Err NotADirectory else
          match in_children i !! c with
          | None => Err NotFound
          | Some child => walk_names fs child components
          end
      end
  end.

Definition resolve_path (fs : InMemoryVfs) (path : str) : result VfsError Z :=
  let normalized := normalize_path (lit "/") path in
  if str_eqb normalized (lit "/") then Ok 1
  else walk_names fs 1 (drop 1 (split_on SLASH normalized)).

(** [rfind('/').expect(..)] and the two slices around it. *)
Definition split_last (normalized : str) : run (str * str) :=
  match rsplit_once normalized SLASH with
  | Some x => Done x
  | None => Panicked
  end.

Definition resolve_parent (fs : InMemoryVfs) (path : str) : run (result VfsError (Z * str)) :=
  let normalized := normalize_path (lit "/") path in
  if str_eqb normalized (lit "/") then Done (Err InvalidPath) else
  '(before, child_name) ← split_last normalized;
  if bool_decide (child_name = []) then Done (Err InvalidPath) else
  let parent_path := if bool_decide (before = []) then lit "/" else before in
  Done (parent_id ← resolve_path fs parent_path;
        match inodes fs !! parent_id with
        | None => Err NotFound
        | Some parent => if negb (bool_decide (in_type parent = Directory)) then Err NotADirectory
                         else Ok (parent_id, child_name)
        end).

Definition create_entry (path : str) (t : FileType) (fs : InMemoryVfs) : run (result VfsError Z * InMemoryVfs) :=
  r ← resolve_parent fs path;
  Done (match r with
  | Err e => (Err e, fs)
  | Ok (parent_id, child_name) =>
      match inodes fs !! parent_id with
      | None => (Err NotFound, fs)
      | Some parent =>
          if bool_decide (is_Some (in_children parent !! child_name)) then (Err AlreadyExists, fs) else
          let new_id := next_inode fs in
          let m := <[new_id := new_inode new_id child_name t (Some parent_id)]> (inodes fs) in
          (Ok new_id,
           {| inodes := alter (fun p => set_in_children (<[child_name := new_id]> (in_children p)) p) parent_id m;
              next_inode := saturating_add64 new_id 1 |})
      end
  end).

Definition create_file (path : str) (fs : InMemoryVfs) : run (result VfsError Z * InMemoryVfs) :=
  create_entry path RegularFile fs.
Definition create_directory (path : str) (fs : InMemoryVfs) : run (result VfsError Z * InMemoryVfs) :=
  create_entry path Directory fs.

Definition vfs_delete (path : str) (fs : InMemoryVfs) : run (result VfsError unit * InMemoryVfs) :=
  let normalized := normalize_path (lit "/") path in
  if str_eqb normalized (lit "/") then Done (Err InvalidPath, fs) else
  match resolve_path fs normalized with
  | Err e => Done (Err e, fs)
  | Ok target_id =>
      match inodes fs !! target_id with
      | None => Done (Err NotFound, fs)
      | Some target =>
          if bool_decide (in_type target = Directory) && negb (bool_decide (in_children target = ∅))
          then Done (Err NotEmpty, fs) else
          match in_parent target with
          | None => Done (Err InvalidPath, fs)
          | Some parent_id =>
              '(_, child_name) ← split_last normalized;
              Done (Ok (),
                {| inodes := delete target_id
                     (alter (fun p => set_in_children (delete child_name (in_children p)) p) parent_id (inodes fs));
                   next_inode := next_inode fs |})
          end
      end
  end.

Definition vfs_stat (fs : InMemoryVfs) (path : str) : result VfsError FileStat :=
  id ← resolve_path fs path;
  match inodes fs !! id with
  | None => Err NotFound
  | Some i => Ok {| st_inode := in_id i; st_size := Z.of_nat (length (in_data i)); st_type := in_type i |}
  end.

Fixpoint dir_entries (fs : InMemoryVfs) (kids : list (str * Z)) : result VfsError (list DirEntry) :=
  match kids with
  | [] => Ok []
  | (n, c) :: kids =>
      match inodes fs !! c with
      | None => Err NotFound
      | Some i => rest ← dir_entries fs kids; Ok ({| de_name := n; de_inode := c; de_type := in_type i |} :: rest)
      end
  end.

Definition list_directory (fs : InMemoryVfs) (path : str) : result VfsError (list DirEntry) :=
  id ← resolve_path fs path;
  match inodes fs !! id with
  | None => Err NotFound
  | Some i =>
      if negb (bool_decide (in_type i = Directory)) then Err NotADirectory
      else dir_entries fs (merge_sort name_le (map_to_list (in_children i)))
  end.

Definition vfs_exists (fs : InMemoryVfs) (path : str) : bool :=
  match resolve_path fs path with Ok _ => true | Err _ => false end.

Definition read_file (inode_id offset len : Z) (fs : InMemoryVfs) : result VfsError (list Z) :=
  match inodes fs !! inode_id with
  | None => Err NotFound
  | Some i =>
      if bool_decide (in_type i = Directory) then Err IsADirectory else
      let file_len := Z.of_nat (length (in_data i)) in
      if (file_len <=? offset) || (len =? 0) then Ok [] else
      let stop := Z.min (saturating_add64 offset len) file_len in
      Ok (default [] (slice_get (in_data i) offset stop))
  end.

(** The largest length of a [Vec]; a resize beyond it panics. *)
Definition ISIZE_MAX : Z := 2 ^ 63 - 1.

Definition splice (start : nat) (bytes old : list Z) : list Z :=
  take start old ++ bytes ++ drop (start + length bytes) old.

Definition write_file (inode_id offset : Z) (bytes : list Z) (fs : InMemoryVfs) : run (result VfsError Z * InMemoryVfs) :=
  match inodes fs !! inode_id with
  | None => Done (Err NotFound, fs)
  | Some i =>
      if bool_decide (in_type i = Directory) then Done (Err IsADirectory, fs) else
      if bool_decide (bytes = []) then Done (Ok 0, fs) else
      let stop := saturating_add64 offset (Z.of_nat (length bytes)) in
      let len := Z.of_nat (length (in_data i)) in
      if (len <? stop) && (ISIZE_MAX <? stop) then Panicked else
      let grown := in_data i ++ replicate (Z.to_nat (stop - len)) 0 in
      Done (Ok (Z.of_nat (length bytes)),
            {| inodes := <[inode_id := set_in_data (splice (Z.to_nat offset) bytes grown) i]> (inodes fs);
               next_inode := next_inode fs |})
  end.

Definition file_size (fs : InMemoryVfs) (inode_id : Z) : result VfsError Z :=
  match inodes fs !! inode_id with
  | None => Err NotFound
  | Some i => if bool_decide (in_type i = Directory) then Err IsADirectory else Ok (Z.of_nat (length (in_data i)))
  end.

(** ** Abstract view *)

Inductive vnode := VFile (data : list Z) | VDir.

(** A tree of files: what lies at each path. *)
Abbreviation vtree := (list str -> option vnode).

Definition node_of (i : Inode) : vnode := if bool_decide (in_type i = Directory) then VDir else VFile (in_data i).

(** A name that can be a component: not empty, no separator, not a dot name. *)
Definition valid_name (n : str) : Prop := n <> [] /\ SLASH ∉ n /\ n <> lit "." /\ n <> lit "..".

#[global] Instance valid_name_dec n : Decision (valid_name n).
Proof. unfold valid_name. apply _. Defined.

Definition vabs (fs : InMemoryVfs) (l : list str) : option vnode :=
  if decide (Forall valid_name l) then
    match walk_names fs 1 l with
    | Ok id => node_of <$> inodes fs !! id
    | Err _ => None
    end
  else None.

(** The names a path stands for. *)
Definition components (path : str) : list str := norm_stack (split_on SLASH (raw_path (lit "/") path)) [].

Definition tree_update (l : list str) (x : option vnode) (T : vtree) : vtree :=
  fun l' => if decide (l' = l) then x else T l'.

(** Following names from [pre]: the first missing or non-directory component
    decides the error. *)
Fixpoint spec_resolve (T : vtree) (pre l : list str) : result VfsError unit :=
  match l with
  | [] => Ok ()
  | n :: l =>
      match T pre with
      | None => Err NotFound
      | Some (VFile _) => Err NotADirectory
      | Some VDir =>
          match T (pre ++ [n]) with
          | None => Err NotFound
          | Some _ => spec_resolve T (pre ++ [n]) l
          end
      end
  end.

Definition fresh_node (t : FileType) : vnode := match t with Directory => VDir | RegularFile => VFile [] end.

Definition spec_create (l : list str) (t : FileType) (T : vtree) : result VfsError unit * vtree :=
  match last l with
  | None => (Err InvalidPath, T)
  | Some _ =>
      let parent := removelast l in
      match spec_resolve T [] parent with
      | Err e => (Err e, T)
      | Ok _ =>
          match T parent with
          | Some VDir => match T l with
                         | Some _ => (Err AlreadyExists, T)
                         | None => (Ok (), tree_update l (Some (fresh_node t)) T)
                         end
          | _ => (Err NotADirectory, T)
          end
      end
  end.

(** A directory is deleted only when nothing lies directly below it, which is
    a property of the tree, not a computation on it. *)
Definition spec_empty (T : vtree) (l : list str) : Prop := forall n, T (l ++ [n]) = None.

Definition spec_write (l : list str) (offset : Z) (bytes : list Z) (T : vtree) : result VfsError Z * vtree :=
  match spec_resolve T [] l with
  | Err e => (Err e, T)
  | Ok _ =>
      match T l with
      | Some (VFile d) =>
          (Ok (Z.of_nat (length bytes)),
           if bool_decide (bytes = []) then T
           else tree_update l (Some (VFile (splice (Z.to_nat offset) bytes
                  (d ++ replicate (Z.to_nat (offset + Z.of_nat (length bytes)) - length d) 0)))) T)
      | _ => (Err IsADirectory, T)
      end
  end.

(** ** Lemmas on paths *)

Lemma norm_stack_valid cs stack :
  Forall (fun w => SLASH ∉ w) cs -> Forall valid_name stack -> Forall valid_name (norm_stack cs stack).
Proof.
  revert stack. induction cs as [|c cs IH]; intros stack Hcs Hs; cbn [norm_stack]; [done|].
  apply Forall_cons in Hcs as [Hc Hcs]. apply IH; [done|]. unfold str_eqb.
  case_bool_decide as H1; cbn [orb]; [done|]. case_bool_decide as H2; [done|]. case_bool_decide as H3.
  - clear -Hs. induction Hs as [|x [|y s] Hx Hs IH]; [constructor|constructor|]. constructor; [done|exact IH].
  - apply Forall_app. split; [done|]. by repeat constructor.
Qed.

Lemma components_valid path : Forall valid_name (components path).
Proof. apply norm_stack_valid; [apply split_on_no_sep|constructor]. Qed.

Lemma norm_stack_id cs stack : Forall valid_name cs -> norm_stack cs stack = stack ++ cs.
Proof.
  intros H. revert stack. induction H as [|c cs (H1 & _ & H2 & H3) H IH]; intros stack; cbn [norm_stack]; [by rewrite app_nil_r|].
  unfold str_eqb. rewrite !bool_decide_eq_false_2 by done. cbn [orb]. by rewrite IH, <- app_assoc.
Qed.

Lemma split_join l : l <> [] -> Forall valid_name l -> split_on SLASH (join_path l) = [] :: l.
Proof.
  intros Hne H. destruct l as [|c l]; [done|]. clear Hne. unfold join_path. rewrite fmap_cons. cbn [concat].
  change ((SLASH :: c) ++ ?r) with (SLASH :: c ++ r). cbn [split_on]. rewrite Z.eqb_refl. f_equal.
  revert c H. induction l as [|d l IH]; intros c H; apply Forall_cons in H as [(_ & Hc & _) H].
  - cbn. rewrite app_nil_r. by apply split_on_word.
  - rewrite fmap_cons. cbn [concat]. change (c ++ (SLASH :: d) ++ ?r) with (c ++ SLASH :: d ++ r).
    rewrite split_on_app by done. f_equal. by apply IH.
Qed.

Lemma join_path_not_root l : Forall valid_name l -> l <> [] -> str_eqb (join_path l) (lit "/") = false.
Proof.
  intros H Hne. destruct l as [|c l]; [done|]. apply Forall_cons in H as [(Hc & _) _]. apply bool_decide_eq_false_2.
  unfold join_path. rewrite fmap_cons. cbn. intros [= E]. apply app_eq_nil in E as [? _]. done.
Qed.

Lemma normalize_components path :
  normalize_path (lit "/") path = match components path with [] => lit "/" | _ => join_path (components path) end.
Proof. unfold normalize_path. fold (components path). by destruct (components path). Qed.

(** A normalised path stands for the same names. *)
Lemma components_join l : Forall valid_name l -> components (match l with [] => lit "/" | _ => join_path l end) = l.
Proof.
  intros H. destruct l as [|c l]; [reflexivity|]. unfold components, raw_path.
  assert (starts_with (join_path (c :: l)) (lit "/") = true) as -> by reflexivity.
  rewrite split_join by done. change (norm_stack ([] :: c :: l) []) with (norm_stack (c :: l) []). by apply norm_stack_id.
Qed.

Lemma walk_names_skip fs cur l : walk_names fs cur ([] :: l) = walk_names fs cur l.
Proof. done. Qed.

Lemma resolve_path_walk fs path : resolve_path fs path = walk_names fs 1 (components path).
Proof.
  unfold resolve_path. rewrite normalize_components. pose proof (components_valid path) as Hv.
  destruct (components path) as [|c l] eqn:E; [reflexivity|].
  rewrite join_path_not_root, split_join by done. done.
Qed.

Lemma split_last_join l n : SLASH ∉ n -> split_last (join_path (l ++ [n])) = Done (join_path l, n).
Proof.
  intros Hn. unfold split_last, join_path. rewrite fmap_app, concat_app. cbn [fmap list_fmap concat app].
  by rewrite app_nil_r, rsplit_once_last.
Qed.

(** [resolve_parent] never panics: it walks to the parent of the components. *)
Lemma resolve_parent_root fs path : components path = [] -> resolve_parent fs path = Done (Err InvalidPath).
Proof. intros E. unfold resolve_parent. by rewrite normalize_components, E. Qed.

Lemma resolve_parent_snoc fs path l n :
  components path = l ++ [n] ->
  resolve_parent fs path = Done (
    p ← walk_names fs 1 l;
    match inodes fs !! p with
    | None => Err NotFound
    | Some i => if negb (bool_decide (in_type i = Directory)) then Err NotADirectory else Ok (p, n)
    end).
Proof.
  intros E. pose proof (components_valid path) as Hv. rewrite E in Hv. pose proof Hv as [Hl Hn]%Forall_app.
  apply Forall_singleton in Hn as (Hn0 & Hn & _). unfold resolve_parent. rewrite normalize_components, E.
  assert (l ++ [n] <> []) as Hne by (by destruct l).
  replace (match l ++ [n] with [] => lit "/" | _ => join_path (l ++ [n]) end) with (join_path (l ++ [n])) by (by destruct l).
  rewrite join_path_not_root, split_last_join by done. cbn [mbind run_bind]. rewrite bool_decide_eq_false_2 by done.
  rewrite resolve_path_walk.
  assert (components (if bool_decide (join_path l = []) then lit "/" else join_path l) = l) as ->; [|done].
  destruct l as [|c l]; [reflexivity|]. rewrite bool_decide_eq_false_2; [by apply (components_join (c :: l))|].
  unfold join_path. by rewrite fmap_cons.
Qed.

(** ** The inode tree *)

Record vfs_wf (fs : InMemoryVfs) : Prop := {
  vw_root : exists r, inodes fs !! 1 = Some r /\ in_type r = Directory /\ in_parent r = None;
  vw_next : forall id, is_Some (inodes fs !! id) -> 1 <= id < next_inode fs;
  vw_child : forall p pi n c, inodes fs !! p = Some pi -> in_children pi !! n = Some c ->
    valid_name n /\ p < c /\ exists ci, inodes fs !! c = Some ci /\ in_parent ci = Some p;
  vw_uniq : forall p pi n n' c, inodes fs !! p = Some pi ->
    in_children pi !! n = Some c -> in_children pi !! n' = Some c -> n = n';
  vw_link : forall c ci p, inodes fs !! c = Some ci -> in_parent ci = Some p ->
    exists pi n, inodes fs !! p = Some pi /\ in_children pi !! n = Some c;
  vw_file : forall id i, inodes fs !! id = Some i -> in_type i = RegularFile -> in_children i = ∅;
  vw_dir : forall id i, inodes fs !! id = Some i -> in_type i = Directory -> in_data i = [];
}.

Lemma vfs_new_wf : vfs_wf vfs_new.
Proof.
  assert (forall id i, inodes vfs_new !! id = Some i -> id = 1 /\ i = new_inode 1 (lit "/") Directory None) as Hi.
  { intros id i H. cbn in H. apply lookup_insert_Some in H as [[<- <-]|[_ H]]; [done|by rewrite lookup_empty in H]. }
  split.
  - by eexists.
  - intros id [i [-> _]%Hi]. cbn. lia.
  - intros p pi n c [_ ->]%Hi H. cbn in H. by rewrite lookup_empty in H.
  - intros p pi n n' c [_ ->]%Hi H. cbn in H. by rewrite lookup_empty in H.
  - intros c ci p [_ ->]%Hi H. done.
  - intros id i [_ ->]%Hi H. done.
  - intros id i [_ ->]%Hi H. done.
Qed.

(** [l] leads from [cur] to [id]. *)
Fixpoint path_to (m : gmap Z Inode) (cur : Z) (l : list str) (id : Z) : Prop :=
  match l with
  | [] => cur = id
  | n :: l => exists i c, m !! cur = Some i /\ in_type i = Directory /\ in_children i !! n = Some c /\ path_to m c l id
  end.

Lemma walk_names_path fs cur l id :
  Forall valid_name l -> walk_names fs cur l = Ok id <-> path_to (inodes fs) cur l id.
Proof.
  intros H. revert cur. induction H as [|n l (Hn & _) H IH]; intros cur; cbn [walk_names path_to].
  { split; [by intros [= ->]|by intros ->]. }
  rewrite bool_decide_eq_false_2 by done. destruct (inodes fs !! cur) as [i|].
  2:{ split; [done|by intros (? & ? & ? & _)]. }
  case_bool_decide as Ht; cbn [negb].
  2:{ split; [done|]. intros (j & ? & [= <-] & ? & _). done. }
  destruct (in_children i !! n) as [c|] eqn:Ec.
  2:{ split; [done|]. intros (j & c & [= <-] & _ & ? & _). congruence. }
  rewrite IH. split; [intros Hp; by exists i, c|]. intros (j & c' & [= <-] & _ & Hc & Hp). by replace c with c' by congruence.
Qed.

Lemma path_to_app m cur l n id :
  path_to m cur (l ++ [n]) id <->
  exists p i, path_to m cur l p /\ m !! p = Some i /\ in_type i = Directory /\ in_children i !! n = Some id.
Proof.
  revert cur. induction l as [|x l IH]; intros cur; cbn [path_to app].
  - split; [intros (i & c & H1 & H2 & H3 & <-); by exists cur, i|intros (p & i & -> & H1 & H2 & H3); by exists i, id].
  - split.
    + intros (i & c & H1 & H2 & H3 & (p & j & H4 & H5)%IH). exists p, j. split; [by exists i, c|done].
    + intros (p & j & (i & c & H1 & H2 & H3 & H4) & H5). exists i, c. split_and!; try done. apply IH. by exists p, j.
Qed.

Section Tree.
Context (fs : InMemoryVfs) (Hwf : vfs_wf fs).

Lemma path_valid l id : path_to (inodes fs) 1 l id -> Forall valid_name l.
Proof.
  revert id. induction l as [|n l IH] using rev_ind; intros id; [constructor|].
  intros (p & i & H1 & H2 & _ & H3)%path_to_app. apply Forall_app. split; [by eapply IH|].
  constructor; [|constructor]. by eapply (vw_child _ Hwf).
Qed.

Lemma path_live l id : path_to (inodes fs) 1 l id -> is_Some (inodes fs !! id).
Proof.
  destruct l as [|n l _] using rev_ind; [intros <-; destruct (vw_root _ Hwf) as (r & Hr & _); by exists r|].
  intros (p & i & _ & H2 & _ & H3)%path_to_app. destruct (vw_child _ Hwf _ _ _ _ H2 H3) as (_ & _ & ci & H4 & _). by exists ci.
Qed.

(** An inode has one path. *)
Lemma path_unique l l' id : path_to (inodes fs) 1 l id -> path_to (inodes fs) 1 l' id -> l = l'.
Proof.
  assert (forall l n id, path_to (inodes fs) 1 (l ++ [n]) id -> id <> 1) as Hroot.
  { intros k n x (p & i & _ & H2 & _ & H3)%path_to_app. destruct (vw_child _ Hwf _ _ _ _ H2 H3) as (_ & Hlt & _).
    destruct (vw_next _ Hwf p); [by eexists|]. lia. }
  revert l' id. induction l as [|n l IH] using rev_ind; intros l' id H H'.
  - cbn in H. subst. destruct l' as [|n' l' _] using rev_ind; [done|]. by apply Hroot in H'.
  - destruct l' as [|n' l' _] using rev_ind; [cbn in H'; subst; by apply Hroot in H|].
    apply path_to_app in H as (p & i & H1 & H2 & _ & H3). apply path_to_app in H' as (p' & i' & H1' & H2' & _ & H3').
    destruct (vw_child _ Hwf _ _ _ _ H2 H3) as (_ & _ & ci & Hc & Hp).
    destruct (vw_child _ Hwf _ _ _ _ H2' H3') as (_ & _ & ci' & Hc' & Hp').
    assert (p' = p) as -> by congruence. assert (i' = i) as -> by congruence.
    f_equal; [by eapply IH|]. f_equal. by apply (vw_uniq _ Hwf p i n n' id).
Qed.

Lemma vabs_some l x :
  vabs fs l = Some x <-> exists id i, path_to (inodes fs) 1 l id /\ inodes fs !! id = Some i /\ node_of i = x.
Proof.
  unfold vabs. destruct (decide (Forall valid_name l)) as [Hl|Hl].
  - split.
    + destruct (walk_names fs 1 l) as [id|] eqn:E; [|done]. apply walk_names_path in E; [|done].
      destruct (inodes fs !! id) as [i|] eqn:Ei; [|done]. cbn. intros [= <-]. by exists id, i.
    + intros (id & i & Hp & Hi & <-). apply walk_names_path in Hp; [|done]. by rewrite Hp, Hi.
  - split; [done|]. intros (id & i & Hp & _). by destruct (Hl (path_valid _ _ Hp)).
Qed.

Lemma vabs_none l : vabs fs l = None <-> forall id, ~ path_to (inodes fs) 1 l id.
Proof.
  split.
  - intros H id Hp. destruct (path_live _ _ Hp) as [i Hi].
    assert (vabs fs l = Some (node_of i)) by (apply vabs_some; by exists id, i). congruence.
  - intros H. destruct (vabs fs l) as [x|] eqn:E; [|done]. apply vabs_some in E as (id & i & Hp & _). by destruct (H id).
Qed.

Lemma vabs_at l id i : path_to (inodes fs) 1 l id -> inodes fs !! id = Some i -> vabs fs l = Some (node_of i).
Proof. intros Hp Hi. apply vabs_some. by exists id, i. Qed.

Lemma path_fun l id id' : path_to (inodes fs) 1 l id -> path_to (inodes fs) 1 l id' -> id = id'.
Proof.
  intros H H'. pose proof (path_valid _ _ H) as Hl. apply walk_names_path in H, H'; [|done|done]. congruence.
Qed.

(** The walk reports what following the names through the tree reports. *)
Lemma walk_spec l pre id :
  Forall valid_name l -> path_to (inodes fs) 1 pre id ->
  (exists id', walk_names fs id l = Ok id' /\ spec_resolve (vabs fs) pre l = Ok () /\ path_to (inodes fs) 1 (pre ++ l) id') \/
  (exists e, walk_names fs id l = Err e /\ spec_resolve (vabs fs) pre l = Err e).
Proof.
  intros Hl. revert pre id. induction Hl as [|n l Hn Hl IH]; intros pre id Hp; cbn [walk_names spec_resolve].
  { left. exists id. by rewrite app_nil_r. }
  rewrite bool_decide_eq_false_2 by apply Hn. destruct (path_live _ _ Hp) as [i Hi]. rewrite Hi.
  rewrite (vabs_at _ _ _ Hp Hi). unfold node_of.
  case_bool_decide as Ht; cbn [negb]; [|right; by eexists].
  destruct (in_children i !! n) as [c|] eqn:Ec.
  - assert (path_to (inodes fs) 1 (pre ++ [n]) c) as Hpc by (apply path_to_app; by exists id, i).
    destruct (path_live _ _ Hpc) as [ci Hci]. rewrite (vabs_at _ _ _ Hpc Hci).
    destruct (IH (pre ++ [n]) c Hpc) as [(id' & H1 & H2 & H3)|(e & H1 & H2)]; [left|right; by exists e].
    exists id'. by rewrite <- app_assoc in H3.
  - assert (vabs fs (pre ++ [n]) = None) as ->; [|right; by eexists].
    apply vabs_none. intros x (p & j & H1 & H2 & _ & H3)%path_to_app.
    rewrite (path_fun _ _ _ H1 Hp) in H2. congruence.
Qed.
End Tree.

(** ** Creation *)

Section Create.
Context (fs : InMemoryVfs) (Hwf : vfs_wf fs) (p : Z) (pi : Inode) (n : str) (t : FileType).
Context (Hpi : inodes fs !! p = Some pi) (Hdir : in_type pi = Directory)
  (Hnew : in_children pi !! n = None) (Hn : valid_name n).

Definition created : InMemoryVfs :=
  {| inodes := alter (fun q => set_in_children (<[n := next_inode fs]> (in_children q)) q) p
       (<[next_inode fs := new_inode (next_inode fs) n t (Some p)]> (inodes fs));
     next_inode := saturating_add64 (next_inode fs) 1 |}.

Lemma created_next_fresh : inodes fs !! next_inode fs = None.
Proof.
  destruct (inodes fs !! next_inode fs) as [i|] eqn:E; [|done]. destruct (vw_next _ Hwf (next_inode fs)); [by eexists|lia].
Qed.

Lemma created_lookup x :
  inodes created !! x =
    if decide (x = next_inode fs) then Some (new_inode (next_inode fs) n t (Some p))
    else if decide (x = p) then Some (set_in_children (<[n := next_inode fs]> (in_children pi)) pi)
    else inodes fs !! x.
Proof.
  assert (p <> next_inode fs) as Hne by (intros ->; by rewrite created_next_fresh in Hpi).
  cbn [created inodes]. destruct (decide (x = next_inode fs)) as [->|Hx].
  - by rewrite lookup_alter_ne, lookup_insert_eq.
  - destruct (decide (x = p)) as [->|Hxp].
    + by rewrite lookup_alter_eq, lookup_insert_ne, Hpi by done.
    + by rewrite lookup_alter_ne, lookup_insert_ne by done.
Qed.

(** Every inode of the new table, by where it comes from. *)
Lemma created_cases x i :
  inodes created !! x = Some i ->
  (x = next_inode fs /\ i = new_inode (next_inode fs) n t (Some p)) \/
  (x <> next_inode fs /\ exists i0, inodes fs !! x = Some i0 /\ in_type i = in_type i0 /\ in_parent i = in_parent i0 /\
     in_data i = in_data i0 /\
     forall m c, in_children i !! m = Some c <->
       (in_children i0 !! m = Some c \/ (x = p /\ m = n /\ c = next_inode fs))).
Proof.
  rewrite created_lookup. destruct (decide (x = next_inode fs)) as [->|Hx]; [intros [= <-]; by left|].
  destruct (decide (x = p)) as [->|Hxp]; intros H; right; (split; [done|]).
  - injection H as <-. exists pi. split_and!; try done. intros m c. cbn. rewrite lookup_insert_Some.
    split; [intros [[<- <-]|[_ H]]; [by right|by left]|intros [H|(_ & -> & ->)]; [|by left]].
    right. split; [congruence|done].
  - exists i. split_and!; try done. intros m c. split; [by left|intros [|(? & _)]; done].
Qed.

Lemma created_path cur l id :
  is_Some (inodes fs !! cur) ->
  path_to (inodes created) cur l id <->
  path_to (inodes fs) cur l id \/ (id = next_inode fs /\ exists l0, l = l0 ++ [n] /\ path_to (inodes fs) cur l0 p).
Proof.
  revert cur. induction l as [|m l IH]; intros cur [ic Hcur]; cbn [path_to].
  { split; [by left|]. intros [|(_ & l0 & E & _)]; [done|]. by destruct l0. }
  assert (cur <> next_inode fs) as Hne by (intros ->; by rewrite created_next_fresh in Hcur).
  assert (exists i', inodes created !! cur = Some i') as [i' Hi'].
  { rewrite created_lookup. destruct (decide (cur = next_inode fs)); [done|]. destruct (decide (cur = p)); by eexists. }
  destruct (created_cases cur i' Hi') as [[? _]|(_ & i0 & Hi0 & Ht & _ & _ & Hch)]; [done|].
  assert (i0 = ic) as -> by congruence. split.
  - intros (j & c & Hj & Htj & Hc & Hp). assert (j = i') as -> by congruence. apply Hch in Hc as [Hc|(-> & -> & ->)].
    + destruct (vw_child _ Hwf _ _ _ _ Hcur Hc) as (_ & _ & ci & Hci & _).
      apply IH in Hp as [Hp|(-> & l0 & -> & Hp)]; [| |by eexists].
      * left. exists ic, c. split_and!; try done. congruence.
      * right. split; [done|]. exists (m :: l0). split; [done|]. exists ic, c. split_and!; try done. congruence.
    + right. destruct l as [|m' l]; cbn in Hp.
      * split; [done|]. by exists [].
      * destruct Hp as (j & c & Hj' & _ & Hc & _). rewrite created_lookup, decide_True in Hj' by done.
        injection Hj' as <-. cbn in Hc. by rewrite lookup_empty in Hc.
  - intros [(j & c & Hj & Htj & Hc & Hp)|(-> & l0 & E & Hp)].
    + assert (j = ic) as -> by congruence. exists i', c. split; [done|]. split; [congruence|]. split; [apply Hch; by left|].
      apply IH; [|by left]. destruct (vw_child _ Hwf _ _ _ _ Hcur Hc) as (_ & _ & ci & Hci & _). by eexists.
    + destruct l0 as [|m' l0]; injection E as -> ->.
      * cbn in Hp. subst cur. exists i', (next_inode fs). assert (pi = ic) as <- by congruence.
        split; [done|]. split; [congruence|]. split; [|done]. apply Hch. by right.
      * destruct Hp as (j & c & Hj & Htj & Hc & Hp). assert (j = ic) as -> by congruence. exists i', c.
        split; [done|]. split; [congruence|]. split; [apply Hch; by left|].
        destruct (vw_child _ Hwf _ _ _ _ Hcur Hc) as (_ & _ & ci & Hci & _). apply IH; [by eexists|]. right. split; [done|]. by exists l0.
Qed.

Lemma created_wf : next_inode fs < u64_max -> vfs_wf created.
Proof.
  intros Hmax. pose proof (vw_next _ Hwf p ltac:(by eexists)) as Hp. destruct Hwf as [W1 W2 W3 W4 W5 W6 W7].
  assert (next_inode created = next_inode fs + 1) as Hnx by (cbn; unfold saturating_add64; lia).
  assert (forall x i, inodes fs !! x = Some i -> exists i', inodes created !! x = Some i' /\ in_type i' = in_type i /\
            in_parent i' = in_parent i /\ forall m c, in_children i !! m = Some c -> in_children i' !! m = Some c) as Hold.
  { intros x i Hi. assert (x <> next_inode fs) by (intros ->; by rewrite created_next_fresh in Hi).
    rewrite created_lookup, decide_False by done. destruct (decide (x = p)) as [->|]; [|by exists i].
    assert (pi = i) as -> by congruence. eexists. split_and!; [done|done|done|]. intros m c Hc. cbn.
    apply lookup_insert_Some. right. split; [congruence|done]. }
  split.
  - destruct W1 as (r & Hr & H1 & H2). destruct (Hold _ _ Hr) as (r' & Hr' & H3 & H4 & _). exists r'. split_and!; congruence.
  - intros id [i Hi]. rewrite Hnx. destruct (created_cases _ _ Hi) as [[-> _]|(_ & i0 & Hi0 & _)]; [lia|].
    specialize (W2 id ltac:(by eexists)). lia.
  - intros q qi m c Hq Hc. destruct (created_cases _ _ Hq) as [[_ ->]|(_ & q0 & Hq0 & _ & _ & _ & Hch)].
    { cbn in Hc. by rewrite lookup_empty in Hc. }
    destruct (proj1 (Hch m c) Hc) as [Hc0|(E1 & E2 & E3)]; [|subst q m c].
    + destruct (W3 _ _ _ _ Hq0 Hc0) as (H1 & H2 & ci & H3 & H4). destruct (Hold _ _ H3) as (ci' & H5 & _ & H6 & _).
      split; [done|]. split; [done|]. exists ci'. split; congruence.
    + split; [done|]. split; [lia|]. exists (new_inode (next_inode fs) n t (Some p)). split; [|done].
      by rewrite created_lookup, decide_True.
  - intros q qi m m' c Hq Hc Hc'. destruct (created_cases _ _ Hq) as [[_ ->]|(_ & q0 & Hq0 & _ & _ & _ & Hch)].
    { cbn in Hc. by rewrite lookup_empty in Hc. }
    assert (forall m0, in_children q0 !! m0 = Some (next_inode fs) -> False) as Hno.
    { intros m0 Hm0. destruct (W3 _ _ _ _ Hq0 Hm0) as (_ & _ & ci & H3 & _). by rewrite created_next_fresh in H3. }
    destruct (proj1 (Hch m c) Hc) as [H1|(_ & E1 & E2)], (proj1 (Hch m' c) Hc') as [H2|(_ & E3 & E4)].
    + by apply (W4 q q0 m m' c).
    + rewrite E4 in H1. by destruct (Hno _ H1).
    + rewrite E2 in H2. by destruct (Hno _ H2).
    + congruence.
  - intros c ci q Hc Hq. destruct (created_cases _ _ Hc) as [[-> ->]|(_ & c0 & Hc0 & _ & Hp0 & _)].
    + injection Hq as <-. exists (set_in_children (<[n := next_inode fs]> (in_children pi)) pi), n.
      rewrite created_lookup, decide_False, decide_True by (done || lia). cbn. by rewrite lookup_insert_eq.
    + rewrite Hp0 in Hq. destruct (W5 _ _ _ Hc0 Hq) as (qi & m & Hq1 & Hq2). destruct (Hold _ _ Hq1) as (qi' & H1 & _ & _ & H2).
      exists qi', m. split; [done|by apply H2].
  - intros x i Hi Ht. destruct (created_cases _ _ Hi) as [[_ ->]|(_ & i0 & Hi0 & Ht0 & _ & _ & Hch)]; [done|].
    apply map_empty. intros m. destruct (in_children i !! m) as [c|] eqn:Ec; [|done]. apply Hch in Ec as [Ec|(-> & _)].
    + rewrite (W6 _ _ Hi0) in Ec by congruence. by rewrite lookup_empty in Ec.
    + congruence.
  - intros x i Hi Ht. destruct (created_cases _ _ Hi) as [[_ ->]|(_ & i0 & Hi0 & Ht0 & _ & -> & _)]; [done|].
    apply (W7 _ _ Hi0). congruence.
Qed.
End Create.

(** ** Deletion *)

Section Delete.
Context (fs : InMemoryVfs) (Hwf : vfs_wf fs) (p tid : Z) (pi ti : Inode) (n : str).
Context (Hpi : inodes fs !! p = Some pi) (Hlink : in_children pi !! n = Some tid)
  (Hti : inodes fs !! tid = Some ti) (Hleaf : in_children ti = ∅).

Definition deleted : InMemoryVfs :=
  {| inodes := delete tid (alter (fun q => set_in_children (delete n (in_children q)) q) p (inodes fs));
     next_inode := next_inode fs |}.

Lemma deleted_parent : p < tid /\ in_parent ti = Some p.
Proof. destruct (vw_child _ Hwf _ _ _ _ Hpi Hlink) as (_ & Hlt & ci & Hci & Hp). split; [done|congruence]. Qed.

Lemma deleted_lookup x :
  inodes deleted !! x =
    if decide (x = tid) then None
    else if decide (x = p) then Some (set_in_children (delete n (in_children pi)) pi)
    else inodes fs !! x.
Proof.
  cbn [deleted inodes]. destruct (decide (x = tid)) as [->|Hx]; [by rewrite lookup_delete_eq|].
  rewrite lookup_delete_ne by done. destruct (decide (x = p)) as [->|Hxp]; [by rewrite lookup_alter_eq, Hpi|].
  by rewrite lookup_alter_ne.
Qed.

(** The target is some inode's child only through its own link. *)
Lemma deleted_only_link q qi m : inodes fs !! q = Some qi -> in_children qi !! m = Some tid -> q = p /\ m = n.
Proof.
  intros Hq Hm. destruct (vw_child _ Hwf _ _ _ _ Hq Hm) as (_ & _ & ci & Hci & Hp).
  destruct deleted_parent as [_ Hp']. assert (q = p) as -> by congruence. assert (qi = pi) as -> by congruence.
  split; [done|]. by apply (vw_uniq _ Hwf p pi m n tid).
Qed.

Lemma deleted_cases x i :
  inodes deleted !! x = Some i -> x <> tid /\ exists i0, inodes fs !! x = Some i0 /\ in_type i = in_type i0 /\
    in_parent i = in_parent i0 /\ in_data i = in_data i0 /\
    forall m c, in_children i !! m = Some c <-> (in_children i0 !! m = Some c /\ c <> tid).
Proof.
  rewrite deleted_lookup. destruct (decide (x = tid)) as [->|Hx]; [done|]. intros H. split; [done|].
  destruct (decide (x = p)) as [->|Hxp].
  - injection H as <-. exists pi. split_and!; try done. intros m c. cbn. rewrite lookup_delete_Some. split.
    + intros [Hne Hc]. split; [done|]. intros ->. by destruct (deleted_only_link _ _ _ Hpi Hc).
    + intros [Hc Hne]. split; [|done]. intros <-. congruence.
  - exists i. split_and!; try done. intros m c. split; [|by intros [? _]]. intros Hc. split; [done|].
    intros ->. by destruct (deleted_only_link _ _ _ H Hc).
Qed.

Lemma deleted_some x : x <> tid -> is_Some (inodes fs !! x) -> is_Some (inodes deleted !! x).
Proof.
  intros Hx [i Hi]. rewrite deleted_lookup, decide_False by done. destruct (decide (x = p)); by eexists.
Qed.

Lemma deleted_path cur l id :
  cur <> tid -> is_Some (inodes fs !! cur) ->
  path_to (inodes deleted) cur l id <-> path_to (inodes fs) cur l id /\ id <> tid.
Proof.
  revert cur. induction l as [|m l IH]; intros cur Hcur Hlive; cbn [path_to]; [naive_solver|].
  destruct (deleted_some cur Hcur Hlive) as [i' Hi']. destruct (deleted_cases _ _ Hi') as (_ & i0 & Hi0 & Ht & _ & _ & Hch). split.
  - intros (j & c & Hj & Htj & Hc & Hp). assert (j = i') as -> by congruence. apply Hch in Hc as [Hc Hne].
    destruct (vw_child _ Hwf _ _ _ _ Hi0 Hc) as (_ & _ & ci & Hci & _). apply IH in Hp as [Hp Hid]; [|done|by eexists].
    split; [|done]. exists i0, c. split_and!; try done. congruence.
  - intros [(j & c & Hj & Htj & Hc & Hp) Hid]. assert (j = i0) as -> by congruence.
    assert (c <> tid) as Hne.
    { intros ->. destruct l as [|m' l]; cbn in Hp; [congruence|]. destruct Hp as (k & c' & Hk & _ & Hc' & _).
      assert (k = ti) as -> by congruence. by rewrite Hleaf, lookup_empty in Hc'. }
    destruct (vw_child _ Hwf _ _ _ _ Hi0 Hc) as (_ & _ & ci & Hci & _).
    exists i', c. split; [done|]. split; [congruence|]. split; [by apply Hch|]. apply IH; [done|by eexists|done].
Qed.

Lemma deleted_wf : vfs_wf deleted.
Proof.
  destruct deleted_parent as [Hlt _]. pose proof (vw_next _ Hwf p ltac:(by eexists)) as Hp.
  destruct Hwf as [W1 W2 W3 W4 W5 W6 W7]. split.
  - destruct W1 as (r & Hr & H1 & H2). destruct (deleted_some 1) as [r' Hr']; [lia|by eexists|].
    destruct (deleted_cases _ _ Hr') as (_ & r0 & Hr0 & H3 & H4 & _). exists r'. split_and!; congruence.
  - intros id [i Hi]. destruct (deleted_cases _ _ Hi) as (_ & i0 & Hi0 & _). apply W2. by eexists.
  - intros q qi m c Hq Hc. destruct (deleted_cases _ _ Hq) as (_ & q0 & Hq0 & _ & _ & _ & Hch). destruct (proj1 (Hch m c) Hc) as [Hc1 Hne].
    destruct (W3 _ _ _ _ Hq0 Hc1) as (H1 & H2 & ci & H3 & H4). split; [done|]. split; [done|].
    destruct (deleted_some c Hne) as [ci' Hci']; [by eexists|].
    destruct (deleted_cases _ _ Hci') as (_ & c0 & Hc0 & _ & H5 & _). exists ci'. split; congruence.
  - intros q qi m m' c Hq Hc Hc'. destruct (deleted_cases _ _ Hq) as (_ & q0 & Hq0 & _ & _ & _ & Hch).
    destruct (proj1 (Hch m c) Hc) as [H1 _]. destruct (proj1 (Hch m' c) Hc') as [H2 _]. by apply (W4 q q0 m m' c).
  - intros c ci q Hc Hq. destruct (deleted_cases _ _ Hc) as (Hct & c0 & Hc0 & _ & Hp0 & _). rewrite Hp0 in Hq.
    destruct (W5 _ _ _ Hc0 Hq) as (qi & m & Hq1 & Hq2).
    assert (q <> tid) as Hqt by (intros ->; assert (qi = ti) as -> by congruence; by rewrite Hleaf, lookup_empty in Hq2).
    destruct (deleted_some q Hqt) as [qi' Hqi']; [by eexists|].
    destruct (deleted_cases _ _ Hqi') as (_ & q0 & Hq0 & _ & _ & _ & Hch). assert (q0 = qi) as -> by congruence.
    exists qi', m. split; [done|]. by apply Hch.
  - intros x i Hi Ht. destruct (deleted_cases _ _ Hi) as (_ & i0 & Hi0 & Ht0 & _ & _ & Hch).
    apply map_empty. intros m. destruct (in_children i !! m) as [c|] eqn:Ec; [|done]. destruct (proj1 (Hch m c) Ec) as [Ec1 _].
    rewrite (W6 _ _ Hi0) in Ec1 by congruence. by rewrite lookup_empty in Ec1.
  - intros x i Hi Ht. destruct (deleted_cases _ _ Hi) as (_ & i0 & Hi0 & Ht0 & _ & -> & _). apply (W7 _ _ Hi0). congruence.
Qed.
End Delete.

(** ** Writing *)

Section WriteData.
Context (fs : InMemoryVfs) (Hwf : vfs_wf fs) (fid : Z) (fi : Inode) (d : list Z).
Context (Hfi : inodes fs !! fid = Some fi).

Definition written : InMemoryVfs :=
  {| inodes := <[fid := set_in_data d fi]> (inodes fs); next_inode := next_inode fs |}.

Lemma written_cases x i :
  inodes written !! x = Some i <-> exists i0, inodes fs !! x = Some i0 /\ i = (if decide (x = fid) then set_in_data d fi else i0).
Proof.
  cbn [written inodes]. rewrite lookup_insert_Some. destruct (decide (x = fid)) as [->|Hne]; split.
  - intros [[_ <-]|[? _]]; [by exists fi|done].
  - intros (i0 & _ & ->). by left.
  - intros [[? _]|[_ H]]; [congruence|by exists i].
  - intros (i0 & H & ->). right. split; [congruence|done].
Qed.

Lemma written_shape x i i0 :
  inodes fs !! x = Some i0 -> i = (if decide (x = fid) then set_in_data d fi else i0) ->
  in_type i = in_type i0 /\ in_children i = in_children i0 /\ in_parent i = in_parent i0.
Proof. intros H ->. destruct (decide (x = fid)) as [->|]; [|done]. by assert (i0 = fi) as -> by congruence. Qed.

Lemma written_path cur l id : path_to (inodes written) cur l id <-> path_to (inodes fs) cur l id.
Proof.
  revert cur. induction l as [|m l IH]; intros cur; cbn [path_to]; [done|]. split.
  - intros (i & c & (i0 & Hi0 & Hi)%written_cases & Ht & Hc & Hp). destruct (written_shape _ _ _ Hi0 Hi) as (E1 & E2 & _).
    exists i0, c. rewrite <- E1, <- E2. split_and!; try done. by apply IH.
  - intros (i0 & c & Hi0 & Ht & Hc & Hp). eexists _, c. split; [apply written_cases; by exists i0|].
    destruct (written_shape _ _ _ Hi0 eq_refl) as (-> & -> & _). split_and!; try done. by apply IH.
Qed.

Lemma written_wf : in_type fi = RegularFile -> vfs_wf written.
Proof.
  intros Hreg.
  destruct Hwf as [W1 W2 W3 W4 W5 W6 W7].
  assert (forall x i0, inodes fs !! x = Some i0 -> exists i, inodes written !! x = Some i /\ in_type i = in_type i0 /\
            in_children i = in_children i0 /\ in_parent i = in_parent i0) as Hold.
  { intros x i0 H. eexists. split; [apply written_cases; by exists i0|]. by eapply written_shape. }
  assert (forall x i, inodes written !! x = Some i -> exists i0, inodes fs !! x = Some i0 /\ in_type i = in_type i0 /\
            in_children i = in_children i0 /\ in_parent i = in_parent i0) as Hnew.
  { intros x i (i0 & H & E)%written_cases. exists i0. split; [done|]. by eapply written_shape. }
  split.
  - destruct W1 as (r & Hr & H1 & H2). destruct (Hold _ _ Hr) as (r' & Hr' & H3 & _ & H4). exists r'. split_and!; congruence.
  - intros id [i Hi]. destruct (Hnew _ _ Hi) as (i0 & Hi0 & _). apply W2. by eexists.
  - intros q qi m c Hq Hc. destruct (Hnew _ _ Hq) as (q0 & Hq0 & _ & E & _). rewrite E in Hc.
    destruct (W3 _ _ _ _ Hq0 Hc) as (H1 & H2 & ci & H3 & H4). destruct (Hold _ _ H3) as (ci' & H5 & _ & _ & H6).
    split; [done|]. split; [done|]. exists ci'. split; congruence.
  - intros q qi m m' c Hq Hc Hc'. destruct (Hnew _ _ Hq) as (q0 & Hq0 & _ & E & _). rewrite E in Hc, Hc'.
    by apply (W4 q q0 m m' c).
  - intros c ci q Hc Hq. destruct (Hnew _ _ Hc) as (c0 & Hc0 & _ & _ & E). rewrite E in Hq.
    destruct (W5 _ _ _ Hc0 Hq) as (qi & m & Hq1 & Hq2). destruct (Hold _ _ Hq1) as (qi' & H1 & _ & H2 & _).
    exists qi', m. split; congruence.
  - intros x i Hi Ht. destruct (Hnew _ _ Hi) as (i0 & Hi0 & E1 & E2 & _). rewrite E2. apply (W6 _ _ Hi0). congruence.
  - intros x i (i0 & H & E)%written_cases Ht. destruct (decide (x = fid)); subst i; [cbn in Ht; congruence|by apply (W7 x)].
Qed.
End WriteData.

(** ** The operations on the abstract tree *)

Lemma node_of_eq i i0 : in_type i = in_type i0 -> in_data i = in_data i0 -> node_of i = node_of i0.
Proof. intros E1 E2. unfold node_of. by rewrite E1, E2. Qed.

Lemma path_root fs : path_to (inodes fs) 1 [] 1.
Proof. done. Qed.

Lemma vabs_created fs p pi n t l0 l :
  vfs_wf fs -> next_inode fs < u64_max -> inodes fs !! p = Some pi -> in_type pi = Directory ->
  in_children pi !! n = None -> valid_name n -> path_to (inodes fs) 1 l0 p ->
  vabs (created fs p n t) l = tree_update (l0 ++ [n]) (Some (fresh_node t)) (vabs fs) l.
Proof.
  intros Hwf Hmax Hpi Hdir Hnone Hn Hp. pose proof (created_wf fs Hwf p pi n t Hpi Hdir Hnone Hn Hmax) as Hwf'.
  assert (is_Some (inodes fs !! 1)) as H1 by (destruct (vw_root _ Hwf) as (r & Hr & _); by exists r).
  unfold tree_update. destruct (decide (l = l0 ++ [n])) as [->|Hne].
  - rewrite (vabs_at _ Hwf' (l0 ++ [n]) (next_inode fs) (new_inode (next_inode fs) n t (Some p))).
    + unfold node_of. cbn. by destruct t.
    + apply (created_path fs Hwf p pi n t Hpi Hdir Hnone); [done|]. right. split; [done|]. by exists l0.
    + rewrite (created_lookup fs Hwf p pi n t Hpi). by rewrite decide_True.
  - apply option_eq. intros x. rewrite (vabs_some _ Hwf'), (vabs_some _ Hwf). split.
    + intros (id & i & Hpath & Hi & <-). apply (created_path fs Hwf p pi n t Hpi Hdir Hnone) in Hpath; [|done].
      destruct Hpath as [Hpath|(-> & l0' & -> & Hp')].
      2:{ destruct Hne. f_equal. by eapply (path_unique fs Hwf). }
      destruct (created_cases fs Hwf p pi n t Hpi Hnone id i Hi) as [[-> _]|(_ & i0 & Hi0 & E1 & _ & E2 & _)].
      { destruct (path_live fs Hwf _ _ Hpath) as [j Hj]. by rewrite (created_next_fresh fs Hwf) in Hj. }
      exists id, i0. split_and!; try done. symmetry. by apply node_of_eq.
    + intros (id & i0 & Hpath & Hi0 & <-).
      assert (exists i, inodes (created fs p n t) !! id = Some i) as [i Hi].
      { rewrite (created_lookup fs Hwf p pi n t Hpi). destruct (decide (id = next_inode fs)); [by eexists|].
        destruct (decide (id = p)); by eexists. }
      exists id, i. split; [|split; [done|]].
      * apply (created_path fs Hwf p pi n t Hpi Hdir Hnone); [done|by left].
      * destruct (created_cases fs Hwf p pi n t Hpi Hnone id i Hi) as [[-> _]|(_ & j & Hj & E1 & _ & E2 & _)].
        { by rewrite (created_next_fresh fs Hwf) in Hi0. }
        assert (j = i0) as -> by congruence. by apply node_of_eq.
Qed.

Lemma create_refines path t fs :
  vfs_wf fs -> next_inode fs < u64_max ->
  exists r fs', create_entry path t fs = Done (r, fs') /\ vfs_wf fs' /\ next_inode fs' <= next_inode fs + 1 /\
    (match r with Ok _ => Ok () | Err e => Err e end) = fst (spec_create (components path) t (vabs fs)) /\
    (forall l, vabs fs' l = snd (spec_create (components path) t (vabs fs)) l) /\
    forall id, r = Ok id -> walk_names fs' 1 (components path) = Ok id.
Proof.
  intros Hwf Hmax. unfold create_entry, spec_create. pose proof (components_valid path) as Hv.
  destruct (components path) as [|n l0 _] eqn:E using rev_ind.
  { rewrite resolve_parent_root by done. cbn. exists (Err InvalidPath), fs. split_and!; try done. lia. }
  apply Forall_app in Hv as [Hl0 Hn]. rewrite Forall_singleton in Hn.
  rewrite (resolve_parent_snoc fs path l0 n E), last_snoc, removelast_last. cbn [mbind run_bind].
  destruct (walk_spec fs Hwf l0 [] 1 Hl0 (path_root fs)) as [(p & -> & -> & Hp)|(e & -> & ->)]; cbn [mbind result_bind app] in *.
  2:{ exists (Err e), fs. split_and!; try done. lia. }
  destruct (path_live fs Hwf _ _ Hp) as [pi Hpi]. rewrite Hpi, (vabs_at fs Hwf _ _ _ Hp Hpi). unfold node_of.
  case_bool_decide as Hdir; cbn [negb]; [|exists (Err NotADirectory), fs; split_and!; try done; lia]. rewrite Hpi.
  destruct (in_children pi !! n) as [c|] eqn:Ec.
  - assert (path_to (inodes fs) 1 (l0 ++ [n]) c) as Hpc by (apply path_to_app; by exists p, pi).
    destruct (path_live fs Hwf _ _ Hpc) as [ci Hci]. rewrite (vabs_at fs Hwf _ _ _ Hpc Hci).
    rewrite bool_decide_eq_true_2 by (by eexists). exists (Err AlreadyExists), fs. split_and!; try done. lia.
  - assert (vabs fs (l0 ++ [n]) = None) as ->.
    { apply (vabs_none fs Hwf). intros x (q & j & Hq & Hj & _ & Hc)%path_to_app.
      rewrite (path_fun fs Hwf _ _ _ Hq Hp) in Hj. congruence. }
    rewrite bool_decide_eq_false_2 by (by intros [? ?]). exists (Ok (next_inode fs)), (created fs p n t). split; [reflexivity|].
    split; [exact (created_wf fs Hwf p pi n t Hpi Hdir Ec Hn Hmax)|]. split; [cbn; unfold saturating_add64; lia|].
    split; [done|]. split; [intros l; by apply (vabs_created fs p pi)|]. intros id [= <-].
    apply walk_names_path; [apply Forall_app; by rewrite Forall_singleton|].
    apply (created_path fs Hwf p pi n t Hpi Hdir Ec); [destruct (vw_root _ Hwf) as (rt & Hrt & _); by exists rt|].
    right. split; [done|]. by exists l0.
Qed.

Definition spec_delete (l : list str) (T : vtree) (r : result VfsError unit) (T' : vtree) : Prop :=
  match r with
  | Ok _ => l <> [] /\ (T l = Some VDir /\ spec_empty T l \/ exists d, T l = Some (VFile d)) /\
            forall l', T' l' = tree_update l None T l'
  | Err e => (forall l', T' l' = T l') /\
      ((e = InvalidPath /\ l = []) \/
       (l <> [] /\ spec_resolve T [] l = Err e) \/
       (l <> [] /\ e = NotEmpty /\ T l = Some VDir /\ ~ spec_empty T l))
  end.

Lemma vabs_deleted fs p tid pi ti n l0 l :
  vfs_wf fs -> inodes fs !! p = Some pi -> in_type pi = Directory -> in_children pi !! n = Some tid ->
  inodes fs !! tid = Some ti -> in_children ti = ∅ -> path_to (inodes fs) 1 l0 p ->
  vabs (deleted fs p tid n) l = tree_update (l0 ++ [n]) None (vabs fs) l.
Proof.
  intros Hwf Hpi Hdir Hlink Hti Hleaf Hp. pose proof (deleted_wf fs Hwf p tid pi ti n Hpi Hlink Hti Hleaf) as Hwf'.
  destruct (deleted_parent fs Hwf p tid pi ti n Hpi Hlink Hti) as [Hlt _].
  pose proof (vw_next _ Hwf p ltac:(by eexists)) as Hpb.
  assert (is_Some (inodes fs !! 1)) as H1 by (destruct (vw_root _ Hwf) as (r & Hr & _); by exists r).
  assert (path_to (inodes fs) 1 (l0 ++ [n]) tid) as Ht by (apply path_to_app; by exists p, pi).
  assert (forall k id, path_to (inodes (deleted fs p tid n)) 1 k id <-> path_to (inodes fs) 1 k id /\ id <> tid) as Hpath.
  { intros k id. apply (deleted_path fs Hwf p tid pi ti n Hpi Hlink Hti Hleaf); [lia|done]. }
  unfold tree_update. destruct (decide (l = l0 ++ [n])) as [->|Hne].
  - apply (vabs_none _ Hwf'). intros id [Hid Hne]%Hpath. by rewrite (path_fun fs Hwf _ _ _ Hid Ht) in Hne.
  - apply option_eq. intros x. rewrite (vabs_some _ Hwf'), (vabs_some _ Hwf). split.
    + intros (id & i & [Hid _]%Hpath & Hi & <-).
      destruct (deleted_cases fs Hwf p tid pi ti n Hpi Hlink Hti id i Hi) as (_ & i0 & Hi0 & E1 & _ & E2 & _).
      exists id, i0. split_and!; try done. symmetry. by apply node_of_eq.
    + intros (id & i0 & Hid & Hi0 & <-).
      assert (id <> tid) as Hidt by (intros ->; destruct Hne; by eapply (path_unique fs Hwf)).
      destruct (deleted_some fs p tid pi n Hpi id Hidt) as [i Hi]; [by eexists|].
      destruct (deleted_cases fs Hwf p tid pi ti n Hpi Hlink Hti id i Hi) as (_ & j & Hj & E1 & _ & E2 & _).
      exists id, i. split; [by apply Hpath|]. split; [done|]. assert (j = i0) as -> by congruence. by apply node_of_eq.
Qed.

(** A directory's children are what lies below its path. *)
Lemma empty_children fs l id i :
  vfs_wf fs -> path_to (inodes fs) 1 l id -> inodes fs !! id = Some i -> in_type i = Directory ->
  in_children i = ∅ <-> spec_empty (vabs fs) l.
Proof.
  intros Hwf Hp Hi Hd. split.
  - intros He n. apply (vabs_none fs Hwf). intros x (q & j & Hq & Hj & _ & Hc)%path_to_app.
    rewrite (path_fun fs Hwf _ _ _ Hq Hp) in Hj. assert (j = i) as -> by congruence. by rewrite He, lookup_empty in Hc.
  - intros Hs. apply map_empty. intros n. destruct (in_children i !! n) as [c|] eqn:Ec; [|done].
    specialize (Hs n). rewrite (vabs_none fs Hwf) in Hs. destruct (Hs c). apply path_to_app. by exists id, i.
Qed.

Lemma delete_refines path fs :
  vfs_wf fs ->
  exists r fs', vfs_delete path fs = Done (r, fs') /\ vfs_wf fs' /\ next_inode fs' = next_inode fs /\
    spec_delete (components path) (vabs fs) r (vabs fs').
Proof.
  intros Hwf. unfold vfs_delete. pose proof (components_valid path) as Hv. rewrite normalize_components.
  destruct (components path) as [|n l0 _] eqn:E using rev_ind.
  { exists (Err InvalidPath), fs. cbn. split_and!; try done. by left. }
  assert (l0 ++ [n] <> []) as Hne by (by destruct l0).
  replace (match l0 ++ [n] with [] => lit "/" | _ => join_path (l0 ++ [n]) end) with (join_path (l0 ++ [n])) by (by destruct l0).
  rewrite join_path_not_root by done. rewrite resolve_path_walk.
  assert (components (join_path (l0 ++ [n])) = l0 ++ [n]) as ->.
  { rewrite <- (components_join (l0 ++ [n])) at 2 by done. by destruct l0. }
  destruct (walk_spec fs Hwf (l0 ++ [n]) [] 1 Hv (path_root fs)) as [(tid & -> & Hres & Hp)|(e & -> & Hres)]; [cbn [app] in Hp|].
  2:{ exists (Err e), fs. split_and!; try done. split; [done|]. right. by left. }
  destruct (path_live fs Hwf _ _ Hp) as [ti Hti]. rewrite Hti. pose proof (vabs_at fs Hwf _ _ _ Hp Hti) as Habs.
  pose proof Hp as (p & pi & Hpp & Hpi & Hdir & Hlink)%path_to_app.
  destruct (deleted_parent fs Hwf p tid pi ti n Hpi Hlink Hti) as [_ Hpar].
  destruct (bool_decide (in_type ti = Directory) && negb (bool_decide (in_children ti = ∅))) eqn:Eb.
  - apply andb_true_iff in Eb as [Ht%bool_decide_eq_true Hc%negb_true_iff%bool_decide_eq_false].
    exists (Err NotEmpty), fs. split_and!; try done. split; [done|]. right. right. split_and!; try done.
    + rewrite Habs. unfold node_of. by rewrite bool_decide_eq_true_2.
    + intros Hs. by apply Hc, (empty_children fs _ _ _ Hwf Hp Hti Ht).
  - rewrite Hpar. assert (valid_name n) as (_ & Hn & _) by (apply Forall_app in Hv as [_ Hn]; by rewrite Forall_singleton in Hn).
    rewrite split_last_join by done. cbn [mbind run_bind]. exists (Ok ()), (deleted fs p tid n). split; [reflexivity|].
    assert (in_children ti = ∅) as Hleaf.
    { apply andb_false_iff in Eb as [Ht%bool_decide_eq_false|Hc%negb_false_iff%bool_decide_eq_true]; [|done].
      apply (vw_file _ Hwf _ _ Hti). by destruct (in_type ti). }
    split; [by apply (deleted_wf fs Hwf p tid pi ti)|]. split; [done|]. split; [done|]. split.
    + rewrite Habs. unfold node_of. case_bool_decide as Ht; [left|right; by eexists].
      split; [done|]. by apply (empty_children fs _ _ _ Hwf Hp Hti Ht).
    + intros l. by apply (vabs_deleted fs p tid pi ti).
Qed.

Definition write_path (path : str) (offset : Z) (bytes : list Z) (fs : InMemoryVfs) : run (result VfsError Z * InMemoryVfs) :=
  match resolve_path fs path with
  | Err e => Done (Err e, fs)
  | Ok id => write_file id offset bytes fs
  end.

Definition read_path (path : str) (offset len : Z) (fs : InMemoryVfs) : result VfsError (list Z) :=
  id ← resolve_path fs path; read_file id offset len fs.

Definition spec_read (l : list str) (offset len : Z) (T : vtree) : result VfsError (list Z) :=
  match spec_resolve T [] l with
  | Err e => Err e
  | Ok _ => match T l with
            | Some (VFile d) => Ok (take (Z.to_nat len) (drop (Z.to_nat offset) d))
            | _ => Err IsADirectory
            end
  end.

Lemma vabs_written fs fid fi d l0 l :
  vfs_wf fs -> inodes fs !! fid = Some fi -> in_type fi = RegularFile -> path_to (inodes fs) 1 l0 fid ->
  vabs (written fs fid fi d) l = tree_update l0 (Some (VFile d)) (vabs fs) l.
Proof.
  intros Hwf Hfi Ht Hp. pose proof (written_wf fs Hwf fid fi d Hfi Ht) as Hwf'.
  assert (forall k id, path_to (inodes (written fs fid fi d)) 1 k id <-> path_to (inodes fs) 1 k id) as Hpath.
  { intros k id. by apply written_path. }
  unfold tree_update. destruct (decide (l = l0)) as [->|Hne].
  - rewrite (vabs_at _ Hwf' l0 fid (set_in_data d fi)); [|by apply Hpath|].
    + unfold node_of. cbn. by rewrite Ht.
    + apply (written_cases fs fid fi d Hfi). exists fi. by rewrite decide_True.
  - apply option_eq. intros x. rewrite (vabs_some _ Hwf'), (vabs_some _ Hwf).
    assert (forall id, path_to (inodes fs) 1 l id -> id <> fid) as Hid.
    { intros id Hid ->. destruct Hne. by eapply (path_unique fs Hwf). }
    split; intros (id & i & H1 & H2 & <-); exists id.
    + apply Hpath in H1. apply (written_cases fs fid fi d Hfi) in H2 as (i0 & Hi0 & ->).
      rewrite decide_False by (by apply Hid). by exists i0.
    + exists i. split; [by apply Hpath|]. split; [|done]. apply (written_cases fs fid fi d Hfi). exists i.
      by rewrite decide_False by (by apply Hid).
Qed.

Lemma write_refines path offset bytes fs :
  vfs_wf fs -> 0 <= offset -> offset + Z.of_nat (length bytes) <= ISIZE_MAX ->
  exists r fs', write_path path offset bytes fs = Done (r, fs') /\ vfs_wf fs' /\ next_inode fs' = next_inode fs /\
    r = fst (spec_write (components path) offset bytes (vabs fs)) /\
    forall l, vabs fs' l = snd (spec_write (components path) offset bytes (vabs fs)) l.
Proof.
  intros Hwf Ho Hl. unfold write_path, spec_write. rewrite resolve_path_walk. pose proof (components_valid path) as Hv.
  destruct (walk_spec fs Hwf (components path) [] 1 Hv (path_root fs)) as [(id & -> & -> & Hp)|(e & -> & ->)].
  2:{ by exists (Err e), fs. }
  cbn [app] in Hp. destruct (path_live fs Hwf _ _ Hp) as [i Hi]. unfold write_file. rewrite Hi, (vabs_at fs Hwf _ _ _ Hp Hi).
  unfold node_of. case_bool_decide as Ht; [by exists (Err IsADirectory), fs|].
  destruct (decide (bytes = [])) as [->|Hne].
  { rewrite !bool_decide_eq_true_2 by done. by exists (Ok 0), fs. }
  rewrite !bool_decide_eq_false_2 by done. unfold ISIZE_MAX in *.
  assert (saturating_add64 offset (Z.of_nat (length bytes)) = offset + Z.of_nat (length bytes)) as ->
    by (unfold saturating_add64, u64_max; lia).
  rewrite (proj2 (Z.ltb_ge (2 ^ 63 - 1) _)) by lia. rewrite andb_false_r.
  replace (Z.to_nat (offset + Z.of_nat (length bytes) - Z.of_nat (length (in_data i))))
    with (Z.to_nat (offset + Z.of_nat (length bytes)) - length (in_data i))%nat by lia.
  set (d := splice _ _ _). exists (Ok (Z.of_nat (length bytes))), (written fs id i d). split; [reflexivity|].
  assert (in_type i = RegularFile) by (by destruct (in_type i)).
  split; [by apply written_wf|]. split; [done|]. split; [done|]. intros l. by apply vabs_written.
Qed.

Lemma read_refines path offset len fs :
  vfs_wf fs -> 0 <= offset -> 0 <= len -> offset + len <= u64_max ->
  read_path path offset len fs = spec_read (components path) offset len (vabs fs).
Proof.
  intros Hwf Ho Hl Hs. unfold read_path, spec_read. rewrite resolve_path_walk. pose proof (components_valid path) as Hv.
  destruct (walk_spec fs Hwf (components path) [] 1 Hv (path_root fs)) as [(id & -> & -> & Hp)|(e & -> & ->)]; [|done].
  cbn [app mbind result_bind] in *. destruct (path_live fs Hwf _ _ Hp) as [i Hi].
  unfold read_file. rewrite Hi, (vabs_at fs Hwf _ _ _ Hp Hi). unfold node_of. case_bool_decide as Ht; [done|].
  destruct (Z.leb_spec (Z.of_nat (length (in_data i))) offset); cbn [orb].
  { rewrite drop_ge by lia. by rewrite take_nil. }
  destruct (Z.eqb_spec len 0) as [->|]; [done|]. f_equal.
  assert (saturating_add64 offset len = offset + len) as -> by (unfold saturating_add64; lia).
  unfold slice_get. rewrite (proj2 (Z.leb_le offset _)), (proj2 (Z.leb_le (Z.min _ _) _)) by lia. cbn [andb default from_option].
  destruct (Z.le_ge_cases (offset + len) (Z.of_nat (length (in_data i)))).
  - rewrite Z.min_l by lia. by replace (offset + len - offset) with len by lia.
  - rewrite Z.min_r by lia. rewrite (take_ge (drop _ _)), (take_ge (drop _ _)); [done|..]; rewrite length_drop; lia.
Qed.

Definition type_of (x : vnode) : FileType := match x with VDir => Directory | VFile _ => RegularFile end.

Lemma type_of_node i : type_of (node_of i) = in_type i.
Proof. unfold node_of. case_bool_decide as H; cbn; [done|]. by destruct (in_type i). Qed.

Definition stat_path (path : str) (fs : InMemoryVfs) : result VfsError (Z * FileType) :=
  st ← vfs_stat fs path; Ok (st_size st, st_type st).

Definition spec_stat (l : list str) (T : vtree) : result VfsError (Z * FileType) :=
  match spec_resolve T [] l with
  | Err e => Err e
  | Ok _ => match T l with
            | Some (VFile d) => Ok (Z.of_nat (length d), RegularFile)
            | _ => Ok (0, Directory)
            end
  end.

Lemma stat_refines path fs : vfs_wf fs -> stat_path path fs = spec_stat (components path) (vabs fs).
Proof.
  intros Hwf. unfold stat_path, vfs_stat, spec_stat. rewrite resolve_path_walk. pose proof (components_valid path) as Hv.
  destruct (walk_spec fs Hwf (components path) [] 1 Hv (path_root fs)) as [(id & -> & -> & Hp)|(e & -> & ->)]; [|done].
  cbn [app mbind result_bind] in *. destruct (path_live fs Hwf _ _ Hp) as [i Hi].
  rewrite Hi, (vabs_at fs Hwf _ _ _ Hp Hi). cbn [mbind result_bind st_size st_type]. unfold node_of. case_bool_decide as Ht.
  - by rewrite (vw_dir _ Hwf _ _ Hi Ht), Ht.
  - by destruct (in_type i).
Qed.

Definition list_path (path : str) (fs : InMemoryVfs) : result VfsError (list (str * FileType)) :=
  match list_directory fs path with
  | Err e => Err e
  | Ok es => Ok ((fun e => (de_name e, de_type e)) <$> es)
  end.

(** A listing names each node directly below the directory once, in byte
    order. *)
Definition spec_list (l : list str) (T : vtree) (r : result VfsError (list (str * FileType))) : Prop :=
  match spec_resolve T [] l with
  | Err e => r = Err e
  | Ok _ =>
      match T l with
      | Some VDir => exists es, r = Ok es /\ NoDup (fst <$> es) /\
          StronglySorted (fun a b => str_leb (fst a) (fst b) = true) es /\
          forall n t, (n, t) ∈ es <-> type_of <$> T (l ++ [n]) = Some t
      | _ => r = Err NotADirectory
      end
  end.

Lemma dir_entries_live fs kids :
  Forall (fun nc => is_Some (inodes fs !! snd nc)) kids ->
  exists es, dir_entries fs kids = Ok es /\
    Forall2 (fun nc e => de_name e = fst nc /\ exists i, inodes fs !! snd nc = Some i /\ de_type e = in_type i) kids es.
Proof.
  induction 1 as [|[n c] kids [i Hi] H IH]; cbn [dir_entries]; [by exists []|]. cbn in Hi. rewrite Hi.
  destruct IH as (es & -> & Hf). eexists. split; [reflexivity|]. constructor; [|done]. split; [done|]. by exists i.
Qed.

Lemma Forall2_fmap_eq {A B C} (f : A -> C) (g : B -> C) l k :
  Forall2 (fun a b => g b = f a) l k -> g <$> k = f <$> l.
Proof. induction 1 as [|a b l k E H IH]; [done|]. cbn. by rewrite E, IH. Qed.

Lemma list_refines path fs : vfs_wf fs -> spec_list (components path) (vabs fs) (list_path path fs).
Proof.
  intros Hwf. unfold spec_list, list_path, list_directory. rewrite resolve_path_walk. pose proof (components_valid path) as Hv.
  destruct (walk_spec fs Hwf (components path) [] 1 Hv (path_root fs)) as [(id & -> & -> & Hp)|(e & -> & ->)]; [|done].
  cbn [app mbind result_bind] in *. destruct (path_live fs Hwf _ _ Hp) as [i Hi].
  rewrite Hi, (vabs_at fs Hwf _ _ _ Hp Hi). unfold node_of. case_bool_decide as Ht; cbn [negb]; [|done].
  set (kids := merge_sort name_le (map_to_list (in_children i))).
  assert (forall n c, (n, c) ∈ kids <-> in_children i !! n = Some c) as Hk.
  { intros n c. unfold kids. by rewrite merge_sort_Permutation, elem_of_map_to_list. }
  destruct (dir_entries_live fs kids) as (es & -> & Hf).
  { apply Forall_forall. intros [n c] Hin%Hk. destruct (vw_child _ Hwf _ _ _ _ Hi Hin) as (_ & _ & ci & Hci & _). by exists ci. }
  cbn [mbind result_bind]. eexists. split; [reflexivity|].
  assert (fst <$> ((fun e => (de_name e, de_type e)) <$> es) = fst <$> kids) as Hfst.
  { rewrite <- list_fmap_compose. apply Forall2_fmap_eq. eapply Forall2_impl; [exact Hf|]. by intros [n c] e' [E _]. }
  split; [|split].
  - rewrite Hfst. unfold kids. rewrite merge_sort_Permutation. apply NoDup_fst_map_to_list.
  - apply sorted_fst. rewrite Hfst. apply sorted_fst, (StronglySorted_merge_sort name_le).
  - intros n t. rewrite list_elem_of_fmap. rewrite fmap_Some. split.
    + intros (e & [= -> ->] & (k & Hk1)%list_elem_of_lookup). destruct (Forall2_lookup_r _ _ _ _ _ Hf Hk1) as ([m c] & Hkc & E & ci & Hci & Et).
      cbn in *. apply list_elem_of_lookup_2, Hk in Hkc. subst m. exists (node_of ci). rewrite type_of_node. split; [|done].
      apply (vabs_at fs Hwf _ c); [|done]. apply path_to_app. by exists id, i.
    + intros (x & (c & ci & (q & j & Hq & Hj & _ & Hc)%path_to_app & Hci & <-)%(vabs_some fs Hwf) & ->).
      rewrite (path_fun fs Hwf _ _ _ Hq Hp) in Hj. assert (j = i) as -> by congruence.
      apply Hk, list_elem_of_lookup in Hc as [k Hkc]. destruct (Forall2_lookup_l _ _ _ _ _ Hf Hkc) as (e & He & E & ci' & Hci' & Et).
      cbn in *. assert (ci' = ci) as -> by congruence. exists e. rewrite type_of_node, E, Et.
      split; [done|by eapply list_elem_of_lookup_2].
Qed.

(** ** Sequences of operations *)

Inductive vfs_op :=
| VCreate (path : str) (t : FileType)
| VDelete (path : str)
| VWrite (path : str) (offset : Z) (bytes : list Z)
| VRead (path : str) (offset len : Z)
| VStat (path : str)
| VList (path : str).

Inductive vout :=
| OUnit (r : result VfsError unit)
| OCount (r : result VfsError Z)
| OData (r : result VfsError (list Z))
| OStat (r : result VfsError (Z * FileType))
| OList (r : result VfsError (list (str * FileType))).

Definition vfs_step (op : vfs_op) (fs : InMemoryVfs) : run (vout * InMemoryVfs) :=
  match op with
  | VCreate path t => '(r, fs') ← create_entry path t fs; Done (OUnit (match r with Ok _ => Ok () | Err e => Err e end), fs')
  | VDelete path => '(r, fs') ← vfs_delete path fs; Done (OUnit r, fs')
  | VWrite path off bytes => '(r, fs') ← write_path path off bytes fs; Done (OCount r, fs')
  | VRead path off len => Done (OData (read_path path off len fs), fs)
  | VStat path => Done (OStat (stat_path path fs), fs)
  | VList path => Done (OList (list_path path fs), fs)
  end.

(** The outputs and states of a sequence. *)
Fixpoint vfs_trace (ops : list vfs_op) (fs : InMemoryVfs) : run (list (vout * InMemoryVfs)) :=
  match ops with
  | [] => Done []
  | op :: ops => '(o, fs') ← vfs_step op fs; tr ← vfs_trace ops fs'; Done ((o, fs') :: tr)
  end.

(** What an operation may answer and do on a tree of files. *)
Definition spec_step (op : vfs_op) (T : vtree) (o : vout) (T' : vtree) : Prop :=
  match op with
  | VCreate path t => o = OUnit (fst (spec_create (components path) t T)) /\
                      forall l, T' l = snd (spec_create (components path) t T) l
  | VDelete path => exists r, o = OUnit r /\ spec_delete (components path) T r T'
  | VWrite path off bytes => o = OCount (fst (spec_write (components path) off bytes T)) /\
                             forall l, T' l = snd (spec_write (components path) off bytes T) l
  | VRead path off len => o = OData (spec_read (components path) off len T) /\ forall l, T' l = T l
  | VStat path => o = OStat (spec_stat (components path) T) /\ forall l, T' l = T l
  | VList path => exists r, o = OList r /\ spec_list (components path) T r /\ forall l, T' l = T l
  end.

Fixpoint spec_trace (ops : list vfs_op) (T : vtree) (tr : list (vout * InMemoryVfs)) : Prop :=
  match ops, tr with
  | [], [] => True
  | op :: ops, (o, fs) :: tr => spec_step op T o (vabs fs) /\ spec_trace ops (vabs fs) tr
  | _, _ => False
  end.

(** Offsets and lengths a [Vec] can have. *)
Definition vfs_op_ok (op : vfs_op) : Prop :=
  match op with
  | VWrite _ off bytes => 0 <= off /\ off + Z.of_nat (length bytes) <= ISIZE_MAX
  | VRead _ off len => 0 <= off /\ 0 <= len /\ off + len <= u64_max
  | _ => True
  end.

Lemma vfs_step_refines op fs :
  vfs_wf fs -> next_inode fs < u64_max -> vfs_op_ok op ->
  exists o fs', vfs_step op fs = Done (o, fs') /\ vfs_wf fs' /\ next_inode fs' <= next_inode fs + 1 /\
    spec_step op (vabs fs) o (vabs fs').
Proof.
  intros Hwf Hmax Hok. destruct op as [path t|path|path off bytes|path off len|path|path]; cbn [vfs_step spec_step] in *.
  - destruct (create_refines path t fs Hwf Hmax) as (r & fs' & -> & H1 & H2 & H3 & H4 & _). cbn [mbind run_bind].
    eexists _, fs'. split; [done|]. split; [done|]. split; [done|]. by rewrite H3.
  - destruct (delete_refines path fs Hwf) as (r & fs' & -> & H1 & H2 & H3). cbn [mbind run_bind].
    eexists _, fs'. split; [done|]. split; [done|]. split; [lia|]. by exists r.
  - destruct Hok as [Ho Hl]. destruct (write_refines path off bytes fs Hwf Ho Hl) as (r & fs' & -> & H1 & H2 & H3 & H4).
    cbn [mbind run_bind]. eexists _, fs'. split; [done|]. split; [done|]. split; [lia|]. by rewrite H3.
  - destruct Hok as (Ho & Hl & Hs). eexists _, fs. split; [done|]. split; [done|]. split; [lia|]. by rewrite read_refines.
  - eexists _, fs. split; [done|]. split; [done|]. split; [lia|]. by rewrite stat_refines.
  - eexists _, fs. split; [done|]. split; [done|]. split; [lia|]. eexists. split; [done|]. split; [by apply list_refines|done].
Qed.

(** ** Theorems *)

(** C25: Refinement: from the empty file system, any sequence of fewer than
    2^64 - 3 creations, deletions, writes, reads, queries and listings (on any
    paths, with offsets a [Vec] can have) runs without a panic, and every answer and every state
    is the one the tree of files gives: a creation adds an empty node exactly
    when its parent is a directory and its path is free, a deletion removes
    exactly a file or an empty directory, a write splices bytes into exactly
    its file, zero-filling any gap, a read returns the bytes there, a query the
    size and type, a listing every name directly below the directory once and
    in byte order, and each failure reports the first offending component and
    changes nothing. *)
Theorem vfs_refines (ops : list vfs_op) (Hops : Forall vfs_op_ok ops) (Hlen : Z.of_nat (length ops) < u64_max - 2) :
  (forall l, vabs vfs_new l = if decide (l = []) then Some VDir else None) /\
  exists tr, vfs_trace ops vfs_new = Done tr /\ spec_trace ops (vabs vfs_new) tr.
Proof.
  split.
  - intros l. destruct (decide (l = [])) as [->|Hne]; [reflexivity|]. apply (vabs_none _ vfs_new_wf). intros id Hp.
    destruct l as [|n l]; [done|]. destruct Hp as (i & c & Hi & _ & Hc & _). cbn in Hi.
    injection Hi as <-. change ((∅ : gmap str Z) !! n = Some c) in Hc. by rewrite lookup_empty in Hc.
  - assert (next_inode vfs_new + Z.of_nat (length ops) < u64_max) as Hmax by (cbn; lia). clear Hlen.
    generalize vfs_new_wf. revert Hmax. generalize vfs_new as fs. induction Hops as [|op ops Hop Hops IH]; intros fs Hmax Hwf.
    { by exists []. }
    cbn [length] in Hmax. destruct (vfs_step_refines op fs Hwf ltac:(lia) Hop) as (o & fs' & E & Hwf' & Hn & Hs).
    destruct (IH fs' ltac:(lia) Hwf') as (tr & Et & Hst). exists ((o, fs') :: tr). cbn [vfs_trace spec_trace].
    rewrite E. cbn [mbind run_bind]. by rewrite Et.
Qed.

(** Normalisation: the components of a path never contain a separator, an
    empty name, ["."] or [".."]; a path is resolved to the root exactly when
    it has no component left, and otherwise to its components joined by
    separators; normalising again changes nothing; and resolving a path and
    resolving its normal form are the same. *)
Theorem normalize_path_exact (fs : InMemoryVfs) (path : str) :
  Forall valid_name (components path) /\
  normalize_path (lit "/") path = (if decide (components path = []) then lit "/" else join_path (components path)) /\
  normalize_path (lit "/") (normalize_path (lit "/") path) = normalize_path (lit "/") path /\
  resolve_path fs (normalize_path (lit "/") path) = resolve_path fs path /\
  resolve_path fs path = walk_names fs 1 (components path).
Proof.
  pose proof (components_valid path) as Hv.
  assert (components (normalize_path (lit "/") path) = components path) as Hc
    by (rewrite normalize_components; by apply components_join).
  split; [done|]. split; [rewrite normalize_components; by destruct (components path)|].
  split; [by rewrite (normalize_components (normalize_path _ _)), Hc, <- normalize_components|].
  split; [by rewrite !resolve_path_walk, Hc|apply resolve_path_walk].
Qed.

(** ** Witnesses *)

Definition demo_ops : list vfs_op :=
  [VCreate (lit "/bin") Directory; VCreate (lit "/bin/sh") RegularFile; VWrite (lit "bin//sh") 2 [7; 8];
   VRead (lit "/bin/../bin/sh") 0 9; VStat (lit "/bin/sh");
   VCreate (lit "/bin/ls") RegularFile; VList (lit "/bin"); VDelete (lit "/bin/ls"); VDelete (lit "/bin"); VDelete (lit "/bin/./sh"); VCreate (lit "/no/x") RegularFile].

Lemma vfs_refines_witness :
  exists tr, vfs_trace demo_ops vfs_new = Done tr /\ spec_trace demo_ops (vabs vfs_new) tr /\
    fst <$> tr = [OUnit (Ok ()); OUnit (Ok ()); OCount (Ok 2); OData (Ok [0; 0; 7; 8]);
                  OStat (Ok (4, RegularFile)); OUnit (Ok ()); OList (Ok [(lit "ls", RegularFile); (lit "sh", RegularFile)]);
                  OUnit (Ok ()); OUnit (Err NotEmpty);
                  OUnit (Ok ()); OUnit (Err NotFound)].
Proof.
  destruct (vfs_refines demo_ops) as (_ & tr & E & Hs).
  - repeat constructor; vm_compute; congruence.
  - vm_compute. reflexivity.
  - exists tr. split; [exact E|]. split; [exact Hs|].
    assert (match vfs_trace demo_ops vfs_new with Done tr => Some (fst <$> tr) | Panicked => None end =
      Some [OUnit (Ok ()); OUnit (Ok ()); OCount (Ok 2); OData (Ok [0; 0; 7; 8]);
                  OStat (Ok (4, RegularFile)); OUnit (Ok ()); OList (Ok [(lit "ls", RegularFile); (lit "sh", RegularFile)]);
                  OUnit (Ok ()); OUnit (Err NotEmpty);
            OUnit (Ok ()); OUnit (Err NotFound)]) as Hc by (vm_compute; reflexivity).
    rewrite E in Hc. by injection Hc.
Defined.
