(* ===== verification/Initramfs.v ===== *)
(** * Boot archive (omni-kernel: initramfs.rs)

    The flat archive of named binaries that the kernel unpacks into [/bin] at
    boot: its parser, its builder, and the loading into the file system. *)

From Stdlib Require Import ZArith Lia String.
From stdpp Require Import base numbers list gmap.
From S2P Require Import Prelude Str Vfs.

(** ** Data *)

Record InitramfsEntry := { ie_name : str; ie_data : list Z }.

Inductive InitramfsError := Truncated | InvalidName | VfsFailed.

(** ** Operations *)

(** One field of [n] bytes at [pos]: the bounds check, the bytes, the new
    position. *)
Definition take_field (archive : list Z) (pos n : Z) : run (result InitramfsError (list Z * Z)) :=
  stop ← add64 pos n;
  if Z.of_nat (length archive) <? stop then Done (Err Truncated)
  else s ← slice_run archive pos stop; Done (Ok (s, stop)).

(** [?] on a field. *)
Definition and_then {U V} (c : run (result InitramfsError U)) (k : U -> run (result InitramfsError V))
    : run (result InitramfsError V) :=
  r ← c; match r with Err e => Done (Err e) | Ok x => k x end.

(** One round of the loop: an entry and the position after it. *)
Definition parse_entry (archive : list Z) (pos : Z) : run (result InitramfsError (InitramfsEntry * Z)) :=
  and_then (take_field archive pos 2) (fun '(name_len, pos1) =>
  and_then (take_field archive pos1 (from_le_bytes name_len)) (fun '(name, pos2) =>
  if negb (utf8_valid name) then Done (Err InvalidName) else
  and_then (take_field archive pos2 4) (fun '(elf_len, pos3) =>
  and_then (take_field archive pos3 (from_le_bytes elf_len)) (fun '(data, pos4) =>
  Done (Ok ({| ie_name := name; ie_data := data |}, pos4)))))).

(** Every round consumes at least six bytes, so the archive's length bounds
    the rounds. *)
Fixpoint parse_loop (fuel : nat) (archive : list Z) (pos : Z) (entries : list InitramfsEntry)
    : run (result InitramfsError (list InitramfsEntry)) :=
  match fuel with
  | O => Done (Ok entries)
  | S fuel =>
      if pos <? Z.of_nat (length archive) then
        and_then (parse_entry archive pos) (fun '(e, pos') => parse_loop fuel archive pos' (entries ++ [e]))
      else Done (Ok entries)
  end.

Definition parse_initramfs (archive : list Z) : run (result InitramfsError (list InitramfsEntry)) :=
  parse_loop (S (length archive)) archive 0 [].

(** [u16::try_from(..).expect(..)] and the like. *)
Definition len_field (n : nat) (bytes : list Z) : run (list Z) :=
  if Z.of_nat (length bytes) <? 2 ^ (8 * Z.of_nat n) then Done (to_le_bytes n (Z.of_nat (length bytes))) else Panicked.

Fixpoint build_archive (entries : list (str * list Z)) (buf : list Z) : run (list Z) :=
  match entries with
  | [] => Done buf
  | (name, data) :: entries =>
      name_len ← len_field 2 name;
      data_len ← len_field 4 data;
      build_archive entries (buf ++ name_len ++ name ++ data_len ++ data)
  end.

(** The loop of [load_into_vfs]. *)
Fixpoint load_entries (entries : list InitramfsEntry) (count : Z) (fs : InMemoryVfs)
    : run (result InitramfsError Z * InMemoryVfs) :=
  match entries with
  | [] => Done (Ok count, fs)
  | e :: entries =>
      let path := lit "/bin/" ++ ie_name e in
      if vfs_exists fs path then load_entries entries count fs else
      '(r, fs1) ← create_file path fs;
      match r with
      | Err _ => Done (Err VfsFailed, fs1)
      | Ok inode =>
          '(w, fs2) ← write_file inode 0 (ie_data e) fs1;
          match w with
          | Err _ => Done (Err VfsFailed, fs2)
          | Ok _ => load_entries entries (count + 1) fs2
          end
      end
  end.

Definition load_into_vfs (entries : list InitramfsEntry) (fs : InMemoryVfs) : run (result InitramfsError Z * InMemoryVfs) :=
  '(r, fs1) ← (if vfs_exists fs (lit "/bin") then Done (Ok 0, fs) else create_directory (lit "/bin") fs);
  match r with
  | Err _ => Done (Err VfsFailed, fs1)
  | Ok _ => load_entries entries 0 fs1
  end.

(** ** Lemmas on the format *)

Definition entry_bytes (e : InitramfsEntry) : list Z :=
  to_le_bytes 2 (Z.of_nat (length (ie_name e))) ++ ie_name e ++
  to_le_bytes 4 (Z.of_nat (length (ie_data e))) ++ ie_data e.

(** An entry the format can hold. *)
Record entry_ok (e : InitramfsEntry) : Prop := {
  eo_name : Z.of_nat (length (ie_name e)) < 2 ^ 16;
  eo_utf8 : utf8_valid (ie_name e) = true;
  eo_data : Z.of_nat (length (ie_data e)) < 2 ^ 32;
}.

Lemma take_field_next pre s post :
  Z.of_nat (length (pre ++ s ++ post)) < 2 ^ 63 ->
  take_field (pre ++ s ++ post) (Z.of_nat (length pre)) (Z.of_nat (length s)) =
    Done (Ok (s, Z.of_nat (length (pre ++ s)))).
Proof.
  rewrite !length_app. intros Hl. unfold take_field, slice_run, slice_get. rewrite add64_done by lia. cbn [mbind run_bind].
  rewrite !length_app, (proj2 (Z.ltb_ge _ _)), !(proj2 (Z.leb_le _ _)) by lia. cbn [andb mbind run_bind].
  replace (Z.of_nat (length pre) + Z.of_nat (length s) - Z.of_nat (length pre)) with (Z.of_nat (length s)) by lia.
  rewrite !Nat2Z.id, drop_app_length, take_app_length. do 3 f_equal. lia.
Qed.

Lemma parse_entry_next pre e post :
  entry_ok e -> Z.of_nat (length (pre ++ entry_bytes e ++ post)) < 2 ^ 63 ->
  parse_entry (pre ++ entry_bytes e ++ post) (Z.of_nat (length pre)) =
    Done (Ok (e, Z.of_nat (length (pre ++ entry_bytes e)))).
Proof.
  intros [H1 H2 H3]. unfold entry_bytes. set (nl := to_le_bytes 2 _). set (dl := to_le_bytes 4 _).
  rewrite <- !app_assoc. intros Hl. unfold parse_entry, and_then.
  pose proof (take_field_next pre nl (ie_name e ++ dl ++ ie_data e ++ post) Hl) as E1.
  change (Z.of_nat (length nl)) with 2 in E1. rewrite E1. cbn [mbind run_bind]. clear E1.
  assert (from_le_bytes nl = Z.of_nat (length (ie_name e))) as -> by (unfold nl; rewrite from_to_le_bytes; apply Z.mod_small; lia).
  pose proof (take_field_next (pre ++ nl) (ie_name e) (dl ++ ie_data e ++ post)) as E2. rewrite <- !app_assoc in E2.
  rewrite (E2 Hl). cbn [mbind run_bind]. clear E2. rewrite H2. cbn [negb].
  pose proof (take_field_next (pre ++ nl ++ ie_name e) dl (ie_data e ++ post)) as E3. rewrite <- !app_assoc in E3.
  change (Z.of_nat (length dl)) with 4 in E3. rewrite (E3 Hl). cbn [mbind run_bind]. clear E3.
  assert (from_le_bytes dl = Z.of_nat (length (ie_data e))) as -> by (unfold dl; rewrite from_to_le_bytes; apply Z.mod_small; lia).
  pose proof (take_field_next (pre ++ nl ++ ie_name e ++ dl) (ie_data e) post) as E4. rewrite <- !app_assoc in E4.
  rewrite (E4 Hl). cbn [mbind run_bind]. do 3 f_equal. by destruct e.
Qed.

Definition archive_of (es : list InitramfsEntry) : list Z := concat (entry_bytes <$> es).

Lemma length_entry_bytes e : (6 <= length (entry_bytes e))%nat.
Proof. unfold entry_bytes. rewrite !length_app, !to_le_bytes_length. lia. Qed.

Lemma parse_loop_archive fuel pre es acc :
  Forall entry_ok es -> Z.of_nat (length (pre ++ archive_of es)) < 2 ^ 63 -> (length (archive_of es) < fuel)%nat ->
  parse_loop fuel (pre ++ archive_of es) (Z.of_nat (length pre)) acc = Done (Ok (acc ++ es)).
Proof.
  intros H. revert fuel pre acc. induction H as [|e es He H IH]; intros [|fuel] pre acc Hl Hf; try lia; cbn [parse_loop].
  - cbn. rewrite !app_nil_r. by rewrite (proj2 (Z.ltb_ge _ _)) by lia.
  - change (archive_of (e :: es)) with (entry_bytes e ++ archive_of es) in *. pose proof (length_entry_bytes e).
    rewrite !length_app in Hf. rewrite (proj2 (Z.ltb_lt _ _)) by (rewrite !length_app; lia).
    unfold and_then. rewrite parse_entry_next by done. cbn [mbind run_bind].
    rewrite app_assoc, IH; [by rewrite <- app_assoc| |lia]. by rewrite <- app_assoc.
Qed.

(** Reading a field of an arbitrary archive. *)
Lemma take_field_spec archive pos n :
  Z.of_nat (length archive) < 2 ^ 63 -> 0 <= pos <= Z.of_nat (length archive) -> 0 <= n < 2 ^ 32 ->
  take_field archive pos n =
    Done (if Z.of_nat (length archive) <? pos + n then Err Truncated
          else Ok (take (Z.to_nat n) (drop (Z.to_nat pos) archive), pos + n)).
Proof.
  intros Hl Hp Hn. unfold take_field, slice_run, slice_get. rewrite add64_done by lia. cbn [mbind run_bind].
  destruct (Z.ltb_spec (Z.of_nat (length archive)) (pos + n)); [done|].
  rewrite !(proj2 (Z.leb_le _ _)) by lia. cbn [andb mbind run_bind]. by replace (pos + n - pos) with n by lia.
Qed.

(** The remaining archive is the field and what follows it. *)
Lemma field_rest (archive : list Z) pos n :
  0 <= pos -> 0 <= n ->
  drop (Z.to_nat pos) archive = take (Z.to_nat n) (drop (Z.to_nat pos) archive) ++ drop (Z.to_nat (pos + n)) archive.
Proof.
  intros Hp Hn. rewrite <- (take_drop (Z.to_nat n) (drop (Z.to_nat pos) archive)) at 1. f_equal.
  rewrite drop_drop. f_equal. lia.
Qed.

Lemma length_field (archive : list Z) pos n :
  0 <= pos -> 0 <= n -> pos + n <= Z.of_nat (length archive) ->
  length (take (Z.to_nat n) (drop (Z.to_nat pos) archive)) = Z.to_nat n.
Proof. intros Hp Hn Hl. rewrite length_take, length_drop. lia. Qed.

Section Inverse.
Context (archive : list Z) (Hu8 : Forall is_u8 archive) (Hlen : Z.of_nat (length archive) < 2 ^ 63).

(** The bytes of a length field are its value's. *)
Lemma field_le pos n :
  0 <= pos -> pos + Z.of_nat n <= Z.of_nat (length archive) ->
  let f := take (Z.to_nat (Z.of_nat n)) (drop (Z.to_nat pos) archive) in
  0 <= from_le_bytes f < 2 ^ (8 * Z.of_nat n) /\ to_le_bytes n (from_le_bytes f) = f.
Proof.
  intros Hp Hl f. assert (length f = n) as Hf by (unfold f; rewrite length_field by lia; lia).
  assert (Forall is_u8 f) as Hu by (by apply Forall_take, Forall_drop).
  split; [|by rewrite <- Hf at 1; apply to_from_le_bytes]. rewrite <- Hf. by apply from_le_bytes_bound.
Qed.

Lemma parse_entry_inv pos :
  0 <= pos <= Z.of_nat (length archive) ->
  exists r, parse_entry archive pos = Done r /\
    forall e pos', r = Ok (e, pos') -> entry_ok e /\ pos + 6 <= pos' <= Z.of_nat (length archive) /\
      drop (Z.to_nat pos) archive = entry_bytes e ++ drop (Z.to_nat pos') archive.
Proof.
  intros Hp. unfold parse_entry, and_then. rewrite (take_field_spec archive pos 2) by lia. cbn [mbind run_bind].
  destruct (Z.ltb_spec (Z.of_nat (length archive)) (pos + 2)) as [|Hb1]; [by exists (Err Truncated)|].
  destruct (field_le pos 2) as [Hn1 Hn2]; [lia|lia|]. change (Z.to_nat (Z.of_nat 2)) with (Z.to_nat 2) in Hn1, Hn2.
  set (nl := take _ (drop (Z.to_nat pos) archive)) in *.
  rewrite (take_field_spec archive (pos + 2)) by lia. cbn [mbind run_bind].
  destruct (Z.ltb_spec (Z.of_nat (length archive)) (pos + 2 + from_le_bytes nl)) as [|Hb2]; [by exists (Err Truncated)|].
  set (name := take _ (drop (Z.to_nat (pos + 2)) archive)). destruct (utf8_valid name) eqn:Hutf; cbn [negb]; [|by exists (Err InvalidName)].
  set (p2 := pos + 2 + from_le_bytes nl) in *. rewrite (take_field_spec archive p2 4) by lia. cbn [mbind run_bind].
  destruct (Z.ltb_spec (Z.of_nat (length archive)) (p2 + 4)) as [|Hb3]; [by exists (Err Truncated)|].
  destruct (field_le p2 4) as [Hd1 Hd2]; [lia|lia|]. change (Z.to_nat (Z.of_nat 4)) with (Z.to_nat 4) in Hd1, Hd2.
  set (dl := take _ (drop (Z.to_nat p2) archive)) in *.
  rewrite (take_field_spec archive (p2 + 4)) by lia. cbn [mbind run_bind].
  destruct (Z.ltb_spec (Z.of_nat (length archive)) (p2 + 4 + from_le_bytes dl)) as [|Hb4]; [by exists (Err Truncated)|].
  eexists. split; [reflexivity|]. intros e pos' [= <- <-].
  set (data := take _ (drop (Z.to_nat (p2 + 4)) archive)).
  assert (length name = Z.to_nat (from_le_bytes nl)) as Ln by (unfold name; apply length_field; lia).
  assert (length data = Z.to_nat (from_le_bytes dl)) as Ld by (unfold data; apply length_field; lia).
  split; [split; cbn [ie_name ie_data]; [lia|done|lia]|]. split; [lia|]. unfold entry_bytes. cbn [ie_name ie_data].
  rewrite Ln, Ld, !Z2Nat.id by lia. rewrite Hn2, Hd2, <- !app_assoc.
  rewrite (field_rest archive pos 2) by lia. f_equal. rewrite (field_rest archive (pos + 2) (from_le_bytes nl)) by lia. f_equal.
  fold p2. rewrite (field_rest archive p2 4) by lia. f_equal. by rewrite (field_rest archive (p2 + 4) (from_le_bytes dl)) by lia.
Qed.

Lemma parse_loop_inv fuel pos acc :
  0 <= pos <= Z.of_nat (length archive) -> Z.of_nat (length archive) - pos < Z.of_nat fuel ->
  exists r, parse_loop fuel archive pos acc = Done r /\
    forall es', r = Ok es' -> exists es, es' = acc ++ es /\ Forall entry_ok es /\ drop (Z.to_nat pos) archive = archive_of es.
Proof.
  revert pos acc. induction fuel as [|fuel IH]; intros pos acc Hp Hf; [lia|]. cbn [parse_loop].
  destruct (Z.ltb_spec pos (Z.of_nat (length archive))) as [Hlt|Hge].
  - unfold and_then. destruct (parse_entry_inv pos Hp) as (r & -> & Hr). cbn [mbind run_bind].
    destruct r as [[e pos']|err]; [|by exists (Err err)]. destruct (Hr e pos' eq_refl) as (He & Hpos & Hd).
    destruct (IH pos' (acc ++ [e])) as (r' & -> & Hr'); [lia|lia|]. exists r'. split; [done|]. intros es' Hes.
    destruct (Hr' es' Hes) as (es & -> & Hok & Hd'). exists (e :: es). split; [by rewrite <- app_assoc|].
    split; [by constructor|]. by rewrite Hd, Hd'.
  - exists (Ok acc). split; [done|]. intros es' [= <-]. exists []. rewrite app_nil_r. split_and!; [done|constructor|].
    rewrite drop_ge by lia. done.
Qed.
End Inverse.

Lemma build_archive_spec es buf :
  Forall entry_ok es ->
  build_archive ((fun e => (ie_name e, ie_data e)) <$> es) buf = Done (buf ++ archive_of es).
Proof.
  intros H. revert buf. induction H as [|e es [H1 H2 H3] H IH]; intros buf; cbn [fmap list_fmap build_archive].
  { by rewrite app_nil_r. }
  unfold len_field. rewrite (proj2 (Z.ltb_lt _ (2 ^ (8 * Z.of_nat 2)))) by (cbn; lia). cbn [mbind run_bind].
  rewrite (proj2 (Z.ltb_lt _ (2 ^ (8 * Z.of_nat 4)))) by (cbn; lia). cbn [mbind run_bind].
  change (list_fmap _ _ _ es) with ((fun e => (ie_name e, ie_data e)) <$> es). rewrite IH.
  change (archive_of (e :: es)) with (entry_bytes e ++ archive_of es). unfold entry_bytes. by rewrite <- !app_assoc.
Qed.

Definition pairs (es : list InitramfsEntry) : list (str * list Z) := (fun e => (ie_name e, ie_data e)) <$> es.

(** Only names and data that fit their length fields are archived. *)
Lemma build_archive_ok es buf archive :
  Forall (fun e => utf8_valid (ie_name e) = true) es -> build_archive (pairs es) buf = Done archive -> Forall entry_ok es.
Proof.
  intros H. revert buf. induction H as [|e es He H IH]; intros buf Hb; [constructor|].
  unfold pairs in Hb. rewrite fmap_cons in Hb. cbn [build_archive] in Hb. unfold len_field in Hb.
  destruct (Z.ltb_spec (Z.of_nat (length (ie_name e))) (2 ^ (8 * Z.of_nat 2))) as [H1|]; cbn [mbind run_bind] in Hb; [|done].
  destruct (Z.ltb_spec (Z.of_nat (length (ie_data e))) (2 ^ (8 * Z.of_nat 4))) as [H2|]; cbn [mbind run_bind] in Hb; [|done].
  constructor; [by split|]. by eapply IH.
Qed.

(** ** Lemmas on loading *)

Definition bin_path (n : str) : list str := [lit "bin"; n].

Lemma components_bin n : valid_name n -> components (lit "/bin/" ++ n) = bin_path n.
Proof.
  intros Hn. assert (valid_name (lit "bin")) as Hb.
  { split_and!; try (vm_compute; congruence). intros Hx. repeat (apply elem_of_cons in Hx as [Hx|Hx]; [vm_compute in Hx; lia|]).
    by apply elem_of_nil in Hx. }
  rewrite <- (components_join (bin_path n)) by (repeat constructor; (apply Hb || apply Hn)).
  f_equal. unfold bin_path, join_path. cbn. by rewrite app_nil_r.
Qed.

(** What loading makes of a tree: every entry whose path is free is added. *)
Fixpoint spec_load (es : list InitramfsEntry) (T : vtree) : vtree :=
  match es with
  | [] => T
  | e :: es =>
      spec_load es (match T (bin_path (ie_name e)) with
                    | Some _ => T
                    | None => tree_update (bin_path (ie_name e)) (Some (VFile (ie_data e))) T
                    end)
  end.

Fixpoint spec_count (es : list InitramfsEntry) (T : vtree) : Z :=
  match es with
  | [] => 0
  | e :: es =>
      match T (bin_path (ie_name e)) with
      | Some _ => spec_count es T
      | None => 1 + spec_count es (tree_update (bin_path (ie_name e)) (Some (VFile (ie_data e))) T)
      end
  end.

Lemma tree_update_ext l x T T' : (forall k, T k = T' k) -> forall k, tree_update l x T k = tree_update l x T' k.
Proof. intros H k. unfold tree_update. by destruct (decide (k = l)). Qed.

Lemma spec_load_ext es T T' :
  (forall k, T k = T' k) -> (forall k, spec_load es T k = spec_load es T' k) /\ spec_count es T = spec_count es T'.
Proof.
  revert T T'. induction es as [|e es IH]; intros T T' H; cbn [spec_load spec_count]; [done|].
  rewrite <- (H (bin_path (ie_name e))). destruct (T (bin_path (ie_name e))); [by apply IH|].
  destruct (IH _ _ (tree_update_ext (bin_path (ie_name e)) (Some (VFile (ie_data e))) T T' H)) as [I1 I2].
  split; [done|]. by rewrite I2.
Qed.

Record load_ok (e : InitramfsEntry) : Prop := {
  lo_name : valid_name (ie_name e);
  lo_data : Z.of_nat (length (ie_data e)) <= ISIZE_MAX;
}.

Lemma vfs_exists_spec fs path :
  vfs_wf fs -> vfs_exists fs path = match vabs fs (components path) with Some _ => true | None => false end.
Proof.
  intros Hwf. unfold vfs_exists. rewrite resolve_path_walk. pose proof (components_valid path) as Hv.
  unfold vabs. rewrite decide_True by done. destruct (walk_names fs 1 (components path)) as [id|] eqn:E; [|done].
  apply walk_names_path in E; [|done]. destruct (path_live fs Hwf _ _ E) as [i ->]. done.
Qed.

(** Creating a file at a free path under an existing directory and writing it
    from the start puts exactly its data there. *)
Lemma create_then_write fs path l n data :
  vfs_wf fs -> next_inode fs < u64_max -> components path = l ++ [n] -> vabs fs l = Some VDir -> vabs fs (l ++ [n]) = None ->
  Z.of_nat (length data) <= ISIZE_MAX ->
  exists inode fs1 fs2 k, create_file path fs = Done (Ok inode, fs1) /\ write_file inode 0 data fs1 = Done (Ok k, fs2) /\
    vfs_wf fs2 /\ next_inode fs2 <= next_inode fs + 1 /\
    forall x, vabs fs2 x = tree_update (l ++ [n]) (Some (VFile data)) (vabs fs) x.
Proof.
  intros Hwf Hmax Hc Hdir Hfree Hlen. destruct (create_refines path RegularFile fs Hwf Hmax) as (r & fs1 & E & Hwf1 & Hn1 & Hr & Ht1 & Hid).
  assert (spec_resolve (vabs fs) [] l = Ok ()) as Hres.
  { pose proof Hdir as (id & i & Hp & _)%(vabs_some fs Hwf).
    destruct (walk_spec fs Hwf l [] 1 (path_valid fs Hwf _ _ Hp) (path_root fs)) as [(x & _ & Hx & _)|(err & Hx & _)]; [done|].
    apply walk_names_path in Hp; [congruence|by eapply (path_valid fs Hwf)]. }
  unfold spec_create in Hr, Ht1. rewrite Hc, last_snoc, removelast_last, Hres, Hdir, Hfree in Hr, Ht1. cbn [fst snd] in Hr, Ht1.
  destruct r as [inode|]; [|done]. specialize (Hid inode eq_refl).
  destruct (write_refines path 0 data fs1 Hwf1 ltac:(lia) ltac:(lia)) as (k & fs2 & Ew & Hwf2 & Hn2 & Hk & Ht2).
  unfold write_path in Ew. rewrite resolve_path_walk, Hid in Ew. rewrite Hc in *.
  assert (vabs fs1 (l ++ [n]) = Some (VFile [])) as Hf1 by (rewrite Ht1; unfold tree_update; by rewrite decide_True).
  assert (spec_resolve (vabs fs1) [] (l ++ [n]) = Ok ()) as Hres1.
  { pose proof Hf1 as (id & i & Hp & _)%(vabs_some fs1 Hwf1).
    destruct (walk_spec fs1 Hwf1 (l ++ [n]) [] 1 (path_valid fs1 Hwf1 _ _ Hp) (path_root fs1)) as [(x & _ & Hx & _)|(err & Hx & _)]; [done|congruence]. }
  unfold spec_write in Hk, Ht2. rewrite Hres1, Hf1 in Hk, Ht2. cbn [fst snd] in Hk, Ht2. subst k.
  exists inode, fs1, fs2, (Z.of_nat (length data)). split; [done|]. split; [done|]. split; [done|]. split; [lia|].
  intros x. rewrite Ht2. case_bool_decide as Hd.
  - subst data. by rewrite Ht1.
  - unfold tree_update at 1. destruct (decide (x = l ++ [n])) as [->|Hne].
    + unfold tree_update. rewrite decide_True by done. do 2 f_equal. unfold splice. cbn [app length].
      rewrite Z.add_0_l, Nat2Z.id, Nat.sub_0_r, Nat.add_0_l, drop_replicate, Nat.sub_diag. cbn. by rewrite app_nil_r.
    + rewrite Ht1. unfold tree_update. by rewrite !decide_False.
Qed.

Lemma load_entries_spec es count fs :
  vfs_wf fs -> Forall load_ok es -> vabs fs [lit "bin"] = Some VDir -> next_inode fs + Z.of_nat (length es) < u64_max ->
  exists fs', load_entries es count fs = Done (Ok (count + spec_count es (vabs fs)), fs') /\ vfs_wf fs' /\
    forall x, vabs fs' x = spec_load es (vabs fs) x.
Proof.
  intros Hwf H. revert count fs Hwf. induction H as [|e es [Hn Hd] H IH]; intros count fs Hwf Hbin Hmax;
    cbn [load_entries spec_load spec_count length] in *.
  { exists fs. rewrite Z.add_0_r. done. }
  rewrite vfs_exists_spec, components_bin by done.
  destruct (vabs fs (bin_path (ie_name e))) as [x|] eqn:Ex; [apply IH; try done; lia|].
  destruct (create_then_write fs (lit "/bin/" ++ ie_name e) [lit "bin"] (ie_name e) (ie_data e)) as
    (inode & fs1 & fs2 & k & -> & Ew & Hwf2 & Hn2 & Ht); try done; [lia|by apply components_bin|].
  cbn [mbind run_bind]. rewrite Ew. cbn [mbind run_bind]. change ([lit "bin"] ++ [ie_name e]) with (bin_path (ie_name e)) in Ht.
  destruct (IH (count + 1) fs2 Hwf2) as (fs' & -> & Hwf' & Ht').
  { rewrite Ht. unfold tree_update. rewrite decide_False by done. done. }
  { lia. }
  destruct (spec_load_ext es _ _ Ht) as [E1 E2]. exists fs'. rewrite E2, Z.add_assoc. split; [done|]. split; [done|].
  intros x. by rewrite Ht'.
Qed.

(** ** Theorems *)

(** Archive format: parsing the archive built from any entries whose names
    are UTF-8 gives back these entries; on any byte string the parser ends
    without a panic, and when it accepts, rebuilding its entries gives back
    the very same bytes: there is one archive per list of entries and nothing
    else is accepted. *)
Theorem initramfs_roundtrip :
  (forall es archive, Forall (fun e => utf8_valid (ie_name e) = true) es ->
     build_archive (pairs es) [] = Done archive -> Z.of_nat (length archive) < 2 ^ 63 ->
     parse_initramfs archive = Done (Ok es)) /\
  (forall archive, Forall is_u8 archive -> Z.of_nat (length archive) < 2 ^ 63 ->
     exists r, parse_initramfs archive = Done r /\
       forall es, r = Ok es -> build_archive (pairs es) [] = Done archive).
Proof.
  split.
  - intros es archive Hu Hb Hl. pose proof (build_archive_ok _ _ _ Hu Hb) as Hok.
    unfold pairs in Hb. rewrite build_archive_spec in Hb by done. injection Hb as <-.
    unfold parse_initramfs. apply (parse_loop_archive _ [] es []); [done|done|]. cbn [app]. lia.
  - intros archive Hu8 Hl. unfold parse_initramfs.
    destruct (parse_loop_inv archive Hu8 Hl (S (length archive)) 0 []) as (r & -> & Hr); [lia|lia|].
    exists r. split; [done|]. intros es' Hes. destruct (Hr es' Hes) as (es & -> & Hok & Hd).
    unfold pairs. cbn [app]. rewrite build_archive_spec by done. cbn [app]. by rewrite <- Hd.
Qed.

(** Boot: loading entries with plain names into a well-formed file system
    whose [/bin] is absent or a directory always succeeds; afterwards [/bin]
    is a directory, every entry whose path was free is there with exactly its
    data (the first one wins among equal names), existing files and all other
    paths are unchanged, and the count is the number of files added. *)
Theorem initramfs_load_exact (es : list InitramfsEntry) (fs : InMemoryVfs)
    (Hwf : vfs_wf fs) (Hes : Forall load_ok es) (Hmax : next_inode fs + 1 + Z.of_nat (length es) < u64_max)
    (Hbin : vabs fs [lit "bin"] = None \/ vabs fs [lit "bin"] = Some VDir) :
  let T := tree_update [lit "bin"] (Some VDir) (vabs fs) in
  exists fs', load_into_vfs es fs = Done (Ok (spec_count es T), fs') /\ vfs_wf fs' /\
    forall l, vabs fs' l = spec_load es T l.
Proof.
  intros T. unfold load_into_vfs. rewrite vfs_exists_spec by done. change (components (lit "/bin")) with [lit "bin"].
  assert (exists r fs1, (if match vabs fs [lit "bin"] with Some _ => true | None => false end
            then Done (Ok 0, fs) else create_directory (lit "/bin") fs) = Done (Ok r, fs1) /\
          vfs_wf fs1 /\ next_inode fs1 <= next_inode fs + 1 /\ forall l, vabs fs1 l = T l) as (r & fs1 & -> & Hwf1 & Hn1 & Ht).
  { destruct Hbin as [Hb|Hb]; rewrite Hb.
    - destruct (create_refines (lit "/bin") Directory fs Hwf ltac:(lia)) as (r & fs1 & E & Hwf1 & Hn1 & Hr & Ht1 & _).
      change (components (lit "/bin")) with [lit "bin"] in Hr, Ht1.
      assert (vabs fs [] = Some VDir) as Hroot.
      { destruct (vw_root _ Hwf) as (rt & Hrt & Hdir & _). rewrite (vabs_at fs Hwf [] 1 rt) by done.
        unfold node_of. by rewrite bool_decide_eq_true_2. }
      unfold spec_create in Hr, Ht1. cbn [last removelast spec_resolve] in Hr, Ht1. rewrite Hroot, Hb in Hr, Ht1.
      cbn [fst snd] in Hr, Ht1. destruct r as [id|]; [|done]. exists id, fs1. by split_and!.
    - exists 0, fs. split_and!; try done; [lia|]. intros l. unfold T, tree_update. by destruct (decide (l = [lit "bin"])) as [->|]. }
  cbn [mbind run_bind]. destruct (load_entries_spec es 0 fs1 Hwf1 Hes) as (fs' & E & Hwf' & Ht').
  { rewrite Ht. unfold T, tree_update. by rewrite decide_True. }
  { lia. }
  destruct (spec_load_ext es _ _ Ht) as [E1 E2]. exists fs'. rewrite E, E2. split; [done|]. split; [done|].
  intros l. by rewrite Ht'.
Qed.

(** A name with parent components leaves [/bin]: the file is created in the
    root directory. *)
Lemma initramfs_load_escapes :
  exists fs', load_into_vfs [{| ie_name := lit "../init"; ie_data := [1] |}] vfs_new = Done (Ok 1, fs') /\
    vabs fs' [lit "init"] = Some (VFile [1]) /\ vabs fs' [lit "bin"] = Some VDir.
Proof. eexists. split; [vm_compute; reflexivity|]. split; vm_compute; reflexivity. Qed.

(** ** Witnesses *)

Definition demo_entries : list InitramfsEntry :=
  [{| ie_name := lit "ls"; ie_data := [1; 2; 3] |}; {| ie_name := lit "cat"; ie_data := [] |}].

Lemma initramfs_roundtrip_witness :
  exists archive, build_archive (pairs demo_entries) [] = Done archive /\
    parse_initramfs archive = Done (Ok demo_entries).
Proof.
  eexists. split; [vm_compute; reflexivity|]. apply (proj1 initramfs_roundtrip).
  - repeat constructor.
  - vm_compute. reflexivity.
  - vm_compute. reflexivity.
Defined.

Lemma demo_entries_ok : Forall load_ok demo_entries.
Proof.
  repeat constructor; try (vm_compute; congruence); intros Hx;
    repeat (apply elem_of_cons in Hx as [Hx|Hx]; [vm_compute in Hx; lia|]); by apply elem_of_nil in Hx.
Qed.

Lemma initramfs_load_exact_witness :
  exists fs', load_into_vfs demo_entries vfs_new = Done (Ok 2, fs') /\ vfs_wf fs' /\
    vabs fs' (bin_path (lit "ls")) = Some (VFile [1; 2; 3]).
Proof.
  destruct (initramfs_load_exact demo_entries vfs_new vfs_new_wf demo_entries_ok) as (fs' & E & Hwf & Ht).
  - vm_compute. reflexivity.
  - left. vm_compute. reflexivity.
  - exists fs'. split; [exact E|]. split; [exact Hwf|]. rewrite Ht. vm_compute. reflexivity.
Defined.
