(* ===== verification/Net.v ===== *)
(** * Packet formats and routing (omni-types: net.rs; omni-net: ip.rs)

    The internet checksum in its two forms, the Ethernet, IPv4, ICMP, UDP, TCP
    and ARP headers with their parsers and serializers, building and parsing
    of IPv4 packets and of TCP segments, address blocks and the routing table.
    Byte arrays are lists of byte values; [None] is the code's [None]. *)

From Stdlib Require Import ZArith Lia.
From stdpp Require Import base numbers list sorting.
From S2P Require Import Prelude.

(** ** Big-endian fields *)


Definition from_be_bytes (bs : list Z) : Z := from_le_bytes (rev bs).
Definition to_be_bytes (n : nat) (x : Z) : list Z := rev (to_le_bytes n x).

(** [[*bytes.get(i)?, .., *bytes.get(i + n - 1)?]]. *)
Definition get_arr (bytes : list Z) (i n : nat) : option (list Z) := mapM (fun k => bytes !! k) (seq i n).

Definition get_be (bytes : list Z) (i n : nat) : option Z := from_be_bytes <$> get_arr bytes i n.

(** Storing [data] byte by byte into the front of a buffer of at least [n]
    bytes. *)
Definition store_front (n : nat) (data buf : list Z) : option (list Z) :=
  if decide (length buf < n)%nat then None else Some (data ++ drop n buf).

(** ** Internet checksum (RFC 1071) *)

Definition add32 (a b : Z) : run Z := if a + b <? 2 ^ 32 then Done (a + b) else Panicked.

(** The [while i + 1 < len] loop: the sum so far and the odd byte left. *)
Fixpoint sum_words (sum : Z) (data : list Z) : run (Z * option Z) :=
  match data with
  | hi :: lo :: data => sum' ← add32 sum (256 * hi + lo); sum_words sum' data
  | [b] => Done (sum, Some b)
  | [] => Done (sum, None)
  end.

(** [while sum >> 16 != 0]; two rounds bring any [u32] below [2^16]. *)
Fixpoint fold_carries (fuel : nat) (sum : Z) : Z :=
  match fuel with
  | O => sum
  | S fuel => if Z.shiftr sum 16 =? 0 then sum else fold_carries fuel (Z.land sum 65535 + Z.shiftr sum 16)
  end.

(** The last odd byte, the folding and the complement [!(sum as u16)]. *)
Definition finish_sum (x : Z * option Z) : run Z :=
  sum ← match snd x with Some b => add32 (fst x) (Z.shiftl b 8) | None => Done (fst x) end;
  Done (Z.lxor (fold_carries 32 sum mod 2 ^ 16) 65535).

Definition internet_checksum (data : list Z) : run Z := x ← sum_words 0 data; finish_sum x.

(** One slice of [checksum_combine]: the odd byte of the slices before it
    pairs with its first byte. *)
Definition combine_slice (x : Z * option Z) (slice : list Z) : run (Z * option Z) :=
  match snd x with
  | Some prev =>
      match slice with
      | first :: rest => sum' ← add32 (fst x) (256 * prev + first); sum_words sum' rest
      | [] => Done x
      end
  | None => sum_words (fst x) slice
  end.

Fixpoint combine_slices (x : Z * option Z) (slices : list (list Z)) : run (Z * option Z) :=
  match slices with
  | [] => Done x
  | s :: slices => x' ← combine_slice x s; combine_slices x' slices
  end.

Definition checksum_combine (slices : list (list Z)) : run Z := x ← combine_slices (0, None) slices; finish_sum x.

(** ** Ethernet *)

Record EthernetHeader := { eth_dst : list Z; eth_src : list Z; ether_type : Z }.

Definition eth_bytes (h : EthernetHeader) : list Z := eth_dst h ++ eth_src h ++ to_be_bytes 2 (ether_type h).
Definition eth_serialize (h : EthernetHeader) (buf : list Z) : option (list Z) := store_front 14 (eth_bytes h) buf.
Definition eth_parse (bytes : list Z) : option (EthernetHeader * list Z) :=
  if decide (length bytes < 14)%nat then None else
  dst ← get_arr bytes 0 6; src ← get_arr bytes 6 6; et ← get_be bytes 12 2;
  Some ({| eth_dst := dst; eth_src := src; ether_type := et |}, drop 14 bytes).

(** ** IPv4 *)

Record Ipv4Header := {
  version_ihl : Z; dscp_ecn : Z; total_length : Z; identification : Z; flags_fragment : Z; ttl : Z; protocol : Z;
  header_checksum : Z; ip_src : list Z; ip_dst : list Z }.

Definition set_header_checksum (ck : Z) (h : Ipv4Header) : Ipv4Header :=
  {| version_ihl := version_ihl h; dscp_ecn := dscp_ecn h; total_length := total_length h;
     identification := identification h; flags_fragment := flags_fragment h; ttl := ttl h; protocol := protocol h;
     header_checksum := ck; ip_src := ip_src h; ip_dst := ip_dst h |}.

Definition ipv4_bytes (h : Ipv4Header) : list Z :=
  [version_ihl h; dscp_ecn h] ++ to_be_bytes 2 (total_length h) ++ to_be_bytes 2 (identification h) ++
  to_be_bytes 2 (flags_fragment h) ++ [ttl h; protocol h] ++ to_be_bytes 2 (header_checksum h) ++ ip_src h ++ ip_dst h.

Definition ipv4_serialize (h : Ipv4Header) (buf : list Z) : option (list Z) := store_front 20 (ipv4_bytes h) buf.

Definition ipv4_parse (bytes : list Z) : option (Ipv4Header * list Z) :=
  if decide (length bytes < 20)%nat then None else
  vi ← bytes !! 0%nat;
  let ihl := (Z.to_nat (Z.land vi 15) * 4)%nat in
  if decide (ihl < 20 \/ length bytes < ihl)%nat then None else
  de ← bytes !! 1%nat; tl ← get_be bytes 2 2; id ← get_be bytes 4 2; ff ← get_be bytes 6 2;
  t ← bytes !! 8%nat; p ← bytes !! 9%nat; ck ← get_be bytes 10 2; src ← get_arr bytes 12 4; dst ← get_arr bytes 16 4;
  Some ({| version_ihl := vi; dscp_ecn := de; total_length := tl; identification := id; flags_fragment := ff;
           ttl := t; protocol := p; header_checksum := ck; ip_src := src; ip_dst := dst |}, drop ihl bytes).

(** The bytes a serializer leaves in a zeroed array of [n]. *)
Definition in_zeroed (n : nat) (ser : list Z -> option (list Z)) : list Z := default (replicate n 0) (ser (replicate n 0)).

Definition ipv4_compute_checksum (h : Ipv4Header) : run Z :=
  internet_checksum (in_zeroed 20 (ipv4_serialize (set_header_checksum 0 h))).
Definition ipv4_verify_checksum (h : Ipv4Header) : run bool :=
  ck ← ipv4_compute_checksum h; Done (ck =? header_checksum h).

(** ** ICMP *)

Record IcmpHeader := { icmp_type : Z; icmp_code : Z; icmp_checksum : Z; icmp_rest : list Z }.

Definition icmp_bytes (h : IcmpHeader) : list Z :=
  [icmp_type h; icmp_code h] ++ to_be_bytes 2 (icmp_checksum h) ++ icmp_rest h.
Definition icmp_serialize (h : IcmpHeader) (buf : list Z) : option (list Z) := store_front 8 (icmp_bytes h) buf.
Definition icmp_parse (bytes : list Z) : option (IcmpHeader * list Z) :=
  if decide (length bytes < 8)%nat then None else
  t ← bytes !! 0%nat; c ← bytes !! 1%nat; ck ← get_be bytes 2 2; r ← get_arr bytes 4 4;
  Some ({| icmp_type := t; icmp_code := c; icmp_checksum := ck; icmp_rest := r |}, drop 8 bytes).

Definition icmp_compute_checksum (h : IcmpHeader) (payload : list Z) : run Z :=
  let tmp := {| icmp_type := icmp_type h; icmp_code := icmp_code h; icmp_checksum := 0; icmp_rest := icmp_rest h |} in
  checksum_combine [in_zeroed 8 (icmp_serialize tmp); payload].
Definition icmp_verify_checksum (h : IcmpHeader) (payload : list Z) : run bool :=
  ck ← icmp_compute_checksum h payload; Done (ck =? icmp_checksum h).

(** ** UDP and TCP

    The two pseudo-headers have the same fields. *)

Record PseudoHeader := { ph_src : list Z; ph_dst : list Z; ph_zero : Z; ph_protocol : Z; ph_length : Z }.

Definition pseudo_bytes (p : PseudoHeader) : list Z :=
  ph_src p ++ ph_dst p ++ [ph_zero p; ph_protocol p] ++ to_be_bytes 2 (ph_length p).

Record UdpHeader := { udp_src_port : Z; udp_dst_port : Z; udp_length : Z; udp_checksum : Z }.

Definition udp_bytes (h : UdpHeader) : list Z :=
  to_be_bytes 2 (udp_src_port h) ++ to_be_bytes 2 (udp_dst_port h) ++ to_be_bytes 2 (udp_length h) ++
  to_be_bytes 2 (udp_checksum h).
Definition udp_serialize (h : UdpHeader) (buf : list Z) : option (list Z) := store_front 8 (udp_bytes h) buf.
Definition udp_parse (bytes : list Z) : option (UdpHeader * list Z) :=
  if decide (length bytes < 8)%nat then None else
  sp ← get_be bytes 0 2; dp ← get_be bytes 2 2; ln ← get_be bytes 4 2; ck ← get_be bytes 6 2;
  Some ({| udp_src_port := sp; udp_dst_port := dp; udp_length := ln; udp_checksum := ck |}, drop 8 bytes).

Definition udp_compute_checksum (h : UdpHeader) (p : PseudoHeader) (payload : list Z) : run Z :=
  let tmp := {| udp_src_port := udp_src_port h; udp_dst_port := udp_dst_port h; udp_length := udp_length h;
                udp_checksum := 0 |} in
  checksum_combine [pseudo_bytes p; in_zeroed 8 (udp_serialize tmp); payload].
Definition udp_verify_checksum (h : UdpHeader) (p : PseudoHeader) (payload : list Z) : run bool :=
  ck ← udp_compute_checksum h p payload; Done (ck =? udp_checksum h).

Definition FIN : Z := 1.
Definition SYN : Z := 2.
Definition RST : Z := 4.
Definition PSH : Z := 8.
Definition ACK : Z := 16.

Record TcpHeader := {
  src_port : Z; dst_port : Z; seq_num : Z; ack_num : Z; data_offset_flags : Z; window : Z; tcp_checksum : Z;
  urgent_ptr : Z }.

Definition set_tcp_checksum (ck : Z) (h : TcpHeader) : TcpHeader :=
  {| src_port := src_port h; dst_port := dst_port h; seq_num := seq_num h; ack_num := ack_num h;
     data_offset_flags := data_offset_flags h; window := window h; tcp_checksum := ck; urgent_ptr := urgent_ptr h |}.

Definition tcp_bytes (h : TcpHeader) : list Z :=
  to_be_bytes 2 (src_port h) ++ to_be_bytes 2 (dst_port h) ++ to_be_bytes 4 (seq_num h) ++ to_be_bytes 4 (ack_num h) ++
  to_be_bytes 2 (data_offset_flags h) ++ to_be_bytes 2 (window h) ++ to_be_bytes 2 (tcp_checksum h) ++
  to_be_bytes 2 (urgent_ptr h).
Definition tcp_serialize (h : TcpHeader) (buf : list Z) : option (list Z) := store_front 20 (tcp_bytes h) buf.
Definition tcp_parse (bytes : list Z) : option (TcpHeader * list Z) :=
  if decide (length bytes < 20)%nat then None else
  dof ← get_be bytes 12 2;
  let data_offset := (Z.to_nat (Z.shiftr dof 12) * 4)%nat in
  if decide (data_offset < 20 \/ length bytes < data_offset)%nat then None else
  sp ← get_be bytes 0 2; dp ← get_be bytes 2 2; sn ← get_be bytes 4 4; an ← get_be bytes 8 4;
  w ← get_be bytes 14 2; ck ← get_be bytes 16 2; up ← get_be bytes 18 2;
  Some ({| src_port := sp; dst_port := dp; seq_num := sn; ack_num := an; data_offset_flags := dof; window := w;
           tcp_checksum := ck; urgent_ptr := up |}, drop data_offset bytes).

Definition tcp_flags (h : TcpHeader) : Z := Z.land (data_offset_flags h) 255.
Definition tcp_data_offset (h : TcpHeader) : Z := Z.shiftr (data_offset_flags h) 12 * 4.

Definition tcp_compute_checksum (h : TcpHeader) (p : PseudoHeader) (payload : list Z) : run Z :=
  checksum_combine [pseudo_bytes p; in_zeroed 20 (tcp_serialize (set_tcp_checksum 0 h)); payload].
Definition tcp_verify_checksum (h : TcpHeader) (p : PseudoHeader) (payload : list Z) : run bool :=
  ck ← tcp_compute_checksum h p payload; Done (ck =? tcp_checksum h).

(** ** ARP *)

Record ArpPacket := {
  htype : Z; ptype : Z; hlen : Z; plen : Z; operation : Z; sender_mac : list Z; sender_ip : list Z;
  target_mac : list Z; target_ip : list Z }.

Definition arp_bytes (p : ArpPacket) : list Z :=
  to_be_bytes 2 (htype p) ++ to_be_bytes 2 (ptype p) ++ [hlen p; plen p] ++ to_be_bytes 2 (operation p) ++
  sender_mac p ++ sender_ip p ++ target_mac p ++ target_ip p.
Definition arp_serialize (p : ArpPacket) (buf : list Z) : option (list Z) := store_front 28 (arp_bytes p) buf.
Definition arp_parse (bytes : list Z) : option ArpPacket :=
  if decide (length bytes < 28)%nat then None else
  ht ← get_be bytes 0 2; pt ← get_be bytes 2 2; hl ← bytes !! 4%nat; pl ← bytes !! 5%nat; op ← get_be bytes 6 2;
  sm ← get_arr bytes 8 6; si ← get_arr bytes 14 4; tm ← get_arr bytes 18 6; ti ← get_arr bytes 24 4;
  Some {| htype := ht; ptype := pt; hlen := hl; plen := pl; operation := op; sender_mac := sm; sender_ip := si;
          target_mac := tm; target_ip := ti |}.

(** ** Packets *)

Definition build_ipv4_packet (src dst : list Z) (proto t ident : Z) (payload : list Z) : run (list Z) :=
  let total := 20 + Z.of_nat (length payload) in
  let hdr := {| version_ihl := 69; dscp_ecn := 0; total_length := if total <? 2 ^ 16 then total else 2 ^ 16 - 1;
                identification := ident; flags_fragment := 16384; ttl := t; protocol := proto; header_checksum := 0;
                ip_src := src; ip_dst := dst |} in
  ck ← ipv4_compute_checksum hdr;
  Done (in_zeroed 20 (ipv4_serialize (set_header_checksum ck hdr)) ++ payload).

Definition parse_ipv4_packet (data : list Z) : run (option (Ipv4Header * list Z)) :=
  match ipv4_parse data with
  | None => Done None
  | Some (hdr, payload) => ok ← ipv4_verify_checksum hdr; Done (if ok : bool then Some (hdr, payload) else None)
  end.

Definition build_tcp_segment (src_ip dst_ip : list Z) (sp dp seq ack flags win : Z) (payload : list Z) : run (list Z) :=
  let tcp_len := (20 + Z.of_nat (length payload)) mod 2 ^ 16 in
  let pseudo := {| ph_src := src_ip; ph_dst := dst_ip; ph_zero := 0; ph_protocol := 6; ph_length := tcp_len |} in
  let hdr := {| src_port := sp; dst_port := dp; seq_num := seq; ack_num := ack;
                data_offset_flags := Z.lor (Z.shiftl 5 12) flags; window := win; tcp_checksum := 0; urgent_ptr := 0 |} in
  ck ← tcp_compute_checksum hdr pseudo payload;
  build_ipv4_packet src_ip dst_ip 6 64 0 (in_zeroed 20 (tcp_serialize (set_tcp_checksum ck hdr)) ++ payload).

(** ** Address blocks and routes *)

Record Cidr := { cidr_addr : list Z; prefix_len : Z }.

#[global] Instance cidr_eq : EqDecision Cidr.
Proof. solve_decision. Defined.

Definition cidr_new (addr : list Z) (len : Z) : option Cidr :=
  if 32 <? len then None else Some {| cidr_addr := addr; prefix_len := len |}.

(** [u32::MAX << (32 - prefix_len)]; the [u8] subtraction is checked. *)
Definition netmask (c : Cidr) : run Z :=
  if prefix_len c =? 0 then Done 0
  else if 32 <? prefix_len c then Panicked else Done (Z.shiftl u32_max (32 - prefix_len c) mod 2 ^ 32).

Definition network_addr (c : Cidr) : run Z := mask ← netmask c; Done (Z.land (from_be_bytes (cidr_addr c)) mask).
Definition broadcast_addr (c : Cidr) : run Z :=
  mask ← netmask c; Done (Z.lor (from_be_bytes (cidr_addr c)) (Z.lxor mask u32_max)).

Definition cidr_contains (c : Cidr) (addr : list Z) : run bool :=
  mask ← netmask c; net ← network_addr c; Done (Z.land (from_be_bytes addr) mask =? net).

Record Route := { destination : Cidr; gateway : option (list Z); interface : list Z; metric : Z }.

Definition RoutingTable : Type := list Route.

Definition add_route (r : Route) (t : RoutingTable) : RoutingTable := t ++ [r].
Definition remove_route (d : Cidr) (t : RoutingTable) : bool * RoutingTable :=
  let t' := filter (fun r => destination r <> d) t in (bool_decide (length t' < length t)%nat, t').

(** Prefix length descending, then metric ascending. *)
Definition route_le (t : RoutingTable) (a b : nat) : bool :=
  match t !! a, t !! b with
  | Some ra, Some rb =>
      (prefix_len (destination rb) <? prefix_len (destination ra)) ||
      ((prefix_len (destination rb) =? prefix_len (destination ra)) && (metric ra <=? metric rb))
  | _, _ => true
  end.

(** The indices of the routes that contain [dst], in table order. *)
Fixpoint candidates (dst : list Z) (i : nat) (t : RoutingTable) : run (list nat) :=
  match t with
  | [] => Done []
  | r :: t =>
      b ← cidr_contains (destination r) dst;
      rest ← candidates dst (S i) t;
      Done ((if b : bool then [i] else []) ++ rest)
  end.

(** [sort_unstable_by] may put equal elements in any order: it is an argument
    of [lookup]. *)
Definition route_lookup (sort_unstable_by : (nat -> nat -> bool) -> list nat -> list nat) (t : RoutingTable)
    (dst : list Z) : run (option Route) :=
  cs ← candidates dst 0 t;
  Done (i ← head (sort_unstable_by (route_le t) cs); t !! i).

(** ** Lemmas on the checksum *)

Lemma list_pair_ind {A} (P : list A -> Prop) :
  P [] -> (forall a, P [a]) -> (forall a b l, P l -> P (a :: b :: l)) -> forall l, P l.
Proof.
  intros H0 H1 H2. fix IH 1. intros [|a [|b l]]; [exact H0|apply H1|]. apply H2, IH.
Qed.

(** The sum of the 16-bit words, without a bound. *)
Fixpoint word_sum (l : list Z) : Z :=
  match l with
  | hi :: lo :: l => 256 * hi + lo + word_sum l
  | [b] => 256 * b
  | [] => 0
  end.

(** The ones' complement of the ones'-complement sum [w]. *)
Definition csum (w : Z) : Z := 65535 - (if w =? 0 then 0 else (w - 1) mod 65535 + 1).

Lemma word_sum_nonneg l : Forall is_u8 l -> 0 <= word_sum l.
Proof.
  unfold is_u8. induction l as [|b|a b l IH] using list_pair_ind; intros H; cbn [word_sum]; [lia|..].
  - rewrite Forall_singleton in H. lia.
  - apply Forall_cons in H as [Ha H]. apply Forall_cons in H as [Hb H]. specialize (IH H). lia.
Qed.

Lemma word_sum_bound l : Forall is_u8 l -> word_sum l <= 65535 * Z.of_nat ((length l + 1) / 2).
Proof.
  unfold is_u8. induction l as [|b|a b l IH] using list_pair_ind; intros H; cbn [word_sum]; [done|..].
  - rewrite Forall_singleton in H. change (65535 * Z.of_nat ((length [b] + 1) / 2)) with 65535. lia.
  - apply Forall_cons in H as [Ha H]. apply Forall_cons in H as [Hb H]. specialize (IH H).
    cbn [length]. replace (S (S (length l)) + 1)%nat with (length l + 1 + 1 * 2)%nat by lia.
    rewrite Nat.div_add by lia. lia.
Qed.

Lemma word_sum_app a b : Nat.Even (length a) -> word_sum (a ++ b) = word_sum a + word_sum b.
Proof.
  induction a as [|x|x y a IH] using list_pair_ind; intros H; cbn [app word_sum]; [done|..].
  - destruct H as [k H]. cbn in H. lia.
  - rewrite IH; [lia|]. destruct H as [k H]. cbn in H. exists (k - 1)%nat. lia.
Qed.

Lemma word_sum_one a x y b : Nat.Even (length a) -> word_sum (a ++ x :: y :: b) = word_sum a + (256 * x + y) + word_sum b.
Proof. intros H. rewrite word_sum_app by done. cbn [word_sum]. lia. Qed.

Lemma fold_carries_spec n w :
  (3 <= n)%nat -> 0 <= w < 2 ^ 32 -> fold_carries n w = if w =? 0 then 0 else (w - 1) mod 65535 + 1.
Proof.
  assert (forall w n, 0 <= w < 65536 -> fold_carries n w = if w =? 0 then 0 else (w - 1) mod 65535 + 1) as Hbase.
  { intros v k Hv. transitivity v.
    - destruct k; cbn [fold_carries]; [done|]. rewrite Z.shiftr_div_pow2 by lia. change (2 ^ 16) with 65536.
      rewrite Z.div_small by lia. reflexivity.
    - destruct (Z.eqb_spec v 0); [done|]. rewrite Z.mod_small; lia. }
  assert (forall w n, 65536 <= w < 2 ^ 32 -> exists w', fold_carries (S n) w = fold_carries n w' /\
            0 < w' /\ w' < w /\ (w' < 131071) /\ (w < 131071 -> w' < 65536) /\ (w' - 1) mod 65535 = (w - 1) mod 65535) as Hstep.
  { intros v k Hv. exists (v mod 65536 + v / 65536). cbn [fold_carries].
    change 65535 with (2 ^ 16 - 1) at 1. rewrite land_ones_mod, Z.shiftr_div_pow2 by lia. change (2 ^ 16) with 65536.
    pose proof (Z.div_mod v 65536 ltac:(lia)). pose proof (Z.mod_pos_bound v 65536 ltac:(lia)).
    assert (1 <= v / 65536 < 65536).
    { split; [apply Z.div_le_lower_bound; lia|]. apply Z.div_lt_upper_bound; [lia|]. change (65536 * 65536) with (2 ^ 32). lia. }
    rewrite (proj2 (Z.eqb_neq (v / 65536) 0)) by lia. split; [done|]. split; [lia|]. split; [lia|]. split; [lia|].
    split; [intros Hs; assert (v / 65536 < 2) by (apply Z.div_lt_upper_bound; lia); lia|].
    replace (v - 1) with (v mod 65536 + v / 65536 - 1 + v / 65536 * 65535) by lia. by rewrite Z.mod_add. }
  intros Hn Hw. destruct (Z.lt_ge_cases w 65536); [apply Hbase; lia|].
  destruct n as [|n]; [lia|]. destruct (Hstep w n ltac:(lia)) as (w1 & -> & ? & ? & ? & _ & E1).
  rewrite (proj2 (Z.eqb_neq w 0)) by lia. rewrite <- E1.
  destruct (Z.lt_ge_cases w1 65536); [rewrite Hbase by lia; by rewrite (proj2 (Z.eqb_neq w1 0)) by lia|].
  destruct n as [|n]; [lia|]. destruct (Hstep w1 n ltac:(lia)) as (w2 & -> & ? & ? & ? & Hs & E2).
  rewrite <- E2. rewrite Hbase by (split; [lia|apply Hs; lia]). by rewrite (proj2 (Z.eqb_neq w2 0)) by lia.
Qed.

Lemma lxor_complement16 x : 0 <= x < 2 ^ 16 -> Z.lxor x 65535 = 65535 - x.
Proof.
  intros H. assert (Z.ldiff x 65535 = 0) as H0.
  { apply Z.bits_inj'. intros n Hn. rewrite Z.ldiff_spec, Z.bits_0. change 65535 with (Z.ones 16).
    rewrite Z.testbit_ones_nonneg by lia. destruct (Z.ltb_spec n 16); [apply andb_false_r|].
    rewrite <- (Z.mod_small x (2 ^ 16)) by done. by rewrite Z.mod_pow2_bits_high. }
  rewrite Z.sub_nocarry_ldiff by done. apply Z.bits_inj'. intros n Hn.
  apply (f_equal (fun z => Z.testbit z n)) in H0. rewrite Z.ldiff_spec, Z.bits_0 in H0.
  rewrite Z.lxor_spec, Z.ldiff_spec. by destruct (Z.testbit x n), (Z.testbit 65535 n).
Qed.

Lemma finish_sum_spec s o :
  0 <= s -> (forall b, o = Some b -> is_u8 b) ->
  let w := s + match o with Some b => 256 * b | None => 0 end in
  s < 2 ^ 32 -> finish_sum (s, o) = if w <? 2 ^ 32 then Done (csum w) else Panicked.
Proof.
  intros Hs Ho w Hs32. unfold finish_sum. cbn [fst snd].
  assert (forall v, 0 <= v < 2 ^ 32 -> Done (Z.lxor (fold_carries 32 v mod 2 ^ 16) 65535) = Done (csum v)) as Hf.
  { intros v Hv. f_equal. rewrite fold_carries_spec by lia. unfold csum.
    assert (0 <= (if v =? 0 then 0 else (v - 1) mod 65535 + 1) < 2 ^ 16).
    { destruct (v =? 0); [lia|]. pose proof (Z.mod_pos_bound (v - 1) 65535 ltac:(lia)). lia. }
    rewrite Z.mod_small by done. by apply lxor_complement16. }
  destruct o as [b|]; unfold w.
  - specialize (Ho b eq_refl). unfold is_u8 in Ho. unfold add32. rewrite Z.shiftl_mul_pow2 by lia.
    replace (b * 2 ^ 8) with (256 * b) by lia. destruct (Z.ltb_spec (s + 256 * b) (2 ^ 32)); [|done].
    cbn [mbind run_bind]. apply Hf. lia.
  - rewrite Z.add_0_r, (proj2 (Z.ltb_lt s (2 ^ 32))) by done. cbn [mbind run_bind]. apply Hf. lia.
Qed.

Lemma sum_words_finish l : forall s, Forall is_u8 l -> 0 <= s < 2 ^ 32 ->
  (sum_words s l ≫= finish_sum) = if s + word_sum l <? 2 ^ 32 then Done (csum (s + word_sum l)) else Panicked.
Proof.
  induction l as [|b|a b l IH] using list_pair_ind; intros s H Hs.
  - cbn [sum_words mbind run_bind word_sum]. apply (finish_sum_spec s None); [lia|done|lia].
  - rewrite Forall_singleton in H. cbn [sum_words mbind run_bind word_sum]. apply finish_sum_spec; [lia| |lia]. by intros ? [= ->].
  - apply Forall_cons in H as [Ha H]. apply Forall_cons in H as [Hb H]. cbn [sum_words word_sum]. unfold is_u8, add32 in *.
    pose proof (word_sum_nonneg l H). destruct (Z.ltb_spec (s + (256 * a + b)) (2 ^ 32)); cbn [mbind run_bind].
    + rewrite (IH (s + (256 * a + b)) H) by lia. by rewrite !Z.add_assoc.
    + by rewrite (proj2 (Z.ltb_ge _ _)) by lia.
Qed.

(** The checksum is the complement of the sum, or a panic when the sum of the
    words does not fit [u32]. *)
Lemma internet_checksum_spec l :
  Forall is_u8 l -> internet_checksum l = if word_sum l <? 2 ^ 32 then Done (csum (word_sum l)) else Panicked.
Proof. intros H. exact (sum_words_finish l 0 H ltac:(lia)). Qed.

Lemma sum_words_app a b : forall s, sum_words s (a ++ b) = (x ← sum_words s a; combine_slice x b).
Proof.
  induction a as [|x|x y a IH] using list_pair_ind; intros s; cbn [app sum_words]; [done|..].
  - cbn [mbind run_bind combine_slice snd fst]. by destruct b as [|y b].
  - destruct (add32 s (256 * x + y)); cbn [mbind run_bind]; [apply IH|done].
Qed.

Lemma combine_slice_app x a b : combine_slice x (a ++ b) = (y ← combine_slice x a; combine_slice y b).
Proof.
  destruct x as [s [p|]]; [|apply sum_words_app]. destruct a as [|c a]; [done|]. cbn [app combine_slice snd fst].
  destruct (add32 s (256 * p + c)); cbn [mbind run_bind]; [apply sum_words_app|done].
Qed.

Lemma combine_slices_concat slices : forall x, combine_slices x slices = combine_slice x (concat slices).
Proof.
  induction slices as [|a slices IH]; intros x; cbn [combine_slices concat].
  - by destruct x as [s [p|]].
  - rewrite combine_slice_app. destruct (combine_slice x a); cbn [mbind run_bind]; [apply IH|done].
Qed.

Lemma checksum_combine_concat slices : checksum_combine slices = internet_checksum (concat slices).
Proof. unfold checksum_combine. by rewrite combine_slices_concat. Qed.

Lemma csum_bound w : 0 <= w -> is_u16 (csum w).
Proof.
  intros H. unfold csum, is_u16. destruct (w =? 0); [lia|]. pose proof (Z.mod_pos_bound (w - 1) 65535 ltac:(lia)). lia.
Qed.

(** Adding the checksum to the sum it was computed from makes it all ones. *)
Lemma csum_cancel w : 0 <= w -> csum (w + csum w) = 0.
Proof.
  intros H. pose proof (csum_bound w H) as Hb. unfold is_u16 in Hb. unfold csum at 1.
  assert ((w + csum w) mod 65535 = 0 /\ 0 < w + csum w) as [Hm Hp].
  { unfold csum. destruct (Z.eqb_spec w 0) as [->|Hw]; [done|].
    pose proof (Z.div_mod (w - 1) 65535 ltac:(lia)). pose proof (Z.mod_pos_bound (w - 1) 65535 ltac:(lia)). split; [|lia].
    replace (w + (65535 - ((w - 1) mod 65535 + 1))) with (((w - 1) / 65535 + 1) * 65535) by lia. by apply Z.mod_mul. }
  rewrite (proj2 (Z.eqb_neq _ 0)) by lia. apply Z.mod_divide in Hm as [k Hk]; [|lia].
  replace (w + csum w - 1) with (65534 + (k - 1) * 65535) by lia. rewrite Z.mod_add by lia. done.
Qed.

(** Sums that differ by less than all ones have different checksums. *)
Lemma csum_injective w w' : 0 <= w -> 0 <= w' -> 0 < Z.abs (w - w') < 65535 -> csum w <> csum w'.
Proof.
  intros H H' Hd E. unfold csum in E.
  assert (forall v, 0 <= v -> exists k, v = (if v =? 0 then 0 else (v - 1) mod 65535 + 1) + 65535 * k) as Hk.
  { intros v Hv. destruct (Z.eqb_spec v 0); [exists 0; lia|]. exists ((v - 1) / 65535).
    pose proof (Z.div_mod (v - 1) 65535 ltac:(lia)). lia. }
  destruct (Hk w H) as [k Hw], (Hk w' H') as [k' Hw']. lia.
Qed.

(** ** Header formats as codecs

    What every header format promises: [co_fields] are the value ranges the
    field types give, [co_plain] says that the header has no options (its
    length field, if any, is the minimum). *)

Class Codec (H : Type) := {
  co_len : nat;
  co_serialize : H -> list Z -> option (list Z);
  co_parse : list Z -> option (H * list Z);
  co_fields : H -> Prop;
  co_plain : H -> Prop;
}.

Class CodecLaws (H : Type) `{Codec H} : Prop := {
  co_short : forall (h : H) buf, (length buf < co_len)%nat -> co_serialize h buf = None /\ co_parse buf = None;
  co_roundtrip : forall (h : H) buf, co_fields h -> co_plain h -> (co_len <= length buf)%nat ->
    exists out, co_serialize h buf = Some out /\ length out = length buf /\ co_parse out = Some (h, drop co_len buf);
  co_exact : forall bytes (h : H) rest, Forall is_u8 bytes -> co_parse bytes = Some (h, rest) ->
    co_fields h /\ co_serialize h bytes = Some bytes /\
    exists off, (co_len <= off <= length bytes)%nat /\ rest = drop off bytes /\ (co_plain h -> off = co_len);
}.

Definition is_arr (n : nat) (l : list Z) : Prop := length l = n /\ Forall is_u8 l.

#[global] Instance eth_codec : Codec EthernetHeader := {|
  co_len := 14; co_serialize := eth_serialize; co_parse := eth_parse;
  co_fields h := is_arr 6 (eth_dst h) /\ is_arr 6 (eth_src h) /\ is_u16 (ether_type h);
  co_plain _ := True |}.

#[global] Instance ipv4_codec : Codec Ipv4Header := {|
  co_len := 20; co_serialize := ipv4_serialize; co_parse := ipv4_parse;
  co_fields h := is_u8 (version_ihl h) /\ is_u8 (dscp_ecn h) /\ is_u16 (total_length h) /\ is_u16 (identification h) /\
    is_u16 (flags_fragment h) /\ is_u8 (ttl h) /\ is_u8 (protocol h) /\ is_u16 (header_checksum h) /\
    is_arr 4 (ip_src h) /\ is_arr 4 (ip_dst h);
  co_plain h := Z.land (version_ihl h) 15 = 5 |}.

#[global] Instance icmp_codec : Codec IcmpHeader := {|
  co_len := 8; co_serialize := icmp_serialize; co_parse := icmp_parse;
  co_fields h := is_u8 (icmp_type h) /\ is_u8 (icmp_code h) /\ is_u16 (icmp_checksum h) /\ is_arr 4 (icmp_rest h);
  co_plain _ := True |}.

#[global] Instance udp_codec : Codec UdpHeader := {|
  co_len := 8; co_serialize := udp_serialize; co_parse := udp_parse;
  co_fields h := is_u16 (udp_src_port h) /\ is_u16 (udp_dst_port h) /\ is_u16 (udp_length h) /\ is_u16 (udp_checksum h);
  co_plain _ := True |}.

#[global] Instance tcp_codec : Codec TcpHeader := {|
  co_len := 20; co_serialize := tcp_serialize; co_parse := tcp_parse;
  co_fields h := is_u16 (src_port h) /\ is_u16 (dst_port h) /\ is_u32 (seq_num h) /\ is_u32 (ack_num h) /\
    is_u16 (data_offset_flags h) /\ is_u16 (window h) /\ is_u16 (tcp_checksum h) /\ is_u16 (urgent_ptr h);
  co_plain h := Z.shiftr (data_offset_flags h) 12 = 5 |}.

#[global] Instance arp_codec : Codec ArpPacket := {|
  co_len := 28; co_serialize := arp_serialize;
  co_parse bytes := p ← arp_parse bytes; Some (p, drop 28 bytes);
  co_fields p := is_u16 (htype p) /\ is_u16 (ptype p) /\ is_u8 (hlen p) /\ is_u8 (plen p) /\ is_u16 (operation p) /\
    is_arr 6 (sender_mac p) /\ is_arr 4 (sender_ip p) /\ is_arr 6 (target_mac p) /\ is_arr 4 (target_ip p);
  co_plain _ := True |}.

Lemma from_to_be_bytes n x : from_be_bytes (to_be_bytes n x) = x mod 2 ^ (8 * Z.of_nat n).
Proof. unfold from_be_bytes, to_be_bytes. rewrite rev_involutive. apply from_to_le_bytes. Qed.

Lemma to_from_be_bytes bs : Forall is_u8 bs -> to_be_bytes (length bs) (from_be_bytes bs) = bs.
Proof.
  intros H. unfold from_be_bytes, to_be_bytes. rewrite <- (length_rev bs), to_from_le_bytes by (by apply Forall_rev).
  apply rev_involutive.
Qed.

Lemma from_be_bytes_bound bs : Forall is_u8 bs -> 0 <= from_be_bytes bs < 2 ^ (8 * Z.of_nat (length bs)).
Proof. intros H. rewrite <- (length_rev bs). apply from_le_bytes_bound. by apply Forall_rev. Qed.

(** A field as its bytes. *)
Lemma be2_bytes x : is_u16 x -> exists a b, to_be_bytes 2 x = [a; b] /\ from_be_bytes [a; b] = x.
Proof. intros H. eexists _, _. split; [reflexivity|]. etransitivity; [apply (from_to_be_bytes 2)|]. by apply Z.mod_small. Qed.

Lemma be4_bytes x : is_u32 x -> exists a b c d, to_be_bytes 4 x = [a; b; c; d] /\ from_be_bytes [a; b; c; d] = x.
Proof.
  intros H. eexists _, _, _, _. split; [reflexivity|]. etransitivity; [apply (from_to_be_bytes 4)|]. by apply Z.mod_small.
Qed.

Lemma arr4_bytes l : is_arr 4 l -> exists a b c d, l = [a; b; c; d].
Proof. intros [H _]. destruct l as [|a [|b [|c [|d [|]]]]]; try done. by exists a, b, c, d. Qed.

Lemma arr6_bytes l : is_arr 6 l -> exists a b c d e f, l = [a; b; c; d; e; f].
Proof. intros [H _]. destruct l as [|a [|b [|c [|d [|e [|f [|]]]]]]]; try done. by exists a, b, c, d, e, f. Qed.

(** Replace every field of a header by its bytes. *)
Ltac field_bytes :=
  repeat match goal with
    | H : is_u16 ?x |- _ => let a := fresh in let b := fresh in let E1 := fresh "Eb" in let E2 := fresh "Ev" in
        destruct (be2_bytes x H) as (a & b & E1 & E2); rewrite ?E1; clear H
    | H : is_u32 ?x |- _ => let a := fresh in let b := fresh in let c := fresh in let d := fresh in
        let E1 := fresh "Eb" in let E2 := fresh "Ev" in
        destruct (be4_bytes x H) as (a & b & c & d & E1 & E2); rewrite ?E1; clear H
    | H : is_arr 4 ?x |- _ => destruct (arr4_bytes x H) as (? & ? & ? & ? & ?); subst x; clear H
    | H : is_arr 6 ?x |- _ => destruct (arr6_bytes x H) as (? & ? & ? & ? & ? & ? & ?); subst x; clear H
    end.

Lemma store_front_done n data buf : (n <= length buf)%nat -> store_front n data buf = Some (data ++ drop n buf).
Proof. intros H. unfold store_front. by rewrite decide_False by lia. Qed.

Lemma store_front_short n data buf : (length buf < n)%nat -> store_front n data buf = None.
Proof. intros H. unfold store_front. by rewrite decide_True by lia. Qed.

(** A field read back from its bytes. *)
Lemma be2_value a b : is_u8 a -> is_u8 b ->
  is_u16 (from_be_bytes [a; b]) /\ to_be_bytes 2 (from_be_bytes [a; b]) = [a; b].
Proof.
  intros Ha Hb. assert (Forall is_u8 [a; b]) as H by (repeat (apply Forall_cons_2; [done|]); by apply Forall_nil_2).
  split; [exact (from_be_bytes_bound _ H)|exact (to_from_be_bytes _ H)].
Qed.

Lemma be4_value a b c d : is_u8 a -> is_u8 b -> is_u8 c -> is_u8 d ->
  is_u32 (from_be_bytes [a; b; c; d]) /\ to_be_bytes 4 (from_be_bytes [a; b; c; d]) = [a; b; c; d].
Proof.
  intros Ha Hb Hc Hd. assert (Forall is_u8 [a; b; c; d]) as H by (repeat (apply Forall_cons_2; [done|]); by apply Forall_nil_2).
  split; [exact (from_be_bytes_bound _ H)|exact (to_from_be_bytes _ H)].
Qed.

(** Serialize over a buffer, then parse: the header fields are made of bytes
    and both sides computed. *)
Ltac codec_round n :=
  rewrite store_front_done by done; eexists; (split; [reflexivity|]);
  match goal with |- context [drop n ?buf] => generalize (length_drop buf n) end;
  field_bytes; match goal with |- context [drop n ?buf] => generalize (drop n buf) end;
  let r := fresh "r" in let Hr := fresh "Hr" in intros r Hr; cbn [app];
  (split; [cbn [length]; lia|]);
  match goal with |- context [decide (length ?l < n)%nat] => rewrite (decide_False (P := (length l < n)%nat)) by (cbn [length]; lia) end.

(** Split off the first bytes of a list that is long enough. *)
Tactic Notation "take_bytes" ident(bytes) ident(Hu) ident(Hl) integer(n) :=
  do n (destruct bytes as [|? bytes]; [exfalso; cbn [length] in Hl; lia|apply Forall_cons in Hu as [? Hu]; cbn [length] in Hl]).

Ltac field_values :=
  repeat match goal with
    | |- context [from_be_bytes [?a; ?b; ?c; ?d]] =>
        let H := fresh in let E := fresh in destruct (be4_value a b c d) as [H E]; [assumption..|];
        rewrite ?E; clear E; generalize dependent (from_be_bytes [a; b; c; d]); intros
    | |- context [from_be_bytes [?a; ?b]] =>
        let H := fresh in let E := fresh in destruct (be2_value a b) as [H E]; [assumption..|];
        rewrite ?E; clear E; generalize dependent (from_be_bytes [a; b]); intros
    end.

Ltac fields_ok :=
  repeat match goal with
    | |- _ /\ _ => split
    | |- is_arr _ _ => split; [done|]
    | |- Forall _ (_ :: _) => apply Forall_cons_2
    | |- Forall _ [] => apply Forall_nil_2
    end; assumption.

#[global] Instance udp_laws : CodecLaws UdpHeader.
Proof.
  split; cbn [co_len co_serialize co_parse co_fields co_plain udp_codec]; unfold udp_serialize, udp_parse, udp_bytes.
  - intros h buf Hl. split; [by apply store_front_short|]. by rewrite decide_True by lia.
  - intros [sp dp ln ck] buf. cbn [udp_src_port udp_dst_port udp_length udp_checksum]. intros (H1 & H2 & H3 & H4) _ Hl.
    codec_round 8%nat. unfold get_be, get_arr. cbn -[from_be_bytes]. rewrite drop_0. congruence.
  - intros bytes h rest Hu Hp. destruct (decide (length bytes < 8)%nat) as [|Hl]; [done|].
    take_bytes bytes Hu Hl 8. unfold get_be, get_arr in Hp. cbn -[from_be_bytes] in Hp. injection Hp as <- <-.
    cbn [udp_src_port udp_dst_port udp_length udp_checksum]. rewrite store_front_done by (cbn [length]; lia).
    cbn -[from_be_bytes to_be_bytes]. field_values.
    split; [done|]. split; [done|]. exists 8%nat. cbn [length]. split; [lia|]. by split.
Qed.

#[global] Instance eth_laws : CodecLaws EthernetHeader.
Proof.
  split; cbn [co_len co_serialize co_parse co_fields co_plain eth_codec]; unfold eth_serialize, eth_parse, eth_bytes.
  - intros h buf Hl. split; [by apply store_front_short|]. by rewrite decide_True by lia.
  - intros [d s t] buf. cbn [eth_dst eth_src ether_type]. intros (H1 & H2 & H3) _ Hl.
    codec_round 14%nat. unfold get_be, get_arr. cbn -[from_be_bytes]. rewrite drop_0. congruence.
  - intros bytes h rest Hu Hp. destruct (decide (length bytes < 14)%nat) as [|Hl]; [done|].
    take_bytes bytes Hu Hl 14. unfold get_be, get_arr in Hp. cbn -[from_be_bytes] in Hp. injection Hp as <- <-.
    cbn [eth_dst eth_src ether_type]. rewrite store_front_done by (cbn [length]; lia).
    cbn -[from_be_bytes to_be_bytes is_arr]. field_values. split; [fields_ok|].
    split; [done|]. exists 14%nat. cbn [length]. split; [lia|]. by split.
Qed.

#[global] Instance icmp_laws : CodecLaws IcmpHeader.
Proof.
  split; cbn [co_len co_serialize co_parse co_fields co_plain icmp_codec]; unfold icmp_serialize, icmp_parse, icmp_bytes.
  - intros h buf Hl. split; [by apply store_front_short|]. by rewrite decide_True by lia.
  - intros [t c k r0] buf. cbn [icmp_type icmp_code icmp_checksum icmp_rest]. intros (H1 & H2 & H3 & H4) _ Hl.
    codec_round 8%nat. unfold get_be, get_arr. cbn -[from_be_bytes]. rewrite drop_0. congruence.
  - intros bytes h rest Hu Hp. destruct (decide (length bytes < 8)%nat) as [|Hl]; [done|].
    take_bytes bytes Hu Hl 8. unfold get_be, get_arr in Hp. cbn -[from_be_bytes] in Hp. injection Hp as <- <-.
    cbn [icmp_type icmp_code icmp_checksum icmp_rest]. rewrite store_front_done by (cbn [length]; lia).
    cbn -[from_be_bytes to_be_bytes is_arr is_u8]. field_values. split; [fields_ok|].
    split; [done|]. exists 8%nat. cbn [length]. split; [lia|]. by split.
Qed.

#[global] Instance arp_laws : CodecLaws ArpPacket.
Proof.
  split; cbn [co_len co_serialize co_parse co_fields co_plain arp_codec]; unfold arp_serialize, arp_parse, arp_bytes.
  - intros h buf Hl. split; [by apply store_front_short|]. by rewrite decide_True by lia.
  - intros [a b c d e f g h i] buf. cbn [htype ptype hlen plen operation sender_mac sender_ip target_mac target_ip].
    intros (H1 & H2 & H3 & H4 & H5 & H6 & H7 & H8 & H9) _ Hl.
    codec_round 28%nat. unfold get_be, get_arr. cbn -[from_be_bytes]. rewrite drop_0. congruence.
  - intros bytes h rest Hu Hp. destruct (decide (length bytes < 28)%nat) as [|Hl]; [done|].
    take_bytes bytes Hu Hl 28. unfold get_be, get_arr in Hp. cbn -[from_be_bytes] in Hp. injection Hp as <- <-.
    cbn [htype ptype hlen plen operation sender_mac sender_ip target_mac target_ip].
    rewrite store_front_done by (cbn [length]; lia).
    cbn -[from_be_bytes to_be_bytes is_arr is_u8]. field_values. split; [fields_ok|].
    split; [done|]. exists 28%nat. cbn [length]. split; [lia|]. by split.
Qed.

#[global] Instance ipv4_laws : CodecLaws Ipv4Header.
Proof.
  split; cbn [co_len co_serialize co_parse co_fields co_plain ipv4_codec]; unfold ipv4_serialize, ipv4_parse, ipv4_bytes.
  - intros h buf Hl. split; [by apply store_front_short|]. by rewrite decide_True by lia.
  - intros [a b c d e f g h i j] buf.
    cbn [version_ihl dscp_ecn total_length identification flags_fragment ttl protocol header_checksum ip_src ip_dst].
    intros (H1 & H2 & H3 & H4 & H5 & H6 & H7 & H8 & H9 & H10) Hp Hl.
    codec_round 20%nat. unfold get_be, get_arr. cbn -[from_be_bytes Z.land Z.to_nat Nat.mul decide drop length].
    rewrite Hp. change (Z.to_nat 5 * 4)%nat with 20%nat. rewrite decide_False by (cbn [length]; lia).
    cbn -[from_be_bytes]. rewrite drop_0. congruence.
  - intros bytes h rest Hu Hp. destruct (decide (length bytes < 20)%nat) as [|Hl]; [done|]. pose proof Hu as Hu'.
    take_bytes bytes Hu Hl 20. unfold get_be, get_arr in Hp. cbn -[from_be_bytes Z.land Z.to_nat Nat.mul decide drop length] in Hp.
    destruct (decide _) as [|Hb] in Hp; [done|]. cbn -[from_be_bytes Z.land Z.to_nat Nat.mul drop] in Hp. injection Hp as <- <-.
    cbn [version_ihl dscp_ecn total_length identification flags_fragment ttl protocol header_checksum ip_src ip_dst].
    rewrite store_front_done by (cbn [length]; lia).
    cbn -[from_be_bytes to_be_bytes is_arr is_u8 Z.land Z.to_nat Nat.mul drop length]. field_values.
    split; [fields_ok|]. split; [done|]. eexists. split; [|split; [done|]]; [lia|].
    intros ->. done.
Qed.

#[global] Instance tcp_laws : CodecLaws TcpHeader.
Proof.
  split; cbn [co_len co_serialize co_parse co_fields co_plain tcp_codec]; unfold tcp_serialize, tcp_parse, tcp_bytes.
  - intros h buf Hl. split; [by apply store_front_short|]. by rewrite decide_True by lia.
  - intros [a b c d e f g h] buf.
    cbn [src_port dst_port seq_num ack_num data_offset_flags window tcp_checksum urgent_ptr].
    intros (H1 & H2 & H3 & H4 & H5 & H6 & H7 & H8) Hp Hl.
    codec_round 20%nat. unfold get_be, get_arr. cbn -[from_be_bytes Z.shiftr Z.to_nat Nat.mul decide drop length].
    match goal with Ev : from_be_bytes _ = e |- _ => rewrite !Ev end.
    rewrite Hp. change (Z.to_nat 5 * 4)%nat with 20%nat. rewrite decide_False by (cbn [length]; lia).
    cbn -[from_be_bytes]. rewrite drop_0. congruence.
  - intros bytes h rest Hu Hp. destruct (decide (length bytes < 20)%nat) as [|Hl]; [done|].
    take_bytes bytes Hu Hl 20. unfold get_be, get_arr in Hp. cbn -[from_be_bytes Z.shiftr Z.to_nat Nat.mul decide drop length] in Hp.
    destruct (decide _) as [|Hb] in Hp; [done|]. cbn -[from_be_bytes Z.shiftr Z.to_nat Nat.mul drop] in Hp. injection Hp as <- <-.
    cbn [src_port dst_port seq_num ack_num data_offset_flags window tcp_checksum urgent_ptr].
    rewrite store_front_done by (cbn [length]; lia).
    cbn -[from_be_bytes to_be_bytes is_arr is_u16 is_u32 Z.shiftr Z.to_nat Nat.mul drop length].
    destruct (be2_value z11 z12) as [Hd Ed]; [assumption..|]. rewrite Ed. set (dof := from_be_bytes [z11; z12]) in *. field_values.
    split; [fields_ok|]. split; [done|]. eexists. split; [|split; [done|]]; [lia|].
    intros ->. done.
Qed.

(** ** Checksums in headers *)

Lemma to_be_bytes_u8 n x : Forall is_u8 (to_be_bytes n x).
Proof. apply Forall_rev, to_le_bytes_u8. Qed.

Lemma word_sum_be2 x l : is_u16 x -> word_sum (to_be_bytes 2 x ++ l) = x + word_sum l.
Proof.
  intros H. unfold is_u16 in H. change (to_be_bytes 2 x) with [x / 256 mod 256; x mod 256]. cbn [app word_sum].
  pose proof (Z.div_mod x 256 ltac:(lia)). rewrite (Z.mod_small (x / 256)); [lia|].
  split; [apply Z.div_pos; lia|]. apply Z.div_lt_upper_bound; lia.
Qed.

(** The checksum of data with a zeroed field, stored in the field, makes the
    checksum of the whole zero. *)
Lemma checksum_field pre post :
  Forall is_u8 pre -> Forall is_u8 post -> Nat.Even (length pre) -> Z.of_nat (length pre) + Z.of_nat (length post) < 131000 ->
  exists ck, internet_checksum (pre ++ [0; 0] ++ post) = Done ck /\ is_u16 ck /\
    internet_checksum (pre ++ to_be_bytes 2 ck ++ post) = Done 0.
Proof.
  intros Hpre Hpost Hev Hlen. pose proof (word_sum_nonneg _ Hpre) as N1. pose proof (word_sum_nonneg _ Hpost) as N2.
  assert (word_sum pre + word_sum post < 2 ^ 32 - 2 ^ 16) as Hb.
  { pose proof (word_sum_bound _ Hpre) as B1. pose proof (word_sum_bound _ Hpost) as B2.
    pose proof (Nat.Div0.mul_div_le (length pre + 1) 2). pose proof (Nat.Div0.mul_div_le (length post + 1) 2). lia. }
  set (w := word_sum pre + word_sum post) in *. pose proof (csum_bound w ltac:(lia)) as Hck. unfold is_u16 in Hck.
  exists (csum w). split; [|split; [done|]].
  - assert (Forall is_u8 (pre ++ [0; 0] ++ post)) as Hall.
    { apply Forall_app. split; [done|]. apply Forall_app. by split; [apply (to_be_bytes_u8 2 0)|]. }
    assert (word_sum (pre ++ [0; 0] ++ post) = w) as Hw by (rewrite word_sum_app by done; cbn; lia).
    rewrite internet_checksum_spec, Hw by done. by rewrite (proj2 (Z.ltb_lt w _)) by lia.
  - assert (Forall is_u8 (pre ++ to_be_bytes 2 (csum w) ++ post)) as Hall.
    { apply Forall_app. split; [done|]. apply Forall_app. by split; [apply to_be_bytes_u8|]. }
    assert (word_sum (pre ++ to_be_bytes 2 (csum w) ++ post) = w + csum w) as Hw
      by (rewrite word_sum_app, word_sum_be2 by done; unfold w; lia).
    rewrite internet_checksum_spec, Hw, csum_cancel by (done || lia). by rewrite (proj2 (Z.ltb_lt _ _)) by lia.
Qed.

(** The bytes before and after the checksum field of each header. *)
Definition ipv4_pre (h : Ipv4Header) : list Z :=
  [version_ihl h; dscp_ecn h] ++ to_be_bytes 2 (total_length h) ++ to_be_bytes 2 (identification h) ++
  to_be_bytes 2 (flags_fragment h) ++ [ttl h; protocol h].
Definition tcp_pre (h : TcpHeader) : list Z :=
  to_be_bytes 2 (src_port h) ++ to_be_bytes 2 (dst_port h) ++ to_be_bytes 4 (seq_num h) ++ to_be_bytes 4 (ack_num h) ++
  to_be_bytes 2 (data_offset_flags h) ++ to_be_bytes 2 (window h).

Lemma ipv4_zeroed h : is_arr 4 (ip_src h) -> is_arr 4 (ip_dst h) ->
  in_zeroed 20 (ipv4_serialize h) = ipv4_pre h ++ to_be_bytes 2 (header_checksum h) ++ ip_src h ++ ip_dst h.
Proof.
  intros H1 H2. unfold in_zeroed, ipv4_serialize. rewrite store_front_done by (rewrite length_replicate; lia).
  cbn [default from_option]. rewrite drop_replicate. cbn [replicate Nat.sub]. rewrite app_nil_r.
  unfold ipv4_bytes, ipv4_pre. by rewrite <- !app_assoc.
Qed.

Lemma tcp_zeroed h :
  in_zeroed 20 (tcp_serialize h) = tcp_pre h ++ to_be_bytes 2 (tcp_checksum h) ++ to_be_bytes 2 (urgent_ptr h).
Proof. reflexivity. Qed.

Lemma udp_zeroed h :
  in_zeroed 8 (udp_serialize h) =
    (to_be_bytes 2 (udp_src_port h) ++ to_be_bytes 2 (udp_dst_port h) ++ to_be_bytes 2 (udp_length h)) ++
    to_be_bytes 2 (udp_checksum h).
Proof. reflexivity. Qed.

Lemma icmp_zeroed h : is_arr 4 (icmp_rest h) ->
  in_zeroed 8 (icmp_serialize h) = [icmp_type h; icmp_code h] ++ to_be_bytes 2 (icmp_checksum h) ++ icmp_rest h.
Proof.
  intros H1. unfold in_zeroed, icmp_serialize. rewrite store_front_done by (rewrite length_replicate; lia).
  cbn [default from_option]. rewrite drop_replicate. cbn [replicate Nat.sub]. by rewrite app_nil_r.
Qed.

(** A pseudo-header as the code builds it. *)
Definition pseudo_ok (p : PseudoHeader) : Prop :=
  is_arr 4 (ph_src p) /\ is_arr 4 (ph_dst p) /\ is_u8 (ph_zero p) /\ is_u8 (ph_protocol p) /\ is_u16 (ph_length p).

Lemma pseudo_bytes_ok p : pseudo_ok p -> length (pseudo_bytes p) = 12%nat /\ Forall is_u8 (pseudo_bytes p).
Proof.
  intros ([L1 H1] & [L2 H2] & H3 & H4 & _). unfold pseudo_bytes. split.
  - rewrite !length_app, L1, L2. done.
  - repeat (apply Forall_app; split; [done|]). apply Forall_app. split; [|apply to_be_bytes_u8].
    by repeat (apply Forall_cons_2; [done|]).
Qed.

Lemma ipv4_checksum_ok h : co_fields h ->
  exists ck, ipv4_compute_checksum h = Done ck /\ is_u16 ck /\
    ipv4_verify_checksum (set_header_checksum ck h) = Done true /\
    internet_checksum (ipv4_bytes (set_header_checksum ck h)) = Done 0.
Proof.
  intros (H1 & H2 & H3 & H4 & H5 & H6 & H7 & H8 & H9 & H10).
  destruct (checksum_field (ipv4_pre h) (ip_src h ++ ip_dst h)) as (ck & E & Hck & E0).
  - unfold ipv4_pre. do 2 (apply Forall_cons_2; [done|]). cbn [app]. do 3 (apply Forall_app; split; [apply to_be_bytes_u8|]).
    by do 2 (apply Forall_cons_2; [done|]).
  - apply Forall_app. by split; [apply H9|apply H10].
  - by exists 5%nat.
  - rewrite !length_app. destruct H9 as [-> _], H10 as [-> _]. cbn. lia.
  - assert (ipv4_compute_checksum h = Done ck) as Ec by (unfold ipv4_compute_checksum; by rewrite ipv4_zeroed).
    exists ck. split_and!; [done|done|..].
    + unfold ipv4_verify_checksum. change (ipv4_compute_checksum (set_header_checksum ck h)) with (ipv4_compute_checksum h).
      rewrite Ec. cbn. by rewrite Z.eqb_refl.
    + rewrite <- E0. f_equal.
Qed.

Lemma tcp_pre_ok h : length (tcp_pre h) = 16%nat /\ Forall is_u8 (tcp_pre h).
Proof. split; [reflexivity|]. unfold tcp_pre. do 5 (apply Forall_app; split; [apply to_be_bytes_u8|]). apply to_be_bytes_u8. Qed.

Lemma tcp_checksum_ok h p payload : co_fields h -> pseudo_ok p -> Forall is_u8 payload -> Z.of_nat (length payload) < 130000 ->
  exists ck, tcp_compute_checksum h p payload = Done ck /\ is_u16 ck /\
    tcp_verify_checksum (set_tcp_checksum ck h) p payload = Done true /\
    checksum_combine [pseudo_bytes p; tcp_bytes (set_tcp_checksum ck h); payload] = Done 0.
Proof.
  intros Hf Hp Hu Hl. destruct (pseudo_bytes_ok p Hp) as [Lp Up], (tcp_pre_ok h) as [Lh Uh].
  destruct (checksum_field (pseudo_bytes p ++ tcp_pre h) (to_be_bytes 2 (urgent_ptr h) ++ payload)) as (ck & E & Hck & E0).
  - by apply Forall_app.
  - apply Forall_app. split; [apply to_be_bytes_u8|done].
  - rewrite length_app, Lp, Lh. by exists 14%nat.
  - rewrite !length_app, Lp, Lh. change (length (to_be_bytes 2 (urgent_ptr h))) with 2%nat. lia.
  - assert (tcp_compute_checksum h p payload = Done ck) as Ec.
    { unfold tcp_compute_checksum. rewrite checksum_combine_concat, tcp_zeroed. cbn [concat].
      rewrite app_nil_r. rewrite <- E, <- !app_assoc. done. }
    exists ck. split_and!; [done|done|..].
    + unfold tcp_verify_checksum.
      change (tcp_compute_checksum (set_tcp_checksum ck h) p payload) with (tcp_compute_checksum h p payload).
      rewrite Ec. cbn. by rewrite Z.eqb_refl.
    + rewrite checksum_combine_concat, <- E0. cbn [concat]. rewrite app_nil_r. f_equal. by rewrite <- !app_assoc.
Qed.

Lemma udp_checksum_ok h p payload : pseudo_ok p -> Forall is_u8 payload -> Z.of_nat (length payload) < 130000 ->
  exists ck, udp_compute_checksum h p payload = Done ck /\ is_u16 ck /\
    forall h', udp_src_port h' = udp_src_port h -> udp_dst_port h' = udp_dst_port h -> udp_length h' = udp_length h ->
      udp_checksum h' = ck -> udp_verify_checksum h' p payload = Done true /\
        checksum_combine [pseudo_bytes p; udp_bytes h'; payload] = Done 0.
Proof.
  intros Hp Hu Hl. destruct (pseudo_bytes_ok p Hp) as [Lp Up].
  set (pre := to_be_bytes 2 (udp_src_port h) ++ to_be_bytes 2 (udp_dst_port h) ++ to_be_bytes 2 (udp_length h)).
  destruct (checksum_field (pseudo_bytes p ++ pre) payload) as (ck & E & Hck & E0).
  - apply Forall_app. split; [done|]. unfold pre. do 2 (apply Forall_app; split; [apply to_be_bytes_u8|]). apply to_be_bytes_u8.
  - done.
  - rewrite length_app, Lp. by exists 9%nat.
  - rewrite !length_app, Lp. change (length pre) with 6%nat. lia.
  - assert (forall h', udp_src_port h' = udp_src_port h -> udp_dst_port h' = udp_dst_port h -> udp_length h' = udp_length h ->
              udp_compute_checksum h' p payload = Done ck) as Ec.
    { intros h' E1 E2 E3. unfold udp_compute_checksum. rewrite checksum_combine_concat, udp_zeroed.
      cbn [concat udp_src_port udp_dst_port udp_length udp_checksum]. rewrite app_nil_r, E1, E2, E3. fold pre.
      rewrite <- E, <- !app_assoc. done. }
    exists ck. split_and!; [by apply Ec|done|]. intros h' E1 E2 E3 E4. split.
    + unfold udp_verify_checksum. rewrite Ec by done. cbn. by rewrite E4, Z.eqb_refl.
    + rewrite checksum_combine_concat, <- E0. cbn [concat]. rewrite app_nil_r. f_equal. unfold udp_bytes.
      rewrite E1, E2, E3, E4. unfold pre. by rewrite <- !app_assoc.
Qed.

Lemma icmp_checksum_ok h payload : co_fields h -> Forall is_u8 payload -> Z.of_nat (length payload) < 130000 ->
  exists ck, icmp_compute_checksum h payload = Done ck /\ is_u16 ck /\
    forall h', icmp_type h' = icmp_type h -> icmp_code h' = icmp_code h -> icmp_rest h' = icmp_rest h ->
      icmp_checksum h' = ck -> icmp_verify_checksum h' payload = Done true /\
        checksum_combine [icmp_bytes h'; payload] = Done 0.
Proof.
  intros (Ht & Hc & _ & Hr) Hu Hl.
  destruct (checksum_field [icmp_type h; icmp_code h] (icmp_rest h ++ payload)) as (ck & E & Hck & E0).
  - by do 2 (apply Forall_cons_2; [done|]).
  - apply Forall_app. by split; [apply Hr|].
  - by exists 1%nat.
  - rewrite length_app. destruct Hr as [-> _]. cbn [length]. lia.
  - assert (forall h', icmp_type h' = icmp_type h -> icmp_code h' = icmp_code h -> icmp_rest h' = icmp_rest h ->
              icmp_compute_checksum h' payload = Done ck) as Ec.
    { intros h' E1 E2 E3. unfold icmp_compute_checksum. rewrite checksum_combine_concat, icmp_zeroed by (cbn; by rewrite E3).
      cbn [concat icmp_type icmp_code icmp_rest icmp_checksum]. rewrite app_nil_r, E1, E2, E3. by rewrite <- E, <- !app_assoc. }
    exists ck. split_and!; [by apply Ec|done|]. intros h' E1 E2 E3 E4. split.
    + unfold icmp_verify_checksum. rewrite Ec by done. cbn. by rewrite E4, Z.eqb_refl.
    + rewrite checksum_combine_concat, <- E0. cbn [concat]. rewrite app_nil_r. f_equal. unfold icmp_bytes.
      rewrite E1, E2, E3, E4. by rewrite <- !app_assoc.
Qed.

(** ** Packets *)

Lemma zeroed_bytes n (data : list Z) : length data = n -> in_zeroed n (store_front n data) = data.
Proof.
  intros H. unfold in_zeroed. rewrite store_front_done by (rewrite length_replicate; lia).
  cbn [default from_option]. by rewrite drop_ge, app_nil_r by (rewrite length_replicate; lia).
Qed.

Lemma ipv4_bytes_length h : is_arr 4 (ip_src h) -> is_arr 4 (ip_dst h) -> length (ipv4_bytes h) = 20%nat.
Proof. intros [L1 _] [L2 _]. unfold ipv4_bytes. rewrite !length_app, L1, L2. done. Qed.

(** Parsing a plain serialized header followed by anything. *)
Lemma ipv4_parse_bytes h rest : co_fields h -> co_plain h -> ipv4_parse (ipv4_bytes h ++ rest) = Some (h, rest).
Proof.
  intros Hf Hp. destruct (co_roundtrip h (replicate 20 0 ++ rest) Hf Hp) as (out & Eo & _ & E).
  { rewrite length_app, length_replicate. cbn. lia. }
  cbn [co_serialize co_parse co_len ipv4_codec] in Eo, E. unfold ipv4_serialize in Eo.
  rewrite store_front_done in Eo by (rewrite length_app, length_replicate; lia). injection Eo as <-. exact E.
Qed.

Lemma tcp_parse_bytes h rest : co_fields h -> co_plain h -> tcp_parse (tcp_bytes h ++ rest) = Some (h, rest).
Proof.
  intros Hf Hp. destruct (co_roundtrip h (replicate 20 0 ++ rest) Hf Hp) as (out & Eo & _ & E).
  { rewrite length_app, length_replicate. cbn. lia. }
  cbn [co_serialize co_parse co_len tcp_codec] in Eo, E. unfold tcp_serialize in Eo.
  rewrite store_front_done in Eo by (rewrite length_app, length_replicate; lia). injection Eo as <-. exact E.
Qed.

Lemma ipv4_packet_roundtrip src dst proto t ident payload :
  is_arr 4 src -> is_arr 4 dst -> is_u8 proto -> is_u8 t -> is_u16 ident ->
  exists hdr, build_ipv4_packet src dst proto t ident payload = Done (ipv4_bytes hdr ++ payload) /\
    length (ipv4_bytes hdr) = 20%nat /\ ip_src hdr = src /\ ip_dst hdr = dst /\ protocol hdr = proto /\ ttl hdr = t /\
    identification hdr = ident /\ total_length hdr = Z.min (20 + Z.of_nat (length payload)) (2 ^ 16 - 1) /\
    forall pad, parse_ipv4_packet (ipv4_bytes hdr ++ payload ++ pad) = Done (Some (hdr, payload ++ pad)).
Proof.
  intros Hs Hd Hp Ht Hi. unfold build_ipv4_packet. set (h := {| version_ihl := _ |}).
  assert (total_length h = Z.min (20 + Z.of_nat (length payload)) (2 ^ 16 - 1)) as Htot.
  { cbn. destruct (Z.ltb_spec (20 + Z.of_nat (length payload)) (2 ^ 16)); cbn in *; lia. }
  assert (co_fields h) as Hf.
  { cbn [co_fields ipv4_codec]. rewrite Htot. cbn. unfold is_u8, is_u16 in *. split_and!; done || lia. }
  destruct (ipv4_checksum_ok h Hf) as (ck & -> & Hck & Hv & _). cbn [mbind run_bind]. exists (set_header_checksum ck h).
  assert (co_fields (set_header_checksum ck h)) as Hf'.
  { destruct Hf as (H1 & H2 & H3 & H4 & H5 & H6 & H7 & _ & H9 & H10). cbn [co_fields ipv4_codec]. by split_and!. }
  unfold ipv4_serialize. rewrite zeroed_bytes by (by apply ipv4_bytes_length). split; [done|].
  split; [by apply ipv4_bytes_length|]. split_and!; try done. intros pad. unfold parse_ipv4_packet.
  rewrite ipv4_parse_bytes by done. rewrite Hv. done.
Qed.

Definition segment_pseudo (src_ip dst_ip payload : list Z) : PseudoHeader :=
  {| ph_src := src_ip; ph_dst := dst_ip; ph_zero := 0; ph_protocol := 6;
     ph_length := (20 + Z.of_nat (length payload)) mod 2 ^ 16 |}.

Lemma flags_word f : is_u8 f ->
  is_u16 (Z.lor (Z.shiftl 5 12) f) /\ Z.shiftr (Z.lor (Z.shiftl 5 12) f) 12 = 5 /\ Z.land (Z.lor (Z.shiftl 5 12) f) 255 = f.
Proof.
  unfold is_u8. intros H. assert (Z.lor (Z.shiftl 5 12) f = 20480 + f) as ->.
  { change (Z.shiftl 5 12) with 20480. rewrite <- Z.add_lor_land. enough (Z.land 20480 f = 0) by lia.
    apply Z.bits_inj'. intros n Hn. rewrite Z.land_spec, Z.bits_0. destruct (Z.lt_ge_cases n 12).
    - change 20480 with (5 * 2 ^ 12). rewrite Z.mul_pow2_bits_low by lia. done.
    - rewrite <- (Z.mod_small f (2 ^ 8)) by lia. rewrite Z.mod_pow2_bits_high by lia. apply andb_false_r. }
  split; [unfold is_u16; lia|]. split.
  - rewrite Z.shiftr_div_pow2 by lia. change (2 ^ 12) with 4096. symmetry. apply (Z.div_unique_pos _ _ _ f); lia.
  - change 255 with (2 ^ 8 - 1). rewrite land_ones_mod by lia. symmetry. apply (Z.mod_unique_pos _ _ 80); lia.
Qed.

(** What [build_tcp_segment] puts in the TCP header. *)
Definition segment_header (sp dp seq ack flags win ck : Z) : TcpHeader :=
  {| src_port := sp; dst_port := dp; seq_num := seq; ack_num := ack; data_offset_flags := Z.lor (Z.shiftl 5 12) flags;
     window := win; tcp_checksum := ck; urgent_ptr := 0 |}.

Lemma tcp_segment_roundtrip src dst sp dp seq ack flags win payload :
  is_arr 4 src -> is_arr 4 dst -> is_u16 sp -> is_u16 dp -> is_u32 seq -> is_u32 ack -> is_u8 flags -> is_u16 win ->
  Forall is_u8 payload -> Z.of_nat (length payload) < 130000 ->
  exists ih ck, let th := segment_header sp dp seq ack flags win ck in
    build_tcp_segment src dst sp dp seq ack flags win payload = Done (ipv4_bytes ih ++ tcp_bytes th ++ payload) /\
    ip_src ih = src /\ ip_dst ih = dst /\ protocol ih = 6 /\ tcp_flags th = flags /\
    tcp_verify_checksum th (segment_pseudo src dst payload) payload = Done true /\
    forall pad, parse_ipv4_packet (ipv4_bytes ih ++ tcp_bytes th ++ payload ++ pad) = Done (Some (ih, tcp_bytes th ++ payload ++ pad)) /\
      tcp_parse (tcp_bytes th ++ payload ++ pad) = Some (th, payload ++ pad).
Proof.
  intros Hs Hd H1 H2 H3 H4 H5 H6 Hu Hl. destruct (flags_word flags H5) as (Hw1 & Hw2 & Hw3).
  assert (forall ck, is_u16 ck -> co_fields (segment_header sp dp seq ack flags win ck)) as Hf.
  { intros ck Hck. cbn [co_fields tcp_codec segment_header src_port dst_port seq_num ack_num data_offset_flags window
      tcp_checksum urgent_ptr]. by split_and!. }
  assert (is_u16 0) as H0 by done.
  destruct (tcp_checksum_ok (segment_header sp dp seq ack flags win 0) (segment_pseudo src dst payload) payload (Hf 0 H0))
    as (ck & Ec & Hck & Hv & _); [|done|done|].
  { unfold pseudo_ok. cbn. split_and!; try done. apply Z.mod_pos_bound. lia. }
  destruct (ipv4_packet_roundtrip src dst 6 64 0 (tcp_bytes (segment_header sp dp seq ack flags win ck) ++ payload))
    as (ih & Eb & _ & E1 & E2 & E3 & _ & _ & _ & Hp); try done.
  exists ih, ck. intros th. split.
  { unfold build_tcp_segment. fold (segment_pseudo src dst payload). fold (segment_header sp dp seq ack flags win 0).
    rewrite Ec. cbn [mbind run_bind]. unfold tcp_serialize. rewrite zeroed_bytes by reflexivity. exact Eb. }
  split; [done|]. split; [done|]. split; [done|]. split; [exact Hw3|]. split; [exact Hv|]. intros pad.
  split; [rewrite app_assoc with (l := tcp_bytes th); rewrite Hp; by rewrite <- app_assoc|].
  apply tcp_parse_bytes; [by apply Hf|exact Hw2].
Qed.

(** ** Address blocks and routes *)

(** The first [prefix_len] bits of both addresses agree. *)
Definition prefix_match (c : Cidr) (addr : list Z) : bool :=
  from_be_bytes addr / 2 ^ (32 - prefix_len c) =? from_be_bytes (cidr_addr c) / 2 ^ (32 - prefix_len c).

Definition cidr_ok (c : Cidr) : Prop := is_arr 4 (cidr_addr c) /\ 0 <= prefix_len c <= 32.

Lemma land_high_bits x k : is_u32 x -> 0 <= k < 32 -> Z.land x (Z.shiftl u32_max k mod 2 ^ 32) = x / 2 ^ k * 2 ^ k.
Proof.
  unfold is_u32. intros Hx Hk. apply Z.bits_inj'. intros n Hn. rewrite Z.land_spec.
  destruct (Z.lt_ge_cases n k) as [Hnk|Hnk].
  { rewrite Z.mul_pow2_bits_low, Z.mod_pow2_bits_low, Z.shiftl_spec_low by lia. apply andb_false_r. }
  replace (Z.testbit (x / 2 ^ k * 2 ^ k) n) with (Z.testbit x n)
    by (rewrite Z.mul_pow2_bits by lia; rewrite Z.div_pow2_bits by lia; f_equal; lia).
  destruct (Z.lt_ge_cases n 32) as [H32|H32].
  - rewrite Z.mod_pow2_bits_low, Z.shiftl_spec by lia. change u32_max with (Z.ones 32).
    rewrite Z.ones_spec_low by lia. apply andb_true_r.
  - rewrite <- (Z.mod_small x (2 ^ 32)) by done. by rewrite !Z.mod_pow2_bits_high by lia.
Qed.

Lemma arr4_u32 l : is_arr 4 l -> is_u32 (from_be_bytes l).
Proof. intros [Hl Hu]. pose proof (from_be_bytes_bound l Hu) as H. by rewrite Hl in H. Qed.

Lemma cidr_contains_spec c addr :
  cidr_ok c -> is_arr 4 addr -> cidr_contains c addr = Done (prefix_match c addr).
Proof.
  intros [Ha Hp] Haddr. apply arr4_u32 in Ha, Haddr. unfold cidr_contains, network_addr, netmask, prefix_match.
  destruct (Z.eqb_spec (prefix_len c) 0) as [->|Hne]; cbn [mbind run_bind].
  - f_equal. unfold is_u32 in *. change (2 ^ (32 - 0)) with (2 ^ 32). rewrite !Z.div_small by done. by rewrite !Z.land_0_r.
  - rewrite (proj2 (Z.ltb_ge 32 _)) by lia. cbn [mbind run_bind]. f_equal. rewrite !land_high_bits by (done || lia).
    assert (0 < 2 ^ (32 - prefix_len c)) by (apply Z.pow_pos_nonneg; lia). apply eq_true_iff_eq. rewrite !Z.eqb_eq.
    split; [|congruence]. intros E. by apply Z.mul_cancel_r in E; [|lia].
Qed.

Lemma candidates_spec dst t : forall i, is_arr 4 dst -> Forall (fun r => cidr_ok (destination r)) t ->
  exists cs, candidates dst i t = Done cs /\
    forall k, k ∈ cs <-> exists j r, k = (i + j)%nat /\ t !! j = Some r /\ prefix_match (destination r) dst = true.
Proof.
  induction t as [|r t IH]; intros i Hd Ht; cbn [candidates].
  { exists []. split; [done|]. intros k. split; [by intros ?%elem_of_nil|by intros (j & r & _ & ? & _)]. }
  apply Forall_cons in Ht as [Hr Ht]. rewrite cidr_contains_spec by done. cbn [mbind run_bind].
  destruct (IH (S i) Hd Ht) as (cs & -> & Hcs). cbn [mbind run_bind]. eexists. split; [done|]. intros k.
  rewrite elem_of_app, Hcs. split.
  - intros [Hk|(j & r' & -> & Hj & Hm)]; [|exists (S j), r'; split; [lia|done]].
    destruct (prefix_match (destination r) dst) eqn:E; [|by apply elem_of_nil in Hk].
    apply list_elem_of_singleton in Hk as ->. exists 0%nat, r. split; [lia|done].
  - intros ([|j] & r' & -> & Hj & Hm); cbn in Hj.
    + injection Hj as ->. left. rewrite Hm. apply list_elem_of_singleton. lia.
    + right. exists j, r'. split; [lia|done].
Qed.

(** What Rust's [sort_unstable_by] promises of a comparison that orders the
    elements it is given: a sorted permutation. *)
Definition sorts (sort : (nat -> nat -> bool) -> list nat -> list nat) : Prop :=
  forall (le : nat -> nat -> bool) l,
    (forall a b, a ∈ l -> b ∈ l -> le a b = true \/ le b a = true) ->
    (forall a b c, a ∈ l -> b ∈ l -> c ∈ l -> le a b = true -> le b c = true -> le a c = true) ->
    Permutation (sort le l) l /\ StronglySorted (fun a b => le a b = true) (sort le l).

Definition route_better (r r' : Route) : Prop :=
  prefix_len (destination r') < prefix_len (destination r) \/
  (prefix_len (destination r') = prefix_len (destination r) /\ metric r <= metric r').

Lemma route_le_spec t a b ra rb : t !! a = Some ra -> t !! b = Some rb -> route_le t a b = true <-> route_better ra rb.
Proof.
  intros Ha Hb. unfold route_le, route_better. rewrite Ha, Hb, orb_true_iff, andb_true_iff, Z.ltb_lt, Z.eqb_eq, Z.leb_le. done.
Qed.

Lemma route_lookup_spec sort t dst :
  sorts sort -> is_arr 4 dst -> Forall (fun r => cidr_ok (destination r)) t ->
  exists res, route_lookup sort t dst = Done res /\
    match res with
    | None => forall r, r ∈ t -> prefix_match (destination r) dst = false
    | Some r => r ∈ t /\ prefix_match (destination r) dst = true /\
        forall r', r' ∈ t -> prefix_match (destination r') dst = true -> route_better r r'
    end.
Proof.
  unfold RoutingTable in t. intros Hsort Hd Ht. unfold route_lookup, RoutingTable. destruct (candidates_spec dst t 0 Hd Ht) as (cs & -> & Hcs).
  cbn [mbind run_bind]. eexists. split; [reflexivity|].
  assert (forall a, a ∈ cs -> exists r, t !! a = Some r /\ prefix_match (destination r) dst = true) as Hin.
  { intros a (j & r & -> & H)%Hcs. by exists r. }
  destruct (Hsort (route_le t) cs) as [Hperm Hss].
  { intros a b (ra & Ha & _)%Hin (rb & Hb & _)%Hin. rewrite (route_le_spec _ _ _ _ _ Ha Hb), (route_le_spec _ _ _ _ _ Hb Ha).
    unfold route_better. lia. }
  { intros a b c (ra & Ha & _)%Hin (rb & Hb & _)%Hin (rc & Hc & _)%Hin.
    rewrite (route_le_spec _ _ _ _ _ Ha Hb), (route_le_spec _ _ _ _ _ Hb Hc), (route_le_spec _ _ _ _ _ Ha Hc).
    unfold route_better. lia. }
  destruct (sort (route_le t) cs) as [|i rest] eqn:Es; cbn [head hd_error mbind option_bind].
  - apply Permutation_nil_l in Hperm as <-. intros r (j & Hj)%list_elem_of_lookup.
    destruct (prefix_match (destination r) dst) eqn:E; [|done]. destruct (elem_of_nil (A := nat) j) as [H _]. destruct H.
    apply Hcs. by exists j, r.
  - assert (i ∈ cs) as Hi by (rewrite <- Hperm; apply list_elem_of_here). destruct (Hin i Hi) as (r & Hr & Hm). rewrite Hr.
    split; [by eapply list_elem_of_lookup_2|]. split; [done|]. intros r' (j & Hj)%list_elem_of_lookup Hm'.
    assert (j ∈ i :: rest) as Hjin by (rewrite Hperm; apply Hcs; by exists j, r').
    apply elem_of_cons in Hjin as [->|Hjin].
    + assert (r' = r) as -> by congruence. unfold route_better. lia.
    + apply StronglySorted_inv in Hss as [_ Hall]. rewrite Forall_forall in Hall. specialize (Hall j Hjin).
      by apply (route_le_spec t i j r r' Hr Hj).
Qed.

(** ** Theorems *)

(** Codecs: for each of the Ethernet, IPv4, ICMP, UDP, TCP and ARP formats,
    a header without options written into a buffer of at least its length
    parses back to itself and to the rest of the buffer, shorter buffers are
    refused both ways, and a header parsed from any bytes has fields in range,
    serializes back to the same bytes, and leaves as payload what follows the
    header length it states. *)
Theorem header_codecs_roundtrip :
  CodecLaws EthernetHeader /\ CodecLaws Ipv4Header /\ CodecLaws IcmpHeader /\ CodecLaws UdpHeader /\
  CodecLaws TcpHeader /\ CodecLaws ArpPacket.
Proof. split_and!; apply _. Qed.

(** Checksum: combining slices is the checksum of their concatenation
    (panics included); no checksum of data below 130,000 bytes panics; the
    value stored by each protocol verifies and makes the ones'-complement sum
    of the data all ones; and changing any one 16-bit word of the data, other
    than between its two zeroes, changes the checksum. *)
Theorem checksum_sound :
  (forall slices, checksum_combine slices = internet_checksum (concat slices)) /\
  (forall h, co_fields h -> exists ck, ipv4_compute_checksum h = Done ck /\
     ipv4_verify_checksum (set_header_checksum ck h) = Done true /\
     internet_checksum (ipv4_bytes (set_header_checksum ck h)) = Done 0) /\
  (forall h p payload, co_fields h -> pseudo_ok p -> Forall is_u8 payload -> Z.of_nat (length payload) < 130000 ->
     exists ck, tcp_compute_checksum h p payload = Done ck /\
       tcp_verify_checksum (set_tcp_checksum ck h) p payload = Done true /\
       internet_checksum (pseudo_bytes p ++ tcp_bytes (set_tcp_checksum ck h) ++ payload) = Done 0) /\
  (forall pre post x y x' y', Forall is_u8 (pre ++ [x; y; x'; y'] ++ post) -> Nat.Even (length pre) ->
     Z.of_nat (length pre) + Z.of_nat (length post) < 130000 ->
     0 < Z.abs ((256 * x + y) - (256 * x' + y')) < 65535 ->
     internet_checksum (pre ++ [x; y] ++ post) <> internet_checksum (pre ++ [x'; y'] ++ post)).
Proof.
  split; [apply checksum_combine_concat|]. split.
  { intros h Hf. destruct (ipv4_checksum_ok h Hf) as (ck & H1 & _ & H2 & H3). by exists ck. }
  split.
  { intros h p payload Hf Hp Hu Hl. destruct (tcp_checksum_ok h p payload Hf Hp Hu Hl) as (ck & H1 & _ & H2 & H3).
    exists ck. split; [done|]. split; [done|]. rewrite checksum_combine_concat in H3. cbn [concat] in H3.
    by rewrite app_nil_r in H3. }
  intros pre post x y x' y' Hu Hev Hl Hd. apply Forall_app in Hu as [Hpre Hu]. cbn [app] in Hu.
  do 4 (apply Forall_cons in Hu as [? Hu]).
  assert (forall a b, is_u8 a -> is_u8 b -> exists w, w = word_sum pre + (256 * a + b) + word_sum post /\
            internet_checksum (pre ++ [a; b] ++ post) = Done (csum w) /\ 0 <= w) as Hs.
  { intros a b Ha Hb. eexists. split; [reflexivity|]. cbn [app]. pose proof (word_sum_nonneg _ Hpre). pose proof (word_sum_nonneg _ Hu).
    pose proof (word_sum_bound _ Hpre). pose proof (word_sum_bound _ Hu). unfold is_u8 in *.
    pose proof (Nat.Div0.mul_div_le (length pre + 1) 2). pose proof (Nat.Div0.mul_div_le (length post + 1) 2).
    rewrite internet_checksum_spec, word_sum_one, (proj2 (Z.ltb_lt _ _)); [split; [done|lia]|lia|done|].
    apply Forall_app. split; [done|]. by do 2 (apply Forall_cons_2; [done|]). }
  destruct (Hs x y) as (w & Ew & -> & Hw); [done..|]. destruct (Hs x' y') as (w' & Ew' & -> & Hw'); [done..|].
  intros [= E]. revert E. apply csum_injective; lia.
Qed.

(** Packets: building a TCP segment never panics below 130,000 bytes of
    payload; the packet is an IPv4 header, a TCP header and the payload, and
    parsing it, with anything behind it, gives back the addresses, ports,
    numbers, flags and window, a checksum that verifies over the payload, and
    as payload everything that follows the headers: the total length field is
    not used to cut off what a link layer appended. *)
Theorem tcp_packet_roundtrip (src dst : list Z) (sp dp seq ack flags win : Z) (payload pad : list Z)
    (Hs : is_arr 4 src) (Hd : is_arr 4 dst) (Hsp : is_u16 sp) (Hdp : is_u16 dp) (Hseq : is_u32 seq) (Hack : is_u32 ack)
    (Hfl : is_u8 flags) (Hw : is_u16 win) (Hu : Forall is_u8 payload) (Hl : Z.of_nat (length payload) < 130000) :
  exists pkt ih seg th, build_tcp_segment src dst sp dp seq ack flags win payload = Done pkt /\
    parse_ipv4_packet (pkt ++ pad) = Done (Some (ih, seg ++ pad)) /\ tcp_parse (seg ++ pad) = Some (th, payload ++ pad) /\
    ip_src ih = src /\ ip_dst ih = dst /\ protocol ih = 6 /\
    src_port th = sp /\ dst_port th = dp /\ seq_num th = seq /\ ack_num th = ack /\ tcp_flags th = flags /\ window th = win /\
    tcp_verify_checksum th (segment_pseudo src dst payload) payload = Done true.
Proof.
  destruct (tcp_segment_roundtrip src dst sp dp seq ack flags win payload) as (ih & ck & Eb & E1 & E2 & E3 & E4 & Hv & Hp);
    try done.
  destruct (Hp pad) as [P1 P2]. set (th := segment_header sp dp seq ack flags win ck) in *.
  exists (ipv4_bytes ih ++ tcp_bytes th ++ payload), ih, (tcp_bytes th ++ payload), th.
  rewrite <- !app_assoc. by split_and!.
Qed.

(** Routing: a lookup returns a route that contains the destination and is
    at least as specific, and among equally specific ones at most as costly,
    as every other such route; it returns none exactly when no route contains
    the destination; containment is agreement on the first prefix bits. *)
Theorem route_lookup_longest_prefix (sort : (nat -> nat -> bool) -> list nat -> list nat) (t : RoutingTable) (dst : list Z)
    (Hsort : sorts sort) (Hd : is_arr 4 dst) (Ht : Forall (fun r => cidr_ok (destination r)) t) :
  (forall r, r ∈ (t : list Route) -> cidr_contains (destination r) dst = Done (prefix_match (destination r) dst)) /\
  exists res, route_lookup sort t dst = Done res /\
    match res with
    | None => forall r, r ∈ (t : list Route) -> prefix_match (destination r) dst = false
    | Some r => r ∈ (t : list Route) /\ prefix_match (destination r) dst = true /\
        forall r', r' ∈ (t : list Route) -> prefix_match (destination r') dst = true -> route_better r r'
    end.
Proof.
  split; [|by apply route_lookup_spec]. intros r Hr. apply cidr_contains_spec; [|done].
  by apply (proj1 (Forall_forall _ _) Ht).
Qed.

(** ** Witnesses *)

Definition demo_src : list Z := [10; 0; 0; 1].
Definition demo_dst : list Z := [10; 0; 0; 2].

Lemma demo_arr a b c d : is_u8 a -> is_u8 b -> is_u8 c -> is_u8 d -> is_arr 4 [a; b; c; d].
Proof. intros. split; [done|]. repeat (apply Forall_cons_2; [done|]). by apply Forall_nil_2. Qed.

Lemma tcp_packet_roundtrip_witness :
  exists pkt ih seg th, build_tcp_segment demo_src demo_dst 80 1234 7 9 24 65535 [104; 105] = Done pkt /\
    parse_ipv4_packet (pkt ++ [0; 0; 0; 0]) = Done (Some (ih, seg ++ [0; 0; 0; 0])) /\
    tcp_parse (seg ++ [0; 0; 0; 0]) = Some (th, [104; 105; 0; 0; 0; 0]) /\ seq_num th = 7.
Proof.
  destruct (tcp_packet_roundtrip demo_src demo_dst 80 1234 7 9 24 65535 [104; 105] [0; 0; 0; 0])
    as (pkt & ih & seg & th & H1 & H2 & H3 & _ & _ & _ & _ & _ & H4 & _);
    try (apply demo_arr; split; vm_compute; congruence); try (split; vm_compute; congruence).
  - repeat (apply Forall_cons_2; [split; vm_compute; congruence|]). apply Forall_nil_2.
  - exists pkt, ih, seg, th. split; [exact H1|]. split; [exact H2|]. split; [exact H3|exact H4].
Defined.

(** A sort that satisfies [sorts]. *)
Fixpoint insert_by (le : nat -> nat -> bool) (x : nat) (l : list nat) : list nat :=
  match l with
  | [] => [x]
  | y :: l => if le x y then x :: y :: l else y :: insert_by le x l
  end.

Definition insertion_sort (le : nat -> nat -> bool) (l : list nat) : list nat := foldr (insert_by le) [] l.

Lemma insert_by_perm le x l : Permutation (insert_by le x l) (x :: l).
Proof. induction l as [|y l IH]; cbn; [done|]. destruct (le x y); [done|]. rewrite IH. apply perm_swap. Qed.

Lemma insertion_sort_sorts : sorts insertion_sort.
Proof.
  intros le l Htot Htr. induction l as [|x l IH]; [split; [done|constructor]|].
  destruct IH as [Hp Hs].
  { intros a b Ha Hb. apply Htot; by apply list_elem_of_further. }
  { intros a b c Ha Hb Hc. apply Htr; by apply list_elem_of_further. }
  cbn [insertion_sort foldr]. fold (insertion_sort le l). split; [by rewrite insert_by_perm, Hp|].
  assert (forall k, StronglySorted (fun a b => le a b = true) k -> (forall a, a ∈ k -> a ∈ x :: l) ->
            StronglySorted (fun a b => le a b = true) (insert_by le x k)) as Hins.
  { clear Hp Hs. induction k as [|y k IHk]; intros Hss Hin; cbn [insert_by]; [by repeat constructor|].
    apply StronglySorted_inv in Hss as [Hss Hall]. pose proof (Hin y ltac:(apply list_elem_of_here)) as Hy.
    assert (x ∈ x :: l) as Hx by apply list_elem_of_here. destruct (le x y) eqn:Exy.
    - constructor; [by constructor|]. constructor; [done|]. apply Forall_forall. intros z Hz.
      rewrite Forall_forall in Hall. apply (Htr x y z); try done; [apply Hin; by apply list_elem_of_further|by apply Hall].
    - constructor; [apply IHk; [done|]; intros a Ha; apply Hin; by apply list_elem_of_further|].
      assert (le y x = true) as Hyx by (destruct (Htot x y Hx Hy); congruence).
      rewrite insert_by_perm. by constructor. }
  apply Hins; [done|]. intros a. rewrite Hp. apply list_elem_of_further.
Qed.

Definition demo_routes : RoutingTable :=
  [{| destination := {| cidr_addr := [0; 0; 0; 0]; prefix_len := 0 |}; gateway := Some [10; 0; 0; 254]; interface := [];
      metric := 100 |};
   {| destination := {| cidr_addr := [10; 0; 0; 0]; prefix_len := 24 |}; gateway := None; interface := []; metric := 0 |}].

Lemma route_lookup_longest_prefix_witness :
  exists res, route_lookup insertion_sort demo_routes demo_dst = Done res /\ metric <$> res = Some 0.
Proof.
  destruct (route_lookup_longest_prefix insertion_sort demo_routes demo_dst insertion_sort_sorts) as [_ (res & E & _)].
  - apply demo_arr; split; vm_compute; congruence.
  - repeat (apply Forall_cons_2; [split; [apply demo_arr; split; vm_compute; congruence|vm_compute; split; congruence]|]).
    apply Forall_nil_2.
  - exists res. split; [exact E|]. vm_compute in E. injection E as <-. reflexivity.
Defined.
