(* ===== verification/Tcp.v ===== *)
(** * TCP (omni-net: tcp.rs)

    The socket table, its connections and listeners, and every operation on
    them: the segment handler with its state machine, acknowledgement
    processing with Reno congestion control, the timer, and the calls of the
    application.  Segments are built by [Net.build_tcp_segment], so the
    operations return in [run].  [process_segment] is the code's match on the
    state, acting on the control block and saying whether the connection
    stays, is removed or moves to the backlog; [conn_get_mut] on the same key
    later in the same call finds the block just written. *)

From Stdlib Require Import ZArith Lia.
From stdpp Require Import base numbers list gmap sorting.
From S2P Require Import Prelude Net.

(** ** Data *)

Definition DEFAULT_MSS : Z := 1460.
Definition RTO_INITIAL_MS : Z := 1000.
Definition MAX_RETRANSMIT : Z := 5.
Definition TIME_WAIT_MS : Z := 120000.
Definition INITIAL_SSTHRESH : Z := 65535.
Definition INITIAL_CWND : Z := 4 * DEFAULT_MSS.

Record SocketApiAddr := { sa_ip : list Z; sa_port : Z }.

#[global] Instance socket_addr_eq : EqDecision SocketApiAddr.
Proof. solve_decision. Defined.

Inductive NetError :=
| ConnectionRefusedE | ConnectionReset | ConnectionAborted | NetworkUnreachable | HostUnreachable | TimedOut | AddrInUse
| AddrNotAvailable | WouldBlock | InvalidArgument | NotConnected | AlreadyConnected | BrokenPipe | PermissionDenied
| BufferTooSmall | BadFileDescriptor.

Inductive TcpState :=
| Closed | Listen | SynSent | SynReceived | Established | FinWait1 | FinWait2 | CloseWait | Closing | LastAck | TimeWait.

#[global] Instance tcp_state_eq : EqDecision TcpState.
Proof. solve_decision. Defined.

Record RetransmitEntry := { re_seq : Z; re_data : list Z; sent_at : Z; retransmit_count : Z }.

Record TcpControlBlock := {
  local : SocketApiAddr;
  remote : SocketApiAddr;
  state : TcpState;
  snd_una : Z; snd_nxt : Z; snd_wnd : Z; iss : Z;
  rcv_nxt : Z; rcv_wnd : Z; irs : Z;
  send_buffer : list Z; recv_buffer : list Z;
  retransmit_queue : list RetransmitEntry;
  rto_ms : Z; srtt_ms : Z; rttvar_ms : Z;
  cwnd : Z; ssthresh : Z; mss : Z; dup_ack_count : Z;
  time_wait_started_ms : Z;
}.

Definition TcpConnectionKey : Type := SocketApiAddr * SocketApiAddr.

Definition encode_addr_key (a : SocketApiAddr) : Z := from_be_bytes (sa_ip a ++ to_be_bytes 2 (sa_port a) ++ [0; 0]).
Definition encode_conn_key (k : TcpConnectionKey) : Z * Z := (encode_addr_key (fst k), encode_addr_key (snd k)).

Record ListenQueue := { backlog : list TcpControlBlock; max_backlog : Z }.

Inductive TcpOutput :=
| SendSegment (data dst_ip : list Z)
| ConnectionEstablished (key : TcpConnectionKey)
| DataReceived (key : TcpConnectionKey)
| ConnectionClosed (key : TcpConnectionKey)
| ConnectionRefused (key : TcpConnectionKey).

Record TcpSocketTable := {
  connections : gmap (Z * Z) TcpControlBlock;
  listeners : gmap Z ListenQueue;
  isn_counter : Z;
}.

(** Field updates of a control block. *)

Definition set_state (s : TcpState) (b : TcpControlBlock) : TcpControlBlock :=
  {| local := local b; remote := remote b; state := s; snd_una := snd_una b; snd_nxt := snd_nxt b; snd_wnd := snd_wnd b;
     iss := iss b; rcv_nxt := rcv_nxt b; rcv_wnd := rcv_wnd b; irs := irs b; send_buffer := send_buffer b;
     recv_buffer := recv_buffer b; retransmit_queue := retransmit_queue b; rto_ms := rto_ms b; srtt_ms := srtt_ms b;
     rttvar_ms := rttvar_ms b; cwnd := cwnd b; ssthresh := ssthresh b; mss := mss b; dup_ack_count := dup_ack_count b;
     time_wait_started_ms := time_wait_started_ms b |}.
Definition set_snd (una nxt wnd : Z) (b : TcpControlBlock) : TcpControlBlock :=
  {| local := local b; remote := remote b; state := state b; snd_una := una; snd_nxt := nxt; snd_wnd := wnd;
     iss := iss b; rcv_nxt := rcv_nxt b; rcv_wnd := rcv_wnd b; irs := irs b; send_buffer := send_buffer b;
     recv_buffer := recv_buffer b; retransmit_queue := retransmit_queue b; rto_ms := rto_ms b; srtt_ms := srtt_ms b;
     rttvar_ms := rttvar_ms b; cwnd := cwnd b; ssthresh := ssthresh b; mss := mss b; dup_ack_count := dup_ack_count b;
     time_wait_started_ms := time_wait_started_ms b |}.
Definition set_rcv (nxt irs0 : Z) (buf : list Z) (b : TcpControlBlock) : TcpControlBlock :=
  {| local := local b; remote := remote b; state := state b; snd_una := snd_una b; snd_nxt := snd_nxt b;
     snd_wnd := snd_wnd b; iss := iss b; rcv_nxt := nxt; rcv_wnd := rcv_wnd b; irs := irs0; send_buffer := send_buffer b;
     recv_buffer := buf; retransmit_queue := retransmit_queue b; rto_ms := rto_ms b; srtt_ms := srtt_ms b;
     rttvar_ms := rttvar_ms b; cwnd := cwnd b; ssthresh := ssthresh b; mss := mss b; dup_ack_count := dup_ack_count b;
     time_wait_started_ms := time_wait_started_ms b |}.
Definition set_send_buffer (buf : list Z) (b : TcpControlBlock) : TcpControlBlock :=
  {| local := local b; remote := remote b; state := state b; snd_una := snd_una b; snd_nxt := snd_nxt b;
     snd_wnd := snd_wnd b; iss := iss b; rcv_nxt := rcv_nxt b; rcv_wnd := rcv_wnd b; irs := irs b; send_buffer := buf;
     recv_buffer := recv_buffer b; retransmit_queue := retransmit_queue b; rto_ms := rto_ms b; srtt_ms := srtt_ms b;
     rttvar_ms := rttvar_ms b; cwnd := cwnd b; ssthresh := ssthresh b; mss := mss b; dup_ack_count := dup_ack_count b;
     time_wait_started_ms := time_wait_started_ms b |}.
Definition set_rtx (q : list RetransmitEntry) (rto : Z) (b : TcpControlBlock) : TcpControlBlock :=
  {| local := local b; remote := remote b; state := state b; snd_una := snd_una b; snd_nxt := snd_nxt b;
     snd_wnd := snd_wnd b; iss := iss b; rcv_nxt := rcv_nxt b; rcv_wnd := rcv_wnd b; irs := irs b;
     send_buffer := send_buffer b; recv_buffer := recv_buffer b; retransmit_queue := q; rto_ms := rto; srtt_ms := srtt_ms b;
     rttvar_ms := rttvar_ms b; cwnd := cwnd b; ssthresh := ssthresh b; mss := mss b; dup_ack_count := dup_ack_count b;
     time_wait_started_ms := time_wait_started_ms b |}.
Definition set_rtt (srtt rttvar rto : Z) (b : TcpControlBlock) : TcpControlBlock :=
  {| local := local b; remote := remote b; state := state b; snd_una := snd_una b; snd_nxt := snd_nxt b;
     snd_wnd := snd_wnd b; iss := iss b; rcv_nxt := rcv_nxt b; rcv_wnd := rcv_wnd b; irs := irs b;
     send_buffer := send_buffer b; recv_buffer := recv_buffer b; retransmit_queue := retransmit_queue b; rto_ms := rto;
     srtt_ms := srtt; rttvar_ms := rttvar; cwnd := cwnd b; ssthresh := ssthresh b; mss := mss b;
     dup_ack_count := dup_ack_count b; time_wait_started_ms := time_wait_started_ms b |}.
Definition set_cc (cw ss dup : Z) (b : TcpControlBlock) : TcpControlBlock :=
  {| local := local b; remote := remote b; state := state b; snd_una := snd_una b; snd_nxt := snd_nxt b;
     snd_wnd := snd_wnd b; iss := iss b; rcv_nxt := rcv_nxt b; rcv_wnd := rcv_wnd b; irs := irs b;
     send_buffer := send_buffer b; recv_buffer := recv_buffer b; retransmit_queue := retransmit_queue b; rto_ms := rto_ms b;
     srtt_ms := srtt_ms b; rttvar_ms := rttvar_ms b; cwnd := cw; ssthresh := ss; mss := mss b; dup_ack_count := dup;
     time_wait_started_ms := time_wait_started_ms b |}.
Definition set_time_wait (now : Z) (b : TcpControlBlock) : TcpControlBlock :=
  {| local := local b; remote := remote b; state := state b; snd_una := snd_una b; snd_nxt := snd_nxt b;
     snd_wnd := snd_wnd b; iss := iss b; rcv_nxt := rcv_nxt b; rcv_wnd := rcv_wnd b; irs := irs b;
     send_buffer := send_buffer b; recv_buffer := recv_buffer b; retransmit_queue := retransmit_queue b; rto_ms := rto_ms b;
     srtt_ms := srtt_ms b; rttvar_ms := rttvar_ms b; cwnd := cwnd b; ssthresh := ssthresh b; mss := mss b;
     dup_ack_count := dup_ack_count b; time_wait_started_ms := now |}.

(** ** Sequence numbers *)


Definition seq_lt (a b : Z) : bool := (wrap32 (b - a) <? 2 ^ 31) && negb (a =? b).
Definition seq_le (a b : Z) : bool := (a =? b) || seq_lt a b.

(** ** Control blocks *)

Definition new_syn_sent (l r : SocketApiAddr) (iss0 : Z) : TcpControlBlock :=
  {| local := l; remote := r; state := SynSent; snd_una := iss0; snd_nxt := wrap32 (iss0 + 1); snd_wnd := 0; iss := iss0;
     rcv_nxt := 0; rcv_wnd := 65535; irs := 0; send_buffer := []; recv_buffer := []; retransmit_queue := [];
     rto_ms := RTO_INITIAL_MS; srtt_ms := 0; rttvar_ms := 0; cwnd := INITIAL_CWND; ssthresh := INITIAL_SSTHRESH;
     mss := DEFAULT_MSS; dup_ack_count := 0; time_wait_started_ms := 0 |}.

Definition new_syn_received (l r : SocketApiAddr) (irs0 iss0 : Z) : TcpControlBlock :=
  {| local := l; remote := r; state := SynReceived; snd_una := iss0; snd_nxt := wrap32 (iss0 + 1); snd_wnd := 65535;
     iss := iss0; rcv_nxt := wrap32 (irs0 + 1); rcv_wnd := 65535; irs := irs0; send_buffer := []; recv_buffer := [];
     retransmit_queue := []; rto_ms := RTO_INITIAL_MS; srtt_ms := 0; rttvar_ms := 0; cwnd := INITIAL_CWND;
     ssthresh := INITIAL_SSTHRESH; mss := DEFAULT_MSS; dup_ack_count := 0; time_wait_started_ms := 0 |}.

Definition saturating_mul64 (a b : Z) : Z := Z.min (a * b) u64_max.

(** Jacobson/Karels; the products and sums are checked. *)
Definition update_rtt (sample : Z) (b : TcpControlBlock) : run TcpControlBlock :=
  '(srtt, rttvar) ←
    (if srtt_ms b =? 0 then Done (sample, sample / 2)
     else
       let diff := if sample <? srtt_ms b then srtt_ms b - sample else sample - srtt_ms b in
       v3 ← mul64 3 (rttvar_ms b); v ← add64 v3 diff;
       s7 ← mul64 7 (srtt_ms b); s ← add64 s7 sample;
       Done (s / 8, v / 4));
  rto ← add64 srtt (Z.max (saturating_mul64 rttvar 4) 1);
  Done (set_rtt srtt rttvar (Z.max 200 (Z.min rto 60000)) b).

(** A segment of this connection. *)
Definition emit (b : TcpControlBlock) (seq ack flags win : Z) (payload : list Z) : run TcpOutput :=
  data ← build_tcp_segment (sa_ip (local b)) (sa_ip (remote b)) (sa_port (local b)) (sa_port (remote b)) seq ack flags win
           payload;
  Done (SendSegment data (sa_ip (remote b))).

(** The acknowledgement that every branch of the state machine sends. *)
Definition emit_ack (b : TcpControlBlock) : run TcpOutput := emit b (snd_nxt b) (rcv_nxt b) ACK (rcv_wnd b) [].

(** ** Table *)

Definition table_new : TcpSocketTable := {| connections := ∅; listeners := ∅; isn_counter := 16777217 |}.

Definition set_connections (m : gmap (Z * Z) TcpControlBlock) (t : TcpSocketTable) : TcpSocketTable :=
  {| connections := m; listeners := listeners t; isn_counter := isn_counter t |}.
Definition set_listeners (m : gmap Z ListenQueue) (t : TcpSocketTable) : TcpSocketTable :=
  {| connections := connections t; listeners := m; isn_counter := isn_counter t |}.

Definition conn_get (t : TcpSocketTable) (k : TcpConnectionKey) : option TcpControlBlock :=
  connections t !! encode_conn_key k.
Definition conn_contains (t : TcpSocketTable) (k : TcpConnectionKey) : bool := bool_decide (is_Some (conn_get t k)).
Definition conn_insert (k : TcpConnectionKey) (b : TcpControlBlock) (t : TcpSocketTable) : TcpSocketTable :=
  set_connections (<[encode_conn_key k := b]> (connections t)) t.
Definition conn_remove (k : TcpConnectionKey) (t : TcpSocketTable) : TcpSocketTable :=
  set_connections (delete (encode_conn_key k) (connections t)) t.

Definition next_isn (t : TcpSocketTable) : Z * TcpSocketTable :=
  (isn_counter t,
   {| connections := connections t; listeners := listeners t; isn_counter := wrap32 (isn_counter t + 89837) |}).

(** ** Application calls *)

Definition tcp_connect (l r : SocketApiAddr) (t : TcpSocketTable)
    : run (result NetError TcpConnectionKey * list TcpOutput * TcpSocketTable) :=
  let key := (l, r) in
  if conn_contains t key then Done (Err AddrInUse, [], t) else
  let '(iss0, t) := next_isn t in
  let b := new_syn_sent l r iss0 in
  o ← emit b iss0 0 SYN (rcv_wnd b) [];
  Done (Ok key, [o], conn_insert key b t).

Definition tcp_listen (port max : Z) (t : TcpSocketTable) : result NetError unit * TcpSocketTable :=
  match listeners t !! port with
  | Some _ => (Err AddrInUse, t)
  | None => (Ok (), set_listeners (<[port := {| backlog := []; max_backlog := max |}]> (listeners t)) t)
  end.

Definition tcp_accept (port : Z) (t : TcpSocketTable) : option TcpConnectionKey * TcpSocketTable :=
  match listeners t !! port with
  | None => (None, t)
  | Some q =>
      match backlog q with
      | [] => (None, t)
      | b :: rest =>
          let key := (local b, remote b) in
          (Some key,
           conn_insert key b (set_listeners (<[port := {| backlog := rest; max_backlog := max_backlog q |}]> (listeners t)) t))
      end
  end.

Definition tcp_send (k : TcpConnectionKey) (data : list Z) (t : TcpSocketTable) : result NetError Z * TcpSocketTable :=
  match conn_get t k with
  | None => (Err NotConnected, t)
  | Some b =>
      if bool_decide (state b = Established \/ state b = CloseWait)
      then (Ok (Z.of_nat (length data)), conn_insert k (set_send_buffer (send_buffer b ++ data) b) t)
      else (Err InvalidArgument, t)
  end.

(** The bytes drained into a buffer of [len] bytes. *)
Definition tcp_recv (k : TcpConnectionKey) (len : nat) (t : TcpSocketTable) : result NetError (list Z) * TcpSocketTable :=
  match conn_get t k with
  | None => (Err NotConnected, t)
  | Some b =>
      let n := Nat.min len (length (recv_buffer b)) in
      (Ok (take n (recv_buffer b)), conn_insert k (set_rcv (rcv_nxt b) (irs b) (drop n (recv_buffer b)) b) t)
  end.

Definition tcp_close (k : TcpConnectionKey) (t : TcpSocketTable) : run (result NetError unit * list TcpOutput * TcpSocketTable) :=
  match conn_get t k with
  | None => Done (Err NotConnected, [], t)
  | Some b =>
      let fin next :=
        o ← emit b (snd_nxt b) (rcv_nxt b) (Z.lor FIN ACK) (rcv_wnd b) [];
        Done (Ok (), [o], conn_insert k (set_state next (set_snd (snd_una b) (wrap32 (snd_nxt b + 1)) (snd_wnd b) b)) t) in
      match state b with
      | Established => fin FinWait1
      | CloseWait => fin LastAck
      | _ => Done (Ok (), [], t)
      end
  end.

(** ** Acknowledgements *)

Definition entry_unacked (ack : Z) (e : RetransmitEntry) : bool :=
  seq_lt (wrap32 (ack - 1)) (wrap32 (re_seq e + Z.of_nat (length (re_data e)))).

Definition process_ack (h : TcpHeader) (b : TcpControlBlock) : run (list TcpOutput * TcpControlBlock) :=
  let ack := ack_num h in
  if (ack =? snd_una b) && negb (bool_decide (retransmit_queue b = [])) then
    let dup := Z.min (dup_ack_count b + 1) 255 in
    if dup =? 3 then
      let ss := Z.max (cwnd b / 2) (2 * mss b) in
      cw ← add32 ss (3 * mss b);
      let b := set_cc cw ss dup b in
      match retransmit_queue b with
      | [] => Done ([], b)
      | e :: _ => o ← emit b (re_seq e) (rcv_nxt b) (Z.lor ACK PSH) (rcv_wnd b) (re_data e); Done ([o], b)
      end
    else Done ([], set_cc (cwnd b) (ssthresh b) dup b)
  else if seq_lt (snd_una b) ack && seq_le ack (snd_nxt b) then
    let b := set_snd ack (snd_nxt b) (window h) b in
    let b := set_rtx (filter (fun e => entry_unacked ack e = true) (retransmit_queue b)) (rto_ms b) b in
    let cw :=
      if cwnd b <? ssthresh b then saturating_add32 (cwnd b) (mss b)
      else saturating_add32 (cwnd b) (Z.max (Z.min (mss b * mss b) u32_max / Z.max (cwnd b) 1) 1) in
    Done ([], set_cc cw (ssthresh b) 0 b)
  else Done ([], b).

(** ** The state machine *)

Inductive Verdict := Keep (b : TcpControlBlock) | Remove | ToBacklog (b : TcpControlBlock).

Definition has (flags bit : Z) : bool := negb (Z.land flags bit =? 0).

(** [Established]: the acknowledgement, then in-order data, then FIN. *)
Definition established_ack (h : TcpHeader) (b : TcpControlBlock) : run (list TcpOutput * TcpControlBlock) :=
  if has (tcp_flags h) ACK then process_ack h b else Done ([], b).

Definition established_data (k : TcpConnectionKey) (h : TcpHeader) (payload : list Z) (b : TcpControlBlock)
    : run (list TcpOutput * TcpControlBlock) :=
  if negb (bool_decide (payload = [])) && (seq_num h =? rcv_nxt b) then
    let b := set_rcv (wrap32 (rcv_nxt b + wrap32 (Z.of_nat (length payload)))) (irs b) (recv_buffer b ++ payload) b in
    o ← emit_ack b; Done ([o; DataReceived k], b)
  else Done ([], b).

Definition established_fin (h : TcpHeader) (b : TcpControlBlock) : run (list TcpOutput * TcpControlBlock) :=
  if has (tcp_flags h) FIN then
    let b := set_state CloseWait (set_rcv (wrap32 (rcv_nxt b + 1)) (irs b) (recv_buffer b) b) in
    o ← emit_ack b; Done ([o], b)
  else Done ([], b).

Definition process_segment (k : TcpConnectionKey) (h : TcpHeader) (payload : list Z) (now : Z) (b : TcpControlBlock)
    : run (list TcpOutput * Verdict) :=
  let flags := tcp_flags h in
  match state b with
  | SynSent =>
      if has flags SYN && has flags ACK then
        if negb (ack_num h =? snd_nxt b) then o ← emit b (ack_num h) 0 RST 0 []; Done ([o], Keep b)
        else
          let b := set_state Established
                     (set_snd (ack_num h) (snd_nxt b) (window h) (set_rcv (wrap32 (seq_num h + 1)) (seq_num h) (recv_buffer b) b)) in
          o ← emit_ack b; Done ([o; ConnectionEstablished k], Keep b)
      else if has flags RST then Done ([ConnectionRefused k], Remove)
      else Done ([], Keep b)
  | SynReceived =>
      if has flags ACK && (ack_num h =? snd_nxt b)
      then Done ([ConnectionEstablished k], ToBacklog (set_state Established (set_snd (ack_num h) (snd_nxt b) (window h) b)))
      else Done ([], Keep b)
  | Established =>
      '(o1, b) ← established_ack h b;
      '(o2, b) ← established_data k h payload b;
      '(o3, b) ← established_fin h b;
      Done (o1 ++ o2 ++ o3, Keep b)
  | FinWait1 =>
      let b := if has flags ACK && (ack_num h =? snd_nxt b)
               then set_state FinWait2 (set_snd (ack_num h) (snd_nxt b) (snd_wnd b) b) else b in
      if has flags FIN then
        let b := set_state (if bool_decide (state b = FinWait2) then TimeWait else Closing)
                   (set_rcv (wrap32 (rcv_nxt b + 1)) (irs b) (recv_buffer b) b) in
        o ← emit_ack b;
        Done ([o], Keep (if bool_decide (state b = TimeWait) then set_time_wait now b else b))
      else Done ([], Keep b)
  | FinWait2 =>
      if has flags FIN then
        let b := set_time_wait now (set_state TimeWait (set_rcv (wrap32 (rcv_nxt b + 1)) (irs b) (recv_buffer b) b)) in
        o ← emit_ack b; Done ([o], Keep b)
      else Done ([], Keep b)
  | Closing =>
      if has flags ACK && (ack_num h =? snd_nxt b) then Done ([], Keep (set_time_wait now (set_state TimeWait b)))
      else Done ([], Keep b)
  | LastAck =>
      if has flags ACK && (ack_num h =? snd_nxt b) then Done ([ConnectionClosed k], Remove) else Done ([], Keep b)
  | TimeWait =>
      if has flags FIN then let b := set_time_wait now b in o ← emit_ack b; Done ([o], Keep b) else Done ([], Keep b)
  | Closed | Listen | CloseWait => Done ([], Keep b)
  end.

(** The verdict on the table; a connection moves to the backlog only when its
    listener is still there. *)
Definition apply_verdict (k : TcpConnectionKey) (v : Verdict) (t : TcpSocketTable) : TcpSocketTable :=
  match v with
  | Keep b => conn_insert k b t
  | Remove => conn_remove k t
  | ToBacklog b =>
      let t := conn_remove k t in
      match listeners t !! sa_port (local b) with
      | Some q => set_listeners (<[sa_port (local b) :=
                    {| backlog := backlog q ++ [b]; max_backlog := max_backlog q |}]> (listeners t)) t
      | None => t
      end
  end.

(** A segment that belongs to no connection block. *)
Definition reply (dst_ip src_ip : list Z) (h : TcpHeader) (seq ack flags win : Z) : run TcpOutput :=
  data ← build_tcp_segment dst_ip src_ip (dst_port h) (src_port h) seq ack flags win [];
  Done (SendSegment data src_ip).

Definition handle_segment (h : TcpHeader) (payload src_ip dst_ip : list Z) (now : Z) (t : TcpSocketTable)
    : run (list TcpOutput * TcpSocketTable) :=
  let l := {| sa_ip := dst_ip; sa_port := dst_port h |} in
  let r := {| sa_ip := src_ip; sa_port := src_port h |} in
  let key := (l, r) in
  let flags := tcp_flags h in
  if has flags RST then
    Done (if conn_contains t key then ([ConnectionClosed key], conn_remove key t) else ([], t))
  else
  match conn_get t key with
  | Some b => '(out, v) ← process_segment key h payload now b; Done (out, apply_verdict key v t)
  | None =>
      match (if has flags SYN && negb (has flags ACK) then listeners t !! dst_port h else None) with
      | Some q =>
          if max_backlog q <=? Z.of_nat (length (backlog q)) then
            o ← reply dst_ip src_ip h 0 (wrap32 (seq_num h + 1)) (Z.lor RST ACK) 0; Done ([o], t)
          else
            let '(iss0, t) := next_isn t in
            let b := new_syn_received l r (seq_num h) iss0 in
            o ← reply dst_ip src_ip h iss0 (rcv_nxt b) (Z.lor SYN ACK) (rcv_wnd b);
            Done ([o], conn_insert key b t)
      | None =>
          if negb (has flags RST) then
            o ← (if has flags ACK then reply dst_ip src_ip h (ack_num h) 0 RST 0
                 else reply dst_ip src_ip h 0 (wrap32 (seq_num h + 1)) (Z.lor RST ACK) 0);
            Done ([o], t)
          else Done ([], t)
      end
  end.

(** ** Timers *)

(** Bump the first queue entry with this sequence number. *)
Fixpoint touch_entry (seq now : Z) (q : list RetransmitEntry) : list RetransmitEntry :=
  match q with
  | [] => []
  | e :: q => if re_seq e =? seq
              then {| re_seq := re_seq e; re_data := re_data e; sent_at := now; retransmit_count := retransmit_count e + 1 |} :: q
              else e :: touch_entry seq now q
  end.

(** The loop over the expired entries; [None] when the connection is reset. *)
Fixpoint retransmit_loop (k : TcpConnectionKey) (now : Z) (expired : list RetransmitEntry) (b : TcpControlBlock)
    : run (list TcpOutput * option TcpControlBlock) :=
  match expired with
  | [] => Done ([], Some b)
  | entry :: expired =>
      match List.find (fun e => re_seq e =? re_seq entry) (retransmit_queue b) with
      | None => retransmit_loop k now expired b
      | Some q_entry =>
          if MAX_RETRANSMIT <=? retransmit_count q_entry then
            o ← emit b (snd_nxt b) (rcv_nxt b) RST 0 []; Done ([o; ConnectionClosed k], None)
          else
            o ← emit b (re_seq q_entry) (rcv_nxt b) (Z.lor ACK PSH) (rcv_wnd b) (re_data q_entry);
            let b' := set_cc (mss b) (Z.max (cwnd b / 2) (2 * mss b)) (dup_ack_count b)
                        (set_rtx (touch_entry (re_seq entry) now (retransmit_queue b))
                           (Z.min (saturating_mul64 (rto_ms b) 2) 60000) b) in
            '(out, r) ← retransmit_loop k now expired b';
            Done (o :: out, r)
      end
  end.

Definition tick_connection (k : TcpConnectionKey) (now : Z) (t : TcpSocketTable) : run (list TcpOutput * TcpSocketTable) :=
  match conn_get t k with
  | None => Done ([], t)
  | Some b =>
      if bool_decide (state b = TimeWait) && (TIME_WAIT_MS <=? saturating_sub now (time_wait_started_ms b))
      then Done ([ConnectionClosed k], conn_remove k t)
      else
        let expired := filter (fun e => rto_ms b <= saturating_sub now (sent_at e)) (retransmit_queue b) in
        '(out, r) ← retransmit_loop k now expired b;
        Done (out, match r with Some b' => conn_insert k b' t | None => conn_remove k t end)
  end.

(** [BTreeMap] keys, in order. *)
Definition key_le (x y : Z * Z) : Prop := fst x < fst y \/ (fst x = fst y /\ snd x <= snd y).
#[global] Instance key_le_dec : RelDecision key_le.
Proof. intros x y. unfold key_le. apply _. Defined.

Fixpoint tick_keys (keys : list (Z * Z)) (now : Z) (t : TcpSocketTable) : run (list TcpOutput * TcpSocketTable) :=
  match keys with
  | [] => Done ([], t)
  | ekey :: keys =>
      '(out, t) ← match connections t !! ekey with
                  | Some b => tick_connection (local b, remote b) now t
                  | None => Done ([], t)
                  end;
      '(out', t) ← tick_keys keys now t;
      Done (out ++ out', t)
  end.

Definition tcp_tick (now : Z) (t : TcpSocketTable) : run (list TcpOutput * TcpSocketTable) :=
  tick_keys (merge_sort key_le (fst <$> map_to_list (connections t))) now t.

(** ** Well-formed tables *)

Definition addr_ok (a : SocketApiAddr) : Prop := is_arr 4 (sa_ip a) /\ is_u16 (sa_port a).
Definition key_ok (k : TcpConnectionKey) : Prop := addr_ok (fst k) /\ addr_ok (snd k).

Definition entry_ok (e : RetransmitEntry) : Prop :=
  is_u32 (re_seq e) /\ Forall is_u8 (re_data e) /\ Z.of_nat (length (re_data e)) < 130000.

Record tcb_ok (b : TcpControlBlock) : Prop := {
  tk_addr : key_ok (local b, remote b);
  tk_snd : is_u32 (snd_una b) /\ is_u32 (snd_nxt b) /\ is_u16 (snd_wnd b);
  tk_rcv : is_u32 (rcv_nxt b) /\ is_u16 (rcv_wnd b);
  tk_queue : Forall entry_ok (retransmit_queue b);
  tk_cc : is_u32 (cwnd b) /\ is_u32 (ssthresh b) /\ is_u16 (mss b);
}.

(** A connection that waits to be accepted on a port. *)
Definition queued (p : Z) (b : TcpControlBlock) : Prop := tcb_ok b /\ sa_port (local b) = p /\ state b = Established.

(** Every block sits under its own key, and in the backlog of its port. *)
Record table_ok (t : TcpSocketTable) : Prop := {
  to_conn : forall ek b, connections t !! ek = Some b -> tcb_ok b /\ ek = encode_conn_key (local b, remote b);
  to_listen : forall p q, listeners t !! p = Some q -> Forall (queued p) (backlog q);
  to_isn : is_u32 (isn_counter t);
}.

Lemma is_u32_wrap x : is_u32 (wrap32 x).
Proof. apply Z.mod_pos_bound. lia. Qed.

Lemma encode_addr_inj a a' : addr_ok a -> addr_ok a' -> encode_addr_key a = encode_addr_key a' -> a = a'.
Proof.
  intros [[L U] P] [[L' U'] P'] E. unfold encode_addr_key in E.
  assert (forall x : SocketApiAddr, is_arr 4 (sa_ip x) ->
            Forall is_u8 (sa_ip x ++ to_be_bytes 2 (sa_port x) ++ [0; 0]) /\
            length (sa_ip x ++ to_be_bytes 2 (sa_port x) ++ [0; 0]) = 8%nat) as Hx.
  { intros x [Lx Ux]. split; [|rewrite length_app, Lx; done].
    apply Forall_app. split; [done|]. apply Forall_app. split; [apply to_be_bytes_u8|apply (to_be_bytes_u8 2 0)]. }
  destruct (Hx a (conj L U)) as [F1 F2], (Hx a' (conj L' U')) as [F1' F2'].
  apply (f_equal (to_be_bytes 8)) in E. rewrite <- F2 in E at 1. rewrite <- F2' in E at 1.
  rewrite !to_from_be_bytes in E by done. apply app_inj_1 in E as [E1 E2]; [|congruence].
  apply app_inj_1 in E2 as [E2 _]; [|done]. apply (f_equal from_be_bytes) in E2. rewrite !from_to_be_bytes in E2.
  unfold is_u16 in *. rewrite !Z.mod_small in E2 by (cbn; lia). destruct a, a'. cbn in *. congruence.
Qed.

Lemma encode_key_inj k k' : key_ok k -> key_ok k' -> encode_conn_key k = encode_conn_key k' -> k = k'.
Proof.
  destruct k as [a b], k' as [a' b']. intros [H1 H2] [H1' H2'] [= E1 E2]. cbn in *. f_equal; by apply encode_addr_inj.
Qed.

Lemma conn_get_insert t k b k' : conn_get (conn_insert k b t) k' =
  if decide (encode_conn_key k' = encode_conn_key k) then Some b else conn_get t k'.
Proof.
  unfold conn_get, conn_insert. cbn. destruct (decide _) as [->|H]; [apply lookup_insert_eq|by apply lookup_insert_ne].
Qed.

Lemma conn_get_remove t k k' : conn_get (conn_remove k t) k' =
  if decide (encode_conn_key k' = encode_conn_key k) then None else conn_get t k'.
Proof.
  unfold conn_get, conn_remove. cbn. destruct (decide _) as [->|H]; [apply lookup_delete_eq|by apply lookup_delete_ne].
Qed.

Lemma table_ok_key t k b : table_ok t -> key_ok k -> conn_get t k = Some b -> tcb_ok b /\ k = (local b, remote b).
Proof.
  intros Ht Hk Hb. destruct (to_conn _ Ht _ _ Hb) as [Hok E]. split; [done|]. apply encode_key_inj; [done|apply Hok|done].
Qed.

Lemma table_ok_insert t k b : table_ok t -> tcb_ok b -> k = (local b, remote b) -> table_ok (conn_insert k b t).
Proof.
  intros [H1 H2 H3] Hb ->. split; [|exact H2|exact H3]. intros ek b' H. cbn in H.
  apply lookup_insert_Some in H as [[<- <-]|[_ H]]; [done|by apply H1].
Qed.

Lemma table_ok_remove t k : table_ok t -> table_ok (conn_remove k t).
Proof.
  intros [H1 H2 H3]. split; [|exact H2|exact H3]. intros ek b' H. cbn in H. apply lookup_delete_Some in H as [_ H]. by apply H1.
Qed.

Lemma table_ok_listeners t p q :
  table_ok t -> Forall (queued p) (backlog q) ->
  table_ok (set_listeners (<[p := q]> (listeners t)) t).
Proof.
  intros [H1 H2 H3] Hq. split; [exact H1| |exact H3]. intros p' q' H. cbn in H.
  apply lookup_insert_Some in H as [[<- <-]|[_ H]]; [done|by apply H2].
Qed.

Lemma table_ok_isn t : table_ok t -> is_u32 (isn_counter t) /\ table_ok (snd (next_isn t)).
Proof. intros [H1 H2 H3]. split; [done|]. split; [exact H1|exact H2|apply is_u32_wrap]. Qed.

Lemma table_new_ok : table_ok table_new.
Proof. split; [intros ek b H|intros p q H|done]; cbn in H; by rewrite lookup_empty in H. Qed.

(** ** Segments are always built *)

Lemma emit_done b seq ack flags win payload :
  tcb_ok b -> is_u32 seq -> is_u32 ack -> is_u8 flags -> is_u16 win -> Forall is_u8 payload ->
  Z.of_nat (length payload) < 130000 ->
  exists data, emit b seq ack flags win payload = Done (SendSegment data (sa_ip (remote b))) /\
    build_tcp_segment (sa_ip (local b)) (sa_ip (remote b)) (sa_port (local b)) (sa_port (remote b)) seq ack flags win payload
      = Done data.
Proof.
  intros Hb H1 H2 H3 H4 H5 H6. destruct (tk_addr _ Hb) as [[A1 A2] [A3 A4]]. cbn [fst snd] in *.
  destruct (tcp_segment_roundtrip (sa_ip (local b)) (sa_ip (remote b)) (sa_port (local b)) (sa_port (remote b))
              seq ack flags win payload) as (ih & ck & E & _); try done.
  eexists. unfold emit. rewrite E. by split.
Qed.

Lemma emit_ack_done b : tcb_ok b -> exists o, emit_ack b = Done o.
Proof.
  intros Hb. destruct (tk_snd _ Hb) as (_ & H1 & _), (tk_rcv _ Hb) as [H2 H3].
  destruct (emit_done b (snd_nxt b) (rcv_nxt b) ACK (rcv_wnd b) []) as (d & E & _); try done. by eexists.
Qed.

Lemma reply_done src dst h seq ack flags win :
  is_arr 4 src -> is_arr 4 dst -> co_fields h -> is_u32 seq -> is_u32 ack -> is_u8 flags -> is_u16 win ->
  exists data, reply dst src h seq ack flags win = Done (SendSegment data src).
Proof.
  intros H1 H2 (F1 & F2 & _) H3 H4 H5 H6.
  destruct (tcp_segment_roundtrip dst src (dst_port h) (src_port h) seq ack flags win []) as (ih & ck & E & _); try done.
  eexists. unfold reply. by rewrite E.
Qed.

(** ** Each operation keeps blocks well-formed and does not panic *)

Lemma max_half_bound cw m : is_u32 cw -> is_u16 m ->
  is_u32 (Z.max (cw / 2) (2 * m)) /\ Z.max (cw / 2) (2 * m) + 3 * m < 2 ^ 32.
Proof. unfold is_u32, is_u16. intros. assert (cw / 2 < 2 ^ 31) by (apply Z.div_lt_upper_bound; lia).
  assert (0 <= cw / 2) by (apply Z.div_pos; lia). lia. Qed.

Lemma saturating_u32 a b : 0 <= a -> 0 <= b -> is_u32 (saturating_add32 a b).
Proof. unfold is_u32, saturating_add32, u32_max. lia. Qed.

(** What an acknowledgement may change: nothing of the addresses, the state
    and the receive side. *)
Definition same_recv (b b' : TcpControlBlock) : Prop :=
  local b' = local b /\ remote b' = remote b /\ state b' = state b /\ rcv_nxt b' = rcv_nxt b /\ rcv_wnd b' = rcv_wnd b /\
  irs b' = irs b /\ recv_buffer b' = recv_buffer b /\ snd_nxt b' = snd_nxt b.

Lemma process_ack_ok h b : tcb_ok b -> co_fields h ->
  exists out b', process_ack h b = Done (out, b') /\ tcb_ok b' /\ same_recv b b'.
Proof.
  intros Hb (_ & _ & _ & Fa & _ & Fw & _). destruct Hb as [B1 (S1 & S2 & S3) (R1 & R2) BQ (C1 & C2 & C3)].
  assert (tcb_ok b) as Hb by (by split). destruct (max_half_bound (cwnd b) (mss b) C1 C3) as [M1 M2].
  unfold process_ack. destruct (_ && _) eqn:E1.
  - destruct (_ =? 3).
    + unfold add32. rewrite (proj2 (Z.ltb_lt _ _) M2). cbn [mbind run_bind retransmit_queue set_cc].
      set (b1 := set_cc _ _ _ b). assert (tcb_ok b1) as Hb1.
      { split; try done. split_and!; [|done|done]. unfold is_u32, is_u16 in *. cbn. lia. }
      destruct (retransmit_queue b) as [|e q] eqn:Eq; [exists [], b1; split; [done|]; split; [done|]; by unfold same_recv|].
      assert (entry_ok e) as (E1' & E2 & E3) by (by apply Forall_cons in BQ as [? _]).
      destruct (emit_done b1 (re_seq e) (rcv_nxt b1) (Z.lor ACK PSH) (rcv_wnd b1) (re_data e)) as (d & -> & _); try done.
      cbn [mbind run_bind]. by eexists _, b1.
    + eexists _, _. split; [done|]. split; [by split|done].
  - clear E1. destruct (_ && _); [|exists [], b; split; [done|]; split; [done|]; by unfold same_recv]. eexists _, _.
    split; [done|]. split; [|done]. split; try done.
    + cbn. apply Forall_forall. intros e [_ He]%list_elem_of_filter. by apply (proj1 (Forall_forall _ _) BQ).
    + cbn. split_and!; [|done|done]. unfold is_u32, is_u16 in *. destruct (_ <? _); apply saturating_u32; lia.
Qed.

Lemma established_data_ok k h payload b : tcb_ok b ->
  exists out b', established_data k h payload b = Done (out, b') /\ tcb_ok b' /\
    local b' = local b /\ remote b' = remote b /\ state b' = state b /\
    ((payload <> [] /\ seq_num h = rcv_nxt b /\ rcv_nxt b' = wrap32 (rcv_nxt b + wrap32 (Z.of_nat (length payload))) /\
      recv_buffer b' = recv_buffer b ++ payload) \/
     ((payload = [] \/ seq_num h <> rcv_nxt b) /\ b' = b)).
Proof.
  intros Hb. unfold established_data. destruct (decide (payload = [])) as [->|Hp].
  { rewrite bool_decide_eq_true_2 by done. exists [], b. split_and!; try done. right. split; [by left|done]. }
  rewrite bool_decide_eq_false_2 by done. cbn [negb andb]. destruct (Z.eqb_spec (seq_num h) (rcv_nxt b)) as [E|E].
  - set (b1 := set_rcv _ _ _ b). assert (tcb_ok b1) as Hb1.
    { destruct Hb. split; try done. split; [apply is_u32_wrap|cbn; apply tk_rcv0]. }
    destruct (emit_ack_done b1 Hb1) as [o ->]. cbn [mbind run_bind]. eexists _, b1. split_and!; try done. by left.
  - exists [], b. split_and!; try done. right. split; [by right|done].
Qed.

Lemma established_fin_ok h b : tcb_ok b ->
  exists out b', established_fin h b = Done (out, b') /\ tcb_ok b' /\ local b' = local b /\ remote b' = remote b /\
    recv_buffer b' = recv_buffer b /\
    ((has (tcp_flags h) FIN = true /\ state b' = CloseWait) \/ (has (tcp_flags h) FIN = false /\ b' = b)).
Proof.
  intros Hb. unfold established_fin. destruct (has (tcp_flags h) FIN).
  - set (b1 := set_state CloseWait _). assert (tcb_ok b1) as Hb1.
    { destruct Hb. split; try done. split; [apply is_u32_wrap|cbn; apply tk_rcv0]. }
    destruct (emit_ack_done b1 Hb1) as [o ->]. cbn [mbind run_bind]. eexists _, b1. split_and!; try done. by left.
  - exists [], b. split_and!; try done. by right.
Qed.

(** ** The state diagram

    The transitions of RFC 793 that an arriving segment may cause, guarded by
    its flags and by whether it acknowledges everything sent.  [None] is a
    connection that has left the table: closed, or established and waiting
    in the accept queue. *)
Inductive rfc_arrow (flags : Z) (acks_all : bool) : TcpState -> option TcpState -> Prop :=
| ra_stay s : rfc_arrow flags acks_all s (Some s)
| ra_syn_ack : has flags SYN = true -> has flags ACK = true -> acks_all = true ->
    rfc_arrow flags acks_all SynSent (Some Established)
| ra_refused : has flags RST = true -> rfc_arrow flags acks_all SynSent None
| ra_accept_queue : has flags ACK = true -> acks_all = true -> rfc_arrow flags acks_all SynReceived None
| ra_peer_closes : has flags FIN = true -> rfc_arrow flags acks_all Established (Some CloseWait)
| ra_fin_acked : has flags ACK = true -> acks_all = true -> rfc_arrow flags acks_all FinWait1 (Some FinWait2)
| ra_simultaneous : has flags FIN = true -> rfc_arrow flags acks_all FinWait1 (Some Closing)
| ra_fin_and_ack : has flags FIN = true -> has flags ACK = true -> acks_all = true ->
    rfc_arrow flags acks_all FinWait1 (Some TimeWait)
| ra_fin_last : has flags FIN = true -> rfc_arrow flags acks_all FinWait2 (Some TimeWait)
| ra_closing_acked : has flags ACK = true -> acks_all = true -> rfc_arrow flags acks_all Closing (Some TimeWait)
| ra_last_acked : has flags ACK = true -> acks_all = true -> rfc_arrow flags acks_all LastAck None.

#[local] Hint Constructors rfc_arrow : core.

(** What a segment may do to the receive side. *)
Definition recv_effect (h : TcpHeader) (payload : list Z) (b b' : TcpControlBlock) : Prop :=
  (recv_buffer b' = recv_buffer b /\ (state b = Established -> state b' = Established -> rcv_nxt b' = rcv_nxt b)) \/
  (state b = Established /\ payload <> [] /\ seq_num h = rcv_nxt b /\ recv_buffer b' = recv_buffer b ++ payload /\
   (state b' = Established -> rcv_nxt b' = wrap32 (rcv_nxt b + wrap32 (Z.of_nat (length payload))))).

Definition verdict_spec (h : TcpHeader) (payload : list Z) (b : TcpControlBlock) (v : Verdict) : Prop :=
  let arrow := rfc_arrow (tcp_flags h) (ack_num h =? snd_nxt b) (state b) in
  match v with
  | Keep b' => tcb_ok b' /\ local b' = local b /\ remote b' = remote b /\ arrow (Some (state b')) /\ recv_effect h payload b b'
  | Remove => arrow None
  | ToBacklog b' => tcb_ok b' /\ local b' = local b /\ remote b' = remote b /\ arrow None /\ state b = SynReceived /\
      state b' = Established
  end.

Lemma tcb_ok_frame b b' : tcb_ok b -> key_ok (local b', remote b') ->
  is_u32 (snd_una b') -> is_u32 (snd_nxt b') -> is_u16 (snd_wnd b') -> is_u32 (rcv_nxt b') -> rcv_wnd b' = rcv_wnd b ->
  retransmit_queue b' = retransmit_queue b -> cwnd b' = cwnd b -> ssthresh b' = ssthresh b -> mss b' = mss b -> tcb_ok b'.
Proof.
  intros [B1 B2 [B3 B4] B5 B6] H1 H2 H3 H4 H5 E1 E2 E3 E4 E5. split; [done|done|..].
  - split; [done|]. by rewrite E1.
  - by rewrite E2.
  - by rewrite E3, E4, E5.
Qed.

(** Blocks that differ from a well-formed one in their state, numbers or
    timers only. *)
Ltac tcb_frame b :=
  match goal with H : tcb_ok b |- _ =>
    let A := fresh in let B := fresh in let C := fresh in
    pose proof (tk_addr _ H) as A; pose proof (tk_snd _ H) as B; pose proof (tk_rcv _ H) as C;
    apply (tcb_ok_frame b); try done; try apply B; try apply C; try apply is_u32_wrap
  end.

Lemma established_spec k h payload now b : tcb_ok b -> co_fields h -> state b = Established ->
  exists out v, process_segment k h payload now b = Done (out, v) /\ verdict_spec h payload b v.
Proof.
  intros Hb Hh Es. unfold process_segment. rewrite Es.
  assert (exists out b', established_ack h b = Done (out, b') /\ tcb_ok b' /\ same_recv b b') as (o1 & b1 & -> & Hb1 & HS).
  { unfold established_ack. destruct (has _ _); [by apply process_ack_ok|]. exists [], b. by split_and!. }
  cbn [mbind run_bind]. destruct HS as (L1 & R1 & S1 & N1 & _ & _ & B1 & _).
  destruct (established_data_ok k h payload b1 Hb1) as (o2 & b2 & -> & Hb2 & L2 & R2 & S2 & D). cbn [mbind run_bind].
  destruct (established_fin_ok h b2 Hb2) as (o3 & b3 & -> & Hb3 & L3 & R3 & B3 & F). cbn [mbind run_bind].
  eexists _, (Keep b3). split; [done|]. cbn [verdict_spec]. split; [done|]. split; [congruence|]. split; [congruence|].
  rewrite Es. split.
  - destruct F as [[Hf ->]|[_ ->]]; [by constructor|]. rewrite S2, S1, Es. constructor.
  - unfold recv_effect. destruct D as [(D1 & D2 & D3 & D4)|[_ D]].
    + right. split_and!; [done|done|congruence|congruence|].
      intros HE. destruct F as [[_ F]|[_ ->]]; [congruence|]. by rewrite D3, N1.
    + left. subst b2. split; [congruence|]. intros _ HE. destruct F as [[_ F]|[_ ->]]; [congruence|done].
Qed.

Lemma process_segment_spec k h payload now b : tcb_ok b -> co_fields h ->
  exists out v, process_segment k h payload now b = Done (out, v) /\ verdict_spec h payload b v.
Proof.
  intros Hb Hh. destruct (decide (state b = Established)) as [Es|Hne]; [by apply established_spec|].
  pose proof Hh as (_ & _ & Fs & Fa & _ & Fw & _). pose proof (tk_addr _ Hb) as HA. pose proof (tk_snd _ Hb) as (S1 & S2 & S3).
  assert (forall b', state b <> Established -> recv_buffer b' = recv_buffer b -> recv_effect h payload b b') as Hrecv.
  { intros b' Hn E. left. by split. }
  assert (forall o : list TcpOutput, exists out v, Done (o, Keep b) = Done (out, v) /\ verdict_spec h payload b v) as Hstay.
  { intros o. eexists _, _. split; [done|]. cbn. split_and!; auto. }
  unfold process_segment. destruct (state b) eqn:Es; try apply Hstay; try done; clear Hne.
  - destruct (has (tcp_flags h) SYN && has (tcp_flags h) ACK) eqn:E1.
    + apply andb_true_iff in E1 as [E1 E2]. destruct (Z.eqb_spec (ack_num h) (snd_nxt b)) as [E|E]; cbn [negb].
      * set (b1 := set_state Established _). assert (tcb_ok b1) as Hb1 by tcb_frame b.
        destruct (emit_ack_done b1 Hb1) as [o ->]. cbn [mbind run_bind]. eexists _, (Keep b1). split; [done|]. cbn [verdict_spec].
        split_and!; try done; [rewrite Es|apply Hrecv; [congruence|done]]. apply ra_syn_ack; try done. by apply Z.eqb_eq.
      * destruct (emit_done b (ack_num h) 0 RST 0 []) as (d & -> & _); try done. cbn [mbind run_bind]. apply Hstay.
    + destruct (has (tcp_flags h) RST) eqn:E2; [|apply Hstay]. eexists _, Remove. split; [done|]. cbn. rewrite Es. by constructor.
  - destruct (has (tcp_flags h) ACK && (ack_num h =? snd_nxt b)) eqn:E1; [|apply Hstay].
    apply andb_true_iff in E1 as [E1 E2]. eexists _, (ToBacklog _). split; [done|]. cbn [verdict_spec]. rewrite Es.
    split_and!; try done; [tcb_frame b|by constructor].
  - set (b0 := if has (tcp_flags h) ACK && (ack_num h =? snd_nxt b) then _ else b).
    assert (tcb_ok b0 /\ local b0 = local b /\ remote b0 = remote b /\ recv_buffer b0 = recv_buffer b /\
            rfc_arrow (tcp_flags h) (ack_num h =? snd_nxt b) FinWait1 (Some (state b0)) /\
            (state b0 = FinWait2 -> has (tcp_flags h) ACK = true /\ (ack_num h =? snd_nxt b) = true))
      as (Hb0 & L0 & R0 & B0 & A0 & Q0).
    { unfold b0. destruct (has (tcp_flags h) ACK && _) eqn:E1.
      - apply andb_true_iff in E1 as [E1 E2]. split_and!; try done; [tcb_frame b|by constructor].
      - split_and!; try done; [rewrite Es; apply ra_stay|rewrite Es; done]. }
    destruct (has (tcp_flags h) FIN) eqn:E2.
    + set (b1 := set_state _ (set_rcv _ _ _ b0)).
      assert (tcb_ok b1) as Hb1 by (tcb_frame b0). destruct (emit_ack_done b1 Hb1) as [o ->]. cbn [mbind run_bind].
      eexists _, (Keep _). split; [done|]. cbn [verdict_spec]. rewrite Es.
      assert (forall c : bool, state (if c then set_time_wait now b1 else b1) = state b1) as Et by (by intros []).
      split_and!; [destruct (bool_decide _); [tcb_frame b1|done]|by destruct (bool_decide _)|by destruct (bool_decide _)| |].
      * rewrite Et. unfold b1. cbn [state set_state]. case_bool_decide as Hs; [|by constructor].
        destruct (Q0 Hs). by apply ra_fin_and_ack.
      * apply Hrecv; [congruence|]. by destruct (bool_decide _).
    + eexists _, (Keep b0). split; [done|]. cbn [verdict_spec]. rewrite Es. split_and!; try done. apply Hrecv; congruence.
  - destruct (has (tcp_flags h) FIN) eqn:E1; [|apply Hstay]. set (b1 := set_time_wait now _).
    assert (tcb_ok b1) as Hb1 by tcb_frame b. destruct (emit_ack_done b1 Hb1) as [o ->]. cbn [mbind run_bind].
    eexists _, (Keep b1). split; [done|]. cbn [verdict_spec]. rewrite Es. split_and!; try done; [by constructor|apply Hrecv; [congruence|done]].
  - destruct (has (tcp_flags h) ACK && (ack_num h =? snd_nxt b)) eqn:E1; [|apply Hstay].
    apply andb_true_iff in E1 as [E1 E2]. eexists _, (Keep _). split; [done|]. cbn [verdict_spec]. rewrite Es.
    split_and!; try done; [tcb_frame b|by constructor|apply Hrecv; [congruence|done]].
  - destruct (has (tcp_flags h) ACK && (ack_num h =? snd_nxt b)) eqn:E1; [|apply Hstay].
    apply andb_true_iff in E1 as [E1 E2]. eexists _, Remove. split; [done|]. cbn. rewrite Es. by constructor.
  - destruct (has (tcp_flags h) FIN) eqn:E1; [|apply Hstay]. set (b1 := set_time_wait now _).
    assert (tcb_ok b1) as Hb1 by tcb_frame b. destruct (emit_ack_done b1 Hb1) as [o ->]. cbn [mbind run_bind].
    eexists _, (Keep b1). split; [done|]. cbn [verdict_spec]. rewrite Es.
    split_and!; try done; [unfold b1; cbn; rewrite Es; constructor|apply Hrecv; [congruence|done]].
Qed.

(** ** Timers *)

Lemma touch_entry_ok seq now q : Forall entry_ok q -> Forall entry_ok (touch_entry seq now q).
Proof. induction 1 as [|e q He Hq IH]; cbn; [done|]. destruct (_ =? _); by constructor. Qed.

Lemma retransmit_loop_ok k now expired : forall b, tcb_ok b ->
  exists out r, retransmit_loop k now expired b = Done (out, r) /\
    match r with Some b' => tcb_ok b' /\ same_recv b b' | None => expired <> [] end.
Proof.
  induction expired as [|e expired IH]; intros b Hb; cbn [retransmit_loop].
  { exists [], (Some b). split; [done|]. split; [done|]. by unfold same_recv. }
  pose proof Hb as [B1 (S1 & S2 & S3) (R1 & R2) BQ (C1 & C2 & C3)].
  destruct (List.find _ (retransmit_queue b)) as [qe|] eqn:Ef.
  2:{ destruct (IH b Hb) as (out & r & -> & Hr). exists out, r. split; [done|]. by destruct r. }
  apply find_some in Ef as [Hin _]. apply list_elem_of_In in Hin.
  destruct (proj1 (Forall_forall _ _) BQ qe Hin) as (E1 & E2 & E3).
  destruct (_ <=? _).
  { destruct (emit_done b (snd_nxt b) (rcv_nxt b) RST 0 []) as (d & -> & _); try done. cbn [mbind run_bind]. by eexists _, None. }
  destruct (emit_done b (re_seq qe) (rcv_nxt b) (Z.lor ACK PSH) (rcv_wnd b) (re_data qe)) as (d & -> & _); try done.
  cbn [mbind run_bind]. set (b1 := set_cc _ _ _ _). assert (tcb_ok b1) as Hb1.
  { destruct (max_half_bound (cwnd b) (mss b) C1 C3) as [M1 M2]. split; try done; [by apply touch_entry_ok|].
    split_and!; [|done|done]. unfold is_u32, is_u16 in *. cbn. lia. }
  destruct (IH b1 Hb1) as (out & r & -> & Hr). cbn [mbind run_bind]. eexists _, r. split; [done|]. by destruct r.
Qed.

(** Why the timer may end a connection. *)
Definition timer_ends (now : Z) (b : TcpControlBlock) : Prop :=
  (state b = TimeWait /\ TIME_WAIT_MS <= saturating_sub now (time_wait_started_ms b)) \/
  (exists e, e ∈ retransmit_queue b /\ rto_ms b <= saturating_sub now (sent_at e)).

Definition tick_effect (now : Z) (o o' : option TcpControlBlock) : Prop :=
  match o, o' with
  | None, None => True
  | Some b, Some b' => tcb_ok b' /\ same_recv b b'
  | Some b, None => timer_ends now b
  | None, Some _ => False
  end.

Lemma tick_connection_ok k now t : table_ok t -> key_ok k ->
  exists out t', tick_connection k now t = Done (out, t') /\ table_ok t' /\ listeners t' = listeners t /\
    tick_effect now (conn_get t k) (conn_get t' k) /\
    forall ek, ek <> encode_conn_key k -> connections t' !! ek = connections t !! ek.
Proof.
  intros Ht Hk. unfold tick_connection. destruct (conn_get t k) as [b|] eqn:Eb.
  2:{ eexists _, t. split; [done|]. split; [done|]. split; [done|]. by rewrite Eb. }
  destruct (table_ok_key t k b Ht Hk Eb) as [Hb Ek].
  destruct (bool_decide _ && _) eqn:E1.
  { apply andb_true_iff in E1 as [E1%bool_decide_eq_true E2%Z.leb_le]. eexists _, _. split; [done|].
    split; [by apply table_ok_remove|]. split; [done|]. split; [rewrite conn_get_remove, decide_True by done; by left|].
    intros ek Hne. cbn. by apply lookup_delete_ne. }
  destruct (retransmit_loop_ok k now (filter (fun e => rto_ms b <= saturating_sub now (sent_at e)) (retransmit_queue b)) b Hb)
    as (out & r & -> & Hr). cbn [mbind run_bind]. eexists _, _. split; [done|]. destruct r as [b'|].
  - destruct Hr as [Hb' Hs]. split; [apply table_ok_insert; [done|done|]; destruct Hs as (-> & -> & _); done|]. split; [done|].
    rewrite conn_get_insert, decide_True by done. split; [done|]. intros ek Hne. cbn. by apply lookup_insert_ne.
  - split; [by apply table_ok_remove|]. split; [done|]. rewrite conn_get_remove, decide_True by done. split.
    + right. destruct (filter _ _) as [|e l] eqn:Ef; [done|]. exists e. apply and_comm.
      apply (list_elem_of_filter (fun e => rto_ms b <= saturating_sub now (sent_at e))). rewrite Ef. apply list_elem_of_here.
    + intros ek Hne. cbn. by apply lookup_delete_ne.
Qed.

Lemma tick_effect_refl now t ek : table_ok t -> tick_effect now (connections t !! ek) (connections t !! ek).
Proof.
  intros Ht. destruct (connections t !! ek) as [b|] eqn:E; [|done]. split; [by apply (to_conn _ Ht ek)|]. by unfold same_recv.
Qed.

Lemma tick_keys_ok keys now : forall t, NoDup keys -> table_ok t ->
  exists out t', tick_keys keys now t = Done (out, t') /\ table_ok t' /\ listeners t' = listeners t /\
    forall ek, tick_effect now (connections t !! ek) (connections t' !! ek) /\
      (ek ∉ keys -> connections t' !! ek = connections t !! ek).
Proof.
  induction keys as [|ek0 keys IH]; intros t Hnd Ht; cbn [tick_keys].
  { eexists _, t. split; [done|]. split; [done|]. split; [done|]. intros ek. split; [by apply tick_effect_refl|done]. }
  apply NoDup_cons in Hnd as [Hnin Hnd].
  assert (exists out t1, match connections t !! ek0 with Some b => tick_connection (local b, remote b) now t | None => Done ([], t) end
            = Done (out, t1) /\ table_ok t1 /\ listeners t1 = listeners t /\
          tick_effect now (connections t !! ek0) (connections t1 !! ek0) /\
          forall ek, ek <> ek0 -> connections t1 !! ek = connections t !! ek) as (out & t1 & -> & Ht1 & Hl1 & He1 & Hf1).
  { destruct (connections t !! ek0) as [b|] eqn:E.
    - destruct (to_conn _ Ht _ _ E) as [Hb Ek]. destruct (tick_connection_ok (local b, remote b) now t Ht (tk_addr _ Hb))
        as (out & t1 & -> & H1 & H2 & H3 & H4). exists out, t1. unfold conn_get in H3. rewrite <- Ek, E in *. by split_and!.
    - exists [], t. rewrite E. by split_and!. }
  cbn [mbind run_bind]. destruct (IH t1 Hnd Ht1) as (out' & t2 & -> & Ht2 & Hl2 & He2). cbn [mbind run_bind].
  eexists _, t2. split; [done|]. split; [done|]. split; [congruence|]. intros ek. destruct (He2 ek) as [Ha Hb]. split.
  - destruct (decide (ek = ek0)) as [->|Hne]; [by rewrite Hb|]. by rewrite <- Hf1.
  - intros [Hne Hn]%not_elem_of_cons. by rewrite Hb, Hf1.
Qed.

Lemma tcp_tick_ok now t : table_ok t ->
  exists out t', tcp_tick now t = Done (out, t') /\ table_ok t' /\ listeners t' = listeners t /\
    forall ek, tick_effect now (connections t !! ek) (connections t' !! ek).
Proof.
  intros Ht. unfold tcp_tick. destruct (tick_keys_ok (merge_sort key_le (fst <$> map_to_list (connections t))) now t)
    as (out & t' & E & H1 & H2 & H3).
  - rewrite merge_sort_Permutation. apply NoDup_fst_map_to_list.
  - done.
  - exists out, t'. split_and!; try done. intros ek. apply H3.
Qed.

(** ** Sequences of operations *)

Inductive tcp_op :=
| OConnect (l r : SocketApiAddr)
| OListen (port max : Z)
| OAccept (port : Z)
| OSend (k : TcpConnectionKey) (data : list Z)
| ORecv (k : TcpConnectionKey) (len : nat)
| OClose (k : TcpConnectionKey)
| OSegment (h : TcpHeader) (payload src dst : list Z) (now : Z)
| OTick (now : Z).

(** The actions for the service loop, the bytes handed to the application and
    the next table. *)
Definition tcp_step (op : tcp_op) (t : TcpSocketTable) : run (list TcpOutput * list Z * TcpSocketTable) :=
  match op with
  | OConnect l r => '(_, out, t) ← tcp_connect l r t; Done (out, [], t)
  | OListen p n => Done ([], [], snd (tcp_listen p n t))
  | OAccept p => Done ([], [], snd (tcp_accept p t))
  | OSend k data => Done ([], [], snd (tcp_send k data t))
  | ORecv k n => Done ([], match fst (tcp_recv k n t) with Ok bytes => bytes | Err _ => [] end, snd (tcp_recv k n t))
  | OClose k => '(_, out, t) ← tcp_close k t; Done (out, [], t)
  | OSegment h payload src dst now => '(out, t) ← handle_segment h payload src dst now t; Done (out, [], t)
  | OTick now => '(out, t) ← tcp_tick now t; Done (out, [], t)
  end.

(** Arguments in the range of their types. *)
Definition op_ok (op : tcp_op) : Prop :=
  match op with
  | OConnect l r => addr_ok l /\ addr_ok r
  | OSend k _ | ORecv k _ | OClose k => key_ok k
  | OSegment h _ src dst _ => co_fields h /\ is_arr 4 src /\ is_arr 4 dst
  | _ => True
  end.

Definition seg_key (h : TcpHeader) (src dst : list Z) : TcpConnectionKey :=
  ({| sa_ip := dst; sa_port := dst_port h |}, {| sa_ip := src; sa_port := src_port h |}).

(** The connections an operation may touch. *)
Definition concerns (op : tcp_op) (k : TcpConnectionKey) : Prop :=
  match op with
  | OConnect l r => k = (l, r)
  | OListen _ _ => False
  | OAccept p => sa_port (fst k) = p
  | OSend k0 _ | ORecv k0 _ | OClose k0 => k = k0
  | OSegment h _ src dst _ => k = seg_key h src dst
  | OTick _ => True
  end.

(** The transitions of RFC 793: from the block before an operation to the state
    after it, with the listeners [ls] that may be waiting. *)
Inductive transition (k : TcpConnectionKey) (ls : gmap Z ListenQueue) : tcp_op -> option TcpControlBlock -> option TcpState -> Prop :=
| tr_stay op o : transition k ls op o (state <$> o)
| tr_active_open l r : k = (l, r) -> transition k ls (OConnect l r) None (Some SynSent)
| tr_passive_open h payload src dst now q : k = seg_key h src dst ->
    ls !! dst_port h = Some q -> Z.of_nat (length (backlog q)) < max_backlog q ->
    has (tcp_flags h) SYN = true -> has (tcp_flags h) ACK = false -> has (tcp_flags h) RST = false ->
    transition k ls (OSegment h payload src dst now) None (Some SynReceived)
| tr_reset h payload src dst now b : k = seg_key h src dst -> has (tcp_flags h) RST = true ->
    transition k ls (OSegment h payload src dst now) (Some b) None
| tr_segment h payload src dst now b s' : k = seg_key h src dst -> has (tcp_flags h) RST = false ->
    rfc_arrow (tcp_flags h) (ack_num h =? snd_nxt b) (state b) s' ->
    transition k ls (OSegment h payload src dst now) (Some b) s'
| tr_close b : state b = Established -> transition k ls (OClose k) (Some b) (Some FinWait1)
| tr_close_after_peer b : state b = CloseWait -> transition k ls (OClose k) (Some b) (Some LastAck)
| tr_timer now b : timer_ends now b -> transition k ls (OTick now) (Some b) None.

(** What RFC 793 has no transition for: [accept] puts the block at the head of
    the queue, established, back under its key, whatever block that key had. *)
Definition accepted (op : tcp_op) (t t' : TcpSocketTable) (k : TcpConnectionKey) : Prop :=
  match op with
  | OAccept p => exists q b rest, listeners t !! p = Some q /\ backlog q = b :: rest /\ k = (local b, remote b) /\
      state b = Established /\ conn_get t' k = Some b
  | _ => False
  end.

(** The effect of an operation on the connection [k]. *)
Definition step_effect (op : tcp_op) (t t' : TcpSocketTable) (k : TcpConnectionKey) : Prop :=
  (transition k (listeners t) op (conn_get t k) (state <$> conn_get t' k) \/ accepted op t t' k) /\
  (~ concerns op k -> conn_get t' k = conn_get t k).

Lemma effect_insert op t k0 b' k :
  key_ok k -> key_ok k0 -> concerns op k0 -> transition k0 (listeners t) op (conn_get t k0) (Some (state b')) ->
  step_effect op t (conn_insert k0 b' t) k.
Proof.
  intros Hk Hk0 Hc Ht. unfold step_effect. rewrite conn_get_insert. destruct (decide _) as [E|E].
  - apply encode_key_inj in E as ->; [|done|done]. split; [by left|done].
  - split; [left; constructor|done].
Qed.

Lemma effect_remove op t k0 k :
  key_ok k -> key_ok k0 -> concerns op k0 -> transition k0 (listeners t) op (conn_get t k0) None -> step_effect op t (conn_remove k0 t) k.
Proof.
  intros Hk Hk0 Hc Ht. unfold step_effect. rewrite conn_get_remove. destruct (decide _) as [E|E].
  - apply encode_key_inj in E as ->; [|done|done]. split; [by left|done].
  - split; [left; constructor|done].
Qed.

Lemma effect_same op t t' k : conn_get t' k = conn_get t k -> step_effect op t t' k.
Proof. intros E. unfold step_effect. rewrite E. split; [left; constructor|done]. Qed.

Lemma stay_as op k ls b s : state b = s -> transition k ls op (Some b) (Some s).
Proof. intros <-. exact (tr_stay k ls op (Some b)). Qed.

Definition step_spec (op : tcp_op) (t : TcpSocketTable) : Prop :=
  exists out bytes t', tcp_step op t = Done (out, bytes, t') /\ table_ok t' /\ forall k, key_ok k -> step_effect op t t' k.

Lemma connect_spec l r t : table_ok t -> addr_ok l -> addr_ok r -> step_spec (OConnect l r) t.
Proof.
  intros Ht Hl Hr. unfold step_spec. cbn [tcp_step]. unfold tcp_connect, conn_contains.
  destruct (conn_get t (l, r)) as [b|] eqn:E.
  { rewrite bool_decide_eq_true_2 by (by eexists). eexists _, _, t. split; [done|]. split; [done|]. intros k _. by apply effect_same. }
  rewrite bool_decide_eq_false_2 by (by intros []). destruct (table_ok_isn t Ht) as [Hi Ht1].
  unfold next_isn in *. cbn [snd] in Ht1. set (t1 := {| connections := _ |}) in *. set (b := new_syn_sent l r (isn_counter t)).
  assert (tcb_ok b) as Hb.
  { split; try done. split_and!; try done. apply is_u32_wrap. }
  destruct (emit_done b (isn_counter t) 0 SYN (rcv_wnd b) []) as (d & -> & _); try done. cbn [mbind run_bind].
  eexists _, _, _. split; [done|]. split; [by apply table_ok_insert|]. intros k Hk.
  assert (step_effect (OConnect l r) t1 (conn_insert (l, r) b t1) k) as Heff.
  { apply effect_insert; try done. change (conn_get t1 (l, r)) with (conn_get t (l, r)). rewrite E. by constructor. }
  exact Heff.
Qed.

Lemma listen_spec p n t : table_ok t -> step_spec (OListen p n) t.
Proof.
  intros Ht. unfold step_spec. cbn [tcp_step]. eexists _, _, _. split; [done|]. unfold tcp_listen.
  destruct (listeners t !! p); cbn [snd]; (split; [|intros k _; by apply effect_same]); [done|].
  apply table_ok_listeners; [done|constructor].
Qed.

Lemma accept_spec p t : table_ok t -> step_spec (OAccept p) t.
Proof.
  intros Ht. unfold step_spec. cbn [tcp_step]. eexists _, _, _. split; [done|]. unfold tcp_accept.
  destruct (listeners t !! p) as [q|] eqn:Eq; cbn [snd]; [|split; [done|]; intros k _; by apply effect_same].
  pose proof (to_listen _ Ht _ _ Eq) as Hq. destruct (backlog q) as [|b rest] eqn:Eb; cbn [snd].
  { split; [done|]. intros k _. by apply effect_same. }
  apply Forall_cons in Hq as [(Hb & Hp & Hs) Hq]. set (t1 := set_listeners _ t).
  split; [apply table_ok_insert; [by apply table_ok_listeners|done|done]|]. intros k Hk.
  unfold step_effect. rewrite conn_get_insert. destruct (decide _) as [E|E].
  - apply encode_key_inj in E as ->; [|done|apply Hb]. split; [|by intros []]. right. exists q, b, rest.
    split_and!; try done. by rewrite conn_get_insert, decide_True.
  - split; [left; constructor|done].
Qed.

Lemma send_spec k0 data t : table_ok t -> key_ok k0 -> step_spec (OSend k0 data) t.
Proof.
  intros Ht Hk0. unfold step_spec. cbn [tcp_step]. eexists _, _, _. split; [done|]. unfold tcp_send.
  destruct (conn_get t k0) as [b|] eqn:Eb; cbn [snd]; [|split; [done|]; intros k _; by apply effect_same].
  destruct (table_ok_key t k0 b Ht Hk0 Eb) as [Hb Ek].
  case_bool_decide; cbn [snd]; [|split; [done|]; intros k _; by apply effect_same].
  split; [apply table_ok_insert; [done|by tcb_frame b|done]|]. intros k Hk. apply effect_insert; try done. rewrite Eb. by apply stay_as.
Qed.

Lemma recv_spec k0 n t : table_ok t -> key_ok k0 -> step_spec (ORecv k0 n) t.
Proof.
  intros Ht Hk0. unfold step_spec. cbn [tcp_step]. eexists _, _, _. split; [done|]. unfold tcp_recv.
  destruct (conn_get t k0) as [b|] eqn:Eb; cbn [snd]; [|split; [done|]; intros k _; by apply effect_same].
  destruct (table_ok_key t k0 b Ht Hk0 Eb) as [Hb Ek].
  split; [apply table_ok_insert; [done|by tcb_frame b|done]|]. intros k Hk. apply effect_insert; try done. rewrite Eb. by apply stay_as.
Qed.

Lemma close_spec k0 t : table_ok t -> key_ok k0 -> step_spec (OClose k0) t.
Proof.
  intros Ht Hk0. unfold step_spec. cbn [tcp_step]. unfold tcp_close.
  destruct (conn_get t k0) as [b|] eqn:Eb; [|eexists _, _, t; split; [done|]; split; [done|]; intros k _; by apply effect_same].
  destruct (table_ok_key t k0 b Ht Hk0 Eb) as [Hb Ek].
  assert (forall next, transition k0 (listeners t) (OClose k0) (Some b) (Some next) -> exists out bytes t',
            ('(_, o, t'') ← (o ← emit b (snd_nxt b) (rcv_nxt b) (Z.lor FIN ACK) (rcv_wnd b) [];
               Done (Ok () : result NetError unit, [o], conn_insert k0 (set_state next (set_snd (snd_una b) (wrap32 (snd_nxt b + 1)) (snd_wnd b) b)) t));
             Done (o, [] : list Z, t'')) = Done (out, bytes, t') /\ table_ok t' /\ forall k, key_ok k -> step_effect (OClose k0) t t' k) as Hfin.
  { intros next Htr. pose proof (tk_snd _ Hb) as (_ & S2 & _). pose proof (tk_rcv _ Hb) as [R1 R2].
    destruct (emit_done b (snd_nxt b) (rcv_nxt b) (Z.lor FIN ACK) (rcv_wnd b) []) as (d & -> & _); try done. cbn [mbind run_bind].
    eexists _, _, _. split; [done|]. split; [apply table_ok_insert; [done|by tcb_frame b|done]|].
    intros k Hk. apply effect_insert; try done. by rewrite Eb. }
  destruct (state b) eqn:Es;
    try (eexists _, _, t; split; [done|]; split; [done|]; intros k _; by apply effect_same); apply Hfin; by constructor.
Qed.

Lemma tick_spec now t : table_ok t -> step_spec (OTick now) t.
Proof.
  intros Ht. unfold step_spec. cbn [tcp_step]. destruct (tcp_tick_ok now t Ht) as (out & t' & -> & Ht' & _ & He).
  cbn [mbind run_bind]. eexists _, _, t'. split; [done|]. split; [done|]. intros k Hk. split; [left|by intros []].
  specialize (He (encode_conn_key k)). fold (conn_get t k) in He. fold (conn_get t' k) in He. unfold tick_effect in He.
  destruct (conn_get t k) as [b|], (conn_get t' k) as [b'|]; try done; [|by constructor|apply (tr_stay k _ _ None)].
  destruct He as (_ & _ & _ & E & _). change (state <$> Some b') with (Some (state b')). by apply stay_as.
Qed.

Lemma seg_key_ok h src dst : co_fields h -> is_arr 4 src -> is_arr 4 dst -> key_ok (seg_key h src dst).
Proof. intros (F1 & F2 & _) Hs Hd. by repeat split; try apply Hs; try apply Hd; try apply F1; try apply F2. Qed.

Lemma verdict_table h payload b v k t : table_ok t -> key_ok k -> conn_get t k = Some b ->
  verdict_spec h payload b v -> table_ok (apply_verdict k v t).
Proof.
  intros Ht Hk Eb Hv. destruct (table_ok_key t k b Ht Hk Eb) as [Hb ->]. destruct v as [b'| |b']; cbn [apply_verdict verdict_spec] in *.
  - destruct Hv as (Hb' & L & R & _). apply table_ok_insert; [done|done|congruence].
  - by apply table_ok_remove.
  - destruct Hv as (Hb' & L & R & _ & _ & Es). pose proof (table_ok_remove t (local b, remote b) Ht) as Ht'.
    destruct (listeners _ !! _) as [q|] eqn:Eq; [|done]. apply table_ok_listeners; [done|]. cbn [backlog].
    apply Forall_app. split; [by apply (to_listen _ Ht')|]. apply Forall_singleton. by split_and!.
Qed.

(** A verdict acts on its own connection only. *)
Lemma verdict_get k v t k' : conn_get (apply_verdict k v t) k' =
  if decide (encode_conn_key k' = encode_conn_key k) then match v with Keep b => Some b | _ => None end else conn_get t k'.
Proof.
  destruct v as [b| |b]; cbn [apply_verdict]; [apply conn_get_insert|apply conn_get_remove|].
  transitivity (conn_get (conn_remove k t) k'); [|apply conn_get_remove]. by destruct (listeners _ !! _).
Qed.

Lemma segment_existing h payload src dst now t b :
  table_ok t -> co_fields h -> is_arr 4 src -> is_arr 4 dst -> has (tcp_flags h) RST = false ->
  conn_get t (seg_key h src dst) = Some b ->
  exists out v, handle_segment h payload src dst now t = Done (out, apply_verdict (seg_key h src dst) v t) /\
    verdict_spec h payload b v.
Proof.
  intros Ht Hh Hs Hd Hr Eb. destruct (table_ok_key t _ b Ht (seg_key_ok h src dst Hh Hs Hd) Eb) as [Hb _].
  destruct (process_segment_spec (seg_key h src dst) h payload now b Hb Hh) as (out & v & Ep & Hv).
  exists out, v. split; [|done]. unfold handle_segment. rewrite Hr. fold (seg_key h src dst). rewrite Eb, Ep. done.
Qed.

Lemma segment_spec h payload src dst now t : table_ok t -> co_fields h -> is_arr 4 src -> is_arr 4 dst ->
  step_spec (OSegment h payload src dst now) t.
Proof.
  intros Ht Hh Hs Hd. pose proof (seg_key_ok h src dst Hh Hs Hd) as Hk0. unfold step_spec. cbn [tcp_step].
  pose proof Hh as (F1 & F2 & Fs & Fa & _).
  destruct (has (tcp_flags h) RST) eqn:Er.
  { unfold handle_segment. rewrite Er. fold (seg_key h src dst). unfold conn_contains. cbn [mbind run_bind].
    destruct (conn_get t (seg_key h src dst)) as [b|] eqn:Eb.
    - rewrite bool_decide_eq_true_2 by (by eexists). eexists _, _, _. split; [done|]. split; [by apply table_ok_remove|].
      intros k Hk. apply effect_remove; try done. rewrite Eb. by constructor.
    - rewrite bool_decide_eq_false_2 by (by intros []). eexists _, _, t. split; [done|]. split; [done|]. intros k _. by apply effect_same. }
  destruct (conn_get t (seg_key h src dst)) as [b|] eqn:Eb.
  { destruct (segment_existing h payload src dst now t b Ht Hh Hs Hd Er Eb) as (out & v & -> & Hv). cbn [mbind run_bind].
    eexists _, _, _. split; [done|]. split; [by eapply verdict_table|]. intros k Hk. unfold step_effect. rewrite verdict_get.
    destruct (decide _) as [E|E]; [|split; [left; constructor|done]]. apply encode_key_inj in E as ->; [|done|done].
    rewrite Eb. split; [left|done]. apply tr_segment; [done|done|]. destruct v as [b'| |b']; cbn in Hv |- *; [apply Hv|done|apply Hv]. }
  assert (forall seq ack flags win, is_u32 seq -> is_u32 ack -> is_u8 flags -> is_u16 win -> exists out bytes t',
            ('(out, t1) ← (o ← reply dst src h seq ack flags win; Done ([o], t)); Done (out, [] : list Z, t1)) = Done (out, bytes, t') /\
            table_ok t' /\ forall k, key_ok k -> step_effect (OSegment h payload src dst now) t t' k) as Hreply.
  { intros seq ack flags win H1 H2 H3 H4. destruct (reply_done src dst h seq ack flags win) as [d ->]; try done.
    cbn [mbind run_bind]. eexists _, _, t. split; [done|]. split; [done|]. intros k _. by apply effect_same. }
  unfold handle_segment. rewrite Er. fold (seg_key h src dst). rewrite Eb. cbn [negb].
  destruct (if has (tcp_flags h) SYN && negb (has (tcp_flags h) ACK) then listeners t !! dst_port h else None) as [q|] eqn:Eq.
  - destruct (has (tcp_flags h) SYN) eqn:E1; [|done]. destruct (has (tcp_flags h) ACK) eqn:E2; [done|].
    destruct (Z.leb_spec (max_backlog q) (Z.of_nat (length (backlog q)))) as [|Hroom]; [by apply Hreply; try apply is_u32_wrap|].
    destruct (table_ok_isn t Ht) as [Hi Ht1]. unfold next_isn in *. cbn [snd] in Ht1.
    set (t1 := {| connections := _ |}) in *. set (b := new_syn_received _ _ _ _).
    assert (tcb_ok b) as Hb.
    { split; try done; [split_and!; try done; apply is_u32_wrap|split; [apply is_u32_wrap|done]]. }
    destruct (reply_done src dst h (isn_counter t) (rcv_nxt b) (Z.lor SYN ACK) (rcv_wnd b)) as [d ->]; try done; [apply is_u32_wrap|].
    cbn [mbind run_bind]. eexists _, _, _. split; [done|]. split; [by apply table_ok_insert|]. intros k Hk.
    assert (step_effect (OSegment h payload src dst now) t1 (conn_insert (seg_key h src dst) b t1) k) as Heff; [|exact Heff].
    apply effect_insert; try done. change (conn_get t1 (seg_key h src dst)) with (conn_get t (seg_key h src dst)). rewrite Eb. by eapply tr_passive_open.
  - destruct (has (tcp_flags h) ACK); by apply Hreply; try apply is_u32_wrap.
Qed.

Lemma tcp_step_ok op t : table_ok t -> op_ok op -> step_spec op t.
Proof.
  intros Ht Hop. destruct op; cbn [op_ok] in Hop; destruct_and? Hop.
  - by apply connect_spec.
  - by apply listen_spec.
  - by apply accept_spec.
  - by apply send_spec.
  - by apply recv_spec.
  - by apply close_spec.
  - by apply segment_spec.
  - by apply tick_spec.
Qed.

(** Runs of a whole sequence, with the outputs of each operation. *)
Fixpoint tcp_run (ops : list tcp_op) (t : TcpSocketTable) : run (list (list TcpOutput) * TcpSocketTable) :=
  match ops with
  | [] => Done ([], t)
  | op :: ops => '(out, _, t) ← tcp_step op t; '(outs, t) ← tcp_run ops t; Done (out :: outs, t)
  end.

Lemma tcp_run_ok ops : forall t, table_ok t -> Forall op_ok ops -> exists outs t', tcp_run ops t = Done (outs, t') /\ table_ok t'.
Proof.
  induction ops as [|op ops IH]; intros t Ht Hops; [by exists [], t|]. apply Forall_cons in Hops as [Hop Hops].
  destruct (tcp_step_ok op t Ht Hop) as (out & bytes & t1 & E & Ht1 & _). cbn [tcp_run]. rewrite E. cbn [mbind run_bind].
  destruct (IH t1 Ht1 Hops) as (outs & t' & -> & Ht'). cbn [mbind run_bind]. by exists (out :: outs), t'.
Qed.

(** ** In-order delivery *)

(** What an operation does to the receive side of the connection [k]. *)
Definition recv_change (op : tcp_op) (k : TcpConnectionKey) (bytes : list Z) (b b' : TcpControlBlock) : Prop :=
  let quiet := recv_buffer b' = recv_buffer b /\
    (state b = Established -> state b' = Established -> rcv_nxt b' = rcv_nxt b) in
  match op with
  | ORecv k0 _ => if decide (k = k0) then recv_buffer b = bytes ++ recv_buffer b' /\ rcv_nxt b' = rcv_nxt b else quiet
  | OSegment h payload src dst _ => if decide (k = seg_key h src dst) then recv_effect h payload b b' else quiet
  | _ => quiet
  end.

(** The connection is not replaced by one from the accept queue. *)
Definition not_replaced (op : tcp_op) (k : TcpConnectionKey) (t : TcpSocketTable) : Prop :=
  match op with OAccept p => fst (tcp_accept p t) <> Some k | _ => True end.

Lemma accept_other p k t : table_ok t -> key_ok k -> fst (tcp_accept p t) <> Some k ->
  conn_get (snd (tcp_accept p t)) k = conn_get t k.
Proof.
  intros Ht Hk Hn. unfold tcp_accept in *. destruct (listeners t !! p) as [q|] eqn:Eq; cbn [fst snd] in *; [|done].
  pose proof (to_listen _ Ht _ _ Eq) as Hq. destruct (backlog q) as [|b0 rest]; cbn [fst snd] in *; [done|].
  apply Forall_cons in Hq as [(Hb0 & _) _]. rewrite conn_get_insert. destruct (decide _) as [E|E]; [|done].
  apply encode_key_inj in E as ->; [done|done|apply Hb0].
Qed.

Lemma step_recv op k t out bytes t' b b' :
  table_ok t -> op_ok op -> key_ok k -> tcp_step op t = Done (out, bytes, t') -> not_replaced op k t ->
  conn_get t k = Some b -> conn_get t' k = Some b' -> recv_change op k bytes b b'.
Proof.
  intros Ht Hop Hk E Hn Eb Eb'. destruct (tcp_step_ok op t Ht Hop) as (o & by0 & t1 & E1 & _ & Heff).
  rewrite E in E1. injection E1 as <- <- <-. destruct (Heff k Hk) as [_ Hframe].
  assert (~ concerns op k -> b' = b) as Hsame by (intros Hc; specialize (Hframe Hc); congruence). clear Heff Hframe.
  assert (forall x y : TcpControlBlock, Some x = Some y -> x = y) as Hinj by congruence.
  destruct op as [l r|p n|p|k0 data|k0 n|k0|h payload src dst now|now]; cbn [tcp_step] in E; unfold recv_change.
  - destruct (decide (k = (l, r))) as [->|Hne]; [|by rewrite (Hsame Hne)]. unfold tcp_connect, conn_contains in E.
    rewrite Eb, bool_decide_eq_true_2 in E by (by eexists). cbn in E. injection E as <- <- <-.
    by assert (b' = b) as -> by congruence.
  - by rewrite Hsame by (cbn; tauto).
  - injection E as <- <- <-. rewrite accept_other in Eb' by done. by assert (b' = b) as -> by congruence.
  - destruct (decide (k = k0)) as [->|Hne]; [|by rewrite (Hsame Hne)]. injection E as <- <- <-. unfold tcp_send in Eb'.
    rewrite Eb in Eb'. case_bool_decide; cbn [snd] in Eb'; [|by assert (b' = b) as -> by congruence].
    rewrite conn_get_insert, decide_True in Eb' by done. injection Eb' as <-. done.
  - destruct (decide (k = k0)) as [->|Hne]; [|by rewrite (Hsame Hne)]. injection E as <- <- <-. unfold tcp_recv in *.
    rewrite Eb in *. cbn [fst snd] in *. rewrite conn_get_insert, decide_True in Eb' by done. injection Eb' as <-.
    cbn. by rewrite take_drop.
  - destruct (decide (k = k0)) as [->|Hne]; [|by rewrite (Hsame Hne)]. unfold tcp_close in E. rewrite Eb in E.
    destruct (state b) eqn:Es; try (cbn in E; injection E as <- <- <-; by assert (b' = b) as -> by congruence).
    all: destruct (emit _ _ _ _ _ _) as [d|]; cbn [mbind run_bind] in E; [|done]; injection E as <- <- <-.
    all: rewrite conn_get_insert, decide_True in Eb' by done; injection Eb' as <-; done.
  - destruct (decide (k = seg_key h src dst)) as [->|Hne]; [|by rewrite (Hsame Hne)]. destruct Hop as (Hh & Hs & Hd).
    destruct (has (tcp_flags h) RST) eqn:Er.
    + unfold handle_segment in E. rewrite Er in E. fold (seg_key h src dst) in E. unfold conn_contains in E.
      rewrite Eb, bool_decide_eq_true_2 in E by (by eexists). cbn [mbind run_bind] in E. injection E as <- <- <-.
      by rewrite conn_get_remove, decide_True in Eb' by done.
    + destruct (segment_existing h payload src dst now t b Ht Hh Hs Hd Er Eb) as (out' & v & Ev & Hv).
      rewrite Ev in E. cbn [mbind run_bind] in E. injection E as <- <- <-. rewrite verdict_get, decide_True in Eb' by done.
      destruct v as [b1| |b1]; [|done|done]. injection Eb' as <-. apply Hv.
  - destruct (tcp_tick_ok now t Ht) as (o1 & t1 & E1 & _ & _ & He). rewrite E1 in E. cbn [mbind run_bind] in E.
    injection E as <- <- <-. specialize (He (encode_conn_key k)). unfold conn_get in Eb, Eb'. rewrite Eb, Eb' in He.
    destruct He as (_ & _ & _ & _ & -> & _ & _ & -> & _). done.
Qed.

Section Stream.
(** A connection [k] whose peer started its numbers at [irs0] and sends the
    bytes [stream]; the network may lose, repeat and reorder segments and cut
    the stream into them anew on each transmission. *)
Context (k : TcpConnectionKey) (irs0 : Z) (stream : list Z).
Context (Hk : key_ok k) (Hlen : Z.of_nat (length stream) < 2 ^ 32).

Definition from_stream (op : tcp_op) : Prop :=
  match op with
  | OSegment h payload src dst _ => k = seg_key h src dst -> payload <> [] ->
      exists off, (off + length payload <= length stream)%nat /\ seq_num h = wrap32 (irs0 + 1 + Z.of_nat off) /\
        payload = take (length payload) (drop off stream)
  | _ => True
  end.

(** The tables reached while [k] stays connected, with the bytes the
    application has read from it. *)
Inductive receives (t0 : TcpSocketTable) : TcpSocketTable -> list Z -> Prop :=
| receives_start : receives t0 t0 []
| receives_step t d op out bytes t' : receives t0 t d -> op_ok op -> from_stream op -> not_replaced op k t ->
    tcp_step op t = Done (out, bytes, t') -> is_Some (conn_get t' k) ->
    receives t0 t' (d ++ match op with ORecv k0 _ => if decide (k = k0) then bytes else [] | _ => [] end).

Definition stream_inv (t : TcpSocketTable) (d : list Z) : Prop :=
  table_ok t /\ exists b n, conn_get t k = Some b /\ state b <> SynSent /\ state b <> SynReceived /\
    (n <= length stream)%nat /\ d ++ recv_buffer b = take n stream /\
    (state b = Established -> rcv_nxt b = wrap32 (irs0 + 1 + Z.of_nat n)).

Lemma rfc_arrow_established flags a s : s <> SynSent -> rfc_arrow flags a s (Some Established) -> s = Established.
Proof. intros Hs H. by inversion H. Qed.

Lemma transition_established op ls b s' :
  state b <> SynSent -> state b <> SynReceived -> transition k ls op (Some b) (Some s') ->
  s' <> SynSent /\ s' <> SynReceived /\ (s' = Established -> state b = Established).
Proof.
  intros H1 H2 Ht. inversion Ht; subst; try done.
  match goal with H : rfc_arrow _ _ _ _ |- _ => inversion H; subst; done end.
Qed.

(** A segment of the stream that starts where the receiver is continues it. *)
Lemma stream_continues n off (payload : list Z) : (n <= length stream)%nat -> (off + length payload <= length stream)%nat ->
  payload <> [] -> wrap32 (irs0 + 1 + Z.of_nat off) = wrap32 (irs0 + 1 + Z.of_nat n) ->
  payload = take (length payload) (drop off stream) ->
  (n + length payload <= length stream)%nat /\ take n stream ++ payload = take (n + length payload) stream.
Proof.
  intros Hn Ho Hne Hw Hp. assert (off = n) as ->.
  { unfold wrap32 in Hw. pose proof (Z.div_mod (irs0 + 1 + Z.of_nat off) (2 ^ 32) ltac:(lia)).
    pose proof (Z.div_mod (irs0 + 1 + Z.of_nat n) (2 ^ 32) ltac:(lia)).
    set (q := (irs0 + 1 + Z.of_nat off) / 2 ^ 32) in *. set (q' := (irs0 + 1 + Z.of_nat n) / 2 ^ 32) in *.
    assert (length payload <> 0)%nat by (by destruct payload).
    assert (Z.of_nat off - Z.of_nat n = (q - q') * 2 ^ 32) by lia. assert (q = q') by lia. lia. }
  split; [done|]. rewrite Hp at 1. by rewrite take_take_drop.
Qed.

Lemma wrap32_add a b : wrap32 (wrap32 a + wrap32 b) = wrap32 (a + b).
Proof. unfold wrap32. by rewrite <- Zplus_mod. Qed.

Lemma stream_step t d op out bytes t' : stream_inv t d -> op_ok op -> from_stream op -> not_replaced op k t ->
  tcp_step op t = Done (out, bytes, t') -> is_Some (conn_get t' k) ->
  stream_inv t' (d ++ match op with ORecv k0 _ => if decide (k = k0) then bytes else [] | _ => [] end).
Proof.
  intros (Ht & b & n & Eb & H1 & H2 & Hn & Hd & Hr) Hop Hfrom Hnr E [b' Eb'].
  pose proof (step_recv op k t out bytes t' b b' Ht Hop Hk E Hnr Eb Eb') as Hc.
  destruct (tcp_step_ok op t Ht Hop) as (o1 & by1 & t1 & E1 & Ht' & Heff). rewrite E in E1. injection E1 as <- <- <-.
  split; [done|]. destruct (Heff k Hk) as [Htr _]. rewrite Eb, Eb' in Htr. cbn in Htr.
  assert (state b' <> SynSent /\ state b' <> SynReceived /\ (state b' = Established -> state b = Established)) as (S1 & S2 & S3).
  { assert ((exists p, op = OAccept p) \/ ~ exists p, op = OAccept p) as [[p ->]|Hna]
      by (destruct op; try (right; by intros [? ?]); left; by eexists).
    - cbn [tcp_step] in E. injection E as <- <- <-. rewrite accept_other in Eb' by done.
      by assert (b' = b) as -> by congruence.
    - destruct Htr as [Htr|Hacc]; [by apply (transition_established op (listeners t) b)|]. destruct op; try done. exfalso. apply Hna. by eexists. }
  assert (recv_buffer b' = recv_buffer b /\ (state b = Established -> state b' = Established -> rcv_nxt b' = rcv_nxt b) ->
          exists b0 m, conn_get t' k = Some b0 /\ state b0 <> SynSent /\ state b0 <> SynReceived /\ (m <= length stream)%nat /\
            (d ++ []) ++ recv_buffer b0 = take m stream /\ (state b0 = Established -> rcv_nxt b0 = wrap32 (irs0 + 1 + Z.of_nat m)))
    as Hquiet.
  { intros [Q1 Q2]. exists b', n. split_and!; try done; [by rewrite app_nil_r, Q1|]. intros Es. rewrite Q2 by auto. by apply Hr, S3. }
  destruct op as [| | | |k0 m| |h payload src dst now|]; cbn [recv_change] in Hc; try by apply Hquiet.
  - destruct (decide (k = k0)) as [_|]; [|by apply Hquiet]. destruct Hc as [C1 C2]. exists b', n. split_and!; try done.
    + by rewrite <- app_assoc, <- C1.
    + intros Es. rewrite C2. by apply Hr, S3.
  - destruct (decide (k = seg_key h src dst)) as [Ek|]; [|by apply Hquiet]. destruct Hc as [[C1 C2]|(C0 & C1 & C2 & C3 & C4)].
    + by apply Hquiet.
    + destruct (Hfrom Ek C1) as (off & Ho & Hs & Hp).
      destruct (stream_continues n off payload Hn Ho C1) as [N1 N2]; [by rewrite <- Hs, C2; apply Hr|done|].
      exists b', (n + length payload)%nat. split_and!; try done.
      * by rewrite app_nil_r, C3, app_assoc, Hd.
      * intros Es. rewrite C4, Hr, wrap32_add by done. f_equal. lia.
Qed.

Lemma receives_inv t0 t d : receives t0 t d -> stream_inv t0 [] -> stream_inv t d.
Proof. induction 1; intros Hinit; [done|]. eapply stream_step; eauto. Qed.
End Stream.

(** ** Sequence numbers *)

Lemma seq_lt_window x i j : 0 <= i < 2 ^ 31 -> 0 <= j < 2 ^ 31 ->
  seq_lt (wrap32 (x + i)) (wrap32 (x + j)) = (i <? j) /\ seq_le (wrap32 (x + i)) (wrap32 (x + j)) = (i <=? j).
Proof.
  intros Hi Hj. unfold seq_le, seq_lt. assert (wrap32 (wrap32 (x + j) - wrap32 (x + i)) = (j - i) mod 2 ^ 32) as ->.
  { unfold wrap32. rewrite <- Zminus_mod. f_equal. lia. }
  assert ((wrap32 (x + i) =? wrap32 (x + j)) = (i =? j)) as ->.
  { apply eq_true_iff_eq. rewrite !Z.eqb_eq. split; [|congruence]. unfold wrap32. intros E.
    pose proof (Z.div_mod (x + i) (2 ^ 32) ltac:(lia)). pose proof (Z.div_mod (x + j) (2 ^ 32) ltac:(lia)).
    set (q := (x + i) / 2 ^ 32) in *. set (q' := (x + j) / 2 ^ 32) in *. assert (i - j = (q - q') * 2 ^ 32) by lia.
    assert (q = q') by lia. lia. }
  assert (((j - i) mod 2 ^ 32 <? 2 ^ 31) = (i <=? j)) as ->.
  { apply eq_true_iff_eq. rewrite Z.ltb_lt, Z.leb_le. destruct (Z.le_gt_cases i j); [rewrite Z.mod_small; lia|].
    replace (j - i) with (j - i + 2 ^ 32 + (-1) * 2 ^ 32) by lia. rewrite Z.mod_add, Z.mod_small by lia. lia. }
  destruct (Z.ltb_spec i j), (Z.leb_spec i j), (Z.eqb_spec i j); try lia; done.
Qed.

(** ** Retransmission *)

(** What a tick makes of one connection. *)
Definition tick_block (k : TcpConnectionKey) (now : Z) (b : TcpControlBlock) : option TcpControlBlock :=
  if bool_decide (state b = TimeWait) && (TIME_WAIT_MS <=? saturating_sub now (time_wait_started_ms b)) then None
  else match retransmit_loop k now (filter (fun e => rto_ms b <= saturating_sub now (sent_at e)) (retransmit_queue b)) b with
       | Done (_, r) => r
       | Panicked => None
       end.

Lemma retransmit_loop_closed k now expired : forall b out,
  retransmit_loop k now expired b = Done (out, None) -> ConnectionClosed k ∈ out.
Proof.
  induction expired as [|e expired IH]; intros b out E; cbn [retransmit_loop] in E; [done|].
  destruct (List.find _ _) as [qe|]; [|by eapply IH]. destruct (_ <=? _); destruct (emit _ _ _ _ _ _) as [o|]; try done; cbn [mbind run_bind] in E.
  - injection E as <-. apply list_elem_of_further, list_elem_of_here.
  - destruct (retransmit_loop _ _ _ _) as [[out' r]|] eqn:El; [|done]. cbn [mbind run_bind] in E. injection E as <- ->.
    apply list_elem_of_further. by eapply IH.
Qed.

Lemma tick_connection_block k now t b : table_ok t -> key_ok k -> conn_get t k = Some b ->
  exists out t', tick_connection k now t = Done (out, t') /\ conn_get t' k = tick_block k now b /\
    (tick_block k now b = None -> ConnectionClosed k ∈ out).
Proof.
  intros Ht Hk Eb. destruct (table_ok_key t k b Ht Hk Eb) as [Hb _]. unfold tick_connection, tick_block. rewrite Eb.
  destruct (_ && _).
  { eexists _, _. split; [done|]. rewrite conn_get_remove, decide_True by done. split; [done|]. intros _. apply list_elem_of_here. }
  set (ex := filter _ _). destruct (retransmit_loop_ok k now ex b Hb) as (out & r & E & _). rewrite E. cbn [mbind run_bind].
  eexists _, _. split; [done|]. split.
  - destruct r; [rewrite conn_get_insert|rewrite conn_get_remove]; by rewrite decide_True by done.
  - intros ->. by eapply retransmit_loop_closed.
Qed.

(** A tick of the whole table does to [k] what ticking [k] alone does. *)
Lemma tick_keys_block keys now k : forall t, key_ok k -> NoDup keys -> table_ok t ->
  exists out t', tick_keys keys now t = Done (out, t') /\ table_ok t' /\
    conn_get t' k = (if decide (encode_conn_key k ∈ keys) then conn_get t k ≫= tick_block k now else conn_get t k) /\
    (encode_conn_key k ∈ keys -> is_Some (conn_get t k) -> conn_get t' k = None -> ConnectionClosed k ∈ out).
Proof.
  induction keys as [|ek keys IH]; intros t Hk Hnd Ht; cbn [tick_keys].
  { eexists _, t. split; [done|]. split; [done|]. split; [done|]. by intros ?%elem_of_nil. }
  apply NoDup_cons in Hnd as [Hnin Hnd].
  assert (exists out t1, match connections t !! ek with Some b => tick_connection (local b, remote b) now t | None => Done ([], t) end
            = Done (out, t1) /\ table_ok t1 /\
          conn_get t1 k = (if decide (encode_conn_key k = ek) then conn_get t k ≫= tick_block k now else conn_get t k) /\
          (encode_conn_key k = ek -> is_Some (conn_get t k) -> conn_get t1 k = None -> ConnectionClosed k ∈ out))
    as (out & t1 & -> & Ht1 & Hc1 & Ho1).
  { destruct (connections t !! ek) as [b|] eqn:E.
    - destruct (to_conn _ Ht _ _ E) as [Hb Ek]. pose proof (tk_addr _ Hb) as Hkb.
      destruct (tick_connection_ok (local b, remote b) now t Ht Hkb) as (out & t1 & E1 & Ht1 & _ & _ & Hf).
      destruct (decide (encode_conn_key k = ek)) as [E2|E2].
      + rewrite Ek in E2. apply encode_key_inj in E2; [|done|done].
        assert (conn_get t k = Some b) as Eb by (unfold conn_get; by rewrite E2, <- Ek).
        destruct (tick_connection_block k now t b Ht Hk Eb) as (out' & t1' & E1' & Hc & Ho). rewrite <- E2 in *.
        exists out', t1'. rewrite E1' in E1. injection E1 as <- <-. rewrite Eb. cbn [mbind option_bind].
        split_and!; try done. intros _ _ HN. apply Ho. congruence.
      + exists out, t1. split_and!; try done. apply Hf. congruence.
    - exists [], t. split_and!; try done; [|intros E2 [b Hb]; unfold conn_get in Hb; congruence].
      destruct (decide (encode_conn_key k = ek)) as [E2|]; [|done]. unfold conn_get. rewrite E2, E. done. }
  cbn [mbind run_bind]. destruct (IH t1 Hk Hnd Ht1) as (out' & t2 & -> & Ht2 & Hc2 & Ho2). cbn [mbind run_bind].
  eexists _, t2. split; [done|]. split; [done|]. destruct (decide (encode_conn_key k = ek)) as [E2|E2].
  - rewrite decide_False in Hc2 by congruence. rewrite decide_True by (rewrite E2; apply list_elem_of_here).
    split; [congruence|]. intros _ Hs HN. apply elem_of_app. left. apply Ho1; [done|done|congruence].
  - split.
    + rewrite Hc2, Hc1. destruct (decide (_ ∈ keys)) as [Hin|Hin]; [rewrite decide_True by (by apply list_elem_of_further); done|].
      rewrite decide_False; [done|]. by intros [?|?]%elem_of_cons.
    + intros [?|Hin]%elem_of_cons Hs HN; [done|]. apply elem_of_app. right. apply Ho2; [done|congruence|done].
Qed.

Lemma tcp_tick_block now k t : key_ok k -> table_ok t ->
  exists out t', tcp_tick now t = Done (out, t') /\ table_ok t' /\ conn_get t' k = conn_get t k ≫= tick_block k now /\
    (is_Some (conn_get t k) -> conn_get t' k = None -> ConnectionClosed k ∈ out).
Proof.
  intros Hk Ht. set (keys := merge_sort key_le (fst <$> map_to_list (connections t))).
  assert (forall ek, ek ∈ keys <-> is_Some (connections t !! ek)) as Hin.
  { intros ek. unfold keys. rewrite merge_sort_Permutation, list_elem_of_fmap. split.
    - intros ([ek' b] & -> & H%elem_of_map_to_list). by exists b.
    - intros [b Hb]. exists (ek, b). split; [done|]. by apply elem_of_map_to_list. }
  destruct (tick_keys_block keys now k t Hk) as (out & t' & E & Ht' & Hc & Ho); [|done|].
  { unfold keys. rewrite merge_sort_Permutation. apply NoDup_fst_map_to_list. }
  exists out, t'. split; [exact E|]. split; [done|]. split; [|intros Hs; apply Ho; [by apply Hin|done]].
  rewrite Hc. destruct (decide _) as [|Hn]; [done|]. destruct (conn_get t k) eqn:Eb; [|done]. destruct Hn. apply Hin. by eexists.
Qed.

(** The oldest unacknowledged segment stays at the head of the queue, and its
    count only grows. *)
Lemma retransmit_loop_head k now expired : forall b e q out b',
  retransmit_queue b = e :: q -> rto_ms b <= 60000 -> retransmit_loop k now expired b = Done (out, Some b') ->
  exists e' q', retransmit_queue b' = e' :: q' /\ retransmit_count e <= retransmit_count e' /\
    (sent_at e' = sent_at e \/ sent_at e' = now) /\ rto_ms b' <= 60000.
Proof.
  induction expired as [|x expired IH]; intros b e q out b' Eq Hr E; cbn [retransmit_loop] in E.
  { injection E as _ <-. exists e, q. split_and!; [done|lia|by left|done]. }
  destruct (List.find _ _) as [qe|]; [|by eapply IH]. destruct (_ <=? _); destruct (emit _ _ _ _ _ _) as [o|]; try done.
  cbn [mbind run_bind] in E. destruct (retransmit_loop _ _ _ _) as [[out' r]|] eqn:El; [|done]. cbn [mbind run_bind] in E.
  injection E as _ ->. set (b1 := set_cc _ _ _ _) in El.
  assert (exists e1 q1, retransmit_queue b1 = e1 :: q1 /\ retransmit_count e <= retransmit_count e1 /\
            (sent_at e1 = sent_at e \/ sent_at e1 = now)) as (e1 & q1 & Eq1 & Hc1 & Hs1).
  { cbn. rewrite Eq. cbn [touch_entry]. destruct (_ =? _); eexists _, _; (split; [done|]); cbn; [|split; [lia|by left]].
    split; [lia|by right]. }
  destruct (IH b1 e1 q1 out' b' Eq1) as (e' & q' & H1 & H2 & H3 & H4); [cbn; lia|done|].
  exists e', q'. split_and!; [done|lia| |done]. destruct H3 as [->|]; [|by right]. done.
Qed.

Lemma tick_block_head k now b e q b' :
  retransmit_queue b = e :: q -> rto_ms b <= saturating_sub now (sent_at e) -> rto_ms b <= 60000 -> tick_block k now b = Some b' ->
  retransmit_count e < MAX_RETRANSMIT /\ exists e' q', retransmit_queue b' = e' :: q' /\
    retransmit_count e + 1 <= retransmit_count e' /\ sent_at e' = now /\ rto_ms b' <= 60000.
Proof.
  intros Eq Hx Hr E. unfold tick_block in E. destruct (_ && _); [done|]. rewrite Eq, filter_cons_True in E by done.
  cbn [retransmit_loop] in E. rewrite Eq in E. cbn [List.find] in E. rewrite Z.eqb_refl in E.
  destruct (Z.leb_spec MAX_RETRANSMIT (retransmit_count e)); destruct (emit _ _ _ _ _ _) as [o|]; try done. split; [done|].
  cbn [mbind run_bind] in E. destruct (retransmit_loop _ _ _ _) as [[out r]|] eqn:El; [|done]. cbn [mbind run_bind] in E. subst r.
  cbn [touch_entry] in El. rewrite Z.eqb_refl in El.
  apply (retransmit_loop_head k now) with (e := {| re_seq := re_seq e; re_data := re_data e; sent_at := now;
    retransmit_count := retransmit_count e + 1 |}) (q := q) in El as (e' & q' & H1 & H2 & H3 & H4); [|done|cbn; lia].
  cbn in H2, H3. exists e', q'. split_and!; [done|lia| |done]. by destruct H3.
Qed.

(** Timer calls at least a minute apart, the first a minute after [prev]. *)
Fixpoint spaced (prev : Z) (times : list Z) : Prop :=
  match times with [] => True | n :: times => prev + 60000 <= n /\ spaced n times end.

Lemma ticks_none k times : forall t, key_ok k -> table_ok t -> conn_get t k = None ->
  exists outs t', tcp_run (OTick <$> times) t = Done (outs, t') /\ conn_get t' k = None.
Proof.
  induction times as [|n times IH]; intros t Hk Ht E; [by eexists _, t|]. rewrite fmap_cons. cbn [tcp_run tcp_step].
  destruct (tcp_tick_block n k t Hk Ht) as (out & t1 & -> & Ht1 & Hc & _). cbn [mbind run_bind]. rewrite E in Hc.
  destruct (IH t1 Hk Ht1 Hc) as (outs & t' & -> & H). cbn [mbind run_bind]. by eexists _, t'.
Qed.

Lemma ticks_give_up k times : forall t b e q, key_ok k -> table_ok t -> conn_get t k = Some b ->
  retransmit_queue b = e :: q -> rto_ms b <= 60000 -> spaced (sent_at e) times ->
  MAX_RETRANSMIT - retransmit_count e < Z.of_nat (length times) -> times <> [] ->
  exists outs t', tcp_run (OTick <$> times) t = Done (outs, t') /\ conn_get t' k = None /\ ConnectionClosed k ∈ concat outs.
Proof.
  induction times as [|n times IH]; intros t b e q Hk Ht Eb Eq Hr Hsp Hlen Hne; [done|]. cbn [length spaced] in Hlen, Hsp.
  destruct Hsp as [Hn Hsp]. rewrite fmap_cons. cbn [tcp_run tcp_step].
  destruct (tcp_tick_block n k t Hk Ht) as (out & t1 & -> & Ht1 & Hc & Ho). cbn [mbind run_bind]. rewrite Eb in Hc, Ho.
  cbn [mbind option_bind] in Hc. destruct (tick_block k n b) as [b1|] eqn:Et.
  - destruct (tick_block_head k n b e q b1 Eq) as (Hlt & e' & q' & H1 & H2 & H3 & H4); [unfold saturating_sub; lia|done|done|].
    assert (times <> []) as Hne' by (intros ->; cbn [length] in Hlen; lia).
    destruct (IH t1 b1 e' q' Hk Ht1 Hc H1 H4) as (outs & t' & -> & HN & HC); [by rewrite H3|lia|done|]. cbn [mbind run_bind].
    exists (out :: outs), t'. split; [done|]. split; [done|]. cbn [concat]. apply elem_of_app. by right.
  - destruct (ticks_none k times t1 Hk Ht1 Hc) as (outs & t' & -> & HN). cbn [mbind run_bind]. exists (out :: outs), t'.
    split; [done|]. split; [done|]. cbn [concat]. apply elem_of_app. left. apply Ho; [by eexists|done].
Qed.

(** ** Handshake *)

(** What the service does with a packet that holds a TCP segment. *)
Definition deliver (data : list Z) (now : Z) (t : TcpSocketTable) : run (list TcpOutput * TcpSocketTable) :=
  r ← parse_ipv4_packet data;
  match r with
  | Some (ih, seg) =>
      if protocol ih =? 6 then
        match tcp_parse seg with
        | Some (th, payload) => handle_segment th payload (ip_src ih) (ip_dst ih) now t
        | None => Done ([], t)
        end
      else Done ([], t)
  | None => Done ([], t)
  end.

Lemma deliver_segment src dst sp dp seq ack flags win data now t :
  is_arr 4 src -> is_arr 4 dst -> is_u16 sp -> is_u16 dp -> is_u32 seq -> is_u32 ack -> is_u8 flags -> is_u16 win ->
  build_tcp_segment src dst sp dp seq ack flags win [] = Done data ->
  exists ck, deliver data now t = handle_segment (segment_header sp dp seq ack flags win ck) [] src dst now t /\
    tcp_flags (segment_header sp dp seq ack flags win ck) = flags.
Proof.
  intros H1 H2 H3 H4 H5 H6 H7 H8 E.
  destruct (tcp_segment_roundtrip src dst sp dp seq ack flags win []) as (ih & ck & Eb & I1 & I2 & I3 & Hf & _ & Hp); try done.
  set (pkt := ipv4_bytes ih ++ _) in Eb. assert (data = pkt) as -> by congruence. unfold pkt. exists ck. split; [|done]. destruct (Hp []) as [P1 P2].
  change (([] : list Z) ++ []) with ([] : list Z) in P1, P2. unfold deliver. rewrite P1. cbn [mbind run_bind]. rewrite I3. change (6 =? 6) with true. cbv iota. rewrite P2, I1, I2. done.
Qed.

Section Handshake.
Context (c s : SocketApiAddr) (Hc : addr_ok c) (Hs : addr_ok s).

Lemma handshake_client tc : table_ok tc -> conn_get tc (c, s) = None ->
  exists syn tc1, tcp_connect c s tc = Done (Ok (c, s), [SendSegment syn (sa_ip s)], tc1) /\ table_ok tc1 /\
    conn_get tc1 (c, s) = Some (new_syn_sent c s (isn_counter tc)) /\
    build_tcp_segment (sa_ip c) (sa_ip s) (sa_port c) (sa_port s) (isn_counter tc) 0 SYN 65535 [] = Done syn.
Proof.
  intros Ht E. unfold tcp_connect, conn_contains. rewrite E, bool_decide_eq_false_2 by (by intros []).
  destruct (table_ok_isn tc Ht) as [Hi Ht1]. unfold next_isn in *. cbn [snd] in Ht1.
  set (b := new_syn_sent c s (isn_counter tc)). assert (tcb_ok b) as Hb.
  { split; try done. split_and!; try done. apply is_u32_wrap. }
  destruct (emit_done b (isn_counter tc) 0 SYN (rcv_wnd b) []) as (d & -> & Ed); try done. cbn [mbind run_bind].
  eexists d, _. split; [done|]. split; [by apply table_ok_insert|]. rewrite conn_get_insert, decide_True by done. done.
Qed.

Lemma handshake_syn seq syn now ts q : table_ok ts -> is_u32 seq -> conn_get ts (s, c) = None ->
  listeners ts !! sa_port s = Some q -> Z.of_nat (length (backlog q)) < max_backlog q ->
  build_tcp_segment (sa_ip c) (sa_ip s) (sa_port c) (sa_port s) seq 0 SYN 65535 [] = Done syn ->
  exists syn_ack ts1, deliver syn now ts = Done ([SendSegment syn_ack (sa_ip c)], ts1) /\ table_ok ts1 /\
    conn_get ts1 (s, c) = Some (new_syn_received s c seq (isn_counter ts)) /\ listeners ts1 = listeners ts /\
    build_tcp_segment (sa_ip s) (sa_ip c) (sa_port s) (sa_port c) (isn_counter ts) (wrap32 (seq + 1)) (Z.lor SYN ACK) 65535 []
      = Done syn_ack.
Proof.
  intros Ht Hq E El Hl Eb. destruct Hc as [C1 C2], Hs as [S1 S2].
  destruct (deliver_segment (sa_ip c) (sa_ip s) (sa_port c) (sa_port s) seq 0 SYN 65535 syn now ts) as (ck & -> & Hf); try done.
  set (h := segment_header _ _ _ _ _ _ _) in *. unfold handle_segment. rewrite Hf. cbn [has].
  change (has SYN RST) with false. change (has SYN SYN && negb (has SYN ACK)) with true. cbv iota.
  fold (seg_key h (sa_ip c) (sa_ip s)). assert (seg_key h (sa_ip c) (sa_ip s) = (s, c)) as -> by (by destruct c, s).
  rewrite E. change (dst_port h) with (sa_port s). rewrite El, (proj2 (Z.leb_gt _ _) Hl).
  destruct (table_ok_isn ts Ht) as [Hi Ht1]. unfold next_isn in *. cbn [snd] in Ht1.
  replace {| sa_ip := sa_ip s; sa_port := sa_port s |} with s by (by destruct s).
  replace {| sa_ip := sa_ip c; sa_port := src_port h |} with c by (by destruct c).
  set (b := new_syn_received _ _ _ _). assert (tcb_ok b) as Hb.
  { split; try done; [split_and!; try done; apply is_u32_wrap|split; [apply is_u32_wrap|done]]. }
  unfold reply. change (src_port h) with (sa_port c). change (dst_port h) with (sa_port s).
  destruct (tcp_segment_roundtrip (sa_ip s) (sa_ip c) (sa_port s) (sa_port c) (isn_counter ts) (rcv_nxt b) (Z.lor SYN ACK)
              (rcv_wnd b) []) as (ih & ck' & E' & _); try done; [apply is_u32_wrap|]. rewrite E'. cbn [mbind run_bind].
  eexists _, _. split; [done|]. split; [by apply table_ok_insert|]. rewrite conn_get_insert, decide_True by done. done.
Qed.

Lemma handshake_syn_ack iss0 seq syn_ack now tc : table_ok tc -> is_u32 iss0 -> is_u32 seq ->
  conn_get tc (c, s) = Some (new_syn_sent c s iss0) ->
  build_tcp_segment (sa_ip s) (sa_ip c) (sa_port s) (sa_port c) seq (wrap32 (iss0 + 1)) (Z.lor SYN ACK) 65535 [] = Done syn_ack ->
  exists ack tc1 b, deliver syn_ack now tc = Done ([SendSegment ack (sa_ip s); ConnectionEstablished (c, s)], tc1) /\ table_ok tc1 /\
    conn_get tc1 (c, s) = Some b /\ state b = Established /\ snd_una b = wrap32 (iss0 + 1) /\ snd_nxt b = wrap32 (iss0 + 1) /\
    rcv_nxt b = wrap32 (seq + 1) /\
    build_tcp_segment (sa_ip c) (sa_ip s) (sa_port c) (sa_port s) (wrap32 (iss0 + 1)) (wrap32 (seq + 1)) ACK 65535 [] = Done ack.
Proof.
  intros Ht Hi Hq E Eb. destruct Hc as [C1 C2], Hs as [S1 S2]. assert (key_ok (c, s)) as Hk by (by split).
  destruct (deliver_segment (sa_ip s) (sa_ip c) (sa_port s) (sa_port c) seq (wrap32 (iss0 + 1)) (Z.lor SYN ACK) 65535 syn_ack now tc)
    as (ck & -> & Hf); try done; [apply is_u32_wrap|].
  set (h := segment_header _ _ _ _ _ _ _) in *. destruct (table_ok_key tc _ _ Ht Hk E) as [Hb0 _].
  unfold handle_segment. rewrite Hf. change (has (Z.lor SYN ACK) RST) with false. cbv iota.
  fold (seg_key h (sa_ip s) (sa_ip c)). assert (seg_key h (sa_ip s) (sa_ip c) = (c, s)) as -> by (by destruct c, s).
  rewrite E. unfold process_segment. cbn [state new_syn_sent]. rewrite Hf.
  change (has (Z.lor SYN ACK) SYN && has (Z.lor SYN ACK) ACK) with true. cbv iota. cbn [snd_nxt new_syn_sent].
  change (ack_num h) with (wrap32 (iss0 + 1)). rewrite Z.eqb_refl. cbn [negb].
  set (b := set_state Established _). assert (tcb_ok b) as Hb.
  { split; try done; [split_and!; try done; apply is_u32_wrap|split; [apply is_u32_wrap|done]]. }
  unfold emit_ack. destruct (emit_done b (snd_nxt b) (rcv_nxt b) ACK (rcv_wnd b) []) as (d & -> & Ed); try done;
    [apply is_u32_wrap|apply is_u32_wrap|].
  cbn [mbind run_bind apply_verdict]. eexists d, _, b. split; [done|]. split; [by apply table_ok_insert|].
  rewrite conn_get_insert, decide_True by done. done.
Qed.

Lemma handshake_ack irs0 iss0 ack now ts q : table_ok ts -> is_u32 irs0 -> is_u32 iss0 ->
  conn_get ts (s, c) = Some (new_syn_received s c irs0 iss0) -> listeners ts !! sa_port s = Some q ->
  build_tcp_segment (sa_ip c) (sa_ip s) (sa_port c) (sa_port s) (wrap32 (irs0 + 1)) (wrap32 (iss0 + 1)) ACK 65535 [] = Done ack ->
  exists ts1 b, deliver ack now ts = Done ([ConnectionEstablished (s, c)], ts1) /\ table_ok ts1 /\
    listeners ts1 !! sa_port s = Some {| backlog := backlog q ++ [b]; max_backlog := max_backlog q |} /\
    local b = s /\ remote b = c /\ state b = Established /\ snd_una b = wrap32 (iss0 + 1) /\ snd_nxt b = wrap32 (iss0 + 1) /\
    rcv_nxt b = wrap32 (irs0 + 1).
Proof.
  intros Ht Hi Hq E El Eb. destruct Hc as [C1 C2], Hs as [S1 S2]. assert (key_ok (s, c)) as Hk by (by split).
  destruct (deliver_segment (sa_ip c) (sa_ip s) (sa_port c) (sa_port s) (wrap32 (irs0 + 1)) (wrap32 (iss0 + 1)) ACK 65535 ack now ts)
    as (ck & -> & Hf); try done; [apply is_u32_wrap|apply is_u32_wrap|].
  set (h := segment_header _ _ _ _ _ _ _) in *. destruct (table_ok_key ts _ _ Ht Hk E) as [Hb0 _].
  unfold handle_segment. rewrite Hf. change (has ACK RST) with false. cbv iota.
  fold (seg_key h (sa_ip c) (sa_ip s)). assert (seg_key h (sa_ip c) (sa_ip s) = (s, c)) as -> by (by destruct c, s).
  rewrite E. unfold process_segment. cbn [state new_syn_received]. rewrite Hf. cbn [snd_nxt new_syn_received].
  change (ack_num h) with (wrap32 (iss0 + 1)). rewrite Z.eqb_refl. change (has ACK ACK && true) with true. cbv iota.
  cbn [mbind run_bind apply_verdict local set_state set_snd new_syn_received listeners conn_remove set_connections]. rewrite El.
  eexists _, _. split; [done|]. split; [|cbn [listeners set_listeners]; rewrite lookup_insert_eq; done].
  apply (table_ok_listeners (conn_remove (s, c) ts)); [by apply table_ok_remove|]. cbn [backlog]. apply Forall_app.
  split; [by apply (to_listen _ Ht)|].
  apply Forall_singleton. split; [|done]. split; try done; [|by apply (tk_rcv _ Hb0)].
  split_and!; try done; apply is_u32_wrap.
Qed.
End Handshake.

(** ** Theorems *)

(** C8: State machine: from the empty table, no sequence of calls, segments and
    timer ticks makes the stack panic; every block stays under its own key with
    numbers in range; each operation either moves a connection along a
    transition of RFC 793 (opens, passive ones only at a listener with room,
    the handshake, both closing sequences, resets, timeouts) or is an accept
    that puts the established block at the head of the listener's queue back
    under its key, which replaces a block already there in whatever state (a
    step RFC 793 does not have); and it leaves every connection it does not
    concern exactly as it was.  The transitions are guarded by flags and
    acknowledgements; where in the window a FIN or RST lies is not tested. *)
Theorem tcp_follows_rfc793 :
  (forall ops, Forall op_ok ops -> exists outs t, tcp_run ops table_new = Done (outs, t) /\ table_ok t) /\
  (forall t op, table_ok t -> op_ok op -> exists out bytes t', tcp_step op t = Done (out, bytes, t') /\ table_ok t' /\
     forall k, key_ok k -> (transition k (listeners t) op (conn_get t k) (state <$> conn_get t' k) \/ accepted op t t' k) /\
       (~ concerns op k -> conn_get t' k = conn_get t k)).
Proof.
  split; [intros ops; apply tcp_run_ok, table_new_ok|]. intros t op Ht Hop.
  destruct (tcp_step_ok op t Ht Hop) as (out & bytes & t' & E & Ht' & He). by exists out, bytes, t'.
Qed.


(** Handshake: when a client connects to a listening port with room in its
    backlog and the three packets are delivered, through their bytes, both
    ends are established, the server's end is last in the accept queue, and
    each side's next number is what the other expects. *)
Theorem tcp_handshake_establishes (c s : SocketApiAddr) (tc ts : TcpSocketTable) (q : ListenQueue) (n1 n2 n3 : Z)
    (Hc : addr_ok c) (Hs : addr_ok s) (Htc : table_ok tc) (Hts : table_ok ts) (Ec : conn_get tc (c, s) = None)
    (Es : conn_get ts (s, c) = None) (Hq : listeners ts !! sa_port s = Some q)
    (Hroom : Z.of_nat (length (backlog q)) < max_backlog q) :
  exists syn syn_ack ack tc1 ts1 tc2 ts2 bc bs,
    tcp_connect c s tc = Done (Ok (c, s), [SendSegment syn (sa_ip s)], tc1) /\
    deliver syn n1 ts = Done ([SendSegment syn_ack (sa_ip c)], ts1) /\
    deliver syn_ack n2 tc1 = Done ([SendSegment ack (sa_ip s); ConnectionEstablished (c, s)], tc2) /\
    deliver ack n3 ts1 = Done ([ConnectionEstablished (s, c)], ts2) /\
    conn_get tc2 (c, s) = Some bc /\
    listeners ts2 !! sa_port s = Some {| backlog := backlog q ++ [bs]; max_backlog := max_backlog q |} /\
    (local bs, remote bs) = (s, c) /\ state bc = Established /\ state bs = Established /\
    snd_nxt bc = rcv_nxt bs /\ snd_nxt bs = rcv_nxt bc /\ snd_una bc = snd_nxt bc /\ snd_una bs = snd_nxt bs.
Proof.
  pose proof (to_isn _ Htc) as Hi. pose proof (to_isn _ Hts) as Hj.
  destruct (handshake_client c s Hc Hs tc Htc Ec) as (syn & tc1 & E1 & Htc1 & Ec1 & B1).
  destruct (handshake_syn c s Hc Hs (isn_counter tc) syn n1 ts q Hts Hi Es Hq Hroom B1) as (sa & ts1 & E2 & Hts1 & Es1 & El & B2).
  destruct (handshake_syn_ack c s Hc Hs (isn_counter tc) (isn_counter ts) sa n2 tc1 Htc1 Hi Hj Ec1 B2)
    as (ack & tc2 & bc & E3 & Htc2 & Ec2 & S1 & U1 & N1 & R1 & B3).
  rewrite <- El in Hq.
  destruct (handshake_ack c s Hc Hs (isn_counter tc) (isn_counter ts) ack n3 ts1 q Hts1 Hi Hj Es1 Hq B3)
    as (ts2 & bs & E4 & _ & L & A1 & A2 & S2 & U2 & N2 & R2).
  exists syn, sa, ack, tc1, ts1, tc2, ts2, bc, bs. split_and!; try done; congruence.
Qed.

(** Termination: a connection whose oldest segment is never acknowledged is
    retransmitted at most five times: six timer calls a minute or more apart
    end it and tell the application. *)
Theorem tcp_retransmission_ends (k : TcpConnectionKey) (t : TcpSocketTable) (b : TcpControlBlock) (e : RetransmitEntry)
    (q : list RetransmitEntry) (times : list Z) (Hk : key_ok k) (Ht : table_ok t) (Hb : conn_get t k = Some b)
    (Hq : retransmit_queue b = e :: q) (Hc : 0 <= retransmit_count e) (Hr : rto_ms b <= 60000)
    (Hsp : spaced (sent_at e) times) (Hn : length times = 6%nat) :
  exists outs t', tcp_run (OTick <$> times) t = Done (outs, t') /\ conn_get t' k = None /\ ConnectionClosed k ∈ concat outs.
Proof. eapply ticks_give_up; try done; [rewrite Hn; unfold MAX_RETRANSMIT; lia|by intros ->]. Qed.

(** C40: Sequence numbers: on any window of less than 2^31 numbers, wherever it
    lies and across the wrap at 2^32, the comparisons are the order of the
    distances from its start. *)
Theorem seq_window_order (x i j : Z) (Hi : 0 <= i < 2 ^ 31) (Hj : 0 <= j < 2 ^ 31) :
  seq_lt (wrap32 (x + i)) (wrap32 (x + j)) = (i <? j) /\ seq_le (wrap32 (x + i)) (wrap32 (x + j)) = (i <=? j).
Proof. by apply seq_lt_window. Qed.

(** An acknowledgement of exactly the end of a segment keeps the segment in the
    retransmission queue. *)
Lemma acked_entry_kept seq data sent n : is_u32 seq -> data <> [] -> Z.of_nat (length data) < 2 ^ 31 ->
  entry_unacked (wrap32 (seq + Z.of_nat (length data))) {| re_seq := seq; re_data := data; sent_at := sent; retransmit_count := n |} = true.
Proof.
  intros Hs Hne Hl. unfold entry_unacked. cbn. assert (length data <> 0)%nat by (by destruct data).
  replace (wrap32 (wrap32 (seq + Z.of_nat (length data)) - 1)) with (wrap32 (seq + (Z.of_nat (length data) - 1))).
  - rewrite (proj1 (seq_lt_window seq (Z.of_nat (length data) - 1) (Z.of_nat (length data)) ltac:(lia) ltac:(lia))).
    apply Z.ltb_lt. lia.
  - unfold wrap32. rewrite Zminus_mod_idemp_l. f_equal. lia.
Qed.

(** A segment for a connection that waits to be accepted is answered with a
    reset. *)
Lemma queued_connection_reset h payload src dst now t :
  co_fields h -> is_arr 4 src -> is_arr 4 dst -> has (tcp_flags h) RST = false -> has (tcp_flags h) ACK = true ->
  conn_get t (seg_key h src dst) = None ->
  exists data, handle_segment h payload src dst now t = Done ([SendSegment data src], t) /\
    build_tcp_segment dst src (dst_port h) (src_port h) (ack_num h) 0 RST 0 [] = Done data.
Proof.
  intros Hh Hs Hd Hr Ha E. pose proof Hh as (F1 & F2 & _ & Fa & _). unfold handle_segment. rewrite Hr, Ha.
  fold (seg_key h src dst). rewrite E. rewrite andb_false_r. cbn [negb]. unfold reply.
  destruct (tcp_segment_roundtrip dst src (dst_port h) (src_port h) (ack_num h) 0 RST 0 []) as (ih & ck & -> & _); try done.
  by eexists.
Qed.

(** ** Witnesses *)

Definition demo_client : SocketApiAddr := {| sa_ip := demo_src; sa_port := 40000 |}.
Definition demo_server : SocketApiAddr := {| sa_ip := demo_dst; sa_port := 80 |}.

Lemma demo_addr_ok : addr_ok demo_client /\ addr_ok demo_server.
Proof. repeat split; try (apply demo_arr; split; vm_compute; congruence); try (vm_compute; congruence). Qed.

Definition demo_block : TcpControlBlock :=
  set_rtx [{| re_seq := 5; re_data := [1]; sent_at := 0; retransmit_count := 0 |}] 1000
    (set_state Established (new_syn_received demo_server demo_client 41 7)).

Lemma demo_block_ok : tcb_ok demo_block.
Proof.
  destruct demo_addr_ok. split.
  - by split.
  - split; [|split]; split; vm_compute; congruence.
  - split; split; vm_compute; congruence.
  - apply Forall_cons_2; [|apply Forall_nil_2]. split; [split; vm_compute; congruence|]. split; [|reflexivity].
    apply Forall_cons_2; [|apply Forall_nil_2]. split; vm_compute; congruence.
  - split; [|split]; split; vm_compute; congruence.
Qed.

Definition demo_table : TcpSocketTable := conn_insert (demo_server, demo_client) demo_block table_new.

Lemma demo_table_ok : table_ok demo_table.
Proof. apply table_ok_insert; [exact table_new_ok|exact demo_block_ok|reflexivity]. Qed.

Lemma demo_key_ok : key_ok (demo_server, demo_client).
Proof. split; apply demo_addr_ok. Qed.

(** A data segment of the peer, starting where the receiver is. *)
Definition demo_seg : TcpHeader := segment_header 40000 80 42 0 PSH 65535 0.

Lemma demo_seg_ok : co_fields demo_seg.
Proof. repeat split; vm_compute; congruence. Qed.

(** A peer that opens again from the same port while its first connection waits
    to be accepted gets a second block; accept then replaces it by the first. *)
Definition demo_reopened : list tcp_op :=
  let seg seq ack flags := OSegment (segment_header 40000 80 seq ack flags 65535 0) [] demo_src demo_dst 0 in
  [OListen 80 4; seg 7 0 SYN; seg 8 16777218 ACK; seg 900 0 SYN].

Lemma accept_replaces_block : exists outs t b b', tcp_run demo_reopened table_new = Done (outs, t) /\
  conn_get t (demo_server, demo_client) = Some b /\ state b = SynReceived /\ rcv_nxt b = 901 /\
  conn_get (snd (tcp_accept 80 t)) (demo_server, demo_client) = Some b' /\ state b' = Established /\ rcv_nxt b' = 8.
Proof. eexists _, _, _, _. vm_compute. split_and!; reflexivity. Qed.

Lemma tcp_follows_rfc793_witness :
  exists outs t, tcp_run [OListen 80 4; OSegment demo_seg [] demo_src demo_dst 0] table_new = Done (outs, t) /\ table_ok t.
Proof.
  apply (proj1 tcp_follows_rfc793). apply Forall_cons_2; [exact I|]. apply Forall_cons_2; [|apply Forall_nil_2].
  split; [exact demo_seg_ok|]. split; apply demo_arr; split; vm_compute; congruence.
Defined.

Lemma demo_receives : exists t, receives (demo_server, demo_client) 41 [1; 2; 3] demo_table t [].
Proof.
  destruct (tcp_step_ok (OSegment demo_seg [1; 2] demo_src demo_dst 0) demo_table demo_table_ok) as (out & bytes & t' & E & _ & He).
  { split; [exact demo_seg_ok|]. split; apply demo_arr; split; vm_compute; congruence. }
  exists t'. eapply (receives_step _ _ _ _ _ [] (OSegment demo_seg [1; 2] demo_src demo_dst 0)).
  - apply receives_start.
  - split; [exact demo_seg_ok|]. split; apply demo_arr; split; vm_compute; congruence.
  - intros _ _. exists 0%nat. split; [cbn; lia|]. split; reflexivity.
  - exact I.
  - exact E.
  - vm_compute in E. injection E as _ _ <-. vm_compute. by eexists.
Qed.


Definition demo_listener : TcpSocketTable := snd (tcp_listen 80 4 table_new).

Lemma tcp_handshake_establishes_witness :
  exists syn tc1, tcp_connect demo_client demo_server table_new = Done (Ok (demo_client, demo_server), [SendSegment syn demo_dst], tc1).
Proof.
  destruct (tcp_handshake_establishes demo_client demo_server table_new demo_listener {| backlog := []; max_backlog := 4 |} 0 1 2)
    as (syn & sa & ack & tc1 & ts1 & tc2 & ts2 & bc & bs & E & _).
  - apply demo_addr_ok.
  - apply demo_addr_ok.
  - exact table_new_ok.
  - apply (table_ok_listeners table_new); [exact table_new_ok|apply Forall_nil_2].
  - reflexivity.
  - reflexivity.
  - reflexivity.
  - vm_compute. reflexivity.
  - exists syn, tc1. exact E.
Defined.

Lemma tcp_retransmission_ends_witness :
  exists outs t', tcp_run (OTick <$> [60000; 120000; 180000; 240000; 300000; 360000]) demo_table = Done (outs, t') /\
    conn_get t' (demo_server, demo_client) = None.
Proof.
  destruct (tcp_retransmission_ends (demo_server, demo_client) demo_table demo_block
              {| re_seq := 5; re_data := [1]; sent_at := 0; retransmit_count := 0 |} []
              [60000; 120000; 180000; 240000; 300000; 360000] demo_key_ok demo_table_ok) as (outs & t' & E & H & _).
  - reflexivity.
  - reflexivity.
  - cbn. lia.
  - cbn. lia.
  - cbn. lia.
  - reflexivity.
  - exists outs, t'. split; [exact E|exact H].
Defined.

Lemma seq_window_order_witness : seq_lt (wrap32 (4294967290 + 3)) (wrap32 (4294967290 + 20)) = true.
Proof. apply (seq_window_order 4294967290 3 20); lia. Defined.
