(* ===== verification/BlockBitmap.v ===== *)
(** * Block allocator of the file system (omni-fs: allocator.rs)

    A bitmap with one bit per block: bit [i mod 8] of byte [i / 8] stands for
    block [i + 1], block 0 being no block.  [taken] reads the bitmap as a set
    of block numbers; the operations are specified on that set. *)

From Stdlib Require Import ZArith Lia.
From stdpp Require Import base numbers list.
From S2P Require Import Prelude.

(** ** Data *)

Record BlockBitmap := { bm_bits : list Z; bm_total : Z; bm_free : Z }.

(** Bitwise complement [!x] of a [u8]. *)
Definition not8 (x : Z) : Z := Z.lxor x 255.

(** ** Operations *)

Definition bitmap_new (total_blocks : Z) : run BlockBitmap :=
  n ← add64 total_blocks 7;
  let byte_count := n / 8 in
  let bits := replicate (Z.to_nat byte_count) 0 in
  if negb (total_blocks mod 8 =? 0) then
    let used_bits := total_blocks mod 8 in
    last ← sub64 byte_count 1;
    _ ← index_run bits (Z.to_nat last);
    Done {| bm_bits := <[Z.to_nat last := not8 (Z.shiftl 1 used_bits - 1)]> bits; bm_total := total_blocks;
            bm_free := total_blocks |}
  else Done {| bm_bits := bits; bm_total := total_blocks; bm_free := total_blocks |}.

(** [count_free_bits]: the loop over [0..total_blocks]. *)
Definition count_free_bits (bits : list Z) (total_blocks : Z) : Z :=
  count_below (fun idx =>
    match bits !! Z.to_nat (idx / 8) with
    | Some byte => Z.land byte (Z.shiftl 1 (idx mod 8)) =? 0
    | None => false
    end) (Z.to_nat total_blocks).

Definition bitmap_from_bytes (bytes : list Z) (total_blocks : Z) : run (option BlockBitmap) :=
  n ← add64 total_blocks 7;
  let required := n / 8 in
  if Z.of_nat (length bytes) <? required then Done None else
  let bits := take (Z.to_nat required) bytes in
  Done (Some {| bm_bits := bits; bm_total := total_blocks; bm_free := count_free_bits bits total_blocks |}).

(** The inner loop [for bit_idx in 0u8..8]. *)
Definition first_zero_bit (byte : Z) : option Z :=
  snd <$> list_find (fun bit_idx => Z.land byte (Z.shiftl 1 bit_idx) = 0) (seqZ 0 8).

(** The outer loop of [allocate]: the first byte and bit that are free. *)
Fixpoint scan_bytes (bytes : list Z) (byte_idx total_blocks : Z) : run (option (Z * Z)) :=
  match bytes with
  | [] => Done None
  | byte :: bytes =>
      if byte =? 0xFF then scan_bytes bytes (byte_idx + 1) total_blocks else
      match first_zero_bit byte with
      | Some bit_idx =>
          first ← mul64 byte_idx 8;
          block_idx ← add64 first bit_idx;
          if total_blocks <=? block_idx then Done None else Done (Some (byte_idx, bit_idx))
      | None => scan_bytes bytes (byte_idx + 1) total_blocks
      end
  end.

Definition bitmap_allocate (m : BlockBitmap) : run (option Z * BlockBitmap) :=
  if bm_free m =? 0 then Done (None, m) else
  r ← scan_bytes (bm_bits m) 0 (bm_total m);
  match r with
  | None => Done (None, m)
  | Some (byte_idx, bit_idx) =>
      byte ← index_run (bm_bits m) (Z.to_nat byte_idx);
      free ← sub64 (bm_free m) 1;
      block ← add64 (byte_idx * 8 + bit_idx) 1;
      Done (Some block, {| bm_bits := <[Z.to_nat byte_idx := Z.lor byte (Z.shiftl 1 bit_idx)]> (bm_bits m);
                           bm_total := bm_total m; bm_free := free |})
  end.

Definition bitmap_free (block_number : Z) (m : BlockBitmap) : run BlockBitmap :=
  if (block_number =? 0) || (bm_total m <? block_number) then Done m else
  let idx := block_number - 1 in
  byte ← index_run (bm_bits m) (Z.to_nat (idx / 8));
  let mask := Z.shiftl 1 (idx mod 8) in
  if negb (Z.land byte mask =? 0) then
    free ← add64 (bm_free m) 1;
    Done {| bm_bits := <[Z.to_nat (idx / 8) := Z.land byte (not8 mask)]> (bm_bits m); bm_total := bm_total m; bm_free := free |}
  else Done m.

Definition mark_allocated (block_number : Z) (m : BlockBitmap) : run BlockBitmap :=
  if (block_number =? 0) || (bm_total m <? block_number) then Done m else
  let idx := block_number - 1 in
  byte ← index_run (bm_bits m) (Z.to_nat (idx / 8));
  let mask := Z.shiftl 1 (idx mod 8) in
  if Z.land byte mask =? 0 then
    free ← sub64 (bm_free m) 1;
    Done {| bm_bits := <[Z.to_nat (idx / 8) := Z.lor byte mask]> (bm_bits m); bm_total := bm_total m; bm_free := free |}
  else Done m.

Definition is_allocated (m : BlockBitmap) (block_number : Z) : run bool :=
  if (block_number =? 0) || (bm_total m <? block_number) then Done false else
  let idx := block_number - 1 in
  byte ← index_run (bm_bits m) (Z.to_nat (idx / 8));
  Done (negb (Z.land byte (Z.shiftl 1 (idx mod 8)) =? 0)).

(** ** The set of taken blocks *)

Definition bit_at (bits : list Z) (i : Z) : bool :=
  match bits !! Z.to_nat (i / 8) with Some w => Z.testbit w (i mod 8) | None => false end.

Definition taken (m : BlockBitmap) (b : Z) : bool := (1 <=? b) && (b <=? bm_total m) && bit_at (bm_bits m) (b - 1).

(** The blocks a caller may name. *)
Definition in_range (m : BlockBitmap) (b : Z) : Prop := 1 <= b <= bm_total m.

Record bitmap_wf (m : BlockBitmap) : Prop := {
  bw_total : 0 <= bm_total m /\ bm_total m + 7 < 2 ^ 64;
  bw_len : Z.of_nat (length (bm_bits m)) = (bm_total m + 7) / 8;
  bw_u8 : Forall is_u8 (bm_bits m);
  bw_free : bm_free m = count_below (fun i => negb (bit_at (bm_bits m) i)) (Z.to_nat (bm_total m));
}.

(** ** Lemmas on bytes *)

Lemma is_u8_bits x : 0 <= x -> (forall n, 8 <= n -> Z.testbit x n = false) -> is_u8 x.
Proof.
  intros H0 H. split; [done|]. destruct (Z.lt_ge_cases x 256) as [|Hge]; [done|].
  assert (8 <= Z.log2 x) by (apply Z.log2_le_pow2; lia).
  assert (Z.testbit x (Z.log2 x) = true) by (apply Z.bit_log2; lia). rewrite H in *; [discriminate|lia].
Qed.

Lemma set_bit_u8 w b : is_u8 w -> 0 <= b < 8 -> is_u8 (Z.lor w (Z.shiftl 1 b)).
Proof.
  intros Hw Hb. apply is_u8_bits.
  - apply Z.lor_nonneg. rewrite Z.shiftl_1_l. destruct Hw; lia.
  - intros n Hn. rewrite testbit_set_bit, testbit_u8_high by (done || lia). destruct (Z.eqb_spec n b); [lia|done].
Qed.

Lemma testbit_clear_u8 w b n : 0 <= b < 8 -> 0 <= n -> is_u8 w ->
  Z.testbit (Z.land w (not8 (Z.shiftl 1 b))) n = Z.testbit w n && negb (n =? b).
Proof.
  intros Hb Hn Hw. unfold not8. rewrite Z.land_spec, Z.lxor_spec, testbit_bit by lia.
  destruct (Z.lt_ge_cases n 8).
  - change 255 with (Z.ones 8). rewrite Z.ones_spec_low by lia. by destruct (n =? b).
  - by rewrite testbit_u8_high.
Qed.

Lemma clear_bit_u8 w x : is_u8 w -> is_u8 (Z.land w x).
Proof.
  intros Hw. apply is_u8_bits.
  - apply Z.land_nonneg. destruct Hw; lia.
  - intros n Hn. rewrite Z.land_spec, testbit_u8_high by done. done.
Qed.

(** ** Lemmas on the bitmap *)

Lemma bit_at_insert bits i w v j : 0 <= i -> 0 <= j -> bits !! Z.to_nat (i / 8) = Some w ->
  (forall n, 0 <= n < 8 -> n <> i mod 8 -> Z.testbit v n = Z.testbit w n) ->
  bit_at (<[Z.to_nat (i / 8) := v]> bits) j = if j =? i then Z.testbit v (i mod 8) else bit_at bits j.
Proof.
  intros Hi Hj Hw Hv. unfold bit_at.
  pose proof (Z.div_mod i 8 ltac:(lia)) as Ei. pose proof (Z.div_mod j 8 ltac:(lia)) as Ej.
  pose proof (Z.mod_pos_bound i 8 ltac:(lia)). pose proof (Z.mod_pos_bound j 8 ltac:(lia)).
  destruct (decide (Z.to_nat (j / 8) = Z.to_nat (i / 8))) as [E|E].
  - rewrite E, list_lookup_insert_eq, Hw by (by eapply lookup_lt_Some).
    assert (j / 8 = i / 8) as E' by lia. destruct (Z.eqb_spec j i) as [->|]; [done|]. apply Hv; lia.
  - rewrite list_lookup_insert_ne by done. destruct (Z.eqb_spec j i) as [->|]; [lia|done].
Qed.

Lemma bit_at_live m i : bitmap_wf m -> 0 <= i < bm_total m -> exists w, bm_bits m !! Z.to_nat (i / 8) = Some w /\ is_u8 w.
Proof.
  intros [Ht Hl Hu _] Hi.
  assert (i / 8 < (bm_total m + 7) / 8) by (apply Z.div_lt_upper_bound; [lia|]; pose proof (Z.div_mod (bm_total m + 7) 8 ltac:(lia));
    pose proof (Z.mod_pos_bound (bm_total m + 7) 8 ltac:(lia)); lia).
  assert (0 <= i / 8) by (apply Z.div_pos; lia).
  destruct (lookup_lt_is_Some_2 (bm_bits m) (Z.to_nat (i / 8))) as [w Hw]; [lia|]. exists w. split; [done|].
  by eapply Forall_lookup_1.
Qed.

Lemma taken_range m b : taken m b = true -> in_range m b.
Proof. unfold taken, in_range. intros H. zbool. lia. Qed.

Lemma taken_bit m b : in_range m b -> taken m b = bit_at (bm_bits m) (b - 1).
Proof. intros [H1 H2]. unfold taken. by rewrite (proj2 (Z.leb_le _ _) H1), (proj2 (Z.leb_le _ _) H2). Qed.

Lemma free_count_taken m : bitmap_wf m -> bm_free m = 0 <-> forall b, in_range m b -> taken m b = true.
Proof.
  intros [Ht _ _ ->]. rewrite count_below_zero. split.
  - intros H b Hb. rewrite taken_bit by done. apply negb_false_iff. unfold in_range in Hb. apply H. lia.
  - intros H i Hi. assert (in_range m (i + 1)) as Hr by (unfold in_range; lia). apply negb_false_iff.
    rewrite <- (H _ Hr), taken_bit by done. f_equal. lia.
Qed.

Lemma is_allocated_spec m b : bitmap_wf m -> 0 <= b -> is_allocated m b = Done (taken m b).
Proof.
  intros Hwf Hb. unfold is_allocated, taken. destruct (Z.eqb_spec b 0) as [->|]; [done|]. cbn [orb].
  destruct (Z.ltb_spec (bm_total m) b); [by rewrite (proj2 (Z.leb_gt b _)), andb_false_r by lia|].
  destruct (bit_at_live m (b - 1) Hwf) as (w & Hw & Hu); [lia|].
  unfold bit_at, index_run. rewrite Hw, (proj2 (Z.leb_le 1 b)), (proj2 (Z.leb_le b _)) by lia. cbn.
  rewrite land_bit_zero by (apply Z.mod_pos_bound; lia). by rewrite negb_involutive.
Qed.

Lemma count_free_bits_spec m : bitmap_wf m -> count_free_bits (bm_bits m) (bm_total m) = bm_free m.
Proof.
  intros Hwf. rewrite (bw_free _ Hwf). apply count_below_ext. intros i Hi. destruct (bw_total _ Hwf).
  destruct (bit_at_live m i Hwf) as (w & Hw & _); [lia|]. unfold bit_at. rewrite Hw.
  apply land_bit_zero, Z.mod_pos_bound. lia.
Qed.

(** A change of one bit of a well-formed bitmap. *)
Lemma flip_wf m b v free : bitmap_wf m -> in_range m b -> is_u8 v ->
  (forall w, bm_bits m !! Z.to_nat ((b - 1) / 8) = Some w ->
     (forall n, 0 <= n < 8 -> n <> (b - 1) mod 8 -> Z.testbit v n = Z.testbit w n) /\
     Z.testbit v ((b - 1) mod 8) = negb (Z.testbit w ((b - 1) mod 8))) ->
  free = (if taken m b then bm_free m + 1 else bm_free m - 1) ->
  let m' := {| bm_bits := <[Z.to_nat ((b - 1) / 8) := v]> (bm_bits m); bm_total := bm_total m; bm_free := free |} in
  bitmap_wf m' /\ forall b', taken m' b' = if b' =? b then negb (taken m b) else taken m b'.
Proof.
  intros Hwf Hb Hv Hw Hf m'. pose proof (bw_total _ Hwf) as [Ht0 Ht]. unfold in_range in Hb.
  destruct (bit_at_live m (b - 1) Hwf) as (w & Hl & Hu); [lia|]. destruct (Hw w Hl) as [Hne Heq].
  assert (forall j, 0 <= j -> bit_at (bm_bits m') j = if j =? b - 1 then negb (bit_at (bm_bits m) j) else bit_at (bm_bits m) j) as Hbit.
  { intros j Hj. unfold m'. cbn [bm_bits]. rewrite (bit_at_insert _ (b - 1) w) by (done || lia).
    destruct (Z.eqb_spec j (b - 1)) as [->|]; [|done]. rewrite Heq. f_equal. unfold bit_at. by rewrite Hl. }
  assert (taken m b = bit_at (bm_bits m) (b - 1)) as Etb by (by apply taken_bit).
  split.
  - constructor; cbn [m' bm_bits bm_total bm_free].
    + done.
    + rewrite length_insert. apply Hwf.
    + apply Forall_insert; [apply Hwf|done].
    + rewrite Hf, Etb. rewrite (bw_free _ Hwf).
      assert (forall i, 0 <= i < Z.of_nat (Z.to_nat (bm_total m)) -> i <> b - 1 ->
        negb (bit_at (bm_bits m) i) = negb (bit_at (bm_bits m') i)) as Hsame.
      { intros i Hi Hne'. rewrite (Hbit i) by lia. by rewrite (proj2 (Z.eqb_neq i (b - 1))). }
      pose proof (Hbit (b - 1) ltac:(lia)) as Hb'. rewrite Z.eqb_refl in Hb'. fold (bm_bits m').
      change (<[Z.to_nat ((b - 1) / 8) := v]> (bm_bits m)) with (bm_bits m').
      destruct (bit_at (bm_bits m) (b - 1)) eqn:E.
      * symmetry. apply (count_below_flip _ _ _ (b - 1)); [lia|by rewrite E|by rewrite Hb'|done].
      * rewrite (count_below_flip (fun i => negb (bit_at (bm_bits m') i)) (fun i => negb (bit_at (bm_bits m) i)) _ (b - 1));
          [lia|lia|by rewrite Hb'|by rewrite E|]. intros; symmetry; by apply Hsame.
  - intros b'. destruct (Z.eqb_spec b' b) as [->|Hbb].
    + rewrite !taken_bit by done. rewrite (Hbit (b - 1)), Z.eqb_refl by lia. done.
    + unfold taken at 1. cbn [m' bm_total]. unfold taken. destruct (Z.leb_spec 1 b'); [|done]. cbn [andb].
      f_equal. rewrite (Hbit (b' - 1)) by lia. by rewrite (proj2 (Z.eqb_neq _ _)) by lia.
Qed.

(** ** The scan *)

Lemma first_zero_bit_spec byte : is_u8 byte -> byte <> 255 ->
  exists b, first_zero_bit byte = Some b /\ 0 <= b < 8 /\ Z.testbit byte b = false /\
    forall n, 0 <= n < b -> Z.testbit byte n = true.
Proof.
  intros Hu Hne. unfold first_zero_bit. destruct (list_find _ _) as [[k b]|] eqn:E.
  - apply list_find_Some in E as (Hk & Hz & Hlow). apply lookup_seqZ in Hk as [-> Hk]. cbn in Hz |- *.
    exists (0 + Z.of_nat k). split; [done|]. split; [lia|]. split.
    + apply Z.eqb_eq in Hz. rewrite land_bit_zero in Hz by lia. by apply negb_true_iff in Hz.
    + intros n Hn. apply negb_false_iff. rewrite <- land_bit_zero by lia. apply Z.eqb_neq.
      apply (Hlow (Z.to_nat n) n); [|lia]. apply lookup_seqZ. lia.
  - exfalso. apply Hne. apply list_find_None in E. apply Z.bits_inj'. intros n Hn. change 255 with (Z.ones 8).
    destruct (Z.lt_ge_cases n 8).
    + rewrite Z.ones_spec_low by lia. apply negb_false_iff. rewrite <- land_bit_zero by lia. apply Z.eqb_neq.
      rewrite Forall_forall in E. apply (E n). apply elem_of_seqZ. lia.
    + rewrite Z.ones_spec_high, testbit_u8_high by (done || lia). done.
Qed.

Lemma bit_at_byte bits k w b : bits !! k = Some w -> 0 <= b < 8 -> bit_at bits (8 * Z.of_nat k + b) = Z.testbit w b.
Proof.
  intros Hk Hb. unfold bit_at. rewrite (Z.mul_comm 8), Z.div_add_l, (Z.div_small b), Z.add_0_r, Nat2Z.id, Hk by lia.
  by rewrite Z.add_comm, Z.mod_add, Z.mod_small by lia.
Qed.

(** Every bit below [8 * k] is set. *)
Definition full_below (bits : list Z) (i : Z) : Prop := forall j, 0 <= j < i -> bit_at bits j = true.

Lemma full_below_byte bits k w n : bits !! k = Some w -> full_below bits (8 * Z.of_nat k) ->
  0 <= n <= 8 -> (forall j, 0 <= j < n -> Z.testbit w j = true) -> full_below bits (8 * Z.of_nat k + n).
Proof.
  intros Hk Hf Hn Hw j Hj. destruct (Z.lt_ge_cases j (8 * Z.of_nat k)); [apply Hf; lia|].
  replace j with (8 * Z.of_nat k + (j - 8 * Z.of_nat k)) by lia. rewrite (bit_at_byte _ _ w) by (done || lia). apply Hw. lia.
Qed.

Lemma scan_bytes_spec bytes pre total : Forall is_u8 (pre ++ bytes) -> 8 * Z.of_nat (length (pre ++ bytes)) < 2 ^ 64 ->
  full_below (pre ++ bytes) (8 * Z.of_nat (length pre)) ->
  exists r, scan_bytes bytes (Z.of_nat (length pre)) total = Done r /\
    match r with
    | None => full_below (pre ++ bytes) (Z.min total (8 * Z.of_nat (length (pre ++ bytes))))
    | Some (byte_idx, bit_idx) => 0 <= byte_idx /\ 0 <= bit_idx < 8 /\ 8 * byte_idx + bit_idx < total /\
        bit_at (pre ++ bytes) (8 * byte_idx + bit_idx) = false /\ full_below (pre ++ bytes) (8 * byte_idx + bit_idx)
    end.
Proof.
  revert pre. induction bytes as [|w bytes IH]; intros pre Hu Hl Hf; cbn [scan_bytes].
  { exists None. split; [done|]. rewrite app_nil_r in *. intros j Hj. apply Hf. lia. }
  assert ((pre ++ w :: bytes) !! length pre = Some w) as Hk by (by apply list_lookup_middle).
  assert (is_u8 w) as Hw by (by eapply Forall_lookup_1).
  assert (pre ++ w :: bytes = (pre ++ [w]) ++ bytes) as Hassoc by (by rewrite <- app_assoc).
  assert (Z.of_nat (length pre) + 1 = Z.of_nat (length (pre ++ [w]))) as Hlen by (rewrite length_app; cbn; lia).
  destruct (Z.eqb_spec w 255) as [->|Hne].
  { rewrite Hlen, Hassoc. apply IH; try by rewrite <- Hassoc. rewrite <- Hassoc, <- Hlen.
    replace (8 * (Z.of_nat (length pre) + 1)) with (8 * Z.of_nat (length pre) + 8) by lia.
    eapply full_below_byte; [done|done|lia|]. intros j Hj. change 255 with (Z.ones 8). apply Z.ones_spec_low. lia. }
  destruct (first_zero_bit_spec w Hw Hne) as (b & -> & Hb & Hz & Hlow).
  rewrite length_app in Hl. cbn [length] in Hl. rewrite mul64_done by lia. cbn. rewrite add64_done by lia. cbn.
  assert (full_below (pre ++ w :: bytes) (8 * Z.of_nat (length pre) + b)) as Hfb by (eapply full_below_byte; [done|done|lia|done]).
  destruct (Z.leb_spec total (Z.of_nat (length pre) * 8 + b)).
  - exists None. split; [done|]. intros j Hj. apply Hfb. lia.
  - eexists. split; [done|]. cbn. rewrite (bit_at_byte _ _ w) by done. split_and!; try done; lia.
Qed.

(** ** The operations on the set *)

Lemma bitmap_allocate_spec m : bitmap_wf m ->
  exists r m', bitmap_allocate m = Done (r, m') /\ bitmap_wf m' /\ bm_total m' = bm_total m /\
    match r with
    | None => m' = m /\ bm_free m = 0
    | Some b => in_range m b /\ taken m b = false /\ (forall b', 1 <= b' < b -> taken m b' = true) /\
        bm_free m' = bm_free m - 1 /\ forall b', taken m' b' = taken m b' || (b' =? b)
    end.
Proof.
  intros Hwf. pose proof (bw_total _ Hwf) as [Ht0 Ht]. pose proof (bw_len _ Hwf) as Hlen.
  pose proof (Z.div_mod (bm_total m + 7) 8 ltac:(lia)). pose proof (Z.mod_pos_bound (bm_total m + 7) 8 ltac:(lia)).
  unfold bitmap_allocate. destruct (Z.eqb_spec (bm_free m) 0) as [Hz|Hnz]; [by exists None, m|].
  destruct (scan_bytes_spec (bm_bits m) [] (bm_total m)) as (r & Hr & Hspec); [apply Hwf|cbn; lia|intros j Hj; cbn in Hj; lia|].
  cbn [length app] in Hr, Hspec. change (Z.of_nat 0) with 0 in Hr. rewrite Hr. cbn [mbind run_bind].
  destruct r as [[k b]|].
  2:{ exfalso. apply Hnz, free_count_taken; [done|]. intros b' Hb'. rewrite taken_bit by done. unfold in_range in Hb'.
      apply Hspec. lia. }
  destruct Hspec as (Hk & Hb & Hlt & Hoff & Hlow).
  assert (in_range m (8 * k + b + 1)) as Hr' by (unfold in_range; lia).
  destruct (bit_at_live m (8 * k + b) Hwf) as (w & Hw & Hu); [lia|].
  assert ((8 * k + b) / 8 = k) as Ek by (rewrite (Z.mul_comm 8), Z.div_add_l, (Z.div_small b) by lia; lia).
  assert ((8 * k + b) mod 8 = b) as Eb by (rewrite (Z.mul_comm 8), Z.add_comm, Z.mod_add, Z.mod_small by lia; lia).
  rewrite Ek in Hw. unfold index_run. rewrite Hw. cbn [mbind run_bind].
  assert (0 < bm_free m) as Hpos.
  { pose proof (count_below_bounds (fun i => negb (bit_at (bm_bits m) i)) (Z.to_nat (bm_total m))) as Hc. rewrite <- (bw_free _ Hwf) in Hc. lia. }
  unfold sub64. rewrite (proj2 (Z.leb_le 1 _)) by lia. cbn [mbind run_bind].
  rewrite add64_done by lia. cbn [mbind run_bind]. replace (k * 8 + b + 1) with (8 * k + b + 1) by lia.
  assert (taken m (8 * k + b + 1) = false) as Hnt by (rewrite taken_bit by done; replace (8 * k + b + 1 - 1) with (8 * k + b) by lia; done).
  destruct (flip_wf m (8 * k + b + 1) (Z.lor w (Z.shiftl 1 b)) (bm_free m - 1)) as [Hwf' Htk]; try done.
  { by apply set_bit_u8. }
  { replace (8 * k + b + 1 - 1) with (8 * k + b) by lia. rewrite Ek, Eb. intros w' Hw'. assert (w' = w) as -> by congruence.
    split; [intros n Hn Hne|]; rewrite testbit_set_bit by lia.
    - by rewrite (proj2 (Z.eqb_neq n b)), orb_false_r.
    - rewrite Z.eqb_refl, orb_true_r. unfold bit_at in Hoff. rewrite Ek, Eb, Hw in Hoff. by rewrite Hoff. }
  { by rewrite Hnt. }
  replace (8 * k + b + 1 - 1) with (8 * k + b) in * by lia. rewrite Ek in Hwf', Htk.
  eexists _, _. split; [reflexivity|]. split; [exact Hwf'|]. split; [done|]. split_and!; try done.
  - intros b' Hb'. rewrite taken_bit by (unfold in_range; lia). apply Hlow. lia.
  - intros b'. rewrite Htk, Hnt. destruct (Z.eqb_spec b' (8 * k + b + 1)) as [->|]; [by rewrite Hnt|by rewrite orb_false_r].
Qed.

Lemma bitmap_free_spec m b : bitmap_wf m -> 0 <= b ->
  exists m', bitmap_free b m = Done m' /\ bitmap_wf m' /\ bm_total m' = bm_total m /\
    (forall b', taken m' b' = taken m b' && negb (b' =? b)) /\
    bm_free m' = (if taken m b then bm_free m + 1 else bm_free m).
Proof.
  intros Hwf Hb. pose proof (bw_total _ Hwf) as [Ht0 Ht]. unfold bitmap_free.
  assert (forall m0 b0, ~ in_range m0 b0 -> taken m0 b0 = false) as Hout.
  { intros m0 b0 Hn. apply not_true_is_false. by intros Hx%taken_range. }
  assert (taken m b = false -> forall b', taken m b' = taken m b' && negb (b' =? b)) as Hsame.
  { intros E b'. destruct (Z.eqb_spec b' b) as [->|]; [by rewrite E|by rewrite andb_true_r]. }
  destruct ((b =? 0) || (bm_total m <? b)) eqn:E.
  { assert (taken m b = false) as Hf.
    { apply Hout. unfold in_range. apply orb_true_iff in E as [E|E]; zbool; lia. }
    exists m. rewrite Hf. split_and!; try done. by apply Hsame. }
  zbool. assert (in_range m b) as Hr by (unfold in_range; lia).
  destruct (bit_at_live m (b - 1) Hwf) as (w & Hw & Hu); [lia|]. unfold index_run. rewrite Hw. cbn [mbind run_bind].
  pose proof (Z.mod_pos_bound (b - 1) 8 ltac:(lia)) as Hm. rewrite land_bit_zero, negb_involutive by lia.
  assert (taken m b = Z.testbit w ((b - 1) mod 8)) as Etb by (rewrite taken_bit by done; unfold bit_at; by rewrite Hw).
  destruct (Z.testbit w ((b - 1) mod 8)) eqn:Ew.
  2:{ exists m. rewrite Etb. split_and!; try done. by apply Hsame. }
  pose proof (count_below_bounds (fun i => negb (bit_at (bm_bits m) i)) (Z.to_nat (bm_total m))) as Hc. rewrite <- (bw_free _ Hwf) in Hc.
  rewrite add64_done by lia. cbn [mbind run_bind].
  destruct (flip_wf m b (Z.land w (not8 (Z.shiftl 1 ((b - 1) mod 8)))) (bm_free m + 1)) as [Hwf' Htk]; try done.
  { by apply clear_bit_u8. }
  { intros w' Hw'. assert (w' = w) as -> by congruence. split; [intros n Hn Hne|]; rewrite testbit_clear_u8 by (done || lia).
    - by rewrite (proj2 (Z.eqb_neq n _)), andb_true_r.
    - by rewrite Z.eqb_refl, andb_false_r, Ew. }
  { by rewrite Etb. }
  eexists. split; [reflexivity|]. split; [exact Hwf'|]. split_and!; try done.
  - intros b'. rewrite Htk, Etb. destruct (Z.eqb_spec b' b) as [->|]; [by rewrite andb_false_r|by rewrite andb_true_r].
  - by rewrite Etb.
Qed.

Lemma mark_allocated_spec m b : bitmap_wf m -> 0 <= b ->
  exists m', mark_allocated b m = Done m' /\ bitmap_wf m' /\ bm_total m' = bm_total m /\
    (forall b', taken m' b' = taken m b' || (b' =? b) && (1 <=? b) && (b <=? bm_total m)) /\
    (in_range m b -> bm_free m' = if taken m b then bm_free m else bm_free m - 1).
Proof.
  intros Hwf Hb. pose proof (bw_total _ Hwf) as [Ht0 Ht]. unfold mark_allocated.
  destruct ((b =? 0) || (bm_total m <? b)) eqn:E.
  { exists m. split_and!; try done.
    - intros b'. replace ((b' =? b) && (1 <=? b) && (b <=? bm_total m)) with false; [by rewrite orb_false_r|].
      symmetry. apply orb_true_iff in E as [E|E]; zbool.
      + subst b. by rewrite andb_false_r.
      + by rewrite (proj2 (Z.leb_gt b _)), andb_false_r.
    - unfold in_range. apply orb_true_iff in E as [E|E]; zbool; lia. }
  zbool. assert (in_range m b) as Hr by (unfold in_range; lia).
  rewrite (proj2 (Z.leb_le 1 b)), (proj2 (Z.leb_le b (bm_total m))) by lia.
  destruct (bit_at_live m (b - 1) Hwf) as (w & Hw & Hu); [lia|]. unfold index_run. rewrite Hw. cbn [mbind run_bind].
  pose proof (Z.mod_pos_bound (b - 1) 8 ltac:(lia)) as Hm. rewrite land_bit_zero by lia.
  assert (taken m b = Z.testbit w ((b - 1) mod 8)) as Etb by (rewrite taken_bit by done; unfold bit_at; by rewrite Hw).
  destruct (Z.testbit w ((b - 1) mod 8)) eqn:Ew; cbn [negb].
  { exists m. rewrite Etb. split_and!; try done. intros b'. rewrite !andb_true_r.
    destruct (Z.eqb_spec b' b) as [->|]; [by rewrite Etb|by rewrite orb_false_r]. }
  assert (0 < bm_free m) as Hpos.
  { destruct (decide (bm_free m = 0)) as [Hz|].
    - apply (proj1 (free_count_taken m Hwf)) with (b := b) in Hz; [congruence|done].
    - pose proof (count_below_bounds (fun i => negb (bit_at (bm_bits m) i)) (Z.to_nat (bm_total m))) as Hc.
      rewrite <- (bw_free _ Hwf) in Hc. lia. }
  unfold sub64. rewrite (proj2 (Z.leb_le 1 _)) by lia. cbn [mbind run_bind].
  destruct (flip_wf m b (Z.lor w (Z.shiftl 1 ((b - 1) mod 8))) (bm_free m - 1)) as [Hwf' Htk]; try done.
  { by apply set_bit_u8. }
  { intros w' Hw'. assert (w' = w) as -> by congruence. split; [intros n Hn Hne|]; rewrite testbit_set_bit by lia.
    - by rewrite (proj2 (Z.eqb_neq n _)), orb_false_r.
    - by rewrite Z.eqb_refl, orb_true_r, Ew. }
  { by rewrite Etb. }
  eexists. split; [reflexivity|]. split; [exact Hwf'|]. split_and!; try done.
  - intros b'. rewrite Htk, Etb, !andb_true_r. destruct (Z.eqb_spec b' b) as [->|]; [by rewrite Etb|by rewrite orb_false_r].
  - intros _. by rewrite Etb.
Qed.

(** The padding of the last byte: the bits from [u] on are set. *)
Lemma seal_byte u : 0 < u < 8 ->
  is_u8 (not8 (Z.shiftl 1 u - 1)) /\ forall n, 0 <= n < 8 -> Z.testbit (not8 (Z.shiftl 1 u - 1)) n = (u <=? n).
Proof.
  intros Hu. assert (u = 1 \/ u = 2 \/ u = 3 \/ u = 4 \/ u = 5 \/ u = 6 \/ u = 7) as Hc by lia.
  split; [destruct_or! Hc; subst u; vm_compute; done|]. intros n Hn.
  assert (n = 0 \/ n = 1 \/ n = 2 \/ n = 3 \/ n = 4 \/ n = 5 \/ n = 6 \/ n = 7) as Hd by lia.
  destruct_or! Hc; destruct_or! Hd; subst; reflexivity.
Qed.

Lemma bitmap_new_spec total : 0 <= total -> total + 7 < 2 ^ 64 ->
  exists m, bitmap_new total = Done m /\ bitmap_wf m /\ bm_total m = total /\ bm_free m = total /\
    forall b, taken m b = false.
Proof.
  intros Ht0 Ht. unfold bitmap_new. rewrite add64_done by lia. cbn [mbind run_bind].
  pose proof (Z.div_mod (total + 7) 8 ltac:(lia)) as Ed. pose proof (Z.mod_pos_bound (total + 7) 8 ltac:(lia)).
  pose proof (Z.div_mod total 8 ltac:(lia)) as Et. pose proof (Z.mod_pos_bound total 8 ltac:(lia)) as Hm.
  set (n := Z.to_nat ((total + 7) / 8)).
  assert (forall bits, length bits = n -> Forall is_u8 bits -> (forall i, 0 <= i < total -> bit_at bits i = false) ->
    let m := {| bm_bits := bits; bm_total := total; bm_free := total |} in bitmap_wf m /\ forall b, taken m b = false) as Hok.
  { intros bits Hl Hu Hz m. split.
    - constructor; cbn; [lia|lia|done|]. rewrite count_below_all; [lia|]. intros i Hi. by rewrite Hz by lia.
    - intros b. apply not_true_is_false. intros Hb. pose proof (taken_range _ _ Hb) as Hr. rewrite taken_bit in Hb by done.
      unfold in_range in Hr. cbn in *. by rewrite Hz in Hb by lia. }
  assert (forall i, bit_at (replicate n 0) i = false) as Hrep.
  { intros i. unfold bit_at. destruct (replicate n 0 !! _) eqn:E; [|done]. apply lookup_replicate in E as [-> _]. apply Z.testbit_0_l. }
  assert (Forall is_u8 (replicate n 0)) as Hu0 by (apply Forall_replicate; unfold is_u8; lia).
  destruct (Z.eqb_spec (total mod 8) 0) as [E0|E0]; cbn [negb].
  { destruct (Hok (replicate n 0)) as [H1 H2]; [apply length_replicate|done|by intros; apply Hrep|by eexists]. }
  unfold sub64. rewrite (proj2 (Z.leb_le 1 _)) by lia. cbn [mbind run_bind]. unfold index_run. fold n.
  assert ((total + 7) / 8 - 1 = total / 8) as -> by lia. assert (Z.to_nat (total / 8) < n)%nat as Hlt by lia.
  rewrite lookup_replicate_2 by done. cbn [mbind run_bind].
  destruct (seal_byte (total mod 8) ltac:(lia)) as [Hv8 Hv].
  destruct (Hok (<[Z.to_nat (total / 8) := not8 (Z.shiftl 1 (total mod 8) - 1)]> (replicate n 0))) as [H1 H2]; [| | |by eexists].
  - by rewrite length_insert, length_replicate.
  - by apply Forall_insert.
  - intros i Hi. pose proof (Z.div_mod i 8 ltac:(lia)). pose proof (Z.mod_pos_bound i 8 ltac:(lia)).
    unfold bit_at. destruct (decide (Z.to_nat (i / 8) = Z.to_nat (total / 8))) as [E|E].
    + rewrite E, list_lookup_insert_eq by (by rewrite length_replicate). rewrite Hv by lia. apply Z.leb_gt. lia.
    + rewrite list_lookup_insert_ne by done. apply Hrep.
Qed.

Lemma bitmap_bytes_roundtrip m pad : bitmap_wf m -> bitmap_from_bytes (bm_bits m ++ pad) (bm_total m) = Done (Some m).
Proof.
  intros Hwf. destruct (bw_total _ Hwf) as [Ht0 Ht]. unfold bitmap_from_bytes. rewrite add64_done by lia. cbn [mbind run_bind].
  rewrite <- (bw_len _ Hwf), length_app, Nat2Z.id, take_app_length, count_free_bits_spec by done.
  rewrite (proj2 (Z.ltb_ge _ _)) by lia. by destruct m.
Qed.

Lemma bitmap_from_bytes_wf bytes total : Forall is_u8 bytes -> 0 <= total -> total + 7 < 2 ^ 64 ->
  (total + 7) / 8 <= Z.of_nat (length bytes) ->
  exists m, bitmap_from_bytes bytes total = Done (Some m) /\ bitmap_wf m /\ bm_total m = total /\
    bm_bits m = take (Z.to_nat ((total + 7) / 8)) bytes.
Proof.
  intros Hu Ht0 Ht Hl. unfold bitmap_from_bytes. rewrite add64_done by lia. cbn [mbind run_bind].
  rewrite (proj2 (Z.ltb_ge _ _)) by lia. eexists. split; [reflexivity|]. split; [|done].
  assert (0 <= (total + 7) / 8) by (apply Z.div_pos; lia).
  constructor; cbn; [lia|rewrite length_take; lia|by apply Forall_take|].
  apply count_below_ext. intros i Hi. unfold bit_at. destruct (lookup_lt_is_Some_2 (take (Z.to_nat ((total + 7) / 8)) bytes) (Z.to_nat (i / 8))) as [w ->].
  - rewrite length_take. pose proof (Z.div_mod i 8 ltac:(lia)). pose proof (Z.mod_pos_bound i 8 ltac:(lia)).
    pose proof (Z.div_mod (total + 7) 8 ltac:(lia)). pose proof (Z.mod_pos_bound (total + 7) 8 ltac:(lia)). lia.
  - apply land_bit_zero, Z.mod_pos_bound. lia.
Qed.

(** ** Theorems *)

(** Block bitmap: read as a set of taken blocks, a fresh bitmap is empty,
    [allocate] takes the lowest block that is not in the set and fails exactly
    when none is left, [free] and [mark_allocated] remove and add the block they
    name and ignore blocks out of range, the counter is the number of blocks
    not taken throughout, and the stored bytes restore the same bitmap. *)
Theorem block_bitmap_exact (m : BlockBitmap) (b total : Z) (pad : list Z) (Hwf : bitmap_wf m) (Hb : 0 <= b)
    (Ht : 0 <= total < 2 ^ 64 - 7) :
  (exists m0, bitmap_new total = Done m0 /\ bitmap_wf m0 /\ bm_total m0 = total /\ bm_free m0 = total /\ forall b, taken m0 b = false) /\
  (exists r m', bitmap_allocate m = Done (r, m') /\ bitmap_wf m' /\ bm_total m' = bm_total m /\
     match r with
     | None => m' = m /\ bm_free m = 0
     | Some b => in_range m b /\ taken m b = false /\ (forall b', 1 <= b' < b -> taken m b' = true) /\
         bm_free m' = bm_free m - 1 /\ forall b', taken m' b' = taken m b' || (b' =? b)
     end) /\
  (exists m', bitmap_free b m = Done m' /\ bitmap_wf m' /\ bm_total m' = bm_total m /\
     (forall b', taken m' b' = taken m b' && negb (b' =? b)) /\ bm_free m' = (if taken m b then bm_free m + 1 else bm_free m)) /\
  (exists m', mark_allocated b m = Done m' /\ bitmap_wf m' /\ bm_total m' = bm_total m /\
     (forall b', taken m' b' = taken m b' || (b' =? b) && (1 <=? b) && (b <=? bm_total m)) /\
     (in_range m b -> bm_free m' = if taken m b then bm_free m else bm_free m - 1)) /\
  is_allocated m b = Done (taken m b) /\ (bm_free m = 0 <-> forall b', in_range m b' -> taken m b' = true) /\
  bitmap_from_bytes (bm_bits m ++ pad) (bm_total m) = Done (Some m).
Proof.
  split; [apply bitmap_new_spec; lia|]. split; [by apply bitmap_allocate_spec|]. split; [by apply bitmap_free_spec|].
  split; [by apply mark_allocated_spec|]. split; [by apply is_allocated_spec|]. split; [by apply free_count_taken|].
  by apply bitmap_bytes_roundtrip.
Qed.

(** ** Witnesses *)

(** Twelve blocks, of which 1, 2 and 5 are taken. *)
Definition demo_bitmap : BlockBitmap := {| bm_bits := [19; 240]; bm_total := 12; bm_free := 9 |}.

Lemma demo_bitmap_wf : bitmap_wf demo_bitmap.
Proof. constructor; [cbn; lia|reflexivity|repeat constructor; lia|reflexivity]. Qed.

Example demo_bitmap_allocate : bitmap_allocate demo_bitmap = Done (Some 3, {| bm_bits := [23; 240]; bm_total := 12; bm_free := 8 |}).
Proof. reflexivity. Qed.

Lemma block_bitmap_exact_witness :
  bitmap_wf demo_bitmap /\ exists m', bitmap_free 5 demo_bitmap = Done m' /\ taken m' 5 = false /\ taken m' 2 = true /\ bm_free m' = 10.
Proof.
  split; [exact demo_bitmap_wf|].
  destruct (block_bitmap_exact demo_bitmap 5 12 [] demo_bitmap_wf ltac:(lia) ltac:(lia)) as (_ & _ & (m' & H1 & _ & _ & H2 & H3) & _).
  exists m'. split; [exact H1|]. split; [rewrite H2; reflexivity|]. split; [rewrite H2; reflexivity|]. rewrite H3. reflexivity.
Defined.
