(* ===== verification/FsBlocks.v ===== *)
(** * File-system data and block arithmetic (omni-fs: lib.rs)

    The types of the file system and what its two volumes share: how a range
    of a file is cut into 4 KiB blocks, how such a range is read from blocks and
    written into them.  [byte_at] is the meaning of a file's block list; a
    read returns these bytes, a write changes exactly the ones it covers. *)

From Stdlib Require Import ZArith Lia String.
From stdpp Require Import base numbers list gmap sorting.
From S2P Require Import Prelude Str.

(** ** Data *)

Definition OMNI_FS_MAGIC : list Z := lit "OMNIFS01".
Definition OMNI_FS_VERSION : Z := 1.
Definition MAX_PATH_LEN : Z := 4096.
Definition ROOT_INODE_NUMBER : Z := 1.
Definition FIRST_USER_INODE : Z := 2.
Definition BLOCK_SIZE : Z := 4096.

Inductive FsError :=
| VolumeNotFound | VolumeAlreadyRegistered | InvalidChannelId | InvalidSlotName | ChannelDisconnected
| CorrelationIdNotFound | RequestTimeout | WireError | FileAlreadyExists | NotAFile | NotADirectory
| NoSpace | PathTooLong | FileNotFound | IntegrityViolation.

Record Superblock := {
  sb_magic : list Z;
  sb_version : Z;
  sb_block_size : Z;
  sb_total_blocks : Z;
  sb_free_blocks : Z;
  sb_inode_count : Z;
  sb_root_inode : Z;
  sb_created_at : Z;
  sb_aead_key_id : Z;
}.

Definition set_sb_free (free : Z) (s : Superblock) : Superblock :=
  {| sb_magic := sb_magic s; sb_version := sb_version s; sb_block_size := sb_block_size s; sb_total_blocks := sb_total_blocks s;
     sb_free_blocks := free; sb_inode_count := sb_inode_count s; sb_root_inode := sb_root_inode s;
     sb_created_at := sb_created_at s; sb_aead_key_id := sb_aead_key_id s |}.
Definition set_sb_inodes (count : Z) (s : Superblock) : Superblock :=
  {| sb_magic := sb_magic s; sb_version := sb_version s; sb_block_size := sb_block_size s; sb_total_blocks := sb_total_blocks s;
     sb_free_blocks := sb_free_blocks s; sb_inode_count := count; sb_root_inode := sb_root_inode s;
     sb_created_at := sb_created_at s; sb_aead_key_id := sb_aead_key_id s |}.

Inductive FsFileType := RegularFile | Directory.

#[global] Instance fs_file_type_eq : EqDecision FsFileType.
Proof. solve_decision. Defined.

Record FsInode := {
  fi_number : Z;
  fi_type : FsFileType;
  fi_size : Z;
  fi_block_count : Z;
  fi_created : Z;
  fi_modified : Z;
  fi_blocks : list Z;
  fi_name : str;
}.

Record FileMetadata := { fm_size : Z; fm_block_count : Z; fm_created : Z; fm_modified : Z }.

Definition set_fi_blocks (blocks : list Z) (count : Z) (i : FsInode) : FsInode :=
  {| fi_number := fi_number i; fi_type := fi_type i; fi_size := fi_size i; fi_block_count := count;
     fi_created := fi_created i; fi_modified := fi_modified i; fi_blocks := blocks; fi_name := fi_name i |}.
Definition set_fi_size (size : Z) (i : FsInode) : FsInode :=
  {| fi_number := fi_number i; fi_type := fi_type i; fi_size := size; fi_block_count := fi_block_count i;
     fi_created := fi_created i; fi_modified := fi_modified i; fi_blocks := fi_blocks i; fi_name := fi_name i |}.

(** A freshly created inode, and the root directory. *)
Definition fresh_inode (n : Z) (t : FsFileType) (name : str) : FsInode :=
  {| fi_number := n; fi_type := t; fi_size := 0; fi_block_count := 0; fi_created := 0; fi_modified := 0;
     fi_blocks := []; fi_name := name |}.

(** The last component of a path. *)
Definition basename (path : str) : str :=
  match rsplit_once path 47 with
  | Some (_, []) => lit "/"
  | Some (_, name) => name
  | None => path
  end.

Definition stat_of (i : FsInode) : FileMetadata :=
  {| fm_size := fi_size i; fm_block_count := fi_block_count i; fm_created := fi_created i; fm_modified := fi_modified i |}.

(** ** Byte ranges *)

(** [dst[pos..pos + src.len()].copy_from_slice(src)]. *)
Definition copy_at (dst : list Z) (pos : Z) (src : list Z) : run (list Z) :=
  if (0 <=? pos) && (pos + Z.of_nat (length src) <=? Z.of_nat (length dst))
  then Done (take (Z.to_nat pos) dst ++ src ++ drop (Z.to_nat pos + length src) dst) else Panicked.

(** The part of block [k] that the range [offset, stop) covers; [first] and
    [last] are the blocks of the range's first and last byte. *)
Definition block_span (offset stop first last k : Z) : Z * Z :=
  (if k =? first then offset mod BLOCK_SIZE else 0, if k =? last then (stop - 1) mod BLOCK_SIZE + 1 else BLOCK_SIZE).

(** [Vec::resize] to a full block when shorter. *)
Definition pad_block (block : list Z) : list Z := block ++ replicate (Z.to_nat BLOCK_SIZE - length block) 0.

(** The body of the write loops: the block's previous bytes, or zeroes, with
    the next piece of the data copied over its part of the range. *)
Definition write_block (seed : option (list Z)) (data : list Z) (bytes_written : Z) (span : Z * Z) : run (list Z * Z) :=
  let block := pad_block (default (replicate (Z.to_nat BLOCK_SIZE) 0) seed) in
  let write_len := snd span - fst span in
  chunk ← slice_run data bytes_written (bytes_written + write_len);
  block' ← copy_at block (fst span) chunk;
  Done (block', bytes_written + write_len).

(** The body of the read loops.  [check] is what is done to a block before
    its bytes are used. *)
Definition read_block (check : Z -> list Z -> run (result FsError unit)) (data_blocks : gmap Z (list Z)) (block_num : Z)
    (span : Z * Z) (bytes_read : Z) (res : list Z) : run (result FsError (list Z)) :=
  if block_num =? 0 then Done (Ok res) else
  match data_blocks !! block_num with
  | None => Done (Ok res)
  | Some block =>
      c ← check block_num block;
      match c with
      | Err e => Done (Err e)
      | Ok _ =>
          let src_end := Z.min (snd span) (Z.of_nat (length block)) in
          if fst span <? src_end then
            src ← slice_run block (fst span) src_end;
            res' ← copy_at res bytes_read src; Done (Ok res')
          else Done (Ok res)
      end
  end.

(** [for abs_block_idx in first..=last]. *)
Fixpoint read_loop (check : Z -> list Z -> run (result FsError unit)) (data_blocks : gmap Z (list Z)) (blocks : list Z)
    (offset stop first last : Z) (ks : list Z) (bytes_read : Z) (res : list Z) : run (result FsError (list Z)) :=
  match ks with
  | [] => Done (Ok res)
  | k :: ks =>
      let block_num := default 0 (blocks !! Z.to_nat k) in
      let span := block_span offset stop first last k in
      r ← read_block check data_blocks block_num span bytes_read res;
      match r with
      | Err e => Done (Err e)
      | Ok res => read_loop check data_blocks blocks offset stop first last ks (bytes_read + (snd span - fst span)) res
      end
  end.

(** [read_file] from the point where the inode is known. *)
Definition read_inode (check : Z -> list Z -> run (result FsError unit)) (data_blocks : gmap Z (list Z)) (i : FsInode)
    (offset count : Z) : run (result FsError (list Z)) :=
  if negb (bool_decide (fi_type i = RegularFile)) then Done (Err NotAFile) else
  if (fi_size i <=? offset) || (count =? 0) then Done (Ok []) else
  sum ← add64 offset count;
  let effective_end := Z.min sum (fi_size i) in
  let first := offset / BLOCK_SIZE in
  let last := (effective_end - 1) / BLOCK_SIZE in
  read_loop check data_blocks (fi_blocks i) offset effective_end first last (seqZ first (last - first + 1)) 0
    (replicate (Z.to_nat (effective_end - offset)) 0).

(** The direct children of a directory: the scan of the path map's keys. *)
Definition child_names (path : str) (keys : list str) : list str :=
  let prefix := if str_eqb path (lit "/") then lit "/" else path ++ lit "/" in
  omap (fun candidate =>
    if str_eqb candidate path then None
    else if negb (starts_with candidate prefix) then None
    else let suffix := drop (length prefix) candidate in
         if bool_decide (47 ∈ suffix) then None else Some suffix) keys.

(** Keys of a [BTreeMap] with string keys, in order. *)
Definition sorted_paths (m : gmap str Z) : list str := merge_sort str_le (fst <$> map_to_list m).

(** ** The bytes of a file *)

Definition block_byte (data_blocks : gmap Z (list Z)) (b j : Z) : Z :=
  if b =? 0 then 0 else match data_blocks !! b with Some block => default 0 (block !! Z.to_nat j) | None => 0 end.

Definition byte_at (data_blocks : gmap Z (list Z)) (blocks : list Z) (i : Z) : Z :=
  match blocks !! Z.to_nat (i / BLOCK_SIZE) with
  | Some b => block_byte data_blocks b (i mod BLOCK_SIZE)
  | None => 0
  end.

Definition content (data_blocks : gmap Z (list Z)) (i : FsInode) : list Z :=
  byte_at data_blocks (fi_blocks i) <$> seqZ 0 (fi_size i).

(** What a write of [data] at [offset] does to a file: a gap is filled with
    zeroes, bytes past the data stay. *)
Definition file_write (offset : Z) (data old : list Z) : list Z :=
  let o := Z.to_nat offset in
  take o (old ++ replicate (o - length old) 0) ++ data ++ drop (o + length data) old.

Definition file_read (offset count : Z) (old : list Z) : list Z := take (Z.to_nat count) (drop (Z.to_nat offset) old).

(** ** Lemmas: cutting a range into blocks *)

(** Where the part of the range [offset, stop) before block [k] ends. *)
Definition cut (offset stop k : Z) : Z := Z.max offset (Z.min stop (BLOCK_SIZE * k)).

Lemma span_cut offset stop k : 0 <= offset < stop -> offset / BLOCK_SIZE <= k <= (stop - 1) / BLOCK_SIZE ->
  exists lo hi, block_span offset stop (offset / BLOCK_SIZE) ((stop - 1) / BLOCK_SIZE) k = (lo, hi) /\
    0 <= lo < hi /\ hi <= BLOCK_SIZE /\ cut offset stop k = BLOCK_SIZE * k + lo /\ cut offset stop (k + 1) = BLOCK_SIZE * k + hi.
Proof.
  intros Ho Hk. unfold cut, BLOCK_SIZE in *.
  pose proof (Z.div_mod offset 4096 ltac:(lia)). pose proof (Z.mod_pos_bound offset 4096 ltac:(lia)).
  pose proof (Z.div_mod (stop - 1) 4096 ltac:(lia)). pose proof (Z.mod_pos_bound (stop - 1) 4096 ltac:(lia)).
  unfold block_span, BLOCK_SIZE. eexists _, _. split; [reflexivity|].
  destruct (Z.eqb_spec k (offset / 4096)); destruct (Z.eqb_spec k ((stop - 1) / 4096)); lia.
Qed.

Lemma cut_first offset stop : 0 <= offset < stop -> cut offset stop (offset / BLOCK_SIZE) = offset.
Proof.
  intros Ho. unfold cut, BLOCK_SIZE. pose proof (Z.div_mod offset 4096 ltac:(lia)). pose proof (Z.mod_pos_bound offset 4096 ltac:(lia)). lia.
Qed.

Lemma cut_last offset stop : 0 <= offset < stop -> cut offset stop ((stop - 1) / BLOCK_SIZE + 1) = stop.
Proof.
  intros Ho. unfold cut, BLOCK_SIZE. pose proof (Z.div_mod (stop - 1) 4096 ltac:(lia)). pose proof (Z.mod_pos_bound (stop - 1) 4096 ltac:(lia)). lia.
Qed.

Lemma block_order offset stop : 0 <= offset < stop -> 0 <= offset / BLOCK_SIZE <= (stop - 1) / BLOCK_SIZE.
Proof. intros Ho. unfold BLOCK_SIZE. split; [apply Z.div_pos; lia|apply Z.div_le_mono; lia]. Qed.

(** Position [j] of block [k]. *)
Lemma at_block k j : 0 <= j < BLOCK_SIZE -> (BLOCK_SIZE * k + j) / BLOCK_SIZE = k /\ (BLOCK_SIZE * k + j) mod BLOCK_SIZE = j.
Proof.
  intros Hj. unfold BLOCK_SIZE in *. rewrite (Z.add_comm (4096 * k)), (Z.mul_comm 4096). split.
  - rewrite Z.div_add, Z.div_small by lia. lia.
  - by rewrite Z.mod_add, Z.mod_small by lia.
Qed.

Lemma byte_at_block db blocks k j : 0 <= j < BLOCK_SIZE ->
  byte_at db blocks (BLOCK_SIZE * k + j) = match blocks !! Z.to_nat k with Some b => block_byte db b j | None => 0 end.
Proof. intros Hj. unfold byte_at. by destruct (at_block k j Hj) as [-> ->]. Qed.

Lemma copy_at_app a src n : (length src <= n)%nat ->
  copy_at (a ++ replicate n 0) (Z.of_nat (length a)) src = Done (a ++ src ++ replicate (n - length src) 0).
Proof.
  intros Hl. unfold copy_at. rewrite length_app, length_replicate.
  rewrite (proj2 (Z.leb_le 0 _)), (proj2 (Z.leb_le (_ + _) _)) by lia. cbn [andb].
  rewrite Nat2Z.id, take_app_length, drop_app_ge by lia. replace (length a + length src - length a)%nat with (length src) by lia.
  by rewrite drop_replicate.
Qed.

Lemma seqZ_snoc_range (f : Z -> Z) m n1 n2 : 0 <= n1 -> 0 <= n2 ->
  (f <$> seqZ m n1) ++ (f <$> seqZ (m + n1) n2) = f <$> seqZ m (n1 + n2).
Proof. intros. by rewrite seqZ_app, fmap_app by done. Qed.

Lemma zeroes_range (f : Z -> Z) m n : (forall i, m <= i < m + n -> f i = 0) -> f <$> seqZ m n = replicate (Z.to_nat n) 0.
Proof.
  intros H. apply list_eq. intros i. rewrite list_lookup_fmap. destruct (decide (i < Z.to_nat n)%nat).
  - rewrite lookup_replicate_2 by done. rewrite (proj2 (lookup_seqZ m n i (m + Z.of_nat i))) by lia. cbn. by rewrite H by lia.
  - rewrite lookup_seqZ_ge by lia. symmetry. apply lookup_ge_None. rewrite length_replicate. lia.
Qed.

Lemma slice_range (block : list Z) lo hi : 0 <= lo <= hi -> hi <= Z.of_nat (length block) ->
  slice_run block lo hi = Done ((fun j => default 0 (block !! Z.to_nat j)) <$> seqZ lo (hi - lo)).
Proof.
  intros Hl Hh. unfold slice_run, slice_get. rewrite (proj2 (Z.leb_le lo hi)), (proj2 (Z.leb_le hi _)) by lia. cbn [andb]. f_equal.
  apply list_eq. intros i. rewrite list_lookup_fmap. destruct (decide (i < Z.to_nat (hi - lo))%nat) as [Hi|Hi].
  - rewrite lookup_take_lt, lookup_drop by lia. rewrite (proj2 (lookup_seqZ lo (hi - lo) i (lo + Z.of_nat i))) by lia. cbn.
    replace (Z.to_nat (lo + Z.of_nat i)) with (Z.to_nat lo + i)%nat by lia.
    destruct (lookup_lt_is_Some_2 block (Z.to_nat lo + i)) as [x ->]; [lia|done].
  - rewrite lookup_seqZ_ge by lia. apply lookup_ge_None. rewrite length_take. lia.
Qed.

Lemma fmap_seqZ_shift (f g : Z -> Z) a b n : (forall i, 0 <= i < n -> f (a + i) = g (b + i)) -> f <$> seqZ a n = g <$> seqZ b n.
Proof.
  intros H. apply list_eq. intros i. rewrite !list_lookup_fmap. destruct (decide (i < Z.to_nat n)%nat).
  - rewrite (proj2 (lookup_seqZ a n i (a + Z.of_nat i))), (proj2 (lookup_seqZ b n i (b + Z.of_nat i))) by lia. cbn. by rewrite H by lia.
  - by rewrite !lookup_seqZ_ge by lia.
Qed.

(** ** Reading *)

(** Every stored block is whole and passes the check. *)
Definition blocks_sound (check : Z -> list Z -> run (result FsError unit)) (db : gmap Z (list Z)) : Prop :=
  forall b block, db !! b = Some block -> Z.of_nat (length block) = BLOCK_SIZE /\ check b block = Done (Ok tt).

Lemma read_block_spec check db b lo hi a n : blocks_sound check db -> 0 <= lo < hi -> hi <= BLOCK_SIZE ->
  hi - lo <= Z.of_nat n ->
  read_block check db b (lo, hi) (Z.of_nat (length a)) (a ++ replicate n 0) =
  Done (Ok (a ++ (block_byte db b <$> seqZ lo (hi - lo)) ++ replicate (n - Z.to_nat (hi - lo)) 0)).
Proof.
  intros Hs Hl Hh Hn. unfold read_block.
  assert ((forall j, block_byte db b j = 0) ->
    a ++ replicate n 0 = a ++ (block_byte db b <$> seqZ lo (hi - lo)) ++ replicate (n - Z.to_nat (hi - lo)) 0) as Hzero.
  { intros Hz. rewrite zeroes_range by (intros; apply Hz). rewrite <- replicate_add. do 2 f_equal. lia. }
  destruct (Z.eqb_spec b 0) as [->|Hb]; [do 2 f_equal; by apply Hzero|].
  destruct (db !! b) as [block|] eqn:E; [|do 2 f_equal; apply Hzero; intros; unfold block_byte; by rewrite (proj2 (Z.eqb_neq b 0)), E].
  destruct (Hs b block E) as [Hlen ->]. cbn [mbind run_bind fst snd]. rewrite Z.min_l, (proj2 (Z.ltb_lt lo hi)) by lia.
  rewrite slice_range by lia. cbn [mbind run_bind].
  rewrite (copy_at_app a _ n) by (rewrite length_fmap, length_seqZ; lia). cbn [mbind run_bind].
  rewrite length_fmap, length_seqZ. do 4 f_equal. apply list_fmap_ext. intros _ j _. unfold block_byte. by rewrite (proj2 (Z.eqb_neq b 0)), E.
Qed.

Lemma read_loop_spec check db blocks offset stop : blocks_sound check db -> 0 <= offset < stop ->
  forall n k, offset / BLOCK_SIZE <= k -> k + Z.of_nat n = (stop - 1) / BLOCK_SIZE + 1 ->
  read_loop check db blocks offset stop (offset / BLOCK_SIZE) ((stop - 1) / BLOCK_SIZE) (seqZ k (Z.of_nat n))
    (cut offset stop k - offset)
    ((byte_at db blocks <$> seqZ offset (cut offset stop k - offset)) ++ replicate (Z.to_nat (stop - cut offset stop k)) 0)
  = Done (Ok (byte_at db blocks <$> seqZ offset (stop - offset))).
Proof.
  intros Hs Ho. pose proof (block_order _ _ Ho) as Hord. induction n as [|n IH]; intros k Hk Hn.
  { cbn [seqZ read_loop Z.of_nat]. replace k with ((stop - 1) / BLOCK_SIZE + 1) by lia. rewrite cut_last by done.
    rewrite Z.sub_diag. cbn. by rewrite app_nil_r. }
  destruct (span_cut offset stop k Ho ltac:(lia)) as (lo & hi & Espan & Hlo & Hhi & Ec & Ec').
  assert (offset <= cut offset stop k /\ cut offset stop k <= stop /\ cut offset stop (k + 1) <= stop) as Hc by (unfold cut; lia).
  rewrite seqZ_cons by lia. cbn [read_loop]. rewrite Espan.
  set (a := byte_at db blocks <$> seqZ offset (cut offset stop k - offset)).
  assert (cut offset stop k - offset = Z.of_nat (length a)) as Ha by (unfold a; rewrite length_fmap, length_seqZ; lia).
  rewrite Ha. rewrite read_block_spec by (done || lia). cbn [mbind run_bind fst snd]. rewrite <- Ha.
  replace (Z.pred (Z.of_nat (S n))) with (Z.of_nat n) by lia. replace (Z.succ k) with (k + 1) by lia.
  rewrite <- (IH (k + 1)) by lia. replace (cut offset stop k - offset + (hi - lo)) with (cut offset stop (k + 1) - offset) by lia.
  f_equal. rewrite app_assoc. f_equal.
  - replace (cut offset stop (k + 1) - offset) with ((cut offset stop k - offset) + (hi - lo)) by lia.
    rewrite <- seqZ_snoc_range by lia. f_equal. apply fmap_seqZ_shift. intros i Hi.
    replace (offset + (cut offset stop k - offset) + i) with (BLOCK_SIZE * k + (lo + i)) by lia.
    rewrite byte_at_block by lia. by destruct (blocks !! Z.to_nat k).
  - f_equal. lia.
Qed.

Lemma content_length db i : 0 <= fi_size i -> Z.of_nat (length (content db i)) = fi_size i.
Proof. intros. unfold content. rewrite length_fmap, length_seqZ. lia. Qed.

Lemma file_read_content db i offset stop : 0 <= offset -> offset <= stop -> stop <= fi_size i ->
  byte_at db (fi_blocks i) <$> seqZ offset (stop - offset) = take (Z.to_nat (stop - offset)) (drop (Z.to_nat offset) (content db i)).
Proof.
  intros Ho Hs Hz. unfold content. apply list_eq. intros j. rewrite list_lookup_fmap.
  destruct (decide (j < Z.to_nat (stop - offset))%nat) as [Hj|Hj].
  - rewrite lookup_take_lt, lookup_drop, list_lookup_fmap by done.
    rewrite (proj2 (lookup_seqZ offset _ j (offset + Z.of_nat j))) by lia.
    by rewrite (proj2 (lookup_seqZ 0 _ (Z.to_nat offset + j) (offset + Z.of_nat j))) by lia.
  - rewrite lookup_seqZ_ge by lia. symmetry. apply lookup_ge_None. rewrite length_take. lia.
Qed.

(** A read returns the bytes of the file, cut at its end. *)
Lemma read_inode_spec check db i offset count : blocks_sound check db -> fi_type i = RegularFile ->
  0 <= fi_size i -> 0 <= offset -> 0 <= count -> offset + count < 2 ^ 64 ->
  read_inode check db i offset count = Done (Ok (file_read offset count (content db i))).
Proof.
  intros Hs Ht Hz Ho Hc Hov. unfold read_inode. rewrite bool_decide_true by done. cbn [negb].
  pose proof (content_length db i Hz) as Hlen.
  destruct (Z.leb_spec (fi_size i) offset); cbn [orb].
  { unfold file_read. by rewrite drop_ge, take_nil by lia. }
  destruct (Z.eqb_spec count 0) as [->|]; [done|]. rewrite add64_done by done. cbn [mbind run_bind].
  set (stop := Z.min (offset + count) (fi_size i)).
  pose proof (block_order offset stop ltac:(lia)) as Hord.
  pose proof (read_loop_spec check db (fi_blocks i) offset stop Hs ltac:(lia)
    (Z.to_nat ((stop - 1) / BLOCK_SIZE - offset / BLOCK_SIZE + 1)) (offset / BLOCK_SIZE) ltac:(lia) ltac:(lia)) as H'.
  rewrite cut_first, Z.sub_diag in H' by lia. rewrite Z2Nat.id in H' by lia. cbn [app] in H'.
  change (byte_at db (fi_blocks i) <$> seqZ offset 0) with ([] : list Z) in H'. cbn [app] in H'. rewrite H'. do 2 f_equal.
  rewrite file_read_content by lia. unfold file_read. subst stop.
  destruct (Z.le_gt_cases (offset + count) (fi_size i)).
  - rewrite Z.min_l by lia. do 2 f_equal. lia.
  - rewrite Z.min_r by lia. rewrite !take_ge by (rewrite length_drop; lia). done.
Qed.

(** ** Writing *)

Definition seed_byte (seed : option (list Z)) (j : Z) : Z :=
  match seed with Some block => default 0 (block !! Z.to_nat j) | None => 0 end.

Lemma default_lookup_u8 l n : Forall is_u8 l -> is_u8 (default 0 (l !! n)).
Proof. intros H. destruct (l !! n) eqn:E; cbn; [by eapply Forall_lookup_1|unfold is_u8; lia]. Qed.

Lemma write_block_spec seed data bw lo hi : from_option (fun b => Z.of_nat (length b) = BLOCK_SIZE) True seed ->
  0 <= lo <= hi -> hi <= BLOCK_SIZE -> 0 <= bw -> bw + (hi - lo) <= Z.of_nat (length data) ->
  exists block, write_block seed data bw (lo, hi) = Done (block, bw + (hi - lo)) /\ Z.of_nat (length block) = BLOCK_SIZE /\
    (forall j, 0 <= j < BLOCK_SIZE -> default 0 (block !! Z.to_nat j) =
       if (lo <=? j) && (j <? hi) then default 0 (data !! Z.to_nat (bw + (j - lo))) else seed_byte seed j) /\
    (from_option (Forall is_u8) True seed -> Forall is_u8 data -> Forall is_u8 block).
Proof.
  intros Hs Hl Hh Hb Hd. unfold write_block.
  set (old := pad_block (default (replicate (Z.to_nat BLOCK_SIZE) 0) seed)).
  assert (Z.of_nat (length old) = BLOCK_SIZE) as Hlen.
  { unfold old, pad_block, BLOCK_SIZE in *. rewrite length_app, length_replicate. destruct seed as [b|]; cbn [from_option] in *; rewrite ?length_replicate; unfold id; lia. }
  assert (forall j, 0 <= j < BLOCK_SIZE -> old !! Z.to_nat j = Some (seed_byte seed j)) as Hold.
  { intros j Hj. unfold old, pad_block. rewrite lookup_app_l.
    - destruct seed as [b|]; cbn [from_option seed_byte] in *; unfold id; [|apply lookup_replicate_2; unfold BLOCK_SIZE in *; lia].
      destruct (lookup_lt_is_Some_2 b (Z.to_nat j)) as [x ->]; [lia|done].
    - destruct seed as [b|]; cbn [from_option] in *; rewrite ?length_replicate; unfold id, BLOCK_SIZE in *; lia. }
  cbn [fst snd]. rewrite slice_range by lia. cbn [mbind run_bind].
  set (chunk := _ <$> seqZ bw (bw + (hi - lo) - bw)).
  assert (Z.of_nat (length chunk) = hi - lo) as Hcl by (unfold chunk; rewrite length_fmap, length_seqZ; lia).
  unfold copy_at. rewrite (proj2 (Z.leb_le 0 lo)), (proj2 (Z.leb_le _ (Z.of_nat (length old)))) by lia. cbn [andb mbind run_bind].
  eexists. split; [reflexivity|]. split; [|split].
  - rewrite !length_app, length_take, length_drop. lia.
  - intros j Hj. destruct (Z.leb_spec lo j); cbn [andb].
    2:{ rewrite lookup_app_l by (rewrite length_take; lia). by rewrite lookup_take_lt, Hold by lia. }
    rewrite lookup_app_r by (rewrite length_take; lia). rewrite length_take, Nat.min_l by lia.
    destruct (Z.ltb_spec j hi).
    + rewrite lookup_app_l by lia. unfold chunk. rewrite list_lookup_fmap.
      rewrite (proj2 (lookup_seqZ bw _ (Z.to_nat j - Z.to_nat lo) (bw + (j - lo)))) by lia. done.
    + rewrite lookup_app_r by lia. rewrite lookup_drop.
      replace (Z.to_nat lo + length chunk + (Z.to_nat j - Z.to_nat lo - length chunk))%nat with (Z.to_nat j) by lia. by rewrite Hold.
  - intros Hsu Hdu. assert (Forall is_u8 old) as Hou.
    { unfold old, pad_block. apply Forall_app. split; [|apply Forall_replicate; unfold is_u8; lia].
      destruct seed; cbn; [done|apply Forall_replicate; unfold is_u8; lia]. }
    apply Forall_app. split; [by apply Forall_take|]. apply Forall_app. split; [|by apply Forall_drop].
    unfold chunk. apply Forall_fmap, Forall_true. intros j. cbn. by apply default_lookup_u8.
Qed.

(** Bytes changed exactly on the range, over a file that is zero past its
    size, is what [file_write] says. *)
Lemma content_write db db' i i' offset data : 0 <= offset -> 0 <= fi_size i -> data <> [] ->
  (forall p, fi_size i <= p -> byte_at db (fi_blocks i) p = 0) ->
  (forall p, 0 <= p -> byte_at db' (fi_blocks i') p =
     if (offset <=? p) && (p <? offset + Z.of_nat (length data)) then default 0 (data !! Z.to_nat (p - offset))
     else byte_at db (fi_blocks i) p) ->
  fi_size i' = Z.max (fi_size i) (offset + Z.of_nat (length data)) ->
  content db' i' = file_write offset data (content db i).
Proof.
  intros Ho Hz Hne Hzero Hbyte Hsize. pose proof (content_length db i Hz) as Hlen. set (c := content db i) in *.
  assert (forall p, 0 <= p -> p < fi_size i -> c !! Z.to_nat p = Some (byte_at db (fi_blocks i) p)) as Hc.
  { intros p H0 H1. unfold c, content. rewrite list_lookup_fmap. by rewrite (proj2 (lookup_seqZ 0 _ (Z.to_nat p) p)) by lia. }
  apply list_eq. intros n. unfold content at 1. rewrite list_lookup_fmap. set (p := Z.of_nat n).
  assert (n = Z.to_nat p) as En by lia. unfold file_write. rewrite Hsize.
  set (head := take (Z.to_nat offset) (c ++ replicate (Z.to_nat offset - length c) 0)).
  assert (length head = Z.to_nat offset) as Hh by (unfold head; rewrite length_take, length_app, length_replicate; lia).
  destruct (Z.lt_ge_cases p (Z.max (fi_size i) (offset + Z.of_nat (length data)))) as [Hp|Hp].
  2:{ rewrite lookup_seqZ_ge by lia. symmetry. apply lookup_ge_None. rewrite !length_app, length_drop. lia. }
  rewrite (proj2 (lookup_seqZ 0 _ n p)) by lia. cbn [fmap option_fmap option_map]. rewrite Hbyte by lia. symmetry.
  destruct (Z.leb_spec offset p); cbn [andb].
  - rewrite lookup_app_r by lia. rewrite Hh. destruct (Z.ltb_spec p (offset + Z.of_nat (length data))).
    + rewrite lookup_app_l by lia. replace (n - Z.to_nat offset)%nat with (Z.to_nat (p - offset)) by lia.
      destruct (lookup_lt_is_Some_2 data (Z.to_nat (p - offset))) as [x ->]; [lia|done].
    + rewrite lookup_app_r by lia. rewrite lookup_drop.
      replace (Z.to_nat offset + length data + (n - Z.to_nat offset - length data))%nat with (Z.to_nat p) by lia.
      apply Hc; lia.
  - rewrite lookup_app_l by lia. unfold head. rewrite lookup_take_lt by lia. destruct (Z.lt_ge_cases p (fi_size i)).
    + rewrite lookup_app_l by lia. rewrite En. apply Hc; lia.
    + rewrite lookup_app_r by lia. rewrite Hzero by lia. apply lookup_replicate_2. lia.
Qed.

(** The part of block [k] that is written is the part inside the range. *)
Lemma span_test offset stop k lo hi p : 0 <= offset < stop ->
  cut offset stop k = BLOCK_SIZE * k + lo -> cut offset stop (k + 1) = BLOCK_SIZE * k + hi -> 0 <= lo < hi -> hi <= BLOCK_SIZE ->
  0 <= p < BLOCK_SIZE ->
  (lo <=? p) && (p <? hi) = (offset <=? BLOCK_SIZE * k + p) && (BLOCK_SIZE * k + p <? stop).
Proof.
  intros Ho Hc Hc' Hlo Hhi Hp. unfold cut in *.
  destruct (Z.leb_spec lo p), (Z.ltb_spec p hi), (Z.leb_spec offset (BLOCK_SIZE * k + p)), (Z.ltb_spec (BLOCK_SIZE * k + p) stop);
    cbn; try done; lia.
Qed.

(** Block [k] after the write: the data inside the range, the old bytes
    elsewhere. *)
Definition written (offset stop : Z) (data : list Z) (k : Z) (old : Z -> Z) (block : list Z) : Prop :=
  Z.of_nat (length block) = BLOCK_SIZE /\ Forall is_u8 block /\
  forall j, 0 <= j < BLOCK_SIZE -> default 0 (block !! Z.to_nat j) =
    if (offset <=? BLOCK_SIZE * k + j) && (BLOCK_SIZE * k + j <? stop)
    then default 0 (data !! Z.to_nat (BLOCK_SIZE * k + j - offset)) else old j.

Lemma write_block_written offset stop data k seed : 0 <= offset < stop -> stop - offset = Z.of_nat (length data) ->
  offset / BLOCK_SIZE <= k <= (stop - 1) / BLOCK_SIZE -> Forall is_u8 data ->
  from_option (fun b => Z.of_nat (length b) = BLOCK_SIZE /\ Forall is_u8 b) True seed ->
  exists block, write_block seed data (cut offset stop k - offset)
      (block_span offset stop (offset / BLOCK_SIZE) ((stop - 1) / BLOCK_SIZE) k) = Done (block, cut offset stop (k + 1) - offset) /\
    written offset stop data k (seed_byte seed) block.
Proof.
  intros Ho Hd Hk Hu Hs. destruct (span_cut offset stop k Ho Hk) as (lo & hi & -> & Hlo & Hhi & Ec & Ec').
  destruct (write_block_spec seed data (cut offset stop k - offset) lo hi) as (block & -> & Hl & Hb & Hb8).
  - destruct seed; cbn in *; [apply Hs|done].
  - lia.
  - lia.
  - unfold cut. lia.
  - unfold cut in *. lia.
  - exists block. split; [do 2 f_equal; lia|]. split; [done|]. split.
    + apply Hb8; [|done]. destruct seed; cbn in *; [apply Hs|done].
    + intros j Hj. rewrite Hb by done. rewrite (span_test offset stop k lo hi j) by done.
      replace (cut offset stop k - offset + (j - lo)) with (BLOCK_SIZE * k + j - offset) by lia. done.
Qed.

(** When the blocks of the range are written and the others read as before,
    the file's bytes change exactly on the range. *)
Lemma byte_at_written db db' blocks blocks' offset stop data : 0 <= offset < stop ->
  (forall k, offset / BLOCK_SIZE <= k <= (stop - 1) / BLOCK_SIZE -> exists b block, blocks' !! Z.to_nat k = Some b /\ b <> 0 /\
     db' !! b = Some block /\ written offset stop data k (fun j => byte_at db blocks (BLOCK_SIZE * k + j)) block) ->
  (forall k j, 0 <= k -> ~ (offset / BLOCK_SIZE <= k <= (stop - 1) / BLOCK_SIZE) -> 0 <= j < BLOCK_SIZE ->
     byte_at db' blocks' (BLOCK_SIZE * k + j) = byte_at db blocks (BLOCK_SIZE * k + j)) ->
  forall p, 0 <= p -> byte_at db' blocks' p =
    if (offset <=? p) && (p <? stop) then default 0 (data !! Z.to_nat (p - offset)) else byte_at db blocks p.
Proof.
  intros Ho Hin Hout p Hp.
  assert (exists k j, p = BLOCK_SIZE * k + j /\ 0 <= j < BLOCK_SIZE /\ 0 <= k) as (k & j & -> & Hj & Hk).
  { exists (p / BLOCK_SIZE), (p mod BLOCK_SIZE). unfold BLOCK_SIZE. split; [apply Z.div_mod; lia|].
    split; [apply Z.mod_pos_bound; lia|apply Z.div_pos; lia]. }
  destruct (decide (offset / BLOCK_SIZE <= k <= (stop - 1) / BLOCK_SIZE)) as [Hr|Hr].
  - destruct (Hin k Hr) as (b & block & Hb & Hne & Hdb & _ & _ & Hw). rewrite byte_at_block, Hb by done.
    unfold block_byte. rewrite (proj2 (Z.eqb_neq b 0)), Hdb by done. by apply Hw.
  - rewrite Hout by done.
    assert ((offset <=? BLOCK_SIZE * k + j) && (BLOCK_SIZE * k + j <? stop) = false) as ->; [|done].
    unfold BLOCK_SIZE in *. apply not_true_is_false. intros H. zbool. apply Hr. split.
    + apply Z.lt_succ_r, Z.div_lt_upper_bound; lia.
    + apply Z.div_le_lower_bound; lia.
Qed.

(** ** Children *)

Lemma child_names_spec path keys n : n ∈ child_names path keys <->
  47 ∉ n /\ exists prefix, prefix = (if str_eqb path (lit "/") then lit "/" else path ++ lit "/") /\
    prefix ++ n ∈ keys /\ prefix ++ n <> path.
Proof.
  unfold child_names. set (prefix := if _ : bool then _ else _). rewrite list_elem_of_omap. split.
  - intros (c & Hc & E). destruct (str_eqb c path) eqn:E1; [done|].
    destruct (starts_with c prefix) eqn:E2; cbn [negb] in E; [|done]. apply starts_with_spec in E2 as [r ->].
    rewrite drop_app_length in E. case_bool_decide; [done|]. injection E as ->. split; [done|]. exists prefix.
    split; [done|]. split; [done|]. intros Heq. by rewrite (proj2 (str_eqb_eq _ _) Heq) in E1.
  - intros (Hn & p & -> & Hin & Hne). exists (prefix ++ n). split; [done|].
    destruct (str_eqb (prefix ++ n) path) eqn:E1; [by apply str_eqb_eq in E1|].
    rewrite (proj2 (starts_with_spec _ _)) by (by exists n). cbn [negb]. rewrite drop_app_length.
    by rewrite bool_decide_false.
Qed.

Lemma sorted_paths_elem m p : p ∈ sorted_paths m <-> is_Some (m !! p).
Proof.
  unfold sorted_paths. rewrite merge_sort_Permutation, list_elem_of_fmap. split.
  - intros ([q i] & -> & H%elem_of_map_to_list). by exists i.
  - intros [i Hi]. exists (p, i). split; [done|]. by apply elem_of_map_to_list.
Qed.
