(* ===== verification/FsSpec.v ===== *)
(** * What a file-system volume promises (omni-fs)

    The abstract view shared by the in-memory and the on-disk volume: a map
    from paths to files (byte strings) and directories.  [files_wf] relates it
    to the path map, the inode table and the data blocks that both volumes
    keep; the lemmas say what a change of one inode does to the view. *)

From Stdlib Require Import ZArith Lia String.
From stdpp Require Import base numbers list gmap sorting.
From S2P Require Import Prelude Str FsBlocks.

(** ** The abstract view *)

Inductive fnode := FFile (data : list Z) | FDir.

Definition ftree : Type := str -> option fnode.

Definition tree_set (p : str) (x : option fnode) (T : ftree) : ftree := fun q => if str_eqb q p then x else T q.

Definition fnode_of (db : gmap Z (list Z)) (i : FsInode) : fnode :=
  match fi_type i with RegularFile => FFile (content db i) | Directory => FDir end.

Definition tree_of (paths : gmap str Z) (inodes : gmap Z FsInode) (db : gmap Z (list Z)) : ftree := fun p =>
  n ← paths !! p; i ← inodes !! n; Some (fnode_of db i).

(** ** The contract of each operation

    Each relates the view before, the answer and the view after; views are
    compared path by path.  [room] says whether the volume has the blocks that
    the write needs. *)

Definition same_tree (T T' : ftree) : Prop := forall q, T' q = T q.

Definition create_ok (p : str) (T : ftree) (r : result FsError Z) (T' : ftree) : Prop :=
  if MAX_PATH_LEN <? Z.of_nat (length p) then r = Err PathTooLong /\ same_tree T T' else
  match T p with
  | Some _ => r = Err FileAlreadyExists /\ same_tree T T'
  | None => (exists n, r = Ok n) /\ same_tree (tree_set p (Some (FFile [])) T) T'
  end.

Definition write_ok (p : str) (offset : Z) (data : list Z) (room : bool) (T : ftree) (r : result FsError Z) (T' : ftree) : Prop :=
  match T p with
  | None => r = Err FileNotFound /\ same_tree T T'
  | Some FDir => r = Err NotAFile /\ same_tree T T'
  | Some (FFile old) =>
      if bool_decide (data = []) then r = Ok 0 /\ same_tree T T' else
      if room then r = Ok (Z.of_nat (length data)) /\ same_tree (tree_set p (Some (FFile (file_write offset data old))) T) T'
      else r = Err NoSpace /\ same_tree T T'
  end.

Definition read_ok (p : str) (offset count : Z) (T : ftree) (r : result FsError (list Z)) : Prop :=
  r = match T p with
      | None => Err FileNotFound
      | Some FDir => Err NotAFile
      | Some (FFile old) => Ok (file_read offset count old)
      end.

Definition delete_ok (p : str) (T : ftree) (r : result FsError unit) (T' : ftree) : Prop :=
  match T p with
  | None => r = Err FileNotFound /\ same_tree T T'
  | Some FDir => r = Err NotAFile /\ same_tree T T'
  | Some (FFile _) => r = Ok tt /\ same_tree (tree_set p None T) T'
  end.

Definition stat_ok (p : str) (T : ftree) (r : result FsError FileMetadata) : Prop :=
  match T p with
  | None => r = Err FileNotFound
  | Some FDir => exists m, r = Ok m /\ fm_size m = 0
  | Some (FFile old) => exists m, r = Ok m /\ fm_size m = Z.of_nat (length old)
  end.

Definition list_ok (p : str) (T : ftree) (r : result FsError (list str)) : Prop :=
  match T p with
  | None => r = Err FileNotFound
  | Some (FFile _) => r = Err NotADirectory
  | Some FDir => exists names, r = Ok names /\
      forall n, n ∈ names <-> 47 ∉ n /\
        exists prefix, prefix = (if str_eqb p (lit "/") then lit "/" else p ++ lit "/") /\
          is_Some (T (prefix ++ n)) /\ prefix ++ n <> p
  end.

(** ** The tables behind the view *)

Record files_wf (paths : gmap str Z) (inodes : gmap Z FsInode) (db : gmap Z (list Z)) (next_inode : Z) : Prop := {
  fw_path : forall p n, paths !! p = Some n -> is_Some (inodes !! n);
  fw_inj : forall p q n, paths !! p = Some n -> paths !! q = Some n -> p = q;
  fw_num : forall n i, inodes !! n = Some i -> fi_number i = n /\ 1 <= n < next_inode;
  fw_size : forall n i, inodes !! n = Some i -> 0 <= fi_size i < 2 ^ 64;
  fw_dir : forall n i, inodes !! n = Some i -> fi_type i = Directory -> fi_blocks i = [] /\ fi_size i = 0;
  fw_disj : forall n m i j k l b, inodes !! n = Some i -> inodes !! m = Some j ->
    fi_blocks i !! k = Some b -> fi_blocks j !! l = Some b -> b <> 0 -> n = m /\ k = l;
  fw_block : forall b block, db !! b = Some block -> Z.of_nat (length block) = BLOCK_SIZE /\ Forall is_u8 block;
  fw_zero : forall n i p, inodes !! n = Some i -> fi_size i <= p -> byte_at db (fi_blocks i) p = 0;
}.

Section Tables.
Context (paths : gmap str Z) (inodes : gmap Z FsInode) (db : gmap Z (list Z)) (next : Z).
Context (Hwf : files_wf paths inodes db next).

Lemma tree_none p : tree_of paths inodes db p = None <-> paths !! p = None.
Proof.
  unfold tree_of. destruct (paths !! p) as [n|] eqn:E; [|done]. cbn.
  destruct (fw_path _ _ _ _ Hwf _ _ E) as [i Hi]. rewrite Hi. done.
Qed.

Lemma tree_at p n i : paths !! p = Some n -> inodes !! n = Some i -> tree_of paths inodes db p = Some (fnode_of db i).
Proof. intros Hp Hi. unfold tree_of. rewrite Hp. cbn. by rewrite Hi. Qed.

(** The case analysis every operation starts with. *)
Lemma tree_cases p :
  (paths !! p = None /\ tree_of paths inodes db p = None) \/
  exists n i, paths !! p = Some n /\ inodes !! n = Some i /\ tree_of paths inodes db p = Some (fnode_of db i).
Proof.
  destruct (paths !! p) as [n|] eqn:E; [right|left; split; [done|by apply tree_none]].
  destruct (fw_path _ _ _ _ Hwf _ _ E) as [i Hi]. exists n, i. split_and!; try done. by apply (tree_at _ n).
Qed.

Lemma byte_at_ext db' blocks p : (forall b, b ∈ blocks -> b <> 0 -> db' !! b = db !! b) ->
  byte_at db' blocks p = byte_at db blocks p.
Proof.
  intros H. unfold byte_at. destruct (blocks !! _) as [b|] eqn:E; [|done]. unfold block_byte.
  destruct (Z.eqb_spec b 0); [done|]. rewrite H; [done| |done]. by eapply list_elem_of_lookup_2.
Qed.

Lemma content_ext db' i : (forall b, b ∈ fi_blocks i -> b <> 0 -> db' !! b = db !! b) -> content db' i = content db i.
Proof. intros H. unfold content. apply list_fmap_ext. intros _ p _. by apply byte_at_ext. Qed.

Lemma fnode_of_ext db' i : (forall b, b ∈ fi_blocks i -> b <> 0 -> db' !! b = db !! b) -> fnode_of db' i = fnode_of db i.
Proof. intros H. unfold fnode_of. by rewrite content_ext. Qed.

(** *** Creation *)

Lemma create_tree p n name : paths !! p = None -> inodes !! n = None ->
  same_tree (tree_set p (Some (FFile [])) (tree_of paths inodes db))
    (tree_of (<[p := n]> paths) (<[n := fresh_inode n RegularFile name]> inodes) db).
Proof.
  intros Hp Hn q. unfold tree_set. destruct (str_eqb q p) eqn:E.
  - apply str_eqb_eq in E as ->. unfold tree_of. rewrite lookup_insert_eq. cbn. by rewrite lookup_insert_eq.
  - assert (q <> p) as Hne by (intros ->; by rewrite (proj2 (str_eqb_eq p p)) in E).
    unfold tree_of. rewrite lookup_insert_ne by done. destruct (paths !! q) as [m|] eqn:Em; [|done]. cbn.
    destruct (fw_path _ _ _ _ Hwf _ _ Em) as [i Hi]. rewrite lookup_insert_ne by (intros ->; congruence). done.
Qed.

Lemma create_wf p name : paths !! p = None -> 1 <= next ->
  files_wf (<[p := next]> paths) (<[next := fresh_inode next RegularFile name]> inodes) db (next + 1).
Proof.
  intros Hp Hge. assert (inodes !! next = None) as Hn.
  { destruct (inodes !! next) as [i|] eqn:E; [|done]. destruct (fw_num _ _ _ _ Hwf _ _ E). lia. }
  constructor.
  - intros q n H. apply lookup_insert_Some in H as [[<- <-]|[_ H]]; [by rewrite lookup_insert_eq; eexists|].
    destruct (fw_path _ _ _ _ Hwf _ _ H) as [i Hi]. rewrite lookup_insert_ne by congruence. by exists i.
  - intros q r n Hq Hr. apply lookup_insert_Some in Hq as [[<- <-]|[_ Hq]]; apply lookup_insert_Some in Hr as [[<- E]|[_ Hr]]; try done.
    + destruct (fw_path _ _ _ _ Hwf _ _ Hr). congruence.
    + destruct (fw_path _ _ _ _ Hwf _ _ Hq). congruence.
    + by eapply (fw_inj _ _ _ _ Hwf).
  - intros n i H. apply lookup_insert_Some in H as [[<- <-]|[_ H]]; [cbn; lia|]. destruct (fw_num _ _ _ _ Hwf _ _ H). lia.
  - intros n i H. apply lookup_insert_Some in H as [[<- <-]|[_ H]]; [cbn; lia|]. by apply (fw_size _ _ _ _ Hwf n).
  - intros n i H. apply lookup_insert_Some in H as [[<- <-]|[_ H]]; [done|]. by apply (fw_dir _ _ _ _ Hwf n).
  - intros n m i j k l b Hi Hj Hb Hb'. apply lookup_insert_Some in Hi as [[<- <-]|[_ Hi]]; [done|].
    apply lookup_insert_Some in Hj as [[<- <-]|[_ Hj]]; [done|]. by apply (fw_disj _ _ _ _ Hwf n m i j k l b).
  - apply Hwf.
  - intros n i q H. apply lookup_insert_Some in H as [[<- <-]|[_ H]]; [done|]. by apply (fw_zero _ _ _ _ Hwf n).
Qed.

(** *** Deletion *)

Lemma delete_tree p n db' : paths !! p = Some n ->
  (forall m i b, m <> n -> inodes !! m = Some i -> b ∈ fi_blocks i -> b <> 0 -> db' !! b = db !! b) ->
  same_tree (tree_set p None (tree_of paths inodes db)) (tree_of (delete p paths) (delete n inodes) db').
Proof.
  intros Hp Hdb q. unfold tree_set. destruct (str_eqb q p) eqn:E.
  - apply str_eqb_eq in E as ->. unfold tree_of. by rewrite lookup_delete_eq.
  - assert (q <> p) as Hne by (intros ->; by rewrite (proj2 (str_eqb_eq p p)) in E).
    unfold tree_of. rewrite lookup_delete_ne by done. destruct (paths !! q) as [m|] eqn:Em; [|done]. cbn.
    assert (m <> n) as Hmn by (intros ->; apply Hne; by eapply (fw_inj _ _ _ _ Hwf)).
    rewrite lookup_delete_ne by done. destruct (inodes !! m) as [i|] eqn:Ei; [|done]. cbn. f_equal.
    apply fnode_of_ext. intros b Hb. by apply (Hdb m i).
Qed.

Lemma delete_wf p n db' : paths !! p = Some n -> (forall b block, db' !! b = Some block -> db !! b = Some block) ->
  (forall m i b, m <> n -> inodes !! m = Some i -> b ∈ fi_blocks i -> b <> 0 -> db' !! b = db !! b) ->
  files_wf (delete p paths) (delete n inodes) db' next.
Proof.
  intros Hp Hsub Hdb. constructor.
  - intros q m H. apply lookup_delete_Some in H as [Hne H]. rewrite lookup_delete_ne; [by eapply (fw_path _ _ _ _ Hwf)|].
    intros <-. apply Hne. by eapply (fw_inj _ _ _ _ Hwf).
  - intros q r m Hq Hr. apply lookup_delete_Some in Hq as [_ Hq]. apply lookup_delete_Some in Hr as [_ Hr]. by eapply (fw_inj _ _ _ _ Hwf).
  - intros m i H. apply lookup_delete_Some in H as [_ H]. by apply (fw_num _ _ _ _ Hwf).
  - intros m i H. apply lookup_delete_Some in H as [_ H]. by apply (fw_size _ _ _ _ Hwf m).
  - intros m i H. apply lookup_delete_Some in H as [_ H]. by apply (fw_dir _ _ _ _ Hwf m).
  - intros m m' i j k l b Hi Hj. apply lookup_delete_Some in Hi as [_ Hi]. apply lookup_delete_Some in Hj as [_ Hj].
    by apply (fw_disj _ _ _ _ Hwf m m' i j k l b).
  - intros b block H. apply (fw_block _ _ _ _ Hwf b). by apply Hsub.
  - intros m i q H Hq. apply lookup_delete_Some in H as [Hne H]. rewrite byte_at_ext; [by eapply (fw_zero _ _ _ _ Hwf m)|].
    intros b Hb. by apply (Hdb m i).
Qed.

(** *** Update of one inode *)

Lemma update_wf n i i' db' : inodes !! n = Some i -> fi_number i' = n -> 0 <= fi_size i' < 2 ^ 64 ->
  fi_type i' = RegularFile ->
  (forall m j b, m <> n -> inodes !! m = Some j -> b ∈ fi_blocks j -> b <> 0 -> db' !! b = db !! b) ->
  (forall m j k l b, m <> n -> inodes !! m = Some j -> fi_blocks i' !! k = Some b -> fi_blocks j !! l = Some b -> b = 0) ->
  (forall k l b, fi_blocks i' !! k = Some b -> fi_blocks i' !! l = Some b -> b <> 0 -> k = l) ->
  (forall b block, db' !! b = Some block -> Z.of_nat (length block) = BLOCK_SIZE /\ Forall is_u8 block) ->
  (forall p, fi_size i' <= p -> byte_at db' (fi_blocks i') p = 0) ->
  files_wf paths (<[n := i']> inodes) db' next.
Proof.
  intros Hi Hnum Hsz Hty Hdb Hd Hnd Hbl Hz. constructor.
  - intros p m H. destruct (fw_path _ _ _ _ Hwf _ _ H) as [j Hj]. destruct (decide (m = n)) as [->|].
    + rewrite lookup_insert_eq. by eexists.
    + rewrite lookup_insert_ne by done. by exists j.
  - apply Hwf.
  - intros m j H. apply lookup_insert_Some in H as [[<- <-]|[_ H]]; [|by apply (fw_num _ _ _ _ Hwf)].
    destruct (fw_num _ _ _ _ Hwf _ _ Hi). done.
  - intros m j H. apply lookup_insert_Some in H as [[<- <-]|[_ H]]; [done|by apply (fw_size _ _ _ _ Hwf m)].
  - intros m j H. apply lookup_insert_Some in H as [[<- <-]|[_ H]]; [congruence|by apply (fw_dir _ _ _ _ Hwf m)].
  - intros m m' j j' k l b H H' Hb Hb' Hne.
    apply lookup_insert_Some in H as [[<- <-]|[Hm H]]; apply lookup_insert_Some in H' as [[<- <-]|[Hm' H']].
    + split; [done|]. by apply (Hnd k l b).
    + exfalso. by eapply Hne, (Hd m').
    + exfalso. by eapply Hne, (Hd m).
    + by apply (fw_disj _ _ _ _ Hwf m m' j j' k l b).
  - done.
  - intros m j p H Hp. apply lookup_insert_Some in H as [[<- <-]|[Hm H]]; [by apply Hz|].
    rewrite byte_at_ext; [by eapply (fw_zero _ _ _ _ Hwf m)|]. intros b Hb. by apply (Hdb m j).
Qed.

Lemma update_tree p n i i' db' : paths !! p = Some n -> inodes !! n = Some i ->
  (forall m j b, m <> n -> inodes !! m = Some j -> b ∈ fi_blocks j -> b <> 0 -> db' !! b = db !! b) ->
  same_tree (tree_set p (Some (fnode_of db' i')) (tree_of paths inodes db)) (tree_of paths (<[n := i']> inodes) db').
Proof.
  intros Hp Hi Hdb q. unfold tree_set. destruct (str_eqb q p) eqn:E.
  - apply str_eqb_eq in E as ->. unfold tree_of. rewrite Hp. cbn. by rewrite lookup_insert_eq.
  - assert (q <> p) as Hne by (intros ->; by rewrite (proj2 (str_eqb_eq p p)) in E).
    unfold tree_of. destruct (paths !! q) as [m|] eqn:Em; [|done]. cbn.
    assert (m <> n) as Hmn by (intros ->; apply Hne; by eapply (fw_inj _ _ _ _ Hwf)).
    rewrite lookup_insert_ne by done. destruct (inodes !! m) as [j|] eqn:Ej; [|done]. cbn. f_equal.
    apply fnode_of_ext. intros b Hb. by apply (Hdb m j).
Qed.

(** *** Queries *)

Lemma stat_tree p : stat_ok p (tree_of paths inodes db)
  (n ← ok_or (paths !! p) FileNotFound; i ← ok_or (inodes !! n) FileNotFound; Ok (stat_of i)).
Proof.
  unfold stat_ok. destruct (tree_cases p) as [[-> ->]|(n & i & -> & Hi & ->)]; [done|]. cbn. rewrite Hi. cbn.
  unfold fnode_of. destruct (fi_type i) eqn:Et; eexists; (split; [reflexivity|]).
  - cbn. symmetry. apply content_length. by apply (fw_size _ _ _ _ Hwf n).
  - cbn. by apply (fw_dir _ _ _ _ Hwf n).
Qed.

Lemma list_tree p : list_ok p (tree_of paths inodes db)
  (n ← ok_or (paths !! p) FileNotFound; i ← ok_or (inodes !! n) FileNotFound;
   if negb (bool_decide (fi_type i = Directory)) then Err NotADirectory else Ok (child_names p (sorted_paths paths))).
Proof.
  unfold list_ok. destruct (tree_cases p) as [[-> ->]|(n & i & -> & Hi & ->)]; [done|]. cbn. rewrite Hi. cbn.
  unfold fnode_of. destruct (fi_type i) eqn:Et; cbn; [done|]. eexists. split; [reflexivity|]. intros m. rewrite child_names_spec.
  split; intros (H1 & prefix & H2 & H3 & H4); (split; [done|]); exists prefix; (split; [done|]); (split; [|done]).
  - apply sorted_paths_elem in H3. apply not_eq_None_Some. rewrite tree_none. by apply not_eq_None_Some.
  - apply sorted_paths_elem. apply not_eq_None_Some. rewrite <- tree_none. by apply not_eq_None_Some.
Qed.

Lemma read_tree check p offset count : blocks_sound check db -> 0 <= offset -> 0 <= count -> offset + count < 2 ^ 64 ->
  exists r, match paths !! p with
    | None => Done (Err FileNotFound)
    | Some n => match inodes !! n with None => Done (Err FileNotFound) | Some i => read_inode check db i offset count end
    end = Done r /\ read_ok p offset count (tree_of paths inodes db) r.
Proof.
  intros Hs Ho Hc Hov. unfold read_ok. destruct (tree_cases p) as [[-> ->]|(n & i & -> & Hi & ->)]; [by eexists|]. rewrite Hi.
  unfold fnode_of. destruct (fi_type i) eqn:Et.
  - eexists. split; [|reflexivity]. apply read_inode_spec; try done. by apply (fw_size _ _ _ _ Hwf n).
  - eexists. split; [|reflexivity]. unfold read_inode. by rewrite Et.
Qed.
End Tables.
