(* ===== verification/MemFs.v ===== *)
(** * In-memory volume of the file system (omni-fs: lib.rs, [InMemoryFs])

    Files are lists of blocks that are allocated by a counter and written in
    place.  The volume refines the abstract view of [FsSpec]. *)

From Stdlib Require Import ZArith Lia String.
From stdpp Require Import base numbers list gmap sorting.
From S2P Require Import Prelude Str FsBlocks FsSpec.

(** ** Data *)

Record InMemoryFs := {
  mf_superblock : Superblock;
  mf_inodes : gmap Z FsInode;
  mf_path_map : gmap str Z;
  mf_data_blocks : gmap Z (list Z);
  mf_next_inode : Z;
  mf_next_block : Z;
}.

Definition FIRST_DATA_BLOCK : Z := 1.

(** ** [InMemoryFs] *)

Definition mem_format (total_blocks : Z) : InMemoryFs :=
  {| mf_superblock :=
       {| sb_magic := OMNI_FS_MAGIC; sb_version := OMNI_FS_VERSION; sb_block_size := BLOCK_SIZE;
          sb_total_blocks := total_blocks; sb_free_blocks := saturating_sub total_blocks 1; sb_inode_count := 1;
          sb_root_inode := ROOT_INODE_NUMBER; sb_created_at := 0; sb_aead_key_id := 0 |};
     mf_inodes := {[ ROOT_INODE_NUMBER := fresh_inode ROOT_INODE_NUMBER Directory (lit "/") ]};
     mf_path_map := {[ lit "/" := ROOT_INODE_NUMBER ]};
     mf_data_blocks := ∅; mf_next_inode := FIRST_USER_INODE; mf_next_block := FIRST_DATA_BLOCK |}.

Definition mem_create_file (path : str) (fs : InMemoryFs) : result FsError Z * InMemoryFs :=
  if MAX_PATH_LEN <? Z.of_nat (length path) then (Err PathTooLong, fs) else
  match mf_path_map fs !! path with
  | Some _ => (Err FileAlreadyExists, fs)
  | None =>
      let n := mf_next_inode fs in
      (Ok n, {| mf_superblock := set_sb_inodes (wrap64 (sb_inode_count (mf_superblock fs) + 1)) (mf_superblock fs);
                mf_inodes := <[n := fresh_inode n RegularFile (basename path)]> (mf_inodes fs);
                mf_path_map := <[path := n]> (mf_path_map fs); mf_data_blocks := mf_data_blocks fs;
                mf_next_inode := wrap64 (n + 1); mf_next_block := mf_next_block fs |})
  end.

(** [while inode.blocks.len() <= last_block_idx]: [n] blocks are missing; the
    loop stops early, with what it has pushed, when no block is free. *)
Fixpoint mem_alloc_loop (n : nat) (i : FsInode) (next_block free : Z) : bool * FsInode * Z * Z :=
  match n with
  | O => (true, i, next_block, free)
  | S n =>
      if free =? 0 then (false, i, next_block, free) else
      mem_alloc_loop n (set_fi_blocks (fi_blocks i ++ [next_block]) (wrap32 (fi_block_count i + 1)) i)
        (wrap64 (next_block + 1)) (saturating_sub free 1)
  end.

(** The loop over the block numbers of the range, [k] being the index in the
    file of the next one. *)
Fixpoint mem_write_loop (offset stop first last : Z) (data : list Z) (block_numbers : list Z) (k bytes_written : Z)
    (db : gmap Z (list Z)) : run (Z * gmap Z (list Z)) :=
  match block_numbers with
  | [] => Done (bytes_written, db)
  | block_num :: block_numbers =>
      '(block, bytes_written) ← write_block (db !! block_num) data bytes_written (block_span offset stop first last k);
      mem_write_loop offset stop first last data block_numbers (k + 1) bytes_written (<[block_num := block]> db)
  end.

Definition mem_write_file (path : str) (offset : Z) (data : list Z) (fs : InMemoryFs) : run (result FsError Z * InMemoryFs) :=
  match mf_path_map fs !! path with
  | None => Done (Err FileNotFound, fs)
  | Some n =>
  match mf_inodes fs !! n with
  | None => Done (Err FileNotFound, fs)
  | Some i =>
      if negb (bool_decide (fi_type i = RegularFile)) then Done (Err NotAFile, fs) else
      if bool_decide (data = []) then Done (Ok 0, fs) else
      let end_offset := saturating_add64 offset (Z.of_nat (length data)) in
      let first := offset / BLOCK_SIZE in
      let last := saturating_sub end_offset 1 / BLOCK_SIZE in
      let '(ok, i', next_block, free) :=
        mem_alloc_loop (Z.to_nat (last + 1 - Z.of_nat (length (fi_blocks i)))) i (mf_next_block fs)
          (sb_free_blocks (mf_superblock fs)) in
      let fs' := {| mf_superblock := set_sb_free free (mf_superblock fs); mf_inodes := <[n := i']> (mf_inodes fs);
                    mf_path_map := mf_path_map fs; mf_data_blocks := mf_data_blocks fs;
                    mf_next_inode := mf_next_inode fs; mf_next_block := next_block |} in
      if negb ok then Done (Err NoSpace, fs') else
      let block_numbers := take (Z.to_nat (last - first + 1)) (drop (Z.to_nat first) (fi_blocks i')) in
      '(bytes_written, db) ← mem_write_loop offset end_offset first last data block_numbers first 0 (mf_data_blocks fs');
      let i'' := if fi_size i' <? end_offset then set_fi_size end_offset i' else i' in
      Done (Ok bytes_written,
            {| mf_superblock := mf_superblock fs'; mf_inodes := <[n := i'']> (mf_inodes fs'); mf_path_map := mf_path_map fs';
               mf_data_blocks := db; mf_next_inode := mf_next_inode fs'; mf_next_block := mf_next_block fs' |})
  end
  end.

Definition no_check (b : Z) (block : list Z) : run (result FsError unit) := Done (Ok tt).

Definition mem_read_file (path : str) (offset count : Z) (fs : InMemoryFs) : run (result FsError (list Z)) :=
  match mf_path_map fs !! path with
  | None => Done (Err FileNotFound)
  | Some n =>
      match mf_inodes fs !! n with
      | None => Done (Err FileNotFound)
      | Some i => read_inode no_check (mf_data_blocks fs) i offset count
      end
  end.

Definition mem_delete_file (path : str) (fs : InMemoryFs) : result FsError unit * InMemoryFs :=
  match mf_path_map fs !! path with
  | None => (Err FileNotFound, fs)
  | Some n =>
  match mf_inodes fs !! n with
  | None => (Err FileNotFound, fs)
  | Some i =>
      if negb (bool_decide (fi_type i = RegularFile)) then (Err NotAFile, fs) else
      let sb := mf_superblock fs in
      (Ok tt, {| mf_superblock := set_sb_inodes (saturating_sub (sb_inode_count sb) 1)
                   (set_sb_free (saturating_add64 (sb_free_blocks sb) (Z.of_nat (length (fi_blocks i)))) sb);
                 mf_inodes := delete n (mf_inodes fs); mf_path_map := delete path (mf_path_map fs);
                 mf_data_blocks := foldl (fun db b => delete b db) (mf_data_blocks fs) (fi_blocks i);
                 mf_next_inode := mf_next_inode fs; mf_next_block := mf_next_block fs |})
  end
  end.

Definition mem_stat_file (path : str) (fs : InMemoryFs) : result FsError FileMetadata :=
  n ← ok_or (mf_path_map fs !! path) FileNotFound;
  i ← ok_or (mf_inodes fs !! n) FileNotFound;
  Ok (stat_of i).

Definition mem_list_directory (path : str) (fs : InMemoryFs) : result FsError (list str) :=
  n ← ok_or (mf_path_map fs !! path) FileNotFound;
  i ← ok_or (mf_inodes fs !! n) FileNotFound;
  if negb (bool_decide (fi_type i = Directory)) then Err NotADirectory
  else Ok (child_names path (sorted_paths (mf_path_map fs))).

(** ** Invariant *)

Definition mem_tree (fs : InMemoryFs) : ftree := tree_of (mf_path_map fs) (mf_inodes fs) (mf_data_blocks fs).

Record mem_wf (fs : InMemoryFs) : Prop := {
  mw_files : files_wf (mf_path_map fs) (mf_inodes fs) (mf_data_blocks fs) (mf_next_inode fs);
  mw_inode : 1 <= mf_next_inode fs;
  mw_block : 1 <= mf_next_block fs;
  mw_free : 0 <= sb_free_blocks (mf_superblock fs);
  mw_blocks : forall n i b, mf_inodes fs !! n = Some i -> b ∈ fi_blocks i -> 1 <= b < mf_next_block fs;
  mw_stored : forall b block, mf_data_blocks fs !! b = Some block -> b < mf_next_block fs;
}.

(** How many blocks a write must add to a file. *)
Definition mem_missing (i : FsInode) (offset : Z) (data : list Z) : Z :=
  Z.max 0 ((offset + Z.of_nat (length data) - 1) / BLOCK_SIZE + 1 - Z.of_nat (length (fi_blocks i))).

Definition mem_room (path : str) (offset : Z) (data : list Z) (fs : InMemoryFs) : bool :=
  match n ← mf_path_map fs !! path; mf_inodes fs !! n with
  | Some i => mem_missing i offset data <=? sb_free_blocks (mf_superblock fs)
  | None => false
  end.

(** ** Lemmas *)

Lemma mem_format_wf total : 0 <= total -> mem_wf (mem_format total).
Proof.
  intros Ht. assert (forall n i, mf_inodes (mem_format total) !! n = Some i -> n = 1 /\ i = fresh_inode 1 Directory (lit "/")) as Hi.
  { intros n i H. cbn [mem_format mf_inodes] in H. apply lookup_singleton_Some in H as [<- <-]. done. }
  assert (forall p n, mf_path_map (mem_format total) !! p = Some n -> p = lit "/" /\ n = 1) as Hp.
  { intros p n H. cbn [mem_format mf_path_map] in H. apply lookup_singleton_Some in H as [<- <-]. done. }
  constructor; cbn [mem_format mf_superblock sb_free_blocks mf_next_inode mf_next_block]; unfold FIRST_USER_INODE, FIRST_DATA_BLOCK, saturating_sub; try lia.
  - constructor; try by intros.
    + intros p n H. apply Hp in H as [-> ->]. cbn [mem_format mf_inodes]. unfold ROOT_INODE_NUMBER. rewrite lookup_singleton_eq. by eexists.
    + intros p q n H H'. apply Hp in H as [-> _], H' as [-> _]. done.
    + intros n i H. apply Hi in H as [-> ->]. cbn. lia.
    + intros n i H. apply Hi in H as [-> ->]. cbn. lia.
    + intros n i H _. by apply Hi in H as [-> ->].
    + intros n m i j k l b H _ Hb. apply Hi in H as [-> ->]. done.
    + intros n i p H _. apply Hi in H as [-> ->]. done.
  - intros n i b H Hb. apply Hi in H as [-> ->]. cbn in Hb. by apply not_elem_of_nil in Hb.
  - done.
Qed.

Lemma mem_create_spec path fs r fs' : mem_wf fs -> mf_next_inode fs + 1 < 2 ^ 64 -> mem_create_file path fs = (r, fs') ->
  mem_wf fs' /\ create_ok path (mem_tree fs) r (mem_tree fs') /\
  mf_next_block fs' = mf_next_block fs /\ mf_next_inode fs' <= mf_next_inode fs + 1.
Proof.
  intros Hwf Hn. unfold mem_create_file, create_ok. destruct (MAX_PATH_LEN <? _) eqn:El.
  { intros [= <- <-]. split_and!; try done. lia. }
  destruct (mf_path_map fs !! path) as [n|] eqn:Ep; intros [= <- <-].
  { destruct (tree_cases _ _ _ _ (mw_files _ Hwf) path) as [[E _]|(n' & i & E & Hi & Et)]; [congruence|].
    unfold mem_tree. rewrite Et. split_and!; try done. lia. }
  unfold mem_tree. rewrite (proj2 (tree_none _ _ _ _ (mw_files _ Hwf) path) Ep).
  assert (wrap64 (mf_next_inode fs + 1) = mf_next_inode fs + 1) as Ew
    by (unfold wrap64; apply Z.mod_small; pose proof (mw_inode _ Hwf); lia).
  assert (mf_inodes fs !! mf_next_inode fs = None) as Hfresh.
  { destruct (mf_inodes fs !! mf_next_inode fs) as [i|] eqn:E; [|done]. destruct (fw_num _ _ _ _ (mw_files _ Hwf) _ _ E). lia. }
  split_and!.
  - constructor; cbn; rewrite ?Ew.
    + apply create_wf; [apply Hwf|done|apply Hwf].
    + pose proof (mw_inode _ Hwf). lia.
    + apply Hwf.
    + apply Hwf.
    + intros n i b H Hb. apply lookup_insert_Some in H as [[_ <-]|[_ H]]; [by apply not_elem_of_nil in Hb|by eapply (mw_blocks _ Hwf)].
    + apply Hwf.
  - by eexists.
  - cbn. eapply create_tree; [apply Hwf|done|done].
  - done.
  - cbn. lia.
Qed.

Lemma foldl_delete_lookup (l : list Z) (db : gmap Z (list Z)) b :
  foldl (fun db b => delete b db) db l !! b = if bool_decide (b ∈ l) then None else db !! b.
Proof.
  revert db. induction l as [|c l IH]; intros db; cbn [foldl].
  - by rewrite bool_decide_false by apply not_elem_of_nil.
  - rewrite IH. destruct (decide (b ∈ l)) as [Hin|Hin].
    + by rewrite !bool_decide_true by set_solver.
    + rewrite (bool_decide_false (b ∈ l)) by done. destruct (decide (c = b)) as [->|Hne].
      * by rewrite lookup_delete_eq, bool_decide_true by set_solver.
      * by rewrite lookup_delete_ne, bool_decide_false by set_solver.
Qed.

Lemma mem_delete_spec path fs r fs' : mem_wf fs -> mem_delete_file path fs = (r, fs') ->
  mem_wf fs' /\ delete_ok path (mem_tree fs) r (mem_tree fs') /\
  mf_next_block fs' = mf_next_block fs /\ mf_next_inode fs' = mf_next_inode fs.
Proof.
  intros Hwf. unfold mem_delete_file, delete_ok, mem_tree.
  destruct (tree_cases _ _ _ _ (mw_files _ Hwf) path) as [[-> ->]|(n & i & Hp & Hi & ->)]; [by intros [= <- <-]|].
  rewrite Hp, Hi. unfold fnode_of. destruct (fi_type i) eqn:Et; cbn [negb bool_decide decide_rel]; [|by intros [= <- <-]].
  intros [= <- <-]. cbn [mf_path_map mf_inodes mf_data_blocks mf_next_block mf_next_inode].
  assert (forall m j b, m <> n -> mf_inodes fs !! m = Some j -> b ∈ fi_blocks j -> b <> 0 ->
    foldl (fun db b => delete b db) (mf_data_blocks fs) (fi_blocks i) !! b = mf_data_blocks fs !! b) as Hother.
  { intros m j b Hm Hj Hb Hne. rewrite foldl_delete_lookup, bool_decide_false; [done|]. intros Hin.
    apply list_elem_of_lookup in Hb as [k Hk], Hin as [l Hl]. by destruct (fw_disj _ _ _ _ (mw_files _ Hwf) _ _ _ _ _ _ _ Hj Hi Hk Hl Hne). }
  split_and!; try done.
  - constructor; cbn; try apply Hwf.
    + eapply delete_wf; [apply Hwf|done| |done]. intros b block. rewrite foldl_delete_lookup. by case_bool_decide.
    + unfold saturating_add64, u64_max. pose proof (mw_free _ Hwf). lia.
    + intros m j b H. apply lookup_delete_Some in H as [_ H]. by eapply (mw_blocks _ Hwf).
    + intros b block. rewrite foldl_delete_lookup. case_bool_decide; [done|]. apply (mw_stored _ Hwf).
  - eapply delete_tree; [apply Hwf|done|done].
Qed.

(** ** Writing *)

Lemma set_fi_blocks_id i : set_fi_blocks (fi_blocks i ++ []) (fi_block_count i) i = i.
Proof. destruct i. unfold set_fi_blocks. cbn. by rewrite app_nil_r. Qed.

Lemma mem_alloc_loop_spec n i next free : 0 <= free -> 1 <= next -> next + Z.of_nat n < 2 ^ 64 ->
  exists count, mem_alloc_loop n i next free =
    (Z.of_nat n <=? free, set_fi_blocks (fi_blocks i ++ seqZ next (Z.min (Z.of_nat n) free)) count i,
     next + Z.min (Z.of_nat n) free, free - Z.min (Z.of_nat n) free).
Proof.
  revert i next free. induction n as [|n IH]; intros i next free Hf Hn Hov; cbn [mem_alloc_loop].
  - exists (fi_block_count i). rewrite Z.min_l, set_fi_blocks_id by lia. rewrite (proj2 (Z.leb_le _ _)) by lia.
    by rewrite Z.add_0_r, Z.sub_0_r.
  - destruct (Z.eqb_spec free 0) as [->|Hne].
    + exists (fi_block_count i). rewrite Z.min_r, set_fi_blocks_id by lia. rewrite (proj2 (Z.leb_gt _ _)) by lia. by rewrite Z.add_0_r.
    + unfold saturating_sub. rewrite Z.max_l by lia. unfold wrap64. rewrite Z.mod_small by lia.
      destruct (IH (set_fi_blocks (fi_blocks i ++ [next]) (wrap32 (fi_block_count i + 1)) i) (next + 1) (free - 1)) as [count ->]; [lia|lia|lia|].
      exists count. replace (Z.min (Z.of_nat (S n)) free) with (Z.min (Z.of_nat n) (free - 1) + 1) by lia.
      set (m := Z.min (Z.of_nat n) (free - 1)). assert (0 <= m) by lia.
      rewrite (seqZ_cons next (m + 1)) by lia. replace (Z.pred (m + 1)) with m by lia. replace (Z.succ next) with (next + 1) by lia.
      unfold set_fi_blocks. cbn [fi_blocks fi_number fi_type fi_size fi_created fi_modified fi_name]. rewrite <- app_assoc. cbn [app].
      f_equal; [f_equal; [f_equal|]|]; [destruct (Z.leb_spec (Z.of_nat n) (free - 1)), (Z.leb_spec (Z.of_nat (S n)) free); (done || lia)|lia|lia].
Qed.

Lemma mem_write_loop_spec offset stop data bns : 0 <= offset < stop -> stop - offset = Z.of_nat (length data) -> Forall is_u8 data ->
  forall k db, offset / BLOCK_SIZE <= k -> k + Z.of_nat (length bns) = (stop - 1) / BLOCK_SIZE + 1 -> NoDup bns ->
  (forall b block, db !! b = Some block -> Z.of_nat (length block) = BLOCK_SIZE /\ Forall is_u8 block) ->
  exists db', mem_write_loop offset stop (offset / BLOCK_SIZE) ((stop - 1) / BLOCK_SIZE) data bns k (cut offset stop k - offset) db
      = Done (stop - offset, db') /\
    (forall b, b ∉ bns -> db' !! b = db !! b) /\
    (forall m b, bns !! m = Some b -> exists block, db' !! b = Some block /\
       written offset stop data (k + Z.of_nat m) (seed_byte (db !! b)) block).
Proof.
  intros Ho Hd Hu. induction bns as [|b bns IH]; intros k db Hk Hn Hnd Hdb; cbn [length] in Hn; cbn [mem_write_loop].
  { exists db. replace k with ((stop - 1) / BLOCK_SIZE + 1) by lia. rewrite cut_last by done. done. }
  destruct (write_block_written offset stop data k (db !! b)) as (block & -> & Hw); try done; [lia| |].
  { destruct (db !! b) eqn:E; cbn; [by eapply Hdb|done]. }
  cbn [mbind run_bind]. apply NoDup_cons in Hnd as [Hnin Hnd].
  destruct (IH (k + 1) (<[b := block]> db)) as (db' & -> & Hout & Hin); [lia|lia|done| |].
  { intros c blk H. apply lookup_insert_Some in H as [[<- <-]|[_ H]]; [destruct Hw as (? & ? & _); done|by eapply Hdb]. }
  exists db'. split; [done|]. split.
  - intros c Hc. apply not_elem_of_cons in Hc as [Hc1 Hc2]. rewrite Hout by done. by rewrite lookup_insert_ne.
  - intros [|m] c Hm; cbn in Hm.
    + injection Hm as <-. exists block. rewrite Hout, lookup_insert_eq by done. replace (k + Z.of_nat 0) with k by lia. done.
    + destruct (Hin m c Hm) as (blk & Hb & Hwr). exists blk. split; [done|].
      rewrite lookup_insert_ne in Hwr by (intros <-; apply Hnin; by eapply list_elem_of_lookup_2).
      by replace (k + Z.of_nat (S m)) with (k + 1 + Z.of_nat m) by lia.
Qed.

Lemma byte_at_grow db blocks next k p : (forall b block, db !! b = Some block -> b < next) ->
  byte_at db (blocks ++ seqZ next k) p = byte_at db blocks p.
Proof.
  intros Hdb. unfold byte_at. destruct (blocks !! _) as [b|] eqn:E; [by rewrite (lookup_app_l_Some _ _ _ _ E)|].
  rewrite lookup_app_r by (by apply lookup_ge_None). destruct (seqZ next k !! _) as [b|] eqn:Es; [|done].
  apply lookup_seqZ in Es as [-> Hk]. unfold block_byte. destruct (_ =? 0); [done|].
  destruct (db !! _) as [block|] eqn:Eb; [|done]. apply Hdb in Eb. lia.
Qed.

Definition with_blocks (n : Z) (i : FsInode) (next_block free : Z) (fs : InMemoryFs) : InMemoryFs :=
  {| mf_superblock := set_sb_free free (mf_superblock fs); mf_inodes := <[n := i]> (mf_inodes fs);
     mf_path_map := mf_path_map fs; mf_data_blocks := mf_data_blocks fs;
     mf_next_inode := mf_next_inode fs; mf_next_block := next_block |}.

(** New blocks at the end of a file do not change what it holds. *)
Lemma mem_grow path n i count k free fs : mem_wf fs -> mf_path_map fs !! path = Some n -> mf_inodes fs !! n = Some i ->
  fi_type i = RegularFile -> 0 <= k -> 0 <= free ->
  let i' := set_fi_blocks (fi_blocks i ++ seqZ (mf_next_block fs) k) count i in
  let fs' := with_blocks n i' (mf_next_block fs + k) free fs in
  mem_wf fs' /\ same_tree (mem_tree fs) (mem_tree fs').
Proof.
  intros Hwf Hp Hi Ht Hk Hf i' fs'. pose proof (mw_files _ Hwf) as Hfw.
  assert (forall q, byte_at (mf_data_blocks fs) (fi_blocks i') q = byte_at (mf_data_blocks fs) (fi_blocks i) q) as Hb
    by (intros q; apply byte_at_grow, Hwf).
  assert (forall b, b ∈ fi_blocks i' -> 1 <= b < mf_next_block fs + k) as Hrange.
  { intros b Hin. apply elem_of_app in Hin as [Hin|Hin].
    - pose proof (mw_blocks _ Hwf _ _ _ Hi Hin). lia.
    - apply elem_of_seqZ in Hin. pose proof (mw_block _ Hwf). lia. }
  split.
  - constructor; cbn.
    + eapply (update_wf _ _ _ _ Hfw n i); try done; [apply (fw_num _ _ _ _ Hfw n i Hi)|apply (fw_size _ _ _ _ Hfw n i Hi)| | |apply Hfw|].
      * intros m j a l b Hm Hj Ha Hl. cbn in Ha. exfalso. pose proof (mw_blocks _ Hwf m j b Hj ltac:(by eapply list_elem_of_lookup_2)).
        apply lookup_app_Some in Ha as [Ha|[_ Ha]].
        -- apply Hm. symmetry. apply (fw_disj _ _ _ _ Hfw n m i j a l b); try done. lia.
        -- apply lookup_seqZ in Ha. lia.
      * cbn. intros a l b Ha Hl Hne. apply lookup_app_Some in Ha as [Ha|[Hga Ha]]; apply lookup_app_Some in Hl as [Hl|[Hgl Hl]].
        -- by apply (fw_disj _ _ _ _ Hfw n n i i a l b).
        -- pose proof (mw_blocks _ Hwf n i b Hi ltac:(by eapply list_elem_of_lookup_2)). apply lookup_seqZ in Hl. lia.
        -- pose proof (mw_blocks _ Hwf n i b Hi ltac:(by eapply list_elem_of_lookup_2)). apply lookup_seqZ in Ha. lia.
        -- apply lookup_seqZ in Ha, Hl. lia.
      * intros q Hq. rewrite Hb. by eapply (fw_zero _ _ _ _ Hfw).
    + apply Hwf.
    + pose proof (mw_block _ Hwf). lia.
    + done.
    + intros m j b H Hin. apply lookup_insert_Some in H as [[_ <-]|[_ H]]; [by apply Hrange|].
      pose proof (mw_blocks _ Hwf m j b H Hin). lia.
    + intros b block H. pose proof (mw_stored _ Hwf b block H). lia.
  - intros q. unfold mem_tree, fs', with_blocks. cbn [mf_path_map mf_inodes mf_data_blocks].
    rewrite (update_tree _ _ _ _ Hfw path n i i' (mf_data_blocks fs) Hp Hi) by done. unfold tree_set.
    destruct (str_eqb q path) eqn:E; [|done]. apply str_eqb_eq in E as ->.
    rewrite (tree_at _ _ _ path n i) by done. f_equal. unfold fnode_of. cbn. rewrite Ht. f_equal. unfold content. cbn.
    by apply list_fmap_ext.
Qed.

Lemma slice_lookup (l : list Z) a n m : (m < n)%nat -> take n (drop a l) !! m = l !! (a + m)%nat.
Proof. intros. by rewrite lookup_take_lt, lookup_drop. Qed.

(** Writing a range into a file that has the blocks for it. *)
Lemma mem_fill path n i offset data fs : mem_wf fs -> mf_path_map fs !! path = Some n -> mf_inodes fs !! n = Some i ->
  fi_type i = RegularFile -> 0 <= offset -> data <> [] -> offset + Z.of_nat (length data) < 2 ^ 64 -> Forall is_u8 data ->
  let stop := offset + Z.of_nat (length data) in
  let first := offset / BLOCK_SIZE in let last := (stop - 1) / BLOCK_SIZE in
  last < Z.of_nat (length (fi_blocks i)) ->
  exists db, mem_write_loop offset stop first last data (take (Z.to_nat (last - first + 1)) (drop (Z.to_nat first) (fi_blocks i))) first 0
      (mf_data_blocks fs) = Done (Z.of_nat (length data), db) /\
    let i' := if fi_size i <? stop then set_fi_size stop i else i in
    let fs' := {| mf_superblock := mf_superblock fs; mf_inodes := <[n := i']> (mf_inodes fs); mf_path_map := mf_path_map fs;
                  mf_data_blocks := db; mf_next_inode := mf_next_inode fs; mf_next_block := mf_next_block fs |} in
    mem_wf fs' /\ same_tree (tree_set path (Some (FFile (file_write offset data (content (mf_data_blocks fs) i)))) (mem_tree fs)) (mem_tree fs').
Proof.
  intros Hwf Hp Hi Ht Ho Hne Hov Hu stop first last Hlen. pose proof (mw_files _ Hwf) as Hfw.
  assert (length data <> 0)%nat as Hl0 by (by destruct data). assert (0 <= offset < stop) as Hos by lia.
  pose proof (block_order offset stop Hos) as Hord. fold first last in Hord.
  set (bns := take _ (drop _ (fi_blocks i))).
  assert (Z.of_nat (length bns) = last - first + 1) as Hbl by (unfold bns; rewrite length_take, length_drop; lia).
  assert (forall m, (m < length bns)%nat -> bns !! m = fi_blocks i !! (Z.to_nat first + m)%nat) as Hbns
    by (intros m Hm; unfold bns; apply slice_lookup; lia).
  assert (forall b, b ∈ bns -> b ∈ fi_blocks i) as Hsub.
  { intros b [m Hm]%list_elem_of_lookup. pose proof (lookup_lt_Some _ _ _ Hm). rewrite Hbns in Hm by done. by eapply list_elem_of_lookup_2. }
  assert (NoDup bns) as Hnd.
  { apply NoDup_alt. intros m m' b Hm Hm'. pose proof (lookup_lt_Some _ _ _ Hm). pose proof (lookup_lt_Some _ _ _ Hm').
    pose proof (mw_blocks _ Hwf n i b Hi (Hsub b ltac:(by eapply list_elem_of_lookup_2))) as Hb. rewrite Hbns in Hm, Hm' by done.
    destruct (fw_disj _ _ _ _ Hfw n n i i _ _ b Hi Hi Hm Hm'); lia. }
  destruct (mem_write_loop_spec offset stop data bns Hos ltac:(lia) Hu first (mf_data_blocks fs)) as (db & Hloop & Hout & Hin);
    [unfold first; lia|fold last; lia|done|apply Hfw|].
  unfold first in Hloop at 2. rewrite cut_first, Z.sub_diag in Hloop by done. fold first last in Hloop.
  exists db. split; [rewrite Hloop; do 2 f_equal; lia|].
  set (i' := if _ <? _ then _ else _). assert (fi_blocks i' = fi_blocks i /\ fi_type i' = RegularFile /\ fi_number i' = fi_number i /\
    fi_size i' = Z.max (fi_size i) stop) as (Eb & Et & En & Es).
  { unfold i'. destruct (Z.ltb_spec (fi_size i) stop); cbn; (split_and!; [done|done|done|lia]). }
  assert (forall p, 0 <= p -> byte_at db (fi_blocks i') p = if (offset <=? p) && (p <? stop)
    then default 0 (data !! Z.to_nat (p - offset)) else byte_at (mf_data_blocks fs) (fi_blocks i) p) as Hbyte.
  { rewrite Eb. apply byte_at_written; [done| |].
    - intros k Hk. fold first last in Hk. destruct (lookup_lt_is_Some_2 bns (Z.to_nat (k - first))) as [b Hb]; [lia|].
      destruct (Hin _ _ Hb) as (block & Hdb & Hw). pose proof (Hsub b ltac:(by eapply list_elem_of_lookup_2)) as Hbi.
      pose proof (mw_blocks _ Hwf n i b Hi Hbi). rewrite Hbns in Hb by lia.
      replace (Z.to_nat first + Z.to_nat (k - first))%nat with (Z.to_nat k) in Hb by lia. exists b, block. split_and!; [done|lia|done|].
      replace (first + Z.of_nat (Z.to_nat (k - first))) with k in Hw by lia. destruct Hw as (H1 & H2 & H3). split_and!; [done|done|].
      intros j Hj. rewrite H3 by done. rewrite byte_at_block, Hb by done. unfold seed_byte, block_byte.
      by rewrite (proj2 (Z.eqb_neq b 0)) by lia.
    - intros k j H0 Hk Hj. fold first last in Hk. rewrite !byte_at_block by done. destruct (fi_blocks i !! Z.to_nat k) as [b|] eqn:Eb'; [|done].
      unfold block_byte. rewrite Hout; [done|]. intros [m Hm]%list_elem_of_lookup. pose proof (lookup_lt_Some _ _ _ Hm).
      pose proof (mw_blocks _ Hwf n i b Hi ltac:(by eapply list_elem_of_lookup_2)). rewrite Hbns in Hm by done.
      destruct (fw_disj _ _ _ _ Hfw n n i i _ _ b Hi Hi Eb' Hm); lia. }
  assert (forall m j b, m <> n -> mf_inodes fs !! m = Some j -> b ∈ fi_blocks j -> b <> 0 -> db !! b = mf_data_blocks fs !! b) as Hother.
  { intros m j b Hm Hj Hb Hne'. apply Hout. intros Hin'%Hsub. apply list_elem_of_lookup in Hb as [a Ha], Hin' as [c Hc].
    by destruct (fw_disj _ _ _ _ Hfw m n j i a c b Hj Hi Ha Hc Hne'). }
  assert (forall b block, db !! b = Some block -> b < mf_next_block fs /\ Z.of_nat (length block) = BLOCK_SIZE /\ Forall is_u8 block) as Hblk.
  { intros b block H. destruct (decide (b ∈ bns)) as [Hb|Hb].
    - pose proof (mw_blocks _ Hwf n i b Hi (Hsub b Hb)). apply list_elem_of_lookup in Hb as [m Hm].
      destruct (Hin m b Hm) as (blk & Hdb & Hw). assert (blk = block) as -> by congruence. destruct Hw as (? & ? & _). split; [lia|done].
    - rewrite Hout in H by done. split; [by eapply (mw_stored _ Hwf)|by eapply (fw_block _ _ _ _ Hfw)]. }
  pose proof (fw_size _ _ _ _ Hfw n i Hi) as Hsz.
  assert (forall p, fi_size i <= p -> byte_at (mf_data_blocks fs) (fi_blocks i) p = 0) as Hzero by (intros; by eapply (fw_zero _ _ _ _ Hfw)).
  split.
  - constructor; cbn; try apply Hwf.
    + eapply (update_wf _ _ _ _ Hfw n i); try done; rewrite ?Eb, ?Es.
      * rewrite En. apply (fw_num _ _ _ _ Hfw n i Hi).
      * lia.
      * intros m j k l b Hm Hj Hk Hl. destruct (decide (b = 0)) as [|Hb0]; [done|]. by destruct (fw_disj _ _ _ _ Hfw n m i j k l b Hi Hj Hk Hl Hb0).
      * intros k l b Hk Hl Hb0. by eapply (fw_disj _ _ _ _ Hfw n n i i k l b).
      * intros b block H. by destruct (Hblk b block H).
      * intros p Hpp. rewrite <- Eb, Hbyte by lia. rewrite (proj2 (Z.ltb_ge p stop)), andb_false_r by lia. apply Hzero. lia.
    + intros m j b H Hb. apply lookup_insert_Some in H as [[_ <-]|[_ H]]; [rewrite Eb in Hb; by eapply (mw_blocks _ Hwf)|by eapply (mw_blocks _ Hwf)].
    + intros b block H. by destruct (Hblk b block H).
  - intros q. unfold mem_tree. cbn [mf_path_map mf_inodes mf_data_blocks]. rewrite (update_tree _ _ _ _ Hfw path n i i' db Hp Hi Hother). unfold tree_set.
    destruct (str_eqb q path); [|done]. do 2 f_equal. unfold fnode_of. rewrite Et. f_equal.
    apply (content_write (mf_data_blocks fs) db i i'); try done. lia.
Qed.

Lemma mem_write_spec path offset data fs : mem_wf fs -> 0 <= offset -> offset + Z.of_nat (length data) < 2 ^ 64 -> Forall is_u8 data ->
  mf_next_block fs + (offset + Z.of_nat (length data)) / BLOCK_SIZE + 1 < 2 ^ 64 ->
  exists r fs', mem_write_file path offset data fs = Done (r, fs') /\ mem_wf fs' /\
    write_ok path offset data (mem_room path offset data fs) (mem_tree fs) r (mem_tree fs') /\
    mf_next_inode fs' = mf_next_inode fs /\ mf_next_block fs' <= mf_next_block fs + (offset + Z.of_nat (length data)) / BLOCK_SIZE + 1.
Proof.
  intros Hwf Ho Hov Hu Hnb. unfold mem_write_file, write_ok, mem_room.
  assert (0 <= (offset + Z.of_nat (length data)) / BLOCK_SIZE) as Hpos by (unfold BLOCK_SIZE; apply Z.div_pos; lia).
  unfold mem_tree at 1. destruct (tree_cases _ _ _ _ (mw_files _ Hwf) path) as [[-> ->]|(n & i & Hp & Hi & ->)].
  { eexists _, _. split; [reflexivity|]. split_and!; try done. lia. }
  rewrite Hp. cbn [mbind option_bind]. rewrite Hi. unfold fnode_of. destruct (fi_type i) eqn:Et.
  2:{ eexists _, _. split; [reflexivity|]. split_and!; try done. lia. }
  rewrite (bool_decide_true (RegularFile = RegularFile)) by done. cbn [negb].
  case_bool_decide as Hd. { eexists _, _. split; [reflexivity|]. split_and!; try done. lia. }
  assert (length data <> 0)%nat as Hl0 by (by destruct data).
  unfold saturating_add64, saturating_sub. rewrite Z.min_l by (unfold u64_max; lia). rewrite Z.max_l by lia.
  set (stop := offset + Z.of_nat (length data)) in *. pose proof (block_order offset stop ltac:(lia)) as Hord.
  assert ((stop - 1) / BLOCK_SIZE <= stop / BLOCK_SIZE) by (unfold BLOCK_SIZE; apply Z.div_le_mono; lia).
  unfold mem_missing. fold stop. set (need := Z.to_nat _).
  assert (Z.max 0 ((stop - 1) / BLOCK_SIZE + 1 - Z.of_nat (length (fi_blocks i))) = Z.of_nat need) as Hneed by lia. rewrite Hneed.
  pose proof (mw_block _ Hwf) as Hb1. pose proof (mw_free _ Hwf) as Hf0.
  destruct (mem_alloc_loop_spec need i (mf_next_block fs) (sb_free_blocks (mf_superblock fs))) as [count ->]; [done|done|lia|].
  set (k := Z.min _ _). set (i1 := set_fi_blocks _ count i).
  destruct (mem_grow path n i count k (sb_free_blocks (mf_superblock fs) - k) fs Hwf Hp Hi Et) as [Hwf1 Htree1]; [lia|lia|].
  fold i1 in Hwf1, Htree1. fold (with_blocks n i1 (mf_next_block fs + k) (sb_free_blocks (mf_superblock fs) - k) fs).
  set (fs1 := with_blocks _ _ _ _ _) in *.
  destruct (Z.leb_spec (Z.of_nat need) (sb_free_blocks (mf_superblock fs))) as [Hroom|Hroom]; cbn [negb].
  2:{ eexists _, _. split; [reflexivity|]. split_and!; try done. cbn. lia. }
  assert (k = Z.of_nat need) as Hk by lia.
  destruct (mem_fill path n i1 offset data fs1) as (db & Hloop & Hwf2 & Htree2); try done.
  { cbn. apply lookup_insert_eq. }
  { unfold i1. cbn. rewrite length_app, length_seqZ. fold stop. lia. }
  fold stop in Hloop. rewrite Hloop. cbn [mbind run_bind]. eexists _, _. split; [reflexivity|]. split_and!.
  - exact Hwf2.
  - done.
  - intros q. rewrite Htree2. unfold tree_set. destruct (str_eqb q path); [|apply Htree1].
    do 3 f_equal. unfold content, i1. cbn. apply list_fmap_ext. intros _ p _. apply byte_at_grow, Hwf.
  - done.
  - cbn. lia.
Qed.
