(* ===== verification/OnDisk.v ===== *)
(** * On-disk volume (omni-fs: ondisk.rs, integrity.rs)

    The copy-on-write volume: a block bitmap, an inode table, data blocks and
    an authentication tag for each of them.  The cipher is third-party code:
    the class [Aead] is what the volume uses of it.  The volume refines the
    abstract view of [FsSpec], keeps the bitmap, the blocks and the tags
    consistent, and the consistency checker finds nothing to report. *)

From Stdlib Require Import ZArith Lia String.
From stdpp Require Import base numbers list gmap sorting.
From S2P Require Import Prelude Str FsBlocks FsSpec BlockBitmap.

(** ** Integrity tags *)

Definition TAG_LEN : Z := 16.

(** [ChaCha20Poly1305::encrypt] with a key and a nonce: the ciphertext with
    the tag behind it. *)
Class Aead := encrypt : list Z -> list Z -> list Z -> list Z.

Class AeadLaws (A : Aead) : Prop := {
  encrypt_length : forall key nonce msg, length (encrypt key nonce msg) = (length msg + 16)%nat;
  encrypt_u8 : forall key nonce msg, Forall is_u8 key -> Forall is_u8 nonce -> Forall is_u8 msg -> Forall is_u8 (encrypt key nonce msg);
}.

Definition nonce_from_block_number (block_number : Z) : list Z := to_le_bytes 8 block_number ++ replicate 4 0.

(** [FsckError] and [FsckReport]. *)
Inductive FsckError :=
| BadMagic
| BadVersion
| FreeBlockMismatch (superblock bitmap : Z)
| UnallocatedBlockReferenced (inode_number block_number : Z)
| FsckIntegrityViolation (block_number : Z).

Record FsckReport := {
  fr_superblock_valid : bool;
  fr_bitmap_consistent : bool;
  fr_total_blocks : Z;
  fr_free_blocks : Z;
  fr_inode_count : Z;
  fr_errors : list FsckError;
}.

Definition is_clean (r : FsckReport) : bool := bool_decide (length (fr_errors r) = 0%nat).

(** ** The volume *)

Record OnDiskVolume := {
  ov_superblock : Superblock;
  ov_bitmap : BlockBitmap;
  ov_inodes : gmap Z FsInode;
  ov_path_map : gmap str Z;
  ov_data_blocks : gmap Z (list Z);
  ov_tags : gmap Z (list Z);
  ov_key : list Z;
  ov_next_inode : Z;
}.

(** [BTreeMap] iteration over numeric keys. *)
Definition pair_le {A} (x y : Z * A) : Prop := fst x <= fst y.
#[global] Instance pair_le_dec {A} : RelDecision (@pair_le A).
Proof. intros x y. unfold pair_le. apply _. Defined.
Definition sorted_pairs {A} (m : gmap Z A) : list (Z * A) := merge_sort pair_le (map_to_list m).

Definition vol_format (total_blocks : Z) : run OnDiskVolume :=
  bitmap ← bitmap_new total_blocks;
  '(_, bitmap) ← bitmap_allocate bitmap;
  '(_, bitmap) ← bitmap_allocate bitmap;
  bitmap ← mark_allocated total_blocks bitmap;
  Done {| ov_superblock :=
            {| sb_magic := OMNI_FS_MAGIC; sb_version := OMNI_FS_VERSION; sb_block_size := 4096;
               sb_total_blocks := total_blocks; sb_free_blocks := bm_free bitmap; sb_inode_count := 1;
               sb_root_inode := ROOT_INODE_NUMBER; sb_created_at := 0; sb_aead_key_id := 0 |};
          ov_bitmap := bitmap;
          ov_inodes := {[ ROOT_INODE_NUMBER := fresh_inode ROOT_INODE_NUMBER Directory (lit "/") ]};
          ov_path_map := {[ lit "/" := ROOT_INODE_NUMBER ]};
          ov_data_blocks := ∅; ov_tags := ∅; ov_key := replicate 32 0; ov_next_inode := FIRST_USER_INODE |}.

Definition vol_create_file (path : str) (v : OnDiskVolume) : result FsError Z * OnDiskVolume :=
  if MAX_PATH_LEN <? Z.of_nat (length path) then (Err PathTooLong, v) else
  match ov_path_map v !! path with
  | Some _ => (Err FileAlreadyExists, v)
  | None =>
      let n := ov_next_inode v in
      (Ok n, {| ov_superblock := set_sb_inodes (wrap64 (sb_inode_count (ov_superblock v) + 1)) (ov_superblock v);
                ov_bitmap := ov_bitmap v;
                ov_inodes := <[n := fresh_inode n RegularFile (basename path)]> (ov_inodes v);
                ov_path_map := <[path := n]> (ov_path_map v); ov_data_blocks := ov_data_blocks v; ov_tags := ov_tags v;
                ov_key := ov_key v; ov_next_inode := wrap64 (n + 1) |})
  end.

(** [for blk_idx in first..=last]: one new block for each index.  A failure
    keeps the blocks taken so far. *)
Fixpoint vol_alloc_loop (ks : list Z) (m : BlockBitmap) : run (option (list (Z * Z)) * BlockBitmap) :=
  match ks with
  | [] => Done (Some [], m)
  | k :: ks =>
      '(r, m) ← bitmap_allocate m;
      match r with
      | None => Done (None, m)
      | Some b => '(rest, m) ← vol_alloc_loop ks m; Done (option_map (cons (k, b)) rest, m)
      end
  end.

(** The old block that block [k] of the file is seeded from. *)
Definition old_block (db : gmap Z (list Z)) (old_blocks : list Z) (k : Z) : option (list Z) :=
  match old_blocks !! Z.to_nat k with
  | Some old => if old =? 0 then None else db !! old
  | None => None
  end.

(** [inode.blocks[blk_idx] = new_blk] for every new block. *)
Fixpoint store_blocks (new_blocks : list (Z * Z)) (blocks : list Z) : run (list Z) :=
  match new_blocks with
  | [] => Done blocks
  | (k, b) :: new_blocks => _ ← index_run blocks (Z.to_nat k); store_blocks new_blocks (<[Z.to_nat k := b]> blocks)
  end.

(** Blocks given up: their data and tags removed, their bits cleared. *)
Fixpoint release_blocks (bs : list Z) (db tags : gmap Z (list Z)) (m : BlockBitmap) : run (gmap Z (list Z) * gmap Z (list Z) * BlockBitmap) :=
  match bs with
  | [] => Done (db, tags, m)
  | b :: bs =>
      if b =? 0 then release_blocks bs db tags m
      else m ← bitmap_free b m; release_blocks bs (delete b db) (delete b tags) m
  end.

Definition count_blocks (blocks : list Z) : Z := wrap32 (Z.of_nat (length (filter (fun b => b <> 0) blocks))).

(** The inode after the write: pointers replaced or extended, the count of
    blocks, the size. *)
Definition repoint_inode (new_blocks : list (Z * Z)) (last end_offset : Z) (i : FsInode) : run FsInode :=
  blocks ← store_blocks new_blocks (fi_blocks i ++ replicate (Z.to_nat (last + 1 - Z.of_nat (length (fi_blocks i)))) 0);
  let i := set_fi_blocks blocks (count_blocks blocks) i in
  Done (if fi_size i <? end_offset then set_fi_size end_offset i else i).

Section Volume.
Context {A : Aead}.

Definition compute_tag (key : list Z) (block_number : Z) (block_data : list Z) : run (list Z) :=
  let ciphertext := encrypt key (nonce_from_block_number block_number) block_data in
  let tag := drop (length ciphertext - Z.to_nat TAG_LEN) ciphertext in
  if Z.of_nat (length tag) =? TAG_LEN then Done tag else Panicked.

Definition verify_tag (key : list Z) (block_number : Z) (block_data stored_tag : list Z) : run (result FsError unit) :=
  expected ← compute_tag key block_number block_data;
  let diff := foldl (fun diff ab => Z.lor diff (Z.lxor (fst ab) (snd ab))) 0 (zip expected stored_tag) in
  Done (if diff =? 0 then Ok tt else Err IntegrityViolation).

Fixpoint vol_write_loop (key : list Z) (offset stop first last : Z) (data old_blocks : list Z) (new_blocks : list (Z * Z))
    (bytes_written : Z) (db tags : gmap Z (list Z)) : run (Z * gmap Z (list Z) * gmap Z (list Z)) :=
  match new_blocks with
  | [] => Done (bytes_written, db, tags)
  | (k, b) :: new_blocks =>
      '(block, bytes_written) ← write_block (old_block db old_blocks k) data bytes_written (block_span offset stop first last k);
      tag ← compute_tag key b block;
      vol_write_loop key offset stop first last data old_blocks new_blocks bytes_written (<[b := block]> db) (<[b := tag]> tags)
  end.

Definition vol_write_file (path : str) (offset : Z) (data : list Z) (v : OnDiskVolume) : run (result FsError Z * OnDiskVolume) :=
  match ov_path_map v !! path with
  | None => Done (Err FileNotFound, v)
  | Some n =>
  match ov_inodes v !! n with
  | None => Done (Err FileNotFound, v)
  | Some i =>
      if negb (bool_decide (fi_type i = RegularFile)) then Done (Err NotAFile, v) else
      if bool_decide (data = []) then Done (Ok 0, v) else
      let end_offset := saturating_add64 offset (Z.of_nat (length data)) in
      let first := offset / BLOCK_SIZE in
      let last := saturating_sub end_offset 1 / BLOCK_SIZE in
      let old_blocks := fi_blocks i in
      '(r, bitmap) ← vol_alloc_loop (seqZ first (last - first + 1)) (ov_bitmap v);
      match r with
      | None =>
          Done (Err NoSpace,
                {| ov_superblock := ov_superblock v; ov_bitmap := bitmap; ov_inodes := ov_inodes v; ov_path_map := ov_path_map v;
                   ov_data_blocks := ov_data_blocks v; ov_tags := ov_tags v; ov_key := ov_key v; ov_next_inode := ov_next_inode v |})
      | Some new_blocks =>
          '(bytes_written, db, tags) ← vol_write_loop (ov_key v) offset end_offset first last data old_blocks new_blocks 0
                                         (ov_data_blocks v) (ov_tags v);
          i' ← repoint_inode new_blocks last end_offset i;
          '(db, tags, bitmap) ← release_blocks (omap (fun kb => old_blocks !! Z.to_nat (fst kb)) new_blocks) db tags bitmap;
          Done (Ok bytes_written,
                {| ov_superblock := set_sb_free (bm_free bitmap) (ov_superblock v); ov_bitmap := bitmap;
                   ov_inodes := <[n := i']> (ov_inodes v); ov_path_map := ov_path_map v; ov_data_blocks := db; ov_tags := tags;
                   ov_key := ov_key v; ov_next_inode := ov_next_inode v |})
      end
  end
  end.

(** The tag of a block is verified before its bytes are used; a block with no
    stored tag is not. *)
Definition tag_check (key : list Z) (tags : gmap Z (list Z)) (b : Z) (block : list Z) : run (result FsError unit) :=
  match tags !! b with Some stored_tag => verify_tag key b block stored_tag | None => Done (Ok tt) end.

Definition vol_read_file (path : str) (offset count : Z) (v : OnDiskVolume) : run (result FsError (list Z)) :=
  match ov_path_map v !! path with
  | None => Done (Err FileNotFound)
  | Some n =>
      match ov_inodes v !! n with
      | None => Done (Err FileNotFound)
      | Some i => read_inode (tag_check (ov_key v) (ov_tags v)) (ov_data_blocks v) i offset count
      end
  end.

(** *** The consistency checker *)

Fixpoint fsck_refs (m : BlockBitmap) (n : Z) (blocks : list Z) : run (list FsckError) :=
  match blocks with
  | [] => Done []
  | b :: blocks =>
      alloc ← is_allocated m b;
      rest ← fsck_refs m n blocks;
      Done (if alloc : bool then rest else UnallocatedBlockReferenced n b :: rest)
  end.

Fixpoint fsck_inodes (m : BlockBitmap) (inodes : list (Z * FsInode)) : run (list FsckError) :=
  match inodes with
  | [] => Done []
  | (n, i) :: inodes =>
      errors ← fsck_refs m n (fi_blocks i);
      rest ← fsck_inodes m inodes;
      Done (errors ++ rest)
  end.

Fixpoint fsck_tags (key : list Z) (tags : gmap Z (list Z)) (blocks : list (Z * list Z)) : run (list FsckError) :=
  match blocks with
  | [] => Done []
  | (b, data) :: blocks =>
      r ← tag_check key tags b data;
      rest ← fsck_tags key tags blocks;
      Done (match r with Ok _ => rest | Err _ => FsckIntegrityViolation b :: rest end)
  end.

Definition vol_fsck (v : OnDiskVolume) : run FsckReport :=
  let sb := ov_superblock v in
  let magic_ok := bool_decide (sb_magic sb = OMNI_FS_MAGIC) in
  let version_ok := sb_version sb =? OMNI_FS_VERSION in
  let bitmap_free := bm_free (ov_bitmap v) in
  let consistent := bitmap_free =? sb_free_blocks sb in
  refs ← fsck_inodes (ov_bitmap v) (sorted_pairs (ov_inodes v));
  viol ← fsck_tags (ov_key v) (ov_tags v) (sorted_pairs (ov_data_blocks v));
  Done {| fr_superblock_valid := magic_ok && version_ok; fr_bitmap_consistent := consistent;
          fr_total_blocks := sb_total_blocks sb; fr_free_blocks := bitmap_free; fr_inode_count := sb_inode_count sb;
          fr_errors := (if magic_ok then [] else [BadMagic]) ++ (if version_ok then [] else [BadVersion]) ++
                       (if consistent then [] else [FreeBlockMismatch (sb_free_blocks sb) bitmap_free]) ++ refs ++ viol |}.
End Volume.

Definition vol_delete_file (path : str) (v : OnDiskVolume) : run (result FsError unit * OnDiskVolume) :=
  match ov_path_map v !! path with
  | None => Done (Err FileNotFound, v)
  | Some n =>
  match ov_inodes v !! n with
  | None => Done (Err FileNotFound, v)
  | Some i =>
      if negb (bool_decide (fi_type i = RegularFile)) then Done (Err NotAFile, v) else
      '(db, tags, bitmap) ← release_blocks (fi_blocks i) (ov_data_blocks v) (ov_tags v) (ov_bitmap v);
      let sb := ov_superblock v in
      Done (Ok tt, {| ov_superblock := set_sb_free (bm_free bitmap) (set_sb_inodes (saturating_sub (sb_inode_count sb) 1) sb);
                      ov_bitmap := bitmap; ov_inodes := delete n (ov_inodes v); ov_path_map := delete path (ov_path_map v);
                      ov_data_blocks := db; ov_tags := tags; ov_key := ov_key v; ov_next_inode := ov_next_inode v |})
  end
  end.

Definition vol_stat_file (path : str) (v : OnDiskVolume) : result FsError FileMetadata :=
  n ← ok_or (ov_path_map v !! path) FileNotFound;
  i ← ok_or (ov_inodes v !! n) FileNotFound;
  Ok (stat_of i).

Definition vol_list_directory (path : str) (v : OnDiskVolume) : result FsError (list str) :=
  n ← ok_or (ov_path_map v !! path) FileNotFound;
  i ← ok_or (ov_inodes v !! n) FileNotFound;
  if negb (bool_decide (fi_type i = Directory)) then Err NotADirectory
  else Ok (child_names path (sorted_paths (ov_path_map v))).

(** ** Invariant *)

Definition vol_tree (v : OnDiskVolume) : ftree := tree_of (ov_path_map v) (ov_inodes v) (ov_data_blocks v).

(** The blocks of the bitmap, the inode table and the tags. *)
Definition structural (total b : Z) : Prop := b = 1 \/ b = 2 \/ b = total.

(** Every field of the superblock fits its width. *)
Definition sb_ok (s : Superblock) : Prop :=
  sb_magic s = OMNI_FS_MAGIC /\ sb_version s = OMNI_FS_VERSION /\ is_u32 (sb_block_size s) /\ is_u64 (sb_total_blocks s) /\
  is_u64 (sb_free_blocks s) /\ is_u64 (sb_inode_count s) /\ is_u64 (sb_root_inode s) /\ is_u64 (sb_created_at s) /\
  is_u64 (sb_aead_key_id s).

Definition inode_fields_ok (i : FsInode) : Prop :=
  is_u32 (fi_block_count i) /\ is_u64 (fi_created i) /\ is_u64 (fi_modified i).

Record vol_wf {A : Aead} (v : OnDiskVolume) : Prop := {
  vo_files : files_wf (ov_path_map v) (ov_inodes v) (ov_data_blocks v) (ov_next_inode v);
  vo_inode : 1 <= ov_next_inode v < 2 ^ 64;
  vo_bitmap : bitmap_wf (ov_bitmap v);
  vo_total : bm_total (ov_bitmap v) = sb_total_blocks (ov_superblock v) /\ 3 <= sb_total_blocks (ov_superblock v);
  vo_struct : forall b, structural (sb_total_blocks (ov_superblock v)) b -> taken (ov_bitmap v) b = true;
  vo_ref : forall n i b, ov_inodes v !! n = Some i -> b ∈ fi_blocks i -> b <> 0 -> is_Some (ov_data_blocks v !! b);
  vo_data : forall b block, ov_data_blocks v !! b = Some block ->
    taken (ov_bitmap v) b = true /\ ~ structural (sb_total_blocks (ov_superblock v)) b /\
    exists tag, ov_tags v !! b = Some tag /\ compute_tag (ov_key v) b block = Done tag;
  vo_tag : forall b tag, ov_tags v !! b = Some tag -> is_Some (ov_data_blocks v !! b);
  vo_key : Forall is_u8 (ov_key v);
  vo_sb : sb_ok (ov_superblock v);
  vo_fields : forall n i, ov_inodes v !! n = Some i -> inode_fields_ok i;
}.

(** The free counter of the superblock is the bitmap's. *)
Definition accounted (v : OnDiskVolume) : Prop := sb_free_blocks (ov_superblock v) = bm_free (ov_bitmap v).

(** Every taken block is structural or holds a file's data. *)
Definition no_leak (v : OnDiskVolume) : Prop := forall b, taken (ov_bitmap v) b = true ->
  structural (sb_total_blocks (ov_superblock v)) b \/ is_Some (ov_data_blocks v !! b).

(** Whether the blocks that a write replaces or adds are free beforehand. *)
Definition vol_room (offset : Z) (data : list Z) (v : OnDiskVolume) : bool :=
  (offset + Z.of_nat (length data) - 1) / BLOCK_SIZE - offset / BLOCK_SIZE + 1 <=? bm_free (ov_bitmap v).

Lemma set_sb_free_ok free s : sb_ok s -> is_u64 free -> sb_ok (set_sb_free free s).
Proof. unfold sb_ok. cbn. tauto. Qed.

Lemma set_sb_inodes_ok count s : sb_ok s -> is_u64 count -> sb_ok (set_sb_inodes count s).
Proof. unfold sb_ok. cbn. tauto. Qed.

Lemma free_count_u64 m : bitmap_wf m -> is_u64 (bm_free m).
Proof.
  intros Hm. destruct (bw_total _ Hm). rewrite (bw_free _ Hm). unfold is_u64.
  pose proof (count_below_bounds (fun i => negb (bit_at (bm_bits m) i)) (Z.to_nat (bm_total m))). lia.
Qed.

(** ** Lemmas on tags *)

Section Tags.
Context {A : Aead} {L : AeadLaws A}.

Lemma compute_tag_spec key b block : Forall is_u8 key -> Forall is_u8 block ->
  exists tag, compute_tag key b block = Done tag /\ Z.of_nat (length tag) = TAG_LEN /\ Forall is_u8 tag.
Proof.
  intros Hk Hb. unfold compute_tag. set (c := encrypt _ _ _).
  assert (length c = (length block + 16)%nat) as Hl by apply encrypt_length.
  assert (Z.of_nat (length (drop (length c - Z.to_nat TAG_LEN) c)) = TAG_LEN) as Ht by (rewrite length_drop; unfold TAG_LEN; lia).
  rewrite (proj2 (Z.eqb_eq _ _) Ht). eexists. split; [reflexivity|]. split; [done|]. apply Forall_drop.
  apply encrypt_u8; [done| |done]. unfold nonce_from_block_number. apply Forall_app. split; [apply to_le_bytes_u8|].
  apply Forall_replicate. unfold is_u8. lia.
Qed.

Lemma xor_fold_zero l k d : length l = length k ->
  foldl (fun diff ab => Z.lor diff (Z.lxor (fst ab) (snd ab))) d (zip l k) = 0 <-> d = 0 /\ l = k.
Proof.
  revert k d. induction l as [|x l IH]; intros [|y k] d Hl; try discriminate; cbn [zip zip_with foldl].
  - naive_solver.
  - rewrite IH by (cbn in Hl; congruence). cbn [fst snd]. rewrite Z.lor_eq_0_iff, Z.lxor_eq_0_iff. naive_solver.
Qed.

(** The constant-time comparison decides equality of tags. *)
Lemma verify_tag_spec key b block stored : Forall is_u8 key -> Forall is_u8 block -> Z.of_nat (length stored) = TAG_LEN ->
  exists r, verify_tag key b block stored = Done r /\ (r = Ok tt <-> compute_tag key b block = Done stored) /\
    (r = Ok tt \/ r = Err IntegrityViolation).
Proof.
  intros Hk Hb Hs. destruct (compute_tag_spec key b block Hk Hb) as (tag & Ht & Hl & _). unfold verify_tag. rewrite Ht. cbn [mbind run_bind].
  eexists. split; [reflexivity|]. destruct (Z.eqb_spec (foldl (fun diff ab => Z.lor diff (Z.lxor (fst ab) (snd ab))) 0 (zip tag stored)) 0) as [E|E].
  - split; [|by left]. apply xor_fold_zero in E as [_ ->]; [done|lia].
  - split; [|by right]. split; [done|]. intros [= ->]. exfalso. apply E, xor_fold_zero; done.
Qed.

Lemma vol_blocks_sound v : vol_wf v -> blocks_sound (tag_check (ov_key v) (ov_tags v)) (ov_data_blocks v).
Proof.
  intros Hwf b block Hb. destruct (fw_block _ _ _ _ (vo_files _ Hwf) _ _ Hb) as [Hl Hu]. split; [done|].
  destruct (vo_data _ Hwf _ _ Hb) as (_ & _ & tag & Ht & Hc). unfold tag_check. rewrite Ht.
  destruct (compute_tag_spec (ov_key v) b block (vo_key _ Hwf) Hu) as (tag' & Ht' & Hlen & _). assert (tag' = tag) as -> by congruence.
  destruct (verify_tag_spec (ov_key v) b block tag (vo_key _ Hwf) Hu Hlen) as (r & -> & Hr & _). by rewrite (proj2 Hr Hc).
Qed.
End Tags.

(** ** Lemmas on the steps of a write *)

Lemma vol_alloc_loop_spec ks m : bitmap_wf m ->
  exists r m', vol_alloc_loop ks m = Done (r, m') /\ bitmap_wf m' /\ bm_total m' = bm_total m /\
    match r with
    | None => bm_free m < Z.of_nat (length ks) /\ forall b, taken m b = true -> taken m' b = true
    | Some new => fst <$> new = ks /\ NoDup (snd <$> new) /\ Z.of_nat (length ks) <= bm_free m /\
        (forall b, b ∈ snd <$> new -> in_range m b /\ taken m b = false) /\
        (forall b, taken m' b = taken m b || bool_decide (b ∈ snd <$> new))
    end.
Proof.
  revert m. induction ks as [|k ks IH]; intros m Hwf; cbn [vol_alloc_loop].
  { eexists _, _. split; [reflexivity|]. split_and!; try done.
    - constructor.
    - rewrite (bw_free _ Hwf). apply count_below_bounds.
    - intros b Hb. by apply not_elem_of_nil in Hb.
    - intros b. rewrite bool_decide_false by apply not_elem_of_nil. by rewrite orb_false_r. }
  destruct (bitmap_allocate_spec m Hwf) as ([b|] & m1 & -> & Hwf1 & Ht1 & Hspec); cbn [mbind run_bind].
  2:{ destruct Hspec as [-> Hz]. eexists _, _. split; [reflexivity|]. split_and!; try done. cbn. lia. }
  destruct Hspec as (Hr & Hf & _ & Hfree & Htk).
  destruct (IH m1 Hwf1) as (r & m2 & -> & Hwf2 & Ht2 & Hspec). cbn [mbind run_bind]. eexists _, _. split; [reflexivity|].
  split; [done|]. split; [congruence|]. cbn [length]. destruct r as [new|]; cbn [option_map].
  - destruct Hspec as (Hks & Hnd & Hle & Hnew & Htk2). rewrite !fmap_cons. cbn [fst snd]. split_and!.
    + by rewrite Hks.
    + constructor; [|done]. intros Hin. destruct (Hnew b Hin) as [_ H]. by rewrite Htk, Z.eqb_refl, orb_true_r in H.
    + lia.
    + intros c Hc. apply elem_of_cons in Hc as [->|Hc]; [done|]. destruct (Hnew c Hc) as [H1 H2]. rewrite Htk in H2.
      apply orb_false_iff in H2 as [H2 _]. unfold in_range in *. by rewrite Ht1 in H1.
    + intros c. rewrite Htk2, Htk. destruct (Z.eqb_spec c b) as [->|Hne].
      * rewrite (bool_decide_true (b ∈ b :: _)) by apply list_elem_of_here. by rewrite !orb_true_r.
      * rewrite orb_false_r. f_equal. apply bool_decide_ext. rewrite elem_of_cons. naive_solver.
  - destruct Hspec as [Hlt Hmono]. split; [lia|]. intros c Hc. apply Hmono. by rewrite Htk, Hc.
Qed.

Lemma store_blocks_spec new blocks k : fst <$> new = seqZ k (Z.of_nat (length new)) -> 0 <= k ->
  k + Z.of_nat (length new) <= Z.of_nat (length blocks) ->
  exists blocks', store_blocks new blocks = Done blocks' /\ length blocks' = length blocks /\
    forall j, blocks' !! j = if bool_decide (Z.to_nat k <= j < Z.to_nat k + length new)%nat then snd <$> new !! (j - Z.to_nat k)%nat else blocks !! j.
Proof.
  revert blocks k. induction new as [|[k' b] new IH]; intros blocks k Hf Hk Hl; cbn [store_blocks].
  { exists blocks. split_and!; try done. intros j. rewrite bool_decide_false; [done|cbn; lia]. }
  cbn [length] in *. rewrite seqZ_cons in Hf by lia. cbn [fmap list_fmap fst] in Hf. injection Hf as -> Hf.
  unfold index_run. destruct (lookup_lt_is_Some_2 blocks (Z.to_nat k)) as [x ->]; [lia|]. cbn [mbind run_bind].
  destruct (IH (<[Z.to_nat k := b]> blocks) (k + 1)) as (blocks' & -> & Hlen & Hb').
  { rewrite Hf. f_equal; lia. }
  { lia. }
  { rewrite length_insert. lia. }
  exists blocks'. split; [done|]. rewrite length_insert in Hlen. split; [done|]. intros j. rewrite Hb'.
  destruct (decide (j = Z.to_nat k)) as [->|Hne].
  - rewrite bool_decide_false, bool_decide_true, list_lookup_insert_eq by lia. by rewrite Nat.sub_diag.
  - rewrite list_lookup_insert_ne by done. destruct (decide (Z.to_nat k <= j < Z.to_nat k + S (length new))%nat) as [Hin|Hin].
    + rewrite !bool_decide_true by lia. replace (j - Z.to_nat k)%nat with (S (j - Z.to_nat (k + 1))) by lia. done.
    + by rewrite !bool_decide_false by lia.
Qed.

Lemma release_blocks_spec bs db tags m : bitmap_wf m -> (forall b, b ∈ bs -> 0 <= b) ->
  exists db' tags' m', release_blocks bs db tags m = Done (db', tags', m') /\ bitmap_wf m' /\ bm_total m' = bm_total m /\
    (forall b, db' !! b = if bool_decide (b ∈ bs /\ b <> 0) then None else db !! b) /\
    (forall b, tags' !! b = if bool_decide (b ∈ bs /\ b <> 0) then None else tags !! b) /\
    (forall b, taken m' b = taken m b && negb (bool_decide (b ∈ bs /\ b <> 0))).
Proof.
  revert db tags m. induction bs as [|c bs IH]; intros db tags m Hwf Hbs; cbn [release_blocks].
  { exists db, tags, m. split_and!; try done; intros b; rewrite bool_decide_false by (intros [H _]; by apply not_elem_of_nil in H);
    first [done|by rewrite andb_true_r]. }
  assert (forall b, b ∈ bs -> 0 <= b) as Hbs' by (intros; apply Hbs; by apply list_elem_of_further).
  destruct (Z.eqb_spec c 0) as [->|Hc].
  { destruct (IH db tags m Hwf Hbs') as (db' & tags' & m' & -> & H1 & H2 & H3 & H4 & H5).
    exists db', tags', m'. assert (forall b, (b ∈ 0 :: bs /\ b <> 0) <-> (b ∈ bs /\ b <> 0)) as Hiff by (intros b; rewrite elem_of_cons; naive_solver).
    split_and!; try done; intros b; rewrite (bool_decide_ext _ _ (Hiff b)); auto. }
  destruct (bitmap_free_spec m c Hwf (Hbs c ltac:(apply list_elem_of_here))) as (m1 & -> & Hwf1 & Ht1 & Htk & _). cbn [mbind run_bind].
  destruct (IH (delete c db) (delete c tags) m1 Hwf1 Hbs') as (db' & tags' & m' & -> & H1 & H2 & H3 & H4 & H5).
  exists db', tags', m'. split_and!; try done; [congruence| | |]; intros b; [rewrite H3|rewrite H4|rewrite H5, Htk].
  all: destruct (decide (b = c)) as [->|Hne];
    [rewrite (bool_decide_true (c ∈ c :: bs /\ c <> 0)) by (split; [apply list_elem_of_here|done])
    |rewrite (bool_decide_ext (b ∈ c :: bs /\ b <> 0) (b ∈ bs /\ b <> 0)) by (rewrite elem_of_cons; naive_solver)].
  - rewrite lookup_delete_eq. by case_bool_decide.
  - by rewrite lookup_delete_ne.
  - rewrite lookup_delete_eq. by case_bool_decide.
  - by rewrite lookup_delete_ne.
  - by rewrite Z.eqb_refl, andb_false_r.
  - by rewrite (proj2 (Z.eqb_neq b c)), andb_true_r.
Qed.

Lemma repoint_inode_spec new last stop i k : fst <$> new = seqZ k (Z.of_nat (length new)) -> 0 <= k ->
  k + Z.of_nat (length new) = last + 1 ->
  exists i', repoint_inode new last stop i = Done i' /\ fi_number i' = fi_number i /\ fi_type i' = fi_type i /\
    fi_size i' = Z.max (fi_size i) stop /\ fi_name i' = fi_name i /\ fi_created i' = fi_created i /\ fi_modified i' = fi_modified i /\
    is_u32 (fi_block_count i') /\ (length (fi_blocks i') = Nat.max (length (fi_blocks i)) (Z.to_nat (last + 1)))%nat /\
    forall j, fi_blocks i' !! j =
      if bool_decide (Z.to_nat k <= j < Z.to_nat k + length new)%nat then snd <$> new !! (j - Z.to_nat k)%nat
      else match fi_blocks i !! j with
           | Some b => Some b
           | None => if bool_decide (j < Z.to_nat (last + 1))%nat then Some 0 else None
           end.
Proof.
  intros Hf Hk Hl. unfold repoint_inode. set (grown := fi_blocks i ++ replicate _ 0).
  assert (length grown = Nat.max (length (fi_blocks i)) (Z.to_nat (last + 1))) as Hgl by (unfold grown; rewrite length_app, length_replicate; lia).
  destruct (store_blocks_spec new grown k) as (blocks & -> & Hlen & Hb); [done|done|lia|]. cbn [mbind run_bind].
  set (i1 := set_fi_blocks _ _ _). eexists. split; [reflexivity|].
  assert (is_u32 (count_blocks blocks)) as Hc by (unfold count_blocks, wrap32, is_u32; apply Z.mod_pos_bound; lia).
  assert (forall j, blocks !! j = if bool_decide (Z.to_nat k <= j < Z.to_nat k + length new)%nat then snd <$> new !! (j - Z.to_nat k)%nat
      else match fi_blocks i !! j with Some b => Some b | None => if bool_decide (j < Z.to_nat (last + 1))%nat then Some 0 else None end) as Hlook.
  { intros j. rewrite Hb. case_bool_decide; [done|]. unfold grown. destruct (fi_blocks i !! j) as [b|] eqn:E; [by apply lookup_app_l_Some|].
    apply lookup_ge_None in E. rewrite lookup_app_r by done. case_bool_decide.
    - apply lookup_replicate_2. lia.
    - apply lookup_ge_None. rewrite length_replicate. lia. }
  change (fi_size i1) with (fi_size i). destruct (Z.ltb_spec (fi_size i) stop); cbn; split_and!; try done; lia.
Qed.

(** ** The operations *)

Section Operations.
Context {A : Aead} {L : AeadLaws A}.

Lemma vol_write_loop_spec key offset stop data old new : Forall is_u8 key -> 0 <= offset < stop ->
  stop - offset = Z.of_nat (length data) -> Forall is_u8 data ->
  forall k db tags, offset / BLOCK_SIZE <= k -> fst <$> new = seqZ k (Z.of_nat (length new)) ->
  k + Z.of_nat (length new) = (stop - 1) / BLOCK_SIZE + 1 -> NoDup (snd <$> new) ->
  (forall b, b ∈ old -> b <> 0 -> b ∉ snd <$> new) ->
  (forall b block, db !! b = Some block -> Z.of_nat (length block) = BLOCK_SIZE /\ Forall is_u8 block) ->
  exists db' tags', vol_write_loop key offset stop (offset / BLOCK_SIZE) ((stop - 1) / BLOCK_SIZE) data old new
      (cut offset stop k - offset) db tags = Done (stop - offset, db', tags') /\
    (forall b, b ∉ snd <$> new -> db' !! b = db !! b /\ tags' !! b = tags !! b) /\
    (forall m k' b, new !! m = Some (k', b) -> exists block tag, db' !! b = Some block /\ tags' !! b = Some tag /\
       compute_tag key b block = Done tag /\ written offset stop data k' (seed_byte (old_block db old k')) block).
Proof.
  intros Hkey Ho Hd Hu. induction new as [|[k' b] new IH]; intros k db tags Hk Hf Hn Hnd Hold Hdb; cbn [length] in *; cbn [vol_write_loop].
  { exists db, tags. replace k with ((stop - 1) / BLOCK_SIZE + 1) by lia. rewrite cut_last by done. done. }
  rewrite seqZ_cons in Hf by lia. rewrite fmap_cons in Hf. cbn [fst] in Hf. injection Hf as -> Hf.
  rewrite fmap_cons in Hnd. cbn [snd] in Hnd. apply NoDup_cons in Hnd as [Hnin Hnd].
  destruct (write_block_written offset stop data k (old_block db old k)) as (block & -> & Hw); try done; [lia| |].
  { unfold old_block. destruct (old !! _) as [o|]; [|done]. destruct (o =? 0); [done|].
    destruct (db !! o) as [ob|] eqn:E; cbn; [by eapply Hdb|done]. }
  cbn [mbind run_bind]. pose proof Hw as (Hl & Hbu & _).
  destruct (compute_tag_spec key b block Hkey Hbu) as (tag & Htag & _). rewrite Htag. cbn [mbind run_bind].
  destruct (IH (k + 1) (<[b := block]> db) (<[b := tag]> tags)) as (db' & tags' & -> & Hout & Hin).
  { lia. } { rewrite Hf. f_equal; lia. } { lia. } { done. }
  { intros c Hc Hne Hc'. apply (Hold c Hc Hne). rewrite fmap_cons. by apply list_elem_of_further. }
  { intros c blk H. apply lookup_insert_Some in H as [[<- <-]|[_ H]]; [done|by eapply Hdb]. }
  exists db', tags'. split; [done|]. split.
  - intros c Hc. rewrite fmap_cons in Hc. apply not_elem_of_cons in Hc as [Hc1 Hc2]. cbn [snd] in Hc1. destruct (Hout c Hc2) as [-> ->].
    by rewrite !lookup_insert_ne.
  - intros [|m] k'' c Hm; cbn in Hm.
    + injection Hm as <- <-. exists block, tag. destruct (Hout b Hnin) as [-> ->]. by rewrite !lookup_insert_eq.
    + destruct (Hin m k'' c Hm) as (blk & t & H1 & H2 & H3 & H4). exists blk, t. split_and!; try done.
      assert (old_block (<[b := block]> db) old k'' = old_block db old k'') as Heq; [|by rewrite Heq in H4].
      unfold old_block. destruct (old !! _) as [o|] eqn:Eo; [|done]. destruct (Z.eqb_spec o 0); [done|].
      apply lookup_insert_ne. intros ->. apply (Hold o); [by eapply list_elem_of_lookup_2|done|]. rewrite fmap_cons. apply list_elem_of_here.
Qed.

Lemma vol_create_spec path v r v' : vol_wf v -> ov_next_inode v + 1 < 2 ^ 64 -> vol_create_file path v = (r, v') ->
  vol_wf v' /\ create_ok path (vol_tree v) r (vol_tree v') /\ (accounted v -> accounted v') /\ (no_leak v -> no_leak v') /\
  ov_next_inode v' <= ov_next_inode v + 1.
Proof.
  intros Hwf Hn. unfold vol_create_file, create_ok. destruct (MAX_PATH_LEN <? _).
  { intros [= <- <-]. split_and!; try done. lia. }
  destruct (ov_path_map v !! path) as [n|] eqn:Ep; intros [= <- <-].
  { destruct (tree_cases _ _ _ _ (vo_files _ Hwf) path) as [[E _]|(n' & i & E & Hi & Et)]; [congruence|].
    unfold vol_tree. rewrite Et. split_and!; try done. lia. }
  unfold vol_tree. rewrite (proj2 (tree_none _ _ _ _ (vo_files _ Hwf) path) Ep).
  assert (wrap64 (ov_next_inode v + 1) = ov_next_inode v + 1) as Ew
    by (unfold wrap64; apply Z.mod_small; pose proof (vo_inode _ Hwf); lia).
  assert (ov_inodes v !! ov_next_inode v = None) as Hfresh.
  { destruct (ov_inodes v !! ov_next_inode v) as [i|] eqn:E; [|done]. destruct (fw_num _ _ _ _ (vo_files _ Hwf) _ _ E). lia. }
  split_and!; try done.
  - constructor; cbn; rewrite ?Ew; try apply Hwf.
    + apply create_wf; [apply Hwf|done|apply (vo_inode _ Hwf)].
    + pose proof (vo_inode _ Hwf). lia.
    + intros n i b H Hb. apply lookup_insert_Some in H as [[_ <-]|[_ H]]; [by apply not_elem_of_nil in Hb|by eapply (vo_ref _ Hwf)].
    + apply set_sb_inodes_ok; [apply Hwf|]. unfold is_u64, wrap64. apply Z.mod_pos_bound. lia.
    + intros n i H. apply lookup_insert_Some in H as [[_ <-]|[_ H]]; [|by eapply (vo_fields _ Hwf)].
      unfold inode_fields_ok, is_u32, is_u64. cbn. lia.
  - by eexists.
  - cbn. eapply create_tree; [apply Hwf|done|done].
  - cbn. lia.
Qed.

Lemma vol_delete_spec path v : vol_wf v ->
  exists r v', vol_delete_file path v = Done (r, v') /\ vol_wf v' /\ delete_ok path (vol_tree v) r (vol_tree v') /\
    (accounted v -> accounted v') /\ (no_leak v -> no_leak v') /\ ov_next_inode v' = ov_next_inode v.
Proof.
  intros Hwf. unfold vol_delete_file, delete_ok. unfold vol_tree at 1. pose proof (vo_files _ Hwf) as Hfw.
  destruct (tree_cases _ _ _ _ Hfw path) as [[-> ->]|(n & i & Hp & Hi & ->)]; [by eexists _, _|].
  rewrite Hp, Hi. unfold fnode_of. destruct (fi_type i) eqn:Et; [|by eexists _, _].
  rewrite bool_decide_true by done. cbn [negb].
  assert (forall b, b ∈ fi_blocks i -> b <> 0 -> taken (ov_bitmap v) b = true /\ ~ structural (sb_total_blocks (ov_superblock v)) b) as Hmine.
  { intros b Hb Hne. destruct (vo_ref _ Hwf n i b Hi Hb Hne) as [block Hbl]. by destruct (vo_data _ Hwf _ _ Hbl) as (? & ? & _). }
  destruct (release_blocks_spec (fi_blocks i) (ov_data_blocks v) (ov_tags v) (ov_bitmap v)) as (db & tags & m & -> & Hm & Ht & Hdb & Htg & Htk); [apply Hwf| |].
  { intros b Hb. destruct (decide (b = 0)) as [->|Hne]; [lia|]. destruct (Hmine b Hb Hne) as [H%taken_range _]. unfold in_range in H. lia. }
  cbn [mbind run_bind]. eexists _, _. split; [reflexivity|].
  assert (forall m' j b, m' <> n -> ov_inodes v !! m' = Some j -> b ∈ fi_blocks j -> b <> 0 -> db !! b = ov_data_blocks v !! b) as Hother.
  { intros m' j b Hm' Hj Hb Hne. rewrite Hdb, bool_decide_false; [done|]. intros [Hin _].
    apply list_elem_of_lookup in Hb as [k Hk], Hin as [l Hl]. by destruct (fw_disj _ _ _ _ Hfw _ _ _ _ _ _ _ Hj Hi Hk Hl Hne). }
  split_and!; try done.
  - constructor; cbn; try apply Hwf; try done.
    + eapply delete_wf; [apply Hwf|done| |done]. intros b block. rewrite Hdb. by case_bool_decide.
    + rewrite Ht. apply Hwf.
    + intros b Hb. rewrite Htk, (vo_struct _ Hwf) by done. rewrite bool_decide_false; [done|]. intros [Hin Hne]. by destruct (Hmine b Hin Hne).
    + intros m' j b H Hb Hne. apply lookup_delete_Some in H as [Hm' H]. rewrite (Hother m' j) by done. by eapply (vo_ref _ Hwf).
    + intros b block. rewrite Hdb, Htk, Htg. case_bool_decide; [done|]. intros Hb. rewrite andb_true_r. by apply (vo_data _ Hwf).
    + intros b tag. rewrite Htg, Hdb. case_bool_decide; [done|]. apply (vo_tag _ Hwf).
    + apply set_sb_free_ok; [apply set_sb_inodes_ok; [apply Hwf|]|by apply free_count_u64].
      destruct (vo_sb _ Hwf) as (_ & _ & _ & _ & _ & Hc & _). unfold is_u64, saturating_sub in *. lia.
    + intros m' j H. apply lookup_delete_Some in H as [_ H]. by eapply (vo_fields _ Hwf).
  - unfold vol_tree. cbn. eapply delete_tree; [apply Hwf|done|done].
  - intros Hnl b Hb. cbn in *. rewrite Htk in Hb. apply andb_true_iff in Hb as [Hb Hnin]. apply negb_true_iff, bool_decide_eq_false in Hnin.
    destruct (Hnl b Hb) as [|Hd]; [by left|right]. by rewrite Hdb, bool_decide_false.
Qed.
End Operations.

(** ** A write that finds its blocks

    [new] are the blocks taken for the range, [db1] and [tags1] the data and
    tags after the loop that fills them, [i'] the repointed inode, [db2],
    [tags2] and [m2] what is left when the replaced blocks are released. *)
Section Write.
Context {A : Aead} {L : AeadLaws A}.
Context (v : OnDiskVolume) (n : Z) (i i' : FsInode) (offset stop : Z) (data : list Z) (new : list (Z * Z)).
Context (m1 m2 : BlockBitmap) (db1 tags1 db2 tags2 : gmap Z (list Z)).
Context (Hwf : vol_wf v) (Hi : ov_inodes v !! n = Some i) (Ht : fi_type i = RegularFile).
Context (Hos : 0 <= offset < stop) (Hlen : stop - offset = Z.of_nat (length data)) (Hmax : stop < 2 ^ 64).
Let first := offset / BLOCK_SIZE.
Let last := (stop - 1) / BLOCK_SIZE.
Let dropped := omap (fun kb : Z * Z => fi_blocks i !! Z.to_nat (fst kb)) new.
Context (Hks : fst <$> new = seqZ first (last - first + 1)) (Hnd : NoDup (snd <$> new)).
Context (Hfresh : forall b, b ∈ snd <$> new -> in_range (ov_bitmap v) b /\ taken (ov_bitmap v) b = false).
Context (Hm1 : forall b, taken m1 b = taken (ov_bitmap v) b || bool_decide (b ∈ snd <$> new)).
Context (Hout1 : forall b, b ∉ snd <$> new -> db1 !! b = ov_data_blocks v !! b /\ tags1 !! b = ov_tags v !! b).
Context (Hin1 : forall j k b, new !! j = Some (k, b) -> exists block tag, db1 !! b = Some block /\ tags1 !! b = Some tag /\
  compute_tag (ov_key v) b block = Done tag /\ written offset stop data k (seed_byte (old_block (ov_data_blocks v) (fi_blocks i) k)) block).
Context (Hfields : inode_fields_ok i') (Hnum : fi_number i' = fi_number i) (Hty : fi_type i' = fi_type i) (Hsz : fi_size i' = Z.max (fi_size i) stop).
Context (Hblk : forall j, fi_blocks i' !! j =
  if bool_decide (Z.to_nat first <= j < Z.to_nat first + length new)%nat then snd <$> new !! (j - Z.to_nat first)%nat
  else match fi_blocks i !! j with
       | Some b => Some b
       | None => if bool_decide (j < Z.to_nat (last + 1))%nat then Some 0 else None
       end).
Context (Hwf2 : bitmap_wf m2) (Htot2 : bm_total m2 = bm_total (ov_bitmap v)).
Context (Hdb2 : forall b, db2 !! b = if bool_decide (b ∈ dropped /\ b <> 0) then None else db1 !! b).
Context (Htags2 : forall b, tags2 !! b = if bool_decide (b ∈ dropped /\ b <> 0) then None else tags1 !! b).
Context (Hm2 : forall b, taken m2 b = taken m1 b && negb (bool_decide (b ∈ dropped /\ b <> 0))).

Let Hfw := vo_files _ Hwf.

Lemma new_length : Z.of_nat (length new) = last - first + 1 /\ 0 <= first <= last.
Proof.
  pose proof (block_order offset stop Hos) as Hord. fold first last in Hord.
  assert (length (fst <$> new) = length (seqZ first (last - first + 1))) as Hl by (by rewrite Hks).
  rewrite length_fmap, length_seqZ in Hl. lia.
Qed.

Lemma new_at k b : (exists j, new !! j = Some (k, b)) <-> first <= k <= last /\ new !! Z.to_nat (k - first) = Some (k, b).
Proof.
  destruct new_length as [Hl Hr]. assert (forall j k b, new !! j = Some (k, b) -> k = first + Z.of_nat j /\ (j < length new)%nat) as Hj.
  { intros j k0 b0 E. split; [|by eapply lookup_lt_Some]. assert ((fst <$> new) !! j = Some k0) as E' by (rewrite list_lookup_fmap, E; done).
    rewrite Hks in E'. apply lookup_seqZ in E'. lia. }
  split.
  - intros [j E]. destruct (Hj j k b E) as [-> Hlt]. split; [lia|]. by replace (Z.to_nat (first + Z.of_nat j - first)) with j by lia.
  - intros [_ E]. by eexists.
Qed.

Lemma new_exists k : first <= k <= last -> exists b, new !! Z.to_nat (k - first) = Some (k, b).
Proof.
  intros Hk. destruct new_length as [Hl Hr]. destruct (lookup_lt_is_Some_2 new (Z.to_nat (k - first))) as [[k' b] E]; [lia|].
  destruct (proj1 (new_at k' b) (ex_intro _ _ E)) as [Hk' E']. exists b.
  assert ((fst <$> new) !! Z.to_nat (k - first) = Some k') as Ef by (rewrite list_lookup_fmap, E; done).
  rewrite Hks in Ef. apply lookup_seqZ in Ef. by replace k' with k in E by lia.
Qed.

Lemma new_elem b : b ∈ snd <$> new <-> exists k, first <= k <= last /\ new !! Z.to_nat (k - first) = Some (k, b).
Proof.
  rewrite list_elem_of_fmap. split.
  - intros ([k b'] & -> & [j E]%list_elem_of_lookup). destruct (proj1 (new_at k b') (ex_intro _ _ E)) as [Hk E']. by exists k.
  - intros (k & _ & E). exists (k, b). split; [done|by eapply list_elem_of_lookup_2].
Qed.

Lemma dropped_elem b : b ∈ dropped <-> exists k, first <= k <= last /\ fi_blocks i !! Z.to_nat k = Some b.
Proof.
  unfold dropped. rewrite list_elem_of_omap. split.
  - intros ([k c] & [j E]%list_elem_of_lookup & H). destruct (proj1 (new_at k c) (ex_intro _ _ E)) as [Hk _]. by exists k.
  - intros (k & Hk & H). destruct (new_exists k Hk) as [c E]. exists (k, c). split; [by eapply list_elem_of_lookup_2|done].
Qed.

(** A referenced block is not one of the new ones. *)
Lemma ref_not_new m j b : ov_inodes v !! m = Some j -> b ∈ fi_blocks j -> b <> 0 -> b ∉ snd <$> new.
Proof.
  intros Hj Hb Hne Hin. destruct (vo_ref _ Hwf m j b Hj Hb Hne) as [block E]. destruct (vo_data _ Hwf _ _ E) as [Htk _].
  destruct (Hfresh b Hin). congruence.
Qed.

Lemma new_pos b : b ∈ snd <$> new -> 1 <= b /\ b ∉ dropped.
Proof.
  intros Hin. destruct (Hfresh b Hin) as [Hr _]. unfold in_range in Hr. split; [lia|].
  intros (k & _ & Hk)%dropped_elem. apply (ref_not_new n i b Hi); [by eapply list_elem_of_lookup_2|lia|done].
Qed.

(** Blocks of other files, and blocks of this file outside the range, stay. *)
Lemma other_block m j b : m <> n -> ov_inodes v !! m = Some j -> b ∈ fi_blocks j -> b <> 0 ->
  b ∉ dropped /\ db2 !! b = ov_data_blocks v !! b.
Proof.
  intros Hm Hj Hb Hne. assert (b ∉ dropped) as Hd.
  { intros (k & _ & Hk)%dropped_elem. apply list_elem_of_lookup in Hb as [l Hl]. by destruct (fw_disj _ _ _ _ Hfw _ _ _ _ _ _ _ Hj Hi Hl Hk Hne). }
  split; [done|]. rewrite Hdb2, bool_decide_false by naive_solver. apply Hout1. by apply (ref_not_new m j).
Qed.

Lemma kept_block k b : fi_blocks i !! k = Some b -> ~ (first <= Z.of_nat k <= last) -> b <> 0 ->
  b ∉ dropped /\ db2 !! b = ov_data_blocks v !! b.
Proof.
  intros Hk Hr Hne. destruct new_length as [_ H0]. assert (b ∉ dropped) as Hd.
  { intros (l & Hl & Hb)%dropped_elem. destruct (fw_disj _ _ _ _ Hfw _ _ _ _ _ _ _ Hi Hi Hk Hb Hne). lia. }
  split; [done|]. rewrite Hdb2, bool_decide_false by naive_solver. apply Hout1.
  apply (ref_not_new n i); [done|by eapply list_elem_of_lookup_2|done].
Qed.

Lemma new_block k b : new !! Z.to_nat (k - first) = Some (k, b) -> exists block tag, db2 !! b = Some block /\ tags2 !! b = Some tag /\
  compute_tag (ov_key v) b block = Done tag /\ written offset stop data k (seed_byte (old_block (ov_data_blocks v) (fi_blocks i) k)) block.
Proof.
  intros E. destruct (Hin1 _ _ _ E) as (block & tag & H1 & H2 & H3 & H4). exists block, tag.
  assert (b ∈ snd <$> new) as Hb by (apply list_elem_of_fmap; exists (k, b); split; [done|by eapply list_elem_of_lookup_2]).
  destruct (new_pos b Hb) as [_ Hd]. rewrite Hdb2, Htags2, !bool_decide_false by naive_solver. done.
Qed.

(** Where each pointer of the new inode comes from. *)
Lemma pointer k b : fi_blocks i' !! k = Some b -> b <> 0 ->
  (first <= Z.of_nat k <= last /\ new !! Z.to_nat (Z.of_nat k - first) = Some (Z.of_nat k, b)) \/
  (~ (first <= Z.of_nat k <= last) /\ fi_blocks i !! k = Some b).
Proof.
  destruct new_length as [Hl Hr]. rewrite Hblk. case_bool_decide as Hin; intros H Hne.
  - left. split; [lia|]. destruct (new_exists (Z.of_nat k)) as [c E]; [lia|].
    replace (k - Z.to_nat first)%nat with (Z.to_nat (Z.of_nat k - first)) in H by lia. rewrite E in H. injection H as <-. done.
  - right. split; [lia|]. destruct (fi_blocks i !! k); [done|]. case_bool_decide; congruence.
Qed.

Lemma write_bytes p : 0 <= p -> byte_at db2 (fi_blocks i') p =
  if (offset <=? p) && (p <? stop) then default 0 (data !! Z.to_nat (p - offset)) else byte_at (ov_data_blocks v) (fi_blocks i) p.
Proof.
  destruct new_length as [Hl Hr]. revert p. apply byte_at_written; [done| |]; fold first last.
  - intros k Hk. destruct (new_exists k Hk) as [b E]. destruct (new_block k b E) as (block & tag & H1 & _ & _ & Hw).
    assert (b ∈ snd <$> new) as Hb by (apply new_elem; by exists k). destruct (new_pos b Hb) as [Hb1 _].
    exists b, block. split; [|split; [lia|split; [done|]]].
    + rewrite Hblk, bool_decide_true by lia. replace (Z.to_nat k - Z.to_nat first)%nat with (Z.to_nat (k - first)) by lia. by rewrite E.
    + destruct Hw as (Hw1 & Hw2 & Hw3). split_and!; try done. intros j Hj. rewrite Hw3, byte_at_block by done.
      unfold old_block, block_byte, seed_byte. destruct (fi_blocks i !! Z.to_nat k) as [o|]; [|done]. by destruct (o =? 0).
  - intros k j Hk0 Hk Hj. rewrite !byte_at_block, Hblk by done. rewrite bool_decide_false by lia.
    destruct (fi_blocks i !! Z.to_nat k) as [b|] eqn:E; [|by case_bool_decide].
    unfold block_byte. destruct (Z.eqb_spec b 0); [done|]. destruct (kept_block (Z.to_nat k) b E) as [_ ->]; [lia|done|done].
Qed.

Lemma write_files_wf : files_wf (ov_path_map v) (<[n := i']> (ov_inodes v)) db2 (ov_next_inode v).
Proof.
  destruct new_length as [Hl Hr]. pose proof (fw_size _ _ _ _ Hfw n i Hi) as Hsi.
  eapply (update_wf _ _ _ _ Hfw n i).
  - done.
  - rewrite Hnum. apply (fw_num _ _ _ _ Hfw n i Hi).
  - lia.
  - congruence.
  - intros m j b Hm Hj Hb Hne. by apply (other_block m j).
  - intros m j k l b Hm Hj Hk Hl'. destruct (decide (b = 0)) as [|Hne]; [done|]. exfalso.
    destruct (pointer k b Hk Hne) as [[Hk1 E]|[Hk1 E]].
    + apply (ref_not_new m j b Hj); [by eapply list_elem_of_lookup_2|done|apply new_elem; by eexists].
    + by destruct (fw_disj _ _ _ _ Hfw _ _ _ _ _ _ _ Hj Hi Hl' E Hne).
  - intros k l b Hk Hl' Hne. destruct (pointer k b Hk Hne) as [[Hk1 E]|[Hk1 E]]; destruct (pointer l b Hl' Hne) as [[Hl1 E']|[Hl1 E']].
    + assert ((snd <$> new) !! Z.to_nat (Z.of_nat k - first) = Some b) as Ek by (rewrite list_lookup_fmap, E; done).
      assert ((snd <$> new) !! Z.to_nat (Z.of_nat l - first) = Some b) as El by (rewrite list_lookup_fmap, E'; done).
      pose proof (NoDup_lookup _ _ _ _ Hnd Ek El). lia.
    + exfalso. apply (ref_not_new n i b Hi); [by eapply list_elem_of_lookup_2|done|apply new_elem; by eexists].
    + exfalso. apply (ref_not_new n i b Hi); [by eapply list_elem_of_lookup_2|done|apply new_elem; by eexists].
    + by destruct (fw_disj _ _ _ _ Hfw _ _ _ _ _ _ _ Hi Hi E E' Hne).
  - intros b block Hb. destruct (decide (b ∈ snd <$> new)) as [(k & Hk & E)%new_elem|Hn].
    + destruct (new_block k b E) as (block' & tag & H1 & _ & _ & Hw). destruct Hw as (Hw1 & Hw2 & _). by assert (block' = block) as <- by congruence.
    + rewrite Hdb2 in Hb. case_bool_decide; [done|]. destruct (Hout1 b Hn) as [E _]. rewrite E in Hb. by eapply (fw_block _ _ _ _ Hfw).
  - intros p Hp. rewrite write_bytes by lia. rewrite (proj2 (Z.ltb_ge p stop)), andb_false_r by lia. apply (fw_zero _ _ _ _ Hfw n i p Hi). lia.
Qed.

Lemma write_new_content : content db2 i' = file_write offset data (content (ov_data_blocks v) i).
Proof.
  pose proof (fw_size _ _ _ _ Hfw n i Hi) as Hsi.
  apply content_write; [lia|lia| | | |lia].
  - intros ->. cbn in Hlen. lia.
  - intros p Hp. by apply (fw_zero _ _ _ _ Hfw n i).
  - intros p Hp. rewrite write_bytes by done. by replace (offset + Z.of_nat (length data)) with stop by lia.
Qed.

(** The state after the write. *)
Definition rewritten : OnDiskVolume :=
  {| ov_superblock := set_sb_free (bm_free m2) (ov_superblock v); ov_bitmap := m2;
     ov_inodes := <[n := i']> (ov_inodes v); ov_path_map := ov_path_map v; ov_data_blocks := db2; ov_tags := tags2;
     ov_key := ov_key v; ov_next_inode := ov_next_inode v |}.

(** A stored block is new, or was there and is not dropped. *)
Lemma stored_cases b block : db2 !! b = Some block ->
  (exists k, first <= k <= last /\ new !! Z.to_nat (k - first) = Some (k, b)) \/
  (b ∉ snd <$> new /\ ~ (b ∈ dropped /\ b <> 0) /\ ov_data_blocks v !! b = Some block).
Proof.
  intros Hb. destruct (decide (b ∈ snd <$> new)) as [Hin|Hn]; [left; by apply new_elem|right].
  rewrite Hdb2 in Hb. case_bool_decide; [done|]. destruct (Hout1 b Hn) as [E _]. split_and!; try done. congruence.
Qed.

Lemma rewritten_wf : vol_wf rewritten.
Proof.
  assert (forall b, structural (sb_total_blocks (ov_superblock v)) b -> b ∉ snd <$> new) as Hst.
  { intros b Hb Hin. destruct (Hfresh b Hin). rewrite (vo_struct _ Hwf b Hb) in *. done. }
  constructor; cbn; try apply Hwf; try done.
  - apply write_files_wf.
  - rewrite Htot2. apply Hwf.
  - intros b Hb. rewrite Hm2, Hm1, (vo_struct _ Hwf b Hb). cbn. rewrite bool_decide_false; [done|].
    intros [(k & _ & Hk)%dropped_elem Hne]. destruct (vo_ref _ Hwf n i b Hi) as [block Hbl]; [by eapply list_elem_of_lookup_2|done|].
    by destruct (vo_data _ Hwf b block Hbl) as (_ & Hns & _).
  - intros m j b H Hb Hne. apply lookup_insert_Some in H as [[_ <-]|[Hm H]].
    + apply list_elem_of_lookup in Hb as [k Hk]. destruct (pointer k b Hk Hne) as [[_ E]|[Hr E]].
      * destruct (new_block _ b E) as (block & tag & H1 & _). by exists block.
      * destruct (kept_block k b E Hr Hne) as [_ ->]. apply (vo_ref _ Hwf n i); [done|by eapply list_elem_of_lookup_2|done].
    + destruct (other_block m j b) as [_ ->]; try done. by apply (vo_ref _ Hwf m j).
  - intros b block Hb. destruct (stored_cases b block Hb) as [(k & Hk & E)|(Hn & Hd & E)].
    + assert (b ∈ snd <$> new) as Hin by (apply new_elem; by exists k). destruct (new_pos b Hin) as [_ Hd].
      destruct (new_block k b E) as (block' & tag & H1 & H2 & H3 & _). assert (block' = block) as -> by congruence. split; [|split].
      * rewrite Hm2, Hm1, (bool_decide_true (b ∈ _)), orb_true_r, bool_decide_false by naive_solver. done.
      * intros Hs. by apply (Hst b).
      * by exists tag.
    + destruct (vo_data _ Hwf b block E) as (H1 & H2 & tag & H3 & H4). split; [|split; [done|]].
      * by rewrite Hm2, Hm1, H1, (bool_decide_false (_ /\ _)).
      * exists tag. destruct (Hout1 b Hn) as [_ Et]. by rewrite Htags2, bool_decide_false, Et.
  - intros b tag. rewrite Htags2, Hdb2. case_bool_decide; [done|]. intros Ht'. destruct (decide (b ∈ snd <$> new)) as [(k & Hk & E)%new_elem|Hn].
    + destruct (Hin1 _ _ _ E) as (block & t & H1 & _). by exists block.
    + destruct (Hout1 b Hn) as [-> E]. rewrite E in Ht'. by apply (vo_tag _ Hwf b tag).
  - apply set_sb_free_ok; [apply Hwf|by apply free_count_u64].
  - intros m j H. apply lookup_insert_Some in H as [[_ <-]|[_ H]]; [done|by eapply (vo_fields _ Hwf)].
Qed.

Lemma rewritten_no_leak : no_leak v -> no_leak rewritten.
Proof.
  intros Hnl b Hb. cbn in *. rewrite Hm2, Hm1 in Hb. apply andb_true_iff in Hb as [Hb Hd]. apply negb_true_iff, bool_decide_eq_false in Hd.
  destruct (decide (b ∈ snd <$> new)) as [(k & Hk & E)%new_elem|Hn].
  - right. destruct (new_block k b E) as (block & tag & H1 & _). by exists block.
  - rewrite (bool_decide_false (b ∈ _)), orb_false_r in Hb by done. destruct (Hnl b Hb) as [|Hs]; [by left|right].
    rewrite Hdb2, bool_decide_false by done. by destruct (Hout1 b Hn) as [-> _].
Qed.

Lemma rewritten_tree path : ov_path_map v !! path = Some n ->
  same_tree (tree_set path (Some (FFile (file_write offset data (content (ov_data_blocks v) i)))) (vol_tree v)) (vol_tree rewritten).
Proof.
  intros Hp q. unfold vol_tree, rewritten. cbn [ov_path_map ov_inodes ov_data_blocks].
  rewrite (update_tree _ _ _ _ Hfw path n i i' db2 Hp Hi) by (intros m j b Hm Hj Hb Hne; by apply (other_block m j)).
  unfold tree_set. destruct (str_eqb q path); [|done]. unfold fnode_of. by rewrite Hty, Ht, write_new_content.
Qed.
End Write.

Section Theorems.
Context {A : Aead} {L : AeadLaws A}.

(** A write that runs out of blocks keeps what it has taken. *)
Lemma vol_write_failed v m : vol_wf v -> bitmap_wf m -> bm_total m = bm_total (ov_bitmap v) ->
  (forall b, taken (ov_bitmap v) b = true -> taken m b = true) ->
  vol_wf {| ov_superblock := ov_superblock v; ov_bitmap := m; ov_inodes := ov_inodes v; ov_path_map := ov_path_map v;
            ov_data_blocks := ov_data_blocks v; ov_tags := ov_tags v; ov_key := ov_key v; ov_next_inode := ov_next_inode v |}.
Proof.
  intros Hwf Hm Ht Hmono. constructor; cbn; try apply Hwf; try done.
  - rewrite Ht. apply Hwf.
  - intros b Hb. by apply Hmono, Hwf.
  - intros b block Hb. destruct (vo_data _ Hwf b block Hb) as (H1 & H2 & H3). split; [by apply Hmono|done].
Qed.

Lemma vol_write_spec path offset data v : vol_wf v -> 0 <= offset -> offset + Z.of_nat (length data) < 2 ^ 64 -> Forall is_u8 data ->
  exists r v', vol_write_file path offset data v = Done (r, v') /\ vol_wf v' /\
    write_ok path offset data (vol_room offset data v) (vol_tree v) r (vol_tree v') /\
    (r <> Err NoSpace -> (accounted v -> accounted v') /\ (no_leak v -> no_leak v')) /\ ov_next_inode v' = ov_next_inode v.
Proof.
  intros Hwf Ho Hov Hu. unfold vol_write_file, write_ok, vol_room. unfold vol_tree at 1.
  destruct (tree_cases _ _ _ _ (vo_files _ Hwf) path) as [[-> ->]|(n & i & Hp & Hi & ->)]; [by eexists _, _|].
  rewrite Hp, Hi. unfold fnode_of. destruct (fi_type i) eqn:Et; [|by eexists _, _].
  rewrite (bool_decide_true (RegularFile = RegularFile)) by done. cbn [negb].
  case_bool_decide as Hd; [by eexists _, _|]. assert (length data <> 0)%nat as Hl0 by (by destruct data).
  unfold saturating_add64, saturating_sub. rewrite Z.min_l by (unfold u64_max; lia). rewrite Z.max_l by lia.
  set (stop := offset + Z.of_nat (length data)) in *. assert (0 <= offset < stop) as Hos by lia.
  pose proof (block_order offset stop Hos) as Hord. set (first := offset / BLOCK_SIZE) in *. set (last := (stop - 1) / BLOCK_SIZE) in *.
  destruct (vol_alloc_loop_spec (seqZ first (last - first + 1)) (ov_bitmap v) (vo_bitmap _ Hwf)) as (r & m1 & -> & Hwf1 & Htot1 & Hspec).
  rewrite length_seqZ, Z2Nat.id in Hspec by lia. cbn [mbind run_bind]. destruct r as [new|].
  2:{ destruct Hspec as [Hlt Hmono]. eexists _, _. split; [reflexivity|]. rewrite (proj2 (Z.leb_gt _ _)) by lia.
      split_and!; try done. by apply vol_write_failed. }
  destruct Hspec as (Hks & Hnd & Hle & Hfresh & Hm1). rewrite (proj2 (Z.leb_le _ _)) by lia.
  assert (Z.of_nat (length new) = last - first + 1) as Hnl.
  { assert (length (fst <$> new) = length (seqZ first (last - first + 1))) as Hl by (by rewrite Hks). rewrite length_fmap, length_seqZ in Hl. lia. }
  destruct (vol_write_loop_spec (ov_key v) offset stop data (fi_blocks i) new (vo_key _ Hwf) Hos ltac:(lia) Hu first (ov_data_blocks v) (ov_tags v))
    as (db1 & tags1 & Hloop & Hout1 & Hin1); [unfold first; lia|by rewrite Hnl|fold last; lia|done| |apply (vo_files _ Hwf)|].
  { intros b Hb Hne. by eapply (ref_not_new v new Hwf Hfresh n i). }
  rewrite (cut_first offset stop Hos : cut offset stop first = offset), Z.sub_diag in Hloop. fold first last in Hloop. rewrite Hloop. cbn [mbind run_bind].
  destruct (repoint_inode_spec new last stop i first) as (i' & -> & Hnum & Hty & Hsz & _ & Hcr & Hmo & Hbc & _ & Hblk); [by rewrite Hnl|lia|lia|].
  cbn [mbind run_bind]. set (dropped := omap _ new).
  destruct (release_blocks_spec dropped db1 tags1 m1 Hwf1) as (db2 & tags2 & m2 & -> & Hwf2 & Htot2 & Hdb2 & Htags2 & Hm2).
  { intros b Hb. destruct (decide (b = 0)) as [->|Hne]; [lia|].
    destruct (proj1 (dropped_elem i offset stop data new Hos Hks b) Hb) as (k & _ & Hk).
    destruct (vo_ref _ Hwf n i b Hi ltac:(by eapply list_elem_of_lookup_2) Hne) as [block Hbl].
    destruct (vo_data _ Hwf b block Hbl) as [Hr%taken_range _]. unfold in_range in Hr. lia. }
  cbn [mbind run_bind]. rewrite Htot1 in Htot2.
  exists (Ok (stop - offset)), (rewritten v n i' m2 db2 tags2). split; [done|]. split.
  { apply (rewritten_wf v n i i' offset stop data new m1 m2 db1 tags1 db2 tags2); try done.
    destruct (vo_fields _ Hwf n i Hi) as (_ & ? & ?). unfold inode_fields_ok. rewrite Hcr, Hmo. done. }
  split; [|split].
  - split; [f_equal; lia|]. apply (rewritten_tree v n i i' offset stop data new m2 db1 tags1 db2 tags2); try done. lia.
  - intros _. split; [done|]. by apply (rewritten_no_leak v n i i' offset stop data new m1 m2 db1 tags1 db2 tags2).
  - done.
Qed.

Lemma vol_format_wf total : 3 <= total < 2 ^ 64 - 7 ->
  exists v, vol_format total = Done v /\ vol_wf v /\ accounted v /\ no_leak v /\ ov_next_inode v = FIRST_USER_INODE /\
    sb_total_blocks (ov_superblock v) = total /\ same_tree (tree_set (lit "/") (Some FDir) (fun _ => None)) (vol_tree v).
Proof.
  intros Ht. unfold vol_format. destruct (bitmap_new_spec total) as (m0 & -> & Hwf0 & Ht0 & Hf0 & Hn0); [lia|lia|]. cbn [mbind run_bind].
  assert (forall m (Hm : bitmap_wf m) b, in_range m b -> taken m b = false -> bm_free m <> 0) as Hav.
  { intros m Hm b Hr Hb Hz. by rewrite (proj1 (free_count_taken m Hm) Hz b Hr) in Hb. }
  destruct (bitmap_allocate_spec m0 Hwf0) as ([b1|] & m1 & -> & Hwf1 & Ht1 & H1); cbn [mbind run_bind].
  2:{ destruct H1 as [_ Hz]. exfalso. apply (Hav m0 Hwf0 1); [unfold in_range; lia|done|done]. }
  destruct H1 as (Hr1 & _ & Hlow1 & _ & Htk1). assert (b1 = 1) as ->.
  { unfold in_range in Hr1. destruct (decide (b1 = 1)) as [|]; [done|]. exfalso. assert (taken m0 1 = true) as H by (apply Hlow1; lia). by rewrite Hn0 in H. }
  destruct (bitmap_allocate_spec m1 Hwf1) as ([b2|] & m2 & -> & Hwf2 & Ht2 & H2); cbn [mbind run_bind].
  2:{ destruct H2 as [_ Hz]. exfalso. apply (Hav m1 Hwf1 2); [unfold in_range; lia| |done]. by rewrite Htk1, Hn0. }
  destruct H2 as (Hr2 & Hnt2 & Hlow2 & _ & Htk2). assert (b2 = 2) as ->.
  { unfold in_range in Hr2. rewrite Htk1, Hn0 in Hnt2. cbn in Hnt2. apply Z.eqb_neq in Hnt2. destruct (decide (b2 = 2)); [done|]. exfalso.
    assert (taken m1 2 = true) as H by (apply Hlow2; lia). by rewrite Htk1, Hn0 in H. }
  destruct (mark_allocated_spec m2 total Hwf2) as (m3 & -> & Hwf3 & Ht3 & Htk3 & _); [lia|]. cbn [mbind run_bind].
  assert (forall b, taken m3 b = true <-> structural total b) as Htk.
  { intros b. rewrite Htk3, Htk2, Htk1, Hn0. rewrite (proj2 (Z.leb_le 1 total)), (proj2 (Z.leb_le total (bm_total m2))) by lia.
    unfold structural. rewrite !andb_true_r, orb_false_l, !orb_true_iff, !Z.eqb_eq. tauto. }
  eexists. split; [reflexivity|]. set (v := {| ov_superblock := _ |}).
  assert (forall n i, ov_inodes v !! n = Some i -> n = 1 /\ i = fresh_inode 1 Directory (lit "/")) as Hino.
  { intros n i H. cbn [v ov_inodes] in H. apply lookup_singleton_Some in H as [<- <-]. done. }
  assert (forall p n, ov_path_map v !! p = Some n -> p = lit "/" /\ n = 1) as Hpa.
  { intros p n H. cbn [v ov_path_map] in H. apply lookup_singleton_Some in H as [<- <-]. done. }
  split_and!; try done.
  - constructor; cbn [v ov_superblock ov_bitmap ov_data_blocks ov_tags ov_key ov_next_inode sb_total_blocks]; try done; try (unfold FIRST_USER_INODE; lia).
    + constructor; try by intros.
      * intros p n H. apply Hpa in H as [-> ->]. cbn [v ov_inodes]. unfold ROOT_INODE_NUMBER. rewrite lookup_singleton_eq. by eexists.
      * intros p q n H H'. apply Hpa in H as [-> _], H' as [-> _]. done.
      * intros n i H. apply Hino in H as [-> ->]. cbn. unfold FIRST_USER_INODE. lia.
      * intros n i H. apply Hino in H as [-> ->]. cbn. lia.
      * intros n i H _. by apply Hino in H as [-> ->].
      * intros n m i j k l b H _ Hb. apply Hino in H as [-> ->]. done.
      * intros n i p H _. apply Hino in H as [-> ->]. done.
    + intros b Hb. by apply Htk.
    + intros n i b H Hb. apply Hino in H as [-> ->]. cbn in Hb. by apply not_elem_of_nil in Hb.
    + apply Forall_replicate. unfold is_u8. lia.
    + pose proof (free_count_u64 m3 Hwf3). unfold sb_ok, is_u32, is_u64 in *. cbn. unfold ROOT_INODE_NUMBER. split_and!; done || lia.
    + intros n i H. apply Hino in H as [-> ->]. unfold inode_fields_ok, is_u32, is_u64. cbn. lia.
  - intros b Hb. left. by apply Htk.
  - intros q. unfold tree_set. destruct (str_eqb q (lit "/")) eqn:E.
    + apply str_eqb_eq in E as ->. unfold vol_tree, tree_of. cbn [v ov_path_map ov_inodes]. by rewrite !lookup_singleton_eq.
    + unfold vol_tree, tree_of. cbn [v ov_path_map]. rewrite lookup_singleton_ne; [done|]. intros <-. by rewrite (proj2 (str_eqb_eq _ _)) in E.
Qed.
End Theorems.

(** ** Sequences of operations *)

Inductive vol_op :=
| VoCreate (path : str)
| VoWrite (path : str) (offset : Z) (data : list Z)
| VoRead (path : str) (offset count : Z)
| VoDelete (path : str)
| VoStat (path : str)
| VoList (path : str).

Inductive vol_out :=
| OInode (r : result FsError Z)
| OWritten (r : result FsError Z)
| OData (r : result FsError (list Z))
| ODeleted (r : result FsError unit)
| OStat (r : result FsError FileMetadata)
| ONames (r : result FsError (list str)).

Definition vol_op_ok (op : vol_op) : Prop :=
  match op with
  | VoWrite _ offset data => 0 <= offset /\ offset + Z.of_nat (length data) < 2 ^ 64 /\ Forall is_u8 data
  | VoRead _ offset count => 0 <= offset /\ 0 <= count /\ offset + count < 2 ^ 64
  | _ => True
  end.

Section Trace.
Context {A : Aead}.

Definition vol_step (op : vol_op) (v : OnDiskVolume) : run (vol_out * OnDiskVolume) :=
  match op with
  | VoCreate p => let '(r, v) := vol_create_file p v in Done (OInode r, v)
  | VoWrite p offset data => '(r, v) ← vol_write_file p offset data v; Done (OWritten r, v)
  | VoRead p offset count => r ← vol_read_file p offset count v; Done (OData r, v)
  | VoDelete p => '(r, v) ← vol_delete_file p v; Done (ODeleted r, v)
  | VoStat p => Done (OStat (vol_stat_file p v), v)
  | VoList p => Done (ONames (vol_list_directory p v), v)
  end.

Fixpoint vol_trace (ops : list vol_op) (v : OnDiskVolume) : run (list (vol_out * OnDiskVolume)) :=
  match ops with
  | [] => Done []
  | op :: ops => '(o, v) ← vol_step op v; tr ← vol_trace ops v; Done ((o, v) :: tr)
  end.

(** The contract of a step on the views before and after. *)
Definition vol_step_ok (op : vol_op) (v : OnDiskVolume) (o : vol_out) (v' : OnDiskVolume) : Prop :=
  let T := vol_tree v in let T' := vol_tree v' in
  match op, o with
  | VoCreate p, OInode r => create_ok p T r T'
  | VoWrite p offset data, OWritten r => write_ok p offset data (vol_room offset data v) T r T'
  | VoRead p offset count, OData r => read_ok p offset count T r /\ v' = v
  | VoDelete p, ODeleted r => delete_ok p T r T'
  | VoStat p, OStat r => stat_ok p T r /\ v' = v
  | VoList p, ONames r => list_ok p T r /\ v' = v
  | _, _ => False
  end.

Fixpoint vol_trace_ok (ops : list vol_op) (v : OnDiskVolume) (tr : list (vol_out * OnDiskVolume)) : Prop :=
  match ops, tr with
  | [], [] => True
  | op :: ops, (o, v') :: tr => vol_step_ok op v o v' /\ vol_trace_ok ops v' tr
  | _, _ => False
  end.

Context {L : AeadLaws A}.

Definition not_full (o : vol_out) : Prop := o <> OWritten (Err NoSpace).

Lemma vol_step_spec op v : vol_wf v -> vol_op_ok op -> ov_next_inode v + 1 < 2 ^ 64 ->
  exists o v', vol_step op v = Done (o, v') /\ vol_wf v' /\ vol_step_ok op v o v' /\ ov_next_inode v' <= ov_next_inode v + 1 /\
    (not_full o -> (accounted v -> accounted v') /\ (no_leak v -> no_leak v')).
Proof.
  intros Hwf Hop Hn. destruct op as [p|p offset data|p offset count|p|p|p]; cbn [vol_step].
  - destruct (vol_create_file p v) as [r v'] eqn:E. destruct (vol_create_spec p v r v' Hwf Hn E) as (H1 & H2 & H3 & H4 & H5).
    eexists _, _. split; [reflexivity|]. by split_and!.
  - destruct Hop as (H1 & H2 & H3). destruct (vol_write_spec p offset data v Hwf H1 H2 H3) as (r & v' & -> & H4 & H5 & H6 & H7).
    eexists _, _. split; [reflexivity|]. split_and!; [done|done|lia|]. intros Ho. apply H6. intros ->. by apply Ho.
  - destruct Hop as (H1 & H2 & H3). unfold vol_read_file.
    destruct (read_tree _ _ _ _ (vo_files _ Hwf) _ p offset count (vol_blocks_sound v Hwf) H1 H2 H3) as (r & -> & Hr).
    eexists _, _. split; [reflexivity|]. split_and!; try done. lia.
  - destruct (vol_delete_spec p v Hwf) as (r & v' & -> & H1 & H2 & H3 & H4 & H5).
    eexists _, _. split; [reflexivity|]. split_and!; try done. lia.
  - eexists _, _. split; [reflexivity|]. split_and!; try done; [|lia]. split; [|done]. eapply stat_tree, Hwf.
  - eexists _, _. split; [reflexivity|]. split_and!; try done; [|lia]. split; [|done]. eapply list_tree, Hwf.
Qed.

Lemma vol_trace_spec ops v : vol_wf v -> Forall vol_op_ok ops -> ov_next_inode v + Z.of_nat (length ops) < 2 ^ 64 ->
  exists tr, vol_trace ops v = Done tr /\ vol_trace_ok ops v tr /\ Forall (fun ov => vol_wf (snd ov)) tr /\
    (Forall (fun ov => not_full (fst ov)) tr -> accounted v -> Forall (fun ov => accounted (snd ov)) tr) /\
    (Forall (fun ov => not_full (fst ov)) tr -> no_leak v -> Forall (fun ov => no_leak (snd ov)) tr).
Proof.
  revert v. induction ops as [|op ops IH]; intros v Hwf Hops Hn; cbn [vol_trace length] in *; [by exists []|].
  apply Forall_cons in Hops as [Hop Hops]. destruct (vol_step_spec op v Hwf Hop ltac:(lia)) as (o & v' & -> & Hwf' & Hok & Hn' & Hk).
  cbn [mbind run_bind]. destruct (IH v' Hwf' Hops ltac:(lia)) as (tr & -> & H1 & H2 & H3 & H4). cbn [mbind run_bind].
  eexists. split; [reflexivity|]. split; [done|]. split; [by constructor|].
  split; intros [Ho Hall]%Forall_cons Ha; destruct (Hk Ho); constructor; cbn; auto.
Qed.

(** *** The checker *)

Lemma fsck_refs_spec m n blocks : bitmap_wf m -> (forall b, b ∈ blocks -> 0 <= b) ->
  exists es, fsck_refs m n blocks = Done es /\ (es = [] <-> forall b, b ∈ blocks -> taken m b = true).
Proof.
  intros Hwf. induction blocks as [|b blocks IH]; intros Hb; cbn [fsck_refs].
  - exists []. split; [done|]. split; [|done]. intros _ b Hb'. by apply not_elem_of_nil in Hb'.
  - rewrite is_allocated_spec by (done || apply Hb, list_elem_of_here). cbn [mbind run_bind].
    destruct IH as (es & -> & Hes); [intros; apply Hb; by apply list_elem_of_further|]. cbn [mbind run_bind].
    eexists. split; [reflexivity|]. destruct (taken m b) eqn:E.
    + rewrite Hes. split; intros H c Hc; [apply elem_of_cons in Hc as [->|Hc]; auto|apply H; by apply list_elem_of_further].
    + split; [done|]. intros H. by rewrite H in E by apply list_elem_of_here.
Qed.

Lemma fsck_inodes_spec m inodes : bitmap_wf m -> (forall n i b, (n, i) ∈ inodes -> b ∈ fi_blocks i -> 0 <= b) ->
  exists es, fsck_inodes m inodes = Done es /\ (es = [] <-> forall n i b, (n, i) ∈ inodes -> b ∈ fi_blocks i -> taken m b = true).
Proof.
  intros Hwf. induction inodes as [|[n i] inodes IH]; intros Hb; cbn [fsck_inodes].
  - exists []. split; [done|]. split; [|done]. intros _ n i b H. by apply not_elem_of_nil in H.
  - destruct (fsck_refs_spec m n (fi_blocks i) Hwf) as (es & -> & Hes); [intros b; apply (Hb n), list_elem_of_here|]. cbn [mbind run_bind].
    destruct IH as (es' & -> & Hes'); [intros n' i' b H; apply (Hb n' i'); by apply list_elem_of_further|]. cbn [mbind run_bind].
    eexists. split; [reflexivity|]. rewrite app_nil, Hes, Hes'. split.
    + intros [H1 H2] n' i' b Hin Hb'. apply elem_of_cons in Hin as [[= -> ->]|Hin]; [auto|by eapply H2].
    + intros H. split; [intros b; apply (H n i), list_elem_of_here|]. intros n' i' b Hin. apply (H n' i'). by apply list_elem_of_further.
Qed.

Lemma fsck_tags_spec key tags blocks : Forall is_u8 key -> (forall b tag, tags !! b = Some tag -> Z.of_nat (length tag) = TAG_LEN) ->
  (forall b data, (b, data) ∈ blocks -> Forall is_u8 data) ->
  exists es, fsck_tags key tags blocks = Done es /\
    (es = [] <-> forall b data tag, (b, data) ∈ blocks -> tags !! b = Some tag -> compute_tag key b data = Done tag).
Proof.
  intros Hk Ht. induction blocks as [|[b data] blocks IH]; intros Hu; cbn [fsck_tags].
  - exists []. split; [done|]. split; [|done]. intros _ b data tag H. by apply not_elem_of_nil in H.
  - destruct IH as (es & Ees & Hes); [intros; eapply Hu; by apply list_elem_of_further|].
    assert (exists r, tag_check key tags b data = Done r /\ (r = Ok tt <-> forall tag, tags !! b = Some tag -> compute_tag key b data = Done tag) /\
      (r = Ok tt \/ r = Err IntegrityViolation)) as (r & -> & Hr & Hcase).
    { unfold tag_check. destruct (tags !! b) as [tag|] eqn:E; [|by eexists; split; [reflexivity|]; split; [|by left]].
      destruct (verify_tag_spec key b data tag Hk (Hu b data ltac:(apply list_elem_of_here)) (Ht b tag E)) as (r & -> & Hr & Hc).
      exists r. split; [done|]. split; [|done]. rewrite Hr. split; [by intros H ? [= <-]|by intros H; apply H]. }
    cbn [mbind run_bind]. rewrite Ees. cbn [mbind run_bind]. eexists. split; [reflexivity|]. destruct Hcase as [->| ->].
    + rewrite Hes. pose proof (proj1 Hr eq_refl) as Hb. split.
      * intros H c d t Hin Hc. apply elem_of_cons in Hin as [[= -> ->]|Hin]; [by apply Hb|by eapply H].
      * intros H c d t Hin. apply H. by apply list_elem_of_further.
    + split; [done|]. intros H. assert (Err IntegrityViolation = Ok tt) as Hx; [|done]. apply Hr. intros tag. apply H, list_elem_of_here.
Qed.

Lemma sorted_pairs_elem {B} (m : gmap Z B) k x : (k, x) ∈ sorted_pairs m <-> m !! k = Some x.
Proof. unfold sorted_pairs. by rewrite merge_sort_Permutation, elem_of_map_to_list. Qed.

(** What the checker needs to run to the end. *)
Record fsck_input (v : OnDiskVolume) : Prop := {
  fk_bitmap : bitmap_wf (ov_bitmap v);
  fk_ref : forall n i b, ov_inodes v !! n = Some i -> b ∈ fi_blocks i -> 0 <= b;
  fk_key : Forall is_u8 (ov_key v);
  fk_data : forall b data, ov_data_blocks v !! b = Some data -> Forall is_u8 data;
  fk_tag : forall b tag, ov_tags v !! b = Some tag -> Z.of_nat (length tag) = TAG_LEN;
}.

Definition consistent (v : OnDiskVolume) : Prop :=
  sb_magic (ov_superblock v) = OMNI_FS_MAGIC /\ sb_version (ov_superblock v) = OMNI_FS_VERSION /\ accounted v /\
  (forall n i b, ov_inodes v !! n = Some i -> b ∈ fi_blocks i -> taken (ov_bitmap v) b = true) /\
  (forall b data tag, ov_data_blocks v !! b = Some data -> ov_tags v !! b = Some tag -> compute_tag (ov_key v) b data = Done tag).

Lemma vol_fsck_spec v : fsck_input v -> exists report, vol_fsck v = Done report /\ (is_clean report = true <-> consistent v).
Proof.
  intros [H1 H2 H3 H4 H5]. unfold vol_fsck.
  destruct (fsck_inodes_spec (ov_bitmap v) (sorted_pairs (ov_inodes v)) H1) as (refs & -> & Hrefs).
  { intros n i b H%sorted_pairs_elem. by apply (H2 n). }
  destruct (fsck_tags_spec (ov_key v) (ov_tags v) (sorted_pairs (ov_data_blocks v)) H3 H5) as (viol & -> & Hviol).
  { intros b data H%sorted_pairs_elem. by apply (H4 b). }
  cbn [mbind run_bind]. eexists. split; [reflexivity|]. unfold is_clean. cbn [fr_errors]. rewrite bool_decide_eq_true, length_zero_iff_nil.
  rewrite !app_nil, Hrefs, Hviol. unfold consistent, accounted.
  assert (forall {B} (b : bool) (x : B), (if b then [] else [x]) = [] <-> b = true) as Hif by (intros ? [] ?; done).
  rewrite !Hif, bool_decide_eq_true, !Z.eqb_eq. setoid_rewrite sorted_pairs_elem. naive_solver.
Qed.

Lemma fsck_input_wf v : vol_wf v -> fsck_input v.
Proof.
  intros Hwf. assert (forall b block, ov_data_blocks v !! b = Some block -> Forall is_u8 block) as Hu
    by (intros b block Hb; by apply (fw_block _ _ _ _ (vo_files _ Hwf) b)).
  constructor; try apply Hwf; try done.
  - intros n i b Hi Hb. destruct (decide (b = 0)) as [->|Hne]; [lia|]. destruct (vo_ref _ Hwf n i b Hi Hb Hne) as [block E].
    destruct (vo_data _ Hwf b block E) as [Hr%taken_range _]. unfold in_range in Hr. lia.
  - intros b tag Ht. destruct (vo_tag _ Hwf b tag Ht) as [block E]. destruct (vo_data _ Hwf b block E) as (_ & _ & t & Et & Hc).
    destruct (compute_tag_spec (ov_key v) b block (vo_key _ Hwf) (Hu b block E)) as (t' & Hc' & Hl & _). congruence.
Qed.

(** A volume of the invariant is consistent when it is accounted for and no
    file has a hole. *)
Lemma wf_consistent v : vol_wf v ->
  consistent v <-> accounted v /\ forall n i, ov_inodes v !! n = Some i -> 0 ∉ fi_blocks i.
Proof.
  intros Hwf. destruct (vo_sb _ Hwf) as (Hm & Hv & _). unfold consistent. split.
  - intros (_ & _ & Ha & Hr & _). split; [done|]. intros n i Hi H0. by specialize (Hr n i 0 Hi H0).
  - intros [Ha Hz]. split_and!; try done.
    + intros n i b Hi Hb. destruct (vo_ref _ Hwf n i b Hi Hb) as [block E]; [intros ->; by apply (Hz n i)|].
      by apply (vo_data _ Hwf b block).
    + intros b data tag Hd Ht. destruct (vo_data _ Hwf b data Hd) as (_ & _ & t & Et & Hc). congruence.
Qed.
End Trace.

(** ** Theorems *)

(** C16: On-disk volume: from a fresh volume, no sequence of calls panics, and
    every call acts on the files by its contract: a write changes exactly the
    bytes it covers and fills a gap with zeroes, a read returns what was last
    written there, nothing else changes, each error is the one the state calls
    for, and a write fails for lack of space, leaving every file as it was,
    exactly when fewer blocks are free than it touches. *)
Theorem volume_refines {A : Aead} {L : AeadLaws A} (total : Z) (ops : list vol_op) (Ht : 3 <= total < 2 ^ 64 - 7)
    (Hops : Forall vol_op_ok ops) (Hn : Z.of_nat (length ops) < 2 ^ 63) :
  exists v tr, vol_format total = Done v /\ same_tree (tree_set (lit "/") (Some FDir) (fun _ => None)) (vol_tree v) /\
    vol_trace ops v = Done tr /\ vol_trace_ok ops v tr.
Proof.
  destruct (vol_format_wf total Ht) as (v & Hf & Hwf & _ & _ & Hi & _ & Htree).
  destruct (vol_trace_spec ops v Hwf Hops) as (tr & Htr & Hok & _); [rewrite Hi; unfold FIRST_USER_INODE; lia|]. by exists v, tr.
Qed.

(** C27: Checker: it runs to the end on every volume and reports nothing exactly
    when the superblock is valid, the free counters agree, every block pointer
    is marked allocated and every stored tag is its block's tag; every volume
    reached from a fresh one, with no write that ran out of space, passes
    unless some file has a hole, and has no block allocated for nothing. *)
Theorem fsck_exact {A : Aead} {L : AeadLaws A} (v : OnDiskVolume) (total : Z) (ops : list vol_op) (Hv : fsck_input v)
    (Ht : 3 <= total < 2 ^ 64 - 7) (Hops : Forall vol_op_ok ops) (Hn : Z.of_nat (length ops) < 2 ^ 63) :
  (exists report, vol_fsck v = Done report /\ (is_clean report = true <-> consistent v)) /\
  exists v0 tr, vol_format total = Done v0 /\ vol_trace ops v0 = Done tr /\
    (Forall (fun ov => not_full (fst ov)) tr -> forall o v', (o, v') ∈ tr ->
       no_leak v' /\ exists report, vol_fsck v' = Done report /\
         (is_clean report = true <-> forall n i, ov_inodes v' !! n = Some i -> 0 ∉ fi_blocks i)).
Proof.
  split; [by apply vol_fsck_spec|]. destruct (vol_format_wf total Ht) as (v0 & Hf & Hwf & Ha & Hnl & Hi & _).
  destruct (vol_trace_spec ops v0 Hwf Hops) as (tr & Htr & _ & Hall & Hacc & Hleak); [rewrite Hi; unfold FIRST_USER_INODE; lia|].
  exists v0, tr. split; [done|]. split; [done|]. intros Hfull o v' Hin.
  specialize (Hacc Hfull Ha). specialize (Hleak Hfull Hnl). rewrite Forall_forall in Hall, Hacc, Hleak.
  specialize (Hall _ Hin). specialize (Hacc _ Hin). specialize (Hleak _ Hin). cbn in *. split; [done|].
  destruct (vol_fsck_spec v' (fsck_input_wf v' Hall)) as (report & -> & Hr). exists report. split; [done|].
  rewrite Hr, wf_consistent by done. tauto.
Qed.

(** ** Witnesses *)

(** A stand-in for the cipher: the message, its byte sum and the nonce. *)
Definition toy_aead : Aead := fun key nonce msg => msg ++ take 16 ((foldl Z.add 0 msg) mod 256 :: nonce ++ replicate 16 0).

Lemma toy_aead_laws : AeadLaws toy_aead.
Proof.
  constructor.
  - intros key nonce msg. unfold encrypt, toy_aead. rewrite length_app, length_take. cbn [length]. rewrite length_app, length_replicate. lia.
  - intros key nonce msg _ Hn Hm. unfold encrypt, toy_aead. apply Forall_app. split; [done|]. apply Forall_take. constructor.
    + apply Z.mod_pos_bound. lia.
    + apply Forall_app. split; [done|]. apply Forall_replicate. unfold is_u8. lia.
Qed.

Definition demo_ops : list vol_op :=
  [VoCreate (lit "/a"); VoCreate (lit "/b"); VoWrite (lit "/a") 4095 [7; 8; 9]; VoRead (lit "/a") 4094 3; VoWrite (lit "/b") 0 [1; 2];
   VoWrite (lit "/a") 4096 [5]; VoRead (lit "/a") 4094 9; VoDelete (lit "/b"); VoList (lit "/"); VoCreate (lit "/a")].

Definition demo_outs : run (list vol_out) :=
  v ← vol_format 8; tr ← vol_trace (A := toy_aead) demo_ops v; Done (map fst tr).

Example demo_volume : demo_outs = Done
  [OInode (Ok 2); OInode (Ok 3); OWritten (Ok 3); OData (Ok [0; 7; 8]); OWritten (Ok 2); OWritten (Ok 1); OData (Ok [0; 7; 5; 9]);
   ODeleted (Ok tt); ONames (Ok [lit "a"]); OInode (Err FileAlreadyExists)].
Proof. vm_compute. reflexivity. Qed.

Lemma demo_vol_ops_ok : Forall vol_op_ok demo_ops.
Proof. unfold demo_ops. repeat constructor; cbn; try lia. Qed.

Lemma volume_refines_witness : Forall vol_op_ok demo_ops /\
  exists v tr, vol_format 8 = Done v /\ same_tree (tree_set (lit "/") (Some FDir) (fun _ => None)) (vol_tree v) /\
    vol_trace (A := toy_aead) demo_ops v = Done tr /\ vol_trace_ok demo_ops v tr.
Proof.
  split; [exact demo_vol_ops_ok|].
  apply (volume_refines (A := toy_aead) (L := toy_aead_laws) 8 demo_ops); [lia|exact demo_vol_ops_ok|cbn; lia].
Defined.

Lemma fsck_exact_witness : exists v report, fsck_input v /\ vol_fsck (A := toy_aead) v = Done report /\
  (is_clean report = true <-> consistent (A := toy_aead) v).
Proof.
  destruct (vol_format_wf (A := toy_aead) 8 ltac:(lia)) as (v & _ & Hwf & _).
  pose proof (fsck_input_wf (A := toy_aead) (L := toy_aead_laws) v Hwf) as Hin.
  destruct (proj1 (fsck_exact (A := toy_aead) (L := toy_aead_laws) v 8 demo_ops Hin ltac:(lia) demo_vol_ops_ok ltac:(cbn; lia))) as (report & H1 & H2).
  by exists v, report.
Defined.

(** ** Where the volume departs from its contract *)

Definition last_report (ops : list vol_op) : run (vol_out * list FsckError) :=
  v ← vol_format 8; tr ← vol_trace (A := toy_aead) ops v;
  match last tr with
  | Some (o, v) => report ← vol_fsck (A := toy_aead) v; Done (o, fr_errors report)
  | None => Panicked
  end.

(** A write that fails for lack of space keeps the blocks it has taken: the
    bitmap no longer agrees with the superblock and no block is free. *)
Lemma failed_write_leaks : last_report [VoCreate (lit "/a"); VoWrite (lit "/a") 0 (replicate (Z.to_nat 24576) 1)] =
  Done (OWritten (Err NoSpace), [FreeBlockMismatch 5 0]).
Proof. vm_compute. reflexivity. Qed.

(** The checker reports the hole of a sparse file as a pointer to a block that
    is not allocated. *)
Lemma sparse_file_reported : last_report [VoCreate (lit "/a"); VoWrite (lit "/a") 4096 [1]] =
  Done (OWritten (Ok 1), [UnallocatedBlockReferenced 2 0]).
Proof. vm_compute. reflexivity. Qed.
