(* ===== verification/OnDiskSync.v ===== *)
(** * Serialisation of the on-disk volume (omni-fs: ondisk.rs)

    [sync_to_bytes] lays a volume out in 4 KiB blocks: superblock, bitmap,
    inode table, data blocks packed in the order of their numbers, tags.
    [mount] reads it back.  The theorem says when the round trip is exact; the
    lemmas at the end show what is lost when one of its conditions fails. *)

From Stdlib Require Import ZArith Lia String.
From stdpp Require Import base numbers list gmap sorting.
From S2P Require Import Prelude Str FsBlocks FsSpec BlockBitmap OnDisk.

(** ** Superblock *)

Definition superblock_bytes (s : Superblock) : list Z :=
  sb_magic s ++ to_le_bytes 4 (sb_version s) ++ to_le_bytes 4 (sb_block_size s) ++ to_le_bytes 8 (sb_total_blocks s) ++
  to_le_bytes 8 (sb_free_blocks s) ++ to_le_bytes 8 (sb_inode_count s) ++ to_le_bytes 8 (sb_root_inode s) ++
  to_le_bytes 8 (sb_created_at s) ++ to_le_bytes 8 (sb_aead_key_id s).

(** The little-endian field of [n] bytes at [pos]. *)
Definition le_field (block : list Z) (pos n : nat) : Z := from_le_bytes (take n (drop pos block)).

Definition parse_superblock (block : list Z) : result FsError Superblock :=
  if (length block <? 64)%nat then Err IntegrityViolation else
  let magic := take 8 block in
  if negb (bool_decide (magic = OMNI_FS_MAGIC)) then Err IntegrityViolation else
  let version := le_field block 8 4 in
  if negb (version =? OMNI_FS_VERSION) then Err IntegrityViolation else
  Ok {| sb_magic := magic; sb_version := version; sb_block_size := le_field block 12 4; sb_total_blocks := le_field block 16 8;
        sb_free_blocks := le_field block 24 8; sb_inode_count := le_field block 32 8; sb_root_inode := le_field block 40 8;
        sb_created_at := le_field block 48 8; sb_aead_key_id := le_field block 56 8 |}.

(** ** Inode table *)

Definition type_byte (t : FsFileType) : Z := match t with RegularFile => 0 | Directory => 1 end.

Definition inode_bytes (i : FsInode) : list Z :=
  to_le_bytes 8 (fi_number i) ++ [type_byte (fi_type i)] ++ replicate 7 0 ++ to_le_bytes 8 (fi_size i) ++
  to_le_bytes 4 (fi_block_count i) ++ replicate 4 0 ++ to_le_bytes 8 (fi_created i) ++ to_le_bytes 8 (fi_modified i) ++
  to_le_bytes 8 (Z.of_nat (length (fi_blocks i))) ++ concat (to_le_bytes 8 <$> fi_blocks i) ++
  to_le_bytes 2 (Z.of_nat (length (fi_name i))) ++ fi_name i.

Definition serialize_inodes (inodes : gmap Z FsInode) : list Z :=
  to_le_bytes 8 (Z.of_nat (size inodes)) ++ concat (inode_bytes <$> (snd <$> sorted_pairs inodes)).

(** [uN::from_le_bytes(data[pos..pos + n])]. *)
Definition read_uint (data : list Z) (pos n : Z) : run Z := s ← slice_run data pos (pos + n); Done (from_le_bytes s).

Fixpoint read_pointers (n : nat) (data : list Z) (pos : Z) : run (list Z * Z) :=
  match n with
  | O => Done ([], pos)
  | S n =>
      if Z.of_nat (length data) <? pos + 8 then Done ([], pos) else
      b ← read_uint data pos 8;
      '(bs, pos) ← read_pointers n data (pos + 8);
      Done (b :: bs, pos)
  end.

(** One record of the table; [None] is the loop's [break].  The capacity of a
    vector of pointers is limited to [isize::MAX] bytes. *)
Definition parse_inode (data : list Z) (pos : Z) : run (option (FsInode * Z)) :=
  let len := Z.of_nat (length data) in
  if len <? pos + 40 then Done None else
  inode_number ← read_uint data pos 8;
  file_type_byte ← read_uint data (pos + 8) 1;
  size ← read_uint data (pos + 16) 8;
  block_count ← read_uint data (pos + 24) 4;
  created ← read_uint data (pos + 32) 8;
  modified ← read_uint data (pos + 40) 8;
  if len <? pos + 56 then Done None else
  blocks_len ← read_uint data (pos + 48) 8;
  if 2 ^ 63 - 1 <? 8 * blocks_len then Panicked else
  '(blocks, pos) ← read_pointers (Z.to_nat blocks_len) data (pos + 56);
  if len <? pos + 2 then Done None else
  name_len ← read_uint data pos 2;
  if len <? pos + 2 + name_len then Done None else
  name ← slice_run data (pos + 2) (pos + 2 + name_len);
  Done (Some ({| fi_number := inode_number; fi_type := if file_type_byte =? 0 then RegularFile else Directory; fi_size := size;
                 fi_block_count := block_count; fi_created := created; fi_modified := modified; fi_blocks := blocks;
                 fi_name := from_utf8_lossy name |}, pos + 2 + name_len)).

(** The path an inode is found under after a mount. *)
Definition mounted_path (i : FsInode) : str :=
  if bool_decide (fi_type i = Directory) && str_eqb (fi_name i) (lit "/") then lit "/" else lit "/" ++ fi_name i.

Definition bump_inode (i : FsInode) (next : Z) : run Z := if next <=? fi_number i then add64 (fi_number i) 1 else Done next.

Fixpoint parse_inodes (n : nat) (data : list Z) (pos : Z) (inodes : gmap Z FsInode) (paths : gmap str Z) (next : Z)
    : run (gmap Z FsInode * gmap str Z * Z) :=
  match n with
  | O => Done (inodes, paths, next)
  | S n =>
      r ← parse_inode data pos;
      match r with
      | None => Done (inodes, paths, next)
      | Some (i, pos) =>
          next ← bump_inode i next;
          parse_inodes n data pos (<[fi_number i := i]> inodes) (<[mounted_path i := fi_number i]> paths) next
      end
  end.

Definition root_inode : FsInode := fresh_inode ROOT_INODE_NUMBER Directory (lit "/").

Definition deserialize_inodes (data : list Z) : run (gmap Z FsInode * gmap str Z * Z) :=
  if (length data <? 8)%nat then
    Done ({[ ROOT_INODE_NUMBER := root_inode ]}, {[ lit "/" := ROOT_INODE_NUMBER ]}, FIRST_USER_INODE)
  else
    '(inodes, paths, next) ← parse_inodes (Z.to_nat (le_field data 0 8)) data 8 ∅ ∅ FIRST_USER_INODE;
    match inodes !! ROOT_INODE_NUMBER with
    | Some _ => Done (inodes, paths, next)
    | None => Done (<[ROOT_INODE_NUMBER := root_inode]> inodes, <[lit "/" := ROOT_INODE_NUMBER]> paths, next)
    end.

(** ** Data blocks *)

(** The data blocks in the order of their numbers; block [n] of that order is
    physical block [3 + n], an unknown one is 0. *)
Definition block_num_to_physical (db : gmap Z (list Z)) (b : Z) : Z :=
  match list_find (fun c => c = b) (fst <$> sorted_pairs db) with Some (pos, _) => 3 + Z.of_nat pos | None => 0 end.

Fixpoint write_data_blocks (db : gmap Z (list Z)) (blocks : list (Z * list Z)) (total : Z) (out : list Z) : run (list Z) :=
  match blocks with
  | [] => Done out
  | (b, data) :: blocks =>
      let phys := block_num_to_physical db b in
      out ← (if (0 <? phys) && (phys <? total - 1) then copy_at out (phys * BLOCK_SIZE) (take (Z.to_nat BLOCK_SIZE) data) else Done out);
      write_data_blocks db blocks total out
  end.

(** [(3..total_blocks).filter(is_allocated)]. *)
Fixpoint allocated_blocks (m : BlockBitmap) (bs : list Z) : run (list Z) :=
  match bs with
  | [] => Done []
  | b :: bs => a ← is_allocated m b; rest ← allocated_blocks m bs; Done (if a : bool then b :: rest else rest)
  end.

Fixpoint read_data_blocks (raw : list Z) (byte_pos data_end : Z) (bs : list Z) (res : gmap Z (list Z)) : run (gmap Z (list Z)) :=
  match bs with
  | [] => Done res
  | b :: bs =>
      if data_end <? byte_pos + BLOCK_SIZE then Done res else
      block ← slice_run raw byte_pos (byte_pos + BLOCK_SIZE);
      read_data_blocks raw (byte_pos + BLOCK_SIZE) data_end bs (<[b := block]> res)
  end.

Definition deserialize_data_blocks (raw : list Z) (data_start data_end : Z) (m : BlockBitmap) (total : Z) : run (gmap Z (list Z)) :=
  bs ← allocated_blocks m (seqZ 3 (total - 3));
  read_data_blocks raw data_start data_end bs ∅.

(** ** Integrity tags *)

Definition INTEGRITY_ENTRY_SIZE : Z := 8 + TAG_LEN.

Fixpoint write_integrity_tags (tags : list (Z * list Z)) (pos : Z) (block : list Z) : run (list Z) :=
  match tags with
  | [] => Done block
  | (b, tag) :: tags =>
      if BLOCK_SIZE <? pos + INTEGRITY_ENTRY_SIZE then Done block else
      block ← copy_at block pos (to_le_bytes 8 b ++ tag);
      write_integrity_tags tags (pos + INTEGRITY_ENTRY_SIZE) block
  end.

(** [while pos + INTEGRITY_ENTRY_SIZE <= block.len()]: each round takes an
    entry, so as many rounds as bytes are enough. *)
Fixpoint read_integrity_tags (fuel : nat) (block : list Z) (pos : Z) (res : gmap Z (list Z)) : run (gmap Z (list Z)) :=
  match fuel with
  | O => Done res
  | S fuel =>
      if Z.of_nat (length block) <? pos + INTEGRITY_ENTRY_SIZE then Done res else
      b ← read_uint block pos 8;
      if b =? 0 then Done res else
      tag ← slice_run block (pos + 8) (pos + INTEGRITY_ENTRY_SIZE);
      read_integrity_tags fuel block (pos + INTEGRITY_ENTRY_SIZE) (<[b := tag]> res)
  end.

Definition deserialize_integrity_tags (block : list Z) : run (gmap Z (list Z)) :=
  read_integrity_tags (length block) block 0 ∅.

(** ** The volume *)

Definition sync_to_bytes (v : OnDiskVolume) : run (list Z) :=
  let total := sb_total_blocks (ov_superblock v) in
  bytes ← mul64 total BLOCK_SIZE;
  let out := replicate (Z.to_nat bytes) 0 in
  out ← copy_at out 0 (superblock_bytes (ov_superblock v));
  out ← (if 1 <? total then copy_at out BLOCK_SIZE (take (Z.to_nat BLOCK_SIZE) (bm_bits (ov_bitmap v))) else Done out);
  out ← (if 2 <? total then copy_at out (2 * BLOCK_SIZE) (take (Z.to_nat BLOCK_SIZE) (serialize_inodes (ov_inodes v))) else Done out);
  out ← (if 4 <? total then write_data_blocks (ov_data_blocks v) (sorted_pairs (ov_data_blocks v)) total out else Done out);
  if 1 <=? total then
    let tag_start := (total - 1) * BLOCK_SIZE in
    block ← slice_run out tag_start (tag_start + BLOCK_SIZE);
    block ← write_integrity_tags (sorted_pairs (ov_tags v)) 0 block;
    copy_at out tag_start block
  else Done out.

Definition mount (raw : list Z) : run (result FsError OnDiskVolume) :=
  let len := Z.of_nat (length raw) in
  if len <? BLOCK_SIZE then Done (Err IntegrityViolation) else
  first ← slice_run raw 0 BLOCK_SIZE;
  match parse_superblock first with
  | Err e => Done (Err e)
  | Ok sb =>
      let total := sb_total_blocks sb in
      bytes ← mul64 total BLOCK_SIZE;
      if len <? bytes then Done (Err IntegrityViolation) else
      bitmap_bytes ← slice_run raw BLOCK_SIZE (Z.min (2 * BLOCK_SIZE) len);
      bitmap ← bitmap_from_bytes bitmap_bytes total;
      match bitmap with
      | None => Done (Err IntegrityViolation)
      | Some m =>
          table ← slice_run raw (2 * BLOCK_SIZE) (Z.min (3 * BLOCK_SIZE) len);
          '(inodes, paths, next) ← deserialize_inodes table;
          tags ← (if 1 <=? total then
                    let tag_start := (total - 1) * BLOCK_SIZE in
                    if tag_start + BLOCK_SIZE <=? len then
                      block ← slice_run raw tag_start (tag_start + BLOCK_SIZE); deserialize_integrity_tags block
                    else Done ∅
                  else Done ∅);
          db ← (if 4 <? total then deserialize_data_blocks raw (3 * BLOCK_SIZE) ((total - 1) * BLOCK_SIZE) m total else Done ∅);
          Done (Ok {| ov_superblock := sb; ov_bitmap := m; ov_inodes := inodes; ov_path_map := paths; ov_data_blocks := db;
                      ov_tags := tags; ov_key := replicate 32 0; ov_next_inode := next |})
      end
  end.

(** ** What a round trip needs *)

Definition set_next_inode (n : Z) (v : OnDiskVolume) : OnDiskVolume :=
  {| ov_superblock := ov_superblock v; ov_bitmap := ov_bitmap v; ov_inodes := ov_inodes v; ov_path_map := ov_path_map v;
     ov_data_blocks := ov_data_blocks v; ov_tags := ov_tags v; ov_key := ov_key v; ov_next_inode := n |}.

(** Every region fits its place on the disk, and every file lies directly in
    the root directory under its name. *)
Record persistable (v : OnDiskVolume) : Prop := {
  pe_total : 5 <= sb_total_blocks (ov_superblock v) <= 32768;
  pe_data : Z.of_nat (size (ov_data_blocks v)) <= sb_total_blocks (ov_superblock v) - 4;
  pe_tags : Z.of_nat (size (ov_data_blocks v)) <= 170;
  pe_table : Z.of_nat (length (serialize_inodes (ov_inodes v))) <= BLOCK_SIZE;
  pe_name : forall n i, ov_inodes v !! n = Some i -> utf8_valid (fi_name i) = true;
  pe_path : forall n i, ov_inodes v !! n = Some i -> ov_path_map v !! mounted_path i = Some n;
  pe_root : is_Some (ov_inodes v !! ROOT_INODE_NUMBER);
  pe_key : ov_key v = replicate 32 0;
}.

(** ** Lemmas on fields and slices *)

Lemma slice_in (l : list Z) a b : 0 <= a <= b -> b <= Z.of_nat (length l) ->
  slice_run l a b = Done (take (Z.to_nat (b - a)) (drop (Z.to_nat a) l)).
Proof. intros Ha Hb. unfold slice_run, slice_get. by rewrite (proj2 (Z.leb_le a b)), (proj2 (Z.leb_le b _)) by lia. Qed.

(** A field of what follows a prefix. *)
Lemma read_uint_field pre r o n : 0 <= o -> 0 <= n -> o + n <= Z.of_nat (length r) ->
  read_uint (pre ++ r) (Z.of_nat (length pre) + o) n = Done (le_field r (Z.to_nat o) (Z.to_nat n)).
Proof.
  intros Ho Hn H. unfold read_uint. rewrite slice_in by (rewrite ?length_app; lia). cbn [mbind run_bind]. unfold le_field. do 2 f_equal.
  rewrite drop_app_ge by lia. f_equal; [lia|]. f_equal. lia.
Qed.

Lemma le_roundtrip n x : 0 <= x < 2 ^ (8 * Z.of_nat n) -> from_le_bytes (to_le_bytes n x) = x.
Proof. intros H. rewrite from_to_le_bytes. by apply Z.mod_small. Qed.

Lemma superblock_bytes_length s : sb_ok s -> length (superblock_bytes s) = 64%nat.
Proof. intros (Hm & _). unfold superblock_bytes. by rewrite Hm. Qed.

Lemma superblock_roundtrip s pad : sb_ok s -> parse_superblock (superblock_bytes s ++ pad) = Ok s.
Proof.
  intros Hs. pose proof (superblock_bytes_length s Hs) as Hl. destruct Hs as (Hm & Hv & H1 & H2 & H3 & H4 & H5 & H6 & H7).
  unfold parse_superblock. rewrite length_app, Hl. replace (64 + length pad <? 64)%nat with false by (symmetry; apply Nat.ltb_ge; lia).
  destruct s as [magic version bs total free count root created key]. cbn [sb_magic sb_version sb_block_size sb_total_blocks
    sb_free_blocks sb_inode_count sb_root_inode sb_created_at sb_aead_key_id] in *. subst magic version.
  set (s := {| sb_magic := _ |}).
  change (take 8 (superblock_bytes s ++ pad)) with OMNI_FS_MAGIC. rewrite bool_decide_true by done. cbn [negb].
  change (le_field (superblock_bytes s ++ pad) 8 4) with (from_le_bytes (to_le_bytes 4 OMNI_FS_VERSION)).
  change (le_field (superblock_bytes s ++ pad) 12 4) with (from_le_bytes (to_le_bytes 4 bs)).
  change (le_field (superblock_bytes s ++ pad) 16 8) with (from_le_bytes (to_le_bytes 8 total)).
  change (le_field (superblock_bytes s ++ pad) 24 8) with (from_le_bytes (to_le_bytes 8 free)).
  change (le_field (superblock_bytes s ++ pad) 32 8) with (from_le_bytes (to_le_bytes 8 count)).
  change (le_field (superblock_bytes s ++ pad) 40 8) with (from_le_bytes (to_le_bytes 8 root)).
  change (le_field (superblock_bytes s ++ pad) 48 8) with (from_le_bytes (to_le_bytes 8 created)).
  change (le_field (superblock_bytes s ++ pad) 56 8) with (from_le_bytes (to_le_bytes 8 key)).
  unfold is_u32, is_u64 in *. rewrite !le_roundtrip by (done || lia). done.
Qed.

(** ** Lemmas on the inode table *)

Lemma read_pointers_spec bs pre post : Forall is_u64 bs ->
  read_pointers (length bs) (pre ++ concat (to_le_bytes 8 <$> bs) ++ post) (Z.of_nat (length pre)) =
  Done (bs, Z.of_nat (length pre) + 8 * Z.of_nat (length bs)).
Proof.
  intros Hbs. revert pre. induction Hbs as [|b bs Hb _ IH]; intros pre.
  { cbn [read_pointers length]. do 2 f_equal. lia. }
  cbn [read_pointers length]. rewrite fmap_cons. cbn [concat]. rewrite <- app_assoc.
  rewrite (proj2 (Z.ltb_ge _ _)) by (rewrite !length_app, to_le_bytes_length; lia).
  assert (read_uint (pre ++ to_le_bytes 8 b ++ concat (to_le_bytes 8 <$> bs) ++ post) (Z.of_nat (length pre)) 8 = Done b) as ->.
  { pose proof (read_uint_field pre (to_le_bytes 8 b ++ concat (to_le_bytes 8 <$> bs) ++ post) 0 8) as H.
    rewrite Z.add_0_r in H. rewrite H by (rewrite ?length_app, ?to_le_bytes_length; lia). f_equal.
    change (le_field (to_le_bytes 8 b ++ concat (to_le_bytes 8 <$> bs) ++ post) (Z.to_nat 0) (Z.to_nat 8)) with (from_le_bytes (to_le_bytes 8 b)).
    by apply le_roundtrip. }
  cbn [mbind run_bind]. specialize (IH (pre ++ to_le_bytes 8 b)). rewrite <- app_assoc in IH.
  rewrite length_app, to_le_bytes_length in IH. replace (Z.of_nat (length pre + 8)) with (Z.of_nat (length pre) + 8) in IH by lia.
  rewrite IH. cbn [mbind run_bind]. do 2 f_equal. lia.
Qed.

(** The fixed part of a record. *)
Definition inode_head (i : FsInode) : list Z :=
  to_le_bytes 8 (fi_number i) ++ [type_byte (fi_type i)] ++ replicate 7 0 ++ to_le_bytes 8 (fi_size i) ++
  to_le_bytes 4 (fi_block_count i) ++ replicate 4 0 ++ to_le_bytes 8 (fi_created i) ++ to_le_bytes 8 (fi_modified i) ++
  to_le_bytes 8 (Z.of_nat (length (fi_blocks i))).

Lemma inode_bytes_split i : inode_bytes i = inode_head i ++ concat (to_le_bytes 8 <$> fi_blocks i) ++
  to_le_bytes 2 (Z.of_nat (length (fi_name i))) ++ fi_name i.
Proof. unfold inode_bytes, inode_head. by rewrite <- !app_assoc. Qed.

Lemma pointers_length bs : length (concat (to_le_bytes 8 <$> bs)) = (8 * length bs)%nat.
Proof. induction bs as [|b bs IH]; [done|]. rewrite fmap_cons. cbn [concat length]. rewrite length_app, to_le_bytes_length, IH. lia. Qed.

Lemma inode_bytes_length i : length (inode_bytes i) = (58 + 8 * length (fi_blocks i) + length (fi_name i))%nat.
Proof. rewrite inode_bytes_split, !length_app, pointers_length, to_le_bytes_length. change (length (inode_head i)) with 56%nat. lia. Qed.

(** What a record can hold. *)
Record inode_ok (i : FsInode) : Prop := {
  io_number : is_u64 (fi_number i);
  io_size : is_u64 (fi_size i);
  io_fields : inode_fields_ok i;
  io_blocks : Forall is_u64 (fi_blocks i);
  io_name : utf8_valid (fi_name i) = true;
}.

Lemma parse_inode_spec i pre post : inode_ok i -> Z.of_nat (length (pre ++ inode_bytes i ++ post)) <= BLOCK_SIZE ->
  parse_inode (pre ++ inode_bytes i ++ post) (Z.of_nat (length pre)) = Done (Some (i, Z.of_nat (length pre + length (inode_bytes i)))).
Proof.
  intros [Hn Hs (Hc & Hcr & Hmo) Hb Hname] Hlen. pose proof (inode_bytes_length i) as Hil. unfold BLOCK_SIZE in Hlen.
  set (ptrs := concat (to_le_bytes 8 <$> fi_blocks i)). set (tail := to_le_bytes 2 (Z.of_nat (length (fi_name i))) ++ fi_name i).
  set (r := inode_head i ++ ptrs ++ tail ++ post).
  assert (pre ++ inode_bytes i ++ post = pre ++ r) as Hr by (rewrite inode_bytes_split; unfold r, tail, ptrs; by rewrite <- !app_assoc).
  assert (length r = length (inode_bytes i) + length post)%nat as Hrl.
  { rewrite !length_app in Hlen. apply (f_equal length) in Hr. rewrite !length_app in Hr. lia. }
  rewrite Hr in *. rewrite length_app in Hlen. unfold parse_inode.
  assert (forall o n, 0 <= o -> 0 <= n -> o + n <= 56 ->
    read_uint (pre ++ r) (Z.of_nat (length pre) + o) n = Done (le_field r (Z.to_nat o) (Z.to_nat n))) as Hfield
    by (intros o n Ho Hn' Hon; apply read_uint_field; lia).
  rewrite !length_app. rewrite (proj2 (Z.ltb_ge _ (_ + 40))) by lia.
  pose proof (Hfield 0 8) as E0. rewrite Z.add_0_r in E0. rewrite E0 by lia. cbn [mbind run_bind].
  rewrite (Hfield 8 1) by lia. cbn [mbind run_bind].
  rewrite (Hfield 16 8) by lia. cbn [mbind run_bind].
  rewrite (Hfield 24 4) by lia. cbn [mbind run_bind].
  rewrite (Hfield 32 8) by lia. cbn [mbind run_bind].
  rewrite (Hfield 40 8) by lia. cbn [mbind run_bind].
  rewrite (proj2 (Z.ltb_ge _ (_ + 56))) by lia.
  rewrite (Hfield 48 8) by lia. cbn [mbind run_bind].
  change (le_field r (Z.to_nat 0) (Z.to_nat 8)) with (from_le_bytes (to_le_bytes 8 (fi_number i))).
  change (le_field r (Z.to_nat 8) (Z.to_nat 1)) with (type_byte (fi_type i) + 256 * 0).
  change (le_field r (Z.to_nat 16) (Z.to_nat 8)) with (from_le_bytes (to_le_bytes 8 (fi_size i))).
  change (le_field r (Z.to_nat 24) (Z.to_nat 4)) with (from_le_bytes (to_le_bytes 4 (fi_block_count i))).
  change (le_field r (Z.to_nat 32) (Z.to_nat 8)) with (from_le_bytes (to_le_bytes 8 (fi_created i))).
  change (le_field r (Z.to_nat 40) (Z.to_nat 8)) with (from_le_bytes (to_le_bytes 8 (fi_modified i))).
  change (le_field r (Z.to_nat 48) (Z.to_nat 8)) with (from_le_bytes (to_le_bytes 8 (Z.of_nat (length (fi_blocks i))))).
  unfold is_u64, is_u32 in *. rewrite !le_roundtrip by (cbn; lia). rewrite (proj2 (Z.ltb_ge _ _)) by lia. rewrite Nat2Z.id.
  pose proof (read_pointers_spec (fi_blocks i) (pre ++ inode_head i) (tail ++ post) Hb) as Hp. rewrite <- app_assoc in Hp.
  fold ptrs in Hp. fold r in Hp. rewrite length_app in Hp. change (length (inode_head i)) with 56%nat in Hp.
  replace (Z.of_nat (length pre + 56)) with (Z.of_nat (length pre) + 56) in Hp by lia. rewrite Hp. cbn [mbind run_bind].
  rewrite (proj2 (Z.ltb_ge _ _)) by lia.
  assert (pre ++ r = (pre ++ inode_head i ++ ptrs) ++ tail ++ post) as Hr2 by (unfold r; by rewrite <- !app_assoc).
  assert (length (pre ++ inode_head i ++ ptrs) = length pre + 56 + 8 * length (fi_blocks i))%nat as Hpl.
  { rewrite !length_app. unfold ptrs. rewrite pointers_length. change (length (inode_head i)) with 56%nat. lia. }
  assert (read_uint (pre ++ r) (Z.of_nat (length pre) + 56 + 8 * Z.of_nat (length (fi_blocks i))) 2 = Done (Z.of_nat (length (fi_name i)))) as ->.
  { rewrite Hr2. pose proof (read_uint_field (pre ++ inode_head i ++ ptrs) (tail ++ post) 0 2) as Hq. rewrite Hpl in Hq.
    replace (Z.of_nat (length pre + 56 + 8 * length (fi_blocks i)) + 0) with
      (Z.of_nat (length pre) + 56 + 8 * Z.of_nat (length (fi_blocks i))) in Hq by lia.
    rewrite Hq by (unfold tail; rewrite ?length_app, ?to_le_bytes_length; lia). f_equal.
    change (le_field (tail ++ post) (Z.to_nat 0) (Z.to_nat 2)) with (from_le_bytes (to_le_bytes 2 (Z.of_nat (length (fi_name i))))). apply le_roundtrip. cbn. lia. }
  cbn [mbind run_bind]. rewrite (proj2 (Z.ltb_ge _ _)) by lia. rewrite slice_in by (rewrite ?length_app; lia). cbn [mbind run_bind].
  rewrite Hr2. rewrite drop_app_ge by lia. rewrite Hpl. unfold tail. rewrite <- app_assoc.
  replace (Z.to_nat _ - _)%nat with 2%nat at 1 by lia. rewrite (drop_app_length' (to_le_bytes 2 _)) by (by rewrite to_le_bytes_length).
  rewrite take_app_length' by lia. rewrite from_utf8_lossy_valid by done.
  do 3 f_equal; [|lia]. destruct i as [nu ty si bc cr mo bl na]. cbn in *. f_equal. by destruct ty.
Qed.

Definition bumped (nodes : list FsInode) (next : Z) : Z := foldl (fun nx i => if nx <=? fi_number i then fi_number i + 1 else nx) next nodes.

Lemma parse_inodes_spec nodes pre post inodes paths next : Forall inode_ok nodes ->
  Forall (fun i => fi_number i + 1 < 2 ^ 64) nodes -> Z.of_nat (length (pre ++ concat (inode_bytes <$> nodes) ++ post)) <= BLOCK_SIZE ->
  parse_inodes (length nodes) (pre ++ concat (inode_bytes <$> nodes) ++ post) (Z.of_nat (length pre)) inodes paths next =
  Done (foldl (fun m i => <[fi_number i := i]> m) inodes nodes, foldl (fun m i => <[mounted_path i := fi_number i]> m) paths nodes,
        bumped nodes next).
Proof.
  revert pre inodes paths next. induction nodes as [|i nodes IH]; intros pre inodes paths next Hok Hnum Hlen; [done|].
  apply Forall_cons in Hok as [Hi Hok]. apply Forall_cons in Hnum as [Hn Hnum].
  rewrite fmap_cons in *. cbn [concat length parse_inodes] in *. rewrite <- app_assoc in *.
  rewrite parse_inode_spec by done. cbn [mbind run_bind].
  assert (bump_inode i next = Done (if next <=? fi_number i then fi_number i + 1 else next)) as ->.
  { unfold bump_inode. destruct (next <=? fi_number i); [|done]. by apply add64_done. }
  cbn [mbind run_bind]. specialize (IH (pre ++ inode_bytes i)). rewrite <- app_assoc in IH.
  rewrite <- length_app, IH by done. done.
Qed.

(** ** Lemmas on maps rebuilt from lists *)

Lemma fold_insert_spec {K V B} `{Countable K} (f : B -> K) (g : B -> V) (l : list B) (m : gmap K V) k v : NoDup (f <$> l) ->
  foldl (fun m x => <[f x := g x]> m) m l !! k = Some v <->
  (exists x, x ∈ l /\ f x = k /\ g x = v) \/ (k ∉ f <$> l /\ m !! k = Some v).
Proof.
  revert m. induction l as [|x l IH]; intros m Hnd; cbn [foldl].
  - split; [intros Hm; right; split; [apply not_elem_of_nil|done]|]. intros [(y & Hy & _)|[_ Hm]]; [by apply not_elem_of_nil in Hy|done].
  - rewrite fmap_cons in *. apply NoDup_cons in Hnd as [Hx Hnd]. rewrite IH by done. split.
    + intros [(y & Hy & H1 & H2)|[Hk Hm]]; [left; exists y; split; [by apply list_elem_of_further|done]|].
      apply lookup_insert_Some in Hm as [[<- <-]|[Hne Hm]]; [left; exists x; split; [apply list_elem_of_here|done]|right].
      split; [|done]. rewrite not_elem_of_cons. split; [congruence|done].
    + intros [(y & Hy & H1 & H2)|[Hk Hm]].
      * apply elem_of_cons in Hy as [->|Hy]; [right|left; by exists y]. subst k v. split; [done|]. apply lookup_insert_eq.
      * apply not_elem_of_cons in Hk as [Hne Hk]. right. split; [done|]. rewrite lookup_insert_ne by congruence. done.
Qed.

(** Rebuilding a map from a list that describes it. *)
Lemma fold_insert_eq {K V B} `{Countable K} (f : B -> K) (g : B -> V) (l : list B) (m : gmap K V) : NoDup (f <$> l) ->
  (forall k v, m !! k = Some v <-> exists x, x ∈ l /\ f x = k /\ g x = v) -> foldl (fun m x => <[f x := g x]> m) ∅ l = m.
Proof.
  intros Hnd Hm. apply map_eq. intros k. apply option_eq. intros v. rewrite fold_insert_spec, Hm by done.
  split; [|by left]. intros [Hx|[_ He]]; [done|]. by rewrite lookup_empty in He.
Qed.

Section Sorted.
Context {V : Type}.

#[local] Instance pair_le_trans : Transitive (@pair_le V).
Proof. intros x y z. unfold pair_le. lia. Qed.
#[local] Instance pair_le_total : Total (@pair_le V).
Proof. intros x y. unfold pair_le. lia. Qed.

Lemma sorted_pairs_keys (m : gmap Z V) : NoDup (fst <$> sorted_pairs m) /\ StronglySorted Z.le (fst <$> sorted_pairs m) /\
  length (sorted_pairs m) = size m.
Proof.
  unfold sorted_pairs. split; [|split].
  - rewrite merge_sort_Permutation. apply NoDup_fst_map_to_list.
  - pose proof (StronglySorted_merge_sort pair_le (map_to_list m)) as Hs. induction Hs as [|x l _ IH Hf]; [constructor|].
    rewrite fmap_cons. constructor; [done|]. by apply Forall_fmap.
  - by rewrite merge_sort_Permutation, length_map_to_list.
Qed.

Lemma sorted_pairs_fold (m : gmap Z V) : foldl (fun m x => <[fst x := snd x]> m) ∅ (sorted_pairs m) = m.
Proof.
  apply fold_insert_eq; [apply sorted_pairs_keys|]. intros k v. rewrite <- sorted_pairs_elem. split.
  - intros H. by exists (k, v).
  - intros ([k' v'] & H & <- & <-). done.
Qed.
End Sorted.

(** ** Lemmas on the tag block *)

Definition tag_entry (x : Z * list Z) : list Z := to_le_bytes 8 (fst x) ++ snd x.

Definition tag_pair_ok (x : Z * list Z) : Prop := 0 < fst x < 2 ^ 64 /\ Z.of_nat (length (snd x)) = TAG_LEN.

Lemma tag_entry_length x : tag_pair_ok x -> Z.of_nat (length (tag_entry x)) = INTEGRITY_ENTRY_SIZE.
Proof. intros [_ H]. unfold tag_entry, INTEGRITY_ENTRY_SIZE. rewrite length_app, to_le_bytes_length. lia. Qed.

Lemma write_tags_spec tags a n : Forall tag_pair_ok tags -> Z.of_nat (length a + n) = BLOCK_SIZE ->
  24 * Z.of_nat (length tags) <= Z.of_nat n ->
  write_integrity_tags tags (Z.of_nat (length a)) (a ++ replicate n 0) =
  Done (a ++ concat (tag_entry <$> tags) ++ replicate (n - 24 * length tags) 0).
Proof.
  intros Hok. revert a n. induction Hok as [|x tags Hx _ IH]; intros a n Hlen Hn.
  { cbn. do 3 f_equal. lia. }
  pose proof (tag_entry_length x Hx) as Hl. unfold INTEGRITY_ENTRY_SIZE, TAG_LEN, BLOCK_SIZE in *.
  rewrite fmap_cons. cbn [write_integrity_tags concat length] in *. destruct x as [b tag]. unfold BLOCK_SIZE, INTEGRITY_ENTRY_SIZE, TAG_LEN.
  rewrite (proj2 (Z.ltb_ge _ _)) by lia. change (to_le_bytes 8 b ++ tag) with (tag_entry (b, tag)). rewrite copy_at_app by lia. cbn [mbind run_bind].
  specialize (IH (a ++ tag_entry (b, tag)) (n - length (tag_entry (b, tag)))%nat). rewrite <- app_assoc, length_app in IH.
  replace (Z.of_nat (length a + length (tag_entry (b, tag)))) with (Z.of_nat (length a) + (8 + 16)) in IH by lia.
  rewrite IH by (unfold BLOCK_SIZE; lia). rewrite <- !app_assoc. do 5 f_equal. lia.
Qed.

Lemma read_tags_spec tags fuel a n res : Forall tag_pair_ok tags -> (length tags < fuel)%nat ->
  read_integrity_tags fuel (a ++ concat (tag_entry <$> tags) ++ replicate n 0) (Z.of_nat (length a)) res =
  Done (foldl (fun m x => <[fst x := snd x]> m) res tags).
Proof.
  intros Hok. revert fuel a res. induction Hok as [|x tags Hx _ IH]; intros fuel a res Hf; (destruct fuel as [|fuel]; [cbn in Hf; lia|]);
    cbn [read_integrity_tags].
  - cbn [fmap list_fmap concat app foldl]. destruct (Z.ltb_spec (Z.of_nat (length (a ++ replicate n 0))) (Z.of_nat (length a) + INTEGRITY_ENTRY_SIZE)) as [|Hge]; [done|].
    rewrite length_app, length_replicate in Hge. unfold INTEGRITY_ENTRY_SIZE, TAG_LEN in Hge.
    pose proof (read_uint_field a (replicate n 0) 0 8) as Hr. rewrite Z.add_0_r in Hr. rewrite Hr by (rewrite ?length_replicate; lia).
    cbn [mbind run_bind]. unfold le_field. change (drop (Z.to_nat 0) (replicate n 0)) with (replicate n 0). rewrite take_replicate, Nat.min_l by lia. done.
  - pose proof (tag_entry_length x Hx) as Hl. pose proof Hx as [Hb Ht]. destruct x as [b tag]. cbn [fst snd] in Hb, Ht.
    rewrite fmap_cons. cbn [concat foldl length] in *. rewrite <- app_assoc.
    rewrite (proj2 (Z.ltb_ge _ _)) by (rewrite !length_app; lia).
    pose proof (read_uint_field a (tag_entry (b, tag) ++ concat (tag_entry <$> tags) ++ replicate n 0) 0 8) as Hr. rewrite Z.add_0_r in Hr.
    unfold INTEGRITY_ENTRY_SIZE, TAG_LEN in *. rewrite Hr by (rewrite ?length_app; lia). cbn [mbind run_bind].
    change (le_field (tag_entry (b, tag) ++ concat (tag_entry <$> tags) ++ replicate n 0) (Z.to_nat 0) (Z.to_nat 8))
      with (from_le_bytes (to_le_bytes 8 b)). rewrite le_roundtrip by (cbn; lia). rewrite (proj2 (Z.eqb_neq b 0)) by lia.
    rewrite slice_in by (rewrite ?length_app; lia). cbn [mbind run_bind].
    replace (Z.of_nat (length a) + (8 + 16)) with (Z.of_nat (length (a ++ tag_entry (b, tag)))) by (rewrite length_app; lia).
    rewrite app_assoc. rewrite IH by lia. do 2 f_equal. cbn [fst snd]. f_equal. rewrite <- app_assoc. unfold tag_entry at 2. cbn [fst snd].
    rewrite drop_app_ge by lia. replace (Z.to_nat (Z.of_nat (length a) + 8) - length a)%nat with 8%nat by lia.
    rewrite <- app_assoc, drop_app_length' by (by rewrite to_le_bytes_length). apply take_app_length'.
    rewrite length_app. lia.
Qed.

(** ** Lemmas on the sequence of blocks *)

Definition whole (bs : list (list Z)) : Prop := Forall (fun b => Z.of_nat (length b) = BLOCK_SIZE) bs.

Lemma concat_length bs : whole bs -> Z.of_nat (length (concat bs)) = BLOCK_SIZE * Z.of_nat (length bs).
Proof. induction 1 as [|b bs Hb _ IH]; [done|]. cbn [concat length]. rewrite length_app. lia. Qed.

Lemma concat_at bs k b : whole bs -> bs !! k = Some b ->
  concat bs = concat (take k bs) ++ b ++ concat (drop (S k) bs) /\ Z.of_nat (length (concat (take k bs))) = BLOCK_SIZE * Z.of_nat k.
Proof.
  intros Hw Hk. split.
  - rewrite <- (take_drop_middle bs k b Hk) at 1. rewrite concat_app. done.
  - rewrite concat_length by (by apply Forall_take). apply lookup_lt_Some in Hk. rewrite length_take. lia.
Qed.

Lemma slice_block bs k b : whole bs -> bs !! k = Some b ->
  slice_run (concat bs) (Z.of_nat k * BLOCK_SIZE) (Z.of_nat k * BLOCK_SIZE + BLOCK_SIZE) = Done b.
Proof.
  intros Hw Hk. destruct (concat_at bs k b Hw Hk) as [E Hl]. assert (Z.of_nat (length b) = BLOCK_SIZE) as Hb by (by eapply Forall_lookup_1 in Hw).
  rewrite E. unfold BLOCK_SIZE in *. rewrite slice_in by (rewrite ?length_app; lia). f_equal.
  rewrite drop_app_length' by lia. apply take_app_length'. lia.
Qed.

Definition overlay (src block : list Z) : list Z := src ++ drop (length src) block.

Lemma copy_block bs k b src : whole bs -> bs !! k = Some b -> Z.of_nat (length src) <= BLOCK_SIZE ->
  copy_at (concat bs) (Z.of_nat k * BLOCK_SIZE) src = Done (concat (<[k := overlay src b]> bs)) /\ whole (<[k := overlay src b]> bs).
Proof.
  intros Hw Hk Hs. destruct (concat_at bs k b Hw Hk) as [E Hl]. assert (Z.of_nat (length b) = BLOCK_SIZE) as Hb by (by eapply Forall_lookup_1 in Hw).
  assert (Z.of_nat (length (overlay src b)) = BLOCK_SIZE) as Ho by (unfold overlay; rewrite length_app, length_drop; lia).
  assert (whole (<[k := overlay src b]> bs)) as Hw' by (by apply Forall_insert). split; [|done].
  pose proof (lookup_lt_Some _ _ _ Hk) as Hlt.
  destruct (concat_at (<[k := overlay src b]> bs) k (overlay src b) Hw') as [E' _]; [by apply list_lookup_insert_eq|].
  rewrite E', take_insert_ge, drop_insert_lt by lia. unfold copy_at. rewrite E.
  rewrite (proj2 (Z.leb_le 0 _)), (proj2 (Z.leb_le (_ + _) _)) by (rewrite ?length_app; unfold BLOCK_SIZE in *; lia). cbn [andb]. f_equal.
  rewrite take_app_length' by (unfold BLOCK_SIZE in *; lia). f_equal. unfold overlay. rewrite <- app_assoc. f_equal.
  rewrite drop_app_ge by (unfold BLOCK_SIZE in *; lia).
  replace (Z.to_nat (Z.of_nat k * BLOCK_SIZE) + length src - length (concat (take k bs)))%nat with (length src) by (unfold BLOCK_SIZE in *; lia).
  by rewrite drop_app_le by lia.
Qed.

Lemma overlay_full src block : length src = length block -> overlay src block = src.
Proof. intros H. unfold overlay. by rewrite H, drop_all, app_nil_r. Qed.

(** ** Lemmas on data blocks *)

Lemma physical_at db k b data : sorted_pairs db !! k = Some (b, data) -> block_num_to_physical db b = 3 + Z.of_nat k.
Proof.
  intros Hk. unfold block_num_to_physical. destruct (sorted_pairs_keys db) as [Hnd _].
  assert ((fst <$> sorted_pairs db) !! k = Some b) as Hf by (by rewrite list_lookup_fmap, Hk).
  destruct (list_find _ _) as [[pos c]|] eqn:E.
  - apply list_find_Some in E as (Hp & -> & _). by rewrite (NoDup_lookup _ _ _ _ Hnd Hp Hf).
  - apply list_find_None in E. rewrite Forall_forall in E. exfalso. apply (E b); [by eapply list_elem_of_lookup_2|done].
Qed.

(** The blocks after the data blocks [k..] have been written. *)
Definition with_data (k : nat) (ds : list (list Z)) (bs : list (list Z)) : list (list Z) := list_inserts (3 + k) ds bs.

Lemma write_data_spec db total todo k bs : whole bs -> Z.of_nat (length bs) = total ->
  drop k (sorted_pairs db) = todo -> Z.of_nat (length (sorted_pairs db)) <= total - 4 ->
  (forall b data, (b, data) ∈ todo -> Z.of_nat (length data) = BLOCK_SIZE) ->
  write_data_blocks db todo total (concat bs) = Done (concat (with_data k (snd <$> todo) bs)) /\ whole (with_data k (snd <$> todo) bs).
Proof.
  revert k bs. induction todo as [|[b data] todo IH]; intros k bs Hw Hl Hd Hn Hdata; [done|].
  cbn [write_data_blocks]. assert (sorted_pairs db !! k = Some (b, data)) as Hk.
  { rewrite <- (Nat.add_0_r k), <- lookup_drop, Hd. done. }
  pose proof (lookup_lt_Some _ _ _ Hk) as Hlt. rewrite (physical_at db k b data Hk).
  assert (Z.of_nat (length data) = BLOCK_SIZE) as Hdl by (eapply Hdata, list_elem_of_here).
  rewrite (proj2 (Z.ltb_lt 0 _)), (proj2 (Z.ltb_lt _ (total - 1))) by lia. cbn [andb]. rewrite take_ge by lia.
  destruct (lookup_lt_is_Some_2 bs (3 + k)%nat) as [old Hold]; [lia|].
  destruct (copy_block bs (3 + k) old data Hw Hold ltac:(lia)) as [E Hw'].
  replace (Z.of_nat (3 + k)) with (3 + Z.of_nat k) in E by lia. rewrite E. cbn [mbind run_bind].
  assert (Z.of_nat (length old) = BLOCK_SIZE) as Hol by (by eapply Forall_lookup_1 in Hw).
  rewrite overlay_full in Hw' |- * by lia.
  assert (drop (S k) (sorted_pairs db) = todo) as Hd' by (rewrite (drop_S _ _ _ Hk) in Hd; by injection Hd).
  destruct (IH (S k) (<[(3 + k)%nat := data]> bs)) as [E2 Hw2]; [done|by rewrite length_insert|done|done|intros c d Hc; eapply Hdata; by apply list_elem_of_further|].
  rewrite E2. unfold with_data in *. rewrite fmap_cons. cbn [list_inserts]. cbn [snd].
  assert (list_inserts (3 + S k) (snd <$> todo) (<[(3 + k)%nat := data]> bs) = <[(3 + k)%nat := data]> (list_inserts (S (3 + k)) (snd <$> todo) bs)) as Hcomm.
  { replace (3 + S k)%nat with (S (3 + k)) by lia. symmetry. apply list_insert_inserts_lt. lia. }
  rewrite Hcomm in Hw2 |- *. done.
Qed.

Lemma read_data_spec bs data_end todo k res : whole bs ->
  (forall j x, todo !! j = Some x -> bs !! (3 + k + j)%nat = Some (snd x)) ->
  (3 + Z.of_nat k + Z.of_nat (length todo)) * BLOCK_SIZE <= data_end ->
  read_data_blocks (concat bs) ((3 + Z.of_nat k) * BLOCK_SIZE) data_end (fst <$> todo) res =
  Done (foldl (fun m x => <[fst x := snd x]> m) res todo).
Proof.
  intros Hw. revert k res. induction todo as [|[b data] todo IH]; intros k res Hbs Hend; [done|].
  rewrite fmap_cons. cbn [read_data_blocks foldl fst snd length] in *. unfold BLOCK_SIZE in Hend.
  rewrite (proj2 (Z.ltb_ge _ _)) by (unfold BLOCK_SIZE; lia).
  pose proof (Hbs 0%nat (b, data) eq_refl) as H0. rewrite Nat.add_0_r in H0. cbn [snd] in H0.
  pose proof (slice_block bs (3 + k) data Hw H0) as Hs. replace (Z.of_nat (3 + k)) with (3 + Z.of_nat k) in Hs by lia.
  rewrite Hs. cbn [mbind run_bind]. replace ((3 + Z.of_nat k) * BLOCK_SIZE + BLOCK_SIZE) with ((3 + Z.of_nat (S k)) * BLOCK_SIZE) by (unfold BLOCK_SIZE; lia).
  apply IH; [|unfold BLOCK_SIZE; lia]. intros j x Hj. replace (3 + S k + j)%nat with (3 + k + S j)%nat by lia. by apply Hbs.
Qed.

Lemma allocated_blocks_spec m bs : bitmap_wf m -> Forall (fun b => 0 <= b) bs ->
  allocated_blocks m bs = Done (filter (fun b => taken m b = true) bs).
Proof.
  intros Hwf Hbs. induction Hbs as [|b bs Hb _ IH]; [done|]. cbn [allocated_blocks]. rewrite is_allocated_spec by done. cbn [mbind run_bind].
  rewrite IH. cbn [mbind run_bind]. rewrite filter_cons. destruct (taken m b) eqn:E; [by rewrite decide_True|by rewrite decide_False].
Qed.

Lemma seqZ_sorted a n : StronglySorted Z.le (seqZ a n).
Proof.
  destruct (Z.le_gt_cases 0 n) as [Hn|Hn]; [|unfold seqZ; rewrite Z2Nat.nonpos by lia; constructor].
  revert a. pattern n. apply natlike_ind; [intros a; constructor| |done]. intros m Hm IH a. rewrite seqZ_cons by lia.
  replace (Z.pred (Z.succ m)) with m by lia. constructor; [apply IH|]. apply Forall_forall. intros x Hx%elem_of_seqZ. lia.
Qed.

Lemma StronglySorted_filter_le (P : Z -> Prop) `{forall x, Decision (P x)} l : StronglySorted Z.le l -> StronglySorted Z.le (filter P l).
Proof.
  induction 1 as [|x l Hs IH Hf]; [constructor|]. rewrite filter_cons. case_decide; [|done]. constructor; [done|].
  apply Forall_forall. intros y [_ Hy]%list_elem_of_filter. rewrite Forall_forall in Hf. auto.
Qed.

(** On a volume without leaks the allocated data blocks are the stored ones. *)
Lemma stored_numbers {A : Aead} v : vol_wf v -> no_leak v ->
  filter (fun b => taken (ov_bitmap v) b = true) (seqZ 3 (sb_total_blocks (ov_superblock v) - 3)) = fst <$> sorted_pairs (ov_data_blocks v).
Proof.
  intros Hwf Hnl. destruct (vo_total _ Hwf) as [Ht Ht3]. destruct (sorted_pairs_keys (ov_data_blocks v)) as (Hnd & Hs & _).
  apply (StronglySorted_unique Z.le); [apply StronglySorted_filter_le, seqZ_sorted|done|].
  apply NoDup_Permutation; [apply NoDup_filter, NoDup_seqZ|done|]. intros b. rewrite list_elem_of_filter, elem_of_seqZ, list_elem_of_fmap. split.
  - intros [Htk Hb]. destruct (Hnl b Htk) as [Hst|[block Hbl]]; [unfold structural in Hst; lia|].
    exists (b, block). split; [done|]. by apply sorted_pairs_elem.
  - intros ([c block] & -> & Hin%sorted_pairs_elem). cbn [fst]. destruct (vo_data _ Hwf c block Hin) as (Htk & Hns & _). split; [done|].
    pose proof (taken_range _ _ Htk) as Hr. unfold in_range in Hr. rewrite Ht in Hr. unfold structural in Hns. lia.
Qed.

(** ** The image *)

Definition zero_block : list Z := replicate (Z.to_nat BLOCK_SIZE) 0.

Section Image.
Context {A : Aead} {L : AeadLaws A} (v : OnDiskVolume) (Hwf : vol_wf v) (Hnl : no_leak v) (Hp : persistable v).
Let total := sb_total_blocks (ov_superblock v).
Let pairs := sorted_pairs (ov_data_blocks v).

Lemma zero_image : whole (replicate (Z.to_nat total) zero_block) /\
  concat (replicate (Z.to_nat total) zero_block) = replicate (Z.to_nat (total * BLOCK_SIZE)) 0.
Proof.
  split; [apply Forall_replicate; unfold zero_block; rewrite length_replicate; done|].
  pose proof (pe_total _ Hp) as Ht. fold total in Ht. replace (Z.to_nat (total * BLOCK_SIZE)) with (Z.to_nat total * Z.to_nat BLOCK_SIZE)%nat
    by (unfold BLOCK_SIZE; lia). unfold zero_block. generalize (Z.to_nat BLOCK_SIZE) as w. intros w.
  induction (Z.to_nat total) as [|n IH]; [done|]. cbn [replicate concat Nat.mul]. rewrite IH. by rewrite <- replicate_add.
Qed.

Lemma tags_match : size (ov_tags v) = size (ov_data_blocks v) /\ Forall tag_pair_ok (sorted_pairs (ov_tags v)).
Proof.
  assert (forall b tag, ov_tags v !! b = Some tag -> 0 < b < 2 ^ 64 /\ Z.of_nat (length tag) = TAG_LEN) as Htag.
  { intros b tag Ht. destruct (vo_tag _ Hwf b tag Ht) as [block Hb]. destruct (vo_data _ Hwf b block Hb) as (Htk & _ & t & Et & Hc).
    destruct (fw_block _ _ _ _ (vo_files _ Hwf) b block Hb) as [_ Hu].
    destruct (compute_tag_spec (ov_key v) b block (vo_key _ Hwf) Hu) as (t' & Hc' & Hl & _).
    apply taken_range in Htk. unfold in_range in Htk. destruct (bw_total _ (vo_bitmap _ Hwf)). split; [lia|congruence]. }
  split.
  - rewrite <- !size_dom. f_equal. apply set_eq. intros b. rewrite !elem_of_dom. split.
    + intros [tag Ht]. by apply (vo_tag _ Hwf b tag).
    + intros [block Hb]. destruct (vo_data _ Hwf b block Hb) as (_ & _ & t & Et & _). by exists t.
  - apply Forall_forall. intros [b tag] Hin%sorted_pairs_elem. by apply Htag.
Qed.

(** The block sequence that [sync_to_bytes] produces. *)
Lemma sync_image : exists bs, sync_to_bytes v = Done (concat bs) /\ whole bs /\ Z.of_nat (length bs) = total /\
  bs !! 0%nat = Some (overlay (superblock_bytes (ov_superblock v)) zero_block) /\
  bs !! 1%nat = Some (overlay (bm_bits (ov_bitmap v)) zero_block) /\
  bs !! 2%nat = Some (overlay (serialize_inodes (ov_inodes v)) zero_block) /\
  (forall j x, pairs !! j = Some x -> bs !! (3 + j)%nat = Some (snd x)) /\
  exists n, bs !! Z.to_nat (total - 1) = Some (concat (tag_entry <$> sorted_pairs (ov_tags v)) ++ replicate n 0).
Proof.
  pose proof (pe_total _ Hp) as Ht. fold total in Ht. destruct zero_image as [Hw0 E0]. destruct (vo_total _ Hwf) as [Hbt _]. fold total in Hbt.
  pose proof (pe_data _ Hp) as Hpd. fold total in Hpd. pose proof (pe_tags _ Hp) as Hpt.
  destruct (sorted_pairs_keys (ov_data_blocks v)) as (_ & _ & Hpl). fold pairs in Hpl.
  assert (forall k, 0 <= k < total -> replicate (Z.to_nat total) zero_block !! Z.to_nat k = Some zero_block) as Hz
    by (intros k Hk; apply lookup_replicate_2; lia).
  unfold sync_to_bytes. fold total. rewrite mul64_done by (unfold BLOCK_SIZE; lia). cbn [mbind run_bind]. rewrite <- E0.
  destruct (copy_block _ 0 zero_block (superblock_bytes (ov_superblock v)) Hw0 (Hz 0 ltac:(lia))) as [E1 Hw1].
  { rewrite superblock_bytes_length by apply Hwf. unfold BLOCK_SIZE. lia. }
  change (Z.of_nat 0 * BLOCK_SIZE) with 0 in E1. rewrite E1. cbn [mbind run_bind]. set (bs1 := <[0%nat := _]> _) in *.
  assert (length bs1 = Z.to_nat total) as Hl1 by (unfold bs1; by rewrite length_insert, length_replicate).
  rewrite (proj2 (Z.ltb_lt 1 total)) by lia.
  assert (Z.of_nat (length (bm_bits (ov_bitmap v))) <= BLOCK_SIZE) as Hbl.
  { rewrite (bw_len _ (vo_bitmap _ Hwf)), Hbt. unfold BLOCK_SIZE. apply Z.lt_succ_r, Z.div_lt_upper_bound; lia. }
  rewrite (take_ge (bm_bits _)) by lia.
  destruct (copy_block bs1 1 zero_block (bm_bits (ov_bitmap v)) Hw1) as [E2 Hw2]; [|done|].
  { unfold bs1. rewrite list_lookup_insert_ne by lia. apply (Hz 1). lia. }
  change (Z.of_nat 1 * BLOCK_SIZE) with BLOCK_SIZE in E2. rewrite E2. cbn [mbind run_bind]. set (bs2 := <[1%nat := _]> bs1) in *.
  rewrite (proj2 (Z.ltb_lt 2 total)) by lia. rewrite (take_ge (serialize_inodes _)) by (pose proof (pe_table _ Hp); lia).
  destruct (copy_block bs2 2 zero_block (serialize_inodes (ov_inodes v)) Hw2) as [E3 Hw3]; [|apply Hp|].
  { unfold bs2, bs1. rewrite !list_lookup_insert_ne by lia. apply (Hz 2). lia. }
  change (Z.of_nat 2 * BLOCK_SIZE) with (2 * BLOCK_SIZE) in E3. rewrite E3. cbn [mbind run_bind]. set (bs3 := <[2%nat := _]> bs2) in *.
  rewrite (proj2 (Z.ltb_lt 4 total)) by lia. fold pairs.
  assert (length bs3 = Z.to_nat total) as Hl3 by (unfold bs3, bs2; by rewrite !length_insert).
  destruct (write_data_spec (ov_data_blocks v) total pairs 0 bs3 Hw3) as [E4 Hw4]; [lia|done|fold pairs; lia| |].
  { intros b data Hin%sorted_pairs_elem. by apply (fw_block _ _ _ _ (vo_files _ Hwf) b). }
  rewrite E4. cbn [mbind run_bind]. set (bs4 := with_data 0 _ bs3) in *.
  assert (length bs4 = Z.to_nat total) as Hl4 by (unfold bs4, with_data; by rewrite length_inserts).
  assert (length (snd <$> pairs) = size (ov_data_blocks v)) as Hsl by (by rewrite length_fmap).
  assert (forall k, (k < 3 \/ 3 + size (ov_data_blocks v) <= k)%nat -> bs4 !! k = bs3 !! k) as Hsame.
  { intros k [Hk|Hk]; unfold bs4, with_data; [apply list_lookup_inserts_lt; lia|apply list_lookup_inserts_ge; rewrite Hsl; lia]. }
  rewrite (proj2 (Z.leb_le 1 total)) by lia.
  assert (bs4 !! Z.to_nat (total - 1) = Some zero_block) as Hlast.
  { rewrite Hsame by lia. unfold bs3, bs2, bs1. rewrite !list_lookup_insert_ne by lia. apply Hz. lia. }
  pose proof (slice_block bs4 (Z.to_nat (total - 1)) zero_block Hw4 Hlast) as Hsl4. rewrite Z2Nat.id in Hsl4 by lia. rewrite Hsl4. cbn [mbind run_bind].
  destruct tags_match as [Hts Htok]. destruct (sorted_pairs_keys (ov_tags v)) as (_ & _ & Htl).
  pose proof (write_tags_spec (sorted_pairs (ov_tags v)) [] (Z.to_nat BLOCK_SIZE) Htok) as Hwt. cbn [length app] in Hwt.
  change (Z.of_nat 0) with 0 in Hwt. unfold zero_block. rewrite Hwt by (unfold BLOCK_SIZE; lia). fold zero_block.
  cbn [mbind run_bind app]. set (tagb := concat _ ++ replicate _ 0).
  assert (Z.of_nat (length tagb) = BLOCK_SIZE) as Htb.
  { unfold tagb. rewrite length_app, length_replicate. assert (length (concat (tag_entry <$> sorted_pairs (ov_tags v))) = 24 * length (sorted_pairs (ov_tags v)))%nat as ->.
    - clear -Htok. induction Htok as [|x l Hx _ IH]; [done|]. rewrite fmap_cons. cbn [concat length]. rewrite length_app, IH.
      pose proof (tag_entry_length x Hx) as Hl. unfold INTEGRITY_ENTRY_SIZE, TAG_LEN in Hl. lia.
    - unfold BLOCK_SIZE. lia. }
  destruct (copy_block bs4 (Z.to_nat (total - 1)) zero_block tagb Hw4 Hlast) as [E5 Hw5]; [lia|].
  rewrite Z2Nat.id in E5 by lia. rewrite overlay_full in E5, Hw5 by (unfold zero_block; rewrite length_replicate; lia).
  eexists. split; [exact E5|]. split; [done|]. split; [rewrite length_insert; lia|].
  rewrite !list_lookup_insert_ne by lia. rewrite !(Hsame 0%nat), !(Hsame 1%nat), !(Hsame 2%nat) by lia. split_and!.
  - unfold bs3, bs2, bs1. rewrite !list_lookup_insert_ne by lia. apply list_lookup_insert_eq. rewrite length_replicate. lia.
  - unfold bs3, bs2. rewrite list_lookup_insert_ne by lia. apply list_lookup_insert_eq. lia.
  - unfold bs3. apply list_lookup_insert_eq. unfold bs2. rewrite length_insert. lia.
  - intros j x Hj. pose proof (lookup_lt_Some _ _ _ Hj) as Hjl. rewrite list_lookup_insert_ne by lia. unfold bs4, with_data.
    rewrite list_lookup_inserts by lia. replace (3 + j - (3 + 0))%nat with j by lia. by rewrite list_lookup_fmap, Hj.
  - eexists. apply list_lookup_insert_eq. lia.
Qed.
End Image.

(** ** Reading the image back *)

Lemma bumped_bounds nodes next bound : 1 <= next <= bound -> Forall (fun i => fi_number i < bound) nodes ->
  next <= bumped nodes next <= bound /\ Forall (fun i => fi_number i < bumped nodes next) nodes.
Proof.
  unfold bumped. intros Hn Hall. revert next Hn. induction Hall as [|i nodes Hi _ IH]; intros next Hn; [split; [cbn; lia|constructor]|].
  cbn [foldl]. set (next' := if next <=? fi_number i then _ else _).
  assert (next <= next' <= bound /\ fi_number i < next') as [Hb Hlt] by (unfold next'; destruct (Z.leb_spec next (fi_number i)); lia).
  destruct (IH next' ltac:(lia)) as [H1 H2]. split; [lia|]. constructor; [lia|done].
Qed.

Section Table.
Context {A : Aead} (v : OnDiskVolume) (Hwf : vol_wf v) (Hp : persistable v).
Let nodes := snd <$> sorted_pairs (ov_inodes v).

Lemma nodes_elem i : i ∈ nodes <-> ov_inodes v !! fi_number i = Some i.
Proof.
  unfold nodes. rewrite list_elem_of_fmap. split.
  - intros ([n j] & -> & Hin%sorted_pairs_elem). cbn [snd]. by rewrite (proj1 (fw_num _ _ _ _ (vo_files _ Hwf) n j Hin)).
  - intros Hi. exists (fi_number i, i). split; [done|]. by apply sorted_pairs_elem.
Qed.

Lemma nodes_numbers : fi_number <$> nodes = fst <$> sorted_pairs (ov_inodes v).
Proof.
  unfold nodes. rewrite <- list_fmap_compose. apply list_fmap_ext. intros k [n i] Hk. cbn.
  apply list_elem_of_lookup_2, sorted_pairs_elem in Hk. by apply (fw_num _ _ _ _ (vo_files _ Hwf) n i).
Qed.

Lemma nodes_paths i : i ∈ nodes -> ov_path_map v !! mounted_path i = Some (fi_number i).
Proof. intros Hi%nodes_elem. by apply (pe_path _ Hp). Qed.

Lemma nodes_ok : Forall inode_ok nodes /\ Forall (fun i => fi_number i < ov_next_inode v) nodes.
Proof.
  split; apply Forall_forall; intros i Hi%nodes_elem; destruct (fw_num _ _ _ _ (vo_files _ Hwf) _ _ Hi) as [_ Hn]; [|lia].
  pose proof (vo_inode _ Hwf) as Hni. constructor.
  - unfold is_u64. lia.
  - by apply (fw_size _ _ _ _ (vo_files _ Hwf) _ _ Hi).
  - by apply (vo_fields _ Hwf _ _ Hi).
  - apply Forall_forall. intros b Hb. destruct (decide (b = 0)) as [->|Hb0]; [unfold is_u64; lia|].
    destruct (vo_ref _ Hwf _ _ b Hi Hb Hb0) as [block Hbl]. destruct (vo_data _ Hwf b block Hbl) as (Htk & _).
    apply taken_range in Htk. unfold in_range in Htk. destruct (bw_total _ (vo_bitmap _ Hwf)). unfold is_u64. lia.
  - by apply (pe_name _ Hp _ _ Hi).
Qed.

Lemma table_back : deserialize_inodes (overlay (serialize_inodes (ov_inodes v)) zero_block) =
  Done (ov_inodes v, ov_path_map v, bumped nodes FIRST_USER_INODE).
Proof.
  destruct nodes_ok as [Hok Hlt]. pose proof (vo_inode _ Hwf) as Hni. pose proof (pe_table _ Hp) as Htab.
  assert (length (overlay (serialize_inodes (ov_inodes v)) zero_block) = Z.to_nat BLOCK_SIZE) as Hall
    by (unfold overlay, zero_block; rewrite length_app, length_drop, length_replicate; lia).
  unfold overlay in *. set (post := drop _ zero_block) in *. unfold serialize_inodes in *. fold nodes in Htab, Hall |- *. rewrite <- app_assoc in Hall |- *.
  set (pre := to_le_bytes 8 (Z.of_nat (size (ov_inodes v)))) in *. destruct (sorted_pairs_keys (ov_inodes v)) as (Hnd & _ & Hsz).
  assert (length nodes = size (ov_inodes v)) as Hnl by (unfold nodes; by rewrite length_fmap).
  assert (size (ov_inodes v) <= length (concat (inode_bytes <$> nodes)))%nat as Hmany.
  { rewrite <- Hnl. generalize nodes as l. intros l. induction l as [|i l IH]; [cbn; lia|]. rewrite fmap_cons. cbn [concat length].
    rewrite length_app, inode_bytes_length. lia. }
  rewrite length_app in Htab. unfold BLOCK_SIZE in Htab. unfold deserialize_inodes.
  replace (_ <? 8)%nat with false by (symmetry; apply Nat.ltb_ge; unfold pre; rewrite length_app, to_le_bytes_length; lia).
  change (le_field (pre ++ concat (inode_bytes <$> nodes) ++ post) 0 8) with (from_le_bytes (to_le_bytes 8 (Z.of_nat (size (ov_inodes v))))).
  rewrite le_roundtrip by (cbn; lia). rewrite Nat2Z.id, <- Hnl. change 8 with (Z.of_nat (length pre)).
  rewrite parse_inodes_spec; [|done| |].
  2:{ eapply Forall_impl; [exact Hlt|]. cbn. intros i Hi. lia. }
  2:{ rewrite Hall. unfold BLOCK_SIZE. lia. }
  cbn [mbind run_bind].
  assert (foldl (fun m i => <[fi_number i := i]> m) ∅ nodes = ov_inodes v) as ->.
  { apply (fold_insert_eq fi_number (fun i => i)); [by rewrite nodes_numbers|]. intros n i. split.
    - intros Hi. exists i. destruct (fw_num _ _ _ _ (vo_files _ Hwf) n i Hi) as [Hn _]. split_and!; [|done|done].
      apply nodes_elem. by rewrite Hn.
    - intros (j & Hj%nodes_elem & <- & ->). done. }
  assert (foldl (fun m i => <[mounted_path i := fi_number i]> m) ∅ nodes = ov_path_map v) as ->.
  { apply (fold_insert_eq mounted_path fi_number).
    - rewrite <- nodes_numbers in Hnd. revert Hnd. generalize nodes_paths. generalize nodes as l. intros l Hpaths Hnd.
      induction l as [|i l IH]; [constructor|]. rewrite fmap_cons in *. apply NoDup_cons in Hnd as [Hi Hnd]. constructor.
      + intros (j & Ej & Hj)%list_elem_of_fmap. apply Hi. apply list_elem_of_fmap. exists j. split; [|done].
        pose proof (Hpaths i ltac:(apply list_elem_of_here)) as H1. pose proof (Hpaths j ltac:(by apply list_elem_of_further)) as H2. congruence.
      + apply IH; [|done]. intros j Hj. apply Hpaths. by apply list_elem_of_further.
    - intros p n. split.
      + intros Hpn. destruct (fw_path _ _ _ _ (vo_files _ Hwf) p n Hpn) as [i Hi].
        destruct (fw_num _ _ _ _ (vo_files _ Hwf) n i Hi) as [Hn _]. exists i. rewrite nodes_elem, Hn. split; [done|]. split; [|done].
        apply (fw_inj _ _ _ _ (vo_files _ Hwf) _ _ n); [by apply (pe_path _ Hp)|done].
      + intros (i & Hi & <- & <-). by apply nodes_paths. }
  destruct (pe_root _ Hp) as [root ->]. done.
Qed.

(** A volume whose inode counter restarts after its largest inode. *)
Lemma set_next_inode_wf : 2 <= ov_next_inode v -> let n := bumped nodes FIRST_USER_INODE in n <= ov_next_inode v /\ vol_wf (set_next_inode n v).
Proof.
  intros H2 n. destruct nodes_ok as [_ Hlt]. unfold FIRST_USER_INODE in n.
  destruct (bumped_bounds nodes 2 (ov_next_inode v) ltac:(lia) Hlt) as [Hb Hall]. fold n in Hb, Hall. split; [lia|].
  destruct Hwf as [Hf Hi ? ? ? ? ? ? ? ? ?]. constructor; try done; cbn; [|lia]. destruct Hf as [? ? Hnum ? ? ? ? ?]. constructor; try done.
  intros k i Hk. destruct (Hnum k i Hk) as [Hki Hk1]. split; [done|]. split; [lia|]. rewrite Forall_forall in Hall.
  rewrite <- Hki. apply Hall. apply nodes_elem. by rewrite Hki.
Qed.
End Table.

(** ** Theorem *)

(** C17: Persistence: on a volume without leaked blocks whose regions fit the
    disk and whose files lie in the root directory, [sync_to_bytes] yields an
    image of the volume's size, and mounting the image gives back the volume
    itself, the inode counter apart, which restarts after the largest inode in
    use; the mounted volume satisfies the invariant. *)
Theorem sync_mount_roundtrip {A : Aead} {L : AeadLaws A} (v : OnDiskVolume) (Hwf : vol_wf v) (Hnl : no_leak v) (Hp : persistable v) :
  exists raw n, sync_to_bytes v = Done raw /\ Z.of_nat (length raw) = sb_total_blocks (ov_superblock v) * BLOCK_SIZE /\
    mount raw = Done (Ok (set_next_inode n v)) /\ n <= ov_next_inode v /\ vol_wf (set_next_inode n v).
Proof.
  destruct (sync_image v Hwf Hp) as (bs & Hs & Hw & Hl & H0 & H1 & H2 & Hd & tn & Ht). pose proof (pe_total _ Hp) as Htot.
  destruct (pe_root _ Hp) as [root Hroot]. destruct (fw_num _ _ _ _ (vo_files _ Hwf) _ _ Hroot) as [_ Hrn]. unfold ROOT_INODE_NUMBER in Hrn.
  destruct (set_next_inode_wf v Hwf Hp ltac:(lia)) as [Hn Hwf'].
  exists (concat bs), (bumped (snd <$> sorted_pairs (ov_inodes v)) FIRST_USER_INODE).
  set (total := sb_total_blocks (ov_superblock v)) in *. pose proof (concat_length bs Hw) as Hcl.
  split; [done|]. split; [unfold BLOCK_SIZE in *; lia|]. split; [|done].
  unfold mount. rewrite Hcl, Hl. rewrite (proj2 (Z.ltb_ge _ BLOCK_SIZE)) by (unfold BLOCK_SIZE; lia).
  pose proof (slice_block bs 0 _ Hw H0) as S0. change (slice_run (concat bs) 0 BLOCK_SIZE = Done (overlay (superblock_bytes (ov_superblock v)) zero_block)) in S0.
  rewrite S0. cbn [mbind run_bind]. unfold overlay at 1. rewrite superblock_roundtrip by apply Hwf. fold total.
  rewrite mul64_done by (unfold BLOCK_SIZE; lia). cbn [mbind run_bind]. rewrite (proj2 (Z.ltb_ge _ (total * BLOCK_SIZE))) by (unfold BLOCK_SIZE; lia).
  rewrite !Z.min_l by (unfold BLOCK_SIZE; lia).
  pose proof (slice_block bs 1 _ Hw H1) as S1. change (Z.of_nat 1 * BLOCK_SIZE) with BLOCK_SIZE in S1.
  replace (BLOCK_SIZE + BLOCK_SIZE) with (2 * BLOCK_SIZE) in S1 by lia. rewrite S1. cbn [mbind run_bind]. unfold overlay at 1.
  destruct (vo_total _ Hwf) as [Hbt _]. fold total in Hbt. rewrite <- Hbt, bitmap_bytes_roundtrip by apply Hwf. cbn [mbind run_bind]. rewrite Hbt.
  pose proof (slice_block bs 2 _ Hw H2) as S2. change (Z.of_nat 2 * BLOCK_SIZE) with (2 * BLOCK_SIZE) in S2.
  replace (2 * BLOCK_SIZE + BLOCK_SIZE) with (3 * BLOCK_SIZE) in S2 by lia. rewrite S2. cbn [mbind run_bind].
  rewrite (table_back v Hwf Hp). cbn [mbind run_bind].
  rewrite (proj2 (Z.leb_le 1 total)), (proj2 (Z.leb_le _ (BLOCK_SIZE * total))) by (unfold BLOCK_SIZE; lia).
  pose proof (slice_block bs _ _ Hw Ht) as St. rewrite Z2Nat.id in St by lia. rewrite St. cbn [mbind run_bind].
  destruct (tags_match v Hwf) as [Hts Htok]. destruct (sorted_pairs_keys (ov_tags v)) as (_ & _ & Htl).
  assert (Z.of_nat (length (concat (tag_entry <$> sorted_pairs (ov_tags v)) ++ replicate tn 0)) = BLOCK_SIZE) as Htb by (by eapply Forall_lookup_1 in Hw).
  unfold deserialize_integrity_tags. pose proof (pe_tags _ Hp) as Hpt.
  rewrite (read_tags_spec (sorted_pairs (ov_tags v)) _ [] tn ∅ Htok) by (unfold BLOCK_SIZE in Htb; lia). cbn [mbind run_bind].
  rewrite sorted_pairs_fold. rewrite (proj2 (Z.ltb_lt 4 total)) by lia. unfold deserialize_data_blocks.
  rewrite allocated_blocks_spec by (try apply Hwf; apply Forall_forall; intros b Hb%elem_of_seqZ; lia). cbn [mbind run_bind].
  pose proof (stored_numbers v Hwf Hnl) as Hst. fold total in Hst. rewrite Hst. destruct (sorted_pairs_keys (ov_data_blocks v)) as (_ & _ & Hdl).
  pose proof (pe_data _ Hp) as Hpd. fold total in Hpd.
  rewrite (read_data_spec bs ((total - 1) * BLOCK_SIZE) (sorted_pairs (ov_data_blocks v)) 0 ∅ Hw) by (first [done|unfold BLOCK_SIZE; lia]).
  cbn [mbind run_bind]. rewrite sorted_pairs_fold. unfold set_next_inode. do 2 f_equal. destruct v. cbn in *. f_equal.
  symmetry. by apply Hp.
Qed.

(** ** Witness *)

Definition persistable_b (v : OnDiskVolume) : bool :=
  let total := sb_total_blocks (ov_superblock v) in let n := Z.of_nat (size (ov_data_blocks v)) in
  (5 <=? total) && (total <=? 32768) && (n <=? total - 4) && (n <=? 170) &&
  (Z.of_nat (length (serialize_inodes (ov_inodes v))) <=? BLOCK_SIZE) &&
  forallb (fun x => utf8_valid (fi_name (snd x)) && bool_decide (ov_path_map v !! mounted_path (snd x) = Some (fst x))) (sorted_pairs (ov_inodes v)) &&
  bool_decide (is_Some (ov_inodes v !! ROOT_INODE_NUMBER)) && bool_decide (ov_key v = replicate 32 0).

Lemma persistable_b_sound v : persistable_b v = true -> persistable v.
Proof.
  unfold persistable_b. rewrite !andb_true_iff, !bool_decide_eq_true, !Z.leb_le, forallb_forall.
  intros [[[[[[[H1 H2] H3] H4] H5] H6] H7] H8].
  assert (forall n i, ov_inodes v !! n = Some i -> utf8_valid (fi_name i) = true /\ ov_path_map v !! mounted_path i = Some n) as Hi.
  { intros n i Hn. specialize (H6 (n, i) (proj1 (list_elem_of_In _ _) (proj2 (sorted_pairs_elem _ n i) Hn))).
    rewrite andb_true_iff, bool_decide_eq_true in H6. done. }
  constructor; try done; try lia; intros n i Hn; by apply (Hi n i).
Qed.

Definition is_full (o : vol_out) : bool := match o with OWritten (Err NoSpace) => true | _ => false end.

Definition demo_persists : run bool :=
  v ← vol_format 8; tr ← vol_trace (A := toy_aead) demo_ops v;
  Done (forallb (fun ov => negb (is_full (fst ov))) tr && match last tr with Some (_, v) => persistable_b v | None => false end).

Lemma demo_volume_reached : exists v, vol_wf (A := toy_aead) v /\ no_leak v /\ persistable v.
Proof.
  assert (demo_persists = Done true) as Hd by (vm_compute; reflexivity). unfold demo_persists in Hd.
  destruct (vol_format_wf (A := toy_aead) 8 ltac:(lia)) as (v0 & Hf & Hwf & _ & Hnl & Hi & _).
  destruct (vol_trace_spec (A := toy_aead) (L := toy_aead_laws) demo_ops v0 Hwf demo_vol_ops_ok) as (tr & Htr & _ & Hall & _ & Hleak);
    [rewrite Hi; unfold FIRST_USER_INODE; cbn; lia|].
  rewrite Hf in Hd. cbn [mbind run_bind] in Hd. rewrite Htr in Hd. cbn [mbind run_bind] in Hd. injection Hd as [Hfull Hlast]%andb_true_iff.
  destruct (last tr) as [[o v]|] eqn:E; [|done]. apply last_Some_elem_of in E.
  assert (Forall (fun ov => not_full (fst ov)) tr) as Hnf.
  { rewrite forallb_forall in Hfull. apply Forall_forall. intros [o' v'] Hin. specialize (Hfull _ (proj1 (list_elem_of_In _ _) Hin)).
    intros Hno. cbn in Hno, Hfull. rewrite Hno in Hfull. done. }
  specialize (Hleak Hnf Hnl). rewrite Forall_forall in Hall, Hleak. exists v.
  split_and!; [apply (Hall _ E)|apply (Hleak _ E)|by apply persistable_b_sound].
Qed.

Lemma sync_mount_roundtrip_witness : exists v raw n, persistable v /\ sync_to_bytes v = Done raw /\ mount raw = Done (Ok (set_next_inode n v)).
Proof.
  destruct demo_volume_reached as (v & Hwf & Hnl & Hp).
  destruct (sync_mount_roundtrip (A := toy_aead) (L := toy_aead_laws) v Hwf Hnl Hp) as (raw & n & H1 & _ & H2 & _).
  exists v, raw, n. split_and!; [exact Hp|exact H1|exact H2].
Defined.

(** ** Where persistence departs from its contract *)

(** The answer to [q] of the volume that [ops] reach on a fresh one, once it
    has been written out and mounted again. *)
Definition remount (total : Z) (ops : list vol_op) (q : vol_op) : run (result FsError vol_out) :=
  v ← vol_format total; tr ← vol_trace (A := toy_aead) ops v;
  match last tr with
  | Some (_, v) =>
      raw ← sync_to_bytes v; r ← mount raw;
      match r with Ok v => '(o, _) ← vol_step (A := toy_aead) q v; Done (Ok o) | Err e => Done (Err e) end
  | None => Panicked
  end.

(** A file below a directory comes back in the root directory. *)
Lemma nested_path_flattened : remount 8 [VoCreate (lit "/d/x")] (VoStat (lit "/d/x")) = Done (Ok (OStat (Err FileNotFound))) /\
  remount 8 [VoCreate (lit "/d/x")] (VoList (lit "/")) = Done (Ok (ONames (Ok [lit "x"]))).
Proof. split; vm_compute; reflexivity. Qed.

(** A full volume has a data block more than the image has room for: the last
    one is dropped and the file reads as zeroes there. *)
Lemma full_volume_loses_block :
  remount 8 [VoCreate (lit "/a"); VoWrite (lit "/a") 0 (replicate (Z.to_nat 20480) 1)] (VoRead (lit "/a") 16380 9) =
  Done (Ok (OData (Ok [1; 1; 1; 1; 0; 0; 0; 0; 0]))).
Proof. vm_compute. reflexivity. Qed.

(** The blocks a failed write has leaked shift the data that follows them. *)
Lemma leak_breaks_remount :
  remount 8 [VoCreate (lit "/a"); VoCreate (lit "/b"); VoWrite (lit "/a") 0 [1]; VoWrite (lit "/b") 0 [2]; VoDelete (lit "/a");
             VoCreate (lit "/a"); VoWrite (lit "/a") 0 (replicate (Z.to_nat 20480) 1)] (VoRead (lit "/b") 0 9) =
  Done (Ok (OData (Err IntegrityViolation))).
Proof. vm_compute. reflexivity. Qed.

(** A record that the end of the inode table cuts between its 40th and its
    48th byte makes the mount panic. *)
Lemma cut_table_panics :
  remount 8 [VoCreate (47 :: replicate (Z.to_nat 3925) 97); VoCreate (lit "/b")] (VoList (lit "/")) = Panicked.
Proof. vm_compute. reflexivity. Qed.

(** An image whose superblock claims a size that does not fit 64 bits makes the
    mount panic where it should be refused. *)
Lemma crafted_superblock_panics :
  mount (superblock_bytes {| sb_magic := OMNI_FS_MAGIC; sb_version := OMNI_FS_VERSION; sb_block_size := 4096; sb_total_blocks := 2 ^ 60;
    sb_free_blocks := 0; sb_inode_count := 1; sb_root_inode := 1; sb_created_at := 0; sb_aead_key_id := 0 |} ++ replicate (Z.to_nat 4096) 0) = Panicked.
Proof. vm_compute. reflexivity. Qed.
