(* ===== verification/FsService.v ===== *)
(** * File-system service (omni-fs: lib.rs, [VolumeRegistry], [BlkChannelConsumer], [FsService])

    The service answers requests from an in-memory volume, keeps a registry of
    block channels and may hold an on-disk volume, which it formats, mounts and
    writes out.  The theorem says that its answers follow from the files alone. *)

From Stdlib Require Import ZArith Lia String.
From stdpp Require Import base numbers list gmap sorting.
From S2P Require Import Prelude Str FsBlocks FsSpec MemFs BlockBitmap OnDisk OnDiskSync.

(** ** Volume registry and block requests *)

Definition VolumeRegistry : Type := gmap str Z.

Definition registry_register (slot : str) (channel_id : Z) (r : VolumeRegistry) : result FsError unit * VolumeRegistry :=
  if bool_decide (slot = []) then (Err InvalidSlotName, r) else
  if channel_id =? 0 then (Err InvalidChannelId, r) else
  match r !! slot with
  | Some _ => (Err VolumeAlreadyRegistered, r)
  | None => (Ok tt, <[slot := channel_id]> r)
  end.

Definition registry_unregister (slot : str) (r : VolumeRegistry) : result FsError unit * VolumeRegistry :=
  match r !! slot with
  | None => (Err VolumeNotFound, r)
  | Some _ => (Ok tt, delete slot r)
  end.

(** [BlkChannelConsumer], over any type of requests. *)
Record BlkChannelConsumer (R : Type) := { bc_channel : Z; bc_next : Z; bc_pending : gmap Z R }.
Arguments bc_channel {R} _.
Arguments bc_next {R} _.
Arguments bc_pending {R} _.
Arguments Build_BlkChannelConsumer {R} _ _ _.

Definition consumer_new {R} (channel_id : Z) : BlkChannelConsumer R := Build_BlkChannelConsumer channel_id 1 ∅.

Definition consumer_submit {R} (request : R) (c : BlkChannelConsumer R) : result FsError Z * BlkChannelConsumer R :=
  if bc_channel c =? 0 then (Err ChannelDisconnected, c) else
  let id := bc_next c in
  (Ok id, Build_BlkChannelConsumer (bc_channel c) (wrap64 (id + 1)) (<[id := request]> (bc_pending c))).

Definition consumer_correlate {R P} (request_id : Z) (response : P) (c : BlkChannelConsumer R)
    : result FsError P * BlkChannelConsumer R :=
  match bc_pending c !! request_id with
  | None => (Err CorrelationIdNotFound, c)
  | Some _ => (Ok response, Build_BlkChannelConsumer (bc_channel c) (bc_next c) (delete request_id (bc_pending c)))
  end.

(** ** The service *)

Inductive FsRequest :=
| FsRead (path : str) (offset count : Z)
| FsWrite (path : str) (offset data_len : Z)
| FsWriteData (path : str) (offset : Z) (data : list Z)
| FsFlush (path : str)
| FsStat (path : str)
| FsCreate (path : str)
| FsDelete (path : str)
| FsListDir (path : str).

Inductive FsResponse :=
| ROk | RNotImplemented | RBlkError | RNotFound | RIoError | RStat (m : FileMetadata) | RReadData (data : list Z)
| RAlreadyExists | RNoSpace.

Inductive FsRegistrationError := AlreadyRegistered | RegInvalidChannelId.

Record FsService := { sv_channel : option Z; sv_registry : VolumeRegistry; sv_fs : option InMemoryFs; sv_ondisk : option OnDiskVolume }.

Definition service_new : FsService := {| sv_channel := None; sv_registry := ∅; sv_fs := None; sv_ondisk := None |}.

Definition set_sv_fs (fs : InMemoryFs) (s : FsService) : FsService :=
  {| sv_channel := sv_channel s; sv_registry := sv_registry s; sv_fs := Some fs; sv_ondisk := sv_ondisk s |}.

Definition set_sv_ondisk (v : OnDiskVolume) (s : FsService) : FsService :=
  {| sv_channel := sv_channel s; sv_registry := sv_registry s; sv_fs := sv_fs s; sv_ondisk := Some v |}.

Definition set_sv_registry (r : VolumeRegistry) (s : FsService) : FsService :=
  {| sv_channel := sv_channel s; sv_registry := r; sv_fs := sv_fs s; sv_ondisk := sv_ondisk s |}.

Definition format_volume (total_blocks : Z) (s : FsService) : FsService := set_sv_fs (mem_format total_blocks) s.

Definition format_ondisk_volume (total_blocks : Z) (s : FsService) : run FsService :=
  v ← vol_format total_blocks; Done (set_sv_ondisk v s).

Definition mount_ondisk_volume (raw : list Z) (s : FsService) : run (result FsError unit * FsService) :=
  r ← mount raw;
  match r with Ok v => Done (Ok tt, set_sv_ondisk v s) | Err e => Done (Err e, s) end.

Definition sync_ondisk_to_bytes (s : FsService) : run (option (list Z)) :=
  match sv_ondisk s with None => Done None | Some v => raw ← sync_to_bytes v; Done (Some raw) end.

Definition service_register (channel_id : Z) (s : FsService) : result FsRegistrationError unit * FsService :=
  match sv_channel s with
  | Some _ => (Err AlreadyRegistered, s)
  | None =>
      if channel_id =? 0 then (Err RegInvalidChannelId, s)
      else (Ok tt, {| sv_channel := Some channel_id; sv_registry := sv_registry s; sv_fs := sv_fs s; sv_ondisk := sv_ondisk s |})
  end.

Definition register_volume (slot : str) (channel_id : Z) (s : FsService) : result FsError unit * FsService :=
  let '(r, reg) := registry_register slot channel_id (sv_registry s) in (r, set_sv_registry reg s).

Definition unregister_volume (slot : str) (s : FsService) : result FsError unit * FsService :=
  let '(r, reg) := registry_unregister slot (sv_registry s) in (r, set_sv_registry reg s).

Definition write_response (r : result FsError Z) : FsResponse :=
  match r with Ok _ => ROk | Err FileNotFound => RNotFound | Err NoSpace => RNoSpace | Err _ => RIoError end.

Definition handle_request (request : FsRequest) (s : FsService) : run (FsResponse * FsService) :=
  match sv_fs s with
  | None => Done (RNotImplemented, s)
  | Some fs =>
      match request with
      | FsCreate path =>
          let '(r, fs) := mem_create_file path fs in
          Done (match r with Ok _ => ROk | Err FileAlreadyExists => RAlreadyExists | Err _ => RIoError end, set_sv_fs fs s)
      | FsDelete path =>
          let '(r, fs) := mem_delete_file path fs in
          Done (match r with Ok _ => ROk | Err FileNotFound => RNotFound | Err _ => RIoError end, set_sv_fs fs s)
      | FsRead path offset count =>
          r ← mem_read_file path offset count fs;
          Done (match r with Ok data => RReadData data | Err FileNotFound => RNotFound | Err _ => RIoError end, s)
      | FsWriteData path offset data =>
          '(r, fs) ← mem_write_file path offset data fs; Done (write_response r, set_sv_fs fs s)
      | FsWrite path offset data_len =>
          '(r, fs) ← mem_write_file path offset (replicate (Z.to_nat data_len) 0) fs; Done (write_response r, set_sv_fs fs s)
      | FsFlush _ => Done (ROk, s)
      | FsStat path =>
          Done (match mem_stat_file path fs with Ok m => RStat m | Err FileNotFound => RNotFound | Err _ => RIoError end, s)
      | FsListDir path =>
          Done (match mem_list_directory path fs with Ok _ => ROk | Err FileNotFound => RNotFound | Err _ => RIoError end, s)
      end
  end.

Fixpoint service_trace (requests : list FsRequest) (s : FsService) : run (list (FsResponse * FsService)) :=
  match requests with
  | [] => Done []
  | q :: requests => '(a, s) ← handle_request q s; tr ← service_trace requests s; Done ((a, s) :: tr)
  end.

(** ** The contract of a request *)

Definition service_tree (s : FsService) : ftree := match sv_fs s with Some fs => mem_tree fs | None => fun _ => None end.

Definition service_room (path : str) (offset : Z) (data : list Z) (s : FsService) : bool :=
  match sv_fs s with Some fs => mem_room path offset data fs | None => false end.

Definition create_answer (p : str) (T : ftree) (a : FsResponse) (T' : ftree) : Prop :=
  if MAX_PATH_LEN <? Z.of_nat (length p) then a = RIoError /\ same_tree T T' else
  match T p with
  | Some _ => a = RAlreadyExists /\ same_tree T T'
  | None => a = ROk /\ same_tree (tree_set p (Some (FFile [])) T) T'
  end.

Definition write_answer (p : str) (offset : Z) (data : list Z) (room : bool) (T : ftree) (a : FsResponse) (T' : ftree) : Prop :=
  match T p with
  | None => a = RNotFound /\ same_tree T T'
  | Some FDir => a = RIoError /\ same_tree T T'
  | Some (FFile old) =>
      if bool_decide (data = []) then a = ROk /\ same_tree T T' else
      if room then a = ROk /\ same_tree (tree_set p (Some (FFile (file_write offset data old))) T) T'
      else a = RNoSpace /\ same_tree T T'
  end.

Definition delete_answer (p : str) (T : ftree) (a : FsResponse) (T' : ftree) : Prop :=
  match T p with
  | None => a = RNotFound /\ same_tree T T'
  | Some FDir => a = RIoError /\ same_tree T T'
  | Some (FFile _) => a = ROk /\ same_tree (tree_set p None T) T'
  end.

Definition read_answer (p : str) (offset count : Z) (T : ftree) : FsResponse :=
  match T p with None => RNotFound | Some FDir => RIoError | Some (FFile old) => RReadData (file_read offset count old) end.

Definition stat_answer (p : str) (T : ftree) (a : FsResponse) : Prop :=
  match T p with
  | None => a = RNotFound
  | Some FDir => exists m, a = RStat m /\ fm_size m = 0
  | Some (FFile old) => exists m, a = RStat m /\ fm_size m = Z.of_nat (length old)
  end.

Definition list_answer (p : str) (T : ftree) : FsResponse :=
  match T p with None => RNotFound | Some (FFile _) => RIoError | Some FDir => ROk end.

Definition answer_ok (q : FsRequest) (s : FsService) (a : FsResponse) (s' : FsService) : Prop :=
  let T := service_tree s in let T' := service_tree s' in
  match q with
  | FsCreate p => create_answer p T a T'
  | FsDelete p => delete_answer p T a T'
  | FsWriteData p offset data => write_answer p offset data (service_room p offset data s) T a T'
  | FsWrite p offset n =>
      let data := replicate (Z.to_nat n) 0 in write_answer p offset data (service_room p offset data s) T a T'
  | FsRead p offset count => a = read_answer p offset count T /\ s' = s
  | FsStat p => stat_answer p T a /\ s' = s
  | FsListDir p => a = list_answer p T /\ s' = s
  | FsFlush _ => a = ROk /\ s' = s
  end.

(** Only the in-memory volume changes. *)
Definition rest_same (s s' : FsService) : Prop :=
  sv_channel s' = sv_channel s /\ sv_registry s' = sv_registry s /\ sv_ondisk s' = sv_ondisk s.

Fixpoint answers_ok (requests : list FsRequest) (s : FsService) (tr : list (FsResponse * FsService)) : Prop :=
  match requests, tr with
  | [], [] => True
  | q :: requests, (a, s') :: tr => answer_ok q s a s' /\ rest_same s s' /\ answers_ok requests s' tr
  | _, _ => False
  end.

Definition request_ok (q : FsRequest) : Prop :=
  match q with
  | FsRead _ offset count => 0 <= offset /\ 0 <= count /\ offset + count < 2 ^ 64
  | FsWriteData _ offset data => 0 <= offset /\ Forall is_u8 data /\ offset + Z.of_nat (length data) < 2 ^ 64
  | FsWrite _ offset n => 0 <= offset /\ 0 <= n /\ offset + n < 2 ^ 64
  | _ => True
  end.

(** How many inodes and blocks a request may number. *)
Definition weight (q : FsRequest) : Z :=
  match q with
  | FsWriteData _ offset data => (offset + Z.of_nat (length data)) / BLOCK_SIZE + 1
  | FsWrite _ offset n => (offset + n) / BLOCK_SIZE + 1
  | _ => 1
  end.

Definition weights (requests : list FsRequest) : Z := foldr (fun q n => weight q + n) 0 requests.

(** ** Lemmas *)

Definition serving (n : Z) (s : FsService) : Prop :=
  exists fs, sv_fs s = Some fs /\ mem_wf fs /\ mf_next_inode fs <= n /\ mf_next_block fs <= n.

Lemma weight_pos q : request_ok q -> 1 <= weight q.
Proof.
  destruct q; cbn; try lia; intros (H1 & H2 & H3); unfold BLOCK_SIZE.
  - pose proof (Z.div_pos (offset + data_len) 4096). lia.
  - pose proof (Z.div_pos (offset + Z.of_nat (length data)) 4096). lia.
Qed.

Lemma write_answered p offset data n s fs : serving n s -> sv_fs s = Some fs -> 0 <= offset -> Forall is_u8 data ->
  offset + Z.of_nat (length data) < 2 ^ 64 -> let m := n + (offset + Z.of_nat (length data)) / BLOCK_SIZE + 1 in m < 2 ^ 64 ->
  exists r fs', mem_write_file p offset data fs = Done (r, fs') /\
    write_answer p offset data (service_room p offset data s) (service_tree s) (write_response r) (service_tree (set_sv_fs fs' s)) /\
    serving m (set_sv_fs fs' s).
Proof.
  intros (fs0 & Hs & Hwf & Hi & Hb) Hs' Ho Hu Hov m Hm. rewrite Hs' in Hs. injection Hs as <-.
  assert (0 <= (offset + Z.of_nat (length data)) / BLOCK_SIZE) by (unfold BLOCK_SIZE; apply Z.div_pos; lia).
  destruct (mem_write_spec p offset data fs Hwf Ho Hov Hu ltac:(lia)) as (r & fs' & E & Hwf' & Hok & Hi' & Hb').
  exists r, fs'. split; [done|]. split; [|exists fs'; split_and!; [done|done|lia|lia]].
  unfold write_answer, write_ok, service_tree, service_room in *. rewrite Hs'. cbn [set_sv_fs sv_fs].
  destruct (mem_tree fs p) as [[old|]|]; [case_bool_decide; [|destruct (mem_room p offset data fs)]| |]; destruct Hok as [-> Hok]; done.
Qed.

Lemma no_check_sound fs : mem_wf fs -> blocks_sound no_check (mf_data_blocks fs).
Proof. intros Hwf b block Hb. split; [|done]. by apply (fw_block _ _ _ _ (mw_files _ Hwf) b block). Qed.

Lemma handle_request_spec q n s : serving n s -> request_ok q -> n + weight q < 2 ^ 64 ->
  exists a s', handle_request q s = Done (a, s') /\ answer_ok q s a s' /\ rest_same s s' /\ serving (n + weight q) s'.
Proof.
  intros Hs Hq Hn. pose proof (weight_pos q Hq) as Hw. pose proof Hs as (fs & Hfs & Hwf & Hi & Hb). unfold handle_request. rewrite Hfs.
  assert (serving (n + weight q) s) as Hs' by (exists fs; split_and!; [done|done|lia|lia]).
  assert (service_tree s = mem_tree fs) as ET by (unfold service_tree; by rewrite Hfs).
  destruct q as [p offset count|p offset len|p offset data|p|p|p|p|p]; cbn [answer_ok request_ok weight] in *; rewrite ?ET.
  - destruct Hq as (H1 & H2 & H3).
    destruct (read_tree _ _ _ _ (mw_files _ Hwf) no_check p offset count (no_check_sound fs Hwf) H1 H2 H3) as (r & E & Hr).
    unfold mem_read_file. rewrite E. cbn [mbind run_bind]. eexists _, _. split; [reflexivity|]. split_and!; try done.
    unfold read_ok in Hr. unfold read_answer, mem_tree. rewrite Hr. by destruct (tree_of _ _ _ p) as [[]|].
  - destruct Hq as (H1 & H2 & H3). assert (Z.of_nat (length (replicate (Z.to_nat len) 0)) = len) as El by (rewrite length_replicate; lia).
    destruct (write_answered p offset (replicate (Z.to_nat len) 0) n s fs Hs Hfs H1) as (r & fs' & E & Hans & Hs2);
      [apply Forall_replicate; unfold is_u8; lia|lia|rewrite El; lia|].
    rewrite E. cbn [mbind run_bind]. rewrite El in Hs2. rewrite ET in Hans. rewrite <- Z.add_assoc in Hs2. eexists _, _. split; [reflexivity|]. done.
  - destruct Hq as (H1 & H2 & H3). destruct (write_answered p offset data n s fs Hs Hfs H1 H2 H3) as (r & fs' & E & Hans & Hs2); [lia|].
    rewrite E. cbn [mbind run_bind]. rewrite ET in Hans. rewrite <- Z.add_assoc in Hs2. eexists _, _. split; [reflexivity|]. done.
  - by eexists _, _.
  - eexists _, _. split; [reflexivity|]. split_and!; try done. pose proof (stat_tree _ _ _ _ (mw_files _ Hwf) p) as Hr.
    unfold stat_answer, stat_ok, mem_stat_file, mem_tree in *. destruct (tree_of _ _ _ p) as [[]|]; [..|by rewrite Hr];
      destruct Hr as (m & -> & Hm); by exists m.
  - destruct (mem_create_file p fs) as [r fs'] eqn:E. destruct (mem_create_spec p fs r fs' Hwf ltac:(lia) E) as (Hwf' & Hok & Hb' & Hi').
    eexists _, _. split; [reflexivity|]. split; [|split; [done|exists fs'; split_and!; [done|done|lia|lia]]].
    unfold create_answer, create_ok, service_tree in *. cbn [set_sv_fs sv_fs].
    destruct (MAX_PATH_LEN <? _); [|destruct (mem_tree fs p)]; destruct Hok as [Hr Hok]; [by subst|by subst|destruct Hr as [k ->]; done].
  - destruct (mem_delete_file p fs) as [r fs'] eqn:E. destruct (mem_delete_spec p fs r fs' Hwf E) as (Hwf' & Hok & Hb' & Hi').
    eexists _, _. split; [reflexivity|]. split; [|split; [done|exists fs'; split_and!; [done|done|lia|lia]]].
    unfold delete_answer, delete_ok, service_tree in *. cbn [set_sv_fs sv_fs].
    destruct (mem_tree fs p) as [[]|]; destruct Hok as [-> Hok]; done.
  - eexists _, _. split; [reflexivity|]. split_and!; try done. pose proof (list_tree _ _ _ _ (mw_files _ Hwf) p) as Hr.
    unfold list_answer, list_ok, mem_list_directory, mem_tree in *. destruct (tree_of _ _ _ p) as [[]|]; [by rewrite Hr| |by rewrite Hr].
    by destruct Hr as (names & -> & _).
Qed.

Lemma weights_pos requests : Forall request_ok requests -> 0 <= weights requests.
Proof. induction 1 as [|q l Hq _ IH]; [done|]. cbn [weights foldr]. fold (weights l). pose proof (weight_pos q Hq). lia. Qed.

Lemma service_trace_spec requests n s : serving n s -> Forall request_ok requests -> n + weights requests < 2 ^ 64 ->
  exists tr, service_trace requests s = Done tr /\ answers_ok requests s tr.
Proof.
  revert n s. induction requests as [|q l IH]; intros n s Hs Hall Hn; [by exists []|]. apply Forall_cons in Hall as [Hq Hall].
  cbn [weights foldr] in Hn. fold (weights l) in Hn. pose proof (weights_pos l Hall). cbn [service_trace].
  destruct (handle_request_spec q n s Hs Hq ltac:(lia)) as (a & s' & -> & Hok & Hrest & Hs'). cbn [mbind run_bind].
  destruct (IH _ s' Hs' Hall ltac:(lia)) as (tr & -> & Htr). cbn [mbind run_bind]. by eexists.
Qed.

(** ** Theorem *)

(** File-system service: before a volume is formatted every request is
    answered [NotImplemented] and changes nothing; afterwards no sequence of
    requests panics, and each is answered from the files alone: reads return
    what was last written, a write or a deletion changes exactly its file, each
    error code is the one its cause calls for, and nothing but the volume
    changes. *)
Theorem fs_service_refines (s : FsService) (total : Z) (requests : list FsRequest) (Ht : 0 <= total)
    (Hq : Forall request_ok requests) (Hw : weights requests < 2 ^ 63) :
  (forall q, sv_fs s = None -> handle_request q s = Done (RNotImplemented, s)) /\
  same_tree (tree_set (lit "/") (Some FDir) (fun _ => None)) (service_tree (format_volume total s)) /\
  exists tr, service_trace requests (format_volume total s) = Done tr /\ answers_ok requests (format_volume total s) tr.
Proof.
  split; [|split].
  - intros q Hs. unfold handle_request. by rewrite Hs.
  - intros q. unfold service_tree, mem_tree, tree_of, tree_set. cbn [format_volume set_sv_fs sv_fs mem_format mf_path_map mf_inodes mf_data_blocks].
    destruct (str_eqb q (lit "/")) eqn:E.
    + apply str_eqb_eq in E as ->. rewrite lookup_singleton_eq. cbn [mbind option_bind]. by rewrite lookup_singleton_eq.
    + rewrite lookup_singleton_ne; [done|]. intros <-. by rewrite (proj2 (str_eqb_eq _ _) eq_refl) in E.
  - apply (service_trace_spec requests 2); [|done|lia]. exists (mem_format total). split_and!; try done. by apply mem_format_wf.
Qed.

(** ** Witness *)

Definition demo_requests : list FsRequest :=
  [FsCreate (lit "/a"); FsCreate (lit "/a"); FsWriteData (lit "/a") 4095 [7; 8]; FsRead (lit "/a") 4094 9; FsWrite (lit "/a") 4096 1;
   FsRead (lit "/a") 4094 9; FsWriteData (lit "/a") 65536 [1]; FsDelete (lit "/"); FsDelete (lit "/a"); FsRead (lit "/a") 0 1].

Example demo_service : (tr ← service_trace demo_requests (format_volume 4 service_new); Done (map fst tr)) =
  Done [ROk; RAlreadyExists; ROk; RReadData [0; 7; 8]; ROk; RReadData [0; 7; 0]; RNoSpace; RIoError; ROk; RNotFound].
Proof. vm_compute. reflexivity. Qed.

Lemma fs_service_refines_witness : Forall request_ok demo_requests /\
  exists tr, service_trace demo_requests (format_volume 4 service_new) = Done tr /\ answers_ok demo_requests (format_volume 4 service_new) tr.
Proof.
  assert (Forall request_ok demo_requests) as Hok by (unfold demo_requests; repeat constructor; cbn; try lia).
  split; [exact Hok|]. exact (proj2 (proj2 (fs_service_refines service_new 4 demo_requests ltac:(lia) Hok ltac:(vm_compute; reflexivity)))).
Defined.
