(* ===== verification/Glob.v ===== *)
(** * Pathname patterns of the shell (omni-shell: glob.rs)

    The matcher walks pattern and name with one backtracking point, the last
    star.  The theorem says that it ends and decides the language of the
    pattern.  Strings of the shell are lists of characters (scalar values). *)

From Stdlib Require Import ZArith Lia String.
From stdpp Require Import base numbers list sets sorting.
From S2P Require Import Prelude Str.

(** ** Characters *)

Definition STAR : Z := 42.
Definition QUESTION : Z := 63.
Definition BRACKET : Z := 91.
Definition CLOSE : Z := 93.
Definition DASH : Z := 45.
Definition DOT : Z := 46.

(** ** Character classes *)

Fixpoint char_in_class (class : list Z) (ch : Z) : bool :=
  match class with
  | [] => false
  | a :: rest =>
      match rest with
      | d :: b :: rest' =>
          if d =? DASH then if (a <=? ch) && (ch <=? b) then true else char_in_class rest' ch
          else if a =? ch then true else char_in_class rest ch
      | _ => if a =? ch then true else char_in_class rest ch
      end
  end.

(** The scan for the closing bracket, [l] being the pattern from index [i]. *)
Fixpoint find_close (l : list Z) (i class_start : nat) : option nat :=
  match l with
  | [] => None
  | c :: l => if (c =? CLOSE) && negb (i =? class_start)%nat then Some i else find_close l (S i) class_start
  end.

Definition match_bracket (pat : list Z) (ch : Z) : bool * nat :=
  let negated := match pat !! 1%nat with Some c => (c =? 33) || (c =? 94) | None => false end in
  let class_start := if negated then 2%nat else 1%nat in
  match find_close (drop class_start pat) class_start class_start with
  | None => (ch =? BRACKET, 1%nat)
  | Some close_pos =>
      let class := take (close_pos - class_start) (drop class_start pat) in
      let in_class := char_in_class class ch in
      (if negated then negb in_class else in_class, (1 + (close_pos - class_start) + 1 + Nat.b2n negated)%nat)
  end.

(** ** The matcher *)

Record GlobState := { gs_p : nat; gs_t : nat; gs_star_p : option nat; gs_star_t : nat }.

Definition glob_advance (n : nat) (s : GlobState) : GlobState :=
  {| gs_p := gs_p s + n; gs_t := S (gs_t s); gs_star_p := gs_star_p s; gs_star_t := gs_star_t s |}.

(** Back to the last star, which takes one character more. *)
Definition glob_backtrack (s : GlobState) : GlobState + bool :=
  match gs_star_p s with
  | Some sp => inl {| gs_p := sp; gs_t := S (gs_star_t s); gs_star_p := Some sp; gs_star_t := S (gs_star_t s) |}
  | None => inr false
  end.

(** [while p < pat.len() && pat[p] == '*']. *)
Fixpoint skip_stars (l : list Z) (p : nat) : nat :=
  match l with c :: l => if c =? STAR then skip_stars l (S p) else p | [] => p end.

(** One round of the loop, or the test behind it. *)
Definition glob_step (pat txt : list Z) (s : GlobState) : GlobState + bool :=
  let p := gs_p s in let t := gs_t s in
  match txt !! t with
  | None => inr (skip_stars (drop p pat) p =? length pat)%nat
  | Some c =>
      match pat !! p with
      | None => glob_backtrack s
      | Some pc =>
          if pc =? STAR then inl {| gs_p := S p; gs_t := t; gs_star_p := Some (S p); gs_star_t := t |} else
          if pc =? QUESTION then if c =? SLASH then glob_backtrack s else inl (glob_advance 1 s) else
          if pc =? BRACKET then
            let '(matched, consumed) := match_bracket (drop p pat) c in
            if matched then inl (glob_advance consumed s) else glob_backtrack s
          else if c =? pc then inl (glob_advance 1 s) else glob_backtrack s
      end
  end.

Fixpoint glob_loop (fuel : nat) (pat txt : list Z) (s : GlobState) : option bool :=
  match fuel with
  | O => None
  | S fuel => match glob_step pat txt s with inr b => Some b | inl s => glob_loop fuel pat txt s end
  end.

(** Each star is tried at every position of the name, and between two tries
    the pattern is walked at most once. *)
Definition glob_fuel (pat txt : list Z) : nat := ((length pat + 2) * (length txt + 1) * (length pat + 1))%nat.

Definition glob_match_chars (pat txt : list Z) : option bool :=
  glob_loop (glob_fuel pat txt) pat txt {| gs_p := 0; gs_t := 0; gs_star_p := None; gs_star_t := 0 |}.

Definition glob_match (pattern name : list Z) : bool := default false (glob_match_chars pattern name).

(** ** Expansion

    The trait [FsQuery]: what the shell asks the file system for. *)

Class FsQuery := list_dir : str -> result str (list str).

Definition is_glob (s : str) : bool := bool_decide (STAR ∈ s) || bool_decide (QUESTION ∈ s) || bool_decide (BRACKET ∈ s).

Definition split_pattern (pattern cwd : str) : str * str :=
  match rsplit_once pattern SLASH with
  | None => (cwd, pattern)
  | Some (dir, file_pat) => (if bool_decide (dir = []) then lit "/" else dir, file_pat)
  end.

(** [str::trim_end_matches] on a character. *)
Fixpoint trim_end (c : Z) (s : str) : str :=
  match s with
  | [] => []
  | x :: s => match trim_end c s with [] => if x =? c then [] else [x] | t => x :: t end
  end.

Definition hidden (name : str) : bool := starts_with name (lit ".").

(** The path of an entry that matches. *)
Definition glob_path (pattern dir name : str) : str :=
  if bool_decide (SLASH ∈ pattern) then trim_end SLASH dir ++ lit "/" ++ name else name.

Definition expand_glob {fs : FsQuery} (pattern cwd : str) : list str :=
  if negb (is_glob pattern) then [pattern] else
  let '(dir, file_pat) := split_pattern pattern cwd in
  let show_hidden := hidden file_pat in
  let entries := match list_dir dir with Ok entries => entries | Err _ => [] end in
  let ms := map (glob_path pattern dir)
    (filter (fun name => (if hidden name && negb show_hidden then false else glob_match file_pat name) = true) entries) in
  match ms with [] => [pattern] | _ => merge_sort str_le ms end.

(** ** The language of a pattern *)

Definition is_range (class : list Z) : Prop := exists a b rest, class = a :: DASH :: b :: rest.

Inductive in_class : list Z -> Z -> Prop :=
| ic_range a b rest c : a <= c <= b -> in_class (a :: DASH :: b :: rest) c
| ic_after_range a b rest c : in_class rest c -> in_class (a :: DASH :: b :: rest) c
| ic_here a rest : ~ is_range (a :: rest) -> in_class (a :: rest) a
| ic_after a rest c : ~ is_range (a :: rest) -> in_class rest c -> in_class (a :: rest) c.

Definition negation (c : Z) : Prop := c = 33 \/ c = 94.

(** A bracket expression: its sign, its members and the pattern behind it.  A
    closing bracket in the first place is a member. *)
Inductive bracket : list Z -> bool -> list Z -> list Z -> Prop :=
| br_pos m class rest : ~ negation m -> CLOSE ∉ class -> bracket (BRACKET :: m :: class ++ CLOSE :: rest) false (m :: class) rest
| br_neg n m class rest : negation n -> CLOSE ∉ class -> bracket (BRACKET :: n :: m :: class ++ CLOSE :: rest) true (m :: class) rest.

Definition plain (c : Z) : Prop := c <> STAR /\ c <> QUESTION /\ c <> BRACKET.

(** The language as the documentation of [glob_match] gives it: neither a star
    nor a question mark takes a path separator, and a bracket that is not closed
    matches nothing. *)
Inductive doc_matches : list Z -> list Z -> Prop :=
| dm_nil : doc_matches [] []
| dm_star_end pat txt : doc_matches pat txt -> doc_matches (STAR :: pat) txt
| dm_star_more pat c txt : c <> SLASH -> doc_matches (STAR :: pat) txt -> doc_matches (STAR :: pat) (c :: txt)
| dm_question pat c txt : c <> SLASH -> doc_matches pat txt -> doc_matches (QUESTION :: pat) (c :: txt)
| dm_class pat neg class rest c txt : bracket pat neg class rest ->
    (if neg : bool then ~ in_class class c else in_class class c) -> doc_matches rest txt -> doc_matches pat (c :: txt)
| dm_char pat c txt : plain c -> doc_matches pat txt -> doc_matches (c :: pat) (c :: txt).

(** The language the matcher decides: a star takes any character, and an
    unclosed bracket stands for itself. *)
Inductive matches : list Z -> list Z -> Prop :=
| m_nil : matches [] []
| m_star_end pat txt : matches pat txt -> matches (STAR :: pat) txt
| m_star_more pat c txt : matches (STAR :: pat) txt -> matches (STAR :: pat) (c :: txt)
| m_question pat c txt : c <> SLASH -> matches pat txt -> matches (QUESTION :: pat) (c :: txt)
| m_class pat neg class rest c txt : bracket pat neg class rest ->
    (if neg : bool then ~ in_class class c else in_class class c) -> matches rest txt -> matches pat (c :: txt)
| m_open pat txt : (forall neg class rest, ~ bracket (BRACKET :: pat) neg class rest) ->
    matches pat txt -> matches (BRACKET :: pat) (BRACKET :: txt)
| m_char pat c txt : plain c -> matches pat txt -> matches (c :: pat) (c :: txt).

(** ** Lemmas on classes *)

Lemma range_cases a rest : (exists b rest', rest = DASH :: b :: rest') \/ ~ is_range (a :: rest).
Proof.
  destruct rest as [|d [|b rest]]; [right; intros (? & ? & ? & [=])|right; intros (? & ? & ? & [=])|].
  destruct (decide (d = DASH)) as [->|Hd]; [left; by eexists _, _|right; intros (? & ? & ? & [=]); congruence].
Qed.

Lemma char_in_class_plain a rest ch : ~ is_range (a :: rest) ->
  char_in_class (a :: rest) ch = if a =? ch then true else char_in_class rest ch.
Proof.
  intros Hr. destruct rest as [|d [|b rest]]; [done|done|]. cbn [char_in_class].
  destruct (Z.eqb_spec d DASH) as [->|]; [|done]. exfalso. apply Hr. by eexists _, _, _.
Qed.

Lemma char_in_class_spec class ch : char_in_class class ch = true <-> in_class class ch.
Proof.
  remember (length class) as n eqn:Hn. revert class Hn. induction (lt_wf n) as [n _ IH]. intros [|a rest] ->.
  { split; [done|]. intros H. inversion H. }
  destruct (range_cases a rest) as [(b & rest' & ->)|Hr].
  - cbn [char_in_class]. rewrite Z.eqb_refl. pose proof (IH (length rest') ltac:(cbn; lia) rest' eq_refl) as IH'.
    destruct ((a <=? ch) && (ch <=? b)) eqn:E.
    + split; [|done]. intros _. apply ic_range. lia.
    + rewrite IH'. split; [by apply ic_after_range|]. intros H. inversion H; subst; [lia|done| |];
        (exfalso; match goal with Hn : ~ is_range _ |- _ => apply Hn; by eexists _, _, _ end).
  - rewrite (char_in_class_plain _ _ _ Hr). pose proof (IH (length rest) ltac:(cbn; lia) rest eq_refl) as IH'.
    destruct (Z.eqb_spec a ch) as [->|Hne]; [split; [|done]; intros _; by apply ic_here|]. rewrite IH'.
    split; [by apply ic_after|]. intros H. inversion H; subst; [..|done|done]; exfalso; apply Hr; by eexists _, _, _.
Qed.

Lemma close_unique a b r s : CLOSE ∉ a -> CLOSE ∉ b -> a ++ CLOSE :: r = b ++ CLOSE :: s -> a = b /\ r = s.
Proof.
  revert b. induction a as [|x a IH]; intros [|y b] Ha Hb E; cbn in E; simplify_eq; [done|set_solver|set_solver|].
  destruct (IH b) as [-> ->]; [set_solver|set_solver|done|done].
Qed.

Lemma bracket_fun pat n1 c1 r1 n2 c2 r2 : bracket pat n1 c1 r1 -> bracket pat n2 c2 r2 -> n1 = n2 /\ c1 = c2 /\ r1 = r2.
Proof.
  intros H1 H2. inversion H1; subst; inversion H2; subst; simplify_eq; try contradiction.
  - edestruct close_unique as [? ?]; [| |eassumption|]; [done|done|]. by subst.
  - edestruct close_unique as [? ?]; [| |eassumption|]; [done|done|]. by subst.
Qed.

Lemma find_close_spec l i start : (start < i)%nat ->
  match find_close l i start with
  | Some k => exists class rest, l = class ++ CLOSE :: rest /\ CLOSE ∉ class /\ k = (i + length class)%nat
  | None => CLOSE ∉ l
  end.
Proof.
  revert i. induction l as [|c l IH]; intros i Hi; cbn [find_close]; [apply not_elem_of_nil|].
  rewrite (proj2 (Nat.eqb_neq i start)) by lia. rewrite andb_true_r. destruct (Z.eqb_spec c CLOSE) as [->|Hc].
  - exists [], l. split; [done|]. split; [apply not_elem_of_nil|cbn; lia].
  - specialize (IH (S i) ltac:(lia)). destruct (find_close l (S i) start) as [k|]; [|set_solver].
    destruct IH as (class & rest & -> & Hn & ->). exists (c :: class), rest. split; [done|]. split; [set_solver|cbn; lia].
Qed.

Lemma find_close_first c l i : find_close (c :: l) i i = find_close l (S i) i.
Proof. cbn [find_close]. by rewrite Nat.eqb_refl, andb_false_r. Qed.

(** What a bracket is taken for: a class, or the character itself. *)
Definition bracket_case (tail : list Z) (ch : Z) : Prop :=
  (exists neg class rest, bracket (BRACKET :: tail) neg class rest /\
     match_bracket (BRACKET :: tail) ch =
       (if neg : bool then negb (char_in_class class ch) else char_in_class class ch, (length (BRACKET :: tail) - length rest)%nat) /\
     rest = drop (length (BRACKET :: tail) - length rest) (BRACKET :: tail)) \/
  ((forall neg class rest, ~ bracket (BRACKET :: tail) neg class rest) /\ match_bracket (BRACKET :: tail) ch = (ch =? BRACKET, 1%nat)).

Lemma tail_drop (pre rest : list Z) : rest = drop (length (pre ++ rest) - length rest) (pre ++ rest).
Proof. rewrite length_app, drop_app_length' by lia. done. Qed.

Lemma match_bracket_spec tail ch : bracket_case tail ch.
Proof.
  unfold bracket_case. destruct tail as [|n tail].
  { right. split; [|done]. intros neg class rest H. inversion H. }
  unfold match_bracket. cbn [lookup list_lookup]. destruct ((n =? 33) || (n =? 94)) eqn:En.
  - assert (negation n) as Hn by (unfold negation; lia). cbn [drop Nat.b2n]. rewrite drop_0. destruct tail as [|m tail].
    { right. split; [|done]. intros neg class rest H. inversion H; subst; done. }
    rewrite find_close_first. pose proof (find_close_spec tail 3 2 ltac:(lia)) as Hf.
    destruct (find_close tail 3 2) as [k|].
    + left. destruct Hf as (class & rest & -> & Hc & ->). exists true, (m :: class), rest. split; [by apply br_neg|].
      change (BRACKET :: n :: m :: class ++ CLOSE :: rest) with ((BRACKET :: n :: m :: class) ++ CLOSE :: rest).
      split; [|rewrite (cons_middle CLOSE), app_assoc; apply tail_drop].
      f_equal; [|rewrite length_app; cbn [length]; lia]. do 2 f_equal. cbn [app].
      replace (3 + length class - 2)%nat with (S (length class)) by lia. cbn [firstn take]. by rewrite take_app_length.
    + right. split; [|done]. intros neg class rest H. inversion H; subst; [done|]. set_solver.
  - assert (~ negation n) as Hn by (unfold negation; lia). cbn [drop Nat.b2n]. rewrite ?drop_0, find_close_first.
    pose proof (find_close_spec tail 2 1 ltac:(lia)) as Hf. destruct (find_close tail 2 1) as [k|].
    + left. destruct Hf as (class & rest & -> & Hc & ->). exists false, (n :: class), rest. split; [by apply br_pos|].
      change (BRACKET :: n :: class ++ CLOSE :: rest) with ((BRACKET :: n :: class) ++ CLOSE :: rest).
      split; [|rewrite (cons_middle CLOSE), app_assoc; apply tail_drop].
      f_equal; [|rewrite length_app; cbn [length]; lia]. f_equal. cbn [app].
      replace (2 + length class - 1)%nat with (S (length class)) by lia. cbn [firstn take]. by rewrite take_app_length.
    + right. split; [|done]. intros neg class rest H. inversion H; subst; [|done]. set_solver.
Qed.

(** ** Lemmas on single elements

    Every element but a star takes exactly one character. *)

Definition single (h : Z) (tail : list Z) : (Z -> bool) * nat :=
  if h =? QUESTION then (fun c => negb (c =? SLASH), 1%nat)
  else if h =? BRACKET then (fun c => fst (match_bracket (h :: tail) c), snd (match_bracket (h :: tail) 0))
  else (fun c => c =? h, 1%nat).

Lemma single_width h tail : (1 <= snd (single h tail) <= length (h :: tail))%nat.
Proof.
  unfold single. destruct (Z.eqb_spec h QUESTION) as [|]; [cbn; lia|]. destruct (Z.eqb_spec h BRACKET) as [->|]; [|cbn; lia].
  destruct (match_bracket_spec tail 0) as [(neg & class & rest & Hb & -> & E)|[_ ->]]; [|cbn; lia]. cbn [snd].
  inversion Hb; subst; cbn [length]; rewrite ?length_app; cbn [length]; lia.
Qed.

Lemma matches_single h tail txt : h <> STAR ->
  matches (h :: tail) txt <->
  exists c txt', txt = c :: txt' /\ fst (single h tail) c = true /\ matches (drop (snd (single h tail)) (h :: tail)) txt'.
Proof.
  intros Hh. unfold single. destruct (Z.eqb_spec h QUESTION) as [->|Hq]; [|destruct (Z.eqb_spec h BRACKET) as [->|Hb]]; cbn [fst snd].
  - split.
    + intros H. inversion H; subst; try done; [|match goal with Hb : bracket _ _ _ _ |- _ => inversion Hb end|unfold plain in *; tauto].
      eexists _, _. split; [reflexivity|]. split; [|done]. by apply negb_true_iff, Z.eqb_neq.
    + intros (c & txt' & -> & Hc & H). apply m_question; [|done]. by apply Z.eqb_neq, negb_true_iff.
  - split.
    + intros H. inversion H; subst; try done; [| |unfold plain in *; tauto].
      * match goal with Hb : bracket _ _ _ _ |- _ => rename Hb into Hbr end. eexists _, _. split; [reflexivity|].
        destruct (match_bracket_spec tail c) as [(n2 & c2 & r2 & Hb2 & -> & E2)|[Hno _]]; [|by destruct (Hno _ _ _ Hbr)].
        destruct (match_bracket_spec tail 0) as [(n3 & c3 & r3 & Hb3 & -> & E3)|[Hno _]]; [|by destruct (Hno _ _ _ Hbr)].
        destruct (bracket_fun _ _ _ _ _ _ _ Hbr Hb2) as (<- & <- & <-). destruct (bracket_fun _ _ _ _ _ _ _ Hbr Hb3) as (_ & _ & <-).
        cbn [fst snd]. rewrite <- E2. split; [|done].
        destruct neg; [apply negb_true_iff, not_true_iff_false|]; by rewrite char_in_class_spec.
      * eexists _, _. split; [reflexivity|]. destruct (match_bracket_spec tail BRACKET) as [(n2 & c2 & r2 & Hb2 & _)|[_ ->]];
          [match goal with Hno : forall n, _ |- _ => by destruct (Hno _ _ _ Hb2) end|].
        destruct (match_bracket_spec tail 0) as [(n2 & c2 & r2 & Hb2 & _)|[_ ->]]; [match goal with Hno : forall n, _ |- _ => by destruct (Hno _ _ _ Hb2) end|].
        done.
    + intros (c & txt' & -> & Hc & H).
      destruct (match_bracket_spec tail c) as [(neg & class & rest & Hbr & E & Er)|[Hno E]]; rewrite E in Hc; cbn [fst] in Hc.
      * destruct (match_bracket_spec tail 0) as [(n3 & c3 & r3 & Hb3 & E3 & Er3)|[Hno _]]; [|by destruct (Hno _ _ _ Hbr)].
        destruct (bracket_fun _ _ _ _ _ _ _ Hbr Hb3) as (_ & _ & <-). rewrite E3 in H. cbn [snd] in H. rewrite <- Er in H.
        apply (m_class _ neg class rest); [done| |done].
        destruct neg; [apply negb_true_iff, not_true_iff_false in Hc|]; by rewrite char_in_class_spec in Hc.
      * destruct (match_bracket_spec tail 0) as [(n3 & c3 & r3 & Hb3 & _)|[_ E0]]; [by destruct (Hno _ _ _ Hb3)|].
        rewrite E0 in H. cbn [snd drop] in H. apply Z.eqb_eq in Hc as ->. rewrite drop_0 in H. by apply m_open.
  - split.
    + intros H. inversion H; subst; try done; [match goal with Hb : bracket _ _ _ _ |- _ => inversion Hb; subst; done end|].
      eexists _, _. split; [reflexivity|]. split; [apply Z.eqb_refl|done].
    + intros (c & txt' & -> & ->%Z.eqb_eq & H). by apply m_char.
Qed.

Lemma matches_star pat txt : matches (STAR :: pat) txt <-> exists n, (n <= length txt)%nat /\ matches pat (drop n txt).
Proof.
  split.
  - remember (STAR :: pat) as sp eqn:E. intros H. revert pat E. induction H; intros q [=]; subst; try done.
    + exists 0%nat. rewrite drop_0. split; [lia|done].
    + destruct (IHmatches q eq_refl) as (n & Hn & Hm). exists (S n). cbn. split; [lia|done].
    + inversion H; subst; done.
    + unfold plain in *. tauto.
  - intros (n & Hn & H). revert txt Hn H. induction n as [|n IH]; intros txt Hn H; [rewrite drop_0 in H; by apply m_star_end|].
    destruct txt as [|c txt]; [cbn in Hn; lia|]. apply m_star_more. apply IH; [cbn in Hn; lia|done].
Qed.

(** ** Lemmas on the walk *)

Section Walk.
Context (pat txt : list Z).

Definition at_pos (p t : nat) : Prop := matches (drop p pat) (drop t txt).

(** Single elements lead from [sp] to [p] and take [k] characters. *)
Inductive singles (sp : nat) : nat -> nat -> Prop :=
| si_here : singles sp 0 sp
| si_step k p h tail : singles sp k p -> drop p pat = h :: tail -> h <> STAR -> singles sp (S k) (p + snd (single h tail)).

Lemma singles_take sp k p t : singles sp k p -> (t <= length txt)%nat -> at_pos sp t -> at_pos p (t + k) /\ (t + k <= length txt)%nat.
Proof.
  intros Hs Ht. induction Hs as [|k p h tail Hs IH Hd Hh]; intros Hm; [rewrite Nat.add_0_r; done|].
  destruct (IH Hm) as [Hp Hk]. unfold at_pos in Hp. rewrite Hd in Hp. apply matches_single in Hp as (c & rest & E & _ & Hr); [|done].
  unfold at_pos. rewrite <- Hd, drop_drop in Hr. replace (t + S k)%nat with (t + k + 1)%nat by lia.
  rewrite <- (drop_drop txt), E. cbn [drop]. rewrite drop_0. split; [done|].
  apply (f_equal length) in E. rewrite length_drop in E. cbn in E. lia.
Qed.

Lemma star_absorbs p t u tail : drop p pat = STAR :: tail -> (t <= u <= length txt)%nat -> at_pos p u -> at_pos p t.
Proof.
  unfold at_pos. intros -> Hu. rewrite !matches_star, !length_drop. intros (n & Hn & H). exists (u - t + n)%nat. split; [lia|].
  rewrite drop_drop in *. by replace (t + (u - t + n))%nat with (u + n)%nat by lia.
Qed.

Definition later (sp st : nat) : Prop := exists t, (st < t <= length txt)%nat /\ at_pos sp t.

Record walk_inv (s : GlobState) : Prop := {
  wi_p : (gs_p s <= length pat)%nat;
  wi_t : (gs_t s <= length txt)%nat;
  wi_star : forall sp, gs_star_p s = Some sp -> ((sp <= length pat)%nat /\ (gs_star_t s <= gs_t s)%nat) /\ singles sp (gs_t s - gs_star_t s) (gs_p s);
  wi_match : matches pat txt <->
    at_pos (gs_p s) (gs_t s) \/ exists sp, gs_star_p s = Some sp /\ later sp (gs_star_t s);
}.

(** A bound on the rounds that remain. *)
Definition rounds (s : GlobState) : nat :=
  let epoch := match gs_star_p s with Some sp => (length pat - sp)%nat | None => (length pat + 1)%nat end in
  let st := match gs_star_p s with Some _ => gs_star_t s | None => 0%nat end in
  (epoch * (length txt + 1) * (List.length pat + 1) + (length txt - st) * (length pat + 1) + (length pat - gs_p s))%nat.

Definition step_ok (s : GlobState) (r : GlobState + bool) : Prop :=
  match r with
  | inl s' => walk_inv s' /\ (rounds s' < rounds s)%nat
  | inr b => b = true <-> matches pat txt
  end.

Lemma drop_cons_lookup {A} (l : list A) i x : l !! i = Some x -> drop i l = x :: drop (S i) l.
Proof. apply drop_S. Qed.

Lemma backtrack_ok s : walk_inv s -> (gs_t s < length txt)%nat -> ~ at_pos (gs_p s) (gs_t s) -> step_ok s (glob_backtrack s).
Proof.
  intros [Hp Ht Hstar Hm] Hlt Hno. unfold glob_backtrack. destruct (gs_star_p s) as [sp|] eqn:E; cbn [step_ok].
  - destruct (Hstar sp eq_refl) as [[H1 H2] _]. split.
    + constructor; cbn; [lia|lia| |].
      * intros ? [= <-]. split; [lia|]. rewrite Nat.sub_diag. apply si_here.
      * rewrite Hm. split.
        -- intros [?|(? & [= <-] & t & Hb & Ha)]; [done|]. destruct (decide (t = S (gs_star_t s))) as [->|Hne]; [by left|].
           right. exists sp. split; [done|]. exists t. split; [lia|done].
        -- intros [Ha|(? & [= <-] & t & Hb & Ha)]; right; exists sp; (split; [done|]).
           ++ exists (S (gs_star_t s)). split; [lia|done].
           ++ exists t. split; [lia|done].
    + unfold rounds. cbn [gs_star_p gs_star_t gs_p]. rewrite E. nia.
  - split; [done|]. rewrite Hm. intros [?|(? & [=] & _)]. done.
Qed.

Lemma advance_ok s h tail c : walk_inv s -> drop (gs_p s) pat = h :: tail -> h <> STAR -> txt !! gs_t s = Some c ->
  fst (single h tail) c = true -> step_ok s (inl (glob_advance (snd (single h tail)) s)).
Proof.
  intros [Hp Ht Hstar Hm] Hd Hh Hc Hs. pose proof (lookup_lt_Some _ _ _ Hc) as Hlt. pose proof (single_width h tail) as Hw.
  pose proof (f_equal length Hd) as Hl. rewrite length_drop in Hl. split.
  - constructor; cbn; [lia|lia| |].
    + intros sp E. destruct (Hstar sp E) as [[H1 H2] H3]. split; [lia|]. replace (S (gs_t s) - gs_star_t s)%nat with (S (gs_t s - gs_star_t s)) by lia.
      by eapply si_step.
    + rewrite Hm. enough (at_pos (gs_p s) (gs_t s) <-> at_pos (gs_p s + snd (single h tail)) (S (gs_t s))) by tauto.
      unfold at_pos. rewrite Hd, matches_single by done. rewrite (drop_cons_lookup txt _ c Hc), <- Hd, drop_drop. split.
      * intros (? & ? & [= <- <-] & _ & H). done.
      * intros H. by eexists _, _.
  - unfold rounds. cbn [glob_advance gs_star_p gs_star_t gs_p]. cbn [length] in *. lia.
Qed.

Lemma mismatch s h tail c : drop (gs_p s) pat = h :: tail -> h <> STAR -> txt !! gs_t s = Some c ->
  fst (single h tail) c = false -> ~ at_pos (gs_p s) (gs_t s).
Proof.
  intros Hd Hh Hc Hs. unfold at_pos. rewrite Hd, matches_single by done. rewrite (drop_cons_lookup txt _ c Hc).
  intros (? & ? & [= <- <-] & H & _). congruence.
Qed.

Lemma star_ok s tail : walk_inv s -> (gs_t s < length txt)%nat -> drop (gs_p s) pat = STAR :: tail ->
  step_ok s (inl {| gs_p := S (gs_p s); gs_t := gs_t s; gs_star_p := Some (S (gs_p s)); gs_star_t := gs_t s |}).
Proof.
  intros [Hp Ht Hstar Hm] Hlt Hd. pose proof (f_equal length Hd) as Hl. rewrite length_drop in Hl. cbn [length] in Hl.
  assert (drop (S (gs_p s)) pat = tail) as Hd' by (replace (S (gs_p s)) with (gs_p s + 1)%nat by lia; by rewrite <- drop_drop, Hd).
  split.
  - constructor; cbn; [lia|lia| |].
    + intros ? [= <-]. split; [lia|]. rewrite Nat.sub_diag. apply si_here.
    + transitivity (at_pos (gs_p s) (gs_t s)).
      * rewrite Hm. split; [|by left]. intros [?|(sp & E & t & Hb & Ha)]; [done|]. destruct (Hstar sp E) as [[H1 H2] H3].
        destruct (singles_take _ _ _ t H3 ltac:(lia) Ha) as [Ha' Hk]. eapply star_absorbs; [done| |exact Ha']. lia.
      * unfold at_pos at 1. rewrite Hd, matches_star, length_drop. split.
        -- intros (n & Hn & H). rewrite drop_drop, <- Hd' in H. destruct n as [|n]; [left; by rewrite Nat.add_0_r in H|].
           right. eexists. split; [done|]. exists (gs_t s + S n)%nat. split; [lia|done].
        -- intros [H|(? & [= <-] & t & Hb & H)].
           ++ exists 0%nat. rewrite drop_0. split; [lia|]. unfold at_pos in H. by rewrite Hd' in H.
           ++ exists (t - gs_t s)%nat. split; [lia|]. rewrite drop_drop. unfold at_pos in H. rewrite Hd' in H.
              by replace (gs_t s + (t - gs_t s))%nat with t by lia.
  - unfold rounds. cbn [gs_star_p gs_star_t gs_p]. destruct (gs_star_p s) as [sp|] eqn:E; [|nia].
    destruct (Hstar sp eq_refl) as [[H1 H2] H3]. assert (sp <= gs_p s)%nat by (clear -H3; induction H3; lia). nia.
Qed.

Lemma skip_stars_spec l p : (skip_stars l p =? p + length l)%nat = true <-> matches l [].
Proof.
  revert p. induction l as [|c l IH]; intros p; cbn [skip_stars length].
  - rewrite Nat.add_0_r, Nat.eqb_refl. split; [intros _; constructor|done].
  - destruct (Z.eqb_spec c STAR) as [->|Hc].
    + replace (p + S (length l))%nat with (S p + length l)%nat by lia. rewrite IH. split; [by apply m_star_end|].
      intros H. inversion H; subst; done.
    + rewrite Nat.eqb_eq. split; [lia|]. intros H. rewrite matches_single in H by done. destruct H as (? & ? & [=] & _).
Qed.

Lemma finish_ok s : walk_inv s -> txt !! gs_t s = None -> step_ok s (inr (skip_stars (drop (gs_p s) pat) (gs_p s) =? length pat)%nat).
Proof.
  intros [Hp Ht Hstar Hm] Hn. apply lookup_ge_None in Hn. cbn [step_ok].
  pose proof (skip_stars_spec (drop (gs_p s) pat) (gs_p s)) as Hs. rewrite length_drop in Hs.
  replace (gs_p s + (length pat - gs_p s))%nat with (length pat) in Hs by lia. rewrite Hs, Hm.
  unfold at_pos at 1. rewrite (drop_ge txt) by lia. split; [by left|]. intros [?|(sp & E & t & Hb & Ha)]; [done|].
  destruct (Hstar sp E) as [[H1 H2] H3]. destruct (singles_take _ _ _ t H3 ltac:(lia) Ha). lia.
Qed.

Lemma glob_step_ok s : walk_inv s -> step_ok s (glob_step pat txt s).
Proof.
  intros Hi. unfold glob_step. destruct (txt !! gs_t s) as [c|] eqn:Ec; [|by apply finish_ok].
  pose proof (lookup_lt_Some _ _ _ Ec) as Hlt. destruct (pat !! gs_p s) as [h|] eqn:Eh.
  2:{ apply backtrack_ok; [done|done|]. apply lookup_ge_None in Eh. unfold at_pos. rewrite drop_ge by lia.
      rewrite (drop_cons_lookup txt _ c Ec). intros H. inversion H; subst. match goal with Hb : bracket _ _ _ _ |- _ => inversion Hb end. }
  pose proof (drop_cons_lookup pat _ h Eh) as Hd. destruct (Z.eqb_spec h STAR) as [->|Hh]; [by eapply star_ok|].
  set (tail := drop (S (gs_p s)) pat) in *.
  assert (step_ok s (if fst (single h tail) c then inl (glob_advance (snd (single h tail)) s) else glob_backtrack s)) as Hgen.
  { destruct (fst (single h tail) c) eqn:Es; [by eapply advance_ok|]. apply backtrack_ok; [done|done|]. by eapply mismatch. }
  unfold single in Hgen. destruct (Z.eqb_spec h QUESTION) as [->|Hq]; [cbn [fst snd] in Hgen; by destruct (c =? SLASH)|].
  destruct (Z.eqb_spec h BRACKET) as [->|Hb]; [|exact Hgen]. rewrite Hd.
  destruct (match_bracket_spec tail c) as [(neg & class & rest & Hbr & E & _)|[Hno E]];
    destruct (match_bracket_spec tail 0) as [(n3 & c3 & r3 & Hb3 & E3 & _)|[Hno' E3]].
  - destruct (bracket_fun _ _ _ _ _ _ _ Hbr Hb3) as (_ & _ & <-). cbn [fst snd] in Hgen. rewrite E, E3 in Hgen. rewrite E. exact Hgen.
  - by destruct (Hno' _ _ _ Hbr).
  - by destruct (Hno _ _ _ Hb3).
  - cbn [fst snd] in Hgen. rewrite E, E3 in Hgen. rewrite E. exact Hgen.
Qed.

Lemma glob_loop_ok fuel s : walk_inv s -> (rounds s < fuel)%nat -> exists b, glob_loop fuel pat txt s = Some b /\ (b = true <-> matches pat txt).
Proof.
  revert s. induction fuel as [|fuel IH]; intros s Hi Hf; [lia|]. cbn [glob_loop]. pose proof (glob_step_ok s Hi) as Hs.
  destruct (glob_step pat txt s) as [s'|b]; cbn [step_ok] in Hs; [|by exists b]. destruct Hs as [Hi' Hr]. apply IH; [done|lia].
Qed.
End Walk.

Lemma glob_match_chars_spec pat txt : exists b, glob_match_chars pat txt = Some b /\ (b = true <-> matches pat txt).
Proof.
  apply glob_loop_ok.
  - constructor; cbn; [lia|lia|done|]. unfold at_pos. rewrite !drop_0. split; [by left|]. intros [?|(? & [=] & _)]. done.
  - unfold rounds, glob_fuel. cbn [gs_star_p gs_p]. nia.
Qed.

Lemma glob_match_spec pat name : glob_match pat name = true <-> matches pat name.
Proof. unfold glob_match. destruct (glob_match_chars_spec pat name) as (b & -> & Hb). exact Hb. Qed.

(** ** The documented language

    The two differ only on names with a separator, and on an unclosed bracket
    against a bracket in the name. *)
Lemma doc_matches_sound pat txt : doc_matches pat txt -> matches pat txt.
Proof. induction 1; [constructor|by apply m_star_end|by apply m_star_more|by apply m_question|by eapply m_class|by apply m_char]. Qed.

Lemma bracket_rest pat neg class rest x : bracket pat neg class rest -> x ∈ rest -> x ∈ pat.
Proof. intros H Hx. destruct H; set_solver. Qed.

Lemma matches_documented pat txt : matches pat txt -> SLASH ∉ txt -> BRACKET ∉ txt \/ BRACKET ∉ pat -> doc_matches pat txt.
Proof.
  induction 1 as [|pat txt H IH|pat c txt H IH|pat c txt Hc H IH|pat neg class rest c txt Hb Hin H IH|pat txt Hno H IH|pat c txt Hc H IH]; intros Hs Hb'.
  - constructor.
  - apply dm_star_end, IH; [done|set_solver].
  - apply dm_star_more; [set_solver|]. apply IH; set_solver.
  - apply dm_question; [done|]. apply IH; set_solver.
  - eapply dm_class; [done|done|]. apply IH; [set_solver|]. destruct Hb' as [?|Hn]; [set_solver|]. right. intros Hx. by eapply Hn, bracket_rest.
  - set_solver.
  - apply dm_char; [done|]. apply IH; set_solver.
Qed.

(** ** Theorem *)

(** The entries that a pattern stands for. *)
Definition chosen {fs : FsQuery} (dir file_pat name : str) : Prop :=
  (exists entries, list_dir dir = Ok entries /\ name ∈ entries) /\ matches file_pat name /\ (hidden name = true -> hidden file_pat = true).

(** C37: Pathname patterns: the matcher, which walks pattern and name with a
    single backtracking point, ends on every input and decides the language of
    the pattern, in which a star takes any characters - the path separator too,
    against the documentation - and an unclosed bracket stands for itself.  On a
    name without a separator (such are the names of directory entries) the
    answer is that of the documented language, in which neither a star nor a
    question mark takes a separator and an unclosed bracket matches nothing,
    unless pattern and name both have an opening bracket; what the documented
    language matches is always matched.  Expansion gives, in order, exactly the
    paths of the directory's entries that match, hidden ones only for a pattern
    that names the dot, and the pattern itself when there is none, when the
    directory cannot be read or when the string is no pattern. *)
Theorem glob_expansion_exact {fs : FsQuery} (pattern cwd : str) :
  (forall name, exists b, glob_match_chars pattern name = Some b /\ (b = true <-> matches pattern name) /\
     (doc_matches pattern name -> b = true) /\ (SLASH ∉ name -> BRACKET ∉ name \/ BRACKET ∉ pattern -> b = true <-> doc_matches pattern name)) /\
  let dir := fst (split_pattern pattern cwd) in
  let file_pat := snd (split_pattern pattern cwd) in
  (is_glob pattern = false \/ (forall name, ~ chosen dir file_pat name) -> expand_glob pattern cwd = [pattern]) /\
  (is_glob pattern = true -> (exists name, chosen dir file_pat name) ->
     StronglySorted str_le (expand_glob pattern cwd) /\
     forall x, x ∈ expand_glob pattern cwd <-> exists name, chosen dir file_pat name /\ x = glob_path pattern dir name).
Proof.
  split.
  { intros name. destruct (glob_match_chars_spec pattern name) as (b & E & Hb). exists b. split; [done|]. split; [done|]. split; [intros H; by apply Hb, doc_matches_sound|].
    intros Hs Hbr. rewrite Hb. split; [intros H; by apply matches_documented|apply doc_matches_sound]. }
  unfold expand_glob. destruct (split_pattern pattern cwd) as [dir file_pat]. cbn [fst snd].
  set (ms := map _ _). assert (forall x, x ∈ ms <-> exists name, chosen dir file_pat name /\ x = glob_path pattern dir name) as Hms.
  { intros x. unfold ms, chosen. rewrite list_elem_of_fmap. split.
    - intros (name & -> & [Hf Hin]%list_elem_of_filter). exists name. split; [|done].
      destruct (list_dir dir) as [entries|] eqn:El; [|by apply not_elem_of_nil in Hin]. split; [by exists entries|].
      destruct (hidden name) eqn:Hh, (hidden file_pat) eqn:Hp; cbn in Hf; try done; rewrite glob_match_spec in Hf; done.
    - intros (name & ((entries & El & Hin) & Hm & Hh) & ->). exists name. split; [done|]. rewrite El. apply list_elem_of_filter. split; [|done].
      rewrite (proj2 (glob_match_spec _ _) Hm). destruct (hidden name); [by rewrite Hh|done]. }
  split.
  - intros [->|Hno]; [done|]. destruct (is_glob pattern); [|done]. cbn [negb]. destruct ms as [|x l] eqn:El; [done|].
    destruct (proj1 (Hms x)) as (name & Hn & _); [apply list_elem_of_here|]. by destruct (Hno name).
  - intros -> (name & Hn). cbn [negb].
    assert (match ms with [] => [pattern] | _ => merge_sort str_le ms end = merge_sort str_le ms) as ->.
    { destruct ms as [|x l] eqn:El; [|done]. exfalso. apply (not_elem_of_nil (glob_path pattern dir name)). apply Hms. by exists name. }
    split; [apply StronglySorted_merge_sort; apply _|]. intros x. by rewrite merge_sort_Permutation.
Qed.

(** ** Witness *)

Definition demo_fs : FsQuery := fun dir =>
  if str_eqb dir (lit "/src") then Ok [lit "main.rs"; lit ".git"; lit "b.rs"; lit "notes"] else Err (lit "no such directory").

Example demo_glob : expand_glob (fs := demo_fs) (lit "/src/*.rs") (lit "/") = [lit "/src/b.rs"; lit "/src/main.rs"] /\
  expand_glob (fs := demo_fs) (lit "/src/[!a-c]*") (lit "/") = [lit "/src/main.rs"; lit "/src/notes"] /\
  expand_glob (fs := demo_fs) (lit "*.rs") (lit "/tmp") = [lit "*.rs"] /\ glob_match (lit "a*b?[]x]") (lit "aabcbz]") = true.
Proof. split_and!; vm_compute; reflexivity. Qed.

Lemma glob_expansion_exact_witness : StronglySorted str_le (expand_glob (fs := demo_fs) (lit "/src/*.rs") (lit "/")).
Proof.
  destruct (glob_expansion_exact (fs := demo_fs) (lit "/src/*.rs") (lit "/")) as [_ [_ H]]. apply H; [reflexivity|].
  exists (lit "b.rs"). split; [|split].
  - exists [lit "main.rs"; lit ".git"; lit "b.rs"; lit "notes"]. split; [vm_compute; reflexivity|]. apply list_elem_of_further, list_elem_of_further, list_elem_of_here.
  - apply glob_match_spec. vm_compute. reflexivity.
  - intros Hh. discriminate Hh.
Defined.

(** ** Where the matcher departs from its documentation *)

(** A star also takes a path separator, and an unclosed bracket stands for
    itself. *)
Lemma star_takes_separator : glob_match (lit "*") (lit "a/b") = true /\ glob_match (lit "[a") (lit "[a") = true.
Proof. split; vm_compute; reflexivity. Qed.
