(* ===== verification/ShellLex.v ===== *)
(** * Lexer of the shell (omni-shell: lexer.rs)

    The lexer turns a line into tokens in one pass with one character of
    look-ahead.  It ends on every line, and the token lists it yields are
    exactly those whose words are not empty and whose quoted parts do not hold
    their own terminator.  Strings are lists of characters. *)

From Stdlib Require Import ZArith Lia String.
From stdpp Require Import base numbers list sets.
From S2P Require Import Prelude Str.

(** ** Data *)

Inductive Token :=
| TWord (w : str) | TPipe | TRedirectOut | TRedirectAppend | TRedirectIn | TRedirectErr | TSemicolon | TAmpersand
| TDoubleAmpersand | TDoublePipe | TNewline | TSingleQuoted (s : str) | TDoubleQuoted (s : str) | TEnvVar (spec : str).

#[global] Instance token_eq_dec : EqDecision Token.
Proof. solve_decision. Defined.

Inductive LexError := UnterminatedSingleQuote | UnterminatedDoubleQuote | UnexpectedChar (c : Z).

(** The characters from the position on, the word so far and the tokens. *)
Record LexState := { lx_rest : list Z; lx_word : str; lx_tokens : list Token }.

Definition lex_new (chars : list Z) : LexState := {| lx_rest := chars; lx_word := []; lx_tokens := [] |}.

Definition peek_next (st : LexState) : option Z := lx_rest st !! 1%nat.

Definition lex_advance (n : nat) (st : LexState) : LexState :=
  {| lx_rest := drop n (lx_rest st); lx_word := lx_word st; lx_tokens := lx_tokens st |}.

Definition flush_word (st : LexState) : LexState :=
  if bool_decide (lx_word st = []) then st
  else {| lx_rest := lx_rest st; lx_word := []; lx_tokens := lx_tokens st ++ [TWord (lx_word st)] |}.

Definition push_word_char (c : Z) (st : LexState) : LexState :=
  {| lx_rest := lx_rest st; lx_word := lx_word st ++ [c]; lx_tokens := lx_tokens st |}.

Definition push_token (t : Token) (st : LexState) : LexState :=
  {| lx_rest := lx_rest st; lx_word := lx_word st; lx_tokens := lx_tokens st ++ [t] |}.

Definition lex_emit (t : Token) (st : LexState) : LexState := push_token t (flush_word st).

(** ** Helpers *)

Definition ascii_alphabetic (c : Z) : bool := (65 <=? c) && (c <=? 90) || (97 <=? c) && (c <=? 122).
Definition ascii_digit (c : Z) : bool := (48 <=? c) && (c <=? 57).
Definition ascii_alphanumeric (c : Z) : bool := ascii_alphabetic c || ascii_digit c.
Definition is_ident_char (c : Z) : bool := ascii_alphanumeric c || (c =? 95).

(** The longest prefix of characters that satisfy [f], and what follows. *)
Fixpoint span_while (f : Z -> bool) (l : list Z) : str * list Z :=
  match l with
  | [] => ([], [])
  | c :: l' => if f c then let '(a, b) := span_while f l' in (c :: a, b) else ([], l)
  end.

Definition set_rest (l : list Z) (st : LexState) : LexState := {| lx_rest := l; lx_word := lx_word st; lx_tokens := lx_tokens st |}.

(** [collect_until], with the error of the caller. *)
Definition collect_until (terminator : Z) (e : LexError) (st : LexState) : result LexError (str * LexState) :=
  let '(buf, rest) := span_while (fun c => negb (c =? terminator)) (lx_rest st) in
  if bool_decide (rest = []) then Err e else Ok (buf, set_rest rest st).

(** ** Token handlers *)

Definition lex_comment (st : LexState) : LexState :=
  let st := flush_word st in set_rest (snd (span_while (fun c => negb (c =? 10)) (lx_rest st))) st.

Definition lex_backslash (st : LexState) : LexState :=
  match peek_next st with
  | Some next => lex_advance 2 (push_word_char next st)
  | None => lex_advance 1 (push_word_char 92 st)
  end.

Definition lex_single_quote (st : LexState) : result LexError LexState :=
  let st := lex_advance 1 (flush_word st) in
  '(content, st) ← collect_until 39 UnterminatedSingleQuote st;
  Ok (lex_advance 1 (push_token (TSingleQuoted content) st)).

Definition lex_double_quote (st : LexState) : result LexError LexState :=
  let st := lex_advance 1 (flush_word st) in
  '(content, st) ← collect_until 34 UnterminatedDoubleQuote st;
  Ok (lex_advance 1 (push_token (TDoubleQuoted content) st)).

Definition next_is (c : Z) (st : LexState) : bool := bool_decide (peek_next st = Some c).

Definition lex_pipe (st : LexState) : LexState :=
  if next_is 124 st then lex_advance 2 (lex_emit TDoublePipe st) else lex_advance 1 (lex_emit TPipe st).

Definition lex_redirect_out (st : LexState) : LexState :=
  if next_is 62 st then lex_advance 2 (lex_emit TRedirectAppend st) else lex_advance 1 (lex_emit TRedirectOut st).

Definition lex_ampersand (st : LexState) : LexState :=
  if next_is 38 st then lex_advance 2 (lex_emit TDoubleAmpersand st) else lex_advance 1 (lex_emit TAmpersand st).

Definition lex_env_var_braced (st : LexState) : LexState :=
  let st := lex_advance 1 st in
  let '(spec, rest) := span_while (fun c => negb (c =? 125)) (lx_rest st) in
  push_token (TEnvVar spec) (set_rest (match rest with [] => [] | _ :: rest => rest end) st).

Definition lex_env_var_bare (st : LexState) : LexState :=
  let '(name, rest) := span_while is_ident_char (lx_rest st) in
  push_token (TEnvVar name) (set_rest rest st).

Definition lex_env_var (st : LexState) : LexState :=
  let st := lex_advance 1 (flush_word st) in
  if bool_decide (head (lx_rest st) = Some 123) then lex_env_var_braced st else lex_env_var_bare st.

Definition lex_one (st : LexState) (ch : Z) : result LexError LexState :=
  if (ch =? 32) || (ch =? 9) then Ok (lex_advance 1 (flush_word st)) else
  if ch =? 10 then Ok (lex_advance 1 (lex_emit TNewline st)) else
  if ch =? 35 then Ok (lex_comment st) else
  if ch =? 92 then Ok (lex_backslash st) else
  if ch =? 39 then lex_single_quote st else
  if ch =? 34 then lex_double_quote st else
  if ch =? 124 then Ok (lex_pipe st) else
  if ch =? 62 then Ok (lex_redirect_out st) else
  if ch =? 60 then Ok (lex_advance 1 (lex_emit TRedirectIn st)) else
  if ch =? 59 then Ok (lex_advance 1 (lex_emit TSemicolon st)) else
  if ch =? 38 then Ok (lex_ampersand st) else
  if ch =? 36 then Ok (lex_env_var st) else
  if (ch =? 50) && next_is 62 st then Ok (lex_advance 2 (lex_emit TRedirectErr st))
  else Ok (lex_advance 1 (push_word_char ch st)).

(** The main loop; every round consumes a character. *)
Fixpoint lex_loop (fuel : nat) (st : LexState) : option (result LexError (list Token)) :=
  match lx_rest st with
  | [] => Some (Ok (lx_tokens (flush_word st)))
  | ch :: _ =>
      match fuel with
      | O => None
      | S fuel => match lex_one st ch with Ok st => lex_loop fuel st | Err e => Some (Err e) end
      end
  end.

Definition tokenize (input : str) : option (result LexError (list Token)) := lex_loop (length input) (lex_new input).

(** ** Printing *)

Definition print_token (t : Token) : str :=
  match t with
  | TWord w => concat (map (fun c => [92; c]) w)
  | TPipe => lit "|"
  | TRedirectOut => lit ">"
  | TRedirectAppend => lit ">>"
  | TRedirectIn => lit "<"
  | TRedirectErr => lit "2>"
  | TSemicolon => lit ";"
  | TAmpersand => lit "&"
  | TDoubleAmpersand => lit "&&"
  | TDoublePipe => lit "||"
  | TNewline => [10]
  | TSingleQuoted s => 39 :: s ++ [39]
  | TDoubleQuoted s => 34 :: s ++ [34]
  | TEnvVar spec => lit "${" ++ spec ++ lit "}"
  end.

Definition print_tokens (ts : list Token) : str := concat (map (fun t => print_token t ++ [32]) ts).

Definition token_ok (t : Token) : Prop :=
  match t with
  | TWord w => w <> []
  | TSingleQuoted s => 39 ∉ s
  | TDoubleQuoted s => 34 ∉ s
  | TEnvVar spec => 125 ∉ spec
  | _ => True
  end.

(** ** Lemmas *)

Lemma span_while_spec f l a b : span_while f l = (a, b) ->
  l = a ++ b /\ Forall (fun c => f c = true) a /\ match b with [] => True | c :: _ => f c = false end.
Proof.
  revert a b. induction l as [|c l IH]; intros a b; cbn [span_while]; [by intros [= <- <-]|].
  destruct (f c) eqn:Ec; [|by intros [= <- <-]]. destruct (span_while f l) as [a' b'] eqn:E. intros [= <- <-].
  destruct (IH a' b' eq_refl) as (-> & Ha & Hb). split; [done|]. split; [by constructor|done].
Qed.

Lemma span_while_app f a c b : Forall (fun c => f c = true) a -> f c = false -> span_while f (a ++ c :: b) = (a, c :: b).
Proof. intros Ha Hc. induction Ha as [|x a Hx _ IH]; cbn [app span_while]; [by rewrite Hc|]. by rewrite Hx, IH. Qed.

Lemma not_elem_span t s : t ∉ s <-> Forall (fun c => negb (c =? t) = true) s.
Proof.
  rewrite Forall_forall. split.
  - intros H c Hc. apply negb_true_iff, Z.eqb_neq. by intros ->.
  - intros H Ht. apply H, negb_true_iff, Z.eqb_neq in Ht. done.
Qed.

Lemma flush_rest st : lx_rest (flush_word st) = lx_rest st.
Proof. unfold flush_word. by case_bool_decide. Qed.

Ltac lexs := cbn [lex_advance lex_emit push_token set_rest push_word_char lx_rest lx_tokens lx_word].

(** What a round does to the state: it consumes, and yields only such tokens. *)
Definition lex_good (st st' : LexState) : Prop :=
  (length (lx_rest st') < length (lx_rest st))%nat /\ (Forall token_ok (lx_tokens st) -> Forall token_ok (lx_tokens st')).

Lemma flush_ok st : Forall token_ok (lx_tokens st) -> Forall token_ok (lx_tokens (flush_word st)).
Proof. intros H. unfold flush_word. case_bool_decide; [done|]. lexs. apply Forall_app. by repeat constructor. Qed.

Lemma emit_good n t st : (0 < n <= length (lx_rest st))%nat -> token_ok t -> lex_good st (lex_advance n (lex_emit t st)).
Proof.
  intros Hn Ht. split; lexs; [rewrite flush_rest, length_drop; lia|].
  intros H. apply Forall_app. split; [by apply flush_ok|by repeat constructor].
Qed.

Lemma quote_good t e mk st r : (forall s, t ∉ s -> token_ok (mk s)) -> (0 < length (lx_rest st))%nat ->
  ('(content, st) ← collect_until t e (lex_advance 1 (flush_word st)); Ok (lex_advance 1 (push_token (mk content) st))) = r ->
  match r with Ok st' => lex_good st st' | Err e' => e' = e end.
Proof.
  intros Hmk Hl <-. unfold collect_until. cbn [lex_advance lx_rest]. rewrite flush_rest.
  destruct (span_while _ (drop 1 (lx_rest st))) as [a b] eqn:E. destruct (span_while_spec _ _ _ _ E) as (Ea & Ha & _).
  case_bool_decide as Hb; [done|]. cbn [mbind result_bind]. apply (f_equal length) in Ea. rewrite length_drop, length_app in Ea. split.
  - lexs. rewrite length_drop. destruct b; [done|]. cbn in *. lia.
  - intros H. lexs. apply Forall_app. split; [by apply flush_ok|]. constructor; [|done]. by apply Hmk, not_elem_span.
Qed.

Lemma env_var_good st : (0 < length (lx_rest st))%nat -> lex_good st (lex_env_var st).
Proof.
  intros Hl. unfold lex_env_var. cbn [lex_advance lx_rest]. rewrite ?flush_rest. case_bool_decide as Hb.
  - unfold lex_env_var_braced. cbn [lex_advance lx_rest]. rewrite ?flush_rest.
    destruct (span_while _ _) as [a b] eqn:E. destruct (span_while_spec _ _ _ _ E) as (Ea & Ha & _).
    apply (f_equal length) in Ea. rewrite !length_drop, length_app in Ea. split.
    + lexs. destruct b; cbn in *; lia.
    + intros H. lexs. apply Forall_app. split; [by apply flush_ok|]. constructor; [by apply not_elem_span|done].
  - unfold lex_env_var_bare. cbn [lex_advance lx_rest]. rewrite ?flush_rest. destruct (span_while _ _) as [a b] eqn:E.
    destruct (span_while_spec _ _ _ _ E) as (Ea & Ha & _). apply (f_equal length) in Ea. rewrite length_drop, length_app in Ea. split.
    + lexs. lia.
    + intros H. lexs. apply Forall_app. split; [by apply flush_ok|]. constructor; [|done]. cbn. intros Hin. rewrite Forall_forall in Ha. by apply Ha in Hin.
Qed.

Lemma next_is_length c st : next_is c st = true -> (2 <= length (lx_rest st))%nat.
Proof. unfold next_is, peek_next. rewrite bool_decide_eq_true. intros H%lookup_lt_Some. lia. Qed.

Lemma two_good (a b : Token) c st : (0 < length (lx_rest st))%nat -> token_ok a -> token_ok b ->
  lex_good st (if next_is c st then lex_advance 2 (lex_emit a st) else lex_advance 1 (lex_emit b st)).
Proof.
  intros Hl Ha Hb. destruct (next_is c st) eqn:E; [apply next_is_length in E|]; apply emit_good; (done || lia).
Qed.

Lemma lex_one_good st ch rest : lx_rest st = ch :: rest ->
  match lex_one st ch with Ok st' => lex_good st st' | Err e => e = UnterminatedSingleQuote \/ e = UnterminatedDoubleQuote end.
Proof.
  intros Hr. assert (0 < length (lx_rest st))%nat as Hl by (rewrite Hr; cbn; lia). unfold lex_one.
  destruct ((ch =? 32) || (ch =? 9)).
  { split; [lexs; rewrite flush_rest, length_drop; lia|]. intros H. lexs. by apply flush_ok. }
  destruct (ch =? 10); [apply emit_good; [lia|done]|]. destruct (Z.eqb_spec ch 35) as [->|].
  { unfold lex_comment. cbn [set_rest lx_rest]. rewrite flush_rest. destruct (span_while _ _) as [a b] eqn:E.
    destruct (span_while_spec _ _ _ _ E) as (Ea & _ & _). split; [|intros H; by apply flush_ok].
    lexs. destruct a as [|x a].
    - cbn in Ea. rewrite Hr in E. cbn in E. by destruct (span_while _ rest).
    - apply (f_equal length) in Ea. rewrite length_app in Ea. cbn in *. lia. }
  destruct (ch =? 92).
  { unfold lex_backslash. destruct (peek_next st); (split; [lexs; rewrite length_drop; lia|done]). }
  destruct (ch =? 39).
  { pose proof (quote_good 39 UnterminatedSingleQuote TSingleQuoted st _ ltac:(done) Hl eq_refl) as H. unfold lex_single_quote.
    destruct (_ ← _; _) as [|]; [done|by left]. }
  destruct (ch =? 34).
  { pose proof (quote_good 34 UnterminatedDoubleQuote TDoubleQuoted st _ ltac:(done) Hl eq_refl) as H. unfold lex_double_quote.
    destruct (_ ← _; _) as [|]; [done|by right]. }
  destruct (ch =? 124); [by apply two_good|]. destruct (ch =? 62); [by apply two_good|].
  destruct (ch =? 60); [apply emit_good; [lia|done]|]. destruct (ch =? 59); [apply emit_good; [lia|done]|].
  destruct (ch =? 38); [by apply two_good|]. destruct (ch =? 36); [by apply env_var_good|].
  destruct (ch =? 50); cbn [andb]; [destruct (next_is 62 st) eqn:E|].
  - apply next_is_length in E. apply emit_good; [lia|done].
  - split; [lexs; rewrite length_drop; lia|done].
  - split; [lexs; rewrite length_drop; lia|done].
Qed.

Definition lex_answer_ok (r : result LexError (list Token)) : Prop :=
  match r with Ok ts => Forall token_ok ts | Err e => e = UnterminatedSingleQuote \/ e = UnterminatedDoubleQuote end.

Lemma lex_loop_total fuel st : (length (lx_rest st) <= fuel)%nat ->
  exists r, lex_loop fuel st = Some r /\ (Forall token_ok (lx_tokens st) -> lex_answer_ok r).
Proof.
  revert st. induction fuel as [|fuel IH]; intros st Hf; cbn [lex_loop]; destruct (lx_rest st) as [|ch rest] eqn:E.
  - eexists. split; [done|]. intros H. by apply flush_ok.
  - cbn in Hf. lia.
  - eexists. split; [done|]. intros H. by apply flush_ok.
  - pose proof (lex_one_good st ch rest E) as Hg. destruct (lex_one st ch) as [st'|e]; [|by exists (Err e)].
    destruct Hg as [Hl Hok]. rewrite E in Hl. cbn in Hl, Hf. destruct (IH st' ltac:(lia)) as (r & -> & Hr). exists r. auto.
Qed.

Lemma lex_loop_more fuel st r : lex_loop fuel st = Some r -> forall n, (fuel <= n)%nat -> lex_loop n st = Some r.
Proof.
  revert st. induction fuel as [|fuel IH]; intros st H n Hn; (destruct n as [|n]; [try lia; done|]); cbn [lex_loop] in *.
  - by destruct (lx_rest st).
  - destruct (lx_rest st); [done|]. destruct (lex_one st z); [|done]. apply IH; [done|lia].
Qed.

Definition lex_run (st : LexState) : option (result LexError (list Token)) := lex_loop (length (lx_rest st)) st.

Lemma lex_run_step st st' ch rest : lx_rest st = ch :: rest -> lex_one st ch = Ok st' -> lex_run st = lex_run st'.
Proof.
  intros E Hs. pose proof (lex_one_good st ch rest E) as Hg. rewrite Hs in Hg. destruct Hg as [Hl _]. rewrite E in Hl. cbn in Hl.
  unfold lex_run at 1. rewrite E. cbn [lex_loop length]. rewrite E, Hs. unfold lex_run.
  destruct (lex_loop_total (length (lx_rest st')) st' ltac:(lia)) as (r & Hr & _). rewrite Hr. eapply lex_loop_more; [exact Hr|lia].
Qed.

(** ** Lemmas on printed tokens *)

Definition after (rest : list Z) (ts : list Token) : LexState := {| lx_rest := rest; lx_word := []; lx_tokens := ts |}.

(** A space ends a word and is nothing behind any other token. *)
Lemma lex_space rest w ts : lex_run {| lx_rest := 32 :: rest; lx_word := w; lx_tokens := ts |} =
  lex_run (after rest (if bool_decide (w = []) then ts else ts ++ [TWord w])).
Proof.
  eapply lex_run_step; [done|]. unfold lex_one. cbn. unfold flush_word, lex_advance. cbn [lx_word lx_rest lx_tokens].
  destruct (bool_decide (w = [])) eqn:E; [|done]. apply bool_decide_eq_true in E as ->. done.
Qed.

Lemma lex_escaped w v rest ts : lex_run {| lx_rest := concat (map (fun c => [92; c]) w) ++ rest; lx_word := v; lx_tokens := ts |} =
  lex_run {| lx_rest := rest; lx_word := v ++ w; lx_tokens := ts |}.
Proof.
  revert v. induction w as [|c w IH]; intros v; [by rewrite app_nil_r|]. cbn [map concat app].
  rewrite (lex_run_step _ {| lx_rest := concat (map (fun c => [92; c]) w) ++ rest; lx_word := v ++ [c]; lx_tokens := ts |} 92
    (c :: concat (map (fun c => [92; c]) w) ++ rest)); [|done|done]. rewrite IH. by rewrite <- app_assoc.
Qed.

(** Quoted text up to its terminator. *)
Lemma lex_quoted t s rest : t ∉ s -> span_while (fun c => negb (c =? t)) (s ++ t :: rest) = (s, t :: rest).
Proof. intros H. apply span_while_app; [by apply not_elem_span|]. by rewrite Z.eqb_refl. Qed.

Lemma lex_token t rest ts : token_ok t -> lex_run (after (print_token t ++ 32 :: rest) ts) = lex_run (after rest (ts ++ [t])).
Proof.
  intros Ht. destruct t as [w| | | | | | | | | | |s|s|spec]; cbn [print_token token_ok] in *;
    try (match goal with |- _ = lex_run (after _ (_ ++ [?t])) =>
           transitivity (lex_run {| lx_rest := 32 :: rest; lx_word := []; lx_tokens := ts ++ [t] |}) end;
         [eapply lex_run_step; reflexivity|by rewrite lex_space]).
  - unfold after at 1. rewrite lex_escaped, lex_space. by rewrite bool_decide_false.
  - transitivity (lex_run {| lx_rest := 32 :: rest; lx_word := []; lx_tokens := ts ++ [TSingleQuoted s] |}); [|by rewrite lex_space].
    eapply lex_run_step; [reflexivity|]. unfold lex_one. cbn -[span_while]. unfold lex_single_quote, collect_until. cbn -[span_while].
    rewrite <- app_assoc. cbn [app]. rewrite drop_0, lex_quoted by done. done.
  - transitivity (lex_run {| lx_rest := 32 :: rest; lx_word := []; lx_tokens := ts ++ [TDoubleQuoted s] |}); [|by rewrite lex_space].
    eapply lex_run_step; [reflexivity|]. unfold lex_one. cbn -[span_while]. unfold lex_double_quote, collect_until. cbn -[span_while].
    rewrite <- app_assoc. cbn [app]. rewrite drop_0, lex_quoted by done. done.
  - transitivity (lex_run {| lx_rest := 32 :: rest; lx_word := []; lx_tokens := ts ++ [TEnvVar spec] |}); [|by rewrite lex_space].
    eapply lex_run_step; [reflexivity|]. unfold lex_one. cbn -[span_while]. unfold lex_env_var, lex_env_var_braced. cbn -[span_while].
    rewrite <- app_assoc. cbn [app]. rewrite ?drop_0, lex_quoted by done. done.
Qed.

Lemma tokenize_print ts : Forall token_ok ts -> tokenize (print_tokens ts) = Some (Ok ts).
Proof.
  intros Hts. change (lex_run (after (print_tokens ts) []) = Some (Ok ([] ++ ts))). generalize (@nil Token) as done_.
  induction Hts as [|t ts Ht _ IH]; intros done_; [by rewrite app_nil_r|]. unfold print_tokens. cbn [map concat]. fold (print_tokens ts).
  rewrite <- app_assoc. cbn [app]. rewrite lex_token by done. rewrite IH. by rewrite <- app_assoc.
Qed.

(** ** Theorem *)

(** Lexer: every line is lexed to the end or to an unterminated quote; the
    token lists it yields are exactly the well-formed ones. *)
Lemma lexer_exact : (forall input, exists r, tokenize input = Some r /\ lex_answer_ok r) /\
  (forall ts, (exists input, tokenize input = Some (Ok ts)) <-> Forall token_ok ts).
Proof.
  assert (forall input, exists r, tokenize input = Some r /\ lex_answer_ok r) as Htotal.
  { intros input. destruct (lex_loop_total (length input) (lex_new input) ltac:(done)) as (r & Hr & Hok). exists r. split; [done|].
    by apply Hok. }
  split; [done|]. intros ts. split.
  - intros [input Hi]. destruct (Htotal input) as (r & Hr & Hok). rewrite Hi in Hr. by injection Hr as <-.
  - intros H. exists (print_tokens ts). by apply tokenize_print.
Qed.

(** The exit code [$?] is not lexed as a variable: the question mark becomes a
    word of its own. *)
Lemma exit_code_split : tokenize (lit "echo $?") = Some (Ok [TWord (lit "echo"); TEnvVar []; TWord (lit "?")]).
Proof. reflexivity. Qed.
