(* ===== verification/ShellParse.v ===== *)
(** * Parser of the shell (omni-shell: parser.rs)

    Recursive descent over the tokens, the state being those that remain.  It
    neither panics nor runs on; it yields exactly the well-formed command
    lists, and no word of the line is lost or invented. *)

From Stdlib Require Import ZArith Lia String.
From stdpp Require Import base numbers list sets.
From S2P Require Import Prelude Str ShellLex.

(** ** Data *)

Inductive RedirectKind := RkIn | RkOut | RkAppend | RkErr.
Record Redirect := { rd_kind : RedirectKind; rd_target : str }.
Record SimpleCommand := { argv : list str; redirects : list Redirect; env_overrides : list (str * str) }.
Record Pipeline := { commands : list SimpleCommand }.
Inductive Connector := CSemi | CAnd | COr | CBackground.
Record CommandList := { entries : list (Pipeline * option Connector) }.

Inductive ParseError := UnexpectedToken (t : str) | MissingCommand | EmptyPipeline | InvalidRedirect.

(** The outcome of a parsing function: a panic, an error, or a value and the
    tokens that remain. *)
Abbreviation parser A := (run (result ParseError (A * list Token))).

Definition pbind {A B} (c : parser A) (k : A * list Token -> parser B) : parser B :=
  match c with
  | Done (Ok x) => k x
  | Done (Err e) => Done (Err e)
  | Panicked => Panicked
  end.

#[local] Notation "' x ⇐ c ; k" := (pbind c (fun x => k)) (at level 20, x pattern, c at level 100, k at level 200).

(** ** Token helpers *)

Definition word_class (t : Token) : bool :=
  match t with TWord _ | TSingleQuoted _ | TDoubleQuoted _ | TEnvVar _ => true | _ => false end.

Definition next_is_word_class (rest : list Token) : bool := match rest with t :: _ => word_class t | [] => false end.

(** [unreachable!] is a panic. *)
Definition consume_word_token (ts : list Token) : run (str * list Token) :=
  match ts with
  | TWord s :: ts | TSingleQuoted s :: ts | TDoubleQuoted s :: ts => Done (s, ts)
  | _ => Panicked
  end.

(** The text a variable reference is kept as. *)
Definition envvar_text (spec : str) : str :=
  if bool_decide (58 ∈ spec) || str_eqb spec (lit "?") || str_eqb spec (lit "$") then lit "${" ++ spec ++ lit "}" else lit "$" ++ spec.

Definition consume_envvar_token (ts : list Token) : run (str * list Token) :=
  match ts with TEnvVar spec :: ts => Done (envvar_text spec, ts) | _ => Panicked end.

Definition expect_word_token (ts : list Token) : parser str :=
  match ts with
  | TWord _ :: _ | TSingleQuoted _ :: _ | TDoubleQuoted _ :: _ => x ← consume_word_token ts; Done (Ok x)
  | TEnvVar _ :: _ => x ← consume_envvar_token ts; Done (Ok x)
  | _ => Done (Err InvalidRedirect)
  end.

(** [str::find] on a character. *)
Fixpoint split_at_char (c : Z) (s : str) : option (str * str) :=
  match s with
  | [] => None
  | x :: s => if x =? c then Some ([], s) else match split_at_char c s with Some (a, b) => Some (x :: a, b) | None => None end
  end.

Definition is_identifier (name : str) : bool :=
  match name with
  | [] => false
  | first :: rest => (ascii_alphabetic first || (first =? 95)) && forallb is_ident_char rest
  end.

Definition split_env_override (s : str) : option (str * str) :=
  match split_at_char 61 s with
  | Some (name, value) => if is_identifier name then Some (name, value) else None
  | None => None
  end.

(** ** Simple commands *)

(** Phase 1: leading [VAR=val] words. *)
Fixpoint parse_overrides (ts : list Token) : list (str * str) * list Token :=
  match ts with
  | TWord w :: rest =>
      match split_env_override w with
      | Some nv => if next_is_word_class rest then let '(os, rest) := parse_overrides rest in (nv :: os, rest) else ([], ts)
      | None => ([], ts)
      end
  | _ => ([], ts)
  end.

Definition redirect_kind (t : Token) : option RedirectKind :=
  match t with
  | TRedirectOut => Some RkOut | TRedirectAppend => Some RkAppend | TRedirectIn => Some RkIn | TRedirectErr => Some RkErr
  | _ => None
  end.

(** Phase 2: words and redirects; each round takes a token, so as many rounds
    as tokens and one more are enough. *)
Fixpoint parse_args (fuel : nat) (ts : list Token) (av : list str) (rs : list Redirect) : parser (list str * list Redirect) :=
  match fuel with
  | O => Panicked
  | S fuel =>
      match ts with
      | [] => Done (Ok ((av, rs), ts))
      | t :: rest =>
          match redirect_kind t with
          | Some k => '(target, rest) ⇐ expect_word_token rest; parse_args fuel rest av (rs ++ [{| rd_kind := k; rd_target := target |}])
          | None =>
              match t with
              | TWord _ | TSingleQuoted _ | TDoubleQuoted _ => '(s, rest) ← consume_word_token ts; parse_args fuel rest (av ++ [s]) rs
              | TEnvVar _ => '(s, rest) ← consume_envvar_token ts; parse_args fuel rest (av ++ [s]) rs
              | _ => Done (Ok ((av, rs), ts))
              end
          end
      end
  end.

Definition parse_simple_command (ts : list Token) : parser SimpleCommand :=
  let '(os, ts) := parse_overrides ts in
  '((av, rs), ts) ⇐ parse_args (S (length ts)) ts [] [];
  if bool_decide (av = []) && bool_decide (os = []) then Done (Err MissingCommand) else
  if bool_decide (av = []) then Done (Err MissingCommand) else
  Done (Ok ({| argv := av; redirects := rs; env_overrides := os |}, ts)).

(** ** Pipelines *)

Definition ends_pipeline (t : Token) : bool :=
  match t with TPipe | TSemicolon | TNewline | TDoubleAmpersand | TDoublePipe | TAmpersand => true | _ => false end.

Fixpoint parse_stages (fuel : nat) (ts : list Token) (cmds : list SimpleCommand) : parser Pipeline :=
  match fuel with
  | O => Panicked
  | S fuel =>
      match ts with
      | TPipe :: ts =>
          match ts with
          | [] => Done (Err EmptyPipeline)
          | t :: _ =>
              if ends_pipeline t then Done (Err EmptyPipeline) else
              '(cmd, ts) ⇐ parse_simple_command ts; parse_stages fuel ts (cmds ++ [cmd])
          end
      | _ => Done (Ok ({| commands := cmds |}, ts))
      end
  end.

Definition parse_pipeline (ts : list Token) : parser Pipeline :=
  match ts with
  | TPipe :: _ => Done (Err EmptyPipeline)
  | _ => '(cmd, ts) ⇐ parse_simple_command ts; parse_stages (S (length ts)) ts [cmd]
  end.

(** ** Command lists *)

Fixpoint skip_separators (ts : list Token) : list Token :=
  match ts with TSemicolon :: ts | TNewline :: ts => skip_separators ts | _ => ts end.

Definition consume_connector (ts : list Token) : option Connector * list Token :=
  match ts with
  | TSemicolon :: ts | TNewline :: ts => (Some CSemi, ts)
  | TDoubleAmpersand :: ts => (Some CAnd, ts)
  | TDoublePipe :: ts => (Some COr, ts)
  | TAmpersand :: ts => (Some CBackground, ts)
  | _ => (None, ts)
  end.

Fixpoint parse_entries (fuel : nat) (ts : list Token) (es : list (Pipeline * option Connector)) : parser CommandList :=
  match fuel with
  | O => Panicked
  | S fuel =>
      match ts with
      | [] => Done (Ok ({| entries := es |}, ts))
      | _ =>
          '(p, ts) ⇐ parse_pipeline ts;
          let '(c, ts) := consume_connector ts in
          match c with
          | None => Done (Ok ({| entries := es ++ [(p, c)] |}, ts))
          | Some _ => parse_entries fuel (skip_separators ts) (es ++ [(p, c)])
          end
      end
  end.

Definition parse_command_list (ts : list Token) : parser CommandList :=
  let ts := skip_separators ts in parse_entries (S (length ts)) ts [].

Definition parse_line (ts : list Token) : run (result ParseError CommandList) :=
  match parse_command_list ts with
  | Done (Ok (cl, _)) => Done (Ok cl)
  | Done (Err e) => Done (Err e)
  | Panicked => Panicked
  end.

(** ** Well-formed command lists and their text *)

Definition override_ok (o : str * str) : Prop := is_identifier (fst o) = true.
Definition cmd_ok (c : SimpleCommand) : Prop := argv c <> [] /\ Forall override_ok (env_overrides c).
Definition pipeline_ok (p : Pipeline) : Prop := commands p <> [] /\ Forall cmd_ok (commands p).

(** Only the last entry may lack a connector. *)
Fixpoint entries_ok (es : list (Pipeline * option Connector)) : Prop :=
  match es with [] => True | (p, c) :: es => pipeline_ok p /\ (es <> [] -> is_Some c) /\ entries_ok es end.

Definition override_text (o : str * str) : str := fst o ++ lit "=" ++ snd o.
Definition cmd_text (c : SimpleCommand) : list str := map override_text (env_overrides c) ++ argv c ++ map rd_target (redirects c).
Definition pipeline_text (p : Pipeline) : list str := concat (map cmd_text (commands p)).
Definition entries_text (es : list (Pipeline * option Connector)) : list str := concat (map (fun e => pipeline_text (fst e)) es).

Definition token_text (t : Token) : list str :=
  match t with TWord s | TSingleQuoted s | TDoubleQuoted s => [s] | TEnvVar spec => [envvar_text spec] | _ => [] end.
Definition tokens_text (ts : list Token) : list str := concat (map token_text ts).

(** No further word or redirect of the command. *)
Definition stops (ts : list Token) : Prop :=
  match ts with [] => True | t :: _ => word_class t = false /\ redirect_kind t = None end.

(** ** Lemmas: any token list *)

Lemma split_at_char_some c s a b : split_at_char c s = Some (a, b) -> s = a ++ c :: b /\ c ∉ a.
Proof.
  revert a b. induction s as [|x s IH]; intros a b; cbn [split_at_char]; [done|]. destruct (Z.eqb_spec x c) as [->|Hx].
  - intros [= <- <-]. split; [done|apply not_elem_of_nil].
  - destruct (split_at_char c s) as [[a' b']|]; [|done]. intros [= <- <-]. destruct (IH a' b' eq_refl) as [-> Ha]. split; [done|]. set_solver.
Qed.

Lemma split_at_char_app c a b : c ∉ a -> split_at_char c (a ++ c :: b) = Some (a, b).
Proof.
  induction a as [|x a IH]; intros Ha; cbn [app split_at_char]; [by rewrite Z.eqb_refl|].
  rewrite (proj2 (Z.eqb_neq x c)) by set_solver. by rewrite IH by set_solver.
Qed.

Lemma override_some w o : split_env_override w = Some o -> w = override_text o /\ override_ok o.
Proof.
  unfold split_env_override. destruct (split_at_char 61 w) as [[n v]|] eqn:E; [|done]. destruct (is_identifier n) eqn:Hi; [|done].
  intros [= <-]. by destruct (split_at_char_some _ _ _ _ E) as [-> _].
Qed.

Lemma identifier_no_equals n : is_identifier n = true -> 61 ∉ n.
Proof.
  destruct n as [|c n]; cbn [is_identifier]; [done|]. rewrite andb_true_iff, forallb_forall. intros [Hc Hn].
  rewrite not_elem_of_cons. split; [by intros <-|]. intros Hin%list_elem_of_In. by apply Hn in Hin.
Qed.

Lemma override_roundtrip o : override_ok o -> split_env_override (override_text o) = Some o.
Proof.
  intros Ho. unfold split_env_override, override_text. change (lit "=") with [61]. cbn [app].
  rewrite split_at_char_app by (by apply identifier_no_equals). destruct o as [n v]. cbn [fst snd]. unfold override_ok in Ho. cbn in Ho. by rewrite Ho.
Qed.

Lemma expect_word_token_spec ts : exists r, expect_word_token ts = Done r /\
  match r with Ok (s, rest) => tokens_text ts = s :: tokens_text rest /\ (length rest < length ts)%nat | Err _ => True end.
Proof. destruct ts as [|[] ts]; eexists; (split; [reflexivity|]); cbn; auto with lia. Qed.

Lemma parse_overrides_spec ts os rest : parse_overrides ts = (os, rest) ->
  tokens_text ts = map override_text os ++ tokens_text rest /\ (length rest <= length ts)%nat /\ Forall override_ok os.
Proof.
  revert os rest. induction ts as [|t ts IH]; intros os rest; cbn [parse_overrides]; [by intros [= <- <-]|].
  destruct t; try by intros [= <- <-]. destruct (split_env_override w) as [o|] eqn:E; [|by intros [= <- <-]].
  destruct (next_is_word_class ts); [|by intros [= <- <-]]. destruct (parse_overrides ts) as [os' rest']. intros [= <- <-].
  destruct (IH os' rest' eq_refl) as (Ht & Hl & Hok). destruct (override_some _ _ E) as [-> Ho]. split_and!.
  - unfold tokens_text in *. cbn [map concat token_text app]. by rewrite Ht.
  - cbn. lia.
  - by constructor.
Qed.

Definition args_good (ts : list Token) (av : list str) (rs : list Redirect) (r : result ParseError (list str * list Redirect * list Token)) : Prop :=
  match r with
  | Err _ => True
  | Ok ((av', rs'), rest) =>
      tokens_text ts ++ av ++ map rd_target rs ≡ₚ av' ++ map rd_target rs' ++ tokens_text rest /\ stops rest /\
      ((length rest < length ts)%nat \/ av' = av /\ rest = ts)
  end.

Lemma args_stop ts av rs : stops ts -> args_good ts av rs (Ok ((av, rs), ts)).
Proof. intros H. cbn. split; [|split; [done|by right]]. rewrite (Permutation_app_comm (tokens_text ts)). by rewrite <- app_assoc. Qed.

(** A token that adds a word. *)
Lemma args_more ts ts' s av rs r : tokens_text ts = s :: tokens_text ts' -> (length ts' < length ts)%nat ->
  args_good ts' (av ++ [s]) rs r -> args_good ts av rs r.
Proof.
  intros Ht Hl. destruct r as [[[av' rs'] rest]|]; cbn; [|done]. intros (Hp & Hs & Hr). split; [|split; [done|left]].
  - rewrite <- Hp, Ht. rewrite <- !app_assoc. cbn. by rewrite <- Permutation_middle, (Permutation_middle (tokens_text ts')), <- Permutation_middle.
  - destruct Hr as [Hr|[_ ->]]; lia.
Qed.

Lemma args_redirect ts ts' k s av rs r : tokens_text ts = s :: tokens_text ts' -> (length ts' < length ts)%nat ->
  args_good ts' av (rs ++ [{| rd_kind := k; rd_target := s |}]) r -> args_good ts av rs r.
Proof.
  intros Ht Hl. destruct r as [[[av' rs'] rest]|]; cbn; [|done]. intros (Hp & Hs & Hr). split; [|split; [done|left]].
  - rewrite <- Hp, Ht, map_app. cbn [map]. cbn [app]. rewrite !app_assoc. by rewrite (Permutation_app_comm _ [s]).
  - destruct Hr as [Hr|[_ ->]]; lia.
Qed.

Lemma parse_args_spec fuel ts av rs : (length ts < fuel)%nat -> exists r, parse_args fuel ts av rs = Done r /\ args_good ts av rs r.
Proof.
  revert ts av rs. induction fuel as [|fuel IH]; intros ts av rs Hf; [lia|]. cbn [parse_args].
  destruct ts as [|t ts]; [eexists; split; [done|by apply args_stop]|]. cbn [length] in Hf.
  destruct (redirect_kind t) as [k|] eqn:Ek.
  - destruct (expect_word_token_spec ts) as ([[s rest]|e] & -> & Hr); cbn [pbind]; [|by exists (Err e)]. destruct Hr as [Ht Hl].
    destruct (IH rest av (rs ++ [{| rd_kind := k; rd_target := s |}]) ltac:(lia)) as (r & -> & Hg). exists r. split; [done|].
    apply (args_redirect _ rest k s); [|cbn; lia|exact Hg]. unfold tokens_text in *. cbn [map concat]. rewrite Ht. by destruct t.
  - destruct t; try done; cbn [consume_word_token consume_envvar_token mbind run_bind];
      try (eexists; split; [done|by apply args_stop]);
      match goal with |- exists r, parse_args _ _ (av ++ [?s]) _ = _ /\ _ =>
        destruct (IH ts (av ++ [s]) rs ltac:(lia)) as (r & -> & Hg); exists r; split; [done|]; apply (args_more _ ts s); [done|cbn; lia|exact Hg] end.
Qed.

Lemma parse_simple_command_spec ts : exists r, parse_simple_command ts = Done r /\
  match r with
  | Ok (c, rest) => cmd_ok c /\ tokens_text ts ≡ₚ cmd_text c ++ tokens_text rest /\ stops rest /\ (length rest < length ts)%nat
  | Err _ => True
  end.
Proof.
  unfold parse_simple_command. destruct (parse_overrides ts) as [os ts'] eqn:Eo. destruct (parse_overrides_spec _ _ _ Eo) as (Ht & Hl & Hok).
  destruct (parse_args_spec (S (length ts')) ts' [] [] ltac:(lia)) as ([[[av rs] rest]|e] & -> & Hg); cbn [pbind]; [|by exists (Err e)].
  destruct (bool_decide (av = [])) eqn:Eav; cbn [andb]; [destruct (bool_decide (os = [])); by eexists|].
  apply bool_decide_eq_false in Eav. eexists. split; [reflexivity|]. destruct Hg as (Hp & Hs & Hr). split_and!; [done| |done|].
  - unfold cmd_text. cbn [env_overrides argv redirects]. rewrite Ht, <- !app_assoc. apply Permutation_app_head.
    rewrite <- Hp. cbn. by rewrite app_nil_r.
  - destruct Hr as [Hr|[-> _]]; [lia|done].
Qed.

Definition stages_good (ts : list Token) (cmds : list SimpleCommand) (r : result ParseError (Pipeline * list Token)) : Prop :=
  match r with
  | Err _ => True
  | Ok (p, rest) => pipeline_ok p /\ concat (map cmd_text cmds) ++ tokens_text ts ≡ₚ pipeline_text p ++ tokens_text rest /\
      stops rest /\ head rest <> Some TPipe /\ (length rest <= length ts)%nat
  end.

Lemma parse_stages_spec fuel ts cmds : (length ts < fuel)%nat -> cmds <> [] -> Forall cmd_ok cmds -> stops ts ->
  exists r, parse_stages fuel ts cmds = Done r /\ stages_good ts cmds r.
Proof.
  revert ts cmds. induction fuel as [|fuel IH]; intros ts cmds Hf Hne Hok Hs; [lia|].
  assert (head ts <> Some TPipe -> stages_good ts cmds (Ok ({| commands := cmds |}, ts))) as Hend by (intros Hh; by split_and!).
  cbn [parse_stages]. destruct ts as [|[] ts]; try (eexists; split; [reflexivity|by apply Hend]).
  destruct ts as [|t ts]; [by eexists|]. destruct (ends_pipeline t); [by eexists|].
  destruct (parse_simple_command_spec (t :: ts)) as ([[c rest]|e] & -> & Hr); cbn [pbind]; [|by exists (Err e)].
  destruct Hr as (Hc & Ht & Hst & Hl). destruct (IH rest (cmds ++ [c])) as (r & -> & Hg); [cbn in *; lia|by destruct cmds| |done|].
  { apply Forall_app. split; [done|]. by apply Forall_singleton. }
  exists r. split; [done|]. destruct r as [[p rest']|]; [|done]. destruct Hg as (Hp & Hpt & Hs' & Hh & Hl'). split_and!; try done; [|cbn in *; lia].
  rewrite <- Hpt, map_app, concat_app. cbn [map concat]. rewrite app_nil_r, <- app_assoc. apply Permutation_app_head. exact Ht.
Qed.

Lemma parse_pipeline_spec ts : exists r, parse_pipeline ts = Done r /\
  match r with
  | Ok (p, rest) => pipeline_ok p /\ tokens_text ts ≡ₚ pipeline_text p ++ tokens_text rest /\
      stops rest /\ head rest <> Some TPipe /\ (length rest < length ts)%nat
  | Err _ => True
  end.
Proof.
  unfold parse_pipeline. destruct (decide (head ts = Some TPipe)) as [Hh|Hh]; [destruct ts as [|[] ts]; try done; by eexists|].
  destruct (parse_simple_command_spec ts) as (r & Hr & Hs).
  assert (exists r, pbind (parse_simple_command ts) (fun '(cmd, ts) => parse_stages (S (length ts)) ts [cmd]) = Done r /\
    match r with
    | Ok (p, rest) => pipeline_ok p /\ tokens_text ts ≡ₚ pipeline_text p ++ tokens_text rest /\
        stops rest /\ head rest <> Some TPipe /\ (length rest < length ts)%nat
    | Err _ => True
    end) as Hgen.
  { rewrite Hr. cbn [pbind]. destruct r as [[c rest]|e]; [|by exists (Err e)]. destruct Hs as (Hc & Ht & Hst & Hl).
    destruct (parse_stages_spec (S (length rest)) rest [c] ltac:(lia) ltac:(done) ltac:(by apply Forall_singleton) Hst) as (r & -> & Hg).
    exists r. split; [done|]. destruct r as [[p rest']|]; [|done]. destruct Hg as (Hp & Hpt & Hs' & Hh' & Hl'). split_and!; try done; [|lia].
    rewrite <- Hpt. cbn [map concat]. by rewrite app_nil_r. }
  destruct ts as [|[] ts]; done.
Qed.

Lemma skip_separators_spec ts : tokens_text (skip_separators ts) = tokens_text ts /\ (length (skip_separators ts) <= length ts)%nat.
Proof. induction ts as [|[] ts [IH1 IH2]]; cbn [skip_separators]; try done; cbn [length]; (split; [exact IH1|lia]). Qed.

Lemma consume_connector_spec ts c rest : consume_connector ts = (c, rest) -> stops ts -> head ts <> Some TPipe ->
  tokens_text rest = tokens_text ts /\ (length rest <= length ts)%nat /\ (c = None -> rest = []).
Proof.
  destruct ts as [|[] ts]; cbn; intros [= <- <-] Hs Hh; try done; try (by destruct Hs); (split; [done|]; split; [cbn; lia|done]).
Qed.

Lemma entries_ok_snoc es p c : Forall (fun e => pipeline_ok (fst e) /\ is_Some (snd e)) es -> pipeline_ok p -> entries_ok (es ++ [(p, c)]).
Proof.
  intros Hes Hp. induction Hes as [|[q d] es [Hq Hd] _ IH]; cbn; [by split_and!|]. split_and!; [done|done|done].
Qed.

Lemma entries_ok_full es : Forall (fun e => pipeline_ok (fst e) /\ is_Some (snd e)) es -> entries_ok es.
Proof. intros Hes. induction Hes as [|[q d] es [Hq Hd] _ IH]; cbn; [done|]. by split_and!. Qed.

Lemma parse_entries_spec fuel ts es : (length ts < fuel)%nat -> Forall (fun e => pipeline_ok (fst e) /\ is_Some (snd e)) es ->
  exists r, parse_entries fuel ts es = Done r /\
    match r with
    | Ok (cl, rest) => rest = [] /\ entries_ok (entries cl) /\ entries_text es ++ tokens_text ts ≡ₚ entries_text (entries cl)
    | Err _ => True
    end.
Proof.
  revert ts es. induction fuel as [|fuel IH]; intros ts es Hf Hes; [lia|]. cbn [parse_entries].
  destruct ts as [|t ts]. { eexists. split; [reflexivity|]. split_and!; [done|by apply entries_ok_full|]. cbn. by rewrite app_nil_r. }
  destruct (parse_pipeline_spec (t :: ts)) as ([[p rest]|e] & -> & Hr); cbn [pbind]; [|by exists (Err e)].
  destruct Hr as (Hp & Ht & Hs & Hh & Hl). destruct (consume_connector rest) as [c rest'] eqn:Ec.
  destruct (consume_connector_spec _ _ _ Ec Hs Hh) as (Ht' & Hl' & Hn).
  assert (entries_text (es ++ [(p, c)]) ++ tokens_text rest' ≡ₚ entries_text es ++ tokens_text (t :: ts)) as Htext.
  { unfold entries_text. rewrite map_app, concat_app. cbn [map concat fst]. rewrite app_nil_r, <- app_assoc, Ht'. apply Permutation_app_head. by symmetry. }
  destruct c as [c|].
  - destruct (skip_separators_spec rest') as [Hst Hsl].
    destruct (IH (skip_separators rest') (es ++ [(p, Some c)])) as (r & -> & Hg); [cbn in *; lia| |].
    { apply Forall_app. split; [done|]. constructor; [|done]. split; [done|by eexists]. }
    exists r. split; [done|]. destruct r as [[cl rest2]|]; [|done]. destruct Hg as (-> & Hok & Htx). split_and!; try done.
    rewrite <- Htx, Hst. by rewrite Htext.
  - eexists. split; [reflexivity|]. pose proof (Hn eq_refl) as ->. split_and!; [done|by apply entries_ok_snoc|].
    cbn [entries]. rewrite <- Htext. cbn. by rewrite app_nil_r.
Qed.

Lemma parse_line_spec ts : exists r, parse_line ts = Done r /\
  match r with Ok cl => entries_ok (entries cl) /\ tokens_text ts ≡ₚ entries_text (entries cl) | Err _ => True end.
Proof.
  unfold parse_line, parse_command_list. destruct (skip_separators_spec ts) as [Ht _].
  destruct (parse_entries_spec (S (length (skip_separators ts))) (skip_separators ts) [] ltac:(lia) ltac:(done)) as ([[cl rest]|e] & -> & Hr);
    [|by exists (Err e)]. destruct Hr as (_ & Hok & Htx). exists (Ok cl). split; [done|]. split; [done|]. by rewrite <- Htx, <- Ht.
Qed.

(** ** Printing a command list *)

Definition redirect_token (k : RedirectKind) : Token :=
  match k with RkIn => TRedirectIn | RkOut => TRedirectOut | RkAppend => TRedirectAppend | RkErr => TRedirectErr end.

(** A word as a token: in single quotes, or in double quotes when it has a
    single quote, or with every character escaped when it has both. *)
Definition arg_token (s : str) : Token := if bool_decide (39 ∉ s) then TSingleQuoted s else if bool_decide (34 ∉ s) then TDoubleQuoted s else TWord s.
Definition unparse_redirect (r : Redirect) : list Token := [redirect_token (rd_kind r); arg_token (rd_target r)].

Definition unparse_cmd (c : SimpleCommand) : list Token :=
  map (fun o => TWord (override_text o)) (env_overrides c) ++ map arg_token (argv c) ++ concat (map unparse_redirect (redirects c)).

Definition unparse_stages (cs : list SimpleCommand) : list Token := concat (map (fun c => TPipe :: unparse_cmd c) cs).
Definition unparse_pipeline (p : Pipeline) : list Token :=
  match commands p with [] => [] | c :: cs => unparse_cmd c ++ unparse_stages cs end.

Definition connector_token (c : option Connector) : list Token :=
  match c with
  | None => [] | Some CSemi => [TSemicolon] | Some CAnd => [TDoubleAmpersand] | Some COr => [TDoublePipe] | Some CBackground => [TAmpersand]
  end.

Definition unparse_entries (es : list (Pipeline * option Connector)) : list Token :=
  concat (map (fun e => unparse_pipeline (fst e) ++ connector_token (snd e)) es).

(** The text of a command list. *)
Definition print_line (cl : CommandList) : str := print_tokens (unparse_entries (entries cl)).

(** A command name is not at once of the form NAME=value and a text with both
    kinds of quotes: there is no token for such a word at the head of a command
    that would not be taken for an assignment. *)
Definition plain_head (c : SimpleCommand) : Prop :=
  match argv c with [] => True | a :: _ => 39 ∉ a \/ 34 ∉ a \/ split_env_override a = None end.
Definition quotable (cl : CommandList) : Prop := Forall (fun e => Forall plain_head (commands (fst e))) (entries cl).

(** ** Lemmas: printed command lists *)

Lemma arg_token_word s : word_class (arg_token s) = true /\ redirect_kind (arg_token s) = None /\ token_ok (arg_token s) /\ token_text (arg_token s) = [s].
Proof. unfold arg_token. case_bool_decide as H1; [done|]. case_bool_decide as H2; [done|]. split_and!; try done. cbn. intros ->. by apply elem_of_nil in H1. Qed.

Lemma arg_token_consumed s ts : consume_word_token (arg_token s :: ts) = Done (s, ts) /\ expect_word_token (arg_token s :: ts) = Done (Ok (s, ts)).
Proof. unfold arg_token. case_bool_decide; [done|]. by case_bool_decide. Qed.

(** A command starts with a word that is no separator. *)
Lemma unparse_cmd_head c rest : cmd_ok c -> exists t ts, unparse_cmd c ++ rest = t :: ts /\ word_class t = true.
Proof.
  intros [Ha _]. unfold unparse_cmd. destruct (env_overrides c) as [|o os]; [|by eexists _, _]. destruct (argv c) as [|a av]; [done|]. eexists _, _. split; [reflexivity|apply arg_token_word].
Qed.

Lemma parse_overrides_unparse os s rest : Forall override_ok os -> 39 ∉ s \/ 34 ∉ s \/ split_env_override s = None ->
  parse_overrides (map (fun o => TWord (override_text o)) os ++ arg_token s :: rest) = (os, arg_token s :: rest).
Proof.
  intros Hos Hs. induction Hos as [|o os Ho _ IH].
  - unfold arg_token. case_bool_decide; [done|]. case_bool_decide; [done|]. cbn [map app parse_overrides]. by destruct Hs as [? | [? | ->]].
  - cbn [map app parse_overrides]. rewrite override_roundtrip by done. rewrite IH. destruct os; [|done]. cbn [map app next_is_word_class]. by rewrite (proj1 (arg_token_word s)).
Qed.

Lemma parse_args_words ws ts fuel av rs : (length (map arg_token ws ++ ts) < fuel)%nat ->
  exists fuel', (length ts < fuel')%nat /\ parse_args fuel (map arg_token ws ++ ts) av rs = parse_args fuel' ts (av ++ ws) rs.
Proof.
  revert fuel av. induction ws as [|w ws IH]; intros fuel av Hf; [exists fuel; by rewrite app_nil_r|]. destruct fuel as [|fuel]; [lia|].
  cbn [map app length] in Hf. destruct (IH fuel (av ++ [w]) ltac:(lia)) as (fuel' & Hf' & E). exists fuel'. split; [done|].
  cbn [map app parse_args]. destruct (arg_token_word w) as (Hw & -> & _). rewrite (proj1 (arg_token_consumed w _)). cbn [mbind run_bind]. rewrite E, <- app_assoc.
  unfold arg_token. case_bool_decide; [done|]. by case_bool_decide.
Qed.

Lemma parse_args_redirects rs' ts fuel av rs : stops ts -> (length (concat (map unparse_redirect rs') ++ ts) < fuel)%nat ->
  parse_args fuel (concat (map unparse_redirect rs') ++ ts) av rs = Done (Ok ((av, rs ++ rs'), ts)).
Proof.
  intros Hs. revert fuel rs. induction rs' as [|[k s] rs' IH]; intros fuel rs Hf; (destruct fuel as [|fuel]; [lia|]).
  - cbn [map concat app parse_args]. rewrite app_nil_r. destruct ts as [|t ts]; [done|]. destruct Hs as [Hw ->]. by destruct t.
  - cbn [map concat app length parse_args unparse_redirect rd_kind rd_target] in Hf |- *.
    assert (redirect_kind (redirect_token k) = Some k) as -> by (by destruct k). rewrite (proj2 (arg_token_consumed s _)). cbn [pbind].
    rewrite IH by lia. by rewrite <- app_assoc.
Qed.

Lemma parse_cmd_unparse c rest : cmd_ok c -> plain_head c -> stops rest -> parse_simple_command (unparse_cmd c ++ rest) = Done (Ok (c, rest)).
Proof.
  intros [Ha Ho] Hh Hs. unfold parse_simple_command, unparse_cmd. rewrite <- !app_assoc. destruct c as [av rs os]. unfold plain_head in Hh. cbn [argv redirects env_overrides] in *.
  destruct av as [|a av]; [done|]. cbn [map app]. rewrite parse_overrides_unparse by done.
  destruct (parse_args_words (a :: av) (concat (map unparse_redirect rs) ++ rest)
    (S (length (map arg_token (a :: av) ++ concat (map unparse_redirect rs) ++ rest))) [] [] ltac:(lia)) as (fuel & Hf & E).
  cbn [map app] in E. rewrite E, parse_args_redirects by done. cbn [pbind app]. by rewrite bool_decide_false.
Qed.

Lemma stages_stop cs rest : stops rest -> stops (unparse_stages cs ++ rest).
Proof. by destruct cs. Qed.

Lemma parse_stages_unparse cs rest fuel cmds : Forall cmd_ok cs -> Forall plain_head cs -> stops rest -> head rest <> Some TPipe ->
  (length (unparse_stages cs ++ rest) < fuel)%nat ->
  parse_stages fuel (unparse_stages cs ++ rest) cmds = Done (Ok ({| commands := cmds ++ cs |}, rest)).
Proof.
  intros Hcs Hp Hs Hh. revert fuel cmds. induction Hcs as [|c cs Hc _ IH]; intros fuel cmds Hf; (destruct fuel as [|fuel]; [lia|]); [|apply Forall_cons in Hp as [Hpc Hp]].
  - cbn. rewrite app_nil_r. by destruct rest as [|[] rest].
  - unfold unparse_stages in *. cbn [map concat app] in Hf |- *. rewrite <- !app_assoc in Hf |- *. cbn [length parse_stages app] in Hf |- *.
    destruct (unparse_cmd_head c (concat (map (fun c => TPipe :: unparse_cmd c) cs) ++ rest) Hc) as (t & ts & E & Ht). rewrite E.
    assert (ends_pipeline t = false) as -> by (by destruct t). rewrite <- E.
    rewrite parse_cmd_unparse by (done || by apply stages_stop). cbn [pbind]. rewrite IH by (done || (rewrite length_app in Hf; lia)).
    by rewrite <- app_assoc.
Qed.

Lemma parse_pipeline_unparse p rest : pipeline_ok p -> Forall plain_head (commands p) -> stops rest -> head rest <> Some TPipe ->
  parse_pipeline (unparse_pipeline p ++ rest) = Done (Ok (p, rest)).
Proof.
  destruct p as [[|c cs]]; intros [Hne Hok] Hp Hs Hh; [done|]. apply Forall_cons in Hok as [Hc Hcs]. apply Forall_cons in Hp as [Hpc Hpcs]. unfold unparse_pipeline. cbn [commands].
  rewrite <- app_assoc. destruct (unparse_cmd_head c (unparse_stages cs ++ rest) Hc) as (t & ts & E & Ht). unfold parse_pipeline.
  transitivity (pbind (parse_simple_command (unparse_cmd c ++ unparse_stages cs ++ rest)) (fun '(cmd, ts) => parse_stages (S (length ts)) ts [cmd])).
  - rewrite E. by destruct t.
  - rewrite parse_cmd_unparse by (done || by apply stages_stop). cbn [pbind]. by apply parse_stages_unparse; try lia.
Qed.

Lemma unparse_entries_head es rest : entries_ok es -> es <> [] -> exists t ts, unparse_entries es ++ rest = t :: ts /\ word_class t = true.
Proof.
  destruct es as [|[[[|c cs]] cn] es]; [done|by intros [[? _] _]|]. intros [[_ [Hc _]%Forall_cons] _] _.
  unfold unparse_entries, unparse_pipeline. cbn [map concat fst commands]. rewrite <- !app_assoc. by apply unparse_cmd_head.
Qed.

Lemma skip_separators_id es : entries_ok es -> skip_separators (unparse_entries es) = unparse_entries es.
Proof.
  intros Hok. destruct (decide (es = [])) as [->|Hne]; [done|]. destruct (unparse_entries_head es [] Hok Hne) as (t & ts & E & Ht).
  rewrite app_nil_r in E. rewrite E. by destruct t.
Qed.

Lemma parse_entries_unparse es fuel acc : entries_ok es -> Forall (fun e => Forall plain_head (commands (fst e))) es -> (length (unparse_entries es) < fuel)%nat ->
  parse_entries fuel (unparse_entries es) acc = Done (Ok ({| entries := acc ++ es |}, [])).
Proof.
  revert fuel acc. induction es as [|[p c] es IH]; intros fuel acc Hok Hq Hf; (destruct fuel as [|fuel]; [lia|]).
  - cbn. by rewrite app_nil_r.
  - destruct (unparse_entries_head ((p, c) :: es) [] Hok ltac:(done)) as (t & ts & E & Ht). rewrite app_nil_r in E.
    cbn [parse_entries]. rewrite E. rewrite <- E. destruct Hok as (Hp & Hc & Hok). apply Forall_cons in Hq as [Hq1 Hq].
    unfold unparse_entries in Hf |- *. cbn [map concat fst snd] in Hf |- *. fold (unparse_entries es) in Hf |- *. rewrite <- app_assoc in Hf |- *.
    rewrite length_app in Hf. assert (stops (connector_token c ++ unparse_entries es) /\ head (connector_token c ++ unparse_entries es) <> Some TPipe) as [Hs Hh].
    { destruct c as [[]|]; try done. destruct es as [|e es]; [done|]. by destruct (Hc ltac:(done)). }
    rewrite parse_pipeline_unparse by done. cbn [pbind]. destruct c as [c|].
    + assert (consume_connector (connector_token (Some c) ++ unparse_entries es) = (Some c, unparse_entries es)) as -> by (by destruct c).
      rewrite skip_separators_id by done. rewrite IH; [by rewrite <- app_assoc|done|done|]. rewrite length_app in Hf. destruct c; cbn in Hf; lia.
    + destruct es as [|e es]; [done|]. by destruct (Hc ltac:(done)).
Qed.

Lemma parse_line_unparse cl : entries_ok (entries cl) -> quotable cl -> parse_line (unparse_entries (entries cl)) = Done (Ok cl).
Proof.
  intros Hok Hq. unfold parse_line, parse_command_list. rewrite skip_separators_id, parse_entries_unparse by (done || lia). by destruct cl.
Qed.

Lemma Forall_concat_map {A B} (P : B -> Prop) (f : A -> list B) l : Forall (fun x => Forall P (f x)) l -> Forall P (concat (map f l)).
Proof. induction 1 as [|x l Hx _ IH]; cbn; [done|]. by apply Forall_app. Qed.

Lemma unparse_tokens_ok cl : Forall token_ok (unparse_entries (entries cl)).
Proof.
  apply Forall_concat_map, Forall_true. intros [[cs] c]. cbn [fst snd commands].
  apply Forall_app. split; [|by destruct c as [[]|]; repeat constructor].
  assert (forall cmd, Forall token_ok (unparse_cmd cmd)) as Hall.
  { intros cmd. unfold unparse_cmd. rewrite !Forall_app. split_and!.
    - apply Forall_fmap. apply Forall_true. intros [n v]. cbn. unfold override_text. by destruct n.
    - apply Forall_fmap, Forall_true. intros a. apply arg_token_word.
    - apply Forall_concat_map, Forall_true. intros [k a]. apply Forall_cons. split; [by destruct k|]. apply Forall_singleton, arg_token_word. }
  unfold unparse_pipeline. cbn [commands]. destruct cs as [|cmd cs]; [constructor|]. apply Forall_app. split; [done|].
  apply Forall_concat_map, Forall_true. intros cmd'. by constructor.
Qed.

(** ** Theorem *)

(** C36: Shell syntax: on every line the lexer and the parser end without a
    panic; what is accepted is a well-formed command list (every pipeline has a
    command, every command a word, only the last entry lacks a connector) that
    holds exactly the words of the line's tokens; and every well-formed command
    list is read back from its printed text, whatever its words are (they are
    quoted, or escaped when they have both kinds of quotes), unless a command's
    name is of the form NAME=value and has both a single and a double quote. *)
Theorem shell_syntax_exact (line : str) (cl : CommandList) :
  (exists r, tokenize line = Some r /\
     match r with
     | Err e => e = UnterminatedSingleQuote \/ e = UnterminatedDoubleQuote
     | Ok ts => exists p, parse_line ts = Done p /\
         match p with Ok cl => entries_ok (entries cl) /\ tokens_text ts ≡ₚ entries_text (entries cl) | Err _ => True end
     end) /\
  (entries_ok (entries cl) -> quotable cl ->
     exists ts, tokenize (print_line cl) = Some (Ok ts) /\ parse_line ts = Done (Ok cl)).
Proof.
  split.
  - destruct (proj1 lexer_exact line) as (r & Hr & Hok). exists r. split; [done|]. destruct r as [ts|e]; [|done].
    destruct (parse_line_spec ts) as (p & Hp & Hs). by exists p.
  - intros Hok Hq. exists (unparse_entries (entries cl)). split; [|by apply parse_line_unparse].
    apply tokenize_print, unparse_tokens_ok.
Qed.

(** ** Witness *)

Definition demo_line : CommandList :=
  {| entries :=
       [({| commands := [{| argv := [lit "ls"; lit "-l x"]; redirects := []; env_overrides := [(lit "A", lit "1 2")] |};
                         {| argv := [lit "wc"]; redirects := [{| rd_kind := RkAppend; rd_target := lit "out" |}]; env_overrides := [] |}] |}, Some CAnd);
        ({| commands := [{| argv := [lit "true"]; redirects := []; env_overrides := [] |}] |}, None)] |}.

Example demo_parse : parse_line [TNewline; TWord (lit "A=1"); TWord (lit "ls"); TPipe; TWord (lit "wc"); TRedirectOut; TEnvVar (lit "F"); TAmpersand] =
  Done (Ok {| entries := [({| commands := [{| argv := [lit "ls"]; redirects := []; env_overrides := [(lit "A", lit "1")] |};
    {| argv := [lit "wc"]; redirects := [{| rd_kind := RkOut; rd_target := lit "$F" |}]; env_overrides := [] |}] |}, Some CBackground)] |}).
Proof. vm_compute. reflexivity. Qed.

(** A word with a single quote, one with both quotes, and an empty one. *)
Example quotes_printed : let cl := {| entries := [({| commands := [{| argv := [lit "it's"; [39; 34]; []]; redirects := []; env_overrides := [] |}] |}, None)] |} in
  print_line cl = [34] ++ lit "it's" ++ [34] ++ lit " \'\" ++ [34] ++ lit " '' " /\ option_map (fun r => match r with Ok ts => parse_line ts | Err _ => Panicked end) (tokenize (print_line cl)) = Some (Done (Ok cl)).
Proof. split; vm_compute; reflexivity. Qed.

Lemma shell_syntax_exact_witness : exists ts, tokenize (print_line demo_line) = Some (Ok ts) /\ parse_line ts = Done (Ok demo_line).
Proof.
  apply (proj2 (shell_syntax_exact [] demo_line)).
  - repeat split; try done; try (by repeat constructor).
  - unfold quotable, demo_line. cbn [entries commands fst argv redirects rd_target].
    repeat constructor; apply (bool_decide_unpack _); vm_compute; reflexivity.
Defined.

(** ** Where the parser departs from its grammar *)

(** A connector that needs a command on both sides is accepted at the end. *)
Lemma dangling_connector : parse_line [TWord (lit "a"); TDoubleAmpersand] =
  Done (Ok {| entries := [({| commands := [{| argv := [lit "a"]; redirects := []; env_overrides := [] |}] |}, Some CAnd)] |}).
Proof. reflexivity. Qed.
