(* ===== verification/ShellEnv.v ===== *)
(** * Variables of the shell and their expansion (omni-shell: env.rs)

    The variable store and [expand], which replaces the references of a string
    by their values.  Strings are lists of characters. *)

From Stdlib Require Import ZArith Lia String DecimalString.
From stdpp Require Import base numbers list gmap sorting.
From S2P Require Import Prelude Str ShellLex.

(** ** Data *)

Record ShellEnv := { sh_vars : gmap str str; sh_exported : gset str; sh_aliases : gmap str str; sh_exit : Z }.

Definition default_vars : list (str * str) :=
  [(lit "HOME", lit "/"); (lit "PATH", lit "/bin"); (lit "USER", lit "root"); (lit "PWD", lit "/")].

Definition env_new : ShellEnv :=
  {| sh_vars := list_to_map default_vars; sh_exported := list_to_set (fst <$> default_vars); sh_aliases := ∅; sh_exit := 0 |}.

(** ** Variables *)

Definition env_get (name : str) (e : ShellEnv) : option str := sh_vars e !! name.

Definition env_set (name value : str) (e : ShellEnv) : ShellEnv :=
  {| sh_vars := <[name := value]> (sh_vars e); sh_exported := sh_exported e; sh_aliases := sh_aliases e; sh_exit := sh_exit e |}.

Definition env_export (name : str) (e : ShellEnv) : ShellEnv :=
  {| sh_vars := match sh_vars e !! name with Some _ => sh_vars e | None => <[name := []]> (sh_vars e) end;
     sh_exported := {[ name ]} ∪ sh_exported e; sh_aliases := sh_aliases e; sh_exit := sh_exit e |}.

Definition env_unset (name : str) (e : ShellEnv) : ShellEnv :=
  {| sh_vars := delete name (sh_vars e); sh_exported := sh_exported e ∖ {[ name ]}; sh_aliases := sh_aliases e; sh_exit := sh_exit e |}.

(** The exported names in order, with the values of those that have one. *)
Definition exported_pairs (e : ShellEnv) : list (str * str) :=
  omap (fun name => option_map (fun v => (name, v)) (sh_vars e !! name)) (merge_sort str_le (elements (sh_exported e))).

Definition set_last_exit_code (code : Z) (e : ShellEnv) : ShellEnv :=
  {| sh_vars := sh_vars e; sh_exported := sh_exported e; sh_aliases := sh_aliases e; sh_exit := code |}.

Definition set_alias (name value : str) (e : ShellEnv) : ShellEnv :=
  {| sh_vars := sh_vars e; sh_exported := sh_exported e; sh_aliases := <[name := value]> (sh_aliases e); sh_exit := sh_exit e |}.

Definition remove_alias (name : str) (e : ShellEnv) : ShellEnv :=
  {| sh_vars := sh_vars e; sh_exported := sh_exported e; sh_aliases := delete name (sh_aliases e); sh_exit := sh_exit e |}.

(** ** Expansion *)

Definition is_ident_first (c : Z) : bool := ascii_alphabetic c || (c =? 95).

(** [i32::to_string]. *)
Definition show_int (z : Z) : str := lit (NilZero.string_of_int (Z.to_int z)).

(** [str::find] of [":-"]: what is in front of it and behind it. *)
Fixpoint find_default (s : str) : option (str * str) :=
  match s with
  | [] => None
  | c :: s' => if starts_with s (lit ":-") then Some ([], drop 2 s)
               else match find_default s' with Some (a, b) => Some (c :: a, b) | None => None end
  end.

Definition expand_spec (e : ShellEnv) (spec : str) : str :=
  match find_default spec with
  | None => default [] (env_get spec e)
  | Some (name, default_val) =>
      match env_get name e with
      | Some v => if bool_decide (v = []) then default_val else v
      | None => default_val
      end
  end.

(** [expand]'s loop; every round consumes a character. *)
Fixpoint expand_loop (fuel : nat) (e : ShellEnv) (chars : list Z) : option str :=
  match chars with
  | [] => Some []
  | ch :: chars =>
      match fuel with
      | O => None
      | S fuel =>
          if negb (ch =? 36) then option_map (cons ch) (expand_loop fuel e chars) else
          match chars with
          | [] => Some (lit "$")
          | c :: rest =>
              if c =? 36 then option_map (app (lit "1")) (expand_loop fuel e rest) else
              if c =? 63 then option_map (app (show_int (sh_exit e))) (expand_loop fuel e rest) else
              if c =? 123 then
                let '(spec, rest) := span_while (fun c => negb (c =? 125)) rest in
                option_map (app (expand_spec e spec)) (expand_loop fuel e (match rest with [] => [] | _ :: rest => rest end))
              else if is_ident_first c then
                let '(name, rest) := span_while is_ident_char chars in
                option_map (app (default [] (env_get name e))) (expand_loop fuel e rest)
              else option_map (app (lit "$")) (expand_loop fuel e chars)
          end
      end
  end.

Definition expand (e : ShellEnv) (input : str) : str := default [] (expand_loop (length input) e input).

(** ** Meaning: a string as a list of pieces *)

Inductive piece := PText (s : str) | PVar (name : str) | PBraced (name : str) | PDefault (name d : str) | PExit | PPid.

Definition piece_text (p : piece) : str :=
  match p with
  | PText s => s
  | PVar name => lit "$" ++ name
  | PBraced name => lit "${" ++ name ++ lit "}"
  | PDefault name d => lit "${" ++ name ++ lit ":-" ++ d ++ lit "}"
  | PExit => lit "$?"
  | PPid => lit "$$"
  end.

Definition piece_value (e : ShellEnv) (p : piece) : str :=
  match p with
  | PText s => s
  | PVar name | PBraced name => default [] (env_get name e)
  | PDefault name d => match env_get name e with Some (c :: v) => c :: v | _ => d end
  | PExit => show_int (sh_exit e)
  | PPid => lit "1"
  end.

Definition identifier (name : str) : Prop := match name with [] => False | c :: n => is_ident_first c = true /\ Forall (fun c => is_ident_char c = true) n end.

(** Text holds no dollar sign, names and defaults no closing brace, and a bare
    name is not followed by a character that would extend it. *)
Definition ends_name (l : list Z) : Prop := match l with [] => True | c :: _ => is_ident_char c = false end.

Definition pieces_text (ps : list piece) : str := concat (map piece_text ps).

Fixpoint pieces_ok (ps : list piece) : Prop :=
  match ps with
  | [] => True
  | p :: ps =>
      match p with
      | PText s => 36 ∉ s
      | PVar name => identifier name /\ ends_name (pieces_text ps)
      | PBraced name => 125 ∉ name /\ find_default name = None
      | PDefault name d => 125 ∉ name /\ 125 ∉ d /\ 58 ∉ name
      | PExit | PPid => True
      end /\ pieces_ok ps
  end.

(** ** Lemmas *)

Lemma ident_first_char c : is_ident_first c = true -> is_ident_char c = true.
Proof. unfold is_ident_first, is_ident_char, ascii_alphanumeric. rewrite !orb_true_iff. tauto. Qed.

Lemma expand_total fuel e l : (length l <= fuel)%nat -> exists s, expand_loop fuel e l = Some s /\ forall n, (fuel <= n)%nat -> expand_loop n e l = Some s.
Proof.
  revert l. induction fuel as [|fuel IH]; intros l Hl.
  { destruct l; [|cbn in Hl; lia]. exists []. split; [done|]. intros n _. by destruct n. }
  destruct l as [|ch l]; [exists []; split; [done|]; intros n _; by destruct n|]. cbn [length] in Hl.
  assert (forall (f : str -> str) l', (length l' <= fuel)%nat -> exists s, option_map f (expand_loop fuel e l') = Some s /\
    forall n, (fuel <= n)%nat -> option_map f (expand_loop n e l') = Some s) as Hrec.
  { intros f l' Hl'. destruct (IH l' Hl') as (s & Hs & Hm). exists (f s). rewrite Hs. split; [done|]. intros n Hn. by rewrite Hm. }
  enough (exists s, forall n, (fuel <= n)%nat -> expand_loop (S n) e (ch :: l) = Some s) as (s & Hs).
  { exists s. split; [by apply Hs|]. intros [|n] Hn; [lia|]. apply Hs. lia. }
  cbn [expand_loop]. destruct (negb (ch =? 36)); [destruct (Hrec (cons ch) l ltac:(lia)) as (s & _ & Hs); by exists s|].
  destruct l as [|c rest]; [by eexists|]. cbn [length] in Hl.
  destruct (c =? 36); [destruct (Hrec (app (lit "1")) rest ltac:(lia)) as (s & _ & Hs); by exists s|].
  destruct (c =? 63); [destruct (Hrec (app (show_int (sh_exit e))) rest ltac:(lia)) as (s & _ & Hs); by exists s|].
  destruct (c =? 123).
  { destruct (span_while _ rest) as [spec rest'] eqn:E. destruct (span_while_spec _ _ _ _ E) as (-> & _ & _). rewrite length_app in Hl.
    destruct (Hrec (app (expand_spec e spec)) (match rest' with [] => [] | _ :: r => r end)) as (s & _ & Hs); [destruct rest'; cbn in *; lia|by exists s]. }
  destruct (is_ident_first c) eqn:Ei.
  { destruct (span_while is_ident_char (c :: rest)) as [name rest'] eqn:E. destruct (span_while_spec _ _ _ _ E) as (E' & _ & _).
    apply (f_equal length) in E'. rewrite length_app in E'. cbn in E'. cbn in E. rewrite (ident_first_char c Ei) in E.
    destruct (span_while is_ident_char rest) as [a b] eqn:E2. injection E as <- <-. cbn in E'.
    destruct (Hrec (app (default [] (env_get (c :: a) e))) b) as (s & _ & Hs); [lia|]. exists s. exact Hs. }
  destruct (Hrec (app (lit "$")) (c :: rest)) as (s & _ & Hs); [cbn; lia|by exists s].
Qed.

Lemma expand_loop_eq fuel e l : (length l <= fuel)%nat -> expand_loop fuel e l = Some (expand e l).
Proof. intros Hf. destruct (expand_total (length l) e l ltac:(lia)) as (s & Hs & Hm). unfold expand. rewrite Hs. by apply Hm. Qed.

(** One round of the loop. *)
Lemma expand_cons e ch chars : expand e (ch :: chars) =
  if negb (ch =? 36) then ch :: expand e chars else
  match chars with
  | [] => lit "$"
  | c :: rest =>
      if c =? 36 then lit "1" ++ expand e rest else
      if c =? 63 then show_int (sh_exit e) ++ expand e rest else
      if c =? 123 then
        let '(spec, rest) := span_while (fun c => negb (c =? 125)) rest in
        expand_spec e spec ++ expand e (match rest with [] => [] | _ :: rest => rest end)
      else if is_ident_first c then
        let '(name, rest) := span_while is_ident_char chars in default [] (env_get name e) ++ expand e rest
      else lit "$" ++ expand e chars
  end.
Proof.
  assert (forall l, (length l <= length chars)%nat -> forall f, option_map f (expand_loop (length chars) e l) = Some (f (expand e l) : str)) as Hl
    by (intros l Hl f; by rewrite expand_loop_eq).
  unfold expand at 1. cbn [length]. remember (length chars) as n eqn:Hn. cbn [expand_loop].
  destruct (negb (ch =? 36)); [by rewrite Hl by lia|]. destruct chars as [|c rest]; [done|]. cbn [length] in Hn.
  destruct (c =? 36); [by rewrite Hl by lia|]. destruct (c =? 63); [by rewrite Hl by lia|]. destruct (c =? 123).
  { destruct (span_while _ rest) as [a b] eqn:E. destruct (span_while_spec _ _ _ _ E) as (-> & _ & _). rewrite length_app in Hn.
    by rewrite Hl by (destruct b; cbn in *; lia). }
  destruct (is_ident_first c); [|by rewrite Hl by (cbn; lia)]. destruct (span_while is_ident_char (c :: rest)) as [a b] eqn:E.
  destruct (span_while_spec _ _ _ _ E) as (E' & _ & _). apply (f_equal length) in E'. rewrite length_app in E'. cbn in E'. by rewrite Hl by lia.
Qed.

Lemma expand_text e s l : 36 ∉ s -> expand e (s ++ l) = s ++ expand e l.
Proof.
  induction s as [|c s IH]; intros Hs; [done|]. apply not_elem_of_cons in Hs as [Hc Hs]. cbn [app]. rewrite expand_cons.
  rewrite (proj2 (Z.eqb_neq c 36)) by congruence. cbn [negb]. by rewrite IH.
Qed.

Lemma expand_braced e spec l : 125 ∉ spec -> expand e (lit "${" ++ spec ++ lit "}" ++ l) = expand_spec e spec ++ expand e l.
Proof.
  intros Hs. change (lit "${" ++ spec ++ lit "}" ++ l) with (36 :: 123 :: spec ++ 125 :: l). rewrite expand_cons. cbn [Z.eqb Pos.eqb negb].
  by rewrite (span_while_app _ spec 125 l); [|by apply not_elem_span|].
Qed.

Lemma span_while_ends f a l : Forall (fun c => f c = true) a -> match l with [] => True | c :: _ => f c = false end -> span_while f (a ++ l) = (a, l).
Proof.
  intros Ha Hl. destruct l as [|c l]; [|by apply span_while_app]. rewrite app_nil_r.
  induction Ha as [|x a Hx _ IH]; cbn [span_while]; [done|]. by rewrite Hx, IH.
Qed.

Lemma expand_var e name l : identifier name -> ends_name l -> expand e (lit "$" ++ name ++ l) = default [] (env_get name e) ++ expand e l.
Proof.
  intros Hn Hl. change (lit "$" ++ name ++ l) with (36 :: name ++ l). destruct name as [|c n]; [done|]. destruct Hn as [Hc Hn].
  assert (c =? 36 = false /\ c =? 63 = false /\ c =? 123 = false) as (H1 & H2 & H3).
  { unfold is_ident_first, ascii_alphabetic in Hc. split_and!; apply Z.eqb_neq; intros ->; done. }
  cbn [app]. rewrite expand_cons. cbn [Z.eqb Pos.eqb negb]. rewrite H1, H2, H3, Hc.
  change (c :: n ++ l) with ((c :: n) ++ l). rewrite span_while_ends; [|constructor; [by apply ident_first_char|done]|done]. done.
Qed.

Lemma find_default_app name d : 58 ∉ name -> find_default (name ++ lit ":-" ++ d) = Some (name, d).
Proof.
  induction name as [|c n IH]; intros Hn; [done|]. apply not_elem_of_cons in Hn as [Hc Hn]. cbn [app find_default].
  assert (starts_with (c :: n ++ lit ":-" ++ d) (lit ":-") = false) as ->.
  { change (lit ":-") with [58; 45]. cbn [starts_with]. by rewrite (proj2 (Z.eqb_neq 58 c)) by congruence. }
  by rewrite IH.
Qed.

(** Expansion, piece by piece. *)
Lemma expand_pieces e ps : pieces_ok ps -> expand e (pieces_text ps) = concat (map (piece_value e) ps).
Proof.
  unfold pieces_text. induction ps as [|p ps IH]; [done|]. intros [Hp Hps]. specialize (IH Hps). cbn [map concat].
  destruct p as [s|name|name|name d| |]; cbn [piece_text piece_value].
  - by rewrite expand_text, IH.
  - rewrite <- app_assoc, expand_var, IH; [done|apply Hp|apply Hp].
  - destruct Hp as [H1 H2]. rewrite <- !app_assoc, expand_braced, IH by done. unfold expand_spec. by rewrite H2.
  - destruct Hp as (H1 & H2 & H3). rewrite <- !app_assoc.
    replace (name ++ lit ":-" ++ d ++ lit "}" ++ concat (map piece_text ps)) with ((name ++ lit ":-" ++ d) ++ lit "}" ++ concat (map piece_text ps))
      by (by rewrite <- !app_assoc).
    rewrite expand_braced, IH by (change (lit ":-") with [58; 45]; set_solver). unfold expand_spec. rewrite find_default_app by done.
    destruct (env_get name e) as [[|]|]; done.
  - change (lit "$?" ++ concat (map piece_text ps)) with (36 :: 63 :: concat (map piece_text ps)). rewrite expand_cons. cbn [Z.eqb Pos.eqb negb]. by rewrite <- IH.
  - change (lit "$$" ++ concat (map piece_text ps)) with (36 :: 36 :: concat (map piece_text ps)). rewrite expand_cons. cbn [Z.eqb Pos.eqb negb]. by rewrite <- IH.
Qed.
