(* ===== verification/ShellExec.v ===== *)
(** * Execution of shell lines (omni-shell: executor.rs, command.rs, repl.rs, and
    the path helpers of glob.rs)

    A line is trimmed, lexed, parsed and executed pipeline by pipeline against
    a table of builtins.  The commands of commands/ are a parameter of that
    table.  The audit log and the intent label of a line do not reach its
    result and are left out. *)

From Stdlib Require Import ZArith Lia String.
From stdpp Require Import base numbers list gmap sorting.
From S2P Require Import Prelude Str Vfs Glob ShellLex ShellParse ShellEnv.

(** ** Paths *)

Definition push_component (stack : list str) (seg : str) : list str :=
  if str_eqb seg [] || str_eqb seg (lit ".") then stack else if str_eqb seg (lit "..") then removelast stack else stack ++ [seg].

Definition normalize_path_simple (base path : str) : str :=
  let cs := if starts_with path (lit "/") then [] else foldl push_component [] (split_on SLASH base) in
  let cs := foldl push_component cs (split_on SLASH path) in
  if bool_decide (cs = []) then lit "/" else concat (map (fun seg => lit "/" ++ seg) cs).

(** ** Context *)

Record ExecContext := { cx_env : ShellEnv; cx_exit : Z; cx_cwd : str; cx_output : list Z }.

Definition set_cx_env (e : ShellEnv) (c : ExecContext) : ExecContext :=
  {| cx_env := e; cx_exit := cx_exit c; cx_cwd := cx_cwd c; cx_output := cx_output c |}.
Definition set_cx_output (o : list Z) (c : ExecContext) : ExecContext :=
  {| cx_env := cx_env c; cx_exit := cx_exit c; cx_cwd := cx_cwd c; cx_output := o |}.

(** [ctx.output.extend_from_slice(s.as_bytes())]. *)
Definition write_out (s : str) (c : ExecContext) : ExecContext := set_cx_output (cx_output c ++ as_bytes s) c.

Definition BuiltinFn : Type := list str -> ExecContext -> Z * ExecContext.

Definition NL : str := [10].

(** ** Builtins (command.rs) *)

Definition builtin_cd : BuiltinFn := fun args ctx =>
  let target := match args !! 1%nat with
    | Some a => if str_eqb a (lit "-") then default (lit "/") (env_get (lit "OLDPWD") (cx_env ctx)) else a
    | None => default (lit "/") (env_get (lit "HOME") (cx_env ctx))
    end in
  let new_cwd := normalize_path_simple (cx_cwd ctx) target in
  let env := env_set (lit "PWD") new_cwd (env_set (lit "OLDPWD") (cx_cwd ctx) (cx_env ctx)) in
  (0, {| cx_env := env; cx_exit := cx_exit ctx; cx_cwd := new_cwd; cx_output := cx_output ctx |}).

Definition builtin_pwd : BuiltinFn := fun _ ctx => (0, write_out NL (write_out (cx_cwd ctx) ctx)).

(** [join(" ")]. *)
Fixpoint join_words (ws : list str) : str :=
  match ws with [] => [] | [w] => w | w :: ws => w ++ lit " " ++ join_words ws end.

Definition builtin_echo : BuiltinFn := fun args ctx =>
  let no_newline := match args !! 1%nat with Some a => str_eqb a (lit "-n") | None => false end in
  let ctx := write_out (join_words (drop (if no_newline then 2 else 1) args)) ctx in
  (0, if no_newline then ctx else write_out NL ctx).

(** [str::parse::<i32>]. *)
Definition parse_digits (s : str) : option Z :=
  if bool_decide (s = []) || negb (forallb ascii_digit s) then None else Some (foldl (fun n c => 10 * n + (c - 48)) 0 s).
Definition parse_i32 (s : str) : option Z :=
  n ← match s with
      | 45 :: s => option_map Z.opp (parse_digits s)
      | 43 :: s => parse_digits s
      | _ => parse_digits s
      end;
  if (- 2 ^ 31 <=? n) && (n <? 2 ^ 31) then Some n else None.

Definition builtin_exit : BuiltinFn := fun args ctx => (default 0 (a ← args !! 1%nat; parse_i32 a), ctx).

Definition builtin_export : BuiltinFn := fun args ctx =>
  if (length args <=? 1)%nat then
    (0, foldl (fun ctx kv => write_out (lit "export " ++ fst kv ++ lit "=" ++ [34] ++ snd kv ++ [34] ++ NL) ctx) ctx (exported_pairs (cx_env ctx)))
  else
    (0, foldl (fun ctx arg =>
           set_cx_env (match split_at_char 61 arg with
                       | Some (name, val) => env_export name (env_set name val (cx_env ctx))
                       | None => env_export arg (cx_env ctx)
                       end) ctx) ctx (drop 1 args)).

Definition builtin_unset : BuiltinFn := fun args ctx =>
  (0, foldl (fun ctx arg => set_cx_env (env_unset arg (cx_env ctx)) ctx) ctx (drop 1 args)).

Definition builtin_env : BuiltinFn := fun _ ctx =>
  (0, foldl (fun ctx kv => write_out (fst kv ++ lit "=" ++ snd kv ++ NL) ctx) ctx (exported_pairs (cx_env ctx))).

(** The aliases in the order of their names. *)
Definition sorted_aliases (e : ShellEnv) : list (str * str) :=
  omap (fun k => option_map (fun v => (k, v)) (sh_aliases e !! k)) (merge_sort str_le (fst <$> map_to_list (sh_aliases e))).

Definition builtin_alias : BuiltinFn := fun args ctx =>
  if (length args <=? 1)%nat then
    (0, foldl (fun ctx kv => write_out (lit "alias " ++ fst kv ++ lit "='" ++ snd kv ++ lit "'" ++ NL) ctx) ctx (sorted_aliases (cx_env ctx)))
  else
    (0, foldl (fun ctx arg => match split_at_char 61 arg with
                              | Some (name, val) => set_cx_env (set_alias name val (cx_env ctx)) ctx
                              | None => ctx
                              end) ctx (drop 1 args)).

(** [names] are the names of the table of builtins. *)
Definition builtin_type (names : gset str) : BuiltinFn := fun args ctx =>
  foldl (fun '(code, ctx) name =>
    if bool_decide (name ∈ names) then (code, write_out (name ++ lit " is a shell builtin" ++ NL) ctx) else
    match sh_aliases (cx_env ctx) !! name with
    | Some target => (code, write_out (name ++ lit " is aliased to '" ++ target ++ lit "'" ++ NL) ctx)
    | None => (1, write_out (name ++ lit ": not found" ++ NL) ctx)
    end) (0, ctx) (drop 1 args).

Definition builtin_history : BuiltinFn := fun _ ctx => (0, write_out (lit "(history not available in this context)" ++ NL) ctx).

Definition help_text : str := concat (map (fun l => lit l ++ NL)
  ["OMNI Shell built-in commands:"; "";
   "cd [dir]          Change directory (cd - returns to previous dir)";
   "pwd               Print working directory";
   "echo [-n] args    Print arguments (suppress newline with -n)";
   "exit [code]       Exit shell with optional exit code";
   "export [VAR=val]  Export variable to environment";
   "unset VAR         Remove variable from environment";
   "env               List all exported variables";
   "alias [n=v]       Define or list command aliases";
   "type cmd          Show type of command (builtin, alias, etc.)";
   "history           Show command history";
   "help [cmd]        Show this help text";
   "clear             Clear the terminal screen";
   "source file       Execute commands from file";
   "true              Return success (exit code 0)";
   "false             Return failure (exit code 1)"]%string).

Definition builtin_help : BuiltinFn := fun _ ctx => (0, write_out help_text ctx).
Definition builtin_clear : BuiltinFn := fun _ ctx => (0, write_out ([27] ++ lit "[2J" ++ [27] ++ lit "[H") ctx).
Definition builtin_source : BuiltinFn := fun args ctx =>
  if (length args <=? 1)%nat then (1, write_out (lit "source: filename argument required" ++ NL) ctx) else (0, ctx).
Definition builtin_true : BuiltinFn := fun _ ctx => (0, ctx).
Definition builtin_false : BuiltinFn := fun _ ctx => (1, ctx).

Definition core_names : list str :=
  map lit ["cd"; "pwd"; "echo"; "exit"; "export"; "unset"; "env"; "alias"; "type"; "history"; "help"; "clear"; "source"; "true"; "false"]%string.

Definition core_builtins (names : gset str) : gmap str BuiltinFn :=
  list_to_map (zip core_names
    [builtin_cd; builtin_pwd; builtin_echo; builtin_exit; builtin_export; builtin_unset; builtin_env; builtin_alias; builtin_type names;
     builtin_history; builtin_help; builtin_clear; builtin_source; builtin_true; builtin_false]).

(** [external]: what [register_external_commands] adds, over the core ones. *)
Definition register_builtins (external : gmap str BuiltinFn) : gmap str BuiltinFn :=
  external ∪ core_builtins (dom external ∪ list_to_set core_names).

(** ** Executor *)

Inductive CommandTarget := CtBuiltin (name : str) | CtExternal (path : str) | CtNotFound.

Section Executor.
Context {fs : FsQuery}.

Definition resolve_command (name : str) (e : ShellEnv) (builtins : list str) : CommandTarget :=
  if bool_decide (name ∈ builtins) then CtBuiltin name else
  match rsplit_once name SLASH with
  | Some (dir, _) =>
      match list_dir (if bool_decide (dir = []) then lit "/" else dir) with Ok _ => CtExternal name | Err _ => CtNotFound end
  | None =>
      match env_get (lit "PATH") e with
      | None => CtNotFound
      | Some path =>
          match list_find (fun dir => match list_dir dir with Ok es => bool_decide (name ∈ es) | Err _ => false end = true) (split_on 58 path) with
          | Some (_, dir) => CtExternal (dir ++ lit "/" ++ name)
          | None => CtNotFound
          end
      end
  end.

Definition expand_command (cmd : SimpleCommand) (e : ShellEnv) (cwd : str) : list str :=
  concat (map (fun arg => let expanded := expand e arg in if is_glob expanded then expand_glob expanded cwd else [expanded]) (argv cmd)).

Context (builtins : gmap str BuiltinFn).

(** One stage of a pipeline. *)
Definition execute_command (cmd : SimpleCommand) (last_code : Z) (ctx : ExecContext) : Z * ExecContext :=
  let args := expand_command cmd (cx_env ctx) (cx_cwd ctx) in
  match args with
  | [] => (last_code, ctx)
  | name :: _ =>
      let ctx := set_cx_env (foldl (fun e kv => env_set (fst kv) (snd kv) e) (cx_env ctx) (env_overrides cmd)) ctx in
      let ctx := set_cx_output [] ctx in
      match builtins !! name with
      | Some handler => handler args ctx
      | None => (127, write_out (lit "omni-shell: " ++ name ++ lit ": command not found" ++ NL) ctx)
      end
  end.

Definition execute_pipeline (p : Pipeline) (ctx : ExecContext) : Z * ExecContext :=
  foldl (fun '(code, ctx) cmd => execute_command cmd code ctx) (0, ctx) (commands p).

(** [prev] is the connector of the previous entry. *)
Fixpoint execute_entries (prev : option Connector) (last_code : Z) (es : list (Pipeline * option Connector)) (ctx : ExecContext)
    : Z * ExecContext :=
  match es with
  | [] => (last_code, ctx)
  | (p, c) :: es =>
      let skip := match prev with Some CAnd => negb (last_code =? 0) | Some COr => last_code =? 0 | _ => false end in
      if skip then execute_entries c last_code es ctx else
      let '(code, ctx) := execute_pipeline p ctx in
      execute_entries c code es
        {| cx_env := set_last_exit_code code (cx_env ctx); cx_exit := code; cx_cwd := cx_cwd ctx; cx_output := cx_output ctx |}
  end.

Definition execute_command_list (cl : CommandList) (ctx : ExecContext) : Z * ExecContext := execute_entries None 0 (entries cl) ctx.

(** ** The line (repl.rs) *)

(** [char::is_whitespace]. *)
Definition is_whitespace (c : Z) : bool :=
  (9 <=? c) && (c <=? 13) || (c =? 32) || (c =? 133) || (c =? 160) || (c =? 5760) || (8192 <=? c) && (c <=? 8202) ||
  (c =? 8232) || (c =? 8233) || (c =? 8239) || (c =? 8287) || (c =? 12288).

Definition trim_start (s : str) : str := snd (span_while is_whitespace s).
Definition trim (s : str) : str := rev (trim_start (rev (trim_start s))).

(** The exit code, the output, the environment and the directory. *)
Definition process_line (input : str) (e : ShellEnv) (cwd : str) : run (Z * list Z * ShellEnv * str) :=
  let trimmed := trim input in
  if bool_decide (trimmed = []) || starts_with trimmed (lit "#") then Done (0, [], e, cwd) else
  match tokenize trimmed with
  | None => Panicked
  | Some (Err _) => Done (1, [], e, cwd)
  | Some (Ok tokens) =>
      if bool_decide (tokens = []) then Done (0, [], e, cwd) else
      ast ← parse_line tokens;
      match ast with
      | Err _ => Done (1, [], e, cwd)
      | Ok ast =>
          match entries ast with
          | [] => Done (0, [], e, cwd)
          | _ =>
              let '(code, ctx) := execute_command_list ast {| cx_env := e; cx_exit := 0; cx_cwd := cwd; cx_output := [] |} in
              Done (code, cx_output ctx, cx_env ctx, cx_cwd ctx)
          end
      end
  end.
End Executor.

(** ** Meaning of a command list

    Connectors associate to the left: each joins all that precedes it with the
    pipeline behind it. *)

Inductive script := Run (p : Pipeline) | Join (s : script) (c : Connector) (p : Pipeline).

Fixpoint script_from (s : script) (c : option Connector) (es : list (Pipeline * option Connector)) : script :=
  match es with [] => s | (p, c') :: es => script_from (Join s (default CSemi c) p) c' es end.

Section Meaning.
Context {fs : FsQuery} (builtins : gmap str BuiltinFn).

(** A pipeline, whose exit code becomes [$?]. *)
Definition run_pipeline (p : Pipeline) (ctx : ExecContext) : Z * ExecContext :=
  let '(code, ctx) := execute_pipeline builtins p ctx in
  (code, {| cx_env := set_last_exit_code code (cx_env ctx); cx_exit := code; cx_cwd := cx_cwd ctx; cx_output := cx_output ctx |}).

Fixpoint eval_script (s : script) (ctx : ExecContext) : Z * ExecContext :=
  match s with
  | Run p => run_pipeline p ctx
  | Join s c p =>
      let '(code, ctx) := eval_script s ctx in
      match c with
      | CAnd => if code =? 0 then run_pipeline p ctx else (code, ctx)
      | COr => if code =? 0 then (code, ctx) else run_pipeline p ctx
      | CSemi | CBackground => run_pipeline p ctx
      end
  end.

(** ** Lemmas *)

Lemma execute_entries_script es s c code ctx0 ctx : eval_script s ctx0 = (code, ctx) ->
  execute_entries builtins c code es ctx = eval_script (script_from s c es) ctx0.
Proof.
  revert s c code ctx. induction es as [|[p c'] es IH]; intros s c code ctx Hs; [by symmetry|]. cbn [execute_entries script_from].
  assert (forall q, (let '(code', ctx') := execute_pipeline builtins q ctx in
      execute_entries builtins c' code' es
        {| cx_env := set_last_exit_code code' (cx_env ctx'); cx_exit := code'; cx_cwd := cx_cwd ctx'; cx_output := cx_output ctx' |}) =
      let '(code', ctx') := run_pipeline q ctx in execute_entries builtins c' code' es ctx') as Hrun.
  { intros q. unfold run_pipeline. by destruct (execute_pipeline builtins q ctx). }
  destruct c as [[]|]; cbn [default].
  - rewrite Hrun. destruct (run_pipeline p ctx) as [code' ctx'] eqn:E. apply IH. cbn [eval_script]. by rewrite Hs.
  - destruct (code =? 0) eqn:E0; cbn [negb].
    + rewrite Hrun. destruct (run_pipeline p ctx) as [code' ctx'] eqn:E. apply IH. cbn [eval_script]. by rewrite Hs, E0.
    + apply IH. cbn [eval_script]. by rewrite Hs, E0.
  - destruct (code =? 0) eqn:E0.
    + apply IH. cbn [eval_script]. by rewrite Hs, E0.
    + rewrite Hrun. destruct (run_pipeline p ctx) as [code' ctx'] eqn:E. apply IH. cbn [eval_script]. by rewrite Hs, E0.
  - rewrite Hrun. destruct (run_pipeline p ctx) as [code' ctx'] eqn:E. apply IH. cbn [eval_script]. by rewrite Hs.
  - rewrite Hrun. destruct (run_pipeline p ctx) as [code' ctx'] eqn:E. apply IH. cbn [eval_script]. by rewrite Hs.
Qed.

Lemma execute_list_script p c es ctx : execute_command_list builtins {| entries := (p, c) :: es |} ctx = eval_script (script_from (Run p) c es) ctx.
Proof.
  unfold execute_command_list. cbn [entries execute_entries]. destruct (execute_pipeline builtins p ctx) as [code ctx'] eqn:E.
  apply execute_entries_script. cbn [eval_script]. unfold run_pipeline. by rewrite E.
Qed.
End Meaning.

(** *** Trimming a printed line *)

(** The tokens that end a printed line. *)
Definition ends_line (t : Token) : Prop :=
  match t with TSingleQuoted _ | TSemicolon | TDoubleAmpersand | TDoublePipe | TAmpersand => True | _ => False end.

Lemma lex_last t ts : token_ok t -> ends_line t -> lex_run (after (print_token t) ts) = Some (Ok (ts ++ [t])).
Proof.
  intros Ht Hc. assert (lex_run (after [] (ts ++ [t])) = Some (Ok (ts ++ [t]))) as <- by done.
  destruct t; try done; try (eapply lex_run_step; reflexivity). cbn [print_token]. eapply lex_run_step; [reflexivity|].
  unfold lex_one. cbn -[span_while]. unfold lex_single_quote, collect_until. cbn -[span_while].
  rewrite drop_0, lex_quoted by done. done.
Qed.

Lemma tokenize_ended ts t : Forall token_ok ts -> token_ok t -> ends_line t -> tokenize (print_tokens ts ++ print_token t) = Some (Ok (ts ++ [t])).
Proof.
  intros Hts Ht Hc. enough (forall acc, lex_run (after (print_tokens ts ++ print_token t) acc) = Some (Ok (acc ++ ts ++ [t]))) as H by apply (H []).
  induction Hts as [|u ts Hu _ IH]; intros acc; [by apply lex_last|]. unfold print_tokens. cbn [map concat]. fold (print_tokens ts).
  rewrite <- !app_assoc. cbn [app]. rewrite lex_token by done. rewrite IH. by rewrite <- app_assoc.
Qed.

Lemma trim_visible c l a d : c :: l = a ++ [d] -> is_whitespace c = false -> is_whitespace d = false -> trim ((c :: l) ++ [32]) = c :: l.
Proof.
  intros E Hc Hd. unfold trim. assert (trim_start ((c :: l) ++ [32]) = (c :: l) ++ [32]) as -> by (unfold trim_start; cbn [app span_while]; by rewrite Hc).
  rewrite E, !rev_app_distr. cbn [rev app]. assert (trim_start (32 :: d :: rev a) = d :: rev a) as ->.
  { unfold trim_start. cbn [span_while]. rewrite Hd. done. }
  cbn [rev]. by rewrite rev_involutive.
Qed.

Lemma last_snoc_inv {A} (l : list A) x : last l = Some x -> exists l', l = l' ++ [x].
Proof. intros H. by apply last_Some in H. Qed.

(** Words without a single quote: a line of them ends in a quote or a
    connector, and the trimming of the line leaves it alone. *)
Definition unquoted_cmd (c : SimpleCommand) : Prop := Forall (fun s => 39 ∉ s) (argv c) /\ Forall (fun r => 39 ∉ rd_target r) (redirects c).
Definition unquoted (cl : CommandList) : Prop := Forall (fun e => Forall unquoted_cmd (commands (fst e))) (entries cl).

Lemma arg_token_plain s : 39 ∉ s -> arg_token s = TSingleQuoted s.
Proof. intros H. unfold arg_token. by rewrite bool_decide_true. Qed.

Lemma unquoted_quotable cl : unquoted cl -> quotable cl.
Proof.
  intros H. eapply Forall_impl; [exact H|]. intros e He. eapply Forall_impl; [exact He|]. intros c [Ha _]. unfold plain_head. destruct (argv c); [done|]. left. by inversion Ha.
Qed.

Lemma unparse_cmd_last c : cmd_ok c -> unquoted_cmd c -> exists s, last (unparse_cmd c) = Some (TSingleQuoted s).
Proof.
  intros [Ha _] [Qa Qr]. unfold unparse_cmd. rewrite app_assoc, last_app.
  destruct (last (concat (map unparse_redirect (redirects c)))) as [t|] eqn:E.
  - clear Ha Qa. induction Qr as [|r rs Hr Qr IH]; [done|]. cbn [map concat] in E. rewrite last_app in E.
    destruct (last (concat (map unparse_redirect rs))) as [t'|] eqn:E'; [apply IH; congruence|]. cbn in E. injection E as <-. rewrite arg_token_plain by done. by eexists.
  - rewrite last_app. destruct (last (argv c)) as [s|] eqn:El; [|by apply last_None in El].
    exists s. apply last_snoc_inv in El as [l El]. rewrite El in Qa |- *. apply Forall_app in Qa as [_ Qa]. rewrite Forall_singleton in Qa. rewrite map_app. cbn [map]. by rewrite last_snoc, arg_token_plain.
Qed.

Lemma unparse_pipeline_last p : pipeline_ok p -> Forall unquoted_cmd (commands p) -> exists s, last (unparse_pipeline p) = Some (TSingleQuoted s).
Proof.
  destruct p as [[|c cs]]; intros [Hne Hok] Hq; [done|]. apply Forall_cons in Hok as [Hc Hcs]. apply Forall_cons in Hq as [Qc Qcs]. unfold unparse_pipeline. cbn [commands].
  rewrite last_app. destruct (last (unparse_stages cs)) as [t|] eqn:E; [|by apply unparse_cmd_last].
  clear Hc Hne Qc c. unfold unparse_stages in E. induction Hcs as [|c cs Hc _ IH]; [done|]. apply Forall_cons in Qcs as [Qc Qcs]. cbn [map concat] in E. rewrite last_app in E.
  destruct (last (concat (map (fun c => TPipe :: unparse_cmd c) cs))) as [t'|] eqn:E'; [apply IH; [done|congruence]|].
  destruct (unparse_cmd_last c Hc Qc) as [s Hs]. exists s. rewrite <- E. change (TPipe :: unparse_cmd c) with ([TPipe] ++ unparse_cmd c). by rewrite last_app, Hs.
Qed.

Lemma unparse_entries_last es : entries_ok es -> Forall (fun e => Forall unquoted_cmd (commands (fst e))) es -> es <> [] -> exists ts t, unparse_entries es = ts ++ [t] /\ ends_line t.
Proof.
  intros Hok Hq Hne. enough (exists t, last (unparse_entries es) = Some t /\ ends_line t) as (t & Hl & Ht).
  { apply last_snoc_inv in Hl as [ts ->]. by exists ts, t. }
  unfold unparse_entries. induction es as [|[p c] es IH]; [done|]. destruct Hok as (Hp & Hc & Hok). apply Forall_cons in Hq as [Qp Hq]. cbn [map concat fst snd] in *.
  rewrite last_app. destruct (decide (es = [])) as [->|Hne'].
  - cbn [map concat]. rewrite last_nil, last_app. destruct c as [[]|]; cbn [connector_token last]; try by eexists.
    destruct (unparse_pipeline_last p Hp Qp) as [s Hs]. exists (TSingleQuoted s). cbn. by rewrite Hs.
  - destruct (IH Hok Hq Hne') as (t & -> & Ht). by exists t.
Qed.

Lemma printed_word_head t l : token_ok t -> word_class t = true -> exists c r, print_token t ++ l = c :: r /\ is_whitespace c = false /\ c <> 35.
Proof.
  intros Ht Hw. destruct t as [[|c w]| | | | | | | | | | | | |]; cbn [token_ok word_class] in *; try done; eexists _, _; (split; [reflexivity|done]).
Qed.

Lemma process_printed {fs : FsQuery} builtins cl e cwd : entries_ok (entries cl) -> unquoted cl -> entries cl <> [] ->
  process_line builtins (print_line cl) e cwd =
  let '(code, ctx) := execute_command_list builtins cl {| cx_env := e; cx_exit := 0; cx_cwd := cwd; cx_output := [] |} in
  Done (code, cx_output ctx, cx_env ctx, cx_cwd ctx).
Proof.
  intros Hok Hq Hne. pose proof (unparse_tokens_ok cl) as Htok. destruct (unparse_entries_last _ Hok Hq Hne) as (ts & t & E & Hend).
  destruct (unparse_entries_head _ [] Hok Hne) as (h & tl & Eh & Hw). rewrite app_nil_r in Eh.
  pose proof Htok as Htok'. rewrite E in Htok. apply Forall_app in Htok as [Hts Ht]. rewrite Forall_singleton in Ht.
  assert (print_line cl = (print_tokens ts ++ print_token t) ++ [32]) as Hprint.
  { unfold print_line. rewrite E. unfold print_tokens. rewrite map_app, concat_app. cbn [map concat]. by rewrite app_nil_r, app_assoc. }
  assert (exists a d, print_token t = a ++ [d] /\ is_whitespace d = false) as (a & d & Ea & Hd).
  { destruct t; try done; [exists []; by eexists|exists []; by eexists|exists (lit "&"); by eexists|exists (lit "|"); by eexists|exists (39 :: s); by eexists]. }
  assert (exists c r, print_tokens ts ++ print_token t = c :: r /\ is_whitespace c = false /\ c <> 35) as (c & r & Ec & Hc & Hc35).
  { rewrite Eh in Htok'. apply Forall_cons in Htok' as [Hh _]. destruct ts as [|u ts].
    - cbn [app] in E. rewrite E in Eh. injection Eh as -> <-. destruct (printed_word_head h [] Hh Hw) as (c & r & Ec & H). rewrite app_nil_r in Ec.
      exists c, r. split; [exact Ec|exact H].
    - rewrite E in Eh. injection Eh as -> Etl. unfold print_tokens. cbn [map concat]. rewrite <- !app_assoc. by apply printed_word_head. }
  unfold process_line. rewrite Hprint, Ec. rewrite (trim_visible c r (print_tokens ts ++ a) d); [|by rewrite <- Ec, Ea, app_assoc|done|done].
  rewrite bool_decide_false by done. change (lit "#") with [35]. cbn [starts_with]. rewrite (proj2 (Z.eqb_neq 35 c)) by congruence. cbn [andb orb].
  rewrite <- Ec, tokenize_ended by done. rewrite <- E, parse_line_unparse by (done || by apply unquoted_quotable). rewrite bool_decide_false by (rewrite Eh; done).
  cbn [mbind run_bind]. by destruct (entries cl).
Qed.

(** *** Paths *)

Lemma foldl_norm_stack cs st : foldl push_component st cs = norm_stack cs st.
Proof. revert st. induction cs as [|c cs IH]; intros st; [done|]. cbn [foldl norm_stack]. by rewrite IH. Qed.

Lemma norm_stack_app a b st : norm_stack (a ++ b) st = norm_stack b (norm_stack a st).
Proof. by rewrite <- !foldl_norm_stack, foldl_app. Qed.

Lemma split_on_sep c a b : split_on c (a ++ c :: b) = split_on c a ++ split_on c b.
Proof.
  induction a as [|x a IH]; cbn [app split_on]; [by rewrite Z.eqb_refl|]. destruct (x =? c); [by rewrite IH|]. rewrite IH.
  by destruct (split_on c a) eqn:E; [apply split_on_nonempty in E|].
Qed.

(** The shell resolves paths as the file system does. *)
Lemma normalize_simple_vfs base path : normalize_path_simple base path = normalize_path base path.
Proof.
  unfold normalize_path_simple, normalize_path, raw_path. rewrite !foldl_norm_stack.
  enough (norm_stack (split_on SLASH path) (if starts_with path (lit "/") then [] else norm_stack (split_on SLASH base) []) =
    norm_stack (split_on SLASH (if starts_with path (lit "/") then path
      else (if bool_decide (last base = Some SLASH) then base else base ++ lit "/") ++ path)) []) as ->.
  { unfold join_path. by destruct (norm_stack _ []). }
  destruct (starts_with path (lit "/")); [done|]. rewrite <- norm_stack_app. case_bool_decide as H.
  - apply last_snoc_inv in H as [l ->]. rewrite <- app_assoc. cbn [app]. rewrite !split_on_sep, <- app_assoc, !norm_stack_app. done.
  - rewrite <- app_assoc. cbn [app lit]. by rewrite <- split_on_sep.
Qed.

(** *** Sessions *)

(** A directory as the shell keeps it: absolute, no empty, [.] or [..] component. *)
Definition normal_dir (cwd : str) : Prop :=
  exists stack, Forall valid_name stack /\ cwd = match stack with [] => lit "/" | _ => join_path stack end.

Lemma normalize_normal base path : normal_dir (normalize_path_simple base path).
Proof.
  rewrite normalize_simple_vfs. exists (norm_stack (split_on SLASH (raw_path base path)) []).
  split; [apply norm_stack_valid; [apply split_on_no_sep|by apply Forall_nil]|]. unfold normalize_path. by destruct (norm_stack _ []).
Qed.

(** A handler that keeps the directory, or enters a normal one. *)
Definition cwd_safe (f : BuiltinFn) : Prop :=
  forall args ctx, cx_cwd (snd (f args ctx)) = cx_cwd ctx \/ normal_dir (cx_cwd (snd (f args ctx))).

Lemma foldl_cwd {A} (f : ExecContext -> A -> ExecContext) l ctx :
  (forall ctx x, cx_cwd (f ctx x) = cx_cwd ctx) -> cx_cwd (foldl f ctx l) = cx_cwd ctx.
Proof. intros H. revert ctx. induction l as [|x l IH]; intros ctx; [done|]. cbn [foldl]. by rewrite IH, H. Qed.

Lemma foldl_code_cwd {A} (f : Z * ExecContext -> A -> Z * ExecContext) l s :
  (forall s x, cx_cwd (snd (f s x)) = cx_cwd (snd s)) -> cx_cwd (snd (foldl f s l)) = cx_cwd (snd s).
Proof. intros H. revert s. induction l as [|x l IH]; intros s; [done|]. cbn [foldl]. by rewrite IH, H. Qed.

Lemma core_cwd_safe names : Forall cwd_safe
  [builtin_cd; builtin_pwd; builtin_echo; builtin_exit; builtin_export; builtin_unset; builtin_env; builtin_alias; builtin_type names;
   builtin_history; builtin_help; builtin_clear; builtin_source; builtin_true; builtin_false].
Proof.
  constructor; [intros args ctx; right; apply normalize_normal|].
  repeat (constructor; [intros args ctx; left|]); [..|constructor]; try done.
  - unfold builtin_echo. by destruct (match args !! 1%nat with Some a => _ | None => _ end).
  - unfold builtin_export. destruct (_ <=? _)%nat; by apply foldl_cwd.
  - by apply foldl_cwd.
  - by apply foldl_cwd.
  - unfold builtin_alias. destruct (_ <=? _)%nat; apply foldl_cwd; [done|]. intros c x. by destruct (split_at_char 61 x) as [[]|].
  - apply foldl_code_cwd. intros [code c] x. case_bool_decide; [done|]. by destruct (sh_aliases _ !! x).
  - unfold builtin_source. by destruct (_ <=? _)%nat.
Qed.

Lemma register_cwd_safe external : map_Forall (fun _ => cwd_safe) external -> map_Forall (fun _ => cwd_safe) (register_builtins external).
Proof.
  intros He name f [Hf|[_ Hf]]%lookup_union_Some_raw; [by eapply He|]. apply elem_of_list_to_map_2, elem_of_zip_r in Hf.
  exact (proj1 (Forall_forall _ _) (core_cwd_safe _) f Hf).
Qed.

Section Session.
Context {fs : FsQuery} (builtins : gmap str BuiltinFn) (Hsafe : map_Forall (fun _ => cwd_safe) builtins).

Lemma execute_command_cwd cmd code ctx : normal_dir (cx_cwd ctx) -> normal_dir (cx_cwd (snd (execute_command builtins cmd code ctx))).
Proof.
  intros H. unfold execute_command. destruct (expand_command cmd (cx_env ctx) (cx_cwd ctx)) as [|name args]; [done|].
  destruct (builtins !! name) as [f|] eqn:E; [|done].
  by destruct (Hsafe name f E (name :: args) (set_cx_output [] (set_cx_env (foldl (fun e kv => env_set (fst kv) (snd kv) e) (cx_env ctx) (env_overrides cmd)) ctx)))
    as [->|Hn].
Qed.

Lemma execute_pipeline_cwd p ctx : normal_dir (cx_cwd ctx) -> normal_dir (cx_cwd (snd (execute_pipeline builtins p ctx))).
Proof.
  unfold execute_pipeline. generalize 0. revert ctx. induction (commands p) as [|cmd cmds IH]; intros ctx code H; [done|]. cbn [foldl].
  destruct (execute_command builtins cmd code ctx) as [code' ctx'] eqn:E. apply IH.
  change ctx' with (snd (code', ctx')). rewrite <- E. by apply execute_command_cwd.
Qed.

Lemma execute_entries_cwd es prev code ctx : normal_dir (cx_cwd ctx) -> normal_dir (cx_cwd (snd (execute_entries builtins prev code es ctx))).
Proof.
  revert prev code ctx. induction es as [|[p c] es IH]; intros prev code ctx H; [done|]. cbn [execute_entries].
  destruct (match prev with Some CAnd => _ | Some COr => _ | _ => _ end); [by apply IH|].
  destruct (execute_pipeline builtins p ctx) as [code' ctx'] eqn:E. apply IH. cbn [cx_cwd].
  change ctx' with (snd (code', ctx')). rewrite <- E. by apply execute_pipeline_cwd.
Qed.

Lemma process_line_total line e cwd : normal_dir cwd ->
  exists code out e' cwd', process_line builtins line e cwd = Done (code, out, e', cwd') /\ normal_dir cwd'.
Proof.
  intros H. unfold process_line. destruct (_ || _); [by eexists _, _, _, _|].
  destruct (proj1 lexer_exact (trim line)) as (r & -> & _). destruct r as [ts|]; [|by eexists _, _, _, _].
  case_bool_decide; [by eexists _, _, _, _|]. destruct (parse_line_spec ts) as (p & -> & _). cbn [mbind run_bind].
  destruct p as [[[|en es]]|]; [by eexists _, _, _, _| |by eexists _, _, _, _]. cbn [entries].
  set (ctx0 := {| cx_env := e; cx_exit := 0; cx_cwd := cwd; cx_output := [] |}).
  pose proof (execute_entries_cwd (en :: es) None 0 ctx0 H) as Hn. unfold execute_command_list. cbn [entries].
  destruct (execute_entries builtins None 0 (en :: es) ctx0) as [code ctx]. by eexists _, _, _, _.
Qed.

(** The lines of a session, each run with the environment and directory the last one left. *)
Fixpoint run_lines (lines : list str) (e : ShellEnv) (cwd : str) : run (ShellEnv * str) :=
  match lines with
  | [] => Done (e, cwd)
  | line :: lines => '(_, _, e, cwd) ← process_line builtins line e cwd; run_lines lines e cwd
  end.

Lemma run_lines_total lines e cwd : normal_dir cwd -> exists e' cwd', run_lines lines e cwd = Done (e', cwd') /\ normal_dir cwd'.
Proof.
  revert e cwd. induction lines as [|l lines IH]; intros e cwd H; [by eexists _, _|].
  destruct (process_line_total l e cwd H) as (code & out & e' & cwd' & E & H'). cbn [run_lines]. rewrite E. cbn [mbind run_bind]. by apply IH.
Qed.
End Session.

(** ** Theorems *)

(** a line printed from a non-empty well-formed command list runs as that list means.  The pipelines run from the left, each on the context the one before left; a pipeline behind [&&] runs when the exit code so far is 0 and one behind [||] when it is not, otherwise the code so far stands; one behind [;] or [&] always runs; the line answers the last exit code and the context reached.  An argument written as pieces of plain text and of the forms [$NAME], [${NAME}] and [${NAME:-default}], of [$?] and of [$$] expands to the text of the pieces with the values in the place of the names. *)
Theorem shell_line_executes {fs : FsQuery} (builtins : gmap str BuiltinFn) (p : Pipeline) (c : option Connector) (es : list (Pipeline * option Connector))
    (e : ShellEnv) (cwd : str) :
  let cl := {| entries := (p, c) :: es |} in
  (entries_ok (entries cl) -> unquoted cl ->
   process_line builtins (print_line cl) e cwd =
   let '(code, ctx) := eval_script builtins (script_from (Run p) c es) {| cx_env := e; cx_exit := 0; cx_cwd := cwd; cx_output := [] |} in
   Done (code, cx_output ctx, cx_env ctx, cx_cwd ctx)) /\
  (forall ps, pieces_ok ps -> expand e (pieces_text ps) = concat (map (piece_value e) ps)).
Proof.
  intros cl. split; [|intros ps Hps; by apply expand_pieces]. intros Hok Hq. rewrite process_printed by done. unfold cl. by rewrite execute_list_script.
Qed.

(** the working directory of a session.  When the commands outside the core set leave the directory alone or enter a normal one, every sequence of lines, whatever its text, runs to its end, each line giving an answer, and leaves the directory absolute and free of empty, [.] and [..] components; every path is resolved against it exactly as the file system resolves it. *)
Theorem shell_session_cwd {fs : FsQuery} (external : gmap str BuiltinFn) (lines : list str) (e : ShellEnv) (cwd : str) :
  map_Forall (fun _ => cwd_safe) external -> normal_dir cwd ->
  exists e' cwd', run_lines (register_builtins external) lines e cwd = Done (e', cwd') /\ normal_dir cwd' /\
    forall path, normalize_path_simple cwd' path = normalize_path cwd' path /\ normal_dir (normalize_path_simple cwd' path).
Proof.
  intros He Hn. destruct (run_lines_total _ (register_cwd_safe external He) lines e cwd Hn) as (e' & cwd' & E & H).
  exists e', cwd'. do 2 (split; [done|]). intros path. split; [apply normalize_simple_vfs|apply normalize_normal].
Qed.

(** ** Witnesses *)

Definition demo_run (line : str) : run (Z * str * str) :=
  '(code, out, _, cwd) ← process_line (fs := demo_fs) (register_builtins ∅) line env_new (lit "/"); Done (code, out, cwd).

Example demo_lines :
  demo_run (lit "cd /usr/./lib/.. && pwd") = Done (0, lit "/usr" ++ NL, lit "/usr") /\
  demo_run (lit "false || echo $USER ${X:-y}; ") = Done (0, lit "root y" ++ NL, lit "/") /\
  demo_run (lit "true || echo no") = Done (0, [], lit "/") /\
  demo_run (lit "nosuch -x") = Done (127, lit "omni-shell: nosuch: command not found" ++ NL, lit "/") /\
  demo_run (lit "echo 'a") = Done (1, [], lit "/").
Proof. split_and!; vm_compute; reflexivity. Qed.

Lemma shell_line_executes_witness :
  process_line (fs := demo_fs) (register_builtins ∅) (print_line demo_line) env_new (lit "/") =
    Done (127, lit "omni-shell: wc: command not found" ++ NL, env_set (lit "A") (lit "1 2") (set_last_exit_code 127 env_new), lit "/") /\
  expand env_new (lit "~${USER}x") = lit "~rootx".
Proof.
  destruct (shell_line_executes (fs := demo_fs) (register_builtins ∅) {| commands :=
      [{| argv := [lit "ls"; lit "-l x"]; redirects := []; env_overrides := [(lit "A", lit "1 2")] |};
       {| argv := [lit "wc"]; redirects := [{| rd_kind := RkAppend; rd_target := lit "out" |}]; env_overrides := [] |}] |} (Some CAnd)
     [({| commands := [{| argv := [lit "true"]; redirects := []; env_overrides := [] |}] |}, None)] env_new (lit "/")) as [H1 H2].
  split.
  - unfold demo_line. rewrite H1.
    + vm_compute. reflexivity.
    + clear H1 H2. repeat split; try done; try (by repeat constructor).
    + unfold unquoted, unquoted_cmd. cbn [entries commands fst argv redirects rd_target].
      repeat constructor; apply (bool_decide_unpack _); vm_compute; reflexivity.
  - apply (H2 [PText (lit "~"); PBraced (lit "USER"); PText (lit "x")]).
    clear H1 H2.
    repeat split; try done; apply (bool_decide_unpack _); vm_compute; reflexivity.
Defined.

Lemma shell_session_cwd_witness : exists e' cwd',
  run_lines (fs := demo_fs) (register_builtins ∅) [lit "cd usr//x"; lit "echo 'a"; lit "cd ./../.. && cd lib"] env_new (lit "/") = Done (e', cwd') /\
  normal_dir cwd'.
Proof.
  destruct (shell_session_cwd (fs := demo_fs) ∅ [lit "cd usr//x"; lit "echo 'a"; lit "cd ./../.. && cd lib"] env_new (lit "/")) as (e' & cwd' & E & H & _).
  - apply map_Forall_empty.
  - exists []. split; [by apply Forall_nil|reflexivity].
  - exists e', cwd'. by split.
Defined.

(** ** Where execution departs from its documentation *)

(** Single quotes do not keep a variable from being expanded. *)
Lemma quoted_variable_expanded : demo_run (lit "echo '$HOME'") = Done (0, lit "/" ++ NL, lit "/").
Proof. vm_compute. reflexivity. Qed.

(** The exit code [$?] prints as a dollar sign and a question mark. *)
Lemma exit_code_not_expanded : demo_run (lit "false; echo $?") = Done (0, lit "$ ?" ++ NL, lit "/").
Proof. vm_compute. reflexivity. Qed.

(** Of the pipelines of a line only the last one's output is kept. *)
Lemma earlier_output_lost : demo_run (lit "echo a; echo b") = Done (0, lit "b" ++ NL, lit "/").
Proof. vm_compute. reflexivity. Qed.
