(* ===== verification/LineEditor.v ===== *)
(** * The line editor (omni-shell: line_editor.rs)

    Keys become actions, actions edit a buffer with a cursor and walk the
    history.  The abstract editor keeps the text to the left and to the right
    of the cursor, and the entry under review together with the draft it
    replaced. *)

From Stdlib Require Import ZArith Lia String.
From stdpp Require Import base numbers list.
From S2P Require Import Prelude Str ShellLex ShellEnv.

Inductive LineResult := LrContinue | LrLine (line : str) | LrInterrupt | LrEof.

Inductive EditAction :=
| EaInsert (c : Z) | EaBackspace | EaDelete | EaMoveLeft | EaMoveRight | EaHome | EaEnd | EaHistoryUp | EaHistoryDown
| EaComplete | EaSubmit | EaInterrupt | EaEof | EaClearScreen | EaUnknown.

(** [char::is_control]: the category Cc. *)
Definition is_control (c : Z) : bool := (c <? 32) || (127 <=? c) && (c <? 160).

Definition map_key (raw : list Z) : EditAction :=
  match raw with
  | [13] | [10] => EaSubmit
  | [3] => EaInterrupt
  | [4] => EaEof
  | [8] | [127] => EaBackspace
  | [9] => EaComplete
  | [12] => EaClearScreen
  | [27; 91; 65] => EaHistoryUp
  | [27; 91; 66] => EaHistoryDown
  | [27; 91; 67] => EaMoveRight
  | [27; 91; 68] => EaMoveLeft
  | [27; 91; 72] | [27; 91; 49; 126] => EaHome
  | [27; 91; 70] | [27; 91; 52; 126] => EaEnd
  | [27; 91; 51; 126] => EaDelete
  | 27 :: _ => EaUnknown
  | bytes => match from_utf8 bytes with Some [ch] => if is_control ch then EaUnknown else EaInsert ch | _ => EaUnknown end
  end.

Record LineEditor := {
  le_buffer : list Z;
  le_cursor : nat;
  le_history : list str;
  le_index : option nat;
  le_saved : option str;
  le_max : nat;
}.

Definition editor_new : LineEditor :=
  {| le_buffer := []; le_cursor := 0; le_history := []; le_index := None; le_saved := None; le_max := 1000 |}.

Definition set_text (buffer : list Z) (cursor : nat) (ed : LineEditor) : LineEditor :=
  {| le_buffer := buffer; le_cursor := cursor; le_history := le_history ed; le_index := le_index ed; le_saved := le_saved ed; le_max := le_max ed |}.
Definition set_nav (index : option nat) (saved : option str) (ed : LineEditor) : LineEditor :=
  {| le_buffer := le_buffer ed; le_cursor := le_cursor ed; le_history := le_history ed; le_index := index; le_saved := saved; le_max := le_max ed |}.
Definition set_history (h : list str) (ed : LineEditor) : LineEditor :=
  {| le_buffer := le_buffer ed; le_cursor := le_cursor ed; le_history := h; le_index := le_index ed; le_saved := le_saved ed; le_max := le_max ed |}.

(** [Vec::insert] and [Vec::remove], which panic out of range. *)
Definition vec_insert (i : nat) (c : Z) (l : list Z) : run (list Z) :=
  if (i <=? length l)%nat then Done (take i l ++ c :: drop i l) else Panicked.
Definition vec_remove (i : nat) (l : list Z) : run (list Z) :=
  if (i <? length l)%nat then Done (take i l ++ drop (S i) l) else Panicked.

Definition editor_reset (ed : LineEditor) : LineEditor := set_nav None None (set_text [] 0 ed).
Definition ed_set_buffer (content : str) (ed : LineEditor) : LineEditor := set_text content (length content) ed.

(** [if let Some(entry) = self.history.get(i)]. *)
Definition load_entry (i : nat) (ed : LineEditor) : LineEditor :=
  match le_history ed !! i with Some entry => ed_set_buffer entry ed | None => ed end.

Definition navigate_history_up (ed : LineEditor) : LineEditor :=
  if bool_decide (le_history ed = []) then ed else
  match le_index ed with
  | None => let i := (length (le_history ed) - 1)%nat in load_entry i (set_nav (Some i) (Some (le_buffer ed)) ed)
  | Some O => ed
  | Some (S i) => load_entry i (set_nav (Some i) (le_saved ed) ed)
  end.

Definition navigate_history_down (ed : LineEditor) : LineEditor :=
  match le_index ed with
  | None => ed
  | Some i =>
      if (i + 1 <? length (le_history ed))%nat then load_entry (i + 1) (set_nav (Some (i + 1)%nat) (le_saved ed) ed)
      else ed_set_buffer (default [] (le_saved ed)) (set_nav None None ed)
  end.

Definition delete_forward (ed : LineEditor) : run LineEditor :=
  if (le_cursor ed <? length (le_buffer ed))%nat then b ← vec_remove (le_cursor ed) (le_buffer ed); Done (set_text b (le_cursor ed) ed)
  else Done ed.

Definition apply_action (action : EditAction) (ed : LineEditor) : run (LineResult * LineEditor) :=
  let b := le_buffer ed in let c := le_cursor ed in
  match action with
  | EaInsert ch => b ← vec_insert c ch b; Done (LrContinue, set_text b (S c) ed)
  | EaBackspace =>
      match c with
      | S c => b ← vec_remove c b; Done (LrContinue, set_text b c ed)
      | O => Done (LrContinue, ed)
      end
  | EaDelete => ed ← delete_forward ed; Done (LrContinue, ed)
  | EaMoveLeft => Done (LrContinue, if (0 <? c)%nat then set_text b (c - 1) ed else ed)
  | EaMoveRight => Done (LrContinue, if (c <? length b)%nat then set_text b (S c) ed else ed)
  | EaHome => Done (LrContinue, set_text b 0 ed)
  | EaEnd => Done (LrContinue, set_text b (length b) ed)
  | EaHistoryUp => Done (LrContinue, navigate_history_up ed)
  | EaHistoryDown => Done (LrContinue, navigate_history_down ed)
  | EaSubmit => Done (LrLine b, editor_reset ed)
  | EaInterrupt => Done (LrInterrupt, ed)
  | EaEof => if bool_decide (b = []) then Done (LrEof, ed) else ed ← delete_forward ed; Done (LrContinue, ed)
  | EaClearScreen | EaComplete | EaUnknown => Done (LrContinue, ed)
  end.

Definition push_history (line : str) (ed : LineEditor) : LineEditor :=
  if bool_decide (line = []) then ed else
  if bool_decide (last (le_history ed) = Some line) then ed else
  let h := le_history ed ++ [line] in
  set_history (if (le_max ed <? length h)%nat then tail h else h) ed.

(** The bytes that redraw the line; [buffer.len() - cursor] panics below 0. *)
Definition render_line (prompt : str) (ed : LineEditor) : run (list Z) :=
  if (length (le_buffer ed) <? le_cursor ed)%nat then Panicked else
  let after_cursor := (length (le_buffer ed) - le_cursor ed)%nat in
  Done ([13; 27] ++ lit "[K" ++ as_bytes prompt ++ as_bytes (le_buffer ed) ++
        if (0 <? after_cursor)%nat then as_bytes ([27] ++ lit "[" ++ show_int (Z.of_nat after_cursor) ++ lit "D") else []).

(** ** The abstract editor *)

Record EditorSpec := { sp_left : str; sp_right : str; sp_hist : list str; sp_nav : option (nat * str) }.

Definition spec_text (l r : str) (s : EditorSpec) : EditorSpec := {| sp_left := l; sp_right := r; sp_hist := sp_hist s; sp_nav := sp_nav s |}.
Definition spec_load (text : str) (nav : option (nat * str)) (s : EditorSpec) : EditorSpec :=
  {| sp_left := text; sp_right := []; sp_hist := sp_hist s; sp_nav := nav |}.

Definition spec_up (s : EditorSpec) : EditorSpec :=
  match sp_nav s with
  | None => match last (sp_hist s) with
            | Some e => spec_load e (Some ((length (sp_hist s) - 1)%nat, sp_left s ++ sp_right s)) s
            | None => s
            end
  | Some (S i, draft) => spec_load (sp_hist s !!! i) (Some (i, draft)) s
  | Some (O, _) => s
  end.

Definition spec_down (s : EditorSpec) : EditorSpec :=
  match sp_nav s with
  | None => s
  | Some (i, draft) => match sp_hist s !! S i with Some e => spec_load e (Some (S i, draft)) s | None => spec_load draft None s end
  end.

Definition spec_action (a : EditAction) (s : EditorSpec) : LineResult * EditorSpec :=
  let l := sp_left s in let r := sp_right s in
  match a with
  | EaInsert c => (LrContinue, spec_text (l ++ [c]) r s)
  | EaBackspace => (LrContinue, spec_text (removelast l) r s)
  | EaDelete => (LrContinue, spec_text l (tail r) s)
  | EaMoveLeft => (LrContinue, match last l with Some c => spec_text (removelast l) (c :: r) s | None => s end)
  | EaMoveRight => (LrContinue, match r with c :: r => spec_text (l ++ [c]) r s | [] => s end)
  | EaHome => (LrContinue, spec_text [] (l ++ r) s)
  | EaEnd => (LrContinue, spec_text (l ++ r) [] s)
  | EaHistoryUp => (LrContinue, spec_up s)
  | EaHistoryDown => (LrContinue, spec_down s)
  | EaSubmit => (LrLine (l ++ r), spec_load [] None s)
  | EaInterrupt => (LrInterrupt, s)
  | EaEof => if bool_decide (l ++ r = []) then (LrEof, s) else (LrContinue, spec_text l (tail r) s)
  | EaComplete | EaClearScreen | EaUnknown => (LrContinue, s)
  end.

(** The history keeps the last [1000] lines; empty lines and repetitions of the
    last line are not recorded. *)
Definition spec_push (line : str) (s : EditorSpec) : EditorSpec :=
  if decide (line = [] \/ last (sp_hist s) = Some line) then s else
  {| sp_left := sp_left s; sp_right := sp_right s; sp_nav := sp_nav s;
     sp_hist := drop (length (sp_hist s) - 999) (sp_hist s) ++ [line] |}.

(** What the prompt loop does with an editor. *)
Inductive editor_op := OpKey (raw : list Z) | OpPush (line : str) | OpSet (content : str) | OpReset.

Definition editor_step (op : editor_op) (ed : LineEditor) : run (LineResult * LineEditor) :=
  match op with
  | OpKey raw => apply_action (map_key raw) ed
  | OpPush line => Done (LrContinue, push_history line ed)
  | OpSet content => Done (LrContinue, ed_set_buffer content ed)
  | OpReset => Done (LrContinue, editor_reset ed)
  end.

Definition spec_step (op : editor_op) (s : EditorSpec) : LineResult * EditorSpec :=
  match op with
  | OpKey raw => spec_action (map_key raw) s
  | OpPush line => (LrContinue, spec_push line s)
  | OpSet content => (LrContinue, spec_load content (sp_nav s) s)
  | OpReset => (LrContinue, spec_load [] None s)
  end.

Fixpoint editor_run (ops : list editor_op) (ed : LineEditor) : run (list LineResult * LineEditor) :=
  match ops with
  | [] => Done ([], ed)
  | op :: ops => '(r, ed) ← editor_step op ed; '(rs, ed) ← editor_run ops ed; Done (r :: rs, ed)
  end.

Fixpoint spec_run (ops : list editor_op) (s : EditorSpec) : list LineResult * EditorSpec :=
  match ops with
  | [] => ([], s)
  | op :: ops => let '(r, s) := spec_step op s in let '(rs, s) := spec_run ops s in (r :: rs, s)
  end.

(** ** Abstraction and invariant *)

Definition editor_abs (ed : LineEditor) : EditorSpec :=
  {| sp_left := take (le_cursor ed) (le_buffer ed); sp_right := drop (le_cursor ed) (le_buffer ed); sp_hist := le_history ed;
     sp_nav := i ← le_index ed; option_map (fun d => (i, d)) (le_saved ed) |}.

(** No entry is empty or repeats the one before. *)
Fixpoint history_ok (h : list str) : Prop :=
  match h with
  | [] => True
  | line :: h => line <> [] /\ head h <> Some line /\ history_ok h
  end.

Record editor_wf (ed : LineEditor) : Prop := {
  ew_cursor : (le_cursor ed <= length (le_buffer ed))%nat;
  ew_nav : match le_index ed with Some i => (i < length (le_history ed))%nat /\ is_Some (le_saved ed) | None => le_saved ed = None end;
  ew_max : le_max ed = 1000%nat;
  ew_len : (length (le_history ed) <= 1000)%nat;
  ew_hist : history_ok (le_history ed);
}.

(** ** Lemmas *)

Lemma history_ok_snoc h line : history_ok h -> line <> [] -> last h <> Some line -> history_ok (h ++ [line]).
Proof.
  induction h as [|x h IH]; intros Hh Hl Hlast; [done|]. destruct Hh as (Hx & Hhd & Hh). cbn [app history_ok]. split; [done|].
  destruct h as [|y h]; [split; [by intros [= ->]|done]|]. split; [done|]. by apply IH.
Qed.

Lemma history_ok_tail h : history_ok h -> history_ok (tail h).
Proof. destruct h; [done|]. by intros (_ & _ & H). Qed.

Lemma take_removelast {A} (l : list A) i x : l !! i = Some x -> removelast (take (S i) l) = take i l /\ last (take (S i) l) = Some x.
Proof. intros H. rewrite (take_S_r l i x) by done. by rewrite removelast_last, last_snoc. Qed.

Lemma take_snoc_length {A} (a b : list A) x : take (S (length a)) (a ++ x :: b) = a ++ [x] /\ drop (S (length a)) (a ++ x :: b) = b.
Proof.
  replace (a ++ x :: b) with ((a ++ [x]) ++ b) by (by rewrite <- app_assoc).
  replace (S (length a)) with (length (a ++ [x])) by (rewrite length_app; cbn; lia). by rewrite take_app_length, drop_app_length.
Qed.

Lemma wf_set_text b c ed : editor_wf ed -> (c <= length b)%nat -> editor_wf (set_text b c ed).
Proof. intros []; by split. Qed.

Lemma abs_set_text b c ed : editor_abs (set_text b c ed) = spec_text (take c b) (drop c b) (editor_abs ed).
Proof. done. Qed.

Lemma abs_ed_set_buffer text ed : editor_abs (ed_set_buffer text ed) = spec_load text (sp_nav (editor_abs ed)) (editor_abs ed).
Proof. unfold ed_set_buffer. rewrite abs_set_text, take_ge, drop_ge by done. done. Qed.

Lemma wf_ed_set_buffer text ed : editor_wf ed -> editor_wf (ed_set_buffer text ed).
Proof. intros H. by apply wf_set_text. Qed.

Lemma wf_reset ed : editor_wf ed -> editor_wf (editor_reset ed) /\ editor_abs (editor_reset ed) = spec_load [] None (editor_abs ed).
Proof. intros []. split; [by split|done]. Qed.

(** One step of the editor and of its specification. *)
Definition simulates (r : run (LineResult * LineEditor)) (s : LineResult * EditorSpec) : Prop :=
  exists ed', r = Done (fst s, ed') /\ editor_wf ed' /\ editor_abs ed' = snd s.

Lemma delete_simulates ed : editor_wf ed ->
  exists ed', delete_forward ed = Done ed' /\ editor_wf ed' /\ editor_abs ed' = spec_text (sp_left (editor_abs ed)) (tail (sp_right (editor_abs ed))) (editor_abs ed).
Proof.
  intros H. unfold delete_forward. destruct (Nat.ltb_spec (le_cursor ed) (length (le_buffer ed))) as [Hc|Hc].
  - unfold vec_remove. rewrite (proj2 (Nat.ltb_lt _ _)) by done. eexists. split; [reflexivity|]. split.
    + apply wf_set_text; [done|]. rewrite length_app, length_take. lia.
    + rewrite abs_set_text. cbn [sp_left sp_right editor_abs].
      rewrite take_app_length', drop_app_length' by (rewrite length_take; lia). f_equal. apply lookup_lt_is_Some in Hc as [x Hx]. by rewrite (drop_S (le_buffer ed) x (le_cursor ed) Hx).
  - exists ed. split; [done|]. split; [done|]. unfold editor_abs, spec_text. cbn. by rewrite !(drop_ge (le_buffer ed)) by done.
Qed.

Lemma load_simulates i d e ed : editor_wf ed -> le_history ed !! i = Some e ->
  editor_wf (load_entry i (set_nav (Some i) (Some d) ed)) /\
  editor_abs (load_entry i (set_nav (Some i) (Some d) ed)) = spec_load e (Some (i, d)) (editor_abs ed).
Proof.
  intros H Hi. unfold load_entry. cbn [set_nav le_history]. rewrite Hi. split; [apply wf_ed_set_buffer|by rewrite abs_ed_set_buffer].
  destruct H. split; try done. cbn. split; [by eapply lookup_lt_Some|done].
Qed.

Lemma up_simulates ed : editor_wf ed -> editor_wf (navigate_history_up ed) /\ editor_abs (navigate_history_up ed) = spec_up (editor_abs ed).
Proof.
  intros H. pose proof (ew_nav ed H) as Hn. unfold navigate_history_up, spec_up. cbn [sp_nav sp_hist editor_abs]. case_bool_decide as Hh.
  - rewrite Hh in *. split; [done|]. destruct (le_index ed) as [i|]; [cbn in Hn; lia|done].
  - destruct (le_index ed) as [[|i]|] eqn:Ei.
    + destruct Hn as [_ [d ->]]. by split.
    + destruct Hn as [Hi [d Hd]]. rewrite Hd. cbn [mbind option_bind option_map].
      destruct (lookup_lt_is_Some_2 (le_history ed) i ltac:(lia)) as [e He]. rewrite (list_lookup_total_correct _ _ _ He). by apply load_simulates.
    + cbn [mbind option_bind]. destruct (last (le_history ed)) as [e|] eqn:El; [|by apply last_None in El].
      rewrite last_lookup in El. replace (Nat.pred (length (le_history ed))) with (length (le_history ed) - 1)%nat in El by lia.
      cbn [sp_left sp_right editor_abs]. rewrite take_drop. by apply load_simulates.
Qed.

Lemma down_simulates ed : editor_wf ed -> editor_wf (navigate_history_down ed) /\ editor_abs (navigate_history_down ed) = spec_down (editor_abs ed).
Proof.
  intros H. pose proof (ew_nav ed H) as Hn. unfold navigate_history_down, spec_down. cbn [sp_nav sp_hist editor_abs].
  destruct (le_index ed) as [i|] eqn:Ei; [|done]. destruct Hn as [Hi [d Hd]]. rewrite Hd. cbn [mbind option_bind option_map default].
  rewrite Nat.add_1_r. destruct (Nat.ltb_spec (S i) (length (le_history ed))) as [Hlt|Hge].
  - destruct (lookup_lt_is_Some_2 _ _ Hlt) as [e He]. rewrite He. by apply load_simulates.
  - rewrite (proj2 (lookup_ge_None _ _) Hge). split; [apply wf_ed_set_buffer; by destruct H|by rewrite abs_ed_set_buffer].
Qed.

Lemma push_simulates line ed : editor_wf ed -> editor_wf (push_history line ed) /\ editor_abs (push_history line ed) = spec_push line (editor_abs ed).
Proof.
  intros H. unfold push_history, spec_push. cbn [sp_hist editor_abs]. case_bool_decide as He; [by rewrite decide_True by (by left)|].
  case_bool_decide as Hl; [by rewrite decide_True by (by right)|]. rewrite decide_False by naive_solver. destruct H as [Hc Hn Hm Hlen Hh].
  pose proof (history_ok_snoc _ line Hh He Hl) as Hs. rewrite Hm, length_app. cbn [length].
  destruct (Nat.ltb_spec 1000 (length (le_history ed) + 1)) as [Hbig|Hbig].
  - replace (length (le_history ed) - 999)%nat with 1%nat by lia.
    assert (tail (le_history ed ++ [line]) = drop 1 (le_history ed) ++ [line]) as E by (by destruct (le_history ed); [cbn in Hbig; lia|]).
    assert (length (drop 1 (le_history ed) ++ [line]) = length (le_history ed)) as El by (rewrite length_app, length_drop; cbn; lia).
    split; [|unfold editor_abs; cbn [set_history le_history le_buffer le_cursor le_index le_saved]; by rewrite E].
    split; cbn [set_history le_history le_buffer le_cursor le_index le_saved le_max]; [done| |done|rewrite E, El; lia|by apply history_ok_tail].
    rewrite E, El. done.
  - replace (length (le_history ed) - 999)%nat with 0%nat by lia. split; [|done].
    split; cbn [set_history le_history le_buffer le_cursor le_index le_saved le_max]; [done| |done|rewrite length_app; cbn; lia|done].
    destruct (le_index ed); [|done]. rewrite length_app. split; [lia|apply Hn].
Qed.

Lemma action_simulates a ed : editor_wf ed -> simulates (apply_action a ed) (spec_action a (editor_abs ed)).
Proof.
  intros H. pose proof (ew_cursor ed H) as Hc. unfold simulates, apply_action, spec_action. cbn [sp_left sp_right editor_abs].
  rewrite take_drop. destruct a; cbn [fst snd]; try (eexists; by split; [reflexivity|]).
  - unfold vec_insert. rewrite (proj2 (Nat.leb_le _ _)) by done. eexists. split; [reflexivity|]. split.
    + apply wf_set_text; [done|]. rewrite length_app, length_take. cbn. rewrite length_drop. lia.
    + rewrite abs_set_text. destruct (take_snoc_length (take (le_cursor ed) (le_buffer ed)) (drop (le_cursor ed) (le_buffer ed)) c) as [E1 E2].
      rewrite length_take_le in E1, E2 by done. by rewrite E1, E2.
  - destruct (le_cursor ed) as [|n] eqn:En; [exists ed; split; [done|]; split; [done|]; unfold editor_abs; by rewrite En|].
    unfold vec_remove. rewrite (proj2 (Nat.ltb_lt _ _)) by done. eexists. split; [reflexivity|]. split.
    + apply wf_set_text; [done|]. rewrite length_app, length_take. lia.
    + rewrite abs_set_text. rewrite take_app_length', drop_app_length' by (rewrite length_take; lia).
      destruct (lookup_lt_is_Some_2 (le_buffer ed) n ltac:(lia)) as [x Hx]. destruct (take_removelast _ _ _ Hx) as [-> _]. done.
  - destruct (delete_simulates ed H) as (ed' & -> & Hw & Ha). by exists ed'.
  - destruct (le_cursor ed) as [|n] eqn:En; [exists ed; split; [done|]; split; [done|]; unfold editor_abs; by rewrite En|].
    eexists. split; [reflexivity|]. destruct (lookup_lt_is_Some_2 (le_buffer ed) n ltac:(lia)) as [x Hx].
    destruct (take_removelast _ _ _ Hx) as [-> ->]. split; [apply wf_set_text; [done|cbn; lia]|]. cbn [Nat.ltb Nat.leb].
    rewrite abs_set_text. replace (S n - 1)%nat with n by lia. by rewrite (drop_S _ x n Hx).
  - destruct (Nat.ltb_spec (le_cursor ed) (length (le_buffer ed))) as [Hlt|Hge].
    + destruct (lookup_lt_is_Some_2 _ _ Hlt) as [x Hx]. rewrite (drop_S _ x _ Hx). eexists. split; [reflexivity|].
      split; [apply wf_set_text; [done|lia]|]. rewrite abs_set_text. by rewrite (take_S_r _ _ x Hx).
    + rewrite drop_ge by done. by exists ed.
  - eexists. split; [reflexivity|]. split; [apply wf_set_text; [done|lia]|done].
  - eexists. split; [reflexivity|]. split; [by apply wf_set_text|]. rewrite abs_set_text. by rewrite take_ge, drop_ge by done.
  - destruct (up_simulates ed H) as [Hw Ha]. by eexists.
  - destruct (down_simulates ed H) as [Hw Ha]. by eexists.
  - destruct (wf_reset ed H) as [Hw Ha]. by eexists.
  - case_bool_decide; [by exists ed|]. destruct (delete_simulates ed H) as (ed' & -> & Hw & Ha). by exists ed'.
Qed.

Lemma step_simulates op ed : editor_wf ed -> simulates (editor_step op ed) (spec_step op (editor_abs ed)).
Proof.
  intros H. destruct op as [raw|line|content|]; cbn [editor_step spec_step]; [by apply action_simulates| | |]; eexists; (split; [reflexivity|]).
  - by apply push_simulates.
  - split; [by apply wf_ed_set_buffer|by rewrite abs_ed_set_buffer].
  - by apply wf_reset.
Qed.

Lemma run_simulates ops ed : editor_wf ed ->
  exists ed', editor_run ops ed = Done (fst (spec_run ops (editor_abs ed)), ed') /\ editor_wf ed' /\ editor_abs ed' = snd (spec_run ops (editor_abs ed)).
Proof.
  revert ed. induction ops as [|op ops IH]; intros ed H; [by exists ed|]. cbn [editor_run spec_run].
  destruct (step_simulates op ed H) as (ed1 & E1 & H1 & A1). rewrite E1. destruct (spec_step op (editor_abs ed)) as [r s1]. cbn [fst snd] in *. subst s1.
  destruct (IH ed1 H1) as (ed2 & E2 & H2 & A2). cbn [mbind run_bind]. rewrite E2. cbn [mbind run_bind].
  destruct (spec_run ops (editor_abs ed1)) as [rs s2]. by exists ed2.
Qed.

(** *** Keys *)

Definition printable (c : Z) : Prop := is_char c /\ is_control c = false.

Lemma map_key_multibyte b0 b1 l : b0 <> 27 ->
  map_key (b0 :: b1 :: l) = match from_utf8 (b0 :: b1 :: l) with Some [ch] => if is_control ch then EaUnknown else EaInsert ch | _ => EaUnknown end.
Proof. intros H. destruct b0 as [|p|p]; [done| |done]. by do 7 (destruct p as [p|p|]; try done). Qed.

Lemma map_key_ascii c : 32 <= c < 127 -> map_key [c] = EaInsert c.
Proof.
  intros H. assert (forallb (fun n => match map_key [Z.of_nat n] with EaInsert c => c =? Z.of_nat n | _ => false end) (seq 32 95) = true) as Hall
    by (vm_compute; reflexivity).
  rewrite forallb_forall in Hall. specialize (Hall (Z.to_nat c)). rewrite Z2Nat.id in Hall by lia. rewrite in_seq in Hall.
  specialize (Hall ltac:(lia)). destruct (map_key [c]); try done. apply Z.eqb_eq in Hall. by rewrite Hall.
Qed.

Lemma map_key_char c : printable c -> map_key (char_bytes c) = EaInsert c.
Proof.
  intros [Hc Hp]. pose proof (from_utf8_as_bytes [c] ltac:(by constructor)) as E. unfold as_bytes in E. cbn [map concat] in E. rewrite app_nil_r in E.
  unfold is_control in Hp. apply orb_false_iff in Hp as [H1%Z.ltb_ge H2].
  destruct (Z.lt_ge_cases c 0x80) as [Hlt|Hge].
  - unfold char_bytes. rewrite (proj2 (Z.ltb_lt _ _)) by done. apply map_key_ascii.
    apply andb_false_iff in H2 as [H2%Z.leb_gt|H2%Z.ltb_ge]; lia.
  - assert (exists b0 b1 l, char_bytes c = b0 :: b1 :: l /\ b0 <> 27) as (b0 & b1 & l & Eb & Hb).
    { unfold char_bytes. rewrite (proj2 (Z.ltb_ge _ _)) by done. pose proof (Z.div_pos c 64). pose proof (Z.div_pos c 4096). pose proof (Z.div_pos c 262144).
      destruct (c <? 0x800); [|destruct (c <? 0x10000)]; eexists _, _, _; (split; [reflexivity|lia]). }
    rewrite Eb, map_key_multibyte, <- Eb, E by done. unfold is_control. rewrite (proj2 (Z.ltb_ge _ _)) by done. by rewrite H2.
Qed.

Lemma spec_run_app a b s : spec_run (a ++ b) s =
  let '(r1, s1) := spec_run a s in let '(r2, s2) := spec_run b s1 in (r1 ++ r2, s2).
Proof.
  revert s. induction a as [|op a IH]; intros s; cbn [app spec_run]; [by destruct (spec_run b s)|].
  destruct (spec_step op s) as [r s']. rewrite IH. destruct (spec_run a s') as [r1 s1]. by destruct (spec_run b s1).
Qed.

(** Typing a text puts it to the left of the cursor. *)
Lemma spec_type text s : Forall printable text -> spec_run (map (fun c => OpKey (char_bytes c)) text) s =
  (replicate (length text) LrContinue, spec_text (sp_left s ++ text) (sp_right s) s).
Proof.
  intros H. revert s. induction H as [|c text Hc _ IH]; intros s; [cbn; rewrite app_nil_r; by destruct s|].
  cbn [map spec_run spec_step]. rewrite map_key_char by done. cbn [spec_action]. rewrite IH. cbn [length replicate spec_text sp_left sp_right sp_hist sp_nav].
  by rewrite <- app_assoc.
Qed.

(** *** History *)

Lemma ups_spec k s : sp_nav s = None -> (0 < k <= length (sp_hist s))%nat ->
  Nat.iter k spec_up s = spec_load (sp_hist s !!! (length (sp_hist s) - k)%nat) (Some ((length (sp_hist s) - k)%nat, sp_left s ++ sp_right s)) s.
Proof.
  intros Hn. induction k as [|k IH]; [lia|]. intros Hk. cbn [Nat.iter nat_rect]. destruct k as [|k].
  - cbn [nat_rect]. unfold spec_up. rewrite Hn, last_lookup. replace (Nat.pred (length (sp_hist s))) with (length (sp_hist s) - 1)%nat by lia.
    destruct (lookup_lt_is_Some_2 (sp_hist s) (length (sp_hist s) - 1) ltac:(lia)) as [e He]. by rewrite (list_lookup_total_correct _ _ _ He), He.
  - change (nat_rect _ s (fun _ => spec_up) (S k)) with (Nat.iter (S k) spec_up s). rewrite IH by lia.
    replace (length (sp_hist s) - S k)%nat with (S (length (sp_hist s) - S (S k))) by lia. done.
Qed.

Lemma downs_spec j i d t s : (i + j = length (sp_hist s))%nat -> (0 < j)%nat ->
  Nat.iter j spec_down (spec_load t (Some (i, d)) s) = spec_load d None s.
Proof.
  revert i t. induction j as [|j IH]; [lia|]. intros i t Hij _. rewrite Nat.iter_succ_r. unfold spec_down at 2. cbn [sp_nav sp_hist spec_load].
  destruct j as [|j].
  - by rewrite (proj2 (lookup_ge_None (sp_hist s) (S i))) by lia.
  - destruct (lookup_lt_is_Some_2 (sp_hist s) (S i) ltac:(lia)) as [e He]. rewrite He. apply IH; lia.
Qed.

Lemma editor_new_wf : editor_wf editor_new.
Proof. split; cbn; try done; lia. Qed.

(** ** Theorem *)

Definition spec_new : EditorSpec := {| sp_left := []; sp_right := []; sp_hist := []; sp_nav := None |}.

(** What is drawn: the prompt, the text, and the cursor moved back over the text to its right. *)
Definition drawn (prompt : str) (s : EditorSpec) : list Z :=
  [13; 27] ++ lit "[K" ++ as_bytes prompt ++ as_bytes (sp_left s ++ sp_right s) ++
  match sp_right s with [] => [] | r => as_bytes ([27] ++ lit "[" ++ show_int (Z.of_nat (length r)) ++ lit "D") end.

(** the line editor.  From a new editor, every sequence of key presses (any bytes), recorded lines, replacements and resets runs without a panic and answers what the abstract editor answers, which keeps the text left and right of the cursor; the cursor stays within the text, the history keeps at most 1000 lines, none empty and none equal to the one before; the line drawn is the prompt, the text and the cursor at its place.  Typing the UTF-8 bytes of printable characters and then Enter answers exactly these characters behind the text left of the cursor.  Going [k] entries up the history shows the [k]-th last line, and going [k] down again brings back the draft. *)
Theorem line_editor_refines (ops : list editor_op) (text : str) (s : EditorSpec) (k : nat) :
  (exists ed, editor_run ops editor_new = Done (fst (spec_run ops spec_new), ed) /\ editor_wf ed /\ editor_abs ed = snd (spec_run ops spec_new) /\
     forall prompt, render_line prompt ed = Done (drawn prompt (editor_abs ed))) /\
  (Forall printable text -> spec_run (map (fun c => OpKey (char_bytes c)) text ++ [OpKey [13]]) s =
     (replicate (length text) LrContinue ++ [LrLine (sp_left s ++ text ++ sp_right s)], spec_load [] None s)) /\
  (sp_nav s = None -> (0 < k <= length (sp_hist s))%nat ->
     sp_left (Nat.iter k spec_up s) = sp_hist s !!! (length (sp_hist s) - k)%nat /\
     Nat.iter k spec_down (Nat.iter k spec_up s) = spec_load (sp_left s ++ sp_right s) None s).
Proof.
  split; [|split].
  - destruct (run_simulates ops editor_new editor_new_wf) as (ed & E & H & A). exists ed. do 3 (split; [done|]). intros prompt. unfold render_line, drawn.
    pose proof (ew_cursor ed H) as Hc. rewrite (proj2 (Nat.ltb_ge _ _)) by done. cbn [editor_abs sp_left sp_right]. rewrite take_drop, <- length_drop.
    by destruct (drop (le_cursor ed) (le_buffer ed)).
  - intros Ht. rewrite spec_run_app, spec_type by done. cbn [spec_run spec_step map_key spec_action spec_text sp_left sp_right]. by rewrite <- app_assoc.
  - intros Hn Hk. rewrite ups_spec by done. split; [done|]. apply downs_spec; lia.
Qed.

(** ** Witness *)

Lemma line_editor_refines_witness :
  let s := {| sp_left := lit "ec"; sp_right := lit "x"; sp_hist := [lit "ls"; lit "pwd"]; sp_nav := None |} in
  spec_run (map (fun c => OpKey (char_bytes c)) [104; 233; 8364] ++ [OpKey [13]]) s =
    ([LrContinue; LrContinue; LrContinue; LrLine [101; 99; 104; 233; 8364; 120]], spec_load [] None s) /\
  sp_left (Nat.iter 2 spec_up s) = lit "ls".
Proof.
  intros s. destruct (line_editor_refines [] [104; 233; 8364] s 2) as (_ & H1 & H2). split.
  - apply H1. repeat constructor; unfold is_char; lia.
  - apply H2; [reflexivity|cbn; lia].
Defined.

Example demo_editor : exists ed, editor_run
  [OpPush (lit "ls"); OpKey (lit "a"); OpKey ([27] ++ lit "[A"); OpKey [127]; OpKey ([27] ++ lit "[B"); OpKey ([27] ++ lit "[D"); OpKey (lit "b"); OpKey [4]; OpKey [4]; OpKey [10]; OpKey [4]]
  editor_new = Done (replicate 9 LrContinue ++ [LrLine (lit "b"); LrEof], ed).
Proof. eexists. vm_compute. reflexivity. Qed.
