(* ===== verification/Ring.v ===== *)
(** * Rings

    What the device rings share: positions in a ring of [n] slots are
    unbounded counters modulo [n], slots are blocks of a page, and a prefix of
    a log has been consumed.  Indices are machine integers, so [Z]. *)

From Stdlib Require Import ZArith Lia.
From stdpp Require Import base numbers list.
From S2P Require Import Prelude.


(** [u16] addition with the overflow check. *)
Definition add16 (a b : Z) : run Z := if a + b <? 2 ^ 16 then Done (a + b) else Panicked.

(** [if i + 1 == capacity { 0 } else { i + 1 }]. *)
Definition next_slot (capacity i : Z) : run Z :=
  j ← add16 i 1; Done (if j =? capacity then 0 else j).

(** ** Counters *)

Lemma next_slot_done n k : 0 < n < 2 ^ 16 -> next_slot n (k mod n) = Done ((k + 1) mod n).
Proof.
  intros Hn. pose proof (Z.mod_pos_bound k n ltac:(lia)) as Hk. unfold next_slot, add16. rewrite (proj2 (Z.ltb_lt _ _)) by lia.
  cbn [mbind run_bind]. f_equal. destruct (Z.eqb_spec (k mod n + 1) n) as [E|E].
  - rewrite <- Z.add_mod_idemp_l by lia. rewrite E. symmetry. apply Z.mod_same. lia.
  - rewrite <- Z.add_mod_idemp_l by lia. by rewrite (Z.mod_small (k mod n + 1)) by lia.
Qed.

Lemma mod_distinct n a b : 0 < n -> a < b < a + n -> a mod n <> b mod n.
Proof.
  intros Hn Hab E. pose proof (Z.div_mod a n ltac:(lia)). pose proof (Z.div_mod b n ltac:(lia)).
  assert (0 < n * (b / n - a / n) < n) as Hd by lia.
  assert (b / n - a / n <= 0 \/ 1 <= b / n - a / n) as [?|?] by lia; nia.
Qed.

Lemma mod_close n a b : 0 < n -> a <= b < a + n -> a mod n = b mod n -> a = b.
Proof. intros Hn Hab E. destruct (Z.eq_dec a b) as [|Hne]; [done|]. by destruct (mod_distinct n a b) as []; [lia|lia|]. Qed.

(** The lap of a counter: even laps carry the phase [true]. *)
Definition lap_phase (n k : Z) : bool := Z.even (k / n).

Lemma lap_phase_next n k : 0 < n -> lap_phase n (k + 1) = if k mod n + 1 =? n then negb (lap_phase n k) else lap_phase n k.
Proof.
  intros Hn. unfold lap_phase. pose proof (Z.div_mod k n ltac:(lia)). pose proof (Z.mod_pos_bound k n ltac:(lia)).
  destruct (Z.eqb_spec (k mod n + 1) n) as [E|E].
  - replace (k + 1) with ((k / n + 1) * n) by nia. rewrite Z.div_mul by lia. rewrite Z.even_add. by destruct (Z.even (k / n)).
  - f_equal. symmetry. apply (Z.div_unique_pos (k + 1) n (k / n) (k mod n + 1)); lia.
Qed.

Lemma lap_phase_back n k : 0 < n -> lap_phase n (k - n) = negb (lap_phase n k).
Proof.
  intros Hn. unfold lap_phase. replace (k - n) with (k + (-1) * n) by lia. rewrite Z.div_add by lia. rewrite Z.even_add. by destruct (Z.even (k / n)).
Qed.

(** ** Slots *)

(** Slot [i] of a page of [w]-byte slots. *)
Definition slot_bytes (w : nat) (i : Z) (page : list Z) : list Z := take w (drop (Z.to_nat i * w) page).

(** [page[start..end].copy_from_slice(bytes)] on a slot within the page. *)
Definition set_slot (w : nat) (i : Z) (bytes page : list Z) : list Z :=
  take (Z.to_nat i * w) page ++ bytes ++ drop (Z.to_nat i * w + w) page.

Lemma set_slot_length w i bytes page : length bytes = w -> (Z.to_nat i * w + w <= length page)%nat -> length (set_slot w i bytes page) = length page.
Proof. intros Hb Hp. unfold set_slot. rewrite !length_app, length_take, length_drop. lia. Qed.

Lemma slot_set_same w i bytes page : length bytes = w -> (Z.to_nat i * w + w <= length page)%nat -> slot_bytes w i (set_slot w i bytes page) = bytes.
Proof.
  intros Hb Hp. unfold slot_bytes, set_slot. rewrite drop_app_length' by (rewrite length_take; lia). by rewrite take_app_length' by done.
Qed.

Lemma slot_set_other w i j bytes page : length bytes = w -> (Z.to_nat i * w + w <= length page)%nat ->
  0 <= i -> 0 <= j -> i <> j -> slot_bytes w j (set_slot w i bytes page) = slot_bytes w j page.
Proof.
  intros Hb Hp Hi Hj Hne. unfold slot_bytes, set_slot. destruct (Z.lt_ge_cases j i) as [Hlt|Hge].
  - assert (Z.to_nat j * w + w <= Z.to_nat i * w)%nat by nia.
    rewrite drop_app_le by (rewrite length_take; lia). rewrite take_app_le by (rewrite length_drop, length_take; lia).
    rewrite skipn_firstn_comm, take_take. by rewrite Nat.min_l by lia.
  - assert (Z.to_nat i * w + w <= Z.to_nat j * w)%nat by nia.
    rewrite app_assoc, drop_app_ge by (rewrite length_app, length_take; lia). rewrite drop_drop, length_app, length_take.
    do 2 f_equal. lia.
Qed.

Lemma slot_bytes_length w i page : (Z.to_nat i * w + w <= length page)%nat -> length (slot_bytes w i page) = w.
Proof. intros H. unfold slot_bytes. rewrite length_take, length_drop. lia. Qed.

(** A slot index below [n] lies within a page of [n] slots. *)
Lemma slot_within w i n (page : list Z) : 0 <= i < n -> (Z.to_nat n * w <= length page)%nat -> (Z.to_nat i * w + w <= length page)%nat.
Proof. intros Hi Hp. assert (Z.to_nat i + 1 <= Z.to_nat n)%nat by lia. nia. Qed.

(** ** Slices *)

(** [buf[off..off + bs.len()].copy_from_slice(bs)] within the buffer, and the panic outside it. *)
Definition put_bytes (off : nat) (bs buf : list Z) : list Z := take off buf ++ bs ++ drop (off + length bs) buf.
Definition put_run (off : nat) (bs buf : list Z) : run (list Z) := if (off + length bs <=? length buf)%nat then Done (put_bytes off bs buf) else Panicked.

(** [buf[off..off + n]] *)
Definition bytes_at (off n : nat) (buf : list Z) : list Z := take n (drop off buf).

Lemma put_run_done off bs buf : (off + length bs <= length buf)%nat -> put_run off bs buf = Done (put_bytes off bs buf).
Proof. intros H. unfold put_run. by rewrite (proj2 (Nat.leb_le _ _)) by done. Qed.

Lemma put_length off bs buf : (off + length bs <= length buf)%nat -> length (put_bytes off bs buf) = length buf.
Proof. intros H. unfold put_bytes. rewrite !length_app, length_take, length_drop. lia. Qed.

Lemma put_at off bs buf : (off + length bs <= length buf)%nat -> bytes_at off (length bs) (put_bytes off bs buf) = bs.
Proof. intros H. unfold bytes_at, put_bytes. rewrite drop_app_length' by (rewrite length_take; lia). by rewrite take_app_length' by done. Qed.

Lemma put_before off bs buf o n : (off + length bs <= length buf)%nat -> (o + n <= off)%nat -> bytes_at o n (put_bytes off bs buf) = bytes_at o n buf.
Proof.
  intros H Ho. unfold bytes_at, put_bytes. rewrite drop_app_le by (rewrite length_take; lia). rewrite take_app_le by (rewrite length_drop, length_take; lia).
  rewrite skipn_firstn_comm, take_take. by rewrite Nat.min_l by lia.
Qed.

(** Writes at rising offsets. *)
Fixpoint put_all (ws : list (nat * list Z)) (buf : list Z) : list Z := match ws with [] => buf | (off, bs) :: ws => put_all ws (put_bytes off bs buf) end.
Fixpoint rising (lo : nat) (ws : list (nat * list Z)) (hi : nat) : Prop :=
  match ws with [] => (lo <= hi)%nat | (off, bs) :: ws => (lo <= off)%nat /\ rising (off + length bs) ws hi end.

Lemma rising_le lo ws hi : rising lo ws hi -> (lo <= hi)%nat.
Proof. revert lo. induction ws as [|[off bs] ws IH]; intros lo; [done|]. intros [H1 H2]. apply IH in H2. lia. Qed.

Lemma rising_app lo ws mid ws' hi : rising lo ws mid -> rising mid ws' hi -> rising lo (ws ++ ws') hi.
Proof.
  revert lo. induction ws as [|[off bs] ws IH]; intros lo H1 H2; cbn [app rising] in *; [|destruct H1; split; [done|by apply IH]].
  destruct ws' as [|[off bs] ws']; cbn [rising] in *; [lia|]. destruct H2. split; [lia|done].
Qed.

Lemma put_all_length lo ws hi buf : rising lo ws hi -> (hi <= length buf)%nat -> length (put_all ws buf) = length buf.
Proof.
  revert lo buf. induction ws as [|[off bs] ws IH]; intros lo buf Hr Hb; [done|]. destruct Hr as [H1 H2]. cbn [put_all]. pose proof (rising_le _ _ _ H2).
  rewrite (IH _ _ H2); rewrite put_length by lia; done.
Qed.

Lemma put_all_before lo ws hi buf o n : rising lo ws hi -> (hi <= length buf)%nat -> (o + n <= lo)%nat -> bytes_at o n (put_all ws buf) = bytes_at o n buf.
Proof.
  revert lo buf. induction ws as [|[off bs] ws IH]; intros lo buf Hr Hb Ho; [done|]. destruct Hr as [H1 H2]. cbn [put_all]. pose proof (rising_le _ _ _ H2).
  rewrite (IH _ _ H2) by (rewrite ?put_length; lia). apply put_before; lia.
Qed.

(** Every write is read back. *)
Lemma put_all_at lo ws hi buf off bs : rising lo ws hi -> (hi <= length buf)%nat -> (off, bs) ∈ ws -> bytes_at off (length bs) (put_all ws buf) = bs.
Proof.
  revert lo buf. induction ws as [|[o b] ws IH]; intros lo buf Hr Hb Hin; [by apply not_elem_of_nil in Hin|]. destruct Hr as [H1 H2]. cbn [put_all]. pose proof (rising_le _ _ _ H2).
  apply elem_of_cons in Hin as [[= -> ->]|Hin]; [|apply (IH _ _ H2); [rewrite put_length; lia|done]].
  rewrite (put_all_before _ _ _ _ _ _ H2) by (rewrite ?put_length; lia). apply put_at; lia.
Qed.
