(* ===== verification/NvmeQueue.v ===== *)
(** * NVMe queue pairs (omni-driver-nvme: admin.rs, controller_regs.rs, ring.rs,
    queue.rs)

    Entries are lists of bytes, the pages shared with the controller lists of
    slots.  The register file is an interface, the class [Mmio]; the two
    backend traits of the source are its two operations.  The second half
    composes a queue pair with a controller that follows the NVMe
    specification. *)

From Stdlib Require Import ZArith Lia.
From stdpp Require Import base numbers list.
From S2P Require Import Prelude Ring.

(** ** Entries (admin.rs) *)

Definition ADMIN_SQE_BYTES : nat := 64.
Definition ADMIN_CQE_BYTES : nat := 16.

Definition OPC_IDENTIFY : Z := 0x06.
Definition OPC_CREATE_IO_CQ : Z := 0x05.
Definition OPC_CREATE_IO_SQ : Z := 0x01.
Definition CNS_IDENTIFY_NAMESPACE : Z := 0.
Definition CNS_IDENTIFY_CONTROLLER : Z := 1.
Definition CNS_ACTIVE_NSID_LIST : Z := 2.

(** The byte stores of [write_dw_at] and [write_qw_at] skip what lies outside the buffer. *)
Definition write_dw_at (off : nat) (val : Z) (buf : list Z) : list Z := list_inserts off (to_le_bytes 4 val) buf.
Definition write_qw_at (off : nat) (val : Z) (buf : list Z) : list Z := list_inserts off (to_le_bytes 8 val) buf.
Definition read_dw_at (buf : list Z) (off : nat) : Z :=
  from_le_bytes (map (fun i => default 0 (buf !! (off + i)%nat)) [0; 1; 2; 3]%nat).

Definition sqe_zeroed : list Z := replicate ADMIN_SQE_BYTES 0.

Inductive IdentifyTarget := ItController | ItNamespace (nsid : Z) | ItActiveNsList.

(** [u32::from(opc) | (u32::from(cid) << 16)]. *)
Definition header_dw (opc cid : Z) : Z := Z.lor opc (Z.shiftl cid 16).

Definition encode_identify (target : IdentifyTarget) (prp1 prp2 cid : Z) : list Z :=
  let sqe := write_dw_at 0 (header_dw OPC_IDENTIFY cid) sqe_zeroed in
  let sqe := write_dw_at 4 (match target with ItNamespace nsid => nsid | _ => 0 end) sqe in
  let sqe := write_qw_at 32 prp2 (write_qw_at 24 prp1 sqe) in
  write_dw_at 40 (match target with ItNamespace _ => CNS_IDENTIFY_NAMESPACE | ItActiveNsList => CNS_ACTIVE_NSID_LIST | ItController => CNS_IDENTIFY_CONTROLLER end) sqe.

Definition CIOQ_CDW11_PC_BIT : Z := 1.
Definition CIOCQ_CDW11_IEN_BIT : Z := 2.

(** [qid | (qsize.saturating_sub(1) << 16)]. *)
Definition queue_dw10 (qid qsize : Z) : Z := Z.lor qid (Z.shiftl (saturating_sub qsize 1) 16).

Definition encode_create_io_cq (qid qsize prp1 irq_vector : Z) (irq_enabled physically_contig : bool) (cid : Z) : list Z :=
  let buf := write_dw_at 0 (header_dw OPC_CREATE_IO_CQ cid) sqe_zeroed in
  let buf := write_qw_at 24 prp1 buf in
  let buf := write_dw_at 40 (queue_dw10 qid qsize) buf in
  let flags := if physically_contig then CIOQ_CDW11_PC_BIT else 0 in
  let flags := if irq_enabled then Z.lor flags CIOCQ_CDW11_IEN_BIT else flags in
  write_dw_at 44 (Z.lor flags (Z.shiftl irq_vector 16)) buf.

Definition encode_create_io_sq (qid qsize prp1 cq_id queue_priority : Z) (physically_contig : bool) (cid : Z) : list Z :=
  let buf := write_dw_at 0 (header_dw OPC_CREATE_IO_SQ cid) sqe_zeroed in
  let buf := write_qw_at 24 prp1 buf in
  let buf := write_dw_at 40 (queue_dw10 qid qsize) buf in
  let flags := if physically_contig then CIOQ_CDW11_PC_BIT else 0 in
  let flags := Z.lor flags (Z.shiftl (Z.land queue_priority 3) 1) in
  write_dw_at 44 (Z.lor flags (Z.shiftl cq_id 16)) buf.

Record AdminCqeFields := {
  cq_cdw0 : Z;
  cq_sq_head : Z;
  cq_sq_id : Z;
  cq_cid : Z;
  cq_phase : bool;
  cq_sc : Z;
  cq_sct : Z;
  cq_more : bool;
  cq_dnr : bool;
}.

Definition is_success (f : AdminCqeFields) : bool := (cq_sct f =? 0) && (cq_sc f =? 0).

Definition packed_status (f : AdminCqeFields) : Z :=
  let s := if cq_phase f then 1 else 0 in
  let s := Z.lor s (Z.shiftl (cq_sc f) 1) in
  let s := Z.lor s (Z.shiftl (Z.land (cq_sct f) 7) 9) in
  let s := if cq_more f then Z.lor s (Z.shiftl 1 14) else s in
  if cq_dnr f then Z.lor s (Z.shiftl 1 15) else s.

Definition parse_admin_cqe (cqe : list Z) : AdminCqeFields :=
  let cdw2 := read_dw_at cqe 8 in
  let cdw3 := read_dw_at cqe 12 in
  let status_word := Z.land (Z.shiftr cdw3 16) 0xFFFF in
  {| cq_cdw0 := read_dw_at cqe 0;
     cq_sq_head := Z.land cdw2 0xFFFF;
     cq_sq_id := Z.land (Z.shiftr cdw2 16) 0xFFFF;
     cq_cid := Z.land cdw3 0xFFFF;
     cq_phase := negb (Z.land status_word 1 =? 0);
     cq_sc := Z.land (Z.shiftr status_word 1) 0xFF;
     cq_sct := Z.land (Z.shiftr status_word 9) 7;
     cq_more := negb (Z.land status_word (Z.shiftl 1 14) =? 0);
     cq_dnr := negb (Z.land status_word (Z.shiftl 1 15) =? 0) |}.

(** ** Registers (controller_regs.rs) *)

Definition CC_OFFSET : Z := 0x14.
Definition CSTS_OFFSET : Z := 0x1C.
Definition AQA_OFFSET : Z := 0x24.
Definition ASQ_OFFSET : Z := 0x28.
Definition ACQ_OFFSET : Z := 0x30.
Definition DOORBELL_ARRAY_OFFSET : Z := 0x1000.
Definition CC_EN_BIT : Z := 1.
Definition CC_MPS_SHIFT : Z := 7.
Definition CC_IOSQES_SHIFT : Z := 16.
Definition CC_IOCQES_SHIFT : Z := 20.
Definition CSTS_RDY_BIT : Z := 1.
Definition CSTS_CFS_BIT : Z := 2.

(** [4usize.checked_shl(dstrd)]: a shift by less than the width loses high bits. *)
Definition doorbell_stride (dstrd : Z) : option Z := if dstrd <? 64 then Some (wrap64 (Z.shiftl 4 dstrd)) else None.

Definition sq_tail_doorbell_offset (qid dstrd : Z) : option Z :=
  stride ← doorbell_stride dstrd; index ← checked_mul64 qid 2; off ← checked_mul64 index stride; checked_add64 off DOORBELL_ARRAY_OFFSET.

Definition cq_head_doorbell_offset (qid dstrd : Z) : option Z :=
  stride ← doorbell_stride dstrd; pair_index ← checked_mul64 qid 2; cq_index ← checked_add64 pair_index 1;
  off ← checked_mul64 cq_index stride; checked_add64 off DOORBELL_ARRAY_OFFSET.

Definition cap_mqes (cap : Z) : Z := Z.land cap 0xFFFF.
Definition cap_cqr (cap : Z) : bool := negb (Z.land (Z.shiftr cap 16) 1 =? 0).
Definition cap_dstrd (cap : Z) : Z := Z.land (Z.shiftr cap 32) 0xF.
Definition cap_mpsmin (cap : Z) : Z := Z.land (Z.shiftr cap 48) 0xF.
Definition cap_mpsmax (cap : Z) : Z := Z.land (Z.shiftr cap 52) 0xF.
Definition vs_major (vs : Z) : Z := Z.shiftr vs 16.
Definition vs_minor (vs : Z) : Z := Z.land (Z.shiftr vs 8) 0xFF.

(** The register file: [MmioReadBackend] and [MmioBackend]. *)
Class Mmio (D : Type) := { read_register : Z -> D -> Z * D; write_register : Z -> Z -> D -> D }.

(** ** Rings (ring.rs) *)

Inductive RingError := CapacityZero | CapacityTooLarge.

Record SqRing := { sq_capacity : Z; sq_tail : Z; sq_head_observed : Z }.

Definition sq_new (capacity : Z) : result RingError SqRing :=
  if capacity =? 0 then Err CapacityZero else
  if 2 ^ 16 - 1 <? capacity then Err CapacityTooLarge else
  Ok {| sq_capacity := capacity; sq_tail := 0; sq_head_observed := 0 |}.

Definition sq_is_full (r : SqRing) : run bool :=
  next_tail ← next_slot (sq_capacity r) (sq_tail r); Done (next_tail =? sq_head_observed r).

Definition sq_is_empty (r : SqRing) : bool := sq_tail r =? sq_head_observed r.

Definition sq_submit (r : SqRing) : run (option Z * SqRing) :=
  full ← sq_is_full r;
  if full : bool then Done (None, r) else
  next_tail ← next_slot (sq_capacity r) (sq_tail r);
  Done (Some (sq_tail r), {| sq_capacity := sq_capacity r; sq_tail := next_tail; sq_head_observed := sq_head_observed r |}).

Definition sq_update_head (head : Z) (r : SqRing) : run SqRing :=
  if sq_capacity r =? 0 then Panicked else
  Done {| sq_capacity := sq_capacity r; sq_tail := sq_tail r; sq_head_observed := head mod sq_capacity r |}.

Record CqRing := { cqr_capacity : Z; cqr_head : Z; cqr_phase : bool }.

Definition cq_new (capacity : Z) : result RingError CqRing :=
  if capacity =? 0 then Err CapacityZero else
  if 2 ^ 16 - 1 <? capacity then Err CapacityTooLarge else
  Ok {| cqr_capacity := capacity; cqr_head := 0; cqr_phase := true |}.

Definition cq_try_take (cqe : list Z) (r : CqRing) : run (option AdminCqeFields * CqRing) :=
  let fields := parse_admin_cqe cqe in
  if negb (eqb (cq_phase fields) (cqr_phase r)) then Done (None, r) else
  j ← add16 (cqr_head r) 1;
  Done (Some fields,
        if j =? cqr_capacity r then {| cqr_capacity := cqr_capacity r; cqr_head := 0; cqr_phase := negb (cqr_phase r) |}
        else {| cqr_capacity := cqr_capacity r; cqr_head := j; cqr_phase := cqr_phase r |}).

(** ** Queue pairs (queue.rs) *)

Inductive QueueError :=
| QeRing (e : RingError) | SqPageTooSmall | CqPageTooSmall | QeFull | DoorbellOffsetOverflow | ControllerNotReady
| AdminDepthOutOfRange | QueueBaseMisaligned | IdentifyCompletionTimeout | QeControllerFatal.

Record AdminQueuePair := { qp_sq : SqRing; qp_cq : CqRing; qp_dstrd : Z; qp_qid : Z }.

Definition set_qp_sq (r : SqRing) (q : AdminQueuePair) : AdminQueuePair :=
  {| qp_sq := r; qp_cq := qp_cq q; qp_dstrd := qp_dstrd q; qp_qid := qp_qid q |}.

Definition new_for_qid (qid sq_depth cq_depth dstrd : Z) : result QueueError AdminQueuePair :=
  match sq_new sq_depth with
  | Err e => Err (QeRing e)
  | Ok sq => match cq_new cq_depth with
             | Err e => Err (QeRing e)
             | Ok cq => Ok {| qp_sq := sq; qp_cq := cq; qp_dstrd := dstrd; qp_qid := qid |}
             end
  end.

Section QueuePair.
Context {D : Type} `{Mmio D}.

(** [submit]: the answer, and the queue pair, the registers and the page after it. *)
Definition qp_submit (sqe : list Z) (q : AdminQueuePair) (mmio : D) (sq_page : list Z) : run (result QueueError Z * (AdminQueuePair * D * list Z)) :=
  if (length sq_page <? Z.to_nat (sq_capacity (qp_sq q)) * ADMIN_SQE_BYTES)%nat then Done (Err SqPageTooSmall, (q, mmio, sq_page)) else
  match sq_tail_doorbell_offset (qp_qid q) (qp_dstrd q) with
  | None => Done (Err DoorbellOffsetOverflow, (q, mmio, sq_page))
  | Some doorbell =>
      '(slot, sq) ← sq_submit (qp_sq q);
      match slot with
      | None => Done (Err QeFull, (set_qp_sq sq q, mmio, sq_page))
      | Some slot =>
          if (length sq_page <? Z.to_nat slot * ADMIN_SQE_BYTES + ADMIN_SQE_BYTES)%nat then Done (Err SqPageTooSmall, (set_qp_sq sq q, mmio, sq_page)) else
          Done (Ok slot, (set_qp_sq sq q, write_register doorbell (sq_tail sq) mmio, set_slot ADMIN_SQE_BYTES slot sqe sq_page))
      end
  end.

Definition record_head_observed (head : Z) (q : AdminQueuePair) : run AdminQueuePair :=
  sq ← sq_update_head head (qp_sq q); Done (set_qp_sq sq q).

Definition drain_completion (q : AdminQueuePair) (mmio : D) (cq_page : list Z) : run (result QueueError (option AdminCqeFields) * (AdminQueuePair * D)) :=
  if (length cq_page <? Z.to_nat (cqr_capacity (qp_cq q)) * ADMIN_CQE_BYTES)%nat then Done (Err CqPageTooSmall, (q, mmio)) else
  match cq_head_doorbell_offset (qp_qid q) (qp_dstrd q) with
  | None => Done (Err DoorbellOffsetOverflow, (q, mmio))
  | Some doorbell =>
      let slot := cqr_head (qp_cq q) in
      if (length cq_page <? Z.to_nat slot * ADMIN_CQE_BYTES + ADMIN_CQE_BYTES)%nat then Done (Err CqPageTooSmall, (q, mmio)) else
      '(taken, cq) ← cq_try_take (slot_bytes ADMIN_CQE_BYTES slot cq_page) (qp_cq q);
      let q' := {| qp_sq := qp_sq q; qp_cq := cq; qp_dstrd := qp_dstrd q; qp_qid := qp_qid q |} in
      match taken with
      | None => Done (Ok None, (q', mmio))
      | Some fields =>
          sq ← sq_update_head (cq_sq_head fields) (qp_sq q');
          Done (Ok (Some fields), (set_qp_sq sq q', write_register doorbell (cqr_head cq) mmio))
      end
  end.

(** ** Controller start-up *)

Fixpoint wait_for_csts (ready : bool) (poll_limit : nat) (mmio : D) : result QueueError unit * D :=
  match poll_limit with
  | O => (Err ControllerNotReady, mmio)
  | S n =>
      let '(csts, mmio) := read_register CSTS_OFFSET mmio in
      if negb (Z.land csts CSTS_CFS_BIT =? 0) then (Err QeControllerFatal, mmio) else
      if eqb (negb (Z.land csts CSTS_RDY_BIT =? 0)) ready then (Ok tt, mmio) else wait_for_csts ready n mmio
  end.

Definition check_controller_fatal (mmio : D) : bool * D :=
  let '(csts, mmio) := read_register CSTS_OFFSET mmio in (negb (Z.land csts CSTS_CFS_BIT =? 0), mmio).

(** [x & !CC_EN_BIT] on [u32]. *)
Definition clear_en (cc : Z) : Z := Z.land cc (Z.lxor CC_EN_BIT u32_max).

Definition disable_controller (poll_limit : nat) (mmio : D) : result QueueError Z * D :=
  let '(cc, mmio) := read_register CC_OFFSET mmio in
  let mmio := write_register CC_OFFSET (clear_en cc) mmio in
  let '(r, mmio) := wait_for_csts false poll_limit mmio in
  (match r with Ok _ => Ok cc | Err e => Err e end, mmio).

Definition MAX_ADMIN_QUEUE_DEPTH : Z := 4096.

Definition program_admin_queue_bases (asq_phys acq_phys sq_depth cq_depth : Z) (mmio : D) : result QueueError unit * D :=
  if negb ((1 <=? sq_depth) && (sq_depth <=? MAX_ADMIN_QUEUE_DEPTH)) || negb ((1 <=? cq_depth) && (cq_depth <=? MAX_ADMIN_QUEUE_DEPTH))
  then (Err AdminDepthOutOfRange, mmio) else
  if negb (Z.land asq_phys 4095 =? 0) || negb (Z.land acq_phys 4095 =? 0) then (Err QueueBaseMisaligned, mmio) else
  let aqa := Z.lor (Z.land (sq_depth - 1) 0xFFF) (Z.shiftl (Z.land (cq_depth - 1) 0xFFF) 16) in
  let mmio := write_register AQA_OFFSET aqa mmio in
  let mmio := write_register (ASQ_OFFSET + 4) (wrap32 (Z.shiftr asq_phys 32)) (write_register ASQ_OFFSET (wrap32 asq_phys) mmio) in
  let mmio := write_register (ACQ_OFFSET + 4) (wrap32 (Z.shiftr acq_phys 32)) (write_register ACQ_OFFSET (wrap32 acq_phys) mmio) in
  (Ok tt, mmio).

Definition program_cc_fields (mps_log2 iosqes_log2 iocqes_log2 : Z) (mmio : D) : result QueueError unit * D :=
  if (15 <? mps_log2) || (15 <? iosqes_log2) || (15 <? iocqes_log2) then (Err AdminDepthOutOfRange, mmio) else
  let cc := Z.lor (Z.lor (Z.shiftl mps_log2 CC_MPS_SHIFT) (Z.shiftl iosqes_log2 CC_IOSQES_SHIFT)) (Z.shiftl iocqes_log2 CC_IOCQES_SHIFT) in
  (Ok tt, write_register CC_OFFSET cc mmio).

Definition enable_controller (poll_limit : nat) (mmio : D) : result QueueError Z * D :=
  let '(cc, mmio) := read_register CC_OFFSET mmio in
  let cc_enabled := Z.lor cc CC_EN_BIT in
  let mmio := write_register CC_OFFSET cc_enabled mmio in
  let '(r, mmio) := wait_for_csts true poll_limit mmio in
  (match r with Ok _ => Ok cc_enabled | Err e => Err e end, mmio).
End QueuePair.

(** ** A controller

    What the NVMe specification promises of the other end: the doorbells hold
    the last value written; commands are fetched in order from the slots
    between the fetch position and the tail doorbell; a completion is posted
    for a fetched command, in any order, with the fetch position, the
    command's identifier and the phase of the lap, when the completion queue
    has room before the head doorbell. *)

Record Controller := {
  ct_qid : Z;
  ct_dstrd : Z;
  ct_sq_size : Z;
  ct_cq_size : Z;
  ct_sq_db : Z;
  ct_cq_db : Z;
  ct_head : Z;
  ct_tail : Z;
  ct_phase : bool;
  ct_busy : list (list Z);
  ct_fetched : list (list Z);
  ct_done : list (list Z);
  ct_posted : list AdminCqeFields;
  ct_heads : list Z;
}.

Definition set_doorbells (sq cq : Z) (c : Controller) : Controller :=
  {| ct_qid := ct_qid c; ct_dstrd := ct_dstrd c; ct_sq_size := ct_sq_size c; ct_cq_size := ct_cq_size c; ct_sq_db := sq; ct_cq_db := cq;
     ct_head := ct_head c; ct_tail := ct_tail c; ct_phase := ct_phase c; ct_busy := ct_busy c; ct_fetched := ct_fetched c; ct_done := ct_done c;
     ct_posted := ct_posted c; ct_heads := ct_heads c |}.

#[global] Instance controller_mmio : Mmio Controller := {
  read_register _ c := (0, c);
  write_register off v c :=
    if bool_decide (Some off = sq_tail_doorbell_offset (ct_qid c) (ct_dstrd c)) then set_doorbells v (ct_cq_db c) c else
    if bool_decide (Some off = cq_head_doorbell_offset (ct_qid c) (ct_dstrd c)) then set_doorbells (ct_sq_db c) v c else c;
}.

(** The command identifier of an entry. *)
Definition sqe_cid (sqe : list Z) : Z := from_le_bytes (take 2 (drop 2 sqe)).

(** Bytes of a completion entry. *)
Definition cqe_bytes (f : AdminCqeFields) : list Z :=
  to_le_bytes 4 (cq_cdw0 f) ++ [0; 0; 0; 0] ++ to_le_bytes 2 (cq_sq_head f) ++ to_le_bytes 2 (cq_sq_id f) ++ to_le_bytes 2 (cq_cid f) ++ to_le_bytes 2 (packed_status f).

(** What the controller chooses of a completion. *)
Record Outcome := { oc_cdw0 : Z; oc_sc : Z; oc_sct : Z; oc_more : bool; oc_dnr : bool }.

Definition outcome_ok (o : Outcome) : Prop := is_u32 (oc_cdw0 o) /\ is_u8 (oc_sc o) /\ 0 <= oc_sct o < 8.

Definition wrap_next (n i : Z) : Z := if i + 1 =? n then 0 else i + 1.

(** Queue pair, pages and controller, with the host's logs. *)
Record NvmeSys := {
  ny_qp : AdminQueuePair;
  ny_sq_page : list Z;
  ny_cq_page : list Z;
  ny_ctl : Controller;
  ny_submitted : list (list Z);
  ny_taken : list AdminCqeFields;
}.

Definition ctl_fetch (s : NvmeSys) : NvmeSys :=
  let c := ny_ctl s in
  if ct_head c =? ct_sq_db c then s else
  let sqe := slot_bytes ADMIN_SQE_BYTES (ct_head c) (ny_sq_page s) in
  {| ny_qp := ny_qp s; ny_sq_page := ny_sq_page s; ny_cq_page := ny_cq_page s; ny_submitted := ny_submitted s; ny_taken := ny_taken s;
     ny_ctl := {| ct_qid := ct_qid c; ct_dstrd := ct_dstrd c; ct_sq_size := ct_sq_size c; ct_cq_size := ct_cq_size c; ct_sq_db := ct_sq_db c; ct_cq_db := ct_cq_db c;
       ct_head := wrap_next (ct_sq_size c) (ct_head c); ct_tail := ct_tail c; ct_phase := ct_phase c; ct_busy := ct_busy c ++ [sqe];
       ct_fetched := ct_fetched c ++ [sqe]; ct_done := ct_done c; ct_posted := ct_posted c; ct_heads := ct_heads c |} |}.

Definition ctl_post (i : nat) (o : Outcome) (s : NvmeSys) : NvmeSys :=
  let c := ny_ctl s in
  match ct_busy c !! i with
  | None => s
  | Some sqe =>
      if wrap_next (ct_cq_size c) (ct_tail c) =? ct_cq_db c then s else
      let f := {| cq_cdw0 := oc_cdw0 o; cq_sq_head := ct_head c; cq_sq_id := ct_qid c; cq_cid := sqe_cid sqe; cq_phase := ct_phase c;
                  cq_sc := oc_sc o; cq_sct := oc_sct o; cq_more := oc_more o; cq_dnr := oc_dnr o |} in
      {| ny_qp := ny_qp s; ny_sq_page := ny_sq_page s; ny_cq_page := set_slot ADMIN_CQE_BYTES (ct_tail c) (cqe_bytes f) (ny_cq_page s);
         ny_submitted := ny_submitted s; ny_taken := ny_taken s;
         ny_ctl := {| ct_qid := ct_qid c; ct_dstrd := ct_dstrd c; ct_sq_size := ct_sq_size c; ct_cq_size := ct_cq_size c; ct_sq_db := ct_sq_db c; ct_cq_db := ct_cq_db c;
           ct_head := ct_head c; ct_tail := wrap_next (ct_cq_size c) (ct_tail c);
           ct_phase := if ct_tail c + 1 =? ct_cq_size c then negb (ct_phase c) else ct_phase c;
           ct_busy := take i (ct_busy c) ++ drop (S i) (ct_busy c); ct_fetched := ct_fetched c; ct_done := ct_done c ++ [sqe];
           ct_posted := ct_posted c ++ [f]; ct_heads := ct_heads c ++ [Z.of_nat (length (ct_fetched c))] |} |}
  end.

Inductive nvme_op := NSubmit (sqe : list Z) | NDrain | NFetch | NPost (i : nat) (o : Outcome).

Definition nvme_step (op : nvme_op) (s : NvmeSys) : run NvmeSys :=
  match op with
  | NSubmit sqe =>
      '(r, (qp, ctl, page)) ← qp_submit sqe (ny_qp s) (ny_ctl s) (ny_sq_page s);
      Done {| ny_qp := qp; ny_sq_page := page; ny_cq_page := ny_cq_page s; ny_ctl := ctl; ny_taken := ny_taken s;
              ny_submitted := match r with Ok _ => ny_submitted s ++ [sqe] | Err _ => ny_submitted s end |}
  | NDrain =>
      '(r, (qp, ctl)) ← drain_completion (ny_qp s) (ny_ctl s) (ny_cq_page s);
      Done {| ny_qp := qp; ny_sq_page := ny_sq_page s; ny_cq_page := ny_cq_page s; ny_ctl := ctl; ny_submitted := ny_submitted s;
              ny_taken := match r with Ok (Some f) => ny_taken s ++ [f] | _ => ny_taken s end |}
  | NFetch => Done (ctl_fetch s)
  | NPost i o => Done (ctl_post i o s)
  end.

Fixpoint nvme_run (ops : list nvme_op) (s : NvmeSys) : run NvmeSys :=
  match ops with [] => Done s | op :: ops => s ← nvme_step op s; nvme_run ops s end.

Definition nvme_op_ok (op : nvme_op) : Prop :=
  match op with NSubmit sqe => length sqe = ADMIN_SQE_BYTES /\ Forall is_u8 sqe | NPost _ o => outcome_ok o | _ => True end.

(** Zeroed pages, and a controller whose queues have the sizes of the rings. *)
Definition nvme_init (qp : AdminQueuePair) : NvmeSys :=
  let n := sq_capacity (qp_sq qp) in let m := cqr_capacity (qp_cq qp) in
  {| ny_qp := qp; ny_sq_page := replicate (Z.to_nat n * ADMIN_SQE_BYTES) 0; ny_cq_page := replicate (Z.to_nat m * ADMIN_CQE_BYTES) 0;
     ny_submitted := []; ny_taken := [];
     ny_ctl := {| ct_qid := qp_qid qp; ct_dstrd := qp_dstrd qp; ct_sq_size := n; ct_cq_size := m; ct_sq_db := 0; ct_cq_db := 0; ct_head := 0; ct_tail := 0;
       ct_phase := true; ct_busy := []; ct_fetched := []; ct_done := []; ct_posted := []; ct_heads := [] |} |}.

(** The number of commands the controller is known to have fetched. *)
Definition acknowledged (s : NvmeSys) : Z := match length (ny_taken s) with O => 0 | S t => default 0 (ct_heads (ny_ctl s) !! t) end.

(** ** Invariant *)

Record nvme_inv (n m qid dstrd : Z) (s : NvmeSys) : Prop := {
  nv_ids : qp_qid (ny_qp s) = qid /\ qp_dstrd (ny_qp s) = dstrd /\ ct_qid (ny_ctl s) = qid /\ ct_dstrd (ny_ctl s) = dstrd;
  nv_sizes : sq_capacity (qp_sq (ny_qp s)) = n /\ cqr_capacity (qp_cq (ny_qp s)) = m /\ ct_sq_size (ny_ctl s) = n /\ ct_cq_size (ny_ctl s) = m;
  nv_pages : length (ny_sq_page s) = (Z.to_nat n * ADMIN_SQE_BYTES)%nat /\ length (ny_cq_page s) = (Z.to_nat m * ADMIN_CQE_BYTES)%nat;
  nv_sq : let S := Z.of_nat (length (ny_submitted s)) in let F := Z.of_nat (length (ct_fetched (ny_ctl s))) in
    sq_tail (qp_sq (ny_qp s)) = S mod n /\ ct_sq_db (ny_ctl s) = S mod n /\ ct_head (ny_ctl s) = F mod n /\
    sq_head_observed (qp_sq (ny_qp s)) = acknowledged s mod n /\ 0 <= acknowledged s <= F /\ F <= S <= acknowledged s + n - 1;
  nv_cq : let P := Z.of_nat (length (ct_posted (ny_ctl s))) in let T := Z.of_nat (length (ny_taken s)) in
    cqr_head (qp_cq (ny_qp s)) = T mod m /\ ct_cq_db (ny_ctl s) = T mod m /\ ct_tail (ny_ctl s) = P mod m /\
    cqr_phase (qp_cq (ny_qp s)) = lap_phase m T /\ ct_phase (ny_ctl s) = lap_phase m P /\ T <= P <= T + m - 1;
  nv_fetched : ct_fetched (ny_ctl s) = take (length (ct_fetched (ny_ctl s))) (ny_submitted s);
  nv_taken : ny_taken s = take (length (ny_taken s)) (ct_posted (ny_ctl s));
  nv_slots : forall k sqe, ny_submitted s !! k = Some sqe -> (length (ct_fetched (ny_ctl s)) <= k)%nat ->
    slot_bytes ADMIN_SQE_BYTES (Z.of_nat k mod n) (ny_sq_page s) = sqe;
  nv_posted : forall k f, ct_posted (ny_ctl s) !! k = Some f -> cq_phase f = lap_phase m (Z.of_nat k) /\
    (Z.of_nat (length (ct_posted (ny_ctl s))) - m <= Z.of_nat k -> slot_bytes ADMIN_CQE_BYTES (Z.of_nat k mod m) (ny_cq_page s) = cqe_bytes f);
  nv_fresh : forall j, Z.of_nat (length (ct_posted (ny_ctl s))) <= j < m -> slot_bytes ADMIN_CQE_BYTES j (ny_cq_page s) = replicate ADMIN_CQE_BYTES 0;
  nv_heads : Forall2 (fun h f => cq_sq_head f = h mod n) (ct_heads (ny_ctl s)) (ct_posted (ny_ctl s)) /\
    (forall k h, ct_heads (ny_ctl s) !! k = Some h -> 0 <= h <= Z.of_nat (length (ct_fetched (ny_ctl s)))) /\
    (forall i j a b, (i <= j)%nat -> ct_heads (ny_ctl s) !! i = Some a -> ct_heads (ny_ctl s) !! j = Some b -> a <= b);
  nv_done : Forall2 (fun f sqe => cq_cid f = sqe_cid sqe) (ct_posted (ny_ctl s)) (ct_done (ny_ctl s)) /\
    ct_fetched (ny_ctl s) ≡ₚ ct_busy (ny_ctl s) ++ ct_done (ny_ctl s);
  nv_fields : Forall (fun f => parse_admin_cqe (cqe_bytes f) = f) (ct_posted (ny_ctl s)) /\ Forall (fun sqe => length sqe = ADMIN_SQE_BYTES /\ Forall is_u8 sqe) (ny_submitted s);
}.

(** ** Lemmas *)

Lemma from_le_bytes_app a b : from_le_bytes (a ++ b) = from_le_bytes a + 2 ^ (8 * Z.of_nat (length a)) * from_le_bytes b.
Proof.
  induction a as [|x a IH]; [cbn; lia|]. cbn [app from_le_bytes length]. rewrite IH.
  replace (8 * Z.of_nat (S (length a))) with (8 + 8 * Z.of_nat (length a)) by lia. rewrite Z.pow_add_r by lia. change (2 ^ 8) with 256. ring.
Qed.

(** Two 16-bit halves of a word. *)
Lemma half_words a b : is_u16 a -> is_u16 b ->
  let w := from_le_bytes (to_le_bytes 2 a ++ to_le_bytes 2 b) in Z.land w 0xFFFF = a /\ Z.land (Z.shiftr w 16) 0xFFFF = b.
Proof.
  intros Ha Hb w. unfold is_u16 in *. assert (w = a + 65536 * b) as ->.
  { unfold w. rewrite from_le_bytes_app, to_le_bytes_length, !from_to_le_bytes. change (8 * Z.of_nat 2) with 16. by rewrite !Z.mod_small by lia. }
  change 0xFFFF with (2 ^ 16 - 1). rewrite !land_ones_mod, Z.shiftr_div_pow2 by lia. change (2 ^ 16) with 65536 in *.
  replace (a + 65536 * b) with (a + b * 65536) by lia. rewrite Z.mod_add, Z.div_add, (Z.div_small a) by lia.
  by rewrite Z.add_0_l, !Z.mod_small by lia.
Qed.

(** The status word, checked field by field on all its values. *)
Definition status_exact (f : AdminCqeFields) : bool :=
  let w := packed_status f in
  (0 <=? w) && (w <? 65536) && eqb (negb (Z.land w 1 =? 0)) (cq_phase f) && (Z.land (Z.shiftr w 1) 0xFF =? cq_sc f) && (Z.land (Z.shiftr w 9) 7 =? cq_sct f) &&
  eqb (negb (Z.land w (Z.shiftl 1 14) =? 0)) (cq_more f) && eqb (negb (Z.land w (Z.shiftl 1 15) =? 0)) (cq_dnr f).

Definition status_of (phase more dnr : bool) (sc sct : nat) : AdminCqeFields :=
  {| cq_cdw0 := 0; cq_sq_head := 0; cq_sq_id := 0; cq_cid := 0; cq_phase := phase; cq_sc := Z.of_nat sc; cq_sct := Z.of_nat sct; cq_more := more; cq_dnr := dnr |}.

Lemma status_all : forallb (fun sc => forallb (fun sct => forallb (fun phase => forallb (fun more => forallb (fun dnr =>
  status_exact (status_of phase more dnr sc sct)) [false; true]) [false; true]) [false; true]) (seq 0 8)) (seq 0 256) = true.
Proof. vm_compute. reflexivity. Qed.

Lemma status_exact_ok f : is_u8 (cq_sc f) -> 0 <= cq_sct f < 8 -> status_exact f = true.
Proof.
  intros Hsc Hsct. unfold is_u8 in Hsc. pose proof status_all as H. rewrite forallb_forall in H.
  specialize (H (Z.to_nat (cq_sc f)) ltac:(apply in_seq; lia)). rewrite forallb_forall in H.
  specialize (H (Z.to_nat (cq_sct f)) ltac:(apply in_seq; lia)). rewrite forallb_forall in H.
  assert (forall b, List.In b [false; true]) as Hb by (intros []; cbn; auto). specialize (H (cq_phase f) (Hb _)). rewrite forallb_forall in H.
  specialize (H (cq_more f) (Hb _)). rewrite forallb_forall in H. specialize (H (cq_dnr f) (Hb _)).
  unfold status_of in H. rewrite !Z2Nat.id in H by lia. exact H.
Qed.

Definition cqe_fields_ok (f : AdminCqeFields) : Prop :=
  is_u32 (cq_cdw0 f) /\ is_u16 (cq_sq_head f) /\ is_u16 (cq_sq_id f) /\ is_u16 (cq_cid f) /\ is_u8 (cq_sc f) /\ 0 <= cq_sct f < 8.

Lemma parse_cqe_bytes f : cqe_fields_ok f -> parse_admin_cqe (cqe_bytes f) = f.
Proof.
  intros (H0 & H1 & H2 & H3 & H4 & H5). pose proof (status_exact_ok f H4 H5) as Hs. unfold status_exact in Hs.
  rewrite !andb_true_iff, !eqb_true_iff, !Z.eqb_eq, Z.leb_le, Z.ltb_lt in Hs. destruct Hs as ((((((W0 & W1) & Ph) & Sc) & Sct) & Mo) & Dn).
  destruct (half_words (cq_sq_head f) (cq_sq_id f) H1 H2) as [A1 A2]. destruct (half_words (cq_cid f) (packed_status f) H3 ltac:(split; lia)) as [B1 B2].
  unfold parse_admin_cqe. change (read_dw_at (cqe_bytes f) 8) with (from_le_bytes (to_le_bytes 2 (cq_sq_head f) ++ to_le_bytes 2 (cq_sq_id f))).
  change (read_dw_at (cqe_bytes f) 12) with (from_le_bytes (to_le_bytes 2 (cq_cid f) ++ to_le_bytes 2 (packed_status f))).
  change (read_dw_at (cqe_bytes f) 0) with (from_le_bytes (to_le_bytes 4 (cq_cdw0 f))).
  cbv zeta. rewrite A1, A2, B1, B2, Ph, Sc, Sct, Mo, Dn, from_to_le_bytes. unfold is_u32 in H0. change (8 * Z.of_nat 4) with 32. rewrite Z.mod_small by lia.
  by destruct f.
Qed.

Lemma cqe_bytes_length f : length (cqe_bytes f) = ADMIN_CQE_BYTES.
Proof. reflexivity. Qed.

Lemma sqe_cid_u16 sqe : Forall is_u8 sqe -> is_u16 (sqe_cid sqe).
Proof.
  intros H. unfold sqe_cid, is_u16. pose proof (from_le_bytes_bound (take 2 (drop 2 sqe)) ltac:(by apply Forall_take, Forall_drop)) as Hb.
  assert (2 ^ (8 * Z.of_nat (length (take 2 (drop 2 sqe)))) <= 2 ^ 16) by (apply Z.pow_le_mono_r; [lia|]; rewrite length_take; lia). lia.
Qed.

Lemma doorbells_done qid dstrd : is_u16 qid -> 0 <= dstrd < 16 ->
  sq_tail_doorbell_offset qid dstrd = Some (qid * 2 * (4 * 2 ^ dstrd) + 0x1000) /\
  cq_head_doorbell_offset qid dstrd = Some ((qid * 2 + 1) * (4 * 2 ^ dstrd) + 0x1000).
Proof.
  unfold is_u16. intros Hq Hd. assert (1 <= 2 ^ dstrd <= 2 ^ 15) as Hp by (split; [apply (Z.pow_le_mono_r 2 0); lia|apply Z.pow_le_mono_r; lia]).
  unfold sq_tail_doorbell_offset, cq_head_doorbell_offset, doorbell_stride, checked_mul64, checked_add64, wrap64. rewrite (proj2 (Z.ltb_lt dstrd 64)) by lia.
  rewrite Z.shiftl_mul_pow2 by lia. rewrite Z.mod_small by lia. cbn [mbind option_bind]. unfold DOORBELL_ARRAY_OFFSET.
  split; repeat (rewrite (proj2 (Z.ltb_lt _ _)) by nia; cbn [mbind option_bind]); done.
Qed.

Lemma doorbell_writes c v off : is_u16 (ct_qid c) -> 0 <= ct_dstrd c < 16 ->
  (sq_tail_doorbell_offset (ct_qid c) (ct_dstrd c) = Some off -> write_register off v c = set_doorbells v (ct_cq_db c) c) /\
  (cq_head_doorbell_offset (ct_qid c) (ct_dstrd c) = Some off -> write_register off v c = set_doorbells (ct_sq_db c) v c).
Proof.
  intros Hq Hd. destruct (doorbells_done _ _ Hq Hd) as [E1 E2]. cbn [write_register controller_mmio]. rewrite E1, E2.
  assert (1 <= 2 ^ ct_dstrd c) by (apply (Z.pow_le_mono_r 2 0); lia).
  split; intros [= <-]; [by rewrite bool_decide_true|]. rewrite bool_decide_false by (intros [= E]; lia). by rewrite bool_decide_true.
Qed.

Lemma wrap_next_mod n k : 0 < n -> wrap_next n (k mod n) = (k + 1) mod n.
Proof.
  intros Hn. unfold wrap_next. pose proof (Z.mod_pos_bound k n ltac:(lia)). rewrite <- (Z.add_mod_idemp_l k 1) by lia.
  destruct (Z.eqb_spec (k mod n + 1) n) as [->|E]; [by rewrite Z.mod_same by lia|]. by rewrite (Z.mod_small (k mod n + 1)) by lia.
Qed.

Lemma take_snoc_prefix {A} (l k : list A) x : l = take (length l) k -> k !! length l = Some x -> l ++ [x] = take (length (l ++ [x])) k.
Proof. intros Hl Hx. rewrite length_app, Nat.add_1_r, (take_S_r _ _ _ Hx). by f_equal. Qed.

Lemma prefix_grow {A} (l k : list A) x : l = take (length l) k -> l = take (length l) (k ++ [x]).
Proof.
  intros Hl. destruct (Nat.le_gt_cases (length l) (length k)) as [H|H]; [by rewrite take_app_le|].
  rewrite Hl in H. rewrite length_take in H. lia.
Qed.

Lemma acknowledged_same s s' : ny_taken s' = ny_taken s -> (exists l, ct_heads (ny_ctl s') = ct_heads (ny_ctl s) ++ l) ->
  (length (ny_taken s) <= length (ct_heads (ny_ctl s)))%nat -> acknowledged s' = acknowledged s.
Proof.
  intros Et [l Eh] Hl. unfold acknowledged. rewrite Et, Eh. destruct (length (ny_taken s)) as [|t]; [done|]. by rewrite lookup_app_l by lia.
Qed.

Section Preservation.
Context (n m qid dstrd : Z) (Hn : 0 < n < 2 ^ 16) (Hm : 0 < m < 2 ^ 16) (Hqid : is_u16 qid) (Hdstrd : 0 <= dstrd < 16).

Lemma fetch_inv s : nvme_inv n m qid dstrd s -> nvme_inv n m qid dstrd (ctl_fetch s).
Proof.
  intros H. unfold ctl_fetch. destruct (Z.eqb_spec (ct_head (ny_ctl s)) (ct_sq_db (ny_ctl s))) as [E|E]; [done|].
  destruct H as [Hid (Z1 & Z2 & Z3 & Z4) Hpg (S1 & S2 & S3 & S4 & S5 & S6) Hcq Hf Ht Hs Hp Hfr (Hh1 & Hh2 & Hh3) (Hd1 & Hd2) (Hok1 & Hok2)].
  rewrite S2, S3 in E. set (F := length (ct_fetched (ny_ctl s))) in *. set (S := length (ny_submitted s)) in *.
  assert (F < S)%nat as HFS by (destruct (decide (F = S)) as [E'|]; [rewrite E' in E; done|lia]).
  destruct (lookup_lt_is_Some_2 (ny_submitted s) F HFS) as [sqe Hsqe]. rewrite S3, (Hs F sqe Hsqe) by done.
  split; cbn [ny_qp ny_sq_page ny_cq_page ny_ctl ny_submitted ny_taken ct_qid ct_dstrd ct_sq_size ct_cq_size ct_sq_db ct_cq_db ct_head ct_tail ct_phase ct_busy ct_fetched ct_done ct_posted ct_heads]; try done.
  - rewrite length_app, Nat2Z.inj_add. cbn [length]. change (Z.of_nat 1) with 1. rewrite Z3, wrap_next_mod by lia.
    unfold acknowledged in *. cbn [ny_taken ny_ctl ct_heads]. fold F S. split_and!; try done; lia.
  - by apply take_snoc_prefix.
  - intros k x Hk Hl. rewrite length_app in Hl. cbn in Hl. apply Hs; [done|fold F; lia].
  - split; [done|]. split; [|done]. intros k h Hk. rewrite length_app, Nat2Z.inj_add. specialize (Hh2 k h Hk). fold F. lia.
  - split; [done|]. rewrite <- app_assoc, (Permutation_app_comm [sqe]). rewrite Hd2. by rewrite app_assoc.
Qed.

Lemma post_inv i o s : outcome_ok o -> nvme_inv n m qid dstrd s -> nvme_inv n m qid dstrd (ctl_post i o s).
Proof.
  intros (Ho1 & Ho2 & Ho3) H. unfold ctl_post. destruct (ct_busy (ny_ctl s) !! i) as [sqe|] eqn:Eb; [|done].
  destruct (Z.eqb_spec (wrap_next (ct_cq_size (ny_ctl s)) (ct_tail (ny_ctl s))) (ct_cq_db (ny_ctl s))) as [E|E]; [done|].
  destruct H as [(I1 & I2 & I3 & I4) (Z1 & Z2 & Z3 & Z4) (P1 & P2) (S1 & S2 & S3 & S4 & S5 & S6) (C1 & C2 & C3 & C4 & C5 & C6) Hf Ht Hs Hp Hfr (Hh1 & Hh2 & Hh3) (Hd1 & Hd2) (Hok1 & Hok2)].
  set (F := length (ct_fetched (ny_ctl s))) in *. set (P := length (ct_posted (ny_ctl s))) in *. set (T := length (ny_taken s)) in *.
  rewrite Z4, C3, wrap_next_mod, C2 in E by lia.
  assert (Z.of_nat P + 1 < Z.of_nat T + m) as Hroom.
  { destruct (Z.eq_dec (Z.of_nat P + 1) (Z.of_nat T + m)) as [E'|]; [|lia]. rewrite E' in E. replace (Z.of_nat T + m) with (Z.of_nat T + 1 * m) in E by lia.
    by rewrite Z.mod_add in E by lia. }
  assert (Forall is_u8 sqe) as Hu8.
  { assert (sqe ∈ ct_fetched (ny_ctl s)) as Hin by (rewrite Hd2; apply elem_of_app; left; by eapply list_elem_of_lookup_2).
    rewrite Hf in Hin. apply elem_of_take in Hin as (j & Hj & _). rewrite Forall_lookup in Hok2. apply (Hok2 j sqe Hj). }
  set (f := {| cq_cdw0 := oc_cdw0 o; cq_sq_head := ct_head (ny_ctl s) |}).
  assert (parse_admin_cqe (cqe_bytes f) = f) as Hparse.
  { apply parse_cqe_bytes. unfold f, cqe_fields_ok. cbn. split; [done|]. pose proof (Z.mod_pos_bound (Z.of_nat F) n ltac:(lia)).
    split; [rewrite S3; unfold is_u16; lia|]. split; [by rewrite I3|]. split; [by apply sqe_cid_u16|done]. }
  pose proof (Z.mod_pos_bound (Z.of_nat P) m ltac:(lia)) as Hpm.
  assert (Z.to_nat (ct_tail (ny_ctl s)) * ADMIN_CQE_BYTES + ADMIN_CQE_BYTES <= length (ny_cq_page s))%nat as Hin.
  { apply (slot_within _ _ m); [rewrite C3; lia|by rewrite P2]. }
  assert (length (ct_heads (ny_ctl s)) = P) as HhP by (by eapply Forall2_length).
  split; cbn [ny_qp ny_sq_page ny_cq_page ny_ctl ny_submitted ny_taken ct_qid ct_dstrd ct_sq_size ct_cq_size ct_sq_db ct_cq_db ct_head ct_tail ct_phase ct_busy ct_fetched ct_done ct_posted ct_heads]; try done.
  - split; [done|]. by rewrite set_slot_length.
  - rewrite !(acknowledged_same s); [fold F; split_and!; (done || lia)|done|by eexists|]. rewrite HhP. fold T. lia.
  - rewrite length_app, Nat2Z.inj_add. cbn [length]. change (Z.of_nat 1) with 1. fold P T. rewrite Z4, C3, wrap_next_mod by lia.
    rewrite C5, lap_phase_next by lia. split_and!; try done; lia.
  - by apply prefix_grow.
  - intros k g Hk. rewrite length_app, Nat2Z.inj_add. cbn [length]. change (Z.of_nat 1) with 1. fold P. rewrite C3.
    destruct (decide (k = P)) as [->|Hne].
    + rewrite lookup_app_r in Hk by done. fold P in Hk. rewrite Nat.sub_diag in Hk. injection Hk as <-. split; [by rewrite <- C5|].
      intros _. apply slot_set_same; [done|by rewrite <- C3].
    + assert (k < P)%nat as HkP by (apply lookup_lt_Some in Hk; rewrite length_app in Hk; cbn in Hk; fold P in Hk; lia).
      rewrite lookup_app_l in Hk by done. destruct (Hp k g Hk) as [Hph Hslot]. split; [done|]. intros Hw.
      rewrite slot_set_other; [apply Hslot; lia|done|by rewrite <- C3|lia|apply Z.mod_pos_bound; lia|].
      intros Eq. symmetry in Eq. revert Eq. apply mod_distinct; lia.
  - intros j Hj. rewrite length_app, Nat2Z.inj_add in Hj. cbn [length] in Hj. change (Z.of_nat 1) with 1 in Hj. fold P in Hj. rewrite C3.
    rewrite slot_set_other; [apply Hfr; fold P; lia|done|by rewrite <- C3|lia|lia|]. rewrite Z.mod_small by lia. lia.
  - split; [|split].
    + apply Forall2_app; [done|]. constructor; [|constructor]. cbn. rewrite S3. done.
    + intros k h Hk. apply lookup_app_Some in Hk as [Hk|[_ Hk]]; [by apply (Hh2 k)|]. apply list_lookup_singleton_Some in Hk as [_ <-]. fold F. lia.
    + intros a b x y Hab Ha Hb. apply lookup_app_Some in Ha as [Ha|[Ha1 Ha]]; apply lookup_app_Some in Hb as [Hb|[Hb1 Hb]].
      * by apply (Hh3 a b).
      * apply list_lookup_singleton_Some in Hb as [_ <-]. specialize (Hh2 a x Ha). fold F in Hh2 |- *. lia.
      * apply lookup_lt_Some in Hb. lia.
      * apply list_lookup_singleton_Some in Ha as [_ <-]. apply list_lookup_singleton_Some in Hb as [_ <-]. done.
  - split; [apply Forall2_app; [done|]; constructor; [done|constructor]|].
    rewrite Hd2. rewrite <- (take_drop_middle (ct_busy (ny_ctl s)) i sqe Eb) at 1. rewrite <- !app_assoc. apply Permutation_app_head.
    cbn [app]. rewrite Permutation_middle. apply Permutation_app_head. rewrite (Permutation_app_comm (ct_done (ny_ctl s))). done.
  - split; [|done]. apply Forall_app. split; [done|]. by apply Forall_singleton.
Qed.

Definition outstanding (s : NvmeSys) : Z := Z.of_nat (length (ny_submitted s)) - acknowledged s.

Definition submitted_sq (s : NvmeSys) : SqRing :=
  {| sq_capacity := n; sq_tail := (Z.of_nat (length (ny_submitted s)) + 1) mod n; sq_head_observed := sq_head_observed (qp_sq (ny_qp s)) |}.

Lemma qp_submit_spec s sqe : nvme_inv n m qid dstrd s ->
  qp_submit sqe (ny_qp s) (ny_ctl s) (ny_sq_page s) =
  Done (if decide (outstanding s = n - 1) then (Err QeFull, (ny_qp s, ny_ctl s, ny_sq_page s))
        else (Ok (Z.of_nat (length (ny_submitted s)) mod n),
              (set_qp_sq (submitted_sq s) (ny_qp s), set_doorbells ((Z.of_nat (length (ny_submitted s)) + 1) mod n) (ct_cq_db (ny_ctl s)) (ny_ctl s),
               set_slot ADMIN_SQE_BYTES (Z.of_nat (length (ny_submitted s)) mod n) sqe (ny_sq_page s)))).
Proof.
  intros [(I1 & I2 & I3 & I4) (Z1 & Z2 & Z3 & Z4) (P1 & P2) (S1 & S2 & S3 & S4 & S5 & S6) _ _ _ _ _ _ _ _ _].
  unfold qp_submit. rewrite Z1, P1. rewrite (proj2 (Nat.ltb_ge _ _)) by done. rewrite I1, I2. destruct (doorbells_done qid dstrd Hqid Hdstrd) as [Edb _]. rewrite Edb.
  unfold sq_submit, sq_is_full. rewrite Z1, S1, next_slot_done by done. cbn [mbind run_bind]. rewrite S4. unfold outstanding.
  set (S := Z.of_nat (length (ny_submitted s))) in *. destruct (Z.eqb_spec ((S + 1) mod n) (acknowledged s mod n)) as [E|E].
  - assert (S - acknowledged s = n - 1) as Hfull.
    { destruct (Z.eq_dec (S + 1) (acknowledged s + n)) as [|Hne]; [lia|]. exfalso. symmetry in E. revert E. apply mod_distinct; lia. }
    rewrite decide_True by done. cbn [mbind run_bind]. unfold set_qp_sq. by destruct (ny_qp s).
  - assert (S - acknowledged s <> n - 1) as Hroom.
    { intros Hfull. apply E. replace (S + 1) with (acknowledged s + 1 * n) by lia. by rewrite Z.mod_add by lia. }
    rewrite decide_False by done. cbn [mbind run_bind]. cbn [sq_tail].
    pose proof (Z.mod_pos_bound S n ltac:(lia)). rewrite (proj2 (Nat.ltb_ge _ _)).
    2:{ transitivity (length (ny_sq_page s)); [|by rewrite P1]. apply (slot_within _ _ n); [done|by rewrite P1]. }
    destruct (doorbell_writes (ny_ctl s) ((S + 1) mod n) (qid * 2 * (4 * 2 ^ dstrd) + 4096)) as [W _]; [by rewrite I3|by rewrite I4|].
    rewrite W by (by rewrite I3, I4, Edb). unfold submitted_sq. by rewrite S4.
Qed.

Lemma submit_inv s sqe s' : nvme_inv n m qid dstrd s -> length sqe = ADMIN_SQE_BYTES -> Forall is_u8 sqe -> nvme_step (NSubmit sqe) s = Done s' -> nvme_inv n m qid dstrd s'.
Proof.
  intros H Hl Hu E. cbn [nvme_step] in E. rewrite (qp_submit_spec s sqe H) in E. cbn [mbind run_bind] in E.
  destruct (decide (outstanding s = n - 1)) as [Hf|Hf]; injection E as <-; [by destruct s|]. unfold outstanding in Hf.
  destruct H as [(I1 & I2 & I3 & I4) (Z1 & Z2 & Z3 & Z4) (P1 & P2) (S1 & S2 & S3 & S4 & S5 & S6) (C1 & C2 & C3 & C4 & C5 & C6) Hf' Ht Hs Hp Hfr Hh Hd (Hok1 & Hok2)].
  set (F := length (ct_fetched (ny_ctl s))) in *. set (S := length (ny_submitted s)) in *. pose proof (Z.mod_pos_bound (Z.of_nat S) n ltac:(lia)) as HSn.
  assert (Z.to_nat (Z.of_nat S mod n) * ADMIN_SQE_BYTES + ADMIN_SQE_BYTES <= length (ny_sq_page s))%nat as Hin by (apply (slot_within _ _ n); [done|by rewrite P1]).
  split; cbn [ny_qp ny_sq_page ny_cq_page ny_ctl ny_submitted ny_taken ct_qid ct_dstrd ct_sq_size ct_cq_size ct_sq_db ct_cq_db ct_head ct_tail ct_phase ct_busy ct_fetched ct_done ct_posted ct_heads set_doorbells set_qp_sq qp_qid qp_dstrd qp_sq qp_cq sq_capacity sq_tail sq_head_observed submitted_sq]; try done.
  - split; [by rewrite set_slot_length|done].
  - rewrite length_app, Nat2Z.inj_add. cbn [length]. change (Z.of_nat 1) with 1. fold F S.
    change (acknowledged _) with (acknowledged s). split_and!; (done || lia).
  - by apply prefix_grow.
  - intros k x Hk HFk. fold F in HFk. destruct (decide (k = S)) as [->|Hne].
    + rewrite lookup_app_r in Hk by done. fold S in Hk. rewrite Nat.sub_diag in Hk. injection Hk as <-. by apply slot_set_same.
    + assert (k < S)%nat as HkS by (apply lookup_lt_Some in Hk; rewrite length_app in Hk; cbn in Hk; fold S in Hk; lia).
      rewrite lookup_app_l in Hk by done. rewrite slot_set_other; [by apply Hs|done|done|lia|apply Z.mod_pos_bound; lia|].
      intros Eq. symmetry in Eq. revert Eq. apply mod_distinct; lia.
  - split; [done|]. apply Forall_app. split; [done|]. by apply Forall_singleton.
Qed.

Lemma zero_phase : cq_phase (parse_admin_cqe (replicate ADMIN_CQE_BYTES 0)) = false.
Proof. reflexivity. Qed.

(** What the slot at the head holds: the next completion, or an entry of the lap before. *)
Lemma head_slot s : nvme_inv n m qid dstrd s ->
  let cqe := slot_bytes ADMIN_CQE_BYTES (Z.of_nat (length (ny_taken s)) mod m) (ny_cq_page s) in
  match ct_posted (ny_ctl s) !! length (ny_taken s) with
  | Some f => parse_admin_cqe cqe = f /\ cq_phase f = lap_phase m (Z.of_nat (length (ny_taken s)))
  | None => cq_phase (parse_admin_cqe cqe) = negb (lap_phase m (Z.of_nat (length (ny_taken s))))
  end.
Proof.
  intros [_ _ _ _ (C1 & C2 & C3 & C4 & C5 & C6) _ _ _ Hp Hfr _ _ (Hok & _)] cqe. set (T := length (ny_taken s)) in *. set (P := length (ct_posted (ny_ctl s))) in *.
  destruct (ct_posted (ny_ctl s) !! T) as [f|] eqn:Ef.
  - destruct (Hp T f Ef) as [Hph Hs]. split; [|done]. unfold cqe. rewrite Hs by (fold P; lia). rewrite Forall_lookup in Hok. by apply (Hok T).
  - apply lookup_ge_None in Ef. fold P in Ef. assert (P = T) as EPT by lia. unfold cqe. rewrite <- EPT. destruct (Z.lt_ge_cases (Z.of_nat P) m) as [Hlt|Hge].
    + rewrite Z.mod_small by lia. rewrite Hfr by lia. rewrite zero_phase. unfold lap_phase. by rewrite Z.div_small by lia.
    + destruct (lookup_lt_is_Some_2 (ct_posted (ny_ctl s)) (Z.to_nat (Z.of_nat P - m))) as [g Hg]; [fold P; lia|].
      destruct (Hp _ g Hg) as [Hph Hs]. rewrite Z2Nat.id in Hph, Hs by lia. fold P in Hs.
      replace ((Z.of_nat P - m) mod m) with (Z.of_nat P mod m) in Hs by (rewrite <- (Z.mod_add (Z.of_nat P - m) 1 m) by lia; f_equal; lia).
      rewrite Hs by lia. rewrite Forall_lookup in Hok. rewrite (Hok _ g Hg), Hph. apply lap_phase_back. lia.
Qed.

Definition taken_qp (s : NvmeSys) (f : AdminCqeFields) : AdminQueuePair :=
  {| qp_sq := {| sq_capacity := n; sq_tail := sq_tail (qp_sq (ny_qp s)); sq_head_observed := cq_sq_head f mod n |};
     qp_cq := {| cqr_capacity := m; cqr_head := (Z.of_nat (length (ny_taken s)) + 1) mod m; cqr_phase := lap_phase m (Z.of_nat (length (ny_taken s)) + 1) |};
     qp_dstrd := dstrd; qp_qid := qid |}.

Lemma drain_spec s : nvme_inv n m qid dstrd s ->
  drain_completion (ny_qp s) (ny_ctl s) (ny_cq_page s) =
  Done (match ct_posted (ny_ctl s) !! length (ny_taken s) with
        | None => (Ok None, (ny_qp s, ny_ctl s))
        | Some f => (Ok (Some f), (taken_qp s f, set_doorbells (ct_sq_db (ny_ctl s)) ((Z.of_nat (length (ny_taken s)) + 1) mod m) (ny_ctl s)))
        end).
Proof.
  intros H. pose proof (head_slot s H) as Hslot. cbv zeta in Hslot.
  destruct H as [(I1 & I2 & I3 & I4) (Z1 & Z2 & Z3 & Z4) (P1 & P2) (S1 & S2 & S3 & S4 & S5 & S6) (C1 & C2 & C3 & C4 & C5 & C6) _ _ _ _ _ _ _ _].
  set (T := Z.of_nat (length (ny_taken s))) in *. pose proof (Z.mod_pos_bound T m ltac:(lia)) as HTm.
  unfold drain_completion. rewrite Z2, P2, (proj2 (Nat.ltb_ge _ _)) by done. rewrite I1, I2. destruct (doorbells_done qid dstrd Hqid Hdstrd) as [_ Edb]. rewrite Edb.
  rewrite C1, (proj2 (Nat.ltb_ge _ _)).
  2:{ transitivity (length (ny_cq_page s)); [|by rewrite P2]. apply (slot_within _ _ m); [done|by rewrite P2]. }
  unfold cq_try_take. rewrite C1, C4, Z2. destruct (ct_posted (ny_ctl s) !! length (ny_taken s)) as [f|].
  - destruct Hslot as [-> ->]. rewrite eqb_reflx. cbn [negb]. unfold add16. rewrite (proj2 (Z.ltb_lt _ _)) by lia. cbn [mbind run_bind qp_sq].
    unfold sq_update_head. rewrite Z1. rewrite (proj2 (Z.eqb_neq n 0)) by lia. cbn [mbind run_bind].
    destruct (doorbell_writes (ny_ctl s) ((T + 1) mod m) ((qid * 2 + 1) * (4 * 2 ^ dstrd) + 4096)) as [_ W]; [by rewrite I3|by rewrite I4|].
    specialize (W ltac:(by rewrite I3, I4, Edb)). pose proof (lap_phase_next m T ltac:(lia)) as Hlap. pose proof (wrap_next_mod m T ltac:(lia)) as Hw. unfold wrap_next in Hw.
    unfold taken_qp, set_qp_sq. cbn [qp_cq qp_dstrd qp_qid]. fold T. rewrite <- W, <- Hw, Hlap. by destruct (T mod m + 1 =? m).
  - rewrite Hslot. destruct (lap_phase m T); cbn [negb eqb mbind run_bind]; rewrite <- I1, <- I2; by destruct (ny_qp s).
Qed.

Lemma drain_inv s s' : nvme_inv n m qid dstrd s -> nvme_step NDrain s = Done s' -> nvme_inv n m qid dstrd s'.
Proof.
  intros H E. cbn [nvme_step] in E. rewrite (drain_spec s H) in E. cbn [mbind run_bind] in E.
  destruct (ct_posted (ny_ctl s) !! length (ny_taken s)) as [f|] eqn:Ef; injection E as <-; [|by destruct s].
  destruct H as [(I1 & I2 & I3 & I4) (Z1 & Z2 & Z3 & Z4) (P1 & P2) (S1 & S2 & S3 & S4 & S5 & S6) (C1 & C2 & C3 & C4 & C5 & C6) Hf' Ht Hs Hp Hfr (Hh1 & Hh2 & Hh3) Hd Hok].
  set (T := length (ny_taken s)) in *. set (P := length (ct_posted (ny_ctl s))) in *.
  destruct (Forall2_lookup_r _ _ _ _ _ Hh1 Ef) as (h & Hh & Ehd).
  assert (T < P)%nat as HTP by (by apply lookup_lt_Some in Ef).
  match goal with |- nvme_inv _ _ _ _ ?x => set (s' := x) end.
  assert (acknowledged s' = h) as Eack.
  { unfold acknowledged, s'. cbn [ny_taken ny_ctl ct_heads set_doorbells]. rewrite length_app, Nat.add_comm. cbn [length Nat.add]. fold T. by rewrite Hh. }
  assert (acknowledged s <= h) as Hmono.
  { unfold acknowledged in *. fold T. fold T in S5. destruct T as [|t]; [by apply (Hh2 0%nat)|].
    destruct (ct_heads (ny_ctl s) !! t) as [h0|] eqn:E0; [|apply (Hh2 _ _ Hh)]. apply (Hh3 t (S t)); [lia|done|done]. }
  pose proof (Hh2 _ _ Hh) as Hb.
  split; try rewrite Eack; unfold s'; cbn [ny_qp ny_sq_page ny_cq_page ny_ctl ny_submitted ny_taken ct_qid ct_dstrd ct_sq_size ct_cq_size ct_sq_db ct_cq_db ct_head ct_tail ct_phase ct_busy ct_fetched ct_done ct_posted ct_heads set_doorbells set_qp_sq qp_qid qp_dstrd qp_sq qp_cq sq_capacity sq_tail sq_head_observed taken_qp cqr_capacity cqr_head cqr_phase]; try done.
  - split_and!; try done; try lia. rewrite Ehd. by rewrite Z.mod_mod by lia.
  - rewrite length_app, Nat2Z.inj_add. cbn [length]. change (Z.of_nat 1) with 1. fold T P. split_and!; (done || lia).
  - by apply take_snoc_prefix.
Qed.

Lemma step_inv op s : nvme_op_ok op -> nvme_inv n m qid dstrd s -> exists s', nvme_step op s = Done s' /\ nvme_inv n m qid dstrd s'.
Proof.
  intros Hop H. destruct op as [sqe| | |i o].
  - destruct Hop as [Hl Hu]. destruct (nvme_step (NSubmit sqe) s) as [s'|] eqn:E; [exists s'; split; [done|by eapply submit_inv]|].
    cbn [nvme_step] in E. rewrite (qp_submit_spec s sqe H) in E. cbn [mbind run_bind] in E. by destruct (decide (outstanding s = n - 1)).
  - destruct (nvme_step NDrain s) as [s'|] eqn:E; [exists s'; split; [done|by eapply drain_inv]|].
    cbn [nvme_step] in E. rewrite (drain_spec s H) in E. cbn [mbind run_bind] in E. by destruct (ct_posted (ny_ctl s) !! length (ny_taken s)).
  - eexists. split; [reflexivity|by apply fetch_inv].
  - eexists. split; [reflexivity|by apply post_inv].
Qed.

Lemma run_inv ops s : Forall nvme_op_ok ops -> nvme_inv n m qid dstrd s -> exists s', nvme_run ops s = Done s' /\ nvme_inv n m qid dstrd s'.
Proof.
  intros Hops. revert s. induction Hops as [|op ops Hop _ IH]; intros s H; [by exists s|].
  destruct (step_inv op s Hop H) as (s1 & E1 & H1). destruct (IH s1 H1) as (s2 & E2 & H2). exists s2. cbn [nvme_run]. by rewrite E1.
Qed.

(** *** Progress *)

(** What is left to do: commands to fetch, to complete, to take. *)
Definition work (s : NvmeSys) : nat :=
  (3 * (length (ny_submitted s) - length (ct_fetched (ny_ctl s))) + 2 * length (ct_busy (ny_ctl s)) + (length (ct_posted (ny_ctl s)) - length (ny_taken s)))%nat.

Definition next_op (s : NvmeSys) : nvme_op :=
  if (length (ny_taken s) <? length (ct_posted (ny_ctl s)))%nat then NDrain else
  if (length (ct_fetched (ny_ctl s)) <? length (ny_submitted s))%nat then NFetch
  else NPost 0 {| oc_cdw0 := 0; oc_sc := 0; oc_sct := 0; oc_more := false; oc_dnr := false |}.

Lemma counts s : nvme_inv n m qid dstrd s ->
  (length (ny_taken s) <= length (ct_posted (ny_ctl s)) /\ length (ct_fetched (ny_ctl s)) <= length (ny_submitted s) /\
   length (ct_fetched (ny_ctl s)) = length (ct_busy (ny_ctl s)) + length (ct_posted (ny_ctl s)))%nat.
Proof.
  intros [_ _ _ (_ & _ & _ & _ & _ & S6) (_ & _ & _ & _ & _ & C6) _ _ _ _ _ _ (Hd1 & Hd2) _]. split; [lia|]. split; [lia|].
  rewrite Hd2, length_app. apply Forall2_length in Hd1. lia.
Qed.

Lemma next_op_works s : 1 < m -> nvme_inv n m qid dstrd s -> (0 < work s)%nat -> exists s', nvme_step (next_op s) s = Done s' /\ nvme_inv n m qid dstrd s' /\
  ny_submitted s' = ny_submitted s /\ (work s' < work s)%nat.
Proof.
  intros Hm2 H Hw. assert (nvme_op_ok (next_op s)) as Hop.
  { unfold next_op. destruct (_ <? _)%nat; [done|]. destruct (_ <? _)%nat; [done|]. unfold nvme_op_ok, outcome_ok, is_u32, is_u8. cbn. lia. }
  destruct (step_inv (next_op s) s Hop H) as (s' & E & H'). exists s'. split; [done|]. split; [done|]. clear H' Hop. pose proof (counts s H) as (K1 & K2 & K3).
  unfold next_op in E. destruct (Nat.ltb_spec (length (ny_taken s)) (length (ct_posted (ny_ctl s)))) as [HT|HT].
  - cbn [nvme_step] in E. rewrite (drain_spec s H) in E. destruct (lookup_lt_is_Some_2 _ _ HT) as [f Ef]. rewrite Ef in E. injection E as <-. split; [done|].
    unfold work. cbn [ny_submitted ny_taken ny_ctl set_doorbells ct_fetched ct_busy ct_posted]. rewrite length_app. cbn [length]. lia.
  - destruct (Nat.ltb_spec (length (ct_fetched (ny_ctl s))) (length (ny_submitted s))) as [HF|HF]; cbn [nvme_step] in E; injection E as <-.
    + unfold ctl_fetch. destruct H as [_ _ _ (S1 & S2 & S3 & S4 & S5 & S6) _ _ _ _ _ _ _ _ _].
      rewrite (proj2 (Z.eqb_neq _ _)) by (rewrite S2, S3; apply mod_distinct; lia). split; [done|].
      unfold work. cbn [ny_submitted ny_taken ny_ctl ct_fetched ct_busy ct_posted]. rewrite !length_app. cbn [length]. lia.
    + unfold ctl_post. destruct H as [_ (_ & _ & _ & Z4) _ _ (C1 & C2 & C3 & C4 & C5 & C6) _ _ _ _ _ _ _ _]. unfold work in Hw.
      destruct (ct_busy (ny_ctl s)) as [|sqe busy] eqn:Eb; [cbn in *; lia|]. cbn [lookup list_lookup].
      rewrite (proj2 (Z.eqb_neq _ _)); [|rewrite Z4, C2, C3, wrap_next_mod by lia; apply not_eq_sym, mod_distinct; lia].
      split; [done|]. unfold work. cbn [ny_submitted ny_taken ny_ctl ct_fetched ct_busy ct_posted]. rewrite Eb, !length_app. cbn [length firstn skipn]. rewrite drop_0. lia.
Qed.

Lemma all_complete s : 1 < m -> nvme_inv n m qid dstrd s -> exists ops s', nvme_run ops s = Done s' /\ nvme_inv n m qid dstrd s' /\
  ny_submitted s' = ny_submitted s /\ ct_done (ny_ctl s') ≡ₚ ny_submitted s' /\ ny_taken s' = ct_posted (ny_ctl s').
Proof.
  intros Hm2. remember (work s) as w eqn:Ew. revert s Ew. induction w as [w IH] using (well_founded_induction lt_wf). intros s -> H.
  destruct (decide (work s = 0%nat)) as [E0|E0].
  - exists [], s. pose proof (counts s H) as (K1 & K2 & K3). unfold work in E0. pose proof (nv_fetched _ _ _ _ _ H) as Hf.
    pose proof (nv_taken _ _ _ _ _ H) as Ht. destruct (nv_done _ _ _ _ _ H) as [_ Hd]. split; [done|]. split; [done|]. split; [done|]. split; [|rewrite Ht, take_ge by lia; done].
    rewrite take_ge in Hf by lia. rewrite <- Hf, Hd. by destruct (ct_busy (ny_ctl s)); [|cbn in *; lia].
  - destruct (next_op_works s Hm2 H ltac:(lia)) as (s1 & E1 & H1 & Es1 & Hlt). destruct (IH (work s1) Hlt s1 eq_refl H1) as (ops & s2 & E2 & H2 & Es2 & Hd).
    exists (next_op s :: ops), s2. cbn [nvme_run]. rewrite E1. split; [done|]. split; [done|]. split; [congruence|done].
Qed.

(** A completion queue of one entry is full when it is empty. *)
Lemma depth_one_step op s s' : m = 1 -> nvme_inv n m qid dstrd s -> ct_posted (ny_ctl s) = [] -> nvme_step op s = Done s' -> ct_posted (ny_ctl s') = [].
Proof.
  intros Hm1 H Hp E. destruct op as [sqe| | |i o]; cbn [nvme_step] in E.
  - rewrite (qp_submit_spec s sqe H) in E. cbn [mbind run_bind] in E. destruct (decide _); injection E as <-; exact Hp.
  - rewrite (drain_spec s H), Hp in E. cbn [mbind run_bind] in E. cbn [lookup list_lookup] in E. injection E as <-. exact Hp.
  - injection E as <-. unfold ctl_fetch. destruct (_ =? _); exact Hp.
  - injection E as <-. unfold ctl_post. destruct (ct_busy (ny_ctl s) !! i) as [sqe|]; [|exact Hp].
    destruct H as [_ (_ & _ & _ & Z4) _ _ (_ & C2 & C3 & _) _ _ _ _ _ _ _ _]. rewrite Z4, C2, C3, wrap_next_mod by lia. rewrite Hm1, !Z.mod_1_r. exact Hp.
Qed.

Lemma depth_one_run ops : forall s s', m = 1 -> Forall nvme_op_ok ops -> nvme_inv n m qid dstrd s -> ct_posted (ny_ctl s) = [] -> nvme_run ops s = Done s' -> ct_posted (ny_ctl s') = [].
Proof.
  induction ops as [|op ops IH]; intros s s' Hm1 Hops H Hp E; [by injection E as <-|]. apply Forall_cons in Hops as [Hop Hops].
  destruct (step_inv op s Hop H) as (s1 & E1 & H1). cbn [nvme_run] in E. rewrite E1 in E. cbn [mbind run_bind] in E. apply (IH s1 s' Hm1 Hops H1); [|done]. exact (depth_one_step op s s1 Hm1 H Hp E1).
Qed.
End Preservation.

Lemma init_inv qid n m dstrd qp : is_u16 qid -> 0 <= n -> 0 <= m -> new_for_qid qid n m dstrd = Ok qp ->
  (0 < n < 2 ^ 16) /\ (0 < m < 2 ^ 16) /\ nvme_inv n m qid dstrd (nvme_init qp).
Proof.
  intros Hq Hn Hm E. unfold new_for_qid, sq_new, cq_new in E.
  destruct (Z.eqb_spec n 0) as [|Hn0]; [done|]. destruct (Z.ltb_spec (2 ^ 16 - 1) n) as [|Hn1]; [done|].
  destruct (Z.eqb_spec m 0) as [|Hm0]; [done|]. destruct (Z.ltb_spec (2 ^ 16 - 1) m) as [|Hm1]; [done|]. injection E as <-.
  split; [lia|]. split; [lia|]. split; cbn -[Z.modulo replicate]; try done.
  - by rewrite !length_replicate.
  - rewrite !Z.mod_0_l by lia. split_and!; try done; lia.
  - rewrite !Z.mod_0_l by lia. unfold lap_phase. rewrite Z.div_0_l by lia. split_and!; try done; lia.
  - intros j Hj. unfold slot_bytes. rewrite drop_replicate, take_replicate. f_equal. unfold ADMIN_CQE_BYTES. nia.
Qed.

(** ** Theorem *)

(** C4: a queue pair works with any controller that follows the specification.  For every interleaving of submissions, polls, fetches and completions in any order, from a fresh pair and zeroed pages: nothing panics; the controller fetches exactly the submitted commands, unchanged and in order, so no slot is overwritten before it is fetched; polling hands out exactly the posted completions, each once and in order, and answers None only when there is none; completions and finished commands correspond one to one by identifier; a submission is refused exactly when all but one of the slots are held by commands not known to be fetched; and, when the completion queue has more than one entry, every submitted command can still be completed and taken; with a queue of one entry, which the constructor accepts, no command is ever completed. *)
Theorem nvme_queue_exact (qid n m dstrd : Z) (qp : AdminQueuePair) (ops : list nvme_op) :
  is_u16 qid -> is_u32 n -> is_u32 m -> 0 <= dstrd < 16 -> new_for_qid qid n m dstrd = Ok qp -> Forall nvme_op_ok ops ->
  exists s, nvme_run ops (nvme_init qp) = Done s /\
    ct_fetched (ny_ctl s) = take (length (ct_fetched (ny_ctl s))) (ny_submitted s) /\
    ny_taken s = take (length (ny_taken s)) (ct_posted (ny_ctl s)) /\
    Forall2 (fun f sqe => cq_cid f = sqe_cid sqe) (ct_posted (ny_ctl s)) (ct_done (ny_ctl s)) /\
    ct_fetched (ny_ctl s) ≡ₚ ct_busy (ny_ctl s) ++ ct_done (ny_ctl s) /\
    (exists st, drain_completion (ny_qp s) (ny_ctl s) (ny_cq_page s) = Done (Ok (ct_posted (ny_ctl s) !! length (ny_taken s)), st)) /\
    (forall sqe, exists st, qp_submit sqe (ny_qp s) (ny_ctl s) (ny_sq_page s) =
       Done (if decide (outstanding s = n - 1) then Err QeFull else Ok (Z.of_nat (length (ny_submitted s)) mod n), st)) /\
    (1 < m -> exists ops' s', nvme_run ops' s = Done s' /\ ny_submitted s' = ny_submitted s /\ ct_done (ny_ctl s') ≡ₚ ny_submitted s' /\ ny_taken s' = ct_posted (ny_ctl s')) /\
    (m = 1 -> ct_posted (ny_ctl s) = [] /\ ct_done (ny_ctl s) = []).
Proof.
  unfold is_u32. intros Hq Hn Hm Hd Hnew Hops. destruct (init_inv qid n m dstrd qp Hq ltac:(lia) ltac:(lia) Hnew) as (Hn' & Hm' & H0).
  destruct (run_inv n m qid dstrd Hn' Hm' Hq Hd ops (nvme_init qp) Hops H0) as (s & E & H). exists s. split; [done|].
  split; [apply H|]. split; [apply H|]. split; [apply H|]. split; [apply H|]. split; [|split; [|split]].
  - rewrite (drain_spec n m qid dstrd Hn' Hm' Hq Hd s H). destruct (ct_posted (ny_ctl s) !! length (ny_taken s)); by eexists.
  - intros sqe. rewrite (qp_submit_spec n m qid dstrd Hn' Hm' Hq Hd s sqe H). destruct (decide (outstanding s = n - 1)); by eexists.
  - intros Hm2. destruct (all_complete n m qid dstrd Hn' Hm' Hq Hd s Hm2 H) as (ops' & s' & E' & _ & R). by exists ops', s'.
  - intros Hm1. assert (ct_posted (ny_ctl s) = []) as Hp by exact (depth_one_run n m qid dstrd Hn' Hm' Hq Hd ops _ s Hm1 Hops H0 eq_refl E). split; [done|].
    pose proof (proj1 (nv_done _ _ _ _ _ H)) as Hdone. rewrite Hp in Hdone. by inversion Hdone.
Qed.

(** ** Witness *)

Definition demo_sqe (cid : Z) : list Z := encode_identify ItController 0x1000 0 cid.

Definition demo_ops : list nvme_op :=
  [NSubmit (demo_sqe 1); NSubmit (demo_sqe 2); NSubmit (demo_sqe 3); NFetch; NFetch;
   NPost 1 {| oc_cdw0 := 7; oc_sc := 2; oc_sct := 1; oc_more := false; oc_dnr := true |}; NDrain; NDrain; NSubmit (demo_sqe 4)].

Lemma demo_nvme_ops_ok : Forall nvme_op_ok demo_ops.
Proof.
  unfold demo_ops, nvme_op_ok, outcome_ok, is_u8, is_u32. repeat (apply Forall_cons; split); try exact I; try (cbn; lia); [..|by apply Forall_nil].
  all: split; [reflexivity|apply (bool_decide_unpack _); vm_compute; reflexivity].
Qed.

Example demo_nvme : match new_for_qid 0 3 2 0 with
  | Ok qp => match nvme_run demo_ops (nvme_init qp) with
             | Done s => map cq_cid (ny_taken s) = [2] /\ map cq_dnr (ny_taken s) = [true] /\ map sqe_cid (ny_submitted s) = [1; 2; 4]
             | Panicked => False
             end
  | Err _ => False
  end.
Proof. vm_compute. done. Qed.

Lemma nvme_queue_exact_witness : exists qp s, new_for_qid 0 3 2 0 = Ok qp /\ nvme_run demo_ops (nvme_init qp) = Done s /\
  ny_taken s = take (length (ny_taken s)) (ct_posted (ny_ctl s)).
Proof.
  destruct (new_for_qid 0 3 2 0) as [qp|] eqn:E; [|vm_compute in E; discriminate E].
  destruct (nvme_queue_exact 0 3 2 0 qp demo_ops) as (s & Es & _ & Ht & _).
  - unfold is_u16; lia.
  - unfold is_u32; lia.
  - unfold is_u32; lia.
  - lia.
  - exact E.
  - exact demo_nvme_ops_ok.
  - exists qp, s. split; [reflexivity|]. by split.
Defined.
