(* ===== verification/NvmeIo.v ===== *)
(** * NVMe commands and sessions (omni-driver-nvme: io.rs, transfer_model.rs,
    discard.rs, blk_gateway.rs, admin_session.rs, io_session.rs)

    Block requests become 64-byte commands, buffers become page lists, and a
    session submits commands on a queue pair and polls for their completions. *)

From Stdlib Require Import ZArith Lia.
From stdpp Require Import base numbers list.
From S2P Require Import Prelude Ring NvmeQueue.

(** ** Commands (io.rs) *)

Definition OPC_NVM_FLUSH : Z := 0x00.
Definition OPC_NVM_WRITE : Z := 0x01.
Definition OPC_NVM_READ : Z := 0x02.
Definition OPC_NVM_DATASET_MGMT : Z := 0x09.
Definition DSM_AD_BIT : Z := 4.
Definition DSM_CDW10_NR_SINGLE_RANGE : Z := 0.

Definition low_dw (x : Z) : Z := Z.land x 0xFFFFFFFF.
Definition high_dw (x : Z) : Z := Z.land (Z.shiftr x 32) 0xFFFFFFFF.

Definition encode_nvm_data_transfer (opc nsid lba block_count prp1 prp2 cid : Z) : list Z :=
  let buf := write_dw_at 4 nsid (write_dw_at 0 (header_dw opc cid) sqe_zeroed) in
  let buf := write_qw_at 32 prp2 (write_qw_at 24 prp1 buf) in
  let buf := write_dw_at 44 (high_dw lba) (write_dw_at 40 (low_dw lba) buf) in
  write_dw_at 48 (saturating_sub block_count 1) buf.

Definition encode_read (nsid lba block_count prp1 prp2 cid : Z) : list Z := encode_nvm_data_transfer OPC_NVM_READ nsid lba block_count prp1 prp2 cid.
Definition encode_write (nsid lba block_count prp1 prp2 cid : Z) : list Z := encode_nvm_data_transfer OPC_NVM_WRITE nsid lba block_count prp1 prp2 cid.
Definition encode_flush (nsid cid : Z) : list Z := write_dw_at 4 nsid (write_dw_at 0 (header_dw OPC_NVM_FLUSH cid) sqe_zeroed).

Definition encode_discard (nsid lba block_count prp1 cid : Z) : list Z :=
  let buf := write_dw_at 4 nsid (write_dw_at 0 (header_dw OPC_NVM_DATASET_MGMT cid) sqe_zeroed) in
  let buf := write_qw_at 24 prp1 buf in
  let buf := write_dw_at 44 DSM_AD_BIT (write_dw_at 40 DSM_CDW10_NR_SINGLE_RANGE buf) in
  let buf := write_dw_at 52 (high_dw lba) (write_dw_at 48 (low_dw lba) buf) in
  write_dw_at 56 block_count buf.

(** ** Block requests (omni-types blk.rs, blk_gateway.rs) *)

Inductive BlkRequest := BlkRead (lba count buf_iova : Z) | BlkWrite (lba count buf_iova : Z) | BlkFlush | BlkDiscard (lba count : Z).
Inductive BlkResponse := BrOk | BrNotSupported | BrDeviceError (status : Z) | BrOutOfRange | BrInvalidArgument.

Definition NON_NVME_DEVICE_ERROR : Z := 0xFFFF.

(** The arm for variants added later has no case here. *)
Definition encode_blk_request (req : BlkRequest) (cid nsid prp1 prp2 : Z) : option (list Z) :=
  match req with
  | BlkRead lba count _ => Some (encode_read nsid lba count prp1 prp2 cid)
  | BlkWrite lba count _ => Some (encode_write nsid lba count prp1 prp2 cid)
  | BlkFlush => Some (encode_flush nsid cid)
  | BlkDiscard lba count => Some (encode_discard nsid lba count prp1 cid)
  end.

Definition cqe_to_blk_response (f : AdminCqeFields) : BlkResponse :=
  if is_success f then BrOk else
  if (cq_sct f =? 0) && ((cq_sc f =? 0x02) || (cq_sc f =? 0x0B)) then BrInvalidArgument else
  if (cq_sct f =? 0) && (cq_sc f =? 0x80) then BrOutOfRange else
  let status := Z.lor (Z.shiftl (cq_sct f) 8) (cq_sc f) in
  if status =? 0 then BrDeviceError NON_NVME_DEVICE_ERROR else BrDeviceError status.

(** ** Page lists (transfer_model.rs) *)

Definition PRP_PAGE_SIZE : Z := 4096.
Definition MAX_BLOCK_COUNT_PER_COMMAND : Z := 2048.
Definition PRP_ENTRY_BYTES : nat := 8.
Definition PRP_ENTRIES_PER_LIST_PAGE : Z := 512.

Inductive PrpLayout := SinglePage | TwoPages | PrpList (n_entries : Z).
Inductive PrpError := ListBufferTooSmall | TooManyEntries.
Inductive PrpDeriveError := BufferMisaligned | ZeroBlockCount | TooManyBlocks | PrpListPageMissing | PrpListPageMisaligned.

Definition is_prp_aligned (iova : Z) : bool := Z.land iova (PRP_PAGE_SIZE - 1) =? 0.
Definition block_payload_bytes (block_count : Z) : option Z := checked_mul64 block_count PRP_PAGE_SIZE.

(** [div_ceil] of the bytes behind the first page. *)
Definition prp_layout (len : Z) : PrpLayout :=
  if len <=? PRP_PAGE_SIZE then SinglePage else
  if len <=? 2 * PRP_PAGE_SIZE then TwoPages else PrpList ((len - PRP_PAGE_SIZE + (PRP_PAGE_SIZE - 1)) / PRP_PAGE_SIZE).

Definition prp1_for (buffer_iova : Z) : Z := buffer_iova.
Definition prp2_for (buffer_iova : Z) (layout : PrpLayout) (list_page_iova : Z) : Z :=
  match layout with SinglePage => 0 | TwoPages => wrap64 (buffer_iova + PRP_PAGE_SIZE) | PrpList _ => list_page_iova end.

(** Entry [i] of the list. *)
Definition prp_entry (buffer_iova : Z) (i : nat) : Z := wrap64 (buffer_iova + wrap64 (wrap64 (Z.of_nat i + 1) * PRP_PAGE_SIZE)).

Definition write_prp_list_entries (buffer_iova n_entries : Z) (dest : list Z) : result PrpError (list Z) :=
  if PRP_ENTRIES_PER_LIST_PAGE <? n_entries then Err TooManyEntries else
  let needed := (Z.to_nat n_entries * PRP_ENTRY_BYTES)%nat in
  if (length dest <? needed)%nat then Err ListBufferTooSmall else
  Ok (concat (map (fun i => to_le_bytes 8 (prp_entry buffer_iova i)) (seq 0 (Z.to_nat n_entries))) ++ drop needed dest).

Definition derive_prp_pair_for_blocks (buf_iova block_count list_page_iova : Z) : result PrpDeriveError (PrpLayout * Z * Z) :=
  if negb (is_prp_aligned buf_iova) then Err BufferMisaligned else
  if block_count =? 0 then Err ZeroBlockCount else
  if MAX_BLOCK_COUNT_PER_COMMAND <? block_count then Err TooManyBlocks else
  match block_payload_bytes block_count with
  | None => Err TooManyBlocks
  | Some len =>
      let layout := prp_layout len in
      let is_list := match layout with PrpList _ => true | _ => false end in
      if is_list && (list_page_iova =? 0) then Err PrpListPageMissing else
      if is_list && negb (is_prp_aligned list_page_iova) then Err PrpListPageMisaligned else
      Ok (layout, prp1_for buf_iova, prp2_for buf_iova layout list_page_iova)
  end.

(** ** Discard ranges (discard.rs) *)

Definition DISCARD_RANGE_DESCRIPTOR_BYTES : nat := 16.

(** [None] is [DiscardError::BufferTooSmall]. *)
Definition write_single_discard_range (buf : list Z) (lba count : Z) : option (list Z) :=
  if (length buf <? DISCARD_RANGE_DESCRIPTOR_BYTES)%nat then None else
  Some (to_le_bytes 4 0 ++ to_le_bytes 4 count ++ to_le_bytes 8 lba ++ drop DISCARD_RANGE_DESCRIPTOR_BYTES buf).

(** ** Sessions (admin_session.rs, io_session.rs) *)

(** [checked_add(1).unwrap_or(1)] on [u16]. *)
Definition next_cid (cid : Z) : Z := if cid + 1 <? 2 ^ 16 then cid + 1 else 1.

Record AdminSession := { as_qp : AdminQueuePair; as_sq_page : list Z; as_cq_page : list Z; as_next_cid : Z }.

Definition new_session (qid sq_depth cq_depth dstrd : Z) : result QueueError AdminSession :=
  match new_for_qid qid sq_depth cq_depth dstrd with
  | Err e => Err e
  | Ok qp => Ok {| as_qp := qp; as_sq_page := replicate (Z.to_nat sq_depth * ADMIN_SQE_BYTES) 0;
                   as_cq_page := replicate (Z.to_nat cq_depth * ADMIN_CQE_BYTES) 0; as_next_cid := 1 |}
  end.

Section Sessions.
Context {D : Type} `{Mmio D}.

(** [allocate_cid], the encoder, and [submit]: the steps every submitting call shares. *)
Definition session_submit (encode : Z -> list Z) (s : AdminSession) (mmio : D) : run (result QueueError Z * (AdminSession * D)) :=
  let cid := as_next_cid s in
  '(r, (qp, mmio, page)) ← qp_submit (encode cid) (as_qp s) mmio (as_sq_page s);
  Done (match r with Ok _ => Ok cid | Err e => Err e end,
        ({| as_qp := qp; as_sq_page := page; as_cq_page := as_cq_page s; as_next_cid := next_cid cid |}, mmio)).

Definition submit_identify (target : IdentifyTarget) (buf_iova : Z) : AdminSession -> D -> run (result QueueError Z * (AdminSession * D)) :=
  session_submit (fun cid => encode_identify target buf_iova 0 cid).
Definition submit_create_io_cq (qid qsize prp1 irq_vector : Z) : AdminSession -> D -> run (result QueueError Z * (AdminSession * D)) :=
  session_submit (fun cid => encode_create_io_cq qid qsize prp1 irq_vector true true cid).
Definition submit_create_io_sq (qid qsize prp1 cq_id queue_priority : Z) : AdminSession -> D -> run (result QueueError Z * (AdminSession * D)) :=
  session_submit (fun cid => encode_create_io_sq qid qsize prp1 cq_id queue_priority true cid).

(** Completions of other commands are dropped on the way. *)
Fixpoint poll_completion_for_cid (cid : Z) (poll_limit : nat) (s : AdminSession) (mmio : D) : run (result QueueError (option AdminCqeFields) * (AdminSession * D)) :=
  match poll_limit with
  | O => Done (Ok None, (s, mmio))
  | S limit =>
      '(r, (qp, mmio)) ← drain_completion (as_qp s) mmio (as_cq_page s);
      let s := {| as_qp := qp; as_sq_page := as_sq_page s; as_cq_page := as_cq_page s; as_next_cid := as_next_cid s |} in
      match r with
      | Err e => Done (Err e, (s, mmio))
      | Ok (Some f) => if cq_cid f =? cid then Done (Ok (Some f), (s, mmio)) else poll_completion_for_cid cid limit s mmio
      | Ok None => poll_completion_for_cid cid limit s mmio
      end
  end.

(** The [run_*] calls: submit, then poll. *)
Definition session_run (encode : Z -> list Z) (poll_limit : nat) (s : AdminSession) (mmio : D) : run (result QueueError AdminCqeFields * (AdminSession * D)) :=
  '(r, (s, mmio)) ← session_submit encode s mmio;
  match r with
  | Err e => Done (Err e, (s, mmio))
  | Ok cid =>
      '(p, (s, mmio)) ← poll_completion_for_cid cid poll_limit s mmio;
      Done (match p with Err e => Err e | Ok None => Err IdentifyCompletionTimeout | Ok (Some f) => Ok f end, (s, mmio))
  end.

Definition run_identify (target : IdentifyTarget) (buf_iova : Z) : nat -> AdminSession -> D -> run (result QueueError AdminCqeFields * (AdminSession * D)) :=
  session_run (fun cid => encode_identify target buf_iova 0 cid).
Definition run_create_io_cq (qid qsize prp1 irq_vector : Z) : nat -> AdminSession -> D -> run (result QueueError AdminCqeFields * (AdminSession * D)) :=
  session_run (fun cid => encode_create_io_cq qid qsize prp1 irq_vector true true cid).
Definition run_create_io_sq (qid qsize prp1 cq_id queue_priority : Z) : nat -> AdminSession -> D -> run (result QueueError AdminCqeFields * (AdminSession * D)) :=
  session_run (fun cid => encode_create_io_sq qid qsize prp1 cq_id queue_priority true cid).

(** An I/O session is a session with a namespace. *)
Record IoSession := { io_session : AdminSession; io_nsid : Z }.

Definition submit_blk_request (req : BlkRequest) (prp1 prp2 : Z) (s : IoSession) (mmio : D) : run (result QueueError (option Z) * (IoSession * D)) :=
  let cid := as_next_cid (io_session s) in
  match encode_blk_request req cid (io_nsid s) prp1 prp2 with
  | None =>
      let a := io_session s in
      Done (Ok None, ({| io_session := {| as_qp := as_qp a; as_sq_page := as_sq_page a; as_cq_page := as_cq_page a; as_next_cid := next_cid cid |}; io_nsid := io_nsid s |}, mmio))
  | Some sqe =>
      '(r, (a, mmio)) ← session_submit (fun _ => sqe) (io_session s) mmio;
      Done (match r with Ok cid => Ok (Some cid) | Err e => Err e end, ({| io_session := a; io_nsid := io_nsid s |}, mmio))
  end.

Inductive IoSubmitError := IsePrpDerive (e : PrpDeriveError) | IseQueue (e : QueueError) | DiscardRequiresExplicitPrp | UnsupportedRequest.

Definition submit_blk_request_auto (req : BlkRequest) (list_page_iova : Z) (s : IoSession) (mmio : D) : run (result IoSubmitError Z * (IoSession * D)) :=
  let submit prp1 prp2 :=
    '(r, st) ← submit_blk_request req prp1 prp2 s mmio;
    Done (match r with Err e => Err (IseQueue e) | Ok None => Err UnsupportedRequest | Ok (Some cid) => Ok cid end, st) in
  match req with
  | BlkRead _ count buf_iova | BlkWrite _ count buf_iova =>
      match derive_prp_pair_for_blocks buf_iova count list_page_iova with
      | Err e => Done (Err (IsePrpDerive e), (s, mmio))
      | Ok (_, prp1, prp2) => submit prp1 prp2
      end
  | BlkFlush => submit 0 0
  | BlkDiscard _ _ => Done (Err DiscardRequiresExplicitPrp, (s, mmio))
  end.

Definition poll_blk_response_for_cid (cid : Z) (poll_limit : nat) (s : IoSession) (mmio : D) : run (result QueueError (option BlkResponse) * (IoSession * D)) :=
  '(r, (a, mmio)) ← poll_completion_for_cid cid poll_limit (io_session s) mmio;
  Done (match r with Ok f => Ok (option_map cqe_to_blk_response f) | Err e => Err e end, ({| io_session := a; io_nsid := io_nsid s |}, mmio)).
End Sessions.

(** ** What a controller reads

    The fields of a command at the offsets of the NVMe specification. *)

Record NvmCommand := { nc_opc : Z; nc_cid : Z; nc_nsid : Z; nc_prp1 : Z; nc_prp2 : Z; nc_dw10_11 : Z; nc_dw12 : Z; nc_dw13 : Z; nc_dw14 : Z }.

Definition read_qw (off : nat) (sqe : list Z) : Z := from_le_bytes (take 8 (drop off sqe)).

Definition decode_command (sqe : list Z) : NvmCommand :=
  {| nc_opc := Z.land (read_dw_at sqe 0) 0xFF; nc_cid := sqe_cid sqe; nc_nsid := read_dw_at sqe 4; nc_prp1 := read_qw 24 sqe; nc_prp2 := read_qw 32 sqe;
     nc_dw10_11 := read_qw 40 sqe; nc_dw12 := read_dw_at sqe 48; nc_dw13 := read_dw_at sqe 52; nc_dw14 := read_dw_at sqe 56 |}.

(** What the request means: the block count of a transfer is stored less one. *)
Definition command_of (req : BlkRequest) (cid nsid prp1 prp2 : Z) : NvmCommand :=
  match req with
  | BlkRead lba count _ => {| nc_opc := OPC_NVM_READ; nc_cid := cid; nc_nsid := nsid; nc_prp1 := prp1; nc_prp2 := prp2; nc_dw10_11 := lba; nc_dw12 := count - 1; nc_dw13 := 0; nc_dw14 := 0 |}
  | BlkWrite lba count _ => {| nc_opc := OPC_NVM_WRITE; nc_cid := cid; nc_nsid := nsid; nc_prp1 := prp1; nc_prp2 := prp2; nc_dw10_11 := lba; nc_dw12 := count - 1; nc_dw13 := 0; nc_dw14 := 0 |}
  | BlkFlush => {| nc_opc := OPC_NVM_FLUSH; nc_cid := cid; nc_nsid := nsid; nc_prp1 := 0; nc_prp2 := 0; nc_dw10_11 := 0; nc_dw12 := 0; nc_dw13 := 0; nc_dw14 := 0 |}
  | BlkDiscard lba count => {| nc_opc := OPC_NVM_DATASET_MGMT; nc_cid := cid; nc_nsid := nsid; nc_prp1 := prp1; nc_prp2 := 0; nc_dw10_11 := DSM_AD_BIT * 2 ^ 32;
      nc_dw12 := lba mod 2 ^ 32; nc_dw13 := lba / 2 ^ 32; nc_dw14 := count |}
  end.

Definition request_ok (req : BlkRequest) : Prop :=
  match req with BlkRead lba count buf | BlkWrite lba count buf => is_u64 lba /\ 1 <= count < 2 ^ 32 /\ is_u64 buf | BlkFlush => True | BlkDiscard lba count => is_u64 lba /\ is_u32 count end.

(** The pages a controller transfers for [count] blocks, [list_page] being what lies at the second pointer. *)
Definition prp_pages (count : nat) (prp1 prp2 : Z) (list_page : list Z) : list Z :=
  match count with
  | O => []
  | 1%nat => [prp1]
  | 2%nat => [prp1; prp2]
  | S n => prp1 :: map (fun i => read_qw (8 * i) list_page) (seq 0 n)
  end.

(** ** Lemmas *)

Lemma header_bytes opc cid : is_u8 opc -> is_u16 cid -> to_le_bytes 4 (header_dw opc cid) = [opc; 0] ++ to_le_bytes 2 cid.
Proof.
  unfold is_u8, is_u16. intros Ho Hc. assert (header_dw opc cid = opc + 65536 * cid) as ->.
  { unfold header_dw. rewrite Z.shiftl_mul_pow2 by lia. pose proof (Z.add_lor_land opc (cid * 2 ^ 16)) as E.
    assert (Z.land opc (cid * 2 ^ 16) = 0) as E0; [|lia]. apply Z.bits_inj'. intros k Hk. rewrite Z.land_spec, Z.bits_0, andb_false_iff.
    destruct (Z.lt_ge_cases k 16) as [H16|H16]; [right; apply Z.mul_pow2_bits_low; lia|left; apply (testbit_u8_high opc k Ho); lia]. }
  change (to_le_bytes 4 (opc + 65536 * cid)) with
    [(opc + 65536 * cid) mod 256; (opc + 65536 * cid) / 256 mod 256; (opc + 65536 * cid) / 256 / 256 mod 256; (opc + 65536 * cid) / 256 / 256 / 256 mod 256].
  change (to_le_bytes 2 cid) with [cid mod 256; cid / 256 mod 256]. rewrite !Z.div_div by lia. cbn [app].
  replace (opc + 65536 * cid) with (opc + (256 * cid) * 256) at 1 2 by lia. rewrite Z.mod_add, Z.div_add, (Z.mod_small opc), (Z.div_small opc) by lia.
  replace (opc + 65536 * cid) with (opc + cid * (256 * 256)) at 1 by lia. rewrite Z.div_add, (Z.div_small opc) by lia.
  replace (256 * (256 * 256)) with (65536 * 256) by lia. rewrite <- (Z.div_div (opc + 65536 * cid)) by lia.
  replace (opc + 65536 * cid) with (opc + cid * 65536) by lia. rewrite Z.div_add, (Z.div_small opc) by lia.
  rewrite !Z.add_0_l. repeat f_equal. rewrite Z.mul_comm. apply Z.mod_mul. lia.
Qed.

Lemma dw_exact x : is_u32 x -> from_le_bytes (to_le_bytes 4 x) = x.
Proof. intros H. rewrite from_to_le_bytes. by apply Z.mod_small. Qed.
Lemma qw_exact x : is_u64 x -> from_le_bytes (to_le_bytes 8 x) = x.
Proof. intros H. rewrite from_to_le_bytes. by apply Z.mod_small. Qed.

Lemma low_high x : is_u64 x -> is_u32 (low_dw x) /\ is_u32 (high_dw x) /\ low_dw x = x mod 2 ^ 32 /\ high_dw x = x / 2 ^ 32.
Proof.
  unfold is_u64, is_u32, low_dw, high_dw. intros H. change 0xFFFFFFFF with (2 ^ 32 - 1). rewrite !land_ones_mod, Z.shiftr_div_pow2 by lia.
  assert (0 <= x / 2 ^ 32 < 2 ^ 32) by (split; [apply Z.div_pos; lia|apply Z.div_lt_upper_bound; lia]).
  rewrite (Z.mod_small (x / 2 ^ 32)) by lia. pose proof (Z.mod_pos_bound x (2 ^ 32) ltac:(lia)). done.
Qed.

(** The bytes of a command whose first half word holds the opcode. *)
Definition command_bytes (opc cid nsid prp1 prp2 dw10 dw11 dw12 dw13 dw14 : Z) : list Z :=
  [opc; 0] ++ to_le_bytes 2 cid ++ to_le_bytes 4 nsid ++ replicate 16 0 ++ to_le_bytes 8 prp1 ++ to_le_bytes 8 prp2 ++
  to_le_bytes 4 dw10 ++ to_le_bytes 4 dw11 ++ to_le_bytes 4 dw12 ++ to_le_bytes 4 dw13 ++ to_le_bytes 4 dw14 ++ replicate 4 0.

Lemma decode_bytes opc cid nsid prp1 prp2 dw10 dw11 dw12 dw13 dw14 :
  is_u8 opc -> is_u16 cid -> is_u32 nsid -> is_u64 prp1 -> is_u64 prp2 -> is_u32 dw10 -> is_u32 dw11 -> is_u32 dw12 -> is_u32 dw13 -> is_u32 dw14 ->
  let sqe := command_bytes opc cid nsid prp1 prp2 dw10 dw11 dw12 dw13 dw14 in
  length sqe = ADMIN_SQE_BYTES /\ Forall is_u8 sqe /\
  decode_command sqe = {| nc_opc := opc; nc_cid := cid; nc_nsid := nsid; nc_prp1 := prp1; nc_prp2 := prp2; nc_dw10_11 := dw10 + 2 ^ 32 * dw11;
                          nc_dw12 := dw12; nc_dw13 := dw13; nc_dw14 := dw14 |}.
Proof.
  intros Ho Hc Hn H1 H2 H10 H11 H12 H13 H14 sqe. split; [reflexivity|]. split.
  { unfold sqe, command_bytes. repeat (apply Forall_app; split); try apply to_le_bytes_u8; try (apply Forall_replicate; unfold is_u8; lia).
    apply Forall_cons. split; [done|]. apply Forall_singleton. unfold is_u8. lia. }
  unfold decode_command. f_equal.
  - change (read_dw_at sqe 0) with (from_le_bytes ([opc; 0] ++ to_le_bytes 2 cid)). rewrite from_le_bytes_app, from_to_le_bytes. cbn [length from_le_bytes].
    change 0xFF with (2 ^ 8 - 1). rewrite land_ones_mod by lia. change (8 * Z.of_nat 2) with 16. unfold is_u8, is_u16 in *. rewrite (Z.mod_small cid) by lia.
    change (2 ^ 8) with 256. change (2 ^ 16) with 65536. replace (opc + 256 * (0 + 256 * 0) + 65536 * cid) with (opc + (256 * cid) * 256) by lia.
    rewrite Z.mod_add by lia. by apply Z.mod_small.
  - change (sqe_cid sqe) with (from_le_bytes (to_le_bytes 2 cid)). rewrite from_to_le_bytes. by apply Z.mod_small.
  - by apply dw_exact.
  - by apply qw_exact.
  - by apply qw_exact.
  - change (read_qw 40 sqe) with (from_le_bytes (to_le_bytes 4 dw10 ++ to_le_bytes 4 dw11)). by rewrite from_le_bytes_app, to_le_bytes_length, !dw_exact.
  - by apply dw_exact.
  - by apply dw_exact.
  - by apply dw_exact.
Qed.

Lemma transfer_bytes opc nsid lba count prp1 prp2 cid : is_u8 opc -> is_u16 cid -> 1 <= count ->
  encode_nvm_data_transfer opc nsid lba count prp1 prp2 cid = command_bytes opc cid nsid prp1 prp2 (low_dw lba) (high_dw lba) (count - 1) 0 0.
Proof.
  intros Ho Hc Hn. unfold encode_nvm_data_transfer, write_dw_at at 5. rewrite header_bytes by done.
  unfold saturating_sub. rewrite Z.max_l by lia. reflexivity.
Qed.

Lemma transfer_decodes opc nsid lba count prp1 prp2 cid : is_u8 opc -> is_u16 cid -> is_u32 nsid -> is_u64 prp1 -> is_u64 prp2 -> is_u64 lba -> 1 <= count < 2 ^ 32 ->
  let sqe := encode_nvm_data_transfer opc nsid lba count prp1 prp2 cid in
  length sqe = ADMIN_SQE_BYTES /\ Forall is_u8 sqe /\
  decode_command sqe = {| nc_opc := opc; nc_cid := cid; nc_nsid := nsid; nc_prp1 := prp1; nc_prp2 := prp2; nc_dw10_11 := lba; nc_dw12 := count - 1; nc_dw13 := 0; nc_dw14 := 0 |}.
Proof.
  intros Ho Hc Hn H1 H2 Hl Hcnt. destruct (low_high lba Hl) as (L1 & L2 & L3 & L4). cbv zeta. rewrite transfer_bytes by (done || lia).
  destruct (decode_bytes opc cid nsid prp1 prp2 (low_dw lba) (high_dw lba) (count - 1) 0 0) as (E1 & E2 & E3); try done; try (unfold is_u8, is_u32 in *; lia).
  split; [done|]. split; [done|]. rewrite E3. f_equal. rewrite L3, L4. pose proof (Z.div_mod lba (2 ^ 32)). lia.
Qed.

Lemma flush_bytes nsid cid : is_u16 cid -> encode_flush nsid cid = command_bytes OPC_NVM_FLUSH cid nsid 0 0 0 0 0 0 0.
Proof. intros Hc. unfold encode_flush, write_dw_at at 2. rewrite header_bytes by (done || unfold is_u8; lia). reflexivity. Qed.

Lemma discard_bytes nsid lba count prp1 cid : is_u16 cid ->
  encode_discard nsid lba count prp1 cid = command_bytes OPC_NVM_DATASET_MGMT cid nsid prp1 0 0 DSM_AD_BIT (low_dw lba) (high_dw lba) count.
Proof. intros Hc. unfold encode_discard, write_dw_at at 7. rewrite header_bytes by (done || unfold is_u8; lia). reflexivity. Qed.

Lemma request_encodes req cid nsid prp1 prp2 : request_ok req -> is_u16 cid -> is_u32 nsid -> is_u64 prp1 -> is_u64 prp2 ->
  exists sqe, encode_blk_request req cid nsid prp1 prp2 = Some sqe /\ length sqe = ADMIN_SQE_BYTES /\ Forall is_u8 sqe /\ decode_command sqe = command_of req cid nsid prp1 prp2.
Proof.
  intros Hreq Hc Hn H1 H2. destruct req as [lba count buf|lba count buf| |lba count]; cbn [encode_blk_request command_of request_ok] in *.
  - destruct Hreq as (Hl & Hcnt & _). eexists. split; [reflexivity|]. by apply transfer_decodes.
  - destruct Hreq as (Hl & Hcnt & _). eexists. split; [reflexivity|]. by apply transfer_decodes.
  - eexists. split; [reflexivity|]. rewrite flush_bytes by done.
    apply (decode_bytes OPC_NVM_FLUSH cid nsid 0 0 0 0 0 0 0); try done; unfold is_u8, is_u32, is_u64; lia.
  - destruct Hreq as [Hl Hcnt]. destruct (low_high lba Hl) as (L1 & L2 & L3 & L4). eexists. split; [reflexivity|]. rewrite <- L3, <- L4. rewrite discard_bytes by done.
    apply (decode_bytes OPC_NVM_DATASET_MGMT cid nsid prp1 0 0 DSM_AD_BIT (low_dw lba) (high_dw lba) count); try done; unfold is_u8, is_u32, is_u64, DSM_AD_BIT; lia.
Qed.

(** *** Page lists *)

Lemma chunk_lookup {A} (f : A -> list Z) w (l : list A) r i x : (forall x, length (f x) = w) -> l !! i = Some x -> take w (drop (w * i) (concat (map f l) ++ r)) = f x.
Proof.
  intros Hf. revert i. induction l as [|y l IH]; intros i Hi; [done|]. cbn [map concat]. destruct i as [|i].
  - injection Hi as ->. rewrite Nat.mul_0_r, drop_0, <- app_assoc. by rewrite take_app_length' by done.
  - cbn in Hi. rewrite <- app_assoc. replace (w * S i)%nat with (length (f y) + w * i)%nat by (rewrite Hf; lia).
    rewrite <- drop_drop, drop_app_length. by apply IH.
Qed.

Lemma prp_aligned iova : is_prp_aligned iova = true <-> iova mod 4096 = 0.
Proof. unfold is_prp_aligned, PRP_PAGE_SIZE. change (4096 - 1) with (2 ^ 12 - 1). rewrite land_ones_mod, Z.eqb_eq by lia. done. Qed.

(** Layout of a transfer of [count] pages. *)
Lemma derive_layout buf count page : buf mod 4096 = 0 -> 1 <= count <= 2048 -> (3 <= count -> page <> 0 /\ page mod 4096 = 0) ->
  derive_prp_pair_for_blocks buf count page =
  Ok (if count =? 1 then (SinglePage, buf, 0) else if count =? 2 then (TwoPages, buf, wrap64 (buf + 4096)) else (PrpList (count - 1), buf, page)).
Proof.
  intros Hb Hc Hpage. unfold derive_prp_pair_for_blocks. rewrite (proj2 (prp_aligned buf) Hb). cbn [negb].
  rewrite (proj2 (Z.eqb_neq count 0)) by lia. unfold MAX_BLOCK_COUNT_PER_COMMAND. rewrite (proj2 (Z.ltb_ge 2048 count)) by lia.
  unfold block_payload_bytes, checked_mul64, PRP_PAGE_SIZE. rewrite (proj2 (Z.ltb_lt _ _)) by lia. unfold prp_layout, PRP_PAGE_SIZE.
  destruct (Z.eqb_spec count 1) as [->|H1]; [reflexivity|]. rewrite (proj2 (Z.leb_gt _ _)) by lia.
  destruct (Z.eqb_spec count 2) as [->|H2]; [reflexivity|]. rewrite (proj2 (Z.leb_gt _ _)) by lia. cbn [andb]. destruct Hpage as [Hp0 Hp]; [lia|].
  rewrite (proj2 (Z.eqb_neq page 0)), (proj2 (prp_aligned page) Hp) by done. cbn [negb]. unfold prp1_for, prp2_for.
  do 3 f_equal. f_equal. symmetry. apply (Z.div_unique_pos _ 4096 (count - 1) 4095); lia.
Qed.

Lemma prp_pages_exact buf count page dest : is_u64 buf -> buf mod 4096 = 0 -> 1 <= count <= 513 -> buf + 4096 * count <= 2 ^ 64 -> (3 <= count -> page <> 0 /\ page mod 4096 = 0) ->
  (4096 <= length dest)%nat ->
  exists layout prp1 prp2 dest', derive_prp_pair_for_blocks buf count page = Ok (layout, prp1, prp2) /\
    match layout with PrpList n => write_prp_list_entries buf n dest = Ok dest' | _ => dest' = dest end /\
    prp_pages (Z.to_nat count) prp1 prp2 dest' = map (fun i => buf + 4096 * Z.of_nat i) (seq 0 (Z.to_nat count)).
Proof.
  unfold is_u64. intros Hbu Hb Hc Hend Hp Hd. rewrite derive_layout by (done || lia).
  destruct (Z.eqb_spec count 1) as [->|H1]; [eexists _, _, _, _; split; [reflexivity|]; split; [reflexivity|]; change (Z.to_nat 1) with 1%nat; cbn [prp_pages seq map]; f_equal; lia|].
  destruct (Z.eqb_spec count 2) as [->|H2].
  { eexists _, _, _, _. split; [reflexivity|]. split; [reflexivity|]. unfold wrap64. rewrite Z.mod_small by lia. change (Z.to_nat 2) with 2%nat. cbn [prp_pages seq map]. apply f_equal2; [lia|]. apply f_equal2; [lia|done]. }
  eexists _, _, _, _. split; [reflexivity|]. unfold write_prp_list_entries, PRP_ENTRIES_PER_LIST_PAGE, PRP_ENTRY_BYTES.
  rewrite (proj2 (Z.ltb_ge _ _)), (proj2 (Nat.ltb_ge _ _)) by lia. split; [reflexivity|].
  replace (Z.to_nat count) with (S (S (S (Z.to_nat (count - 3))))) by lia. unfold prp_pages.
  replace (S (S (Z.to_nat (count - 3)))) with (Z.to_nat (count - 1)) by lia. cbn [seq map]. f_equal; [lia|].
  rewrite <- seq_shift, map_map. apply map_ext_in. intros i Hi. apply in_seq in Hi. unfold read_qw.
  rewrite (chunk_lookup (fun i => to_le_bytes 8 (prp_entry buf i)) 8 _ _ i i); [|intros; apply to_le_bytes_length|by rewrite lookup_seq_lt by lia].
  rewrite from_to_le_bytes. unfold prp_entry, wrap64, PRP_PAGE_SIZE. change (8 * Z.of_nat 8) with 64.
  rewrite (Z.mod_small (Z.of_nat i + 1)) by lia. rewrite (Z.mod_small ((Z.of_nat i + 1) * 4096)) by lia. rewrite (Z.mod_small (buf + (Z.of_nat i + 1) * 4096)) by lia. rewrite Z.mod_small; lia.
Qed.

(** More blocks than one list page can name are accepted, and their list is then refused. *)
Lemma long_transfer_refused buf count page dest : buf mod 4096 = 0 -> 513 < count <= 2048 -> page <> 0 -> page mod 4096 = 0 ->
  derive_prp_pair_for_blocks buf count page = Ok (PrpList (count - 1), buf, page) /\ write_prp_list_entries buf (count - 1) dest = Err TooManyEntries.
Proof.
  intros Hb Hc Hp0 Hp. rewrite derive_layout by (done || lia || by intros). rewrite (proj2 (Z.eqb_neq count 1)), (proj2 (Z.eqb_neq count 2)) by lia. split; [done|].
  unfold write_prp_list_entries, PRP_ENTRIES_PER_LIST_PAGE. by rewrite (proj2 (Z.ltb_lt _ _)) by lia.
Qed.

(** *** Sessions with a controller *)

(** The session holds the host's half of the system. *)
Definition session_of (a : AdminSession) (s : NvmeSys) : Prop := as_qp a = ny_qp s /\ as_sq_page a = ny_sq_page s /\ as_cq_page a = ny_cq_page s.

Section WithController.
Context (n m qid dstrd : Z) (Hn : 0 < n < 2 ^ 16) (Hm : 0 < m < 2 ^ 16) (Hqid : is_u16 qid) (Hdstrd : 0 <= dstrd < 16).

Lemma session_submit_spec encode a s : nvme_inv n m qid dstrd s -> session_of a s -> length (encode (as_next_cid a)) = ADMIN_SQE_BYTES -> Forall is_u8 (encode (as_next_cid a)) ->
  exists s' a', nvme_step (NSubmit (encode (as_next_cid a))) s = Done s' /\ nvme_inv n m qid dstrd s' /\ session_of a' s' /\
    as_next_cid a' = next_cid (as_next_cid a) /\
    ny_submitted s' = (if decide (outstanding s = n - 1) then ny_submitted s else ny_submitted s ++ [encode (as_next_cid a)]) /\
    session_submit encode a (ny_ctl s) = Done (if decide (outstanding s = n - 1) then Err QeFull else Ok (as_next_cid a), (a', ny_ctl s')).
Proof.
  intros H (E1 & E2 & E3) Hl Hu. destruct (step_inv n m qid dstrd Hn Hm Hqid Hdstrd (NSubmit (encode (as_next_cid a))) s) as (s' & Es & Hs'); [done|done|].
  pose proof Es as E0. cbn [nvme_step] in Es. unfold session_submit. rewrite E1, E2, E3.
  rewrite (qp_submit_spec n m qid dstrd Hn Hm Hqid Hdstrd s _ H) in Es |- *. cbn [mbind run_bind] in Es |- *.
  destruct (decide (outstanding s = n - 1)); injection Es as Es; subst s'; (eexists _, _; split; [exact E0|]; split; [exact Hs'|]; split; [|split; [|split; [|reflexivity]]]; [by split|done|done]).
Qed.

Lemma poll_spec cid limit a s : nvme_inv n m qid dstrd s -> session_of a s ->
  let pending := take limit (drop (length (ny_taken s)) (ct_posted (ny_ctl s))) in
  exists k s' a', nvme_run (replicate k NDrain) s = Done s' /\ nvme_inv n m qid dstrd s' /\ session_of a' s' /\
    poll_completion_for_cid cid limit a (ny_ctl s) = Done (Ok (List.find (fun f => cq_cid f =? cid) pending), (a', ny_ctl s')).
Proof.
  revert a s. induction limit as [|limit IH]; intros a s H Ha; [by exists 0%nat, s, a|].
  destruct a as [aqp asq acq cid0], Ha as (E1 & E2 & E3). cbn [as_qp as_sq_page as_cq_page] in E1, E2, E3. subst aqp asq acq. cbv zeta.
  destruct (step_inv n m qid dstrd Hn Hm Hqid Hdstrd NDrain s) as (s1 & Es & H1); [done|done|]. pose proof Es as Es0.
  cbn [nvme_step] in Es. cbn [poll_completion_for_cid as_qp as_sq_page as_cq_page as_next_cid]. rewrite (drain_spec n m qid dstrd Hn Hm Hqid Hdstrd s H) in Es |- *. cbn [mbind run_bind] in Es |- *.
  destruct (ct_posted (ny_ctl s) !! length (ny_taken s)) as [f|] eqn:Ef; cbn [fst snd] in *.
  - rewrite (drop_S _ f _ Ef). cbn [take firstn List.find]. injection Es as Es. destruct (cq_cid f =? cid).
    + exists 1%nat, s1. eexists. cbn [replicate nvme_run]. rewrite Es0. split; [done|]. split; [done|]. subst s1. split; [|reflexivity]. by split.
    + assert (ny_ctl s1 = set_doorbells (ct_sq_db (ny_ctl s)) ((Z.of_nat (length (ny_taken s)) + 1) mod m) (ny_ctl s)) as Ec by (by subst s1).
      rewrite <- Ec. destruct (IH {| as_qp := taken_qp n m qid dstrd s f; as_sq_page := ny_sq_page s; as_cq_page := ny_cq_page s; as_next_cid := cid0 |} s1 H1)
        as (k & s2 & a2 & R2 & H2 & A2 & P2); [by subst s1|].
      exists (S k), s2, a2. cbn [replicate nvme_run]. rewrite Es0. split; [done|]. split; [done|]. split; [done|]. rewrite P2.
      do 4 f_equal. f_equal. subst s1. cbn [ny_taken ny_ctl ct_posted set_doorbells]. rewrite length_app. cbn [length]. f_equal. lia.
  - apply lookup_ge_None in Ef. rewrite drop_ge by done. cbn [take firstn List.find]. injection Es as <-.
    destruct (IH {| as_qp := ny_qp s; as_sq_page := ny_sq_page s; as_cq_page := ny_cq_page s; as_next_cid := cid0 |} s H) as (k & s2 & a2 & R2 & H2 & A2 & P2); [by split|].
    exists k, s2, a2. split; [done|]. split; [done|]. split; [done|]. rewrite P2. do 3 f_equal. rewrite drop_ge by done. by rewrite take_nil.
Qed.
End WithController.

(** ** Theorem *)

Definition req_count (req : BlkRequest) : Z := match req with BlkRead _ c _ | BlkWrite _ c _ => c | _ => 0 end.
Definition req_buf (req : BlkRequest) : Z := match req with BlkRead _ _ b | BlkWrite _ _ b => b | _ => 0 end.

(** The request's fields, and the address of the list page, at their widths. *)
Definition request_typed (req : BlkRequest) (page : Z) : Prop :=
  is_u64 page /\ match req with BlkRead lba c b | BlkWrite lba c b => is_u64 lba /\ is_u32 c /\ is_u64 b | BlkFlush => True | BlkDiscard lba c => is_u64 lba /\ is_u32 c end.

(** Why a request never reaches the queue, in the order of the checks. *)
Definition request_refused (req : BlkRequest) (page : Z) : option IoSubmitError :=
  match req with
  | BlkRead _ c b | BlkWrite _ c b =>
      if decide (b mod 4096 <> 0) then Some (IsePrpDerive BufferMisaligned) else
      if decide (c = 0) then Some (IsePrpDerive ZeroBlockCount) else
      if decide (2048 < c) then Some (IsePrpDerive TooManyBlocks) else
      if decide (c <= 2) then None else
      if decide (page = 0) then Some (IsePrpDerive PrpListPageMissing) else
      if decide (page mod 4096 <> 0) then Some (IsePrpDerive PrpListPageMisaligned) else None
  | BlkFlush => None
  | BlkDiscard _ _ => Some DiscardRequiresExplicitPrp
  end.

(** One list page is enough, and the buffer ends below 2^64. *)
Definition list_fits (req : BlkRequest) : Prop := req_count req <= 513 /\ req_buf req + 4096 * req_count req <= 2 ^ 64.

(** The pages of the request's buffer. *)
Definition req_pages (req : BlkRequest) : list Z := map (fun i => req_buf req + 4096 * Z.of_nat i) (seq 0 (Z.to_nat (req_count req))).

(** The list page after the driver has written the entries it needs. *)
Definition list_written (req : BlkRequest) (page : Z) (dest dest' : list Z) : Prop :=
  match derive_prp_pair_for_blocks (req_buf req) (req_count req) page with
  | Ok (PrpList k, _, _) => write_prp_list_entries (req_buf req) k dest = Ok dest'
  | _ => dest' = dest
  end.

(** A transfer that passes the checks has its two pointers. *)
Lemma derive_accepts b c page : b mod 4096 = 0 -> 1 <= c <= 2048 -> (3 <= c -> page <> 0 /\ page mod 4096 = 0) -> is_u64 b -> is_u64 page ->
  exists layout prp1 prp2, derive_prp_pair_for_blocks b c page = Ok (layout, prp1, prp2) /\ is_u64 prp1 /\ is_u64 prp2.
Proof.
  intros Hb Hc Hp Ub Up. rewrite derive_layout by done. unfold is_u64, wrap64 in *. pose proof (Z.mod_pos_bound (b + 4096) (2 ^ 64) ltac:(lia)).
  destruct (c =? 1); [|destruct (c =? 2)]; (eexists _, _, _; split; [reflexivity|]); lia.
Qed.

Lemma derive_refuses b c page e : is_u32 c -> request_refused (BlkRead 0 c b) page = Some (IsePrpDerive e) -> derive_prp_pair_for_blocks b c page = Err e.
Proof.
  intros Hc. unfold request_refused, derive_prp_pair_for_blocks. destruct (decide (b mod 4096 <> 0)) as [Hb|Hb].
  { intros [= <-]. destruct (is_prp_aligned b) eqn:E; [by apply prp_aligned in E|done]. }
  rewrite (proj2 (prp_aligned b)) by lia. cbn [negb]. destruct (decide (c = 0)) as [->|H0]; [by intros [= <-]|]. rewrite (proj2 (Z.eqb_neq c 0)) by done. unfold MAX_BLOCK_COUNT_PER_COMMAND.
  destruct (decide (2048 < c)) as [Hl|Hl]; [intros [= <-]; by rewrite (proj2 (Z.ltb_lt 2048 c))|]. rewrite (proj2 (Z.ltb_ge 2048 c)) by lia. destruct (decide (c <= 2)); [done|].
  unfold is_u32 in Hc. unfold block_payload_bytes, checked_mul64, PRP_PAGE_SIZE. rewrite (proj2 (Z.ltb_lt _ _)) by lia. unfold prp_layout, PRP_PAGE_SIZE. rewrite !(proj2 (Z.leb_gt _ _)) by lia. cbn [andb].
  destruct (decide (page = 0)) as [->|Hp0]; [by intros [= <-]|]. rewrite (proj2 (Z.eqb_neq page 0)) by done. destruct (decide (page mod 4096 <> 0)) as [Hp|Hp]; [|done].
  intros [= <-]. destruct (is_prp_aligned page) eqn:E; [by apply prp_aligned in E|done].
Qed.

Lemma auto_refused {D : Type} {HD : Mmio D} req page e (s : IoSession) (mmio : D) : request_typed req page -> request_refused req page = Some e ->
  submit_blk_request_auto req page s mmio = Done (Err e, (s, mmio)).
Proof.
  intros [_ Ht] He. unfold submit_blk_request_auto. destruct req as [lba c b|lba c b| |lba c]; [| |done|by injection He as <-].
  all: destruct Ht as (_ & Hc & _); destruct e as [e| | |]; try solve [exfalso; unfold request_refused in He; repeat (destruct (decide _); try discriminate He)]; by rewrite (derive_refuses b c page e Hc He).
Qed.

(** What is handed to the queue when nothing is refused. *)
Lemma auto_prps req page : request_typed req page -> request_refused req page = None -> exists prp1 prp2, is_u64 prp1 /\ is_u64 prp2 /\ request_ok req /\
    (list_fits req -> forall dest, (4096 <= length dest)%nat -> exists dest', list_written req page dest dest' /\ prp_pages (Z.to_nat (req_count req)) prp1 prp2 dest' = req_pages req) /\
    forall (D : Type) (HD : Mmio D) (s : IoSession) (mmio : D), submit_blk_request_auto req page s mmio =
      ('(r, st) ← submit_blk_request req prp1 prp2 s mmio;
       Done (match r with Err e => Err (IseQueue e) | Ok None => Err UnsupportedRequest | Ok (Some cid) => Ok cid end, st)).
Proof.
  intros [Up Ht] Hr. destruct req as [lba c b|lba c b| |lba c]; [| | |done].
  3: exists 0, 0; split; [done|]; split; [done|]; split; [exact I|]; split; [intros _ dest _; by exists dest|done].
  all: destruct Ht as (Ul & Uc & Ub); unfold request_refused in Hr; destruct (decide (b mod 4096 <> 0)) as [|Hb]; [done|]; destruct (decide (c = 0)) as [|H0]; [done|]; destruct (decide (2048 < c)) as [|Hc]; [done|]; unfold is_u32 in Uc;
    assert (3 <= c -> page <> 0 /\ page mod 4096 = 0) as Hp by (intros H3; destruct (decide (c <= 2)); [lia|]; destruct (decide (page = 0)); [done|]; destruct (decide (page mod 4096 <> 0)); [done|]; lia);
    destruct (derive_accepts b c page ltac:(lia) ltac:(lia) Hp Ub Up) as (lay & p1 & p2 & E & U1 & U2); exists p1, p2; split; [done|]; split; [done|]; split; [split; [done|]; split; [lia|done]|]; split.
  1, 3: intros [Hfit Hend] dest Hd; cbn [req_count req_buf] in *; destruct (prp_pages_exact b c page dest Ub ltac:(lia) ltac:(lia) Hend Hp Hd) as (lay' & q1 & q2 & d' & E' & W & P);
    rewrite E in E'; injection E' as <- <- <-; exists d'; split; [|exact P]; unfold list_written; cbn [req_buf req_count]; rewrite E; by destruct lay.
  all: intros D HD s mmio; unfold submit_blk_request_auto; by rewrite E.
Qed.


(** ** Witness *)

Definition demo_io_ops : list nvme_op := [NSubmit (demo_sqe 1); NFetch; NPost 0 {| oc_cdw0 := 0; oc_sc := 0x80; oc_sct := 0; oc_more := false; oc_dnr := true |}].

Definition demo_io (s : NvmeSys) : IoSession :=
  {| io_session := {| as_qp := ny_qp s; as_sq_page := ny_sq_page s; as_cq_page := ny_cq_page s; as_next_cid := 2 |}; io_nsid := 1 |}.

Lemma demo_io_ops_ok : Forall nvme_op_ok demo_io_ops.
Proof.
  unfold demo_io_ops, nvme_op_ok, outcome_ok, is_u8, is_u32. repeat (apply Forall_cons; split); try exact I; try (cbn; lia); [|by apply Forall_nil].
  split; [reflexivity|apply (bool_decide_unpack _); vm_compute; reflexivity].
Qed.

