(* ===== verification/Bringup.v ===== *)
(** * Driver bring-up (bringup.rs of omni-driver-nvme, omni-driver-net-virtio
    and omni-driver-e1000e; bringup_live.rs and io_error.rs of omni-driver-nvme)

    The three drivers start their device by the same machine over phases of
    their own.  [BringUpPhases] is what a driver supplies, [PhaseLaws] what the
    machine relies on; each driver's phases are an instance. *)

From Stdlib Require Import ZArith Lia.
From stdpp Require Import base numbers list.
From S2P Require Import Prelude Ring NvmeQueue NvmeIo.

(** ** The machine *)

Inductive Event (E : Type) := Advance | Retry | Abort (err : E).
Arguments Advance {E}.
Arguments Retry {E}.
Arguments Abort {E}.

(** The phases of a driver, and the two errors the machine itself raises. *)
Class BringUpPhases (P E : Type) := {
  phase_next : P -> option P;
  phase_is_terminal : P -> bool;
  phase_is_live : P -> bool;
  phase_start : P;
  phase_failed : P;
  err_retry_budget : E;
  err_terminal : E;
}.

Definition MAX_RETRIES : Z := 3.

Record BringUp (P : Type) := { phase : P; retries : Z }.
Arguments phase {P}.
Arguments retries {P}.

Section Machine.
Context {P E : Type} `{BringUpPhases P E}.

Definition bring_up_new : BringUp P := {| phase := phase_start; retries := 0 |}.

Definition on_event (event : Event E) (b : BringUp P) : result E (BringUp P) * BringUp P :=
  match event with
  | Advance =>
      if phase_is_terminal (phase b) then (Err err_terminal, {| phase := phase_failed; retries := 0 |}) else
      let b := match phase_next (phase b) with Some next => {| phase := next; retries := 0 |} | None => b end in
      (Ok b, b)
  | Retry =>
      if phase_is_terminal (phase b) then (Err err_terminal, {| phase := phase_failed; retries := retries b |}) else
      let r := Z.min (retries b + 1) 255 in
      if MAX_RETRIES <=? r then (Err err_retry_budget, {| phase := phase_failed; retries := 0 |}) else
      let b := {| phase := phase b; retries := r |} in (Ok b, b)
  | Abort err => (Err err, {| phase := phase_failed; retries := 0 |})
  end.

Definition run_events (events : list (Event E)) (b : BringUp P) : BringUp P := fold_left (fun b e => snd (on_event e b)) events b.
End Machine.

(** What the phases of a driver are: a chain of [last] steps to the only live phase. *)
Class PhaseLaws (P E : Type) `{BringUpPhases P E} (last : nat) := {
  phase_rank : P -> nat;
  rank_start : phase_rank phase_start = 0%nat;
  start_pending : phase_is_terminal phase_start = false;
  rank_next : forall p q, phase_next p = Some q -> phase_rank q = S (phase_rank p);
  terminal_next : forall p, phase_next p = None <-> phase_is_terminal p = true;
  pending_rank : forall p, phase_is_terminal p = false -> (phase_rank p < last)%nat;
  next_live : forall p q, phase_next p = Some q -> phase_is_terminal q = phase_is_live q;
  live_rank : forall p, phase_is_live p = true -> phase_is_terminal p = true /\ phase_rank p = last;
  failed_dead : phase_is_terminal phase_failed = true /\ phase_is_live phase_failed = false;
}.

(** One phase passed: at most two failed tries, then success. *)
Definition passes {E} (k : nat) : list (Event E) := replicate k Retry ++ [Advance].

(** The sequences of events that bring a device up through [last] phases. *)
Definition brings_up {E} (last : nat) (events : list (Event E)) : Prop :=
  exists ks, length ks = last /\ Forall (fun k => (k < 3)%nat) ks /\ events = concat (map passes ks).

Section MachineLemmas.
Context {P E : Type} `{Hphases : BringUpPhases P E} {last : nat} `{!PhaseLaws P E last}.

Definition bring_up_ok (b : BringUp P) : Prop := 0 <= retries b < MAX_RETRIES.

Lemma on_event_ok e b : bring_up_ok b -> bring_up_ok (snd (on_event e b)).
Proof.
  unfold bring_up_ok, MAX_RETRIES, on_event. intros Hb. destruct e as [| |err]; [| |cbn; lia].
  - destruct (phase_is_terminal (phase b)); [cbn; lia|]. by destruct (phase_next (phase b)); cbn; lia.
  - destruct (phase_is_terminal (phase b)); [cbn; lia|]. unfold MAX_RETRIES. destruct (Z.leb_spec 3 (Z.min (retries b + 1) 255)); cbn; lia.
Qed.

(** A failed machine stays failed. *)
Lemma failed_stays events b : phase b = phase_failed -> phase (run_events events b) = phase_failed.
Proof.
  revert b. induction events as [|e events IH]; intros b Hb; [done|]. apply IH. destruct e; cbn [on_event snd phase]; [| |done].
  all: rewrite Hb, (proj1 failed_dead); done.
Qed.

Lemma failed_not_live events b : phase b = phase_failed -> phase_is_live (phase (run_events events b)) = false.
Proof. intros Hb. rewrite failed_stays by done. apply failed_dead. Qed.

(** Events still needed, whatever they are. *)
Definition fuel_left (b : BringUp P) : nat := if phase_is_terminal (phase b) then 0 else (3 * (last - phase_rank (phase b)) - Z.to_nat (retries b))%nat.

Lemma on_event_fuel e b : bring_up_ok b -> (fuel_left (snd (on_event e b)) <= fuel_left b - 1)%nat.
Proof.
  unfold bring_up_ok, MAX_RETRIES, fuel_left. intros Hb. pose proof (proj1 failed_dead) as Hf. destruct e as [| |err]; cbn [on_event snd phase]; [| |rewrite Hf; lia].
  - destruct (phase_is_terminal (phase b)) eqn:Et; cbn [snd phase]; [rewrite Hf; lia|]. destruct (phase_next (phase b)) as [q|] eqn:En.
    + cbn [snd phase retries]. rewrite (rank_next _ _ En). destruct (phase_is_terminal q); [lia|]. pose proof (pending_rank _ Et). lia.
    + apply terminal_next in En. congruence.
  - destruct (phase_is_terminal (phase b)) eqn:Et; cbn [snd phase]; [rewrite Hf; lia|]. unfold MAX_RETRIES. destruct (Z.leb_spec 3 (Z.min (retries b + 1) 255)); cbn [snd phase retries]; [rewrite Hf; lia|].
    rewrite Et. pose proof (pending_rank _ Et). lia.
Qed.

Lemma run_terminates events b : bring_up_ok b -> (fuel_left b <= length events)%nat -> phase_is_terminal (phase (run_events events b)) = true.
Proof.
  revert b. induction events as [|e events IH]; intros b Hb Hl.
  - cbn [run_events fold_left length] in *. unfold fuel_left in Hl. destruct (phase_is_terminal (phase b)) eqn:Et; [done|]. pose proof (pending_rank _ Et). unfold bring_up_ok, MAX_RETRIES in Hb. lia.
  - cbn [length] in Hl. pose proof (on_event_fuel e b Hb). apply IH; [by apply on_event_ok|lia].
Qed.

(** The sequences that lead from [r] retries over [n] phases to the live one. *)
Fixpoint succeeds (n r : nat) (events : list (Event E)) : Prop :=
  match events with
  | [] => n = 0%nat
  | Advance :: events => match n with O => False | S n => succeeds n 0 events end
  | Retry :: events => n <> 0%nat /\ (r < 2)%nat /\ succeeds n (S r) events
  | Abort _ :: _ => False
  end.

Lemma run_live events b : bring_up_ok b -> (phase_is_terminal (phase b) = phase_is_live (phase b)) ->
  phase_is_live (phase (run_events events b)) = true <-> succeeds (last - phase_rank (phase b)) (Z.to_nat (retries b)) events.
Proof.
  revert b. induction events as [|e events IH]; intros b Hb Ht; cbn [run_events fold_left succeeds].
  - split; intros Hl; [destruct (live_rank _ Hl); lia|]. destruct (phase_is_terminal (phase b)) eqn:Et; [done|]. pose proof (pending_rank _ Et). lia.
  - fold (run_events events (snd (on_event e b))). pose proof (on_event_ok e b Hb) as Hb'. unfold bring_up_ok, MAX_RETRIES in Hb. destruct e as [| |err]; cbn [on_event snd] in *.
    + destruct (phase_is_terminal (phase b)) eqn:Et; cbn [snd] in *.
      * destruct (live_rank (phase b)) as [_ ->]; [done|]. rewrite Nat.sub_diag, failed_not_live by done. done.
      * pose proof (pending_rank _ Et). destruct (phase_next (phase b)) as [q|] eqn:En; [|apply terminal_next in En; congruence]. cbn [snd] in *.
        destruct (last - phase_rank (phase b))%nat as [|k] eqn:Ek; [lia|]. rewrite IH; [|done|by apply (next_live _ _ En)]. cbn [phase retries]. rewrite (rank_next _ _ En).
        replace (last - S (phase_rank (phase b)))%nat with k by lia. done.
    + destruct (phase_is_terminal (phase b)) eqn:Et; cbn [snd] in *.
      * destruct (live_rank (phase b)) as [_ ->]; [done|]. rewrite Nat.sub_diag, failed_not_live by done. split; [done|]. by intros [[] _].
      * pose proof (pending_rank _ Et). unfold MAX_RETRIES in *. destruct (Z.leb_spec 3 (Z.min (retries b + 1) 255)); cbn [snd] in *.
        -- rewrite failed_not_live by done. split; [done|]. intros (_ & Hr & _). lia.
        -- rewrite IH; [|done|cbn [phase]; congruence]. cbn [phase retries]. replace (Z.to_nat (Z.min (retries b + 1) 255)) with (S (Z.to_nat (retries b))) by lia.
           split; [intros Hs; split; [lia|]; split; [lia|done]|by intros (_ & _ & Hs)].
    + rewrite failed_not_live by done. done.
Qed.

Lemma succeeds_brings_up n r events : (r < 3)%nat ->
  succeeds n r events <-> match n with O => events = [] | S m => exists k ks, (r + k < 3)%nat /\ length ks = m /\ Forall (fun k => (k < 3)%nat) ks /\ events = passes k ++ concat (map passes ks) end.
Proof.
  revert n r. induction events as [|e events IH]; intros n r Hr; cbn [succeeds].
  - destruct n as [|m]; [done|]. split; [done|]. intros (k & ks & _ & _ & _ & He). destruct k; cbn in He; discriminate He.
  - destruct e as [| |err].
    + destruct n as [|m]; [done|]. rewrite IH by lia. split.
      * intros Hs. exists 0%nat. destruct m as [|m]; [exists []; subst events; split; [lia|]; split; [done|]; split; [by apply Forall_nil|done]|].
        destruct Hs as (k & ks & Hk & Hl & Hf & ->). exists (k :: ks). split; [lia|]. cbn [length]. split; [lia|]. split; [constructor; [lia|done]|done].
      * intros (k & ks & _ & Hl & Hf & He). destruct k as [|k]; [|done]. cbn in He. injection He as ->. destruct ks as [|k ks]; cbn [length] in Hl; subst m; [done|].
        apply Forall_cons in Hf as [Hk Hf]. by exists k, ks.
    + destruct n as [|m]; [split; [by intros (? & _)|done]|]. split.
      * intros (_ & H2 & Hs). apply (IH (S m) (S r)) in Hs as (k & ks & Hk & Hl & Hf & ->); [|lia]. exists (S k), ks. split; [lia|]. by split.
      * intros (k & ks & Hk & Hl & Hf & He). destruct k as [|k]; [done|]. cbn in He. injection He as ->. split; [done|]. split; [lia|].
        apply (IH (S m) (S r)); [lia|]. exists k, ks. split; [lia|]. by split.
    + destruct n as [|m]; [done|]. split; [done|]. intros (k & ks & _ & _ & _ & He). destruct k; cbn in He; discriminate He.
Qed.

(** From the start, the device is live exactly after [last] passed phases. *)
Lemma bring_up_live events : phase_is_live (phase (run_events events bring_up_new)) = true <-> brings_up last events.
Proof.
  assert (0 < last)%nat as Hlast by (pose proof (pending_rank _ start_pending) as Hp; rewrite rank_start in Hp; done).
  assert (phase_is_live phase_start = false) as Hs.
  { destruct (phase_is_live phase_start) eqn:El; [|done]. destruct (live_rank _ El) as [Et _]. by rewrite start_pending in Et. }
  rewrite run_live; [|unfold bring_up_ok, bring_up_new, MAX_RETRIES; cbn; lia|cbn [phase bring_up_new]; by rewrite start_pending, Hs].
  cbn [bring_up_new phase retries]. rewrite rank_start, Nat.sub_0_r, succeeds_brings_up by lia. unfold brings_up. destruct last as [|m]; [lia|]. split.
  - intros (k & ks & Hk & Hl & Hf & ->). exists (k :: ks). cbn [length]. split; [lia|]. split; [by constructor|done].
  - intros ([|k ks] & Hl & Hf & ->); [done|]. apply Forall_cons in Hf as [Hk Hf]. cbn in Hl. exists k, ks. split; [lia|]. split; [lia|]. by split.
Qed.

(** An error leaves the machine failed; otherwise the answer is the new state. *)
Lemma on_event_answer e b : match fst (on_event e b) with Ok b' => b' = snd (on_event e b) | Err _ => phase (snd (on_event e b)) = phase_failed end.
Proof.
  destruct e as [| |err]; cbn [on_event]; [| |done].
  - by destruct (phase_is_terminal (phase b)).
  - destruct (phase_is_terminal (phase b)); [done|]. by destruct (MAX_RETRIES <=? Z.min (retries b + 1) 255).
Qed.

Lemma bring_up_terminates events : (3 * last <= length events)%nat -> phase_is_terminal (phase (run_events events bring_up_new)) = true.
Proof.
  intros Hl. apply run_terminates; [unfold bring_up_ok, MAX_RETRIES; cbn; lia|]. unfold fuel_left. destruct (phase_is_terminal _); lia.
Qed.
End MachineLemmas.

(** ** The NVMe driver's phases *)

Module NvmePhases.
Inductive NvmePhase := PciEnumeration | MmioMap | ReadCap | DisableController | SetupAdminQueues | EnableController | AttachInterrupts | IdentifyController |
  IdentifyActiveNsList | IdentifyNamespace | CreateIoQueues | RegisterBlkChannel | Ready | Failed.

#[global] Instance phase_eq_dec : EqDecision NvmePhase.
Proof. solve_decision. Defined.

Inductive NvmeBringUpError := NoMatchingDevice | MmioMapFailed | UnsupportedNvmeVersion | UnsupportedPageSize | ControllerReadyTimeout | ControllerFatal | DmaMapFailed |
  IrqAttachFailed | AdminCommandFailed | UnsupportedSectorSize | BlkChannelRegistrationFailed | InvalidManifestQueueDepth | RetryBudgetExhausted | TerminalAdvanceAttempted.

Inductive NvmeStepKind := EnumeratePci | MapControllerRegisters | ReadCapabilities | WriteControllerConfig (en : Z) | AllocateAdminQueues | AttachMsiXVectors |
  SubmitIdentifyController | SubmitIdentifyActiveNsList | SubmitIdentifyNamespace | CreateIoQueuePair | RegisterBlkChannelStep | EnterBlkLoop | ParkExit.

Definition nvme_next (p : NvmePhase) : option NvmePhase :=
  match p with
  | PciEnumeration => Some MmioMap | MmioMap => Some ReadCap | ReadCap => Some DisableController | DisableController => Some SetupAdminQueues
  | SetupAdminQueues => Some EnableController | EnableController => Some AttachInterrupts | AttachInterrupts => Some IdentifyController
  | IdentifyController => Some IdentifyActiveNsList | IdentifyActiveNsList => Some IdentifyNamespace | IdentifyNamespace => Some CreateIoQueues
  | CreateIoQueues => Some RegisterBlkChannel | RegisterBlkChannel => Some Ready | Ready | Failed => None
  end.

Definition nvme_is_terminal (p : NvmePhase) : bool := match p with Ready | Failed => true | _ => false end.
Definition nvme_is_live (p : NvmePhase) : bool := match p with Ready => true | _ => false end.

#[global] Instance nvme_phases : BringUpPhases NvmePhase NvmeBringUpError :=
  {| phase_next := nvme_next; phase_is_terminal := nvme_is_terminal; phase_is_live := nvme_is_live; phase_start := PciEnumeration; phase_failed := Failed;
     err_retry_budget := RetryBudgetExhausted; err_terminal := TerminalAdvanceAttempted |}.

Definition nvme_pending_step (b : BringUp NvmePhase) : NvmeStepKind :=
  match phase b with
  | PciEnumeration => EnumeratePci | MmioMap => MapControllerRegisters | ReadCap => ReadCapabilities | DisableController => WriteControllerConfig 0
  | SetupAdminQueues => AllocateAdminQueues | EnableController => WriteControllerConfig 1 | AttachInterrupts => AttachMsiXVectors
  | IdentifyController => SubmitIdentifyController | IdentifyActiveNsList => SubmitIdentifyActiveNsList | IdentifyNamespace => SubmitIdentifyNamespace
  | CreateIoQueues => CreateIoQueuePair | RegisterBlkChannel => RegisterBlkChannelStep | Ready => EnterBlkLoop | Failed => ParkExit
  end.

(** The discriminants. *)
Definition nvme_rank (p : NvmePhase) : nat :=
  match p with
  | PciEnumeration => 0 | MmioMap => 1 | ReadCap => 2 | DisableController => 3 | SetupAdminQueues => 4 | EnableController => 5 | AttachInterrupts => 6
  | IdentifyController => 7 | IdentifyActiveNsList => 8 | IdentifyNamespace => 9 | CreateIoQueues => 10 | RegisterBlkChannel => 11 | Ready => 12 | Failed => 13
  end.
End NvmePhases.

(** ** The virtio network driver's phases *)

Module VirtioPhases.
Inductive VirtioPhase := Reset | Acknowledge | FeatureNegotiation | FeaturesLocked | VirtqueueSetup | MacAcquired | DriverOk | Failed.

Inductive VirtioBringUpError := DeviceFailed | RequiredFeaturesAbsent | FeaturesNotAccepted | MmioMapFailed | DmaMapFailed | IrqAttachFailed | RetryBudgetExhausted | TerminalAdvanceAttempted.

Inductive VirtioStepKind := WriteDeviceStatus (status : Z) | NegotiateFeatures | ReadDeviceStatus | ConfigureVirtqueues | ReadMac | SetDriverOk | ParkExit.

Definition virtio_next (p : VirtioPhase) : option VirtioPhase :=
  match p with
  | Reset => Some Acknowledge | Acknowledge => Some FeatureNegotiation | FeatureNegotiation => Some FeaturesLocked | FeaturesLocked => Some VirtqueueSetup
  | VirtqueueSetup => Some MacAcquired | MacAcquired => Some DriverOk | DriverOk | Failed => None
  end.

Definition virtio_is_terminal (p : VirtioPhase) : bool := match p with DriverOk | Failed => true | _ => false end.
Definition virtio_is_live (p : VirtioPhase) : bool := match p with DriverOk => true | _ => false end.

#[global] Instance virtio_phases : BringUpPhases VirtioPhase VirtioBringUpError :=
  {| phase_next := virtio_next; phase_is_terminal := virtio_is_terminal; phase_is_live := virtio_is_live; phase_start := Reset; phase_failed := Failed;
     err_retry_budget := RetryBudgetExhausted; err_terminal := TerminalAdvanceAttempted |}.

Definition virtio_pending_step (b : BringUp VirtioPhase) : VirtioStepKind :=
  match phase b with
  | Reset => WriteDeviceStatus 0x00 | Acknowledge => WriteDeviceStatus 0x03 | FeatureNegotiation => NegotiateFeatures | FeaturesLocked => ReadDeviceStatus
  | VirtqueueSetup => ConfigureVirtqueues | MacAcquired => ReadMac | DriverOk => SetDriverOk | Failed => ParkExit
  end.

(** The discriminants. *)
Definition virtio_rank (p : VirtioPhase) : nat :=
  match p with Reset => 0 | Acknowledge => 1 | FeatureNegotiation => 2 | FeaturesLocked => 3 | VirtqueueSetup => 4 | MacAcquired => 5 | DriverOk => 6 | Failed => 7 end.
End VirtioPhases.

(** ** The e1000e driver's phases *)

Module E1000ePhases.
Inductive E1000ePhase := PciEnumeration | MmioMap | DisableInterrupts | GlobalReset | ReadMac | PhyInit | SetupRxRing | PostRxBuffers | SetupTxRing | ConfigureRxTx |
  EnableInterrupts | AttachIrq | RegisterNetChannel | Ready | Failed.

Inductive E1000eBringUpError := NoMatchingDevice | MmioMapFailed | ResetTimeout | InvalidMac | PhyInitFailed | DmaMapFailed | IrqAttachFailed | NetChannelRegistrationFailed |
  InvalidRingDepth | RetryBudgetExhausted | TerminalAdvanceAttempted.

Inductive E1000eStepKind := EnumeratePci | MapControllerRegisters | WriteImcMaskAll | TriggerCtrlReset | ReadReceiveAddress | IssueMdioAutonegotiate | AllocateRxRing |
  PrepostRxBuffers | AllocateTxRing | WriteRctlTctl | WriteImsEnabled | AttachMsiXVector | RegisterNetChannelStep | EnterRxTxLoop | ParkExit.

Definition e1000e_next (p : E1000ePhase) : option E1000ePhase :=
  match p with
  | PciEnumeration => Some MmioMap | MmioMap => Some DisableInterrupts | DisableInterrupts => Some GlobalReset | GlobalReset => Some ReadMac | ReadMac => Some PhyInit
  | PhyInit => Some SetupRxRing | SetupRxRing => Some PostRxBuffers | PostRxBuffers => Some SetupTxRing | SetupTxRing => Some ConfigureRxTx
  | ConfigureRxTx => Some EnableInterrupts | EnableInterrupts => Some AttachIrq | AttachIrq => Some RegisterNetChannel | RegisterNetChannel => Some Ready | Ready | Failed => None
  end.

Definition e1000e_is_terminal (p : E1000ePhase) : bool := match p with Ready | Failed => true | _ => false end.
Definition e1000e_is_live (p : E1000ePhase) : bool := match p with Ready => true | _ => false end.

#[global] Instance e1000e_phases : BringUpPhases E1000ePhase E1000eBringUpError :=
  {| phase_next := e1000e_next; phase_is_terminal := e1000e_is_terminal; phase_is_live := e1000e_is_live; phase_start := PciEnumeration; phase_failed := Failed;
     err_retry_budget := RetryBudgetExhausted; err_terminal := TerminalAdvanceAttempted |}.

Definition e1000e_pending_step (b : BringUp E1000ePhase) : E1000eStepKind :=
  match phase b with
  | PciEnumeration => EnumeratePci | MmioMap => MapControllerRegisters | DisableInterrupts => WriteImcMaskAll | GlobalReset => TriggerCtrlReset | ReadMac => ReadReceiveAddress
  | PhyInit => IssueMdioAutonegotiate | SetupRxRing => AllocateRxRing | PostRxBuffers => PrepostRxBuffers | SetupTxRing => AllocateTxRing | ConfigureRxTx => WriteRctlTctl
  | EnableInterrupts => WriteImsEnabled | AttachIrq => AttachMsiXVector | RegisterNetChannel => RegisterNetChannelStep | Ready => EnterRxTxLoop | Failed => ParkExit
  end.

(** The discriminants. *)
Definition e1000e_rank (p : E1000ePhase) : nat :=
  match p with
  | PciEnumeration => 0 | MmioMap => 1 | DisableInterrupts => 2 | GlobalReset => 3 | ReadMac => 4 | PhyInit => 5 | SetupRxRing => 6 | PostRxBuffers => 7 | SetupTxRing => 8
  | ConfigureRxTx => 9 | EnableInterrupts => 10 | AttachIrq => 11 | RegisterNetChannel => 12 | Ready => 13 | Failed => 14
  end.
End E1000ePhases.

Ltac phase_laws := try (intros p; destruct p); cbn; intros; simplify_eq; cbn; try done; lia.

#[global] Instance nvme_laws : PhaseLaws NvmePhases.NvmePhase NvmePhases.NvmeBringUpError 12.
Proof. refine {| phase_rank := NvmePhases.nvme_rank |}; cbn; phase_laws. Defined.
#[global] Instance virtio_laws : PhaseLaws VirtioPhases.VirtioPhase VirtioPhases.VirtioBringUpError 6.
Proof. refine {| phase_rank := VirtioPhases.virtio_rank |}; cbn; phase_laws. Defined.
#[global] Instance e1000e_laws : PhaseLaws E1000ePhases.E1000ePhase E1000ePhases.E1000eBringUpError 13.
Proof. refine {| phase_rank := E1000ePhases.e1000e_rank |}; cbn; phase_laws. Defined.

(** ** Bring-up with a session (bringup_live.rs) *)

Section Live.
Import NvmePhases.
Context {D : Type} `{Mmio D}.

Definition DEFAULT_NSID : Z := 1.
Definition CIOSQ_QPRIO_MEDIUM : Z := 2.

Definition bringup_error_for (err : QueueError) : NvmeBringUpError := match err with ControllerNotReady => ControllerReadyTimeout | _ => AdminCommandFailed end.

Record CreateIoQueuesConfig := { cfg_cq_qid : Z; cfg_cq_qsize : Z; cfg_cq_prp1 : Z; cfg_cq_irq_vector : Z; cfg_sq_qid : Z; cfg_sq_qsize : Z; cfg_sq_prp1 : Z; cfg_sq_queue_priority : Z }.

Definition phase_1_default (cq_prp1 sq_prp1 cq_irq_vector : Z) : CreateIoQueuesConfig :=
  {| cfg_cq_qid := 1; cfg_cq_qsize := 1024; cfg_cq_prp1 := cq_prp1; cfg_cq_irq_vector := cq_irq_vector; cfg_sq_qid := 1; cfg_sq_qsize := 1024; cfg_sq_prp1 := sq_prp1;
     cfg_sq_queue_priority := CIOSQ_QPRIO_MEDIUM |}.

(** The event a finished command becomes. *)
Definition command_event (r : result QueueError AdminCqeFields) : Event NvmeBringUpError :=
  match r with Ok f => if is_success f then Advance else Abort AdminCommandFailed | Err e => Abort (bringup_error_for e) end.

(** The machine is passed by value: only the answer leaves the call. *)
Definition advance_create_io_queues (fsm : BringUp NvmePhase) (config : CreateIoQueuesConfig) (poll_limit : nat) (s : AdminSession) (mmio : D) :
  run (result NvmeBringUpError (BringUp NvmePhase) * (AdminSession * D)) :=
  if negb (bool_decide (phase fsm = CreateIoQueues)) then Done (fst (on_event Advance fsm), (s, mmio)) else
  '(cq, (s, mmio)) ← run_create_io_cq (cfg_cq_qid config) (cfg_cq_qsize config) (cfg_cq_prp1 config) (cfg_cq_irq_vector config) poll_limit s mmio;
  match command_event cq with
  | Advance =>
      '(sq, st) ← run_create_io_sq (cfg_sq_qid config) (cfg_sq_qsize config) (cfg_sq_prp1 config) (cfg_cq_qid config) (cfg_sq_queue_priority config) poll_limit s mmio;
      Done (fst (on_event (command_event sq) fsm), st)
  | e => Done (fst (on_event e fsm), (s, mmio))
  end.

Definition advance_with_admin_session (fsm : BringUp NvmePhase) (buf_iova : Z) (poll_limit : nat) (s : AdminSession) (mmio : D) :
  run (result NvmeBringUpError (BringUp NvmePhase) * (AdminSession * D)) :=
  let identify target := '(r, st) ← run_identify target buf_iova poll_limit s mmio; Done (fst (on_event (command_event r) fsm), st) in
  match phase fsm with
  | IdentifyController => identify ItController
  | IdentifyActiveNsList => identify ItActiveNsList
  | IdentifyNamespace => identify (ItNamespace DEFAULT_NSID)
  | _ => Done (fst (on_event Advance fsm), (s, mmio))
  end.
End Live.

(** ** Retries and resets (io_error.rs) *)

Definition MAX_IO_RETRIES : Z := 3.
Definition MAX_RESET_ATTEMPTS : Z := 2.

Inductive RetryVerdict := RvRetry | RvResetAndRetry | RvPermanent.
Inductive StatusCodeType := SctGeneric | SctCommandSpecific | SctMediaError | SctPathRelated | SctVendorSpecific | SctUnknown (sct : Z).

Definition sct_from_raw (sct : Z) : StatusCodeType :=
  if sct =? 0 then SctGeneric else if sct =? 1 then SctCommandSpecific else if sct =? 2 then SctMediaError else if sct =? 3 then SctPathRelated else
  if sct =? 7 then SctVendorSpecific else SctUnknown sct.

Inductive IoError := IoTimeout (polls_consumed : Z) | ControllerStatus (sct : StatusCodeType) (sc raw_status : Z) | IoTransport (e : QueueError) | NamespaceNotAdmitted (nsid : Z) | IoControllerFatal.

Definition from_status (sct_raw sc : Z) : IoError := ControllerStatus (sct_from_raw sct_raw) sc (Z.lor (Z.shiftl sct_raw 8) sc).

Definition classify_generic_sc (sc : Z) : RetryVerdict :=
  if (sc =? 0x00) || (sc =? 0x01) || (sc =? 0x02) || (sc =? 0x04) || (sc =? 0x05) || (sc =? 0x0B) || (sc =? 0x80) || (sc =? 0x81) then RvPermanent else RvRetry.

Definition classify_by_sct (sct : StatusCodeType) (sc : Z) : RetryVerdict :=
  match sct with SctGeneric => classify_generic_sc sc | SctMediaError | SctPathRelated => RvRetry | SctCommandSpecific | SctVendorSpecific | SctUnknown _ => RvPermanent end.

Definition verdict (e : IoError) : RetryVerdict :=
  match e with IoTimeout _ | IoControllerFatal => RvResetAndRetry | ControllerStatus sct sc _ => classify_by_sct sct sc | IoTransport _ | NamespaceNotAdmitted _ => RvPermanent end.

Inductive IoOutcome := IoSuccess | IoFailed (last_error : IoError) (attempts : Z) | IoResetRequired (cause : IoError).

Record ResetProtocol := { rp_attempts : Z; rp_max_attempts : Z }.
Definition reset_new : ResetProtocol := {| rp_attempts := 0; rp_max_attempts := MAX_RESET_ATTEMPTS |}.
Definition reset_is_exhausted (p : ResetProtocol) : bool := rp_max_attempts p <=? rp_attempts p.
Definition reset_record_attempt (p : ResetProtocol) : bool * ResetProtocol :=
  let p := {| rp_attempts := Z.min (rp_attempts p + 1) u32_max; rp_max_attempts := rp_max_attempts p |} in (negb (reset_is_exhausted p), p).

Record RetryTracker := { rt_attempts : Z; rt_max_retries : Z }.
Definition with_max_retries (max_retries : Z) : RetryTracker := {| rt_attempts := 0; rt_max_retries := max_retries |}.
Definition tracker_new : RetryTracker := with_max_retries MAX_IO_RETRIES.
Definition tracker_is_exhausted (t : RetryTracker) : bool := rt_max_retries t <=? rt_attempts t.
Definition tracker_record_attempt (t : RetryTracker) : bool * RetryTracker :=
  let t := {| rt_attempts := Z.min (rt_attempts t + 1) u32_max; rt_max_retries := rt_max_retries t |} in (rt_attempts t <=? rt_max_retries t, t).
Definition evaluate (t : RetryTracker) (error : IoError) : IoOutcome :=
  match verdict error with RvResetAndRetry => IoResetRequired error | RvRetry | RvPermanent => IoFailed error (rt_attempts t) end.

(** An attempt that uses the budget up is still answered with "room for another". *)
Lemma tracker_last_attempt : let t := Nat.iter 2 (fun t => snd (tracker_record_attempt t)) tracker_new in
  fst (tracker_record_attempt t) = true /\ tracker_is_exhausted (snd (tracker_record_attempt t)) = true.
Proof. vm_compute. done. Qed.

(** ** Theorem *)

(** What a driver of [last] phases promises of its machine after any events. *)
Definition bringup_contract (P E : Type) `{BringUpPhases P E} (last : nat) : Prop :=
  forall events : list (Event E), let b := run_events events bring_up_new in
    ((3 * last <= length events)%nat -> phase_is_terminal (phase b) = true) /\
    (phase_is_live (phase b) = true <-> brings_up last events) /\
    (forall e, match fst (on_event e b) with Ok b' => b' = snd (on_event e b) | Err _ => phase (snd (on_event e b)) = phase_failed end) /\
    (phase b = phase_failed -> forall events', phase (run_events events' b) = phase_failed).

Lemma contract_holds {P E : Type} `{BringUpPhases P E} {last : nat} `{!PhaseLaws P E last} : bringup_contract P E last.
Proof.
  intros events b. split; [apply bring_up_terminates|]. split; [apply bring_up_live|]. split; [intros e; apply on_event_answer|].
  intros Hb events'. by apply failed_stays.
Qed.

(** C33: bringing a device up always ends.  For each of the three drivers (12, 6 and 13 phases): after any events, three times as many as the driver has phases or more, the machine has stopped; it is live exactly when the events were, for every phase in order, at most two retries and an advance, and nothing else; an event answered by an error leaves the machine failed, and no event brings a failed machine back. *)
Theorem bringup_exact : bringup_contract NvmePhases.NvmePhase NvmePhases.NvmeBringUpError 12 /\
  bringup_contract VirtioPhases.VirtioPhase VirtioPhases.VirtioBringUpError 6 /\ bringup_contract E1000ePhases.E1000ePhase E1000ePhases.E1000eBringUpError 13.
Proof. split; [|split]; apply contract_holds. Qed.

Example demo_bringup : map (fun k => VirtioPhases.virtio_pending_step (run_events (take k [Advance; Advance; Retry; Retry; Retry; Advance]) bring_up_new)) [0%nat; 2%nat; 4%nat; 6%nat] =
  [VirtioPhases.WriteDeviceStatus 0; VirtioPhases.NegotiateFeatures; VirtioPhases.NegotiateFeatures; VirtioPhases.ParkExit].
Proof. reflexivity. Qed.
