(* ===== verification/NvmeNs.v ===== *)
(** * NVMe namespaces (omni-driver-nvme: identify.rs, namespace_map.rs,
    queue_config.rs, interrupt.rs)

    What the driver reads out of the controller's Identify pages, and which
    namespaces it admits. *)

From Stdlib Require Import ZArith Lia.
From stdpp Require Import base numbers list.
From S2P Require Import Prelude Ring NvmeQueue NvmeIo.

(** ** Queue depths (queue_config.rs) *)

Definition MIN_QUEUE_DEPTH : Z := 1.
Definition MAX_IO_QUEUE_DEPTH : Z := 65536.
Definition MAX_IO_QUEUE_COUNT : Z := 4.

Definition is_valid_admin_depth (depth : Z) : bool := (MIN_QUEUE_DEPTH <=? depth) && (depth <=? MAX_ADMIN_QUEUE_DEPTH).
Definition is_valid_io_depth (depth : Z) : bool := (MIN_QUEUE_DEPTH <=? depth) && (depth <=? MAX_IO_QUEUE_DEPTH).
Definition is_valid_io_queue_count (count : Z) : bool := (MIN_QUEUE_DEPTH <=? count) && (count <=? MAX_IO_QUEUE_COUNT).
Definition sq_allocation_bytes (depth : Z) : option Z := checked_mul64 depth 64.
Definition cq_allocation_bytes (depth : Z) : option Z := checked_mul64 depth 16.

Definition encode_aqa (sq_depth cq_depth : Z) : option Z :=
  if negb (is_valid_admin_depth sq_depth) || negb (is_valid_admin_depth cq_depth) then None else Some (Z.lor (sq_depth - 1) (Z.shiftl (cq_depth - 1) 16)).

(** ** Interrupt table entries (interrupt.rs) *)

(** [slice.get(off..off + n)], zero when it does not fit. *)
Definition ns_read_le (n : nat) (buf : list Z) (off : nat) : Z := if (off + n <=? length buf)%nat then from_le_bytes (take n (drop off buf)) else 0.

Record MsixTableEntry := { msg_addr_lo : Z; msg_addr_hi : Z; msg_data : Z; vector_ctrl : Z }.

Definition msix_from_bytes (bytes : list Z) : option MsixTableEntry :=
  if (length bytes <? 16)%nat then None else
  Some {| msg_addr_lo := ns_read_le 4 bytes 0; msg_addr_hi := ns_read_le 4 bytes 4; msg_data := ns_read_le 4 bytes 8; vector_ctrl := ns_read_le 4 bytes 12 |}.

Definition msix_is_masked (e : MsixTableEntry) : bool := negb (Z.land (vector_ctrl e) 1 =? 0).

(** ** Identify pages (identify.rs) *)

Definition IDENTIFY_RESPONSE_BYTES : nat := 64 * 64.
Definition PHASE_1_REQUIRED_LBADS : Z := 12.
Definition MAX_ACTIVE_NSIDS : nat := 1024.

Inductive IdentifyError := IdPageTooSmall | IdUnsupportedLbads (observed : Z).

(** A view of a page: [IdentifyController::new], [IdentifyNamespace::new] and [ActiveNsListView::new]. *)
Definition identify_view (page : list Z) : result IdentifyError (list Z) := if (length page <? IDENTIFY_RESPONSE_BYTES)%nat then Err IdPageTooSmall else Ok page.

Definition id_nn (page : list Z) : Z := ns_read_le 4 page 516.
Definition id_nsze (page : list Z) : Z := ns_read_le 8 page 0.
Definition id_ncap (page : list Z) : Z := ns_read_le 8 page 8.
Definition id_flbas (page : list Z) : Z := default 0 (page !! 26%nat).
Definition active_format_index (page : list Z) : Z := Z.land (id_flbas page) 0x0F.
Definition id_lbads (page : list Z) : Z := match page !! (128 + Z.to_nat (active_format_index page) * 4 + 2)%nat with Some b => Z.land b 0x1F | None => 0 end.

(** [wrapping_shl]: bits shifted out of the 64 are lost. *)
Definition validated_byte_size (page : list Z) : result IdentifyError Z :=
  let lbads := id_lbads page in
  if negb (lbads =? PHASE_1_REQUIRED_LBADS) then Err (IdUnsupportedLbads lbads) else Ok (wrap64 (Z.shiftl (id_nsze page) lbads)).

(** [ActiveNsListIter::next] on the index. *)
Definition ns_iter_next (page : list Z) (next_index : nat) : option Z * nat :=
  if (MAX_ACTIVE_NSIDS <=? next_index)%nat then (None, next_index) else
  let nsid := ns_read_le 4 page (next_index * 4) in
  if nsid =? 0 then (None, MAX_ACTIVE_NSIDS) else (Some nsid, S next_index).

Definition first_active_nsid (page : list Z) : option Z := fst (ns_iter_next page 0).

(** A [for] loop over the iterator. *)
Fixpoint iter_nsids (fuel : nat) (page : list Z) (next_index : nat) : list Z :=
  match fuel with
  | O => []
  | S fuel => match ns_iter_next page next_index with (Some nsid, i) => nsid :: iter_nsids fuel page i | (None, _) => [] end
  end.

(** ** The namespace map (namespace_map.rs) *)

Definition MAX_NAMESPACE_SLOTS : nat := 16.

Record NamespaceDescriptor := { nd_nsid : Z; nd_nsze : Z; nd_ncap : Z; nd_lbads : Z; nd_byte_size : Z }.
Inductive RejectReason := RrPageTooSmall | RrUnsupportedLbads (observed : Z) | RrZeroSize.
Inductive NamespaceEntry := NsValid (d : NamespaceDescriptor) | NsRejected (nsid : Z) (reason : RejectReason).
Inductive NamespaceMapError := NsListPageTooSmall | NoActiveNamespaces.

Definition entry_nsid (e : NamespaceEntry) : Z := match e with NsValid d => nd_nsid d | NsRejected nsid _ => nsid end.
Definition entry_is_valid (e : NamespaceEntry) : bool := match e with NsValid _ => true | _ => false end.

Definition reject_reason (e : IdentifyError) : RejectReason := match e with IdPageTooSmall => RrPageTooSmall | IdUnsupportedLbads o => RrUnsupportedLbads o end.

Definition validate_namespace (nsid : Z) (ns_page : list Z) : NamespaceEntry :=
  match identify_view ns_page with
  | Err e => NsRejected nsid (reject_reason e)
  | Ok v =>
      if id_nsze v =? 0 then NsRejected nsid RrZeroSize else
      match validated_byte_size v with
      | Ok byte_size => NsValid {| nd_nsid := nsid; nd_nsze := id_nsze v; nd_ncap := id_ncap v; nd_lbads := id_lbads v; nd_byte_size := byte_size |}
      | Err e => NsRejected nsid (reject_reason e)
      end
  end.

Record NamespaceMap := { nm_entries : list (option NamespaceEntry); nm_len : nat; nm_total_active : nat; nm_valid_count : nat }.

Definition map_empty : NamespaceMap := {| nm_entries := replicate MAX_NAMESPACE_SLOTS None; nm_len := 0; nm_total_active := 0; nm_valid_count := 0 |}.

(** One turn of the loop of [build]; [resolve] is the closure that fetches a page. *)
Definition build_step (resolve : Z -> option (list Z)) (m : NamespaceMap) (nsid : Z) : NamespaceMap :=
  let m := {| nm_entries := nm_entries m; nm_len := nm_len m; nm_total_active := S (nm_total_active m); nm_valid_count := nm_valid_count m |} in
  if (MAX_NAMESPACE_SLOTS <=? nm_len m)%nat then m else
  match resolve nsid with
  | None => m
  | Some ns_page =>
      let entry := validate_namespace nsid ns_page in
      {| nm_entries := <[nm_len m := Some entry]> (nm_entries m); nm_len := S (nm_len m); nm_total_active := nm_total_active m;
         nm_valid_count := (if entry_is_valid entry then 1 else 0) + nm_valid_count m |}
  end.

Definition ns_build (ns_list_page : list Z) (resolve : Z -> option (list Z)) : result NamespaceMapError NamespaceMap :=
  match identify_view ns_list_page with
  | Err _ => Err NsListPageTooSmall
  | Ok page =>
      let m := fold_left (build_step resolve) (iter_nsids (S MAX_ACTIVE_NSIDS) page 0) map_empty in
      if (nm_total_active m =? 0)%nat then Err NoActiveNamespaces else Ok m
  end.

(** [entries.iter().take(len).flatten()] *)
Definition ns_iter (m : NamespaceMap) : list NamespaceEntry := omap id (take (nm_len m) (nm_entries m)).
Definition ns_get (nsid : Z) (m : NamespaceMap) : option NamespaceEntry := List.find (fun e => entry_nsid e =? nsid) (ns_iter m).
Definition first_valid (m : NamespaceMap) : option NamespaceDescriptor := head (omap (fun e => match e with NsValid d => Some d | _ => None end) (ns_iter m)).
Definition is_admitted (nsid : Z) (m : NamespaceMap) : bool := match ns_get nsid m with Some e => entry_is_valid e | None => false end.

(** ** Reference reading of the pages *)

(** The words of a list page up to the first zero. *)
Fixpoint until_zero (l : list Z) : list Z := match l with [] => [] | x :: l => if x =? 0 then [] else x :: until_zero l end.
Definition listed_nsids (page : list Z) : list Z := until_zero (map (fun i => from_le_bytes (take 4 (drop (4 * i) page))) (seq 0 MAX_ACTIVE_NSIDS)).

(** The namespaces that get a slot: the first sixteen whose page can be fetched. *)
Definition slotted (resolve : Z -> option (list Z)) (nsids : list Z) : list (Z * list Z) :=
  take MAX_NAMESPACE_SLOTS (omap (fun nsid => option_map (pair nsid) (resolve nsid)) nsids).

(** A page that describes a namespace of 4096-byte sectors. *)
Definition page_usable (page : list Z) : bool := (IDENTIFY_RESPONSE_BYTES <=? length page)%nat && negb (id_nsze page =? 0) && (id_lbads page =? PHASE_1_REQUIRED_LBADS).

(** ** Lemmas *)

Lemma iter_listed page fuel i : (IDENTIFY_RESPONSE_BYTES <= length page)%nat -> (i <= MAX_ACTIVE_NSIDS)%nat -> (MAX_ACTIVE_NSIDS - i < fuel)%nat ->
  iter_nsids fuel page i = until_zero (map (fun i => from_le_bytes (take 4 (drop (4 * i) page))) (seq i (MAX_ACTIVE_NSIDS - i))).
Proof.
  intros Hp. revert i. induction fuel as [|fuel IH]; intros i Hi Hf; [lia|]. cbn [iter_nsids]. unfold ns_iter_next.
  destruct (Nat.leb_spec MAX_ACTIVE_NSIDS i) as [Hge|Hlt]; [by replace (MAX_ACTIVE_NSIDS - i)%nat with 0%nat by lia|].
  destruct (MAX_ACTIVE_NSIDS - i)%nat as [|k] eqn:Ek; [lia|]. cbn [seq map until_zero]. unfold ns_read_le.
  rewrite (proj2 (Nat.leb_le _ _)); [|unfold IDENTIFY_RESPONSE_BYTES, MAX_ACTIVE_NSIDS in *; lia]. rewrite (Nat.mul_comm i 4).
  destruct (_ =? 0); [done|]. rewrite IH by (unfold MAX_ACTIVE_NSIDS in *; lia). by replace (MAX_ACTIVE_NSIDS - S i)%nat with k by lia.
Qed.

Lemma validate_usable nsid page : entry_is_valid (validate_namespace nsid page) = page_usable page /\ entry_nsid (validate_namespace nsid page) = nsid.
Proof.
  unfold validate_namespace, identify_view, page_usable. destruct (Nat.ltb_spec (length page) IDENTIFY_RESPONSE_BYTES).
  - by rewrite (proj2 (Nat.leb_gt _ _)) by done.
  - rewrite (proj2 (Nat.leb_le _ _)) by done. destruct (id_nsze page =? 0); [done|]. unfold validated_byte_size. by destruct (id_lbads page =? PHASE_1_REQUIRED_LBADS).
Qed.

(** What the loop has built after some identifiers. *)
Record built (resolve : Z -> option (list Z)) (nsids : list Z) (m : NamespaceMap) : Prop := {
  bt_entries : nm_entries m = map (fun '(nsid, page) => Some (validate_namespace nsid page)) (slotted resolve nsids) ++ replicate (MAX_NAMESPACE_SLOTS - nm_len m) None;
  bt_len : nm_len m = length (slotted resolve nsids);
  bt_total : nm_total_active m = length nsids;
  bt_valid : nm_valid_count m = length (filter (fun x => page_usable (snd x) = true) (slotted resolve nsids));
}.

Lemma slotted_snoc resolve nsids nsid : slotted resolve (nsids ++ [nsid]) =
  slotted resolve nsids ++ (if (length (slotted resolve nsids) <? MAX_NAMESPACE_SLOTS)%nat then match resolve nsid with Some p => [(nsid, p)] | None => [] end else []).
Proof.
  unfold slotted. rewrite omap_app, take_app. f_equal. rewrite length_take. set (l := omap _ nsids). destruct (Nat.ltb_spec (MAX_NAMESPACE_SLOTS `min` length l) MAX_NAMESPACE_SLOTS).
  - cbn [omap list_omap]. destruct (resolve nsid); cbn [option_map]; [|by rewrite take_nil]. destruct (MAX_NAMESPACE_SLOTS - length l)%nat as [|k] eqn:E; [lia|]. cbn. by rewrite take_nil.
  - by replace (MAX_NAMESPACE_SLOTS - length l)%nat with 0%nat by lia.
Qed.

Lemma build_step_built resolve nsids m nsid : built resolve nsids m -> built resolve (nsids ++ [nsid]) (build_step resolve m nsid).
Proof.
  intros [He Hl Ht Hv]. pose proof (slotted_snoc resolve nsids nsid) as Es. unfold build_step. cbn [nm_len nm_entries nm_total_active nm_valid_count]. rewrite Hl.
  assert (length (nsids ++ [nsid]) = S (length nsids)) as El by (rewrite length_app; cbn; lia).
  destruct (Nat.leb_spec MAX_NAMESPACE_SLOTS (length (slotted resolve nsids))) as [Hge|Hlt].
  - rewrite (proj2 (Nat.ltb_ge _ _)) in Es by done. rewrite app_nil_r in Es. constructor; cbn [nm_entries nm_len nm_total_active nm_valid_count]; rewrite ?Es; [by rewrite He, Hl|done|by rewrite El, Ht|done].
  - rewrite (proj2 (Nat.ltb_lt _ _)) in Es by done. destruct (resolve nsid) as [page|]; [|rewrite app_nil_r in Es; constructor; cbn [nm_entries nm_len nm_total_active nm_valid_count]; rewrite ?Es; [by rewrite He, Hl|done|by rewrite El, Ht|done]].
    constructor; cbn [nm_entries nm_len nm_total_active nm_valid_count]; rewrite ?Es, ?length_app; cbn [length].
    + rewrite He, Hl, map_app, <- app_assoc. rewrite insert_app_r_alt by (rewrite length_map; lia). rewrite length_map, Nat.sub_diag. f_equal.
      destruct (MAX_NAMESPACE_SLOTS - length (slotted resolve nsids))%nat as [|k] eqn:Ek; [lia|]. cbn [replicate insert list_insert map app].
      by replace (MAX_NAMESPACE_SLOTS - S (length (slotted resolve nsids)))%nat with k by lia.
    + lia.
    + rewrite Ht. lia.
    + rewrite filter_app, length_app, Hv, (proj1 (validate_usable nsid page)). rewrite filter_cons, filter_nil. cbn [snd]. destruct (decide (page_usable page = true)) as [->|Hn]; [cbn; lia|]. apply not_true_is_false in Hn. rewrite Hn. cbn. lia.
Qed.

Lemma built_empty resolve : built resolve [] map_empty.
Proof. by constructor. Qed.

Lemma fold_built resolve l nsids m : built resolve nsids m -> built resolve (nsids ++ l) (fold_left (build_step resolve) l m).
Proof.
  revert nsids m. induction l as [|x l IH]; intros nsids m Hm; [by rewrite app_nil_r|]. cbn [fold_left]. replace (nsids ++ x :: l) with ((nsids ++ [x]) ++ l) by (by rewrite <- app_assoc).
  by apply IH, build_step_built.
Qed.

Lemma built_iter resolve nsids m : built resolve nsids m -> ns_iter m = map (fun '(nsid, page) => validate_namespace nsid page) (slotted resolve nsids).
Proof.
  intros [He Hl _ _]. unfold ns_iter. rewrite He, Hl, take_app_length' by (by rewrite length_map). clear. induction (slotted resolve nsids) as [|[n p] l IH]; [done|]. cbn [map]. unfold omap in *. cbn [list_omap id]. by rewrite IH.
Qed.

Lemma build_built page resolve : (IDENTIFY_RESPONSE_BYTES <= length page)%nat -> exists m, built resolve (listed_nsids page) m /\
  ns_build page resolve = if (length (listed_nsids page) =? 0)%nat then Err NoActiveNamespaces else Ok m.
Proof.
  intros Hp. unfold ns_build, identify_view. rewrite (proj2 (Nat.ltb_ge _ _)) by done. rewrite iter_listed; [|done|lia|unfold MAX_ACTIVE_NSIDS; lia]. rewrite Nat.sub_0_r.
  fold (listed_nsids page). pose proof (fold_built resolve (listed_nsids page) [] map_empty (built_empty resolve)) as Hb. cbn [app] in Hb. eexists. split; [exact Hb|].
  by rewrite (bt_total _ _ _ Hb).
Qed.

Lemma slotted_resolves resolve nsids nsid page : (nsid, page) ∈ slotted resolve nsids -> resolve nsid = Some page.
Proof.
  unfold slotted. intros Hin. apply elem_of_take in Hin as (i & Hin & _). apply list_elem_of_lookup_2, list_elem_of_omap in Hin as (x & _ & Hx).
  destruct (resolve x) eqn:E; [|done]. injection Hx as -> ->. done.
Qed.

Lemma admitted_iff resolve nsids m nsid : built resolve nsids m ->
  is_admitted nsid m = true <-> exists page, (nsid, page) ∈ slotted resolve nsids /\ page_usable page = true.
Proof.
  intros Hb. unfold is_admitted, ns_get. rewrite (built_iter _ _ _ Hb). pose proof (slotted_resolves resolve nsids) as Hr. clear Hb. revert Hr. generalize (slotted resolve nsids).
  intros l Hr. induction l as [|[n p] l IH]; cbn [map List.find]; [split; [done|]; intros (? & Hin & _); by apply not_elem_of_nil in Hin|].
  destruct (validate_usable n p) as [Hv ->]. destruct (Z.eqb_spec n nsid) as [->|Hne].
  - rewrite Hv. split; [intros Hu; exists p; split; [by left|done]|]. intros (q & Hq & Hu).
    pose proof (Hr _ _ Hq) as E1. pose proof (Hr nsid p ltac:(by left)) as E2. rewrite E1 in E2. by injection E2 as ->.
  - rewrite IH by (intros; apply Hr; by right). split; intros (q & Hq & Hu); exists q; (split; [|done]); [by right|]. apply elem_of_cons in Hq as [[= -> _]|Hq]; done.
Qed.

Lemma validate_size nsid page d : validate_namespace nsid page = NsValid d -> 0 <= nd_nsze d < 2 ^ 52 -> nd_byte_size d = 4096 * nd_nsze d /\ nd_nsze d = id_nsze page /\ nd_nsid d = nsid.
Proof.
  unfold validate_namespace, identify_view, validated_byte_size. destruct (_ <? _)%nat; [done|]. destruct (id_nsze page =? 0); [done|].
  destruct (Z.eqb_spec (id_lbads page) PHASE_1_REQUIRED_LBADS) as [E|]; [|done]. cbn [negb]. intros [= <-]. cbn [nd_nsze nd_byte_size nd_nsid]. intros Hn. split; [|done].
  rewrite E. unfold PHASE_1_REQUIRED_LBADS, wrap64. rewrite Z.shiftl_mul_pow2 by lia. rewrite Z.mod_small by lia. lia.
Qed.

(** A namespace of [2 ^ 52] sectors is admitted with size zero. *)
Lemma byte_size_wraps page : id_lbads page = 12 -> id_nsze page = 2 ^ 52 -> validated_byte_size page = Ok 0.
Proof. intros E1 E2. unfold validated_byte_size. by rewrite E1, E2. Qed.

(** ** Theorem *)

(** the namespace map holds what the controller listed.  Building it fails exactly when the list page is short or lists nothing; otherwise its entries are, in order, the verdicts on the first sixteen listed namespaces whose page could be fetched, the counters count the listed and the valid ones, a namespace is admitted exactly when it has a slot and its page describes a non-empty namespace of 4096-byte sectors, and a valid entry's size is 4096 bytes a sector below 2^52 sectors. *)
Theorem namespace_map_exact (page : list Z) (resolve : Z -> option (list Z)) : exists m,
  ns_build page resolve = (if (length page <? IDENTIFY_RESPONSE_BYTES)%nat then Err NsListPageTooSmall else if (length (listed_nsids page) =? 0)%nat then Err NoActiveNamespaces else Ok m) /\
  ns_iter m = map (fun '(nsid, p) => validate_namespace nsid p) (slotted resolve (listed_nsids page)) /\
  nm_total_active m = length (listed_nsids page) /\
  nm_valid_count m = length (filter (fun x => page_usable (snd x) = true) (slotted resolve (listed_nsids page))) /\
  (forall nsid, is_admitted nsid m = true <-> exists p, (nsid, p) ∈ slotted resolve (listed_nsids page) /\ page_usable p = true) /\
  (forall d, NsValid d ∈ ns_iter m -> 0 <= nd_nsze d < 2 ^ 52 -> nd_byte_size d = 4096 * nd_nsze d /\ exists p, (nd_nsid d, p) ∈ slotted resolve (listed_nsids page) /\ nd_nsze d = id_nsze p).
Proof.
  assert (exists m, built resolve (listed_nsids page) m /\ ns_build page resolve = (if (length page <? IDENTIFY_RESPONSE_BYTES)%nat then Err NsListPageTooSmall else
    if (length (listed_nsids page) =? 0)%nat then Err NoActiveNamespaces else Ok m)) as (m & Hb & E).
  { destruct (Nat.ltb_spec (length page) IDENTIFY_RESPONSE_BYTES) as [Hs|Hl]; [|destruct (build_built page resolve Hl) as (m & Hb & E); by exists m].
    eexists. split; [apply (fold_built resolve (listed_nsids page) [] map_empty), built_empty|]. unfold ns_build, identify_view. by rewrite (proj2 (Nat.ltb_lt _ _)) by done. }
  exists m. split; [done|]. split; [by apply built_iter|]. split; [apply Hb|]. split; [apply Hb|]. split; [intros nsid; by apply admitted_iff|].
  intros d Hd Hn. rewrite (built_iter _ _ _ Hb) in Hd. apply list_elem_of_fmap in Hd as ([nsid p] & Hv & Hin). symmetry in Hv.
  destruct (validate_size nsid p d Hv Hn) as (Hsz & Hz & Hid). split; [done|]. exists p. by rewrite Hid.
Qed.

Example demo_namespaces :
  let page nsze lbads := to_le_bytes 8 nsze ++ replicate 122 0 ++ [lbads] ++ replicate 3965 0 in
  let resolve nsid := if nsid =? 1 then Some (page 9 12) else if nsid =? 3 then Some (page 8 9) else None in
  match ns_build (to_le_bytes 4 3 ++ to_le_bytes 4 2 ++ to_le_bytes 4 1 ++ replicate 4084 0) resolve with
  | Ok m => map entry_nsid (ns_iter m) = [3; 1] /\ nm_total_active m = 3%nat /\ is_admitted 1 m = true /\ is_admitted 2 m = false /\ is_admitted 3 m = false
  | Err _ => False
  end.
Proof. vm_compute. done. Qed.
