(* ===== verification/BlkWire.v ===== *)
(** * The block service's frames (omni-driver-shared blk.rs, omni-driver-nvme
    blk_channel.rs)

    Requests and answers of a disk's channel as bytes, and the handler that
    answers them.  The handler is the source's scaffold: it validates and
    answers, and submits nothing. *)

From Stdlib Require Import ZArith Lia.
From stdpp Require Import base numbers list.
From S2P Require Import Prelude Ring NvmeQueue.

(** ** Frames (omni-driver-shared blk.rs) *)

Definition BLK_REQUEST_WIRE_SIZE : nat := 29.
Definition BLK_RESPONSE_WIRE_SIZE : nat := 13.

Inductive BlkOpCode := OpRead | OpWrite | OpFlush | OpDiscard.
Inductive BlkStatus := BsOk | BsIoError | BsInvalidSector | BsReadOnly | BsDeviceGone | BsTimeout.
Inductive BlkDecodeError := BdTooShort | BdInvalidOpCode | BdInvalidStatus.

Record BlkFrameRequest := { br_op : BlkOpCode; br_sector : Z; br_count : Z; br_buffer_va : Z; br_request_id : Z }.
Record BlkFrameResponse := { bs_request_id : Z; bs_status : BlkStatus; bs_bytes_transferred : Z }.

(** The discriminants, and [from_u8]. *)
Definition op_code (op : BlkOpCode) : Z := match op with OpRead => 0 | OpWrite => 1 | OpFlush => 2 | OpDiscard => 3 end.
Definition op_from_u8 (v : Z) : option BlkOpCode :=
  if v =? 0 then Some OpRead else if v =? 1 then Some OpWrite else if v =? 2 then Some OpFlush else if v =? 3 then Some OpDiscard else None.
Definition status_code (s : BlkStatus) : Z := match s with BsOk => 0 | BsIoError => 1 | BsInvalidSector => 2 | BsReadOnly => 3 | BsDeviceGone => 4 | BsTimeout => 5 end.
Definition status_from_u8 (v : Z) : option BlkStatus :=
  if v =? 0 then Some BsOk else if v =? 1 then Some BsIoError else if v =? 2 then Some BsInvalidSector else if v =? 3 then Some BsReadOnly else
  if v =? 4 then Some BsDeviceGone else if v =? 5 then Some BsTimeout else None.

(** The array starts zeroed; the slices written lie within it. *)
Definition encode_request (r : BlkFrameRequest) : list Z :=
  let buf := put_bytes 0 [op_code (br_op r)] (replicate BLK_REQUEST_WIRE_SIZE 0) in
  let buf := put_bytes 1 (to_le_bytes 8 (br_sector r)) buf in
  let buf := put_bytes 9 (to_le_bytes 4 (br_count r)) buf in
  let buf := put_bytes 13 (to_le_bytes 8 (br_buffer_va r)) buf in
  put_bytes 21 (to_le_bytes 8 (br_request_id r)) buf.

(** [bytes.get(off..off + n)] as an integer. *)
Definition get_le (off n : nat) (bytes : list Z) : result BlkDecodeError Z :=
  if (off + n <=? length bytes)%nat then Ok (from_le_bytes (take n (drop off bytes))) else Err BdTooShort.

Definition decode_request (bytes : list Z) : result BlkDecodeError BlkFrameRequest :=
  if (length bytes <? BLK_REQUEST_WIRE_SIZE)%nat then Err BdTooShort else
  op_byte ← ok_or (head bytes) BdTooShort;
  op ← ok_or (op_from_u8 op_byte) BdInvalidOpCode;
  sector ← get_le 1 8 bytes;
  count ← get_le 9 4 bytes;
  buffer_va ← get_le 13 8 bytes;
  request_id ← get_le 21 8 bytes;
  Ok {| br_op := op; br_sector := sector; br_count := count; br_buffer_va := buffer_va; br_request_id := request_id |}.

Definition encode_response (r : BlkFrameResponse) : list Z :=
  let buf := put_bytes 0 (to_le_bytes 8 (bs_request_id r)) (replicate BLK_RESPONSE_WIRE_SIZE 0) in
  let buf := put_bytes 8 [status_code (bs_status r)] buf in
  put_bytes 9 (to_le_bytes 4 (bs_bytes_transferred r)) buf.

Definition decode_response (bytes : list Z) : result BlkDecodeError BlkFrameResponse :=
  if (length bytes <? BLK_RESPONSE_WIRE_SIZE)%nat then Err BdTooShort else
  request_id ← get_le 0 8 bytes;
  status_byte ← ok_or (bytes !! 8%nat) BdTooShort;
  status ← ok_or (status_from_u8 status_byte) BdInvalidStatus;
  bytes_transferred ← get_le 9 4 bytes;
  Ok {| bs_request_id := request_id; bs_status := status; bs_bytes_transferred := bytes_transferred |}.

(** ** The handler (blk_channel.rs) *)

Record BlkChannelHandler := { bc_channel_id : Z; bc_nsid : Z; bc_total_sectors : Z; bc_sector_size : Z; bc_read_only : bool }.
Record BlkCapacity := { cap_total_sectors : Z; cap_sector_size : Z; cap_read_only : bool }.

Definition report_capacity (h : BlkChannelHandler) : BlkCapacity :=
  {| cap_total_sectors := bc_total_sectors h; cap_sector_size := bc_sector_size h; cap_read_only := bc_read_only h |}.

Definition sector_out_of_range (h : BlkChannelHandler) (sector count : Z) : bool :=
  match checked_add64 sector count with None => true | Some stop => bc_total_sectors h <? stop end.
Definition bytes_for (h : BlkChannelHandler) (count : Z) : Z := Z.min (count * bc_sector_size h) u32_max.

Definition handle_blk_request (h : BlkChannelHandler) (req : BlkFrameRequest) : BlkFrameResponse :=
  let answer st n := {| bs_request_id := br_request_id req; bs_status := st; bs_bytes_transferred := n |} in
  match br_op req with
  | OpRead => if sector_out_of_range h (br_sector req) (br_count req) then answer BsInvalidSector 0 else answer BsOk (bytes_for h (br_count req))
  | OpWrite => if bc_read_only h then answer BsReadOnly 0 else
               if sector_out_of_range h (br_sector req) (br_count req) then answer BsInvalidSector 0 else answer BsOk (bytes_for h (br_count req))
  | OpFlush => answer BsOk 0
  | OpDiscard => if bc_read_only h then answer BsReadOnly 0 else
                 if sector_out_of_range h (br_sector req) (br_count req) then answer BsInvalidSector 0 else answer BsOk 0
  end.

(** ** Lemmas *)

Definition frame_ok (r : BlkFrameRequest) : Prop := is_u64 (br_sector r) /\ is_u32 (br_count r) /\ is_u64 (br_buffer_va r) /\ is_u64 (br_request_id r).
Definition answer_ok (r : BlkFrameResponse) : Prop := is_u64 (bs_request_id r) /\ is_u32 (bs_bytes_transferred r).
Definition handler_ok (h : BlkChannelHandler) : Prop := is_u64 (bc_total_sectors h) /\ is_u32 (bc_sector_size h).

Lemma request_bytes r : encode_request r =
  op_code (br_op r) :: to_le_bytes 8 (br_sector r) ++ to_le_bytes 4 (br_count r) ++ to_le_bytes 8 (br_buffer_va r) ++ to_le_bytes 8 (br_request_id r).
Proof. reflexivity. Qed.

Lemma response_bytes r : encode_response r = to_le_bytes 8 (bs_request_id r) ++ status_code (bs_status r) :: to_le_bytes 4 (bs_bytes_transferred r).
Proof. reflexivity. Qed.

Lemma op_codes op : op_from_u8 (op_code op) = Some op.
Proof. by destruct op. Qed.
Lemma op_from_inv v op : op_from_u8 v = Some op -> v = op_code op.
Proof. unfold op_from_u8. intros H. repeat case_match; simplify_eq; cbn; lia. Qed.
Lemma status_codes s : status_from_u8 (status_code s) = Some s.
Proof. by destruct s. Qed.
Lemma status_from_inv v s : status_from_u8 v = Some s -> v = status_code s.
Proof. unfold status_from_u8. intros H. repeat case_match; simplify_eq; cbn; lia. Qed.

Lemma slices (bs : list Z) : take 8 (drop 1 bs) ++ take 4 (drop 9 bs) ++ take 8 (drop 13 bs) ++ take 8 (drop 21 bs) = take 28 (drop 1 bs).
Proof.
  replace (drop 21 bs) with (drop 8 (drop 13 bs)) by (by rewrite drop_drop). rewrite (take_take_drop (drop 13 bs) 8 8).
  replace (drop 13 bs) with (drop 4 (drop 9 bs)) by (by rewrite drop_drop). rewrite (take_take_drop (drop 9 bs) 4 (8 + 8)).
  replace (drop 9 bs) with (drop 8 (drop 1 bs)) by (by rewrite drop_drop). cbn [plus]; exact (take_take_drop (drop 1 bs) 8 20).
Qed.

Lemma slice_exact off n bs : Forall is_u8 bs -> (off + n <= length bs)%nat -> to_le_bytes n (from_le_bytes (take n (drop off bs))) = take n (drop off bs).
Proof.
  intros Hu Hl. rewrite <- (to_from_le_bytes (take n (drop off bs))) at 2 by (by apply Forall_take, Forall_drop).
  f_equal. rewrite length_take, length_drop. lia.
Qed.

Lemma slice_bound off n bs : Forall is_u8 bs -> (off + n <= length bs)%nat -> 0 <= from_le_bytes (take n (drop off bs)) < 2 ^ (8 * Z.of_nat n).
Proof.
  intros Hu Hl. pose proof (from_le_bytes_bound (take n (drop off bs)) ltac:(by apply Forall_take, Forall_drop)) as Hb.
  rewrite length_take, length_drop in Hb. replace (n `min` (length bs - off))%nat with n in Hb by lia. done.
Qed.

(** Every frame a decoder accepts is the encoding of its answer, up to trailing bytes. *)
Lemma decode_request_spec bs : Forall is_u8 bs ->
  match decode_request bs with
  | Ok r => frame_ok r /\ take BLK_REQUEST_WIRE_SIZE bs = encode_request r
  | Err e => e = (if (length bs <? BLK_REQUEST_WIRE_SIZE)%nat then BdTooShort else BdInvalidOpCode) /\ forall r rest, bs <> encode_request r ++ rest
  end.
Proof.
  intros Hu. unfold decode_request. destruct (Nat.ltb_spec (length bs) BLK_REQUEST_WIRE_SIZE) as [Hs|Hl].
  { split; [done|]. intros r rest ->. rewrite length_app, request_bytes in Hs. cbn [length] in Hs. rewrite !length_app, !to_le_bytes_length in Hs. unfold BLK_REQUEST_WIRE_SIZE in Hs. lia. }
  unfold BLK_REQUEST_WIRE_SIZE in *. destruct bs as [|b bs]; [cbn in Hl; lia|]. cbn [head ok_or mbind result_bind]. destruct (op_from_u8 b) as [op|] eqn:Eop; cbn [ok_or mbind result_bind].
  2: { split; [done|]. intros r rest E. rewrite request_bytes in E. injection E as -> _. by rewrite op_codes in Eop. }
  unfold get_le. rewrite !(proj2 (Nat.leb_le _ _)) by lia. cbn [mbind result_bind].
  pose proof (slice_bound 1 8 _ Hu ltac:(lia)). pose proof (slice_bound 9 4 _ Hu ltac:(lia)). pose proof (slice_bound 13 8 _ Hu ltac:(lia)). pose proof (slice_bound 21 8 _ Hu ltac:(lia)).
  split; [unfold frame_ok; cbn [br_sector br_count br_buffer_va br_request_id]; unfold is_u64, is_u32; tauto|]. rewrite request_bytes. cbn [br_op br_sector br_count br_buffer_va br_request_id].
  rewrite !slice_exact, slices by (done || lia). apply op_from_inv in Eop as ->. reflexivity.
Qed.

Lemma decode_response_spec bs : Forall is_u8 bs ->
  match decode_response bs with
  | Ok r => answer_ok r /\ take BLK_RESPONSE_WIRE_SIZE bs = encode_response r
  | Err e => e = (if (length bs <? BLK_RESPONSE_WIRE_SIZE)%nat then BdTooShort else BdInvalidStatus) /\ forall r rest, bs <> encode_response r ++ rest
  end.
Proof.
  intros Hu. unfold decode_response. destruct (Nat.ltb_spec (length bs) BLK_RESPONSE_WIRE_SIZE) as [Hs|Hl].
  { split; [done|]. intros r rest ->. rewrite length_app, response_bytes in Hs. rewrite length_app in Hs. cbn [length] in Hs. rewrite !to_le_bytes_length in Hs. unfold BLK_RESPONSE_WIRE_SIZE in Hs. lia. }
  unfold BLK_RESPONSE_WIRE_SIZE, get_le in *. rewrite (proj2 (Nat.leb_le (0 + 8) _)) by lia. cbn [mbind result_bind].
  destruct (bs !! 8%nat) as [b|] eqn:Eb; [|apply lookup_ge_None in Eb; lia]. cbn [ok_or mbind result_bind]. destruct (status_from_u8 b) as [st|] eqn:Est; cbn [ok_or mbind result_bind].
  2: { split; [done|]. intros r rest ->. rewrite response_bytes, lookup_app_l, lookup_app_r in Eb by (rewrite ?length_app, ?to_le_bytes_length; cbn; lia).
       rewrite to_le_bytes_length in Eb. cbn in Eb. injection Eb as <-. by rewrite status_codes in Est. }
  rewrite (proj2 (Nat.leb_le (9 + 4) _)) by lia. pose proof (slice_bound 0 8 _ Hu ltac:(lia)). pose proof (slice_bound 9 4 _ Hu ltac:(lia)).
  split; [unfold answer_ok; cbn [bs_request_id bs_bytes_transferred]; unfold is_u64, is_u32; tauto|]. rewrite response_bytes. cbn [bs_request_id bs_status bs_bytes_transferred].
  rewrite !slice_exact by (done || lia). apply status_from_inv in Est as <-. change (drop 0 bs) with bs. change 13%nat with (8 + 5)%nat.
  rewrite <- take_take_drop. f_equal. rewrite (drop_S _ _ _ Eb). reflexivity.
Qed.

Lemma request_roundtrip r rest : frame_ok r -> decode_request (encode_request r ++ rest) = Ok r.
Proof.
  intros (H1 & H2 & H3 & H4). unfold is_u64, is_u32 in *. destruct r as [op s c b i]. cbn [br_op br_sector br_count br_buffer_va br_request_id] in *.
  change (decode_request (encode_request {| br_op := op; br_sector := s; br_count := c; br_buffer_va := b; br_request_id := i |} ++ rest)) with
    (op' ← ok_or (op_from_u8 (op_code op)) BdInvalidOpCode;
     Ok {| br_op := op'; br_sector := from_le_bytes (to_le_bytes 8 s); br_count := from_le_bytes (to_le_bytes 4 c); br_buffer_va := from_le_bytes (to_le_bytes 8 b);
           br_request_id := from_le_bytes (to_le_bytes 8 i) |} : result BlkDecodeError BlkFrameRequest).
  rewrite op_codes. cbn [ok_or mbind result_bind]. rewrite !from_to_le_bytes, !Z.mod_small; done.
Qed.

Lemma response_roundtrip r rest : answer_ok r -> decode_response (encode_response r ++ rest) = Ok r.
Proof.
  intros (H1 & H2). unfold is_u64, is_u32 in *. destruct r as [i st n]. cbn [bs_request_id bs_status bs_bytes_transferred] in *.
  change (decode_response (encode_response {| bs_request_id := i; bs_status := st; bs_bytes_transferred := n |} ++ rest)) with
    (st' ← ok_or (status_from_u8 (status_code st)) BdInvalidStatus;
     Ok {| bs_request_id := from_le_bytes (to_le_bytes 8 i); bs_status := st'; bs_bytes_transferred := from_le_bytes (to_le_bytes 4 n) |} : result BlkDecodeError BlkFrameResponse).
  rewrite status_codes. cbn [ok_or mbind result_bind]. rewrite !from_to_le_bytes, !Z.mod_small; done.
Qed.

(** What the namespace permits. *)
Definition blk_permitted (h : BlkChannelHandler) (req : BlkFrameRequest) : Prop :=
  match br_op req with
  | OpFlush => True
  | OpRead => br_sector req + br_count req <= bc_total_sectors h
  | OpWrite | OpDiscard => bc_read_only h = false /\ br_sector req + br_count req <= bc_total_sectors h
  end.

Lemma out_of_range_iff h sector count : is_u64 (bc_total_sectors h) -> sector_out_of_range h sector count = false <-> sector + count <= bc_total_sectors h.
Proof.
  unfold is_u64, sector_out_of_range, checked_add64. intros Hb. destruct (Z.ltb_spec (sector + count) (2 ^ 64)); [by rewrite Z.ltb_ge|]. split; [done|lia].
Qed.

Lemma handle_spec h req : handler_ok h -> frame_ok req -> let a := handle_blk_request h req in
  answer_ok a /\ bs_request_id a = br_request_id req /\ (bs_status a = BsOk <-> blk_permitted h req) /\
  (bs_status a = BsReadOnly <-> bc_read_only h = true /\ (br_op req = OpWrite \/ br_op req = OpDiscard)) /\
  (bs_status a = BsOk -> br_op req = OpRead \/ br_op req = OpWrite -> bs_bytes_transferred a = Z.min (br_count req * bc_sector_size h) u32_max) /\
  (bs_status a <> BsOk -> bs_bytes_transferred a = 0).
Proof.
  intros [Ht Hs] (H1 & H2 & H3 & H4). pose proof (out_of_range_iff h (br_sector req) (br_count req) Ht) as Hr.
  assert (is_u32 (bytes_for h (br_count req))) as Hb by (unfold is_u32, bytes_for, u32_max in *; nia).
  unfold handle_blk_request, blk_permitted, answer_ok. assert (is_u32 0) as H0 by (unfold is_u32; lia).
  destruct (sector_out_of_range h (br_sector req) (br_count req)); destruct (bc_read_only h); destruct (br_op req); cbn [bs_request_id bs_status bs_bytes_transferred];
    (split; [done|]; split; [done|]; split; [|split; [|split]]); intuition (done || lia || discriminate).
Qed.

(** The empty range is judged by its start. *)
Lemma empty_range_refused : sector_out_of_range {| bc_channel_id := 0; bc_nsid := 1; bc_total_sectors := 100; bc_sector_size := 512; bc_read_only := false |} 101 0 = true.
Proof. reflexivity. Qed.

(** ** Theorem *)

(** the frames of the block service.  A frame's encoding decodes to it whatever follows; the bytes a decoder accepts begin with the encoding of its answer, and the bytes it refuses begin with no encoding at all, short ones and unknown codes being told apart.  The handler's answer, sent through its encoding, echoes the request's identifier; it is Ok exactly when the namespace permits the request, ReadOnly exactly for writes and discards on a read-only namespace, and carries the saturated byte count of a permitted transfer and zero when refused. *)
Theorem blk_frames_exact (h : BlkChannelHandler) (req : BlkFrameRequest) (bs rest : list Z) : handler_ok h -> frame_ok req -> Forall is_u8 bs ->
  decode_request (encode_request req ++ rest) = Ok req /\
  match decode_request bs with
  | Ok r => frame_ok r /\ take BLK_REQUEST_WIRE_SIZE bs = encode_request r
  | Err e => e = (if (length bs <? BLK_REQUEST_WIRE_SIZE)%nat then BdTooShort else BdInvalidOpCode) /\ forall r rest, bs <> encode_request r ++ rest
  end /\
  match decode_response bs with
  | Ok r => answer_ok r /\ take BLK_RESPONSE_WIRE_SIZE bs = encode_response r
  | Err e => e = (if (length bs <? BLK_RESPONSE_WIRE_SIZE)%nat then BdTooShort else BdInvalidStatus) /\ forall r rest, bs <> encode_response r ++ rest
  end /\
  exists a, decode_response (encode_response (handle_blk_request h req) ++ rest) = Ok a /\ bs_request_id a = br_request_id req /\
    (bs_status a = BsOk <-> blk_permitted h req) /\ (bs_status a = BsReadOnly <-> bc_read_only h = true /\ (br_op req = OpWrite \/ br_op req = OpDiscard)) /\
    (bs_status a = BsOk -> br_op req = OpRead \/ br_op req = OpWrite -> bs_bytes_transferred a = Z.min (br_count req * bc_sector_size h) u32_max) /\
    (bs_status a <> BsOk -> bs_bytes_transferred a = 0).
Proof.
  intros Hh Hr Hu. split; [by apply request_roundtrip|]. split; [by apply decode_request_spec|]. split; [by apply decode_response_spec|].
  destruct (handle_spec h req Hh Hr) as [Ha Hrest]. exists (handle_blk_request h req). split; [by apply response_roundtrip|done].
Qed.

Definition demo_blk_handler : BlkChannelHandler := {| bc_channel_id := 7; bc_nsid := 1; bc_total_sectors := 100; bc_sector_size := 512; bc_read_only := false |}.
Definition demo_blk_req : BlkFrameRequest := {| br_op := OpWrite; br_sector := 98; br_count := 3; br_buffer_va := 0x10000; br_request_id := 42 |}.

Lemma blk_frames_exact_witness : exists a, decode_response (encode_response (handle_blk_request demo_blk_handler demo_blk_req) ++ [1; 2]) = Ok a /\ bs_request_id a = 42 /\ bs_bytes_transferred a = 0.
Proof.
  destruct (blk_frames_exact demo_blk_handler demo_blk_req [] [1; 2]) as (_ & _ & _ & a & E & Hid & _ & _ & _ & H0).
  - unfold handler_ok, is_u64, is_u32. cbn. lia.
  - unfold frame_ok, is_u64, is_u32. cbn. lia.
  - by apply Forall_nil.
  - exists a. split; [exact E|]. split; [exact Hid|]. apply H0. vm_compute in E. injection E as <-. discriminate.
Defined.
