(* ===== verification/CapDeposit.v ===== *)
(** * The capability deposit (omni-kernel cap_deposit.rs and
    driver_cap_issuer.rs, omni-driver-shared lib.rs)

    At driver load the kernel mints one token for every capability of the
    manifest and writes them to a window the driver can read; the driver's
    library looks its tokens up there.  Both sides are modelled, the canonical
    encoding of a token and the random number generator being parameters. *)

From Stdlib Require Import ZArith Lia.
From stdpp Require Import base numbers list strings gmap.
From S2P Require Import Prelude Str CapScope CapToken Ring.

(** ** Wire format *)

Definition DRIVER_CAP_DEPOSIT_VA : Z := 0x100000.
Definition DRIVER_CAP_DEPOSIT_LEN : nat := 8 * (64 * 64).
Definition DEPOSIT_MAGIC : list Z := lit "OMNICAPS"%string.
Definition DEPOSIT_VERSION : Z := 1.
Definition MAX_ENTRIES : nat := 64.
Definition HEADER_LEN : nat := 8 + 4 + 4.
Definition ENTRY_DESCRIPTOR_LEN : nat := 4 + 4 + 4 + 4.
Definition DEPOSIT_TOKEN_LIFETIME_SECONDS : Z := 90 * 24 * 3600.

Definition ACTION_TAG_MMIO_MAP : Z := 1.
Definition ACTION_TAG_DMA_MAP : Z := 2.
Definition ACTION_TAG_IRQ_ATTACH : Z := 3.
Definition ACTION_TAG_PCI_CFG_READ : Z := 4.
Definition ACTION_TAG_PCI_CFG_WRITE : Z := 5.
Definition RESOURCE_TAG_MMIO_REGION : Z := 1.
Definition RESOURCE_TAG_DMA_WINDOW : Z := 2.
Definition RESOURCE_TAG_IRQ_LINE : Z := 3.
Definition RESOURCE_TAG_PCI_DEVICE : Z := 4.

(** ** Entries of a manifest *)

Record DriverCapabilities := { mmio_regions : list Resource; dma_windows : list Resource; irq_lines : list Resource; pci_devices : list Resource }.
Record EncoderEntry := { ee_action : Action; ee_resource : Resource; ee_action_tag : Z; ee_resource_tag : Z }.

Definition build_entry_list (caps : DriverCapabilities) : list EncoderEntry :=
  flat_map (fun r => match r with MmioRegion _ _ => [{| ee_action := MmioMap; ee_resource := r; ee_action_tag := ACTION_TAG_MMIO_MAP; ee_resource_tag := RESOURCE_TAG_MMIO_REGION |}] | _ => [] end) (mmio_regions caps) ++
  flat_map (fun r => match r with DmaWindow _ _ => [{| ee_action := DmaMap; ee_resource := r; ee_action_tag := ACTION_TAG_DMA_MAP; ee_resource_tag := RESOURCE_TAG_DMA_WINDOW |}] | _ => [] end) (dma_windows caps) ++
  flat_map (fun r => match r with IrqLine _ => [{| ee_action := IrqAttach; ee_resource := r; ee_action_tag := ACTION_TAG_IRQ_ATTACH; ee_resource_tag := RESOURCE_TAG_IRQ_LINE |}] | _ => [] end) (irq_lines caps) ++
  flat_map (fun r => match r with PciDevice _ _ _ _ =>
    [{| ee_action := PciConfigRead; ee_resource := r; ee_action_tag := ACTION_TAG_PCI_CFG_READ; ee_resource_tag := RESOURCE_TAG_PCI_DEVICE |};
     {| ee_action := PciConfigWrite; ee_resource := r; ee_action_tag := ACTION_TAG_PCI_CFG_WRITE; ee_resource_tag := RESOURCE_TAG_PCI_DEVICE |}] | _ => [] end) (pci_devices caps).

(** ** The kernel's encoder *)

Inductive DepositError := TokenCountExceeded (requested : nat) | TokenEncodingFailed | TokenSigningFailed | ScopeBytesOverflow (required : Z).

Definition align_up (value align : Z) : run Z :=
  s ← add64 value align;
  s ← sub64 s 1;
  a ← sub64 align 1;
  Done (Z.land s (not64 a)).

(** [DRIVER_CAP_ISSUER_SEED]: the key's bytes. *)
Definition kernel_signing_key : list Z := concat (replicate 8 [0xCA; 0xFE; 0xBA; 0xBE]).

(** The canonical encoding of tokens, and the kernel's random numbers. *)
Class DepositEnv := {
  encode_token : CapabilityToken -> option (list Z);
  decode_token : list Z -> option CapabilityToken;
  rng : Type;
  next_16_bytes : rng -> list Z * rng;
}.

(** What wire.rs documents of the encoding; a token takes less than four gigabytes. *)
Class DepositEnvLaws `{DepositEnv} : Prop := {
  decode_encode_token : forall t bs, encode_token t = Some bs -> decode_token bs = Some t;
  encode_token_u8 : forall t bs, encode_token t = Some bs -> Forall is_u8 bs;
  encode_token_short : forall t bs, encode_token t = Some bs -> Z.of_nat (length bs) < 2 ^ 32;
}.

Section Encoder.
Context `{DepositEnv} `{SigningPrimitives}.

Abbreviation blob := (Z * Z * list Z)%type.

(** The token of an entry. *)
Definition entry_payload (e : EncoderEntry) (w : TimeWindow) (subject fresh : list Z) : TokenPayload :=
  {| tp_id := fresh; tp_subject := subject; tp_issuer := verifying_key kernel_signing_key; tp_parent := None;
     tp_scope := {| action := ee_action e; resource := ee_resource e; window := w; caveats := [] |} |}.

Fixpoint mint_blobs (entries : list EncoderEntry) (w : TimeWindow) (subject : list Z) (g : rng) : result DepositError (list blob) * rng :=
  match entries with
  | [] => (Ok [], g)
  | e :: entries =>
      let '(fresh, g) := next_16_bytes g in
      match sign_payload kernel_signing_key (entry_payload e w subject fresh) with
      | Err _ => (Err TokenSigningFailed, g)
      | Ok token =>
          match encode_token token with
          | None => (Err TokenEncodingFailed, g)
          | Some encoded =>
              let '(r, g) := mint_blobs entries w subject g in
              (match r with Ok bs => Ok ((ee_action_tag e, ee_resource_tag e, encoded) :: bs) | Err x => Err x end, g)
          end
      end
  end.

(** The offsets of the blobs and the end of the last. *)
Fixpoint blob_layout (blobs : list blob) (cursor : Z) : run (result DepositError (list Z * Z)) :=
  match blobs with
  | [] => Done (Ok ([], cursor))
  | (_, _, encoded) :: blobs =>
      if u32_max <? cursor then stop ← add64 cursor (Z.of_nat (length encoded)); Done (Err (ScopeBytesOverflow stop)) else
      match checked_add64 cursor (Z.of_nat (length encoded)) with
      | None => Done (Err (ScopeBytesOverflow u64_max))
      | Some stop =>
          next ← align_up stop 8;
          r ← blob_layout blobs next;
          Done (match r with Ok (offs, stop) => Ok (cursor :: offs, stop) | Err x => Err x end)
      end
  end.

Fixpoint write_table (i : nat) (blobs : list blob) (offs : list Z) (buf : list Z) : run (result DepositError (list Z)) :=
  match blobs with
  | [] => Done (Ok buf)
  | (action_tag, resource_tag, encoded) :: blobs =>
      let base := (HEADER_LEN + i * ENTRY_DESCRIPTOR_LEN)%nat in
      buf ← put_run base (to_le_bytes 4 action_tag) buf;
      buf ← put_run (base + 4) (to_le_bytes 4 resource_tag) buf;
      if u32_max <? Z.of_nat (length encoded) then Done (Err (ScopeBytesOverflow (Z.of_nat (length encoded)))) else
      buf ← put_run (base + 8) (to_le_bytes 4 (default 0 (offs !! i))) buf;
      buf ← put_run (base + 12) (to_le_bytes 4 (Z.of_nat (length encoded))) buf;
      write_table (S i) blobs offs buf
  end.

Fixpoint pack_blobs (i : nat) (blobs : list blob) (offs : list Z) (buf : list Z) : run (result DepositError (list Z)) :=
  match blobs with
  | [] => Done (Ok buf)
  | (_, _, encoded) :: blobs =>
      let off := default 0 (offs !! i) in
      match checked_add64 off (Z.of_nat (length encoded)) with
      | None => Done (Err (ScopeBytesOverflow u64_max))
      | Some stop =>
          if Z.of_nat (length buf) <? stop then Done (Err (ScopeBytesOverflow stop)) else
          buf ← put_run (Z.to_nat off) encoded buf;
          pack_blobs (S i) blobs offs buf
      end
  end.

Definition encode_blobs (blobs : list blob) : run (result DepositError (list Z)) :=
  start ← align_up (Z.of_nat (HEADER_LEN + length blobs * ENTRY_DESCRIPTOR_LEN)) 8;
  layout ← blob_layout blobs start;
  match layout with
  | Err x => Done (Err x)
  | Ok (offs, cursor) =>
      if Z.of_nat DRIVER_CAP_DEPOSIT_LEN <? cursor then Done (Err (ScopeBytesOverflow cursor)) else
      buf ← put_run 0 DEPOSIT_MAGIC (replicate DRIVER_CAP_DEPOSIT_LEN 0);
      buf ← put_run 8 (to_le_bytes 4 DEPOSIT_VERSION) buf;
      if u32_max <? Z.of_nat (length blobs) then Done (Err (TokenCountExceeded (length blobs))) else
      buf ← put_run 12 (to_le_bytes 4 (Z.of_nat (length blobs))) buf;
      table ← write_table 0 blobs offs buf;
      match table with Err x => Done (Err x) | Ok buf => pack_blobs 0 blobs offs buf end
  end.

Definition encode_deposit_page (caps : DriverCapabilities) (boot_seconds : Z) (subject : list Z) (g : rng) : run (result DepositError (list Z) * rng) :=
  let entries := build_entry_list caps in
  if (MAX_ENTRIES <? length entries)%nat then Done (Err (TokenCountExceeded (length entries)), g) else
  match window_new boot_seconds (saturating_add64 boot_seconds DEPOSIT_TOKEN_LIFETIME_SECONDS) with
  | None => Done (Err TokenSigningFailed, g)
  | Some w =>
      let '(r, g) := mint_blobs entries w subject g in
      match r with
      | Err x => Done (Err x, g)
      | Ok blobs => buf ← encode_blobs blobs; Done (buf, g)
      end
  end.
End Encoder.

(** ** The driver's lookup *)

Inductive OmniCapsError := InvalidMagic | UnsupportedVersion | EntryCountExceeded | OutOfBoundsOffset.

Definition caps_read_u32_le (buf : list Z) (offset : nat) : option Z :=
  if (offset + 4 <=? length buf)%nat then Some (from_le_bytes (bytes_at offset 4 buf)) else None.

(** [for i in i..entry_count]; [count] turns are left. *)
Fixpoint scan_entries (count : nat) (i : nat) (buf : list Z) (action_tag : Z) (resource_predicate : list Z -> bool) : option (list Z) :=
  match count with
  | O => None
  | S count =>
      let base := (HEADER_LEN + i * ENTRY_DESCRIPTOR_LEN)%nat in
      if (length buf <? base + ENTRY_DESCRIPTOR_LEN)%nat then None else
      this_action_tag ← caps_read_u32_le buf base;
      if negb (this_action_tag =? action_tag) then scan_entries count (S i) buf action_tag resource_predicate else
      token_offset ← caps_read_u32_le buf (base + 8);
      token_len ← caps_read_u32_le buf (base + 12);
      if Z.of_nat (length buf) <? token_offset + token_len then scan_entries count (S i) buf action_tag resource_predicate else
      let token_slice := bytes_at (Z.to_nat token_offset) (Z.to_nat token_len) buf in
      if resource_predicate token_slice then Some token_slice else scan_entries count (S i) buf action_tag resource_predicate
  end.

Definition parse_header (buf : list Z) : result OmniCapsError Z :=
  if (length buf <? HEADER_LEN)%nat then Err InvalidMagic else
  if negb (str_eqb (take 8 buf) DEPOSIT_MAGIC) then Err InvalidMagic else
  version ← ok_or (caps_read_u32_le buf 8) UnsupportedVersion;
  if negb (version =? DEPOSIT_VERSION) then Err UnsupportedVersion else
  entry_count ← ok_or (caps_read_u32_le buf 12) InvalidMagic;
  if Z.of_nat MAX_ENTRIES <? entry_count then Err EntryCountExceeded else
  Ok entry_count.

Definition find_token_in_buf (buf : list Z) (action_tag : Z) (resource_predicate : list Z -> bool) : option (list Z) :=
  match parse_header buf with Ok n => scan_entries (Z.to_nat n) 0 buf action_tag resource_predicate | Err _ => None end.

(** [header] on the mapped window, which does not look at the count. *)
Definition caps_header (window : list Z) : result OmniCapsError Z :=
  if negb (str_eqb (take 8 window) DEPOSIT_MAGIC) then Err InvalidMagic else
  if negb (from_le_bytes (bytes_at 8 4 window) =? DEPOSIT_VERSION) then Err UnsupportedVersion else
  Ok (from_le_bytes (bytes_at 12 4 window)).

(** [find_token], the window at [DRIVER_CAP_DEPOSIT_VA] being given. *)
Definition find_token (window : list Z) (action_tag : Z) (resource_predicate : list Z -> bool) : option (list Z) :=
  match caps_header window with Ok n => scan_entries (Z.to_nat n) 0 window action_tag resource_predicate | Err _ => None end.

(** ** Lemmas *)

Lemma align_up_8 v : 0 <= v -> v + 8 < 2 ^ 64 -> exists r, align_up v 8 = Done r /\ v <= r < v + 8.
Proof.
  intros H0 H1. unfold align_up. rewrite add64_done by lia. cbn [mbind run_bind]. unfold sub64. rewrite (proj2 (Z.leb_le 1 (v + 8))) by lia. cbn [mbind run_bind].
  change (1 <=? 8) with true. cbn [mbind run_bind]. eexists. split; [reflexivity|].
  change (8 - 1) with (2 ^ 3 - 1). rewrite land_not_mask by (unfold is_u64; lia).
  pose proof (Z.div_mod (v + 8 - 1) (2 ^ 3)). pose proof (Z.mod_pos_bound (v + 8 - 1) (2 ^ 3)). lia.
Qed.

Section Layout.
Abbreviation blob := (Z * Z * list Z)%type.

Definition blob_bytes (b : blob) : list Z := snd b.
Definition blob_tag (b : blob) : Z := fst (fst b).
Definition blob_ok (b : blob) : Prop := is_u32 (fst (fst b)) /\ Z.of_nat (length (snd b)) < 2 ^ 32.

(** The writes of the two loops. *)
Definition blob_writes (offs : list Z) (blobs : list blob) : list (nat * list Z) := zip_with (fun o b => (Z.to_nat o, blob_bytes b)) offs blobs.

Definition descriptor_writes (i : nat) (b : blob) (off : Z) : list (nat * list Z) :=
  let base := (HEADER_LEN + i * ENTRY_DESCRIPTOR_LEN)%nat in
  [(base, to_le_bytes 4 (blob_tag b)); ((base + 4)%nat, to_le_bytes 4 (snd (fst b))); ((base + 8)%nat, to_le_bytes 4 off); ((base + 12)%nat, to_le_bytes 4 (Z.of_nat (length (blob_bytes b))))].

Fixpoint table_writes (i : nat) (blobs : list blob) (offs : list Z) : list (nat * list Z) :=
  match blobs with [] => [] | b :: blobs => descriptor_writes i b (default 0 (offs !! i)) ++ table_writes (S i) blobs offs end.

Lemma blob_layout_spec blobs cursor : Forall blob_ok blobs -> 0 <= cursor < 2 ^ 40 ->
  exists r, blob_layout blobs cursor = Done r /\
    match r with
    | Ok (offs, stop) => length offs = length blobs /\ Forall is_u32 offs /\ cursor <= stop /\ rising (Z.to_nat cursor) (blob_writes offs blobs) (Z.to_nat stop)
    | Err x => exists n, x = ScopeBytesOverflow n
    end.
Proof.
  intros Hb. revert cursor. induction Hb as [|[[a r] enc] blobs [_ Hlen] _ IH]; intros cursor Hc; [eexists; split; [reflexivity|]; cbn; repeat split; [by apply Forall_nil|lia|lia]|].
  cbn [snd] in Hlen. cbn [blob_layout]. unfold u32_max. destruct (Z.ltb_spec (2 ^ 32 - 1) cursor) as [Hbig|Hsmall].
  - rewrite add64_done by lia. eexists. split; [reflexivity|]. by eexists.
  - unfold checked_add64. rewrite (proj2 (Z.ltb_lt _ _)) by lia. destruct (align_up_8 (cursor + Z.of_nat (length enc)) ltac:(lia) ltac:(lia)) as (nxt & -> & Hn). cbn [mbind run_bind].
    destruct (IH nxt ltac:(lia)) as (res & -> & Hres). cbn [mbind run_bind]. eexists. split; [reflexivity|]. destruct res as [[offs stop]|x]; [|done].
    destruct Hres as (H1 & H2 & H3 & H4). cbn [length]. split; [lia|]. split; [constructor; [unfold is_u32; lia|done]|]. split; [lia|]. cbn [blob_writes zip_with rising blob_bytes snd]. split; [lia|].
    apply (rising_app _ [] (Z.to_nat nxt)); [cbn; lia|done].
Qed.

Lemma table_rising blobs offs i : rising (HEADER_LEN + i * ENTRY_DESCRIPTOR_LEN) (table_writes i blobs offs) (HEADER_LEN + (i + length blobs) * ENTRY_DESCRIPTOR_LEN).
Proof.
  revert i. induction blobs as [|b blobs IH]; intros i; [cbn [table_writes rising length]; lia|]. cbn [table_writes].
  apply (rising_app _ _ (HEADER_LEN + S i * ENTRY_DESCRIPTOR_LEN)); [cbn; unfold ENTRY_DESCRIPTOR_LEN; rewrite ?to_le_bytes_length; lia|].
  cbn [length]. replace (i + S (length blobs))%nat with (S i + length blobs)%nat by lia. apply IH.
Qed.

Lemma write_table_spec blobs offs i buf : Forall blob_ok blobs -> (HEADER_LEN + (i + length blobs) * ENTRY_DESCRIPTOR_LEN <= length buf)%nat ->
  write_table i blobs offs buf = Done (Ok (put_all (table_writes i blobs offs) buf)).
Proof.
  intros Hb. revert i buf. induction Hb as [|[[a r] enc] blobs [_ Hlen] _ IH]; intros i buf Hl; [done|]. cbn [length snd] in *. cbn [write_table].
  assert (forall o v b, length b = length buf -> (o + 4 <= length buf)%nat -> put_run o (to_le_bytes 4 v) b = Done (put_bytes o (to_le_bytes 4 v) b) /\ length (put_bytes o (to_le_bytes 4 v) b) = length buf) as Hput.
  { intros o v b Eb Ho. rewrite put_run_done, put_length by (rewrite to_le_bytes_length; lia). done. }
  set (base := (HEADER_LEN + i * ENTRY_DESCRIPTOR_LEN)%nat). assert (base + 16 <= length buf)%nat as Hbase by (unfold base, ENTRY_DESCRIPTOR_LEN in *; lia).
  destruct (Hput base a buf eq_refl ltac:(lia)) as [-> L1]. cbn [mbind run_bind]. destruct (Hput (base + 4)%nat r _ L1 ltac:(lia)) as [-> L2]. cbn [mbind run_bind].
  unfold u32_max. rewrite (proj2 (Z.ltb_ge _ _)) by lia.
  destruct (Hput (base + 8)%nat (default 0 (offs !! i)) _ L2 ltac:(lia)) as [-> L3]. cbn [mbind run_bind]. destruct (Hput (base + 12)%nat (Z.of_nat (length enc)) _ L3 ltac:(lia)) as [-> L4]. cbn [mbind run_bind].
  rewrite IH by (rewrite L4; lia). reflexivity.
Qed.

Lemma pack_blobs_spec blobs offs i buf lo hi : length offs = (i + length blobs)%nat -> Forall is_u32 offs -> Forall blob_ok blobs ->
  rising lo (blob_writes (drop i offs) blobs) hi -> (hi <= length buf)%nat -> pack_blobs i blobs offs buf = Done (Ok (put_all (blob_writes (drop i offs) blobs) buf)).
Proof.
  intros Hlen Ho Hb. revert i buf lo Hlen. induction Hb as [|[[a r] enc] blobs [_ He] _ IH]; intros i buf lo Hlen Hr Hl; [by destruct (drop i offs)|]. cbn [length snd] in *.
  destruct (lookup_lt_is_Some_2 offs i ltac:(lia)) as [o Eo]. rewrite (drop_S _ _ _ Eo) in Hr |- *. cbn [blob_writes zip_with rising blob_bytes snd] in *. destruct Hr as [Hr1 Hr2].
  pose proof (rising_le _ _ _ Hr2) as Hle. assert (is_u32 o) as Hou by (by apply (proj1 (Forall_lookup _ _) Ho i)). unfold is_u32 in Hou.
  cbn [pack_blobs]. rewrite Eo. change (default 0 (Some o)) with o. unfold checked_add64. rewrite (proj2 (Z.ltb_lt _ _)) by lia. rewrite (proj2 (Z.ltb_ge _ _)) by lia.
  rewrite put_run_done by lia. cbn [mbind run_bind put_all]. apply (IH (S i) _ _ ltac:(lia) Hr2). rewrite put_length by lia. done.
Qed.
End Layout.

Section Window.
Abbreviation blob := (Z * Z * list Z)%type.

(** A window that holds [blobs]. *)
Record deposited (blobs : list blob) (buf : list Z) : Prop := {
  dp_len : length buf = DRIVER_CAP_DEPOSIT_LEN;
  dp_fits : (HEADER_LEN + length blobs * ENTRY_DESCRIPTOR_LEN <= DRIVER_CAP_DEPOSIT_LEN)%nat;
  dp_magic : bytes_at 0 8 buf = DEPOSIT_MAGIC;
  dp_version : bytes_at 8 4 buf = to_le_bytes 4 DEPOSIT_VERSION;
  dp_count : bytes_at 12 4 buf = to_le_bytes 4 (Z.of_nat (length blobs));
  dp_entry : forall i b, blobs !! i = Some b -> exists off, is_u32 off /\ (Z.to_nat off + length (blob_bytes b) <= length buf)%nat /\
    bytes_at (HEADER_LEN + i * ENTRY_DESCRIPTOR_LEN) 4 buf = to_le_bytes 4 (blob_tag b) /\
    bytes_at (HEADER_LEN + i * ENTRY_DESCRIPTOR_LEN + 8) 4 buf = to_le_bytes 4 off /\
    bytes_at (HEADER_LEN + i * ENTRY_DESCRIPTOR_LEN + 12) 4 buf = to_le_bytes 4 (Z.of_nat (length (blob_bytes b))) /\
    bytes_at (Z.to_nat off) (length (blob_bytes b)) buf = blob_bytes b;
}.

Lemma table_writes_in blobs offs i j b : blobs !! j = Some b -> forall w, w ∈ descriptor_writes (i + j) b (default 0 (offs !! (i + j)%nat)) -> w ∈ table_writes i blobs offs.
Proof.
  revert i j. induction blobs as [|c blobs IH]; intros i j Hj w Hw; [done|]. cbn [table_writes]. apply elem_of_app. destruct j as [|j].
  - injection Hj as ->. rewrite Nat.add_0_r in Hw. by left.
  - right. apply (IH (S i) j Hj). by replace (S i + j)%nat with (i + S j)%nat by lia.
Qed.

Lemma rising_bound lo ws hi off bs : rising lo ws hi -> (off, bs) ∈ ws -> (off + length bs <= hi)%nat.
Proof.
  revert lo. induction ws as [|[o b] ws IH]; intros lo Hr Hin; [by apply not_elem_of_nil in Hin|]. destruct Hr as [H1 H2].
  apply elem_of_cons in Hin as [[= -> ->]|Hin]; [by apply (rising_le _ _ _ H2)|by apply (IH _ H2)].
Qed.

Lemma put_all_app ws ws' buf : put_all (ws ++ ws') buf = put_all ws' (put_all ws buf).
Proof. revert buf. induction ws as [|[o b] ws IH]; intros buf; [done|]. apply IH. Qed.

(** The whole page is one run of rising writes. *)
Lemma page_deposited blobs offs (hi : nat) : Forall blob_ok blobs -> length offs = length blobs -> Forall is_u32 offs -> (hi <= DRIVER_CAP_DEPOSIT_LEN)%nat ->
  rising (HEADER_LEN + length blobs * ENTRY_DESCRIPTOR_LEN) (blob_writes offs blobs) hi ->
  deposited blobs (put_all ([(0%nat, DEPOSIT_MAGIC); (8%nat, to_le_bytes 4 DEPOSIT_VERSION); (12%nat, to_le_bytes 4 (Z.of_nat (length blobs)))] ++ table_writes 0 blobs offs ++ blob_writes offs blobs)
    (replicate DRIVER_CAP_DEPOSIT_LEN 0)).
Proof.
  intros Hb Ho Hu Hhi Hr. pose proof (table_rising blobs offs 0) as Ht. cbn [plus] in Ht. pose proof (rising_le _ _ _ Hr) as Hle.
  set (ws := _ ++ _). assert (rising 0 ws hi) as Hws.
  { apply (rising_app _ _ HEADER_LEN); [cbn; repeat split; unfold HEADER_LEN; lia|]. apply (rising_app _ _ (HEADER_LEN + length blobs * ENTRY_DESCRIPTOR_LEN)); [|done].
    replace (HEADER_LEN + 0 * ENTRY_DESCRIPTOR_LEN)%nat with HEADER_LEN in Ht by lia. done. }
  assert (hi <= length (replicate DRIVER_CAP_DEPOSIT_LEN 0))%nat as Hlen by (rewrite length_replicate; lia).
  assert (forall w, w ∈ table_writes 0 blobs offs ++ blob_writes offs blobs -> w ∈ ws) as Hin by (intros w Hw; apply elem_of_app; by right).
  pose proof (put_all_at 0 ws hi (replicate DRIVER_CAP_DEPOSIT_LEN 0)) as Hat. constructor.
  - rewrite (put_all_length 0 ws hi) by done. apply length_replicate.
  - lia.
  - apply (Hat _ DEPOSIT_MAGIC Hws Hlen). by left.
  - apply (Hat _ (to_le_bytes 4 DEPOSIT_VERSION) Hws Hlen). by right; left.
  - apply (Hat _ (to_le_bytes 4 (Z.of_nat (length blobs))) Hws Hlen). by right; right; left.
  - intros i b Hi. destruct (lookup_lt_is_Some_2 offs i) as [o Eo]; [rewrite Ho; by apply (lookup_lt_Some _ _ _ Hi)|].
    assert ((Z.to_nat o, blob_bytes b) ∈ blob_writes offs blobs) as Hbw by (apply list_elem_of_lookup; exists i; unfold blob_writes; by rewrite lookup_zip_with, Eo; cbn; rewrite Hi).
    pose proof (table_writes_in blobs offs 0 i b Hi) as Htw. cbn [plus] in Htw. rewrite Eo in Htw. change (default 0 (Some o)) with o in Htw.
    assert (forall off bs, (off, bs) ∈ descriptor_writes i b o -> bytes_at off (length bs) (put_all ws (replicate DRIVER_CAP_DEPOSIT_LEN 0)) = bs) as Hd.
    { intros off bs Hw. apply (Hat off bs Hws Hlen), Hin, elem_of_app. left. by apply Htw. }
    exists o. split; [by apply (proj1 (Forall_lookup _ _) Hu i)|]. split; [rewrite (put_all_length 0 ws hi) by done; etransitivity; [exact (rising_bound _ _ _ _ _ Hr Hbw)|exact Hlen]|].
    split; [|split; [|split]].
    + apply (Hd _ (to_le_bytes 4 (blob_tag b))). by left.
    + apply (Hd _ (to_le_bytes 4 o)). by right; right; left.
    + apply (Hd _ (to_le_bytes 4 (Z.of_nat (length (blob_bytes b))))). by right; right; right; left.
    + apply (Hat _ (blob_bytes b) Hws Hlen), Hin, elem_of_app. by right.
Qed.

Lemma encode_blobs_spec blobs : Forall blob_ok blobs -> (length blobs <= MAX_ENTRIES)%nat ->
  exists r, encode_blobs blobs = Done r /\ match r with Ok buf => deposited blobs buf | Err x => exists n, x = ScopeBytesOverflow n end.
Proof.
  intros Hb Hn. unfold encode_blobs. unfold MAX_ENTRIES in Hn.
  destruct (align_up_8 (Z.of_nat (HEADER_LEN + length blobs * ENTRY_DESCRIPTOR_LEN))) as (start & -> & Hs); [lia|unfold HEADER_LEN, ENTRY_DESCRIPTOR_LEN; lia|]. cbn [mbind run_bind].
  destruct (blob_layout_spec blobs start Hb) as (r & -> & Hr); [unfold HEADER_LEN, ENTRY_DESCRIPTOR_LEN in Hs; lia|]. cbn [mbind run_bind].
  destruct r as [[offs cursor]|x]; [|by eexists]. destruct Hr as (H1 & H2 & H3 & H4).
  destruct (Z.ltb_spec (Z.of_nat DRIVER_CAP_DEPOSIT_LEN) cursor) as [Hbig|Hfit]; [eexists; split; [reflexivity|]; by eexists|].
  assert (rising (HEADER_LEN + length blobs * ENTRY_DESCRIPTOR_LEN) (blob_writes offs blobs) (Z.to_nat cursor)) as Hrise.
  { apply (rising_app _ [] (Z.to_nat start)); [cbn [rising]; lia|done]. }
  pose proof (rising_le _ _ _ Hrise) as Hle. assert (Z.to_nat cursor <= DRIVER_CAP_DEPOSIT_LEN)%nat as Hc by lia.
  set (zero := replicate DRIVER_CAP_DEPOSIT_LEN 0). assert (length zero = DRIVER_CAP_DEPOSIT_LEN) as L0 by apply length_replicate.
  pose proof (page_deposited blobs offs (Z.to_nat cursor) Hb H1 H2 Hc Hrise) as Hdep.
  assert (HEADER_LEN <= DRIVER_CAP_DEPOSIT_LEN)%nat as Hh by lia. unfold HEADER_LEN in Hh.
  assert (forall o bs b, length b = DRIVER_CAP_DEPOSIT_LEN -> (o + length bs <= 16)%nat -> put_run o bs b = Done (put_bytes o bs b) /\ length (put_bytes o bs b) = DRIVER_CAP_DEPOSIT_LEN) as Hput.
  { intros o bs b Eb Hob. rewrite put_run_done, put_length by lia. done. }
  destruct (Hput 0%nat DEPOSIT_MAGIC _ L0) as [-> L1]; [vm_compute; lia|]. cbn [mbind run_bind]. destruct (Hput 8%nat (to_le_bytes 4 DEPOSIT_VERSION) _ L1) as [-> L2]; [cbn; lia|]. cbn [mbind run_bind].
  unfold u32_max. rewrite (proj2 (Z.ltb_ge _ _)) by lia. destruct (Hput 12%nat (to_le_bytes 4 (Z.of_nat (length blobs))) _ L2) as [-> L3]; [rewrite to_le_bytes_length; lia|]. cbn [mbind run_bind].
  rewrite write_table_spec by (done || (rewrite L3; cbn [plus]; lia)). cbn [mbind run_bind].
  rewrite (pack_blobs_spec blobs offs 0 _ _ _ H1 H2 Hb Hrise).
  - eexists. split; [reflexivity|]. cbn [app put_all] in Hdep. rewrite put_all_app in Hdep. exact Hdep.
  - rewrite (put_all_length HEADER_LEN _ (HEADER_LEN + length blobs * ENTRY_DESCRIPTOR_LEN)); [lia| |lia].
    pose proof (table_rising blobs offs 0) as Ht. cbn [plus] in Ht. by replace (HEADER_LEN + 0 * ENTRY_DESCRIPTOR_LEN)%nat with HEADER_LEN in Ht by lia.
Qed.
End Window.

Section Lookup.
Abbreviation blob := (Z * Z * list Z)%type.

(** The first blob of an action that the predicate accepts. *)
Definition first_blob (tag : Z) (pred : list Z -> bool) (blobs : list blob) : option (list Z) :=
  option_map blob_bytes (List.find (fun b => (blob_tag b =? tag) && pred (blob_bytes b)) blobs).

Lemma read_u32_at buf off v : (off + 4 <= length buf)%nat -> bytes_at off 4 buf = to_le_bytes 4 v -> is_u32 v -> caps_read_u32_le buf off = Some v.
Proof.
  unfold is_u32. intros Hl Hb Hv. unfold caps_read_u32_le. rewrite (proj2 (Nat.leb_le _ _)) by done. rewrite Hb, from_to_le_bytes. change (8 * Z.of_nat 4) with 32. by rewrite Z.mod_small.
Qed.

Lemma scan_deposited blobs buf tag pred n i : deposited blobs buf -> Forall blob_ok blobs -> (i + n = length blobs)%nat ->
  scan_entries n i buf tag pred = first_blob tag pred (drop i blobs).
Proof.
  intros Hd Hb. revert i. induction n as [|n IH]; intros i Hi; [by rewrite drop_ge by lia|]. destruct (lookup_lt_is_Some_2 blobs i ltac:(lia)) as [b Eb].
  rewrite (drop_S _ _ _ Eb). destruct (dp_entry _ _ Hd i b Eb) as (off & Hoff & Hfit & Ht & Ho & Hn & Hbytes). pose proof (dp_fits _ _ Hd) as Hf. rewrite <- (dp_len _ _ Hd) in Hf.
  destruct (proj1 (Forall_lookup _ _) Hb i b Eb) as [Htag Hlen]. fold (blob_tag b) in Htag. fold (blob_bytes b) in Hlen.
  cbn [scan_entries]. set (base := (HEADER_LEN + i * ENTRY_DESCRIPTOR_LEN)%nat) in *.
  assert (base + 16 <= length buf)%nat as Hbase by (unfold base, ENTRY_DESCRIPTOR_LEN in *; nia).
  rewrite (proj2 (Nat.ltb_ge _ _)) by (change ENTRY_DESCRIPTOR_LEN with 16%nat; lia).
  rewrite (read_u32_at buf base (blob_tag b)) by (done || lia). cbn [mbind option_bind]. unfold first_blob. cbn [List.find]. fold (first_blob tag pred (drop (S i) blobs)).
  destruct (blob_tag b =? tag); cbn [negb andb]; [|by rewrite IH by lia].
  rewrite (read_u32_at buf (base + 8) off) by (done || lia). cbn [mbind option_bind].
  rewrite (read_u32_at buf (base + 12) (Z.of_nat (length (blob_bytes b)))); [|lia|done|unfold is_u32; lia]. cbn [mbind option_bind].
  unfold is_u32 in Hoff. rewrite (proj2 (Z.ltb_ge _ _)) by lia. rewrite Nat2Z.id, Hbytes. destruct (pred (blob_bytes b)); [done|]. by rewrite IH by lia.
Qed.

Lemma magic_eqb : str_eqb DEPOSIT_MAGIC DEPOSIT_MAGIC = true.
Proof. by apply str_eqb_eq. Qed.

Lemma find_deposited blobs buf tag pred : deposited blobs buf -> Forall blob_ok blobs -> (length blobs <= MAX_ENTRIES)%nat ->
  find_token_in_buf buf tag pred = first_blob tag pred blobs /\ find_token buf tag pred = first_blob tag pred blobs.
Proof.
  intros Hd Hb Hn. pose proof (dp_fits _ _ Hd) as Hf. rewrite <- (dp_len _ _ Hd) in Hf. assert (16 <= length buf)%nat as H16 by (unfold HEADER_LEN in Hf; lia).
  pose proof (dp_magic _ _ Hd) as Hm. unfold bytes_at in Hm. rewrite drop_0 in Hm. assert (is_u32 (Z.of_nat (length blobs))) as Hu by (unfold is_u32, MAX_ENTRIES in *; lia).
  pose proof (scan_deposited blobs buf tag pred (length blobs) 0 Hd Hb eq_refl) as Hs. rewrite drop_0 in Hs. split.
  - unfold find_token_in_buf, parse_header. rewrite (proj2 (Nat.ltb_ge _ _)) by (unfold HEADER_LEN; lia). rewrite Hm, magic_eqb. cbn [negb].
    rewrite (read_u32_at buf 8 DEPOSIT_VERSION); [|lia|apply Hd|unfold is_u32, DEPOSIT_VERSION; lia]. cbn [ok_or mbind result_bind]. rewrite Z.eqb_refl. cbn [negb].
    rewrite (read_u32_at buf 12 (Z.of_nat (length blobs))); [|lia|apply Hd|done]. cbn [ok_or mbind result_bind]. rewrite (proj2 (Z.ltb_ge _ _)) by lia. by rewrite Nat2Z.id.
  - unfold find_token, caps_header. rewrite Hm, magic_eqb, (dp_version _ _ Hd), (dp_count _ _ Hd), !from_to_le_bytes. change (DEPOSIT_VERSION mod 2 ^ (8 * Z.of_nat 4) =? DEPOSIT_VERSION) with true. cbn [negb].
    change (8 * Z.of_nat 4) with 32. unfold is_u32 in Hu. rewrite Z.mod_small by done. by rewrite Nat2Z.id.
Qed.
End Lookup.

Section Minted.
Context `{DepositEnvLaws} `{SigningLaws}.

(** What the kernel signs for an entry, and how it is stored. *)
Definition minted (w : TimeWindow) (subject : list Z) (e : EncoderEntry) (t : CapabilityToken) : Prop :=
  (exists fresh, payload t = entry_payload e w subject fresh) /\ verify_signature t = Ok ().

Definition stores (w : TimeWindow) (subject : list Z) (e : EncoderEntry) (b : Z * Z * list Z) : Prop :=
  b = (ee_action_tag e, ee_resource_tag e, blob_bytes b) /\ exists t, encode_token t = Some (blob_bytes b) /\ minted w subject e t.

Lemma signed_verifies p t : sign_payload kernel_signing_key p = Ok t -> tp_issuer p = verifying_key kernel_signing_key -> payload t = p /\ verify_signature t = Ok ().
Proof.
  unfold sign_payload, verify_signature. intros E Hi. destruct (canonical_bytes p) as [bytes|] eqn:Eb; [|done]. cbn in E. injection E as <-. cbn [payload signature].
  split; [done|]. rewrite Eb. cbn [mbind result_bind]. by rewrite Hi, sign_verifies.
Qed.

Lemma mint_blobs_spec entries w subject g blobs g' : mint_blobs entries w subject g = (Ok blobs, g') -> Forall2 (stores w subject) entries blobs.
Proof.
  revert g blobs g'. induction entries as [|e entries IH]; intros g blobs g'; cbn [mint_blobs]; [by intros [= <- _]|]. destruct (next_16_bytes g) as [fresh g1].
  destruct (sign_payload kernel_signing_key (entry_payload e w subject fresh)) as [t|] eqn:Es; [|done]. destruct (encode_token t) as [enc|] eqn:Ee; [|done].
  destruct (mint_blobs entries w subject g1) as [[bs|x] g2] eqn:Em; [|done]. intros [= <- _]. constructor; [|by apply (IH _ _ _ Em)].
  split; [done|]. exists t. split; [done|]. destruct (signed_verifies _ _ Es eq_refl) as [Hp Hv]. split; [by exists fresh|done].
Qed.

Lemma entry_tags caps : Forall (fun e => is_u32 (ee_action_tag e)) (build_entry_list caps).
Proof.
  unfold build_entry_list. assert (forall t, 0 <= t < 10 -> is_u32 t) as Ht by (unfold is_u32; lia).
  repeat (apply Forall_app; split); (apply Forall_flat_map, Forall_true; intros []; try by apply Forall_nil); repeat (constructor; [apply Ht; cbn; vm_compute; split; congruence|]); by apply Forall_nil.
Qed.

Lemma stored_ok w subject entries blobs : Forall (fun e => is_u32 (ee_action_tag e)) entries -> Forall2 (stores w subject) entries blobs -> Forall blob_ok blobs.
Proof.
  intros Ht Hs. induction Hs as [|e b entries blobs [Eb (t & Et & _)] _ IH]; [by apply Forall_nil|]. apply Forall_cons in Ht as [Ht1 Ht2]. constructor; [|by apply IH].
  rewrite Eb. split; [done|]. cbn [snd]. by apply (encode_token_short t).
Qed.
End Minted.

(** ** Theorem *)

Section Deposit.
Context `{DepositEnvLaws} `{SigningLaws}.

Definition deposit_window (boot : Z) : TimeWindow := {| not_before := boot; not_after := saturating_add64 boot DEPOSIT_TOKEN_LIFETIME_SECONDS |}.

Lemma mint_never_counts entries w subject g n g' : mint_blobs entries w subject g <> (Err (TokenCountExceeded n), g').
Proof.
  revert g g'. induction entries as [|e entries IH]; intros g g'; cbn [mint_blobs]; [done|]. destruct (next_16_bytes g) as [fresh g1]. destruct (sign_payload _ _) as [t|]; [|done].
  destruct (encode_token t); [|done]. destruct (mint_blobs entries w subject g1) as [[bs|y] g2] eqn:E2; [done|]. intros [= -> _]. by apply IH in E2.
Qed.

Lemma encode_page_spec caps boot subject g : is_u64 boot ->
  exists r g', encode_deposit_page caps boot subject g = Done (r, g') /\
    ((MAX_ENTRIES < length (build_entry_list caps))%nat <-> r = Err (TokenCountExceeded (length (build_entry_list caps)))) /\
    forall buf, r = Ok buf -> exists blobs, Forall2 (stores (deposit_window boot) subject) (build_entry_list caps) blobs /\ deposited blobs buf /\ Forall blob_ok blobs /\ (length blobs <= MAX_ENTRIES)%nat.
Proof.
  unfold is_u64. intros Hb. unfold encode_deposit_page. destruct (Nat.ltb_spec MAX_ENTRIES (length (build_entry_list caps))) as [Hn|Hn]; [eexists _, _; by repeat split|].
  unfold window_new. rewrite (proj2 (Z.leb_le _ _)) by (unfold saturating_add64, u64_max, DEPOSIT_TOKEN_LIFETIME_SECONDS; lia). fold (deposit_window boot).
  pose proof (fun blobs => mint_blobs_spec (build_entry_list caps) (deposit_window boot) subject g blobs) as Hmint.
  assert (forall x, x <> TokenCountExceeded (length (build_entry_list caps)) -> (MAX_ENTRIES < length (build_entry_list caps))%nat <-> Err x = Err (A := list Z) (TokenCountExceeded (length (build_entry_list caps)))) as Herr.
  { intros x Hx. split; [lia|]. intros [= E]. done. }
  destruct (mint_blobs (build_entry_list caps) (deposit_window boot) subject g) as [[blobs|x] g'] eqn:Em.
  - pose proof (Hmint blobs g' eq_refl) as Hs. pose proof (stored_ok _ _ _ _ (entry_tags caps) Hs) as Hok. pose proof (Forall2_length _ _ _ Hs) as Hl.
    destruct (encode_blobs_spec blobs Hok ltac:(lia)) as (r & -> & Hr). cbn [mbind run_bind]. exists r, g'. split; [done|]. split.
    + destruct r as [buf|x]; [split; [lia|done]|]. destruct Hr as [n ->]. by apply Herr.
    + intros buf ->. exists blobs. split; [done|]. split; [done|]. split; [done|lia].
  - exists (Err x), g'. split; [done|]. split; [|done]. apply Herr. intros ->. by apply mint_never_counts in Em.
Qed.

Lemma first_blob_stored w subject entries blobs tag pred bs : Forall2 (stores w subject) entries blobs -> first_blob tag pred blobs = Some bs ->
  pred bs = true /\ exists e t, e ∈ entries /\ ee_action_tag e = tag /\ decode_token bs = Some t /\ minted w subject e t.
Proof.
  intros Hs. unfold first_blob. induction Hs as [|e b entries blobs [Eb (t & Et & Hm)] _ IH]; [done|]. cbn [List.find].
  destruct (Z.eqb_spec (blob_tag b) tag) as [Htag|_]; [destruct (pred (blob_bytes b)) eqn:Hp|].
  2, 3: intros Hf; destruct (IH Hf) as (Hpb & e' & t' & Hin & Hrest); split; [done|]; exists e', t'; split; [by right|done].
  intros [= <-]. split; [done|]. exists e, t. split; [by left|]. split; [rewrite Eb in Htag; exact Htag|]. split; [by apply decode_encode_token|done].
Qed.

Lemma minted_accepted hash boot subject e t rl now : minted (deposit_window boot) subject e t -> revocation_wf hash rl -> tp_id (payload t) ∉ full rl ->
  boot <= now < saturating_add64 boot DEPOSIT_TOKEN_LIFETIME_SECONDS -> verify_full hash t now (Some subject) rl = Done (Ok ()).
Proof.
  intros [[fresh Hp] Hv] Hwf Hr Hnow. apply verify_full_accepts; [done|]. split; [by apply verify_signature_ok|]. split; [done|]. rewrite Hp. done.
Qed.

(** C34: what the kernel deposits is what the driver finds.  Minting and encoding a manifest's capabilities never panics and is refused for its count exactly when the manifest lists more than 64; otherwise, unless a token could not be made or the window is too small, the window of 32 KiB holds one blob per entry, in order, and both lookups of the driver's library return the first blob of the asked action that the predicate accepts.  Whatever a lookup returns decodes to a token the kernel signed for an entry of the manifest with that action, for the driver as subject, and full verification accepts it for the driver until the 90 days are over or it is revoked. *)
Theorem cap_deposit_exact (caps : DriverCapabilities) (boot : Z) (subject : list Z) (g : rng) : is_u64 boot ->
  exists r g', encode_deposit_page caps boot subject g = Done (r, g') /\
    ((MAX_ENTRIES < length (build_entry_list caps))%nat <-> r = Err (TokenCountExceeded (length (build_entry_list caps)))) /\
    forall buf, r = Ok buf -> length buf = DRIVER_CAP_DEPOSIT_LEN /\ exists blobs,
      Forall2 (stores (deposit_window boot) subject) (build_entry_list caps) blobs /\
      (forall tag pred, find_token buf tag pred = first_blob tag pred blobs /\ find_token_in_buf buf tag pred = first_blob tag pred blobs) /\
      (forall tag pred bs, find_token buf tag pred = Some bs -> pred bs = true /\ exists e t, e ∈ build_entry_list caps /\ ee_action_tag e = tag /\ decode_token bs = Some t /\
        minted (deposit_window boot) subject e t /\
        forall hash rl now, revocation_wf hash rl -> tp_id (payload t) ∉ full rl -> boot <= now < saturating_add64 boot DEPOSIT_TOKEN_LIFETIME_SECONDS ->
          verify_full hash t now (Some subject) rl = Done (Ok ())).
Proof.
  intros Hb. destruct (encode_page_spec caps boot subject g Hb) as (r & g' & E & Hc & Hok). exists r, g'. split; [done|]. split; [done|]. intros buf Er.
  destruct (Hok buf Er) as (blobs & Hs & Hd & Hbo & Hn). split; [apply Hd|]. exists blobs. split; [done|].
  assert (forall tag pred, find_token buf tag pred = first_blob tag pred blobs /\ find_token_in_buf buf tag pred = first_blob tag pred blobs) as Hfind
    by (intros tag pred; destruct (find_deposited blobs buf tag pred Hd Hbo Hn); done).
  split; [done|]. intros tag pred bs Hf. rewrite (proj1 (Hfind tag pred)) in Hf. destruct (first_blob_stored _ _ _ _ _ _ _ Hs Hf) as (Hp & e & t & Hin & Ht & Hdec & Hm).
  split; [done|]. exists e, t. split; [done|]. split; [done|]. split; [done|]. split; [done|]. intros hash rl now Hwf Hr Hnow. by apply (minted_accepted hash boot subject e).
Qed.
End Deposit.

(** ** Witness *)

#[local] Instance TokenPayload_eq_dec : EqDecision TokenPayload.
Proof. solve_decision. Defined.
#[local] Instance CapabilityToken_eq_dec : EqDecision CapabilityToken.
Proof. solve_decision. Defined.

Definition demo_caps : DriverCapabilities := {| mmio_regions := [MmioRegion 0xFE000000 0x4000]; dma_windows := []; irq_lines := []; pci_devices := [] |}.

Definition demo_token : CapabilityToken :=
  {| payload := {| tp_id := [5]; tp_subject := [7]; tp_issuer := kernel_signing_key; tp_parent := None;
                   tp_scope := {| action := MmioMap; resource := MmioRegion 0xFE000000 0x4000; window := deposit_window 100; caveats := [] |} |};
     signature := kernel_signing_key ++ [5] |}.

(** An encoding of that token alone. *)
Definition toy_deposit : DepositEnv :=
  {| encode_token := fun t => if decide (t = demo_token) then Some [1; 2; 3] else None; decode_token := fun bs => if decide (bs = [1; 2; 3]) then Some demo_token else None;
     rng := unit; next_16_bytes := fun g => ([5], g) |}.

Lemma toy_deposit_laws : @DepositEnvLaws toy_deposit.
Proof.
  constructor; intros t bs; cbn [encode_token decode_token toy_deposit]; destruct (decide (t = demo_token)) as [->|]; intros [= <-]; [done| |cbn; lia].
  repeat (constructor; [unfold is_u8; lia|]); by apply Forall_nil.
Qed.

Lemma cap_deposit_exact_witness : exists buf, @encode_deposit_page toy_deposit toy_prims demo_caps 100 [7] () = Done (Ok buf, ()) /\ find_token buf ACTION_TAG_MMIO_MAP (fun _ => true) = Some [1; 2; 3] /\
  find_token buf ACTION_TAG_DMA_MAP (fun _ => true) = None.
Proof.
  destruct (@cap_deposit_exact toy_deposit toy_deposit_laws toy_prims toy_laws demo_caps 100 [7] ()) as (r & g' & E & _ & Hok); [unfold is_u64; lia|].
  assert (match @encode_deposit_page toy_deposit toy_prims demo_caps 100 [7] () with Done (Ok _, _) => true | _ => false end = true) as Hr by (vm_compute; reflexivity). rewrite E in Hr.
  destruct r as [buf|x]; [|discriminate Hr]. destruct g'. exists buf. split; [exact E|]. destruct (Hok buf eq_refl) as (_ & blobs & Hs & Hf & _).
  assert (blobs = [(1, 1, [1; 2; 3])]) as ->.
  { change (build_entry_list demo_caps) with [{| ee_action := MmioMap; ee_resource := MmioRegion 0xFE000000 0x4000; ee_action_tag := 1; ee_resource_tag := 1 |}] in Hs.
    inversion Hs as [|e b es bs Hb Hrest]; subst. inversion Hrest; subst. destruct Hb as [-> (t & Et & _)]. cbn [encode_token toy_deposit] in Et.
    destruct (decide (t = demo_token)); [|done]. injection Et as Et. unfold blob_bytes in *. cbn [snd] in *. rewrite <- Et. reflexivity. }
  split; [exact (proj1 (Hf ACTION_TAG_MMIO_MAP (fun _ => true)))|exact (proj1 (Hf ACTION_TAG_DMA_MAP (fun _ => true)))].
Defined.
