(* ===== verification/DriverSys.v ===== *)
(** * System calls of the driver framework (syscall_entry.rs: MmioMap, DmaMap,
    IrqAttach and the token checks of DriverLoad; process.rs, driver_manifest.rs)

    A driver process asks for device registers, memory and interrupts by
    presenting a signed token.  The process's page tables, the frame allocator
    and the interrupt slots are the state; the reads of user memory, the clock
    and the random number are given.  The translation buffer is not modelled:
    the flushes that accompany every change of an entry have no effect here. *)

From Stdlib Require Import ZArith Lia.
From stdpp Require Import base numbers list sets gmap.
From S2P Require Import Prelude Str FrameAlloc CapScope CapToken Ipc Paging.

(** ** Answers (syscall.rs) *)

Definition EACCES : Z := 13.
Definition EFAULT : Z := 14.
Definition EINVAL : Z := 22.
Definition ENOSPC : Z := 28.
Definition ENOSYS : Z := 38.

Record SyscallReturn := { rax : Z; rdx : Z }.
Definition sys_ok (v : Z) : SyscallReturn := {| rax := v; rdx := 0 |}.
Definition sys_err (errno : Z) : SyscallReturn := {| rax := 0; rdx := errno |}.

(** ** Process state of a driver (process.rs) *)

Record MmioMapping := { mm_va_base : Z; mm_len_pages : Z }.
Record DmaMapping := { dm_iova_base : Z; dm_len_pages : Z; dm_direction : Z }.
Record IrqAttachment := { ia_irq_line : Z; ia_vector : Z; ia_channel_id : Z }.

Record DriverPcb := { pml4_phys : Z; mmio_mappings : list MmioMapping; mmio_va_cursor : Z; dma_mappings : list DmaMapping; irq_attachments : list IrqAttachment }.

(** ** The token presented with a request *)

Definition USER_HALF_END : Z := 0x800000000000.
Definition MAX_TOKEN_BYTES : Z := 1024.

Definition user_range_ok (ptr len : Z) : bool :=
  if len =? 0 then true else match checked_add64 ptr len with None => false | Some stop => stop <=? USER_HALF_END end.

(** The checks on the token's pointer and length, which come before anything is read. *)
Definition token_range_ok (cap_ptr cap_len : Z) : bool :=
  negb ((cap_ptr =? 0) || (cap_len =? 0)) && (cap_len <=? MAX_TOKEN_BYTES) && user_range_ok cap_ptr cap_len.

Definition is_driver_framework_action (a : Action) : bool :=
  match a with MmioMap | DmaMap | IrqAttach | PciConfigRead | PciConfigWrite | DriverLoad | DriverUnload | TeeProbe => true | _ => false end.

(** What a call sees of the outside: user memory, the clock, and the number drawn. *)
Record SysEnv := { se_user : Z -> Z -> list Z; se_now : Z; se_raw : Z }.

Section Gate.
Context `{SigningPrimitives}.
Context (domain_separated_hash : str -> list Z -> list Z).
Context (decode_canonical : list Z -> option CapabilityToken).

(** Decoding, full verification, the action and the claimed resource. *)
Definition token_allows (bytes : list Z) (now : Z) (act : Action) (claim : Resource) : run bool :=
  match decode_canonical bytes with
  | None => Done false
  | Some token =>
      v ← verify_signed_token domain_separated_hash provider_placeholder token now;
      Done (bool_decide (v = Authorised) && is_driver_framework_action (action (tp_scope (payload token))) && bool_decide (action (tp_scope (payload token)) = act) &&
            resource_is_subset_of claim (resource (tp_scope (payload token))))
  end.

(** [verify_token] of DriverLoad: the resource must be [Any] itself. *)
Definition verify_token (bytes : list Z) (now : Z) : run (result Z CapabilityToken) :=
  match decode_canonical bytes with
  | None => Done (Err EACCES)
  | Some token =>
      v ← verify_signed_token domain_separated_hash provider_placeholder token now;
      Done (if negb (bool_decide (v = Authorised)) then Err EACCES else
            if negb (is_driver_framework_action (action (tp_scope (payload token)))) then Err EACCES else
            if negb (bool_decide (action (tp_scope (payload token)) = DriverLoad)) then Err EACCES else
            if negb (bool_decide (resource (tp_scope (payload token)) = RAny)) then Err EACCES else Ok token)
  end.
End Gate.

(** ** MmioMap *)

Definition DRIVER_MMIO_VA_BASE : Z := 0x8000000000.
Definition DRIVER_MMIO_VA_END : Z := 0x10000000000.
Definition DRIVER_MMIO_RANGE : Z := DRIVER_MMIO_VA_END - DRIVER_MMIO_VA_BASE.
Definition PTE_PCD : Z := Z.shiftl 1 4.
Definition PTE_PWT : Z := Z.shiftl 1 3.
Definition mmio_install_flags : Z := Z.lor (Z.lor (Z.lor (Z.lor (Z.lor PTE_PRESENT PTE_WRITABLE) PTE_USER) PTE_NO_EXEC) PTE_PCD) PTE_PWT.

(** The state a driver's calls act on. *)
Record DriverSys (A : Type) := { ds_mem : phys_mem; ds_alloc : A; ds_pcbs : gmap Z DriverPcb; ds_current : option Z; ds_phys_offset : Z }.
Arguments ds_mem {A}.
Arguments ds_alloc {A}.
Arguments ds_pcbs {A}.
Arguments ds_current {A}.
Arguments ds_phys_offset {A}.

Section Mmio.
Context {A : Type} `{FrameSource A} `{SigningPrimitives}.
Context (domain_separated_hash : str -> list Z -> list Z).
Context (decode_canonical : list Z -> option CapabilityToken).

(** [while installed < len]: the pages already installed, and whether all were; [fuel] exceeds the number of pages. *)
Fixpoint install_loop (fuel : nat) (root va_base phys_base flags len installed : Z) (m : phys_mem) (a : A) : run (bool * Z * phys_mem * A) :=
  match fuel with
  | O => Done (true, installed, m, a)
  | S fuel =>
      if negb (installed <? len) then Done (true, installed, m, a) else
      virt ← add64 va_base installed;
      phys ← add64 phys_base installed;
      '(ok, m, a) ← map_4k_into root virt phys flags m a;
      if (ok : bool) then next ← add64 installed 0x1000; install_loop fuel root va_base phys_base flags len next m a
      else Done (false, installed, m, a)
  end.

(** [while rolled < installed] *)
Fixpoint unmap_loop (fuel : nat) (pm : PageMapper) (va_base stop rolled : Z) (m : phys_mem) : run phys_mem :=
  match fuel with
  | O => Done m
  | S fuel =>
      if negb (rolled <? stop) then Done m else
      virt ← add64 va_base rolled;
      next ← add64 rolled 0x1000;
      unmap_loop fuel pm va_base stop next (snd (unmap_4k pm virt m))
  end.

Definition page_fuel (len : Z) : nat := S (Z.to_nat (len / 0x1000)).

Definition set_pcb (t : Z) (p : DriverPcb) (s : DriverSys A) : DriverSys A :=
  {| ds_mem := ds_mem s; ds_alloc := ds_alloc s; ds_pcbs := <[t := p]> (ds_pcbs s); ds_current := ds_current s; ds_phys_offset := ds_phys_offset s |}.
Definition set_tables (m : phys_mem) (a : A) (s : DriverSys A) : DriverSys A :=
  {| ds_mem := m; ds_alloc := a; ds_pcbs := ds_pcbs s; ds_current := ds_current s; ds_phys_offset := ds_phys_offset s |}.
Definition with_cursor (c : Z) (p : DriverPcb) : DriverPcb :=
  {| pml4_phys := pml4_phys p; mmio_mappings := mmio_mappings p; mmio_va_cursor := c; dma_mappings := dma_mappings p; irq_attachments := irq_attachments p |}.
Definition with_mmio (l : list MmioMapping) (p : DriverPcb) : DriverPcb :=
  {| pml4_phys := pml4_phys p; mmio_mappings := l; mmio_va_cursor := mmio_va_cursor p; dma_mappings := dma_mappings p; irq_attachments := irq_attachments p |}.

(** The part behind the checks: choose the address, install, or roll back. *)
Definition mmio_install (raw phys_base len len_pages : Z) (s : DriverSys A) : run (SyscallReturn * DriverSys A) :=
  match ds_current s with
  | None => Done (sys_err EFAULT, s)
  | Some current =>
      match ds_pcbs s !! current with
      | None => Done (sys_err EFAULT, s)
      | Some pcb =>
          let usable_range := saturating_sub DRIVER_MMIO_RANGE len in
          if (mmio_va_cursor pcb =? 0) && (usable_range =? 0) then Done (sys_err ENOSPC, s) else
          cursor ← (if mmio_va_cursor pcb =? 0 then add64 DRIVER_MMIO_VA_BASE (Z.land (raw mod usable_range) (not64 0xFFF)) else Done (mmio_va_cursor pcb));
          let pcb := with_cursor cursor pcb in
          let s := set_pcb current pcb s in
          let va_base := mmio_va_cursor pcb in
          match checked_add64 va_base len with
          | None => Done (sys_err ENOSPC, s)
          | Some va_end =>
              if DRIVER_MMIO_VA_END <? va_end then Done (sys_err ENOSPC, s) else
              if ds_phys_offset s =? 0 then Done (sys_err EFAULT, s) else
              '(ok, installed, m, a) ← install_loop (page_fuel len) (pml4_phys pcb) va_base phys_base mmio_install_flags len 0 (ds_mem s) (ds_alloc s);
              if negb ok then
                m ← unmap_loop (page_fuel len) {| phys_offset := ds_phys_offset s; root_phys := pml4_phys pcb |} va_base installed 0 m;
                Done (sys_err ENOSPC, set_tables m a s)
              else
                let pcb := with_mmio (mmio_mappings pcb ++ [{| mm_va_base := va_base; mm_len_pages := len_pages |}]) (with_cursor va_end pcb) in
                Done (sys_ok va_base, set_pcb current pcb (set_tables m a s))
          end
      end
  end.

Definition mmio_map (e : SysEnv) (phys_base len flags cap_ptr cap_len : Z) (s : DriverSys A) : run (SyscallReturn * DriverSys A) :=
  if negb (Z.land phys_base 0xFFF =? 0) || (len =? 0) || negb (Z.land len 0xFFF =? 0) then Done (sys_err EINVAL, s) else
  if negb (Z.land flags (not64 1) =? 0) then Done (sys_err EINVAL, s) else
  if negb (Z.land flags 1 =? 0) then Done (sys_err ENOSYS, s) else
  if negb (token_range_ok cap_ptr cap_len) then Done (sys_err EFAULT, s) else
  allowed ← token_allows domain_separated_hash decode_canonical (se_user e cap_ptr cap_len) (se_now e) MmioMap (MmioRegion phys_base len);
  if negb allowed then Done (sys_err EACCES, s) else
  let len_pages := len / 0x1000 in
  if u32_max <? len_pages then Done (sys_err EINVAL, s) else
  mmio_install (se_raw e) phys_base len len_pages s.

(** [tear_down_mmio_mappings] *)
Fixpoint tear_down_loop (pm : PageMapper) (mappings : list MmioMapping) (m : phys_mem) : run phys_mem :=
  match mappings with
  | [] => Done m
  | x :: mappings =>
      bytes ← mul64 (mm_len_pages x) 0x1000;
      m ← unmap_loop (page_fuel bytes) pm (mm_va_base x) bytes 0 m;
      tear_down_loop pm mappings m
  end.

Definition tear_down_mmio_mappings (task : Z) (s : DriverSys A) : run (DriverSys A) :=
  match ds_pcbs s !! task with
  | None => Done s
  | Some pcb =>
      if ds_phys_offset s =? 0 then Done s else
      m ← tear_down_loop {| phys_offset := ds_phys_offset s; root_phys := pml4_phys pcb |} (mmio_mappings pcb) (ds_mem s);
      Done (set_pcb task (with_mmio [] (with_cursor 0 pcb)) (set_tables m (ds_alloc s) s))
  end.
End Mmio.

(** ** Lemmas on ranges of pages *)

Lemma add64_overflows a b : 2 ^ 64 <= a + b -> add64 a b = Panicked.
Proof. intros Hov. unfold add64. by rewrite (proj2 (Z.ltb_ge _ _)). Qed.

Lemma same_path_range va k w : va mod 4096 = 0 -> 0 <= k -> 0 <= va -> va + 4096 * k < 2 ^ 48 -> 0 <= w < 2 ^ 48 ->
  same_path 4 (va + 4096 * k) w = bool_decide (va + 4096 * k <= w < va + 4096 * (k + 1)).
Proof.
  intros Ha Hk Hv Hvk Hw. rewrite same_path_page. apply Z.div_exact in Ha; [|lia]. set (q := va / 4096) in *. replace (va + 4096 * k) with ((q + k) * 4096) by lia. rewrite Z.div_mul by lia.
  assert (0 <= w / 4096 < 2 ^ 36) as Hwd by (split; [apply Z.div_pos; lia|apply Z.div_lt_upper_bound; lia]).
  rewrite (Z.mod_small (q + k)), (Z.mod_small (w / 4096)) by lia. pose proof (Z.div_mod w 4096 ltac:(lia)). pose proof (Z.mod_pos_bound w 4096 ltac:(lia)).
  apply eq_bool_prop_intro. rewrite bool_decide_spec. rewrite Is_true_true, Z.eqb_eq. lia.
Qed.

Section RangeSpec.
Context {A : Type} `{FrameSource A} {Hlaws : FrameSourceLaws A}.
Context (root va phys flags : Z).
Hypothesis Hva : va mod 4096 = 0.
Hypothesis Hva0 : 0 <= va.

(** A table tree, and an allocator that holds none of its frames. *)
Record tables_ok (m : phys_mem) (a : A) (X : gset Z) : Prop := {
  to_wf : fs_wf a;
  to_tree : tree 4 m root X;
  to_disjoint : forall x, fs_avail a x -> x ∉ X;
}.

(** How the tables may have changed: they grew by frames of the allocator, and nothing else was written. *)
Record grown (m : phys_mem) (a : A) (X : gset Z) (m' : phys_mem) (a' : A) (X' : gset Z) : Prop := {
  gr_old : X ⊆ X';
  gr_new : forall x, x ∈ X' -> x ∈ X \/ (fs_avail a x /\ ~ fs_avail a' x);
  gr_avail : forall x, fs_avail a' x -> fs_avail a x;
  gr_frame : forall x k, x ∉ X' -> entry m' x k = entry m x k;
}.

Lemma grown_refl m a X : grown m a X m a X.
Proof. split; try done. by left. Qed.

Lemma grown_trans m a X m1 a1 X1 m2 a2 X2 : grown m a X m1 a1 X1 -> grown m1 a1 X1 m2 a2 X2 -> grown m a X m2 a2 X2.
Proof.
  intros [A1 A2 A3 A4] [B1 B2 B3 B4]. split.
  - by etrans.
  - intros x Hx. destruct (B2 x Hx) as [Hx1|[Hx1 Hn]]; [|right; split; [by apply A3|done]]. destruct (A2 x Hx1) as [|[? Hn]]; [by left|]. right. split; [done|]. intros Hc. by apply Hn, B3.
  - intros x Hx. by apply A3, B3.
  - intros x k Hx. rewrite B4 by done. apply A4. intros Hx1. by apply Hx, B1.
Qed.

(** The leaf of the page of [w], counted from the start of the range. *)
Definition range_leaf (w : Z) : nat * Z := (1%nat, new_leaf (phys + 4096 * ((w - va) / 4096)) flags).

Lemma install_loop_spec n i fuel len m a X : 0 <= i -> len = 4096 * (i + Z.of_nat n) -> (n < fuel)%nat -> va + len <= 2 ^ 47 -> 0 <= phys -> phys mod 4096 = 0 -> phys + 4096 * i <= 2 ^ 64 ->
  tables_ok m a X -> (forall k, i <= k < i + Z.of_nat n -> no_huge 4 m root (va + 4096 * k)) ->
  (install_loop fuel root va phys flags len (4096 * i) m a = Panicked /\ 2 ^ 64 < phys + len) \/
  exists ok j m' a' X', install_loop fuel root va phys flags len (4096 * i) m a = Done (ok, 4096 * j, m', a') /\ i <= j <= i + Z.of_nat n /\ (ok = true -> j = i + Z.of_nat n /\ phys + len <= 2 ^ 64) /\
    tables_ok m' a' X' /\ grown m a X m' a' X' /\
    (forall w, 0 <= w < 2 ^ 48 -> walk 4 m' root w = if bool_decide (va + 4096 * i <= w < va + 4096 * j) then Some (range_leaf w) else walk 4 m root w) /\
    (forall k, i <= k < j -> walk 4 m root (va + 4096 * k) = None).
Proof.
  revert i fuel m a X. induction n as [|n IH]; intros i fuel m a X Hi Hlen Hf Hend Hp0 Hpa Hp Ht Hh.
  - destruct fuel as [|fuel]; [lia|]. cbn [install_loop]. rewrite (proj2 (Z.ltb_ge _ _)) by lia. cbn [negb].
    right. exists true, i, m, a, X. split; [done|]. split; [lia|]. split; [lia|]. split; [done|]. split; [apply grown_refl|]. split; [|lia]. intros w Hw. by rewrite bool_decide_false by lia.
  - destruct fuel as [|fuel]; [lia|]. cbn [install_loop]. rewrite (proj2 (Z.ltb_lt _ _)) by lia. cbn [negb]. rewrite (add64_done va (4096 * i)) by lia. cbn [mbind run_bind].
    destruct (decide (2 ^ 64 <= phys + 4096 * i)) as [Hov|Hov].
    { left. rewrite (add64_overflows phys) by lia. split; [reflexivity|lia]. }
    rewrite !add64_done by lia. cbn [mbind run_bind]. pose proof (Z.div_mod phys 4096 ltac:(lia)) as Hpd. rewrite Hpa in Hpd.
    rewrite map_4k_into_level. destruct Ht as [Hwf Htree Hdis].
    destruct (map_level_spec (va + 4096 * i) (phys + 4096 * i) flags 4 m a root X ltac:(lia) Hwf Htree Hdis (Hh i ltac:(lia))) as (ok & m1 & a1 & X1 & -> & [P1 P2 P3 P4 P5 P6 P7 P8 P9 P10]).
    cbn [mbind run_bind]. assert (tables_ok m1 a1 X1) as Ht1.
    { split; [done|done|]. intros x Hx Hin. destruct (P3 x Hin) as [Hx0|[_ Hn]]; [|done]. by apply (Hdis x (P5 x Hx)). }
    assert (grown m a X m1 a1 X1) as Hg by (by split).
    assert (forall w, 0 <= w < 2 ^ 48 -> same_path 4 (va + 4096 * i) w = bool_decide (va + 4096 * i <= w < va + 4096 * (i + 1))) as Hsp by (intros w Hw; apply same_path_range; lia).
    destruct ok.
    + replace (4096 * i + 0x1000) with (4096 * (i + 1)) by lia.
      destruct (IH (i + 1) fuel m1 a1 X1) as [[-> Hpan]|(ok & j & m' & a' & X' & -> & Hj & Hok & Ht' & Hg' & Hw' & Hn')]; [lia|lia|lia|done|done|done|lia|done| |by left|right].
      { intros k Hk l e Hwk. rewrite P7, Hsp in Hwk by lia. rewrite bool_decide_false in Hwk by lia. by apply (Hh k ltac:(lia)) in Hwk. }
      exists ok, j, m', a', X'. split; [done|]. split; [lia|]. split; [intros Ho; specialize (Hok Ho); split; lia|]. split; [done|]. split; [by eapply grown_trans|]. split.
      * intros w Hw. rewrite Hw', P7, Hsp by done. cbn [andb]. destruct (decide (va + 4096 * (i + 1) <= w < va + 4096 * j)); [by rewrite !bool_decide_true by lia|].
        rewrite (bool_decide_false (va + 4096 * (i + 1) <= w < va + 4096 * j)) by done. destruct (decide (va + 4096 * i <= w < va + 4096 * (i + 1))).
        -- rewrite !bool_decide_true by lia. unfold range_leaf. do 4 f_equal. assert ((w - va) / 4096 = i) as ->; [|done]. symmetry. apply (Z.div_unique_pos _ _ _ (w - va - 4096 * i)); lia.
        -- rewrite !bool_decide_false by lia. done.
      * intros k Hk. destruct (decide (k = i)) as [->|]; [by apply P8|]. specialize (Hn' k ltac:(lia)). rewrite P7, Hsp in Hn' by lia. rewrite bool_decide_false in Hn' by lia. done.
    + right. exists false, i, m1, a1, X1. split; [done|]. split; [lia|]. split; [done|]. split; [done|]. split; [done|]. split; [|lia]. intros w Hw. rewrite P7. cbn [andb]. by rewrite bool_decide_false by lia.
Qed.
End RangeSpec.

Lemma unmap_loop_spec pm va n i fuel stop m X : va mod 4096 = 0 -> 0 <= va -> 0 <= i -> stop = 4096 * (i + Z.of_nat n) -> (n < fuel)%nat -> va + stop <= 2 ^ 47 ->
  tree 4 m (root_phys pm) X -> (forall k, i <= k < i + Z.of_nat n -> no_huge 4 m (root_phys pm) (va + 4096 * k)) ->
  exists m', unmap_loop fuel pm va stop (4096 * i) m = Done m' /\ tree 4 m' (root_phys pm) X /\ (forall x k, x ∉ X -> entry m' x k = entry m x k) /\
    forall w, 0 <= w < 2 ^ 48 -> walk 4 m' (root_phys pm) w = if bool_decide (va + 4096 * i <= w < va + stop) then None else walk 4 m (root_phys pm) w.
Proof.
  intros Hva Hva0. revert i fuel m. induction n as [|n IH]; intros i fuel m Hi Hs Hf Hend Ht Hh; (destruct fuel as [|fuel]; [lia|]); cbn [unmap_loop].
  - rewrite (proj2 (Z.ltb_ge _ _)) by lia. cbn [negb]. exists m. split; [done|]. split; [done|]. split; [done|]. intros w Hw. by rewrite bool_decide_false by lia.
  - rewrite (proj2 (Z.ltb_lt _ _)) by lia. cbn [negb]. rewrite !add64_done by lia. cbn [mbind run_bind]. replace (4096 * i + 0x1000) with (4096 * (i + 1)) by lia.
    rewrite unmap_4k_level. pose proof (unmap_level_spec (va + 4096 * i) 4 m (root_phys pm) X ltac:(lia) Ht (Hh i ltac:(lia))) as Hu.
    destruct (unmap_level (va + 4096 * i) 4 m (root_phys pm)) as [ok m1]. destruct Hu as (U1 & U2 & _ & U4). cbn [snd].
    assert (forall w, 0 <= w < 2 ^ 48 -> same_path 4 (va + 4096 * i) w = bool_decide (va + 4096 * i <= w < va + 4096 * (i + 1))) as Hsp by (intros w Hw; apply same_path_range; lia).
    destruct (IH (i + 1) fuel m1) as (m' & -> & T' & F' & W'); [lia|lia|lia|done|done| |].
    { intros k Hk l e Hwk. rewrite U4, Hsp in Hwk by lia. rewrite bool_decide_false in Hwk by lia. by apply (Hh k ltac:(lia)) in Hwk. }
    exists m'. split; [done|]. split; [done|]. split; [intros x k Hx; by rewrite F', U2|]. intros w Hw. rewrite W', U4, Hsp by done.
    destruct (decide (va + 4096 * (i + 1) <= w < va + stop)); [by rewrite !bool_decide_true by lia|]. rewrite (bool_decide_false (va + 4096 * (i + 1) <= w < va + stop)) by done.
    destruct (decide (va + 4096 * i <= w < va + 4096 * (i + 1))); [by rewrite !bool_decide_true by lia|by rewrite !bool_decide_false by lia].
Qed.

(** ** The state of a driver process *)

Definition mapping_ok (x : MmioMapping) : Prop :=
  mm_va_base x mod 4096 = 0 /\ DRIVER_MMIO_VA_BASE <= mm_va_base x /\ 0 < mm_len_pages x <= u32_max /\ mm_va_base x + 4096 * mm_len_pages x <= DRIVER_MMIO_VA_END.

Record driver_ok {A} `{FrameSource A} (s : DriverSys A) (t : Z) (p : DriverPcb) (X : gset Z) : Prop := {
  do_current : ds_current s = Some t;
  do_pcb : ds_pcbs s !! t = Some p;
  do_offset : ds_phys_offset s <> 0;
  do_tables : tables_ok (pml4_phys p) (ds_mem s) (ds_alloc s) X;
  do_no_huge : forall w, 0 <= w < 2 ^ 47 -> no_huge 4 (ds_mem s) (pml4_phys p) w;
  do_cursor : mmio_va_cursor p = 0 \/ (mmio_va_cursor p mod 4096 = 0 /\ DRIVER_MMIO_VA_BASE <= mmio_va_cursor p <= DRIVER_MMIO_VA_END);
  do_mappings : Forall mapping_ok (mmio_mappings p);
}.

(** No translation of a user address has changed. *)
Definition same_view (m m' : phys_mem) (root : Z) : Prop := forall w, 0 <= w < 2 ^ 47 -> walk 4 m' root w = walk 4 m root w.

Lemma view_no_huge m m' root : same_view m m' root -> (forall w, 0 <= w < 2 ^ 47 -> no_huge 4 m root w) -> forall w, 0 <= w < 2 ^ 47 -> no_huge 4 m' root w.
Proof. intros Hv Hh w Hw k e. rewrite Hv by done. by apply Hh. Qed.

Lemma first_cursor raw len : is_u64 raw -> 0 < len < DRIVER_MMIO_RANGE -> let off := Z.land (raw mod (DRIVER_MMIO_RANGE - len)) (not64 0xFFF) in
  0 <= off /\ off mod 4096 = 0 /\ off < DRIVER_MMIO_RANGE - len.
Proof.
  unfold is_u64, DRIVER_MMIO_RANGE, DRIVER_MMIO_VA_END, DRIVER_MMIO_VA_BASE. intros Hr Hl. cbv zeta. pose proof (Z.mod_pos_bound raw (0x10000000000 - 0x8000000000 - len) ltac:(lia)) as Hm.
  set (x := raw mod _) in *. change 0xFFF with (2 ^ 12 - 1). rewrite land_not_mask by (unfold is_u64; lia). change (2 ^ 12) with 4096.
  pose proof (Z.mod_pos_bound x 4096 ltac:(lia)). pose proof (Z.div_mod x 4096 ltac:(lia)). split; [lia|]. split; [|lia].
  replace (x - x mod 4096) with (x / 4096 * 4096) by lia. apply Z.mod_mul. lia.
Qed.

Lemma choose_cursor raw len p : is_u64 raw -> 0 < len -> mmio_va_cursor p = 0 \/ (mmio_va_cursor p mod 4096 = 0 /\ DRIVER_MMIO_VA_BASE <= mmio_va_cursor p <= DRIVER_MMIO_VA_END) ->
  (mmio_va_cursor p =? 0) && (saturating_sub DRIVER_MMIO_RANGE len =? 0) = false ->
  exists c, (if mmio_va_cursor p =? 0 then add64 DRIVER_MMIO_VA_BASE (Z.land (raw mod saturating_sub DRIVER_MMIO_RANGE len) (not64 0xFFF)) else Done (mmio_va_cursor p)) = Done c /\
    c mod 4096 = 0 /\ DRIVER_MMIO_VA_BASE <= c <= DRIVER_MMIO_VA_END.
Proof.
  intros Hraw Hl0 D6 Efull. destruct (Z.eqb_spec (mmio_va_cursor p) 0) as [E0|E0]; [|destruct D6 as [|[? ?]]; [done|]; by eexists]. cbn [andb] in Efull. apply Z.eqb_neq in Efull.
  unfold saturating_sub in *. assert (len < DRIVER_MMIO_RANGE) by lia. rewrite Z.max_l by lia. destruct (first_cursor raw len Hraw ltac:(lia)) as (O1 & O2 & O3). cbv zeta in *.
  set (off := Z.land _ _) in *. unfold DRIVER_MMIO_RANGE, DRIVER_MMIO_VA_END, DRIVER_MMIO_VA_BASE in *. rewrite add64_done by lia. eexists. split; [reflexivity|]. split; [|lia].
  rewrite Z.add_mod, O2 by lia. reflexivity.
Qed.

(** A range whose pages are unmapped has no mapped address. *)
Lemma range_none m root c j w : c mod 4096 = 0 -> (forall k, 0 <= k < j -> walk 4 m root (c + 4096 * k) = None) -> c <= w < c + 4096 * j -> walk 4 m root w = None.
Proof.
  intros Hca Hn Hr. rewrite <- (Hn ((w - c) / 4096)); [|split; [apply Z.div_pos; lia|apply Z.div_lt_upper_bound; lia]]. apply walk_same_page, (f_equal (fun x => x mod 2 ^ 36)).
  pose proof (Z.div_mod (w - c) 4096 ltac:(lia)). pose proof (Z.mod_pos_bound (w - c) 4096 ltac:(lia)). apply Z.div_exact in Hca; [|lia].
  set (q := c / 4096) in *. set (d := (w - c) / 4096) in *. transitivity (q + d); [symmetry; apply (Z.div_unique_pos _ _ _ ((w - c) mod 4096))|apply (Z.div_unique_pos _ _ _ 0)]; lia.
Qed.

Section Outcome.
Context {A : Type} `{FrameSource A} {Hlaws : FrameSourceLaws A}.

(** The outcome of an installation: a new range, or no visible change. *)
Definition mmio_outcome (phys_base len : Z) (s : DriverSys A) (t : Z) (p : DriverPcb) (X : gset Z) (r : SyscallReturn) (s' : DriverSys A) : Prop :=
  exists p' X', driver_ok s' t p' X' /\ pml4_phys p' = pml4_phys p /\ (forall u, u <> t -> ds_pcbs s' !! u = ds_pcbs s !! u) /\
    dma_mappings p' = dma_mappings p /\ irq_attachments p' = irq_attachments p /\ grown (ds_mem s) (ds_alloc s) X (ds_mem s') (ds_alloc s') X' /\
    ((exists va, r = sys_ok va /\ phys_base + len <= 2 ^ 64 /\ va mod 4096 = 0 /\ DRIVER_MMIO_VA_BASE <= va /\ va + len <= DRIVER_MMIO_VA_END /\ mmio_va_cursor p' = va + len /\
        mmio_mappings p' = mmio_mappings p ++ [{| mm_va_base := va; mm_len_pages := len / 4096 |}] /\
        forall w, 0 <= w < 2 ^ 47 -> if decide (va <= w < va + len) then walk 4 (ds_mem s) (pml4_phys p) w = None /\ walk 4 (ds_mem s') (pml4_phys p) w = Some (range_leaf va phys_base mmio_install_flags w)
          else walk 4 (ds_mem s') (pml4_phys p) w = walk 4 (ds_mem s) (pml4_phys p) w) \/
     (rax r = 0 /\ (rdx r = ENOSPC \/ rdx r = EFAULT) /\ mmio_mappings p' = mmio_mappings p /\ same_view (ds_mem s) (ds_mem s') (pml4_phys p))).

Lemma outcome_refused phys_base len s t p X c e : driver_ok s t p X -> (c = 0 \/ (c mod 4096 = 0 /\ DRIVER_MMIO_VA_BASE <= c <= DRIVER_MMIO_VA_END)) -> e = ENOSPC \/ e = EFAULT ->
  mmio_outcome phys_base len s t p X (sys_err e) (set_pcb t (with_cursor c p) s).
Proof.
  intros [H1 H2 H3 H4 H5 H6 H7] Hc He. exists (with_cursor c p), X. split; [split; try done; cbn; by rewrite lookup_insert_eq|]. split; [done|].
  split; [intros u Hu; cbn; by rewrite lookup_insert_ne by done|]. split; [done|]. split; [done|]. split; [apply grown_refl|]. right. by repeat split.
Qed.

Lemma outcome_granted phys_base len s t p X X' c m' a' : driver_ok s t p X -> phys_base + len <= 2 ^ 64 -> 0 < len -> len mod 4096 = 0 -> len / 4096 <= u32_max -> c mod 4096 = 0 -> DRIVER_MMIO_VA_BASE <= c -> c + len <= DRIVER_MMIO_VA_END ->
  tables_ok (pml4_phys p) m' a' X' -> grown (ds_mem s) (ds_alloc s) X m' a' X' -> (forall w, c <= w < c + len -> walk 4 (ds_mem s) (pml4_phys p) w = None) ->
  (forall w, 0 <= w < 2 ^ 48 -> walk 4 m' (pml4_phys p) w = if bool_decide (c <= w < c + len) then Some (range_leaf c phys_base mmio_install_flags w) else walk 4 (ds_mem s) (pml4_phys p) w) ->
  mmio_outcome phys_base len s t p X (sys_ok c)
    (set_pcb t (with_mmio (mmio_mappings p ++ [{| mm_va_base := c; mm_len_pages := len / 4096 |}]) (with_cursor (c + len) (with_cursor c p))) (set_tables m' a' (set_pcb t (with_cursor c p) s))).
Proof.
  intros [D1 D2 D3 D4 D5 D6 D7] Hp Hl0 Hla Hlp Hca Hc1 Hc2 Ht' Hg' Hnone Hw'. assert (len = 4096 * (len / 4096)) as Hlen by (apply Z.div_exact in Hla; lia). set (n := len / 4096) in *.
  unfold DRIVER_MMIO_VA_END, DRIVER_MMIO_VA_BASE in *.
  eexists _, X'. split; [|split; [|split; [|split; [|split; [|split; [|left; exists c; split; [reflexivity|]; split; [exact Hp|]]]]]]]; [split| | | | | |].
  + done.
  + cbn. apply lookup_insert_eq.
  + done.
  + done.
  + intros w Hw k e. change (walk 4 m' (pml4_phys p) w = Some (k, e) -> k = 1%nat). rewrite Hw' by lia. destruct (decide (c <= w < c + len)); [by rewrite bool_decide_true by done; intros [= <- _]|]. rewrite bool_decide_false by done. by apply D5.
  + right. cbn. unfold DRIVER_MMIO_VA_BASE, DRIVER_MMIO_VA_END. split; [|lia]. rewrite Z.add_mod, Hca, Hla by lia. reflexivity.
  + cbn. apply Forall_app. split; [done|]. apply Forall_singleton. split; [done|]. cbn. fold n. unfold DRIVER_MMIO_VA_BASE, DRIVER_MMIO_VA_END. lia.
  + done.
  + intros u Hu. cbn. by rewrite !lookup_insert_ne by done.
  + done.
  + done.
  + done.
  + split; [done|]. unfold DRIVER_MMIO_VA_BASE, DRIVER_MMIO_VA_END. split; [lia|]. split; [lia|]. split; [done|]. split; [done|]. intros w Hw. cbn [ds_mem set_pcb set_tables]. destruct (decide (c <= w < c + len)) as [Hr|Hr].
    * split; [by apply Hnone|]. rewrite Hw' by lia. by rewrite bool_decide_true by done.
    * rewrite Hw' by lia. by rewrite bool_decide_false by done.
Qed.

Lemma mmio_install_spec raw phys_base len s t p X : driver_ok s t p X -> is_u64 raw -> 0 < len -> len mod 4096 = 0 -> len / 4096 <= u32_max -> is_u64 phys_base -> phys_base mod 4096 = 0 ->
  (mmio_install raw phys_base len (len / 4096) s = Panicked /\ 2 ^ 64 < phys_base + len) \/
  exists r s', mmio_install raw phys_base len (len / 4096) s = Done (r, s') /\ mmio_outcome phys_base len s t p X r s'.
Proof.
  intros Hd Hraw Hl0 Hla Hlp Hp Hpa. unfold is_u64 in Hp. pose proof Hd as [D1 D2 D3 D4 D5 D6 D7]. unfold mmio_install. rewrite D1, D2.
  assert (len = 4096 * (len / 4096)) as Hlen by (apply Z.div_exact in Hla; lia). set (n := len / 4096) in *.
  assert (with_cursor (mmio_va_cursor p) p = p) as Hsame by (by destruct p). assert (set_pcb t p s = s) as Hsets by (destruct s; unfold set_pcb; cbn in *; f_equal; by apply insert_id).
  destruct ((mmio_va_cursor p =? 0) && (saturating_sub DRIVER_MMIO_RANGE len =? 0)) eqn:Efull.
  { right. exists (sys_err ENOSPC), s. split; [done|].
    pose proof (outcome_refused phys_base len s t p X (mmio_va_cursor p) ENOSPC Hd D6 (or_introl eq_refl)) as Ho. by rewrite Hsame, Hsets in Ho. }
  destruct (choose_cursor raw len p Hraw Hl0 D6 Efull) as (c & -> & Hca & Hcr).
  cbn [mbind run_bind]. set (p1 := with_cursor c p). set (s1 := set_pcb t p1 s). change (mmio_va_cursor p1) with c. change (ds_phys_offset s1) with (ds_phys_offset s).
  assert (forall e, e = ENOSPC \/ e = EFAULT -> mmio_outcome phys_base len s t p X (sys_err e) s1) as Href by (intros e He; apply outcome_refused; [done|by right|done]).
  unfold checked_add64. destruct (Z.ltb_spec (c + len) (2 ^ 64)) as [Hov|Hov]; [|right; eexists _, _; split; [reflexivity|]; by apply Href; left].
  destruct (Z.ltb_spec DRIVER_MMIO_VA_END (c + len)) as [Hbig|Hfit]; [right; eexists _, _; split; [reflexivity|]; by apply Href; left|].
  rewrite (proj2 (Z.eqb_neq _ _) D3). change (ds_mem s1) with (ds_mem s). change (ds_alloc s1) with (ds_alloc s). change (pml4_phys p1) with (pml4_phys p).
  unfold DRIVER_MMIO_VA_END, DRIVER_MMIO_VA_BASE in *.
  destruct (install_loop_spec (pml4_phys p) c phys_base mmio_install_flags Hca ltac:(lia) (Z.to_nat n) 0 (page_fuel len) len (ds_mem s) (ds_alloc s) X)
    as [[Einst Hpan]|(ok & j & m' & a' & X' & Einst & Hj & Hok & Ht' & Hg' & Hw' & Hn')]; [lia|lia|unfold page_fuel; change 0x1000 with 4096; fold n; lia|lia|lia|done|lia|done|intros k Hk; apply D5; lia| |].
  { left. change (4096 * 0) with 0 in Einst. rewrite Einst. done. }
  right.
  change (4096 * 0) with 0 in Einst. rewrite Einst. cbn [mbind run_bind]. rewrite Z.mul_0_r, Z.add_0_r in Hw'.
  pose proof (fun w => range_none (ds_mem s) (pml4_phys p) c j w Hca Hn') as Hnone.
  destruct ok; cbn [negb].
  - eexists _, _. split; [reflexivity|]. destruct (Hok eq_refl) as [Hjn Hfits]. replace (4096 * j) with len in * by lia. apply (outcome_granted phys_base len s t p X X' c m' a'); try done; unfold DRIVER_MMIO_VA_BASE, DRIVER_MMIO_VA_END; lia.
  - destruct (unmap_loop_spec {| phys_offset := ds_phys_offset s; root_phys := pml4_phys p |} c (Z.to_nat j) 0 (page_fuel len) (4096 * j) m' X' Hca ltac:(lia)) as (m2 & Eun & T2 & F2 & W2).
    { lia. }
    { lia. }
    { unfold page_fuel. change 0x1000 with 4096. fold n. lia. }
    { lia. }
    { apply Ht'. }
    { intros k Hk l e. cbn [root_phys]. rewrite Hw' by lia. rewrite bool_decide_true by lia. by intros [= <- _]. }
    change (4096 * 0) with 0 in Eun. rewrite Eun. cbn [mbind run_bind root_phys] in *. eexists _, _. split; [reflexivity|].
    rewrite Z.add_0_r in W2. assert (same_view (ds_mem s) m2 (pml4_phys p)) as Hview.
    { intros w Hw. rewrite W2, Hw' by lia. destruct (decide (c <= w < c + 4096 * j)) as [Hr|Hr]; [rewrite !bool_decide_true by done; symmetry; by apply Hnone|by rewrite !bool_decide_false by done]. }
    exists p1, X'. split; [split; try done|].
    + cbn. apply lookup_insert_eq.
    + split; [apply Ht'|done|apply Ht'].
    + by apply (view_no_huge (ds_mem s)).
    + by right.
    + split; [done|]. split; [intros u Hu; cbn; by rewrite lookup_insert_ne by done|]. split; [done|]. split; [done|]. split; [|right; split; [done|]; split; [by left|]; split; done].
      destruct Hg' as [G1 G2 G3 G4]. split; try done. intros x k Hx. cbn. rewrite F2 by done. by apply G4.
Qed.
End Outcome.

(** ** The token gate *)

Section GateSpec.
Context `{SigningPrimitives}.
Context (domain_separated_hash : str -> list Z -> list Z).
Context (decode_canonical : list Z -> option CapabilityToken).

(** What a token must be to permit an action on a resource. *)
Definition granted (bytes : list Z) (now : Z) (act : Action) (claim : Resource) : Prop :=
  exists token, decode_canonical bytes = Some token /\
    (exists enc, encode_canonical (payload token) = Some enc /\ sig_verify (tp_issuer (payload token)) enc (signature token) = true) /\
    not_before (window (tp_scope (payload token))) <= now < not_after (window (tp_scope (payload token))) /\
    tp_subject (payload token) = node_id_bytes provider_placeholder /\
    action (tp_scope (payload token)) = act /\ resource_is_subset_of claim (resource (tp_scope (payload token))) = true.

Lemma token_allows_spec bytes now act claim : is_driver_framework_action act = true ->
  exists b, token_allows domain_separated_hash decode_canonical bytes now act claim = Done b /\ (b = true <-> granted bytes now act claim).
Proof.
  intros Hf. unfold token_allows, granted. destruct (decode_canonical bytes) as [t|]; [|exists false; split; [done|]; split; [done|]; by intros (? & ? & _)].
  destruct (verify_signed_token_spec domain_separated_hash provider_placeholder t now) as (v & -> & Hv). cbn [mbind run_bind]. eexists. split; [reflexivity|].
  rewrite !andb_true_iff, !bool_decide_eq_true. split.
  - intros [[[Ha _] Hact] Hs]. apply Hv in Ha as (H1 & H2 & H3). by exists t.
  - intros (t' & [= <-] & H1 & H2 & H3 & Hact & Hs). split; [split; [split|done]|done]; [by apply Hv|by rewrite Hact].
Qed.

(** The issuer is not compared with anything: a token anyone signs for himself passes. *)
Lemma self_signed_granted {Hl : SigningLaws} sk p t bytes now act claim : tp_issuer p = verifying_key sk -> sign_payload sk p = Ok t -> decode_canonical bytes = Some t ->
  tp_subject p = replicate 32 0 -> not_before (window (tp_scope p)) <= now < not_after (window (tp_scope p)) -> action (tp_scope p) = act -> resource_is_subset_of claim (resource (tp_scope p)) = true ->
  granted bytes now act claim.
Proof.
  intros Hi Hs Hd Hsub Hw Ha Hr. unfold sign_payload, canonical_bytes, ok_or in Hs. destruct (encode_canonical p) as [enc|] eqn:Ee; [|done]. cbn in Hs. injection Hs as <-.
  exists {| payload := p; signature := sign sk enc |}. cbn [payload signature]. split; [done|]. split; [exists enc; split; [done|]; by rewrite Hi, sign_verifies|]. done.
Qed.
End GateSpec.

(** ** Theorem *)

Section MmioTheorem.
Context {A : Type} `{FrameSource A} {Hlaws : FrameSourceLaws A} `{SigningPrimitives}.
Context (domain_separated_hash : str -> list Z -> list Z).
Context (decode_canonical : list Z -> option CapabilityToken).

Definition mmio_args_ok (phys_base len flags cap_ptr cap_len : Z) : Prop :=
  phys_base mod 4096 = 0 /\ len <> 0 /\ len mod 4096 = 0 /\ flags = 0 /\ token_range_ok cap_ptr cap_len = true.

(** The state behind a call that answered [r]: the invariant, the granted range or no change, and the reason of a denial. *)
Definition mmio_post (args gate : Prop) (phys_base len : Z) (s : DriverSys A) (t : Z) (p : DriverPcb) (X : gset Z) (r : SyscallReturn) (s' : DriverSys A) : Prop :=
  exists p' X', driver_ok s' t p' X' /\ pml4_phys p' = pml4_phys p /\ (forall u, u <> t -> ds_pcbs s' !! u = ds_pcbs s !! u) /\ grown (ds_mem s) (ds_alloc s) X (ds_mem s') (ds_alloc s') X' /\
    (rdx r = 0 -> args /\ gate /\ len / 4096 <= u32_max /\ phys_base + len <= 2 ^ 64 /\ exists va, rax r = va /\ DRIVER_MMIO_VA_BASE <= va /\ va + len <= DRIVER_MMIO_VA_END /\ mmio_va_cursor p' = va + len /\
       mmio_mappings p' = mmio_mappings p ++ [{| mm_va_base := va; mm_len_pages := len / 4096 |}] /\
       forall w, 0 <= w < 2 ^ 47 -> if decide (va <= w < va + len)
         then translate_in (ds_mem s) (pml4_phys p) w = None /\ translate_in (ds_mem s') (pml4_phys p) w = Some ((phys_base + (w - va)) mod 2 ^ 52) /\
              exists frame, walk 4 (ds_mem s') (pml4_phys p) w = Some (1%nat, new_leaf frame mmio_install_flags)
         else translate_in (ds_mem s') (pml4_phys p) w = translate_in (ds_mem s) (pml4_phys p) w) /\
    (rdx r <> 0 -> rax r = 0 /\ mmio_mappings p' = mmio_mappings p /\ forall w, 0 <= w < 2 ^ 47 -> translate_in (ds_mem s') (pml4_phys p) w = translate_in (ds_mem s) (pml4_phys p) w) /\
    (rdx r = EACCES <-> args /\ ~ gate).

Lemma post_refused args gate phys_base len s t p X err : driver_ok s t p X -> err <> 0 -> (err = EACCES <-> args /\ ~ gate) -> mmio_post args gate phys_base len s t p X (sys_err err) s.
Proof. intros Hd He Ha. exists p, X. split; [done|]. split; [done|]. split; [done|]. split; [apply grown_refl|]. cbn [rdx rax sys_err]. split; [done|]. by split. Qed.

Lemma range_leaf_phys va phys flags w : Z.land flags FRAME_MASK = 0 -> va mod 4096 = 0 -> phys mod 4096 = 0 -> 0 <= phys -> va <= w -> phys + (w - va) < 2 ^ 52 ->
  leaf_phys w (range_leaf va phys flags w) = phys + (w - va).
Proof.
  intros Hfl Hva Hp Hp0 Hw Hb. unfold range_leaf. pose proof (Z.div_mod (w - va) 4096 ltac:(lia)). pose proof (Z.mod_pos_bound (w - va) 4096 ltac:(lia)).
  rewrite leaf_phys_new; [|rewrite Z.add_mod, Hp, (Z.mul_comm 4096), Z.mod_mul by lia; done|split; [pose proof (Z.div_pos (w - va) 4096); lia|lia]|done].
  assert (w mod 4096 = (w - va) mod 4096); [|lia]. rewrite Zminus_mod, Hva, Z.sub_0_r, Z.mod_mod by lia. done.
Qed.

(** A frame has 52 bits: the part of an address above them is lost in the entry. *)
Lemma range_leaf_wraps va phys flags w : Z.land flags FRAME_MASK = 0 -> va mod 4096 = 0 -> phys mod 4096 = 0 -> 0 <= phys -> va <= w ->
  leaf_phys w (range_leaf va phys flags w) = (phys + (w - va)) mod 2 ^ 52.
Proof.
  intros Hfl Hva Hp Hp0 Hw. unfold range_leaf. pose proof (Z.div_mod (w - va) 4096 ltac:(lia)). pose proof (Z.mod_pos_bound (w - va) 4096 ltac:(lia)).
  rewrite new_leaf_mod. set (f := phys + 4096 * ((w - va) / 4096)). assert (f mod 4096 = 0) as Hf by (unfold f; rewrite Z.add_mod, Hp, (Z.mul_comm 4096), Z.mod_mul by lia; done).
  assert (w mod 4096 = (w - va) mod 4096) as Hwm by (rewrite Zminus_mod, Hva, Z.sub_0_r, Z.mod_mod by lia; done).
  pose proof (Z.div_mod f 4096 ltac:(lia)) as Hfd. assert (f mod 2 ^ 52 = 4096 * ((f / 4096) mod 2 ^ 40)) as Hfm by (rewrite Hfd, Hf, Z.add_0_r at 1; change (2 ^ 52) with (4096 * 2 ^ 40); by rewrite Z.mul_mod_distr_l by lia).
  pose proof (Z.mod_pos_bound (f / 4096) (2 ^ 40) ltac:(lia)). rewrite leaf_phys_new; [|rewrite Hfm, Z.mul_comm; apply Z.mod_mul; lia|lia|done].
  replace (phys + (w - va)) with (f + w mod 4096) by (unfold f; lia). rewrite <- Zplus_mod_idemp_l. rewrite (Z.mod_small (f mod 2 ^ 52 + w mod 4096)); [done|]. pose proof (Z.mod_pos_bound w 4096 ltac:(lia)). lia.
Qed.

Lemma outcome_post (args gate : Prop) phys_base len s t p X r s' : args -> gate -> phys_base mod 4096 = 0 -> 0 <= phys_base -> len / 4096 <= u32_max ->
  mmio_outcome phys_base len s t p X r s' -> mmio_post args gate phys_base len s t p X r s'.
Proof.
  intros Ha Hg Hpa Hp0 Hl (p' & X' & H1 & H2 & H3 & _ & _ & H6 & Hor). exists p', X'. split; [done|]. split; [done|]. split; [done|]. split; [done|].
  destruct Hor as [(va & -> & Hfits & Hva & V1 & V2 & V3 & V4 & Hw)|(R1 & R2 & R3 & Hv)].
  - split; [|split; [done|split; [done|intros [_ Hn]; by destruct Hn]]]. intros _. split; [done|]. split; [done|]. split; [done|]. split; [done|]. exists va. split; [done|]. split; [done|]. split; [done|]. split; [done|]. split; [done|].
    intros w Hww. specialize (Hw w Hww). rewrite !translate_walk. destruct (decide (va <= w < va + len)) as [Hr|]; [|by rewrite Hw]. destruct Hw as [-> ->].
    split; [done|]. split; [|by eexists]. cbn [fmap option_fmap option_map]. by rewrite range_leaf_wraps by (done || lia).
  - assert (rdx r <> 0 /\ rdx r <> EACCES) as [Hr0 Hra] by (destruct R2 as [-> | ->]; done). split; [done|]. split; [intros _; split; [done|]; split; [done|]; intros w Hw; by rewrite !translate_walk, Hv|].
    split; [done|]. intros [_ Hn]. by destruct Hn.
Qed.

(** C9: mapping device registers into a driver.  On a process whose page tables are well formed, a request panics only when the arguments are valid, the presented token grants the claimed range and the claim runs past 2^64, where the address of a page overflows; otherwise it answers.  It succeeds only when the arguments are valid, the token grants MmioMap on the claimed range and the range ends below 2^64: then a range of the reserved window that was unmapped translates, byte for byte, to the claimed device range (in the 52 bits a page-table entry holds) with the uncached, non-executable user flags, every other user address translates as before, the cursor moves behind it and the mapping is recorded.  When it fails, no translation changes, installed pages being rolled back, nothing is recorded, and the answer is EACCES exactly when the arguments are valid and the token does not grant the range.  Other processes are untouched and the invariant is kept. *)
Theorem mmio_map_exact (e : SysEnv) (phys_base len flags cap_ptr cap_len : Z) (s : DriverSys A) (t : Z) (p : DriverPcb) (X : gset Z) :
  driver_ok s t p X -> is_u64 (se_raw e) -> is_u64 len -> is_u64 flags -> is_u64 phys_base ->
  let args := mmio_args_ok phys_base len flags cap_ptr cap_len in
  let gate := granted decode_canonical (se_user e cap_ptr cap_len) (se_now e) MmioMap (MmioRegion phys_base len) in
  match mmio_map domain_separated_hash decode_canonical e phys_base len flags cap_ptr cap_len s with
  | Done (r, s') => mmio_post args gate phys_base len s t p X r s'
  | Panicked => args /\ gate /\ 2 ^ 64 < phys_base + len
  end.
Proof.
  unfold is_u64 at 2 3. intros Hd Hraw Hlu Hfu Hp. unfold mmio_map. set (args := mmio_args_ok _ _ _ _ _). set (gate := granted _ _ _ _ _). cbv zeta. change 0xFFF with (2 ^ 12 - 1). rewrite !land_ones_mod by lia. change (2 ^ 12) with 4096.
  assert (forall err, err <> 0 -> err <> EACCES -> ~ args -> mmio_post args gate phys_base len s t p X (sys_err err) s) as Hbad.
  { intros err He Hne Hna. apply post_refused; [done|done|tauto]. }
  destruct (Z.eqb_spec (phys_base mod 4096) 0) as [Ha1|Ha1]; cbn [negb orb]; [|apply Hbad; [done|done|intros (? & _); done]].
  destruct (Z.eqb_spec len 0) as [Ha2|Ha2]; cbn [orb]; [apply Hbad; [done|done|intros (_ & ? & _); done]|].
  destruct (Z.eqb_spec (len mod 4096) 0) as [Ha3|Ha3]; cbn [negb]; [|apply Hbad; [done|done|intros (_ & _ & ? & _); done]].
  change 1 with (2 ^ 1 - 1) at 1. rewrite land_not_mask by (unfold is_u64; lia). change (2 ^ 1) with 2. pose proof (Z.mod_pos_bound flags 2 ltac:(lia)).
  destruct (Z.eqb_spec (flags - flags mod 2) 0) as [Hf1|Hf1]; cbn [negb]; [|apply Hbad; [done|done|intros (_ & _ & _ & -> & _); done]].
  change 1 with (2 ^ 1 - 1) at 1. rewrite land_ones_mod by lia. change (2 ^ 1) with 2.
  destruct (Z.eqb_spec (flags mod 2) 0) as [Hf2|Hf2]; cbn [negb]; [|apply Hbad; [done|done|intros (_ & _ & _ & -> & _); done]].
  destruct (token_range_ok cap_ptr cap_len) eqn:Hr; cbn [negb]; [|apply Hbad; [done|done|intros (_ & _ & _ & _ & ?); congruence]].
  assert args as Hargs by (repeat split; (done || lia)).
  destruct (token_allows_spec domain_separated_hash decode_canonical (se_user e cap_ptr cap_len) (se_now e) MmioMap (MmioRegion phys_base len) eq_refl) as (b & -> & Hb). fold gate in Hb. cbn [mbind run_bind].
  destruct b; cbn [negb]; [|apply post_refused; [done|done|]; split; [intros _; split; [done|]; intros Hg; by apply Hb in Hg|done]].
  change 0x1000 with 4096. pose proof (proj1 Hb eq_refl) as Hg. destruct (Z.ltb_spec u32_max (len / 4096)) as [Hbig|Hsm].
  { apply post_refused; [done|done|]. split; [done|]. intros [_ Hn]. by destruct Hn. }
  destruct (mmio_install_spec (se_raw e) phys_base len s t p X Hd Hraw ltac:(lia) Ha3 Hsm Hp Ha1) as [[-> Hpan]|(r & s' & -> & Ho)]; [done|].
  unfold is_u64 in Hp. apply outcome_post; (done || lia).
Qed.
End MmioTheorem.

(** ** Tearing the mappings down *)

Definition covers (x : MmioMapping) (w : Z) : bool := bool_decide (mm_va_base x <= w < mm_va_base x + 4096 * mm_len_pages x).

Lemma tear_down_loop_spec pm l m X : Forall mapping_ok l -> tree 4 m (root_phys pm) X -> (forall w, 0 <= w < 2 ^ 47 -> no_huge 4 m (root_phys pm) w) ->
  exists m', tear_down_loop pm l m = Done m' /\ tree 4 m' (root_phys pm) X /\ (forall x k, x ∉ X -> entry m' x k = entry m x k) /\
    forall w, 0 <= w < 2 ^ 47 -> walk 4 m' (root_phys pm) w = if existsb (fun x => covers x w) l then None else walk 4 m (root_phys pm) w.
Proof.
  intros Hl. revert m. induction Hl as [|x l (Hx1 & Hx2 & Hx3 & Hx4) _ IH]; intros m Ht Hh; [by exists m|]. cbn [tear_down_loop existsb].
  unfold DRIVER_MMIO_VA_BASE, DRIVER_MMIO_VA_END, u32_max in *. rewrite mul64_done by lia. cbn [mbind run_bind].
  destruct (unmap_loop_spec pm (mm_va_base x) (Z.to_nat (mm_len_pages x)) 0 (page_fuel (mm_len_pages x * 4096)) (mm_len_pages x * 4096) m X Hx1 ltac:(lia)) as (m1 & E1 & T1 & F1 & W1).
  { lia. }
  { lia. }
  { unfold page_fuel. change 0x1000 with 4096. rewrite Z.div_mul by lia. lia. }
  { lia. }
  { done. }
  { intros k Hk. apply Hh. lia. }
  change (4096 * 0) with 0 in *. rewrite Z.add_0_r in W1. change 0x1000 with 4096. rewrite E1. cbn [mbind run_bind].
  destruct (IH m1 T1) as (m' & -> & T' & F' & W').
  { intros w Hw k e. rewrite W1 by lia. destruct (bool_decide _); [done|by apply Hh]. }
  exists m'. split; [done|]. split; [done|]. split; [intros y k Hy; by rewrite F', F1|]. intros w Hw. rewrite W', W1 by lia. unfold covers. rewrite (Z.mul_comm 4096 (mm_len_pages x)).
  destruct (bool_decide (mm_va_base x <= w < mm_va_base x + mm_len_pages x * 4096)); cbn [orb]; [by destruct (existsb _ l)|done].
Qed.

(** at exit a driver loses its device mappings and nothing else: the recorded ranges no longer translate, every other user address translates as before, the record is empty, and no frame is given to the allocator. *)
Theorem mmio_teardown_exact {A : Type} `{FrameSource A} {Hlaws : FrameSourceLaws A} (s : DriverSys A) (t : Z) (p : DriverPcb) (X : gset Z) : driver_ok s t p X ->
  exists s' p', tear_down_mmio_mappings t s = Done s' /\ driver_ok s' t p' X /\ mmio_mappings p' = [] /\ mmio_va_cursor p' = 0 /\ pml4_phys p' = pml4_phys p /\ ds_alloc s' = ds_alloc s /\
    (forall u, u <> t -> ds_pcbs s' !! u = ds_pcbs s !! u) /\ (forall x k, x ∉ X -> entry (ds_mem s') x k = entry (ds_mem s) x k) /\
    forall w, 0 <= w < 2 ^ 47 -> translate_in (ds_mem s') (pml4_phys p) w = if existsb (fun x => covers x w) (mmio_mappings p) then None else translate_in (ds_mem s) (pml4_phys p) w.
Proof.
  intros [D1 D2 D3 D4 D5 D6 D7]. unfold tear_down_mmio_mappings. rewrite D2, (proj2 (Z.eqb_neq _ _) D3).
  destruct (tear_down_loop_spec {| phys_offset := ds_phys_offset s; root_phys := pml4_phys p |} (mmio_mappings p) (ds_mem s) X D7 (to_tree _ _ _ _ D4) D5) as (m' & -> & T' & F' & W').
  cbn [mbind run_bind root_phys] in *. eexists _, _. split; [reflexivity|]. split; [split|split; [|split; [|split; [|split; [|split; [|split]]]]]].
  - done.
  - cbn. apply lookup_insert_eq.
  - done.
  - split; [apply D4|done|apply D4].
  - intros w Hw k e. change (walk 4 m' (pml4_phys p) w = Some (k, e) -> k = 1%nat). rewrite W' by done. destruct (existsb _ _); [done|by apply D5].
  - by left.
  - by apply Forall_nil.
  - done.
  - done.
  - done.
  - done.
  - intros u Hu. cbn. by rewrite lookup_insert_ne by done.
  - done.
  - intros w Hw. rewrite !translate_walk. cbn [ds_mem set_pcb set_tables]. rewrite W' by done. by destruct (existsb _ _).
Qed.

(** ** Witnesses *)

Definition demo_drv_token : CapabilityToken :=
  {| payload := {| tp_id := [5]; tp_subject := replicate 32 0; tp_issuer := [9]; tp_parent := None;
                   tp_scope := {| action := MmioMap; resource := MmioRegion 0xFE000000 0x4000; window := {| not_before := 0; not_after := 100 |}; caveats := [] |} |};
     signature := [9; 5] |}.
Definition demo_decode (bs : list Z) : option CapabilityToken := if str_eqb bs [1; 2] then Some demo_drv_token else None.
Definition demo_env : SysEnv := {| se_user := fun _ _ => [1; 2]; se_now := 50; se_raw := 0x12345678 |}.
Definition demo_driver_pcb : DriverPcb := {| pml4_phys := 0x1000; mmio_mappings := []; mmio_va_cursor := 0; dma_mappings := []; irq_attachments := [] |}.
Definition demo_driver : DriverSys BitmapFrameAllocator := {| ds_mem := ∅; ds_alloc := demo_frames; ds_pcbs := {[ 7 := demo_driver_pcb ]}; ds_current := Some 7; ds_phys_offset := 0x1000000 |}.

Lemma demo_driver_ok : driver_ok demo_driver 7 demo_driver_pcb {[ 0x1000 ]}.
Proof.
  split; [done|apply lookup_singleton_eq|done| |intros w _; apply demo_no_huge|by left|by apply Forall_nil].
  split; [apply demo_frames_wf|apply demo_root_tree|apply demo_frames_disjoint].
Qed.

(** A claim that runs past 2^64 passes every check when the token grants any resource: the second page's address overflows. *)
Definition demo_any_token : CapabilityToken :=
  {| payload := {| tp_id := [5]; tp_subject := replicate 32 0; tp_issuer := [9]; tp_parent := None;
                   tp_scope := {| action := MmioMap; resource := RAny; window := {| not_before := 0; not_after := 100 |}; caveats := [] |} |};
     signature := [9; 5] |}.
Lemma mmio_overflow_panics : @mmio_map _ _ toy_prims (fun _ x => x) (fun _ => Some demo_any_token) demo_env (2 ^ 64 - 4096) 0x2000 0 0x4000 2 demo_driver = Panicked.
Proof. vm_compute. reflexivity. Qed.

Lemma mmio_map_exact_witness : exists r s', @mmio_map _ _ toy_prims (fun _ x => x) demo_decode demo_env 0xFE001000 0x2000 0 0x4000 2 demo_driver = Done (r, s') /\
  translate_in (ds_mem s') 0x1000 (rax r + 0x1234) = Some 0xFE002234.
Proof.
  assert (is_u64 (se_raw demo_env) /\ is_u64 0x2000 /\ is_u64 0 /\ is_u64 0xFE001000) as (B1 & B2 & B3 & B4) by (unfold is_u64; cbn; lia).
  pose proof (@mmio_map_exact BitmapFrameAllocator _ _ toy_prims (fun _ x => x) demo_decode demo_env 0xFE001000 0x2000 0 0x4000 2 demo_driver 7 demo_driver_pcb {[ 0x1000 ]} demo_driver_ok B1 B2 B3 B4) as Hm.
  cbv zeta in Hm. assert (match @mmio_map _ _ toy_prims (fun _ x => x) demo_decode demo_env 0xFE001000 0x2000 0 0x4000 2 demo_driver with Done (r, _) => rdx r =? 0 | Panicked => false end = true) as Hr by (vm_compute; reflexivity).
  revert Hm Hr. generalize (@mmio_map _ _ toy_prims (fun _ x => x) demo_decode demo_env 0xFE001000 0x2000 0 0x4000 2 demo_driver).
  intros [[r s']|] Hm Hr; [|discriminate Hr]. exists r, s'. split; [reflexivity|]. destruct Hm as (p' & X' & _ & _ & _ & _ & Hok & _).
  apply Z.eqb_eq in Hr. destruct (Hok Hr) as (_ & _ & _ & _ & va & Hva & V1 & V2 & _ & _ & Hw). rewrite Hva. unfold DRIVER_MMIO_VA_BASE, DRIVER_MMIO_VA_END in *.
  specialize (Hw (va + 0x1234) ltac:(lia)). rewrite decide_True in Hw by lia. destruct Hw as (_ & Hw & _). change (pml4_phys demo_driver_pcb) with 0x1000 in Hw. rewrite Hw. f_equal.
  replace (0xFE001000 + (va + 0x1234 - va)) with 0xFE002234 by lia. reflexivity.
Defined.

Lemma mmio_teardown_exact_witness : exists s', tear_down_mmio_mappings 7 demo_driver = Done s' /\ ds_alloc s' = ds_alloc demo_driver.
Proof.
  destruct (mmio_teardown_exact demo_driver 7 demo_driver_pcb {[ 0x1000 ]} demo_driver_ok) as (s' & p' & E & _ & _ & _ & _ & Ha & _). by exists s'.
Defined.
