(* ===== verification/DriverDma.v ===== *)
(** * DmaMap (syscall_entry.rs: dma_map, tear_down_dma_mappings; iommu/mod.rs:
    the IommuBackend trait and the pass-through backend)

    A driver asks for memory its device may reach.  The kernel takes frames
    from the allocator, requires them to be contiguous, maps them at the
    requested address and records the window with the IOMMU backend; any
    failure is rolled back. *)

From Stdlib Require Import ZArith Lia.
From stdpp Require Import base numbers list sets gmap.
From S2P Require Import Prelude Str FrameAlloc CapScope CapToken Ipc Paging DriverSys.

(** ** The IOMMU interface (iommu/mod.rs) *)

Inductive IommuError := IeInvalidDomain | IeAddressMisaligned | IeMapFailed | IeUnmapFailed | IeDomainTableFull | IeUnsupported | IeActivationFailed.

Definition IOMMU_READ : Z := 1.
Definition IOMMU_WRITE : Z := 2.

(** [domain_for_task]: the low 16 bits of the task's number. *)
Definition domain_for_task (task_id : Z) : Z := Z.land task_id 0xFFFF.

(** The trait [IommuBackend], its state being passed. *)
Class IommuBackend (I : Type) := {
  iommu_install_domain : Z -> I -> result IommuError unit * I;
  iommu_map : Z -> Z -> Z -> Z -> Z -> I -> result IommuError unit * I;
  iommu_unmap : Z -> Z -> Z -> I -> result IommuError unit * I;
  iommu_flush : Z -> I -> result IommuError unit * I;
}.

(** [PassthroughBackend] *)
Definition passthrough_map (iova phys len : Z) : result IommuError unit :=
  if negb (Z.land iova 0xFFF =? 0) || negb (Z.land phys 0xFFF =? 0) || negb (Z.land len 0xFFF =? 0) || (len =? 0) then Err IeAddressMisaligned else Ok ().
Definition passthrough_unmap (iova len : Z) : result IommuError unit :=
  if negb (Z.land iova 0xFFF =? 0) || negb (Z.land len 0xFFF =? 0) || (len =? 0) then Err IeAddressMisaligned else Ok ().

#[global] Instance passthrough_backend : IommuBackend unit := {|
  iommu_install_domain := fun _ i => (Ok (), i);
  iommu_map := fun _ iova phys len _ i => (passthrough_map iova phys len, i);
  iommu_unmap := fun _ iova len i => (passthrough_unmap iova len, i);
  iommu_flush := fun _ i => (Ok (), i);
|}.

(** ** A source that takes frames back *)

Class FramePool (A : Type) `{FrameSource A} := {
  fp_free : Z -> A -> run (bool * A);
  fp_managed : A -> Z -> Prop;
}.

Class FramePoolLaws (A : Type) `{FramePool A} : Prop := {
  fp_alloc_managed : forall a r a', fs_wf a -> fs_alloc a = Done (r, a') -> forall x, fp_managed a' x <-> fp_managed a x;
  fp_avail_managed : forall a x, fs_avail a x -> fp_managed a x;
  fp_free_spec : forall a f, fs_wf a -> fp_managed a f -> ~ fs_avail a f ->
    exists a', fp_free f a = Done (true, a') /\ fs_wf a' /\ (forall x, fs_avail a' x <-> fs_avail a x \/ x = f) /\ forall x, fp_managed a' x <-> fp_managed a x;
}.

#[global] Instance bitmap_pool : FramePool BitmapFrameAllocator := {|
  fp_free := free_frame;
  fp_managed := fun a x => exists i, in_cap a i /\ x = frame_addr a i;
|}.

#[global] Instance bitmap_pool_laws : FramePoolLaws BitmapFrameAllocator.
Proof.
  split.
  - intros a r a' [Hwf _] E x. destruct (alloc_frame_spec a Hwf) as [(i & a1 & E1 & _ & _ & _ & Hs & _)|[E1 _]]; cbn [fs_alloc bitmap_source] in E; rewrite E1 in E; injection E as _ <-; [|done].
    cbn. unfold in_cap, frame_addr. by rewrite (frame_set_cap _ _ _ _ Hs), (fs_base _ _ _ _ Hs).
  - intros a x (i & Hi & _ & ->). by exists i.
  - intros a f [Hwf Hb] (i & Hi & ->) Hna. assert (frame_idx a (frame_addr a i) = i) as Ei by (apply frame_idx_addr; unfold in_cap in Hi; lia).
    pose proof (free_frame_at a (frame_addr a i) Hwf (frame_addr_aligned a i Hwf)) as Hf. rewrite Ei in Hf. specialize (Hf ltac:(unfold in_cap in Hi; lia)).
    destruct (frame_used a i) eqn:Eu; [|destruct Hna; by exists i]. destruct Hf as (a' & E & Hwf' & Hs & _ & _). pose proof (frame_set_cap _ _ _ _ Hs) as Hc. pose proof Hs as [_ Hbase _ Hat Hoth].
    exists a'. split; [exact E|]. split; [split; [done|by rewrite Hbase, Hc]|]. cbn. unfold in_cap, frame_addr in *. rewrite Hc, Hbase. split; [|done]. intros x. split.
    + intros (j & Hj & Hu & ->). destruct (decide (j = i)) as [->|Hne]; [by right|left]. exists j. by rewrite <- Hoth.
    + intros [(j & Hj & Hu & ->)| ->]; [|by exists i]. exists j. split; [done|]. split; [|done]. rewrite Hoth; [done|done|]. intros ->. congruence.
Qed.

(** ** DmaMap *)

Definition DRIVER_DMA_VA_BASE : Z := 0x10000000000.
Definition DRIVER_DMA_VA_END : Z := 0x18000000000.
Definition dma_install_flags : Z := Z.lor (Z.lor (Z.lor PTE_PRESENT PTE_WRITABLE) PTE_USER) PTE_NO_EXEC.

Definition with_dma (l : list DmaMapping) (p : DriverPcb) : DriverPcb :=
  {| pml4_phys := pml4_phys p; mmio_mappings := mmio_mappings p; mmio_va_cursor := mmio_va_cursor p; dma_mappings := l; irq_attachments := irq_attachments p |}.

Section Dma.
Context {A : Type} `{FramePool A} {I : Type} `{IommuBackend I} `{SigningPrimitives}.
Context (domain_separated_hash : str -> list Z -> list Z).
Context (decode_canonical : list Z -> option CapabilityToken).

(** [while installed < len]: all pages installed, and the frames taken. *)
Fixpoint dma_loop (fuel : nat) (root iova phys_base len installed : Z) (allocated : list Z) (m : phys_mem) (a : A) : run (bool * Z * list Z * phys_mem * A) :=
  match fuel with
  | O => Done (true, installed, allocated, m, a)
  | S fuel =>
      if negb (installed <? len) then Done (true, installed, allocated, m, a) else
      '(f, a) ← fs_alloc a;
      match f with
      | None => Done (false, installed, allocated, m, a)
      | Some next_frame =>
          let allocated := allocated ++ [next_frame] in
          expected ← add64 phys_base installed;
          if negb (next_frame =? expected) then Done (false, installed, allocated, m, a) else
          virt ← add64 iova installed;
          '(ok, m, a) ← map_4k_into root virt next_frame dma_install_flags m a;
          if (ok : bool) then next ← add64 installed 0x1000; dma_loop fuel root iova phys_base len next allocated m a
          else Done (false, installed, allocated, m, a)
      end
  end.

(** [for f in &allocated { alloc.free_frame(f) }] *)
Fixpoint free_all (l : list Z) (a : A) : run A := match l with [] => Done a | f :: l => '(_, a) ← fp_free f a; free_all l a end.

(** Unmap what was installed and give the frames back. *)
Definition dma_rollback (pm : PageMapper) (iova installed len : Z) (allocated : list Z) (m : phys_mem) (a : A) : run (phys_mem * A) :=
  m ← unmap_loop (page_fuel len) pm iova installed 0 m;
  a ← free_all allocated a;
  Done (m, a).

Definition direction_flags (direction : Z) : Z := if direction =? 0 then IOMMU_READ else if direction =? 1 then IOMMU_WRITE else Z.lor IOMMU_READ IOMMU_WRITE.

Definition dma_install (iova_base len len_pages direction : Z) (s : DriverSys A) (i : I) : run (SyscallReturn * (DriverSys A * I)) :=
  match ds_current s with
  | None => Done (sys_err EFAULT, (s, i))
  | Some current =>
      match ds_pcbs s !! current with
      | None => Done (sys_err EFAULT, (s, i))
      | Some pcb =>
          if existsb (fun x => dm_iova_base x =? iova_base) (dma_mappings pcb) then Done (sys_err EINVAL, (s, i)) else
          let domain_id := domain_for_task current in
          let '(r, i) := iommu_install_domain domain_id i in
          match r with
          | Err _ => Done (sys_err ENOSPC, (s, i))
          | Ok _ =>
              if ds_phys_offset s =? 0 then Done (sys_err EFAULT, (s, i)) else
              let root := pml4_phys pcb in
              let pm := {| phys_offset := ds_phys_offset s; root_phys := root |} in
              '(f, a) ← fs_alloc (ds_alloc s);
              match f with
              | None => Done (sys_err ENOSPC, (set_tables (ds_mem s) a s, i))
              | Some phys_base =>
                  '(ok, m, a) ← map_4k_into root iova_base phys_base dma_install_flags (ds_mem s) a;
                  if negb ok then
                    '(_, a) ← fp_free phys_base a;
                    Done (sys_err ENOSPC, (set_tables m a s, i))
                  else
                    '(ok, installed, allocated, m, a) ← dma_loop (page_fuel len) root iova_base phys_base len 0x1000 [phys_base] m a;
                    if negb ok then
                      '(m, a) ← dma_rollback pm iova_base installed len allocated m a;
                      Done (sys_err ENOSPC, (set_tables m a s, i))
                    else
                      let '(r, i) := iommu_map domain_id iova_base phys_base len (direction_flags direction) i in
                      match r with
                      | Err _ =>
                          '(m, a) ← dma_rollback pm iova_base installed len allocated m a;
                          Done (sys_err ENOSPC, (set_tables m a s, i))
                      | Ok _ =>
                          let '(_, i) := iommu_flush domain_id i in
                          let pcb := with_dma (dma_mappings pcb ++ [{| dm_iova_base := iova_base; dm_len_pages := len_pages; dm_direction := direction |}]) pcb in
                          Done (sys_ok phys_base, (set_pcb current pcb (set_tables m a s), i))
                      end
              end
          end
      end
  end.

Definition dma_map (e : SysEnv) (iova_base len direction cap_ptr cap_len : Z) (s : DriverSys A) (i : I) : run (SyscallReturn * (DriverSys A * I)) :=
  if negb (Z.land iova_base 0xFFF =? 0) || (len =? 0) || negb (Z.land len 0xFFF =? 0) then Done (sys_err EINVAL, (s, i)) else
  if 2 <? direction then Done (sys_err EINVAL, (s, i)) else
  if (iova_base <? DRIVER_DMA_VA_BASE) || (DRIVER_DMA_VA_END <? saturating_add64 iova_base len) then Done (sys_err EINVAL, (s, i)) else
  if negb (token_range_ok cap_ptr cap_len) then Done (sys_err EFAULT, (s, i)) else
  allowed ← token_allows domain_separated_hash decode_canonical (se_user e cap_ptr cap_len) (se_now e) DmaMap (DmaWindow iova_base len);
  if negb allowed then Done (sys_err EACCES, (s, i)) else
  let len_pages := len / 0x1000 in
  if u32_max <? len_pages then Done (sys_err EINVAL, (s, i)) else
  dma_install iova_base len len_pages direction s i.

(** [tear_down_dma_mappings]: each page's frame is looked up, the page unmapped, and the frame given back. *)
Fixpoint dma_unmap_loop (fuel : nat) (pm : PageMapper) (iova bytes off : Z) (m : phys_mem) (a : A) : run (phys_mem * A) :=
  match fuel with
  | O => Done (m, a)
  | S fuel =>
      if negb (off <? bytes) then Done (m, a) else
      va ← add64 iova off;
      let phys_opt := translate pm m va in
      let '(ok, m) := unmap_4k pm va m in
      a ← (match phys_opt with Some phys => if (ok : bool) then '(_, a) ← fp_free phys a; Done a else Done a | None => Done a end);
      next ← add64 off 0x1000;
      dma_unmap_loop fuel pm iova bytes next m a
  end.

Fixpoint dma_tear_down_loop (pm : PageMapper) (domain_id : Z) (l : list DmaMapping) (m : phys_mem) (a : A) (i : I) : run (phys_mem * A * I) :=
  match l with
  | [] => Done (m, a, i)
  | x :: l =>
      bytes ← mul64 (dm_len_pages x) 0x1000;
      let i := snd (iommu_flush domain_id (snd (iommu_unmap domain_id (dm_iova_base x) bytes i))) in
      '(m, a) ← dma_unmap_loop (page_fuel bytes) pm (dm_iova_base x) bytes 0 m a;
      dma_tear_down_loop pm domain_id l m a i
  end.

Definition tear_down_dma_mappings (task : Z) (s : DriverSys A) (i : I) : run (DriverSys A * I) :=
  match ds_pcbs s !! task with
  | None => Done (s, i)
  | Some pcb =>
      if ds_phys_offset s =? 0 then Done (s, i) else
      '(m, a, i) ← dma_tear_down_loop {| phys_offset := ds_phys_offset s; root_phys := pml4_phys pcb |} (domain_for_task task) (dma_mappings pcb) (ds_mem s) (ds_alloc s) i;
      Done (set_pcb task (with_dma [] pcb) (set_tables m a s), i)
  end.
End Dma.

(** ** What the installation does to the tables and to the frames *)

Section DmaSpec.
Context {A : Type} `{FramePool A} {Hlaws : FrameSourceLaws A} {Hpool : FramePoolLaws A}.

(** Frames taken out of the allocator for data, none of them a page table. *)
Definition held (a : A) (X : gset Z) (l : list Z) : Prop := NoDup l /\ forall x, x ∈ l -> fp_managed a x /\ ~ fs_avail a x /\ x ∉ X.

(** No frame is lost: it is still available, a page table, or held for data. *)
Record took (m : phys_mem) (a : A) (X : gset Z) (l : list Z) (m' : phys_mem) (a' : A) (X' : gset Z) (l' : list Z) : Prop := {
  tk_grown : grown m a X m' a' X';
  tk_account : forall x, fs_avail a x -> fs_avail a' x \/ x ∈ X' \/ x ∈ l';
  tk_list : forall x, x ∈ l' -> x ∈ l \/ fs_avail a x;
  tk_held : held a' X' l';
}.

Lemma took_refl m a X l : held a X l -> took m a X l m a X l.
Proof. intros Hh. split; [apply grown_refl|by left|by left|done]. Qed.

Lemma took_trans m a X l m1 a1 X1 l1 m2 a2 X2 l2 : (forall x, x ∈ l1 -> x ∈ l2) -> took m a X l m1 a1 X1 l1 -> took m1 a1 X1 l1 m2 a2 X2 l2 -> took m a X l m2 a2 X2 l2.
Proof.
  intros Hl [A1 A2 A3 A4] [B1 B2 B3 B4]. split; [by eapply grown_trans| | |done].
  - intros x Hx. destruct (A2 x Hx) as [Ha|[Ha|Ha]]; [by apply B2|right; left; by apply (gr_old _ _ _ _ _ _ B1)|right; right; by apply Hl].
  - intros x Hx. destruct (B3 x Hx) as [Hb|Hb]; [by apply A3|right; by apply (gr_avail _ _ _ _ _ _ A1)].
Qed.

(** Taking a frame for data. *)
Lemma take_frame root m a X l : tables_ok root m a X -> held a X l ->
  (exists f a1, fs_alloc a = Done (Some f, a1) /\ f mod 4096 = 0 /\ 0 <= f < 2 ^ 52 /\ tables_ok root m a1 X /\ took m a X l m a1 X (l ++ [f])) \/
  (fs_alloc a = Done (None, a) /\ forall x, ~ fs_avail a x).
Proof.
  intros [Hwf Ht Hd] [Hnd Hl]. destruct (fs_alloc_spec a Hwf) as [(f & a1 & E & W1 & Hf & Hm & Hb & Hav)|?]; [left|by right]. exists f, a1. split; [done|]. split; [done|]. split; [done|].
  split; [split; [done|done|intros x Hx; apply Hd, Hav, Hx]|]. split; [split; try done| | |split].
  - by left.
  - intros x Hx. by apply Hav.
  - intros x Hx. destruct (decide (x = f)) as [->|]; [right; right; set_solver|left; by apply Hav].
  - intros x [?| ->%list_elem_of_singleton]%elem_of_app; [by left|by right].
  - apply NoDup_app. split; [done|]. split; [|apply NoDup_singleton]. intros x Hx ->%list_elem_of_singleton. by destruct (Hl f Hx) as (_ & ? & _).
  - intros x [Hx| ->%list_elem_of_singleton]%elem_of_app.
    + destruct (Hl x Hx) as (L1 & L2 & L3). split; [by apply (fp_alloc_managed a _ a1 Hwf E)|]. split; [|done]. intros Hc. by apply Hav in Hc as [? _].
    + split; [by apply (fp_alloc_managed a _ a1 Hwf E), fp_avail_managed|]. split; [by intros [_ ?]%Hav|by apply Hd].
Qed.

(** Mapping one page leaves the held frames alone. *)
Lemma map_page root va phys flags m a X l : tables_ok root m a X -> held a X l -> no_huge 4 m root va ->
  exists ok m1 a1 X1, map_4k_into root va phys flags m a = Done (ok, m1, a1) /\ tables_ok root m1 a1 X1 /\ took m a X l m1 a1 X1 l /\
    (forall w, walk 4 m1 root w = if ok && same_path 4 va w then Some (1%nat, new_leaf phys flags) else walk 4 m root w) /\ (ok = true -> walk 4 m root va = None).
Proof.
  intros [Hwf Ht Hd] [Hnd Hl] Hh. rewrite map_4k_into_level.
  destruct (map_level_spec va phys flags 4 m a root X ltac:(lia) Hwf Ht Hd Hh) as (ok & m1 & a1 & X1 & E & [P1 P2 P3 P4 P5 P6 P7 P8 P9 P10]). exists ok, m1, a1, X1. split; [done|].
  assert (fs_wf a1 /\ forall x, fp_managed a1 x <-> fp_managed a x) as [_ Hman].
  { apply (map_level_alloc va phys flags (fun b => fs_wf b /\ forall x, fp_managed b x <-> fp_managed a x) 4 m a root ok m1 a1); [|done|done].
    intros b r b' [Wb Hb] Eb. split; [destruct (fs_alloc_spec b Wb) as [(f & b1 & Eb' & W1 & _)|[Eb' _]]; rewrite Eb' in Eb; by injection Eb as _ <-|]. intros x. by rewrite (fp_alloc_managed b r b' Wb Eb). }
  split; [split; [done|done|]|split; [|done]].
  - intros x Hx Hin. destruct (P3 x Hin) as [Hx0|[_ Hn]]; [|done]. by apply (Hd x (P5 x Hx)).
  - split; [by split|intros x Hx; destruct (P10 x Hx); auto|by left|]. split; [done|]. intros x Hx. destruct (Hl x Hx) as (L1 & L2 & L3). split; [by apply Hman|].
    split; [intros Hc; by apply L2, P5|]. intros Hc. destruct (P3 x Hc) as [?|[? _]]; done.
Qed.

Lemma free_all_spec X l a : fs_wf a -> held a X l ->
  exists a', free_all l a = Done a' /\ fs_wf a' /\ (forall x, fs_avail a' x <-> fs_avail a x \/ x ∈ l).
Proof.
  revert a. induction l as [|f l IH]; intros a Hwf [Hnd Hl]; [exists a; split; [done|]; split; [done|]; set_solver|]. cbn [free_all]. apply NoDup_cons in Hnd as [Hn Hnd].
  destruct (Hl f ltac:(set_solver)) as (L1 & L2 & _). destruct (fp_free_spec a f Hwf L1 L2) as (a1 & -> & W1 & Hav & Hman). cbn [mbind run_bind].
  destruct (IH a1 W1) as (a' & -> & W' & Hav').
  { split; [done|]. intros x Hx. destruct (Hl x ltac:(set_solver)) as (M1 & M2 & M3). split; [by apply Hman|]. split; [|done]. intros [?| ->]%Hav; done. }
  exists a'. split; [done|]. split; [done|]. intros x. rewrite Hav', Hav. set_solver.
Qed.

Lemma dma_loop_spec root va phys n i fuel len l m a X : va mod 4096 = 0 -> 0 <= va -> phys mod 4096 = 0 -> 0 <= phys -> phys + 4096 * i <= 2 ^ 52 ->
  0 <= i -> len = 4096 * (i + Z.of_nat n) -> (n < fuel)%nat -> va + len <= 2 ^ 47 ->
  tables_ok root m a X -> held a X l -> (forall k, i <= k < i + Z.of_nat n -> no_huge 4 m root (va + 4096 * k)) ->
  exists ok j l' m' a' X', dma_loop fuel root va phys len (4096 * i) l m a = Done (ok, 4096 * j, l', m', a') /\ i <= j <= i + Z.of_nat n /\ (ok = true -> j = i + Z.of_nat n) /\
    phys + 4096 * j <= 2 ^ 52 /\ tables_ok root m' a' X' /\ took m a X l m' a' X' l' /\ (forall x, x ∈ l -> x ∈ l') /\ (ok = true -> l' = l ++ map (fun k => phys + 4096 * k) (seqZ i (Z.of_nat n))) /\
    (forall w, 0 <= w < 2 ^ 48 -> walk 4 m' root w = if bool_decide (va + 4096 * i <= w < va + 4096 * j) then Some (range_leaf va phys dma_install_flags w) else walk 4 m root w) /\
    (forall k, i <= k < j -> walk 4 m root (va + 4096 * k) = None).
Proof.
  intros Hva Hva0 Hpa Hp0. revert i fuel l m a X. induction n as [|n IH]; intros i fuel l m a X Hp Hi Hlen Hf Hend Ht Hhd Hh; (destruct fuel as [|fuel]; [lia|]); cbn [dma_loop].
  - rewrite (proj2 (Z.ltb_ge _ _)) by lia. cbn [negb]. exists true, i, l, m, a, X. split; [done|]. split; [lia|]. split; [lia|]. split; [done|]. split; [done|]. split; [by apply took_refl|]. split; [done|].
    split; [intros _; by rewrite app_nil_r|]. split; [|lia]. intros w Hw. by rewrite bool_decide_false by lia.
  - rewrite (proj2 (Z.ltb_lt _ _)) by lia. cbn [negb]. destruct (take_frame root m a X l Ht Hhd) as [(f & a1 & -> & Hfm & Hfb & Ht1 & Htk1)|[-> _]]; cbn [mbind run_bind].
    2:{ exists false, i, l, m, a, X. split; [done|]. split; [lia|]. split; [done|]. split; [done|]. split; [done|]. split; [by apply took_refl|]. split; [done|]. split; [done|]. split; [|lia]. intros w Hw. by rewrite bool_decide_false by lia. }
    assert (forall x, x ∈ l -> x ∈ l ++ [f]) as Hincl by set_solver. rewrite !add64_done by lia. cbn [mbind run_bind]. destruct (Z.eqb_spec f (phys + 4096 * i)) as [Ef|_]; cbn [negb].
    2:{ exists false, i, (l ++ [f]), m, a1, X. split; [done|]. split; [lia|]. split; [done|]. split; [done|]. split; [done|]. split; [done|]. split; [done|]. split; [done|]. split; [|lia]. intros w Hw. by rewrite bool_decide_false by lia. }
    destruct (map_page root (va + 4096 * i) f dma_install_flags m a1 X (l ++ [f]) Ht1 (tk_held _ _ _ _ _ _ _ _ Htk1) (Hh i ltac:(lia))) as (ok & m2 & a2 & X2 & -> & Ht2 & Htk2 & Hw2 & Hn2). cbn [mbind run_bind].
    pose proof (took_trans _ _ _ _ _ _ _ _ _ _ _ _ (fun x h => h) Htk1 Htk2) as Htk.
    assert (forall w, 0 <= w < 2 ^ 48 -> same_path 4 (va + 4096 * i) w = bool_decide (va + 4096 * i <= w < va + 4096 * (i + 1))) as Hsp by (intros w Hw; apply same_path_range; lia).
    destruct ok.
    2:{ exists false, i, (l ++ [f]), m2, a2, X2. split; [done|]. split; [lia|]. split; [done|]. split; [done|]. split; [done|]. split; [done|]. split; [done|]. split; [done|]. split; [|lia]. intros w Hw. rewrite Hw2. by rewrite bool_decide_false by lia. }
    replace (4096 * i + 0x1000) with (4096 * (i + 1)) by lia. assert (phys + 4096 * (i + 1) <= 2 ^ 52) as Hp1 by (rewrite Ef in Hfm, Hfb; apply Z.div_exact in Hfm; lia).
    destruct (IH (i + 1) fuel (l ++ [f]) m2 a2 X2) as (ok & j & l' & m' & a' & X' & -> & Hj & Hok & Hpj & Ht' & Htk' & Hl' & Hlo & Hw' & Hn'); [lia|lia|lia|lia|done|done|apply Htk2| |].
    { intros k Hk lv e Hwk. rewrite Hw2, Hsp in Hwk by lia. rewrite bool_decide_false in Hwk by lia. by apply (Hh k ltac:(lia)) in Hwk. }
    exists ok, j, l', m', a', X'. split; [done|]. split; [lia|]. split; [intros Ho; specialize (Hok Ho); lia|]. split; [done|]. split; [done|]. split; [by apply (took_trans _ _ _ _ _ _ _ _ _ _ _ _ Hl' Htk)|].
    split; [intros x Hx; by apply Hl', Hincl|]. split; [|split].
    + intros Ho. rewrite (Hlo Ho), (seqZ_cons i (Z.of_nat (S n))) by lia. cbn [map]. rewrite <- Ef, <- (assoc_L app). replace (Z.pred (Z.of_nat (S n))) with (Z.of_nat n) by lia. by rewrite Z.add_1_r.
    + intros w Hw. rewrite Hw', Hw2, Hsp by done. cbn [andb]. destruct (decide (va + 4096 * (i + 1) <= w < va + 4096 * j)); [by rewrite !bool_decide_true by lia|].
      rewrite (bool_decide_false (va + 4096 * (i + 1) <= w < va + 4096 * j)) by done. destruct (decide (va + 4096 * i <= w < va + 4096 * (i + 1))).
      * rewrite !bool_decide_true by lia. unfold range_leaf. rewrite Ef. do 4 f_equal. assert ((w - va) / 4096 = i) as ->; [|done]. symmetry. apply (Z.div_unique_pos _ _ _ (w - va - 4096 * i)); lia.
      * rewrite !bool_decide_false by lia. done.
    + intros k Hk. destruct (decide (k = i)) as [->|]; [by apply Hn2|]. specialize (Hn' k ltac:(lia)). rewrite Hw2, Hsp in Hn' by lia. rewrite bool_decide_false in Hn' by lia. done.
Qed.

(** Undoing an installation gives every held frame back. *)
Lemma dma_rollback_spec pm va j len l m a X m0 a0 X0 : va mod 4096 = 0 -> 0 <= va -> 0 <= j -> 4096 * j <= len -> va + len <= 2 ^ 47 ->
  tables_ok (root_phys pm) m a X -> took m0 a0 X0 [] m a X l -> (forall w, 0 <= w < 2 ^ 47 -> no_huge 4 m (root_phys pm) w) ->
  (forall k, 0 <= k < j -> walk 4 m0 (root_phys pm) (va + 4096 * k) = None) -> (forall w, 0 <= w < 2 ^ 47 -> ~ va <= w < va + 4096 * j -> walk 4 m (root_phys pm) w = walk 4 m0 (root_phys pm) w) ->
  exists m' a', dma_rollback pm va (4096 * j) len l m a = Done (m', a') /\ tables_ok (root_phys pm) m' a' X /\ grown m0 a0 X0 m' a' X /\
    (forall x, fs_avail a0 x -> fs_avail a' x \/ x ∈ X) /\ same_view m0 m' (root_phys pm).
Proof.
  intros Hva Hva0 Hj Hjl Hend [Hwf Ht Hd] [[G1 G2 G3 G4] Hacc Hlist Hheld] Hh Hnone Hsame. unfold dma_rollback.
  destruct (unmap_loop_spec pm va (Z.to_nat j) 0 (page_fuel len) (4096 * j) m X Hva Hva0) as (m' & Eun & T2 & F2 & W2).
  { lia. }
  { lia. }
  { unfold page_fuel. change 0x1000 with 4096. assert (j <= len / 4096) by (apply Z.div_le_lower_bound; lia). lia. }
  { lia. }
  { done. }
  { intros k Hk. apply Hh. lia. }
  change (4096 * 0) with 0 in Eun. rewrite Eun. cbn [mbind run_bind]. destruct (free_all_spec X l a Hwf Hheld) as (a' & -> & W' & Hav). cbn [mbind run_bind].
  rewrite Z.add_0_r in W2. exists m', a'. split; [done|]. assert (forall x, x ∈ X -> ~ fs_avail a' x) as Hx'.
  { intros x Hx [Hc|Hc]%Hav; [by apply (Hd x)|]. by destruct (proj2 Hheld x Hc) as (_ & _ & ?). }
  split; [split; [done|done|intros x Hc Hx; by apply (Hx' x)]|]. split; [split|split].
  - done.
  - intros x Hx. destruct (G2 x Hx) as [?|[? _]]; [by left|right]. split; [done|by apply Hx'].
  - intros x [?|Hx]%Hav; [by apply G3|]. by destruct (Hlist x Hx) as [?%elem_of_nil|].
  - intros x k Hx. rewrite F2 by done. by apply G4.
  - intros x Hx. destruct (Hacc x Hx) as [?|[?|?]]; [left; apply Hav; by left|by right|left; apply Hav; by right].
  - intros w Hw. rewrite W2 by lia. destruct (decide (va <= w < va + 4096 * j)) as [Hr|Hr]; [rewrite bool_decide_true by done; symmetry; by apply (range_none m0 (root_phys pm) va j)|rewrite bool_decide_false by done; by apply Hsame].
Qed.
End DmaSpec.

(** ** The call *)

Section DmaTheorem.
Context {A : Type} `{FramePool A} {Hlaws : FrameSourceLaws A} {Hpool : FramePoolLaws A} {I : Type} `{IommuBackend I} `{SigningPrimitives}.
Context (domain_separated_hash : str -> list Z -> list Z).
Context (decode_canonical : list Z -> option CapabilityToken).

(** A buffer of fresh frames at [phys], mapped at [iova] for the driver and recorded with the backend for its device. *)
Definition dma_granted (iova len direction : Z) (s : DriverSys A) (t : Z) (p : DriverPcb) (X : gset Z) (i : I) (phys : Z) (s' : DriverSys A) (p' : DriverPcb) (X' : gset Z) (i' : I) : Prop :=
  p' = with_dma (dma_mappings p ++ [{| dm_iova_base := iova; dm_len_pages := len / 4096; dm_direction := direction |}]) p /\ phys mod 4096 = 0 /\ 0 <= phys /\ phys + len <= 2 ^ 52 /\
  (forall k, 0 <= k < len / 4096 -> fs_avail (ds_alloc s) (phys + 4096 * k) /\ ~ fs_avail (ds_alloc s') (phys + 4096 * k) /\ phys + 4096 * k ∉ X') /\
  (forall w, 0 <= w < 2 ^ 47 -> if decide (iova <= w < iova + len) then walk 4 (ds_mem s) (pml4_phys p) w = None /\ walk 4 (ds_mem s') (pml4_phys p) w = Some (range_leaf iova phys dma_install_flags w)
     else walk 4 (ds_mem s') (pml4_phys p) w = walk 4 (ds_mem s) (pml4_phys p) w) /\
  exists i1 i2, iommu_install_domain (domain_for_task t) i = (Ok (), i1) /\ iommu_map (domain_for_task t) iova phys len (direction_flags direction) i1 = (Ok (), i2) /\ i' = snd (iommu_flush (domain_for_task t) i2).

(** The state behind a call: the invariant, and a buffer, or no visible change with every frame still available unless it became a page table. *)
Definition dma_outcome (iova len direction : Z) (s : DriverSys A) (t : Z) (p : DriverPcb) (X : gset Z) (i : I) (r : SyscallReturn) (s' : DriverSys A) (i' : I) : Prop :=
  exists p' X', driver_ok s' t p' X' /\ (forall u, u <> t -> ds_pcbs s' !! u = ds_pcbs s !! u) /\ grown (ds_mem s) (ds_alloc s) X (ds_mem s') (ds_alloc s') X' /\
    ((exists phys, r = sys_ok phys /\ dma_granted iova len direction s t p X i phys s' p' X' i') \/
     (rax r = 0 /\ (rdx r = ENOSPC \/ rdx r = EFAULT \/ rdx r = EINVAL) /\ p' = p /\ same_view (ds_mem s) (ds_mem s') (pml4_phys p) /\ forall x, fs_avail (ds_alloc s) x -> fs_avail (ds_alloc s') x \/ x ∈ X')).

Lemma dma_refused iova len direction s t p X i e i' : driver_ok s t p X -> e = ENOSPC \/ e = EFAULT \/ e = EINVAL -> dma_outcome iova len direction s t p X i (sys_err e) s i'.
Proof. intros Hd He. exists p, X. split; [done|]. split; [done|]. split; [apply grown_refl|]. right. split; [done|]. split; [done|]. split; [done|]. split; [done|by left]. Qed.

(** A failure behind which the tables and the allocator have moved on. *)
Lemma dma_undone iova len direction s t p X i e i' m a X' : driver_ok s t p X -> e = ENOSPC \/ e = EFAULT \/ e = EINVAL -> tables_ok (pml4_phys p) m a X' -> grown (ds_mem s) (ds_alloc s) X m a X' ->
  (forall x, fs_avail (ds_alloc s) x -> fs_avail a x \/ x ∈ X') -> same_view (ds_mem s) m (pml4_phys p) -> dma_outcome iova len direction s t p X i (sys_err e) (set_tables m a s) i'.
Proof.
  intros [D1 D2 D3 D4 D5 D6 D7] He Ht Hg Hacc Hv. exists p, X'. split; [split; try done; by apply (view_no_huge (ds_mem s))|]. split; [done|]. split; [done|]. right. split; [done|]. split; [done|]. split; [done|]. by split.
Qed.

Lemma dma_done iova len direction s t p X i phys m a X' l i1 i2 i' : driver_ok s t p X -> phys mod 4096 = 0 -> 0 <= phys -> phys + len <= 2 ^ 52 ->
  tables_ok (pml4_phys p) m a X' -> took (ds_mem s) (ds_alloc s) X [] m a X' l -> (forall k, 0 <= k < len / 4096 -> phys + 4096 * k ∈ l) ->
  (forall w, 0 <= w < 2 ^ 47 -> walk 4 m (pml4_phys p) w = if bool_decide (iova <= w < iova + len) then Some (range_leaf iova phys dma_install_flags w) else walk 4 (ds_mem s) (pml4_phys p) w) ->
  (forall w, iova <= w < iova + len -> walk 4 (ds_mem s) (pml4_phys p) w = None) ->
  iommu_install_domain (domain_for_task t) i = (Ok (), i1) -> iommu_map (domain_for_task t) iova phys len (direction_flags direction) i1 = (Ok (), i2) -> snd (iommu_flush (domain_for_task t) i2) = i' ->
  dma_outcome iova len direction s t p X i (sys_ok phys)
    (set_pcb t (with_dma (dma_mappings p ++ [{| dm_iova_base := iova; dm_len_pages := len / 4096; dm_direction := direction |}]) p) (set_tables m a s)) i'.
Proof.
  intros [D1 D2 D3 D4 D5 D6 D7] Hpm Hp0 Hp Ht Htk Hl Hw Hn Ei Em Ef. exists (with_dma (dma_mappings p ++ [{| dm_iova_base := iova; dm_len_pages := len / 4096; dm_direction := direction |}]) p), X'.
  split; [|split; [|split; [|left; exists phys; split; [reflexivity|]]]].
  - split; try done; [apply lookup_insert_eq|]. intros w Hww k e. change (walk 4 m (pml4_phys p) w = Some (k, e) -> k = 1%nat). rewrite Hw by done. destruct (bool_decide _); [by intros [= <- _]|by apply D5].
  - intros u Hu. cbn. by rewrite lookup_insert_ne by done.
  - apply Htk.
  - split; [done|]. split; [done|]. split; [done|]. split; [done|]. split; [|split; [|by exists i1, i2]].
    + intros k Hk. pose proof (Hl k Hk) as Hin. destruct (tk_list _ _ _ _ _ _ _ _ Htk _ Hin) as [?%elem_of_nil|Hav]; [done|]. split; [done|]. apply (tk_held _ _ _ _ _ _ _ _ Htk) in Hin as (_ & ? & ?). by split.
    + intros w Hww. cbn [ds_mem set_pcb set_tables]. destruct (decide (iova <= w < iova + len)) as [Hr|Hr]; [split; [by apply Hn|rewrite Hw by done; by rewrite bool_decide_true]|rewrite Hw by done; by rewrite bool_decide_false].
Qed.

Lemma dma_install_spec iova len direction s t p X i : driver_ok s t p X -> iova mod 4096 = 0 -> DRIVER_DMA_VA_BASE <= iova -> iova + len <= DRIVER_DMA_VA_END -> 0 < len -> len mod 4096 = 0 ->
  exists r s' i', dma_install iova len (len / 4096) direction s i = Done (r, (s', i')) /\ dma_outcome iova len direction s t p X i r s' i' /\
    (rdx r = 0 -> existsb (fun x => dm_iova_base x =? iova) (dma_mappings p) = false).
Proof.
  intros Hd Hia Hi0 Hi1 Hl0 Hla. pose proof Hd as [D1 D2 D3 D4 D5 D6 D7]. unfold dma_install. rewrite D1, D2. unfold DRIVER_DMA_VA_BASE, DRIVER_DMA_VA_END in *.
  assert (len = 4096 * (len / 4096)) as Hlen by (apply Z.div_exact in Hla; lia). set (n := len / 4096) in *.
  destruct (existsb _ _) eqn:Edup; [eexists _, _, _; split; [reflexivity|]; split; [apply dma_refused; [done|by right; right]|done]|].
  destruct (iommu_install_domain (domain_for_task t) i) as [[[]|e] i1] eqn:Edom; [|eexists _, _, _; split; [reflexivity|]; split; [apply dma_refused; [done|by left]|done]].
  rewrite (proj2 (Z.eqb_neq _ _) D3). assert (held (ds_alloc s) X []) as Hh0 by (split; [apply NoDup_nil_2|intros x ?%elem_of_nil; done]).
  destruct (take_frame (pml4_phys p) (ds_mem s) (ds_alloc s) X [] D4 Hh0) as [(f & a1 & -> & Hfm & Hfb & Ht1 & Htk1)|[-> _]]; cbn [mbind run_bind app] in *.
  2:{ eexists _, _, _. split; [reflexivity|]. split; [|done]. replace (set_tables _ _ s) with s by (by destruct s). apply dma_refused; [done|by left]. }
  destruct (map_page (pml4_phys p) iova f dma_install_flags (ds_mem s) a1 X [f] Ht1 (tk_held _ _ _ _ _ _ _ _ Htk1) (D5 iova ltac:(lia))) as (ok & m2 & a2 & X2 & -> & Ht2 & Htk2 & Hw2 & Hn2). cbn [mbind run_bind].
  pose proof (took_trans _ _ _ _ _ _ _ _ _ _ _ _ (fun x h => h) Htk1 Htk2) as Htk.
  assert (forall w, 0 <= w < 2 ^ 48 -> same_path 4 iova w = bool_decide (iova <= w < iova + 4096)) as Hsp by (intros w Hw; rewrite <- (Z.add_0_r iova) at 1; change 0 with (4096 * 0) at 1; rewrite same_path_range by lia; apply bool_decide_ext; lia).
  destruct ok; cbn [negb].
  2:{ destruct (dma_rollback_spec {| phys_offset := 0; root_phys := pml4_phys p |} iova 0 len [f] m2 a2 X2 (ds_mem s) (ds_alloc s) X Hia ltac:(lia) ltac:(lia) ltac:(lia) ltac:(lia) Ht2 Htk) as (m3 & a3 & Erb & T3 & G3 & A3 & V3).
      { intros w Hw k e. cbn [root_phys]. rewrite Hw2. by apply D5. }
      { lia. }
      { intros w Hw _. cbn [root_phys]. by rewrite Hw2. }
      unfold dma_rollback in Erb. change (unmap_loop _ _ _ _ _ m2) with (Done m2) in Erb. cbn [mbind run_bind free_all] in Erb.
      destruct (fp_free f a2) as [[b a4]|]; [|done]. cbn [mbind run_bind] in *. injection Erb as <- <-. eexists _, _, _. split; [reflexivity|]. split; [|done]. eapply dma_undone; try done. by left. }
  destruct (dma_loop_spec (pml4_phys p) iova f (Z.to_nat (n - 1)) 1 (page_fuel len) len [f] m2 a2 X2 Hia ltac:(lia) Hfm ltac:(lia)) as (ok & j & l' & m3 & a3 & X3 & Elp & Hj & Hok & Hpj & Ht3 & Htk3 & Hl3 & Hlo & Hw3 & Hn3).
  { apply Z.div_exact in Hfm; lia. }
  { lia. }
  { lia. }
  { unfold page_fuel. change 0x1000 with 4096. fold n. lia. }
  { lia. }
  { done. }
  { apply Htk2. }
  { intros k Hk lv e Hwk. rewrite Hw2, Hsp in Hwk by lia. rewrite bool_decide_false in Hwk by lia. by apply (D5 (iova + 4096 * k) ltac:(lia)) in Hwk. }
  change 0x1000 with (4096 * 1). rewrite Elp. cbn [mbind run_bind]. clear Elp.
  pose proof (took_trans _ _ _ _ _ _ _ _ _ _ _ _ Hl3 Htk Htk3) as Htkall.
  assert (forall w, 0 <= w < 2 ^ 47 -> walk 4 m3 (pml4_phys p) w = if bool_decide (iova <= w < iova + 4096 * j) then Some (range_leaf iova f dma_install_flags w) else walk 4 (ds_mem s) (pml4_phys p) w) as Hw.
  { intros w Hww. rewrite Hw3, Hw2, Hsp by lia. cbn [andb]. destruct (decide (iova + 4096 * 1 <= w < iova + 4096 * j)); [by rewrite !bool_decide_true by lia|]. rewrite (bool_decide_false (iova + 4096 * 1 <= w < _)) by done.
    destruct (decide (iova <= w < iova + 4096)); [|by rewrite !bool_decide_false by lia]. rewrite !bool_decide_true by lia. unfold range_leaf. rewrite Z.div_small by lia. by rewrite Z.mul_0_r, Z.add_0_r. }
  assert (forall k, 0 <= k < j -> walk 4 (ds_mem s) (pml4_phys p) (iova + 4096 * k) = None) as Hn.
  { intros k Hk. destruct (decide (k = 0)) as [->|]; [rewrite Z.mul_0_r, Z.add_0_r; by apply Hn2|]. specialize (Hn3 k ltac:(lia)). rewrite Hw2, Hsp in Hn3 by lia. by rewrite bool_decide_false in Hn3 by lia. }
  assert (forall i' : I, exists m4 a4, dma_rollback {| phys_offset := ds_phys_offset s; root_phys := pml4_phys p |} iova (4096 * j) len l' m3 a3 = Done (m4, a4) /\
    dma_outcome iova len direction s t p X i (sys_err ENOSPC) (set_tables m4 a4 s) i') as Hrb.
  { intros i'. destruct (dma_rollback_spec {| phys_offset := ds_phys_offset s; root_phys := pml4_phys p |} iova j len l' m3 a3 X3 (ds_mem s) (ds_alloc s) X Hia ltac:(lia) ltac:(lia) ltac:(lia) ltac:(lia) Ht3 Htkall) as (m4 & a4 & -> & T4 & G4 & A4 & V4).
    { intros w Hww k e. cbn [root_phys]. rewrite Hw by done. destruct (bool_decide _); [by intros [= <- _]|by apply D5]. }
    { done. }
    { intros w Hww Hnw. cbn [root_phys]. rewrite Hw by done. by rewrite bool_decide_false. }
    exists m4, a4. split; [done|]. eapply dma_undone; try done. by left. }
  destruct ok; cbn [negb].
  2:{ destruct (Hrb i1) as (m4 & a4 & -> & Ho). cbn [mbind run_bind]. eexists _, _, _. split; [reflexivity|]. by split. }
  destruct (iommu_map (domain_for_task t) iova f len (direction_flags direction) i1) as [[[]|e] i2] eqn:Emap.
  2:{ destruct (Hrb i2) as (m4 & a4 & -> & Ho). cbn [mbind run_bind]. eexists _, _, _. split; [reflexivity|]. by split. }
  specialize (Hok eq_refl). specialize (Hlo eq_refl). replace j with n in * by lia. rewrite <- Hlen in *.
  destruct (iommu_flush (domain_for_task t) i2) as [rf i3] eqn:Efl. eexists _, _, _. split; [reflexivity|]. split; [|done].
  apply (dma_done iova len direction s t p X i f m3 a3 X3 l' i1 i2 i3); try done; [lia| | |by rewrite Efl].
  - intros k Hk. rewrite Hlo. destruct (decide (k = 0)) as [->|]; [rewrite Z.mul_0_r, Z.add_0_r; apply elem_of_app; left; by apply list_elem_of_singleton|]. apply elem_of_app. right. apply list_elem_of_In, in_map_iff. exists k. split; [done|]. apply list_elem_of_In, elem_of_seqZ. lia.
  - intros w Hr. apply (range_none (ds_mem s) (pml4_phys p) iova n); [done|done|lia].
Qed.

Definition dma_args_ok (iova len direction cap_ptr cap_len : Z) : Prop :=
  iova mod 4096 = 0 /\ len <> 0 /\ len mod 4096 = 0 /\ direction <= 2 /\ DRIVER_DMA_VA_BASE <= iova /\ iova + len <= DRIVER_DMA_VA_END /\ token_range_ok cap_ptr cap_len = true.

(** The state behind a call that answered [r]. *)
Definition dma_post (args gate : Prop) (iova len direction : Z) (s : DriverSys A) (t : Z) (p : DriverPcb) (X : gset Z) (i : I) (r : SyscallReturn) (s' : DriverSys A) (i' : I) : Prop :=
  exists p' X', driver_ok s' t p' X' /\ (forall u, u <> t -> ds_pcbs s' !! u = ds_pcbs s !! u) /\ grown (ds_mem s) (ds_alloc s) X (ds_mem s') (ds_alloc s') X' /\
    (rdx r = 0 -> args /\ gate /\ Forall (fun x => dm_iova_base x <> iova) (dma_mappings p) /\ dma_granted iova len direction s t p X i (rax r) s' p' X' i' /\
       forall w, iova <= w < iova + len -> translate_in (ds_mem s') (pml4_phys p) w = Some (rax r + (w - iova))) /\
    (rdx r <> 0 -> rax r = 0 /\ p' = p /\ (forall w, 0 <= w < 2 ^ 47 -> translate_in (ds_mem s') (pml4_phys p) w = translate_in (ds_mem s) (pml4_phys p) w) /\
       forall x, fs_avail (ds_alloc s) x -> fs_avail (ds_alloc s') x \/ x ∈ X') /\
    (rdx r = EACCES <-> args /\ ~ gate).

Lemma dma_post_refused args gate iova len direction s t p X i err : driver_ok s t p X -> err <> 0 -> (err = EACCES <-> args /\ ~ gate) -> dma_post args gate iova len direction s t p X i (sys_err err) s i.
Proof. intros Hd He Ha. exists p, X. cbn [rdx rax sys_err]. split; [done|]. split; [done|]. split; [apply grown_refl|]. split; [done|]. split; [|done]. intros _. split; [done|]. split; [done|]. split; [done|by left]. Qed.

Lemma dma_outcome_post (args gate : Prop) iova len direction s t p X i r s' i' : args -> gate -> 0 <= iova -> iova + len <= 2 ^ 47 -> iova mod 4096 = 0 ->
  (rdx r = 0 -> existsb (fun x => dm_iova_base x =? iova) (dma_mappings p) = false) -> dma_outcome iova len direction s t p X i r s' i' -> dma_post args gate iova len direction s t p X i r s' i'.
Proof.
  intros Ha Hg Hi0 Hi1 Him Hdup (p' & X' & H1' & H2' & H3' & Hor). exists p', X'. split; [done|]. split; [done|]. split; [done|]. destruct Hor as [(phys & -> & Hgr)|(R1 & R2 & R3 & Hv & Hacc)].
  - split; [|split; [done|split; [done|intros [_ Hn]; by destruct Hn]]]. intros _. split; [done|]. split; [done|]. split; [|split; [done|]].
    + apply Forall_forall. intros x Hx E. pose proof (Hdup eq_refl) as Hf. rewrite (proj2 (existsb_exists _ _)) in Hf; [done|]. exists x. split; [by apply list_elem_of_In|by apply Z.eqb_eq].
    + intros w Hr. destruct Hgr as (_ & G1 & G2 & G3 & _ & Hw & _). specialize (Hw w ltac:(lia)). rewrite decide_True in Hw by done. destruct Hw as [_ Hw]. rewrite translate_walk, Hw. cbn [fmap option_fmap option_map rax sys_ok].
      by rewrite range_leaf_phys by (done || lia).
  - assert (rdx r <> 0 /\ rdx r <> EACCES) as [Hr0 Hra] by (destruct R2 as [-> |[-> | ->]]; done). split; [done|]. split; [|split; [done|intros [_ Hn]; by destruct Hn]].
    intros _. split; [done|]. split; [done|]. split; [|done]. intros w Hw. by rewrite !translate_walk, Hv.
Qed.

(** C10: giving a driver memory its device may reach.  On a process whose page tables are well formed, over any IOMMU backend, a request never panics.  It succeeds only when the arguments are valid, the address is not that of an earlier buffer and the presented token grants DmaMap on the window: then the buffer is made of contiguous frames that were available and no longer are, none of them a page table; the window, unmapped before, translates to it byte for byte, every other user address translates as before, and the backend has accepted exactly this window for the task's domain with the rights of the direction.  When it fails nothing is recorded, no translation changes, and every frame the allocator had is available again or has become a page table of the process.  The answer is EACCES exactly when the arguments are valid and the token does not grant the window. *)
Theorem dma_map_exact (e : SysEnv) (iova len direction cap_ptr cap_len : Z) (s : DriverSys A) (t : Z) (p : DriverPcb) (X : gset Z) (i : I) : driver_ok s t p X -> is_u64 iova -> is_u64 len ->
  exists r s' i', dma_map domain_separated_hash decode_canonical e iova len direction cap_ptr cap_len s i = Done (r, (s', i')) /\
    dma_post (dma_args_ok iova len direction cap_ptr cap_len) (granted decode_canonical (se_user e cap_ptr cap_len) (se_now e) DmaMap (DmaWindow iova len)) iova len direction s t p X i r s' i'.
Proof.
  unfold is_u64. intros Hd Hiu Hlu. unfold dma_map. set (args := dma_args_ok _ _ _ _ _). set (gate := granted _ _ _ _ _). change 0xFFF with (2 ^ 12 - 1). rewrite !land_ones_mod by lia. change (2 ^ 12) with 4096.
  assert (forall err, err <> 0 -> err <> EACCES -> ~ args -> exists r s' i', Done (sys_err err, (s, i)) = Done (r, (s', i')) /\ dma_post args gate iova len direction s t p X i r s' i') as Hbad.
  { intros err He Hne Hna. eexists _, _, _. split; [reflexivity|]. apply dma_post_refused; [done|done|tauto]. }
  destruct (Z.eqb_spec (iova mod 4096) 0) as [Ha1|Ha1]; cbn [negb orb]; [|apply Hbad; [done|done|intros (? & _); done]].
  destruct (Z.eqb_spec len 0) as [Ha2|Ha2]; cbn [orb]; [apply Hbad; [done|done|intros (_ & ? & _); done]|].
  destruct (Z.eqb_spec (len mod 4096) 0) as [Ha3|Ha3]; cbn [negb]; [|apply Hbad; [done|done|intros (_ & _ & ? & _); done]].
  destruct (Z.ltb_spec 2 direction) as [Ha4|Ha4]; [apply Hbad; [done|done|intros (_ & _ & _ & ? & _); lia]|].
  destruct (Z.ltb_spec iova DRIVER_DMA_VA_BASE) as [Ha5|Ha5]; cbn [orb]; [apply Hbad; [done|done|intros (_ & _ & _ & _ & ? & _); lia]|].
  destruct (Z.ltb_spec DRIVER_DMA_VA_END (saturating_add64 iova len)) as [Ha6|Ha6]; unfold saturating_add64 in Ha6; [apply Hbad; [done|done|intros (_ & _ & _ & _ & _ & ? & _); lia]|].
  destruct (token_range_ok cap_ptr cap_len) eqn:Hr; cbn [negb]; [|apply Hbad; [done|done|intros (_ & _ & _ & _ & _ & _ & ?); congruence]].
  assert (iova + len <= DRIVER_DMA_VA_END) as Ha6' by (unfold u64_max, DRIVER_DMA_VA_END in *; lia). assert args as Hargs by (repeat split; (done || lia)).
  destruct (token_allows_spec domain_separated_hash decode_canonical (se_user e cap_ptr cap_len) (se_now e) DmaMap (DmaWindow iova len) eq_refl) as (b & -> & Hb). fold gate in Hb. cbn [mbind run_bind].
  destruct b; cbn [negb]; [|eexists _, _, _; split; [reflexivity|]; apply dma_post_refused; [done|done|]; split; [intros _; split; [done|]; intros Hg; by apply Hb in Hg|done]].
  change 0x1000 with 4096. pose proof (proj1 Hb eq_refl) as Hg. destruct (Z.ltb_spec u32_max (len / 4096)) as [Hbig|Hsm].
  { eexists _, _, _. split; [reflexivity|]. apply dma_post_refused; [done|done|]. split; [done|]. intros [_ Hn]. by destruct Hn. }
  destruct (dma_install_spec iova len direction s t p X i Hd Ha1 Ha5 Ha6' ltac:(lia) Ha3) as (r & s' & i' & -> & Ho & Hdup). exists r, s', i'. split; [done|].
  unfold DRIVER_DMA_VA_END in *. by apply dma_outcome_post; try (done || lia).
Qed.
End DmaTheorem.

(** ** Witness, and the first buffer of a process *)

Definition demo_dma_token : CapabilityToken :=
  {| payload := {| tp_id := [5]; tp_subject := replicate 32 0; tp_issuer := [9]; tp_parent := None;
                   tp_scope := {| action := DmaMap; resource := DmaWindow 0x10000000000 0x8000; window := {| not_before := 0; not_after := 100 |}; caveats := [] |} |};
     signature := [9; 5] |}.
Definition demo_dma_decode (bs : list Z) : option CapabilityToken := if str_eqb bs [1; 2] then Some demo_dma_token else None.

Lemma dma_map_exact_witness : exists r s', @dma_map _ _ _ _ _ toy_prims (fun _ x => x) demo_dma_decode demo_env 0x10000000000 0x1000 2 0x4000 2 demo_driver () = Done (r, (s', ())) /\
  rdx r = 0 /\ translate_in (ds_mem s') 0x1000 0x10000000234 = Some (rax r + 0x234).
Proof.
  destruct (@dma_map_exact BitmapFrameAllocator _ _ _ _ unit _ toy_prims (fun _ x => x) demo_dma_decode demo_env 0x10000000000 0x1000 2 0x4000 2 demo_driver 7 demo_driver_pcb {[ 0x1000 ]} ()) as (r & s' & [] & E & p' & X' & _ & _ & _ & Hok & _).
  - exact demo_driver_ok.
  - unfold is_u64. lia.
  - unfold is_u64. lia.
  - exists r, s'. split; [exact E|].
    assert (match @dma_map _ _ _ _ _ toy_prims (fun _ x => x) demo_dma_decode demo_env 0x10000000000 0x1000 2 0x4000 2 demo_driver () with Done (r, _) => rdx r =? 0 | Panicked => false end = true) as Hr by (vm_compute; reflexivity).
    rewrite E in Hr. apply Z.eqb_eq in Hr. split; [exact Hr|]. destruct (Hok Hr) as (_ & _ & _ & _ & Hw). exact (Hw 0x10000000234 ltac:(lia)).
Defined.

(** The first request of a fresh process for two pages fails although sixty-four frames are free: mapping the first page takes three page tables, so the next frame does not follow the first; the rollback leaves that hole, and asking again fails the same way. *)
Example first_buffer_not_contiguous :
  let ask s := @dma_map _ _ _ _ _ toy_prims (fun _ x => x) demo_dma_decode demo_env 0x10000000000 0x2000 2 0x4000 2 s () in
  match ask demo_driver with
  | Done (r, (s, _)) => rdx r = ENOSPC /\ match ask s with Done (r, _) => rdx r = ENOSPC | Panicked => False end
  | Panicked => False
  end.
Proof. vm_compute. done. Qed.
