(* ===== verification/DriverIrq.v ===== *)
(** * IrqAttach (syscall_entry.rs: irq_attach_handlers)

    A driver attaches a hardware interrupt line to one of its channels.  A
    table of 191 slots, one per vector 0x40..0xFE, says which line, channel and
    task a vector belongs to; the process keeps the list of its attachments,
    from which they are released at exit.  The interrupt path counts the fire in
    the slot and forwards it to the routing table of [IrqTable].  The slots are
    atomics, but system calls and interrupts of this kernel run on one CPU; the
    operations are therefore modelled as a sequence of steps. *)

From Stdlib Require Import ZArith Lia.
From stdpp Require Import base numbers list sets gmap.
From S2P Require Import Prelude Str CapScope CapToken Ipc IrqTable DriverSys.

(** ** The slot table *)

Definition IRQ_VECTOR_BASE : Z := 0x40.
Definition IRQ_VECTOR_END : Z := 0xFE.
Definition IRQ_TABLE_SLOTS : Z := IRQ_VECTOR_END - IRQ_VECTOR_BASE + 1.

Record IrqSlot := { is_line : Z; is_channel : Z; is_missed : Z; is_owner : Z }.
Definition irq_slot_new : IrqSlot := {| is_line := 0; is_channel := 0; is_missed := 0; is_owner := 0 |}.
Definition irq_slots_init : list IrqSlot := replicate (Z.to_nat IRQ_TABLE_SLOTS) irq_slot_new.

(** [slot_for]: the index of a vector's slot. *)
Definition slot_for (vector : Z) : option nat :=
  if negb ((IRQ_VECTOR_BASE <=? vector) && (vector <=? IRQ_VECTOR_END)) then None else Some (Z.to_nat (vector - IRQ_VECTOR_BASE)).

(** [allocate_vector]: the first slot whose line is 0 is taken. *)
Definition allocate_vector (irq_line owner_task channel : Z) (slots : list IrqSlot) : option (Z * list IrqSlot) :=
  match list_find (fun s => is_line s = 0) slots with
  | None => None
  | Some (i, _) => Some (IRQ_VECTOR_BASE + Z.of_nat i, <[i := {| is_line := irq_line; is_channel := channel; is_missed := 0; is_owner := owner_task |}]> slots)
  end.

Definition release_vector (vector : Z) (slots : list IrqSlot) : list IrqSlot :=
  match slot_for vector with None => slots | Some i => <[i := irq_slot_new]> slots end.

Definition irq_line_in_use (irq_line : Z) (slots : list IrqSlot) : bool := existsb (fun s => is_line s =? irq_line) slots.

(** [note_fire]: [fetch_add] on an atomic wraps. *)
Definition note_fire (vector : Z) (slots : list IrqSlot) : list IrqSlot :=
  match slot_for vector with
  | None => slots
  | Some i => alter (fun s => {| is_line := is_line s; is_channel := is_channel s; is_missed := (is_missed s + 1) mod 2 ^ 32; is_owner := is_owner s |}) i slots
  end.

(** [take_missed]: the count, which is reset. *)
Definition take_missed (vector : Z) (slots : list IrqSlot) : Z * list IrqSlot :=
  match slot_for vector with
  | None => (0, slots)
  | Some i => (match slots !! i with Some s => is_missed s | None => 0 end,
               alter (fun s => {| is_line := is_line s; is_channel := is_channel s; is_missed := 0; is_owner := is_owner s |}) i slots)
  end.

(** ** The system call, the exit hook and the interrupt *)

Record IrqSys := { iq_slots : list IrqSlot; iq_pcbs : gmap Z DriverPcb; iq_current : option Z; iq_registry : KernelIpcRegistry; iq_table : IrqTable; iq_idt : gset Z }.

Definition with_irq (l : list IrqAttachment) (p : DriverPcb) : DriverPcb :=
  {| pml4_phys := pml4_phys p; mmio_mappings := mmio_mappings p; mmio_va_cursor := mmio_va_cursor p; dma_mappings := dma_mappings p; irq_attachments := l |}.
Definition iq_set_slots (l : list IrqSlot) (s : IrqSys) : IrqSys :=
  {| iq_slots := l; iq_pcbs := iq_pcbs s; iq_current := iq_current s; iq_registry := iq_registry s; iq_table := iq_table s; iq_idt := iq_idt s |}.
Definition iq_set_pcb (t : Z) (p : DriverPcb) (s : IrqSys) : IrqSys :=
  {| iq_slots := iq_slots s; iq_pcbs := <[t := p]> (iq_pcbs s); iq_current := iq_current s; iq_registry := iq_registry s; iq_table := iq_table s; iq_idt := iq_idt s |}.
Definition idt_set_vector (v : Z) (s : IrqSys) : IrqSys :=
  {| iq_slots := iq_slots s; iq_pcbs := iq_pcbs s; iq_current := iq_current s; iq_registry := iq_registry s; iq_table := iq_table s; iq_idt := {[ v ]} ∪ iq_idt s |}.

Section Attach.
Context `{SigningPrimitives}.
Context (domain_separated_hash : str -> list Z -> list Z).
Context (decode_canonical : list Z -> option CapabilityToken).

Definition irq_attach (e : SysEnv) (irq_line ipc_channel_id cap_ptr cap_len : Z) (s : IrqSys) : run (SyscallReturn * IrqSys) :=
  if (irq_line =? 0) || (0xFFFF <? irq_line) then Done (sys_err EINVAL, s) else
  if negb (token_range_ok cap_ptr cap_len) then Done (sys_err EFAULT, s) else
  allowed ← token_allows domain_separated_hash decode_canonical (se_user e cap_ptr cap_len) (se_now e) IrqAttach (IrqLine irq_line);
  if negb allowed then Done (sys_err EACCES, s) else
  if irq_line_in_use irq_line (iq_slots s) then Done (sys_err EINVAL, s) else
  match iq_current s with
  | None => Done (sys_err EFAULT, s)
  | Some current =>
      match channels (iq_registry s) !! ipc_channel_id with
      | None => Done (sys_err EINVAL, s)
      | Some _ =>
          match allocate_vector irq_line current ipc_channel_id (iq_slots s) with
          | None => Done (sys_err ENOSPC, s)
          | Some (vector, slots) =>
              let s := idt_set_vector vector (iq_set_slots slots s) in
              match iq_pcbs s !! current with
              | None => Done (sys_err EFAULT, iq_set_slots (release_vector vector (iq_slots s)) s)
              | Some pcb => Done (sys_ok vector, iq_set_pcb current (with_irq (irq_attachments pcb ++ [{| ia_irq_line := irq_line; ia_vector := vector; ia_channel_id := ipc_channel_id |}]) pcb) s)
              end
          end
      end
  end.

Definition tear_down_irq_attachments (task : Z) (s : IrqSys) : IrqSys :=
  match iq_pcbs s !! task with
  | None => s
  | Some pcb => iq_set_slots (fold_left (fun l a => release_vector (ia_vector a) l) (irq_attachments pcb) (iq_slots s)) (iq_set_pcb task (with_irq [] pcb) s)
  end.

(** [dispatch_fire]; the end-of-interrupt write is not modelled. *)
Definition dispatch_fire (vector : Z) (s : IrqSys) : run IrqSys :=
  let s := iq_set_slots (note_fire vector (iq_slots s)) s in
  r ← irq_notify vector (iq_table s) (iq_registry s);
  Done {| iq_slots := iq_slots s; iq_pcbs := iq_pcbs s; iq_current := iq_current s; iq_registry := r; iq_table := iq_table s; iq_idt := iq_idt s |}.

(** What can happen, in any order: a process appears, the scheduler switches, a process attaches, exits, or an interrupt fires. *)
Inductive irq_event := EvSpawn (t root : Z) | EvSwitch (t : Z) | EvAttach (e : SysEnv) (irq_line ipc_channel_id cap_ptr cap_len : Z) | EvExit (t : Z) | EvFire (vector : Z).

Definition irq_event_step (ev : irq_event) (s : IrqSys) : run IrqSys :=
  match ev with
  | EvSpawn t root =>
      Done (match iq_pcbs s !! t with Some _ => s | None => iq_set_pcb t {| pml4_phys := root; mmio_mappings := []; mmio_va_cursor := 0; dma_mappings := []; irq_attachments := [] |} s end)
  | EvSwitch t => Done {| iq_slots := iq_slots s; iq_pcbs := iq_pcbs s; iq_current := Some t; iq_registry := iq_registry s; iq_table := iq_table s; iq_idt := iq_idt s |}
  | EvAttach e l c p n => '(_, s) ← irq_attach e l c p n s; Done s
  | EvExit t => Done (tear_down_irq_attachments t s)
  | EvFire v => dispatch_fire v s
  end.

Fixpoint irq_events (evs : list irq_event) (s : IrqSys) : run IrqSys := match evs with [] => Done s | ev :: evs => s ← irq_event_step ev s; irq_events evs s end.
End Attach.

Definition irq_boot (r : KernelIpcRegistry) : IrqSys := {| iq_slots := irq_slots_init; iq_pcbs := ∅; iq_current := None; iq_registry := r; iq_table := irq_table_new; iq_idt := ∅ |}.

(** ** Invariant *)

(** Who holds a vector. *)
Definition holds (s : IrqSys) (i : nat) (line channel owner : Z) : Prop :=
  line <> 0 /\ exists sl, iq_slots s !! i = Some sl /\ is_line sl = line /\ is_channel sl = channel /\ is_owner sl = owner.

Definition recorded (s : IrqSys) (i : nat) (line channel owner : Z) : Prop :=
  exists p, iq_pcbs s !! owner = Some p /\ {| ia_irq_line := line; ia_vector := IRQ_VECTOR_BASE + Z.of_nat i; ia_channel_id := channel |} ∈ irq_attachments p.

Record irq_ok (s : IrqSys) : Prop := {
  io_len : length (iq_slots s) = Z.to_nat IRQ_TABLE_SLOTS;
  io_lines : forall i j l c o c' o', holds s i l c o -> holds s j l c' o' -> i = j;
  io_record : forall i l c o, holds s i l c o <-> recorded s i l c o;
  io_vectors : forall t p a, iq_pcbs s !! t = Some p -> a ∈ irq_attachments p -> exists i, ia_vector a = IRQ_VECTOR_BASE + Z.of_nat i /\ (i < Z.to_nat IRQ_TABLE_SLOTS)%nat;
}.

(** ** Lemmas *)

Lemma holds_fun s i l c o l' c' o' : holds s i l c o -> holds s i l' c' o' -> l = l' /\ c = c' /\ o = o'.
Proof. intros (_ & sl & E & <- & <- & <-) (_ & sl' & E' & <- & <- & <-). rewrite E in E'. by injection E' as ->. Qed.

(** A change of the state that is seen through [holds] and [recorded] only. *)
Lemma irq_ok_ext s s' : irq_ok s -> length (iq_slots s') = length (iq_slots s) -> (forall i l c o, holds s' i l c o <-> holds s i l c o) -> iq_pcbs s' = iq_pcbs s -> irq_ok s'.
Proof.
  intros [H1 H2 H3 H4] Hlen Hh Hp. split.
  - by rewrite Hlen.
  - intros i j l c o c' o' A B. apply Hh in A, B. by eapply H2.
  - intros i l c o. rewrite Hh, H3. unfold recorded. by rewrite Hp.
  - rewrite Hp. exact H4.
Qed.

Lemma slot_for_base i : (i < Z.to_nat IRQ_TABLE_SLOTS)%nat -> slot_for (IRQ_VECTOR_BASE + Z.of_nat i) = Some i.
Proof.
  unfold slot_for, IRQ_TABLE_SLOTS, IRQ_VECTOR_BASE, IRQ_VECTOR_END. intros Hi. rewrite (proj2 (Z.leb_le _ _)) by lia. rewrite (proj2 (Z.leb_le _ _)) by lia. cbn [andb negb]. f_equal. lia.
Qed.

Lemma allocate_vector_spec line owner ch slots : length slots = Z.to_nat IRQ_TABLE_SLOTS ->
  match allocate_vector line owner ch slots with
  | None => forall sl, sl ∈ slots -> is_line sl <> 0
  | Some (v, slots') => exists i sl, v = IRQ_VECTOR_BASE + Z.of_nat i /\ (i < Z.to_nat IRQ_TABLE_SLOTS)%nat /\ slots !! i = Some sl /\ is_line sl = 0 /\
      (forall j sl', (j < i)%nat -> slots !! j = Some sl' -> is_line sl' <> 0) /\ slots' = <[i := {| is_line := line; is_channel := ch; is_missed := 0; is_owner := owner |}]> slots
  end.
Proof.
  intros Hlen. unfold allocate_vector. destruct (list_find _ slots) as [[i sl]|] eqn:E.
  - apply list_find_Some in E as (E & Hl & Hm). exists i, sl. split; [done|]. split; [rewrite <- Hlen; by eapply lookup_lt_Some|]. split; [done|]. split; [done|]. split; [|done]. intros j sl' Hj Ej. by eapply Hm.
  - apply list_find_None in E. rewrite Forall_forall in E. done.
Qed.

Lemma irq_line_in_use_spec line slots : irq_line_in_use line slots = false <-> forall sl, sl ∈ slots -> is_line sl <> line.
Proof.
  unfold irq_line_in_use. rewrite <- not_true_iff_false, existsb_exists. split.
  - intros Hn sl Hs E. apply Hn. exists sl. split; [by apply list_elem_of_In|by apply Z.eqb_eq].
  - intros Hn (sl & Hs & E). apply Z.eqb_eq in E. apply (Hn sl); [by apply list_elem_of_In|done].
Qed.

(** Attaching a line that no slot has to a free slot. *)
Lemma attach_ok s t p i sl line ch idt : irq_ok s -> iq_pcbs s !! t = Some p -> (i < Z.to_nat IRQ_TABLE_SLOTS)%nat -> iq_slots s !! i = Some sl -> is_line sl = 0 -> line <> 0 ->
  (forall x, x ∈ iq_slots s -> is_line x <> line) ->
  irq_ok {| iq_slots := <[i := {| is_line := line; is_channel := ch; is_missed := 0; is_owner := t |}]> (iq_slots s);
            iq_pcbs := <[t := with_irq (irq_attachments p ++ [{| ia_irq_line := line; ia_vector := IRQ_VECTOR_BASE + Z.of_nat i; ia_channel_id := ch |}]) p]> (iq_pcbs s);
            iq_current := iq_current s; iq_registry := iq_registry s; iq_table := iq_table s; iq_idt := idt |}.
Proof.
  intros [H1 H2 H3 H4] Hp Hi Hs Hz Hl Hfree. set (s' := Build_IrqSys _ _ _ _ _ _).
  assert (forall j l c o, holds s' j l c o <-> (j = i /\ l = line /\ c = ch /\ o = t) \/ holds s j l c o) as Hh.
  { intros j l c o. unfold holds. cbn [iq_slots s']. destruct (decide (j = i)) as [->|Hne].
    - rewrite list_lookup_insert_eq by (by eapply lookup_lt_Some). split.
      + intros (_ & x & [= <-] & <- & <- & <-). by left.
      + intros [(_ & -> & -> & ->)|(Hnz & x & Ex & <- & _)]; [split; [done|]; by eexists|]. rewrite Hs in Ex. injection Ex as <-. done.
    - rewrite list_lookup_insert_ne by done. split; [by right|by intros [[? _]|?]]. }
  assert (forall j l c o, recorded s' j l c o <-> (j = i /\ l = line /\ c = ch /\ o = t) \/ recorded s j l c o) as Hr.
  { intros j l c o. unfold recorded. cbn [iq_pcbs s']. destruct (decide (o = t)) as [->|Hne].
    - rewrite lookup_insert_eq, Hp. split.
      + intros (q & [= <-] & [Hin|Hin%list_elem_of_singleton]%elem_of_app); [right; by exists p|]. left. injection Hin as -> Hv ->. repeat split. lia.
      + intros [(-> & -> & -> & _)|(q & [= <-] & Hin)]; eexists; (split; [reflexivity|]); cbn; apply elem_of_app; [right; by apply list_elem_of_singleton|by left].
    - rewrite lookup_insert_ne by done. split; [by right|by intros [(_ & _ & _ & ?)|?]]. }
  assert (forall j c o, ~ holds s j line c o) as Hno by (intros j c o (_ & x & Ex & E & _); by apply (Hfree x (list_elem_of_lookup_2 _ _ _ Ex))).
  split.
  - cbn. by rewrite length_insert.
  - intros j k l c o c' o' [(-> & -> & _)|A]%Hh [(-> & E & _)|B]%Hh; [done|by apply Hno in B|subst l; by apply Hno in A|by eapply H2].
  - intros j l c o. by rewrite Hh, Hr, H3.
  - intros u q a. cbn [iq_pcbs s']. destruct (decide (u = t)) as [->|]; [rewrite lookup_insert_eq; intros [= <-] [Hin| ->%list_elem_of_singleton]%elem_of_app; [by apply (H4 t p)|by exists i]|rewrite lookup_insert_ne by done; by apply H4].
Qed.

(** What the exit hook leaves in the slots. *)
Lemma release_fold atts slots j : Forall (fun a => exists i, ia_vector a = IRQ_VECTOR_BASE + Z.of_nat i /\ (i < Z.to_nat IRQ_TABLE_SLOTS)%nat) atts -> length slots = Z.to_nat IRQ_TABLE_SLOTS ->
  length (fold_left (fun l a => release_vector (ia_vector a) l) atts slots) = Z.to_nat IRQ_TABLE_SLOTS /\
  fold_left (fun l a => release_vector (ia_vector a) l) atts slots !! j =
    if bool_decide (IRQ_VECTOR_BASE + Z.of_nat j ∈ map ia_vector atts) then Some irq_slot_new else slots !! j.
Proof.
  intros Ha. revert slots. induction Ha as [|a atts (i & Ev & Hi) _ IH]; intros slots Hlen; [done|]. cbn [fold_left map].
  assert (release_vector (ia_vector a) slots = <[i := irq_slot_new]> slots) as -> by (unfold release_vector; by rewrite Ev, slot_for_base). rewrite Ev.
  destruct (IH (<[i := irq_slot_new]> slots)) as [IH1 IH2]; [by rewrite length_insert|]. split; [done|]. rewrite IH2.
  destruct (decide (IRQ_VECTOR_BASE + Z.of_nat j ∈ map ia_vector atts)) as [Hin|Hin]; [rewrite !bool_decide_true by (try done; by right); done|]. rewrite (bool_decide_false _ Hin).
  destruct (decide (j = i)) as [->|Hne]; [rewrite bool_decide_true by (by left); apply list_lookup_insert_eq; by rewrite Hlen|].
  rewrite bool_decide_false by (intros [E|?]%elem_of_cons; [lia|done]). by rewrite list_lookup_insert_ne.
Qed.

Lemma exit_holds s t p j l c o : irq_ok s -> iq_pcbs s !! t = Some p -> (holds (tear_down_irq_attachments t s) j l c o <-> holds s j l c o /\ o <> t).
Proof.
  intros [H1 H2 H3 H4] Hp. unfold tear_down_irq_attachments. rewrite Hp. unfold holds at 1. cbn [iq_slots iq_set_slots iq_set_pcb].
  destruct (release_fold (irq_attachments p) (iq_slots s) j) as [_ ->]; [apply Forall_forall; intros a Ha; by apply (H4 t p)|done|].
  destruct (decide (IRQ_VECTOR_BASE + Z.of_nat j ∈ map ia_vector (irq_attachments p))) as [Hin|Hin].
  - rewrite bool_decide_true by done. split; [intros (Hl & x & [= <-] & E & _); by destruct Hl|]. intros [Hh Ho]. destruct Ho. apply list_elem_of_In, in_map_iff in Hin as (a & Ev & Ha).
    assert (holds s j (ia_irq_line a) (ia_channel_id a) t) as Ht by (apply H3; exists p; split; [done|]; apply list_elem_of_In; destruct a; cbn in *; by rewrite <- Ev).
    by destruct (holds_fun _ _ _ _ _ _ _ _ Hh Ht) as (_ & _ & ?).
  - rewrite bool_decide_false by done. split; [|by intros [? _]]. intros Hh. split; [done|]. intros ->. apply Hin. apply H3 in Hh as (q & Eq & Hq). rewrite Hp in Eq. injection Eq as <-.
    apply list_elem_of_In, in_map_iff. eexists. split; [|by apply list_elem_of_In]. done.
Qed.

Lemma exit_ok s t : irq_ok s -> irq_ok (tear_down_irq_attachments t s).
Proof.
  intros Hok. destruct (iq_pcbs s !! t) as [p|] eqn:Hp; [|by unfold tear_down_irq_attachments; rewrite Hp]. pose proof (fun j l c o => exit_holds s t p j l c o Hok Hp) as Hh. destruct Hok as [H1 H2 H3 H4].
  assert (iq_pcbs (tear_down_irq_attachments t s) = <[t := with_irq [] p]> (iq_pcbs s)) as Epcb by (unfold tear_down_irq_attachments; by rewrite Hp). split.
  - unfold tear_down_irq_attachments. rewrite Hp. cbn. apply (release_fold _ _ 0%nat); [|done]. apply Forall_forall. intros a Ha. by apply (H4 t p).
  - intros i j l c o c' o' [A _]%Hh [B _]%Hh. by eapply H2.
  - intros i l c o. rewrite Hh, H3. unfold recorded. rewrite Epcb. destruct (decide (o = t)) as [->|Hne].
    + rewrite lookup_insert_eq. split; [by intros [_ ?]|]. by intros (q & [= <-] & ?%elem_of_nil).
    + rewrite lookup_insert_ne by done. split; [by intros [? _]|done].
  - intros u q a. rewrite Epcb. destruct (decide (u = t)) as [->|]; [rewrite lookup_insert_eq; by intros [= <-] ?%elem_of_nil|rewrite lookup_insert_ne by done; by apply H4].
Qed.

Lemma irq_boot_ok r : irq_ok (irq_boot r).
Proof.
  assert (forall i l c o, ~ holds (irq_boot r) i l c o) as Hno.
  { intros i l c o (Hl & sl & Es & E & _). apply lookup_replicate in Es as [-> _]. by destruct Hl. }
  split; [apply length_replicate| | |].
  - intros i j l c o c' o' A. by apply Hno in A.
  - intros i l c o. split; [intros A; by apply Hno in A|]. intros (p & Ep & _). cbn in Ep. by rewrite lookup_empty in Ep.
  - intros t p a Ep. cbn in Ep. by rewrite lookup_empty in Ep.
Qed.

Lemma note_fire_holds v s i l c o : holds (iq_set_slots (note_fire v (iq_slots s)) s) i l c o <-> holds s i l c o.
Proof.
  unfold holds, note_fire. cbn [iq_slots iq_set_slots]. destruct (slot_for v) as [k|]; [|done]. destruct (decide (i = k)) as [->|Hne]; [|by rewrite list_lookup_alter_ne].
  rewrite list_lookup_alter_eq. destruct (iq_slots s !! k) as [x|]; cbn [fmap option_fmap option_map]; [|done].
  split; intros (Hl & y & [= <-] & E1 & E2 & E3); (split; [done|]); eexists; (split; [reflexivity|]); cbn in *; done.
Qed.

Lemma note_fire_len v slots : length (note_fire v slots) = length slots.
Proof. unfold note_fire. destruct (slot_for v); [apply length_alter|done]. Qed.

(** ** Theorems *)

Section IrqTheorems.
Context `{SigningPrimitives}.
Context (domain_separated_hash : str -> list Z -> list Z).
Context (decode_canonical : list Z -> option CapabilityToken).

(** The six things a request must pass: a line number of 16 bits, an address
    range for the token, the token, a free line, a channel and a free vector. *)
Definition good_line (line : Z) : Prop := 0 < line <= 0xFFFF.
Definition good_token (cap_ptr cap_len : Z) : Prop := token_range_ok cap_ptr cap_len = true.
Definition attach_gate (e : SysEnv) (line cap_ptr cap_len : Z) : Prop := granted decode_canonical (se_user e cap_ptr cap_len) (se_now e) IrqAttach (IrqLine line).
Definition line_free (line : Z) (s : IrqSys) : Prop := forall i c o, ~ holds s i line c o.
Definition vector_free (s : IrqSys) : Prop := exists sl, sl ∈ iq_slots s /\ is_line sl = 0.

Lemma line_free_slots line s : line <> 0 -> (line_free line s <-> forall sl, sl ∈ iq_slots s -> is_line sl <> line).
Proof.
  intros Hl. unfold line_free, holds. split.
  - intros Hn sl Hs E. apply list_elem_of_lookup in Hs as [i Ei]. apply (Hn i (is_channel sl) (is_owner sl)). split; [done|]. by exists sl.
  - intros Hn i c o (_ & sl & Es & E & _). by apply (Hn sl (list_elem_of_lookup_2 _ _ _ Es)).
Qed.

(** What the caller sees, and the state behind it: which answer, exactly when. *)
Definition attach_post (line_ok token_ok gate chan : Prop) (line ch : Z) (s : IrqSys) (t : Z) (p : DriverPcb) (r : SyscallReturn) (s' : IrqSys) : Prop :=
  irq_ok s' /\ rdx r ∈ [0; EINVAL; EFAULT; EACCES; ENOSPC] /\
  (rdx r = EINVAL <-> ~ line_ok \/ line_ok /\ token_ok /\ gate /\ (~ line_free line s \/ ~ chan)) /\
  (rdx r = EFAULT <-> line_ok /\ ~ token_ok) /\
  (rdx r = EACCES <-> line_ok /\ token_ok /\ ~ gate) /\
  (rdx r = ENOSPC <-> line_ok /\ token_ok /\ gate /\ line_free line s /\ chan /\ ~ vector_free s) /\
  (rdx r = 0 <-> line_ok /\ token_ok /\ gate /\ line_free line s /\ chan /\ vector_free s) /\
  (rdx r <> 0 -> rax r = 0 /\ s' = s) /\
  (rdx r = 0 -> exists i sl, rax r = IRQ_VECTOR_BASE + Z.of_nat i /\ IRQ_VECTOR_BASE <= rax r <= IRQ_VECTOR_END /\ iq_slots s !! i = Some sl /\ is_line sl = 0 /\
     (forall j x, (j < i)%nat -> iq_slots s !! j = Some x -> is_line x <> 0) /\ holds s' i line ch t /\ (forall j, j <> i -> iq_slots s' !! j = iq_slots s !! j) /\
     iq_pcbs s' = <[t := with_irq (irq_attachments p ++ [{| ia_irq_line := line; ia_vector := rax r; ia_channel_id := ch |}]) p]> (iq_pcbs s)).

(** One errno against the conditions of the others. *)
Ltac answer_iff := split; [intros Herr; first [vm_compute in Herr; discriminate Herr|tauto]|intros; first [reflexivity|tauto]].

Lemma attach_refused (line_ok token_ok gate chan : Prop) line ch s t p err : irq_ok s -> err ∈ [EINVAL; EFAULT; EACCES; ENOSPC] ->
  (err = EINVAL <-> ~ line_ok \/ line_ok /\ token_ok /\ gate /\ (~ line_free line s \/ ~ chan)) -> (err = EFAULT <-> line_ok /\ ~ token_ok) -> (err = EACCES <-> line_ok /\ token_ok /\ ~ gate) ->
  (err = ENOSPC <-> line_ok /\ token_ok /\ gate /\ line_free line s /\ chan /\ ~ vector_free s) ->
  exists r s', Done (sys_err err, s) = Done (r, s') /\ attach_post line_ok token_ok gate chan line ch s t p r s'.
Proof.
  intros Hok Hin H1 H2 H3 H4. eexists _, _. split; [reflexivity|]. unfold attach_post. cbn [rdx rax sys_err]. assert (err <> 0) as Hne by (intros ->; rewrite !elem_of_cons, elem_of_nil in Hin; by destruct Hin as [E|[E|[E|[E|[]]]]]).
  split; [done|]. split; [by apply elem_of_cons; right|]. split; [done|]. split; [done|]. split; [done|]. split; [done|]. split; [|by split]. split; [done|]. intros Hall. exfalso.
  rewrite !elem_of_cons, elem_of_nil in Hin. destruct Hin as [E|[E|[E|[E|[]]]]]; [apply H1 in E|apply H2 in E|apply H3 in E|apply H4 in E]; tauto.
Qed.

(** C31: the answers of an attach request by the current process, which has
    a control block.  Each is given exactly in these cases: EINVAL when the line is 0 or above 65535, or the
    token allows the line and the line is attached already or the channel does
    not exist; EFAULT when the line is good and the token's address range is
    not one of the user's; EACCES when both are good and the token does not
    grant the line; ENOSPC when the line, the range and the token are good, the
    line is free, the channel exists and all 191 vectors are taken.  No other error is given, and every
    error leaves the whole state as it was.  Otherwise the request succeeds with
    the lowest free vector, which then belongs to the line, the channel and the
    process, is recorded in it, and no other slot changes. *)
Theorem irq_attach_exact (e : SysEnv) (line ch cap_ptr cap_len : Z) (s : IrqSys) (t : Z) (p : DriverPcb) : irq_ok s -> iq_current s = Some t -> iq_pcbs s !! t = Some p -> 0 <= line ->
  exists r s', irq_attach domain_separated_hash decode_canonical e line ch cap_ptr cap_len s = Done (r, s') /\
    attach_post (good_line line) (good_token cap_ptr cap_len) (attach_gate e line cap_ptr cap_len) (is_Some (channels (iq_registry s) !! ch)) line ch s t p r s'.
Proof.
  intros Hok Hcur Hp Hl0. unfold irq_attach. set (line_ok := good_line _). set (token_ok := good_token _ _). set (gate := attach_gate _ _ _ _). set (chan := is_Some _).
  destruct (Z.eqb_spec line 0) as [E0|E0]; cbn [orb]; [assert (~ line_ok) by (unfold line_ok, good_line; lia); apply attach_refused; [done|set_solver|answer_iff..]|].
  destruct (Z.ltb_spec 0xFFFF line) as [E1|E1]; [assert (~ line_ok) by (unfold line_ok, good_line; lia); apply attach_refused; [done|set_solver|answer_iff..]|].
  assert line_ok as Hline by (unfold line_ok, good_line; lia).
  destruct (token_range_ok cap_ptr cap_len) eqn:Er; cbn [negb]; [|assert (~ token_ok) by (unfold token_ok, good_token; congruence); apply attach_refused; [done|set_solver|answer_iff..]].
  assert token_ok as Htok by done.
  destruct (token_allows_spec domain_separated_hash decode_canonical (se_user e cap_ptr cap_len) (se_now e) IrqAttach (IrqLine line) eq_refl) as (b & -> & Hb). fold (attach_gate e line cap_ptr cap_len) gate in Hb. cbn [mbind run_bind].
  destruct b; cbn [negb]; [|assert (~ gate) by (intros Hg; by apply Hb in Hg); apply attach_refused; [done|set_solver|answer_iff..]]. assert gate as Hg by tauto. clear Hb.
  destruct (irq_line_in_use line (iq_slots s)) eqn:Euse.
  { assert (~ line_free line s) by (rewrite line_free_slots, <- irq_line_in_use_spec by done; congruence). apply attach_refused; [done|set_solver|answer_iff..]. }
  pose proof (proj1 (irq_line_in_use_spec _ _) Euse) as Hslots. assert (line_free line s) as Hfree by (by apply line_free_slots). rewrite Hcur.
  destruct (channels (iq_registry s) !! ch) as [c|] eqn:Ech; [|assert (~ chan) by (unfold chan; by intros [? ?]); apply attach_refused; [done|set_solver|answer_iff..]].
  assert chan as Hc by (unfold chan; by eexists). pose proof (allocate_vector_spec line t ch (iq_slots s) (io_len _ Hok)) as Hal.
  destruct (allocate_vector line t ch (iq_slots s)) as [[v slots']|].
  2:{ assert (~ vector_free s) by (intros (sl & Hs & Ez); by apply (Hal sl)). apply attach_refused; [done|set_solver|answer_iff..]. }
  destruct Hal as (i & sl & -> & Hi & Es & Ez & Hmin & ->). cbn [iq_pcbs idt_set_vector iq_set_slots]. rewrite Hp.
  assert (vector_free s) as Hv by (exists sl; split; [by eapply list_elem_of_lookup_2|done]).
  eexists _, _. split; [reflexivity|]. unfold attach_post. cbn [rdx rax sys_ok]. split; [exact (attach_ok s t p i sl line ch _ Hok Hp Hi Es Ez E0 Hslots)|]. split; [by apply elem_of_cons; left|]. split; [answer_iff|]. split; [answer_iff|]. split; [answer_iff|]. split; [answer_iff|]. split; [answer_iff|]. split; [done|].
  intros _. exists i, sl. split; [done|]. split; [unfold IRQ_TABLE_SLOTS, IRQ_VECTOR_BASE, IRQ_VECTOR_END in *; lia|]. split; [done|]. split; [done|]. split; [done|]. split; [|split; [|done]].
  - split; [done|]. eexists. cbn. rewrite list_lookup_insert_eq by (rewrite (io_len _ Hok); done). by split.
  - intros j Hj. cbn. by rewrite list_lookup_insert_ne.
Qed.

(** ** Any sequence of events *)

Definition irq_event_ok (ev : irq_event) : Prop := match ev with EvAttach _ l _ _ _ => is_u64 l | EvFire v => is_u8 v | _ => True end.

Lemma attach_step_ok e line ch ptr len s : irq_ok s -> is_u64 line ->
  exists r s', irq_attach domain_separated_hash decode_canonical e line ch ptr len s = Done (r, s') /\ irq_ok s' /\ iq_registry s' = iq_registry s /\ iq_table s' = iq_table s.
Proof.
  intros Hok Hl. unfold irq_attach. destruct (Z.eqb_spec line 0) as [|E0]; cbn [orb]; [by eexists _, _|]. destruct (0xFFFF <? line); [by eexists _, _|]. destruct (token_range_ok ptr len); cbn [negb]; [|by eexists _, _].
  destruct (token_allows_spec domain_separated_hash decode_canonical (se_user e ptr len) (se_now e) IrqAttach (IrqLine line) eq_refl) as (b & -> & _). cbn [mbind run_bind]. destruct b; cbn [negb]; [|by eexists _, _].
  destruct (irq_line_in_use line (iq_slots s)) eqn:Euse; [by eexists _, _|]. destruct (iq_current s) as [t|]; [|by eexists _, _]. destruct (channels (iq_registry s) !! ch); [|by eexists _, _].
  pose proof (allocate_vector_spec line t ch (iq_slots s) (io_len _ Hok)) as Hal. destruct (allocate_vector line t ch (iq_slots s)) as [[v slots']|]; [|by eexists _, _].
  destruct Hal as (i & sl & -> & Hi & Es & Ez & _ & ->). cbn [iq_pcbs idt_set_vector iq_set_slots]. destruct (iq_pcbs s !! t) as [p|] eqn:Hp; (eexists _, _; split; [reflexivity|]).
  - split; [|done]. exact (attach_ok s t p i sl line ch _ Hok Hp Hi Es Ez E0 (proj1 (irq_line_in_use_spec _ _) Euse)).
  - split; [|done]. apply (irq_ok_ext s); [done| | |done]; cbn [iq_slots idt_set_vector iq_set_slots]; unfold release_vector; rewrite slot_for_base by done; [by rewrite !length_insert|].
    intros j l c1 o. unfold holds. cbn [iq_slots idt_set_vector iq_set_slots]. rewrite list_insert_insert_eq. destruct (decide (j = i)) as [->|]; [|by rewrite list_lookup_insert_ne].
    rewrite list_lookup_insert_eq by (by eapply lookup_lt_Some). split; intros (Hnz & x & Ex & E & _); [injection Ex as <-|rewrite Es in Ex; injection Ex as <-]; cbn in E; congruence.
Qed.

Lemma irq_event_step_ok ev s : irq_ok s -> iq_table s = irq_table_new -> irq_event_ok ev ->
  exists s', irq_event_step domain_separated_hash decode_canonical ev s = Done s' /\ irq_ok s' /\ iq_table s' = irq_table_new /\ iq_registry s' = iq_registry s.
Proof.
  intros Hok Ht Hev. destruct ev as [t root|t|e l c ptr n|t|v]; cbn [irq_event_step].
  - eexists. split; [reflexivity|]. destruct (iq_pcbs s !! t) as [p|] eqn:Ep; [done|]. split; [|done]. destruct Hok as [H1 H2 H3 H4]. split; [done|by apply H2| |].
    + intros i l c o. change (holds _ i l c o) with (holds s i l c o). rewrite H3. unfold recorded. cbn [iq_pcbs iq_set_pcb]. destruct (decide (o = t)) as [->|]; [|by rewrite lookup_insert_ne].
      rewrite lookup_insert_eq, Ep. split; [by intros (? & ? & _)|by intros (q & [= <-] & ?%elem_of_nil)].
    + intros u q a. cbn [iq_pcbs iq_set_pcb]. destruct (decide (u = t)) as [->|]; [rewrite lookup_insert_eq; by intros [= <-] ?%elem_of_nil|rewrite lookup_insert_ne by done; by apply H4].
  - eexists. split; [reflexivity|]. split; [by apply (irq_ok_ext s)|done].
  - destruct (attach_step_ok e l c ptr n s Hok Hev) as (r & s' & -> & Hok' & Hr & Htb). cbn [mbind run_bind]. exists s'. split; [done|]. split; [done|]. split; [congruence|done].
  - eexists. split; [reflexivity|]. split; [by apply exit_ok|]. unfold tear_down_irq_attachments. by destruct (iq_pcbs s !! t).
  - unfold dispatch_fire. cbn [iq_table iq_registry iq_set_slots]. rewrite Ht. unfold irq_notify. rewrite irq_lookup_at by (done || apply irq_table_new_wf).
    assert (irq_at irq_table_new v = None) as ->.
    { unfold irq_at. destruct (0 <=? v); [|done]. unfold irq_table_new. cbn [bindings]. destruct (replicate _ _ !! _) eqn:E; [|done]. by apply lookup_replicate in E as [-> _]. }
    cbn [mbind run_bind]. eexists. split; [reflexivity|]. split; [|done]. apply (irq_ok_ext s); [done|cbn; by rewrite note_fire_len| |done]. intros i l c o. apply note_fire_holds.
Qed.

(** C28: whatever sequence of process starts, switches, attach requests, exits and interrupts follows boot, none of it panics; no line is attached to two vectors, a process's record lists exactly the vectors that are its own, and an exiting process frees all of them and no other.  The routing table that [irq_notify] consults is never filled, so no interrupt puts a message on any channel. *)
Theorem irq_events_exclusive (evs : list irq_event) (r : KernelIpcRegistry) : Forall irq_event_ok evs ->
  exists s, irq_events domain_separated_hash decode_canonical evs (irq_boot r) = Done s /\
    (forall i j l c o c' o', holds s i l c o -> holds s j l c' o' -> i = j) /\ (forall i l c o, holds s i l c o <-> recorded s i l c o) /\
    (forall t p j l c o, iq_pcbs s !! t = Some p -> (holds (tear_down_irq_attachments t s) j l c o <-> holds s j l c o /\ o <> t)) /\ iq_registry s = r.
Proof.
  assert (forall s, irq_ok s -> iq_table s = irq_table_new -> Forall irq_event_ok evs -> exists s', irq_events domain_separated_hash decode_canonical evs s = Done s' /\ irq_ok s' /\ iq_registry s' = iq_registry s) as Hrun.
  { induction evs as [|ev evs IH]; intros s Hok Ht Hevs; [by exists s|]. apply Forall_cons in Hevs as [Hev Hevs]. cbn [irq_events].
    destruct (irq_event_step_ok ev s Hok Ht Hev) as (s1 & -> & Hok1 & Ht1 & Hr1). cbn [mbind run_bind]. destruct (IH s1 Hok1 Ht1 Hevs) as (s2 & -> & Hok2 & Hr2). exists s2. split; [done|]. split; [done|congruence]. }
  intros Hevs. destruct (Hrun (irq_boot r) (irq_boot_ok r) eq_refl Hevs) as (s & -> & Hok & Hr). exists s. split; [done|]. split; [apply Hok|]. split; [apply Hok|]. split; [|done]. intros t p j l c o Hp. by apply (exit_holds s t p).
Qed.
End IrqTheorems.

(** ** Witnesses *)

Definition demo_irq_token : CapabilityToken :=
  {| payload := {| tp_id := [5]; tp_subject := replicate 32 0; tp_issuer := [9]; tp_parent := None;
                   tp_scope := {| action := IrqAttach; resource := IrqLine 11; window := {| not_before := 0; not_after := 100 |}; caveats := [] |} |};
     signature := [9; 5] |}.
Definition demo_irq_decode (bs : list Z) : option CapabilityToken := if str_eqb bs [1; 2] then Some demo_irq_token else None.
Definition demo_irq_events : list irq_event := [EvSpawn 7 0x1000; EvSwitch 7; EvAttach demo_env 11 1 0x4000 2; EvFire 0x40].

Lemma demo_irq_events_ok : Forall irq_event_ok demo_irq_events.
Proof. unfold demo_irq_events. repeat (apply Forall_cons; split; [cbn; unfold is_u64, is_u8; lia || exact I|]). by apply Forall_nil. Qed.

(** The interrupt of an attached line is counted and leaves the registry alone. *)
Lemma irq_events_exclusive_witness : exists s, @irq_events toy_prims (fun _ x => x) demo_irq_decode demo_irq_events (irq_boot demo_irq_registry) = Done s /\
  holds s 0 11 1 7 /\ iq_registry s = demo_irq_registry.
Proof.
  destruct (@irq_events_exclusive toy_prims (fun _ x => x) demo_irq_decode demo_irq_events demo_irq_registry demo_irq_events_ok) as (s & E & _ & Hrec & _ & Hr). exists s. split; [exact E|]. split; [|exact Hr].
  assert (match @irq_events toy_prims (fun _ x => x) demo_irq_decode demo_irq_events (irq_boot demo_irq_registry) with Done s => option_map is_line (head (iq_slots s)) | Panicked => None end = Some 11) as Hs by (vm_compute; reflexivity).
  assert (match @irq_events toy_prims (fun _ x => x) demo_irq_decode demo_irq_events (irq_boot demo_irq_registry) with Done s => option_map (fun x => (is_channel x, is_owner x)) (head (iq_slots s)) | Panicked => None end = Some (1, 7)) as Hs2 by (vm_compute; reflexivity).
  rewrite E in Hs, Hs2. destruct (iq_slots s) as [|x xs] eqn:El; [discriminate|]. cbn in Hs, Hs2. injection Hs as Hs. injection Hs2 as Hs2 Hs3. split; [lia|]. exists x. by rewrite El.
Defined.

Definition demo_irq_sys : IrqSys :=
  {| iq_slots := irq_slots_init; iq_pcbs := {[ 7 := demo_driver_pcb ]}; iq_current := Some 7; iq_registry := demo_irq_registry; iq_table := irq_table_new; iq_idt := ∅ |}.

Lemma demo_irq_sys_ok : irq_ok demo_irq_sys.
Proof.
  pose proof (irq_boot_ok demo_irq_registry) as [H1 H2 H3 _]. split; [done|exact H2| |].
  - intros i l c o. split; [intros Hh; apply (H3 i l c o) in Hh as (p & Ep & _); cbn in Ep; by rewrite lookup_empty in Ep|].
    intros (p & Ep & Hin). cbn in Ep. apply lookup_singleton_Some in Ep as [_ <-]. by apply elem_of_nil in Hin.
  - intros t p a Ep Hin. cbn in Ep. apply lookup_singleton_Some in Ep as [_ <-]. by apply elem_of_nil in Hin.
Qed.

Lemma irq_attach_exact_witness : exists r s', @irq_attach toy_prims (fun _ x => x) demo_irq_decode demo_env 11 1 0x4000 2 demo_irq_sys = Done (r, s') /\ rdx r = 0 /\ irq_ok s'.
Proof.
  destruct (@irq_attach_exact toy_prims (fun _ x => x) demo_irq_decode demo_env 11 1 0x4000 2 demo_irq_sys 7 demo_driver_pcb demo_irq_sys_ok eq_refl) as (r & s' & E & Hok & _).
  - apply lookup_singleton_eq.
  - lia.
  - exists r, s'. split; [exact E|]. split; [|exact Hok]. assert (match @irq_attach toy_prims (fun _ x => x) demo_irq_decode demo_env 11 1 0x4000 2 demo_irq_sys with Done (r, _) => rdx r =? 0 | Panicked => false end = true) as Hr by (vm_compute; reflexivity).
    rewrite E in Hr. by apply Z.eqb_eq.
Defined.
