(* ===== verification/DriverPack.v ===== *)
(** * Driver images: the omni-pack format and its admission (tools/omni-driver-pack:
    pack.rs; omni-kernel: driver_manifest.rs, known_issuers.rs;
    syscall_entry.rs: driver_load up to the start of the process)

    A driver is delivered as one blob: a fixed header, the canonical encoding
    of a manifest, its signature and the image.  The build tool writes it; the
    kernel checks the caller's token, takes the blob apart, compares the image's
    hash with the manifest, the issuer with a fixed list, and verifies the
    signature.  The canonical encoding of the manifest, the hash and the
    signature scheme are given. *)

From Stdlib Require Import ZArith Lia String.
From stdpp Require Import base numbers list.
From S2P Require Import Prelude Str CapScope CapToken Ipc CapDeposit DriverSys.

(** ** Manifests (driver_manifest.rs) *)

Record PciMatcher := { pm_vendor : Z; pm_device : Z }.
Record DriverMatchers := { pci_vendor_device : list PciMatcher; acpi_hid : list str }.
Record DriverMeta := { meta_name : str; meta_version : str; omni_image_hash : list Z; omni_issuer_pubkey : list Z; omni_signature : list Z }.
Record DriverManifest := { meta : DriverMeta; dm_capabilities : DriverCapabilities; dm_matchers : DriverMatchers }.
Record DriverMetaBody := { mb_name : str; mb_version : str; mb_image_hash : list Z; mb_issuer_pubkey : list Z }.
Record DriverManifestBody := { body_meta : DriverMetaBody; body_capabilities : DriverCapabilities; body_matchers : DriverMatchers }.

Definition manifest_body (m : DriverManifest) : DriverManifestBody :=
  {| body_meta := {| mb_name := meta_name (meta m); mb_version := meta_version (meta m); mb_image_hash := omni_image_hash (meta m); mb_issuer_pubkey := omni_issuer_pubkey (meta m) |};
     body_capabilities := dm_capabilities m; body_matchers := dm_matchers m |}.

Definition hydrate_manifest (b : DriverManifestBody) (signature : list Z) : DriverManifest :=
  {| meta := {| meta_name := mb_name (body_meta b); meta_version := mb_version (body_meta b); omni_image_hash := mb_image_hash (body_meta b);
                omni_issuer_pubkey := mb_issuer_pubkey (body_meta b); omni_signature := signature |};
     dm_capabilities := body_capabilities b; dm_matchers := body_matchers b |}.

Definition OMNI_PACK_MAGIC : list Z := lit "OMNIPACK"%string.
Definition OMNI_PACK_VERSION : Z := 1.
Definition OMNI_PACK_HEADER_LEN : Z := 0x40.
Definition OMNI_PACK_MAX_BYTES : Z := 32 * 1024 * 1024.
Definition OMNI_PACK_MAX_MANIFEST_BYTES : Z := 16 * 1024.
Definition SIGNATURE_LEN : Z := 64.

Inductive DriverManifestError := MalformedPack | PackTooLarge | UnknownIssuer | SignatureInvalid | ImageHashMismatch.

Record OmniPackSections := { sec_manifest : list Z; sec_signature : list Z; sec_image : list Z }.

Definition pack_read_u32 (bytes : list Z) (offset : Z) : result DriverManifestError Z := ok_or (option_map from_le_bytes (slice_get bytes offset (offset + 4))) MalformedPack.
Definition pack_read_u64 (bytes : list Z) (offset : Z) : result DriverManifestError Z := ok_or (option_map from_le_bytes (slice_get bytes offset (offset + 8))) MalformedPack.

(** [checked_section]: the sum is taken in 128 bits. *)
Definition checked_section (offset len pack_len : Z) : result DriverManifestError (Z * Z) :=
  let stop := offset + len in if pack_len <? stop then Err MalformedPack else Ok (offset, stop).

Definition ranges_overlap (a b : Z * Z) : bool := (fst a <? snd b) && (fst b <? snd a).

Definition decode_omni_pack (pack : list Z) : result DriverManifestError OmniPackSections :=
  let len := Z.of_nat (length pack) in
  if len <? OMNI_PACK_HEADER_LEN then Err MalformedPack else
  if OMNI_PACK_MAX_BYTES <? len then Err PackTooLarge else
  magic ← ok_or (slice_get pack 0 8) MalformedPack;
  if negb (str_eqb magic OMNI_PACK_MAGIC) then Err MalformedPack else
  version ← pack_read_u32 pack 0x08;
  if negb (version =? OMNI_PACK_VERSION) then Err MalformedPack else
  flags ← pack_read_u32 pack 0x0C;
  if negb (flags =? 0) then Err MalformedPack else
  manifest_off ← pack_read_u64 pack 0x10;
  manifest_len ← pack_read_u64 pack 0x18;
  signature_off ← pack_read_u64 pack 0x20;
  signature_len ← pack_read_u64 pack 0x28;
  image_off ← pack_read_u64 pack 0x30;
  image_len ← pack_read_u64 pack 0x38;
  if OMNI_PACK_MAX_MANIFEST_BYTES <? manifest_len then Err PackTooLarge else
  if negb (signature_len =? SIGNATURE_LEN) then Err MalformedPack else
  manifest_range ← checked_section manifest_off manifest_len len;
  signature_range ← checked_section signature_off signature_len len;
  image_range ← checked_section image_off image_len len;
  if (fst manifest_range <? OMNI_PACK_HEADER_LEN) || (fst signature_range <? OMNI_PACK_HEADER_LEN) || (fst image_range <? OMNI_PACK_HEADER_LEN) then Err MalformedPack else
  if ranges_overlap manifest_range signature_range || ranges_overlap manifest_range image_range || ranges_overlap signature_range image_range then Err MalformedPack else
  signature ← ok_or (slice_get pack (fst signature_range) (snd signature_range)) MalformedPack;
  manifest ← ok_or (slice_get pack (fst manifest_range) (snd manifest_range)) MalformedPack;
  image ← ok_or (slice_get pack (fst image_range) (snd image_range)) MalformedPack;
  Ok {| sec_manifest := manifest; sec_signature := signature; sec_image := image |}.

(** ** Known issuers (known_issuers.rs) *)

Record KnownIssuer := { ki_id : str; ki_key : list Z }.
Definition KNOWN_ISSUERS : list KnownIssuer :=
  [{| ki_id := lit "dev-only-cafebabe"%string;
      ki_key := [0xAA; 0x73; 0x31; 0x87; 0xFE; 0xB4; 0xD4; 0x8A; 0x0A; 0xF5; 0x65; 0x89; 0x0E; 0x96; 0x79; 0xCA; 0x43; 0x28; 0xE4; 0x59; 0x85; 0xDB; 0x9A; 0xB3; 0x54; 0x58; 0xD3; 0xD1; 0x80; 0xB5; 0x24; 0x16] |}].
Definition lookup_issuer (pubkey : list Z) : option KnownIssuer := List.find (fun i => str_eqb (ki_key i) pubkey) KNOWN_ISSUERS.

(** ** Verification and admission *)

(** What the code takes from the hash and the canonical encoding. *)
Class PackEnv := {
  blake3 : list Z -> list Z;
  encode_manifest : DriverManifestBody -> option (list Z);
  decode_manifest : list Z -> option DriverManifestBody;
  verifying_key_valid : list Z -> bool;
}.

(** The canonical encoding is read back; signatures have 64 bytes; the key of a signer is a valid key. *)
Class PackEnvLaws `{PackEnv} `{SigningPrimitives} : Prop := {
  decode_encode_manifest : forall b enc, encode_manifest b = Some enc -> decode_manifest enc = Some b;
  sign_length : forall sk msg, Z.of_nat (length (sign sk msg)) = SIGNATURE_LEN;
  verifying_key_ok : forall sk, verifying_key_valid (verifying_key sk) = true;
}.

Section Pack.
Context `{PackEnv} `{SigningPrimitives}.

Definition postcard_decode_manifest (bytes : list Z) : result DriverManifestError DriverManifestBody := ok_or (decode_manifest bytes) MalformedPack.

Definition verify_manifest (m : DriverManifest) (image : list Z) : result DriverManifestError unit :=
  if negb (str_eqb (blake3 image) (omni_image_hash (meta m))) then Err ImageHashMismatch else
  match lookup_issuer (omni_issuer_pubkey (meta m)) with
  | None => Err UnknownIssuer
  | Some _ =>
      if negb (verifying_key_valid (omni_issuer_pubkey (meta m))) then Err SignatureInvalid else
      payload ← ok_or (encode_manifest (manifest_body m)) SignatureInvalid;
      if sig_verify (omni_issuer_pubkey (meta m)) payload (omni_signature (meta m)) then Ok () else Err SignatureInvalid
  end.

(** The build tool (pack.rs). *)
Record PackInput := { in_name : str; in_version : str; in_issuer_pubkey : list Z; in_capabilities : DriverCapabilities; in_matchers : DriverMatchers; in_image : list Z; in_seed : list Z }.
Inductive PackError := PostcardEncode | PeManifestTooLarge (actual : Z) | PePackTooLarge (actual : Z) | OffsetOverflow.

Definition opack_header (manifest_len signature_offset image_offset image_len : Z) : list Z :=
  OMNI_PACK_MAGIC ++ to_le_bytes 4 OMNI_PACK_VERSION ++ to_le_bytes 4 0 ++ to_le_bytes 8 OMNI_PACK_HEADER_LEN ++ to_le_bytes 8 manifest_len ++
  to_le_bytes 8 signature_offset ++ to_le_bytes 8 SIGNATURE_LEN ++ to_le_bytes 8 image_offset ++ to_le_bytes 8 image_len.

Definition build_opack (i : PackInput) : result PackError (list Z) :=
  let body := {| body_meta := {| mb_name := in_name i; mb_version := in_version i; mb_image_hash := blake3 (in_image i); mb_issuer_pubkey := in_issuer_pubkey i |};
                 body_capabilities := in_capabilities i; body_matchers := in_matchers i |} in
  manifest_pc ← ok_or (encode_manifest body) PostcardEncode;
  let manifest_len := Z.of_nat (length manifest_pc) in
  if OMNI_PACK_MAX_MANIFEST_BYTES <? manifest_len then Err (PeManifestTooLarge manifest_len) else
  let sig_bytes := sign (in_seed i) manifest_pc in
  signature_offset ← ok_or (checked_add64 OMNI_PACK_HEADER_LEN manifest_len) OffsetOverflow;
  image_offset ← ok_or (checked_add64 signature_offset SIGNATURE_LEN) OffsetOverflow;
  let image_len := Z.of_nat (length (in_image i)) in
  total_len ← ok_or (checked_add64 image_offset image_len) OffsetOverflow;
  if OMNI_PACK_MAX_BYTES <? total_len then Err (PePackTooLarge total_len) else
  Ok (opack_header manifest_len signature_offset image_offset image_len ++ manifest_pc ++ sig_bytes ++ in_image i).

(** The system call up to the start of the process: the errno, or the manifest and the image. *)
Context (domain_separated_hash : str -> list Z -> list Z).
Context (decode_canonical : list Z -> option CapabilityToken).

Definition manifest_errno (e : DriverManifestError) : Z :=
  match e with MalformedPack | PackTooLarge | ImageHashMismatch => EINVAL | UnknownIssuer | SignatureInvalid => EACCES end.

Definition admit_pack (pack : list Z) : result DriverManifestError (DriverManifest * list Z) :=
  sections ← decode_omni_pack pack;
  body ← postcard_decode_manifest (sec_manifest sections);
  let manifest := hydrate_manifest body (sec_signature sections) in
  _ ← verify_manifest manifest (sec_image sections);
  Ok (manifest, sec_image sections).

Definition driver_load_admit (e : SysEnv) (pack_ptr pack_len cap_ptr cap_len : Z) : run (result Z (DriverManifest * list Z)) :=
  if negb (token_range_ok cap_ptr cap_len) then Done (Err EFAULT) else
  if pack_ptr =? 0 then Done (Err EFAULT) else
  if (pack_len =? 0) || (OMNI_PACK_MAX_BYTES <? pack_len) then Done (Err EINVAL) else
  if negb (user_range_ok pack_ptr pack_len) then Done (Err EFAULT) else
  tok ← verify_token domain_separated_hash decode_canonical (se_user e cap_ptr cap_len) (se_now e);
  match tok with
  | Err errno => Done (Err errno)
  | Ok _ => Done (match admit_pack (se_user e pack_ptr pack_len) with Err x => Err (manifest_errno x) | Ok x => Ok x end)
  end.
End Pack.

(** ** Lemmas *)

Lemma slice_mid (l pre x post : list Z) off stop : l = pre ++ x ++ post -> off = Z.of_nat (length pre) -> stop = off + Z.of_nat (length x) -> slice_get l off stop = Some x.
Proof.
  intros -> -> ->. unfold slice_get. rewrite !length_app. rewrite (proj2 (Z.leb_le _ _)) by lia. rewrite (proj2 (Z.leb_le _ _)) by lia. cbn [andb].
  replace (Z.to_nat (Z.of_nat (length pre) + Z.of_nat (length x) - Z.of_nat (length pre))) with (length x) by lia. by rewrite Nat2Z.id, drop_app_length, take_app_length.
Qed.

Lemma read_u64_mid l pre x post off : l = pre ++ to_le_bytes 8 x ++ post -> off = Z.of_nat (length pre) -> is_u64 x -> pack_read_u64 l off = Ok x.
Proof.
  intros E Ho Hx. unfold pack_read_u64. rewrite (slice_mid l pre (to_le_bytes 8 x) post off (off + 8)) by (done || (rewrite to_le_bytes_length; lia)). cbn [option_map ok_or]. rewrite from_to_le_bytes.
  f_equal. apply Z.mod_small. exact Hx.
Qed.

Lemma read_u32_mid l pre x post off : l = pre ++ to_le_bytes 4 x ++ post -> off = Z.of_nat (length pre) -> is_u32 x -> pack_read_u32 l off = Ok x.
Proof.
  intros E Ho Hx. unfold pack_read_u32. rewrite (slice_mid l pre (to_le_bytes 4 x) post off (off + 4)) by (done || (rewrite to_le_bytes_length; lia)). cbn [option_map ok_or]. rewrite from_to_le_bytes.
  f_equal. apply Z.mod_small. exact Hx.
Qed.

Lemma opack_header_length a b c d : length (opack_header a b c d) = 64%nat.
Proof. unfold opack_header. rewrite !length_app, !to_le_bytes_length. reflexivity. Qed.

(** The sections of a blob in the tool's layout. *)
Lemma decode_opack (manifest sig image : list Z) : let ml := Z.of_nat (length manifest) in let il := Z.of_nat (length image) in
  Z.of_nat (length sig) = SIGNATURE_LEN -> ml <= OMNI_PACK_MAX_MANIFEST_BYTES -> 64 + ml + 64 + il <= OMNI_PACK_MAX_BYTES ->
  decode_omni_pack (opack_header ml (64 + ml) (64 + ml + 64) il ++ manifest ++ sig ++ image) = Ok {| sec_manifest := manifest; sec_signature := sig; sec_image := image |}.
Proof.
  intros ml il Hs Hm Ht. set (h := opack_header _ _ _ _). set (blob := h ++ _). assert (Z.of_nat (length blob) = 64 + ml + 64 + il) as Hlen.
  { unfold blob. rewrite !length_app. unfold h. rewrite opack_header_length. unfold SIGNATURE_LEN in *. lia. }
  unfold OMNI_PACK_MAX_BYTES, OMNI_PACK_MAX_MANIFEST_BYTES, SIGNATURE_LEN in *. assert (0 <= ml) by lia. assert (0 <= il) by lia.
  set (f1 := to_le_bytes 4 OMNI_PACK_VERSION). set (f2 := to_le_bytes 4 0). set (f3 := to_le_bytes 8 OMNI_PACK_HEADER_LEN). set (f4 := to_le_bytes 8 ml). set (f5 := to_le_bytes 8 (64 + ml)). set (f6 := to_le_bytes 8 SIGNATURE_LEN). set (f7 := to_le_bytes 8 (64 + ml + 64)). set (f8 := to_le_bytes 8 il).
  assert (blob = OMNI_PACK_MAGIC ++ f1 ++ f2 ++ f3 ++ f4 ++ f5 ++ f6 ++ f7 ++ f8 ++ manifest ++ sig ++ image) as Hb by (unfold blob, h, opack_header; by rewrite <- !app_assoc).
  unfold decode_omni_pack. rewrite Hlen. unfold OMNI_PACK_HEADER_LEN, OMNI_PACK_MAX_BYTES. rewrite (proj2 (Z.ltb_ge _ _)) by lia. rewrite (proj2 (Z.ltb_ge _ _)) by lia.
  rewrite (slice_mid blob [] OMNI_PACK_MAGIC _ 0 8 Hb eq_refl eq_refl). cbn [ok_or mbind result_bind]. assert (str_eqb OMNI_PACK_MAGIC OMNI_PACK_MAGIC = true) as -> by done. cbn [negb].
  rewrite (read_u32_mid blob OMNI_PACK_MAGIC OMNI_PACK_VERSION (f2 ++ f3 ++ f4 ++ f5 ++ f6 ++ f7 ++ f8 ++ manifest ++ sig ++ image) 8 Hb eq_refl) by (unfold is_u32, OMNI_PACK_VERSION; lia). cbn [mbind result_bind negb Z.eqb Pos.eqb OMNI_PACK_VERSION].
  rewrite (read_u32_mid blob (OMNI_PACK_MAGIC ++ f1) 0 (f3 ++ f4 ++ f5 ++ f6 ++ f7 ++ f8 ++ manifest ++ sig ++ image) 12) by (done || (unfold is_u32; lia) || (rewrite Hb; by rewrite <- !app_assoc)). cbn [mbind result_bind negb Z.eqb].
  rewrite (read_u64_mid blob (OMNI_PACK_MAGIC ++ f1 ++ f2) 64 (f4 ++ f5 ++ f6 ++ f7 ++ f8 ++ manifest ++ sig ++ image) 16) by (done || (unfold is_u64; lia) || (rewrite Hb; by rewrite <- !app_assoc)). cbn [mbind result_bind].
  rewrite (read_u64_mid blob (OMNI_PACK_MAGIC ++ f1 ++ f2 ++ f3) ml (f5 ++ f6 ++ f7 ++ f8 ++ manifest ++ sig ++ image) 24) by (done || (unfold is_u64; lia) || (rewrite Hb; by rewrite <- !app_assoc)). cbn [mbind result_bind].
  rewrite (read_u64_mid blob (OMNI_PACK_MAGIC ++ f1 ++ f2 ++ f3 ++ f4) (64 + ml) (f6 ++ f7 ++ f8 ++ manifest ++ sig ++ image) 32) by (done || (unfold is_u64; lia) || (rewrite Hb; by rewrite <- !app_assoc)). cbn [mbind result_bind].
  rewrite (read_u64_mid blob (OMNI_PACK_MAGIC ++ f1 ++ f2 ++ f3 ++ f4 ++ f5) 64 (f7 ++ f8 ++ manifest ++ sig ++ image) 40) by (done || (unfold is_u64; lia) || (rewrite Hb; by rewrite <- !app_assoc)). cbn [mbind result_bind].
  rewrite (read_u64_mid blob (OMNI_PACK_MAGIC ++ f1 ++ f2 ++ f3 ++ f4 ++ f5 ++ f6) (64 + ml + 64) (f8 ++ manifest ++ sig ++ image) 48) by (done || (unfold is_u64; lia) || (rewrite Hb; by rewrite <- !app_assoc)). cbn [mbind result_bind].
  rewrite (read_u64_mid blob (OMNI_PACK_MAGIC ++ f1 ++ f2 ++ f3 ++ f4 ++ f5 ++ f6 ++ f7) il (manifest ++ sig ++ image) 56) by (done || (unfold is_u64; lia) || (rewrite Hb; by rewrite <- !app_assoc)). cbn [mbind result_bind].
  unfold OMNI_PACK_MAX_MANIFEST_BYTES, SIGNATURE_LEN. rewrite (proj2 (Z.ltb_ge _ ml)) by lia. cbn [negb Z.eqb Pos.eqb]. unfold checked_section. rewrite !(proj2 (Z.ltb_ge (64 + ml + 64 + il) _)) by lia. cbn [mbind result_bind fst snd].
  rewrite !(proj2 (Z.ltb_ge _ 64)) by lia. cbn [orb]. unfold ranges_overlap. cbn [fst snd]. rewrite (proj2 (Z.ltb_ge (64 + ml) (64 + ml))) by lia. rewrite (proj2 (Z.ltb_ge (64 + ml + 64) (64 + ml))) by lia. rewrite (proj2 (Z.ltb_ge (64 + ml + 64) (64 + ml + 64))) by lia. rewrite !andb_false_r. cbn [orb].
  assert (length h = 64%nat) as Hh by apply opack_header_length.
  rewrite (slice_mid blob (h ++ manifest) sig image (64 + ml) (64 + ml + 64)) by (try (unfold blob; by rewrite <- app_assoc); rewrite ?length_app, ?Hh; lia). cbn [ok_or mbind result_bind].
  rewrite (slice_mid blob h manifest (sig ++ image) 64 (64 + ml)) by (try done; rewrite ?Hh; lia). cbn [ok_or mbind result_bind].
  rewrite (slice_mid blob (h ++ manifest ++ sig) image [] (64 + ml + 64) (64 + ml + 64 + il)) by (try (unfold blob; by rewrite app_nil_r, <- !app_assoc); rewrite ?length_app, ?Hh; lia). done.
Qed.

(** ** What an accepted blob is *)

Definition in_range (r : Z * Z) (k : Z) : Prop := fst r <= k < snd r.

(** Three stretches of the blob behind the header, no byte of it in two of them. *)
Record laid_out (pack : list Z) (s : OmniPackSections) (rm rs ri : Z * Z) : Prop := {
  lo_manifest : slice_get pack (fst rm) (snd rm) = Some (sec_manifest s);
  lo_signature : slice_get pack (fst rs) (snd rs) = Some (sec_signature s);
  lo_image : slice_get pack (fst ri) (snd ri) = Some (sec_image s);
  lo_header : OMNI_PACK_HEADER_LEN <= fst rm /\ OMNI_PACK_HEADER_LEN <= fst rs /\ OMNI_PACK_HEADER_LEN <= fst ri;
  lo_disjoint : forall k, ~ (in_range rm k /\ in_range rs k) /\ ~ (in_range rm k /\ in_range ri k) /\ ~ (in_range rs k /\ in_range ri k);
  lo_sizes : snd rm - fst rm <= OMNI_PACK_MAX_MANIFEST_BYTES /\ snd rs - fst rs = SIGNATURE_LEN;
}.

Lemma ranges_disjoint a b k : ranges_overlap a b = false -> ~ (in_range a k /\ in_range b k).
Proof. unfold ranges_overlap, in_range. rewrite andb_false_iff, !Z.ltb_ge. lia. Qed.

Lemma checked_section_ok off len n r : checked_section off len n = Ok r -> r = (off, off + len).
Proof. unfold checked_section. destruct (n <? off + len); [done|]. by intros [= <-]. Qed.

Lemma decode_laid_out pack s : decode_omni_pack pack = Ok s -> exists rm rs ri, laid_out pack s rm rs ri.
Proof.
  unfold decode_omni_pack. destruct (_ <? OMNI_PACK_HEADER_LEN); [done|]. destruct (OMNI_PACK_MAX_BYTES <? _); [done|]. destruct (slice_get pack 0 8) as [mg|]; cbn [ok_or mbind result_bind]; [|done]. destruct (str_eqb mg _); cbn [negb]; [|done].
  destruct (pack_read_u32 pack 8) as [v|]; cbn [mbind result_bind]; [|done]. destruct (v =? _); cbn [negb]; [|done]. destruct (pack_read_u32 pack 12) as [fl|]; cbn [mbind result_bind]; [|done]. destruct (fl =? 0); cbn [negb]; [|done].
  destruct (pack_read_u64 pack 0x10) as [mo|]; cbn [mbind result_bind]; [|done]. destruct (pack_read_u64 pack 0x18) as [ml|]; cbn [mbind result_bind]; [|done]. destruct (pack_read_u64 pack 0x20) as [so|]; cbn [mbind result_bind]; [|done].
  destruct (pack_read_u64 pack 0x28) as [sl|]; cbn [mbind result_bind]; [|done]. destruct (pack_read_u64 pack 0x30) as [io|]; cbn [mbind result_bind]; [|done]. destruct (pack_read_u64 pack 0x38) as [il|]; cbn [mbind result_bind]; [|done].
  destruct (Z.ltb_spec OMNI_PACK_MAX_MANIFEST_BYTES ml) as [|Hml]; [done|]. destruct (Z.eqb_spec sl SIGNATURE_LEN) as [Hsl|]; cbn [negb]; [|done].
  destruct (checked_section mo ml _) as [rm|] eqn:E1; cbn [mbind result_bind]; [|done]. destruct (checked_section so sl _) as [rs|] eqn:E2; cbn [mbind result_bind]; [|done]. destruct (checked_section io il _) as [ri|] eqn:E3; cbn [mbind result_bind]; [|done].
  destruct (_ || _) eqn:Eh; [done|]. apply orb_false_iff in Eh as [[Eh1 Eh2]%orb_false_iff Eh3]. destruct (_ || _) eqn:Eo; [done|]. apply orb_false_iff in Eo as [[Eo1 Eo2]%orb_false_iff Eo3].
  destruct (slice_get pack (fst rs) _) as [sg|] eqn:Es; cbn [ok_or mbind result_bind]; [|done]. destruct (slice_get pack (fst rm) _) as [mf|] eqn:Em; cbn [ok_or mbind result_bind]; [|done].
  destruct (slice_get pack (fst ri) _) as [im|] eqn:Ei; cbn [ok_or mbind result_bind]; [|done]. intros [= <-]. exists rm, rs, ri. apply Z.ltb_ge in Eh1, Eh2, Eh3. split; cbn [sec_manifest sec_signature sec_image]; try done.
  - intros k. split; [by apply ranges_disjoint|]. split; by apply ranges_disjoint.
  - apply checked_section_ok in E1 as ->, E2 as ->. cbn. lia.
Qed.

(** ** Theorems *)

Section PackTheorems.
Context `{PackEnv} `{SigningPrimitives}.
Context (domain_separated_hash : str -> list Z -> list Z).
Context (decode_canonical : list Z -> option CapabilityToken).

(** An image vouched for: its hash is in a manifest that a listed issuer signed. *)
Definition vouched (m : DriverManifest) (image : list Z) : Prop :=
  blake3 image = omni_image_hash (meta m) /\ omni_issuer_pubkey (meta m) ∈ map ki_key KNOWN_ISSUERS /\ verifying_key_valid (omni_issuer_pubkey (meta m)) = true /\
  exists enc, encode_manifest (manifest_body m) = Some enc /\ sig_verify (omni_issuer_pubkey (meta m)) enc (omni_signature (meta m)) = true.

Lemma lookup_issuer_spec k : is_Some (lookup_issuer k) <-> k ∈ map ki_key KNOWN_ISSUERS.
Proof.
  unfold lookup_issuer. rewrite list_elem_of_In, in_map_iff. split.
  - intros [i E]. apply find_some in E as [Hin E]. apply str_eqb_eq in E. by exists i.
  - intros (i & E & Hin). destruct (List.find _ _) eqn:Ef; [by eexists|]. pose proof (find_none _ _ Ef i Hin) as Hn. cbn in Hn. apply not_true_iff_false in Hn. destruct Hn. by apply str_eqb_eq.
Qed.

Lemma verify_manifest_spec m image : verify_manifest m image = Ok () <-> vouched m image.
Proof.
  unfold verify_manifest, vouched. rewrite <- str_eqb_eq, <- lookup_issuer_spec. destruct (str_eqb _ _); cbn [negb]; [|split; [done|by intros [? _]]].
  destruct (lookup_issuer _); [|split; [done|by intros (_ & [? ?] & _)]]. destruct (verifying_key_valid _); cbn [negb]; [|split; [done|by intros (_ & _ & ? & _)]].
  destruct (encode_manifest _) as [enc|]; cbn [ok_or mbind result_bind]; [|split; [done|by intros (_ & _ & _ & ? & ? & _)]]. destruct (sig_verify _ _ _) eqn:Ev.
  - split; [|done]. intros _. split; [done|]. split; [by eexists|]. split; [done|]. by exists enc.
  - split; [done|]. intros (_ & _ & _ & enc' & [= <-] & E). congruence.
Qed.

Definition load_ranges (pack_ptr pack_len cap_ptr cap_len : Z) : Prop :=
  token_range_ok cap_ptr cap_len = true /\ pack_ptr <> 0 /\ pack_len <> 0 /\ pack_len <= OMNI_PACK_MAX_BYTES /\ user_range_ok pack_ptr pack_len = true.

(** A token that permits loading a driver: its resource is [Any] itself. *)
Definition load_granted (bytes : list Z) (now : Z) : Prop := granted decode_canonical bytes now DriverLoad RAny.

Lemma verify_token_spec bytes now : (exists t, verify_token domain_separated_hash decode_canonical bytes now = Done (Ok t) /\ load_granted bytes now) \/
  (verify_token domain_separated_hash decode_canonical bytes now = Done (Err EACCES) /\ ~ load_granted bytes now).
Proof.
  unfold verify_token, load_granted, granted. destruct (decode_canonical bytes) as [t|]; [|right; split; [done|by intros (? & ? & _)]].
  destruct (verify_signed_token_spec domain_separated_hash provider_placeholder t now) as (v & -> & Hv). cbn [mbind run_bind]. destruct (bool_decide_reflect (v = Authorised)) as [Ha|Ha]; cbn [negb].
  2:{ right. split; [done|]. intros (t' & [= <-] & H1 & H2 & H3 & _). destruct Ha. by apply Hv. }
  apply Hv in Ha as (H1 & H2 & H3). destruct (bool_decide_reflect (action (tp_scope (payload t)) = DriverLoad)) as [Hact|Hact].
  - rewrite Hact. cbn [is_driver_framework_action negb]. destruct (bool_decide_reflect (resource (tp_scope (payload t)) = RAny)) as [Hr|Hr]; cbn [negb]; [left|right].
    + exists t. split; [done|]. exists t. split; [done|]. split; [done|]. split; [done|]. split; [done|]. split; [done|]. by rewrite Hr.
    + split; [done|]. intros (t' & [= <-] & _ & _ & _ & _ & Hs). destruct (resource (tp_scope (payload t))); done.
  - right. destruct (is_driver_framework_action _); cbn [negb]; (split; [done|]); by intros (t' & [= <-] & _ & _ & _ & ? & _).
Qed.

Lemma admit_pack_spec pack m image : admit_pack pack = Ok (m, image) ->
  exists s rm rs ri, laid_out pack s rm rs ri /\ sec_image s = image /\ sec_signature s = omni_signature (meta m) /\ decode_manifest (sec_manifest s) = Some (manifest_body m) /\ vouched m image.
Proof.
  unfold admit_pack. destruct (decode_omni_pack pack) as [s|] eqn:Ed; cbn [mbind result_bind]; [|done]. unfold postcard_decode_manifest. destruct (decode_manifest (sec_manifest s)) as [b|] eqn:Eb; cbn [ok_or mbind result_bind]; [|done].
  destruct (verify_manifest _ _) as [[]|] eqn:Ev; cbn [mbind result_bind]; [|done]. intros [= <- <-]. destruct (decode_laid_out pack s Ed) as (rm & rs & ri & Hl). exists s, rm, rs, ri. split; [done|]. split; [done|]. split; [done|].
  split; [rewrite Eb; by destruct b as [[] ? ?]|by apply verify_manifest_spec].
Qed.

(** The answer [r] to a request whose pointers satisfy [ranges], whose token satisfies [gate], for the blob [pack]. *)
Definition load_post (ranges gate : Prop) (pack : list Z) (r : result Z (DriverManifest * list Z)) : Prop :=
  (forall m image, r = Ok (m, image) -> ranges /\ gate /\
     exists s rm rs ri, laid_out pack s rm rs ri /\ sec_image s = image /\ sec_signature s = omni_signature (meta m) /\ decode_manifest (sec_manifest s) = Some (manifest_body m) /\ vouched m image) /\
  (ranges -> gate -> forall x, admit_pack pack = Ok x -> r = Ok x) /\
  (r = Err EACCES <-> ranges /\ (~ gate \/ gate /\ (admit_pack pack = Err UnknownIssuer \/ admit_pack pack = Err SignatureInvalid))) /\
  (~ ranges -> r = Err EFAULT \/ r = Err EINVAL).

Lemma load_bad (ranges gate : Prop) pack err : err = EFAULT \/ err = EINVAL -> ~ ranges -> exists r, Done (Err err) = Done r /\ load_post ranges gate pack r.
Proof. intros He Hn. eexists. split; [reflexivity|]. split; [done|]. split; [done|]. split; [split; [intros [= ->]; by destruct He|by intros [? _]]|]. intros _. destruct He as [-> | ->]; [by left|by right]. Qed.

(** C23: which driver images are admitted.  The call never panics.  It hands an image to the loader only if the pointers and sizes are in order, the presented token permits DriverLoad on Any, the blob is made of three disjoint stretches behind the header, the manifest is the decoding of the first, the signature the second and the image the third, the image hashes to the value in the manifest, and the manifest's issuer is on the kernel's list and signed exactly this manifest.  EFAULT and EINVAL for pointers and sizes come before anything is read, and EACCES means that the token, the issuer or the signature failed. *)
Theorem driver_load_exact (e : SysEnv) (pack_ptr pack_len cap_ptr cap_len : Z) :
  exists r, driver_load_admit domain_separated_hash decode_canonical e pack_ptr pack_len cap_ptr cap_len = Done r /\
    load_post (load_ranges pack_ptr pack_len cap_ptr cap_len) (load_granted (se_user e cap_ptr cap_len) (se_now e)) (se_user e pack_ptr pack_len) r.
Proof.
  unfold driver_load_admit. set (ranges := load_ranges _ _ _ _). set (gate := load_granted _ _). set (pack := se_user e pack_ptr pack_len).
  destruct (token_range_ok cap_ptr cap_len) eqn:E1; cbn [negb]; [|apply load_bad; [by left|intros (? & _); congruence]].
  destruct (Z.eqb_spec pack_ptr 0) as [E2|E2]; [apply load_bad; [by left|intros (_ & ? & _); done]|].
  destruct (Z.eqb_spec pack_len 0) as [E3|E3]; cbn [orb]; [apply load_bad; [by right|intros (_ & _ & ? & _); done]|].
  destruct (Z.ltb_spec OMNI_PACK_MAX_BYTES pack_len) as [E4|E4]; [apply load_bad; [by right|intros (_ & _ & _ & ? & _); lia]|].
  destruct (user_range_ok pack_ptr pack_len) eqn:E5; cbn [negb]; [|apply load_bad; [by left|intros (_ & _ & _ & _ & ?); congruence]]. assert ranges as Hr by done.
  destruct (verify_token_spec (se_user e cap_ptr cap_len) (se_now e)) as [(t & -> & Hg)|[-> Hg]]; fold gate in Hg; cbn [mbind run_bind]; (eexists; split; [reflexivity|]).
  2:{ split; [done|]. split; [done|]. split; [|done]. split; [intros _; split; [done|by left]|done]. }
  destruct (admit_pack pack) as [[m image]|err] eqn:Ep; (split; [|split; [|split; [|done]]]).
  - intros m' image' [= <- <-]. split; [done|]. split; [done|]. by apply admit_pack_spec.
  - intros _ _ x Hx. congruence.
  - split; [done|]. rewrite Ep. intros [_ [?|[_ [?|?]]]]; done.
  - done.
  - rewrite Ep. done.
  - rewrite Ep. split; [intros Ee; split; [done|]; right; split; [done|]; injection Ee as Ee; destruct err; try discriminate Ee; [by left|by right]|]. intros [_ [?|[_ [[= ->]|[= ->]]]]]; done.
Qed.

(** what the build tool writes the kernel admits: a blob built for a listed issuer with that issuer's key is taken apart into the manifest that was built, with its signature, and the very image that was packed. *)
Theorem pack_roundtrip {Hl : SigningLaws} {Hp : PackEnvLaws} (i : PackInput) (blob : list Z) : build_opack i = Ok blob -> in_issuer_pubkey i = verifying_key (in_seed i) -> in_issuer_pubkey i ∈ map ki_key KNOWN_ISSUERS ->
  Z.of_nat (length blob) <= OMNI_PACK_MAX_BYTES /\
  exists m, admit_pack blob = Ok (m, in_image i) /\ meta_name (meta m) = in_name i /\ meta_version (meta m) = in_version i /\ omni_issuer_pubkey (meta m) = in_issuer_pubkey i /\
    dm_capabilities m = in_capabilities i /\ dm_matchers m = in_matchers i.
Proof.
  unfold build_opack. set (body := Build_DriverManifestBody _ _ _). intros Hb Hk Hin. destruct (encode_manifest body) as [enc|] eqn:Ee; cbn [ok_or mbind result_bind] in Hb; [|done].
  destruct (Z.ltb_spec OMNI_PACK_MAX_MANIFEST_BYTES (Z.of_nat (length enc))) as [|Hm]; [done|]. unfold checked_add64 in Hb. destruct (Z.ltb_spec (OMNI_PACK_HEADER_LEN + Z.of_nat (length enc)) (2 ^ 64)); cbn [ok_or mbind result_bind] in Hb; [|done].
  destruct (_ <? 2 ^ 64); cbn [ok_or mbind result_bind] in Hb; [|done]. destruct (_ <? 2 ^ 64); cbn [ok_or mbind result_bind] in Hb; [|done].
  destruct (Z.ltb_spec OMNI_PACK_MAX_BYTES (OMNI_PACK_HEADER_LEN + Z.of_nat (length enc) + SIGNATURE_LEN + Z.of_nat (length (in_image i)))) as [|Ht]; [done|].
  apply (f_equal (fun r => match r with Ok x => x | Err _ => [] end)) in Hb. subst blob.
  pose proof (sign_length (in_seed i) enc) as Hs. split.
  { rewrite !length_app, opack_header_length. unfold OMNI_PACK_HEADER_LEN, OMNI_PACK_MAX_BYTES, SIGNATURE_LEN in *. lia. }
  exists (hydrate_manifest body (sign (in_seed i) enc)). split; [|done].
  unfold admit_pack. change OMNI_PACK_HEADER_LEN with 64 in *. change SIGNATURE_LEN with 64 in *. rewrite (decode_opack enc (sign (in_seed i) enc) (in_image i)) by done. cbn [mbind result_bind sec_manifest sec_signature sec_image].
  unfold postcard_decode_manifest. rewrite (decode_encode_manifest _ _ Ee). cbn [ok_or mbind result_bind]. rewrite (proj2 (verify_manifest_spec _ _)); [done|].
  split; [done|]. split; [done|]. split; [cbn; rewrite Hk; apply verifying_key_ok|]. exists enc. split; [done|]. cbn. rewrite Hk. apply sign_verifies.
Qed.
End PackTheorems.

(** ** Witness *)

#[global] Instance PciMatcher_eq_dec : EqDecision PciMatcher.
Proof. solve_decision. Defined.
#[global] Instance DriverMatchers_eq_dec : EqDecision DriverMatchers.
Proof. solve_decision. Defined.
#[global] Instance DriverCapabilities_eq_dec : EqDecision DriverCapabilities.
Proof. solve_decision. Defined.
#[global] Instance DriverMetaBody_eq_dec : EqDecision DriverMetaBody.
Proof. solve_decision. Defined.
#[global] Instance DriverManifestBody_eq_dec : EqDecision DriverManifestBody.
Proof. solve_decision. Defined.

Definition demo_issuer : list Z := match KNOWN_ISSUERS with i :: _ => ki_key i | [] => [] end.
Definition demo_pack_input : PackInput :=
  {| in_name := lit "nvme"%string; in_version := lit "0.1.0"%string; in_issuer_pubkey := demo_issuer; in_capabilities := demo_caps; in_matchers := {| pci_vendor_device := []; acpi_hid := [] |};
     in_image := [0x7F; 0x45; 0x4C; 0x46]; in_seed := demo_issuer |}.
Definition demo_pack_body : DriverManifestBody :=
  {| body_meta := {| mb_name := lit "nvme"%string; mb_version := lit "0.1.0"%string; mb_image_hash := [4]; mb_issuer_pubkey := demo_issuer |};
     body_capabilities := demo_caps; body_matchers := {| pci_vendor_device := []; acpi_hid := [] |} |}.

(** A toy hash and encoding, and signatures padded to 64 bytes. *)
Definition toy_pack : PackEnv :=
  {| blake3 := fun x => [Z.of_nat (length x)]; encode_manifest := fun b => if bool_decide (b = demo_pack_body) then Some [1; 2; 3] else None;
     decode_manifest := fun bs => if str_eqb bs [1; 2; 3] then Some demo_pack_body else None; verifying_key_valid := fun _ => true |}.
Definition toy_long_sign : SigningPrimitives :=
  {| encode_canonical := fun p => Some (tp_id p); sig_verify := fun pk msg sg => str_eqb sg (resize 64 0 (pk ++ msg)); sign := fun sk msg => resize 64 0 (sk ++ msg); verifying_key := fun sk => sk |}.

Lemma toy_pack_laws : @PackEnvLaws toy_pack toy_long_sign.
Proof.
  split.
  - intros b enc. cbn. case_bool_decide as E; [|done]. intros [= <-]. by rewrite E.
  - intros sk msg. cbn [sign toy_long_sign]. by rewrite length_resize.
  - done.
Qed.

Lemma toy_long_laws : @SigningLaws toy_long_sign.
Proof. split. intros sk msg. by apply str_eqb_eq. Qed.

Lemma pack_roundtrip_witness : exists blob m, @build_opack toy_pack toy_long_sign demo_pack_input = Ok blob /\ @admit_pack toy_pack toy_long_sign blob = Ok (m, [0x7F; 0x45; 0x4C; 0x46]).
Proof.
  assert (exists blob, @build_opack toy_pack toy_long_sign demo_pack_input = Ok blob) as (blob & Eb) by (vm_compute; by eexists).
  destruct (@pack_roundtrip toy_pack toy_long_sign toy_long_laws toy_pack_laws demo_pack_input blob Eb) as (_ & m & Hm & _).
  - reflexivity.
  - by left.
  - exists blob, m. split; [exact Eb|exact Hm].
Defined.
