(* ===== verification/ShellSys.v ===== *)
(** * System calls of the shell decade (syscall_handlers.rs, console_input.rs)

    [KernelState] puts the descriptor table, the pipe registry, the console
    input, the file system and the process table together; one handler per
    system call dispatches on what a descriptor names, calls the component and
    maps its errors to the numbers of [syscall_errno]. *)

From Stdlib Require Import ZArith Lia String.
From stdpp Require Import base numbers list gmap sorting.
From S2P Require Import Prelude Str Ipc Pipe Fd ProcTable Vfs DriverSys.

(** ** Error numbers (syscall.rs) *)

Definition ENOENT : Z := 2.
Definition ESRCH : Z := 3.
Definition EIO : Z := 5.
Definition EBADF : Z := 9.
Definition EEXIST : Z := 17.
Definition ESPIPE : Z := 29.
Definition EPIPE : Z := 32.
Definition ENOTEMPTY : Z := 39.

(** ** Console input (console_input.rs) *)

Definition CONSOLE_INPUT_CAPACITY : Z := 4096.
Record ConsoleInputBuffer := { ci_buffer : list Z; ci_capacity : Z }.
Definition console_new : ConsoleInputBuffer := {| ci_buffer := []; ci_capacity := CONSOLE_INPUT_CAPACITY |}.
Definition push_byte (b : Z) (c : ConsoleInputBuffer) : ConsoleInputBuffer :=
  let kept := if ci_capacity c <=? Z.of_nat (length (ci_buffer c)) then tail (ci_buffer c) else ci_buffer c in
  {| ci_buffer := kept ++ [b]; ci_capacity := ci_capacity c |}.
Definition NEWLINE : Z := 10.
Definition read_bytes (max_len : Z) (line_buffered : bool) (c : ConsoleInputBuffer) : list Z * ConsoleInputBuffer :=
  if (max_len =? 0) || bool_decide (ci_buffer c = []) then ([], c) else
  let available := Z.to_nat (Z.min (Z.of_nat (length (ci_buffer c))) max_len) in
  let to_drain := if line_buffered then match list_find (fun b => b = NEWLINE) (take available (ci_buffer c)) with Some (pos, _) => S pos | None => available end else available in
  (take to_drain (ci_buffer c), {| ci_buffer := drop to_drain (ci_buffer c); ci_capacity := ci_capacity c |}).
Definition has_line (c : ConsoleInputBuffer) : bool := existsb (fun b => b =? NEWLINE) (ci_buffer c).

(** ** Kernel state *)

Record KernelState := { fd_table : FileDescriptorTable; pipe_registry : PipeRegistry; console_input : ConsoleInputBuffer; vfs : InMemoryVfs; process_table : ProcessTable; current_task : Z }.

Definition set_fds (t : FileDescriptorTable) (s : KernelState) : KernelState :=
  {| fd_table := t; pipe_registry := pipe_registry s; console_input := console_input s; vfs := vfs s; process_table := process_table s; current_task := current_task s |}.
Definition set_pipes (r : PipeRegistry) (s : KernelState) : KernelState :=
  {| fd_table := fd_table s; pipe_registry := r; console_input := console_input s; vfs := vfs s; process_table := process_table s; current_task := current_task s |}.
Definition set_console (c : ConsoleInputBuffer) (s : KernelState) : KernelState :=
  {| fd_table := fd_table s; pipe_registry := pipe_registry s; console_input := c; vfs := vfs s; process_table := process_table s; current_task := current_task s |}.
Definition set_vfs (v : InMemoryVfs) (s : KernelState) : KernelState :=
  {| fd_table := fd_table s; pipe_registry := pipe_registry s; console_input := console_input s; vfs := v; process_table := process_table s; current_task := current_task s |}.
Definition set_procs (t : ProcessTable) (s : KernelState) : KernelState :=
  {| fd_table := fd_table s; pipe_registry := pipe_registry s; console_input := console_input s; vfs := vfs s; process_table := t; current_task := current_task s |}.

Definition new_for_test : KernelState :=
  {| fd_table := new_with_stdio; pipe_registry := pipe_registry_new; console_input := console_new; vfs := vfs_new;
     process_table := proc_register 1 None (lit "test"%string) proc_table_new; current_task := 1 |}.

(** [KernelState::resolve_path] *)
Definition ks_resolve (s : KernelState) (path : str) : str := normalize_path (default (lit "/"%string) (get_cwd (current_task s) (process_table s))) path.

(** ** Console and pipes *)

Definition handle_read_console (buf_capacity : Z) (s : KernelState) : SyscallReturn * KernelState :=
  let '(bytes, c) := read_bytes buf_capacity true (console_input s) in (sys_ok (Z.of_nat (length bytes)), set_console c s).

Definition handle_pipe_create (s : KernelState) : SyscallReturn * KernelState :=
  let '(pipe_id, reg) := pipe_create (pipe_registry s) in
  match fd_open {| fd_kind := FkPipe pipe_id true; fd_flags := fd_flags_default |} (fd_table s) with
  | (Err _, t) => (sys_err ENOSPC, set_fds t (set_pipes (snd (pipe_remove pipe_id reg)) s))
  | (Ok rfd, t) =>
      match fd_open {| fd_kind := FkPipe pipe_id false; fd_flags := fd_flags_default |} t with
      | (Err _, t) => (sys_err ENOSPC, set_fds (snd (fd_close rfd t)) (set_pipes (snd (pipe_remove pipe_id reg)) s))
      | (Ok wfd, t) => ({| rax := rfd; rdx := wfd |}, set_fds t (set_pipes reg s))
      end
  end.

(** ** Reading and writing *)

(** [registry.get_mut(id)], the ring being replaced. *)
Definition set_ring (id : Z) (p : PipeRing) (r : PipeRegistry) : PipeRegistry := {| pipes := <[id := p]> (pipes r); pipe_next_id := pipe_next_id r |}.

(** The offset of an open file is stored in its descriptor. *)
Definition with_offset (off : Z) (d : FileDescriptor) : FileDescriptor :=
  match fd_kind d with FkFsFile i _ fl => {| fd_kind := FkFsFile i off fl; fd_flags := fd_flags d |} | _ => d end.
Definition set_offset (fd off : Z) (s : KernelState) : KernelState := set_fds (snd (fd_get_mut fd (with_offset off) (fd_table s))) s.

(** In append mode a write starts at the end of the file. *)
Definition write_position (inode offset flags : Z) (v : InMemoryVfs) : Z :=
  if has_append flags then match file_size v inode with Ok n => n | Err _ => offset end else offset.

(** [vec![0u8; max]] panics beyond the largest length of a [Vec]. *)
Definition handle_fd_read (fd max_len : Z) (s : KernelState) : run (SyscallReturn * list Z * KernelState) :=
  match fd_get fd (fd_table s) with
  | None => Done (sys_err EBADF, [], s)
  | Some d =>
      match fd_kind d with
      | FkConsole readable _ =>
          if negb readable then Done (sys_err EBADF, [], s) else
          let '(bytes, c) := read_bytes max_len true (console_input s) in Done (sys_ok (Z.of_nat (length bytes)), bytes, set_console c s)
      | FkPipe pipe_id is_read_end =>
          if negb is_read_end then Done (sys_err EBADF, [], s) else
          match pipe_get pipe_id (pipe_registry s) with
          | None => Done (sys_err EBADF, [], s)
          | Some ring =>
              if ISIZE_MAX <? max_len then Panicked else
              match pipe_read (replicate (Z.to_nat max_len) 0) ring with
              | (Ok n, buf, ring) => Done (sys_ok n, take (Z.to_nat n) buf, set_pipes (set_ring pipe_id ring (pipe_registry s)) s)
              | (Err BrokenPipe, _, ring) => Done (sys_err EPIPE, [], set_pipes (set_ring pipe_id ring (pipe_registry s)) s)
              end
          end
      | FkFsFile inode offset _ =>
          match read_file inode offset max_len (vfs s) with
          | Ok bytes => Done (sys_ok (Z.of_nat (length bytes)), bytes, set_offset fd (saturating_add64 offset (Z.of_nat (length bytes))) s)
          | Err NotFound => Done (sys_err ENOENT, [], s)
          | Err _ => Done (sys_err EIO, [], s)
          end
      | FkIpcChannel _ => Done (sys_err ENOSYS, [], s)
      end
  end.

Definition handle_fd_write (fd : Z) (data : list Z) (s : KernelState) : run (SyscallReturn * KernelState) :=
  match fd_get fd (fd_table s) with
  | None => Done (sys_err EBADF, s)
  | Some d =>
      match fd_kind d with
      | FkConsole _ writable => Done (if negb writable then sys_err EBADF else sys_ok (Z.of_nat (length data)), s)
      | FkPipe pipe_id is_read_end =>
          if is_read_end then Done (sys_err EBADF, s) else
          match pipe_get pipe_id (pipe_registry s) with
          | None => Done (sys_err EBADF, s)
          | Some ring =>
              let '(r, ring) := pipe_write data ring in
              Done (match r with Ok n => sys_ok n | Err BrokenPipe => sys_err EPIPE end, set_pipes (set_ring pipe_id ring (pipe_registry s)) s)
          end
      | FkFsFile inode offset flags =>
          let write_offset := write_position inode offset flags (vfs s) in
          '(r, v) ← write_file inode write_offset data (vfs s);
          Done (match r with
                | Ok n => (sys_ok n, set_offset fd (saturating_add64 write_offset n) (set_vfs v s))
                | Err NotFound => (sys_err ENOENT, set_vfs v s)
                | Err _ => (sys_err EIO, set_vfs v s)
                end)
      | FkIpcChannel _ => Done (sys_err ENOSYS, s)
      end
  end.

(** ** Descriptors *)

(** The end of a pipe that a descriptor names is shut; the woken tasks are dropped. *)
Definition shut_pipe_end (k : FdKind) (s : KernelState) : KernelState :=
  match k with
  | FkPipe pipe_id is_read_end =>
      match pipe_get pipe_id (pipe_registry s) with
      | None => s
      | Some ring => set_pipes (set_ring pipe_id (snd (if is_read_end then pipe_close_read ring else pipe_close_write ring)) (pipe_registry s)) s
      end
  | _ => s
  end.

Definition handle_fd_close (fd : Z) (s : KernelState) : SyscallReturn * KernelState :=
  match fd_get fd (fd_table s) with
  | None => (sys_err EBADF, s)
  | Some d =>
      let s := shut_pipe_end (fd_kind d) s in
      let '(r, t) := fd_close fd (fd_table s) in
      (match r with Ok _ => sys_ok 0 | Err _ => sys_err EBADF end, set_fds t s)
  end.

Definition handle_fd_dup (fd : Z) (s : KernelState) : SyscallReturn * KernelState :=
  let '(r, t) := fd_dup fd (fd_table s) in (match r with Ok n => sys_ok n | Err _ => sys_err EBADF end, set_fds t s).

Definition handle_fd_dup2 (old_fd new_fd : Z) (s : KernelState) : SyscallReturn * KernelState :=
  let s := match fd_get new_fd (fd_table s) with Some existing => shut_pipe_end (fd_kind existing) s | None => s end in
  let '(r, t) := fd_dup2 old_fd new_fd (fd_table s) in (match r with Ok n => sys_ok n | Err _ => sys_err EBADF end, set_fds t s).

Definition I64_MAX : Z := 2 ^ 63 - 1.
Definition checked_add_i64 (a b : Z) : option Z := if (- 2 ^ 63 <=? a + b) && (a + b <=? I64_MAX) then Some (a + b) else None.
Definition u64_try_from (v : Z) : option Z := if v <? 0 then None else Some v.

Definition handle_fd_seek (fd offset whence : Z) (s : KernelState) : SyscallReturn * KernelState :=
  match fd_get fd (fd_table s) with
  | None => (sys_err EBADF, s)
  | Some d =>
      match fd_kind d with
      | FkFsFile inode current_offset _ =>
          let finish (new_offset : option Z) := match new_offset with Some pos => (sys_ok pos, set_offset fd pos s) | None => (sys_err EINVAL, s) end in
          if whence =? 0 then finish (if offset <? 0 then None else u64_try_from offset) else
          if whence =? 1 then finish (checked_add_i64 (Z.min current_offset I64_MAX) offset ≫= u64_try_from) else
          if whence =? 2 then
            match file_size (vfs s) inode with
            | Err _ => (sys_err EIO, s)
            | Ok file_size => finish (checked_add_i64 (Z.min file_size I64_MAX) offset ≫= u64_try_from)
            end
          else (sys_err EINVAL, s)
      | _ => (sys_err ESPIPE, s)
      end
  end.

(** ** Files and directories *)

Definition open_fd_for_inode (inode open_flags : Z) (s : KernelState) : SyscallReturn * KernelState :=
  let '(r, t) := fd_open {| fd_kind := FkFsFile inode 0 open_flags; fd_flags := fd_flags_default |} (fd_table s) in
  (match r with Ok fd => sys_ok fd | Err _ => sys_err ENOSPC end, set_fds t s).

Definition handle_fs_open (path : str) (flags : Z) (s : KernelState) : run (SyscallReturn * KernelState) :=
  let abs := ks_resolve s path in
  match vfs_stat (vfs s) abs with
  | Ok stat =>
      if bool_decide (st_type stat = Directory) && (is_writable flags || has_trunc flags) then Done (sys_err EINVAL, s) else
      if has_trunc flags && is_writable flags then
        '(_, v) ← vfs_delete abs (vfs s);
        '(r, v) ← create_file abs v;
        Done (match r with Ok new_inode => open_fd_for_inode new_inode flags (set_vfs v s) | Err _ => (sys_err EIO, set_vfs v s) end)
      else Done (open_fd_for_inode (st_inode stat) flags s)
  | Err NotFound =>
      if negb (has_create flags) then Done (sys_err ENOENT, s) else
      '(r, v) ← create_file abs (vfs s);
      let s := set_vfs v s in
      Done (match r with
            | Ok ino => open_fd_for_inode ino flags s
            | Err AlreadyExists => match vfs_stat v abs with Ok st => open_fd_for_inode (st_inode st) flags s | Err _ => (sys_err EIO, s) end
            | Err NotADirectory | Err InvalidPath => (sys_err EINVAL, s)
            | Err _ => (sys_err EIO, s)
            end)
  | Err NotADirectory => Done (sys_err EINVAL, s)
  | Err _ => Done (sys_err EIO, s)
  end.

Definition stat_type_byte (t : FileType) : Z := match t with RegularFile => 0 | Directory => 1 end.

Definition handle_fs_stat (path : str) (s : KernelState) : SyscallReturn * option (Z * Z * Z) :=
  match vfs_stat (vfs s) (ks_resolve s path) with
  | Ok stat => (sys_ok 0, Some (st_inode stat, st_size stat, stat_type_byte (st_type stat)))
  | Err NotFound => (sys_err ENOENT, None)
  | Err _ => (sys_err EIO, None)
  end.

Definition handle_fs_list_dir (path : str) (s : KernelState) : SyscallReturn * list str :=
  match list_directory (vfs s) (ks_resolve s path) with
  | Ok entries => (sys_ok (Z.of_nat (length entries)), map de_name entries)
  | Err NotFound => (sys_err ENOENT, [])
  | Err NotADirectory => (sys_err EINVAL, [])
  | Err _ => (sys_err EIO, [])
  end.

(** The errors of the two creating calls. *)
Definition create_errno (e : VfsError) : Z :=
  match e with AlreadyExists => EEXIST | NotFound => ENOENT | NotADirectory | InvalidPath => EINVAL | _ => EIO end.

Definition handle_fs_create (path : str) (s : KernelState) : run (SyscallReturn * KernelState) :=
  '(r, v) ← create_file (ks_resolve s path) (vfs s);
  Done (match r with Ok _ => sys_ok 0 | Err e => sys_err (create_errno e) end, set_vfs v s).

Definition handle_fs_mkdir (path : str) (s : KernelState) : run (SyscallReturn * KernelState) :=
  '(r, v) ← create_directory (ks_resolve s path) (vfs s);
  Done (match r with Ok _ => sys_ok 0 | Err e => sys_err (create_errno e) end, set_vfs v s).

Definition handle_fs_delete (path : str) (s : KernelState) : run (SyscallReturn * KernelState) :=
  '(r, v) ← vfs_delete (ks_resolve s path) (vfs s);
  Done (match r with Ok _ => sys_ok 0 | Err NotFound => sys_err ENOENT | Err NotEmpty => sys_err ENOTEMPTY | Err InvalidPath => sys_err EINVAL | Err _ => sys_err EIO end, set_vfs v s).

(** ** Processes *)

Definition handle_get_cwd (s : KernelState) : SyscallReturn * str :=
  let cwd := default (lit "/"%string) (get_cwd (current_task s) (process_table s)) in (sys_ok (Z.of_nat (length cwd)), cwd).

Definition handle_set_cwd (path : str) (s : KernelState) : SyscallReturn * KernelState :=
  let abs := ks_resolve s path in
  match vfs_stat (vfs s) abs with
  | Ok stat => if negb (bool_decide (st_type stat = Directory)) then (sys_err EINVAL, s) else (sys_ok 0, set_procs (snd (set_cwd (current_task s) abs (process_table s))) s)
  | Err NotFound => (sys_err ENOENT, s)
  | Err _ => (sys_err EIO, s)
  end.

(** [child_pid] is ignored, as is the flag. *)
Definition handle_process_wait (child_pid flags : Z) (s : KernelState) : SyscallReturn * KernelState :=
  let '(r, t) := reap_child (current_task s) (process_table s) in
  (match r with Some (child_id, exit_code) => {| rax := exit_code; rdx := child_id |} | None => {| rax := 0; rdx := 0 |} end, set_procs t s).

(** [ProcessTable::list]: a [BTreeMap] lists its values by key. *)
Definition pid_le (a b : Z * ProcessEntry) : Prop := fst a <= fst b.
#[global] Instance pid_le_dec a b : Decision (pid_le a b).
Proof. unfold pid_le. apply _. Defined.
Definition proc_list (t : ProcessTable) : list ProcessEntry := map snd (merge_sort pid_le (map_to_list (procs t))).

Definition handle_process_list (s : KernelState) : SyscallReturn * list (Z * str * bool) :=
  let es := map (fun e => (pe_id e, pe_name e, match pe_exit_code e with Some _ => true | None => false end)) (proc_list (process_table s)) in
  (sys_ok (Z.of_nat (length es)), es).

Definition handle_process_kill (target_pid : Z) (s : KernelState) : SyscallReturn * KernelState :=
  match proc_get target_pid (process_table s) with
  | None => (sys_err ESRCH, s)
  | Some _ => (sys_ok 0, set_procs (snd (record_exit target_pid 137 (process_table s))) s)
  end.

(** ** Sequences of calls *)

Inductive shell_call :=
| ScKey (b : Z) | ScReadConsole (n : Z) | ScPipe | ScRead (fd n : Z) | ScWrite (fd : Z) (data : list Z) | ScClose (fd : Z) | ScDup (fd : Z) | ScDup2 (old_fd new_fd : Z) | ScSeek (fd offset whence : Z)
| ScOpen (path : str) (flags : Z) | ScStat (path : str) | ScList (path : str) | ScCreate (path : str) | ScDelete (path : str) | ScMkdir (path : str)
| ScGetCwd | ScSetCwd (path : str) | ScWait (child flags : Z) | ScProcesses | ScKill (pid : Z).

Definition shell_step (c : shell_call) (s : KernelState) : run (SyscallReturn * KernelState) :=
  match c with
  | ScKey b => Done (sys_ok 0, set_console (push_byte b (console_input s)) s)
  | ScReadConsole n => Done (handle_read_console n s)
  | ScPipe => Done (handle_pipe_create s)
  | ScRead fd n => '(r, _, s) ← handle_fd_read fd n s; Done (r, s)
  | ScWrite fd data => handle_fd_write fd data s
  | ScClose fd => Done (handle_fd_close fd s)
  | ScDup fd => Done (handle_fd_dup fd s)
  | ScDup2 a b => Done (handle_fd_dup2 a b s)
  | ScSeek fd off w => Done (handle_fd_seek fd off w s)
  | ScOpen p fl => handle_fs_open p fl s
  | ScStat p => Done (fst (handle_fs_stat p s), s)
  | ScList p => Done (fst (handle_fs_list_dir p s), s)
  | ScCreate p => handle_fs_create p s
  | ScDelete p => handle_fs_delete p s
  | ScMkdir p => handle_fs_mkdir p s
  | ScGetCwd => Done (fst (handle_get_cwd s), s)
  | ScSetCwd p => Done (handle_set_cwd p s)
  | ScWait c f => Done (handle_process_wait c f s)
  | ScProcesses => Done (fst (handle_process_list s), s)
  | ScKill pid => Done (handle_process_kill pid s)
  end.

Fixpoint shell_calls (cs : list shell_call) (s : KernelState) : run (list SyscallReturn * KernelState) :=
  match cs with
  | [] => Done ([], s)
  | c :: cs => '(r, s) ← shell_step c s; '(rs, s) ← shell_calls cs s; Done (r :: rs, s)
  end.

(** Arguments as the registers deliver them. *)
Definition call_ok (c : shell_call) : Prop :=
  match c with
  | ScRead fd n => is_u32 fd /\ is_u64 n
  | ScWrite fd data => is_u32 fd /\ Z.of_nat (length data) <= ISIZE_MAX
  | ScDup2 a b => is_u32 a /\ is_u32 b
  | ScSeek fd off w => is_u32 fd /\ - 2 ^ 63 <= off < 2 ^ 63
  | _ => True
  end.

(** ** Well-formedness *)

Definition kind_ok (s : KernelState) (k : FdKind) : Prop :=
  match k with
  | FkPipe id _ => is_Some (pipes (pipe_registry s) !! id)
  | FkFsFile inode off _ => 1 <= inode < next_inode (vfs s) /\ is_u64 off
  | _ => True
  end.

Definition path_ok (p : str) : Prop := exists l, Forall valid_name l /\ p = match l with [] => lit "/"%string | _ => join_path l end.

Record ks_wf (s : KernelState) : Prop := {
  kw_fds : fd_wf (fd_table s);
  kw_kinds : forall fd d, entries (fd_table s) !! fd = Some d -> kind_ok s (fd_kind d);
  kw_pipes : pipe_registry_wf (pipe_registry s);
  kw_pipe_ids : forall id, is_Some (pipes (pipe_registry s) !! id) -> id < pipe_next_id (pipe_registry s);
  kw_console : Z.of_nat (length (ci_buffer (console_input s))) <= CONSOLE_INPUT_CAPACITY /\ ci_capacity (console_input s) = CONSOLE_INPUT_CAPACITY;
  kw_vfs : vfs_wf (vfs s);
  kw_inodes : forall id i, inodes (vfs s) !! id = Some i -> in_id i = id;
  kw_cwd : forall id e, procs (process_table s) !! id = Some e -> path_ok (pe_cwd e);
}.

(** The two requests that panic: a buffer, or a file, longer than a [Vec] can be. *)
Definition oversized (c : shell_call) (s : KernelState) : Prop :=
  match c with
  | ScRead fd n => ISIZE_MAX < n /\ exists id d, entries (fd_table s) !! fd = Some d /\ fd_kind d = FkPipe id true
  | ScWrite fd data => exists inode off fl d, entries (fd_table s) !! fd = Some d /\ fd_kind d = FkFsFile inode off fl /\ ISIZE_MAX < write_position inode off fl (vfs s) + Z.of_nat (length data)
  | _ => False
  end.

(** ** Lemmas on the components *)

Definition ids_ok (v : InMemoryVfs) : Prop := forall id i, inodes v !! id = Some i -> in_id i = id.

Lemma create_entry_ids path t v r v' : create_entry path t v = Done (r, v') -> ids_ok v ->
  ids_ok v' /\ (v' = v \/ next_inode v' = saturating_add64 (next_inode v) 1) /\ forall id, r = Ok id -> id = next_inode v /\ next_inode v' = saturating_add64 (next_inode v) 1.
Proof.
  unfold create_entry. destruct (resolve_parent v path) as [[[p n]|e]|]; cbn [mbind run_bind]; [|intros [= <- <-] Hids; split; [done|]; split; [by left|done]|done].
  destruct (inodes v !! p) as [pi|] eqn:Ep; [|intros [= <- <-] Hids; split; [done|]; split; [by left|done]]. case_bool_decide; [intros [= <- <-] Hids; split; [done|]; split; [by left|done]|].
  intros [= <- <-] Hids. split; [|split; [by right|by intros id [= <-]]]. intros id i. cbn [inodes]. rewrite lookup_alter_Some.
  intros [(<- & j & Hj & ->)|[_ Hi]]; [rewrite lookup_insert_Some in Hj|rewrite lookup_insert_Some in Hi]; [destruct Hj as [[<- <-]|[_ Hj]]; [done|exact (Hids _ _ Hj)]|destruct Hi as [[<- <-]|[_ Hi]]; [done|exact (Hids _ _ Hi)]].
Qed.

Lemma vfs_delete_ids path v r v' : vfs_delete path v = Done (r, v') -> ids_ok v -> ids_ok v'.
Proof.
  unfold vfs_delete. destruct (str_eqb _ _); [by intros [= <- <-]|]. destruct (resolve_path v _) as [tid|e]; [|by intros [= <- <-]]. destruct (inodes v !! tid) as [ti|]; [|by intros [= <- <-]].
  destruct (_ && _); [by intros [= <- <-]|]. destruct (in_parent ti) as [p|]; [|by intros [= <- <-]]. destruct (split_last _) as [[a n]|]; cbn [mbind run_bind]; [|done].
  intros [= <- <-] Hids id i. cbn [inodes]. rewrite lookup_delete_Some, lookup_alter_Some. intros [_ [(<- & j & Hj & ->)|[_ Hi]]]; [exact (Hids _ _ Hj)|exact (Hids _ _ Hi)].
Qed.

Lemma write_file_wf inode off data v : vfs_wf v -> ids_ok v -> 0 <= off ->
  (exists r v', write_file inode off data v = Done (r, v') /\ vfs_wf v' /\ ids_ok v' /\ next_inode v' = next_inode v /\ (forall n, r = Ok n -> n = Z.of_nat (length data))) \/
  (write_file inode off data v = Panicked /\ ISIZE_MAX < off + Z.of_nat (length data)).
Proof.
  intros Hwf Hids Ho. unfold write_file. destruct (inodes v !! inode) as [i|] eqn:Ei; [|left; by eexists _, _]. case_bool_decide as Hd; [left; by eexists _, _|].
  case_bool_decide as Hn; [left; eexists _, _; split; [reflexivity|]; split; [done|]; split; [done|]; split; [done|]; intros n [= <-]; by rewrite Hn|].
  destruct ((_ <? _) && (_ <? _)) eqn:Ep.
  - right. split; [done|]. apply andb_true_iff in Ep as [_ Ep]. apply Z.ltb_lt in Ep. unfold saturating_add64 in Ep. lia.
  - left. eexists _, _. split; [reflexivity|]. split; [|split; [|split; [done|by intros n [= <-]]]].
    + apply (written_wf v Hwf inode i); [done|]. destruct (in_type i); [done|by destruct Hd].
    + intros id j. cbn [inodes]. rewrite lookup_insert_Some. intros [[<- <-]|[_ Hj]]; [exact (Hids _ _ Ei)|exact (Hids _ _ Hj)].
Qed.

Lemma normalize_path_ok base path : path_ok (normalize_path base path).
Proof. exists (norm_stack (split_on SLASH (raw_path base path)) []). split; [|by unfold normalize_path; destruct (norm_stack _ _)]. apply norm_stack_valid; [|by apply Forall_nil]. apply split_on_no_sep. Qed.

Lemma read_bytes_len n lb c : (length (ci_buffer (snd (read_bytes n lb c))) <= length (ci_buffer c))%nat /\ ci_capacity (snd (read_bytes n lb c)) = ci_capacity c.
Proof. unfold read_bytes. destruct (_ || _); [done|]. cbn [snd ci_buffer ci_capacity]. rewrite length_drop. split; [lia|done]. Qed.

(** ** Each component may be replaced by a well-formed one *)

Lemma wf_fds s t : ks_wf s -> fd_wf t -> (forall fd d, entries t !! fd = Some d -> kind_ok s (fd_kind d)) -> ks_wf (set_fds t s).
Proof. intros [] Ht Hk. by split. Qed.

Lemma wf_console s c : ks_wf s -> Z.of_nat (length (ci_buffer c)) <= CONSOLE_INPUT_CAPACITY -> ci_capacity c = CONSOLE_INPUT_CAPACITY -> ks_wf (set_console c s).
Proof. intros [] Hl Hc. by split. Qed.

Lemma wf_vfs s v : ks_wf s -> vfs_wf v -> ids_ok v -> next_inode (vfs s) <= next_inode v -> ks_wf (set_vfs v s).
Proof. intros [K1 K2 K3 K4 K5 K6 K7 K8] Hv Hi Hn. split; try done. intros fd d Hd. specialize (K2 fd d Hd). unfold kind_ok in *. cbn [vfs set_vfs pipe_registry]. destruct (fd_kind d); try done. destruct K2. split; [lia|done]. Qed.

Lemma wf_procs s t : ks_wf s -> (forall id e, procs t !! id = Some e -> path_ok (pe_cwd e)) -> ks_wf (set_procs t s).
Proof. intros [] Ht. by split. Qed.

Lemma wf_ring s id p : ks_wf s -> is_Some (pipes (pipe_registry s) !! id) -> ring_wf p -> ks_wf (set_pipes (set_ring id p (pipe_registry s)) s).
Proof.
  intros [K1 K2 K3 K4 K5 K6 K7 K8] Hid Hp. assert (forall x, is_Some (<[id := p]> (pipes (pipe_registry s)) !! x) <-> is_Some (pipes (pipe_registry s) !! x)) as Hs.
  { intros x. rewrite lookup_insert_is_Some. split; [intros [<-|[_ ?]]; done|]. intros Hx. destruct (decide (id = x)); [by left|by right]. }
  split; try done.
  - intros fd d Hd. specialize (K2 fd d Hd). unfold kind_ok in *. destruct (fd_kind d); try done. by apply Hs.
  - split; [|apply K3]. intros x q. cbn. rewrite lookup_insert_Some. intros [[_ <-]|[_ Hq]]; [done|by apply (pg_rings _ K3 x)].
  - intros x Hx. by apply K4, Hs.
Qed.

Lemma wf_open s d : ks_wf s -> kind_ok s (fd_kind d) -> ks_wf (set_fds (snd (fd_open d (fd_table s))) s).
Proof.
  intros Hs Hk. apply wf_fds; [done|apply fd_open_wf, Hs|]. intros fd x. destruct (fd_open_cases d (fd_table s) (kw_fds _ Hs)) as [(n & -> & _)|[-> _]]; cbn [snd entries]; [|by apply Hs].
  rewrite lookup_insert_Some. intros [[_ <-]|[_ Hx]]; [done|by apply (kw_kinds _ Hs fd)].
Qed.

Lemma wf_offset s fd off : ks_wf s -> is_u64 off -> ks_wf (set_offset fd off s).
Proof.
  intros Hs Ho. unfold set_offset, fd_get_mut. destruct (entries (fd_table s) !! fd) as [d|] eqn:Ed; cbn [snd]; [|by destruct s].
  apply wf_fds; [done| |].
  - destruct (kw_fds _ Hs) as [F1 F2]. split; [done|]. intros x. cbn. rewrite lookup_insert_is_Some. intros [<-|[_ Hx]]; [by apply F2|by apply F2].
  - intros x y. cbn. rewrite lookup_insert_Some. intros [[_ <-]|[_ Hy]]; [|by apply (kw_kinds _ Hs x)]. pose proof (kw_kinds _ Hs fd d Ed) as Hk. unfold with_offset. destruct (fd_kind d) eqn:Ek; cbn [fd_kind]; try (by rewrite Ek). cbn in *. tauto.
Qed.

Lemma wf_shut s k : ks_wf s -> ks_wf (shut_pipe_end k s).
Proof.
  intros Hs. unfold shut_pipe_end. destruct k as [|id r| |]; try done. unfold pipe_get. destruct (pipes (pipe_registry s) !! id) as [p|] eqn:Ep; [|done]. apply wf_ring; [done|by eexists|].
  destruct (pg_rings _ (kw_pipes _ Hs) _ _ Ep) as [R1 R2]. destruct r; by split.
Qed.

Lemma shut_same s k : fd_table (shut_pipe_end k s) = fd_table s /\ vfs (shut_pipe_end k s) = vfs s /\ pipe_next_id (pipe_registry (shut_pipe_end k s)) = pipe_next_id (pipe_registry s).
Proof. unfold shut_pipe_end. destruct k; try done. by destruct (pipe_get _ _). Qed.

Lemma wf_open_inode s inode fl : ks_wf s -> 1 <= inode < next_inode (vfs s) -> ks_wf (snd (open_fd_for_inode inode fl s)).
Proof.
  intros Hs Hi. pose proof (wf_open s {| fd_kind := FkFsFile inode 0 fl; fd_flags := fd_flags_default |} Hs) as Ho. unfold open_fd_for_inode. destruct (fd_open _ _) as [r t]. cbn [snd] in *. apply Ho. cbn. unfold is_u64. lia.
Qed.

Lemma open_inode_same s inode fl : vfs (snd (open_fd_for_inode inode fl s)) = vfs s /\ pipe_registry (snd (open_fd_for_inode inode fl s)) = pipe_registry s.
Proof. unfold open_fd_for_inode. by destruct (fd_open _ _). Qed.

Lemma wf_pipe_create s : ks_wf s -> pipe_next_id (pipe_registry s) < u64_max -> ks_wf (snd (handle_pipe_create s)) /\
  vfs (snd (handle_pipe_create s)) = vfs s /\ pipe_next_id (pipe_registry (snd (handle_pipe_create s))) = pipe_next_id (pipe_registry s) + 1.
Proof.
  intros Hs Hmax. pose proof Hs as [K1 K2 K3 K4 K5 K6 K7 K8]. pose proof (pg_next _ K3) as Hn. unfold handle_pipe_create, pipe_create. set (id := pipe_next_id (pipe_registry s)) in *. assert (wrap64 (id + 1) = id + 1) as -> by (apply Z.mod_small; unfold u64_max in Hmax; lia).
  assert (pipes (pipe_registry s) !! id = None) as Hfresh by (destruct (pipes (pipe_registry s) !! id) eqn:E; [pose proof (K4 id (mk_is_Some _ _ E)); lia|done]).
  set (reg := {| pipes := _; pipe_next_id := _ |}).
  assert (ks_wf (set_pipes reg s)) as Hs1.
  { split; try done.
    - intros fd d Hd. specialize (K2 fd d Hd). unfold kind_ok in *. destruct (fd_kind d); try done. cbn. rewrite lookup_insert_is_Some. destruct (decide (id = pipe_id)); [by left|by right].
    - split; [|cbn; unfold u64_max in Hmax; lia]. intros x q. cbn. rewrite lookup_insert_Some. intros [[_ <-]|[_ Hq]]; [apply pipe_new_wf|by apply (pg_rings _ K3 x)].
    - intros x. cbn. rewrite lookup_insert_is_Some. intros [<-|[_ Hx]]; [lia|]. specialize (K4 x Hx). lia. }
  assert (ks_wf (set_pipes (snd (pipe_remove id reg)) s)) as Hs2.
  { split; try done; cbn [pipe_registry set_pipes pipe_remove snd pipes pipe_next_id reg]; rewrite ?delete_insert_id by done.
    - intros fd d Hd. specialize (K2 fd d Hd). unfold kind_ok in *. by destruct (fd_kind d).
    - split; [apply (pg_rings _ K3)|cbn; unfold u64_max in Hmax; lia].
    - intros x Hx. cbn in Hx. rewrite ?delete_insert_id in Hx by done. specialize (K4 x Hx). cbn. unfold id. lia. }
  assert (is_Some (pipes reg !! id)) as Hin by (cbn; rewrite lookup_insert_eq; by eexists).
  pose proof (wf_open (set_pipes reg s) {| fd_kind := FkPipe id true; fd_flags := fd_flags_default |} Hs1 Hin) as Hs3. cbn [fd_table set_pipes] in Hs3.
  destruct (fd_open_cases {| fd_kind := FkPipe id true; fd_flags := fd_flags_default |} (fd_table s) K1) as [(rfd & Er & _ & Hrn & _)|[-> _]]; [|by split; [destruct s|]].
  rewrite Er in *. cbn [snd] in Hs3. set (t1 := Build_FileDescriptorTable _ _) in *.
  pose proof (wf_open _ {| fd_kind := FkPipe id false; fd_flags := fd_flags_default |} Hs3 Hin) as Hs4. cbn [fd_table set_fds] in Hs4.
  destruct (fd_open_cases {| fd_kind := FkPipe id false; fd_flags := fd_flags_default |} t1 (kw_fds _ Hs3)) as [(wfd & Ew & _)|[-> _]]; [rewrite Ew in *; by split|].
  split; [|by split]. unfold fd_close. cbn [entries t1]. rewrite lookup_insert_eq. cbn [snd next_fd]. rewrite delete_insert_id by done. apply wf_fds; [done| |].
  - destruct (kw_fds _ Hs3) as [F1 _]. split; [exact F1|]. intros x Hx. cbn in Hx. by apply (fw_keys _ K1).
  - intros x y Hy. cbn in Hy. by apply (kw_kinds _ Hs2 x).
Qed.

(** ** One call *)

Definition advances (s s' : KernelState) : Prop :=
  ks_wf s' /\ next_inode (vfs s) <= next_inode (vfs s') <= next_inode (vfs s) + 1 /\ pipe_next_id (pipe_registry s') <= pipe_next_id (pipe_registry s) + 1.

Lemma advances_same s s' : ks_wf s' -> vfs s' = vfs s -> pipe_next_id (pipe_registry s') = pipe_next_id (pipe_registry s) -> advances s s'.
Proof. intros Hw Hv Hp. unfold advances. rewrite Hv, Hp. split; [done|lia]. Qed.

Lemma create_advances path t s : ks_wf s -> next_inode (vfs s) < u64_max -> exists r v, create_entry path t (vfs s) = Done (r, v) /\ advances s (set_vfs v s) /\ forall id, r = Ok id -> 1 <= id < next_inode v.
Proof.
  intros Hs Hm. destruct (create_refines path t (vfs s) (kw_vfs _ Hs) Hm) as (r & v & E & Hv & Hle & _). exists r, v. split; [done|].
  destruct (create_entry_ids _ _ _ _ _ E (kw_inodes _ Hs)) as (Hi & Hor & Hid). unfold saturating_add64, u64_max in *.
  assert (next_inode (vfs s) <= next_inode v) by (destruct Hor as [->| ->]; lia). split.
  - split; [by apply wf_vfs|]. cbn. lia.
  - intros id ->. destruct (Hid id eq_refl) as [-> ->]. assert (1 <= next_inode (vfs s)); [|lia]. destruct (vw_root _ (kw_vfs _ Hs)) as (rt & Hrt & _). pose proof (vw_next _ (kw_vfs _ Hs) 1 (mk_is_Some _ _ Hrt)). lia.
Qed.

Lemma delete_advances path s : ks_wf s -> exists r v, vfs_delete path (vfs s) = Done (r, v) /\ ks_wf (set_vfs v s) /\ next_inode v = next_inode (vfs s).
Proof.
  intros Hs. destruct (delete_refines path (vfs s) (kw_vfs _ Hs)) as (r & v & E & Hv & Hn & _). exists r, v. split; [done|]. split; [|done]. apply wf_vfs; [done|done|exact (vfs_delete_ids _ _ _ _ E (kw_inodes _ Hs))|lia].
Qed.

Lemma stat_inode s path st : ks_wf s -> vfs_stat (vfs s) path = Ok st -> 1 <= st_inode st < next_inode (vfs s).
Proof.
  intros Hs. unfold vfs_stat. destruct (resolve_path (vfs s) path) as [id|]; cbn [mbind result_bind]; [|done]. destruct (inodes (vfs s) !! id) as [i|] eqn:Ei; [|done]. intros [= <-]. cbn. rewrite (kw_inodes _ Hs _ _ Ei). apply (vw_next _ (kw_vfs _ Hs)). by eexists.
Qed.

Lemma open_inode_advances inode fl s s0 : advances s0 s -> 1 <= inode < next_inode (vfs s) -> advances s0 (snd (open_fd_for_inode inode fl s)).
Proof. intros (Hw & H1 & H2) Hi. split; [by apply wf_open_inode|]. destruct (open_inode_same s inode fl) as [-> ->]. done. Qed.

Lemma fs_open_advances path fl s : ks_wf s -> next_inode (vfs s) < u64_max -> exists r s', handle_fs_open path fl s = Done (r, s') /\ advances s s'.
Proof.
  intros Hs Hm. unfold handle_fs_open. set (abs := ks_resolve s path). assert (advances s s) as Hsame by (by apply advances_same). destruct (vfs_stat (vfs s) abs) as [st|err] eqn:Est.
  - destruct (_ && _); [by eexists _, _|]. destruct (has_trunc fl && is_writable fl).
    + destruct (delete_advances abs s Hs) as (rd & v1 & -> & Hs1 & Hn1). cbn [mbind run_bind]. destruct (create_advances abs RegularFile (set_vfs v1 s) Hs1 ltac:(cbn; lia)) as (rc & v2 & Ec & Ha & Hid). cbn [vfs set_vfs] in Ec. unfold create_file. rewrite Ec. cbn [mbind run_bind].
      assert (advances s (set_vfs v2 s)) as Ha2 by (destruct Ha as (A1 & A2 & A3); split; [exact A1|]; cbn in *; rewrite Hn1 in A2; done).
      eexists _, _. split; [apply f_equal, surjective_pairing|]. destruct rc as [ino|]; [|done]. apply open_inode_advances; [done|by apply Hid].
    + eexists _, _. split; [apply f_equal, surjective_pairing|]. apply open_inode_advances; [done|by apply (stat_inode s abs)].
  - destruct err; try (by eexists _, _). destruct (has_create fl); cbn [negb]; [|by eexists _, _].
    destruct (create_advances abs RegularFile s Hs Hm) as (rc & v2 & Ec & Ha & Hid). unfold create_file. rewrite Ec. cbn [mbind run_bind]. eexists _, _. split; [apply f_equal, surjective_pairing|].
    destruct rc as [ino|[]]; try done; [apply open_inode_advances; [done|by apply Hid]|]. destruct (vfs_stat v2 abs) as [st|] eqn:E2; [|done]. apply open_inode_advances; [done|]. apply (stat_inode (set_vfs v2 s) abs); [apply Ha|done].
Qed.

Lemma fd_read_advances fd n s : ks_wf s -> is_u64 n -> (exists r bs s', handle_fd_read fd n s = Done (r, bs, s') /\ advances s s') \/ (handle_fd_read fd n s = Panicked /\ oversized (ScRead fd n) s).
Proof.
  intros Hs Hn. assert (advances s s) as Hsame by (by apply advances_same). unfold handle_fd_read, fd_get. destruct (entries (fd_table s) !! fd) as [d|] eqn:Ed; [|left; by eexists _, _, _]. pose proof (kw_kinds _ Hs fd d Ed) as Hk.
  destruct (fd_kind d) as [rd wr|id re|inode off fl|ch] eqn:Ek; [| | |left; by eexists _, _, _].
  - destruct rd; cbn [negb]; [|left; by eexists _, _, _]. left. pose proof (read_bytes_len n true (console_input s)) as [Hl Hc]. destruct (read_bytes n true (console_input s)) as [bs c]. cbn [snd] in *. eexists _, _, _. split; [reflexivity|].
    destruct (kw_console _ Hs). apply advances_same; [|done|done]. apply wf_console; [done|lia|congruence].
  - destruct re; cbn [negb]; [|left; by eexists _, _, _]. unfold pipe_get. destruct (pipes (pipe_registry s) !! id) as [p|] eqn:Ep; [|left; by eexists _, _, _]. destruct (Z.ltb_spec ISIZE_MAX n) as [Hbig|Hsm]; [right; split; [done|]; split; [done|]; by exists id, d|].
    left. rewrite pipe_read_spec. eexists _, _, _. split; [reflexivity|]. apply advances_same; [|done|done]. apply wf_ring; [done|by eexists|]. destruct (pg_rings _ (kw_pipes _ Hs) _ _ Ep) as [R1 R2]. split; [done|].
    unfold pipe_len in *. cbn [pr_buffer set_buffer]. rewrite length_drop. lia.
  - left. destruct (read_file inode off n (vfs s)) as [bs|[]]; try (by eexists _, _, _). eexists _, _, _. split; [reflexivity|]. apply advances_same; [|done|done]. apply wf_offset; [done|]. destruct Hk as [_ Hk]. unfold is_u64, saturating_add64, u64_max in *. lia.
Qed.

Lemma write_position_nonneg inode off fl v : 0 <= off -> 0 <= write_position inode off fl v.
Proof. intros Ho. unfold write_position, file_size. destruct (has_append fl); [|done]. destruct (inodes v !! inode); [|done]. case_bool_decide; [done|]. lia. Qed.

Lemma fd_write_advances fd data s : ks_wf s -> (exists r s', handle_fd_write fd data s = Done (r, s') /\ advances s s') \/ (handle_fd_write fd data s = Panicked /\ oversized (ScWrite fd data) s).
Proof.
  intros Hs. assert (advances s s) as Hsame by (by apply advances_same). unfold handle_fd_write, fd_get. destruct (entries (fd_table s) !! fd) as [d|] eqn:Ed; [|left; by eexists _, _]. pose proof (kw_kinds _ Hs fd d Ed) as Hk.
  destruct (fd_kind d) as [rd wr|id re|inode off fl|ch] eqn:Ek; [left; by eexists _, _| | |left; by eexists _, _].
  - destruct re; [left; by eexists _, _|]. unfold pipe_get. destruct (pipes (pipe_registry s) !! id) as [p|] eqn:Ep; [|left; by eexists _, _]. left. pose proof (ring_step_spec (RWrite data) p (pg_rings _ (kw_pipes _ Hs) _ _ Ep)) as [Hr _].
    cbn [ring_step] in Hr. destruct (pipe_write data p) as [r q] eqn:Ew. eexists _, _. split; [reflexivity|]. apply advances_same; [|done|done]. apply wf_ring; [done|by eexists|].
    destruct (pg_rings _ (kw_pipes _ Hs) _ _ Ep). rewrite pipe_write_spec in Ew by done. by destruct (pr_read_end_open p); injection Ew as <- <-.
  - destruct Hk as [_ Hk]. pose proof (write_position_nonneg inode off fl (vfs s) ltac:(unfold is_u64 in Hk; lia)) as Hw. set (w := write_position _ _ _ _) in *.
    destruct (write_file_wf inode w data (vfs s) (kw_vfs _ Hs) (kw_inodes _ Hs) Hw) as [(r & v & -> & Hv & Hi & Hnx & Hr)|[-> Hbig]]; cbn [mbind run_bind]; [left|right; split; [done|]; by exists inode, off, fl, d].
    assert (ks_wf (set_vfs v s)) as Hs1 by (apply wf_vfs; [done|done|done|lia]). assert (advances s (set_vfs v s)) as Ha by (split; [done|]; cbn; lia). eexists _, _. split; [apply f_equal, surjective_pairing|].
    destruct r as [n|[]]; try done. rewrite (Hr n eq_refl). destruct Ha as (_ & A2 & A3). split; [apply wf_offset; [done|]|done]. unfold is_u64, saturating_add64, u64_max. lia.
Qed.

Lemma seek_advances fd off w s : ks_wf s -> - 2 ^ 63 <= off < 2 ^ 63 -> advances s (snd (handle_fd_seek fd off w s)).
Proof.
  intros Hs Ho. assert (advances s s) as Hsame by (by apply advances_same). unfold handle_fd_seek, fd_get. destruct (entries (fd_table s) !! fd) as [d|] eqn:Ed; [|done].
  destruct (fd_kind d) as [|id re|inode cur fl|]; try done.
  assert (forall o, (forall x, o = Some x -> is_u64 x) -> advances s (snd (match o with Some pos => (sys_ok pos, set_offset fd pos s) | None => (sys_err EINVAL, s) end))) as Hfin.
  { intros [x|] Hx; [|done]. apply advances_same; [apply wf_offset; [done|by apply Hx]|done|done]. }
  assert (forall a x, checked_add_i64 a off ≫= u64_try_from = Some x -> is_u64 x) as Hadd.
  { intros a x. unfold checked_add_i64, u64_try_from, I64_MAX. destruct (_ && _) eqn:E; cbn; [|done]. apply andb_true_iff in E as [_ E]. apply Z.leb_le in E. destruct (Z.ltb_spec (a + off) 0); [done|]. intros [= <-]. unfold is_u64. lia. }
  destruct (w =? 0); [apply Hfin; intros x; unfold u64_try_from; destruct (Z.ltb_spec off 0); [done|]; intros [= <-]; unfold is_u64; lia|]. destruct (w =? 1); [apply Hfin, Hadd|]. destruct (w =? 2); [|done].
  destruct (file_size (vfs s) inode); [apply Hfin, Hadd|done].
Qed.

Lemma close_advances fd s : ks_wf s -> advances s (snd (handle_fd_close fd s)).
Proof.
  intros Hs. unfold handle_fd_close, fd_get. destruct (entries (fd_table s) !! fd) as [d|] eqn:Ed; [|by apply advances_same]. pose proof (wf_shut s (fd_kind d) Hs) as Hs1. destruct (shut_same s (fd_kind d)) as (E1 & E2 & E3).
  set (s1 := shut_pipe_end _ _) in *. unfold fd_close. rewrite E1, Ed. cbn [snd]. apply advances_same; [|done|done]. pose proof (fd_step_wf (FClose fd) (fd_table s1) I (kw_fds _ Hs1)) as Hf. cbn [fd_step snd] in Hf. unfold fd_close in Hf. rewrite E1, Ed in Hf.
  apply wf_fds; [done|exact Hf|]. intros x y. cbn. intros [_ Hy]%lookup_delete_Some. apply (kw_kinds _ Hs1 x). by rewrite E1.
Qed.

Lemma dup2_advances a b s : ks_wf s -> is_u32 b -> advances s (snd (handle_fd_dup2 a b s)).
Proof.
  intros Hs Hb. unfold handle_fd_dup2. set (s1 := match fd_get b (fd_table s) with Some e => shut_pipe_end (fd_kind e) s | None => s end).
  assert (ks_wf s1 /\ vfs s1 = vfs s /\ pipe_next_id (pipe_registry s1) = pipe_next_id (pipe_registry s)) as (Hs1 & E2 & E3) by (unfold s1; destruct (fd_get b (fd_table s)); [split; [by apply wf_shut|]; by destruct (shut_same s (fd_kind f)) as (_ & ? & ?)|done]).
  pose proof (fd_step_wf (FDup2 a b) (fd_table s1) Hb (kw_fds _ Hs1)) as Hf. cbn [fd_step snd] in Hf. destruct (fd_dup2 a b (fd_table s1)) as [r t] eqn:Et. cbn [snd] in *. apply advances_same; [|done|done]. apply wf_fds; [done|done|].
  unfold fd_dup2 in Et. destruct (a =? b); [injection Et as <- <-; apply Hs1|]. destruct (entries (fd_table s1) !! a) as [d|] eqn:Ea; [|injection Et as <- <-; apply Hs1]. injection Et as <- <-.
  intros x y. cbn. rewrite lookup_insert_Some. intros [[_ <-]|[_ [_ Hy]%lookup_delete_Some]]; [exact (kw_kinds _ Hs1 a d Ea)|exact (kw_kinds _ Hs1 x y Hy)].
Qed.

Lemma dup_advances fd s : ks_wf s -> advances s (snd (handle_fd_dup fd s)).
Proof.
  intros Hs. unfold handle_fd_dup, fd_dup. destruct (entries (fd_table s) !! fd) as [d|] eqn:Ed; [|by destruct s; apply advances_same].
  pose proof (wf_open s {| fd_kind := fd_kind d; fd_flags := fd_flags_default |} Hs (kw_kinds _ Hs fd d Ed)) as Ho. destruct (fd_open _ _) as [r t]. by apply advances_same.
Qed.

(** The process calls keep every working directory a normalised path. *)
Lemma procs_cwd (m m' : gmap Z ProcessEntry) : (forall id e, m !! id = Some e -> path_ok (pe_cwd e)) -> (forall id e, m' !! id = Some e -> exists id' e', m !! id' = Some e' /\ pe_cwd e = pe_cwd e') -> forall id e, m' !! id = Some e -> path_ok (pe_cwd e).
Proof. intros Hm Hm' id e He. destruct (Hm' id e He) as (id' & e' & H' & ->). by eapply Hm. Qed.

Lemma proc_calls_advance s c : ks_wf s -> match c with ScSetCwd _ | ScWait _ _ | ScKill _ => True | _ => False end -> exists r s', shell_step c s = Done (r, s') /\ advances s s'.
Proof.
  intros Hs Hc. destruct c; try done; cbn [shell_step]; (eexists _, _; split; [apply f_equal, surjective_pairing|]); assert (advances s s) as Hsame by (by apply advances_same).
  - unfold handle_set_cwd. destruct (vfs_stat _ _) as [st|[]]; try done. destruct (negb _); [done|]. apply advances_same; [|done|done]. apply wf_procs; [done|]. unfold set_cwd. destruct (procs (process_table s) !! current_task s) as [e|] eqn:Ee; cbn [snd]; [|apply Hs].
    intros id x. cbn. rewrite lookup_insert_Some. intros [[_ <-]|[_ Hx]]; [apply normalize_path_ok|by apply (kw_cwd _ Hs id)].
  - unfold handle_process_wait, reap_child. destruct (procs (process_table s) !! current_task s) as [pe|] eqn:Ee; [|by destruct s]. destruct (first_exited _ _) as [[ch code]|]; [|by destruct s]. apply advances_same; [|done|done]. apply wf_procs; [done|]. cbn [snd procs].
    apply (procs_cwd (procs (process_table s))); [apply Hs|]. intros id e. cbn. rewrite lookup_alter_Some. intros [(<- & j & [_ Hj]%lookup_delete_Some & ->)|[_ [_ He]%lookup_delete_Some]]; eexists _, _; split; try done; exact Hj || exact He.
  - unfold handle_process_kill, proc_get. destruct (procs (process_table s) !! pid) as [e|] eqn:Ee; [|done]. apply advances_same; [|done|done]. apply wf_procs; [done|]. unfold record_exit. rewrite Ee. cbn [snd procs]. apply (procs_cwd (procs (process_table s))); [apply Hs|].
    intros id x. rewrite lookup_insert_Some. intros [[_ <-]|[_ Hx]]; eexists _, _; split; try done; exact Ee || exact Hx.
Qed.

Lemma shell_step_wf c s : ks_wf s -> call_ok c -> next_inode (vfs s) < u64_max -> pipe_next_id (pipe_registry s) < u64_max ->
  (exists r s', shell_step c s = Done (r, s') /\ advances s s') \/ (shell_step c s = Panicked /\ oversized c s).
Proof.
  intros Hs Hc Hm Hp. assert (advances s s) as Hsame by (by apply advances_same). assert (forall (x : SyscallReturn * KernelState), advances s (snd x) -> (exists r s', Done x = Done (r, s') /\ advances s s') \/ (Done x = Panicked /\ oversized c s)) as Hpure by (intros [r s'] Ha; left; by exists r, s').
  destruct c; cbn [shell_step call_ok] in *; try (by apply Hpure).
  - apply Hpure, advances_same; [|done|done]. destruct (kw_console _ Hs) as [C1 C2]. unfold CONSOLE_INPUT_CAPACITY in *. apply wf_console; [done| |done]. unfold push_byte. cbn [ci_buffer]. rewrite C2, length_app. cbn [length]. unfold CONSOLE_INPUT_CAPACITY.
    destruct (Z.leb_spec 4096 (Z.of_nat (length (ci_buffer (console_input s))))); [|lia]. destruct (ci_buffer (console_input s)); cbn [tail length] in *; lia.
  - apply Hpure. unfold handle_read_console. pose proof (read_bytes_len n true (console_input s)) as [Hl Hcap]. destruct (read_bytes _ _ _) as [bs c]. cbn [snd] in *. destruct (kw_console _ Hs). apply advances_same; [|done|done]. apply wf_console; [done|lia|congruence].
  - apply Hpure. destruct (wf_pipe_create s Hs Hp) as (A1 & A2 & A3). split; [done|]. rewrite A2, A3. lia.
  - destruct Hc as [_ Hn]. destruct (fd_read_advances fd n s Hs Hn) as [(r & bs & s' & -> & Ha)|[-> Ho]]; cbn [mbind run_bind]; [left; by eexists _, _|by right].
  - by apply fd_write_advances.
  - by apply Hpure, close_advances.
  - by apply Hpure, dup_advances.
  - apply Hpure, dup2_advances; [done|apply Hc].
  - apply Hpure, seek_advances; [done|apply Hc].
  - left. by apply fs_open_advances.
  - left. unfold handle_fs_create, create_file. destruct (create_advances (ks_resolve s path) RegularFile s Hs Hm) as (r & v & -> & Ha & _). cbn [mbind run_bind]. by eexists _, _.
  - left. unfold handle_fs_delete. destruct (delete_advances (ks_resolve s path) s Hs) as (r & v & -> & Hw & Hn). cbn [mbind run_bind]. eexists _, _. split; [reflexivity|]. split; [done|]. cbn. lia.
  - left. unfold handle_fs_mkdir, create_directory. destruct (create_advances (ks_resolve s path) Directory s Hs Hm) as (r & v & -> & Ha & _). cbn [mbind run_bind]. by eexists _, _.
  - left. by apply (proc_calls_advance s (ScSetCwd path)).
  - left. by apply (proc_calls_advance s (ScWait child flags)).
  - left. by apply (proc_calls_advance s (ScKill pid)).
Qed.

Lemma new_for_test_wf : ks_wf new_for_test.
Proof.
  split.
  - split; [cbn; unfold is_u32; lia|]. intros fd. cbn. rewrite !lookup_insert_is_Some. unfold is_u32. intros [<-|[_ [<-|[_ [<-|[_ [? H]]]]]]]; [lia|lia|lia|by rewrite lookup_empty in H].
  - intros fd d. cbn. rewrite !lookup_insert_Some, lookup_empty. intros [[_ <-]|[_ [[_ <-]|[_ [[_ <-]|[_ ?]]]]]]; done.
  - split; [|cbn; lia]. intros id p. cbn. by rewrite lookup_empty.
  - intros id [p Hp]. cbn in Hp. by rewrite lookup_empty in Hp.
  - cbn. unfold CONSOLE_INPUT_CAPACITY. lia.
  - apply vfs_new_wf.
  - intros id i Hi. cbn in Hi. apply lookup_insert_Some in Hi as [[<- <-]|[_ Hi]]; [done|by rewrite lookup_empty in Hi].
  - intros id e. cbn. rewrite lookup_insert_Some, lookup_empty. intros [[_ <-]|[_ ?]]; [|done]. exists []. split; [by apply Forall_nil|done].
Qed.

Lemma shell_calls_wf cs s : ks_wf s -> Forall call_ok cs -> next_inode (vfs s) + Z.of_nat (length cs) < u64_max -> pipe_next_id (pipe_registry s) + Z.of_nat (length cs) < u64_max ->
  match shell_calls cs s with
  | Done (_, s') => ks_wf s'
  | Panicked => exists pre c post rs s', cs = pre ++ c :: post /\ shell_calls pre s = Done (rs, s') /\ ks_wf s' /\ oversized c s'
  end.
Proof.
  intros Hs Hcs. revert s Hs. induction Hcs as [|c cs Hc _ IH]; intros s Hs Hi Hp; [done|]. cbn [length] in Hi, Hp. cbn [shell_calls].
  destruct (shell_step_wf c s Hs Hc ltac:(lia) ltac:(lia)) as [(r & s1 & E & Hw & Hn & Hpn)|[-> Ho]]; [|by exists [], c, cs, [], s]. rewrite E. cbn [mbind run_bind]. specialize (IH s1 Hw ltac:(lia) ltac:(lia)).
  destruct (shell_calls cs s1) as [[rs s2]|]; [done|]. destruct IH as (pre & c' & post & rs & s' & -> & E' & Hs' & Ho). exists (c :: pre), c', post, (r :: rs), s'. split; [done|]. split; [|done]. cbn [shell_calls]. rewrite E. cbn [mbind run_bind]. by rewrite E'.
Qed.

(** ** Descriptors of pipes and files *)

Fixpoint write_all (fd : Z) (ws : list (list Z)) (s : KernelState) : run (list SyscallReturn * KernelState) :=
  match ws with [] => Done ([], s) | w :: ws => '(r, s) ← handle_fd_write fd w s; '(rs, s) ← write_all fd ws s; Done (r :: rs, s) end.

Lemma write_pipe fd id fl p w s : entries (fd_table s) !! fd = Some {| fd_kind := FkPipe id false; fd_flags := fl |} -> pipes (pipe_registry s) !! id = Some p -> ring_wf p -> pr_read_end_open p = true ->
  pipe_len p + Z.of_nat (length w) <= PIPE_CAPACITY -> handle_fd_write fd w s = Done (sys_ok (Z.of_nat (length w)), set_pipes (set_ring id (set_buffer p (pr_buffer p ++ w)) (pipe_registry s)) s).
Proof.
  intros Hfd Hp Hr Ho Hl. unfold handle_fd_write, fd_get. rewrite Hfd. cbn [fd_kind]. unfold pipe_get. rewrite Hp, pipe_write_spec, Ho by done. cbv zeta. rewrite Z.min_l by lia. rewrite Nat2Z.id, take_ge by lia. done.
Qed.

Lemma write_all_pipe fd id fl p ws s : entries (fd_table s) !! fd = Some {| fd_kind := FkPipe id false; fd_flags := fl |} -> pipes (pipe_registry s) !! id = Some p -> ring_wf p -> pr_read_end_open p = true ->
  pipe_len p + Z.of_nat (length (concat ws)) <= PIPE_CAPACITY ->
  exists s' p', write_all fd ws s = Done (map (fun w => sys_ok (Z.of_nat (length w))) ws, s') /\ fd_table s' = fd_table s /\ pipes (pipe_registry s') !! id = Some p' /\ pr_buffer p' = pr_buffer p ++ concat ws.
Proof.
  revert p s. induction ws as [|w ws IH]; intros p s Hfd Hp Hr Ho Hl; [exists s, p; by rewrite app_nil_r|]. cbn [write_all map concat] in *. rewrite length_app in Hl. rewrite (write_pipe fd id fl p) by (done || lia). cbn [mbind run_bind].
  destruct (IH (set_buffer p (pr_buffer p ++ w)) (set_pipes (set_ring id (set_buffer p (pr_buffer p ++ w)) (pipe_registry s)) s)) as (s' & p' & -> & Ht & Hp' & Hb).
  - done.
  - cbn. apply lookup_insert_eq.
  - destruct Hr as [R1 R2]. split; [done|]. unfold pipe_len in *. cbn. rewrite length_app. unfold PIPE_CAPACITY in *. lia.
  - done.
  - unfold pipe_len in *. cbn. rewrite length_app. lia.
  - exists s', p'. split; [done|]. split; [done|]. split; [done|]. rewrite Hb. cbn [pr_buffer set_buffer]. by rewrite <- app_assoc.
Qed.

Lemma read_pipe fd id fl p n s : entries (fd_table s) !! fd = Some {| fd_kind := FkPipe id true; fd_flags := fl |} -> pipes (pipe_registry s) !! id = Some p -> 0 <= n <= ISIZE_MAX ->
  exists s', handle_fd_read fd n s = Done (sys_ok (Z.min n (pipe_len p)), take (Z.to_nat n) (pr_buffer p), s').
Proof.
  intros Hfd Hp Hn. unfold handle_fd_read, fd_get. rewrite Hfd. cbn [fd_kind negb]. unfold pipe_get. rewrite Hp, (proj2 (Z.ltb_ge _ _)) by lia. rewrite pipe_read_spec. cbv zeta. rewrite length_replicate. eexists. do 2 f_equal. rewrite Nat2Z.id. unfold pipe_len.
  f_equal; [f_equal; lia|]. rewrite take_app_le by (rewrite length_take; lia). rewrite take_take. destruct (Nat.le_ge_cases (Z.to_nat n) (length (pr_buffer p))) as [Hle|Hge]; [by rewrite !Nat.min_l by lia|]. rewrite !Nat.min_r by lia. by rewrite !take_ge by lia.
Qed.

(** An open that succeeds. *)
Lemma open_inode_ok inode fl s r s' : fd_wf (fd_table s) -> open_fd_for_inode inode fl s = (r, s') -> rdx r = 0 ->
  entries (fd_table s) !! rax r = None /\ entries (fd_table s') = <[rax r := {| fd_kind := FkFsFile inode 0 fl; fd_flags := fd_flags_default |}]> (entries (fd_table s)) /\ vfs s' = vfs s.
Proof.
  intros Hwf. unfold open_fd_for_inode. destruct (fd_open_cases {| fd_kind := FkFsFile inode 0 fl; fd_flags := fd_flags_default |} (fd_table s) Hwf) as [(fd & -> & _ & Hn & _)|[-> _]]; intros [= <- <-] Hz; [done|discriminate Hz].
Qed.

Lemma create_entry_cases path t v r v' : vfs_wf v -> create_entry path t v = Done (r, v') ->
  match r with Ok id => exists i, inodes v' !! id = Some i /\ in_type i = t /\ in_data i = [] | Err _ => v' = v end.
Proof.
  intros Hwf. unfold create_entry. destruct (resolve_parent v path) as [[[p n]|e]|]; cbn [mbind run_bind]; [|by intros [= <- <-]|done].
  destruct (inodes v !! p) as [pi|] eqn:Ep; [|by intros [= <- <-]]. case_bool_decide; [by intros [= <- <-]|]. intros [= <- <-]. cbn [inodes]. pose proof (vw_next _ Hwf p (mk_is_Some _ _ Ep)). rewrite lookup_alter_ne by lia. rewrite lookup_insert_eq. by eexists.
Qed.

Lemma created_resolves path v r v' : vfs_wf v -> next_inode v < u64_max -> create_entry path RegularFile v = Done (r, v') -> forall id, r = Ok id ->
  exists i, inodes v' !! id = Some i /\ in_type i = RegularFile /\ in_data i = [] /\ resolve_path v' path = Ok id.
Proof.
  intros Hwf Hm E id ->. destruct (create_entry_cases _ _ _ _ _ Hwf E) as (i & Hi & Ht & Hd). exists i. split; [done|]. split; [done|]. split; [done|].
  destruct (create_refines path RegularFile v Hwf Hm) as (r & fs' & E' & _ & _ & _ & _ & Hw). rewrite E in E'. injection E' as <- <-. rewrite resolve_path_walk. by apply Hw.
Qed.

Lemma stat_resolves v path st : ids_ok v -> vfs_stat v path = Ok st -> exists i, inodes v !! st_inode st = Some i /\ st_type st = in_type i /\ resolve_path v path = Ok (st_inode st).
Proof.
  intros Hi. unfold vfs_stat. destruct (resolve_path v path) as [id|]; cbn [mbind result_bind]; [|done]. destruct (inodes v !! id) as [i|] eqn:Ei; [|done]. intros [= <-]. cbn. rewrite (Hi _ _ Ei). by exists i.
Qed.

(** The object an open descriptor names. *)
Definition opened (fd fl : Z) (abs : str) (s s1 : KernelState) (inode : Z) (i : Inode) : Prop :=
  entries (fd_table s) !! fd = None /\ entries (fd_table s1) = <[fd := {| fd_kind := FkFsFile inode 0 fl; fd_flags := fd_flags_default |}]> (entries (fd_table s)) /\
  inodes (vfs s1) !! inode = Some i /\ resolve_path (vfs s1) abs = Ok inode /\ (is_writable fl = true -> in_type i = RegularFile /\ (has_trunc fl = true -> in_data i = [])).

Lemma fs_open_ok path fl s r s1 : ks_wf s -> next_inode (vfs s) < u64_max -> handle_fs_open path fl s = Done (r, s1) -> rdx r = 0 -> exists inode i, opened (rax r) fl (ks_resolve s path) s s1 inode i.
Proof.
  intros Hs Hm. unfold handle_fs_open. set (abs := ks_resolve s path). assert (forall (p q : SyscallReturn * KernelState), Done p = Done q -> p = q) as Hinj by (by intros ? ? [= ->]).
  assert (forall v id i r s1, open_fd_for_inode id fl (set_vfs v s) = (r, s1) -> rdx r = 0 -> inodes v !! id = Some i -> resolve_path v abs = Ok id -> (is_writable fl = true -> in_type i = RegularFile /\ (has_trunc fl = true -> in_data i = [])) ->
    exists inode i, opened (rax r) fl abs s s1 inode i) as Hopen.
  { intros v id i r' s1' Eo Hz Hi Hr Hw. destruct (open_inode_ok id fl (set_vfs v s) r' s1' (kw_fds _ Hs) Eo Hz) as (O1 & O2 & O3). exists id, i. unfold opened. rewrite O3. split; [exact O1|]. split; [exact O2|]. split; [exact Hi|]. by split. }
  assert (forall e : Z, e <> 0 -> rdx (sys_err e) = 0 -> False) as Hne by (intros e He Hz; by cbn in Hz).
  destruct (vfs_stat (vfs s) abs) as [st|err] eqn:Est.
  - destruct (_ && _) eqn:Edir; [intros E%Hinj; injection E as <- <-; intros Hz; by apply Hne in Hz|]. destruct (has_trunc fl && is_writable fl) eqn:Etr.
    + destruct (delete_refines abs (vfs s) (kw_vfs _ Hs)) as (rd & v1 & -> & Hv1 & Hn1 & _). cbn [mbind run_bind]. unfold create_file. destruct (create_entry abs RegularFile v1) as [[rc v2]|] eqn:Ec; [|done]. cbn [mbind run_bind].
      destruct rc as [id|e]; [|intros E%Hinj; injection E as <- <-; intros Hz; by apply Hne in Hz]. intros E%Hinj Hz. destruct (created_resolves abs v1 (Ok id) v2 Hv1 ltac:(lia) Ec id eq_refl) as (i & Hi & Ht & Hd & Hr). by apply (Hopen v2 id i).
    + intros E%Hinj Hz. destruct (stat_resolves _ _ _ (kw_inodes _ Hs) Est) as (i & Hi & Hty & Hr). replace s with (set_vfs (vfs s) s) in E by (by destruct s). apply (Hopen (vfs s) (st_inode st) i); try done.
      intros Hw. rewrite Hw in *. cbn [orb] in *. rewrite andb_true_r in *. apply bool_decide_eq_false in Edir. rewrite Hty in Edir. destruct (in_type i); [|by destruct Edir]. split; [done|]. congruence.
  - destruct err; try (intros E%Hinj; injection E as <- <-; intros Hz; by apply Hne in Hz). destruct (has_create fl); cbn [negb]; [|intros E%Hinj; injection E as <- <-; intros Hz; by apply Hne in Hz].
    unfold create_file. destruct (create_entry abs RegularFile (vfs s)) as [[rc v2]|] eqn:Ec; [|done]. cbn [mbind run_bind]. destruct rc as [id|e].
    + intros E%Hinj Hz. destruct (created_resolves abs (vfs s) (Ok id) v2 (kw_vfs _ Hs) Hm Ec id eq_refl) as (i & Hi & Ht & Hd & Hr). by apply (Hopen v2 id i).
    + pose proof (create_entry_cases _ _ _ _ _ (kw_vfs _ Hs) Ec) as ->. rewrite Est. destruct e; intros E%Hinj; injection E as <- <-; intros Hz; by apply Hne in Hz.
Qed.

(** Writing at the start of an open file. *)
Lemma write_at_start fd inode fl i data s : entries (fd_table s) !! fd = Some {| fd_kind := FkFsFile inode 0 fl; fd_flags := fd_flags_default |} -> inodes (vfs s) !! inode = Some i -> in_type i = RegularFile -> has_append fl = false -> Z.of_nat (length data) <= ISIZE_MAX ->
  exists v, handle_fd_write fd data s = Done (sys_ok (Z.of_nat (length data)), set_offset fd (Z.of_nat (length data)) (set_vfs v s)) /\
    inodes v = <[inode := set_in_data (data ++ drop (length data) (in_data i)) i]> (inodes (vfs s)).
Proof.
  intros Hfd Hi Ht Ha Hl. unfold handle_fd_write, fd_get. rewrite Hfd. cbn [fd_kind]. unfold write_position. rewrite Ha. unfold write_file. rewrite Hi, Ht. cbn [mbind run_bind].
  assert (saturating_add64 0 (Z.of_nat (length data)) = Z.of_nat (length data)) as Es by (unfold saturating_add64, u64_max, ISIZE_MAX in *; lia). rewrite bool_decide_eq_false_2 by done. case_bool_decide as Hn.
  - subst data. exists (vfs s). split; [done|]. cbn [app length]. rewrite drop_0, insert_id; [done|]. rewrite Hi. by destruct i.
  - rewrite Es, (proj2 (Z.ltb_ge ISIZE_MAX _)) by done. rewrite andb_false_r. cbn [mbind run_bind]. rewrite Es. eexists. split; [reflexivity|]. cbn [inodes]. f_equal. unfold splice. rewrite Z2Nat.inj_0, take_0. cbn [app Nat.add]. f_equal. f_equal.
    rewrite drop_app. destruct (Nat.le_ge_cases (length data) (length (in_data i))) as [Hle|Hge].
    + replace (Z.to_nat (Z.of_nat (length data) - Z.of_nat (length (in_data i)))) with 0%nat by lia. cbn. by rewrite drop_nil, app_nil_r.
    + rewrite (drop_ge (in_data i)) by lia. rewrite drop_ge; [done|]. rewrite length_replicate. lia.
Qed.

Lemma read_from_start fd inode fl i n s : entries (fd_table s) !! fd = Some {| fd_kind := FkFsFile inode 0 fl; fd_flags := fd_flags_default |} -> inodes (vfs s) !! inode = Some i -> in_type i = RegularFile -> 0 <= n <= Z.of_nat (length (in_data i)) -> Z.of_nat (length (in_data i)) <= u64_max ->
  handle_fd_read fd n s = Done (sys_ok n, take (Z.to_nat n) (in_data i), set_offset fd n s).
Proof.
  intros Hfd Hi Ht Hn Hb. unfold handle_fd_read, fd_get. rewrite Hfd. cbn [fd_kind]. unfold read_file. rewrite Hi, Ht, bool_decide_eq_false_2 by done. unfold saturating_add64. destruct (Z.leb_spec (Z.of_nat (length (in_data i))) 0) as [Hz|Hz]; cbn [orb].
  - assert (n = 0) as -> by lia. reflexivity.
  - destruct (Z.eqb_spec n 0) as [->|Hn0]; [reflexivity|]. rewrite Z.add_0_l, Z.min_l, Z.min_l by lia. unfold slice_get. rewrite (proj2 (Z.leb_le 0 n)), (proj2 (Z.leb_le n _)) by lia. cbn [andb]. change (default [] (Some ?x)) with x. rewrite Z.sub_0_r, Z2Nat.inj_0, drop_0.
    assert (Z.of_nat (length (take (Z.to_nat n) (in_data i))) = n) as -> by (rewrite length_take; lia). by rewrite Z.add_0_l, Z.min_l by lia.
Qed.

Lemma set_offset_at fd off inode o fl s : entries (fd_table s) !! fd = Some {| fd_kind := FkFsFile inode o fl; fd_flags := fd_flags_default |} ->
  entries (fd_table (set_offset fd off s)) = <[fd := {| fd_kind := FkFsFile inode off fl; fd_flags := fd_flags_default |}]> (entries (fd_table s)).
Proof. intros Hfd. unfold set_offset, fd_get_mut. rewrite Hfd. done. Qed.

(** Rewriting a file's bytes moves no name. *)
Lemma resolve_rewritten v v' inode i d path id : vfs_wf v -> inodes v !! inode = Some i -> inodes v' = <[inode := set_in_data d i]> (inodes v) -> resolve_path v path = Ok id -> resolve_path v' path = Ok id.
Proof.
  intros Hwf Hi Hv. rewrite !resolve_path_walk. pose proof (components_valid path) as Hc. intros Hw. apply walk_names_path in Hw; [|done]. apply walk_names_path; [done|]. rewrite Hv. by apply (written_path v inode i d Hi).
Qed.

(** ** Theorems *)

(** C5: whatever sequence of calls a shell makes from a fresh state, with arguments of the register widths and fewer than 2^64 - 3 of them: the descriptor table, the pipes, the console buffer, the file tree and the process table stay well formed and consistent with each other (a pipe descriptor names a registered pipe, a file descriptor a number the file system has issued, every working directory is a normalised path), and the only way to stop the kernel is a request that exceeds the largest buffer: reading a pipe with a count beyond it, or writing a file so that it would end beyond it. *)
Theorem shell_calls_typed (cs : list shell_call) : Forall call_ok cs -> Z.of_nat (length cs) < u64_max - 2 ->
  match shell_calls cs new_for_test with
  | Done (_, s) => ks_wf s
  | Panicked => exists pre c post rs s, cs = pre ++ c :: post /\ shell_calls pre new_for_test = Done (rs, s) /\ ks_wf s /\ oversized c s
  end.
Proof. intros Hcs Hl. apply shell_calls_wf; [apply new_for_test_wf|done|cbn; lia|cbn; lia]. Qed.

(** a pipe made by the call connects its two descriptors: both numbers were free and differ, and whatever is then written to the second, in any number of pieces that fit the pipe's 64 KiB, is accepted completely and comes out of the first in order, a read of [n] bytes returning the first [n].  When the call fails no descriptor has changed. *)
Theorem pipe_descriptors (s : KernelState) : ks_wf s -> pipe_next_id (pipe_registry s) < u64_max ->
  let '(r, s1) := handle_pipe_create s in
  (r = sys_err ENOSPC /\ entries (fd_table s1) = entries (fd_table s)) \/
  (rax r <> rdx r /\ entries (fd_table s) !! rax r = None /\ entries (fd_table s) !! rdx r = None /\
   forall ws, Z.of_nat (length (concat ws)) <= PIPE_CAPACITY ->
     exists s2, write_all (rdx r) ws s1 = Done (map (fun w => sys_ok (Z.of_nat (length w))) ws, s2) /\
       forall n, 0 <= n <= ISIZE_MAX -> exists s3, handle_fd_read (rax r) n s2 = Done (sys_ok (Z.min n (Z.of_nat (length (concat ws)))), take (Z.to_nat n) (concat ws), s3)).
Proof.
  intros Hs Hm. unfold handle_pipe_create. destruct (pipe_create (pipe_registry s)) as [id reg] eqn:Ec. assert (pipes reg !! id = Some pipe_new) as Hp by (unfold pipe_create in Ec; injection Ec as <- <-; apply lookup_insert_eq).
  destruct (fd_open_cases {| fd_kind := FkPipe id true; fd_flags := fd_flags_default |} (fd_table s) (kw_fds _ Hs)) as [(rfd & Er & Hrb & Hrn & _)|[-> _]]; [|by left]. rewrite Er. set (t1 := Build_FileDescriptorTable _ _).
  assert (fd_wf t1) as Ht1 by (pose proof (fd_open_wf {| fd_kind := FkPipe id true; fd_flags := fd_flags_default |} _ (kw_fds _ Hs)) as Hf; by rewrite Er in Hf).
  destruct (fd_open_cases {| fd_kind := FkPipe id false; fd_flags := fd_flags_default |} t1 Ht1) as [(wfd & -> & _ & Hwn & _)|[-> _]].
  2:{ left. split; [done|]. unfold fd_close. cbn [entries t1]. rewrite lookup_insert_eq. cbn. by rewrite delete_insert_id. }
  right. cbn [rax rdx entries t1] in *. apply lookup_insert_None in Hwn as [Hwn Hne]. split; [done|]. split; [done|]. split; [done|]. intros ws Hl. set (s1 := set_fds _ _).
  destruct (write_all_pipe wfd id fd_flags_default pipe_new ws s1) as (s2 & p2 & Ew & Ht & Hp2 & Hb); [apply lookup_insert_eq|exact Hp|apply pipe_new_wf|done|exact Hl|].
  exists s2. split; [exact Ew|]. intros n Hn. destruct (read_pipe rfd id fd_flags_default p2 n s2) as (s3 & ->); [rewrite Ht; cbn; rewrite lookup_insert_ne by done; apply lookup_insert_eq|done|done|]. exists s3. unfold pipe_len. by rewrite Hb.
Qed.

(** a file opened for writing without append keeps what is written to it: the descriptor is a number that was free, the write is accepted completely, and after seeking back a read returns exactly the bytes written; the path names a file that begins with them and keeps whatever lay behind, no other file and no other descriptor has changed. *)
Theorem file_descriptors (path : str) (fl : Z) (data : list Z) (s s1 : KernelState) (r : SyscallReturn) : ks_wf s -> next_inode (vfs s) < u64_max -> handle_fs_open path fl s = Done (r, s1) -> rdx r = 0 ->
  is_writable fl = true -> has_append fl = false -> Z.of_nat (length data) <= ISIZE_MAX ->
  let n := Z.of_nat (length data) in
  exists inode i i' s2 s3 s4, opened (rax r) fl (ks_resolve s path) s s1 inode i /\ handle_fd_write (rax r) data s1 = Done (sys_ok n, s2) /\ handle_fd_seek (rax r) 0 0 s2 = (sys_ok 0, s3) /\
    (Z.of_nat (length (in_data i)) <= u64_max -> handle_fd_read (rax r) n s3 = Done (sys_ok n, data, s4)) /\
    resolve_path (vfs s4) (ks_resolve s path) = Ok inode /\ inodes (vfs s4) !! inode = Some i' /\ in_data i' = data ++ drop (length data) (in_data i) /\
    (forall id, id <> inode -> inodes (vfs s4) !! id = inodes (vfs s1) !! id) /\ (forall fd, fd <> rax r -> entries (fd_table s4) !! fd = entries (fd_table s) !! fd).
Proof.
  intros Hs Hm Ho Hz Hw Ha Hl n. assert (ks_wf s1) as Hs1 by (destruct (fs_open_advances path fl s Hs Hm) as (r' & s' & E & A1 & _); rewrite Ho in E; by injection E as <- <-).
  destruct (fs_open_ok path fl s r s1 Hs Hm Ho Hz) as (inode & i & Hop). pose proof Hop as (O1 & O2 & Hi & Hr & Ht). destruct (Ht Hw) as [Hty _].
  assert (entries (fd_table s1) !! rax r = Some {| fd_kind := FkFsFile inode 0 fl; fd_flags := fd_flags_default |}) as Hfd by (rewrite O2; apply lookup_insert_eq).
  destruct (write_at_start (rax r) inode fl i data s1 Hfd Hi Hty Ha Hl) as (v & Ew & Ev). fold n in Ew. set (i' := set_in_data _ i) in Ev.
  set (s2 := set_offset (rax r) n (set_vfs v s1)). assert (entries (fd_table s2) = <[rax r := {| fd_kind := FkFsFile inode n fl; fd_flags := fd_flags_default |}]> (entries (fd_table s1))) as E2 by (by apply (set_offset_at (rax r) n inode 0 fl (set_vfs v s1))).
  set (s3 := set_offset (rax r) 0 s2). assert (entries (fd_table s3) = <[rax r := {| fd_kind := FkFsFile inode 0 fl; fd_flags := fd_flags_default |}]> (entries (fd_table s1))) as E3.
  { unfold s3. rewrite (set_offset_at (rax r) 0 inode n fl s2) by (rewrite E2; apply lookup_insert_eq). rewrite E2. apply insert_insert_eq. }
  set (s4 := set_offset (rax r) n s3). assert (entries (fd_table s4) = <[rax r := {| fd_kind := FkFsFile inode n fl; fd_flags := fd_flags_default |}]> (entries (fd_table s1))) as E4.
  { unfold s4. rewrite (set_offset_at (rax r) n inode 0 fl s3) by (rewrite E3; apply lookup_insert_eq). rewrite E3. apply insert_insert_eq. }
  assert (vfs s4 = v) as Hv4 by done. assert (vfs s3 = v) as Hv3 by done. exists inode, i, i', s2, s3, s4. split; [done|]. split; [exact Ew|]. split; [|split; [|split; [|split; [|split; [|split]]]]].
  - unfold handle_fd_seek, fd_get. rewrite E2, lookup_insert_eq. done.
  - intros Hb. unfold s4. rewrite (read_from_start (rax r) inode fl i' n s3); [|rewrite E3; apply lookup_insert_eq|rewrite Hv3, Ev; apply lookup_insert_eq|done|cbn; rewrite length_app; unfold n; lia|].
    + do 2 f_equal. cbn. unfold n. rewrite Nat2Z.id. by rewrite take_app_length.
    + cbn. rewrite length_app, length_drop. unfold ISIZE_MAX, u64_max in *. lia.
  - rewrite Hv4. by apply (resolve_rewritten (vfs s1) v inode i _ _ _ (kw_vfs _ Hs1) Hi Ev).
  - rewrite Hv4, Ev. apply lookup_insert_eq.
  - done.
  - intros id Hid. rewrite Hv4, Ev. by rewrite lookup_insert_ne.
  - intros fd Hfd'. rewrite E4, O2. by rewrite !lookup_insert_ne.
Qed.

(** ** Witnesses *)

Definition demo_file : str := lit "/a"%string.
Definition demo_calls : list shell_call := [ScKey 104; ScPipe; ScMkdir (lit "/d"%string); ScSetCwd (lit "d"%string); ScOpen (lit "f"%string) 0x42; ScWrite 5 [1; 2; 3]; ScSeek 5 0 0; ScRead 5 2; ScWrite 4 [7]; ScRead 3 9; ScDup2 5 1; ScClose 3; ScDelete (lit "/d/f"%string); ScWait 0 1].

Lemma demo_calls_ok : Forall call_ok demo_calls.
Proof. unfold demo_calls. repeat (apply Forall_cons; split; [cbn; unfold is_u32, is_u64, ISIZE_MAX; try lia; exact I|]). by apply Forall_nil. Qed.

Lemma shell_calls_typed_witness : exists rs s, shell_calls demo_calls new_for_test = Done (rs, s) /\ ks_wf s /\ map rdx rs = [0; 4; 0; 0; 0; 0; 0; 0; 0; 0; 0; 0; 0; 0].
Proof.
  pose proof (shell_calls_typed demo_calls demo_calls_ok ltac:(vm_compute; reflexivity)) as Hw.
  assert (match shell_calls demo_calls new_for_test with Done (rs, _) => map rdx rs | Panicked => [] end = [0; 4; 0; 0; 0; 0; 0; 0; 0; 0; 0; 0; 0; 0]) as Hr by (vm_compute; reflexivity).
  destruct (shell_calls demo_calls new_for_test) as [[rs s]|]; [|discriminate Hr]. exists rs, s. split; [reflexivity|]. by split.
Defined.

Lemma pipe_descriptors_witness : exists s2 s3, write_all 4 [[1; 2]; [3]] (snd (handle_pipe_create new_for_test)) = Done ([sys_ok 2; sys_ok 1], s2) /\ handle_fd_read 3 2 s2 = Done (sys_ok 2, [1; 2], s3).
Proof.
  pose proof (pipe_descriptors new_for_test new_for_test_wf ltac:(vm_compute; reflexivity)) as Hp. assert (fst (handle_pipe_create new_for_test) = {| rax := 3; rdx := 4 |}) as Hr by (vm_compute; reflexivity).
  destruct (handle_pipe_create new_for_test) as [r s1]. cbn [fst snd] in *. subst r. destruct Hp as [[Hp _]|(_ & _ & _ & Hp)]; [discriminate Hp|]. destruct (Hp [[1; 2]; [3]] ltac:(vm_compute; discriminate)) as (s2 & Ew & Hrd).
  destruct (Hrd 2 ltac:(unfold ISIZE_MAX; lia)) as (s3 & Er). exists s2, s3. split; [exact Ew|exact Er].
Defined.

Lemma file_descriptors_witness : exists s1 s2 s3 s4, handle_fs_open demo_file 0x42 new_for_test = Done (sys_ok 3, s1) /\ handle_fd_write 3 [1; 2; 3] s1 = Done (sys_ok 3, s2) /\ handle_fd_seek 3 0 0 s2 = (sys_ok 0, s3) /\
  (forall fd, fd <> 3 -> entries (fd_table s4) !! fd = entries (fd_table new_for_test) !! fd).
Proof.
  assert (exists s1, handle_fs_open demo_file 0x42 new_for_test = Done (sys_ok 3, s1)) as (s1 & Eo) by (vm_compute; by eexists).
  destruct (file_descriptors demo_file 0x42 [1; 2; 3] new_for_test s1 (sys_ok 3) new_for_test_wf ltac:(vm_compute; reflexivity) Eo eq_refl ltac:(vm_compute; reflexivity) ltac:(vm_compute; reflexivity) ltac:(vm_compute; discriminate))
    as (inode & i & i' & s2 & s3 & s4 & _ & Ew & Es & _ & _ & _ & _ & _ & Hfd).
  exists s1, s2, s3, s4. split; [exact Eo|]. split; [exact Ew|]. split; [exact Es|exact Hfd].
Defined.

(** ** What the calls get wrong *)

(** The answers of a session, and whether it stopped the kernel. *)
Definition session (cs : list shell_call) : option (list SyscallReturn) := match shell_calls cs new_for_test with Done (rs, _) => Some rs | Panicked => None end.

(** Closing one of two copies of a pipe's read end breaks the pipe for the other. *)
Example close_copy_breaks_pipe : session [ScPipe; ScDup 3; ScClose 5; ScWrite 4 [1]] = Some [{| rax := 3; rdx := 4 |}; sys_ok 5; sys_ok 0; sys_err EPIPE].
Proof. vm_compute. reflexivity. Qed.

(** Duplicating a pipe's read end onto itself shuts it. *)
Example dup2_same_breaks_pipe : session [ScPipe; ScDup2 3 3; ScWrite 4 [1]] = Some [{| rax := 3; rdx := 4 |}; sys_ok 3; sys_err EPIPE].
Proof. vm_compute. reflexivity. Qed.

(** A duplication that fails has shut the pipe end it would have replaced. *)
Example failed_dup2_breaks_pipe : session [ScPipe; ScDup2 9 3; ScWrite 4 [1]] = Some [{| rax := 3; rdx := 4 |}; sys_err EBADF; sys_err EPIPE].
Proof. vm_compute. reflexivity. Qed.

(** A file opened for writing only (flags 0x41) is read, and one opened for reading only (0x40) is written. *)
Example access_not_checked : session [ScOpen demo_file 0x41; ScWrite 3 [1]; ScSeek 3 0 0; ScRead 3 1; ScOpen demo_file 0x40; ScWrite 4 [2]] = Some [sys_ok 3; sys_ok 1; sys_ok 0; sys_ok 1; sys_ok 4; sys_ok 1].
Proof. vm_compute. reflexivity. Qed.

(** Seeking to the largest offset and writing one byte stops the kernel. *)
Example seek_write_panics : session [ScOpen demo_file 0x42; ScSeek 3 (2 ^ 63 - 1) 0] = Some [sys_ok 3; sys_ok (2 ^ 63 - 1)] /\ session [ScOpen demo_file 0x42; ScSeek 3 (2 ^ 63 - 1) 0; ScWrite 3 [1]] = None.
Proof. vm_compute. done. Qed.

(** Truncating a file by opening it takes it away from the descriptors that have it open. *)
Example truncate_orphans : session [ScOpen demo_file 0x42; ScOpen demo_file 0x202; ScWrite 3 [1]] = Some [sys_ok 3; sys_ok 4; sys_err ENOENT].
Proof. vm_compute. reflexivity. Qed.
