(* ===== verification/ShellEntry.v ===== *)
(** * The bare-metal entry of the shell calls (syscall_entry.rs: shell_handlers)

    The kernel image does not call the handlers of [ShellSys]: it has its own,
    which check the user pointers, work on global tables that may not exist yet,
    poll the serial port for console input, and copy results to user memory.
    The files, pipes, descriptors and processes behind them are the same. *)

From Stdlib Require Import ZArith Lia String.
From stdpp Require Import base numbers list gmap.
From S2P Require Import Prelude Str Ipc Pipe Fd ProcTable Vfs DriverSys ShellSys.

(** ** Globals and user memory *)

Record Globals := { g_fds : option FileDescriptorTable; g_pipes : option PipeRegistry; g_vfs : option InMemoryVfs; g_procs : option ProcessTable; g_current : option Z; g_screen : list Z }.

Definition g_set_fds (t : FileDescriptorTable) (g : Globals) : Globals :=
  {| g_fds := Some t; g_pipes := g_pipes g; g_vfs := g_vfs g; g_procs := g_procs g; g_current := g_current g; g_screen := g_screen g |}.
Definition g_set_pipes (r : PipeRegistry) (g : Globals) : Globals :=
  {| g_fds := g_fds g; g_pipes := Some r; g_vfs := g_vfs g; g_procs := g_procs g; g_current := g_current g; g_screen := g_screen g |}.
Definition g_set_vfs (v : InMemoryVfs) (g : Globals) : Globals :=
  {| g_fds := g_fds g; g_pipes := g_pipes g; g_vfs := Some v; g_procs := g_procs g; g_current := g_current g; g_screen := g_screen g |}.
Definition g_set_procs (t : ProcessTable) (g : Globals) : Globals :=
  {| g_fds := g_fds g; g_pipes := g_pipes g; g_vfs := g_vfs g; g_procs := Some t; g_current := g_current g; g_screen := g_screen g |}.
Definition g_emit (bs : list Z) (g : Globals) : Globals :=
  {| g_fds := g_fds g; g_pipes := g_pipes g; g_vfs := g_vfs g; g_procs := g_procs g; g_current := g_current g; g_screen := g_screen g ++ bs |}.

(** What a call answers: the registers, the bytes it stored at user addresses, the new globals. *)
Abbreviation answer := (run (SyscallReturn * list (Z * list Z) * Globals)).
Definition plain (r : SyscallReturn) (g : Globals) : answer := Done (r, [], g).
Definition fails (errno : Z) (g : Globals) : answer := plain (sys_err errno) g.

Definition user_str (e : SysEnv) (ptr len : Z) : option str :=
  if (ptr =? 0) || (len =? 0) || (4096 <? len) then None else
  if negb (user_range_ok ptr len) then None else
  let bytes := se_user e ptr len in if utf8_valid bytes then Some bytes else None.

(** [user_slice_mut] yields a buffer exactly when this holds. *)
Definition user_slice_ok (ptr len : Z) : bool := negb ((ptr =? 0) || (len =? 0) || (0x100000 <? len)) && user_range_ok ptr len.

Definition g_task (g : Globals) : Z := default 0 (g_current g).
Definition g_cwd (g : Globals) : str := match g_procs g with Some pt => default (lit "/"%string) (get_cwd (g_task g) pt) | None => lit "/"%string end.
Definition entry_resolve (path : str) (g : Globals) : str := normalize_path (g_cwd g) path.

(** ** Console input: the polling loop

    [input] is what successive polls of the serial port yield, [None] standing
    for a poll that finds nothing; [None] is returned when the polls run out
    while the loop still waits. *)
Fixpoint console_poll (input : list (option Z)) (max pos : nat) (dest echo : list Z) : option (nat * list Z * list Z * list (option Z)) :=
  if (max <=? pos)%nat then Some (pos, dest, echo, input) else
  match input with
  | [] => None
  | None :: input => if (0 <? pos)%nat then Some (pos, dest, echo, input) else console_poll input max pos dest echo
  | Some b :: input =>
      if b =? 13 then Some (S pos, <[pos := 10]> dest, echo ++ [b; 10], input) else
      if (b =? 0x7F) || (b =? 8) then
        (if (0 <? pos)%nat then console_poll input max (pos - 1) dest (echo ++ [b; 8; 32; 8]) else console_poll input max pos dest (echo ++ [b]))
      else console_poll input max (S pos) (<[pos := b]> dest) (echo ++ [b])
  end.

(** The answer of a console read, or [None] while it waits; the rest of the polls is dropped. *)
Definition console_read (e : SysEnv) (input : list (option Z)) (buf_ptr buf_len : Z) (g : Globals) : option (SyscallReturn * list (Z * list Z) * Globals) :=
  match console_poll input (Z.to_nat buf_len) 0 (se_user e buf_ptr buf_len) [] with
  | None => None
  | Some (n, dest, echo, _) => Some (sys_ok (Z.of_nat n), [(buf_ptr, dest)], g_emit echo g)
  end.

Definition entry_read_console (e : SysEnv) (input : list (option Z)) (buf_ptr buf_len : Z) (g : Globals) : option (SyscallReturn * list (Z * list Z) * Globals) :=
  if buf_len =? 0 then Some (sys_ok 0, [], g) else
  if negb (user_slice_ok buf_ptr buf_len) then Some (sys_err EFAULT, [], g) else
  console_read e input buf_ptr buf_len g.

(** ** Descriptors *)

(** A result stored at the start of the user's buffer. *)
Definition store (ptr : Z) (bytes : list Z) : list (Z * list Z) := if bool_decide (bytes = []) then [] else [(ptr, bytes)].

(** The offset of the descriptor, which may have gone. *)
Definition g_set_offset (fd off : Z) (g : Globals) : Globals := match g_fds g with Some t => g_set_fds (snd (fd_get_mut fd (with_offset off) t)) g | None => g end.

(** [None] while a console read waits for input. *)
Definition entry_fd_read (e : SysEnv) (input : list (option Z)) (fd_arg buf_ptr buf_len : Z) (g : Globals) : option answer :=
  let fd_num := wrap32 fd_arg in
  if buf_len =? 0 then Some (plain (sys_ok 0) g) else
  if negb (user_slice_ok buf_ptr buf_len) then Some (fails EFAULT g) else
  match g_fds g with
  | None => Some (fails EIO g)
  | Some t =>
      match fd_get fd_num t with
      | None => Some (fails EBADF g)
      | Some d =>
          match fd_kind d with
          | FkConsole readable _ => if negb readable then Some (fails EBADF g) else option_map Done (console_read e input buf_ptr buf_len g)
          | FkPipe pipe_id is_read_end =>
              if negb is_read_end then Some (fails EBADF g) else
              match g_pipes g with
              | None => Some (fails EIO g)
              | Some reg =>
                  match pipe_get pipe_id reg with
                  | None => Some (fails EBADF g)
                  | Some ring =>
                      match pipe_read (se_user e buf_ptr buf_len) ring with
                      | (Ok n, buf, ring) => Some (Done (sys_ok n, store buf_ptr (take (Z.to_nat n) buf), g_set_pipes (set_ring pipe_id ring reg) g))
                      | (Err _, _, ring) => Some (plain (sys_ok 0) (g_set_pipes (set_ring pipe_id ring reg) g))
                      end
                  end
              end
          | FkFsFile inode offset flags =>
              if negb (is_readable flags) then Some (fails EBADF g) else
              match g_vfs g with
              | None => Some (fails EIO g)
              | Some v =>
                  match read_file inode offset buf_len v with
                  | Ok data =>
                      let n := Z.min (Z.of_nat (length data)) buf_len in
                      Some (Done (sys_ok n, store buf_ptr (take (Z.to_nat n) data), g_set_offset fd_num (saturating_add64 offset n) g))
                  | Err NotFound => Some (fails ENOENT g)
                  | Err _ => Some (fails EIO g)
                  end
              end
          | FkIpcChannel _ => Some (fails ENOSYS g)
          end
      end
  end.

(** Bytes go to the screen in pieces of 256. *)
Fixpoint emit_chunks (fuel : nat) (data : list Z) (g : Globals) : Globals :=
  match fuel with O => g | S fuel => match data with [] => g | _ => emit_chunks fuel (drop 256 data) (g_emit (take 256 data) g) end end.

Definition entry_fd_write (e : SysEnv) (fd_arg buf_ptr buf_len : Z) (g : Globals) : answer :=
  let fd_num := wrap32 fd_arg in
  if buf_len =? 0 then plain (sys_ok 0) g else
  if negb (user_range_ok buf_ptr buf_len) then fails EFAULT g else
  let data := se_user e buf_ptr buf_len in
  match g_fds g with
  | None => fails EIO g
  | Some t =>
      match fd_get fd_num t with
      | None => fails EBADF g
      | Some d =>
          match fd_kind d with
          | FkConsole _ writable => if negb writable then fails EBADF g else plain (sys_ok (Z.of_nat (length data))) (emit_chunks (S (length data)) data g)
          | FkPipe pipe_id is_read_end =>
              if is_read_end then fails EBADF g else
              match g_pipes g with
              | None => fails EIO g
              | Some reg =>
                  match pipe_get pipe_id reg with
                  | None => fails EBADF g
                  | Some ring =>
                      let '(r, ring) := pipe_write data ring in
                      plain (match r with Ok n => sys_ok n | Err _ => sys_err EPIPE end) (g_set_pipes (set_ring pipe_id ring reg) g)
                  end
              end
          | FkFsFile inode offset flags =>
              if negb (is_writable flags) then fails EBADF g else
              match g_vfs g with
              | None => fails EIO g
              | Some v =>
                  let write_offset := write_position inode offset flags v in
                  '(r, v) ← write_file inode write_offset data v;
                  match r with
                  | Ok n => plain (sys_ok n) (g_set_offset fd_num (saturating_add64 write_offset n) (g_set_vfs v g))
                  | Err NotFound => fails ENOENT (g_set_vfs v g)
                  | Err _ => fails EIO (g_set_vfs v g)
                  end
              end
          | FkIpcChannel _ => fails ENOSYS g
          end
      end
  end.

Definition g_shut (k : FdKind) (g : Globals) : Globals :=
  match k, g_pipes g with
  | FkPipe pipe_id is_read_end, Some reg =>
      match pipe_get pipe_id reg with
      | None => g
      | Some ring => g_set_pipes (set_ring pipe_id (snd (if is_read_end then pipe_close_read ring else pipe_close_write ring)) reg) g
      end
  | _, _ => g
  end.

Definition entry_fd_close (fd_arg : Z) (g : Globals) : answer :=
  let fd_num := wrap32 fd_arg in
  match g_fds g with
  | None => fails EIO g
  | Some t =>
      match fd_get fd_num t with
      | None => fails EBADF g
      | Some d =>
          let g := g_shut (fd_kind d) g in
          let '(r, t) := fd_close fd_num t in
          plain (match r with Ok _ => sys_ok 0 | Err _ => sys_err EBADF end) (g_set_fds t g)
      end
  end.

Definition entry_fd_dup (fd_arg : Z) (g : Globals) : answer :=
  match g_fds g with
  | None => fails EIO g
  | Some t => let '(r, t) := fd_dup (wrap32 fd_arg) t in plain (match r with Ok n => sys_ok n | Err _ => sys_err EBADF end) (g_set_fds t g)
  end.

Definition entry_fd_dup2 (old_arg new_arg : Z) (g : Globals) : answer :=
  let old_fd := wrap32 old_arg in
  let new_fd := wrap32 new_arg in
  let g := match g_fds g with Some t => match fd_get new_fd t with Some existing => g_shut (fd_kind existing) g | None => g end | None => g end in
  match g_fds g with
  | None => fails EIO g
  | Some t => let '(r, t) := fd_dup2 old_fd new_fd t in plain (match r with Ok n => sys_ok n | Err _ => sys_err EBADF end) (g_set_fds t g)
  end.

(** [as i64] *)
Definition as_i64 (x : Z) : Z := if x <? 2 ^ 63 then x else x - 2 ^ 64.

Definition entry_fd_seek (fd_arg offset_arg whence_arg : Z) (g : Globals) : answer :=
  let fd_num := wrap32 fd_arg in
  let offset := as_i64 offset_arg in
  let whence := wrap32 whence_arg in
  match g_fds g with
  | None => fails EIO g
  | Some t =>
      match fd_get fd_num t with
      | None => fails EBADF g
      | Some d =>
          match fd_kind d with
          | FkFsFile inode current_offset _ =>
              let finish (new_offset : option Z) := match new_offset with Some pos => plain (sys_ok pos) (g_set_offset fd_num pos g) | None => fails EINVAL g end in
              if whence =? 0 then finish (if offset <? 0 then None else u64_try_from offset) else
              if whence =? 1 then finish (checked_add_i64 (Z.min current_offset I64_MAX) offset ≫= u64_try_from) else
              if whence =? 2 then
                match g_vfs g with
                | None => fails EIO g
                | Some v => match file_size v inode with Err _ => fails EIO g | Ok size => finish (checked_add_i64 (Z.min size I64_MAX) offset ≫= u64_try_from) end
                end
              else fails EINVAL g
          | _ => fails ESPIPE g
          end
      end
  end.

Definition entry_pipe_create (g : Globals) : answer :=
  match g_pipes g with
  | None => fails EIO g
  | Some reg =>
      let '(pipe_id, reg) := pipe_create reg in
      let g := g_set_pipes reg g in
      let g_back := g_set_pipes (snd (pipe_remove pipe_id reg)) g in
      match g_fds g with
      | None => fails EIO g
      | Some t =>
          match fd_open {| fd_kind := FkPipe pipe_id true; fd_flags := fd_flags_default |} t with
          | (Err _, t) => fails ENOSPC (g_set_fds t g_back)
          | (Ok rfd, t) =>
              match fd_open {| fd_kind := FkPipe pipe_id false; fd_flags := fd_flags_default |} t with
              | (Err _, t) => fails ENOSPC (g_set_fds (snd (fd_close rfd t)) g_back)
              | (Ok wfd, t) => plain {| rax := rfd; rdx := wfd |} (g_set_fds t g)
              end
          end
      end
  end.

(** ** Files and directories *)

Definition g_open_inode (inode flags : Z) (g : Globals) : answer :=
  match g_fds g with
  | None => fails EIO g
  | Some t =>
      let '(r, t) := fd_open {| fd_kind := FkFsFile inode 0 flags; fd_flags := fd_flags_default |} t in
      plain (match r with Ok fd => sys_ok fd | Err _ => sys_err ENOSPC end) (g_set_fds t g)
  end.

Definition entry_fs_open (e : SysEnv) (path_ptr path_len flags_arg : Z) (g : Globals) : answer :=
  let flags := wrap32 flags_arg in
  match user_str e path_ptr path_len with
  | None => fails EFAULT g
  | Some path =>
      let abs := entry_resolve path g in
      match g_vfs g with
      | None => fails EIO g
      | Some v =>
          match vfs_stat v abs with
          | Ok stat =>
              if bool_decide (st_type stat = Directory) && (is_writable flags || has_trunc flags) then fails EINVAL g else
              if has_trunc flags && is_writable flags then
                '(_, v) ← vfs_delete abs v;
                '(r, v) ← create_file abs v;
                match r with Ok ino => g_open_inode ino flags (g_set_vfs v g) | Err _ => fails EIO (g_set_vfs v g) end
              else g_open_inode (st_inode stat) flags g
          | Err NotFound =>
              if negb (has_create flags) then fails ENOENT g else
              '(r, v) ← create_file abs v;
              let g := g_set_vfs v g in
              match r with
              | Ok ino => g_open_inode ino flags g
              | Err AlreadyExists => match vfs_stat v abs with Ok st => g_open_inode (st_inode st) flags g | Err _ => fails EIO g end
              | Err NotADirectory | Err InvalidPath => fails EINVAL g
              | Err _ => fails EIO g
              end
          | Err NotADirectory => fails EINVAL g
          | Err _ => fails EIO g
          end
      end
  end.

Definition entry_fs_stat (e : SysEnv) (path_ptr path_len stat_buf : Z) (g : Globals) : answer :=
  match user_str e path_ptr path_len with
  | None => fails EFAULT g
  | Some path =>
      if negb (user_range_ok stat_buf 17) || (stat_buf =? 0) then fails EFAULT g else
      match g_vfs g with
      | None => fails EIO g
      | Some v =>
          match vfs_stat v (entry_resolve path g) with
          | Ok st => Done (sys_ok 0, [(stat_buf, to_le_bytes 8 (st_inode st) ++ to_le_bytes 8 (st_size st) ++ [stat_type_byte (st_type st)])], g)
          | Err NotFound => fails ENOENT g
          | Err _ => fails EIO g
          end
      end
  end.

(** Names followed by newlines, as far as the buffer goes. *)
Fixpoint emit_names (cap : nat) (names : list str) (acc : list Z) : list Z :=
  match names with
  | [] => acc
  | n :: names =>
      let acc := acc ++ take (cap - length acc) n in
      emit_names cap names (if (length acc <? cap)%nat then acc ++ [NEWLINE] else acc)
  end.

Definition entry_fs_list_dir (e : SysEnv) (path_ptr path_len out_ptr out_len : Z) (g : Globals) : answer :=
  match user_str e path_ptr path_len with
  | None => fails EFAULT g
  | Some path =>
      if negb (user_slice_ok out_ptr out_len) then fails EFAULT g else
      match g_vfs g with
      | None => fails EIO g
      | Some v =>
          match list_directory v (entry_resolve path g) with
          | Ok l => let bytes := emit_names (Z.to_nat out_len) (map de_name l) [] in Done (sys_ok (Z.of_nat (length bytes)), store out_ptr bytes, g)
          | Err NotFound => fails ENOENT g
          | Err NotADirectory => fails EINVAL g
          | Err _ => fails EIO g
          end
      end
  end.

(** [FsCreate], [FsMkdir] and [FsDelete] differ in the operation and its errors. *)
Definition entry_on_path {A} (e : SysEnv) (path_ptr path_len : Z) (op : str -> InMemoryVfs -> run (result VfsError A * InMemoryVfs)) (errno : VfsError -> Z) (g : Globals) : answer :=
  match user_str e path_ptr path_len with
  | None => fails EFAULT g
  | Some path =>
      match g_vfs g with
      | None => fails EIO g
      | Some v => '(r, v) ← op (entry_resolve path g) v; plain (match r with Ok _ => sys_ok 0 | Err x => sys_err (errno x) end) (g_set_vfs v g)
      end
  end.

Definition delete_errno (x : VfsError) : Z := match x with NotFound => ENOENT | NotEmpty => ENOTEMPTY | InvalidPath => EINVAL | _ => EIO end.
Definition entry_fs_create (e : SysEnv) (path_ptr path_len : Z) : Globals -> answer := entry_on_path e path_ptr path_len create_file create_errno.
Definition entry_fs_mkdir (e : SysEnv) (path_ptr path_len : Z) : Globals -> answer := entry_on_path e path_ptr path_len create_directory create_errno.
Definition entry_fs_delete (e : SysEnv) (path_ptr path_len : Z) : Globals -> answer := entry_on_path e path_ptr path_len vfs_delete delete_errno.

(** ** Processes *)

Definition entry_get_cwd (buf_ptr buf_len : Z) (g : Globals) : answer :=
  if negb (user_slice_ok buf_ptr buf_len) then fails EFAULT g else
  let bytes := take (Z.to_nat buf_len) (g_cwd g) in Done (sys_ok (Z.of_nat (length bytes)), store buf_ptr bytes, g).

Definition entry_set_cwd (e : SysEnv) (path_ptr path_len : Z) (g : Globals) : answer :=
  match user_str e path_ptr path_len with
  | None => fails EFAULT g
  | Some path =>
      let abs := entry_resolve path g in
      match g_vfs g with
      | None => fails EIO g
      | Some v =>
          match vfs_stat v abs with
          | Ok st =>
              if negb (bool_decide (st_type st = Directory)) then fails EINVAL g else
              plain (sys_ok 0) (match g_procs g with Some pt => g_set_procs (snd (set_cwd (g_task g) abs pt)) g | None => g end)
          | Err NotFound => fails ENOENT g
          | Err _ => fails EIO g
          end
      end
  end.

(** One record: number, seven bytes of the name, whether it has exited. *)
Definition process_record (x : ProcessEntry) : list Z :=
  let name := take 7 (pe_name x) in
  to_le_bytes 8 (pe_id x) ++ name ++ replicate (7 - length name) 0 ++ [match pe_exit_code x with Some _ => 1 | None => 0 end].

Fixpoint emit_records (cap : nat) (l : list ProcessEntry) (offset : nat) : list (list Z) :=
  match l with
  | [] => []
  | x :: l => if (cap <? offset + 16)%nat then [] else process_record x :: emit_records cap l (offset + 16)
  end.

Definition entry_process_list (buf_ptr buf_len : Z) (g : Globals) : answer :=
  if negb (user_slice_ok buf_ptr buf_len) then fails EFAULT g else
  match g_procs g with
  | None => fails EIO g
  | Some pt => let rs := emit_records (Z.to_nat buf_len) (proc_list pt) 0 in Done (sys_ok (Z.of_nat (length rs)), store buf_ptr (concat rs), g)
  end.

Definition entry_process_kill (target_pid : Z) (g : Globals) : answer :=
  match g_procs g with
  | None => fails EIO g
  | Some pt =>
      match proc_get target_pid pt with
      | None => fails ESRCH g
      | Some _ => plain (sys_ok 0) (g_set_procs (snd (record_exit target_pid 137 pt)) g)
      end
  end.

Definition entry_process_wait (g : Globals) : answer :=
  match g_procs g with
  | None => fails EIO g
  | Some pt =>
      let '(r, pt) := reap_child (g_task g) pt in
      plain (match r with Some (child_id, exit_code) => {| rax := exit_code; rdx := child_id |} | None => {| rax := 0; rdx := 0 |} end) (g_set_procs pt g)
  end.

(** ** The calls that both sides have *)

Inductive entry_call :=
| EcPipe | EcRead (fd ptr len : Z) | EcWrite (fd ptr len : Z) | EcClose (fd : Z) | EcDup (fd : Z) | EcDup2 (old_fd new_fd : Z) | EcSeek (fd offset whence : Z)
| EcOpen (ptr len flags : Z) | EcStat (ptr len buf : Z) | EcCreate (ptr len : Z) | EcDelete (ptr len : Z) | EcMkdir (ptr len : Z) | EcSetCwd (ptr len : Z) | EcWait (child flags : Z) | EcKill (pid : Z)
| EcReadConsole (ptr len : Z) | EcListDir (ptr len out_ptr out_len : Z) | EcGetCwd (ptr len : Z) | EcProcessList (ptr len : Z).

Definition entry_step (e : SysEnv) (input : list (option Z)) (c : entry_call) (g : Globals) : option answer :=
  match c with
  | EcPipe => Some (entry_pipe_create g)
  | EcRead fd p n => entry_fd_read e input fd p n g
  | EcWrite fd p n => Some (entry_fd_write e fd p n g)
  | EcClose fd => Some (entry_fd_close fd g)
  | EcDup fd => Some (entry_fd_dup fd g)
  | EcDup2 a b => Some (entry_fd_dup2 a b g)
  | EcSeek fd o w => Some (entry_fd_seek fd o w g)
  | EcOpen p n fl => Some (entry_fs_open e p n fl g)
  | EcStat p n b => Some (entry_fs_stat e p n b g)
  | EcCreate p n => Some (entry_fs_create e p n g)
  | EcDelete p n => Some (entry_fs_delete e p n g)
  | EcMkdir p n => Some (entry_fs_mkdir e p n g)
  | EcSetCwd p n => Some (entry_set_cwd e p n g)
  | EcWait _ _ => Some (entry_process_wait g)
  | EcKill pid => Some (entry_process_kill pid g)
  | EcReadConsole p n => option_map Done (entry_read_console e input p n g)
  | EcListDir p n out out_len => Some (entry_fs_list_dir e p n out out_len g)
  | EcGetCwd p n => Some (entry_get_cwd p n g)
  | EcProcessList p n => Some (entry_process_list p n g)
  end.

(** What the registers and the user's memory ask for, when the pointers pass. *)
Definition as_call (e : SysEnv) (c : entry_call) : option shell_call :=
  match c with
  | EcPipe => Some ScPipe
  | EcRead fd p n => if user_slice_ok p n then Some (ScRead (wrap32 fd) n) else None
  | EcWrite fd p n => if negb (n =? 0) && user_range_ok p n then Some (ScWrite (wrap32 fd) (se_user e p n)) else None
  | EcClose fd => Some (ScClose (wrap32 fd))
  | EcDup fd => Some (ScDup (wrap32 fd))
  | EcDup2 a b => Some (ScDup2 (wrap32 a) (wrap32 b))
  | EcSeek fd o w => Some (ScSeek (wrap32 fd) (as_i64 o) (wrap32 w))
  | EcOpen p n fl => s ← user_str e p n; Some (ScOpen s (wrap32 fl))
  | EcStat p n b => if negb (user_range_ok b 17) || (b =? 0) then None else s ← user_str e p n; Some (ScStat s)
  | EcCreate p n => s ← user_str e p n; Some (ScCreate s)
  | EcDelete p n => s ← user_str e p n; Some (ScDelete s)
  | EcMkdir p n => s ← user_str e p n; Some (ScMkdir s)
  | EcSetCwd p n => s ← user_str e p n; Some (ScSetCwd s)
  | EcWait a b => Some (ScWait a b)
  | EcKill pid => Some (ScKill pid)
  | EcReadConsole p n => if user_slice_ok p n then Some (ScReadConsole n) else None
  | EcListDir p n out out_len => if user_slice_ok out out_len then s ← user_str e p n; Some (ScList s) else None
  | EcGetCwd p n => if user_slice_ok p n then Some ScGetCwd else None
  | EcProcessList p n => if user_slice_ok p n then Some ScProcesses else None
  end.

(** The globals of a running kernel: every table exists. *)
Definition globals_of (s : KernelState) (screen : list Z) : Globals :=
  {| g_fds := Some (fd_table s); g_pipes := Some (pipe_registry s); g_vfs := Some (vfs s); g_procs := Some (process_table s); g_current := Some (current_task s); g_screen := screen |}.

(** Where the two differ: the access mode of an open file is checked here only, the console is the serial port,
    and lists are copied to a buffer of the caller, which may be too small for them. *)
Definition on_kind (fd : Z) (s : KernelState) (p : FdKind -> bool) : bool := match fd_get fd (fd_table s) with Some d => p (fd_kind d) | None => false end.
Definition mode_refused (c : shell_call) (s : KernelState) : bool :=
  match c with
  | ScRead fd _ => on_kind fd s (fun k => match k with FkFsFile _ _ fl => negb (is_readable fl) | _ => false end)
  | ScWrite fd _ => on_kind fd s (fun k => match k with FkFsFile _ _ fl => negb (is_writable fl) | _ => false end)
  | _ => false
  end.
Definition serial_read (c : shell_call) (s : KernelState) : bool :=
  match c with ScRead fd _ => on_kind fd s (fun k => match k with FkConsole r _ => r | _ => false end) | ScReadConsole _ => true | _ => false end.

(** A listing in the user's buffer of [cap] bytes, when the handler gives one:
    the lines of a directory or the path as far as they go, as many whole
    records of 16 bytes as fit; and the answer, which counts the bytes stored,
    or the records. *)
Definition wire_record (x : Z * str * bool) : list Z :=
  let '(pid, name, exited) := x in to_le_bytes 8 pid ++ take 7 (name ++ replicate 7 0) ++ [if exited then 1 else 0].
Definition listing (cap : nat) (c : shell_call) (s : KernelState) : option (Z * list Z) :=
  match c with
  | ScList p => let '(r, names) := handle_fs_list_dir p s in if rdx r =? 0 then let bytes := take cap (concat (map (fun n => n ++ [NEWLINE]) names)) in Some (Z.of_nat (length bytes), bytes) else None
  | ScGetCwd => let bytes := take cap (snd (handle_get_cwd s)) in Some (Z.of_nat (length bytes), bytes)
  | ScProcesses => let rs := take (cap / 16) (map wire_record (snd (handle_process_list s))) in Some (Z.of_nat (length rs), concat rs)
  | _ => None
  end.
Definition buffer_of (c : entry_call) : Z * Z := match c with EcListDir _ _ p n | EcGetCwd p n | EcProcessList p n | EcRead _ p n | EcReadConsole p n => (p, n) | _ => (0, 0) end.

(** What a call stores in user memory, and what it prints. *)
Definition call_bytes (c : shell_call) (s : KernelState) : list Z :=
  match c with
  | ScRead fd n => match handle_fd_read fd n s with Done (_, bs, _) => bs | Panicked => [] end
  | ScStat p => match snd (handle_fs_stat p s) with Some (i, size, t) => to_le_bytes 8 i ++ to_le_bytes 8 size ++ [t] | None => [] end
  | _ => []
  end.
Definition call_prints (c : shell_call) (s : KernelState) : list Z :=
  match c with
  | ScWrite fd data => match fd_get fd (fd_table s) with Some d => match fd_kind d with FkConsole _ true => data | _ => [] end | None => [] end
  | _ => []
  end.
Definition call_target (c : entry_call) : Z := match c with EcRead _ p _ => p | EcStat _ _ b => b | _ => 0 end.

(** ** Agreement of the two implementations *)

Definition env_ok (e : SysEnv) : Prop := forall p n, length (se_user e p n) = Z.to_nat n.

(** The answer the other handler gives, seen here. *)
Definition carried (c : entry_call) (sc : shell_call) (s : KernelState) (screen : list Z) : answer :=
  match shell_step sc s with
  | Done (r, s') => Done (r, store (call_target c) (call_bytes sc s), globals_of s' (screen ++ call_prints sc s))
  | Panicked => Panicked
  end.

Lemma emit_chunks_all n data g : (length data < n)%nat -> emit_chunks n data g = g_emit data g.
Proof.
  revert data g. induction n as [|n IH]; intros data g Hn; [lia|]. cbn [emit_chunks]. destruct data as [|x data]; [unfold g_emit; rewrite app_nil_r; by destruct g|].
  rewrite IH by (rewrite length_drop; cbn [length] in *; lia). unfold g_emit. cbn [g_screen g_fds g_pipes g_vfs g_procs g_current]. by rewrite <- app_assoc, take_drop.
Qed.

Lemma read_file_short inode off n v bs : read_file inode off n v = Ok bs -> 0 <= off -> 0 <= n -> Z.of_nat (length bs) <= n.
Proof.
  intros Hr Ho Hn. unfold read_file in Hr. destruct (inodes v !! inode); [|done]. case_bool_decide; [done|]. destruct (_ || _); [injection Hr as <-; cbn; lia|]. injection Hr as <-. unfold slice_get. destruct (_ && _); [|cbn; lia].
  change (default [] (Some ?x)) with x. rewrite length_take. unfold saturating_add64. lia.
Qed.

Lemma seek_carried fd o w s screen : entry_fd_seek fd o w (globals_of s screen) = carried (EcSeek fd o w) (ScSeek (wrap32 fd) (as_i64 o) (wrap32 w)) s screen.
Proof.
  unfold entry_fd_seek, carried. cbn [shell_step call_bytes call_prints g_fds globals_of]. unfold handle_fd_seek. destruct (fd_get (wrap32 fd) (fd_table s)) as [d|]; [|by rewrite app_nil_r].
  destruct (fd_kind d) as [| |inode cur fl|]; try (by rewrite app_nil_r).
  assert (forall x, match x with Some pos => plain (sys_ok pos) (g_set_offset (wrap32 fd) pos (globals_of s screen)) | None => fails EINVAL (globals_of s screen) end =
    let '(r, s') := match x with Some pos => (sys_ok pos, set_offset (wrap32 fd) pos s) | None => (sys_err EINVAL, s) end in Done (r, store (call_target (EcSeek fd o w)) [], globals_of s' (screen ++ []))) as Hf by (intros [x|]; by rewrite app_nil_r).
  destruct (wrap32 w =? 0); [apply Hf|]. destruct (wrap32 w =? 1); [apply Hf|]. destruct (wrap32 w =? 2); [|by rewrite app_nil_r]. cbn [g_vfs globals_of]. destruct (file_size (vfs s) inode); [apply Hf|by rewrite app_nil_r].
Qed.

Lemma pipe_carried s screen : entry_pipe_create (globals_of s screen) = carried EcPipe ScPipe s screen.
Proof.
  unfold entry_pipe_create, carried. cbn [shell_step call_bytes call_prints g_pipes globals_of]. unfold handle_pipe_create. destruct (pipe_create (pipe_registry s)) as [id reg]. cbn [g_fds g_set_pipes globals_of]. rewrite app_nil_r.
  destruct (fd_open _ (fd_table s)) as [[rfd|] t]; [|done]. by destruct (fd_open _ t) as [[wfd|] t'].
Qed.

Lemma shut_globals k s screen : g_shut k (globals_of s screen) = globals_of (shut_pipe_end k s) screen.
Proof. unfold g_shut, shut_pipe_end. destruct k as [|id re| |]; try done. cbn [g_pipes globals_of]. by destruct (pipe_get id (pipe_registry s)). Qed.

Lemma descriptors_carried c sc s screen e input : match c with EcClose _ | EcDup _ | EcDup2 _ _ => True | _ => False end -> as_call e c = Some sc -> entry_step e input c (globals_of s screen) = Some (carried c sc s screen).
Proof.
  intros Hc E. destruct c; try done; injection E as <-; cbn [entry_step]; f_equal; unfold carried; cbn [shell_step call_bytes call_prints]; rewrite app_nil_r.
  - unfold entry_fd_close, handle_fd_close. cbn [g_fds globals_of]. destruct (fd_get (wrap32 fd) (fd_table s)) as [d|]; [|done]. rewrite shut_globals. rewrite (proj1 (shut_same s (fd_kind d))). by destruct (fd_close (wrap32 fd) (fd_table s)).
  - unfold entry_fd_dup, handle_fd_dup. cbn [g_fds globals_of]. by destruct (fd_dup (wrap32 fd) (fd_table s)).
  - unfold entry_fd_dup2, handle_fd_dup2. cbn [g_fds globals_of]. destruct (fd_get (wrap32 new_fd) (fd_table s)) as [d|].
    + rewrite shut_globals. cbn [g_fds globals_of]. by destruct (fd_dup2 _ _ _).
    + cbn [g_fds globals_of]. by destruct (fd_dup2 _ _ _).
Qed.

Lemma open_inode_carried inode fl s screen : g_open_inode inode fl (globals_of s screen) = let '(r, s') := open_fd_for_inode inode fl s in Done (r, [], globals_of s' screen).
Proof. unfold g_open_inode, open_fd_for_inode. cbn [g_fds globals_of]. by destruct (fd_open _ _). Qed.

Lemma open_carried e p n fl path s screen : user_str e p n = Some path -> entry_fs_open e p n fl (globals_of s screen) = carried (EcOpen p n fl) (ScOpen path (wrap32 fl)) s screen.
Proof.
  intros Hp. unfold entry_fs_open, carried. rewrite Hp. cbn [shell_step call_bytes call_prints g_vfs globals_of]. rewrite app_nil_r. unfold handle_fs_open. change (entry_resolve path (globals_of s screen)) with (ks_resolve s path). set (abs := ks_resolve s path). set (f := wrap32 fl).
  destruct (vfs_stat (vfs s) abs) as [st|[]]; try done.
  - destruct (_ && _); [done|]. destruct (has_trunc f && is_writable f).
    + destruct (vfs_delete abs (vfs s)) as [[rd v1]|]; [|done]. cbn [mbind run_bind]. destruct (create_file abs v1) as [[[ino|x] v2]|]; [|done|done]. cbn [mbind run_bind]. change (g_set_vfs v2 (globals_of s screen)) with (globals_of (set_vfs v2 s) screen). rewrite open_inode_carried. by destruct (open_fd_for_inode _ _ _).
    + rewrite open_inode_carried. by destruct (open_fd_for_inode _ _ _).
  - destruct (has_create f); cbn [negb]; [|done]. destruct (create_file abs (vfs s)) as [[r v2]|]; [|done]. cbn [mbind run_bind]. change (g_set_vfs v2 (globals_of s screen)) with (globals_of (set_vfs v2 s) screen).
    destruct r as [ino|[]]; try done; [rewrite open_inode_carried; by destruct (open_fd_for_inode _ _ _)|]. destruct (vfs_stat v2 abs) as [st|]; [|done]. rewrite open_inode_carried. by destruct (open_fd_for_inode _ _ _).
Qed.

(** ** Reading and writing *)

Lemma pipe_read_any a b p : length a = length b -> let '(r, x, p1) := pipe_read a p in let '(r', y, p2) := pipe_read b p in
  exists n, r = Ok n /\ r' = Ok n /\ take (Z.to_nat n) x = take (Z.to_nat n) y /\ p1 = p2.
Proof.
  intros E. rewrite !pipe_read_spec. rewrite E. cbv zeta. eexists. split; [reflexivity|]. split; [reflexivity|]. split; [|reflexivity].
  rewrite Nat2Z.id, !take_app_le by (rewrite length_take; lia). done.
Qed.

Lemma slice_bounds p n : user_slice_ok p n = true -> 0 <= n -> 0 < n <= 0x100000.
Proof. unfold user_slice_ok. intros H ?. apply andb_true_iff in H as [H _]. apply negb_true_iff in H. apply orb_false_iff in H as [H ?]. apply orb_false_iff in H as [_ ?]. lia. Qed.

Lemma read_carried e input fd p n s screen : env_ok e -> ks_wf s -> 0 <= n -> user_slice_ok p n = true -> mode_refused (ScRead (wrap32 fd) n) s = false -> serial_read (ScRead (wrap32 fd) n) s = false ->
  entry_fd_read e input fd p n (globals_of s screen) = Some (carried (EcRead fd p n) (ScRead (wrap32 fd) n) s screen).
Proof.
  intros He Hs Hn0 Hu Hm Hc. assert (0 < n <= 0x100000) as Hn by (by apply (slice_bounds p n)).
  unfold entry_fd_read. destruct (Z.eqb_spec n 0); [lia|]. rewrite Hu. cbn [negb g_fds globals_of]. unfold carried. cbn [shell_step call_bytes call_prints call_target]. unfold mode_refused, serial_read, on_kind in Hm, Hc. unfold handle_fd_read. rewrite app_nil_r.
  destruct (fd_get (wrap32 fd) (fd_table s)) as [d|] eqn:Ed; [|done]. destruct (fd_kind d) as [r w|id re|inode off fl|] eqn:Ek; [by subst r| | |done].
  - destruct re; cbn [negb]; [|done]. cbn [g_pipes globals_of]. destruct (pipe_get id (pipe_registry s)) as [ring|]; [|done]. assert (ISIZE_MAX <? n = false) as -> by (unfold ISIZE_MAX; lia).
    pose proof (pipe_read_any (se_user e p n) (replicate (Z.to_nat n) 0) ring ltac:(by rewrite He, length_replicate)) as Hp.
    destruct (pipe_read (se_user e p n) ring) as [[r x] p1], (pipe_read (replicate (Z.to_nat n) 0) ring) as [[r' y] p2]. destruct Hp as (k & -> & -> & Et & ->). cbn [mbind run_bind]. by rewrite Et.
  - apply negb_false_iff in Hm. rewrite Hm. cbn [negb g_vfs globals_of]. destruct (read_file inode off n (vfs s)) as [bs|[]] eqn:Er; try done. cbn [mbind run_bind].
    assert (Z.of_nat (length bs) <= n) as Hl by (apply (read_file_short inode off n (vfs s)); [exact Er| |lia]; pose proof (kw_kinds s Hs _ _ Ed) as Hk; rewrite Ek in Hk; destruct Hk as [_ [Hk _]]; exact Hk).
    rewrite Z.min_l, Nat2Z.id, take_ge by lia. done.
Qed.

Lemma write_carried e fd p n s screen : n <> 0 -> user_range_ok p n = true -> mode_refused (ScWrite (wrap32 fd) (se_user e p n)) s = false ->
  entry_fd_write e fd p n (globals_of s screen) = carried (EcWrite fd p n) (ScWrite (wrap32 fd) (se_user e p n)) s screen.
Proof.
  intros Hn Hu Hm. unfold entry_fd_write. destruct (Z.eqb_spec n 0); [lia|]. rewrite Hu. cbn [negb g_fds globals_of]. unfold carried. cbn [shell_step call_bytes call_prints call_target]. unfold mode_refused, on_kind in Hm. unfold handle_fd_write.
  destruct (fd_get (wrap32 fd) (fd_table s)) as [d|]; [|by rewrite app_nil_r]. destruct (fd_kind d) as [r w|id re|inode off fl|]; [| | |by rewrite app_nil_r].
  - destruct w; cbn [negb]; [|by rewrite app_nil_r]. by rewrite emit_chunks_all by lia.
  - rewrite app_nil_r. destruct re; [done|]. cbn [g_pipes globals_of]. destruct (pipe_get id (pipe_registry s)) as [ring|]; [|done]. destruct (pipe_write _ ring) as [[k|[]] ring']; done.
  - rewrite app_nil_r. apply negb_false_iff in Hm. rewrite Hm. cbn [negb g_vfs globals_of]. destruct (write_file _ _ _ _) as [[[k|[]] v]|]; done.
Qed.

(** ** Paths and processes *)

Lemma on_path_carried {A} e p n path (op : str -> InMemoryVfs -> run (result VfsError A * InMemoryVfs)) errno s screen : user_str e p n = Some path ->
  entry_on_path e p n op errno (globals_of s screen) = match op (ks_resolve s path) (vfs s) with Done (r, v) => Done (match r with Ok _ => sys_ok 0 | Err x => sys_err (errno x) end, [], globals_of (set_vfs v s) screen) | Panicked => Panicked end.
Proof. intros Ep. unfold entry_on_path. rewrite Ep. cbn [g_vfs globals_of]. change (entry_resolve path (globals_of s screen)) with (ks_resolve s path). by destruct (op _ _) as [[[]]|]. Qed.

Lemma paths_carried c sc s screen e input : match c with EcStat _ _ _ | EcCreate _ _ | EcDelete _ _ | EcMkdir _ _ | EcSetCwd _ _ | EcWait _ _ | EcKill _ => True | _ => False end -> as_call e c = Some sc ->
  entry_step e input c (globals_of s screen) = Some (carried c sc s screen).
Proof.
  intros Hc E. destruct c as [| | | | | | | |p n b|p n|p n|p n|p n|a b|pid| | | |]; try done; cbn [as_call entry_step] in *; f_equal.
  - destruct (_ || _) eqn:Eb; [done|]. destruct (user_str e p n) as [path|] eqn:Ep; [|done]. injection E as <-. unfold entry_fs_stat, carried. rewrite Ep, Eb. cbn [shell_step call_bytes call_prints call_target g_vfs globals_of]. rewrite app_nil_r. unfold handle_fs_stat. change (entry_resolve path (globals_of s screen)) with (ks_resolve s path).
    by destruct (vfs_stat (vfs s) (ks_resolve s path)) as [st|[]].
  - destruct (user_str e p n) as [path|] eqn:Ep; [|done]. injection E as <-. unfold entry_fs_create, carried. rewrite (on_path_carried e p n path) by exact Ep. cbn [shell_step call_bytes call_prints]. rewrite app_nil_r. unfold handle_fs_create. by destruct (create_file _ _) as [[[]]|].
  - destruct (user_str e p n) as [path|] eqn:Ep; [|done]. injection E as <-. unfold entry_fs_delete, carried. rewrite (on_path_carried e p n path) by exact Ep. cbn [shell_step call_bytes call_prints]. rewrite app_nil_r. unfold handle_fs_delete. by destruct (vfs_delete _ _) as [[[|[]] v]|].
  - destruct (user_str e p n) as [path|] eqn:Ep; [|done]. injection E as <-. unfold entry_fs_mkdir, carried. rewrite (on_path_carried e p n path) by exact Ep. cbn [shell_step call_bytes call_prints]. rewrite app_nil_r. unfold handle_fs_mkdir. by destruct (create_directory _ _) as [[[]]|].
  - destruct (user_str e p n) as [path|] eqn:Ep; [|done]. injection E as <-. unfold entry_set_cwd, carried. rewrite Ep. cbn [shell_step call_bytes call_prints g_vfs globals_of]. rewrite app_nil_r. unfold handle_set_cwd. change (entry_resolve path (globals_of s screen)) with (ks_resolve s path).
    destruct (vfs_stat (vfs s) (ks_resolve s path)) as [st|[]]; try done. by destruct (negb _).
  - injection E as <-. unfold entry_process_wait, carried. cbn [shell_step call_bytes call_prints g_procs globals_of]. rewrite app_nil_r. unfold handle_process_wait. change (g_task (globals_of s screen)) with (current_task s). by destruct (reap_child _ _) as [[[]|] t].
  - injection E as <-. unfold entry_process_kill, carried. cbn [shell_step call_bytes call_prints g_procs globals_of]. rewrite app_nil_r. unfold handle_process_kill. by destruct (proc_get pid (process_table s)).
Qed.

(** ** Console input *)

(** The loop ends with at least one byte, never overruns, and leaves the rest of the buffer alone. *)
Lemma console_poll_bounds input : forall max pos dest echo n dest' echo' rest, (0 < max)%nat -> (pos <= max)%nat -> length dest = max -> console_poll input max pos dest echo = Some (n, dest', echo', rest) ->
  (0 < n <= max)%nat /\ length dest' = max /\ exists extra, echo' = echo ++ extra.
Proof.
  induction input as [|[b|] input IH]; intros max pos dest echo n dest' echo' rest Hm Hp Hd E; cbn [console_poll] in E.
  1-3: destruct (Nat.leb_spec max pos); [injection E as <- <- <- <-; split; [lia|]; split; [exact Hd|]; exists []; by rewrite app_nil_r|]; try done.
  - destruct (b =? 13); [injection E as <- <- <- <-; split; [lia|]; split; [by rewrite length_insert|]; by eexists|].
    assert (forall pos' dest2 more, (pos' <= max)%nat -> length dest2 = max -> console_poll input max pos' dest2 (echo ++ more) = Some (n, dest', echo', rest) -> (0 < n <= max)%nat /\ length dest' = max /\ exists extra, echo' = echo ++ extra) as Hgo.
    { intros pos' dest2 more ? ? E'. destruct (IH max pos' dest2 _ _ _ _ _ Hm ltac:(lia) ltac:(done) E') as (? & ? & extra & ->). split; [done|]. split; [done|]. exists (more ++ extra). by rewrite app_assoc. }
    destruct (_ || _); [destruct (0 <? pos)%nat|]; (eapply Hgo; [| |exact E]); rewrite ?length_insert; lia.
  - destruct (0 <? pos)%nat eqn:E0; [|exact (IH max pos dest echo _ _ _ _ Hm Hp Hd E)]. apply Nat.ltb_lt in E0. injection E as <- <- <- <-. split; [lia|]. split; [exact Hd|]. exists []. by rewrite app_nil_r.
Qed.

(** What a read of the serial console may answer: it waits, or it has stored one to [n] bytes and echoed what it read. *)
Definition serial_answer (p n : Z) (s : KernelState) (screen : list Z) (x : option answer) : Prop :=
  x = None \/ exists k dest extra, x = Some (Done (sys_ok k, [(p, dest)], globals_of s (screen ++ extra))) /\ 1 <= k <= n /\ length dest = Z.to_nat n.

Lemma serial_read_answer e input fd p n s screen : env_ok e -> 0 <= n -> user_slice_ok p n = true -> serial_read (ScRead (wrap32 fd) n) s = true -> serial_answer p n s screen (entry_fd_read e input fd p n (globals_of s screen)).
Proof.
  intros He Hn0 Hu Hc. pose proof (slice_bounds p n Hu Hn0) as Hn. unfold entry_fd_read. destruct (Z.eqb_spec n 0); [lia|]. rewrite Hu. cbn [negb g_fds globals_of]. unfold serial_read, on_kind in Hc.
  destruct (fd_get (wrap32 fd) (fd_table s)) as [d|]; [|done]. destruct (fd_kind d) as [r w| | |]; try done. subst r. cbn [negb]. unfold console_read. destruct (console_poll _ _ _ _ _) as [[[[k dest] echo] rest]|] eqn:E; [|by left]. right.
  destruct (console_poll_bounds input (Z.to_nat n) 0 _ [] k dest echo rest ltac:(lia) ltac:(lia) ltac:(by rewrite He) E) as (Hk & Hd & _). exists (Z.of_nat k), dest, echo. split; [done|]. split; [lia|done].
Qed.

(** The call of the handler that reads the console is the same loop. *)
Lemma console_call_answer e input p n s screen : env_ok e -> 0 <= n -> user_slice_ok p n = true -> serial_answer p n s screen (option_map Done (entry_read_console e input p n (globals_of s screen))).
Proof.
  intros He Hn0 Hu. pose proof (slice_bounds p n Hu Hn0) as Hn. unfold entry_read_console. destruct (Z.eqb_spec n 0); [lia|]. rewrite Hu. cbn [negb]. unfold console_read.
  destruct (console_poll _ _ _ _ _) as [[[[k dest] echo] rest]|] eqn:E; [|by left]. right.
  destruct (console_poll_bounds input (Z.to_nat n) 0 _ [] k dest echo rest ltac:(lia) ltac:(lia) ltac:(by rewrite He) E) as (Hk & Hd & _). exists (Z.of_nat k), dest, echo. split; [done|]. split; [lia|done].
Qed.

(** ** Listings *)

Lemma emit_names_lines cap names : forall acc, (length acc <= cap)%nat -> emit_names cap names acc = acc ++ take (cap - length acc) (concat (map (fun n => n ++ [NEWLINE]) names)).
Proof.
  induction names as [|n names IH]; intros acc Ha; cbn [emit_names map concat]; [by rewrite take_nil, app_nil_r|]. set (acc1 := acc ++ take (cap - length acc) n).
  assert (length acc1 = (length acc + Nat.min (cap - length acc) (length n))%nat) as E1 by (unfold acc1; by rewrite length_app, length_take).
  assert (length (if (length acc1 <? cap)%nat then acc1 ++ [NEWLINE] else acc1) <= cap)%nat as Hle by (destruct (Nat.ltb_spec (length acc1) cap); rewrite ?length_app; cbn [length]; lia).
  rewrite IH by exact Hle. rewrite <- app_assoc, !take_app. destruct (Nat.ltb_spec (length acc1) cap) as [Hl|Hl].
  - unfold acc1. rewrite <- !app_assoc. f_equal. f_equal. rewrite !length_app, length_take in *. cbn [length]. rewrite (take_ge [NEWLINE]) by (cbn [length]; lia). f_equal. f_equal. lia.
  - rewrite (proj2 (Nat.sub_0_le cap (length acc1))) by lia. unfold acc1. rewrite <- app_assoc. f_equal. rewrite take_0, app_nil_r. replace (cap - length acc - length n)%nat with O by lia. by rewrite take_0, !app_nil_r.
Qed.

Lemma emit_records_fit cap l : forall k, emit_records cap l (16 * k) = take (cap / 16 - k) (map process_record l).
Proof.
  induction l as [|x l IH]; intros k; cbn [emit_records map]; [by rewrite take_nil|]. pose proof (Nat.div_mod_eq cap 16) as Hd. pose proof (Nat.mod_upper_bound cap 16 ltac:(lia)) as Hm.
  destruct (Nat.ltb_spec cap (16 * k + 16)) as [Hl|Hl]; [replace (cap / 16 - k)%nat with O by lia; done|].
  replace (16 * k + 16)%nat with (16 * S k)%nat by lia. rewrite IH. replace (cap / 16 - k)%nat with (S (cap / 16 - S k)) by lia. done.
Qed.

Lemma process_record_wire x : process_record x = wire_record (pe_id x, pe_name x, match pe_exit_code x with Some _ => true | None => false end).
Proof.
  unfold process_record, wire_record. rewrite take_app, take_replicate, <- app_assoc. f_equal. f_equal. f_equal; [|by destruct (pe_exit_code x)]. rewrite length_take. f_equal. lia.
Qed.

Lemma listing_stored c sc e input s screen : match c with EcListDir _ _ _ _ | EcGetCwd _ _ | EcProcessList _ _ => True | _ => False end -> as_call e c = Some sc ->
  entry_step e input c (globals_of s screen) = match listing (Z.to_nat (snd (buffer_of c))) sc s with Some (k, bytes) => Some (Done (sys_ok k, store (fst (buffer_of c)) bytes, globals_of s screen)) | None => Some (carried c sc s screen) end.
Proof.
  intros Hc E. destruct c as [| | | | | | | | | | | | | | | |p n out m|p n|p n]; try done; cbn [as_call entry_step buffer_of fst snd] in *.
  - destruct (user_slice_ok out m) eqn:Hu; [|done]. destruct (user_str e p n) as [path|] eqn:Ep; [|done]. injection E as <-. unfold entry_fs_list_dir, carried. rewrite Ep, Hu. cbn [negb listing shell_step call_bytes call_prints g_vfs globals_of]. rewrite app_nil_r.
    unfold handle_fs_list_dir. change (entry_resolve path (globals_of s screen)) with (ks_resolve s path). destruct (list_directory (vfs s) (ks_resolve s path)) as [l|[]]; try done.
    cbn [fst rdx sys_ok]. rewrite emit_names_lines by (cbn [length]; lia). cbn [app length]. rewrite Nat.sub_0_r. done.
  - destruct (user_slice_ok p n) eqn:Hu; [|done]. injection E as <-. unfold entry_get_cwd. rewrite Hu. done.
  - destruct (user_slice_ok p n) eqn:Hu; [|done]. injection E as <-. unfold entry_process_list. rewrite Hu. cbn [negb g_procs globals_of listing]. change 0%nat with (16 * 0)%nat. rewrite emit_records_fit, Nat.sub_0_r. unfold handle_process_list. cbn [snd]. rewrite map_map.
    rewrite (map_ext process_record _ process_record_wire). done.
Qed.

(** ** The two implementations agree *)

(** Lengths come from registers. *)
Definition lengths_ok (c : entry_call) : Prop :=
  match c with EcRead _ _ n | EcWrite _ _ n | EcOpen _ n _ | EcStat _ n _ | EcCreate _ n | EcDelete _ n | EcMkdir _ n | EcSetCwd _ n | EcReadConsole _ n | EcGetCwd _ n | EcProcessList _ n => is_u64 n | EcListDir _ n _ m => is_u64 n /\ is_u64 m | _ => True end.
Definition is_empty_transfer (c : entry_call) : bool := match c with EcRead _ _ n | EcWrite _ _ n | EcReadConsole _ n => n =? 0 | _ => false end.

Lemma refused_call e input c s screen : as_call e c = None -> entry_step e input c (globals_of s screen) = Some (plain (if is_empty_transfer c then sys_ok 0 else sys_err EFAULT) (globals_of s screen)).
Proof.
  intros E. destruct c as [|fd p n|fd p n| | | | |p n fl|p n b|p n|p n|p n|p n| | |p n|p n out m|p n|p n]; cbn [as_call entry_step is_empty_transfer] in *; try done.
  - unfold entry_fd_read. destruct (n =? 0); [done|]. by destruct (user_slice_ok p n).
  - unfold entry_fd_write. destruct (n =? 0); [done|]. cbn [negb andb] in E. by destruct (user_range_ok p n).
  - unfold entry_fs_open. by destruct (user_str e p n).
  - unfold entry_fs_stat. destruct (user_str e p n); [|done]. by destruct (_ || _).
  - unfold entry_fs_create, entry_on_path. by destruct (user_str e p n).
  - unfold entry_fs_delete, entry_on_path. by destruct (user_str e p n).
  - unfold entry_fs_mkdir, entry_on_path. by destruct (user_str e p n).
  - unfold entry_set_cwd. by destruct (user_str e p n).
  - unfold entry_read_console. destruct (n =? 0); [done|]. by destruct (user_slice_ok p n).
  - unfold entry_fs_list_dir. destruct (user_str e p n); [|done]. by destruct (user_slice_ok out m).
  - unfold entry_get_cwd. by destruct (user_slice_ok p n).
  - unfold entry_process_list. by destruct (user_slice_ok p n).
Qed.

Lemma mode_refused_call e input c sc s screen : as_call e c = Some sc -> mode_refused sc s = true -> entry_step e input c (globals_of s screen) = Some (fails EBADF (globals_of s screen)).
Proof.
  intros E Hm. destruct c as [|fd p n|fd p n| | | | | | | | | | | | | | | |]; cbn [as_call entry_step] in *;
    try (injection E as <-; done); try (destruct (user_slice_ok _ _); [injection E as <-; done|done]); try (destruct (user_slice_ok _ _); [|done]; destruct (user_str _ _ _); [injection E as <-; done|done]); try (destruct (user_str _ _ _); [injection E as <-; done|done]); try (destruct (_ || _); [done|]; destruct (user_str _ _ _); [injection E as <-; done|done]).
  - destruct (user_slice_ok p n) eqn:Hu; [|done]. injection E as <-. unfold entry_fd_read. destruct (n =? 0) eqn:E0; [unfold user_slice_ok in Hu; rewrite E0, orb_true_r in Hu; done|]. rewrite Hu. cbn [negb g_fds globals_of]. unfold mode_refused, on_kind in Hm.
    destruct (fd_get (wrap32 fd) (fd_table s)) as [d|]; [|done]. destruct (fd_kind d); try done. by rewrite Hm.
  - destruct (n =? 0) eqn:E0; [done|]. cbn [negb andb] in E. destruct (user_range_ok p n) eqn:Hu; [|done]. injection E as <-. unfold entry_fd_write. rewrite E0, Hu. cbn [negb g_fds globals_of]. unfold mode_refused, on_kind in Hm.
    destruct (fd_get (wrap32 fd) (fd_table s)) as [d|]; [|done]. destruct (fd_kind d); try done. by rewrite Hm.
Qed.

Definition listing_call (c : entry_call) : bool := match c with EcListDir _ _ _ _ | EcGetCwd _ _ | EcProcessList _ _ => true | _ => false end.

(** Only those calls are listings. *)
Lemma listing_calls e c sc s : as_call e c = Some sc -> (listing_call c = false -> forall cap, listing cap sc s = None) /\ (listing_call c = true -> serial_read sc s = false).
Proof.
  intros E. destruct c; cbn [as_call] in E; try (destruct (user_slice_ok _ _)); try (destruct (_ || _)); try (destruct (_ && _)); try (destruct (user_str _ _ _)); try done; by injection E as <-.
Qed.

Lemma serial_call_answer e input c sc s screen : env_ok e -> lengths_ok c -> as_call e c = Some sc -> serial_read sc s = true ->
  serial_answer (fst (buffer_of c)) (snd (buffer_of c)) s screen (entry_step e input c (globals_of s screen)).
Proof.
  intros He Hl E Ec. destruct c; cbn [as_call] in E; try (destruct (user_slice_ok _ _) eqn:Hu); try (destruct (_ || _)); try (destruct (_ && _)); try (destruct (user_str _ _ _)); try done; try (injection E as <-); try discriminate Ec; cbn [entry_step buffer_of fst snd]; destruct Hl as [Hl _].
  - by apply serial_read_answer.
  - by apply console_call_answer.
Qed.

Lemma plain_call_carried e input c sc s screen : env_ok e -> ks_wf s -> lengths_ok c -> as_call e c = Some sc -> mode_refused sc s = false -> serial_read sc s = false -> listing_call c = false ->
  entry_step e input c (globals_of s screen) = Some (carried c sc s screen).
Proof.
  intros He Hs Hl E Em Ec Elc. destruct c as [|fd p n|fd p n| | | | |p n fl| | | | | | | |p n| | |]; try done.
  all: try (by apply (descriptors_carried _ sc s screen e input)).
  all: try (by apply (paths_carried _ sc s screen e input)).
  - injection E as <-. cbn [entry_step]. f_equal. apply pipe_carried.
  - cbn [as_call] in E. destruct (user_slice_ok p n) eqn:Hu; [|done]. injection E as <-. cbn [entry_step]. destruct Hl as [Hl _]. by apply read_carried.
  - cbn [as_call] in E. destruct (n =? 0) eqn:E0; [done|]. cbn [negb andb] in E. destruct (user_range_ok p n) eqn:Hu; [|done]. injection E as <-. cbn [entry_step]. f_equal. apply write_carried; [lia|done|done].
  - injection E as <-. cbn [entry_step]. f_equal. apply seek_carried.
  - cbn [as_call] in E. destruct (user_str e p n) as [path|] eqn:Ep; [|done]. injection E as <-. cbn [entry_step]. f_equal. by apply open_carried.
  - cbn [as_call] in E. destruct (user_slice_ok p n) eqn:Hu; [|done]. by injection E as <-.
Qed.

(** C20: the kernel image answers a shell call like the tested handlers do.
    In every well-formed state and whatever the registers hold, a pointer or a
    path text that fails its check is answered with [EFAULT] (a transfer of no
    bytes with 0) and nothing changes; any other of the nineteen calls gives the registers, the tables, the bytes stored in
    user memory and the output of the handler on the same state, with three
    exceptions, which are exactly these: a file opened without the right of the
    transfer is refused with [EBADF]; a read of the console polls the serial
    port, which never answers 0 bytes and never stores past the buffer; and a
    directory listing, a working directory or a process list that the handler
    returns whole is cut to the user's buffer - the lines of the directory and
    the path to the bytes that fit, with their number as the answer (for a
    directory the handler answers the number of entries), the processes to the
    whole records that fit, with the number of these. A refused listing is
    refused alike. *)
Theorem entry_agrees e input c s screen : env_ok e -> ks_wf s -> lengths_ok c ->
  match as_call e c with
  | None => entry_step e input c (globals_of s screen) = Some (plain (if is_empty_transfer c then sys_ok 0 else sys_err EFAULT) (globals_of s screen))
  | Some sc =>
      let '(p, n) := buffer_of c in
      if mode_refused sc s then entry_step e input c (globals_of s screen) = Some (fails EBADF (globals_of s screen))
      else if serial_read sc s then serial_answer p n s screen (entry_step e input c (globals_of s screen))
      else match listing (Z.to_nat n) sc s with
           | Some (k, bytes) => entry_step e input c (globals_of s screen) = Some (Done (sys_ok k, store p bytes, globals_of s screen))
           | None => entry_step e input c (globals_of s screen) = Some (carried c sc s screen)
           end
  end.
Proof.
  intros He Hs Hl. destruct (as_call e c) as [sc|] eqn:E; [|by apply refused_call]. destruct (buffer_of c) as [bp bn] eqn:Eb. destruct (mode_refused sc s) eqn:Em; [by apply (mode_refused_call e input c sc)|].
  destruct (listing_call c) eqn:Elc.
  - rewrite (proj2 (listing_calls e c sc s E) Elc), (listing_stored c sc e input s screen) by (done || by destruct c). rewrite Eb. cbn [fst snd]. by destruct (listing _ _ _) as [[]|].
  - rewrite (proj1 (listing_calls e c sc s E) Elc (Z.to_nat bn)). destruct (serial_read sc s) eqn:Ec; [|by apply plain_call_carried].
    pose proof (serial_call_answer e input c sc s screen He Hl E Ec) as H. by rewrite Eb in H.
Qed.

(** User memory that holds the path everywhere, padded with zeroes. *)
Definition demo_user : SysEnv := {| se_user := fun _ n => take (Z.to_nat n) demo_file ++ replicate (Z.to_nat n - length demo_file) 0; se_now := 0; se_raw := 0 |}.

Lemma demo_user_ok : env_ok demo_user.
Proof. intros p n. cbn [se_user demo_user]. rewrite length_app, length_take, length_replicate. lia. Qed.

Lemma entry_agrees_witness : entry_step demo_user [] (EcOpen 0x1000 2 0x42) (globals_of new_for_test []) = Some (carried (EcOpen 0x1000 2 0x42) (ScOpen demo_file 0x42) new_for_test []) /\
  match carried (EcOpen 0x1000 2 0x42) (ScOpen demo_file 0x42) new_for_test [] with Done (r, _, _) => r = sys_ok 3 | Panicked => False end.
Proof.
  split; [|vm_compute; reflexivity].
  assert (as_call demo_user (EcOpen 0x1000 2 0x42) = Some (ScOpen demo_file 0x42)) as E by (vm_compute; reflexivity).
  pose proof (entry_agrees demo_user [] (EcOpen 0x1000 2 0x42) new_for_test [] demo_user_ok new_for_test_wf ltac:(cbn; unfold is_u64; lia)) as H.
  rewrite E in H. exact H.
Defined.

(** A key that is held back: an empty poll before the first byte makes the read wait, an empty poll after it answers. *)
Example console_waits : console_poll [None; Some 97; None] 8 0 (replicate 8 0) [] = Some (1%nat, [97; 0; 0; 0; 0; 0; 0; 0], [97], []) /\ console_poll [None; None] 8 0 (replicate 8 0) [] = None.
Proof. vm_compute. done. Qed.

(** A directory with one entry: the handler answers 1, the kernel image the five bytes of its line. *)
Example list_counts_differ :
  let root := {| se_user := fun _ n => take (Z.to_nat n) (lit "/"%string) ++ replicate (Z.to_nat n - 1) 0; se_now := 0; se_raw := 0 |} in
  match handle_fs_create (lit "/abcd"%string) new_for_test with
  | Done (_, s) => handle_fs_list_dir (lit "/"%string) s = (sys_ok 1, [lit "abcd"%string]) /\
      entry_fs_list_dir root 0x1000 1 0x2000 64 (globals_of s []) = Done (sys_ok 5, [(0x2000, lit "abcd"%string ++ [10])], globals_of s [])
  | Panicked => False
  end.
Proof. vm_compute. done. Qed.
