(* ===== verification/Arp.v ===== *)
(** * Address resolution (omni-net arp.rs)

    The table from IPv4 addresses to link addresses, with the packets that wait
    for an address to be learnt.  What the table answers and hands back is
    related to the history of the calls made on it. *)

From Stdlib Require Import ZArith Lia.
From stdpp Require Import base numbers list gmap sorting.
From S2P Require Import Prelude Str Net.

(** ** Data *)

Definition ARP_TIMEOUT_SECS : Z := 300.
Definition ARP_MAX_ENTRIES : Z := 256.
Definition ARP_MAX_PENDING : nat := 8.
Definition ARP_REQUEST : Z := 1.
Definition ARP_REPLY : Z := 2.

Definition ip_key (ip : list Z) : Z := from_be_bytes ip.

Record PendingPacket := { pp_data : list Z; pp_next_hop : list Z }.
#[global] Instance pending_packet_eq : EqDecision PendingPacket.
Proof. solve_decision. Defined.
Inductive ArpState := Incomplete (pending : list PendingPacket) | Reachable | Stale.
Record ArpEntry := { ae_ip : list Z; ae_mac : list Z; ae_state : ArpState; ae_timestamp : Z }.
Record ArpTable := { arp_entries : gmap Z ArpEntry; arp_max_entries : Z }.

Inductive ArpResolveResult := Resolved (mac : list Z) | Pending.
Inductive ArpHandleResult := SendReply (p : ArpPacket) | UpdatedTable | ArpIgnored.

Definition ZERO_MAC : list Z := replicate 6 0.

(** ** Operations *)

Definition arp_new (max : Z) : ArpTable := {| arp_entries := ∅; arp_max_entries := max |}.
Definition set_entries (m : gmap Z ArpEntry) (t : ArpTable) : ArpTable := {| arp_entries := m; arp_max_entries := arp_max_entries t |}.
Definition set_ar_state (s : ArpState) (e : ArpEntry) : ArpEntry := {| ae_ip := ae_ip e; ae_mac := ae_mac e; ae_state := s; ae_timestamp := ae_timestamp e |}.

Definition arp_lookup (ip : list Z) (t : ArpTable) : option ArpEntry := arp_entries t !! ip_key ip.

(** The oldest packet makes room for the newest. *)
Definition enqueue_pending (pkt : option PendingPacket) (q : list PendingPacket) : list PendingPacket :=
  match pkt with None => q | Some p => (if (ARP_MAX_PENDING <=? length q)%nat then drop 1 q else q) ++ [p] end.

Definition arp_resolve (ip : list Z) (pkt : option PendingPacket) (t : ArpTable) : ArpResolveResult * ArpTable :=
  let wait e q := (Pending, set_entries (<[ip_key ip := set_ar_state (Incomplete (enqueue_pending pkt q)) e]> (arp_entries t)) t) in
  match arp_entries t !! ip_key ip with
  | Some e => match ae_state e with Incomplete q => wait e q | _ => (Resolved (ae_mac e), t) end
  | None => wait {| ae_ip := ip; ae_mac := ZERO_MAC; ae_state := Incomplete []; ae_timestamp := 0 |} []
  end.

(** [BTreeMap::iter] goes by key, and [min_by_key] keeps the first of equals. *)
Definition arp_key_le (a b : Z * ArpEntry) : Prop := fst a <= fst b.
#[global] Instance arp_key_le_dec a b : Decision (arp_key_le a b).
Proof. unfold arp_key_le. apply _. Defined.
Definition arp_listed (m : gmap Z ArpEntry) : list (Z * ArpEntry) := merge_sort arp_key_le (map_to_list m).
Fixpoint min_timestamp (best : Z * ArpEntry) (l : list (Z * ArpEntry)) : Z * ArpEntry :=
  match l with [] => best | x :: l => min_timestamp (if ae_timestamp (snd x) <? ae_timestamp (snd best) then x else best) l end.
Definition evict_oldest (t : ArpTable) : ArpTable :=
  match arp_listed (arp_entries t) with [] => t | x :: l => set_entries (delete (fst (min_timestamp x l)) (arp_entries t)) t end.

Definition arp_insert (ip mac : list Z) (timestamp : Z) (t : ArpTable) : ArpTable :=
  let key := ip_key ip in
  let t := if bool_decide (arp_entries t !! key = None) && (arp_max_entries t <=? Z.of_nat (size (arp_entries t))) then evict_oldest t else t in
  let pending := match arp_entries t !! key with Some e => match ae_state e with Incomplete q => q | _ => [] end | None => [] end in
  set_entries (<[key := {| ae_ip := ip; ae_mac := mac; ae_timestamp := timestamp; ae_state := if bool_decide (pending = []) then Reachable else Incomplete pending |}]> (arp_entries t)) t.

Definition drain_pending (ip : list Z) (t : ArpTable) : list PendingPacket * ArpTable :=
  match arp_entries t !! ip_key ip with
  | None => ([], t)
  | Some e => (match ae_state e with Incomplete q => q | _ => [] end, set_entries (<[ip_key ip := set_ar_state Reachable e]> (arp_entries t)) t)
  end.

(** The closure that [retain] runs on an entry: [None] drops it. *)
Definition age_entry (now timeout : Z) (e : ArpEntry) : option ArpEntry :=
  let age := saturating_sub now (ae_timestamp e) in
  let twice := Z.min (timeout * 2) u64_max in
  match ae_state e with
  | Reachable => if twice <? age then None else Some (if timeout <? age then set_ar_state Stale e else e)
  | Stale => if age <=? twice then Some e else None
  | Incomplete _ => if age <=? timeout then Some e else None
  end.
Definition expire_stale (now timeout : Z) (t : ArpTable) : ArpTable := set_entries (omap (age_entry now timeout) (arp_entries t)) t.

Definition arp_packet (op : Z) (smac sip tmac tip : list Z) : ArpPacket :=
  {| htype := 1; ptype := 0x0800; hlen := 6; plen := 4; operation := op; sender_mac := smac; sender_ip := sip; target_mac := tmac; target_ip := tip |}.

Definition arp_handle (p : ArpPacket) (our_mac our_ip : list Z) (t : ArpTable) : ArpHandleResult * ArpTable :=
  if negb (htype p =? 1) || negb (ptype p =? 0x0800) then (ArpIgnored, t) else
  if operation p =? ARP_REQUEST then
    let t := arp_insert (sender_ip p) (sender_mac p) 0 t in
    if negb (str_eqb (target_ip p) our_ip) then (ArpIgnored, t)
    else (SendReply (arp_packet ARP_REPLY our_mac our_ip (sender_mac p) (sender_ip p)), t)
  else if operation p =? ARP_REPLY then (UpdatedTable, arp_insert (sender_ip p) (sender_mac p) 0 t)
  else (ArpIgnored, t).

Definition arp_build_request (our_mac our_ip target : list Z) : ArpPacket := arp_packet ARP_REQUEST our_mac our_ip ZERO_MAC target.

(** ** Histories *)

(** The calls the service makes: [AoLearn] is an insertion followed at once by the hand-back of the waiting packets. *)
Inductive arp_op := AoResolve (ip : list Z) (pkt : option PendingPacket) | AoInsert (ip mac : list Z) (ts : Z) | AoLearn (ip mac : list Z) (ts : Z) | AoExpire (now timeout : Z).

Definition arp_step (o : arp_op) (t : ArpTable) : list PendingPacket * ArpTable :=
  match o with
  | AoResolve ip pkt => ([], snd (arp_resolve ip pkt t))
  | AoInsert ip mac ts => ([], arp_insert ip mac ts t)
  | AoLearn ip mac ts => drain_pending ip (arp_insert ip mac ts t)
  | AoExpire now timeout => ([], expire_stale now timeout t)
  end.
Definition arp_run (ops : list arp_op) (t : ArpTable) : ArpTable := fold_left (fun t o => snd (arp_step o t)) ops t.

Definition arp_op_ok (o : arp_op) : Prop := match o with AoResolve ip _ | AoInsert ip _ _ | AoLearn ip _ _ => is_arr 4 ip | AoExpire _ _ => True end.

(** The link address last announced for [ip]. *)
Definition announced1 (ip : list Z) (acc : option (list Z)) (o : arp_op) : option (list Z) :=
  match o with AoInsert i mac _ | AoLearn i mac _ => if str_eqb i ip then Some mac else acc | _ => acc end.
Definition announced (ip : list Z) (ops : list arp_op) : option (list Z) := fold_left (announced1 ip) ops None.

(** The packets for [ip] since it was last learnt. *)
Definition asked1 (ip : list Z) (acc : list PendingPacket) (o : arp_op) : list PendingPacket :=
  match o with
  | AoResolve i (Some p) => if str_eqb i ip then acc ++ [p] else acc
  | AoLearn i _ _ => if str_eqb i ip then [] else acc
  | _ => acc
  end.
Definition asked (ip : list Z) (ops : list arp_op) : list PendingPacket := fold_left (asked1 ip) ops [].

(** ** Invariant *)

Definition entry_fits (ip : list Z) (mac : option (list Z)) (q : list PendingPacket) (e : ArpEntry) : Prop :=
  match ae_state e with
  | Incomplete l => l `suffix_of` q /\ (length l <= ARP_MAX_PENDING)%nat
  | _ => mac = Some (ae_mac e)
  end.

Definition arp_inv (ops : list arp_op) (t : ArpTable) : Prop :=
  forall ip e, is_arr 4 ip -> arp_entries t !! ip_key ip = Some e -> entry_fits ip (announced ip ops) (asked ip ops) e.

Lemma ip_key_inj a b : is_arr 4 a -> is_arr 4 b -> ip_key a = ip_key b -> a = b.
Proof. intros [La Ha] [Lb Hb] E. rewrite <- (to_from_be_bytes a Ha), <- (to_from_be_bytes b Hb). unfold ip_key in E. by rewrite E, La, Lb. Qed.

Lemma str_eqb_ip a b : is_arr 4 a -> is_arr 4 b -> str_eqb a b = (ip_key a =? ip_key b).
Proof.
  intros Ha Hb. destruct (Z.eqb_spec (ip_key a) (ip_key b)) as [E|E]; [apply str_eqb_eq; by apply ip_key_inj|]. apply not_true_iff_false. intros E'. apply str_eqb_eq in E'. by subst.
Qed.

Lemma announced_snoc ip ops o : announced ip (ops ++ [o]) = announced1 ip (announced ip ops) o.
Proof. unfold announced. by rewrite fold_left_app. Qed.
Lemma asked_snoc ip ops o : asked ip (ops ++ [o]) = asked1 ip (asked ip ops) o.
Proof. unfold asked. by rewrite fold_left_app. Qed.

Lemma enqueue_suffix p q w : q `suffix_of` w -> (length q <= ARP_MAX_PENDING)%nat -> enqueue_pending (Some p) q `suffix_of` w ++ [p] /\ (length (enqueue_pending (Some p) q) <= ARP_MAX_PENDING)%nat.
Proof.
  intros [k ->] Hq. unfold enqueue_pending. destruct (Nat.leb_spec ARP_MAX_PENDING (length q)).
  - split; [|rewrite length_app, length_drop; cbn [length]; unfold ARP_MAX_PENDING in *; lia]. exists (k ++ take 1 q). rewrite <- (take_drop 1 q) at 1. by rewrite <- !app_assoc.
  - split; [exists k; by rewrite app_assoc|rewrite length_app; cbn [length]; lia].
Qed.

(** The loop of [evict_oldest] finds an entry of the smallest timestamp. *)
Lemma min_timestamp_spec l : forall best, In (min_timestamp best l) (best :: l) /\ forall x, In x (best :: l) -> ae_timestamp (snd (min_timestamp best l)) <= ae_timestamp (snd x).
Proof.
  induction l as [|y l IH]; intros best; cbn [min_timestamp]; [split; [by left|]; intros x [->|[]]; lia|].
  destruct (IH (if ae_timestamp (snd y) <? ae_timestamp (snd best) then y else best)) as [Hin Hmin]. split.
  - destruct Hin as [<-|Hin]; [destruct (_ <? _); [right; by left|by left]|by right; right].
  - intros x Hx. destruct (Z.ltb_spec (ae_timestamp (snd y)) (ae_timestamp (snd best))) as [Hlt|Hge].
    + destruct Hx as [<-|Hx]; [etrans; [apply Hmin; by left|lia]|by apply Hmin].
    + destruct Hx as [<-|[<-|Hx]]; [apply Hmin; by left|etrans; [apply Hmin; by left|done]|apply Hmin; by right].
Qed.

Lemma in_arp_listed m x : In x (arp_listed m) <-> m !! fst x = Some (snd x).
Proof. unfold arp_listed. rewrite <- list_elem_of_In, merge_sort_Permutation. destruct x as [k e]. apply elem_of_map_to_list. Qed.

Lemma evict_spec t : arp_entries t <> ∅ -> exists k e, arp_entries t !! k = Some e /\ (forall k' e', arp_entries t !! k' = Some e' -> ae_timestamp e <= ae_timestamp e') /\ evict_oldest t = set_entries (delete k (arp_entries t)) t.
Proof.
  intros Hne. unfold evict_oldest. destruct (arp_listed (arp_entries t)) as [|x l] eqn:E.
  - exfalso. apply Hne. apply map_eq. intros k. rewrite lookup_empty. destruct (arp_entries t !! k) as [e|] eqn:Ek; [|done]. apply (in_arp_listed _ (k, e)) in Ek. by rewrite E in Ek.
  - destruct (min_timestamp_spec l x) as [Hin Hmin]. exists (fst (min_timestamp x l)), (snd (min_timestamp x l)). split; [|split; [|done]].
    + apply in_arp_listed. by rewrite E.
    + intros k' e' Hk. apply (Hmin (k', e')). rewrite <- E. by apply in_arp_listed.
Qed.

(** ** The steps keep the invariant *)

Lemma resolve_same ip pkt t k : ip_key ip <> k -> arp_entries (snd (arp_resolve ip pkt t)) !! k = arp_entries t !! k.
Proof. intros H. unfold arp_resolve. destruct (arp_entries t !! ip_key ip) as [e|]; [destruct (ae_state e)|]; try done; cbn; by rewrite lookup_insert_ne. Qed.

Lemma evict_empty t : arp_entries t = ∅ -> evict_oldest t = t.
Proof. intros E. unfold evict_oldest, arp_listed. by rewrite E, map_to_list_empty. Qed.

(** The table an insertion works on: the same, or with one entry less. *)
Definition insert_base (ip : list Z) (t : ArpTable) : ArpTable :=
  if bool_decide (arp_entries t !! ip_key ip = None) && (arp_max_entries t <=? Z.of_nat (size (arp_entries t))) then evict_oldest t else t.
Definition pending_of (o : option ArpEntry) : list PendingPacket := match o with Some e => match ae_state e with Incomplete q => q | _ => [] end | None => [] end.

Lemma insert_base_sub ip t k e : arp_entries (insert_base ip t) !! k = Some e -> arp_entries t !! k = Some e.
Proof.
  unfold insert_base. destruct (_ && _); [|done]. destruct (decide (arp_entries t = ∅)) as [E|E].
  - by rewrite evict_empty.
  - destruct (evict_spec t E) as (k' & e' & _ & _ & ->). cbn. intros H. by apply lookup_delete_Some in H as [_ H].
Qed.

Lemma insert_base_own ip t : arp_entries (insert_base ip t) !! ip_key ip = arp_entries t !! ip_key ip.
Proof.
  unfold insert_base. case_bool_decide as Hn; [|done]. cbn [andb]. destruct (_ <=? _); [|done]. rewrite Hn. destruct (arp_entries (evict_oldest t) !! ip_key ip) eqn:E; [|done].
  exfalso. destruct (decide (arp_entries t = ∅)) as [E0|E0]; [rewrite evict_empty in E by done; by rewrite Hn in E|].
  destruct (evict_spec t E0) as (k' & e' & _ & _ & Ev). rewrite Ev in E. cbn in E. apply lookup_delete_Some in E as [_ E]. by rewrite Hn in E.
Qed.

Lemma arp_insert_entries ip mac ts t : arp_entries (arp_insert ip mac ts t) =
  <[ip_key ip := {| ae_ip := ip; ae_mac := mac; ae_timestamp := ts;
                    ae_state := if bool_decide (pending_of (arp_entries t !! ip_key ip) = []) then Reachable else Incomplete (pending_of (arp_entries t !! ip_key ip)) |}]> (arp_entries (insert_base ip t)).
Proof. rewrite <- (insert_base_own ip t). done. Qed.

Lemma pending_fits ip ops t : arp_inv ops t -> is_arr 4 ip -> pending_of (arp_entries t !! ip_key ip) `suffix_of` asked ip ops /\ (length (pending_of (arp_entries t !! ip_key ip)) <= ARP_MAX_PENDING)%nat.
Proof.
  intros Hi Hip. destruct (arp_entries t !! ip_key ip) as [e|] eqn:E; [|split; [apply suffix_nil|cbn; unfold ARP_MAX_PENDING; lia]]. specialize (Hi ip e Hip E). unfold entry_fits in Hi. cbn. destruct (ae_state e); [done|..]; (split; [apply suffix_nil|cbn; unfold ARP_MAX_PENDING; lia]).
Qed.

Lemma age_entry_fits now timeout ip m q e e' : age_entry now timeout e = Some e' -> entry_fits ip m q e -> entry_fits ip m q e'.
Proof.
  unfold age_entry, entry_fits. intros E H. destruct (ae_state e) eqn:Es; destruct (_ <? _) in E || destruct (_ <=? _) in E; try done; injection E as <-; try (by rewrite Es). destruct (_ <? _); [done|by rewrite Es].
Qed.

Lemma arp_step_inv ops t o : arp_inv ops t -> arp_op_ok o -> arp_inv (ops ++ [o]) (snd (arp_step o t)).
Proof.
  intros Hi Ho ip e Hip He. rewrite announced_snoc, asked_snoc. destruct o as [i pkt|i mac ts|i mac ts|now timeout]; cbn [arp_step arp_op_ok announced1 asked1] in *.
  - cbn [snd] in He. destruct (decide (ip_key i = ip_key ip)) as [Ek|Ek].
    + pose proof (ip_key_inj i ip Ho Hip Ek) as ->. assert (str_eqb ip ip = true) as -> by (by apply str_eqb_eq). unfold arp_resolve in He. pose proof (pending_fits ip ops t Hi Hip) as Hp.
      assert (forall q, q `suffix_of` asked ip ops /\ (length q <= ARP_MAX_PENDING)%nat -> forall e0, entry_fits ip (announced ip ops) (match pkt with Some p => asked ip ops ++ [p] | None => asked ip ops end) (set_ar_state (Incomplete (enqueue_pending pkt q)) e0)) as Hw.
      { intros q [Hq1 Hq2] e0. unfold entry_fits. cbn [ae_state set_ar_state]. destruct pkt as [p|]; [by apply enqueue_suffix|by split]. }
      destruct (arp_entries t !! ip_key ip) as [e0|] eqn:E; [|cbn in He; rewrite lookup_insert_eq in He; injection He as <-; by apply (Hw [])].
      destruct (ae_state e0) as [q| |] eqn:Es; [cbn in He; rewrite lookup_insert_eq in He; injection He as <-; apply Hw; cbn in Hp; by rewrite Es in Hp|..];
        cbn [snd] in He; rewrite E in He; injection He as <-; specialize (Hi ip e0 Hip E); unfold entry_fits in *; rewrite Es in *; by destruct pkt.
    + rewrite resolve_same in He by done. rewrite (str_eqb_ip i ip) by done. destruct (Z.eqb_spec (ip_key i) (ip_key ip)); [done|]. destruct pkt; by apply Hi.
  - cbn [snd] in He. rewrite arp_insert_entries in He. rewrite (str_eqb_ip i ip) by done. destruct (Z.eqb_spec (ip_key i) (ip_key ip)) as [Ek|Ek].
    + pose proof (ip_key_inj i ip Ho Hip Ek) as ->. rewrite lookup_insert_eq in He. injection He as <-. unfold entry_fits. cbn [ae_state ae_mac]. case_bool_decide; [done|]. by apply pending_fits.
    + rewrite lookup_insert_ne in He by done. apply Hi; [done|]. by apply (insert_base_sub i).
  - unfold drain_pending in He. rewrite arp_insert_entries, lookup_insert_eq in He. cbn [snd] in He. cbn [arp_entries set_entries] in He. rewrite (str_eqb_ip i ip) by done. destruct (Z.eqb_spec (ip_key i) (ip_key ip)) as [Ek|Ek].
    + pose proof (ip_key_inj i ip Ho Hip Ek) as ->. rewrite lookup_insert_eq in He. injection He as <-. done.
    + do 2 rewrite lookup_insert_ne in He by done. apply Hi; [done|]. by apply (insert_base_sub i).
  - cbn in He. apply lookup_omap_Some in He as (e0 & E & He). apply (age_entry_fits now timeout ip _ _ e0); [done|]. by apply Hi.
Qed.

Lemma arp_run_inv max ops : Forall arp_op_ok ops -> arp_inv ops (arp_run ops (arp_new max)).
Proof.
  induction ops as [|o ops IH] using rev_ind; [intros _ ip e _ He; done|]. intros H. apply Forall_app in H as [H1 H2]. inversion H2; subst. unfold arp_run. rewrite fold_left_app. cbn [fold_left]. apply arp_step_inv; [by apply IH|done].
Qed.

Lemma arp_run_max max ops : arp_max_entries (arp_run ops (arp_new max)) = max.
Proof.
  induction ops as [|o ops IH] using rev_ind; [done|]. unfold arp_run. rewrite fold_left_app. cbn [fold_left]. fold (arp_run ops (arp_new max)). set (t := arp_run ops (arp_new max)) in *. clearbody t.
  assert (forall ip mac ts, arp_max_entries (arp_insert ip mac ts t) = max) as Hins. { intros ip mac ts. unfold arp_insert. cbn. unfold evict_oldest. destruct (_ && _); [|done]. by destruct (arp_listed _). }
  destruct o as [ip pkt|ip mac ts|ip mac ts|now timeout]; cbn [arp_step snd]; [|done| |done].
  - unfold arp_resolve. destruct (arp_entries t !! ip_key ip) as [e|]; [by destruct (ae_state e)|done].
  - unfold drain_pending. destruct (arp_entries (arp_insert ip mac ts t) !! ip_key ip); apply Hins.
Qed.

(** Learning an address hands back what waits for it, and the address resolves from then on. *)
Lemma arp_learn ip mac ts t : exists t', arp_step (AoLearn ip mac ts) t = (pending_of (arp_lookup ip t), t') /\ forall pkt, arp_resolve ip pkt t' = (Resolved mac, t').
Proof.
  cbn [arp_step]. unfold drain_pending. rewrite arp_insert_entries, lookup_insert_eq. cbn [ae_state]. unfold arp_lookup. eexists. split; [f_equal; by case_bool_decide|]. intros pkt. unfold arp_resolve. cbn [arp_entries set_entries]. by rewrite lookup_insert_eq.
Qed.

(** ** Theorem *)

(** over any calls the service makes on a fresh table, what the table
    knows is what was announced.  A resolved address is the one last announced
    for that IP address; a packet for an unresolved address is kept, behind
    those already waiting, and the packets handed back when the address is
    learnt are the most recent ones for it since it was last learnt, in order
    and at most eight; from then on the announced address resolves.  An
    insertion into a full table removes one entry, of the smallest timestamp,
    and the table does not grow beyond its limit. *)
Theorem arp_history max ops ip : 0 < max -> Forall arp_op_ok ops -> is_arr 4 ip ->
  let t := arp_run ops (arp_new max) in
  (forall pkt m t', arp_resolve ip pkt t = (Resolved m, t') -> announced ip ops = Some m /\ t' = t) /\
  (forall p t', arp_resolve ip (Some p) t = (Pending, t') -> exists q, pending_of (arp_lookup ip t') = q ++ [p] /\ q `suffix_of` asked ip ops) /\
  (forall mac ts ps t', arp_step (AoLearn ip mac ts) t = (ps, t') ->
    ps = pending_of (arp_lookup ip t) /\ ps `suffix_of` asked ip ops /\ (length ps <= ARP_MAX_PENDING)%nat /\ forall pkt, arp_resolve ip pkt t' = (Resolved mac, t')) /\
  (forall mac ts, arp_lookup ip t = None -> max <= Z.of_nat (size (arp_entries t)) ->
    exists k e, arp_entries t !! k = Some e /\ (forall k' e', arp_entries t !! k' = Some e' -> ae_timestamp e <= ae_timestamp e') /\
      arp_entries (arp_insert ip mac ts t) = <[ip_key ip := {| ae_ip := ip; ae_mac := mac; ae_state := Reachable; ae_timestamp := ts |}]> (delete k (arp_entries t)) /\
      size (arp_entries (arp_insert ip mac ts t)) = size (arp_entries t)).
Proof.
  intros Hmax Hops Hip t. pose proof (arp_run_inv max ops Hops) as Hi. fold t in Hi.
  split; [|split; [|split]].
  - intros pkt m t' E. unfold arp_resolve in E. destruct (arp_entries t !! ip_key ip) as [e|] eqn:Ee; [|done]. specialize (Hi ip e Hip Ee). unfold entry_fits in Hi. destruct (ae_state e); [done|..]; injection E as <- <-; done.
  - intros p t' E. pose proof (pending_fits ip ops t Hi Hip) as [Hs Hl]. exists (if (ARP_MAX_PENDING <=? length (pending_of (arp_entries t !! ip_key ip)))%nat then drop 1 (pending_of (arp_entries t !! ip_key ip)) else pending_of (arp_entries t !! ip_key ip)).
    split; [|destruct (_ <=? _)%nat; [|done]; etrans; [apply suffix_drop|done]].
    unfold arp_resolve in E. destruct (arp_entries t !! ip_key ip) as [e|] eqn:Ee.
    + cbn [pending_of] in *. destruct (ae_state e) as [q| |]; [|done|done]. injection E as <-. unfold arp_lookup. cbn. by rewrite lookup_insert_eq.
    + injection E as <-. unfold arp_lookup. cbn. by rewrite lookup_insert_eq.
  - intros mac ts ps t' E. destruct (arp_learn ip mac ts t) as (t1 & E1 & Hr). rewrite E1 in E. injection E as <- <-. destruct (pending_fits ip ops t Hi Hip) as [Hs Hl]. by split_and!.
  - intros mac ts En Hsz. assert (arp_max_entries t = max) as Hm by (apply arp_run_max). assert (arp_entries t <> ∅) as Hne by (intros E0; rewrite E0, map_size_empty in Hsz; lia).
    destruct (evict_spec t Hne) as (k & e & Ek & Hmin & Ev). exists k, e. split; [done|]. split; [done|].
    unfold arp_lookup in En. assert (insert_base ip t = evict_oldest t) as Hb by (unfold insert_base; rewrite Hm; rewrite bool_decide_true by done; cbn [andb]; by destruct (Z.leb_spec max (Z.of_nat (size (arp_entries t)))); [|lia]).
    assert (arp_entries (arp_insert ip mac ts t) = <[ip_key ip := {| ae_ip := ip; ae_mac := mac; ae_state := Reachable; ae_timestamp := ts |}]> (delete k (arp_entries t))) as Hent by (rewrite arp_insert_entries, En, Hb, Ev; done).
    split; [exact Hent|]. rewrite Hent. rewrite map_size_insert_None by (apply lookup_delete_None; by right). rewrite map_size_delete_Some by by exists e. destruct (size (arp_entries t)) eqn:Es; [|lia]. apply map_size_empty_inv in Es. done.
Qed.

Definition demo_host : list Z := [10; 0; 0; 7].
Definition demo_mac : list Z := [2; 0; 0; 0; 0; 7].
Definition demo_pkt (n : Z) : PendingPacket := {| pp_data := [n]; pp_next_hop := demo_host |}.
Definition demo_arp_ops : list arp_op := [AoResolve demo_host (Some (demo_pkt 1)); AoResolve demo_host (Some (demo_pkt 2))].

Lemma demo_host_arr : is_arr 4 demo_host.
Proof. split; [reflexivity|]. unfold demo_host, is_u8. repeat (apply Forall_cons; split; [lia|]). by apply Forall_nil. Qed.

Lemma arp_history_witness : exists t', arp_step (AoLearn demo_host demo_mac 0) (arp_run demo_arp_ops (arp_new 4)) = ([demo_pkt 1; demo_pkt 2], t') /\ forall pkt, arp_resolve demo_host pkt t' = (Resolved demo_mac, t').
Proof.
  destruct (arp_history 4 demo_arp_ops demo_host ltac:(lia)) as (_ & _ & Hl & _).
  - unfold demo_arp_ops. repeat (apply Forall_cons; split; [exact demo_host_arr|]). by apply Forall_nil.
  - exact demo_host_arr.
  - destruct (arp_step (AoLearn demo_host demo_mac 0) (arp_run demo_arp_ops (arp_new 4))) as [ps t'] eqn:E. destruct (Hl demo_mac 0 ps t' E) as (-> & _ & _ & Hr). exists t'. split; [|exact Hr]. f_equal.
Defined.

(** ** What the table gets wrong *)

(** Waiting entries are not counted against the limit: they are created without an eviction. *)
Example waiting_entries_unlimited : size (arp_entries (arp_run [AoResolve [10; 0; 0; 1] None; AoResolve [10; 0; 0; 2] None; AoResolve [10; 0; 0; 3] None] (arp_new 1))) = 3%nat.
Proof. vm_compute. reflexivity. Qed.

(** An address announced by a request for another host is known, but the packets that wait for it stay, and so do later ones. *)
Example announced_but_waiting : let t := arp_run [AoResolve demo_host (Some (demo_pkt 1)); AoInsert demo_host demo_mac 0] (arp_new 4) in
  option_map ae_mac (arp_lookup demo_host t) = Some demo_mac /\ fst (arp_resolve demo_host (Some (demo_pkt 2)) t) = Pending.
Proof. vm_compute. done. Qed.

(** Entries learnt from packets have timestamp 0, so ten minutes after boot every entry is dropped at the next tick however fresh it is. *)
Example fresh_entry_dropped : let t := snd (arp_handle (arp_packet ARP_REPLY demo_mac demo_host ZERO_MAC [10; 0; 0; 1]) ZERO_MAC [10; 0; 0; 1] (arp_new 4)) in
  fst (arp_resolve demo_host None t) = Resolved demo_mac /\ arp_lookup demo_host (expire_stale 601 ARP_TIMEOUT_SECS t) = None.
Proof. vm_compute. done. Qed.
