(* ===== verification/Datagram.v ===== *)
(** * Datagram sockets and echo (omni-net udp.rs, icmp.rs)

    UDP: a table of bound ports with their receive queues, the allocation of
    ephemeral ports, and datagrams on the wire.  ICMP: the answer to an echo
    request, and the record of the echo requests sent. *)

From Stdlib Require Import ZArith Lia.
From stdpp Require Import base numbers list gmap.
From S2P Require Import Prelude Str Net Tcp Ring.

(** ** UDP sockets *)

Definition EPHEMERAL_PORT_MIN : Z := 49152.
Definition EPHEMERAL_PORT_MAX : Z := 65535.

Record UdpSocket := { us_local_port : Z; us_remote : option SocketApiAddr; us_recv_queue : list (SocketApiAddr * list Z) }.
Record UdpSocketTable := { udp_sockets : gmap Z UdpSocket; next_ephemeral : Z }.

Definition udp_new : UdpSocketTable := {| udp_sockets := ∅; next_ephemeral := EPHEMERAL_PORT_MIN |}.
Definition set_sockets (m : gmap Z UdpSocket) (t : UdpSocketTable) : UdpSocketTable := {| udp_sockets := m; next_ephemeral := next_ephemeral t |}.
Definition set_next_ephemeral (p : Z) (t : UdpSocketTable) : UdpSocketTable := {| udp_sockets := udp_sockets t; next_ephemeral := p |}.

Definition udp_bind (port : Z) (t : UdpSocketTable) : result NetError Z * UdpSocketTable :=
  match udp_sockets t !! port with
  | Some _ => (Err AddrInUse, t)
  | None => (Ok port, set_sockets (<[port := {| us_local_port := port; us_remote := None; us_recv_queue := [] |}]> (udp_sockets t)) t)
  end.

Definition sub16 (a b : Z) : run Z := if a <? b then Panicked else Done (a - b).

(** [for i in 0..range_len]; [fuel] turns are left. *)
Fixpoint ephemeral_loop (fuel : nat) (i range_len : Z) (t : UdpSocketTable) : run (result NetError Z * UdpSocketTable) :=
  match fuel with
  | O => Done (Err AddrInUse, t)
  | S fuel =>
      offset ← sub16 (next_ephemeral t) EPHEMERAL_PORT_MIN;
      offset ← add16 offset i;
      candidate ← add16 EPHEMERAL_PORT_MIN (offset mod range_len);
      match udp_sockets t !! candidate with
      | Some _ => ephemeral_loop fuel (i + 1) range_len t
      | None =>
          offset ← sub16 candidate EPHEMERAL_PORT_MIN;
          offset ← add16 offset 1;
          next ← add16 EPHEMERAL_PORT_MIN (offset mod range_len);
          Done (udp_bind candidate (set_next_ephemeral next t))
      end
  end.

Definition allocate_ephemeral (t : UdpSocketTable) : run (result NetError Z * UdpSocketTable) :=
  range_len ← sub16 EPHEMERAL_PORT_MAX EPHEMERAL_PORT_MIN;
  range_len ← add16 range_len 1;
  ephemeral_loop (Z.to_nat range_len) 0 range_len t.

Definition udp_pseudo (src dst : list Z) (len : Z) : PseudoHeader := {| ph_src := src; ph_dst := dst; ph_zero := 0; ph_protocol := 17; ph_length := len |}.

Definition build_udp_packet (src_ip dst_ip : list Z) (sp dp : Z) (payload : list Z) : run (list Z) :=
  let udp_len := let n := 8 + Z.of_nat (length payload) in if n <? 2 ^ 16 then n else 2 ^ 16 - 1 in
  let hdr ck := {| udp_src_port := sp; udp_dst_port := dp; udp_length := udp_len; udp_checksum := ck |} in
  ck ← udp_compute_checksum (hdr 0) (udp_pseudo src_ip dst_ip udp_len) payload;
  Done (in_zeroed 8 (udp_serialize (hdr ck)) ++ payload).

Definition udp_sendto (port : Z) (dst : SocketApiAddr) (src_ip dst_ip data : list Z) (t : UdpSocketTable) : run (result NetError (list Z)) :=
  match udp_sockets t !! port with
  | None => Done (Err InvalidArgument)
  | Some _ =>
      udp_payload ← build_udp_packet src_ip dst_ip port (sa_port dst) data;
      pkt ← build_ipv4_packet src_ip dst_ip 17 64 0 udp_payload;
      Done (Ok pkt)
  end.

Definition udp_handle_packet (h : UdpHeader) (payload src_ip : list Z) (t : UdpSocketTable) : UdpSocketTable :=
  match udp_sockets t !! udp_dst_port h with
  | None => t
  | Some s => set_sockets (<[udp_dst_port h := {| us_local_port := us_local_port s; us_remote := us_remote s; us_recv_queue := us_recv_queue s ++ [({| sa_ip := src_ip; sa_port := udp_src_port h |}, payload)] |}]> (udp_sockets t)) t
  end.

Definition udp_recvfrom (port : Z) (t : UdpSocketTable) : option (SocketApiAddr * list Z) * UdpSocketTable :=
  match udp_sockets t !! port with
  | None => (None, t)
  | Some s =>
      (head (us_recv_queue s), set_sockets (<[port := {| us_local_port := us_local_port s; us_remote := us_remote s; us_recv_queue := tail (us_recv_queue s) |}]> (udp_sockets t)) t)
  end.

Definition udp_close (port : Z) (t : UdpSocketTable) : UdpSocketTable := set_sockets (delete port (udp_sockets t)) t.

(** ** ICMP *)

Definition ECHO_REPLY : Z := 0.
Definition DEST_UNREACHABLE : Z := 3.
Definition ECHO_REQUEST : Z := 8.
Definition TIME_EXCEEDED : Z := 11.

Record PingPending := { pg_sent_at : Z; pg_payload : list Z }.
Record PingState := { pg_identifier : Z; pg_next_seq : Z; pg_pending : gmap Z PingPending }.
(** [IcmpHandler]: the pings by identifier. *)
Definition IcmpHandler : Type := gmap Z PingState.

Inductive IcmpHandleResult := IcmpReplyTo (data dst_ip : list Z) | PingResponse (id seq rtt_ns : Z) | DestUnreachable (code : Z) | TimeExceeded | IcmpIgnored.

Definition echo_to_rest (id seq : Z) : list Z := to_be_bytes 2 id ++ to_be_bytes 2 seq.
Definition echo_from_rest (rest : list Z) : Z * Z := (from_be_bytes (take 2 rest), from_be_bytes (take 2 (drop 2 rest))).

(** The three builders fill in the header, the checksum and the payload. *)
Definition build_icmp (ty code : Z) (rest payload : list Z) : run (list Z) :=
  let hdr ck := {| icmp_type := ty; icmp_code := code; icmp_checksum := ck; icmp_rest := rest |} in
  ck ← icmp_compute_checksum (hdr 0) payload;
  Done (in_zeroed 8 (icmp_serialize (hdr ck)) ++ payload).
Definition build_echo_request (id seq : Z) (payload : list Z) : run (list Z) := build_icmp ECHO_REQUEST 0 (echo_to_rest id seq) payload.
Definition build_echo_reply (request : IcmpHeader) (payload : list Z) : run (list Z) := build_icmp ECHO_REPLY 0 (icmp_rest request) payload.
Definition build_dest_unreachable (code : Z) (original : list Z) : run (list Z) := build_icmp DEST_UNREACHABLE code [0; 0; 0; 0] (take 28 original).

Definition handle_icmp (h : IcmpHeader) (payload src_ip : list Z) (now : Z) (t : IcmpHandler) : run (IcmpHandleResult * IcmpHandler) :=
  if icmp_type h =? ECHO_REQUEST then data ← build_echo_reply h payload; Done (IcmpReplyTo data src_ip, t) else
  if icmp_type h =? ECHO_REPLY then
    let '(id, seq) := echo_from_rest (icmp_rest h) in
    Done (match t !! id with
          | None => (IcmpIgnored, t)
          | Some st =>
              match pg_pending st !! seq with
              | None => (IcmpIgnored, t)
              | Some p => (PingResponse id seq (saturating_sub now (pg_sent_at p)), <[id := {| pg_identifier := pg_identifier st; pg_next_seq := pg_next_seq st; pg_pending := delete seq (pg_pending st) |}]> t)
              end
          end)
  else if icmp_type h =? DEST_UNREACHABLE then Done (DestUnreachable (icmp_code h), t)
  else if icmp_type h =? TIME_EXCEEDED then Done (TimeExceeded, t)
  else Done (IcmpIgnored, t).

Definition register_ping (id : Z) (t : IcmpHandler) : IcmpHandler :=
  match t !! id with Some _ => t | None => <[id := {| pg_identifier := id; pg_next_seq := 0; pg_pending := ∅ |}]> t end.
Definition record_sent (id seq sent_at : Z) (payload : list Z) (t : IcmpHandler) : IcmpHandler :=
  match t !! id with
  | None => t
  | Some st => <[id := {| pg_identifier := pg_identifier st; pg_next_seq := pg_next_seq st; pg_pending := <[seq := {| pg_sent_at := sent_at; pg_payload := payload |}]> (pg_pending st) |}]> t
  end.

(** ** Datagrams on the wire *)

Lemma icmp_bytes_length h : is_arr 4 (icmp_rest h) -> length (icmp_bytes h) = 8%nat.
Proof. intros [Hl _]. unfold icmp_bytes. rewrite !length_app. change (length (to_be_bytes 2 (icmp_checksum h))) with 2%nat. rewrite Hl. done. Qed.

(** A header in front of its payload parses back. *)
Lemma codec_parse_app {H} `{CodecLaws H} (h : H) (bytes rest : list Z) : co_fields h -> co_plain h -> length bytes = co_len -> co_serialize h (replicate co_len 0 ++ rest) = Some (bytes ++ rest) -> co_parse (bytes ++ rest) = Some (h, rest).
Proof.
  intros Hf Hp Hl Hs. destruct (co_roundtrip h (replicate co_len 0 ++ rest) Hf Hp) as (out & Eo & _ & E); [rewrite length_app, length_replicate; lia|].
  rewrite Hs in Eo. injection Eo as <-. rewrite E. by rewrite drop_app_length' by (by rewrite length_replicate).
Qed.

Lemma udp_parse_bytes h rest : co_fields h -> udp_parse (udp_bytes h ++ rest) = Some (h, rest).
Proof.
  intros Hf. apply (codec_parse_app h (udp_bytes h) rest Hf I eq_refl). cbn [co_serialize udp_codec co_len]. unfold udp_serialize. rewrite store_front_done by (rewrite length_app, length_replicate; lia). by rewrite drop_app_length' by (by rewrite length_replicate).
Qed.

Lemma icmp_parse_bytes h rest : co_fields h -> icmp_parse (icmp_bytes h ++ rest) = Some (h, rest).
Proof.
  intros Hf. apply (codec_parse_app h (icmp_bytes h) rest Hf I); [apply icmp_bytes_length; apply Hf|]. cbn [co_serialize icmp_codec co_len]. unfold icmp_serialize. rewrite store_front_done by (rewrite length_app, length_replicate; lia). by rewrite drop_app_length' by (by rewrite length_replicate).
Qed.

Definition wire_len (payload : list Z) : Z := let n := 8 + Z.of_nat (length payload) in if n <? 2 ^ 16 then n else 2 ^ 16 - 1.
Lemma wire_len_u16 payload : is_u16 (wire_len payload).
Proof. unfold wire_len, is_u16. destruct (Z.ltb_spec (8 + Z.of_nat (length payload)) (2 ^ 16)); cbn zeta; lia. Qed.

Lemma udp_packet_parses src dst sp dp payload : is_arr 4 src -> is_arr 4 dst -> is_u16 sp -> is_u16 dp -> Forall is_u8 payload -> Z.of_nat (length payload) < 130000 ->
  exists ck, let h := {| udp_src_port := sp; udp_dst_port := dp; udp_length := wire_len payload; udp_checksum := ck |} in
    build_udp_packet src dst sp dp payload = Done (udp_bytes h ++ payload) /\ is_u16 ck /\
    udp_verify_checksum h (udp_pseudo src dst (wire_len payload)) payload = Done true /\ forall pad, udp_parse (udp_bytes h ++ payload ++ pad) = Some (h, payload ++ pad).
Proof.
  intros Hs Hd Hsp Hdp Hu Hl. pose proof (wire_len_u16 payload) as Hw.
  destruct (udp_checksum_ok {| udp_src_port := sp; udp_dst_port := dp; udp_length := wire_len payload; udp_checksum := 0 |} (udp_pseudo src dst (wire_len payload)) payload) as (ck & Ec & Hck & Hv); [|done|done|].
  { unfold pseudo_ok. cbn. by split_and!. }
  exists ck. intros h. split; [|split; [done|split]].
  - unfold build_udp_packet. fold (wire_len payload). rewrite Ec. cbn [mbind run_bind]. unfold udp_serialize. by rewrite zeroed_bytes.
  - by apply Hv.
  - intros pad. apply udp_parse_bytes. cbn [co_fields udp_codec]. by split_and!.
Qed.

Lemma icmp_packet_parses ty code rest payload : is_u8 ty -> is_u8 code -> is_arr 4 rest -> Forall is_u8 payload -> Z.of_nat (length payload) < 130000 ->
  exists ck, let h := {| icmp_type := ty; icmp_code := code; icmp_checksum := ck; icmp_rest := rest |} in
    build_icmp ty code rest payload = Done (icmp_bytes h ++ payload) /\ is_u16 ck /\ icmp_verify_checksum h payload = Done true /\ forall pad, icmp_parse (icmp_bytes h ++ payload ++ pad) = Some (h, payload ++ pad).
Proof.
  intros Ht Hc Hr Hu Hl.
  destruct (icmp_checksum_ok {| icmp_type := ty; icmp_code := code; icmp_checksum := 0; icmp_rest := rest |} payload) as (ck & Ec & Hck & Hv); [by split_and!|done|done|].
  exists ck. intros h. split; [|split; [done|split]].
  - unfold build_icmp. rewrite Ec. cbn [mbind run_bind]. unfold icmp_serialize. by rewrite zeroed_bytes by (by apply icmp_bytes_length).
  - by apply Hv.
  - intros pad. apply icmp_parse_bytes. by split_and!.
Qed.

(** ** Ephemeral ports *)

(** The port tried in round [j]. *)
Definition candidate_port (next j : Z) : Z := EPHEMERAL_PORT_MIN + (next - EPHEMERAL_PORT_MIN + j) mod 16384.

Definition fresh_socket (p : Z) : UdpSocket := {| us_local_port := p; us_remote := None; us_recv_queue := [] |}.

Lemma ephemeral_loop_spec t : EPHEMERAL_PORT_MIN <= next_ephemeral t <= EPHEMERAL_PORT_MAX -> forall n i, 0 <= i -> i + Z.of_nat n = 16384 ->
  (ephemeral_loop n i 16384 t = Done (Err AddrInUse, t) /\ forall j, i <= j < 16384 -> is_Some (udp_sockets t !! candidate_port (next_ephemeral t) j)) \/
  exists j, i <= j < 16384 /\ udp_sockets t !! candidate_port (next_ephemeral t) j = None /\ (forall j', i <= j' < j -> is_Some (udp_sockets t !! candidate_port (next_ephemeral t) j')) /\
    ephemeral_loop n i 16384 t = Done (Ok (candidate_port (next_ephemeral t) j),
      {| udp_sockets := <[candidate_port (next_ephemeral t) j := fresh_socket (candidate_port (next_ephemeral t) j)]> (udp_sockets t); next_ephemeral := candidate_port (next_ephemeral t) (j + 1) |}).
Proof.
  intros Hn. induction n as [|n IH]; intros i Hi Hs; [left; split; [done|]; intros; lia|]. cbn [ephemeral_loop]. unfold EPHEMERAL_PORT_MIN, EPHEMERAL_PORT_MAX in Hn.
  assert (sub16 (next_ephemeral t) EPHEMERAL_PORT_MIN = Done (next_ephemeral t - EPHEMERAL_PORT_MIN)) as -> by (unfold sub16, EPHEMERAL_PORT_MIN; by rewrite (proj2 (Z.ltb_ge _ _)) by lia). cbn [mbind run_bind].
  assert (add16 (next_ephemeral t - EPHEMERAL_PORT_MIN) i = Done (next_ephemeral t - EPHEMERAL_PORT_MIN + i)) as -> by (unfold add16, EPHEMERAL_PORT_MIN; by rewrite (proj2 (Z.ltb_lt _ _)) by lia). cbn [mbind run_bind].
  pose proof (Z.mod_pos_bound (next_ephemeral t - EPHEMERAL_PORT_MIN + i) 16384 ltac:(lia)) as Hm.
  assert (add16 EPHEMERAL_PORT_MIN ((next_ephemeral t - EPHEMERAL_PORT_MIN + i) mod 16384) = Done (candidate_port (next_ephemeral t) i)) as -> by (unfold add16; rewrite (proj2 (Z.ltb_lt _ _)) by (unfold EPHEMERAL_PORT_MIN in *; lia); done). cbn [mbind run_bind].
  destruct (udp_sockets t !! candidate_port (next_ephemeral t) i) eqn:Ec.
  - destruct (IH (i + 1) ltac:(lia) ltac:(lia)) as [[El Ha]|(j & Hj & Hf & Ha & El)]; rewrite El.
    + left. split; [done|]. intros j Hj. destruct (decide (j = i)) as [->|]; [by rewrite Ec|apply Ha; lia].
    + right. exists j. split; [lia|]. split; [done|]. split; [|done]. intros j' Hj'. destruct (decide (j' = i)) as [->|]; [by rewrite Ec|apply Ha; lia].
  - right. exists i. split; [lia|]. split; [done|]. split; [intros; lia|]. set (c := candidate_port (next_ephemeral t) i) in *.
    assert (EPHEMERAL_PORT_MIN <= c <= EPHEMERAL_PORT_MAX) as Hc by (unfold c, candidate_port, EPHEMERAL_PORT_MIN, EPHEMERAL_PORT_MAX in *; lia).
    assert (sub16 c EPHEMERAL_PORT_MIN = Done (c - EPHEMERAL_PORT_MIN)) as -> by (unfold sub16; by rewrite (proj2 (Z.ltb_ge _ _)) by lia). cbn [mbind run_bind].
    assert (add16 (c - EPHEMERAL_PORT_MIN) 1 = Done (c - EPHEMERAL_PORT_MIN + 1)) as -> by (unfold add16; rewrite (proj2 (Z.ltb_lt _ _)) by (unfold EPHEMERAL_PORT_MIN, EPHEMERAL_PORT_MAX in *; lia); done). cbn [mbind run_bind].
    assert ((c - EPHEMERAL_PORT_MIN + 1) mod 16384 = (next_ephemeral t - EPHEMERAL_PORT_MIN + (i + 1)) mod 16384) as ->.
    { unfold c, candidate_port. replace (EPHEMERAL_PORT_MIN + (next_ephemeral t - EPHEMERAL_PORT_MIN + i) mod 16384 - EPHEMERAL_PORT_MIN + 1) with ((next_ephemeral t - EPHEMERAL_PORT_MIN + i) mod 16384 + 1) by lia. rewrite Z.add_mod_idemp_l by lia. f_equal. lia. }
    pose proof (Z.mod_pos_bound (next_ephemeral t - EPHEMERAL_PORT_MIN + (i + 1)) 16384 ltac:(lia)) as Hm'.
    unfold add16. rewrite (proj2 (Z.ltb_lt _ _)) by (unfold EPHEMERAL_PORT_MIN in *; lia). cbn [mbind run_bind]. unfold udp_bind. cbn [udp_sockets set_next_ephemeral]. rewrite Ec. done.
Qed.

Lemma candidate_range next j : EPHEMERAL_PORT_MIN <= candidate_port next j <= EPHEMERAL_PORT_MAX.
Proof. unfold candidate_port. pose proof (Z.mod_pos_bound (next - EPHEMERAL_PORT_MIN + j) 16384 ltac:(lia)). unfold EPHEMERAL_PORT_MIN, EPHEMERAL_PORT_MAX in *. lia. Qed.

Lemma candidate_all next p : EPHEMERAL_PORT_MIN <= next <= EPHEMERAL_PORT_MAX -> EPHEMERAL_PORT_MIN <= p <= EPHEMERAL_PORT_MAX -> exists j, 0 <= j < 16384 /\ candidate_port next j = p.
Proof.
  unfold EPHEMERAL_PORT_MIN, EPHEMERAL_PORT_MAX, candidate_port. intros Hn Hp. unfold EPHEMERAL_PORT_MIN. exists ((p - next) mod 16384). split; [apply Z.mod_pos_bound; lia|].
  rewrite Z.add_mod_idemp_r by lia. replace (next - 49152 + (p - next)) with (p - 49152) by lia. rewrite Z.mod_small by lia. lia.
Qed.

(** [allocate_ephemeral] hands out the first free port after the last one, and fails when none is free. *)
Lemma allocate_ephemeral_spec t : EPHEMERAL_PORT_MIN <= next_ephemeral t <= EPHEMERAL_PORT_MAX ->
  (allocate_ephemeral t = Done (Err AddrInUse, t) /\ forall p, EPHEMERAL_PORT_MIN <= p <= EPHEMERAL_PORT_MAX -> is_Some (udp_sockets t !! p)) \/
  exists j, let p := candidate_port (next_ephemeral t) j in 0 <= j < 16384 /\ udp_sockets t !! p = None /\ (forall j', 0 <= j' < j -> is_Some (udp_sockets t !! candidate_port (next_ephemeral t) j')) /\
    allocate_ephemeral t = Done (Ok p, {| udp_sockets := <[p := fresh_socket p]> (udp_sockets t); next_ephemeral := candidate_port (next_ephemeral t) (j + 1) |}).
Proof.
  intros Hn. change (allocate_ephemeral t) with (ephemeral_loop (Z.to_nat 16384) 0 16384 t). destruct (ephemeral_loop_spec t Hn (Z.to_nat 16384) 0 ltac:(lia) ltac:(lia)) as [[E Ha]|(j & Hj & Hf & Ha & E)].
  - left. split; [exact E|]. intros p Hp. destruct (candidate_all (next_ephemeral t) p Hn Hp) as (j & Hj & <-). by apply Ha.
  - right. exists j. split; [lia|]. split; [exact Hf|]. split; [exact Ha|exact E].
Qed.

(** ** Histories of the socket table *)

Abbreviation datagram := (SocketApiAddr * list Z)%type.
Inductive udp_op := UoBind (port : Z) | UoEphemeral | UoPacket (h : UdpHeader) (payload src_ip : list Z) | UoRecv (port : Z) | UoClose (port : Z).
(** What happened: a port was bound, a datagram came for a port, one was handed to the application, or neither. *)
Inductive udp_event := EvBound (port : Z) | EvCame (port : Z) (d : datagram) | EvGot (port : Z) (d : datagram) | EvNothing.

Definition bound_event (r : result NetError Z) : udp_event := match r with Ok p => EvBound p | Err _ => EvNothing end.
Definition udp_step (o : udp_op) (t : UdpSocketTable) : run (udp_event * UdpSocketTable) :=
  match o with
  | UoBind p => let '(r, t) := udp_bind p t in Done (bound_event r, t)
  | UoEphemeral => '(r, t) ← allocate_ephemeral t; Done (bound_event r, t)
  | UoPacket h payload src => Done (EvCame (udp_dst_port h) ({| sa_ip := src; sa_port := udp_src_port h |}, payload), udp_handle_packet h payload src t)
  | UoRecv p => let '(d, t) := udp_recvfrom p t in Done (match d with Some d => EvGot p d | None => EvNothing end, t)
  | UoClose p => Done (EvNothing, udp_close p t)
  end.
Fixpoint udp_run (ops : list udp_op) (t : UdpSocketTable) : run (list udp_event * UdpSocketTable) :=
  match ops with
  | [] => Done ([], t)
  | o :: ops => '(e, t) ← udp_step o t; '(es, t) ← udp_run ops t; Done (e :: es, t)
  end.

(** The datagrams that came for a port, and those handed out, since the port was last bound. *)
Definition ledger1 (port : Z) (x : list datagram * list datagram) (e : udp_event) : list datagram * list datagram :=
  match e with
  | EvBound p => if p =? port then ([], []) else x
  | EvCame p d => if p =? port then (fst x ++ [d], snd x) else x
  | EvGot p d => if p =? port then (fst x, snd x ++ [d]) else x
  | EvNothing => x
  end.
Definition ledger (port : Z) (es : list udp_event) (x : list datagram * list datagram) : list datagram * list datagram := fold_left (ledger1 port) es x.

Definition udp_inv (L : Z -> list datagram * list datagram) (t : UdpSocketTable) : Prop :=
  EPHEMERAL_PORT_MIN <= next_ephemeral t <= EPHEMERAL_PORT_MAX /\
  forall p s, udp_sockets t !! p = Some s -> snd (L p) ++ us_recv_queue s = fst (L p).

(** A binding that succeeds starts from an empty queue. *)
Lemma bound_inv L t p next : udp_inv L t -> EPHEMERAL_PORT_MIN <= next <= EPHEMERAL_PORT_MAX ->
  udp_inv (fun q => ledger1 q (L q) (EvBound p)) {| udp_sockets := <[p := fresh_socket p]> (udp_sockets t); next_ephemeral := next |}.
Proof.
  intros [_ Hq] Hn. split; [exact Hn|]. intros q s Hs. cbn [udp_sockets] in Hs. cbn [ledger1]. destruct (Z.eqb_spec p q) as [->|Hne]; [rewrite lookup_insert_eq in Hs; by injection Hs as <-|].
  rewrite lookup_insert_ne in Hs by done. by apply Hq.
Qed.

Lemma udp_step_inv L t o : udp_inv L t -> exists e t', udp_step o t = Done (e, t') /\ udp_inv (fun q => ledger1 q (L q) e) t'.
Proof.
  intros Hi. pose proof Hi as [Hn Hq]. destruct o as [p| |h payload src|p|p]; cbn [udp_step].
  - unfold udp_bind. destruct (udp_sockets t !! p) eqn:E; eexists _, _; (split; [reflexivity|]); [exact Hi|]. by apply bound_inv.
  - destruct (allocate_ephemeral_spec t Hn) as [[-> _]|(j & Hj & Hf & _ & ->)]; cbn [mbind run_bind]; eexists _, _; (split; [reflexivity|]); [exact Hi|]. apply bound_inv; [exact Hi|]. apply candidate_range.
  - eexists _, _. split; [reflexivity|]. unfold udp_handle_packet. set (d := ({| sa_ip := src; sa_port := udp_src_port h |}, payload)). destruct (udp_sockets t !! udp_dst_port h) as [s|] eqn:E.
    + split; [exact Hn|]. intros q s' Hs. cbn [udp_sockets set_sockets ledger1] in *. destruct (Z.eqb_spec (udp_dst_port h) q) as [<-|Hne].
      * rewrite lookup_insert_eq in Hs. injection Hs as <-. cbn [us_recv_queue fst snd]. rewrite app_assoc. f_equal. by apply Hq.
      * rewrite lookup_insert_ne in Hs by done. by apply Hq.
    + split; [exact Hn|]. intros q s' Hs. cbn [ledger1]. destruct (Z.eqb_spec (udp_dst_port h) q) as [<-|Hne]; [by rewrite E in Hs|by apply Hq].
  - unfold udp_recvfrom. destruct (udp_sockets t !! p) as [s|] eqn:E; [|eexists _, _; by split]. eexists _, _. split; [reflexivity|]. split; [exact Hn|]. intros q s' Hs. cbn [udp_sockets set_sockets] in Hs.
    pose proof (Hq p s E) as Hqs. destruct (decide (p = q)) as [<-|Hne].
    + rewrite lookup_insert_eq in Hs. injection Hs as <-. cbn [us_recv_queue]. destruct (us_recv_queue s) as [|d l]; cbn [head tail ledger1]; [done|]. rewrite Z.eqb_refl. cbn [fst snd]. by rewrite <- app_assoc.
    + rewrite lookup_insert_ne in Hs by done. destruct (us_recv_queue s) as [|d l]; cbn [head ledger1]; [by apply Hq|]. rewrite (proj2 (Z.eqb_neq p q)) by done. by apply Hq.
  - eexists _, _. split; [reflexivity|]. split; [exact Hn|]. intros q s Hs. cbn in Hs. apply lookup_delete_Some in Hs as [_ Hs]. by apply Hq.
Qed.

Lemma udp_run_inv ops : forall L t, udp_inv L t -> exists es t', udp_run ops t = Done (es, t') /\ udp_inv (fun q => ledger q es (L q)) t'.
Proof.
  induction ops as [|o ops IH]; intros L t Hi; [exists [], t; by split|]. destruct (udp_step_inv L t o Hi) as (e & t1 & E & H1). destruct (IH _ t1 H1) as (es & t2 & E2 & H2). exists (e :: es), t2. split; [|exact H2]. cbn [udp_run]. rewrite E. cbn [mbind run_bind]. by rewrite E2.
Qed.

Lemma registered id (t : IcmpHandler) : exists st, register_ping id t !! id = Some st /\ forall id', id' <> id -> register_ping id t !! id' = t !! id'.
Proof. unfold register_ping. destruct (t !! id) as [st|] eqn:E; [by exists st|]. eexists. split; [apply (lookup_insert_eq t)|]. intros id' Hne. by apply (lookup_insert_ne t). Qed.

(** ** Theorems *)

(** over any calls on a fresh table of sockets, nothing panics, and for
    every bound port the datagrams handed out, followed by those still queued,
    are the datagrams that came for it since it was bound, in order.  An
    ephemeral port is free before the call, bound with an empty queue after
    it, and the first free one behind the last allocated, around the range;
    the call fails only when every port of the range is bound.  And a datagram
    that one table sends arrives at another: the packet parses, its checksum
    holds, and the data, the sender's address and port are appended to the
    queue of the destination port. *)
Theorem udp_sockets_exact ops : exists es t, udp_run ops udp_new = Done (es, t) /\
  (forall p s, udp_sockets t !! p = Some s -> let '(came, got) := ledger p es ([], []) in got ++ us_recv_queue s = came) /\
  ((allocate_ephemeral t = Done (Err AddrInUse, t) /\ forall p, EPHEMERAL_PORT_MIN <= p <= EPHEMERAL_PORT_MAX -> is_Some (udp_sockets t !! p)) \/
   (exists j, let p := candidate_port (next_ephemeral t) j in EPHEMERAL_PORT_MIN <= p <= EPHEMERAL_PORT_MAX /\ udp_sockets t !! p = None /\
      (forall j', 0 <= j' < j -> is_Some (udp_sockets t !! candidate_port (next_ephemeral t) j')) /\
      exists t', allocate_ephemeral t = Done (Ok p, t') /\ udp_sockets t' = <[p := fresh_socket p]> (udp_sockets t) /\ next_ephemeral t' = candidate_port p 1)) /\
  (forall p dst src_ip dst_ip data peer s, is_Some (udp_sockets t !! p) -> is_u16 p -> addr_ok dst -> is_arr 4 src_ip -> is_arr 4 dst_ip -> Forall is_u8 data -> Z.of_nat (length data) < 130000 ->
    udp_sockets peer !! sa_port dst = Some s ->
    exists pkt ih uh up, udp_sendto p dst src_ip dst_ip data t = Done (Ok pkt) /\ parse_ipv4_packet pkt = Done (Some (ih, up)) /\ ip_src ih = src_ip /\ ip_dst ih = dst_ip /\ protocol ih = 17 /\
      udp_parse up = Some (uh, data) /\ udp_verify_checksum uh (udp_pseudo src_ip dst_ip (udp_length uh)) data = Done true /\
      us_recv_queue <$> udp_sockets (udp_handle_packet uh data (ip_src ih) peer) !! sa_port dst = Some (us_recv_queue s ++ [({| sa_ip := src_ip; sa_port := p |}, data)])).
Proof.
  destruct (udp_run_inv ops (fun _ => ([], [])) udp_new) as (es & t & E & Hi). { split; [done|]. intros p s Hs. cbn in Hs. by rewrite lookup_empty in Hs. }
  exists es, t. split; [exact E|]. pose proof Hi as [Hn Hq]. split; [|split].
  - intros p s Hs. specialize (Hq p s Hs). by destruct (ledger p es ([], [])).
  - destruct (allocate_ephemeral_spec t Hn) as [H|(j & Hj & Hf & Ha & Ea)]; [by left|]. right. exists j. intros p. split; [apply candidate_range|]. split; [exact Hf|]. split; [exact Ha|]. eexists. split; [exact Ea|]. split; [done|].
    cbn [next_ephemeral]. unfold p, candidate_port. replace (EPHEMERAL_PORT_MIN + (next_ephemeral t - EPHEMERAL_PORT_MIN + j) mod 16384 - EPHEMERAL_PORT_MIN + 1) with ((next_ephemeral t - EPHEMERAL_PORT_MIN + j) mod 16384 + 1) by lia. rewrite Z.add_mod_idemp_l by lia. do 2 f_equal. lia.
  - intros p dst src_ip dst_ip data peer s [sk Hsk] Hp [Hip Hport] Hs Hd Hu Hl Hpeer.
    destruct (udp_packet_parses src_ip dst_ip p (sa_port dst) data Hs Hd Hp Hport Hu Hl) as (ck & Eb & Hck & Hv & Hparse). set (uh := {| udp_src_port := p |}) in *.
    destruct (ipv4_packet_roundtrip src_ip dst_ip 17 64 0 (udp_bytes uh ++ data)) as (ih & Ei & _ & E1 & E2 & E3 & _ & _ & _ & Hip4); [done|done|done|done|done|].
    exists (ipv4_bytes ih ++ udp_bytes uh ++ data), ih, uh, (udp_bytes uh ++ data). split; [unfold udp_sendto; rewrite Hsk, Eb; cbn [mbind run_bind]; by rewrite Ei|].
    split; [specialize (Hip4 []); by rewrite !app_nil_r in Hip4|]. split; [done|]. split; [done|]. split; [done|]. split; [specialize (Hparse []); by rewrite !app_nil_r in Hparse|]. split; [exact Hv|].
    unfold udp_handle_packet. change (udp_dst_port uh) with (sa_port dst). rewrite Hpeer. cbn [udp_sockets set_sockets]. rewrite lookup_insert_eq. cbn. by rewrite E1.
Qed.

(** a ping comes back.  The echo request for a recorded sequence number
    parses at the other host, which answers it with an echo reply of the same
    identifier, sequence number and payload; the reply parses, its checksum
    holds, and handing it to the sender gives the round-trip time and removes
    the record, so that a second copy of the reply is ignored. *)
Theorem ping_roundtrip id seq sent now payload src_ip my_ip (t other : IcmpHandler) : is_u16 id -> is_u16 seq -> Forall is_u8 payload -> Z.of_nat (length payload) < 130000 ->
  exists req rh rep ph t1, let t0 := record_sent id seq sent payload (register_ping id t) in
    build_echo_request id seq payload = Done req /\ icmp_parse req = Some (rh, payload) /\ icmp_verify_checksum rh payload = Done true /\
    handle_icmp rh payload src_ip now other = Done (IcmpReplyTo rep src_ip, other) /\ icmp_parse rep = Some (ph, payload) /\ icmp_verify_checksum ph payload = Done true /\ icmp_rest ph = echo_to_rest id seq /\
    handle_icmp ph payload my_ip now t0 = Done (PingResponse id seq (saturating_sub now sent), t1) /\
    handle_icmp ph payload my_ip now t1 = Done (IcmpIgnored, t1) /\ (forall id', id' <> id -> t1 !! id' = t !! id').
Proof.
  intros Hid Hseq Hu Hl. assert (is_arr 4 (echo_to_rest id seq)) as Hr by (split; [done|apply Forall_app; split; apply to_be_bytes_u8]).
  assert (echo_from_rest (echo_to_rest id seq) = (id, seq)) as Her.
  { unfold echo_from_rest, echo_to_rest. rewrite take_app_length', drop_app_length' by done. change (take 2 (to_be_bytes 2 seq)) with (to_be_bytes 2 seq). rewrite !from_to_be_bytes. unfold is_u16 in *. change (2 ^ (8 * Z.of_nat 2)) with (2 ^ 16). by rewrite !Z.mod_small by lia. }
  destruct (icmp_packet_parses ECHO_REQUEST 0 (echo_to_rest id seq) payload) as (ck & Eq & Hck & Hv & Hp); [done|done|done|done|done|]. set (rh := {| icmp_type := ECHO_REQUEST |}) in *.
  destruct (icmp_packet_parses ECHO_REPLY 0 (echo_to_rest id seq) payload) as (ck' & Eq' & Hck' & Hv' & Hp'); [done|done|done|done|done|]. set (ph := {| icmp_type := ECHO_REPLY |}) in *.
  specialize (Hp []). specialize (Hp' []). rewrite !app_nil_r in Hp, Hp'.
  assert (exists st, record_sent id seq sent payload (register_ping id t) !! id = Some st /\ pg_pending st !! seq = Some {| pg_sent_at := sent; pg_payload := payload |} /\ forall id', id' <> id -> record_sent id seq sent payload (register_ping id t) !! id' = t !! id') as (st & Est & Ep & Hoth).
  { destruct (registered id t) as (st & Est & Hoth). unfold record_sent. rewrite Est. eexists. split; [apply (lookup_insert_eq (register_ping id t))|]. split; [apply lookup_insert_eq|]. intros id' Hne. rewrite <- (Hoth id' Hne). by apply (lookup_insert_ne (register_ping id t)). }
  eexists (icmp_bytes rh ++ payload), rh, (icmp_bytes ph ++ payload), ph, _. intros t0. split; [exact Eq|]. split; [exact Hp|]. split; [exact Hv|].
  split; [unfold handle_icmp; change (icmp_type rh =? ECHO_REQUEST) with true; cbv iota; unfold build_echo_reply; change (icmp_rest rh) with (echo_to_rest id seq); by rewrite Eq'|]. split; [exact Hp'|]. split; [exact Hv'|]. split; [done|].
  assert (forall tt, handle_icmp ph payload my_ip now tt = Done (match tt !! id with None => (IcmpIgnored, tt) | Some st => match pg_pending st !! seq with None => (IcmpIgnored, tt)
     | Some p => (PingResponse id seq (saturating_sub now (pg_sent_at p)), <[id := {| pg_identifier := pg_identifier st; pg_next_seq := pg_next_seq st; pg_pending := delete seq (pg_pending st) |}]> tt) end end)) as Hh.
  { intros tt. unfold handle_icmp. change (icmp_type ph =? ECHO_REQUEST) with false. change (icmp_type ph =? ECHO_REPLY) with true. change (icmp_rest ph) with (echo_to_rest id seq). by rewrite Her. }
  split; [rewrite Hh; unfold t0; rewrite Est, Ep; reflexivity|]. split; [rewrite Hh, (lookup_insert_eq t0); cbn [pg_pending]; by rewrite lookup_delete_eq|]. intros id' Hne. rewrite <- (Hoth id' Hne). by apply (lookup_insert_ne t0).
Qed.

Lemma udp_sockets_exact_witness : exists t, udp_run [UoBind 5000] udp_new = Done ([EvBound 5000], t) /\
  forall data, Forall is_u8 data -> Z.of_nat (length data) < 130000 -> exists pkt, udp_sendto 5000 demo_server demo_src demo_dst data t = Done (Ok pkt).
Proof.
  destruct (udp_sockets_exact [UoBind 5000]) as (es & t & E & _ & _ & Hs). assert (es = [EvBound 5000] /\ t = snd (udp_bind 5000 udp_new)) as [-> ->] by (vm_compute in E; injection E as <- <-; by split).
  exists (snd (udp_bind 5000 udp_new)). split; [exact E|]. intros data Hu Hl.
  destruct (Hs 5000 demo_server demo_src demo_dst data (snd (udp_bind 80 udp_new)) (fresh_socket 80)) as (pkt & _ & _ & _ & Ep & _).
  - eexists. vm_compute. reflexivity.
  - unfold is_u16. lia.
  - split; [apply demo_arr; unfold is_u8; lia|unfold is_u16; cbn; lia].
  - apply demo_arr; unfold is_u8; lia.
  - apply demo_arr; unfold is_u8; lia.
  - exact Hu.
  - exact Hl.
  - vm_compute. reflexivity.
  - exists pkt. exact Ep.
Defined.

Lemma ping_roundtrip_witness : exists req ph t1, build_echo_request 7 1 [104; 105] = Done req /\ icmp_rest ph = [0; 7; 0; 1] /\
  handle_icmp ph [104; 105] demo_dst 900 (record_sent 7 1 400 [104; 105] (register_ping 7 ∅)) = Done (PingResponse 7 1 500, t1).
Proof.
  destruct (ping_roundtrip 7 1 400 900 [104; 105] demo_src demo_dst ∅ ∅) as (req & rh & rep & ph & t1 & Eq & _ & _ & _ & _ & _ & Er & Eh & _).
  - unfold is_u16. lia.
  - unfold is_u16. lia.
  - repeat (apply Forall_cons; split; [unfold is_u8; lia|]). by apply Forall_nil.
  - cbn. lia.
  - exists req, ph, t1. split; [exact Eq|]. split; [rewrite Er; reflexivity|exact Eh].
Defined.

(** ** A table made by [Default] *)

(** The derived default leaves the port cursor at 0, below the range: the first ephemeral allocation panics. *)
Example default_table_panics : allocate_ephemeral {| udp_sockets := ∅; next_ephemeral := 0 |} = Panicked.
Proof. vm_compute. reflexivity. Qed.
