(* ===== verification/Dns.v ===== *)
(** * Name resolution (omni-net dns.rs)

    Queries and responses on the wire, with compressed names, and the cache of
    resolved names.  Offsets are [nat]: a message is shorter than a slice can be
    and every offset is at most 192 bytes past its end, so the additions of the
    source do not overflow. *)

From Stdlib Require Import ZArith Lia String.
From stdpp Require Import base numbers list gmap.
From S2P Require Import Prelude Str Net.

(** ** Data *)

Definition MAX_POINTER_HOPS : nat := 16.
Definition QTYPE_A : Z := 1.
Definition QCLASS_IN : Z := 1.
Definition DOT : Z := 46.

Record DnsRecord := { dr_name : str; dr_rtype : Z; dr_rclass : Z; dr_ttl : Z; dr_rdata : list Z }.
Record DnsCacheEntry := { dc_addresses : list (list Z); dc_ttl : Z; dc_cached_at : Z }.
Inductive DnsError := Truncated | PointerLoop | ServerError (rcode : Z) | NoRecords | InvalidName.
Record DnsResolver := { dns_servers : list (list Z); dns_cache : gmap str DnsCacheEntry; dns_next_id : Z }.

(** ** Names *)

Fixpoint encode_labels (labels : list str) (out : list Z) : result DnsError (list Z) :=
  match labels with
  | [] => Ok (out ++ [0])
  | l :: labels =>
      if bool_decide (l = []) then encode_labels labels out else
      if (63 <? length l)%nat then Err InvalidName else encode_labels labels (out ++ [Z.of_nat (length l)] ++ l)
  end.
Definition encode_dns_name (name : str) (out : list Z) : result DnsError (list Z) := encode_labels (split_on DOT name) out.

(** [bytes.get(a..a + n)] *)
Definition sub_bytes (bytes : list Z) (a n : nat) : option (list Z) := if (a + n <=? length bytes)%nat then Some (take n (drop a bytes)) else None.

(** The two top bits mark a pointer. *)
Definition is_pointer (b : Z) : bool := Z.land b 0xC0 =? 0xC0.

(** [hops] more labels may be passed. *)
Fixpoint skip_name (hops : nat) (bytes : list Z) (offset : nat) : result DnsError nat :=
  match bytes !! offset with
  | None => Err Truncated
  | Some b =>
      if is_pointer b then Ok (offset + 2)%nat else
      if b =? 0 then Ok (offset + 1)%nat else
      match hops with O => Err PointerLoop | S hops => skip_name hops bytes (offset + (1 + Z.to_nat b)) end
  end.
Definition skip_dns_name (bytes : list Z) (offset : nat) : result DnsError nat := skip_name MAX_POINTER_HOPS bytes offset.

(** [fuel] is what [MAX_POINTER_HOPS] leaves: the test at the head of the loop fails when it is used up. *)
Fixpoint name_loop (fuel : nat) (bytes : list Z) (offset : nat) (labels : list str) (ret : option nat) : result DnsError (list str * nat) :=
  match fuel with
  | O => Err PointerLoop
  | S fuel =>
      match bytes !! offset with
      | None => Err Truncated
      | Some b =>
          if is_pointer b then
            match bytes !! (offset + 1)%nat with
            | None => Err Truncated
            | Some lo => name_loop fuel bytes (Z.to_nat (Z.lor (Z.shiftl (Z.land b 0x3F) 8) lo)) labels (Some (default (offset + 2)%nat ret))
            end
          else if b =? 0 then Ok (labels, default (offset + 1)%nat ret)
          else
            match sub_bytes bytes (offset + 1) (Z.to_nat b) with
            | None => Err Truncated
            | Some l => name_loop fuel bytes (offset + 1 + Z.to_nat b) (if utf8_valid l then labels ++ [l] else labels) ret
            end
      end
  end.

(** [labels.join(".")] *)
Fixpoint join_labels (labels : list str) : str := match labels with [] => [] | [l] => l | l :: labels => l ++ DOT :: join_labels labels end.

Definition decode_dns_name (bytes : list Z) (start : nat) : result DnsError (str * nat) :=
  match name_loop (S MAX_POINTER_HOPS) bytes start [] None with Ok (labels, next) => Ok (join_labels labels, next) | Err e => Err e end.

(** ** Messages *)

Definition encode_dns_query (name : str) (id : Z) : result DnsError (list Z) :=
  match encode_dns_name name (to_be_bytes 2 id ++ [1; 0; 0; 1; 0; 0; 0; 0; 0; 0]) with
  | Err e => Err e
  | Ok out => Ok (out ++ to_be_bytes 2 QTYPE_A ++ to_be_bytes 2 QCLASS_IN)
  end.

Fixpoint skip_questions (n : nat) (bytes : list Z) (offset : nat) : result DnsError nat :=
  match n with
  | O => Ok offset
  | S n =>
      match skip_dns_name bytes offset with
      | Err e => Err e
      | Ok offset => if (length bytes <? offset + 4)%nat then Err Truncated else skip_questions n bytes (offset + 4)
      end
  end.

Definition trunc {A} (o : option A) : result DnsError A := ok_or o Truncated.

(** One answer record and the offset behind it. *)
Definition read_record (bytes : list Z) (offset : nat) : result DnsError (DnsRecord * nat) :=
  match decode_dns_name bytes offset with
  | Err e => Err e
  | Ok (name, offset) =>
      if (length bytes <? offset + 10)%nat then Err Truncated else
      rtype ← trunc (get_be bytes offset 2);
      rclass ← trunc (get_be bytes (offset + 2) 2);
      ttl ← trunc (get_be bytes (offset + 4) 4);
      rdlength ← trunc (get_be bytes (offset + 8) 2);
      rdata ← trunc (sub_bytes bytes (offset + 10) (Z.to_nat rdlength));
      Ok ({| dr_name := name; dr_rtype := rtype; dr_rclass := rclass; dr_ttl := ttl; dr_rdata := rdata |}, (offset + 10 + Z.to_nat rdlength)%nat)
  end.

Fixpoint read_records (n : nat) (bytes : list Z) (offset : nat) : result DnsError (list DnsRecord) :=
  match n with
  | O => Ok []
  | S n =>
      match read_record bytes offset with
      | Err e => Err e
      | Ok (r, offset) => match read_records n bytes offset with Err e => Err e | Ok rs => Ok (r :: rs) end
      end
  end.

Definition decode_dns_response (bytes : list Z) : result DnsError (list DnsRecord) :=
  if (length bytes <? 12)%nat then Err Truncated else
  flags ← trunc (get_be bytes 2 2);
  let rcode := Z.land flags 0xF in
  if negb (rcode =? 0) then Err (ServerError rcode) else
  qdcount ← trunc (get_be bytes 4 2);
  ancount ← trunc (get_be bytes 6 2);
  match skip_questions (Z.to_nat qdcount) bytes 12 with
  | Err e => Err e
  | Ok offset => read_records (Z.to_nat ancount) bytes offset
  end.

(** ** The resolver

    [to_lowercase] is the standard library's, on the whole of Unicode. *)
Section Resolver.
Context (to_lowercase : str -> str).

Definition resolver_new (servers : list (list Z)) : DnsResolver := {| dns_servers := servers; dns_cache := ∅; dns_next_id := 1 |}.

Definition resolve_cached (name : str) (now : Z) (r : DnsResolver) : option (list (list Z)) :=
  entry ← dns_cache r !! to_lowercase name;
  if dc_ttl entry <=? saturating_sub now (dc_cached_at entry) then None else Some (dc_addresses entry).

Definition build_query (name : str) (r : DnsResolver) : (Z * list Z) * DnsResolver :=
  let id := dns_next_id r in
  ((id, match encode_dns_query name id with Ok bytes => bytes | Err _ => [] end), {| dns_servers := dns_servers r; dns_cache := dns_cache r; dns_next_id := (id + 1) mod 2 ^ 16 |}).

Definition handle_response (bytes : list Z) : result DnsError (list (list Z)) :=
  match decode_dns_response bytes with
  | Err e => Err e
  | Ok records =>
      let addrs := map dr_rdata (List.filter (fun r => (dr_rtype r =? QTYPE_A) && (length (dr_rdata r) =? 4)%nat) records) in
      if bool_decide (addrs = []) then Err NoRecords else Ok addrs
  end.

Definition cache_result (name : str) (addrs : list (list Z)) (ttl now : Z) (r : DnsResolver) : DnsResolver :=
  {| dns_servers := dns_servers r; dns_cache := <[to_lowercase name := {| dc_addresses := addrs; dc_ttl := ttl; dc_cached_at := now |}]> (dns_cache r); dns_next_id := dns_next_id r |}.
End Resolver.

(** ** Names as the decoder has them

    The name at an offset: its labels, the offset behind it, and how many labels
    and pointers are passed on the way.  Any length byte that is not a pointer
    starts a label. *)
Inductive name_at (bytes : list Z) : nat -> list str -> nat -> nat -> Prop :=
| na_root off : bytes !! off = Some 0 -> name_at bytes off [] (off + 1) 0
| na_label off b l ls next h : bytes !! off = Some b -> is_pointer b = false -> b <> 0 -> sub_bytes bytes (off + 1) (Z.to_nat b) = Some l ->
    name_at bytes (off + 1 + Z.to_nat b) ls next h -> name_at bytes off (l :: ls) next (S h)
| na_pointer off b lo ls next h : bytes !! off = Some b -> is_pointer b = true -> bytes !! (off + 1)%nat = Some lo ->
    name_at bytes (Z.to_nat (Z.lor (Z.shiftl (Z.land b 0x3F) 8) lo)) ls next h -> name_at bytes off ls (off + 2) (S h).

Lemma name_loop_spec bytes fuel : forall off acc ret ls n, name_loop fuel bytes off acc ret = Ok (ls, n) <->
  exists labels next h, name_at bytes off labels next h /\ (h < fuel)%nat /\ ls = acc ++ List.filter utf8_valid labels /\ n = default next ret.
Proof.
  induction fuel as [|fuel IH]; intros off acc ret ls n; cbn [name_loop]; [split; [done|]; intros (? & ? & ? & _ & ? & _); lia|].
  split.
  - destruct (bytes !! off) as [b|] eqn:Eb; [|done]. destruct (is_pointer b) eqn:Ep.
    + destruct (bytes !! (off + 1)%nat) as [lo|] eqn:El; [|done]. intros H. apply IH in H as (labels & next & h & Hn & Hh & -> & ->). exists labels, (off + 2)%nat, (S h). split; [by apply (na_pointer _ off b lo labels next)|]. split; [lia|]. by destruct ret.
    + destruct (Z.eqb_spec b 0) as [->|Hb]; [intros H; injection H as <- <-; exists [], (off + 1)%nat, 0%nat; split; [by apply na_root|]; split; [lia|]; by rewrite app_nil_r|].
      destruct (sub_bytes bytes (off + 1) (Z.to_nat b)) as [l|] eqn:El; [|done]. intros H. apply IH in H as (labels & next & h & Hn & Hh & -> & ->). exists (l :: labels), next, (S h). split; [by apply (na_label _ off b)|]. split; [lia|]. split; [|done]. cbn [List.filter]. destruct (utf8_valid l); [by rewrite <- app_assoc|done].
  - intros (labels & next & h & Hn & Hh & -> & ->). destruct Hn as [off Eb|off b l ls next h Eb Ep Hb El Hn|off b lo ls next h Eb Ep El Hn].
    + rewrite Eb. change (is_pointer 0) with false. change (0 =? 0) with true. cbn [List.filter]. by rewrite app_nil_r.
    + rewrite Eb, Ep. rewrite (proj2 (Z.eqb_neq b 0)) by done. rewrite El. apply IH. exists ls, next, h. split; [done|]. split; [lia|]. split; [|done]. cbn [List.filter]. destruct (utf8_valid l); [by rewrite <- app_assoc|done].
    + rewrite Eb, Ep, El. apply IH. exists ls, next, h. split; [done|]. split; [lia|]. by destruct ret.
Qed.

Lemma decode_name_spec bytes off name next : decode_dns_name bytes off = Ok (name, next) <->
  exists labels h, name_at bytes off labels next h /\ (h <= MAX_POINTER_HOPS)%nat /\ name = join_labels (List.filter utf8_valid labels).
Proof.
  unfold decode_dns_name. split.
  - destruct (name_loop _ bytes off [] None) as [[ls n]|] eqn:E; [|done]. intros H. injection H as <- <-. apply name_loop_spec in E as (labels & nx & h & Hn & Hh & -> & ->). exists labels, h. split; [done|]. split; [lia|done].
  - intros (labels & h & Hn & Hh & ->). assert (name_loop (S MAX_POINTER_HOPS) bytes off [] None = Ok (List.filter utf8_valid labels, next)) as ->; [|done]. apply name_loop_spec. exists labels, next, h. split; [done|]. split; [lia|done].
Qed.

(** ** Names as RFC 1035 has them (section 4.1.4)

    A length byte of 1 to 63 starts a label, one of 192 to 255 a pointer of
    fourteen bits, and the values between are reserved. *)
Inductive rfc_name (bytes : list Z) : nat -> list str -> nat -> nat -> Prop :=
| rn_root off : bytes !! off = Some 0 -> rfc_name bytes off [] (off + 1) 0
| rn_label off l ls next h : (1 <= length l <= 63)%nat -> bytes !! off = Some (Z.of_nat (length l)) -> take (length l) (drop (off + 1) bytes) = l ->
    rfc_name bytes (off + 1 + length l) ls next h -> rfc_name bytes off (l :: ls) next (S h)
| rn_pointer off hi lo ls next h : 0 <= hi < 64 -> bytes !! off = Some (192 + hi) -> bytes !! (off + 1)%nat = Some lo ->
    rfc_name bytes (Z.to_nat (256 * hi + lo)) ls next h -> rfc_name bytes off ls (off + 2) (S h).

Lemma pointer_byte b : is_u8 b -> is_pointer b = (192 <=? b).
Proof.
  intros Hb. assert (forallb (fun n => Bool.eqb (is_pointer (Z.of_nat n)) (192 <=? Z.of_nat n)) (seq 0 256) = true) as Ha by (vm_compute; reflexivity).
  rewrite forallb_forall in Ha. specialize (Ha (Z.to_nat b) ltac:(apply in_seq; unfold is_u8 in Hb; lia)). rewrite Z2Nat.id in Ha by (unfold is_u8 in Hb; lia). by apply Bool.eqb_prop.
Qed.

Lemma pointer_target hi lo : 0 <= hi < 64 -> is_u8 lo -> Z.lor (Z.shiftl (Z.land (192 + hi) 0x3F) 8) lo = 256 * hi + lo.
Proof.
  intros Hh Hl. assert (forallb (fun h => forallb (fun l => Z.lor (Z.shiftl (Z.land (192 + Z.of_nat h) 0x3F) 8) (Z.of_nat l) =? 256 * Z.of_nat h + Z.of_nat l) (seq 0 256)) (seq 0 64) = true) as Ha by (vm_compute; reflexivity).
  unfold is_u8 in Hl. rewrite forallb_forall in Ha. specialize (Ha (Z.to_nat hi) ltac:(apply in_seq; lia)). rewrite forallb_forall in Ha. specialize (Ha (Z.to_nat lo) ltac:(apply in_seq; lia)).
  rewrite !Z2Nat.id in Ha by lia. by apply Z.eqb_eq.
Qed.

(** On names without a reserved length byte the decoder and the RFC agree. *)
Lemma rfc_name_read bytes off labels next h : Forall is_u8 bytes -> rfc_name bytes off labels next h -> name_at bytes off labels next h /\ Forall (fun l => (length l <= 63)%nat) labels.
Proof.
  intros Hu. induction 1 as [off E|off l ls next h Hl E El _ [IH IHl]|off hi lo ls next h Hh E El _ [IH IHl]].
  - split; [by apply na_root|constructor].
  - split; [|constructor; [lia|done]]. assert (is_pointer (Z.of_nat (length l)) = false) as Ep by (rewrite pointer_byte by (rewrite Forall_lookup in Hu; exact (Hu _ _ E)); lia).
    apply (na_label _ off (Z.of_nat (length l)) l ls next h E Ep); [lia| |by rewrite Nat2Z.id]. rewrite Nat2Z.id. unfold sub_bytes. rewrite El.
    apply (f_equal length) in El. rewrite length_take, length_drop in El. destruct (Nat.leb_spec (off + 1 + length l) (length bytes)); [done|lia].
  - split; [|exact IHl]. rewrite Forall_lookup in Hu. apply (na_pointer _ off (192 + hi) lo ls next h E); [rewrite pointer_byte by exact (Hu _ _ E); lia|exact El|]. rewrite pointer_target by (done || exact (Hu _ _ El)). exact IH.
Qed.

Lemma read_rfc_name bytes off labels next h : Forall is_u8 bytes -> name_at bytes off labels next h -> Forall (fun l => (length l <= 63)%nat) labels -> rfc_name bytes off labels next h.
Proof.
  intros Hu. pose proof Hu as Hu'. rewrite Forall_lookup in Hu. induction 1 as [off E|off b l ls next h E Ep Hb El _ IH|off b lo ls next h E Ep El _ IH]; intros Hl.
  - by apply rn_root.
  - inversion_clear Hl as [|? ? Hl1 Hl2]. pose proof (Hu _ _ E) as Ub. unfold is_u8 in Ub. unfold sub_bytes in El. destruct (Nat.leb_spec (off + 1 + Z.to_nat b) (length bytes)) as [Hle|]; [|done]. injection El as El.
    assert (length l = Z.to_nat b) as Ell by (rewrite <- El, length_take, length_drop; lia). rewrite <- Ell in *. apply rn_label; [lia|by rewrite Ell, Z2Nat.id by lia|exact El|by apply IH].
  - pose proof (Hu _ _ E) as Ub. rewrite pointer_byte in Ep by exact Ub. unfold is_u8 in Ub. assert (b = 192 + (b - 192)) as Eb by lia. rewrite Eb in IH. rewrite pointer_target in IH by (lia || exact (Hu _ _ El)).
    apply (rn_pointer _ off (b - 192) lo ls next h); [lia|by rewrite <- Eb|exact El|by apply IH].
Qed.

(** Too many steps. *)
Lemma name_loop_long bytes off ls next h : name_at bytes off ls next h -> forall fuel acc ret, (fuel <= h)%nat -> name_loop fuel bytes off acc ret = Err PointerLoop.
Proof.
  induction 1 as [off E|off b l ls next h E Ep Hb El _ IH|off b lo ls next h E Ep El _ IH]; intros fuel acc ret Hf; (destruct fuel as [|fuel]; [done|]); [lia|..]; cbn [name_loop]; rewrite E, Ep.
  - rewrite (proj2 (Z.eqb_neq b 0)) by done. rewrite El. apply IH. lia.
  - rewrite El. apply IH. lia.
Qed.

(** A name without compression. *)
Definition label_bytes (l : str) : list Z := Z.of_nat (length l) :: l.
Definition name_bytes (labels : list str) : list Z := concat (map label_bytes labels) ++ [0].
Definition label_ok (l : str) : Prop := (0 < length l <= 63)%nat /\ DOT ∉ l /\ utf8_valid l = true.

Lemma short_not_pointer n : (n <= 63)%nat -> is_pointer (Z.of_nat n) = false.
Proof.
  intros H. assert (forallb (fun n => negb (is_pointer (Z.of_nat n))) (seq 0 64) = true) as Ha by (vm_compute; reflexivity).
  rewrite forallb_forall in Ha. apply negb_true_iff, Ha, in_seq. lia.
Qed.

Lemma sub_bytes_mid pre l post : sub_bytes (pre ++ l ++ post) (length pre) (length l) = Some l.
Proof. unfold sub_bytes. rewrite !length_app. destruct (Nat.leb_spec (length pre + length l) (length pre + (length l + length post))); [|lia]. by rewrite drop_app_length, take_app_length. Qed.

Lemma name_at_bytes labels : forall pre post, Forall label_ok labels -> name_at (pre ++ name_bytes labels ++ post) (length pre) labels (length pre + length (name_bytes labels)) (length labels).
Proof.
  induction labels as [|l labels IH]; intros pre post Hl; [apply na_root; change (name_bytes [] ++ post) with (0 :: post); by rewrite list_lookup_middle|]. inversion_clear Hl as [|? ? (H1 & H2 & H3) Hls].
  assert (name_bytes (l :: labels) = label_bytes l ++ name_bytes labels) as En by (unfold name_bytes; cbn [map concat]; by rewrite app_assoc). rewrite En.
  specialize (IH (pre ++ label_bytes l) post Hls). rewrite <- app_assoc in IH. rewrite length_app in IH.
  replace (length pre + length (label_bytes l ++ name_bytes labels))%nat with (length pre + length (label_bytes l) + length (name_bytes labels))%nat by (rewrite length_app; lia).
  rewrite <- app_assoc. apply (na_label _ _ (Z.of_nat (length l)) l labels).
  - unfold label_bytes. cbn [app]. by rewrite list_lookup_middle.
  - by apply short_not_pointer, H1.
  - lia.
  - rewrite Nat2Z.id. change (label_bytes l ++ name_bytes labels ++ post) with ([Z.of_nat (length l)] ++ l ++ name_bytes labels ++ post). rewrite (app_assoc pre). pose proof (sub_bytes_mid (pre ++ [Z.of_nat (length l)]) l (name_bytes labels ++ post)) as Hs. rewrite length_app in Hs. exact Hs.
  - rewrite Nat2Z.id. change (length (label_bytes l)) with (S (length l)) in IH. replace (length pre + 1 + length l)%nat with (length pre + S (length l))%nat by lia. exact IH.
Qed.

Lemma filter_all_ok labels : Forall label_ok labels -> List.filter utf8_valid labels = labels.
Proof. induction 1 as [|l ls (_ & _ & H) _ IH]; [done|]. cbn [List.filter]. by rewrite H, IH. Qed.

Lemma dns_split_join labels : labels <> [] -> Forall label_ok labels -> split_on DOT (join_labels labels) = labels.
Proof.
  intros Hne Hl. induction Hl as [|l ls (_ & Hd & _) Hls IH]; [done|]. destruct ls as [|l2 ls]; [by apply split_on_word|]. cbn [join_labels]. rewrite split_on_app by done. f_equal. by apply IH.
Qed.

Lemma encode_labels_ok labels out : Forall label_ok labels -> encode_labels labels out = Ok (out ++ name_bytes labels).
Proof.
  intros Hl. revert out. induction Hl as [|l ls (H1 & _ & _) Hls IH]; intros out; [done|]. cbn [encode_labels]. rewrite bool_decide_false by (intros ->; cbn in H1; lia). destruct (Nat.ltb_spec 63 (length l)); [lia|]. rewrite IH. unfold name_bytes. cbn [map concat label_bytes]. by rewrite <- !app_assoc.
Qed.

(** ** A server's answer *)

Lemma get_arr_mid pre l post : get_arr (pre ++ l ++ post) (length pre) (length l) = Some l.
Proof.
  revert pre. induction l as [|x l IH]; intros pre; [done|]. unfold get_arr. cbn [length seq mapM]. cbn [app]. rewrite list_lookup_middle by done. cbn [mbind option_bind].
  specialize (IH (pre ++ [x])). rewrite <- app_assoc, length_app in IH. cbn [length] in IH. rewrite Nat.add_1_r in IH. unfold get_arr in IH. cbn [app] in IH. unfold get_arr. cbn [app]. rewrite IH. done.
Qed.

Lemma get_be_mid pre n x post : 0 <= x < 2 ^ (8 * Z.of_nat n) -> get_be (pre ++ to_be_bytes n x ++ post) (length pre) n = Some x.
Proof.
  intros Hx. unfold get_be. assert (length (to_be_bytes n x) = n) as Hl by (unfold to_be_bytes; by rewrite length_rev, to_le_bytes_length).
  rewrite <- Hl at 2. rewrite get_arr_mid. cbn. by rewrite from_to_be_bytes, Z.mod_small.
Qed.

(** The header, the question as asked, and one record per answer, named by a pointer to the question. *)
Record Answer := { an_rtype : Z; an_rclass : Z; an_ttl : Z; an_rdata : list Z }.
Definition answer_bytes (a : Answer) : list Z := [0xC0; 0x0C] ++ to_be_bytes 2 (an_rtype a) ++ to_be_bytes 2 (an_rclass a) ++ to_be_bytes 4 (an_ttl a) ++ to_be_bytes 2 (Z.of_nat (length (an_rdata a))) ++ an_rdata a.
Definition response_header (id flags : Z) (n : nat) : list Z := to_be_bytes 2 id ++ to_be_bytes 2 flags ++ [0; 1] ++ to_be_bytes 2 (Z.of_nat n) ++ [0; 0; 0; 0].
Definition response_bytes (id flags : Z) (labels : list str) (answers : list Answer) : list Z :=
  response_header id flags (length answers) ++ name_bytes labels ++ [0; 1; 0; 1] ++ concat (map answer_bytes answers).
Definition answer_wire_ok (a : Answer) : Prop := is_u16 (an_rtype a) /\ is_u16 (an_rclass a) /\ is_u32 (an_ttl a) /\ Z.of_nat (length (an_rdata a)) < 2 ^ 16.
Definition answer_record (name : str) (a : Answer) : DnsRecord := {| dr_name := name; dr_rtype := an_rtype a; dr_rclass := an_rclass a; dr_ttl := an_ttl a; dr_rdata := an_rdata a |}.

Lemma name_at_app bytes post off labels next h : name_at bytes off labels next h -> name_at (bytes ++ post) off labels next h.
Proof.
  assert (forall o b, bytes !! o = Some b -> (bytes ++ post) !! o = Some b) as Hl by (intros o b H; by apply lookup_app_l_Some).
  induction 1 as [off E|off b l ls next h E Ep Hb El _ IH|off b lo ls next h E Ep El _ IH].
  - apply na_root. by apply Hl.
  - apply (na_label _ off b); [by apply Hl|done|done| |done]. unfold sub_bytes in *. rewrite length_app. destruct (Nat.leb_spec (off + 1 + Z.to_nat b) (length bytes)); [|done]. destruct (Nat.leb_spec (off + 1 + Z.to_nat b) (length bytes + length post)); [|lia].
    rewrite drop_app_le by lia. rewrite take_app_le by (rewrite length_drop; lia). done.
  - by apply (na_pointer _ off b lo ls next); [apply Hl|done|apply Hl|].
Qed.

Section Answered.
Context (id flags : Z) (labels : list str) (Hlabels : Forall label_ok labels) (Hn : (length labels < MAX_POINTER_HOPS)%nat).
Let asked (n : nat) (pre : list Z) : list Z := response_header id flags n ++ name_bytes labels ++ [0; 1; 0; 1] ++ pre.

(** A pointer to the question's name. *)
Lemma pointed_name n pre post : exists bytes, bytes = asked n pre ++ [0xC0; 0x0C] ++ post /\
  decode_dns_name bytes (length (asked n pre)) = Ok (join_labels labels, (length (asked n pre) + 2)%nat).
Proof.
  eexists. split; [reflexivity|]. set (P := asked n pre). apply decode_name_spec. exists labels, (S (length labels)). split; [|split; [lia|by rewrite filter_all_ok]].
  apply (na_pointer _ _ 0xC0 0x0C labels (12 + length (name_bytes labels))); [by apply list_lookup_middle|reflexivity| |].
  - rewrite lookup_app_r by lia. by replace (length P + 1 - length P)%nat with 1%nat by lia.
  - change (Z.to_nat (Z.lor (Z.shiftl (Z.land 0xC0 0x3F) 8) 0x0C)) with 12%nat. apply name_at_app. unfold P, asked. exact (name_at_bytes labels (response_header id flags n) ([0; 1; 0; 1] ++ pre) Hlabels).
Qed.

Lemma read_record_ok n pre a post : answer_wire_ok a -> let P := asked n pre in
  read_record (P ++ answer_bytes a ++ post) (length P) = Ok (answer_record (join_labels labels) a, (length P + length (answer_bytes a))%nat).
Proof.
  intros (H1 & H2 & H3 & H4) P. unfold read_record. set (rest := to_be_bytes 2 (an_rtype a) ++ to_be_bytes 2 (an_rclass a) ++ to_be_bytes 4 (an_ttl a) ++ to_be_bytes 2 (Z.of_nat (length (an_rdata a))) ++ an_rdata a ++ post).
  assert (answer_bytes a ++ post = [0xC0; 0x0C] ++ rest) as Ea by (unfold answer_bytes, rest; by rewrite <- !app_assoc). rewrite Ea.
  destruct (pointed_name n pre rest) as (bytes & Eb & Ed). fold P in Eb, Ed. rewrite <- Eb, Ed. clear Ed.
  assert (length (answer_bytes a) = (12 + length (an_rdata a))%nat) as Hla by (unfold answer_bytes; rewrite !length_app; unfold to_be_bytes; rewrite !length_rev, !to_le_bytes_length; cbn [length]; lia).
  assert (length bytes = (length P + 12 + length (an_rdata a) + length post)%nat) as Hlb. { rewrite Eb, length_app, <- Ea, length_app, Hla. lia. }
  destruct (Nat.ltb_spec (length bytes) (length P + 2 + 10)); [lia|].
  assert (forall k m x tail0 head0, rest = head0 ++ to_be_bytes m x ++ tail0 -> length head0 = k -> 0 <= x < 2 ^ (8 * Z.of_nat m) -> get_be bytes (length P + 2 + k) m = Some x) as Hg.
  { intros k m x tail0 head0 Er Hk Hx. pose proof (get_be_mid (P ++ [0xC0; 0x0C] ++ head0) m x tail0 Hx) as Hm. rewrite !length_app in Hm. cbn [length] in Hm. rewrite Hk in Hm. rewrite Eb, Er. rewrite <- Hm. f_equal; [by rewrite <- !app_assoc|lia]. }
  pose proof (Hg 0%nat 2%nat (an_rtype a) _ [] eq_refl eq_refl H1) as G1. rewrite Nat.add_0_r in G1. rewrite G1.
  rewrite (Hg 2%nat 2%nat (an_rclass a) _ (to_be_bytes 2 (an_rtype a)) eq_refl eq_refl H2).
  rewrite (Hg 4%nat 4%nat (an_ttl a) _ (to_be_bytes 2 (an_rtype a) ++ to_be_bytes 2 (an_rclass a)) ltac:(unfold rest; by rewrite <- !app_assoc) eq_refl H3).
  rewrite (Hg 8%nat 2%nat (Z.of_nat (length (an_rdata a))) _ (to_be_bytes 2 (an_rtype a) ++ to_be_bytes 2 (an_rclass a) ++ to_be_bytes 4 (an_ttl a)) ltac:(unfold rest; by rewrite <- !app_assoc) eq_refl ltac:(lia)).
  unfold trunc. cbn [ok_or mbind result_bind]. rewrite Nat2Z.id.
  pose proof (sub_bytes_mid (P ++ [0xC0; 0x0C] ++ to_be_bytes 2 (an_rtype a) ++ to_be_bytes 2 (an_rclass a) ++ to_be_bytes 4 (an_ttl a) ++ to_be_bytes 2 (Z.of_nat (length (an_rdata a)))) (an_rdata a) post) as Hs.
  rewrite length_app in Hs. change (length ([0xC0; 0x0C] ++ to_be_bytes 2 (an_rtype a) ++ to_be_bytes 2 (an_rclass a) ++ to_be_bytes 4 (an_ttl a) ++ to_be_bytes 2 (Z.of_nat (length (an_rdata a))))) with 12%nat in Hs.
  replace (length P + 2 + 10)%nat with (length P + 12)%nat by lia. replace bytes with ((P ++ [0xC0; 0x0C] ++ to_be_bytes 2 (an_rtype a) ++ to_be_bytes 2 (an_rclass a) ++ to_be_bytes 4 (an_ttl a) ++ to_be_bytes 2 (Z.of_nat (length (an_rdata a)))) ++ an_rdata a ++ post) by (rewrite Eb; unfold rest; by rewrite <- !app_assoc).
  rewrite Hs. cbn [ok_or mbind result_bind]. rewrite Hla. unfold answer_record. do 2 f_equal. lia.
Qed.

Lemma read_records_ok n answers : forall pre, Forall answer_wire_ok answers -> let P := asked n pre in
  read_records (length answers) (P ++ concat (map answer_bytes answers)) (length P) = Ok (map (answer_record (join_labels labels)) answers).
Proof.
  induction answers as [|a answers IH]; intros pre Ha P; [done|]. inversion_clear Ha as [|? ? Ha1 Ha2]. cbn [length map concat read_records]. unfold P. rewrite read_record_ok by done.
  specialize (IH (pre ++ answer_bytes a) Ha2). cbn zeta in IH. assert (asked n (pre ++ answer_bytes a) = asked n pre ++ answer_bytes a) as Es by (unfold asked; by rewrite <- !app_assoc).
  rewrite Es, <- app_assoc, length_app in IH. by rewrite IH.
Qed.
End Answered.

Lemma skip_name_bytes labels : forall hops pre post, Forall label_ok labels -> (length labels <= hops)%nat -> skip_name hops (pre ++ name_bytes labels ++ post) (length pre) = Ok (length pre + length (name_bytes labels))%nat.
Proof.
  induction labels as [|l labels IH]; intros hops pre post Hl Hh.
  - destruct hops; cbn [skip_name]; change (name_bytes [] ++ post) with (0 :: post); by rewrite list_lookup_middle.
  - inversion_clear Hl as [|? ? (H1 & H2 & H3) Hls]. destruct hops as [|hops]; [cbn in Hh; lia|]. cbn [length] in Hh.
    assert (name_bytes (l :: labels) = label_bytes l ++ name_bytes labels) as -> by (unfold name_bytes; cbn [map concat]; by rewrite app_assoc).
    specialize (IH hops (pre ++ label_bytes l) post Hls ltac:(lia)). rewrite <- app_assoc, length_app in IH. rewrite <- app_assoc. cbn [skip_name].
    rewrite (list_lookup_middle pre (l ++ name_bytes labels ++ post) (Z.of_nat (length l))) by done. rewrite short_not_pointer by lia. destruct (Z.eqb_spec (Z.of_nat (length l)) 0); [lia|]. rewrite Nat2Z.id.
    change (1 + length l)%nat with (length (label_bytes l)). rewrite IH. f_equal. rewrite length_app. lia.
Qed.

Lemma skip_name_long labels : forall hops pre post, Forall label_ok labels -> (hops < length labels)%nat -> skip_name hops (pre ++ name_bytes labels ++ post) (length pre) = Err PointerLoop.
Proof.
  induction labels as [|l labels IH]; intros hops pre post Hl Hh; [cbn in Hh; lia|]. inversion_clear Hl as [|? ? (H1 & H2 & H3) Hls].
  assert (name_bytes (l :: labels) = label_bytes l ++ name_bytes labels) as -> by (unfold name_bytes; cbn [map concat]; by rewrite app_assoc).
  rewrite <- app_assoc. assert ((pre ++ label_bytes l ++ name_bytes labels ++ post) !! length pre = Some (Z.of_nat (length l))) as E by (unfold label_bytes; cbn [app]; by apply list_lookup_middle).
  destruct hops as [|hops]; cbn [skip_name]; rewrite E, short_not_pointer, (proj2 (Z.eqb_neq _ 0)) by lia; [done|]. rewrite Nat2Z.id.
  specialize (IH hops (pre ++ label_bytes l) post Hls ltac:(cbn [length] in Hh; lia)). rewrite <- app_assoc, length_app in IH. exact IH.
Qed.

(** ** A whole response *)

(** What is read before the question: only the response code and the counts. *)
Lemma decode_response_head id flags labels answers : is_u16 flags -> Z.of_nat (length answers) < 2 ^ 16 ->
  decode_dns_response (response_bytes id flags labels answers) =
  if negb (Z.land flags 0xF =? 0) then Err (ServerError (Z.land flags 0xF)) else
  match skip_questions 1 (response_bytes id flags labels answers) 12 with Err e => Err e | Ok offset => read_records (length answers) (response_bytes id flags labels answers) offset end.
Proof.
  intros Hf Hc. unfold decode_dns_response.
  assert (length (response_bytes id flags labels answers) = (12 + (length (name_bytes labels) + (4 + length (concat (map answer_bytes answers)))))%nat) as HR by (unfold response_bytes; by rewrite !length_app).
  destruct (Nat.ltb_spec (length (response_bytes id flags labels answers)) 12); [lia|].
  assert (get_be (response_bytes id flags labels answers) 2 2 = Some flags) as ->. { unfold response_bytes, response_header. rewrite <- !app_assoc. by apply (get_be_mid (to_be_bytes 2 id)). }
  assert (get_be (response_bytes id flags labels answers) 4 2 = Some 1) as ->. { unfold response_bytes, response_header. rewrite <- !app_assoc. rewrite (app_assoc (to_be_bytes 2 id)). by apply (get_be_mid (to_be_bytes 2 id ++ to_be_bytes 2 flags) 2 1). }
  assert (get_be (response_bytes id flags labels answers) 6 2 = Some (Z.of_nat (length answers))) as ->.
  { unfold response_bytes, response_header. rewrite <- !app_assoc. rewrite (app_assoc (to_be_bytes 2 flags)), (app_assoc (to_be_bytes 2 id)). apply (get_be_mid (to_be_bytes 2 id ++ to_be_bytes 2 flags ++ [0; 1])). cbn. lia. }
  unfold trunc. cbn [ok_or mbind result_bind]. by rewrite Nat2Z.id.
Qed.

Lemma skip_question id flags labels answers : Forall label_ok labels -> (length labels <= MAX_POINTER_HOPS)%nat ->
  skip_questions 1 (response_bytes id flags labels answers) 12 = Ok (length (response_header id flags (length answers) ++ name_bytes labels ++ [0; 1; 0; 1])).
Proof.
  intros Hl Hn. cbn [skip_questions].
  assert (skip_dns_name (response_bytes id flags labels answers) 12 = Ok (12 + length (name_bytes labels))%nat) as -> by (apply (skip_name_bytes labels _ (response_header id flags (length answers))); [done|lia]).
  destruct (Nat.ltb_spec (length (response_bytes id flags labels answers)) (12 + length (name_bytes labels) + 4)) as [H|_]; [unfold response_bytes in H; rewrite !length_app in H; change (length (response_header id flags (length answers))) with 12%nat in H; cbn [length] in H; lia|].
  rewrite !length_app. change (length (response_header id flags (length answers))) with 12%nat. cbn [length]. by rewrite Nat.add_assoc.
Qed.

(** The question and the answers. *)
Lemma decode_response_ok id flags labels answers : Forall label_ok labels -> (length labels < MAX_POINTER_HOPS)%nat -> Forall answer_wire_ok answers -> Z.of_nat (length answers) < 2 ^ 16 -> is_u16 flags -> Z.land flags 0xF = 0 ->
  decode_dns_response (response_bytes id flags labels answers) = Ok (map (answer_record (join_labels labels)) answers).
Proof.
  intros Hl Hn Ha Hc Hf Hr. rewrite decode_response_head by done. rewrite Hr. cbn [negb Z.eqb]. rewrite skip_question by (done || lia).
  pose proof (read_records_ok id flags labels Hl Hn (length answers) answers [] Ha) as Hrec. cbv zeta beta in Hrec. rewrite app_nil_r in Hrec. rewrite <- Hrec. unfold response_bytes. f_equal. by rewrite <- !app_assoc.
Qed.

(** Seventeen steps to an answer's name are too many. *)
Lemma decode_response_long id flags labels answers : Forall label_ok labels -> (MAX_POINTER_HOPS <= length labels)%nat -> answers <> [] -> Z.of_nat (length answers) < 2 ^ 16 -> is_u16 flags -> Z.land flags 0xF = 0 ->
  decode_dns_response (response_bytes id flags labels answers) = Err PointerLoop.
Proof.
  intros Hl Hn Ha Hc Hf Hr. rewrite decode_response_head by done. rewrite Hr. cbn [negb Z.eqb]. destruct (Nat.le_gt_cases (length labels) MAX_POINTER_HOPS) as [Hle|Hgt].
  - rewrite skip_question by done. destruct answers as [|a answers]; [done|]. cbn [length read_records]. unfold read_record, decode_dns_name.
    change (length (a :: answers)) with (S (length answers)).
    set (P := response_header id flags (S (length answers)) ++ name_bytes labels ++ [0; 1; 0; 1]).
    assert (response_bytes id flags labels (a :: answers) = P ++ [0xC0; 0x0C] ++ drop 2 (answer_bytes a) ++ concat (map answer_bytes answers)) as -> by (unfold response_bytes, P; cbn [map concat]; by rewrite <- !app_assoc).
    rewrite (name_loop_long _ _ labels (length P + 2) (S (length labels))); [done| |lia].
    apply (na_pointer _ _ 0xC0 0x0C labels (12 + length (name_bytes labels))); [by apply list_lookup_middle|reflexivity| |].
    + rewrite lookup_app_r by lia. by replace (length P + 1 - length P)%nat with 1%nat by lia.
    + change (Z.to_nat (Z.lor (Z.shiftl (Z.land 0xC0 0x3F) 8) 0x0C)) with 12%nat. unfold P. rewrite <- !app_assoc. exact (name_at_bytes labels (response_header id flags (S (length answers))) _ Hl).
  - cbn [skip_questions]. unfold skip_dns_name. pose proof (skip_name_long labels MAX_POINTER_HOPS (response_header id flags (length answers)) ([0; 1; 0; 1] ++ concat (map answer_bytes answers)) Hl Hgt) as E.
    unfold response_bytes. change (length (response_header id flags (length answers))) with 12%nat in E. by rewrite E.
Qed.

Lemma encode_query_ok labels id : labels <> [] -> Forall label_ok labels -> encode_dns_query (join_labels labels) id = Ok (to_be_bytes 2 id ++ [1; 0; 0; 1; 0; 0; 0; 0; 0; 0] ++ name_bytes labels ++ [0; 1; 0; 1]).
Proof. intros Hne Hl. unfold encode_dns_query, encode_dns_name. rewrite dns_split_join, encode_labels_ok by done. by rewrite <- !app_assoc. Qed.

Lemma cached_then to_lowercase name name' addrs ttl now now' r : resolve_cached to_lowercase name' now' (cache_result to_lowercase name addrs ttl now r) =
  if bool_decide (to_lowercase name' = to_lowercase name) then if ttl <=? saturating_sub now' now then None else Some addrs else resolve_cached to_lowercase name' now' r.
Proof. unfold resolve_cached, cache_result. cbn [dns_cache]. case_bool_decide as E; [by rewrite E, lookup_insert_eq|by rewrite lookup_insert_ne by congruence]. Qed.

Lemma handle_of_response id flags labels answers : decode_dns_response (response_bytes id flags labels answers) = Ok (map (answer_record (join_labels labels)) answers) ->
  handle_response (response_bytes id flags labels answers) =
  let addrs := map an_rdata (List.filter (fun a => (an_rtype a =? QTYPE_A) && (length (an_rdata a) =? 4)%nat) answers) in if bool_decide (addrs = []) then Err NoRecords else Ok addrs.
Proof.
  intros Hd. unfold handle_response. rewrite Hd. cbn zeta.
  assert (map dr_rdata (List.filter (fun r => (dr_rtype r =? QTYPE_A) && (length (dr_rdata r) =? 4)%nat) (map (answer_record (join_labels labels)) answers)) = map an_rdata (List.filter (fun a => (an_rtype a =? QTYPE_A) && (length (an_rdata a) =? 4)%nat) answers)) as ->; [|done].
  clear. induction answers as [|a answers IH]; [done|]. cbn [map List.filter answer_record dr_rtype dr_rdata]. destruct ((an_rtype a =? QTYPE_A) && _); cbn [map]; by rewrite IH.
Qed.

(** C24: what the resolver reads and writes, against RFC 1035.
    (1) A name: on a message of bytes, the names of the RFC (labels of 1 to 63
    bytes, pointers, the root) are those among the names of [name_at] whose
    labels have at most 63 bytes, and [decode_dns_name] returns a name and the
    offset behind it exactly for the names of [name_at] reached in at most
    sixteen labels and pointers; the text is the labels joined by dots, without
    those that are not UTF-8.  So it reads every such name of the RFC, it ends
    on every message, a pointer loop too, and it goes beyond the RFC in one
    thing: a length byte of 64 to 191, which the RFC reserves, is taken as a
    label of that length.
    (2) A query for a host name of well-formed labels is the header, the name
    and the type and class asked for.
    (3) A response that repeats a question of well-formed labels and names each
    of its fewer than 65536 records by a pointer to it: with a response code other than 0 the answer is that server error;
    with code 0, whatever the other flags are (the bit that tells a response
    from a query is not looked at), a name of fewer than sixteen labels gives
    exactly its records, of which [handle_response] returns the address records
    in order, and [NoRecords] when there are none; a longer name with at least
    one record is refused as a pointer loop.
    (4) An address put into the cache is found under every spelling of the same
    lower-case name exactly while its age is below its time to live, and no
    other name's entry is changed. *)
Theorem dns_exact :
  (forall bytes off name next, decode_dns_name bytes off = Ok (name, next) <->
     exists labels h, name_at bytes off labels next h /\ (h <= MAX_POINTER_HOPS)%nat /\ name = join_labels (List.filter utf8_valid labels))
  /\ (forall bytes off labels next h, Forall is_u8 bytes -> rfc_name bytes off labels next h <-> name_at bytes off labels next h /\ Forall (fun l => (length l <= 63)%nat) labels)
  /\ (forall labels id, labels <> [] -> Forall label_ok labels ->
     encode_dns_query (join_labels labels) id = Ok (to_be_bytes 2 id ++ [1; 0; 0; 1; 0; 0; 0; 0; 0; 0] ++ name_bytes labels ++ [0; 1; 0; 1]))
  /\ (forall id flags labels answers, Forall label_ok labels -> Forall answer_wire_ok answers -> Z.of_nat (length answers) < 2 ^ 16 -> is_u16 flags ->
     let response := response_bytes id flags labels answers in
     if decide (Z.land flags 0xF <> 0) then decode_dns_response response = Err (ServerError (Z.land flags 0xF)) /\ handle_response response = Err (ServerError (Z.land flags 0xF)) else
     if decide (length labels < 16)%nat then
       decode_dns_response response = Ok (map (answer_record (join_labels labels)) answers) /\
       handle_response response = let addrs := map an_rdata (List.filter (fun a => (an_rtype a =? QTYPE_A) && (length (an_rdata a) =? 4)%nat) answers) in if bool_decide (addrs = []) then Err NoRecords else Ok addrs
     else answers <> [] -> decode_dns_response response = Err PointerLoop /\ handle_response response = Err PointerLoop)
  /\ (forall to_lowercase name name' addrs ttl now now' r, resolve_cached to_lowercase name' now' (cache_result to_lowercase name addrs ttl now r) =
     if bool_decide (to_lowercase name' = to_lowercase name) then if ttl <=? saturating_sub now' now then None else Some addrs else resolve_cached to_lowercase name' now' r).
Proof.
  split; [exact decode_name_spec|]. split; [intros bytes off labels next h Hu; split; [by apply rfc_name_read|intros [H1 H2]; by apply read_rfc_name]|]. split; [by intros; apply encode_query_ok|]. split; [|exact cached_then].
  intros id flags labels answers Hl Ha Hc Hf response. destruct (decide (Z.land flags 0xF <> 0)) as [Hr|Hr]; [|destruct (decide (length labels < 16)%nat) as [Hn|Hn]].
  - assert (decode_dns_response response = Err (ServerError (Z.land flags 0xF))) as E by (unfold response; rewrite decode_response_head by done; by rewrite (proj2 (Z.eqb_neq _ 0) Hr)). split; [exact E|]. unfold handle_response. by rewrite E.
  - assert (Z.land flags 0xF = 0) as Hr' by lia. pose proof (decode_response_ok id flags labels answers Hl Hn Ha Hc Hf Hr') as Hd. split; [exact Hd|]. by apply handle_of_response.
  - intros Hne. assert (decode_dns_response response = Err PointerLoop) as E by (apply decode_response_long; unfold MAX_POINTER_HOPS; done || lia). split; [exact E|]. unfold handle_response. by rewrite E.
Qed.

(** example.com, answered with one address. *)
Definition sample_labels : list str := [[101; 120; 97; 109; 112; 108; 101]; [99; 111; 109]].
Definition sample_answer : Answer := {| an_rtype := 1; an_rclass := 1; an_ttl := 300; an_rdata := [93; 184; 216; 34] |}.
Lemma dns_exact_witness : encode_dns_query (join_labels sample_labels) 7 = Ok (to_be_bytes 2 7 ++ [1; 0; 0; 1; 0; 0; 0; 0; 0; 0] ++ name_bytes sample_labels ++ [0; 1; 0; 1])
  /\ handle_response (response_bytes 7 0x8180 sample_labels [sample_answer]) = Ok [[93; 184; 216; 34]].
Proof.
  assert (Forall label_ok sample_labels) as Hl by (repeat constructor; first [reflexivity|cbn; lia|set_solver]).
  split; [apply dns_exact; done|]. destruct dns_exact as (_ & _ & _ & H & _).
  specialize (H 7 0x8180 sample_labels [sample_answer] Hl ltac:(repeat constructor; cbn; lia) ltac:(cbn; lia) ltac:(split; cbn; lia)). exact (proj2 H).
Defined.

(** A name of seventeen labels is legal, and the query for it is built, but no answer that carries it can be read. *)
Example long_name_refused : let name := join_labels (repeat [97] 17) in
  (if encode_dns_query name 1 is Ok _ then true else false) = true /\ decode_dns_response (response_bytes 1 0x8180 (repeat [97] 17) [sample_answer]) = Err PointerLoop.
Proof. vm_compute. split; reflexivity. Qed.

(** An empty label is skipped, not refused: "a..b" asks for "a.b". *)
Example empty_label_skipped : encode_dns_query [97; 46; 46; 98] 1 = encode_dns_query [97; 46; 98] 1.
Proof. vm_compute. reflexivity. Qed.

(** A length byte of 64 is reserved in RFC 1035; a label of 64 bytes is read. *)
Example reserved_label_read : decode_dns_name (64 :: repeat 97 64 ++ [0]) 0 = Ok (repeat 97 64, 66%nat).
Proof. vm_compute. reflexivity. Qed.

(** A message that is a query (its QR bit is 0) is taken for a response. *)
Example query_taken_for_response : handle_response (response_bytes 1 0x0100 sample_labels [sample_answer]) = Ok [[93; 184; 216; 34]].
Proof. vm_compute. reflexivity. Qed.

(** A label that is not text is left out: the name of [255] . a is "a". *)
Example bad_label_dropped : decode_dns_name [1; 255; 1; 97; 0] 0 = Ok ([97], 5%nat).
Proof. vm_compute. reflexivity. Qed.
