(* ===== verification/Dhcp.v ===== *)
(** * Address configuration (omni-net dhcp.rs)

    DHCP messages on the wire and the client's state machine.  The client does
    no input or output of its own: it is fed the payloads that arrive and
    returns what is to be sent. *)

From Stdlib Require Import ZArith Lia.
From stdpp Require Import base numbers list.
From S2P Require Import Prelude Net Dns.

(** ** Data *)

Definition DHCP_SERVER_PORT : Z := 67.
Definition DHCP_CLIENT_PORT : Z := 68.
Definition DHCP_MAGIC_COOKIE : list Z := [99; 130; 83; 99].
Definition DHCP_FIXED_HDR_LEN : nat := 236.
Definition DHCP_MIN_LEN : nat := DHCP_FIXED_HDR_LEN + 4.
Definition OP_BOOTREQUEST : Z := 1.
Definition OP_BOOTREPLY : Z := 2.

Definition SUBNET_MASK : Z := 1.
Definition ROUTER : Z := 3.
Definition DNS_SERVER : Z := 6.
Definition REQUESTED_IP : Z := 50.
Definition LEASE_TIME : Z := 51.
Definition MESSAGE_TYPE : Z := 53.
Definition SERVER_ID : Z := 54.
Definition OPT_END : Z := 255.
Definition OPT_PAD : Z := 0.

Inductive DhcpState := Init | Selecting | Requesting | Bound | Renewing | Rebinding.
Inductive DhcpMessageType := Discover | Offer | Request | Decline | Ack | Nak | Release.
Global Instance DhcpState_eq_dec : EqDecision DhcpState. Proof. solve_decision. Defined.

Definition message_type_u8 (t : DhcpMessageType) : Z := match t with Discover => 1 | Offer => 2 | Request => 3 | Decline => 4 | Ack => 5 | Nak => 6 | Release => 7 end.
Definition message_type_from_u8 (v : Z) : option DhcpMessageType :=
  if v =? 1 then Some Discover else if v =? 2 then Some Offer else if v =? 3 then Some Request else if v =? 4 then Some Decline else
  if v =? 5 then Some Ack else if v =? 6 then Some Nak else if v =? 7 then Some Release else None.

Record DhcpOption := { do_code : Z; do_data : list Z }.
Record DhcpLease := { client_ip : list Z; subnet_mask : list Z; lease_gateway : option (list Z); dns_servers_of : list (list Z); server_ip : list Z; lease_time_secs : Z; obtained_at : Z }.
Inductive DhcpResult := SendDiscover (bytes : list Z) | SendRequest (bytes : list Z) | NowBound (l : DhcpLease) | Rejected | IgnoredMessage.
Record DhcpMessage := { dm_op : Z; dm_xid : Z; dm_yiaddr : list Z; dm_siaddr : list Z; dm_options : list DhcpOption }.
Record DhcpClient := { dhcp_state : DhcpState; dhcp_xid : Z; dhcp_mac : list Z; lease : option DhcpLease }.

(** ** Messages *)

(** One option as it is written: padding and the end marker have no length; longer data is cut at 255 bytes. *)
Definition option_bytes (o : DhcpOption) : list Z :=
  do_code o :: (if negb (do_code o =? OPT_PAD) && negb (do_code o =? OPT_END) then let len := Nat.min (length (do_data o)) 255 in Z.of_nat len :: take len (do_data o) else []).

Definition fixed_header (xid : Z) (mac : list Z) : list Z :=
  [OP_BOOTREQUEST; 1; 6; 0] ++ to_be_bytes 4 xid ++ to_be_bytes 2 0 ++ to_be_bytes 2 0 ++ replicate 4 0 ++ replicate 4 0 ++ replicate 4 0 ++ replicate 4 0 ++ mac ++ replicate 10 0 ++ replicate 64 0 ++ replicate 128 0.
Definition encode_dhcp_message (xid : Z) (mac : list Z) (options : list DhcpOption) : list Z :=
  fixed_header xid mac ++ DHCP_MAGIC_COOKIE ++ concat (map option_bytes options) ++ [OPT_END].

(** The scan of the option bytes, from the position reached on; every round takes a byte at least. *)
Fixpoint options_loop (fuel : nat) (data : list Z) : list DhcpOption :=
  match fuel with
  | O => []
  | S fuel =>
      match data with
      | [] => []
      | code :: rest =>
          if code =? OPT_END then [] else
          if code =? OPT_PAD then options_loop fuel rest else
          match rest with
          | [] => []
          | len :: rest => if (length rest <? Z.to_nat len)%nat then [] else {| do_code := code; do_data := take (Z.to_nat len) rest |} :: options_loop fuel (drop (Z.to_nat len) rest)
          end
      end
  end.
Definition parse_dhcp_options (data : list Z) : list DhcpOption := options_loop (length data) data.

Definition decode_dhcp_message (data : list Z) : option DhcpMessage :=
  if (length data <? DHCP_MIN_LEN)%nat then None else
  op ← data !! 0%nat; xid ← get_be data 4 4; yiaddr ← get_arr data 16 4; siaddr ← get_arr data 20 4; cookie ← sub_bytes data 236 4;
  if negb (bool_decide (cookie = DHCP_MAGIC_COOKIE)) then None else
  Some {| dm_op := op; dm_xid := xid; dm_yiaddr := yiaddr; dm_siaddr := siaddr; dm_options := parse_dhcp_options (drop 240 data) |}.

Definition ipv4_from_option_data (data : list Z) : option (list Z) := if (length data <? 4)%nat then None else get_arr data 0 4.
Fixpoint ipv4_list_from_option_data (data : list Z) : list (list Z) := match data with a :: b :: c :: d :: rest => [a; b; c; d] :: ipv4_list_from_option_data rest | _ => [] end.
Definition u32_from_option_data (data : list Z) : option Z := if (length data <? 4)%nat then None else get_be data 0 4.

(** ** The client *)

Definition client_new (mac : list Z) (xid : Z) : DhcpClient := {| dhcp_state := Init; dhcp_xid := xid; dhcp_mac := mac; lease := None |}.
Definition set_dhcp (s : DhcpState) (l : option DhcpLease) (c : DhcpClient) : DhcpClient := {| dhcp_state := s; dhcp_xid := dhcp_xid c; dhcp_mac := dhcp_mac c; lease := l |}.

Definition build_discover (c : DhcpClient) : list Z * DhcpClient :=
  (encode_dhcp_message (dhcp_xid c) (dhcp_mac c) [{| do_code := MESSAGE_TYPE; do_data := [message_type_u8 Discover] |}], set_dhcp Selecting (lease c) c).
Definition build_request (server offered : list Z) (c : DhcpClient) : list Z * DhcpClient :=
  (encode_dhcp_message (dhcp_xid c) (dhcp_mac c) [{| do_code := MESSAGE_TYPE; do_data := [message_type_u8 Request] |}; {| do_code := SERVER_ID; do_data := server |}; {| do_code := REQUESTED_IP; do_data := offered |}],
   set_dhcp Requesting (lease c) c).

Definition find_option (code : Z) (options : list DhcpOption) : option DhcpOption := List.find (fun o => do_code o =? code) options.
Definition server_of (m : DhcpMessage) : list Z := default (dm_siaddr m) (o ← find_option SERVER_ID (dm_options m); ipv4_from_option_data (do_data o)).
Definition dhcp_type_of (m : DhcpMessage) : option DhcpMessageType := b ← (o ← find_option MESSAGE_TYPE (dm_options m); head (do_data o)); message_type_from_u8 b.
Definition lease_of (m : DhcpMessage) (now : Z) : DhcpLease :=
  {| client_ip := dm_yiaddr m;
     subnet_mask := default [255; 255; 255; 0] (o ← find_option SUBNET_MASK (dm_options m); ipv4_from_option_data (do_data o));
     lease_gateway := o ← find_option ROUTER (dm_options m); ipv4_from_option_data (do_data o);
     dns_servers_of := default [] ((fun o => ipv4_list_from_option_data (do_data o)) <$> find_option DNS_SERVER (dm_options m));
     server_ip := server_of m;
     lease_time_secs := default 3600 (o ← find_option LEASE_TIME (dm_options m); u32_from_option_data (do_data o));
     obtained_at := now |}.

Definition handle_message (data : list Z) (now : Z) (c : DhcpClient) : DhcpResult * DhcpClient :=
  match decode_dhcp_message data with
  | None => (IgnoredMessage, c)
  | Some msg =>
      if negb (dm_op msg =? OP_BOOTREPLY) || negb (dm_xid msg =? dhcp_xid c) then (IgnoredMessage, c) else
      match dhcp_type_of msg with
      | None => (IgnoredMessage, c)
      | Some t =>
          match dhcp_state c, t with
          | Selecting, Offer => let '(pkt, c) := build_request (server_of msg) (dm_yiaddr msg) c in (SendRequest pkt, c)
          | Requesting, Ack | Renewing, Ack | Rebinding, Ack => let l := lease_of msg now in (NowBound l, set_dhcp Bound (Some l) c)
          | _, Nak => (Rejected, set_dhcp Init None c)
          | _, _ => (IgnoredMessage, c)
          end
      end
  end.

Definition is_lease_expired (now : Z) (c : DhcpClient) : bool := match lease c with None => false | Some l => lease_time_secs l * 1000 <=? saturating_sub now (obtained_at l) end.
Definition should_renew (now : Z) (c : DhcpClient) : bool := match lease c with None => false | Some l => lease_time_secs l * 500 <=? saturating_sub now (obtained_at l) end.

(** ** Option fields *)

(** Options as they may be written back: no marker code, and a length that fits a byte. *)
Definition option_ok (o : DhcpOption) : Prop := do_code o <> OPT_PAD /\ do_code o <> OPT_END /\ (length (do_data o) <= 255)%nat.

Lemma option_bytes_ok o : option_ok o -> option_bytes o = do_code o :: Z.of_nat (length (do_data o)) :: do_data o.
Proof.
  intros (H1 & H2 & H3). unfold option_bytes. rewrite (proj2 (Z.eqb_neq _ _) H1), (proj2 (Z.eqb_neq _ _) H2). cbn [negb andb]. rewrite Nat.min_l by done. by rewrite firstn_all.
Qed.

Lemma options_loop_ok options : forall fuel rest, Forall option_ok options -> (length (concat (map option_bytes options) ++ OPT_END :: rest) <= fuel)%nat -> options_loop fuel (concat (map option_bytes options) ++ OPT_END :: rest) = options.
Proof.
  induction options as [|o options IH]; intros fuel rest Ho Hf; [by destruct fuel|]. inversion_clear Ho as [|? ? H1 H2]. cbn [map concat] in *. rewrite option_bytes_ok in * by done. cbn [app length] in *. destruct fuel as [|fuel]; [lia|].
  cbn [options_loop]. destruct H1 as (H1 & H1' & H1''). rewrite (proj2 (Z.eqb_neq _ _) H1), (proj2 (Z.eqb_neq _ _) H1'), Nat2Z.id, <- app_assoc.
  rewrite <- app_assoc in Hf. rewrite length_app in Hf. rewrite length_app. destruct (Nat.ltb_spec (length (do_data o) + length (concat (map option_bytes options) ++ OPT_END :: rest)) (length (do_data o))); [lia|].
  rewrite take_app_length, drop_app_length, IH by (done || lia). by destruct o.
Qed.

Lemma parse_options_ok options rest : Forall option_ok options -> parse_dhcp_options (concat (map option_bytes options) ++ OPT_END :: rest) = options.
Proof. intros H. by apply options_loop_ok. Qed.

(** ** A message of either side

    The fields that are not read are whatever their sender wrote. *)
Record Wire := { w_op : Z; w_hw : list Z; w_xid : Z; w_mid : list Z; w_yiaddr : list Z; w_siaddr : list Z; w_tail : list Z; w_options : list DhcpOption; w_rest : list Z }.
Record wire_ok (w : Wire) : Prop := {
  wo_hw : length (w_hw w) = 3%nat; wo_xid : is_u32 (w_xid w); wo_mid : length (w_mid w) = 8%nat; wo_yi : length (w_yiaddr w) = 4%nat; wo_si : length (w_siaddr w) = 4%nat;
  wo_tail : length (w_tail w) = 212%nat; wo_options : Forall option_ok (w_options w) }.
Definition wire_header (w : Wire) : list Z := w_op w :: w_hw w ++ to_be_bytes 4 (w_xid w) ++ w_mid w ++ w_yiaddr w ++ w_siaddr w ++ w_tail w.
Definition wire_bytes (w : Wire) : list Z := wire_header w ++ DHCP_MAGIC_COOKIE ++ concat (map option_bytes (w_options w)) ++ OPT_END :: w_rest w.
Definition wire_message (w : Wire) : DhcpMessage := {| dm_op := w_op w; dm_xid := w_xid w; dm_yiaddr := w_yiaddr w; dm_siaddr := w_siaddr w; dm_options := w_options w |}.

Lemma be4_length x : length (to_be_bytes 4 x) = 4%nat.
Proof. reflexivity. Qed.

(** A field behind a prefix of known length. *)
Lemma field_at (bytes pre l post : list Z) i n : bytes = pre ++ l ++ post -> length pre = i -> length l = n -> get_arr bytes i n = Some l.
Proof. intros -> <- <-. apply get_arr_mid. Qed.

Lemma wire_header_length w : wire_ok w -> length (wire_header w) = 236%nat.
Proof. intros [H1 H2 H3 H4 H5 H6 H7]. unfold wire_header. cbn [length]. rewrite !length_app, be4_length. lia. Qed.

Lemma decode_wire w : wire_ok w -> decode_dhcp_message (wire_bytes w) = Some (wire_message w).
Proof.
  intros Hw. pose proof (wire_header_length w Hw) as Hh. destruct Hw as [H1 H2 H3 H4 H5 H6 H7]. unfold decode_dhcp_message. set (opts := concat (map option_bytes (w_options w)) ++ OPT_END :: w_rest w).
  assert (wire_bytes w = (w_op w :: w_hw w) ++ to_be_bytes 4 (w_xid w) ++ w_mid w ++ w_yiaddr w ++ w_siaddr w ++ w_tail w ++ DHCP_MAGIC_COOKIE ++ opts) as Eb by (unfold wire_bytes, wire_header; cbn [app]; by rewrite <- !app_assoc).
  assert (length (wire_bytes w) = (240 + length opts)%nat) as Hl by (unfold wire_bytes; rewrite !length_app, Hh; fold opts; unfold opts; rewrite length_app; change (length DHCP_MAGIC_COOKIE) with 4%nat; lia).
  destruct (Nat.ltb_spec (length (wire_bytes w)) DHCP_MIN_LEN); [unfold DHCP_MIN_LEN, DHCP_FIXED_HDR_LEN in *; lia|].
  assert (wire_bytes w !! 0%nat = Some (w_op w)) as -> by (by rewrite Eb).
  assert (get_be (wire_bytes w) 4 4 = Some (w_xid w)) as ->.
  { unfold get_be. rewrite (field_at _ (w_op w :: w_hw w) (to_be_bytes 4 (w_xid w)) _ 4 4 Eb) by (done || cbn; lia). cbn [fmap option_fmap option_map]. by rewrite from_to_be_bytes, Z.mod_small. }
  rewrite (field_at _ ((w_op w :: w_hw w) ++ to_be_bytes 4 (w_xid w) ++ w_mid w) (w_yiaddr w) (w_siaddr w ++ w_tail w ++ DHCP_MAGIC_COOKIE ++ opts) 16 4) by (first [rewrite Eb; by rewrite <- !app_assoc|done|rewrite !length_app, be4_length; cbn [length]; lia]).
  rewrite (field_at _ ((w_op w :: w_hw w) ++ to_be_bytes 4 (w_xid w) ++ w_mid w ++ w_yiaddr w) (w_siaddr w) (w_tail w ++ DHCP_MAGIC_COOKIE ++ opts) 20 4) by (first [rewrite Eb; by rewrite <- !app_assoc|done|rewrite !length_app, be4_length; cbn [length]; lia]).
  assert (sub_bytes (wire_bytes w) 236 4 = Some DHCP_MAGIC_COOKIE) as -> by (rewrite <- Hh; apply (sub_bytes_mid (wire_header w) DHCP_MAGIC_COOKIE)).
  cbn [mbind option_bind]. rewrite bool_decide_true by done. cbn [negb].
  assert (drop 240 (wire_bytes w) = opts) as ->. { unfold wire_bytes. rewrite app_assoc. apply drop_app_length'. rewrite length_app, Hh. reflexivity. }
  unfold opts. by rewrite parse_options_ok.
Qed.

(** What the client sends is such a message. *)
Definition client_wire (xid : Z) (mac : list Z) (options : list DhcpOption) : Wire :=
  {| w_op := OP_BOOTREQUEST; w_hw := [1; 6; 0]; w_xid := xid; w_mid := replicate 8 0; w_yiaddr := replicate 4 0; w_siaddr := replicate 4 0; w_tail := replicate 4 0 ++ mac ++ replicate 202 0; w_options := options; w_rest := [] |}.
Lemma encode_is_wire xid mac options : encode_dhcp_message xid mac options = wire_bytes (client_wire xid mac options).
Proof.
  unfold encode_dhcp_message, wire_bytes. f_equal.
Qed.
Lemma client_wire_ok xid mac options : is_u32 xid -> length mac = 6%nat -> Forall option_ok options -> wire_ok (client_wire xid mac options).
Proof. intros H1 H2 H3. split; try done. cbn [client_wire w_tail]. rewrite !length_app, !length_replicate. lia. Qed.
Lemma decode_encode xid mac options : is_u32 xid -> length mac = 6%nat -> Forall option_ok options ->
  decode_dhcp_message (encode_dhcp_message xid mac options) = Some {| dm_op := OP_BOOTREQUEST; dm_xid := xid; dm_yiaddr := replicate 4 0; dm_siaddr := replicate 4 0; dm_options := options |}.
Proof. intros. rewrite encode_is_wire, decode_wire by (by apply client_wire_ok). reflexivity. Qed.

(** ** Histories *)

Inductive dhcp_op := OpDiscover | OpRequest (server offered : list Z) | OpMessage (data : list Z) (now : Z).
Definition dhcp_step (op : dhcp_op) (c : DhcpClient) : DhcpClient :=
  match op with
  | OpDiscover => snd (build_discover c)
  | OpRequest s o => snd (build_request s o c)
  | OpMessage data now => snd (handle_message data now c)
  end.
Definition dhcp_run (ops : list dhcp_op) (c : DhcpClient) : DhcpClient := fold_left (fun c op => dhcp_step op c) ops c.

(** The lease an acknowledgement among [ops] grants. *)
Definition granted (ops : list dhcp_op) (xid : Z) (l : DhcpLease) : Prop :=
  exists data now m, In (OpMessage data now) ops /\ decode_dhcp_message data = Some m /\ dm_op m = OP_BOOTREPLY /\ dm_xid m = xid /\ dhcp_type_of m = Some Ack /\ l = lease_of m now.

Record client_inv (ops : list dhcp_op) (mac : list Z) (xid : Z) (c : DhcpClient) : Prop := {
  ci_mac : dhcp_mac c = mac; ci_xid : dhcp_xid c = xid;
  ci_states : dhcp_state c <> Renewing /\ dhcp_state c <> Rebinding;
  ci_init : dhcp_state c = Init -> lease c = None;
  ci_bound : dhcp_state c = Bound -> lease c <> None;
  ci_lease : forall l, lease c = Some l -> granted ops xid l }.

Lemma granted_app ops op xid l : granted ops xid l -> granted (ops ++ [op]) xid l.
Proof. intros (d & n & m & Hi & H). exists d, n, m. split; [|done]. apply in_app_iff. by left. Qed.

Lemma dhcp_step_inv ops op mac xid c : client_inv ops mac xid c -> client_inv (ops ++ [op]) mac xid (dhcp_step op c).
Proof.
  intros [H1 H2 [H3 H3'] H4 H5 H6]. assert (forall l, lease c = Some l -> granted (ops ++ [op]) xid l) as H6' by (intros l Hl; by apply granted_app, H6).
  destruct op as [|s o|data now]; cbn [dhcp_step build_discover build_request snd]; [by split|by split|]. unfold handle_message.
  destruct (decode_dhcp_message data) as [m|] eqn:Ed; [|by split]. destruct (Z.eqb_spec (dm_op m) OP_BOOTREPLY) as [Hop|]; [|by split]. destruct (Z.eqb_spec (dm_xid m) (dhcp_xid c)) as [Hx|]; [|by split]. cbn [negb orb].
  destruct (dhcp_type_of m) as [t|] eqn:Et; [|by split].
  assert (client_inv (ops ++ [OpMessage data now]) mac xid (set_dhcp Bound (Some (lease_of m now)) c) \/ t <> Ack) as Hack.
  { destruct t; try (right; done). left. split; try done. cbn [set_dhcp lease]. intros l Hl. injection Hl as <-. exists data, now, m. rewrite in_app_iff. split; [right; by left|]. rewrite <- H2. done. }
  assert (client_inv (ops ++ [OpMessage data now]) mac xid (set_dhcp Init None c)) as Hnak by (by split).
  destruct (dhcp_state c) eqn:Es; destruct t; first [exact Hnak | (destruct Hack as [Hack|Hack]; [exact Hack|done]) | (split; cbn; rewrite ?Es; done) | by split].
Qed.

Lemma dhcp_run_inv ops mac xid : client_inv ops mac xid (dhcp_run ops (client_new mac xid)).
Proof.
  induction ops as [|op ops IH] using rev_ind; [by split|]. unfold dhcp_run. rewrite fold_left_app. cbn [fold_left]. by apply dhcp_step_inv.
Qed.

Lemma get_arr_length bytes i n l : get_arr bytes i n = Some l -> length l = n.
Proof. unfold get_arr. intros H. apply length_mapM in H. by rewrite <- H, length_seq. Qed.

Lemma server_of_length w : wire_ok w -> length (server_of (wire_message w)) = 4%nat.
Proof.
  intros Hw. unfold server_of. destruct (find_option SERVER_ID (dm_options (wire_message w))) as [o|]; [|exact (wo_si w Hw)]. cbn [mbind option_bind]. unfold ipv4_from_option_data. destruct (length (do_data o) <? 4)%nat; [exact (wo_si w Hw)|].
  destruct (get_arr (do_data o) 0 4) as [l|] eqn:E; [by apply get_arr_length in E|exact (wo_si w Hw)].
Qed.

(** A reply of the server of this client, of the given type. *)
Definition server_reply (c : DhcpClient) (t : DhcpMessageType) (w : Wire) : Prop :=
  wire_ok w /\ w_op w = OP_BOOTREPLY /\ w_xid w = dhcp_xid c /\ dhcp_type_of (wire_message w) = Some t.

Lemma handle_reply c t w now : server_reply c t w -> handle_message (wire_bytes w) now c =
  match dhcp_state c, t with
  | Selecting, Offer => let '(pkt, c) := build_request (server_of (wire_message w)) (w_yiaddr w) c in (SendRequest pkt, c)
  | Requesting, Ack | Renewing, Ack | Rebinding, Ack => let l := lease_of (wire_message w) now in (NowBound l, set_dhcp Bound (Some l) c)
  | _, Nak => (Rejected, set_dhcp Init None c)
  | _, _ => (IgnoredMessage, c)
  end.
Proof. intros (Hw & Ho & Hx & Ht). unfold handle_message. rewrite decode_wire by done. cbn [wire_message dm_op dm_xid]. rewrite Ho, Hx, !Z.eqb_refl. cbn [negb orb]. fold (wire_message w). by rewrite Ht. Qed.

(** C32: DHCP messages survive the wire, a negotiation ends with the lease the
    server granted, and a lease never comes from anywhere else.  What the client
    encodes decodes to the same transaction and options, and so does a server's
    message whatever it puts into the fields the client does not read and behind
    the options.  A client that waits for offers answers one of its transaction
    with a request that names that server and that address; the
    acknowledgement that follows binds the client to a lease with the address,
    mask, gateway, name servers, server and duration of that message, which is
    due for renewal from half of its duration on and expired from its end on.
    Over every sequence of discoveries, requests and arbitrary messages received
    a client keeps its transaction and hardware address, holds a lease when it
    is bound and none when it is reset, and each lease it holds is the one a
    received reply of its own transaction acknowledged. *)
Theorem dhcp_client_exact :
  (forall xid mac options, is_u32 xid -> length mac = 6%nat -> Forall option_ok options ->
     decode_dhcp_message (encode_dhcp_message xid mac options) = Some {| dm_op := OP_BOOTREQUEST; dm_xid := xid; dm_yiaddr := replicate 4 0; dm_siaddr := replicate 4 0; dm_options := options |})
  /\ (forall w, wire_ok w -> decode_dhcp_message (wire_bytes w) = Some (wire_message w))
  /\ (forall c offer ack t1 t2, dhcp_state c = Selecting -> is_u32 (dhcp_xid c) -> length (dhcp_mac c) = 6%nat -> server_reply c Offer offer -> server_reply c Ack ack -> 0 <= t2 ->
     exists pkt c1 c2, handle_message (wire_bytes offer) t1 c = (SendRequest pkt, c1)
     /\ dm_options <$> decode_dhcp_message pkt = Some [{| do_code := MESSAGE_TYPE; do_data := [3] |}; {| do_code := SERVER_ID; do_data := server_of (wire_message offer) |}; {| do_code := REQUESTED_IP; do_data := w_yiaddr offer |}]
     /\ handle_message (wire_bytes ack) t2 c1 = (NowBound (lease_of (wire_message ack) t2), c2)
     /\ dhcp_state c2 = Bound /\ lease c2 = Some (lease_of (wire_message ack) t2)
     /\ forall d, 0 <= d -> let secs := lease_time_secs (lease_of (wire_message ack) t2) in
        should_renew (t2 + d) c2 = (500 * secs <=? d) /\ is_lease_expired (t2 + d) c2 = (1000 * secs <=? d))
  /\ (forall ops mac xid, client_inv ops mac xid (dhcp_run ops (client_new mac xid))).
Proof.
  split; [exact decode_encode|]. split; [exact decode_wire|]. split; [|exact dhcp_run_inv].
  intros c offer ack t1 t2 Hs Hx Hm Hoff Hack Ht. rewrite (handle_reply c Offer offer t1 Hoff), Hs. cbn [build_request]. do 3 eexists. split; [reflexivity|]. split; [|split].
  - rewrite decode_encode; [done|done|done|]. pose proof (server_of_length offer (proj1 Hoff)) as Hso. pose proof (wo_yi _ (proj1 Hoff)) as Hyi. repeat apply Forall_cons_2; try apply Forall_nil_2; (split; [done|split; [done|]]); cbn [do_data length]; lia.
  - rewrite (handle_reply _ Ack ack t2) by exact Hack. reflexivity.
  - split; [done|]. split; [done|]. intros d Hd. set (secs := lease_time_secs (lease_of (wire_message ack) t2)). unfold should_renew, is_lease_expired. cbn [set_dhcp lease]. change (obtained_at (lease_of (wire_message ack) t2)) with t2. fold secs.
    assert (saturating_sub (t2 + d) t2 = d) as -> by (unfold saturating_sub; lia). split; f_equal; lia.
Qed.

(** An offer of 10.0.0.7 and its acknowledgement for an hour. *)
Definition sample_reply (t : DhcpMessageType) (extra : list DhcpOption) : Wire :=
  {| w_op := 2; w_hw := [1; 6; 0]; w_xid := 42; w_mid := replicate 8 0; w_yiaddr := [10; 0; 0; 7]; w_siaddr := [10; 0; 0; 1]; w_tail := replicate 212 0;
     w_options := {| do_code := MESSAGE_TYPE; do_data := [message_type_u8 t] |} :: extra; w_rest := [0; 0] |}.
Definition sample_client : DhcpClient := snd (build_discover (client_new [2; 0; 0; 0; 0; 1] 42)).
Lemma dhcp_client_exact_witness : exists pkt c1 c2,
  handle_message (wire_bytes (sample_reply Offer [])) 0 sample_client = (SendRequest pkt, c1)
  /\ handle_message (wire_bytes (sample_reply Ack [{| do_code := LEASE_TIME; do_data := [0; 0; 14; 16] |}])) 5 c1 = (NowBound (lease_of (wire_message (sample_reply Ack [{| do_code := LEASE_TIME; do_data := [0; 0; 14; 16] |}])) 5), c2)
  /\ is_lease_expired 3600004 c2 = false /\ is_lease_expired 3600005 c2 = true.
Proof.
  assert (server_reply sample_client Offer (sample_reply Offer [])) as H1 by (split; [split; try reflexivity; [split; cbn; lia|repeat constructor; cbn; (done || lia)]|split; [reflexivity|split; reflexivity]]).
  assert (server_reply sample_client Ack (sample_reply Ack [{| do_code := LEASE_TIME; do_data := [0; 0; 14; 16] |}])) as H2 by (split; [split; try reflexivity; [split; cbn; lia|repeat constructor; cbn; (done || lia)]|split; [reflexivity|split; reflexivity]]).
  destruct (proj1 (proj2 (proj2 dhcp_client_exact)) sample_client (sample_reply Offer []) (sample_reply Ack [{| do_code := LEASE_TIME; do_data := [0; 0; 14; 16] |}]) 0 5 eq_refl ltac:(split; cbn; lia) eq_refl H1 H2 ltac:(lia)) as (pkt & c1 & c2 & E1 & _ & E2 & _ & _ & E3).
  exists pkt, c1, c2. split; [exact E1|]. split; [exact E2|]. split; [exact (proj2 (E3 3599999 ltac:(lia)))|exact (proj2 (E3 3600000 ltac:(lia)))].
Defined.

(** A client that starts over keeps the lease it had, in a state that should have none. *)
Example discover_keeps_lease c l : lease c = Some l -> let c' := snd (build_discover c) in dhcp_state c' = Selecting /\ lease c' = Some l.
Proof. done. Qed.
