(* ===== verification/NetSvc.v ===== *)
(** * The network service (omni-net service.rs, socket_api.rs)

    The service owns the address, route, ICMP, UDP, TCP and name tables and
    passes each frame, request and timer tick to the one concerned. *)

From Stdlib Require Import ZArith Lia.
From stdpp Require Import base numbers list gmap.
From S2P Require Import Prelude Str Net Tcp Arp Datagram Dns.

(** ** Data *)

Definition ETHERTYPE_ARP : Z := 0x0806.
Definition ETHERTYPE_IPV4 : Z := 0x0800.
Definition PROTO_ICMP : Z := 1.
Definition PROTO_TCP : Z := 6.
Definition PROTO_UDP : Z := 17.

Record InterfaceConfig := { if_name : str; if_ip : list Z; if_netmask : Cidr; if_mac : list Z; if_mtu : Z }.

Inductive SocketDomain := Inet | Inet6.
Inductive SocketType := Stream | Dgram | Raw.
Inductive ShutdownHow := ShutRead | ShutWrite | ShutBoth.
Inductive SocketOption := ReuseAddr (b : bool) | KeepAlive (b : bool) | NoDelay (b : bool) | RecvTimeout (ms : Z) | SendTimeout (ms : Z) | Broadcast (b : bool).
Record SocketInfo := { si_protocol : SocketType; si_local : SocketApiAddr; si_remote : SocketApiAddr; si_state : str }.
Inductive SocketRequest :=
| RqSocket (domain : SocketDomain) (ty : SocketType) | RqBind (handle : Z) (addr : SocketApiAddr) | RqListen (handle backlog : Z) | RqAccept (handle : Z)
| RqConnect (handle : Z) (addr : SocketApiAddr) | RqSend (handle : Z) (data : list Z) (flags : Z) | RqRecv (handle max_len flags : Z)
| RqSendTo (handle : Z) (data : list Z) (addr : SocketApiAddr) | RqRecvFrom (handle max_len : Z) | RqClose (handle : Z) | RqGetSockName (handle : Z)
| RqGetPeerName (handle : Z) | RqSetSockOpt (handle : Z) (o : SocketOption) | RqShutdown (handle : Z) (how : ShutdownHow) | RqResolve (hostname : str) | RqListSockets.
Inductive SocketResponse :=
| RsOk (n : Z) | RsHandle (h : Z) | RsData (bytes : list Z) | RsAddr (a : SocketApiAddr) | RsDataFrom (bytes : list Z) (a : SocketApiAddr)
| RsAddresses (l : list SocketApiAddr) | RsError (e : NetError) | RsSocketList (l : list SocketInfo).

Inductive ServiceOutput := SendFrame (interface : nat) (data : list Z) | SocketResponseOut (r : SocketResponse).

Record NetworkService := {
  interfaces : list InterfaceConfig; sv_arp : ArpTable; routing : RoutingTable; sv_icmp : IcmpHandler; sv_udp : UdpSocketTable; sv_tcp : TcpSocketTable; sv_dns : DnsResolver; next_handle : Z }.

Definition net_service_new : NetworkService :=
  {| interfaces := []; sv_arp := arp_new ARP_MAX_ENTRIES; routing := []; sv_icmp := ∅; sv_udp := udp_new; sv_tcp := table_new; sv_dns := resolver_new []; next_handle := 1 |}.

Definition set_arp (a : ArpTable) (s : NetworkService) : NetworkService :=
  {| interfaces := interfaces s; sv_arp := a; routing := routing s; sv_icmp := sv_icmp s; sv_udp := sv_udp s; sv_tcp := sv_tcp s; sv_dns := sv_dns s; next_handle := next_handle s |}.
Definition set_icmp (i : IcmpHandler) (s : NetworkService) : NetworkService :=
  {| interfaces := interfaces s; sv_arp := sv_arp s; routing := routing s; sv_icmp := i; sv_udp := sv_udp s; sv_tcp := sv_tcp s; sv_dns := sv_dns s; next_handle := next_handle s |}.
Definition set_udp (u : UdpSocketTable) (s : NetworkService) : NetworkService :=
  {| interfaces := interfaces s; sv_arp := sv_arp s; routing := routing s; sv_icmp := sv_icmp s; sv_udp := u; sv_tcp := sv_tcp s; sv_dns := sv_dns s; next_handle := next_handle s |}.
Definition set_tcp (t : TcpSocketTable) (s : NetworkService) : NetworkService :=
  {| interfaces := interfaces s; sv_arp := sv_arp s; routing := routing s; sv_icmp := sv_icmp s; sv_udp := sv_udp s; sv_tcp := t; sv_dns := sv_dns s; next_handle := next_handle s |}.
Definition set_next_handle (n : Z) (s : NetworkService) : NetworkService :=
  {| interfaces := interfaces s; sv_arp := sv_arp s; routing := routing s; sv_icmp := sv_icmp s; sv_udp := sv_udp s; sv_tcp := sv_tcp s; sv_dns := sv_dns s; next_handle := n |}.

Definition add_interface (c : InterfaceConfig) (s : NetworkService) : NetworkService :=
  {| interfaces := interfaces s ++ [c]; sv_arp := sv_arp s; routing := add_route {| destination := if_netmask c; gateway := None; interface := if_name c; metric := 0 |} (routing s);
     sv_icmp := sv_icmp s; sv_udp := sv_udp s; sv_tcp := sv_tcp s; sv_dns := sv_dns s; next_handle := next_handle s |}.

(** ** Frames *)

Definition frame_bytes (dst src : list Z) (ty : Z) (payload : list Z) : list Z := in_zeroed 14 (eth_serialize {| eth_dst := dst; eth_src := src; ether_type := ty |}) ++ payload.

(** A frame for [dst_ip], or the packet is left waiting in the address table. *)
Definition wrap_in_ethernet (dst_ip our_mac ip_payload : list Z) (s : NetworkService) : option (list Z) * NetworkService :=
  match arp_resolve dst_ip (Some {| pp_data := ip_payload; pp_next_hop := dst_ip |}) (sv_arp s) with
  | (Resolved mac, a) => (Some (frame_bytes mac our_mac ETHERTYPE_IPV4 ip_payload), set_arp a s)
  | (Pending, a) => (None, set_arp a s)
  end.
Definition push_frame (i : nat) (f : option (list Z)) : list ServiceOutput := match f with Some data => [SendFrame i data] | None => [] end.

(** The packets that waited for an address, sent again. *)
Fixpoint send_pending (i : nat) (our_mac : list Z) (pending : list PendingPacket) (s : NetworkService) : list ServiceOutput * NetworkService :=
  match pending with
  | [] => ([], s)
  | p :: pending =>
      let '(f, s) := wrap_in_ethernet (pp_next_hop p) our_mac (pp_data p) s in
      let '(out, s) := send_pending i our_mac pending s in (push_frame i f ++ out, s)
  end.

Definition handle_arp_packet (i : nat) (pkt : ArpPacket) (our_mac our_ip : list Z) (s : NetworkService) : list ServiceOutput * NetworkService :=
  let '(r, a) := arp_handle pkt our_mac our_ip (sv_arp s) in
  match r with
  | SendReply rep =>
      let frame := frame_bytes (sender_mac pkt) our_mac ETHERTYPE_ARP (in_zeroed 28 (arp_serialize rep)) in
      let '(pending, a) := drain_pending (sender_ip pkt) a in
      let '(out, s) := send_pending i our_mac pending (set_arp a s) in (SendFrame i frame :: out, s)
  | UpdatedTable =>
      let '(pending, a) := drain_pending (sender_ip pkt) a in send_pending i our_mac pending (set_arp a s)
  | ArpIgnored => ([], set_arp a s)
  end.

Fixpoint emit_tcp_outputs (tcp_outs : list TcpOutput) (i : nat) (our_mac : list Z) (s : NetworkService) : list ServiceOutput * NetworkService :=
  match tcp_outs with
  | [] => ([], s)
  | SendSegment data dst_ip :: tcp_outs =>
      let '(f, s) := wrap_in_ethernet dst_ip our_mac data s in
      let '(out, s) := emit_tcp_outputs tcp_outs i our_mac s in (push_frame i f ++ out, s)
  | _ :: tcp_outs => emit_tcp_outputs tcp_outs i our_mac s
  end.

Definition mac_of (i : nat) (s : NetworkService) : list Z := match interfaces s !! i with Some c => if_mac c | None => ZERO_MAC end.
Definition ip_of (i : nat) (s : NetworkService) : list Z := match interfaces s !! i with Some c => if_ip c | None => replicate 4 0 end.

Definition handle_ip (i : nat) (our_mac our_ip : list Z) (ip_hdr : Ipv4Header) (ip_payload : list Z) (now : Z) (s : NetworkService) : run (list ServiceOutput * NetworkService) :=
  if protocol ip_hdr =? PROTO_ICMP then
    match icmp_parse ip_payload with
    | None => Done ([], s)
    | Some (h, payload) =>
        '(r, m) ← handle_icmp h payload (ip_src ip_hdr) now (sv_icmp s);
        let s := set_icmp m s in
        match r with
        | IcmpReplyTo data _ =>
            pkt ← build_ipv4_packet our_ip (ip_src ip_hdr) PROTO_ICMP 64 0 data;
            let '(f, s) := wrap_in_ethernet (ip_src ip_hdr) our_mac pkt s in Done (push_frame i f, s)
        | _ => Done ([], s)
        end
    end
  else if protocol ip_hdr =? PROTO_UDP then
    match udp_parse ip_payload with
    | None => Done ([], s)
    | Some (h, payload) => Done ([], set_udp (udp_handle_packet h payload (ip_src ip_hdr) (sv_udp s)) s)
    end
  else if protocol ip_hdr =? PROTO_TCP then
    match tcp_parse ip_payload with
    | None => Done ([], s)
    | Some (h, payload) =>
        '(outs, t) ← handle_segment h payload (ip_src ip_hdr) (ip_dst ip_hdr) now (sv_tcp s);
        Done (emit_tcp_outputs outs i our_mac (set_tcp t s))
    end
  else Done ([], s).

Definition handle_frame (i : nat) (frame : list Z) (now : Z) (s : NetworkService) : run (list ServiceOutput * NetworkService) :=
  match eth_parse frame with
  | None => Done ([], s)
  | Some (eth, payload) =>
      let our_mac := mac_of i s in let our_ip := ip_of i s in
      if ether_type eth =? ETHERTYPE_ARP then Done (match arp_parse payload with Some p => handle_arp_packet i p our_mac our_ip s | None => ([], s) end)
      else if ether_type eth =? ETHERTYPE_IPV4 then
        parsed ← parse_ipv4_packet payload;
        match parsed with None => Done ([], s) | Some (ip_hdr, ip_payload) => handle_ip i our_mac our_ip ip_hdr ip_payload now s end
      else Done ([], s)
  end.

(** ** Socket requests *)

(** [u16::try_from(handle.0).unwrap_or(0)] *)
Definition port_of (handle : Z) : Z := if handle <? 2 ^ 16 then handle else 0.
Definition loopback (handle : Z) : SocketApiAddr := {| sa_ip := [127; 0; 0; 1]; sa_port := port_of handle |}.
Definition no_peer : SocketApiAddr := {| sa_ip := [0; 0; 0; 0]; sa_port := 0 |}.

Definition new_handle (s : NetworkService) : run (SocketResponse * NetworkService) := n ← add64 (next_handle s) 1; Done (RsHandle (next_handle s), set_next_handle n s).
Definition answer {A} (f : A -> SocketResponse) (r : result NetError A) : SocketResponse := match r with Ok x => f x | Err e => RsError e end.

Section Requests.
Context (to_lowercase : str -> str).

Definition handle_socket_request (request : SocketRequest) (s : NetworkService) : run (SocketResponse * NetworkService) :=
  match request with
  | RqSocket _ _ => new_handle s
  | RqBind _ addr => let '(r, u) := udp_bind (sa_port addr) (sv_udp s) in Done (answer RsOk r, set_udp u s)
  | RqListen h b => let '(r, t) := tcp_listen (port_of h) b (sv_tcp s) in Done (answer (fun _ => RsOk 0) r, set_tcp t s)
  | RqAccept h => let '(r, t) := tcp_accept (port_of h) (sv_tcp s) in match r with Some _ => new_handle (set_tcp t s) | None => Done (RsError WouldBlock, set_tcp t s) end
  | RqConnect h addr => '(r, _, t) ← tcp_connect (loopback h) addr (sv_tcp s); Done (answer (fun _ => RsOk 0) r, set_tcp t s)
  | RqSend h data _ => let '(r, t) := tcp_send (loopback h, no_peer) data (sv_tcp s) in Done (answer RsOk r, set_tcp t s)
  | RqRecv h max _ => let '(r, t) := tcp_recv (loopback h, no_peer) (Z.to_nat max) (sv_tcp s) in Done (answer RsData r, set_tcp t s)
  | RqSendTo h data addr =>
      r ← udp_sendto (port_of h) addr (ip_of 0 s) (sa_ip addr) data (sv_udp s);
      Done (answer (fun pkt => RsOk (Z.of_nat (length pkt))) r, s)
  | RqRecvFrom h _ => let '(r, u) := udp_recvfrom (port_of h) (sv_udp s) in Done (match r with Some (src, data) => RsDataFrom data src | None => RsError WouldBlock end, set_udp u s)
  | RqClose h => Done (RsOk 0, set_udp (udp_close (port_of h) (sv_udp s)) s)
  | RqResolve hostname => Done (match resolve_cached to_lowercase hostname 0 (sv_dns s) with Some l => RsAddresses (map (fun a => {| sa_ip := a; sa_port := 0 |}) l) | None => RsError HostUnreachable end, s)
  | RqListSockets => Done (RsSocketList [], s)
  | RqGetSockName _ | RqGetPeerName _ | RqSetSockOpt _ _ | RqShutdown _ _ => Done (RsOk 0, s)
  end.

(** The entry point of socket_api.rs. *)
Definition dispatch (s : NetworkService) (request : SocketRequest) : run (SocketResponse * NetworkService) := handle_socket_request request s.

(** ** Timers *)

Definition svc_tick (now : Z) (s : NetworkService) : run (list ServiceOutput * NetworkService) :=
  let s := set_arp (expire_stale (now / 1000) ARP_TIMEOUT_SECS (sv_arp s)) s in
  '(outs, t) ← tcp_tick now (sv_tcp s);
  Done (emit_tcp_outputs outs 0 (mac_of 0 s) (set_tcp t s)).

(** ** Histories of the service *)

Inductive svc_op := SoInterface (c : InterfaceConfig) | SoFrame (i : nat) (frame : list Z) (now : Z) | SoRequest (r : SocketRequest) | SoTick (now : Z).
Definition svc_step (o : svc_op) (s : NetworkService) : run (list ServiceOutput * NetworkService) :=
  match o with
  | SoInterface c => Done ([], add_interface c s)
  | SoFrame i frame now => handle_frame i frame now s
  | SoRequest r => '(resp, s) ← dispatch s r; Done ([SocketResponseOut resp], s)
  | SoTick now => svc_tick now s
  end.
Fixpoint svc_run (ops : list svc_op) (s : NetworkService) : run (list (list ServiceOutput) * NetworkService) :=
  match ops with [] => Done ([], s) | o :: ops => '(out, s) ← svc_step o s; '(outs, s) ← svc_run ops s; Done (out :: outs, s) end.

(** Arguments in the range of their types; a frame or datagram is shorter than 130,000 bytes. *)
Definition request_ok (r : SocketRequest) : Prop :=
  match r with
  | RqBind h a => 0 <= h /\ addr_ok a
  | RqConnect h a => 0 <= h /\ addr_ok a
  | RqSendTo h data a => 0 <= h /\ addr_ok a /\ Forall is_u8 data /\ Z.of_nat (length data) < 130000
  | RqListen h _ | RqAccept h | RqSend h _ _ | RqRecv h _ _ | RqRecvFrom h _ | RqClose h => 0 <= h
  | _ => True
  end.
Definition svc_op_ok (o : svc_op) : Prop :=
  match o with
  | SoInterface c => is_arr 6 (if_mac c) /\ is_arr 4 (if_ip c)
  | SoFrame _ frame _ => Forall is_u8 frame /\ Z.of_nat (length frame) < 130000
  | SoRequest r => request_ok r
  | SoTick _ => True
  end.
End Requests.

(** ** Where TCP sends its segments *)

Definition out_ok (o : TcpOutput) : Prop := match o with SendSegment _ ip => is_arr 4 ip | _ => True end.
Definition peer_ok (b : TcpControlBlock) : Prop := is_arr 4 (sa_ip (remote b)).

Lemma emit_out b seq ack flags win payload o : peer_ok b -> emit b seq ack flags win payload = Done o -> out_ok o.
Proof. intros Hb H. unfold emit in H. run_inv. exact Hb. Qed.

(** Splits a computation into its branches; every segment goes to the peer of the block at hand. *)
Ltac out_cases :=
  repeat match goal with
    | H : mbind _ ?c = Done _ |- _ => let E := fresh "E" in destruct c eqn:E; cbn [mbind run_bind] in H; [|discriminate H]
    | H : Done _ = Done _ |- _ => injection H as H; subst
    | H : (_, _) = (_, _) |- _ => injection H as H; subst
    | H : (if ?c then _ else _) = Done _ |- _ => destruct c
    | H : match ?x with _ => _ end = Done _ |- _ => destruct x eqn:?
    end;
  repeat apply Forall_cons_2; try apply Forall_nil_2; try exact I;
  try (match goal with E : emit ?b _ _ _ _ _ = Done ?o |- out_ok ?o => eapply emit_out; [|exact E]; assumption
                     | E : emit_ack ?b = Done ?o |- out_ok ?o => unfold emit_ack in E; eapply emit_out; [|exact E]; assumption end).

Lemma process_ack_out h b out b' : peer_ok b -> process_ack h b = Done (out, b') -> Forall out_ok out.
Proof. intros Hb H. unfold process_ack in H. cbv zeta in H. out_cases. Qed.
Lemma established_data_out k h payload b out b' : peer_ok b -> established_data k h payload b = Done (out, b') -> Forall out_ok out.
Proof. intros Hb H. unfold established_data in H. cbv zeta in H. out_cases. Qed.
Lemma established_fin_out h b out b' : peer_ok b -> established_fin h b = Done (out, b') -> Forall out_ok out.
Proof. intros Hb H. unfold established_fin in H. cbv zeta in H. out_cases. Qed.

Lemma process_segment_out k h payload now b out v : tcb_ok b -> co_fields h -> process_segment k h payload now b = Done (out, v) -> Forall out_ok out.
Proof.
  intros Hb Hh H. assert (peer_ok b) as Hp by apply (tk_addr _ Hb). unfold process_segment in H. destruct (state b) eqn:Es; cbv zeta in H.
  5: {
    assert (exists o1 b1, established_ack h b = Done (o1, b1) /\ tcb_ok b1 /\ Forall out_ok o1) as (o1 & b1 & E1 & Hb1 & F1).
    { unfold established_ack. destruct (has (tcp_flags h) ACK); [|by exists [], b]. destruct (process_ack_ok h b Hb Hh) as (o1 & b1 & E & Hb1 & _). exists o1, b1. split; [done|]. split; [done|]. by eapply process_ack_out. }
    rewrite E1 in H. cbn [mbind run_bind] in H. destruct (established_data_ok k h payload b1 Hb1) as (o2 & b2 & E2 & Hb2 & _). rewrite E2 in H. cbn [mbind run_bind] in H.
    destruct (established_fin_ok h b2 Hb2) as (o3 & b3 & E3 & Hb3 & _). rewrite E3 in H. cbn [mbind run_bind] in H. injection H as <- _.
    apply Forall_app. split; [done|]. apply Forall_app. split; [eapply established_data_out; [|exact E2]; apply (tk_addr _ Hb1)|eapply established_fin_out; [|exact E3]; apply (tk_addr _ Hb2)]. }
  all: out_cases.
  unfold emit_ack in E. eapply emit_out; [|exact E]. unfold peer_ok. cbn [remote set_state set_rcv]. by destruct (has (tcp_flags h) ACK && _).
Qed.

Lemma handle_segment_out h payload src dst now t out t' : table_ok t -> co_fields h -> is_arr 4 src -> is_arr 4 dst -> handle_segment h payload src dst now t = Done (out, t') -> Forall out_ok out.
Proof.
  intros Ht Hh Hs Hd H. unfold handle_segment in H. cbv zeta in H. destruct (has (tcp_flags h) RST) eqn:Er.
  - injection H as H. destruct (conn_contains _ _); injection H as <- <-; repeat constructor.
  - destruct (conn_get t _) as [b|] eqn:Eb.
    + destruct (table_ok_key t _ b Ht (seg_key_ok h src dst Hh Hs Hd) Eb) as [Hb _]. run_inv. destruct a as [o v]. run_inv. by eapply process_segment_out.
    + assert (forall seq ack flags win o, reply dst src h seq ack flags win = Done o -> out_ok o) as Hr by (intros ? ? ? ? o E; unfold reply in E; run_inv; done).
      cbn [negb] in H. destruct (if _ && _ then _ else _) as [q|]; [destruct (_ <=? _); [|destruct (next_isn t) as [iss0 t1]]|]; run_inv; (apply Forall_cons_2; [|apply Forall_nil_2]).
      * by eapply Hr.
      * by eapply Hr.
      * destruct (has (tcp_flags h) ACK); by eapply Hr.
Qed.

Lemma retransmit_out k now expired : forall b out r, peer_ok b -> retransmit_loop k now expired b = Done (out, r) -> Forall out_ok out.
Proof.
  induction expired as [|e expired IH]; intros b out r Hb H; cbn [retransmit_loop] in H; [run_inv; apply Forall_nil_2|].
  destruct (List.find _ (retransmit_queue b)) as [q|]; [|by eapply IH]. destruct (_ <=? _).
  - run_inv. repeat apply Forall_cons_2; [by eapply emit_out|exact I|apply Forall_nil_2].
  - run_inv. destruct a0 as [o2 r2]. run_inv. apply Forall_cons_2; [by eapply emit_out|]. eapply IH; [|exact E0]. exact Hb.
Qed.

Lemma tick_keys_out keys now : forall t out t', table_ok t -> tick_keys keys now t = Done (out, t') -> Forall out_ok out.
Proof.
  induction keys as [|k keys IH]; intros t out t' Ht H; cbn [tick_keys] in H; [run_inv; apply Forall_nil_2|].
  assert (exists o t1, match connections t !! k with Some b => tick_connection (local b, remote b) now t | None => Done ([], t) end = Done (o, t1) /\ table_ok t1 /\ Forall out_ok o) as (o & t1 & E & Ht1 & Ho).
  { destruct (connections t !! k) as [b|] eqn:Eb; [|by exists [], t]. destruct (to_conn _ Ht _ _ Eb) as [Hb Ek]. destruct (tick_connection_ok (local b, remote b) now t Ht (tk_addr _ Hb)) as (o & t1 & E & Ht1 & _). exists o, t1. split; [done|]. split; [done|].
    unfold tick_connection in E. destruct (conn_get t (local b, remote b)) as [b'|] eqn:Eb'; [|injection E as <- <-; apply Forall_nil_2]. destruct (table_ok_key t _ b' Ht (tk_addr _ Hb) Eb') as [Hb' _].
    destruct (bool_decide _ && _); [injection E as <- <-; by repeat constructor|]. run_inv. destruct a as [o2 r2]. run_inv. eapply retransmit_out; [|exact E0]. apply (tk_addr _ Hb'). }
  rewrite E in H. cbn [mbind run_bind] in H. run_inv. destruct a as [o2 t2]. run_inv. apply Forall_app. split; [done|]. by eapply IH.
Qed.

(** ** The tables of a service *)

Definition svc_aop_ok (o : arp_op) : Prop := arp_op_ok o /\ match o with AoResolve ip (Some p) => pp_next_hop p = ip | _ => True end.
Definition connected (c : InterfaceConfig) : Route := {| destination := if_netmask c; gateway := None; interface := if_name c; metric := 0 |}.

(** Each table is what the calls of its own component make of an empty one. *)
Record svc_hist (ah : list arp_op) (th : list tcp_op) (uh : list udp_op) (s : NetworkService) : Prop := {
  sh_arp : sv_arp s = arp_run ah (arp_new ARP_MAX_ENTRIES); sh_aok : Forall svc_aop_ok ah;
  sh_tcp : exists outs, tcp_run th table_new = Done (outs, sv_tcp s); sh_tok : Forall op_ok th;
  sh_udp : exists es, udp_run uh udp_new = Done (es, sv_udp s);
  sh_if : Forall (fun c => is_arr 6 (if_mac c) /\ is_arr 4 (if_ip c)) (interfaces s);
  sh_route : routing s = map connected (interfaces s) }.
Definition composed (s : NetworkService) : Prop := exists ah th uh, svc_hist ah th uh s.

Lemma tcp_run_snoc th op t0 t outs o bytes t' : tcp_run th t0 = Done (outs, t) -> tcp_step op t = Done (o, bytes, t') -> tcp_run (th ++ [op]) t0 = Done (outs ++ [o], t').
Proof.
  revert t0 outs. induction th as [|op0 th IH]; intros t0 outs H E; cbn [tcp_run app] in *; [injection H as <- <-; by rewrite E|].
  destruct (tcp_step op0 t0) as [[[o0 b0] t1]|]; [|done]. cbn [mbind run_bind] in *. destruct (tcp_run th t1) as [[outs1 t2]|] eqn:E1; [|done]. cbn [mbind run_bind] in H. injection H as <- <-. by rewrite (IH t1 outs1 E1 E).
Qed.
Lemma udp_run_snoc uh op t0 t es e t' : udp_run uh t0 = Done (es, t) -> udp_step op t = Done (e, t') -> udp_run (uh ++ [op]) t0 = Done (es ++ [e], t').
Proof.
  revert t0 es. induction uh as [|op0 uh IH]; intros t0 es H E; cbn [udp_run app] in *; [injection H as <- <-; by rewrite E|].
  destruct (udp_step op0 t0) as [[e0 t1]|]; [|done]. cbn [mbind run_bind] in *. destruct (udp_run uh t1) as [[es1 t2]|] eqn:E1; [|done]. cbn [mbind run_bind] in H. injection H as <- <-. by rewrite (IH t1 es1 E1 E).
Qed.

Lemma composed_arp o s : composed s -> svc_aop_ok o -> composed (set_arp (snd (arp_step o (sv_arp s))) s).
Proof.
  intros (ah & th & uh & [H1 H2 H3 H4 H5 H6 H7]) Ho. exists (ah ++ [o]), th, uh. split; try done; [|by apply Forall_app; split; [|apply Forall_cons_2; [|apply Forall_nil_2]]].
  cbn [sv_arp set_arp]. unfold arp_run. rewrite fold_left_app. cbn [fold_left]. unfold arp_run in H1. by rewrite H1.
Qed.
Lemma composed_tcp op s out bytes t : composed s -> op_ok op -> tcp_step op (sv_tcp s) = Done (out, bytes, t) -> composed (set_tcp t s).
Proof.
  intros (ah & th & uh & [H1 H2 (outs & H3) H4 H5 H6 H7]) Ho E. exists ah, (th ++ [op]), uh. split; try done; [|by apply Forall_app; split; [|apply Forall_cons_2; [|apply Forall_nil_2]]]. eexists. by eapply tcp_run_snoc.
Qed.
Lemma composed_udp op s e u : composed s -> udp_step op (sv_udp s) = Done (e, u) -> composed (set_udp u s).
Proof. intros (ah & th & uh & [H1 H2 H3 H4 (es & H5) H6 H7]) E. exists ah, th, (uh ++ [op]). split; try done. eexists. by eapply udp_run_snoc. Qed.
Lemma composed_icmp m s : composed s -> composed (set_icmp m s).
Proof. intros (ah & th & uh & [H1 H2 H3 H4 H5 H6 H7]). exists ah, th, uh. by split. Qed.
Lemma composed_handle n s : composed s -> composed (set_next_handle n s).
Proof. intros (ah & th & uh & [H1 H2 H3 H4 H5 H6 H7]). exists ah, th, uh. by split. Qed.
Lemma composed_table s : composed s -> table_ok (sv_tcp s).
Proof. intros (ah & th & uh & [_ _ (outs & H3) H4 _ _ _]). destruct (tcp_run_ok th table_new table_new_ok H4) as (o & t & E & Ht). rewrite H3 in E. by injection E as _ <-. Qed.

(** The rest of the service, which a send leaves alone. *)
Definition same_but_arp (s s' : NetworkService) : Prop := s' = set_arp (sv_arp s') s.
Lemma wrap_composed ip mac payload s : composed s -> is_arr 4 ip -> composed (snd (wrap_in_ethernet ip mac payload s)) /\ same_but_arp s (snd (wrap_in_ethernet ip mac payload s)).
Proof.
  intros Hs Hip. pose proof (composed_arp (AoResolve ip (Some {| pp_data := payload; pp_next_hop := ip |})) s Hs (conj Hip eq_refl)) as H. cbn [arp_step] in H. unfold wrap_in_ethernet.
  destruct (arp_resolve ip _ (sv_arp s)) as [[m|] a]; split; first [exact H|reflexivity].
Qed.

Lemma same_but_arp_trans s1 s2 s3 : same_but_arp s1 s2 -> same_but_arp s2 s3 -> same_but_arp s1 s3.
Proof. unfold same_but_arp. intros -> ->. reflexivity. Qed.

Lemma emit_composed i mac outs : forall s, composed s -> Forall out_ok outs -> composed (snd (emit_tcp_outputs outs i mac s)) /\ same_but_arp s (snd (emit_tcp_outputs outs i mac s)).
Proof.
  induction outs as [|o outs IH]; intros s Hs Ho; cbn [emit_tcp_outputs]; [by split; [|destruct s]|]. inversion_clear Ho as [|? ? Ho1 Ho2]. destruct o as [data ip|k|k|k|k]; try (by apply IH).
  destruct (wrap_composed ip mac data s Hs Ho1) as [H1 H2]. destruct (wrap_in_ethernet ip mac data s) as [f s1]. cbn [snd] in *. destruct (IH s1 H1 Ho2) as [H3 H4]. destruct (emit_tcp_outputs outs i mac s1) as [out s2]. cbn [snd] in *. split; [done|]. by eapply same_but_arp_trans.
Qed.

Lemma pending_composed i mac ps : forall s, composed s -> Forall (fun p => is_arr 4 (pp_next_hop p)) ps -> composed (snd (send_pending i mac ps s)).
Proof.
  induction ps as [|p ps IH]; intros s Hs Hp; cbn [send_pending]; [done|]. inversion_clear Hp as [|? ? Hp1 Hp2]. destruct (wrap_composed (pp_next_hop p) mac (pp_data p) s Hs Hp1) as [H1 _]. destruct (wrap_in_ethernet _ mac _ s) as [f s1]. cbn [snd] in *.
  specialize (IH s1 H1 Hp2). by destruct (send_pending i mac ps s1) as [out s2].
Qed.

(** What waits for an address is to be sent to that address. *)
Lemma asked_hops ip ah : Forall svc_aop_ok ah -> Forall (fun p => pp_next_hop p = ip) (asked ip ah).
Proof.
  induction ah as [|o ah IH] using rev_ind; intros H; [apply Forall_nil_2|]. apply Forall_app in H as [H1 H2]. inversion_clear H2 as [|? ? [_ H3] _]. rewrite asked_snoc. specialize (IH H1).
  destruct o as [i [p|]|i m ts|i m ts|n t]; cbn [asked1]; try done; [|by destruct (str_eqb i ip)]. destruct (str_eqb i ip) eqn:E; [|done]. apply str_eqb_eq in E as ->. apply Forall_app. split; [done|]. by apply Forall_cons_2.
Qed.
Lemma waiting_hops s ip : composed s -> is_arr 4 ip -> Forall (fun p => pp_next_hop p = ip) (pending_of (arp_lookup ip (sv_arp s))).
Proof.
  intros (ah & th & uh & [H1 H2 _ _ _ _ _]) Hip. assert (arp_inv ah (sv_arp s)) as Hi. { rewrite H1. apply arp_run_inv. eapply Forall_impl; [exact H2|]. by intros o [Ho _]. }
  destruct (pending_fits ip ah (sv_arp s) Hi Hip) as [[k Hk] _]. pose proof (asked_hops ip ah H2) as Ha. unfold arp_lookup. rewrite Hk in Ha. by apply Forall_app in Ha as [_ Ha].
Qed.

Lemma set_arp_id s : set_arp (sv_arp s) s = s.
Proof. by destruct s. Qed.

Lemma send_resolved i our ip m ps s : Forall (fun p => pp_next_hop p = ip) ps -> (forall pkt, arp_resolve ip pkt (sv_arp s) = (Resolved m, sv_arp s)) ->
  send_pending i our ps s = (map (fun p => SendFrame i (frame_bytes m our ETHERTYPE_IPV4 (pp_data p))) ps, s).
Proof.
  intros Hp Hr. induction Hp as [|p ps Hp _ IH]; [done|]. cbn [send_pending]. unfold wrap_in_ethernet. rewrite Hp, Hr, set_arp_id, IH. done.
Qed.

(** A request that is not for us is only noted; every other accepted packet sends what waited for its sender. *)
Lemma handle_arp_spec i p our_mac our_ip s : composed s -> co_fields p -> exists out s', handle_arp_packet i p our_mac our_ip s = (out, s') /\ composed s' /\ same_but_arp s s'
  /\ (htype p = 1 -> ptype p = 0x0800 -> let waiting := map (fun q => SendFrame i (frame_bytes (sender_mac p) our_mac ETHERTYPE_IPV4 (pp_data q))) (pending_of (arp_lookup (sender_ip p) (sv_arp s))) in
      (operation p = ARP_REQUEST -> target_ip p = our_ip -> out = SendFrame i (frame_bytes (sender_mac p) our_mac ETHERTYPE_ARP (in_zeroed 28 (arp_serialize (arp_packet ARP_REPLY our_mac our_ip (sender_mac p) (sender_ip p))))) :: waiting)
      /\ (operation p = ARP_REPLY -> out = waiting)
      /\ (operation p = ARP_REPLY \/ operation p = ARP_REQUEST /\ target_ip p = our_ip -> forall pkt, arp_resolve (sender_ip p) pkt (sv_arp s') = (Resolved (sender_mac p), sv_arp s'))).
Proof.
  intros Hs (_ & _ & _ & _ & _ & Hm & Hip & _ & _). unfold handle_arp_packet, arp_handle.
  destruct (arp_learn (sender_ip p) (sender_mac p) 0 (sv_arp s)) as (a' & El & Hr). cbn [arp_step] in El.
  pose proof (composed_arp (AoLearn (sender_ip p) (sender_mac p) 0) s Hs (conj Hip I)) as Hl. cbn [arp_step] in Hl. rewrite El in Hl. cbn [snd] in Hl.
  pose proof (send_resolved i our_mac (sender_ip p) (sender_mac p) (pending_of (arp_lookup (sender_ip p) (sv_arp s))) (set_arp a' s) (waiting_hops s _ Hs Hip) Hr) as Hsend.
  destruct (Z.eqb_spec (htype p) 1) as [Eh|Eh]; [|cbn [negb orb]; eexists _, _; split; [done|]; rewrite set_arp_id; split; [done|]; split; [by destruct s|done]].
  destruct (Z.eqb_spec (ptype p) 0x0800) as [Et|Et]; [|cbn [negb orb]; eexists _, _; split; [done|]; rewrite set_arp_id; split; [done|]; split; [by destruct s|done]]. cbn [negb orb].
  destruct (Z.eqb_spec (operation p) ARP_REQUEST) as [Eo|Eo].
  - destruct (str_eqb (target_ip p) our_ip) eqn:Eip; cbn [negb].
    + rewrite El, Hsend. eexists _, _. split; [reflexivity|]. split; [done|]. split; [by destruct s|]. intros _ _. cbn zeta. split; [done|]. split; [rewrite Eo; done|]. intros _. exact Hr.
    + eexists _, _. split; [reflexivity|]. split; [exact (composed_arp (AoInsert (sender_ip p) (sender_mac p) 0) s Hs (conj Hip I))|]. split; [by destruct s|]. intros _ _. cbn zeta.
      assert (target_ip p <> our_ip) as Hne by (intros E; apply str_eqb_eq in E; congruence). split; [done|]. rewrite Eo. split; [done|]. by intros [|[_ ?]].
  - destruct (Z.eqb_spec (operation p) ARP_REPLY) as [Eo'|Eo'].
    + rewrite El, Hsend. eexists _, _. split; [reflexivity|]. split; [done|]. split; [by destruct s|]. intros _ _. cbn zeta. split; [done|]. split; [done|]. intros _. exact Hr.
    + eexists _, _. split; [reflexivity|]. rewrite set_arp_id. split; [done|]. split; [by destruct s|]. intros _ _. cbn zeta. split; [done|]. split; [done|]. by intros [|[? _]].
Qed.

(** ** Every frame is handled *)

(** What a parse leaves is a part of what it was given. *)
Lemma parsed_rest {H} `{CodecLaws H} bytes (h : H) rest : Forall is_u8 bytes -> co_parse bytes = Some (h, rest) -> co_fields h /\ Forall is_u8 rest /\ (length rest <= length bytes)%nat.
Proof. intros Hu E. destruct (co_exact bytes h rest Hu E) as (Hf & _ & off & _ & -> & _). split; [done|]. split; [by apply Forall_drop|]. rewrite length_drop. lia. Qed.

Lemma parse_ipv4_total data : Forall is_u8 data -> exists r, parse_ipv4_packet data = Done r /\ forall h rest, r = Some (h, rest) -> co_fields h /\ Forall is_u8 rest /\ (length rest <= length data)%nat.
Proof.
  intros Hu. unfold parse_ipv4_packet. destruct (ipv4_parse data) as [[h rest]|] eqn:E; [|by exists None]. pose proof (@parsed_rest Ipv4Header ipv4_codec ipv4_laws data h rest Hu E) as (Hf & Hr & Hl).
  unfold ipv4_verify_checksum. destruct (ipv4_checksum_ok h Hf) as (ck & -> & _). cbn [mbind run_bind]. eexists. split; [done|]. intros h' rest'. destruct (ck =? header_checksum h); [|done]. intros E'. injection E' as <- <-. done.
Qed.

Lemma ip_of_arr i s : composed s -> is_arr 4 (ip_of i s).
Proof.
  intros (ah & th & uh & [_ _ _ _ _ H6 _]). unfold ip_of. destruct (interfaces s !! i) as [c|] eqn:E; [|split; [done|by apply Forall_replicate]]. apply (Forall_lookup_1 _ _ _ _ H6 E).
Qed.
Lemma mac_of_arr i s : composed s -> is_arr 6 (mac_of i s).
Proof.
  intros (ah & th & uh & [_ _ _ _ _ H6 _]). unfold mac_of. destruct (interfaces s !! i) as [c|] eqn:E; [|split; [done|by apply Forall_replicate]]. apply (Forall_lookup_1 _ _ _ _ H6 E).
Qed.

(** The service afterwards: composed, with the same interfaces and handles. *)
Definition keeps (s s' : NetworkService) : Prop := composed s' /\ interfaces s' = interfaces s /\ next_handle s' = next_handle s.
Lemma keeps_arp s0 s s' : interfaces s = interfaces s0 -> next_handle s = next_handle s0 -> composed s' /\ same_but_arp s s' -> keeps s0 s'.
Proof. intros E1 E2 [Hc Hb]. split; [done|]. unfold same_but_arp in Hb. rewrite Hb. by split. Qed.

Lemma handle_ip_ok i our_mac our_ip h payload now s : composed s -> is_arr 4 our_ip -> co_fields h -> Forall is_u8 payload -> Z.of_nat (length payload) < 130000 ->
  exists out s', handle_ip i our_mac our_ip h payload now s = Done (out, s') /\ keeps s s'.
Proof.
  intros Hs Hip Hf Hu Hl. destruct Hf as (_ & _ & _ & _ & _ & _ & _ & _ & Hsrc & Hdst). unfold handle_ip.
  assert (exists out s', Done ([] : list ServiceOutput, s) = Done (out, s') /\ keeps s s') as Hnone by (by exists [], s).
  destruct (_ =? PROTO_ICMP); [|destruct (_ =? PROTO_UDP); [|destruct (_ =? PROTO_TCP); [|exact Hnone]]].
  - destruct (icmp_parse payload) as [[ih data]|] eqn:Ep; [|exact Hnone]. destruct (@parsed_rest IcmpHeader icmp_codec icmp_laws payload ih data Hu Ep) as (Hih & Hud & Hld).
    assert (exists r m, handle_icmp ih data (ip_src h) now (sv_icmp s) = Done (r, m)) as (r & m & ->).
    { unfold handle_icmp. destruct (icmp_type ih =? ECHO_REQUEST).
      - destruct Hih as (_ & _ & _ & Hrest). destruct (icmp_packet_parses ECHO_REPLY 0 (icmp_rest ih) data) as (ck & E & _); [done|done|done|done|lia|]. unfold build_echo_reply. rewrite E. cbn [mbind run_bind]. by eexists _, _.
      - destruct (_ =? ECHO_REPLY); [destruct (echo_from_rest (icmp_rest ih)) as [id sq]; destruct (match sv_icmp s !! id with Some _ => _ | None => _ end); by eexists _, _|]. destruct (_ =? DEST_UNREACHABLE); [by eexists _, _|]. destruct (_ =? TIME_EXCEEDED); by eexists _, _. }
    cbn [mbind run_bind]. pose proof (composed_icmp m s Hs) as Hs'. destruct r as [data' dst| | | |]; try (by eexists _, _).
    destruct (ipv4_packet_roundtrip our_ip (ip_src h) PROTO_ICMP 64 0 data') as (ih' & -> & _); [done|done|done|done|done|]. cbn [mbind run_bind].
    pose proof (wrap_composed (ip_src h) our_mac (ipv4_bytes ih' ++ data') (set_icmp m s) Hs' Hsrc) as Hw. destruct (wrap_in_ethernet _ _ _ _) as [f s1]. eexists _, _. split; [done|]. by eapply keeps_arp; [..|exact Hw].
  - destruct (udp_parse payload) as [[uh data]|] eqn:Ep; [|exact Hnone]. eexists _, _. split; [done|]. split; [|done]. by apply (composed_udp (UoPacket uh data (ip_src h)) s (EvCame (udp_dst_port uh) ({| sa_ip := ip_src h; sa_port := udp_src_port uh |}, data))).
  - destruct (tcp_parse payload) as [[th data]|] eqn:Ep; [|exact Hnone]. destruct (@parsed_rest TcpHeader tcp_codec tcp_laws payload th data Hu Ep) as (Hth & _ & _).
    pose proof (composed_table s Hs) as Ht. assert (op_ok (OSegment th data (ip_src h) (ip_dst h) now)) as Hop by done. destruct (tcp_step_ok _ _ Ht Hop) as (o & b & t' & E & Ht' & _). pose proof (composed_tcp _ s o b t' Hs Hop E) as Hs'.
    cbn [tcp_step] in E. destruct (handle_segment th data (ip_src h) (ip_dst h) now (sv_tcp s)) as [[outs t]|] eqn:Eh; [|done]. cbn [mbind run_bind] in *. injection E as <- <- <-.
    pose proof (emit_composed i our_mac outs (set_tcp t s) Hs' (handle_segment_out _ _ _ _ _ _ _ _ Ht Hth Hsrc Hdst Eh)) as He. destruct (emit_tcp_outputs outs i our_mac (set_tcp t s)) as [out s1]. eexists _, _. split; [done|]. by eapply keeps_arp; [..|exact He].
Qed.

Lemma handle_frame_ok i frame now s : composed s -> Forall is_u8 frame -> Z.of_nat (length frame) < 130000 -> exists out s', handle_frame i frame now s = Done (out, s') /\ keeps s s'.
Proof.
  intros Hs Hu Hl. unfold handle_frame. destruct (eth_parse frame) as [[eth payload]|] eqn:Ee; [|by exists [], s]. destruct (@parsed_rest EthernetHeader eth_codec eth_laws frame eth payload Hu Ee) as (_ & Hup & Hlp).
  destruct (_ =? ETHERTYPE_ARP); [|destruct (_ =? ETHERTYPE_IPV4); [|by exists [], s]].
  - destruct (arp_parse payload) as [p|] eqn:Ep; [|by exists [], s].
    assert (co_fields p) as Hf. { apply (@parsed_rest ArpPacket arp_codec arp_laws payload p (drop 28 payload) Hup). cbn [co_parse arp_codec]. by rewrite Ep. }
    destruct (handle_arp_spec i p (mac_of i s) (ip_of i s) s Hs Hf) as (out & s' & -> & Hc & Hb & _). eexists _, _. split; [done|]. by eapply keeps_arp.
  - destruct (parse_ipv4_total payload Hup) as (r & -> & Hr). cbn [mbind run_bind]. destruct r as [[h rest]|]; [|by exists [], s]. destruct (Hr h rest eq_refl) as (Hf & Hur & Hlr). apply handle_ip_ok; try done; [by apply ip_of_arr|lia].
Qed.

(** ** Every request is answered *)

Lemma port_of_u16 h : 0 <= h -> is_u16 (port_of h).
Proof. intros H. unfold port_of, is_u16. destruct (Z.ltb_spec h (2 ^ 16)); lia. Qed.
Lemma loopback_ok h : 0 <= h -> addr_ok (loopback h).
Proof. intros H. split; [|by apply port_of_u16]. split; [done|]. by repeat (apply Forall_cons_2; [done|]). Qed.
Lemma no_peer_ok : addr_ok no_peer.
Proof. split; [|done]. split; [done|]. by repeat (apply Forall_cons_2; [done|]). Qed.

(** The service after a request: composed, and at most one handle further. *)
Definition served (s s' : NetworkService) : Prop := composed s' /\ next_handle s <= next_handle s' <= next_handle s + 1.
Lemma served_same s s' : composed s' -> next_handle s' = next_handle s -> served s s'.
Proof. intros H E. split; [done|]. rewrite E. lia. Qed.

Lemma new_handle_ok s0 s : composed s -> next_handle s = next_handle s0 -> next_handle s + 1 < 2 ^ 64 -> exists r s', new_handle s = Done (r, s') /\ served s0 s'.
Proof. intros Hs E Hn. unfold new_handle. rewrite add64_done by done. cbn [mbind run_bind]. eexists _, _. split; [done|]. split; [by apply composed_handle|]. cbn [next_handle set_next_handle]. lia. Qed.

Lemma request_served to_lowercase r s : composed s -> request_ok r -> next_handle s + 1 < 2 ^ 64 -> exists resp s', handle_socket_request to_lowercase r s = Done (resp, s') /\ served s s'.
Proof.
  intros Hs Hr Hn. pose proof (composed_table s Hs) as Ht.
  assert (forall op o b t, op_ok op -> tcp_step op (sv_tcp s) = Done (o, b, t) -> served s (set_tcp t s)) as Htcp by (intros op o b t Ho E; apply served_same; [by eapply composed_tcp|done]).
  assert (forall op e u, udp_step op (sv_udp s) = Done (e, u) -> served s (set_udp u s)) as Hudp by (intros op e u E; apply served_same; [by eapply composed_udp|done]).
  destruct r as [d ty|h a|h b|h|h a|h data fl|h mx fl|h data a|h mx|h|h|h|h o|h how|name|]; cbn [handle_socket_request request_ok] in *; try (eexists _, _; split; [reflexivity|]; by apply served_same).
  - by apply new_handle_ok.
  - destruct (udp_bind (sa_port a) (sv_udp s)) as [x u] eqn:E. eexists _, _. split; [done|]. eapply (Hudp (UoBind (sa_port a))). cbn [udp_step]. by rewrite E.
  - destruct (tcp_listen (port_of h) b (sv_tcp s)) as [x t] eqn:E. eexists _, _. split; [done|]. eapply (Htcp (OListen (port_of h) b)); [done|]. cbn [tcp_step]. by rewrite E.
  - destruct (tcp_accept (port_of h) (sv_tcp s)) as [x t] eqn:E. assert (served s (set_tcp t s)) as Hs' by (eapply (Htcp (OAccept (port_of h))); [done|]; cbn [tcp_step]; by rewrite E).
    destruct x; [apply new_handle_ok; [apply Hs'|done|done]|by eexists _, _].
  - destruct Hr as [Hh Ha]. assert (op_ok (OConnect (loopback h) a)) as Ho by (split; [by apply loopback_ok|done]). destruct (tcp_step_ok _ _ Ht Ho) as (o & b & t & E & _). pose proof (Htcp _ _ _ _ Ho E) as Hs'. cbn [tcp_step] in E.
    destruct (tcp_connect (loopback h) a (sv_tcp s)) as [[[x outs] t1]|]; [|done]. cbn [mbind run_bind] in *. injection E as _ _ ->. by eexists _, _.
  - destruct (tcp_send (loopback h, no_peer) data (sv_tcp s)) as [x t] eqn:E. eexists _, _. split; [done|]. eapply (Htcp (OSend (loopback h, no_peer) data)); [split; [by apply loopback_ok|apply no_peer_ok]|]. cbn [tcp_step]. by rewrite E.
  - destruct (tcp_recv (loopback h, no_peer) (Z.to_nat mx) (sv_tcp s)) as [x t] eqn:E. eexists _, _. split; [done|]. eapply (Htcp (ORecv (loopback h, no_peer) (Z.to_nat mx))); [split; [by apply loopback_ok|apply no_peer_ok]|]. cbn [tcp_step]. by rewrite E.
  - destruct Hr as (Hh & [Ha1 Ha2] & Hu & Hl). assert (exists x, udp_sendto (port_of h) a (ip_of 0 s) (sa_ip a) data (sv_udp s) = Done x) as (x & ->); [|eexists _, _; split; [done|]; by apply served_same].
    unfold udp_sendto. destruct (udp_sockets (sv_udp s) !! port_of h); [|by eexists]. destruct (udp_packet_parses (ip_of 0 s) (sa_ip a) (port_of h) (sa_port a) data) as (ck & -> & _); try done; [by apply ip_of_arr|by apply port_of_u16|]. cbn [mbind run_bind].
    destruct (ipv4_packet_roundtrip (ip_of 0 s) (sa_ip a) 17 64 0 (udp_bytes {| udp_src_port := port_of h; udp_dst_port := sa_port a; udp_length := wire_len data; udp_checksum := ck |} ++ data)) as (ih & -> & _); try done; [by apply ip_of_arr|]. by eexists.
  - destruct (udp_recvfrom (port_of h) (sv_udp s)) as [x u] eqn:E. eexists _, _. split; [done|]. eapply (Hudp (UoRecv (port_of h))). cbn [udp_step]. by rewrite E.
  - eexists _, _. split; [done|]. by eapply (Hudp (UoClose (port_of h))).
Qed.

Lemma tick_ok now s : composed s -> exists out s', svc_tick now s = Done (out, s') /\ keeps s s'.
Proof.
  intros Hs. unfold svc_tick. pose proof (composed_arp (AoExpire (now / 1000) ARP_TIMEOUT_SECS) s Hs (conj I I)) as Hs1. cbn [arp_step snd] in Hs1. set (s1 := set_arp _ s) in *.
  pose proof (composed_table s1 Hs1) as Ht. destruct (tcp_step_ok (OTick now) (sv_tcp s1) Ht I) as (o & b & t & E & _). pose proof (composed_tcp (OTick now) s1 o b t Hs1 I E) as Hs2. cbn [tcp_step] in E.
  destruct (tcp_tick now (sv_tcp s1)) as [[outs t1]|] eqn:Et; [|done]. cbn [mbind run_bind] in *. injection E as _ _ ->.
  pose proof (emit_composed 0 (mac_of 0 s1) outs (set_tcp t s1) Hs2 (tick_keys_out _ now (sv_tcp s1) outs t Ht Et)) as He. destruct (emit_tcp_outputs outs 0 (mac_of 0 s1) (set_tcp t s1)) as [out s2]. eexists _, _. split; [done|]. by eapply keeps_arp; [..|exact He].
Qed.

Lemma new_composed : composed net_service_new.
Proof. exists [], [], []. split; try done; [by exists []|by exists []]. Qed.

Lemma svc_step_ok to_lowercase o s : composed s -> svc_op_ok o -> next_handle s + 1 < 2 ^ 64 -> exists out s', svc_step to_lowercase o s = Done (out, s') /\ served s s'.
Proof.
  intros Hs Ho Hn. assert (forall s', keeps s s' -> served s s') as Hk by (intros s' (H1 & _ & H3); by apply served_same). destruct o as [c|i frame now|r|now]; cbn [svc_step svc_op_ok] in *.
  - eexists _, _. split; [done|]. apply served_same; [|done]. destruct Hs as (ah & th & uh & [H1 H2 H3 H4 H5 H6 H7]). exists ah, th, uh. split; try done; cbn [interfaces routing add_interface].
    + apply Forall_app. split; [done|]. by apply Forall_cons_2.
    + unfold add_route. by rewrite map_app, H7.
  - destruct Ho as [H1 H2]. destruct (handle_frame_ok i frame now s Hs H1 H2) as (out & s' & -> & Hs'). eexists _, _. split; [done|]. by apply Hk.
  - unfold dispatch. destruct (request_served to_lowercase r s Hs Ho Hn) as (resp & s' & -> & Hs'). by eexists _, _.
  - destruct (tick_ok now s Hs) as (out & s' & -> & Hs'). eexists _, _. split; [done|]. by apply Hk.
Qed.

Lemma svc_run_ok to_lowercase ops : forall s, composed s -> Forall svc_op_ok ops -> next_handle s + Z.of_nat (length ops) < 2 ^ 64 -> exists outs s', svc_run to_lowercase ops s = Done (outs, s') /\ composed s'.
Proof.
  induction ops as [|o ops IH]; intros s Hs Ho Hn; cbn [svc_run]; [by exists [], s|]. inversion_clear Ho as [|? ? H1 H2]. cbn [length] in Hn. destruct (svc_step_ok to_lowercase o s Hs H1 ltac:(lia)) as (out & s1 & -> & Hs1 & Hn1). cbn [mbind run_bind].
  destruct (IH s1 Hs1 H2 ltac:(lia)) as (outs & s2 & -> & Hs2). cbn [mbind run_bind]. by eexists _, _.
Qed.

(** ** Frames the service sends *)

Lemma frame_bytes_eq dst src ty payload : is_arr 6 dst -> is_arr 6 src -> frame_bytes dst src ty payload = eth_bytes {| eth_dst := dst; eth_src := src; ether_type := ty |} ++ payload.
Proof. intros [H1 _] [H2 _]. unfold frame_bytes, eth_serialize. rewrite zeroed_bytes; [done|]. unfold eth_bytes. cbn [eth_dst eth_src ether_type]. by rewrite !length_app, H1, H2. Qed.

Lemma frame_parses dst src ty payload : is_arr 6 dst -> is_arr 6 src -> is_u16 ty -> eth_parse (frame_bytes dst src ty payload) = Some ({| eth_dst := dst; eth_src := src; ether_type := ty |}, payload).
Proof.
  intros H1 H2 H3. rewrite frame_bytes_eq by done. set (h := {| eth_dst := dst |}). apply (@codec_parse_app EthernetHeader eth_codec eth_laws h); [done|exact I| |].
  - unfold eth_bytes. cbn [h eth_dst eth_src ether_type]. rewrite !length_app. by rewrite (proj1 H1), (proj1 H2).
  - cbn [co_serialize co_len eth_codec]. unfold eth_serialize. rewrite store_front_done by (rewrite length_app, length_replicate; lia). by rewrite drop_app_length' by (by rewrite length_replicate).
Qed.

(** An answer to an echo request, for a host whose link address is known. *)
Lemma echo_answered i our_mac our_ip h payload ih data now s mac : is_arr 4 our_ip -> is_arr 6 our_mac -> is_arr 6 mac -> is_arr 4 (ip_src h) -> protocol h = PROTO_ICMP ->
  icmp_parse payload = Some (ih, data) -> icmp_type ih = ECHO_REQUEST -> is_arr 4 (icmp_rest ih) -> Forall is_u8 data -> Z.of_nat (length data) < 130000 -> (forall pkt, arp_resolve (ip_src h) pkt (sv_arp s) = (Resolved mac, sv_arp s)) ->
  exists f pkt h' body rh, handle_ip i our_mac our_ip h payload now s = Done ([SendFrame i f], s)
    /\ eth_parse f = Some ({| eth_dst := mac; eth_src := our_mac; ether_type := ETHERTYPE_IPV4 |}, pkt)
    /\ parse_ipv4_packet pkt = Done (Some (h', body)) /\ ip_src h' = our_ip /\ ip_dst h' = ip_src h /\ protocol h' = PROTO_ICMP
    /\ icmp_parse body = Some (rh, data) /\ icmp_type rh = ECHO_REPLY /\ icmp_rest rh = icmp_rest ih /\ icmp_verify_checksum rh data = Done true.
Proof.
  intros Hip Hm Hmac Hsrc Hp Ei Et Hr Hu Hl Ha. destruct (icmp_packet_parses ECHO_REPLY 0 (icmp_rest ih) data) as (ck & Eb & Hck & Hv & Hpar); [done|done|done|done|done|]. set (rh := {| icmp_type := ECHO_REPLY |}) in *.
  destruct (ipv4_packet_roundtrip our_ip (ip_src h) PROTO_ICMP 64 0 (icmp_bytes rh ++ data)) as (h' & E4 & _ & H1 & H2 & H3 & _ & _ & _ & Hparse); [done|done|done|done|done|].
  exists (frame_bytes mac our_mac ETHERTYPE_IPV4 (ipv4_bytes h' ++ icmp_bytes rh ++ data)), (ipv4_bytes h' ++ icmp_bytes rh ++ data), h', (icmp_bytes rh ++ data), rh.
  split; [|split; [by apply frame_parses|]].
  - unfold handle_ip. rewrite Hp. change (PROTO_ICMP =? PROTO_ICMP) with true. rewrite Ei. unfold handle_icmp. rewrite Et. change (ECHO_REQUEST =? ECHO_REQUEST) with true. unfold build_echo_reply. rewrite Eb. cbn [mbind run_bind]. rewrite E4. cbn [mbind run_bind].
    unfold wrap_in_ethernet. cbn [sv_arp set_icmp]. rewrite Ha. cbn [push_frame]. by destruct s.
  - specialize (Hparse []). rewrite !app_nil_r in Hparse. split; [exact Hparse|]. specialize (Hpar []). rewrite !app_nil_r in Hpar. by split_and!.
Qed.

Lemma arp_parse_bytes p : co_fields p -> arp_parse (arp_bytes p) = Some p.
Proof.
  intros Hf. assert (length (arp_bytes p) = 28%nat) as Hl. { destruct Hf as (_ & _ & _ & _ & _ & [H1 _] & [H2 _] & [H3 _] & [H4 _]). unfold arp_bytes. rewrite !length_app. rewrite H1, H2, H3, H4. reflexivity. }
  pose proof (@codec_parse_app ArpPacket arp_codec arp_laws p (arp_bytes p) [] Hf I Hl) as H. rewrite !app_nil_r in H. cbn [co_parse co_serialize co_len arp_codec] in H.
  assert (arp_serialize p (replicate 28 0) = Some (arp_bytes p)) as Es by (unfold arp_serialize; rewrite store_front_done by (cbn; lia); by rewrite app_nil_r).
  destruct (arp_parse (arp_bytes p)) as [q|] eqn:E; cbn [mbind option_bind] in H.
  - assert (Some (q, drop 28 (arp_bytes p)) = Some (p, [])) as Hq. { apply H, Es. } by injection Hq as ->.
  - assert ((None : option (ArpPacket * list Z)) = Some (p, [])) as Hq; [|done]. apply H, Es.
Qed.

Lemma arp_frame_handled i p s now dst : composed s -> co_fields p -> is_arr 6 dst ->
  handle_frame i (frame_bytes dst (sender_mac p) ETHERTYPE_ARP (arp_bytes p)) now s = Done (handle_arp_packet i p (mac_of i s) (ip_of i s) s).
Proof. intros Hs Hf Hd. unfold handle_frame. rewrite frame_parses by (done || apply Hf). cbn [ether_type]. change (ETHERTYPE_ARP =? ETHERTYPE_ARP) with true. by rewrite arp_parse_bytes. Qed.

(** C13: the service never fails, and is the composition of its parts.  Over
    any interfaces, frames, socket requests and ticks, with arguments in the
    range of their types, frames and datagrams to send shorter than 130,000
    bytes (the 32-bit sum of the checksum overflows beyond, and a datagram of
    131,076 bytes panics) and fewer than 2^64 calls, whatever bytes the frames
    hold, every call returns; the address, TCP and UDP tables are at every
    moment the ones that a sequence of valid calls of their own component makes
    of empty tables, so that what is proved of each component holds in the
    service; and the routes are those of the interfaces.  In every service so
    reached, an ARP request for the address of the interface it came in on is
    answered with the interface's link address, and the packets that waited for
    the asking host follow, in their order and addressed to it; an ARP reply
    releases the waiting packets the same way; from then on the host resolves.
    And an echo request, in a frame of that size, from a host whose link address is known is answered with
    one frame to it that parses to an echo reply with the same identifier,
    sequence number and data and a correct checksum. *)
Theorem network_service_composes to_lowercase ops : Forall svc_op_ok ops -> 1 + Z.of_nat (length ops) < 2 ^ 64 ->
  exists outs s, svc_run to_lowercase ops net_service_new = Done (outs, s) /\ composed s
  /\ (forall i p dst now, co_fields p -> is_arr 6 dst -> htype p = 1 -> ptype p = 0x0800 -> operation p = ARP_REPLY \/ operation p = ARP_REQUEST /\ target_ip p = ip_of i s -> exists out s',
      handle_frame i (frame_bytes dst (sender_mac p) ETHERTYPE_ARP (arp_bytes p)) now s = Done (out, s')
      /\ out = (if operation p =? ARP_REQUEST then [SendFrame i (frame_bytes (sender_mac p) (mac_of i s) ETHERTYPE_ARP (arp_bytes (arp_packet ARP_REPLY (mac_of i s) (ip_of i s) (sender_mac p) (sender_ip p))))] else [])
               ++ map (fun q => SendFrame i (frame_bytes (sender_mac p) (mac_of i s) ETHERTYPE_IPV4 (pp_data q))) (pending_of (arp_lookup (sender_ip p) (sv_arp s)))
      /\ forall pkt, arp_resolve (sender_ip p) pkt (sv_arp s') = (Resolved (sender_mac p), sv_arp s'))
  /\ (forall i frame eth p h payload ih data now mac, Forall is_u8 frame -> Z.of_nat (length frame) < 130000 -> eth_parse frame = Some (eth, p) -> ether_type eth = ETHERTYPE_IPV4 -> parse_ipv4_packet p = Done (Some (h, payload)) -> protocol h = PROTO_ICMP ->
      icmp_parse payload = Some (ih, data) -> icmp_type ih = ECHO_REQUEST -> is_arr 6 mac -> (forall pkt, arp_resolve (ip_src h) pkt (sv_arp s) = (Resolved mac, sv_arp s)) ->
      exists f pkt h' body rh, handle_frame i frame now s = Done ([SendFrame i f], s)
      /\ eth_parse f = Some ({| eth_dst := mac; eth_src := mac_of i s; ether_type := ETHERTYPE_IPV4 |}, pkt)
      /\ parse_ipv4_packet pkt = Done (Some (h', body)) /\ ip_src h' = ip_of i s /\ ip_dst h' = ip_src h /\ protocol h' = PROTO_ICMP
      /\ icmp_parse body = Some (rh, data) /\ icmp_type rh = ECHO_REPLY /\ icmp_rest rh = icmp_rest ih /\ icmp_verify_checksum rh data = Done true).
Proof.
  intros Hops Hn. destruct (svc_run_ok to_lowercase ops net_service_new new_composed Hops Hn) as (outs & s & E & Hs). exists outs, s. split; [done|]. split; [done|]. split.
  - intros i p dst now Hf Hd Hh Hpt Hop. rewrite arp_frame_handled by done. destruct (handle_arp_spec i p (mac_of i s) (ip_of i s) s Hs Hf) as (out & s' & -> & _ & _ & H). destruct (H Hh Hpt) as (Hreq & Hrep & Hres). exists out, s'. split; [done|]. split; [|by apply Hres].
    destruct Hop as [Ho|[Ho Ht]].
    + rewrite (Hrep Ho), Ho. done.
    + rewrite (Hreq Ho Ht), Ho. change (ARP_REQUEST =? ARP_REQUEST) with true. cbn [app]. do 2 f_equal. f_equal. unfold arp_serialize. apply zeroed_bytes. destruct (mac_of_arr i s Hs) as [L1 _]. destruct (ip_of_arr i s Hs) as [L2 _]. destruct Hf as (_ & _ & _ & _ & _ & [L3 _] & [L4 _] & _).
      unfold arp_bytes. rewrite !length_app. cbn [arp_packet sender_mac sender_ip target_mac target_ip htype ptype hlen plen operation]. rewrite L1, L2, L3, L4. reflexivity.
  - intros i frame eth p h payload ih data now mac Hu Hl Ee Et Ep Hp Ei Hit Hm Ha. destruct (@parsed_rest EthernetHeader eth_codec eth_laws frame eth p Hu Ee) as (_ & Hup & Hlp).
    destruct (parse_ipv4_total p Hup) as (r & Er & Hr). rewrite Ep in Er. injection Er as <-. destruct (Hr h payload eq_refl) as (Hf & Hupl & Hlpl). destruct (@parsed_rest IcmpHeader icmp_codec icmp_laws payload ih data Hupl Ei) as (Hih & Hud & Hld).
    unfold handle_frame. rewrite Ee, Et. change (ETHERTYPE_IPV4 =? ETHERTYPE_ARP) with false. change (ETHERTYPE_IPV4 =? ETHERTYPE_IPV4) with true. rewrite Ep. cbn [mbind run_bind].
    apply echo_answered; try done; [by apply ip_of_arr|by apply mac_of_arr|apply Hf|apply Hih|lia].
Qed.

Definition demo_if : InterfaceConfig := {| if_name := [101; 116; 104; 48]; if_ip := [10; 0; 0; 1]; if_netmask := {| cidr_addr := [10; 0; 0; 0]; prefix_len := 24 |}; if_mac := [2; 0; 0; 0; 0; 1]; if_mtu := 1500 |}.
Definition demo_request : ArpPacket := arp_packet ARP_REQUEST demo_mac demo_host ZERO_MAC [10; 0; 0; 1].

Lemma arr_lit n l : length l = n -> forallb (fun x => (0 <=? x) && (x <? 256)) l = true -> is_arr n l.
Proof. intros H1 H2. split; [done|]. apply Forall_forall. intros x Hx. rewrite forallb_forall in H2. specialize (H2 x (proj1 (list_elem_of_In _ _) Hx)). unfold is_u8. lia. Qed.
Lemma demo_request_ok : co_fields demo_request.
Proof. cbn [co_fields arp_codec]. split_and!; first [by apply arr_lit|done|vm_compute; split; congruence]. Qed.

Lemma network_service_composes_witness : exists outs s s', svc_run (fun n => n) [SoInterface demo_if] net_service_new = Done (outs, s) /\
  handle_frame 0 (frame_bytes (replicate 6 255) demo_mac ETHERTYPE_ARP (arp_bytes demo_request)) 0 s =
    Done ([SendFrame 0 (frame_bytes demo_mac [2; 0; 0; 0; 0; 1] ETHERTYPE_ARP (arp_bytes (arp_packet ARP_REPLY [2; 0; 0; 0; 0; 1] [10; 0; 0; 1] demo_mac demo_host)))], s').
Proof.
  destruct (network_service_composes (fun n => n) [SoInterface demo_if]) as (outs & s & E & _ & H & _).
  - apply Forall_cons_2; [|apply Forall_nil_2]. split; by apply arr_lit.
  - cbn. lia.
  - assert (s = add_interface demo_if net_service_new) as -> by (cbn in E; by injection E as _ <-).
    destruct (H 0%nat demo_request (replicate 6 255) 0 demo_request_ok ltac:(by apply arr_lit) eq_refl eq_refl ltac:(right; split; reflexivity)) as (out & s' & E1 & E2 & _). exists outs, (add_interface demo_if net_service_new), s'. split; [exact E|]. rewrite E2 in E1. exact E1.
Defined.

(** ** What the service does not do *)

Definition frames_of (outs : list (list ServiceOutput)) : list (list Z) := omap (fun o => match o with SendFrame _ d => Some d | _ => None end) (concat outs).
Definition responses_of (outs : list (list ServiceOutput)) : list SocketResponse := omap (fun o => match o with SocketResponseOut r => Some r | _ => None end) (concat outs).
Definition outputs_of (ops : list svc_op) : list (list ServiceOutput) := match svc_run (fun n => n) ops net_service_new with Done (outs, _) => outs | Panicked => [] end.

(** A connection that is opened reports success, but its first segment is
    dropped: nothing is ever sent, also not by the timer, and sending on the
    same handle finds no connection. *)
Example connect_sends_nothing : let outs := outputs_of [SoInterface demo_if; SoRequest (RqConnect 5000 {| sa_ip := demo_host; sa_port := 80 |}); SoTick 1000; SoTick 100000; SoRequest (RqSend 5000 [1; 2; 3] 0)] in
  frames_of outs = [] /\ responses_of outs = [RsOk 0; RsError NotConnected].
Proof. vm_compute. split; reflexivity. Qed.

(** The checksum adds 16-bit words in 32 bits and folds only at the end: a long
    datagram of large bytes overflows the sum, and the call panics. *)
Example long_datagram_panics : svc_run (fun n => n) [SoInterface demo_if; SoRequest (RqBind 5000 {| sa_ip := demo_host; sa_port := 5000 |});
  SoRequest (RqSendTo 5000 (replicate (Z.to_nat 131076) 255) {| sa_ip := demo_host; sa_port := 80 |})] net_service_new = Panicked.
Proof. vm_compute. reflexivity. Qed.

Definition echo_frame (dst_mac dst_ip : list Z) : list Z :=
  match build_echo_request 7 1 [1; 2; 3; 4] with
  | Done icmp => match build_ipv4_packet demo_host dst_ip PROTO_ICMP 64 0 icmp with Done pkt => frame_bytes dst_mac demo_mac ETHERTYPE_IPV4 pkt | Panicked => [] end
  | Panicked => []
  end.

(** No ARP request is ever sent: the answer to a host whose address is not known waits, and nothing asks for the address. *)
Example nobody_asks : frames_of (outputs_of [SoInterface demo_if; SoFrame 0 (echo_frame [2; 0; 0; 0; 0; 1] [10; 0; 0; 1]) 0; SoTick 1000; SoTick 100000]) = [].
Proof. vm_compute. reflexivity. Qed.

(** A frame for another host is answered as well: neither address is compared with the interface's. *)
Example answers_for_others : length (frames_of (outputs_of [SoInterface demo_if; SoFrame 0 (frame_bytes (replicate 6 255) demo_mac ETHERTYPE_ARP (arp_bytes demo_request)) 0;
  SoFrame 0 (echo_frame [2; 0; 0; 0; 0; 99] [10; 0; 0; 99]) 0])) = 2%nat.
Proof. vm_compute. reflexivity. Qed.
