(* ===== verification/Iommu.v ===== *)
(** * IOMMU: identifiers, domains and per-domain tables
    (omni-kernel: bare_metal/iommu/mod.rs, domain.rs, pt_alloc.rs,
    kernel_frame_source.rs)

    What the two vendor backends share: device and domain identifiers, mapping
    flags, the bitmap of domain identifiers, and the registry of the root
    frame of each domain's page table.  Root frames come from the trait
    [FrameSource] of pt_alloc.rs, here the class [PtSource]; the kernel's
    implementation wraps the frame allocator and clears each frame. *)

From Stdlib Require Import ZArith Lia.
From stdpp Require Import base numbers list sets gmap.
From S2P Require Import Prelude FrameAlloc CapScope Paging BlockBitmap DriverDma.

(** ** Identifiers (mod.rs) *)

(** [PciBdf(u16)]: bus, device and function in 16 bits. *)
Definition bdf_from_parts (bus device function : Z) : Z :=
  let bus_field := Z.shiftl bus 8 in
  let dev_field := Z.shiftl (Z.land device 0x1F) 3 in
  let func_field := Z.land function 0x7 in
  Z.lor (Z.lor bus_field dev_field) func_field.
Definition bdf_bus (b : Z) : Z := Z.shiftr b 8.
Definition bdf_devfn (b : Z) : Z := Z.land b 0xFF.
Definition bdf_device (b : Z) : Z := Z.land (Z.shiftr b 3) 0x1F.
Definition bdf_function (b : Z) : Z := Z.land b 0x7.

(** [pci_bdfs_from_resources]: the devices among a manifest's resources; the segment is dropped. *)
Fixpoint pci_bdfs_from_resources (pci_devices : list Resource) : list Z :=
  match pci_devices with
  | [] => []
  | PciDevice _ bus device function :: l => bdf_from_parts bus device function :: pci_bdfs_from_resources l
  | _ :: l => pci_bdfs_from_resources l
  end.

(** [IommuVendor] *)
Inductive IommuVendor := VIntel | VAmd | VPassthrough.
#[global] Instance IommuVendor_eq_dec : EqDecision IommuVendor.
Proof. solve_decision. Defined.

Definition TAG_PASSTHROUGH : Z := 0.
Definition TAG_INTEL : Z := 1.
Definition TAG_AMD : Z := 2.
Definition vendor_as_u8 (v : IommuVendor) : Z := match v with VPassthrough => TAG_PASSTHROUGH | VIntel => TAG_INTEL | VAmd => TAG_AMD end.
Definition vendor_from_u8 (tag : Z) : IommuVendor := if tag =? TAG_INTEL then VIntel else if tag =? TAG_AMD then VAmd else VPassthrough.

(** [ProbeResult] and [select_vendor] *)
Record ProbeResult := { pr_vendor : IommuVendor; pr_drhd_count : Z; pr_ivhd_count : Z; pr_register_base : Z }.
Definition PROBE_PASSTHROUGH : ProbeResult := {| pr_vendor := VPassthrough; pr_drhd_count := 0; pr_ivhd_count := 0; pr_register_base := 0 |}.
Definition select_vendor (drhd_count ivhd_count : Z) : ProbeResult :=
  if 0 <? drhd_count then {| pr_vendor := VIntel; pr_drhd_count := drhd_count; pr_ivhd_count := 0; pr_register_base := 0 |} else
  if 0 <? ivhd_count then {| pr_vendor := VAmd; pr_drhd_count := 0; pr_ivhd_count := ivhd_count; pr_register_base := 0 |} else
  PROBE_PASSTHROUGH.

(** [IommuFlags(u32)]; READ and WRITE are in [DriverDma]. *)
Definition IOMMU_EXECUTE : Z := Z.shiftl 1 2.
Definition IOMMU_COHERENT : Z := Z.shiftl 1 3.
Definition flags_contain (flags other : Z) : bool := Z.land flags other =? other.
Definition flags_union (a b : Z) : Z := Z.lor a b.
Definition flags_intersection (a b : Z) : Z := Z.land a b.

(** ** Domain identifiers (domain.rs) *)

Definition DEFAULT_CAPACITY : Z := 1024.

Inductive AllocError := Exhausted | AlreadyFree | OutOfRange.

Record DomainAllocator := { da_bitmap : list Z; da_capacity : Z; da_allocated : Z; da_hint : Z }.

Definition da_new (capacity : Z) : DomainAllocator :=
  let cap := Z.max capacity 1 in
  {| da_bitmap := replicate (Z.to_nat ((cap + 7) / 8)) 0; da_capacity := cap; da_allocated := 0; da_hint := 0 |}.

Definition da_is_exhausted (d : DomainAllocator) : bool := da_capacity d <=? da_allocated d.

Definition da_is_allocated (d : DomainAllocator) (raw : Z) : bool :=
  if da_capacity d <=? raw then false else
  match da_bitmap d !! Z.to_nat (raw / 8) with
  | Some byte => Z.land (Z.shiftr byte (raw mod 8)) 0x1 =? 1
  | None => false
  end.

Definition da_set_bit (raw : Z) (value : bool) (d : DomainAllocator) : DomainAllocator :=
  match da_bitmap d !! Z.to_nat (raw / 8) with
  | Some byte =>
      let mask := Z.shiftl 1 (raw mod 8) in
      {| da_bitmap := <[Z.to_nat (raw / 8) := if value then Z.lor byte mask else Z.land byte (not8 mask)]> (da_bitmap d);
         da_capacity := da_capacity d; da_allocated := da_allocated d; da_hint := da_hint d |}
  | None => d
  end.

Definition da_counts (allocated hint : Z) (d : DomainAllocator) : DomainAllocator :=
  {| da_bitmap := da_bitmap d; da_capacity := da_capacity d; da_allocated := allocated; da_hint := hint |}.

(** [for raw in a..b]: the first identifier that is not allocated. *)
Fixpoint da_scan (n : nat) (raw : Z) (d : DomainAllocator) : option Z :=
  match n with
  | O => None
  | S n => if negb (da_is_allocated d raw) then Some raw else da_scan n (raw + 1) d
  end.

Definition da_take (raw : Z) (d : DomainAllocator) : DomainAllocator :=
  let d := da_set_bit raw true d in
  da_counts (da_allocated d + 1) (Z.min (raw + 1) 0xFFFF) d.

Definition da_alloc (d : DomainAllocator) : result AllocError Z * DomainAllocator :=
  if da_is_exhausted d then (Err Exhausted, d) else
  let cap := da_capacity d in
  let hint := da_hint d in
  match da_scan (Z.to_nat (cap - hint)) hint d with
  | Some raw => (Ok raw, da_take raw d)
  | None =>
      match da_scan (Z.to_nat hint) 0 d with
      | Some raw => (Ok raw, da_take raw d)
      | None => (Err Exhausted, d)
      end
  end.

Definition da_reserve (raw : Z) (d : DomainAllocator) : result AllocError unit * DomainAllocator :=
  if da_capacity d <=? raw then (Err OutOfRange, d) else
  if da_is_allocated d raw then (Err AlreadyFree, d) else
  let d := da_set_bit raw true d in
  (Ok (), da_counts (da_allocated d + 1) (da_hint d) d).

Definition da_free (raw : Z) (d : DomainAllocator) : result AllocError unit * DomainAllocator :=
  if da_capacity d <=? raw then (Err OutOfRange, d) else
  if negb (da_is_allocated d raw) then (Err AlreadyFree, d) else
  let d := da_set_bit raw false d in
  (Ok (), da_counts (saturating_sub (da_allocated d) 1) (if raw <? da_hint d then raw else da_hint d) d).

(** ** Root frames of the domains (pt_alloc.rs, kernel_frame_source.rs) *)

Definition PT_PAGE_BYTES : Z := 4096.

Inductive DomainPtError := FrameAllocFailed | DpMisaligned | AlreadyProvisioned | NotProvisioned.

(** The trait [FrameSource]: a frame is cleared in memory before it is handed out. *)
Class PtSource (S : Type) := {
  alloc_zeroed_frame : S -> phys_mem -> run (option Z * S * phys_mem);
  pt_free_frame : Z -> S -> run S;
}.

(** [KernelFrameSource]: the kernel's allocator behind the trait. *)
Definition kernel_alloc_zeroed {A} `{FramePool A} (a : A) (m : phys_mem) : run (option Z * A * phys_mem) :=
  '(f, a) ← fs_alloc a;
  match f with
  | None => Done (None, a, m)
  | Some phys =>
      if negb (Z.land phys (PT_PAGE_BYTES - 1) =? 0) then
        '(_, a) ← fp_free phys a; Done (None, a, m)
      else Done (Some phys, a, zero_table phys m)
  end.

Definition kernel_free_frame {A} `{FramePool A} (phys : Z) (a : A) : run A := '(_, a) ← fp_free phys a; Done a.

#[global] Instance kernel_frame_source {A} `{FramePool A} : PtSource A := {|
  alloc_zeroed_frame := kernel_alloc_zeroed;
  pt_free_frame := kernel_free_frame;
|}.

(** [DomainPageTables]: domains with their root frames, in order. *)
Record DomainPtEntry := { de_domain : Z; de_root_phys : Z }.
Abbreviation DomainPageTables := (list DomainPtEntry).

Definition is_provisioned (t : DomainPageTables) (domain : Z) : bool := existsb (fun e => de_domain e =? domain) t.
Definition pt_root_phys (t : DomainPageTables) (domain : Z) : option Z := de_root_phys <$> List.find (fun e => de_domain e =? domain) t.

(** [Vec::swap_remove] at a position inside the vector. *)
Definition swap_remove {X} (i : nat) (l : list X) : list X :=
  match last l with
  | Some x => if decide (S i = length l) then take i l else <[i := x]> (take (length l - 1) l)
  | None => l
  end.

(** [iter().position]: index and element of the first match. *)
Definition position {X} (p : X -> bool) (l : list X) : option (nat * X) := list_find (fun x => p x = true) l.

Section Provision.
Context {S : Type} `{PtSource S}.

Definition provision (domain : Z) (t : DomainPageTables) (s : S) (m : phys_mem) : run (result DomainPtError Z * DomainPageTables * S * phys_mem) :=
  if is_provisioned t domain then Done (Err AlreadyProvisioned, t, s, m) else
  '(f, s, m) ← alloc_zeroed_frame s m;
  match f with
  | None => Done (Err FrameAllocFailed, t, s, m)
  | Some phys =>
      if negb (Z.land phys 0xFFF =? 0) then
        s ← pt_free_frame phys s; Done (Err DpMisaligned, t, s, m)
      else Done (Ok phys, t ++ [{| de_domain := domain; de_root_phys := phys |}], s, m)
  end.

Definition release (domain : Z) (t : DomainPageTables) (s : S) : run (result DomainPtError unit * DomainPageTables * S) :=
  match position (fun e => de_domain e =? domain) t with
  | None => Done (Err NotProvisioned, t, s)
  | Some (pos, removed) =>
      let t := swap_remove pos t in
      s ← pt_free_frame (de_root_phys removed) s;
      Done (Ok (), t, s)
  end.
End Provision.

(** ** The registers of a remapping unit

    Volatile accesses by physical address ([phys_offset] cancels out); the unit
    reads the tables and the queue in memory, so every access shows it the
    memory of that moment. *)
Class MmioUnit (U : Type) := {
  unit_write32 : Z -> Z -> phys_mem -> U -> U;
  unit_write64 : Z -> Z -> phys_mem -> U -> U;
  unit_read32 : Z -> phys_mem -> U -> Z * U;
  unit_read64 : Z -> phys_mem -> U -> Z * U;
}.

(** [while budget > 0]: read until the condition holds, at most [n] times;
    the count is taken in binary so that a million reads stay cheap to run. *)
Fixpoint poll_pos {X} (n : positive) (read : X -> bool * X) (x : X) : bool * X :=
  match n with
  | xH => read x
  | xO n => let '(ok, x) := poll_pos n read x in if ok then (true, x) else poll_pos n read x
  | xI n => let '(ok, x) := read x in if ok then (true, x) else let '(ok, x) := poll_pos n read x in if ok then (true, x) else poll_pos n read x
  end.
Definition poll_upto {X} (budget : Z) (read : X -> bool * X) (x : X) : bool * X := match budget with Zpos n => poll_pos n read x | _ => (false, x) end.

(** A volatile 64-bit write through the direct map. *)
Definition poke64 (pa v : Z) (m : phys_mem) : phys_mem := set_entry (pa - pa mod 4096) (pa mod 4096 / 8) v m.

(** The rest of the trait [IommuBackend]: the vendor and the devices. *)
Class IommuDevices (I : Type) := {
  backend_vendor : I -> IommuVendor;
  iommu_attach : Z -> Z -> I -> result IommuError unit * I;
  iommu_detach : Z -> I -> result IommuError unit * I;
}.

(** ** The allocator as a set of identifiers

    The promise: the lowest free identifier is handed out, every answer is the
    one a set of taken identifiers gives, and the count is its size. *)

Inductive DomainOp := DoAlloc | DoReserve (id : Z) | DoFree (id : Z).

Definition da_step (op : DomainOp) (d : DomainAllocator) : result AllocError (option Z) * DomainAllocator :=
  match op with
  | DoAlloc => let '(r, d) := da_alloc d in (match r with Ok i => Ok (Some i) | Err e => Err e end, d)
  | DoReserve id => let '(r, d) := da_reserve id d in (match r with Ok _ => Ok None | Err e => Err e end, d)
  | DoFree id => let '(r, d) := da_free id d in (match r with Ok _ => Ok None | Err e => Err e end, d)
  end.

Definition least_free (cap : Z) (s : gset Z) : option Z := snd <$> list_find (fun i => i ∉ s) (seqZ 0 cap).

Definition ids_step (cap : Z) (op : DomainOp) (s : gset Z) : result AllocError (option Z) * gset Z :=
  match op with
  | DoAlloc => match least_free cap s with Some i => (Ok (Some i), {[i]} ∪ s) | None => (Err Exhausted, s) end
  | DoReserve id => if cap <=? id then (Err OutOfRange, s) else if bool_decide (id ∈ s) then (Err AlreadyFree, s) else (Ok None, {[id]} ∪ s)
  | DoFree id => if cap <=? id then (Err OutOfRange, s) else if bool_decide (id ∈ s) then (Ok None, s ∖ {[id]}) else (Err AlreadyFree, s)
  end.

Fixpoint op_run {O R X} (step : O -> X -> R * X) (ops : list O) (x : X) : list R * X :=
  match ops with
  | [] => ([], x)
  | op :: ops => let '(r, x) := step op x in let '(rs, x) := op_run step ops x in (r :: rs, x)
  end.

Definition domain_op_ok (op : DomainOp) : Prop := match op with DoAlloc => True | DoReserve id | DoFree id => is_u16 id end.

Record ids_rel (cap : Z) (d : DomainAllocator) (s : gset Z) : Prop := {
  ir_cap : da_capacity d = cap /\ 1 <= cap < 2 ^ 16;
  ir_len : Z.of_nat (length (da_bitmap d)) = (cap + 7) / 8;
  ir_u8 : Forall is_u8 (da_bitmap d);
  ir_in : forall i, i ∈ s -> 0 <= i < cap;
  ir_bits : forall i, 0 <= i < cap -> bit_at (da_bitmap d) i = bool_decide (i ∈ s);
  ir_count : da_allocated d = Z.of_nat (size s);
  ir_hint : 0 <= da_hint d <= cap;
  ir_below : forall i, 0 <= i < da_hint d -> i ∈ s;
}.

Lemma least_free_some cap s i : 0 <= i < cap -> i ∉ s -> (forall j, 0 <= j < i -> j ∈ s) -> least_free cap s = Some i.
Proof.
  intros Hi Hn Hb. unfold least_free. assert (list_find (fun j => j ∉ s) (seqZ 0 cap) = Some (Z.to_nat i, i)) as ->; [|done].
  apply list_find_Some. rewrite lookup_seqZ. split; [lia|]. split; [done|]. intros j y Hj Hlt. apply lookup_seqZ in Hj as [-> ?].
  intros Hx. apply Hx, Hb. lia.
Qed.

Lemma least_free_none cap s : (forall j, 0 <= j < cap -> j ∈ s) -> least_free cap s = None.
Proof.
  intros Hb. unfold least_free. assert (list_find (fun j => j ∉ s) (seqZ 0 cap) = None) as ->; [|done].
  apply list_find_None, Forall_forall. intros x Hx%elem_of_seqZ Hn. apply Hn, Hb. lia.
Qed.

Lemma full_size (cap : Z) (s : gset Z) : 0 <= cap -> (forall i, i ∈ s -> 0 <= i < cap) ->
  Z.of_nat (size s) <= cap /\ (Z.of_nat (size s) = cap <-> forall i, 0 <= i < cap -> i ∈ s).
Proof.
  intros Hc Hin. set (u := list_to_set (seqZ 0 cap) : gset Z).
  assert (Z.of_nat (size u) = cap) as Hu by (unfold u; rewrite size_list_to_set by apply NoDup_seqZ; rewrite length_seqZ; lia).
  assert (s ⊆ u) as Hsub by (intros i Hi; apply elem_of_list_to_set, elem_of_seqZ; specialize (Hin i Hi); lia).
  pose proof (subseteq_size _ _ Hsub). split; [lia|]. split.
  - intros E i Hi. assert (s ≡ u) as Heq by (apply set_subseteq_size_equiv; [done|lia]). apply Heq, elem_of_list_to_set, elem_of_seqZ. lia.
  - intros Hall. assert (u ⊆ s) as Hs2 by (intros i Hi; apply elem_of_list_to_set, elem_of_seqZ in Hi; apply Hall; lia).
    apply subseteq_size in Hs2. lia.
Qed.

Lemma land1_testbit x n : 0 <= n -> (Z.land (Z.shiftr x n) 1 =? 1) = Z.testbit x n.
Proof.
  intros Hn. change (Z.land (Z.shiftr x n) 1) with (Z.land (Z.shiftr x n) (Z.ones 1)). rewrite Z.land_ones, Z.shiftr_div_pow2 by lia.
  change (2 ^ 1) with 2. rewrite <- (Z.testbit_spec' x n) by done. by destruct (Z.testbit x n).
Qed.

Section Ids.
Context (cap : Z) (d : DomainAllocator) (s : gset Z) (Hr : ids_rel cap d s).

Lemma da_is_allocated_spec i : 0 <= i -> da_is_allocated d i = bool_decide (i ∈ s).
Proof.
  intros Hi. unfold da_is_allocated. destruct (ir_cap _ _ _ Hr) as [-> _]. destruct (Z.leb_spec cap i) as [Hge|Hlt].
  - symmetry. apply bool_decide_eq_false. intros Hx%(ir_in _ _ _ Hr). lia.
  - rewrite <- (ir_bits _ _ _ Hr) by lia. unfold bit_at. destruct (da_bitmap d !! _); [|done]. apply land1_testbit. pose proof (Z.mod_pos_bound i 8); lia.
Qed.

Lemma da_byte i : 0 <= i < cap -> exists w, da_bitmap d !! Z.to_nat (i / 8) = Some w /\ is_u8 w.
Proof.
  intros Hi. pose proof (ir_len _ _ _ Hr) as Hl.
  assert (i / 8 < (cap + 7) / 8) by (apply Z.div_lt_upper_bound; [lia|]; pose proof (Z.div_mod (cap + 7) 8 ltac:(lia)); pose proof (Z.mod_pos_bound (cap + 7) 8 ltac:(lia)); lia).
  assert (0 <= i / 8) by (apply Z.div_pos; lia).
  destruct (lookup_lt_is_Some_2 (da_bitmap d) (Z.to_nat (i / 8))) as [w Hw]; [lia|]. exists w. split; [done|]. eapply Forall_lookup_1; [apply (ir_u8 _ _ _ Hr)|done].
Qed.

Lemma da_set_bit_spec i v : 0 <= i < cap ->
  length (da_bitmap (da_set_bit i v d)) = length (da_bitmap d) /\ Forall is_u8 (da_bitmap (da_set_bit i v d)) /\
  (forall j, 0 <= j -> bit_at (da_bitmap (da_set_bit i v d)) j = if j =? i then v else bit_at (da_bitmap d) j) /\
  da_capacity (da_set_bit i v d) = da_capacity d /\ da_allocated (da_set_bit i v d) = da_allocated d /\ da_hint (da_set_bit i v d) = da_hint d.
Proof.
  intros Hi. destruct (da_byte i Hi) as (w & Hw & Hu). pose proof (Z.mod_pos_bound i 8 ltac:(lia)) as Hm.
  unfold da_set_bit. rewrite Hw. cbn. rewrite length_insert. split; [done|]. split; [|split; [|done]].
  - apply Forall_insert; [apply (ir_u8 _ _ _ Hr)|]. destruct v; [by apply set_bit_u8|by apply clear_bit_u8].
  - intros j Hj. rewrite (bit_at_insert _ i w _ j); [|lia|done|done|].
    + destruct (j =? i); [|done]. destruct v; [rewrite testbit_set_bit, Z.eqb_refl by lia; apply orb_true_r|].
      rewrite testbit_clear_u8, Z.eqb_refl by (done || lia). apply andb_false_r.
    + intros n Hn Hne. apply Z.eqb_neq in Hne. destruct v; [rewrite testbit_set_bit, Hne by lia; apply orb_false_r|].
      rewrite testbit_clear_u8, Hne by (done || lia). apply andb_true_r.
Qed.

Lemma da_insert_rel i hint : 0 <= i < cap -> i ∉ s -> (forall j, 0 <= j < hint -> j = i \/ j ∈ s) -> 0 <= hint <= cap ->
  ids_rel cap (da_counts (da_allocated d + 1) hint (da_set_bit i true d)) ({[i]} ∪ s).
Proof.
  intros Hi Hn Hb Hh. destruct (da_set_bit_spec i true Hi) as (Hl & Hu & Hbit & Hc & _ & _). destruct Hr as [Hcap Hlen _ Hin Hbits Hcount _ _]. split; cbn; [by rewrite Hc| | done | | | | done |].
  - by rewrite Hl.
  - intros j [->%elem_of_singleton|Hj]%elem_of_union; [done|by apply Hin].
  - intros j Hj. rewrite Hbit by lia. destruct (Z.eqb_spec j i) as [->|Hne]; [symmetry; apply bool_decide_eq_true; set_solver|].
    rewrite Hbits by done. apply bool_decide_ext. set_solver.
  - rewrite size_union by set_solver. rewrite size_singleton. lia.
  - intros j Hj. destruct (Hb j Hj) as [->|]; set_solver.
Qed.

Lemma da_delete_rel i : 0 <= i < cap -> i ∈ s ->
  ids_rel cap (da_counts (saturating_sub (da_allocated d) 1) (if i <? da_hint d then i else da_hint d) (da_set_bit i false d)) (s ∖ {[i]}).
Proof.
  intros Hi Hs. destruct (da_set_bit_spec i false Hi) as (Hl & Hu & Hbit & Hc & _ & _). destruct Hr as [Hcap Hlen _ Hin Hbits Hcount Hhint Hbelow]. split; cbn; [by rewrite Hc| | done | | | | |].
  - by rewrite Hl.
  - intros j Hj. apply Hin. set_solver.
  - intros j Hj. rewrite Hbit by lia. destruct (Z.eqb_spec j i) as [->|Hne]; [symmetry; apply bool_decide_eq_false; set_solver|].
    rewrite Hbits by done. apply bool_decide_ext. set_solver.
  - rewrite size_difference by set_solver. rewrite size_singleton, Hcount. unfold saturating_sub.
    assert (size s <> 0%nat) by (intros E; apply size_empty_iff in E; set_solver). lia.
  - destruct (Z.ltb_spec i (da_hint d)); lia.
  - intros j Hj. destruct (Z.ltb_spec i (da_hint d)); apply elem_of_difference; (split; [apply Hbelow; lia|]); intros ->%elem_of_singleton; lia.
Qed.

Lemma da_scan_spec n i : 0 <= i -> Z.of_nat n + i = cap -> (forall j, 0 <= j < i -> j ∈ s) ->
  da_scan n i d = least_free cap s.
Proof.
  revert i. induction n as [|n IH]; intros i Hi Hn Hb; cbn [da_scan].
  - symmetry. apply least_free_none. intros j Hj. apply Hb. lia.
  - rewrite da_is_allocated_spec by done. destruct (bool_decide_reflect (i ∈ s)) as [Hs|Hs]; cbn.
    + apply IH; [lia|lia|]. intros j Hj. destruct (decide (j = i)) as [->|]; [done|apply Hb; lia].
    + symmetry. apply least_free_some; [lia|done|done].
Qed.

Lemma least_free_inv i : least_free cap s = Some i -> 0 <= i < cap /\ i ∉ s /\ forall j, 0 <= j < i -> j ∈ s.
Proof.
  unfold least_free. destruct (list_find _ _) as [[k x]|] eqn:E; [|done]. intros [= <-]. apply list_find_Some in E as (Hk & Hn & Hb).
  apply lookup_seqZ in Hk as [-> Hk]. split; [cbn; lia|]. split; [done|]. intros j Hj.
  destruct (decide (j ∈ s)) as [|Hnj]; [done|]. exfalso. refine (Hb (Z.to_nat j) j _ _ Hnj); [apply lookup_seqZ; cbn in Hj; lia|cbn in Hj; lia].
Qed.

Lemma da_alloc_spec : da_step DoAlloc d = (fst (ids_step cap DoAlloc s), snd (da_step DoAlloc d)) /\ ids_rel cap (snd (da_step DoAlloc d)) (snd (ids_step cap DoAlloc s)).
Proof.
  pose proof Hr as [[Hcap Hrng] _ _ Hin _ Hcount Hhint Hbelow]. destruct (full_size cap s ltac:(lia) Hin) as [Hle Hfull].
  cbn [da_step ids_step]. unfold da_alloc, da_is_exhausted. rewrite Hcap, Hcount. destruct (Z.leb_spec cap (Z.of_nat (size s))) as [Hge|Hlt].
  - assert (Z.of_nat (size s) = cap) as E by lia. rewrite least_free_none by (by apply Hfull). done.
  - rewrite (da_scan_spec _ (da_hint d)) by (done || lia). destruct (least_free cap s) as [i|] eqn:El.
    + apply least_free_inv in El as (Hi & Hn & Hb). cbn. split; [done|]. destruct (da_set_bit_spec i true Hi) as (_ & _ & _ & _ & Ha & _).
      unfold da_take. rewrite Ha. apply da_insert_rel; [done|done| |].
      * intros j Hj. destruct (decide (j = i)); [by left|right; apply Hb; lia].
      * change 0xFFFF with (2 ^ 16 - 1). lia.
    + exfalso. assert (Z.of_nat (size s) <> cap) as Hx by lia. apply Hx, Hfull. intros i Hi. destruct (decide (i ∈ s)) as [|Hn]; [done|]. exfalso.
      unfold least_free in El. destruct (list_find _ _) as [[]|] eqn:E; [done|]. apply list_find_None in E. rewrite Forall_forall in E. apply (E i); [apply elem_of_seqZ; lia|done].
Qed.

Lemma da_step_spec op : domain_op_ok op ->
  da_step op d = (fst (ids_step cap op s), snd (da_step op d)) /\ ids_rel cap (snd (da_step op d)) (snd (ids_step cap op s)).
Proof.
  destruct op as [|id|id]; intros Hop; [apply da_alloc_spec| |]; destruct (ir_cap _ _ _ Hr) as [Hcap _]; cbn in Hop; destruct Hop as [Hop _]; cbn [da_step ids_step]; unfold da_reserve, da_free; rewrite Hcap, da_is_allocated_spec by done;
    (destruct (Z.leb_spec cap id); [done|]); destruct (bool_decide_reflect (id ∈ s)) as [Hs|Hs]; cbn [negb fst snd]; try done; (split; [done|]); destruct (da_set_bit_spec id true ltac:(lia)) as (_ & _ & _ & _ & Ha & Hh); destruct (da_set_bit_spec id false ltac:(lia)) as (_ & _ & _ & _ & Ha' & Hh').
  - rewrite Ha, Hh. apply da_insert_rel; [lia|done| |apply (ir_hint _ _ _ Hr)]. intros j Hj. right. by apply (ir_below _ _ _ Hr).
  - rewrite Ha', Hh'. apply da_delete_rel; [lia|done].
Qed.
End Ids.

Lemma da_new_rel capacity : is_u16 capacity -> ids_rel (Z.max capacity 1) (da_new capacity) ∅.
Proof.
  intros Hc. unfold is_u16 in Hc. set (cap := Z.max capacity 1). assert (0 <= (cap + 7) / 8) by (apply Z.div_pos; lia). split; cbn; fold cap; try done || lia.
  - rewrite length_replicate. lia.
  - by apply Forall_replicate.
  - intros i Hi. unfold bit_at. destruct (replicate _ 0 !! _) as [w|] eqn:E; [|by symmetry; apply bool_decide_eq_false; set_solver].
    apply lookup_replicate in E as [-> _]. rewrite Z.testbit_0_l. by symmetry; apply bool_decide_eq_false; set_solver.
Qed.

Lemma da_run_spec cap ops d s : ids_rel cap d s -> Forall domain_op_ok ops ->
  fst (op_run da_step ops d) = fst (op_run (ids_step cap) ops s) /\ ids_rel cap (snd (op_run da_step ops d)) (snd (op_run (ids_step cap) ops s)).
Proof.
  revert d s. induction ops as [|op ops IH]; intros d s Hr Hops; [done|]. apply Forall_cons in Hops as [Hop Hops].
  destruct (da_step_spec cap d s Hr op Hop) as [E Hr']. cbn [op_run]. destruct (da_step op d) as [r d1] eqn:Ed, (ids_step cap op s) as [r' s1] eqn:Es. cbn in *.
  injection E as ->. destruct (IH d1 s1 Hr' Hops) as [E1 E2]. destruct (op_run da_step ops d1), (op_run (ids_step cap) ops s1). cbn in *. by subst.
Qed.

(** over any sequence of calls the bitmap of domain identifiers answers as
    the set of taken identifiers does: [alloc] hands out the lowest free
    identifier below the capacity and fails exactly when none is free (its
    second scan, from zero, never finds one), [reserve] and [free] refuse
    identifiers out of range and identifiers already in the wanted state, the
    count is the size of the set and the exhaustion test is exact. *)
Theorem domain_ids_exact (capacity : Z) (ops : list DomainOp) (Hc : is_u16 capacity) (Hops : Forall domain_op_ok ops) :
  let cap := Z.max capacity 1 in
  let '(rs, d) := op_run da_step ops (da_new capacity) in
  let '(rs', s) := op_run (ids_step cap) ops ∅ in
  rs = rs' /\ da_allocated d = Z.of_nat (size s) /\ (forall id, 0 <= id -> da_is_allocated d id = bool_decide (id ∈ s)) /\
  (da_is_exhausted d = true <-> forall id, 0 <= id < cap -> id ∈ s) /\ (forall id, id ∈ s -> 0 <= id < cap).
Proof.
  intros cap. destruct (da_run_spec cap ops _ _ (da_new_rel capacity Hc) Hops) as [E Hr].
  destruct (op_run da_step ops (da_new capacity)) as [rs d], (op_run (ids_step cap) ops ∅) as [rs' s]. cbn in E, Hr.
  pose proof Hr as [[Hcap Hrng] _ _ Hin _ Hcount _ _]. destruct (full_size cap s ltac:(lia) Hin) as [Hle Hfull].
  split; [done|]. split; [done|]. split; [intros id Hid; by apply (da_is_allocated_spec cap)|]. split; [|done].
  unfold da_is_exhausted. rewrite Hcap, Hcount, <- Hfull, Z.leb_le. lia.
Qed.

Lemma domain_ids_exact_witness :
  fst (op_run da_step [DoReserve 1; DoAlloc; DoAlloc; DoFree 0; DoAlloc; DoAlloc; DoFree 3] (da_new 3))
  = [Ok None; Ok (Some 0); Ok (Some 2); Ok None; Ok (Some 0); Err Exhausted; Err OutOfRange].
Proof.
  pose proof (domain_ids_exact 3 [DoReserve 1; DoAlloc; DoAlloc; DoFree 0; DoAlloc; DoAlloc; DoFree 3] ltac:(unfold is_u16; lia) ltac:(repeat constructor; unfold is_u16; cbn; lia)) as H.
  cbv zeta in H. destruct (op_run da_step _ _) as [rs d] eqn:E. destruct (op_run (ids_step _) _ _) as [rs' s] eqn:E'. destruct H as [-> _].
  cbn [fst]. change rs' with (fst (rs', s)). rewrite <- E'. vm_compute. reflexivity.
Defined.

(** ** Sources of cleared frames

    The contract of the trait [FrameSource], and the ledger of the frames its
    clients hold: together with the frames that are free they are the frames
    that were free at the start. *)

Class PtSourceLaws (S : Type) `{PtSource S} := {
  src_wf : S -> Prop;
  src_avail : S -> Z -> Prop;
  src_managed : S -> Z -> Prop;
  src_avail_managed : forall s x, src_avail s x -> src_managed s x;
  src_alloc_spec : forall s m, src_wf s ->
    (exists f s', alloc_zeroed_frame s m = Done (Some f, s', zero_table f m) /\ src_wf s' /\ src_avail s f /\ f mod 4096 = 0 /\ 0 <= f < 2 ^ 52 /\
       (forall x, src_avail s' x <-> src_avail s x /\ x <> f) /\ forall x, src_managed s' x <-> src_managed s x) \/
    (exists s', alloc_zeroed_frame s m = Done (None, s', m) /\ src_wf s' /\ (forall x, ~ src_avail s x /\ ~ src_avail s' x) /\ forall x, src_managed s' x <-> src_managed s x);
  src_free_spec : forall s f, src_wf s -> src_managed s f -> ~ src_avail s f ->
    exists s', pt_free_frame f s = Done s' /\ src_wf s' /\ (forall x, src_avail s' x <-> src_avail s x \/ x = f) /\ forall x, src_managed s' x <-> src_managed s x;
}.

Lemma land_page x : Z.land x 0xFFF = x mod 4096.
Proof. exact (land_ones_mod x 12 ltac:(lia)). Qed.

(** The kernel's source keeps the contract when its allocator does. *)
#[global] Instance kernel_frame_source_laws {A} `{FramePool A} {Hl : FrameSourceLaws A} {Hp : FramePoolLaws A} : PtSourceLaws A.
Proof.
  refine {| src_wf := fs_wf; src_avail := fs_avail; src_managed := fp_managed |}.
  - intros s x. apply fp_avail_managed.
  - intros a m Hwf. cbn [alloc_zeroed_frame kernel_frame_source]. unfold kernel_alloc_zeroed. change (PT_PAGE_BYTES - 1) with 0xFFF.
    destruct (fs_alloc_spec a Hwf) as [(f & a' & E & Hwf' & Hav & Hal & Hb & Hx)|[E Hx]]; pose proof (fp_alloc_managed a _ _ Hwf E) as Hm; rewrite E; cbn.
    + left. rewrite land_page, Hal. cbn. by exists f, a'.
    + right. exists a. split_and!; [done|done| |done]. intros x. by split.
  - intros a f Hwf Hm Hna. destruct (fp_free_spec a f Hwf Hm Hna) as (a' & E & ?). exists a'. cbn [pt_free_frame kernel_frame_source]. unfold kernel_free_frame. by rewrite E.
Defined.

Section Ledger.
Context {S : Type} `{PtSourceLaws S}.

Record ledger (av0 : Z -> Prop) (s : S) (held : list Z) : Prop := {
  lg_wf : src_wf s;
  lg_nodup : NoDup held;
  lg_held : forall x, x ∈ held -> src_managed s x /\ ~ src_avail s x /\ x mod 4096 = 0 /\ 0 <= x < 2 ^ 52;
  lg_all : forall x, av0 x <-> src_avail s x \/ x ∈ held;
}.

#[global] Instance ledger_proper av0 s : Proper (Permutation ==> iff) (ledger av0 s).
Proof.
  assert (forall l l', l ≡ₚ l' -> ledger av0 s l -> ledger av0 s l') as Himp.
  { intros l l' Hp [Hw Hn Hh Ha]. split; [done|by rewrite <- Hp| |]; intros x; rewrite <- Hp; [by apply Hh|by apply Ha]. }
  intros l l' Hp. split; apply Himp; [done|by symmetry].
Qed.

Lemma ledger_empty s : src_wf s -> ledger (src_avail s) s [].
Proof. intros Hw. split; [done|constructor|by intros x ?%elem_of_nil|]. intros x. rewrite elem_of_nil. tauto. Qed.

Lemma ledger_alloc av0 s held m : ledger av0 s held ->
  (exists f s', alloc_zeroed_frame s m = Done (Some f, s', zero_table f m) /\ ledger av0 s' (f :: held) /\ av0 f /\ Z.land f 0xFFF = 0) \/
  (exists s', alloc_zeroed_frame s m = Done (None, s', m) /\ ledger av0 s' held /\ forall x, ~ src_avail s x).
Proof.
  intros [Hw Hn Hh Ha]. destruct (src_alloc_spec s m Hw) as [(f & s' & E & Hw' & Hav & Hal & Hb & Hx & Hm)|(s' & E & Hw' & Hx & Hm)]; [left; exists f, s'|right; exists s'].
  - assert (f ∉ held) as Hf by (intros Hf; by destruct (Hh f Hf) as (_ & ? & _)). split; [done|]. split; [|split; [apply Ha; by left|by rewrite land_page]].
    split; [done|by constructor| |].
    + intros x [->|Hin]%elem_of_cons; [split_and!; [apply Hm; by apply src_avail_managed|rewrite Hx; naive_solver|done|lia|lia]|].
      destruct (Hh x Hin) as (? & Hna & ? & ?). split_and!; [by apply Hm|rewrite Hx; naive_solver|done|lia|lia].
    + intros x. rewrite Ha, Hx, elem_of_cons. destruct (decide (x = f)) as [->|]; naive_solver.
  - split; [done|]. split; [|naive_solver]. split; [done|done| |].
    + intros x Hin. destruct (Hh x Hin) as (? & ? & ?). split; [by apply Hm|]. naive_solver.
    + intros x. rewrite Ha. naive_solver.
Qed.

Lemma ledger_free av0 s held f : ledger av0 s (f :: held) -> exists s', pt_free_frame f s = Done s' /\ ledger av0 s' held.
Proof.
  intros [Hw Hn Hh Ha]. apply NoDup_cons in Hn as [Hf Hn]. destruct (Hh f ltac:(by left)) as (Hm & Hna & _).
  destruct (src_free_spec s f Hw Hm Hna) as (s' & E & Hw' & Hx & Hm'). exists s'. split; [done|]. split; [done|done| |].
  - intros x Hin. destruct (Hh x ltac:(by right)) as (? & ? & ?). split; [by apply Hm'|]. rewrite Hx. naive_solver.
  - intros x. rewrite Ha, Hx, elem_of_cons. naive_solver.
Qed.
End Ledger.

(** ** Vectors *)

Lemma swap_remove_perm {X} (l : list X) i x : l !! i = Some x -> l ≡ₚ x :: swap_remove i l.
Proof.
  intros Hi. pose proof (lookup_lt_Some _ _ _ Hi) as Hlt. unfold swap_remove.
  destruct l as [|y l0 _] using rev_ind; [done|]. rewrite last_snoc. rewrite length_app in *. cbn [length] in *.
  destruct (decide (Datatypes.S i = (length l0 + 1)%nat)) as [Ee|Ee].
  - assert (i = length l0) as -> by lia. rewrite take_app_length. rewrite list_lookup_middle in Hi by done. injection Hi as ->. by rewrite <- Permutation_cons_append.
  - replace (length l0 + 1 - 1)%nat with (length l0) by lia. rewrite take_app_length. rewrite lookup_app_l in Hi by lia.
    rewrite <- Permutation_cons_append, insert_take_drop by lia. etransitivity; [apply perm_skip, (delete_Permutation l0 i x Hi)|].
    rewrite delete_take_drop, <- Permutation_middle. apply perm_swap.
Qed.

Lemma position_some {X} (p : X -> bool) l i x : position p l = Some (i, x) -> l !! i = Some x /\ p x = true.
Proof. intros E. apply list_find_Some in E. naive_solver. Qed.

Lemma position_none {X} (p : X -> bool) l : position p l = None <-> existsb p l = false.
Proof.
  unfold position. rewrite list_find_None, Forall_forall. split.
  - intros Hx. apply not_true_iff_false. intros (y & Hin & Hy)%existsb_exists. by apply (Hx y); [apply list_elem_of_In|].
  - intros Hx y Hin Hy. apply not_true_iff_false in Hx. apply Hx, existsb_exists. exists y. split; [by apply list_elem_of_In|done].
Qed.

(** ** The registry of root frames *)

Definition pts_held (t : DomainPageTables) : list Z := map de_root_phys t.
Definition pts_ok (t : DomainPageTables) : Prop := NoDup (map de_domain t).

Lemma is_provisioned_spec t d : is_provisioned t d = true <-> d ∈ map de_domain t.
Proof.
  unfold is_provisioned. rewrite existsb_exists, list_elem_of_In, in_map_iff. split; [intros (x & ? & ?%Z.eqb_eq); by exists x|intros (x & <- & ?); exists x; by rewrite Z.eqb_refl].
Qed.

Lemma pt_root_phys_spec t d f : pts_ok t -> pt_root_phys t d = Some f <-> {| de_domain := d; de_root_phys := f |} ∈ t.
Proof.
  unfold pts_ok, pt_root_phys. induction t as [|[d0 f0] t IH]; cbn; intros Hn; [split; [done|by intros ?%elem_of_nil]|].
  apply NoDup_cons in Hn as [Hnot Hn]. destruct (Z.eqb_spec d0 d) as [->|Hne]; cbn.
  - split; [intros [= ->]; by left|]. intros [[= ->]|Hin]%elem_of_cons; [done|]. exfalso. apply Hnot, list_elem_of_fmap. by exists {| de_domain := d; de_root_phys := f |}.
  - rewrite IH by done. rewrite elem_of_cons. split; [by right|]. intros [[= -> _]|]; done.
Qed.

Lemma pt_root_phys_none t d : pt_root_phys t d = None <-> is_provisioned t d = false.
Proof. unfold pt_root_phys, is_provisioned. induction t as [|e t IH]; cbn; [done|]. destruct (de_domain e =? d); cbn; [done|apply IH]. Qed.

Section Registry.
Context {S : Type} `{PtSourceLaws S}.

Lemma provision_spec av0 t rest s m d : pts_ok t -> ledger av0 s (pts_held t ++ rest) ->
  exists r t' s' m', provision d t s m = Done (r, t', s', m') /\ pts_ok t' /\ ledger av0 s' (pts_held t' ++ rest) /\
    match r with
    | Ok f => is_provisioned t d = false /\ t' = t ++ [{| de_domain := d; de_root_phys := f |}] /\ m' = zero_table f m /\ f ∉ pts_held t ++ rest
    | Err AlreadyProvisioned => is_provisioned t d = true /\ t' = t /\ s' = s /\ m' = m
    | Err FrameAllocFailed => is_provisioned t d = false /\ t' = t /\ m' = m /\ forall x, ~ src_avail s x
    | Err _ => False
    end.
Proof.
  intros Hok Hl. unfold provision. destruct (is_provisioned t d) eqn:Ep; [by eexists _, _, _, _|].
  destruct (ledger_alloc av0 s _ m Hl) as [(f & s' & E & Hl' & Hav & Hal)|(s' & E & Hl' & Hnone)]; rewrite E; cbn.
  - rewrite Hal. cbn. eexists _, _, _, _. split; [reflexivity|]. split; [|split; [|split_and!; [done|done|done|]]].
    + unfold pts_ok. rewrite map_app. apply NoDup_app. split; [done|]. split; [|apply NoDup_singleton]. intros x Hx ->%list_elem_of_singleton.
      apply is_provisioned_spec in Hx. cbn in Hx. congruence.
    + unfold pts_held. rewrite map_app. cbn. rewrite <- app_assoc. cbn. by rewrite <- Permutation_middle.
    + by apply (lg_nodup _ _ _), NoDup_cons in Hl' as [? _].
  - by eexists _, _, _, _.
Qed.

Lemma release_spec av0 t rest s d : pts_ok t -> ledger av0 s (pts_held t ++ rest) ->
  exists r t' s', release d t s = Done (r, t', s') /\ pts_ok t' /\ ledger av0 s' (pts_held t' ++ rest) /\
    match r with
    | Ok _ => exists f, t ≡ₚ {| de_domain := d; de_root_phys := f |} :: t'
    | Err NotProvisioned => is_provisioned t d = false /\ t' = t /\ s' = s
    | Err _ => False
    end.
Proof.
  intros Hok Hl. unfold release. destruct (position _ t) as [[i [d0 f]]|] eqn:Ep.
  - apply position_some in Ep as [Hi Hd]. cbn in Hd. apply Z.eqb_eq in Hd as ->. pose proof (swap_remove_perm _ _ _ Hi) as Hp.
    unfold pts_ok, pts_held in *. rewrite (Permutation_map de_root_phys Hp) in Hl. rewrite (Permutation_map de_domain Hp) in Hok. cbn in Hl, Hok.
    destruct (ledger_free _ _ _ _ Hl) as (s' & E & Hl'). cbn. rewrite E. cbn. eexists _, _, _. split; [reflexivity|]. split; [by apply NoDup_cons in Hok as [_ ?]|]. split; [done|]. by exists f.
  - apply position_none in Ep. eexists _, _, _. split; [reflexivity|]. done.
Qed.
End Registry.

(** ** Bounded polling *)

(** The loop as it is written: one read and one less in the budget. *)
Fixpoint poll_nat {X} (budget : nat) (read : X -> bool * X) (x : X) : bool * X :=
  match budget with
  | O => (false, x)
  | Datatypes.S budget => let '(ok, x) := read x in if ok then (true, x) else poll_nat budget read x
  end.

Lemma poll_nat_add {X} a b (read : X -> bool * X) x : poll_nat (a + b) read x = let '(ok, x) := poll_nat a read x in if ok then (true, x) else poll_nat b read x.
Proof. revert x. induction a as [|a IH]; intros x; cbn; [done|]. destruct (read x) as [[] x']; [done|apply IH]. Qed.

Lemma poll_upto_nat {X} budget (read : X -> bool * X) x : poll_upto budget read x = poll_nat (Z.to_nat budget) read x.
Proof.
  destruct budget as [|n|]; [done| |done]. cbn [poll_upto]. rewrite Z2Nat.inj_pos. revert x. induction n as [n IH|n IH|]; intros x; cbn [poll_pos].
  - replace (Pos.to_nat n~1) with (1 + (Pos.to_nat n + Pos.to_nat n))%nat by lia. cbn [Nat.add poll_nat]. destruct (read x) as [[] y]; [done|]. rewrite poll_nat_add, <- IH. destruct (poll_pos n read y) as [[] z]; [done|apply IH].
  - replace (Pos.to_nat n~0) with (Pos.to_nat n + Pos.to_nat n)%nat by lia. rewrite poll_nat_add, <- IH. destruct (poll_pos n read x) as [[] z]; [done|apply IH].
  - change (Pos.to_nat 1) with 1%nat. cbn [poll_nat]. destruct (read x) as [[] y]; done.
Qed.

(** A condition that holds at the first read ends the loop there. *)
Lemma poll_now {X} budget (read : X -> bool * X) x y : 0 < budget -> read x = (true, y) -> poll_upto budget read x = (true, y).
Proof. intros Hb E. rewrite poll_upto_nat. destruct (Z.to_nat budget) eqn:En; [lia|]. cbn. by rewrite E. Qed.

(** ** Device identifiers *)

Lemma bdf_split b : is_u16 b -> b = 256 * bdf_bus b + bdf_devfn b /\ 0 <= bdf_bus b < 256 /\ 0 <= bdf_devfn b < 256.
Proof.
  unfold is_u16. intros Hb. unfold bdf_bus, bdf_devfn. rewrite Z.shiftr_div_pow2 by lia. change 0xFF with (2 ^ 8 - 1). rewrite land_ones_mod by lia. change (2 ^ 8) with 256 in *.
  pose proof (Z.div_mod b 256 ltac:(lia)). pose proof (Z.mod_pos_bound b 256 ltac:(lia)). lia.
Qed.

Lemma bdf_inj a b : is_u16 a -> is_u16 b -> bdf_bus a = bdf_bus b -> bdf_devfn a = bdf_devfn b -> a = b.
Proof. intros Ha Hb E1 E2. pose proof (bdf_split a Ha). pose proof (bdf_split b Hb). lia. Qed.

(** ** Disjoint fields *)

Lemma lor_add a b k : 0 <= k -> a mod 2 ^ k = 0 -> 0 <= b < 2 ^ k -> Z.lor a b = a + b.
Proof.
  intros Hk Ha Hb. assert (Z.land a b = 0) as Hz.
  { apply Z.bits_inj'. intros n Hn. rewrite Z.land_spec, Z.testbit_0_l. destruct (Z.lt_ge_cases n k).
    - rewrite <- (Z.mod_pow2_bits_low a k n), Ha, Z.testbit_0_l by lia. done.
    - rewrite <- (Z.mod_small b (2 ^ k)), Z.mod_pow2_bits_high by lia. apply andb_false_r. }
  pose proof (Z.add_lor_land a b). lia.
Qed.

(** A word whose low twelve bits are flags and whose rest is a frame address. *)
Lemma frame_word f x : is_u64 f -> f mod 4096 = 0 -> 0 <= x < 4096 -> Z.lor f x = f + x /\ Z.land (f + x) (not64 0xFFF) = f /\ (f + x) mod 4096 = x.
Proof.
  intros Hf Ha Hx. assert ((f + x) mod 4096 = x) as Hm by (rewrite Z.add_mod, Ha, Z.add_0_l, Z.mod_mod, Z.mod_small by lia; done).
  split; [apply (lor_add f x 12); [lia|done|lia]|]. split; [|done]. change 0xFFF with (2 ^ 12 - 1). rewrite land_not_mask by (unfold is_u64 in *; pose proof (Z.div_mod f 4096 ltac:(lia)); lia).
  change (2 ^ 12) with 4096. lia.
Qed.

Lemma land_1 x : Z.land x 1 = x mod 2.
Proof. exact (land_ones_mod x 1 ltac:(lia)). Qed.

(** A field of [n] bits at position [k]. *)
Lemma land_field x k n : 0 <= k -> 0 <= n -> Z.land x (Z.shiftl (2 ^ n - 1) k) = (x / 2 ^ k mod 2 ^ n) * 2 ^ k.
Proof.
  intros Hk Hn. rewrite <- land_ones_mod, <- Z.shiftr_div_pow2, <- Z.shiftl_mul_pow2 by done. apply Z.bits_inj'. intros i Hi. rewrite Z.land_spec, !Z.shiftl_spec by done. destruct (Z.lt_ge_cases i k).
  - rewrite !(Z.testbit_neg_r _ (i - k)) by lia. apply andb_false_r.
  - rewrite Z.land_spec, Z.shiftr_spec by lia. by replace (i - k + k) with i by lia.
Qed.
