(* ===== verification/Vtd.v ===== *)
(** * The Intel VT-d backend (omni-kernel: bare_metal/iommu/vtd.rs)

    The encoders of root, context and page-table entries and of invalidation
    descriptors; the backend's record; the activation of the unit; the
    installation and release of a device's context entry with the context
    table of its bus; and the trait's operations.  Memory is the [phys_mem] of
    [Paging], the register window any unit of the class [MmioUnit]. *)

From Stdlib Require Import ZArith Lia.
From stdpp Require Import base numbers list sets gmap.
From S2P Require Import Prelude FrameAlloc Paging DriverDma Iommu.

(** ** Registers and descriptors *)

Definition VTD_GCMD : Z := 0x018.
Definition VTD_GSTS : Z := 0x01C.
Definition VTD_RTADDR : Z := 0x020.
Definition VTD_IQH : Z := 0x080.
Definition VTD_IQT : Z := 0x088.
Definition VTD_IQA : Z := 0x090.

Definition GCMD_BIT_TE : Z := Z.shiftl 1 31.
Definition GCMD_BIT_SRTP : Z := Z.shiftl 1 30.
Definition GCMD_BIT_QIE : Z := Z.shiftl 1 26.
Definition GSTS_BIT_TES : Z := Z.shiftl 1 31.
Definition GSTS_BIT_RTPS : Z := Z.shiftl 1 30.
Definition GSTS_BIT_QIES : Z := Z.shiftl 1 26.

Definition INV_QUEUE_SIZE_ORDER : Z := 0.
Definition INV_QUEUE_ENTRY_COUNT : Z := 256.
Definition INV_QUEUE_ENTRY_BYTES : Z := 16.
Definition INV_QUEUE_BYTES : Z := INV_QUEUE_ENTRY_COUNT * INV_QUEUE_ENTRY_BYTES.
Definition INV_DESC_TYPE_CONTEXT_CACHE : Z := 0x1.
Definition INV_DESC_TYPE_IOTLB : Z := 0x2.
Definition INV_DESC_CTX_GRAN_GLOBAL : Z := Z.shiftl 1 4.
Definition INV_DESC_CTX_GRAN_DOMAIN : Z := Z.shiftl 2 4.
Definition INV_DESC_IOTLB_GRAN_GLOBAL : Z := Z.shiftl 1 4.
Definition INV_DESC_IOTLB_GRAN_DOMAIN : Z := Z.shiftl 2 4.
Definition VTD_ACTIVATION_POLL_LIMIT : Z := 1000000.

(** ** Errors *)

Inductive VtdError := VeAddressMisaligned | VeUnknownDomain | VeUnsupportedFlags.
Definition vtd_error_to_iommu (e : VtdError) : IommuError :=
  match e with VeAddressMisaligned => IeAddressMisaligned | VeUnknownDomain => IeInvalidDomain | VeUnsupportedFlags => IeUnsupported end.

Inductive VtdActivateError := VaNotPrepared | VaRootTableTimeout | VaQueueEnableTimeout | VaInvalidationTimeout | VaTranslationEnableTimeout.
Definition vtd_activate_to_iommu (_ : VtdActivateError) : IommuError := IeActivationFailed.

Inductive VtdAttachError := VtNotActivated | VtDomainNotInstalled | VtAlreadyAttached | VtAddressMisaligned | VtInvalidationTimeout | VtBusContextAllocFailed.
Definition vtd_attach_to_iommu (e : VtdAttachError) : IommuError :=
  match e with
  | VtNotActivated | VtInvalidationTimeout => IeActivationFailed
  | VtDomainNotInstalled => IeInvalidDomain
  | VtAlreadyAttached => IeUnsupported
  | VtAddressMisaligned => IeAddressMisaligned
  | VtBusContextAllocFailed => IeDomainTableFull
  end.

Inductive BusContextTableReleaseError := UnknownBus.

(** ** Entries *)

Record RootEntry := { re_low : Z; re_high : Z }.
Definition root_is_present (e : RootEntry) : bool := negb (Z.land (re_low e) 0x1 =? 0).
Definition context_table_pointer (e : RootEntry) : Z := Z.land (re_low e) (not64 0xFFF).
Definition encode_root_entry (context_table_phys : Z) : result VtdError RootEntry :=
  if negb (Z.land context_table_phys 0xFFF =? 0) then Err VeAddressMisaligned else
  Ok {| re_low := Z.lor context_table_phys 0x1; re_high := 0 |}.
Definition encode_root_entry_absent : RootEntry := {| re_low := 0; re_high := 0 |}.

Inductive TranslationType := UntranslatedOnly | UntranslatedAndTranslated | PassthroughType.
Definition translation_as_u8 (t : TranslationType) : Z := match t with UntranslatedOnly => 0 | UntranslatedAndTranslated => 1 | PassthroughType => 2 end.

Inductive AddressWidth := Bits30Level2 | Bits39Level3 | Bits48Level4 | Bits57Level5.
Definition width_as_u8 (w : AddressWidth) : Z := match w with Bits30Level2 => 0 | Bits39Level3 => 1 | Bits48Level4 => 2 | Bits57Level5 => 3 end.
Definition width_levels (w : AddressWidth) : Z := match w with Bits30Level2 => 2 | Bits39Level3 => 3 | Bits48Level4 => 4 | Bits57Level5 => 5 end.

Record ContextEntry := { ce_low : Z; ce_high : Z }.
Definition ctx_is_present (e : ContextEntry) : bool := negb (Z.land (ce_low e) 0x1 =? 0).
Definition slptptr (e : ContextEntry) : Z := Z.land (ce_low e) (not64 0xFFF).
Definition ctx_domain_id (e : ContextEntry) : Z := Z.land (Z.shiftr (ce_high e) 8) 0xFFFF.
Definition translation_type_raw (e : ContextEntry) : Z := Z.land (Z.shiftr (ce_low e) 2) 3.
Definition address_width_raw (e : ContextEntry) : Z := Z.land (ce_high e) 7.

Definition encode_context_entry (slpt_phys domain : Z) (translation : TranslationType) (width : AddressWidth) : result VtdError ContextEntry :=
  if negb (Z.land slpt_phys 0xFFF =? 0) then Err VeAddressMisaligned else
  let t := Z.land (translation_as_u8 translation) 3 in
  let aw := Z.land (width_as_u8 width) 7 in
  Ok {| ce_low := Z.lor (Z.lor (Z.land slpt_phys (not64 0xFFF)) (Z.shiftl t 2)) 0x1;
        ce_high := Z.lor aw (Z.shiftl domain 8) |}.
Definition encode_context_entry_absent : ContextEntry := {| ce_low := 0; ce_high := 0 |}.

(** [Slpte(u64)] *)
Definition SLPTE_BIT_READ : Z := Z.shiftl 1 0.
Definition SLPTE_BIT_WRITE : Z := Z.shiftl 1 1.
Definition SLPTE_BIT_EXECUTE : Z := Z.shiftl 1 2.
Definition SLPTE_BIT_SNOOP : Z := Z.shiftl 1 11.
Definition slpte_is_present (e : Z) : bool := negb (Z.land e (Z.lor SLPTE_BIT_READ SLPTE_BIT_WRITE) =? 0).
Definition slpte_output_address (e : Z) : Z := Z.land e 0x000FFFFFFFFFF000.
Definition encode_slpte (phys flags : Z) : result VtdError Z :=
  if negb (Z.land phys 0xFFF =? 0) then Err VeAddressMisaligned else
  let bits := Z.land phys 0x000FFFFFFFFFF000 in
  let bits := if flags_contain flags IOMMU_READ || flags_contain flags IOMMU_WRITE then Z.lor bits SLPTE_BIT_READ else bits in
  let bits := if flags_contain flags IOMMU_WRITE then Z.lor bits SLPTE_BIT_WRITE else bits in
  let bits := if flags_contain flags IOMMU_EXECUTE then Z.lor bits SLPTE_BIT_EXECUTE else bits in
  let bits := if flags_contain flags IOMMU_COHERENT then Z.lor bits SLPTE_BIT_SNOOP else bits in
  Ok bits.

(** ** Capability fields *)

Definition cap_domain_count (cap : Z) : Z :=
  let nd := Z.land cap 7 in
  let shift := saturating_add32 4 (Z.min (nd * 2) u32_max) in
  if 16 <=? shift then 65536 else Z.shiftl 1 shift.
Definition cap_supported_agaw (cap : Z) : Z := Z.land (Z.shiftr cap 8) 31.
Definition pick_highest_supported_agaw (sagaw_mask : Z) : option AddressWidth :=
  if negb (Z.land sagaw_mask (Z.shiftl 1 3) =? 0) then Some Bits57Level5 else
  if negb (Z.land sagaw_mask (Z.shiftl 1 2) =? 0) then Some Bits48Level4 else
  if negb (Z.land sagaw_mask (Z.shiftl 1 1) =? 0) then Some Bits39Level3 else
  if negb (Z.land sagaw_mask (Z.shiftl 1 0) =? 0) then Some Bits30Level2 else None.
Definition cap_caching_mode (cap : Z) : bool := negb (Z.land cap (Z.shiftl 1 7) =? 0).

(** ** Queue encodings *)

Definition encode_iqa (queue_phys size_order : Z) : Z :=
  let base := Z.land queue_phys 0x000FFFFFFFFFF000 in
  let qs := Z.land size_order 0x7 in
  Z.lor base qs.
Definition encode_iotlb_global_invalidate : Z * Z := (Z.lor INV_DESC_TYPE_IOTLB INV_DESC_IOTLB_GRAN_GLOBAL, 0).
Definition encode_context_cache_global_invalidate : Z * Z := (Z.lor INV_DESC_TYPE_CONTEXT_CACHE INV_DESC_CTX_GRAN_GLOBAL, 0).
Definition encode_context_cache_domain_invalidate (domain : Z) : Z * Z :=
  let did := Z.shiftl domain 16 in (Z.lor (Z.lor INV_DESC_TYPE_CONTEXT_CACHE INV_DESC_CTX_GRAN_DOMAIN) did, 0).
Definition encode_iotlb_domain_invalidate (domain : Z) : Z * Z :=
  let did := Z.shiftl domain 16 in (Z.lor (Z.lor INV_DESC_TYPE_IOTLB INV_DESC_IOTLB_GRAN_DOMAIN) did, 0).
Definition context_entry_offset (bdf : Z) : Z := bdf_devfn bdf * 16.
Definition root_entry_offset (bus : Z) : Z := bus * 16.

(** ** The backend *)

Record VtdAttachment := { va_bdf : Z; va_domain : Z }.
Record BusContextTable := { bct_bus : Z; bct_phys : Z; bct_refcount : Z }.
Record VtdMapping := { vm_domain : Z; vm_iova : Z; vm_phys : Z; vm_len : Z; vm_leaf_slpte : Z }.

Record VtdBackend := {
  vb_domains : list Z;
  vb_mappings : list VtdMapping;
  vb_unit_base : Z;
  vb_root_table_phys : Z;
  vb_queue_phys : Z;
  vb_queue_tail : Z;
  vb_activated : bool;
  vb_attachments : list VtdAttachment;
  vb_domain_pts : DomainPageTables;
  vb_bus_tables : list BusContextTable;
  vb_translation : bool;
}.

Definition vtd_new : VtdBackend :=
  {| vb_domains := []; vb_mappings := []; vb_unit_base := 0; vb_root_table_phys := 0; vb_queue_phys := 0; vb_queue_tail := 0; vb_activated := false;
     vb_attachments := []; vb_domain_pts := []; vb_bus_tables := []; vb_translation := false |}.

Definition vb_set_domains (x : list Z) (b : VtdBackend) : VtdBackend :=
  {| vb_domains := x; vb_mappings := vb_mappings b; vb_unit_base := vb_unit_base b; vb_root_table_phys := vb_root_table_phys b; vb_queue_phys := vb_queue_phys b; vb_queue_tail := vb_queue_tail b; vb_activated := vb_activated b;
     vb_attachments := vb_attachments b; vb_domain_pts := vb_domain_pts b; vb_bus_tables := vb_bus_tables b; vb_translation := vb_translation b |}.
Definition vb_set_mappings (x : list VtdMapping) (b : VtdBackend) : VtdBackend :=
  {| vb_domains := vb_domains b; vb_mappings := x; vb_unit_base := vb_unit_base b; vb_root_table_phys := vb_root_table_phys b; vb_queue_phys := vb_queue_phys b; vb_queue_tail := vb_queue_tail b; vb_activated := vb_activated b;
     vb_attachments := vb_attachments b; vb_domain_pts := vb_domain_pts b; vb_bus_tables := vb_bus_tables b; vb_translation := vb_translation b |}.
Definition vb_set_tail (x : Z) (b : VtdBackend) : VtdBackend :=
  {| vb_domains := vb_domains b; vb_mappings := vb_mappings b; vb_unit_base := vb_unit_base b; vb_root_table_phys := vb_root_table_phys b; vb_queue_phys := vb_queue_phys b; vb_queue_tail := x; vb_activated := vb_activated b;
     vb_attachments := vb_attachments b; vb_domain_pts := vb_domain_pts b; vb_bus_tables := vb_bus_tables b; vb_translation := vb_translation b |}.
Definition vb_set_flags (activated translation : bool) (b : VtdBackend) : VtdBackend :=
  {| vb_domains := vb_domains b; vb_mappings := vb_mappings b; vb_unit_base := vb_unit_base b; vb_root_table_phys := vb_root_table_phys b; vb_queue_phys := vb_queue_phys b; vb_queue_tail := vb_queue_tail b; vb_activated := activated;
     vb_attachments := vb_attachments b; vb_domain_pts := vb_domain_pts b; vb_bus_tables := vb_bus_tables b; vb_translation := translation |}.
Definition vb_set_attachments (x : list VtdAttachment) (b : VtdBackend) : VtdBackend :=
  {| vb_domains := vb_domains b; vb_mappings := vb_mappings b; vb_unit_base := vb_unit_base b; vb_root_table_phys := vb_root_table_phys b; vb_queue_phys := vb_queue_phys b; vb_queue_tail := vb_queue_tail b; vb_activated := vb_activated b;
     vb_attachments := x; vb_domain_pts := vb_domain_pts b; vb_bus_tables := vb_bus_tables b; vb_translation := vb_translation b |}.
Definition vb_set_pts (x : DomainPageTables) (b : VtdBackend) : VtdBackend :=
  {| vb_domains := vb_domains b; vb_mappings := vb_mappings b; vb_unit_base := vb_unit_base b; vb_root_table_phys := vb_root_table_phys b; vb_queue_phys := vb_queue_phys b; vb_queue_tail := vb_queue_tail b; vb_activated := vb_activated b;
     vb_attachments := vb_attachments b; vb_domain_pts := x; vb_bus_tables := vb_bus_tables b; vb_translation := vb_translation b |}.
Definition vb_set_tables (x : list BusContextTable) (b : VtdBackend) : VtdBackend :=
  {| vb_domains := vb_domains b; vb_mappings := vb_mappings b; vb_unit_base := vb_unit_base b; vb_root_table_phys := vb_root_table_phys b; vb_queue_phys := vb_queue_phys b; vb_queue_tail := vb_queue_tail b; vb_activated := vb_activated b;
     vb_attachments := vb_attachments b; vb_domain_pts := vb_domain_pts b; vb_bus_tables := x; vb_translation := vb_translation b |}.

Definition vtd_has_attachment (b : VtdBackend) (bdf : Z) : bool := existsb (fun a => va_bdf a =? bdf) (vb_attachments b).
Definition vtd_has_domain (b : VtdBackend) (id : Z) : bool := existsb (fun d => d =? id) (vb_domains b).
Definition bus_context_table_phys (b : VtdBackend) (bus : Z) : option Z := bct_phys <$> List.find (fun t => bct_bus t =? bus) (vb_bus_tables b).
Definition bus_context_table_refcount (b : VtdBackend) (bus : Z) : option Z := bct_refcount <$> List.find (fun t => bct_bus t =? bus) (vb_bus_tables b).

Definition vtd_prepare_activation (unit_base root_table_phys invalidation_queue_phys : Z) (b : VtdBackend) : VtdBackend :=
  let same := (vb_unit_base b =? unit_base) && (vb_root_table_phys b =? root_table_phys) && (vb_queue_phys b =? invalidation_queue_phys) in
  {| vb_domains := vb_domains b; vb_mappings := vb_mappings b; vb_unit_base := unit_base; vb_root_table_phys := root_table_phys; vb_queue_phys := invalidation_queue_phys; vb_queue_tail := 0;
     vb_activated := if same then vb_activated b else false; vb_attachments := vb_attachments b; vb_domain_pts := vb_domain_pts b; vb_bus_tables := vb_bus_tables b;
     vb_translation := if same then vb_translation b else false |}.

(** ** Frames: page-table roots and context tables *)

Section Frames.
Context {S : Type} `{PtSource S}.

Definition vtd_provision_domain_pt (domain : Z) (b : VtdBackend) (s : S) (m : phys_mem) : run (result DomainPtError Z * VtdBackend * S * phys_mem) :=
  '(r, t, s, m) ← provision domain (vb_domain_pts b) s m; Done (r, vb_set_pts t b, s, m).
Definition vtd_release_domain_pt (domain : Z) (b : VtdBackend) (s : S) : run (result DomainPtError unit * VtdBackend * S) :=
  '(r, t, s) ← release domain (vb_domain_pts b) s; Done (r, vb_set_pts t b, s).

Definition acquire_bus_context_table (bus : Z) (b : VtdBackend) (s : S) (m : phys_mem) : run (result VtdAttachError Z * VtdBackend * S * phys_mem) :=
  match position (fun t => bct_bus t =? bus) (vb_bus_tables b) with
  | Some (i, t) =>
      let t' := {| bct_bus := bct_bus t; bct_phys := bct_phys t; bct_refcount := saturating_add32 (bct_refcount t) 1 |} in
      Done (Ok (bct_phys t), vb_set_tables (<[i := t']> (vb_bus_tables b)) b, s, m)
  | None =>
      '(f, s, m) ← alloc_zeroed_frame s m;
      match f with
      | None => Done (Err VtBusContextAllocFailed, b, s, m)
      | Some phys =>
          if negb (Z.land phys 0xFFF =? 0) then s ← pt_free_frame phys s; Done (Err VtBusContextAllocFailed, b, s, m)
          else Done (Ok phys, vb_set_tables (vb_bus_tables b ++ [{| bct_bus := bus; bct_phys := phys; bct_refcount := 1 |}]) b, s, m)
      end
  end.

Definition release_bus_context_table (bus : Z) (b : VtdBackend) (s : S) : run (result BusContextTableReleaseError unit * VtdBackend * S) :=
  match position (fun t => bct_bus t =? bus) (vb_bus_tables b) with
  | None => Done (Err UnknownBus, b, s)
  | Some (i, t) =>
      if 1 <? bct_refcount t then
        let t' := {| bct_bus := bct_bus t; bct_phys := bct_phys t; bct_refcount := bct_refcount t - 1 |} in
        Done (Ok (), vb_set_tables (<[i := t']> (vb_bus_tables b)) b, s)
      else
        let b := vb_set_tables (swap_remove i (vb_bus_tables b)) b in
        s ← pt_free_frame (bct_phys t) s;
        Done (Ok (), b, s)
  end.
End Frames.

(** ** The live unit *)

(** A 128-bit entry: two words at [base + byte_offset]. *)
Definition write_pair_at (base byte_offset low high : Z) (m : phys_mem) : phys_mem :=
  let pa := wrap64 (base + byte_offset) in
  poke64 (wrap64 (pa + 8)) high (poke64 pa low m).

Definition write_queue_entry (queue slot lo hi : Z) (m : phys_mem) : phys_mem := write_pair_at queue (slot * INV_QUEUE_ENTRY_BYTES) lo hi m.
Definition write_context_entry_at (context byte_offset low high : Z) (m : phys_mem) : phys_mem := write_pair_at context byte_offset low high m.
Definition write_root_entry_at (root byte_offset low high : Z) (m : phys_mem) : phys_mem := write_pair_at root byte_offset low high m.

Section Live.
Context {U : Type} `{MmioUnit U}.

Definition poll_gsts_bit (unit_base bit : Z) (m : phys_mem) (u : U) : bool * U :=
  poll_upto VTD_ACTIVATION_POLL_LIMIT (fun u => let '(gsts, u) := unit_read32 (unit_base + VTD_GSTS) m u in (negb (Z.land gsts bit =? 0), u)) u.

Definition poll_iqh_reaches (unit_base tail_byte_offset : Z) (m : phys_mem) (u : U) : bool * U :=
  poll_upto VTD_ACTIVATION_POLL_LIMIT (fun u => let '(iqh, u) := unit_read64 (unit_base + VTD_IQH) m u in (iqh =? tail_byte_offset, u)) u.

(** The five steps of the activation; the tail is set even when the last drain fails. *)
Definition vtd_activate_hardware (b : VtdBackend) (m : phys_mem) (u : U) : result VtdActivateError unit * VtdBackend * phys_mem * U :=
  if (vb_unit_base b =? 0) || (vb_root_table_phys b =? 0) || (vb_queue_phys b =? 0) then (Err VaNotPrepared, b, m, u) else
  let base := vb_unit_base b in
  let u := unit_write64 (base + VTD_RTADDR) (vb_root_table_phys b) m u in
  let u := unit_write32 (base + VTD_GCMD) GCMD_BIT_SRTP m u in
  let '(ok, u) := poll_gsts_bit base GSTS_BIT_RTPS m u in
  if negb ok then (Err VaRootTableTimeout, b, m, u) else
  let u := unit_write64 (base + VTD_IQA) (encode_iqa (vb_queue_phys b) INV_QUEUE_SIZE_ORDER) m u in
  let u := unit_write64 (base + VTD_IQT) 0 m u in
  let b := vb_set_tail 0 b in
  let u := unit_write32 (base + VTD_GCMD) GCMD_BIT_QIE m u in
  let '(ok, u) := poll_gsts_bit base GSTS_BIT_QIES m u in
  if negb ok then (Err VaQueueEnableTimeout, b, m, u) else
  let '(lo, hi) := encode_iotlb_global_invalidate in
  let m := write_queue_entry (vb_queue_phys b) 0 lo hi m in
  let next_tail := INV_QUEUE_ENTRY_BYTES in
  let u := unit_write64 (base + VTD_IQT) next_tail m u in
  let b := vb_set_tail next_tail b in
  let '(ok, u) := poll_iqh_reaches base next_tail m u in
  if negb ok then (Err VaInvalidationTimeout, b, m, u) else
  (Ok (), vb_set_flags true (vb_translation b) b, m, u).

Definition vtd_enable_translation (b : VtdBackend) (m : phys_mem) (u : U) : result VtdActivateError unit * VtdBackend * U :=
  if negb (vb_activated b) then (Err VaNotPrepared, b, u) else
  if vb_translation b then (Ok (), b, u) else
  let u := unit_write32 (vb_unit_base b + VTD_GCMD) GCMD_BIT_TE m u in
  let '(ok, u) := poll_gsts_bit (vb_unit_base b) GSTS_BIT_TES m u in
  if negb ok then (Err VaTranslationEnableTimeout, b, u) else (Ok (), vb_set_flags (vb_activated b) true b, u).

Definition submit_iq_descriptor (lo hi : Z) (b : VtdBackend) (m : phys_mem) (u : U) : bool * VtdBackend * phys_mem * U :=
  let slot := vb_queue_tail b / INV_QUEUE_ENTRY_BYTES in
  let m := write_queue_entry (vb_queue_phys b) slot lo hi m in
  let next_tail := wrap64 (vb_queue_tail b + INV_QUEUE_ENTRY_BYTES) in
  let next_tail := if INV_QUEUE_BYTES <=? next_tail then 0 else next_tail in
  let u := unit_write64 (vb_unit_base b + VTD_IQT) next_tail m u in
  let b := vb_set_tail next_tail b in
  let '(ok, u) := poll_iqh_reaches (vb_unit_base b) next_tail m u in
  (ok, b, m, u).

Definition vtd_install_device_entry (bdf domain slpt_phys context_table_phys : Z) (width : AddressWidth) (translation : TranslationType)
    (b : VtdBackend) (m : phys_mem) (u : U) : result VtdAttachError unit * VtdBackend * phys_mem * U :=
  if negb (vb_activated b) then (Err VtNotActivated, b, m, u) else
  if negb (Z.land slpt_phys 0xFFF =? 0) || negb (Z.land context_table_phys 0xFFF =? 0) then (Err VtAddressMisaligned, b, m, u) else
  if negb (vtd_has_domain b domain) then (Err VtDomainNotInstalled, b, m, u) else
  if vtd_has_attachment b bdf then (Err VtAlreadyAttached, b, m, u) else
  match encode_context_entry slpt_phys domain translation width with
  | Err _ => (Err VtAddressMisaligned, b, m, u)
  | Ok ce =>
      let m := write_context_entry_at context_table_phys (context_entry_offset bdf) (ce_low ce) (ce_high ce) m in
      match encode_root_entry context_table_phys with
      | Err _ => (Err VtAddressMisaligned, b, m, u)
      | Ok re =>
          let m := write_root_entry_at (vb_root_table_phys b) (root_entry_offset (bdf_bus bdf)) (re_low re) (re_high re) m in
          let '(cc_lo, cc_hi) := encode_context_cache_domain_invalidate domain in
          let '(ok, b, m, u) := submit_iq_descriptor cc_lo cc_hi b m u in
          if negb ok then (Err VtInvalidationTimeout, b, m, u) else
          let '(io_lo, io_hi) := encode_iotlb_domain_invalidate domain in
          let '(ok, b, m, u) := submit_iq_descriptor io_lo io_hi b m u in
          if negb ok then (Err VtInvalidationTimeout, b, m, u) else
          (Ok (), vb_set_attachments (vb_attachments b ++ [{| va_bdf := bdf; va_domain := domain |}]) b, m, u)
      end
  end.

Context {S : Type} `{PtSource S}.

Definition install_device_entry_with_alloc (bdf domain slpt_phys : Z) (width : AddressWidth) (translation : TranslationType)
    (b : VtdBackend) (s : S) (m : phys_mem) (u : U) : run (result VtdAttachError Z * VtdBackend * S * phys_mem * U) :=
  '(r, b, s, m) ← acquire_bus_context_table (bdf_bus bdf) b s m;
  match r with
  | Err e => Done (Err e, b, s, m, u)
  | Ok context_table_phys =>
      let '(r, b, m, u) := vtd_install_device_entry bdf domain slpt_phys context_table_phys width translation b m u in
      match r with
      | Ok _ => Done (Ok context_table_phys, b, s, m, u)
      | Err e => '(_, b, s) ← release_bus_context_table (bdf_bus bdf) b s; Done (Err e, b, s, m, u)
      end
  end.

Definition release_device_entry_with_alloc (bdf : Z) (b : VtdBackend) (s : S) (m : phys_mem) (u : U) : run (result BusContextTableReleaseError unit * VtdBackend * S * phys_mem * U) :=
  match position (fun a => va_bdf a =? bdf) (vb_attachments b) with
  | None => Done (Err UnknownBus, b, s, m, u)
  | Some (i, attachment) =>
      let b := vb_set_attachments (swap_remove i (vb_attachments b)) b in
      match bus_context_table_phys b (bdf_bus bdf) with
      | None => Done (Err UnknownBus, b, s, m, u)
      | Some context_table_phys =>
          let absent := encode_context_entry_absent in
          let m := write_context_entry_at context_table_phys (context_entry_offset bdf) (ce_low absent) (ce_high absent) m in
          let '(cc_lo, cc_hi) := encode_context_cache_domain_invalidate (va_domain attachment) in
          let '(_, b, m, u) := submit_iq_descriptor cc_lo cc_hi b m u in
          let '(io_lo, io_hi) := encode_iotlb_domain_invalidate (va_domain attachment) in
          let '(_, b, m, u) := submit_iq_descriptor io_lo io_hi b m u in
          let refcount_after := match bus_context_table_refcount b (bdf_bus bdf) with Some c => saturating_sub c 1 | None => 0 end in
          let root_absent := encode_root_entry_absent in
          let m := if refcount_after =? 0 then write_root_entry_at (vb_root_table_phys b) (root_entry_offset (bdf_bus bdf)) (re_low root_absent) (re_high root_absent) m else m in
          '(r, b, s) ← release_bus_context_table (bdf_bus bdf) b s;
          Done (r, b, s, m, u)
      end
  end.
End Live.

(** ** The trait's operations *)

Definition vtd_install_domain (id : Z) (b : VtdBackend) : result IommuError unit * VtdBackend :=
  (Ok (), if negb (vtd_has_domain b id) then vb_set_domains (vb_domains b ++ [id]) b else b).

Definition vtd_map (id iova phys len flags : Z) (b : VtdBackend) : result IommuError unit * VtdBackend :=
  if negb (vtd_has_domain b id) then (Err IeInvalidDomain, b) else
  if negb (Z.land iova 0xFFF =? 0) || negb (Z.land phys 0xFFF =? 0) || negb (Z.land len 0xFFF =? 0) || (len =? 0) then (Err IeAddressMisaligned, b) else
  match encode_slpte phys flags with
  | Err e => (Err (vtd_error_to_iommu e), b)
  | Ok leaf => (Ok (), vb_set_mappings (vb_mappings b ++ [{| vm_domain := id; vm_iova := iova; vm_phys := phys; vm_len := len; vm_leaf_slpte := leaf |}]) b)
  end.

Definition vtd_unmap (id iova len : Z) (b : VtdBackend) : result IommuError unit * VtdBackend :=
  if negb (vtd_has_domain b id) then (Err IeInvalidDomain, b) else
  if negb (Z.land iova 0xFFF =? 0) || negb (Z.land len 0xFFF =? 0) || (len =? 0) then (Err IeAddressMisaligned, b) else
  let kept := List.filter (fun x => negb ((vm_domain x =? id) && (vm_iova x =? iova) && (vm_len x =? len))) (vb_mappings b) in
  let b' := vb_set_mappings kept b in
  if Nat.eqb (length kept) (length (vb_mappings b)) then (Err IeUnmapFailed, b') else (Ok (), b').

Definition vtd_flush (id : Z) (b : VtdBackend) : result IommuError unit * VtdBackend :=
  if negb (vtd_has_domain b id) then (Err IeInvalidDomain, b) else (Ok (), b).

Definition vtd_attach_device (bdf domain : Z) (b : VtdBackend) : result IommuError unit * VtdBackend :=
  if negb (vtd_has_domain b domain) then (Err IeInvalidDomain, b) else
  if vtd_has_attachment b bdf then (Err IeUnsupported, b) else
  (Ok (), vb_set_attachments (vb_attachments b ++ [{| va_bdf := bdf; va_domain := domain |}]) b).

Definition vtd_detach_device (bdf : Z) (b : VtdBackend) : result IommuError unit * VtdBackend :=
  let kept := List.filter (fun a => negb (va_bdf a =? bdf)) (vb_attachments b) in
  let b' := vb_set_attachments kept b in
  if Nat.eqb (length kept) (length (vb_attachments b)) then (Err IeUnsupported, b') else (Ok (), b').

#[global] Instance vtd_backend : IommuBackend VtdBackend := {|
  iommu_install_domain := vtd_install_domain;
  iommu_map := vtd_map;
  iommu_unmap := vtd_unmap;
  iommu_flush := vtd_flush;
|}.
#[global] Instance vtd_devices : IommuDevices VtdBackend := {|
  backend_vendor := fun _ => VIntel;
  iommu_attach := vtd_attach_device;
  iommu_detach := vtd_detach_device;
|}.

(** ** What the encoders write and the unit reads *)

Lemma encode_root_spec f : is_u64 f -> f mod 4096 = 0 -> exists e, encode_root_entry f = Ok e /\ root_is_present e = true /\ context_table_pointer e = f /\ re_high e = 0.
Proof.
  intros Hf Ha. unfold encode_root_entry. rewrite land_page, Ha. cbn [negb Z.eqb]. eexists. split; [reflexivity|].
  destruct (frame_word f 1 Hf Ha ltac:(lia)) as (E & E1 & E2). unfold root_is_present, context_table_pointer. cbn [re_low re_high]. rewrite E, land_1.
  split; [|done]. apply Z.mod_divide in Ha as [k ->]; [|lia]. replace (k * 4096 + 1) with (1 + k * 2048 * 2) by lia. by rewrite Z.mod_add.
Qed.

Lemma encode_context_spec f d t w : is_u64 f -> f mod 4096 = 0 -> is_u16 d ->
  exists e, encode_context_entry f d t w = Ok e /\ ctx_is_present e = true /\ slptptr e = f /\ ctx_domain_id e = d /\
    translation_type_raw e = translation_as_u8 t /\ address_width_raw e = width_as_u8 w.
Proof.
  intros Hf Ha Hd. unfold encode_context_entry. rewrite land_page, Ha. cbn [negb Z.eqb]. eexists. split; [reflexivity|].
  assert (Z.land f (not64 0xFFF) = f) as Ef by (destruct (frame_word f 0 Hf Ha ltac:(lia)) as (_ & E & _); by rewrite Z.add_0_r in E).
  set (tt := translation_as_u8 t). assert (0 <= tt < 3) as Ht by (unfold tt; destruct t; cbn; lia).
  assert (Z.land tt 3 = tt) as Et by (unfold tt; by destruct t). set (ww := width_as_u8 w). assert (0 <= ww < 4) as Hw by (unfold ww; destruct w; cbn; lia).
  assert (Z.land ww 7 = ww) as Ew by (unfold ww; by destruct w).
  unfold ctx_is_present, slptptr, ctx_domain_id, translation_type_raw, address_width_raw. cbn [ce_low ce_high]. rewrite Ef, Et, Ew, <- Z.lor_assoc, !Z.shiftl_mul_pow2 by lia.
  rewrite (lor_add (tt * 2 ^ 2) 1 2) by (rewrite ?Z.mod_mul; lia). rewrite (Z.lor_comm ww). rewrite (lor_add (d * 2 ^ 8) ww 8) by (rewrite ?Z.mod_mul; lia).
  change (2 ^ 2) with 4. change (2 ^ 8) with 256. destruct (frame_word f (tt * 4 + 1) Hf Ha ltac:(lia)) as (E & E1 & E2). rewrite E, E1, land_1, !Z.shiftr_div_pow2 by lia.
  apply Z.mod_divide in Ha as [k ->]; [|lia]. change 3 with (2 ^ 2 - 1). change 7 with (2 ^ 3 - 1). change 0xFFFF with (2 ^ 16 - 1). rewrite !land_ones_mod by lia. split_and!.
  - replace (k * 4096 + (tt * 4 + 1)) with (1 + (k * 2048 + tt * 2) * 2) by lia. by rewrite Z.mod_add.
  - done.
  - change (2 ^ 8) with 256. rewrite Z.div_add_l, (Z.div_small ww), Z.add_0_r by lia. apply Z.mod_small. unfold is_u16 in Hd. lia.
  - change (2 ^ 2) with 4. replace (k * 4096 + (tt * 4 + 1)) with (1 + (k * 1024 + tt) * 4) by lia. rewrite Z.div_add by lia. cbn [Z.div]. rewrite Z.add_0_l.
    replace (k * 1024 + tt) with (tt + k * 256 * 4) by lia. rewrite Z.mod_add, Z.mod_small by lia. done.
  - replace (d * 256 + ww) with (ww + d * 32 * 2 ^ 3) by lia. rewrite Z.mod_add, Z.mod_small by lia. done.
Qed.

Lemma write_pair_page f off lo hi m : f mod 4096 = 0 -> 0 <= f < 2 ^ 52 -> 0 <= off <= 4080 ->
  write_pair_at f off lo hi m = set_entry f ((off + 8) / 8) hi (set_entry f (off / 8) lo m).
Proof.
  intros Ha Hf Ho. unfold write_pair_at, poke64, wrap64. rewrite (Z.mod_small (f + off)), (Z.mod_small (f + off + 8)) by lia.
  assert (forall x, 0 <= x < 4096 -> (f + x) mod 4096 = x) as Hm by (intros x Hx; rewrite Z.add_mod, Ha, Z.add_0_l, Z.mod_mod, Z.mod_small by lia; done).
  replace (f + off + 8) with (f + (off + 8)) by lia. rewrite !Hm by lia. f_equal; [lia|f_equal; lia].
Qed.

(** ** The unit's side

    The walk of the tables for a device, and the contract of the unit as the
    comments of vtd.rs cite it from the specification: the commands latch what
    was programmed, descriptors are consumed in order, a context-cache
    invalidation evicts the cached entries of its domain (of every domain when
    global), an IOTLB invalidation the cached translations of its domain, and
    while translation is on the unit may cache any entry the tables hold and
    any translation it can make through the tables or a cached entry.  A write
    of the command register leaves what its bits do not name as it was: the
    comment of [enable_translation] relies on it, and see the last section. *)

(** The context entry of a slot of a context table. *)
Definition ctx_at (m : phys_mem) (table devfn : Z) : option (Z * Z) :=
  let e := {| ce_low := entry m table (2 * devfn); ce_high := entry m table (2 * devfn + 1) |} in
  if ctx_is_present e then Some (ctx_domain_id e, slptptr e) else None.

Definition root_at (m : phys_mem) (root bus : Z) : option Z :=
  let e := {| re_low := entry m root (2 * bus); re_high := entry m root (2 * bus + 1) |} in
  if root_is_present e then Some (context_table_pointer e) else None.

(** Domain and page-table root the hardware uses for a device. *)
Definition ctx_walk (m : phys_mem) (root bdf : Z) : option (Z * Z) := t ← root_at m root (bdf_bus bdf); ctx_at m t (bdf_devfn bdf).

(** A descriptor evicts a cached entry. *)
Definition evicts (lo : Z) (e : Z * Z) : bool :=
  (Z.land lo 0xF =? INV_DESC_TYPE_CONTEXT_CACHE) &&
  ((Z.land lo 0x30 =? INV_DESC_CTX_GRAN_GLOBAL) || (Z.land lo 0x30 =? INV_DESC_CTX_GRAN_DOMAIN) && (Z.land (Z.shiftr lo 16) 0xFFFF =? fst e)).

(** A descriptor evicts the cached translations of a domain. *)
Definition tlb_evicts (lo d : Z) : bool :=
  (Z.land lo 0xF =? INV_DESC_TYPE_IOTLB) &&
  ((Z.land lo 0x30 =? INV_DESC_IOTLB_GRAN_GLOBAL) || (Z.land lo 0x30 =? INV_DESC_IOTLB_GRAN_DOMAIN) && (Z.land (Z.shiftr lo 16) 0xFFFF =? d)).

Record UnitView := { uv_rtaddr : Z; uv_root : Z; uv_iqa : Z; uv_qi : bool; uv_te : bool; uv_head : Z }.

Definition iq_next (t : Z) : Z := if INV_QUEUE_BYTES <=? t + INV_QUEUE_ENTRY_BYTES then 0 else t + INV_QUEUE_ENTRY_BYTES.
Definition slot_ok (t : Z) : Prop := 0 <= t < INV_QUEUE_BYTES /\ t mod INV_QUEUE_ENTRY_BYTES = 0.

Class VtdUnitLaws (U : Type) `{MmioUnit U} (base : Z) := {
  unit_view : U -> UnitView;
  unit_cached : U -> Z -> option (Z * Z);
  unit_tlb : U -> Z -> option Z;
  law_rtaddr : forall v m u, uv_te (unit_view u) = false ->
    let u' := unit_write64 (base + VTD_RTADDR) v m u in
    unit_view u' = {| uv_rtaddr := v; uv_root := uv_root (unit_view u); uv_iqa := uv_iqa (unit_view u); uv_qi := uv_qi (unit_view u); uv_te := false; uv_head := uv_head (unit_view u) |} /\ unit_cached u' = unit_cached u /\ unit_tlb u' = unit_tlb u;
  law_srtp : forall m u, uv_te (unit_view u) = false ->
    exists u', poll_gsts_bit base GSTS_BIT_RTPS m (unit_write32 (base + VTD_GCMD) GCMD_BIT_SRTP m u) = (true, u') /\
      unit_view u' = {| uv_rtaddr := uv_rtaddr (unit_view u); uv_root := uv_rtaddr (unit_view u); uv_iqa := uv_iqa (unit_view u); uv_qi := uv_qi (unit_view u); uv_te := false; uv_head := uv_head (unit_view u) |} /\ unit_cached u' = unit_cached u /\ unit_tlb u' = unit_tlb u;
  law_iqa : forall v m u, uv_te (unit_view u) = false -> uv_qi (unit_view u) = false ->
    let u' := unit_write64 (base + VTD_IQT) 0 m (unit_write64 (base + VTD_IQA) v m u) in
    unit_view u' = {| uv_rtaddr := uv_rtaddr (unit_view u); uv_root := uv_root (unit_view u); uv_iqa := v; uv_qi := false; uv_te := false; uv_head := uv_head (unit_view u) |} /\ unit_cached u' = unit_cached u /\ unit_tlb u' = unit_tlb u;
  law_qie : forall m u, uv_te (unit_view u) = false -> uv_qi (unit_view u) = false ->
    exists u', poll_gsts_bit base GSTS_BIT_QIES m (unit_write32 (base + VTD_GCMD) GCMD_BIT_QIE m u) = (true, u') /\
      unit_view u' = {| uv_rtaddr := uv_rtaddr (unit_view u); uv_root := uv_root (unit_view u); uv_iqa := uv_iqa (unit_view u); uv_qi := true; uv_te := false; uv_head := 0 |} /\ unit_cached u' = unit_cached u /\ unit_tlb u' = unit_tlb u;
  law_drain : forall m u t, uv_qi (unit_view u) = true -> uv_head (unit_view u) = t -> slot_ok t ->
    let t' := iq_next t in
    let q := Z.land (uv_iqa (unit_view u)) 0x000FFFFFFFFFF000 in
    exists u', poll_iqh_reaches base t' m (unit_write64 (base + VTD_IQT) t' m u) = (true, u') /\
      unit_view u' = {| uv_rtaddr := uv_rtaddr (unit_view u); uv_root := uv_root (unit_view u); uv_iqa := uv_iqa (unit_view u); uv_qi := true; uv_te := uv_te (unit_view u); uv_head := t' |} /\
      (forall b e, unit_cached u' b = Some e ->
        (uv_te (unit_view u) = true /\ ctx_walk m (uv_root (unit_view u)) b = Some e) \/ (unit_cached u b = Some e /\ evicts (entry m q (t / 8)) e = false)) /\
      forall b d, unit_tlb u' b = Some d ->
        (uv_te (unit_view u) = true /\ exists f, ctx_walk m (uv_root (unit_view u)) b = Some (d, f) \/ unit_cached u b = Some (d, f)) \/ (unit_tlb u b = Some d /\ tlb_evicts (entry m q (t / 8)) d = false);
  law_te : forall m u, exists u', poll_gsts_bit base GSTS_BIT_TES m (unit_write32 (base + VTD_GCMD) GCMD_BIT_TE m u) = (true, u') /\
      unit_view u' = {| uv_rtaddr := uv_rtaddr (unit_view u); uv_root := uv_root (unit_view u); uv_iqa := uv_iqa (unit_view u); uv_qi := uv_qi (unit_view u); uv_te := true; uv_head := uv_head (unit_view u) |} /\
      (forall b e, unit_cached u' b = Some e -> ctx_walk m (uv_root (unit_view u)) b = Some e \/ unit_cached u b = Some e) /\
      forall b d, unit_tlb u' b = Some d -> (exists f, ctx_walk m (uv_root (unit_view u)) b = Some (d, f) \/ unit_cached u b = Some (d, f)) \/ unit_tlb u b = Some d;
}.

(** ** The invariant

    [bound] is the abstract state: the devices that have an entry, with their
    domain and page-table root. *)

Definition on_bus (bus : Z) (a : VtdAttachment) : Prop := bdf_bus (va_bdf a) = bus.
#[global] Instance on_bus_dec bus a : Decision (on_bus bus a).
Proof. unfold on_bus. apply _. Defined.
Definition bus_count (bus : Z) (l : list VtdAttachment) : Z := Z.of_nat (length (filter (on_bus bus) l)).

Record vtd_params (av0 : Z -> Prop) (base root queue : Z) : Prop := {
  vp_root : root mod 4096 = 0 /\ 0 < root < 2 ^ 52;
  vp_queue : queue mod 4096 = 0 /\ 0 < queue < 2 ^ 52;
  vp_base : base <> 0;
  vp_ne : root <> queue;
  vp_free : ~ av0 root /\ ~ av0 queue;
}.

(** Buses with their context tables. *)
Definition tabs_of (l : list BusContextTable) : list (Z * Z) := map (fun t => (bct_bus t, bct_phys t)) l.

(** The tables in memory hold exactly the bound devices. *)
Record bus_tables_ok (m : phys_mem) (root : Z) (tabs : list (Z * Z)) (bound : gmap Z (Z * Z)) : Prop := {
  to_nodup : NoDup tabs.*1;
  to_bus : forall bus f, (bus, f) ∈ tabs -> 0 <= bus < 256;
  to_root : forall bus f, 0 <= bus < 256 -> root_at m root bus = Some f <-> (bus, f) ∈ tabs;
  to_ctx : forall b f, is_u16 b -> (bdf_bus b, f) ∈ tabs -> ctx_at m f (bdf_devfn b) = bound !! b;
  to_bound : forall b e, bound !! b = Some e -> is_u16 b /\ exists f, (bdf_bus b, f) ∈ tabs;
}.

(** Every table counts the devices of its bus; during an operation the table
    of one bus, [pend], is counted once more. *)
Record counts_ok (pend : option Z) (tables : list BusContextTable) (atts : list VtdAttachment) (bound : gmap Z (Z * Z)) : Prop := {
  co_ref : forall t, t ∈ tables -> bct_refcount t = bus_count (bct_bus t) atts + (if decide (pend = Some (bct_bus t)) then 1 else 0) /\ 0 < bct_refcount t;
  co_nodup : NoDup (map va_bdf atts);
  co_bound : forall b d, {| va_bdf := b; va_domain := d |} ∈ atts <-> exists f, bound !! b = Some (d, f);
}.

Section Inv.
Context {U S : Type} {base : Z} `{VtdUnitLaws U base} `{PtSourceLaws S}.

(** [tb] bounds the cached translations; it is [bound] except between the two
    invalidations of a release. *)
Record unit_ok (root queue tail : Z) (te : bool) (bound tb : gmap Z (Z * Z)) (u : U) : Prop := {
  uo_root : uv_root (unit_view u) = root;
  uo_iqa : uv_iqa (unit_view u) = encode_iqa queue INV_QUEUE_SIZE_ORDER;
  uo_qi : uv_qi (unit_view u) = true;
  uo_head : uv_head (unit_view u) = tail;
  uo_slot : slot_ok tail;
  uo_te : uv_te (unit_view u) = te;
  uo_cached : forall b e, is_u16 b -> unit_cached u b = Some e -> bound !! b = Some e;
  uo_tlb : forall b d, is_u16 b -> unit_tlb u b = Some d -> exists f, tb !! b = Some (d, f);
}.

Record vtd_inv (av0 : Z -> Prop) (root queue : Z) (bound : gmap Z (Z * Z)) (b : VtdBackend) (s : S) (m : phys_mem) (u : U) : Prop := {
  vi_base : vb_unit_base b = base /\ vb_root_table_phys b = root /\ vb_queue_phys b = queue;
  vi_act : vb_activated b = true;
  vi_unit : unit_ok root queue (vb_queue_tail b) (vb_translation b) bound bound u;
  vi_tables : bus_tables_ok m root (tabs_of (vb_bus_tables b)) bound;
  vi_counts : counts_ok None (vb_bus_tables b) (vb_attachments b) bound;
  vi_pts : pts_ok (vb_domain_pts b);
  vi_domains : forall x d f, bound !! x = Some (d, f) -> is_u16 d;
  vi_ledger : ledger av0 s (pts_held (vb_domain_pts b) ++ map bct_phys (vb_bus_tables b));
}.
End Inv.

(** ** Reading the tables after a write *)

Lemma root_at_ext m m' root bus : (forall i, entry m' root i = entry m root i) -> root_at m' root bus = root_at m root bus.
Proof. intros E. unfold root_at. by rewrite !E. Qed.

Lemma ctx_at_ext m m' t d : (forall i, entry m' t i = entry m t i) -> ctx_at m' t d = ctx_at m t d.
Proof. intros E. unfold ctx_at. by rewrite !E. Qed.

(** A 128-bit write at slot [k] of page [f]: slot [k] is the pair written, everything else is as before. *)
Lemma write_slot f k lo hi m : f mod 4096 = 0 -> 0 <= f < 2 ^ 52 -> 0 <= k < 256 ->
  let m' := write_pair_at f (k * 16) lo hi m in
  entry m' f (2 * k) = lo /\ entry m' f (2 * k + 1) = hi /\
  (forall x i, x <> f -> entry m' x i = entry m x i) /\ forall j, j <> k -> entry m' f (2 * j) = entry m f (2 * j) /\ entry m' f (2 * j + 1) = entry m f (2 * j + 1).
Proof.
  intros Ha Hf Hk m'. unfold m'. rewrite write_pair_page by (done || lia).
  replace (k * 16 / 8) with (2 * k) by (replace (k * 16) with (2 * k * 8) by lia; by rewrite Z.div_mul).
  replace ((k * 16 + 8) / 8) with (2 * k + 1) by (replace (k * 16 + 8) with ((2 * k + 1) * 8) by lia; by rewrite Z.div_mul).
  split_and!; intros; rewrite ?entry_set, ?Z.eqb_refl; try (split; rewrite ?entry_set, ?Z.eqb_refl);
    repeat match goal with |- context [?a =? ?b] => destruct (Z.eqb_spec a b); try lia end; done.
Qed.

Lemma ctx_write f d m e o : f mod 4096 = 0 -> 0 <= f < 2 ^ 52 -> 0 <= d < 256 ->
  (if ctx_is_present e then Some (ctx_domain_id e, slptptr e) else None) = o ->
  ctx_at (write_context_entry_at f (d * 16) (ce_low e) (ce_high e) m) f d = o /\
  forall x d', (x, d') <> (f, d) -> ctx_at (write_context_entry_at f (d * 16) (ce_low e) (ce_high e) m) x d' = ctx_at m x d'.
Proof.
  intros Ha Hf Hd Ho. unfold write_context_entry_at. destruct (write_slot f d (ce_low e) (ce_high e) m Ha Hf Hd) as (E1 & E2 & Ex & Ek). split.
  - unfold ctx_at. rewrite E1, E2. destruct e. done.
  - intros x d' Hne. destruct (decide (x = f)) as [->|Hx]; [|apply ctx_at_ext; intros i; by apply Ex]. unfold ctx_at. destruct (Ek d') as [-> ->]; [congruence|done].
Qed.

Lemma root_write f k m e o : f mod 4096 = 0 -> 0 <= f < 2 ^ 52 -> 0 <= k < 256 ->
  (if root_is_present e then Some (context_table_pointer e) else None) = o ->
  root_at (write_root_entry_at f (k * 16) (re_low e) (re_high e) m) f k = o /\
  forall k', k' <> k -> root_at (write_root_entry_at f (k * 16) (re_low e) (re_high e) m) f k' = root_at m f k'.
Proof.
  intros Ha Hf Hd Ho. unfold write_root_entry_at. destruct (write_slot f k (re_low e) (re_high e) m Ha Hf Hd) as (E1 & E2 & Ex & Ek). split.
  - unfold root_at. rewrite E1, E2. destruct e. done.
  - intros k' Hne. unfold root_at. by destruct (Ek k') as [-> ->].
Qed.

(** ** Tables and counts under the operations' steps *)

Lemma tables_perm m root tabs tabs' bound : tabs ≡ₚ tabs' -> bus_tables_ok m root tabs bound -> bus_tables_ok m root tabs' bound.
Proof.
  intros Hp [H1 H2 H3 H4 H5]. split; [by rewrite <- Hp| | | |]; setoid_rewrite <- Hp; done.
Qed.

Lemma tables_walk m root tabs bound b : bus_tables_ok m root tabs bound -> is_u16 b -> ctx_walk m root b = bound !! b.
Proof.
  intros Ht Hb. destruct (bdf_split b Hb) as (_ & Hbus & _). unfold ctx_walk. destruct (root_at m root (bdf_bus b)) as [f|] eqn:E; cbn.
  - apply (to_root _ _ _ _ Ht) in E; [|done]. by apply (to_ctx _ _ _ _ Ht).
  - destruct (bound !! b) as [e|] eqn:Eb; [|done]. destruct (to_bound _ _ _ _ Ht b e Eb) as (_ & f & Hin). apply (to_root _ _ _ _ Ht) in Hin; [congruence|done].
Qed.

Lemma tables_frame m m' root tabs bound (P : Z -> Prop) : bus_tables_ok m root tabs bound -> (forall x i, ~ P x -> entry m' x i = entry m x i) ->
  ~ P root -> (forall bus f, (bus, f) ∈ tabs -> ~ P f) -> bus_tables_ok m' root tabs bound.
Proof.
  intros [H1 H2 H3 H4 H5] He Hr Hf. split; [done|done| | |done].
  - intros bus f Hb. rewrite (root_at_ext m) by (intros; by apply He). by apply H3.
  - intros b f Hb Hin. rewrite (ctx_at_ext m) by (intros; apply He; by eapply Hf). by apply H4.
Qed.

Lemma tabs_phys tables : map snd (tabs_of tables) = map bct_phys tables.
Proof. unfold tabs_of. rewrite map_map. done. Qed.

Lemma tabs_in tables bus f : (bus, f) ∈ tabs_of tables <-> exists t, t ∈ tables /\ bct_bus t = bus /\ bct_phys t = f.
Proof.
  unfold tabs_of. rewrite list_elem_of_fmap. split; [intros (t & [= -> ->] & Ht); by exists t|intros (t & Ht & <- & <-); by exists t].
Qed.

Lemma tabs_phys_in tables bus f : (bus, f) ∈ tabs_of tables -> f ∈ map bct_phys tables.
Proof. rewrite tabs_in. intros (t & Ht & _ & <-). by apply list_elem_of_fmap_2. Qed.

Lemma tabs_inj tables b1 b2 f : NoDup (map bct_phys tables) -> (b1, f) ∈ tabs_of tables -> (b2, f) ∈ tabs_of tables -> b1 = b2.
Proof.
  rewrite <- tabs_phys. generalize (tabs_of tables). intros l. induction l as [|[b g] l IH]; cbn; [by intros _ ?%elem_of_nil|].
  intros [Hn Hd]%NoDup_cons [[= -> ->]|Hi]%elem_of_cons [[= ->]|Hj]%elem_of_cons; [done| | |by apply IH].
  - destruct Hn. apply list_elem_of_fmap. by exists (b2, g).
  - subst. destruct Hn. apply list_elem_of_fmap. by exists (b1, g).
Qed.

(** The table found for a bus. *)
Lemma find_table tables bus i t : position (fun t => bct_bus t =? bus) tables = Some (i, t) -> tables !! i = Some t /\ bct_bus t = bus /\ t ∈ tables.
Proof. intros E. apply position_some in E as [Hi Hb]. apply Z.eqb_eq in Hb. split; [done|]. split; [done|]. by eapply list_elem_of_lookup_2. Qed.

Lemma find_table_none tables bus : position (fun t => bct_bus t =? bus) tables = None -> forall f, (bus, f) ∉ tabs_of tables.
Proof.
  intros E f (t & Ht & Hb & _)%tabs_in. apply position_none in E. apply not_true_iff_false in E. apply E, existsb_exists. exists t. split; [by apply list_elem_of_In|]. by apply Z.eqb_eq.
Qed.

Lemma find_table_some tables bus f : NoDup (tabs_of tables).*1 -> (bus, f) ∈ tabs_of tables -> exists i t, position (fun t => bct_bus t =? bus) tables = Some (i, t) /\ bct_phys t = f.
Proof.
  intros Hn Hin. destruct (position _ tables) as [[i t]|] eqn:E; [|by destruct (find_table_none _ _ E f)]. exists i, t. split; [done|].
  apply find_table in E as (_ & Hb & Ht). assert ((bus, bct_phys t) ∈ tabs_of tables) as Hin' by (apply tabs_in; by exists t).
  revert Hn Hin Hin'. generalize (tabs_of tables). intros l. induction l as [|[b g] l IH]; cbn; [by intros _ ?%elem_of_nil|].
  intros [Hx Hd]%NoDup_cons [[= -> ->]|Hi]%elem_of_cons [[= ->]|Hj]%elem_of_cons; [done| | |by apply IH].
  - destruct Hx. apply list_elem_of_fmap. eexists (_, _). split; [|exact Hj]. done.
  - subst. destruct Hx. apply list_elem_of_fmap. eexists (_, _). split; [|exact Hi]. done.
Qed.

(** Replacing a table by one of the same bus and frame. *)
Lemma tabs_replace tables i t t' : tables !! i = Some t -> bct_bus t' = bct_bus t -> bct_phys t' = bct_phys t ->
  tabs_of (<[i := t']> tables) = tabs_of tables /\ map bct_phys (<[i := t']> tables) = map bct_phys tables.
Proof.
  intros Hi Hb Hf. assert (tabs_of (<[i := t']> tables) = tabs_of tables) as E.
  { unfold tabs_of. change (map ?g ?l) with (g <$> l). rewrite list_fmap_insert, Hb, Hf. apply list_insert_id. by rewrite list_lookup_fmap, Hi. }
  split; [done|]. by rewrite <- !tabs_phys, E.
Qed.

Lemma bus_count_app bus l a : bus_count bus (l ++ [a]) = bus_count bus l + (if decide (on_bus bus a) then 1 else 0).
Proof. unfold bus_count. rewrite filter_app, length_app, filter_cons, filter_nil. destruct (decide (on_bus bus a)); cbn; lia. Qed.

Lemma bus_count_cons bus l a : bus_count bus (a :: l) = bus_count bus l + (if decide (on_bus bus a) then 1 else 0).
Proof. unfold bus_count. rewrite filter_cons. destruct (decide (on_bus bus a)); cbn [length]; lia. Qed.

Lemma bus_count_perm bus l l' : l ≡ₚ l' -> bus_count bus l = bus_count bus l'.
Proof. intros Hp. unfold bus_count. by rewrite Hp. Qed.

Lemma bus_count_bound pend tables atts bound bus : counts_ok pend tables atts bound -> (forall b e, bound !! b = Some e -> is_u16 b) -> bus_count bus atts <= 65536.
Proof.
  intros [_ Hn Hb] Hu. unfold bus_count. assert (length (filter (on_bus bus) atts) <= length atts)%nat by apply length_filter.
  assert (length (map va_bdf atts) <= length (seqZ 0 65536))%nat as Hl.
  { apply NoDup_incl_length; [by apply NoDup_ListNoDup|]. intros x Hx. apply list_elem_of_In in Hx. apply list_elem_of_fmap in Hx as ([b d] & -> & Ha). apply list_elem_of_In, elem_of_seqZ.
    apply Hb in Ha as (f & Hf). apply Hu in Hf. unfold is_u16 in Hf. cbn. lia. }
  rewrite length_map, length_seqZ in Hl. lia.
Qed.

Lemma bus_count_zero atts bus b d : bus_count bus atts = 0 -> {| va_bdf := b; va_domain := d |} ∈ atts -> bdf_bus b <> bus.
Proof.
  unfold bus_count. intros Hc Hin Hb. assert ({| va_bdf := b; va_domain := d |} ∈ filter (on_bus bus) atts) as Hf by (by apply list_elem_of_filter).
  destruct (filter (on_bus bus) atts); [by apply elem_of_nil in Hf|cbn in Hc; lia].
Qed.

Lemma iqa_queue q : q mod 4096 = 0 -> 0 <= q < 2 ^ 52 -> Z.land (encode_iqa q INV_QUEUE_SIZE_ORDER) 0x000FFFFFFFFFF000 = q.
Proof.
  intros Ha Hq. unfold encode_iqa, INV_QUEUE_SIZE_ORDER. cbn [Z.land]. rewrite Z.lor_0_r, <- Z.land_assoc, Z.land_diag.
  change 0x000FFFFFFFFFF000 with (Z.shiftl (2 ^ 40 - 1) 12). apply Z.mod_divide in Ha as [k ->]; [|lia].
  change 4096 with (2 ^ 12) in *. rewrite <- Z.shiftl_mul_pow2 by lia. rewrite <- Z.shiftl_land, land_ones_mod by lia. rewrite Z.mod_small by lia. done.
Qed.

Lemma testbit_high_1 n : 1 <= n -> Z.testbit 1 n = false.
Proof. intros Hn. apply (Z.bits_above_log2 1 n); [lia|]. change (Z.log2 1) with 0. lia. Qed.

Lemma next_slot_ok t : slot_ok t -> slot_ok (iq_next t).
Proof.
  unfold slot_ok, iq_next. change INV_QUEUE_BYTES with 4096. change INV_QUEUE_ENTRY_BYTES with 16. intros [Hr Hm]. destruct (Z.leb_spec 4096 (t + 16)); [done|]. split; [lia|].
  rewrite Z.add_mod, Hm by lia. done.
Qed.

(** The fields of a descriptor for one domain. *)
Lemma domain_desc_fields d k : is_u16 d -> 0 <= k < 16 -> let lo := Z.lor (32 + k) (Z.shiftl d 16) in
  Z.land lo 0xF = k /\ Z.land lo 0x30 = 32 /\ Z.land (Z.shiftr lo 16) 0xFFFF = d.
Proof.
  intros Hd Hk lo. unfold is_u16 in Hd. assert (lo = d * 65536 + (32 + k)) as E by (unfold lo; rewrite Z.shiftl_mul_pow2, Z.lor_comm by lia; rewrite (lor_add (d * 2 ^ 16) (32 + k) 16) by (rewrite ?Z.mod_mul; lia); lia).
  rewrite E. split; [|split].
  - change 0xF with (2 ^ 4 - 1). rewrite land_ones_mod by lia. change (2 ^ 4) with 16. replace (d * 65536 + (32 + k)) with (k + (d * 4096 + 2) * 16) by lia. rewrite Z.mod_add, Z.mod_small; lia.
  - change 0x30 with (Z.shiftl (2 ^ 2 - 1) 4). rewrite land_field by lia. change (2 ^ 4) with 16. change (2 ^ 2) with 4. replace (d * 65536 + (32 + k)) with (k + (d * 4096 + 2) * 16) by lia.
    rewrite Z.div_add, (Z.div_small k) by lia. replace (0 + (d * 4096 + 2)) with (2 + d * 1024 * 4) by lia. rewrite Z.mod_add by lia. done.
  - rewrite Z.shiftr_div_pow2 by lia. change (2 ^ 16) with 65536. rewrite Z.div_add_l, (Z.div_small (32 + k)), Z.add_0_r by lia. change 0xFFFF with (2 ^ 16 - 1). rewrite land_ones_mod, Z.mod_small by lia. done.
Qed.

Lemma evicts_domain d e : is_u16 d -> fst e = d -> evicts (fst (encode_context_cache_domain_invalidate d)) e = true.
Proof.
  intros Hd <-. destruct (domain_desc_fields (fst e) 1 Hd ltac:(lia)) as (H1 & H2 & H3). unfold evicts, encode_context_cache_domain_invalidate. cbn [fst].
  change (Z.lor INV_DESC_TYPE_CONTEXT_CACHE INV_DESC_CTX_GRAN_DOMAIN) with (32 + 1). cbv zeta. rewrite H1, H2, H3, (Z.eqb_refl (fst e)). done.
Qed.

Lemma tlb_evicts_domain d : is_u16 d -> tlb_evicts (fst (encode_iotlb_domain_invalidate d)) d = true.
Proof.
  intros Hd. destruct (domain_desc_fields d 2 Hd ltac:(lia)) as (H1 & H2 & H3). unfold tlb_evicts, encode_iotlb_domain_invalidate. cbn [fst].
  change (Z.lor INV_DESC_TYPE_IOTLB INV_DESC_IOTLB_GRAN_DOMAIN) with (32 + 2). cbv zeta. rewrite H1, H2, H3, (Z.eqb_refl d). done.
Qed.

Section Ops.
Context {U S : Type} {base : Z} `{VtdUnitLaws U base} `{PtSourceLaws S}.
Context (av0 : Z -> Prop) (root queue : Z) (Hparams : vtd_params av0 base root queue).

(** One descriptor: the queue page changes, and the unit has dropped what it evicts. *)
Lemma submit_spec lo hi b m u te tabs bound bound' tb tb' :
  vb_unit_base b = base -> vb_queue_phys b = queue -> unit_ok root queue (vb_queue_tail b) te bound tb u ->
  bus_tables_ok m root tabs bound' -> (forall bus f, (bus, f) ∈ tabs -> f <> queue) ->
  (forall x e, bound !! x = Some e -> evicts lo e = false -> bound' !! x = Some e) ->
  (forall x e, bound' !! x = Some e \/ bound !! x = Some e -> tb' !! x = Some e) ->
  (forall x d f, tb !! x = Some (d, f) -> tlb_evicts lo d = false -> tb' !! x = Some (d, f)) ->
  exists m' u', submit_iq_descriptor lo hi b m u = (true, vb_set_tail (iq_next (vb_queue_tail b)) b, m', u') /\
    unit_ok root queue (iq_next (vb_queue_tail b)) te bound' tb' u' /\ bus_tables_ok m' root tabs bound' /\ forall x i, x <> queue -> entry m' x i = entry m x i.
Proof.
  intros Eb Eq [Hroot Hiqa Hqi Hhead Hslot Hte Hcache Htlb] Ht Hne Hkeep Hfill Htk. destruct (vp_queue _ _ _ _ Hparams) as [Hqa Hqr]. set (t := vb_queue_tail b) in *.
  pose proof Hslot as [Hr Hm]. change INV_QUEUE_BYTES with 4096 in Hr. change INV_QUEUE_ENTRY_BYTES with 16 in Hm. pose proof (Z.div_mod t 16 ltac:(lia)) as Ediv.
  unfold submit_iq_descriptor, write_queue_entry. fold t. change INV_QUEUE_ENTRY_BYTES with 16. rewrite Eq.
  destruct (write_slot queue (t / 16) lo hi m Hqa ltac:(lia) ltac:(split; [apply Z.div_pos; lia|apply Z.div_lt_upper_bound; lia])) as (E1 & _ & Ex & _).
  set (m' := write_pair_at queue (t / 16 * 16) lo hi m) in *.
  assert (bus_tables_ok m' root tabs bound') as Ht' by (apply (tables_frame m m' root tabs bound' (fun x => x = queue)); [done|intros x i Hx; by apply Ex|apply (vp_ne _ _ _ _ Hparams)|done]).
  assert ((if INV_QUEUE_BYTES <=? wrap64 (t + 16) then 0 else wrap64 (t + 16)) = iq_next t) as -> by (unfold iq_next, wrap64; change INV_QUEUE_ENTRY_BYTES with 16; rewrite Z.mod_small by lia; done).
  destruct (law_drain m' u t Hqi Hhead Hslot) as (u' & Edrain & Hview & Hc & Hct). cbn [vb_unit_base vb_set_tail]. rewrite Eb, Edrain. exists m', u'. split; [done|].
  split; [|done]. split; rewrite ?Hview; cbn; [done|done|done|done|by apply next_slot_ok|done| |].
  all: rewrite Hiqa, iqa_queue in * by lia; (replace (t / 8) with (2 * (t / 16)) in * by (apply (Z.div_unique t 8 (2 * (t / 16)) 0); lia)); rewrite E1, Hroot in *.
  - intros x e Hx He. destruct (Hc x e He) as [[_ Hw]|[Hold Hev]]; [by rewrite (tables_walk m' root tabs bound' x Ht' Hx) in Hw|]. apply (Hkeep x e); [by apply Hcache|done].
  - intros x d Hx Hd. destruct (Hct x d Hd) as [[_ (f & Hw)]|[Hold Hev]].
    + exists f. apply Hfill. destruct Hw as [Hw|Hw]; [left; by rewrite (tables_walk m' root tabs bound' x Ht' Hx) in Hw|right; by apply Hcache].
    + destruct (Htlb x d Hx Hold) as (f & Hf). exists f. by apply (Htk x d f).
Qed.

Lemma no_table_no_device m tables atts bound bus : bus_tables_ok m root (tabs_of tables) bound -> counts_ok None tables atts bound ->
  (forall f, (bus, f) ∉ tabs_of tables) -> bus_count bus atts = 0.
Proof using Type.
  intros Ht [_ _ Hb] Hno. unfold bus_count. destruct (filter (on_bus bus) atts) as [|[x d] l] eqn:E; [done|]. exfalso.
  assert ({| va_bdf := x; va_domain := d |} ∈ filter (on_bus bus) atts) as Hin by (rewrite E; by left). apply list_elem_of_filter in Hin as [Hbus Hin].
  apply Hb in Hin as (f & Hf). destruct (to_bound _ _ _ _ Ht x _ Hf) as (_ & g & Hg). unfold on_bus in Hbus. cbn in Hbus. rewrite Hbus in Hg. by eapply Hno.
Qed.

(** A context table for the bus: the one it has, counted once more, or a new empty one. *)
Lemma acquire_spec b s m bus bound pts (tables := vb_bus_tables b) : 0 <= bus < 256 ->
  bus_tables_ok m root (tabs_of tables) bound -> counts_ok None tables (vb_attachments b) bound -> ledger av0 s (pts ++ map bct_phys tables) ->
  exists r b' s' m', acquire_bus_context_table bus b s m = Done (r, b', s', m') /\ bus_tables_ok m' root (tabs_of tables) bound /\
    match r with
    | Err e => e = VtBusContextAllocFailed /\ b' = b /\ (forall f, (bus, f) ∉ tabs_of tables) /\ (forall x, ~ src_avail s x) /\ ledger av0 s' (pts ++ map bct_phys tables)
    | Ok f => exists tables', b' = vb_set_tables tables' b /\ counts_ok (Some bus) tables' (vb_attachments b) bound /\ ledger av0 s' (pts ++ map bct_phys tables') /\
        f mod 4096 = 0 /\ 0 <= f < 2 ^ 52 /\
        (tabs_of tables' = tabs_of tables /\ (bus, f) ∈ tabs_of tables \/
         tabs_of tables' = tabs_of tables ++ [(bus, f)] /\ (forall g, (bus, g) ∉ tabs_of tables) /\ forall d, ctx_at m' f d = None)
    end.
Proof using Hparams.
  intros Hbus Ht Hc Hl. unfold acquire_bus_context_table. fold tables. destruct (position _ tables) as [[i t]|] eqn:E.
  - apply find_table in E as (Hi & Hb & Hin). set (t' := {| bct_bus := _ |}). destruct (tabs_replace tables i t t' Hi eq_refl eq_refl) as [E1 E2].
    assert ((bus, bct_phys t) ∈ tabs_of tables) as Htab by (apply tabs_in; by exists t).
    eexists _, _, _, _. split; [reflexivity|]. split; [done|]. exists (<[i := t']> tables). rewrite E2. split; [done|]. split; [|split; [done|]].
    + assert (forall x e, bound !! x = Some e -> is_u16 x) as Hu by (intros x e Hx; by apply (to_bound _ _ _ _ Ht) in Hx as [? _]).
      pose proof (bus_count_bound _ _ _ _ bus Hc Hu) as Hle. destruct Hc as [Href Hn Hbd]. split; [|done|done].
      intros x Hx. apply list_elem_of_lookup in Hx as [j Hj]. destruct (decide (j = i)) as [->|Hne].
      * rewrite list_lookup_insert_eq in Hj by (by eapply lookup_lt_Some). injection Hj as <-. destruct (Href t Hin) as [Er Hpos]. cbn [bct_refcount bct_bus t'].
        rewrite Hb in *. rewrite decide_True by done. rewrite decide_False in Er by done. unfold saturating_add32, u32_max. lia.
      * rewrite list_lookup_insert_ne in Hj by done. pose proof (list_elem_of_lookup_2 _ _ _ Hj) as Hx. destruct (Href x Hx) as [Er Hpos]. rewrite decide_False in Er by done.
        rewrite decide_False; [done|]. intros [= Heq]. pose proof (to_nodup _ _ _ _ Ht) as Hnd. apply Hne.
        eapply (NoDup_lookup _ j i bus Hnd); unfold tabs_of; rewrite !list_lookup_fmap; [rewrite Hj|rewrite Hi]; cbn; congruence.
    + destruct (lg_held _ _ _ Hl (bct_phys t)) as (_ & _ & ? & ?); [apply elem_of_app; right; by eapply tabs_phys_in|]. split; [done|]. split; [done|]. left. by rewrite E1.
  - pose proof (find_table_none _ _ E) as Hno. destruct (ledger_alloc av0 s _ m Hl) as [(f & s' & Ea & Hl' & Hav & Hal)|(s' & Ea & Hl' & Hnone)]; rewrite Ea; cbn.
    + rewrite Hal. cbn. pose proof (lg_held _ _ _ Hl' f ltac:(by left)) as (_ & _ & Hfa & Hfr). pose proof (lg_nodup _ _ _ Hl') as [Hfresh _]%NoDup_cons.
      eexists _, _, _, _. split; [reflexivity|]. split.
      { apply (tables_frame m _ _ _ _ (fun x => x = f) Ht); [intros x i Hx; rewrite entry_zero; by destruct (Z.eqb_spec x f)| |].
        - intros E0. apply (proj1 (vp_free _ _ _ _ Hparams)). by rewrite E0.
        - intros b' g Hg ->. apply Hfresh, elem_of_app. right. by eapply tabs_phys_in. }
      eexists. split; [reflexivity|]. split; [|split; [|split; [done|split; [done|right]]]].
      * destruct Hc as [Href Hn Hbd] eqn:Ec. split; [|done|done]. intros x [Hx| ->%list_elem_of_singleton]%elem_of_app.
        -- destruct (Href x Hx) as [Er Hpos]. rewrite decide_False in Er by done. rewrite decide_False; [done|]. intros [= Heq]. apply (Hno (bct_phys x)), tabs_in. by exists x.
        -- cbn. rewrite decide_True by done. rewrite (no_table_no_device m tables _ bound bus Ht Hc Hno). lia.
      * rewrite map_app. cbn. rewrite app_assoc. by rewrite <- Permutation_cons_append.
      * split; [unfold tabs_of; by rewrite map_app|]. split; [done|]. intros d. unfold ctx_at. rewrite !entry_zero, Z.eqb_refl. done.
    + eexists _, _, _, _. split; [reflexivity|]. done.
Qed.

(** Giving the extra count back; the table goes when no device of the bus is left. *)
Lemma release_bus_spec b s bus f bound pts (tables := vb_bus_tables b) :
  NoDup (tabs_of tables).*1 -> (bus, f) ∈ tabs_of tables -> counts_ok (Some bus) tables (vb_attachments b) bound -> ledger av0 s (pts ++ map bct_phys tables) ->
  exists tables' s', release_bus_context_table bus b s = Done (Ok (), vb_set_tables tables' b, s') /\ counts_ok None tables' (vb_attachments b) bound /\ ledger av0 s' (pts ++ map bct_phys tables') /\
    (0 < bus_count bus (vb_attachments b) /\ tabs_of tables' = tabs_of tables \/ bus_count bus (vb_attachments b) = 0 /\ tabs_of tables ≡ₚ (bus, f) :: tabs_of tables').
Proof using Type.
  intros Hnd Htab [Href Hn Hbd] Hl. unfold release_bus_context_table. fold tables. destruct (find_table_some _ _ _ Hnd Htab) as (i & t & E & Hf). rewrite E.
  apply find_table in E as (Hi & Hb & Hin). destruct (Href t Hin) as [Er Hpos]. rewrite Hb, decide_True in Er by done. destruct (Z.ltb_spec 1 (bct_refcount t)) as [Hgt|Hle].
  - set (t' := {| bct_bus := _ |}). destruct (tabs_replace tables i t t' Hi eq_refl eq_refl) as [E1 E2]. eexists _, s. split; [reflexivity|]. rewrite E2.
    split; [|split; [done|left; split; [lia|done]]]. split; [|done|done]. intros x Hx. apply list_elem_of_lookup in Hx as [j Hj]. rewrite decide_False by done. destruct (decide (j = i)) as [->|Hne].
    + rewrite list_lookup_insert_eq in Hj by (by eapply lookup_lt_Some). injection Hj as <-. cbn. rewrite Hb. lia.
    + rewrite list_lookup_insert_ne in Hj by done. pose proof (list_elem_of_lookup_2 _ _ _ Hj) as Hx. destruct (Href x Hx) as [Ex Hpx]. rewrite decide_False in Ex; [done|].
      intros [= Heq]. apply Hne. eapply (NoDup_lookup _ j i bus Hnd); unfold tabs_of; rewrite !list_lookup_fmap; [rewrite Hj|rewrite Hi]; cbn; congruence.
  - pose proof (swap_remove_perm _ _ _ Hi) as Hp. set (tables' := swap_remove i tables) in *. assert (tabs_of tables ≡ₚ (bus, f) :: tabs_of tables') as Hpt.
    { unfold tabs_of. rewrite (Permutation_map _ Hp). cbn. by rewrite Hb, Hf. }
    assert (bus_count bus (vb_attachments b) = 0) as Hz by (unfold bus_count in *; lia).
    rewrite (Permutation_map bct_phys Hp) in Hl. cbn in Hl. rewrite <- Permutation_middle in Hl. destruct (ledger_free _ _ _ _ Hl) as (s' & Efr & Hl'). cbn. rewrite Efr. cbn.
    eexists _, s'. split; [reflexivity|]. split; [|split; [done|right; done]]. split; [|done|done]. intros x Hx. rewrite decide_False by done.
    assert (x ∈ tables) as Hx' by (rewrite Hp; by right). destruct (Href x Hx') as [Ex Hpx]. rewrite decide_False in Ex; [done|]. intros [= Heq].
    rewrite Hpt in Hnd. cbn in Hnd. apply NoDup_cons in Hnd as [Hnot _]. apply Hnot. apply list_elem_of_fmap. exists (bct_bus x, bct_phys x). split; [done|]. apply tabs_in. by exists x.
Qed.

(** Writing a device's context entry and its bus's root entry. *)
Lemma write_entries_ok m tables tabs bound bdf f d slpt ce re (tabs' := tabs_of tables) : bus_tables_ok m root tabs bound -> is_u16 bdf -> bound !! bdf = None ->
  f mod 4096 = 0 -> 0 <= f < 2 ^ 52 -> NoDup (tabs').*1 -> NoDup (map bct_phys tables) -> (forall bus g, (bus, g) ∈ tabs' -> g <> root) -> (bdf_bus bdf, f) ∈ tabs' ->
  (tabs' = tabs \/ tabs' = tabs ++ [(bdf_bus bdf, f)] /\ (forall g, (bdf_bus bdf, g) ∉ tabs) /\ forall x, ctx_at m f x = None) ->
  ctx_is_present ce = true -> ctx_domain_id ce = d -> slptptr ce = slpt -> root_is_present re = true -> context_table_pointer re = f ->
  bus_tables_ok (write_root_entry_at root (root_entry_offset (bdf_bus bdf)) (re_low re) (re_high re) (write_context_entry_at f (context_entry_offset bdf) (ce_low ce) (ce_high ce) m))
    root tabs' (<[bdf := (d, slpt)]> bound).
Proof using Hparams.
  intros Ht Hb Hnone Hfa Hfr Hnd1 Hnd2 Hnr Hin Htabs Hcp Hcd Hcs Hrp Hrf. destruct (bdf_split bdf Hb) as (_ & Hbus & Hdev). destruct (vp_root _ _ _ _ Hparams) as [Hra Hrr].
  unfold root_entry_offset, context_entry_offset. set (m1 := write_context_entry_at f _ _ _ m). set (m2 := write_root_entry_at root _ _ _ m1).
  destruct (ctx_write f (bdf_devfn bdf) m ce (Some (d, slpt)) Hfa Hfr Hdev) as [Ec Ecx]; [by rewrite Hcp, Hcd, Hcs|]. fold m1 in Ec, Ecx.
  destruct (root_write root (bdf_bus bdf) m1 re (Some f) Hra ltac:(lia) Hbus) as [Er Erx]; [by rewrite Hrp, Hrf|]. fold m2 in Er, Erx.
  assert (forall x i, x <> root -> entry m2 x i = entry m1 x i) as Hm2 by (intros x i Hx; by destruct (write_slot root (bdf_bus bdf) (re_low re) (re_high re) m1 Hra ltac:(lia) Hbus) as (_ & _ & E & _); apply E).
  assert (forall bus g, (bus, g) ∈ tabs -> (bus, g) ∈ tabs') as Hsub by (intros bus g Hg; destruct Htabs as [->|(-> & _)]; [done|apply elem_of_app; by left]).
  assert (forall bus g, (bus, g) ∈ tabs' -> bus <> bdf_bus bdf -> (bus, g) ∈ tabs) as Hsub' by (intros bus g Hg Hne; destruct Htabs as [<-|(E & _)]; [done|rewrite E in Hg; apply elem_of_app in Hg as [|[= -> ->]%list_elem_of_singleton]; done]).
  assert (forall g, (bdf_bus bdf, g) ∈ tabs' -> g = f) as Huniq.
  { intros g Hg. destruct (find_table_some tables _ _ Hnd1 Hg) as (i & t & E & <-). destruct (find_table_some tables _ _ Hnd1 Hin) as (i' & t' & E' & <-). congruence. }
  assert (f <> root) as Hfroot by (by eapply Hnr).
  split; [done| | | |].
  - intros bus g Hg. destruct (decide (bus = bdf_bus bdf)) as [->|Hne]; [done|]. by eapply (to_bus _ _ _ _ Ht), Hsub'.
  - intros bus g Hbs. destruct (decide (bus = bdf_bus bdf)) as [->|Hne].
    + rewrite Er. split; [by intros [= <-]|]. intros Hg. by rewrite (Huniq g Hg).
    + rewrite Erx by done. assert (root_at m1 root bus = root_at m root bus) as ->.
      { apply root_at_ext. intros i. destruct (write_slot f (bdf_devfn bdf) (ce_low ce) (ce_high ce) m Hfa Hfr Hdev) as (_ & _ & E & _). apply E. congruence. }
      rewrite (to_root _ _ _ _ Ht) by done. split; [apply Hsub|]. intros Hg. by apply Hsub'.
  - intros b g Hbu Hg. rewrite (ctx_at_ext m1 m2) by (intros i; apply Hm2; by eapply Hnr). destruct (decide (b = bdf)) as [->|Hne].
    + rewrite (Huniq g Hg), Ec. symmetry. apply lookup_insert_eq.
    + rewrite lookup_insert_ne by done. rewrite Ecx.
      * destruct (decide (bdf_bus b = bdf_bus bdf)) as [Eb|Nb]; [|apply (to_ctx _ _ _ _ Ht b g Hbu); by apply Hsub'].
        destruct Htabs as [E|(_ & Hno & Hempty)]; [apply (to_ctx _ _ _ _ Ht b g Hbu); by rewrite <- E|]. rewrite Eb in Hg. rewrite (Huniq g Hg), Hempty.
        symmetry. destruct (bound !! b) as [e|] eqn:E; [|done]. destruct (to_bound _ _ _ _ Ht b e E) as (_ & g' & Hg'). rewrite Eb in Hg'. by destruct (Hno g').
      * intros [= -> Hdv]. apply Hne, bdf_inj; [done|done| |done]. by eapply (tabs_inj tables).
  - intros b e. destruct (decide (b = bdf)) as [->|Hne]; [intros _; split; [done|by exists f]|]. rewrite lookup_insert_ne by done. intros Hx. destruct (to_bound _ _ _ _ Ht b e Hx) as (Hu & g & Hg).
    split; [done|]. exists g. by apply Hsub.
Qed.

Lemma has_attachment_spec b bound pend tables bdf : counts_ok pend tables (vb_attachments b) bound -> vtd_has_attachment b bdf = true <-> exists e, bound !! bdf = Some e.
Proof using Type.
  intros [_ _ Hb]. unfold vtd_has_attachment. rewrite existsb_exists. split.
  - intros ([x d] & Hin & Hx). cbn in Hx. apply Z.eqb_eq in Hx as ->. apply list_elem_of_In, Hb in Hin as (f & Hf). by exists (d, f).
  - intros ([d f] & Hf). exists {| va_bdf := bdf; va_domain := d |}. split; [|apply Z.eqb_refl]. apply list_elem_of_In, Hb. by exists f.
Qed.

(** The entries are written, both descriptors drained and the attachment recorded. *)
Lemma install_entry_ok bdf d slpt f w t b m u te tables tabs bound :
  vb_unit_base b = base -> vb_root_table_phys b = root -> vb_queue_phys b = queue -> vb_activated b = true -> unit_ok root queue (vb_queue_tail b) te bound bound u ->
  bus_tables_ok m root tabs bound -> is_u16 bdf -> is_u16 d -> is_u64 slpt -> slpt mod 4096 = 0 -> vtd_has_domain b d = true -> vtd_has_attachment b bdf = false -> bound !! bdf = None ->
  f mod 4096 = 0 -> 0 <= f < 2 ^ 52 -> NoDup (tabs_of tables).*1 -> NoDup (map bct_phys tables) -> (forall bus g, (bus, g) ∈ tabs_of tables -> g <> root /\ g <> queue) -> (bdf_bus bdf, f) ∈ tabs_of tables ->
  (tabs_of tables = tabs \/ tabs_of tables = tabs ++ [(bdf_bus bdf, f)] /\ (forall g, (bdf_bus bdf, g) ∉ tabs) /\ forall x, ctx_at m f x = None) ->
  exists m' u' tail, vtd_install_device_entry bdf d slpt f w t b m u = (Ok (), vb_set_attachments (vb_attachments b ++ [{| va_bdf := bdf; va_domain := d |}]) (vb_set_tail tail b), m', u') /\
    unit_ok root queue tail te (<[bdf := (d, slpt)]> bound) (<[bdf := (d, slpt)]> bound) u' /\ bus_tables_ok m' root (tabs_of tables) (<[bdf := (d, slpt)]> bound).
Proof using Hparams.
  intros Eb Er Eq Ha Hu Ht Hbdf Hd Hs Hsa Hdom Hatt Hnone Hfa Hfr Hnd1 Hnd2 Hne Hin Htabs. unfold vtd_install_device_entry.
  rewrite Ha, !land_page, Hsa, Hfa, Hdom, Hatt. cbn [negb orb Z.eqb]. destruct (encode_context_spec slpt d t w Hs Hsa Hd) as (ce & -> & Hcp & Hcs & Hcd & _).
  destruct (encode_root_spec f ltac:(unfold is_u64; lia) Hfa) as (re & -> & Hrp & Hrf & _). rewrite Er.
  pose proof (write_entries_ok m tables tabs bound bdf f d slpt ce re Ht Hbdf Hnone Hfa Hfr Hnd1 Hnd2 ltac:(intros bus g Hg; by apply (Hne bus g)) Hin Htabs Hcp Hcd Hcs Hrp Hrf) as Ht2.
  set (m2 := write_root_entry_at root _ _ _ _) in *. destruct (encode_context_cache_domain_invalidate d) as [clo chi]. destruct (encode_iotlb_domain_invalidate d) as [ilo ihi].
  assert (forall x e, bound !! x = Some e -> <[bdf := (d, slpt)]> bound !! x = Some e) as Hgrow by (intros x e Hx; rewrite lookup_insert_ne by congruence; done).
  destruct (submit_spec clo chi b m2 u te _ bound _ bound (<[bdf := (d, slpt)]> bound) Eb Eq Hu Ht2) as (m3 & u3 & E3 & Hu3 & Ht3 & _);
    [intros bus g Hg; by apply (Hne bus g)|intros x e Hx _; by apply Hgrow|intros x e [?|?]; [done|by apply Hgrow]|intros x dx fx Hx _; by apply Hgrow|].
  rewrite E3. cbn [negb]. destruct (submit_spec ilo ihi (vb_set_tail (iq_next (vb_queue_tail b)) b) m3 u3 te _ _ _ _ (<[bdf := (d, slpt)]> bound) Eb Eq Hu3 Ht3) as (m4 & u4 & E4 & Hu4 & Ht4 & _); [intros bus g Hg; by apply (Hne bus g)|done|by intros x e [?|?]|done|].
  rewrite E4. cbn [negb]. by eexists _, _, _.
Qed.

(** Frames of the tables are neither the root table nor the queue. *)
Lemma tables_apart s pts tables bus g : ledger av0 s (pts ++ map bct_phys tables) -> (bus, g) ∈ tabs_of tables -> g <> root /\ g <> queue.
Proof using Hparams.
  intros Hl Hg. assert (av0 g) as Hav by (apply (lg_all _ _ _ Hl); right; apply elem_of_app; right; by eapply tabs_phys_in).
  destruct (vp_free _ _ _ _ Hparams). split; intros ->; contradiction.
Qed.

Lemma ledger_tables_nodup s pts tables : ledger av0 s (pts ++ map bct_phys tables) -> NoDup (map bct_phys tables).
Proof using Type. intros Hl. pose proof (lg_nodup _ _ _ Hl) as Hn. apply NoDup_app in Hn. tauto. Qed.

(** What a refused installation leaves behind: nothing. *)
Lemma install_refused bdf d slpt f w t b m u e : f mod 4096 = 0 -> vb_activated b = true ->
  (slpt mod 4096 <> 0 /\ e = VtAddressMisaligned) \/ (slpt mod 4096 = 0 /\ vtd_has_domain b d = false /\ e = VtDomainNotInstalled) \/
  (slpt mod 4096 = 0 /\ vtd_has_domain b d = true /\ vtd_has_attachment b bdf = true /\ e = VtAlreadyAttached) ->
  vtd_install_device_entry bdf d slpt f w t b m u = (Err e, b, m, u).
Proof using Type.
  intros Hf Ha Hcase. unfold vtd_install_device_entry. rewrite Ha, !land_page, Hf. cbn [negb]. change (negb (0 =? 0)) with false. rewrite orb_false_r.
  destruct Hcase as [(Hs & ->)|[(Hs & -> & ->)|(Hs & -> & -> & ->)]]; [|rewrite Hs; done|rewrite Hs; done]. apply Z.eqb_neq in Hs. by rewrite Hs.
Qed.

Definition install_answer (b : VtdBackend) (s : S) (bound : gmap Z (Z * Z)) (bdf d slpt : Z) (r : result VtdAttachError Z) : Prop :=
  match r with
  | Ok f => slpt mod 4096 = 0 /\ vtd_has_domain b d = true /\ bound !! bdf = None
  | Err VtBusContextAllocFailed => (forall x e, bound !! x = Some e -> bdf_bus x <> bdf_bus bdf) /\ forall x, ~ src_avail s x
  | Err VtAddressMisaligned => slpt mod 4096 <> 0
  | Err VtDomainNotInstalled => slpt mod 4096 = 0 /\ vtd_has_domain b d = false
  | Err VtAlreadyAttached => slpt mod 4096 = 0 /\ vtd_has_domain b d = true /\ exists e, bound !! bdf = Some e
  | Err _ => False
  end.

Lemma install_spec bdf d slpt w t bound b s m u : vtd_inv av0 root queue bound b s m u -> is_u16 bdf -> is_u16 d -> is_u64 slpt ->
  exists r b' s' m' u', install_device_entry_with_alloc bdf d slpt w t b s m u = Done (r, b', s', m', u') /\ install_answer b s bound bdf d slpt r /\
    vtd_inv av0 root queue (match r with Ok _ => <[bdf := (d, slpt)]> bound | Err _ => bound end) b' s' m' u' /\ vb_domains b' = vb_domains b /\ vb_domain_pts b' = vb_domain_pts b /\ vb_translation b' = vb_translation b.
Proof using Hparams.
  intros [(Eb & Er & Eq) Hact Hu Ht Hc Hpts Hdm Hl] Hbdf Hd Hs. destruct (bdf_split bdf Hbdf) as (_ & Hbus & _). unfold install_device_entry_with_alloc.
  destruct (acquire_spec b s m (bdf_bus bdf) bound _ Hbus Ht Hc Hl) as (r & b1 & s1 & m1 & Eacq & Ht1 & Hr). rewrite Eacq. cbn [mbind run_bind]. destruct r as [f|e].
  2:{ destruct Hr as (-> & -> & Hno & Hnone & Hl1). eexists _, _, _, _, _. split; [reflexivity|]. split; [split; [|done]|split; [by split|done]].
      intros x e Hx Hbx. destruct (to_bound _ _ _ _ Ht x e Hx) as (_ & g & Hg). rewrite Hbx in Hg. by apply (Hno g). }
  destruct Hr as (tables' & -> & Hc1 & Hl1 & Hfa & Hfr & Hcase). set (b1 := vb_set_tables tables' b).
  assert ((bdf_bus bdf, f) ∈ tabs_of tables') as Hin by (destruct Hcase as [(-> & ?)|(-> & _)]; [done|apply elem_of_app; right; by left]).
  assert (NoDup (tabs_of tables').*1) as Hnd.
  { destruct Hcase as [(-> & _)|(-> & Hno & _)]; [apply (to_nodup _ _ _ _ Ht)|]. rewrite fmap_app. apply NoDup_app. split; [apply (to_nodup _ _ _ _ Ht)|]. split; [|apply NoDup_singleton].
    intros x (p & -> & Hp)%list_elem_of_fmap Hx. apply list_elem_of_singleton in Hx. destruct p as [x g]. cbn in Hx. subst. by apply (Hno g). }
  pose proof (has_attachment_spec b bound _ _ bdf Hc) as Hatt.
  assert (forall e, vtd_install_device_entry bdf d slpt f w t b1 m1 u = (Err e, b1, m1, u) -> install_answer b s bound bdf d slpt (Err e) ->
    exists r b' s' m' u', (let '(r, b, m, u) := vtd_install_device_entry bdf d slpt f w t b1 m1 u in match r with Ok _ => Done (Ok f, b, s1, m, u) | Err e => '(_, b, s) ← release_bus_context_table (bdf_bus bdf) b s1; Done (Err e, b, s, m, u) end) = Done (r, b', s', m', u') /\
      install_answer b s bound bdf d slpt r /\ vtd_inv av0 root queue (match r with Ok _ => <[bdf := (d, slpt)]> bound | Err _ => bound end) b' s' m' u' /\ vb_domains b' = vb_domains b /\ vb_domain_pts b' = vb_domain_pts b /\ vb_translation b' = vb_translation b) as Hrefuse.
  { intros e -> Hans. destruct (release_bus_spec b1 s1 (bdf_bus bdf) f bound _ Hnd Hin Hc1 Hl1) as (t2 & s2 & E2 & Hc2 & Hl2 & Hdone). cbv beta iota. rewrite E2. cbn [mbind run_bind].
    eexists _, _, _, _, _. split; [reflexivity|]. split; [done|]. split; [|done]. split; [done|done|done| |done|done|done|done]. change (bus_tables_ok m1 root (tabs_of t2) bound). change (vb_bus_tables b1) with tables' in Hdone. destruct Hcase as [(E & _)|(E & Hno & _)], Hdone as [(Hpos & E')|(Hz & E')].
    - by rewrite E', E.
    - exfalso. cbn in Hz. assert (exists tb, tb ∈ vb_bus_tables b /\ bct_bus tb = bdf_bus bdf) as (tb & Htb & Hb1) by (rewrite E in Hin; apply tabs_in in Hin as (tb & ? & ? & _); by exists tb).
      destruct (co_ref _ _ _ _ Hc tb Htb) as [Eref Hpr]. rewrite Hb1, decide_False in Eref by done. lia.
    - exfalso. cbn in Hpos. rewrite (no_table_no_device m (vb_bus_tables b) _ bound (bdf_bus bdf) Ht Hc Hno) in Hpos. lia.
    - apply (tables_perm m1 root (tabs_of (vb_bus_tables b))); [|done]. apply (Permutation_cons_inv (a := (bdf_bus bdf, f))). rewrite <- E', E. by rewrite <- Permutation_cons_append. }
  assert (vb_activated b1 = true) as Ha1 by done. assert (vtd_has_domain b1 d = vtd_has_domain b d) as Ed by done. assert (vtd_has_attachment b1 bdf = vtd_has_attachment b bdf) as Ea by done.
  destruct (Z.eq_dec (slpt mod 4096) 0) as [Hsa|Hsa]; [|eapply Hrefuse; [apply install_refused; [done|done|left; done]|done]].
  destruct (vtd_has_domain b d) eqn:Edom; [|eapply Hrefuse; [apply install_refused; [done|done|right; left; done]|done]].
  destruct (vtd_has_attachment b bdf) eqn:Eatt; [eapply Hrefuse; [apply install_refused; [done|done|right; right; done]|]; split_and!; [done|done|by apply Hatt]|].
  assert (bound !! bdf = None) as Hnone. { destruct (bound !! bdf) as [e|] eqn:E; [|done]. exfalso. assert (false = true); [|done]. apply Hatt. by exists e. }
  destruct (install_entry_ok bdf d slpt f w t b1 m1 u (vb_translation b) tables' (tabs_of (vb_bus_tables b)) bound) as (m2 & u2 & tail & E2 & Hu2 & Ht2); [done|done|done|done|done|done|done|done|done|done|done|done|done|done|done|done| | |done| |].
  - by eapply ledger_tables_nodup.
  - intros bus g. exact (tables_apart s1 _ tables' bus g Hl1).
  - destruct Hcase as [[? _]|?]; [by left|by right].
  - rewrite E2. cbv beta iota. eexists _, _, _, _, _. split; [reflexivity|]. split; [done|]. split; [|done]. split; [done|done|exact Hu2|exact Ht2| |done| |exact Hl1]; [|intros x dx fx; destruct (decide (x = bdf)) as [->|Hne]; [rewrite lookup_insert_eq; by intros [= <- _]|rewrite lookup_insert_ne by done; apply Hdm]].
    cbn. destruct Hc1 as [Href Hn Hbd]. split.
    + intros x Hx. destruct (Href x Hx) as [Ex Hp]. rewrite bus_count_app. destruct (decide (None = Some (bct_bus x))) as [|_]; [done|]. unfold on_bus. cbn. destruct (decide (bdf_bus bdf = bct_bus x)) as [Heq|Hne].
      * rewrite Heq, decide_True in Ex by done. cbn in Ex. lia.
      * rewrite decide_False in Ex by congruence. cbn in Ex. lia.
    + rewrite map_app. apply NoDup_app. split; [done|]. split; [|apply NoDup_singleton]. intros x Hx ->%list_elem_of_singleton. cbn in Hx. apply list_elem_of_fmap in Hx as ([y dy] & Ey & Hy). cbn in Ey. subst y.
      apply Hbd in Hy as (g & Hg). congruence.
    + intros x dx. rewrite elem_of_app, list_elem_of_singleton. cbn in Hbd. rewrite Hbd. destruct (decide (x = bdf)) as [->|Hne].
      * rewrite lookup_insert_eq. split; [intros [(g & Hg)|[= <-]]; [congruence|by exists slpt]|]. intros (g & [= -> _]). by right.
      * rewrite lookup_insert_ne by done. split; [intros [?|[= -> _]]; done|by left].
Qed.

Lemma find_position {X} (p : X -> bool) l : List.find p l = snd <$> position p l.
Proof using Type.
  unfold position. induction l as [|x l IH]; [done|]. cbn. destruct (decide (p x = true)) as [E|E]; [by rewrite E|]. apply not_true_is_false in E. rewrite E, IH. by destruct (list_find _ l) as [[]|].
Qed.

(** Clearing a device's context entry. *)
Lemma write_absent_ok m tables bound bdf f : bus_tables_ok m root (tabs_of tables) bound -> is_u16 bdf -> f mod 4096 = 0 -> 0 <= f < 2 ^ 52 -> f <> root ->
  NoDup (map bct_phys tables) -> (bdf_bus bdf, f) ∈ tabs_of tables ->
  bus_tables_ok (write_context_entry_at f (context_entry_offset bdf) 0 0 m) root (tabs_of tables) (delete bdf bound).
Proof using Type.
  intros Ht Hb Hfa Hfr Hfroot Hnd Hin. destruct (bdf_split bdf Hb) as (_ & _ & Hdev). unfold context_entry_offset.
  destruct (ctx_write f (bdf_devfn bdf) m encode_context_entry_absent None Hfa Hfr Hdev eq_refl) as [Ec Ecx]. cbn [ce_low ce_high encode_context_entry_absent] in Ec, Ecx.
  set (m1 := write_context_entry_at _ _ _ _ m) in *. pose proof Ht as [H1' H2' H3 H4 H5]. split; [done|done| | |].
  - intros bus g Hbs. rewrite (root_at_ext m m1); [by apply H3|]. intros i. destruct (write_slot f (bdf_devfn bdf) 0 0 m Hfa Hfr Hdev) as (_ & _ & E & _). apply E. congruence.
  - intros b g Hbu Hg. destruct (decide (b = bdf)) as [->|Hne].
    + rewrite lookup_delete_eq. assert (g = f) as ->; [|done]. destruct (find_table_some tables _ _ H1' Hg) as (i & t & E & <-). destruct (find_table_some tables _ _ H1' Hin) as (i' & t' & E' & <-). congruence.
    + rewrite lookup_delete_ne by done. rewrite Ecx; [by apply H4|]. intros [= -> Hdv]. apply Hne, bdf_inj; [done|done| |done]. by eapply (tabs_inj tables).
  - intros b e [_ Hx]%lookup_delete_Some. by eapply H5.
Qed.

(** Clearing the root entry of a bus without devices. *)
Lemma clear_root_ok m tabs tabs' bound bus f : bus_tables_ok m root tabs bound -> 0 <= bus < 256 -> tabs ≡ₚ (bus, f) :: tabs' -> (forall g b, (b, g) ∈ tabs' -> g <> root) ->
  (forall x e, bound !! x = Some e -> bdf_bus x <> bus) ->
  bus_tables_ok (write_root_entry_at root (root_entry_offset bus) 0 0 m) root tabs' bound.
Proof using Hparams.
  intros Ht Hbus Hp Hnr Hno. destruct (vp_root _ _ _ _ Hparams) as [Hra Hrr]. unfold root_entry_offset.
  destruct (root_write root bus m encode_root_entry_absent None Hra ltac:(lia) Hbus eq_refl) as [Er Erx]. cbn [re_low re_high encode_root_entry_absent] in Er, Erx.
  destruct (write_slot root bus 0 0 m Hra ltac:(lia) Hbus) as (_ & _ & Ex & _). fold (write_root_entry_at root (bus * 16) 0 0 m) in Ex. set (m1 := write_root_entry_at _ _ _ _ m) in *.
  apply (tables_perm _ _ _ _ _ Hp) in Ht. destruct Ht as [H1' H2' H3 H4 H5]. cbn in H1'. apply NoDup_cons in H1' as [Hnot Hnd]. split; [done| | | |].
  - intros b g Hg. apply (H2' b g). by right.
  - intros b g Hb. destruct (decide (b = bus)) as [->|Hne].
    + rewrite Er. split; [done|]. intros Hg. exfalso. apply Hnot, list_elem_of_fmap. by exists (bus, g).
    + rewrite Erx, H3 by done. rewrite elem_of_cons. split; [intros [[= -> _]|]; done|by right].
  - intros b g Hb Hg. rewrite (ctx_at_ext m m1) by (intros i; apply Ex; by eapply Hnr). apply (H4 b g Hb). by right.
  - intros x e Hx. destruct (H5 x e Hx) as (Hu & g & [[= E _]|Hg]%elem_of_cons); [by destruct (Hno x e Hx)|]. split; [done|by exists g].
Qed.

Lemma release_device_spec bdf bound b s m u : vtd_inv av0 root queue bound b s m u -> is_u16 bdf ->
  exists r b' s' m' u', release_device_entry_with_alloc bdf b s m u = Done (r, b', s', m', u') /\
    (match r with Ok _ => exists e, bound !! bdf = Some e | Err _ => bound !! bdf = None end) /\
    vtd_inv av0 root queue (delete bdf bound) b' s' m' u' /\ vb_domains b' = vb_domains b /\ vb_domain_pts b' = vb_domain_pts b /\ vb_translation b' = vb_translation b.
Proof using Hparams.
  intros Hinv Hbdf. pose proof Hinv as [(Eb & Er & Eq) Hact Hu Ht Hc Hpts Hdm Hl]. destruct (bdf_split bdf Hbdf) as (_ & Hbus & _). unfold release_device_entry_with_alloc.
  destruct (position _ (vb_attachments b)) as [[i [x d]]|] eqn:Epos.
  2:{ assert (bound !! bdf = None) as Hnone.
      { destruct (bound !! bdf) as [e|] eqn:E; [|done]. exfalso. apply position_none in Epos. assert (vtd_has_attachment b bdf = true) as Hx by (eapply (has_attachment_spec b bound); [done|by exists e]).
        unfold vtd_has_attachment in Hx. congruence. }
      eexists _, _, _, _, _. split; [reflexivity|]. split; [done|]. by rewrite delete_id by done. }
  apply position_some in Epos as [Hi Hx]. cbn in Hx. apply Z.eqb_eq in Hx as ->. pose proof (swap_remove_perm _ _ _ Hi) as Hperm. set (atts' := swap_remove i (vb_attachments b)) in *.
  pose proof Hc as [Href Hn Hbd]. pose proof (proj1 (Hbd bdf d) ltac:(by eapply list_elem_of_lookup_2)) as (slpt & Hb). destruct (to_bound _ _ _ _ Ht bdf _ Hb) as (_ & f & Hin).
  set (tables := vb_bus_tables b) in *. pose proof (to_nodup _ _ _ _ Ht) as Hnd. destruct (find_table_some _ _ _ Hnd Hin) as (j & tb & Ej & Hf). pose proof (find_table _ _ _ _ Ej) as (Hj & Htb & Htin).
  destruct (tables_apart s _ tables _ _ Hl Hin) as [Hfr Hfq]. destruct (lg_held _ _ _ Hl f) as (_ & _ & Hfa & Hfrng); [apply elem_of_app; right; by eapply tabs_phys_in|].
  assert (NoDup (map va_bdf ({| va_bdf := bdf; va_domain := d |} :: atts'))) as Hn' by (by rewrite <- Hperm). cbn in Hn'. apply NoDup_cons in Hn' as [Hnot Hn'].
  assert (counts_ok (Some (bdf_bus bdf)) tables atts' (delete bdf bound)) as Hc1.
  { split; [|done|].
    - intros y Hy. destruct (Href y Hy) as [Ey Hp]. rewrite (bus_count_perm _ _ _ Hperm), bus_count_cons in Ey. unfold on_bus in Ey. cbn in Ey. destruct (decide (None = Some (bct_bus y))) as [|_]; [done|].
      split; [|done]. destruct (decide (bdf_bus bdf = bct_bus y)) as [E|E]; [rewrite decide_True by congruence|rewrite decide_False by congruence]; lia.
    - intros y dy. rewrite lookup_delete. destruct (decide (bdf = y)) as [<-|Hne].
      + split; [|by intros (? & ?)]. intros Hy. exfalso. apply Hnot, list_elem_of_fmap. by exists {| va_bdf := bdf; va_domain := dy |}.
      + rewrite <- Hbd, Hperm, elem_of_cons. split; [by right|]. intros [[= -> _]|]; done. }
  unfold bus_context_table_phys, bus_context_table_refcount. cbn [vb_bus_tables vb_set_attachments]. fold tables. rewrite find_position, Ej. cbn [fmap option_fmap option_map snd]. rewrite Hf.
  cbn [ce_low ce_high encode_context_entry_absent va_domain]. pose proof (write_absent_ok m tables bound bdf f Ht Hbdf Hfa Hfrng Hfr (ledger_tables_nodup s _ _ Hl) Hin) as Ht1.
  set (m1 := write_context_entry_at _ _ _ _ m) in *. pose proof (evicts_domain d (d, slpt) (Hdm _ _ _ Hb) eq_refl) as Hev. pose proof (tlb_evicts_domain d (Hdm _ _ _ Hb)) as Hevt. destruct (encode_context_cache_domain_invalidate d) as [clo chi]. cbn [fst] in Hev.
  destruct (encode_iotlb_domain_invalidate d) as [ilo ihi]. cbn [fst] in Hevt. set (b1 := vb_set_attachments atts' b).
  assert (forall x e, delete bdf bound !! x = Some e -> bound !! x = Some e) as Hshrink by (intros x e [_ ?]%lookup_delete_Some; done).
  destruct (submit_spec clo chi b1 m1 u _ _ bound _ bound bound Eb Eq Hu Ht1) as (m2 & u2 & E2 & Hu2 & Ht2 & _); [intros bus g Hg; by apply (tables_apart s _ tables bus g Hl)| |intros x e [?|?]; [by apply Hshrink|done]|done|].
  { intros y e Hy Hne. rewrite lookup_delete_ne; [done|]. intros <-. rewrite Hb in Hy. injection Hy as <-. congruence. }
  rewrite E2. destruct (submit_spec ilo ihi (vb_set_tail (iq_next (vb_queue_tail b1)) b1) m2 u2 _ _ _ _ _ (delete bdf bound) Eb Eq Hu2 Ht2) as (m3 & u3 & E3 & Hu3 & Ht3 & _); [intros bus g Hg; by apply (tables_apart s _ tables bus g Hl)|done|by intros x e [?|?]| |].
  { intros y dy fy Hy Hne. rewrite lookup_delete_ne; [done|]. intros <-. rewrite Hb in Hy. injection Hy as <- <-. congruence. }
  rewrite E3. cbn [vb_bus_tables vb_set_tail vb_set_attachments b1 vb_root_table_phys]. fold tables. rewrite find_position, Ej. cbn [fmap option_fmap option_map snd]. rewrite Er.
  destruct (co_ref _ _ _ _ Hc1 tb Htin) as [Eref Hrpos]. rewrite Htb, decide_True in Eref by done. set (b3 := vb_set_tail (iq_next _) _).
  destruct (release_bus_spec b3 s (bdf_bus bdf) f (delete bdf bound) _ Hnd Hin Hc1 Hl) as (t4 & s4 & E4 & Hc4 & Hl4 & Hdone). rewrite E4. cbn [mbind run_bind].
  eexists _, _, _, _, _. split; [reflexivity|]. split; [by exists (d, slpt)|]. split; [|done]. split; [done|done|exact Hu3| |done|done| |done].
  - change (vb_bus_tables b3) with tables in Hdone. change (vb_attachments b3) with atts' in Hdone. cbn [vb_bus_tables vb_set_tables]. unfold saturating_sub. destruct Hdone as [(Hp & ->)|(Hz & Hpt)].
    + destruct (Z.eqb_spec (Z.max (bct_refcount tb - 1) 0) 0); [lia|done].
    + destruct (Z.eqb_spec (Z.max (bct_refcount tb - 1) 0) 0); [|lia]. eapply clear_root_ok; [done|done|done| |].
      * intros g bus Hg. apply (tables_apart s _ tables bus g Hl). rewrite Hpt. by right.
      * intros y [dy fy] Hy. eapply (bus_count_zero atts' _ y dy Hz). apply (co_bound _ _ _ _ Hc1). by exists fy.
  - intros y dy fy [_ Hy]%lookup_delete_Some. by eapply Hdm.
Qed.

(** ** Activation *)

Lemma activate_spec s m (u : U) : src_wf s -> (forall x, av0 x <-> src_avail s x) -> uv_te (unit_view u) = false -> uv_qi (unit_view u) = false -> (forall x, unit_cached u x = None) -> (forall x, unit_tlb u x = None) ->
  (forall bus, 0 <= bus < 256 -> root_at m root bus = None) ->
  exists b' m' u', vtd_activate_hardware (vtd_prepare_activation base root queue vtd_new) m u = (Ok (), b', m', u') /\ vtd_inv av0 root queue ∅ b' s m' u' /\ vb_domains b' = [] /\ vb_translation b' = false.
Proof using Hparams.
  intros Hwf Hav Hte Hqi Hcache Htlb Hroot. destruct (vp_root _ _ _ _ Hparams) as [Hra Hrr]. destruct (vp_queue _ _ _ _ Hparams) as [Hqa Hqr]. pose proof (vp_base _ _ _ _ Hparams) as Hb.
  unfold vtd_activate_hardware, vtd_prepare_activation. cbn [vb_unit_base vb_root_table_phys vb_queue_phys vtd_new]. apply Z.eqb_neq in Hb as Hb'. rewrite Hb'.
  rewrite (proj2 (Z.eqb_neq root 0)), (proj2 (Z.eqb_neq queue 0)) by lia. cbn [orb].
  destruct (law_rtaddr root m u Hte) as (V1 & C1 & T1). cbn zeta in V1, C1, T1. set (u1 := unit_write64 _ root m u) in *. destruct (law_srtp m u1) as (u2 & E2 & V2 & C2 & T2); [by rewrite V1|]. rewrite E2. cbn [negb].
  destruct (law_iqa (encode_iqa queue INV_QUEUE_SIZE_ORDER) m u2) as (V3 & C3 & T3); [by rewrite V2|by rewrite V2, V1|]. cbn zeta in V3, C3, T3. set (u3 := unit_write64 _ 0 m _) in *.
  destruct (law_qie m u3) as (u4 & E4 & V4 & C4 & T4); [by rewrite V3|by rewrite V3|]. rewrite E4. cbn [negb encode_iotlb_global_invalidate]. set (lo := Z.lor _ _). cbn [vb_set_tail vb_queue_phys].
  unfold write_queue_entry. destruct (write_slot queue 0 lo 0 m Hqa ltac:(lia) ltac:(lia)) as (_ & _ & Ex & _). change (0 * INV_QUEUE_ENTRY_BYTES) with (0 * 16). set (m' := write_pair_at queue (0 * 16) lo 0 m) in *.
  destruct (law_drain m' u4 0) as (u5 & E5 & V5 & C5 & T5); [by rewrite V4|by rewrite V4|done|]. change (iq_next 0) with INV_QUEUE_ENTRY_BYTES in *. rewrite E5. cbn [negb].
  eexists _, _, _. split; [reflexivity|]. split; [|split; [done|cbn; by destruct (_ && _)]]. split; cbn; [done|done| | | |constructor|by intros ? ? ? ?|].
  - split; rewrite ?V5; cbn; [by rewrite V4, V3, V2, V1|by rewrite V4, V3|done|done|done|rewrite V4; by destruct (_ && _)| |].
    + intros x e _ He. destruct (C5 x e He) as [[Ht _]|[Ho _]]; [by rewrite V4 in Ht|]. rewrite C4, C3, C2, C1, Hcache in Ho. done.
    + intros x d _ He. destruct (T5 x d He) as [[Ht _]|[Ho _]]; [by rewrite V4 in Ht|]. rewrite T4, T3, T2, T1, Htlb in Ho. done.
  - split; [constructor|by intros ? ? ?%elem_of_nil| |by intros ? ? ? ?%elem_of_nil|by intros ? ? ?]. intros bus f Hbus. rewrite (root_at_ext m m') by (intros i; apply Ex; apply (vp_ne _ _ _ _ Hparams)).
    rewrite Hroot by done. split; [done|by intros ?%elem_of_nil].
  - split; [by intros ? ?%elem_of_nil|constructor|]. intros b d. rewrite elem_of_nil, lookup_empty. split; [done|]. by intros (f & ?).
  - split; [done|constructor|by intros ? ?%elem_of_nil|]. intros x. rewrite Hav, elem_of_nil. tauto.
Qed.
End Ops.

(** ** Histories *)

Inductive VtdOp :=
| VoDomain (id : Z)
| VoProvision (domain : Z)
| VoReleasePt (domain : Z)
| VoInstall (bdf domain slpt : Z) (width : AddressWidth) (translation : TranslationType)
| VoEnable
| VoRelease (bdf : Z)
| VoMap (id iova phys len flags : Z)
| VoUnmap (id iova len : Z)
| VoFlush (id : Z).

Definition vtd_op_ok (op : VtdOp) : Prop :=
  match op with VoInstall bdf d slpt _ _ => is_u16 bdf /\ is_u16 d /\ is_u64 slpt | VoRelease bdf => is_u16 bdf | _ => True end.

Inductive VtdAnswer :=
| AnInstall (r : result VtdAttachError Z)
| AnEnable (r : result VtdActivateError unit)
| AnRelease (r : result BusContextTableReleaseError unit)
| AnProvision (r : result DomainPtError Z)
| AnReleasePt (r : result DomainPtError unit)
| AnTrait (r : result IommuError unit).

(** The abstract state: installed domains, bound devices, and whether translation was enabled. *)
Record VtdAbs := { vs_domains : gset Z; vs_bound : gmap Z (Z * Z); vs_enabled : bool }.
Definition abs_init : VtdAbs := {| vs_domains := ∅; vs_bound := ∅; vs_enabled := false |}.

Definition abs_next (op : VtdOp) (an : VtdAnswer) (a : VtdAbs) : VtdAbs :=
  match op, an with
  | VoDomain id, _ => {| vs_domains := {[id]} ∪ vs_domains a; vs_bound := vs_bound a; vs_enabled := vs_enabled a |}
  | VoInstall bdf d slpt _ _, AnInstall (Ok _) => {| vs_domains := vs_domains a; vs_bound := <[bdf := (d, slpt)]> (vs_bound a); vs_enabled := vs_enabled a |}
  | VoRelease bdf, AnRelease (Ok _) => {| vs_domains := vs_domains a; vs_bound := delete bdf (vs_bound a); vs_enabled := vs_enabled a |}
  | VoEnable, AnEnable (Ok _) => {| vs_domains := vs_domains a; vs_bound := vs_bound a; vs_enabled := true |}
  | _, _ => a
  end.

Section History.
Context {U S : Type} {base : Z} `{VtdUnitLaws U base} `{PtSourceLaws S}.

Abbreviation vtd_state := (VtdBackend * S * phys_mem * U)%type.

Definition vtd_step (op : VtdOp) (st : vtd_state) : run (VtdAnswer * vtd_state) :=
  let '(b, s, m, u) := st in
  match op with
  | VoDomain id => let '(r, b) := vtd_install_domain id b in Done (AnTrait r, (b, s, m, u))
  | VoProvision d => '(r, b, s, m) ← vtd_provision_domain_pt d b s m; Done (AnProvision r, (b, s, m, u))
  | VoReleasePt d => '(r, b, s) ← vtd_release_domain_pt d b s; Done (AnReleasePt r, (b, s, m, u))
  | VoInstall bdf d slpt w t => '(r, b, s, m, u) ← install_device_entry_with_alloc bdf d slpt w t b s m u; Done (AnInstall r, (b, s, m, u))
  | VoEnable => let '(r, b, u) := vtd_enable_translation b m u in Done (AnEnable r, (b, s, m, u))
  | VoRelease bdf => '(r, b, s, m, u) ← release_device_entry_with_alloc bdf b s m u; Done (AnRelease r, (b, s, m, u))
  | VoMap id iova phys len flags => let '(r, b) := vtd_map id iova phys len flags b in Done (AnTrait r, (b, s, m, u))
  | VoUnmap id iova len => let '(r, b) := vtd_unmap id iova len b in Done (AnTrait r, (b, s, m, u))
  | VoFlush id => let '(r, b) := vtd_flush id b in Done (AnTrait r, (b, s, m, u))
  end.

Inductive vtd_reach (st0 : vtd_state) : VtdAbs -> vtd_state -> Prop :=
| reach_init : vtd_reach st0 abs_init st0
| reach_step a st op an st' : vtd_reach st0 a st -> vtd_op_ok op -> vtd_step op st = Done (an, st') -> vtd_reach st0 (abs_next op an a) st'.

(** What the answer to an operation says of the abstract state before it. *)
Definition vtd_answer_ok (op : VtdOp) (an : VtdAnswer) (a : VtdAbs) (st : vtd_state) : Prop :=
  let '(b, s, m, u) := st in
  match op, an with
  | VoInstall bdf d slpt _ _, AnInstall (Ok _) => slpt mod 4096 = 0 /\ d ∈ vs_domains a /\ vs_bound a !! bdf = None
  | VoInstall bdf d slpt _ _, AnInstall (Err VtBusContextAllocFailed) => (forall x e, vs_bound a !! x = Some e -> bdf_bus x <> bdf_bus bdf) /\ forall x, ~ src_avail s x
  | VoInstall bdf d slpt _ _, AnInstall (Err VtAddressMisaligned) => slpt mod 4096 <> 0
  | VoInstall bdf d slpt _ _, AnInstall (Err VtDomainNotInstalled) => d ∉ vs_domains a
  | VoInstall bdf d slpt _ _, AnInstall (Err VtAlreadyAttached) => exists e, vs_bound a !! bdf = Some e
  | VoRelease bdf, AnRelease (Ok _) => exists e, vs_bound a !! bdf = Some e
  | VoRelease bdf, AnRelease (Err _) => vs_bound a !! bdf = None
  | VoProvision d, AnProvision (Ok _) => is_provisioned (vb_domain_pts b) d = false
  | VoProvision d, AnProvision (Err AlreadyProvisioned) => is_provisioned (vb_domain_pts b) d = true
  | VoProvision d, AnProvision (Err FrameAllocFailed) => forall x, ~ src_avail s x
  | VoReleasePt d, AnReleasePt (Ok _) => is_provisioned (vb_domain_pts b) d = true
  | VoReleasePt d, AnReleasePt (Err NotProvisioned) => is_provisioned (vb_domain_pts b) d = false
  | VoEnable, AnEnable (Ok _) => True
  | VoDomain _, AnTrait (Ok _) | VoMap _ _ _ _ _, AnTrait _ | VoUnmap _ _ _, AnTrait _ | VoFlush _, AnTrait _ => True
  | _, _ => False
  end.

Definition state_inv (av0 : Z -> Prop) (root queue : Z) (a : VtdAbs) (st : vtd_state) : Prop :=
  let '(b, s, m, u) := st in
  vtd_inv av0 root queue (vs_bound a) b s m u /\ (forall d, vtd_has_domain b d = true <-> d ∈ vs_domains a) /\ vb_translation b = vs_enabled a.

Context (av0 : Z -> Prop) (root queue : Z) (Hparams : vtd_params av0 base root queue).

Lemma has_domain_app b d id : vtd_has_domain (snd (vtd_install_domain id b)) d = true <-> d = id \/ vtd_has_domain b d = true.
Proof using Type.
  unfold vtd_install_domain. cbn [snd]. destruct (vtd_has_domain b id) eqn:E; cbn [negb].
  - split; [by right|]. intros [->|?]; done.
  - unfold vtd_has_domain. cbn. rewrite existsb_app, orb_true_iff. cbn. rewrite orb_false_r, Z.eqb_eq. naive_solver.
Qed.

(** Operations that touch neither the tables nor the frames keep the invariant. *)
Lemma inv_bookkeeping bound b b' (s : S) m (u : U) : vtd_inv av0 root queue bound b s m u ->
  vb_unit_base b' = vb_unit_base b -> vb_root_table_phys b' = vb_root_table_phys b -> vb_queue_phys b' = vb_queue_phys b -> vb_queue_tail b' = vb_queue_tail b -> vb_activated b' = vb_activated b ->
  vb_attachments b' = vb_attachments b -> vb_domain_pts b' = vb_domain_pts b -> vb_bus_tables b' = vb_bus_tables b -> vb_translation b' = vb_translation b -> vtd_inv av0 root queue bound b' s m u.
Proof using Type. intros [Hb Ha Hu Ht Hc Hp Hd Hl] E1 E2 E3 E4 E5 E6 E7 E8 E9. split; rewrite ?E1, ?E2, ?E3, ?E4, ?E5, ?E6, ?E7, ?E8, ?E9; done. Qed.

(** Registering or dropping a domain's root frame changes only that frame. *)
Lemma inv_pts bound b s s' m m' (u : U) t : vtd_inv av0 root queue bound b s m u -> pts_ok t -> ledger av0 s' (pts_held t ++ map bct_phys (vb_bus_tables b)) ->
  (m' = m \/ exists f, m' = zero_table f m /\ av0 f /\ f ∉ map bct_phys (vb_bus_tables b)) -> vtd_inv av0 root queue bound (vb_set_pts t b) s' m' u.
Proof using Hparams.
  intros [Hb Ha Hu Ht Hc Hp Hd Hl] Hpt Hl' Hm. split; try done. cbn. destruct Hm as [->|(f & -> & Hav & Hf)]; [done|].
  apply (tables_frame m _ _ _ _ (fun x => x = f) Ht).
  - intros x i Hx. rewrite entry_zero. by destruct (Z.eqb_spec x f).
  - intros E. apply (proj1 (vp_free _ _ _ _ Hparams)). by rewrite E.
  - intros bus g Hg ->. apply Hf. by eapply tabs_phys_in.
Qed.

Lemma vtd_map_frame id iova phys len flags b : exists r l, vtd_map id iova phys len flags b = (r, vb_set_mappings l b).
Proof using Type.
  assert (b = vb_set_mappings (vb_mappings b) b) as E by (by destruct b). unfold vtd_map. destruct (negb _); [eexists _, _; by rewrite <- E|]. destruct (_ || _); [eexists _, _; by rewrite <- E|].
  destruct (encode_slpte _ _); [by eexists _, _|eexists _, _; by rewrite <- E].
Qed.

Lemma vtd_unmap_frame id iova len b : exists r l, vtd_unmap id iova len b = (r, vb_set_mappings l b).
Proof using Type.
  assert (b = vb_set_mappings (vb_mappings b) b) as E by (by destruct b). unfold vtd_unmap. destruct (negb _); [eexists _, _; by rewrite <- E|]. destruct (_ || _); [eexists _, _; by rewrite <- E|].
  cbv zeta. destruct (Nat.eqb _ _); by eexists _, _.
Qed.

(** Enabling translation turns the unit on, once. *)
Lemma enable_spec bound b (s : S) m (u : U) : vtd_inv av0 root queue bound b s m u ->
  exists u', vtd_enable_translation b m u = (Ok (), vb_set_flags (vb_activated b) true b, u') /\ vtd_inv av0 root queue bound (vb_set_flags (vb_activated b) true b) s m u'.
Proof using Hparams.
  intros Hinv. pose proof Hinv as [Hb Ha [U1 U2 U3 U4 U5 U6 U7 U8] Ht Hc Hp Hd Hl]. unfold vtd_enable_translation. rewrite Ha. cbn [negb]. destruct (vb_translation b) eqn:Ete.
  - exists u. assert (vb_set_flags true true b = b) as -> by (destruct b; cbn in *; by subst). done.
  - destruct Hb as (Eb & Er & Eq). rewrite Eb. destruct (law_te m u) as (u' & E & V & C & T). rewrite E. cbn [negb]. exists u'. split; [done|]. split; try done. cbn [vb_queue_tail vb_translation vb_set_flags].
    split; rewrite ?V; cbn; try done.
    + intros x e Hx He. destruct (C x e He) as [Hw|Hold]; [|by apply U7]. by rewrite U1, (tables_walk m root _ bound x Ht Hx) in Hw.
    + intros x d Hx He. destruct (T x d He) as [(f & [Hw|Hold])|Hold]; [| |by apply U8]; exists f; [by rewrite U1, (tables_walk m root _ bound x Ht Hx) in Hw|by apply U7].
Qed.

Lemma vtd_step_ok op a st : state_inv av0 root queue a st -> vtd_op_ok op ->
  exists an st', vtd_step op st = Done (an, st') /\ vtd_answer_ok op an a st /\ state_inv av0 root queue (abs_next op an a) st'.
Proof using Hparams.
  destruct st as [[[b s] m] u]. intros (Hinv & Hdom & Hte) Hop. destruct op as [id|d|d|bdf d slpt w t| |bdf|id iova phys len flags|id iova len|id]; cbn [vtd_step].
  - eexists _, _. split; [reflexivity|]. split; [done|]. cbn [abs_next state_inv vs_bound vs_domains]. split.
    + eapply inv_bookkeeping; [exact Hinv|..]; by destruct (vtd_has_domain b id).
    + split; [|by destruct (vtd_has_domain b id)]. intros d. rewrite elem_of_union, elem_of_singleton, <- Hdom. apply has_domain_app.
  - unfold vtd_provision_domain_pt. destruct (provision_spec av0 (vb_domain_pts b) _ s m d (vi_pts _ _ _ _ _ _ _ _ Hinv) (vi_ledger _ _ _ _ _ _ _ _ Hinv)) as (r & t & s' & m' & E & Hok & Hl & Hr).
    rewrite E. cbn [mbind run_bind]. eexists _, _. split; [reflexivity|]. split; [|cbn [abs_next state_inv vs_bound]; split; [|done]].
    + destruct r as [f|[]]; cbn; naive_solver.
    + eapply (inv_pts _ b s s' m m'); [done|done|done|]. destruct r as [f|[]]; [right; exists f|left; tauto|done|left; tauto|done]. destruct Hr as (_ & -> & -> & Hf). split; [done|].
      split; [|intros Hx; apply Hf, elem_of_app; by right]. apply (lg_all _ _ _ Hl). right. unfold pts_held. rewrite map_app. apply elem_of_app. left. apply elem_of_app. right. by left.
  - unfold vtd_release_domain_pt. destruct (Iommu.release_spec av0 (vb_domain_pts b) _ s d (vi_pts _ _ _ _ _ _ _ _ Hinv) (vi_ledger _ _ _ _ _ _ _ _ Hinv)) as (r & t & s' & E & Hok & Hl & Hr).
    rewrite E. cbn [mbind run_bind]. eexists _, _. split; [reflexivity|]. split; [|cbn [abs_next state_inv vs_bound]; split; [|done]].
    + destruct r as [[]|[]]; cbn; try (exact (False_ind _ Hr)); [|exact (proj1 Hr)]. destruct Hr as (f & Hp). apply is_provisioned_spec. rewrite (Permutation_map _ Hp). by left.
    + eapply (inv_pts _ b s s' m m); [done|done|done|by left].
  - destruct Hop as (Hb & Hd & Hs). destruct (install_spec av0 root queue Hparams bdf d slpt w t _ b s m u Hinv Hb Hd Hs) as (r & b' & s' & m' & u' & E & Hans & Hinv' & Hdoms & _ & Htr). rewrite E. cbn [mbind run_bind].
    eexists _, _. split; [reflexivity|]. assert (forall x, vtd_has_domain b' x = true <-> x ∈ vs_domains a) as Hdom' by (intros x; unfold vtd_has_domain; rewrite Hdoms; apply Hdom). split.
    + destruct r as [f|[]]; cbn in *; rewrite <- ?Hdom; try naive_solver. intros Hx. destruct Hans as [_ Hans]. congruence.
    + destruct r as [f|e]; cbn; (split; [done|]); (split; [done|by rewrite Htr]).
  - destruct (enable_spec _ b s m u Hinv) as (u' & E & Hinv'). rewrite E. eexists _, _. split; [reflexivity|]. split; [done|]. split; [exact Hinv'|]. split; [exact Hdom|done].
  - destruct (release_device_spec av0 root queue Hparams bdf _ b s m u Hinv Hop) as (r & b' & s' & m' & u' & E & Hans & Hinv' & Hdoms & _ & Htr). rewrite E. cbn [mbind run_bind].
    eexists _, _. split; [reflexivity|]. assert (forall x, vtd_has_domain b' x = true <-> x ∈ vs_domains a) as Hdom' by (intros x; unfold vtd_has_domain; rewrite Hdoms; apply Hdom).
    destruct r as [[]|[]]; cbn; (split; [done|]); (split; [|split; [done|by rewrite Htr]]); [done|]. by rewrite delete_id in Hinv'.
  - destruct (vtd_map_frame id iova phys len flags b) as (r & l & ->). eexists _, _. split; [reflexivity|]. split; [done|]. split; [|split; [exact Hdom|done]]. by eapply inv_bookkeeping; [exact Hinv|..].
  - destruct (vtd_unmap_frame id iova len b) as (r & l & ->). eexists _, _. split; [reflexivity|]. split; [done|]. split; [|split; [exact Hdom|done]]. by eapply inv_bookkeeping; [exact Hinv|..].
  - unfold vtd_flush. destruct (negb _); eexists _, _; (split; [reflexivity|]); done.
Qed.

Lemma reach_inv st0 a st : state_inv av0 root queue abs_init st0 -> vtd_reach st0 a st -> state_inv av0 root queue a st.
Proof using Hparams.
  intros Hinit Hr. induction Hr as [|a st op an st' Hr IH Hop E]; [done|]. destruct (vtd_step_ok op a st IH Hop) as (an' & st'' & E' & _ & Hinv). congruence.
Qed.
End History.


(** ** A unit that keeps the contract

    Registers at [SIM_BASE]; it consumes every descriptor at once and, while
    translation is on, caches the entries and the translations of a few devices
    that keep asking. *)

Definition SIM_BASE : Z := 0xFED90000.

Record SimUnit := { su_view : UnitView; su_rtps : bool; su_cache : gmap Z (Z * Z); su_tlb : gmap Z Z; su_watched : list Z }.

Definition sim_regs (v : UnitView) (rtps : bool) (c : gmap Z (Z * Z)) (t : gmap Z Z) (u : SimUnit) : SimUnit :=
  {| su_view := v; su_rtps := rtps; su_cache := c; su_tlb := t; su_watched := su_watched u |}.
Definition sim_view (v : UnitView) (rtps : bool) (u : SimUnit) : SimUnit := sim_regs v rtps (su_cache u) (su_tlb u) u.

(** The watched devices ask. *)
Definition sim_fill {V} (g : Z * Z -> V) (m : phys_mem) (root : Z) (ws : list Z) (c : gmap Z V) : gmap Z V :=
  foldr (fun w c => match ctx_walk m root w with Some e => <[w := g e]> c | None => c end) c ws.

Fixpoint sim_consume (fuel : nat) (m : phys_mem) (q head tail : Z) (c : gmap Z (Z * Z)) (t : gmap Z Z) : Z * gmap Z (Z * Z) * gmap Z Z :=
  match fuel with
  | O => (head, c, t)
  | Datatypes.S fuel =>
      if head =? tail then (head, c, t) else
      sim_consume fuel m q (iq_next head) tail (filter (fun '(_, e) => evicts (entry m q (head / 8)) e = false) c) (filter (fun '(_, d) => tlb_evicts (entry m q (head / 8)) d = false) t)
  end.

Definition sim_write64 (a v : Z) (m : phys_mem) (u : SimUnit) : SimUnit :=
  let w := su_view u in
  if a =? SIM_BASE + VTD_RTADDR then
    sim_view {| uv_rtaddr := v; uv_root := uv_root w; uv_iqa := uv_iqa w; uv_qi := uv_qi w; uv_te := uv_te w; uv_head := uv_head w |} (su_rtps u) u
  else if a =? SIM_BASE + VTD_IQA then
    sim_view {| uv_rtaddr := uv_rtaddr w; uv_root := uv_root w; uv_iqa := v; uv_qi := uv_qi w; uv_te := uv_te w; uv_head := uv_head w |} (su_rtps u) u
  else if (a =? SIM_BASE + VTD_IQT) && uv_qi w then
    let '(head, c, t) := sim_consume 256 m (Z.land (uv_iqa w) 0x000FFFFFFFFFF000) (uv_head w) v (su_cache u) (su_tlb u) in
    let w' := {| uv_rtaddr := uv_rtaddr w; uv_root := uv_root w; uv_iqa := uv_iqa w; uv_qi := uv_qi w; uv_te := uv_te w; uv_head := head |} in
    if uv_te w then sim_regs w' (su_rtps u) (sim_fill id m (uv_root w) (su_watched u) c) (sim_fill fst m (uv_root w) (su_watched u) t) u
    else sim_regs w' (su_rtps u) c t u
  else u.

Definition sim_write32 (a v : Z) (m : phys_mem) (u : SimUnit) : SimUnit :=
  let w := su_view u in
  if negb (a =? SIM_BASE + VTD_GCMD) then u else
  if v =? GCMD_BIT_SRTP then
    sim_view {| uv_rtaddr := uv_rtaddr w; uv_root := uv_rtaddr w; uv_iqa := uv_iqa w; uv_qi := uv_qi w; uv_te := uv_te w; uv_head := uv_head w |} true u
  else if v =? GCMD_BIT_QIE then
    sim_view {| uv_rtaddr := uv_rtaddr w; uv_root := uv_root w; uv_iqa := uv_iqa w; uv_qi := true; uv_te := uv_te w; uv_head := 0 |} (su_rtps u) u
  else if v =? GCMD_BIT_TE then
    sim_regs {| uv_rtaddr := uv_rtaddr w; uv_root := uv_root w; uv_iqa := uv_iqa w; uv_qi := uv_qi w; uv_te := true; uv_head := uv_head w |} (su_rtps u)
      (sim_fill id m (uv_root w) (su_watched u) (su_cache u)) (sim_fill fst m (uv_root w) (su_watched u) (su_tlb u)) u
  else u.

Definition sim_read32 (a : Z) (m : phys_mem) (u : SimUnit) : Z * SimUnit :=
  let w := su_view u in
  (Z.lor (Z.lor (if su_rtps u then GSTS_BIT_RTPS else 0) (if uv_qi w then GSTS_BIT_QIES else 0)) (if uv_te w then GSTS_BIT_TES else 0), u).
Definition sim_read64 (a : Z) (m : phys_mem) (u : SimUnit) : Z * SimUnit := (uv_head (su_view u), u).

#[global] Instance sim_unit : MmioUnit SimUnit := {| unit_write32 := sim_write32; unit_write64 := sim_write64; unit_read32 := sim_read32; unit_read64 := sim_read64 |}.

Lemma sim_fill_some {V} (g : Z * Z -> V) m root ws (c : gmap Z V) b v : sim_fill g m root ws c !! b = Some v -> (exists e, ctx_walk m root b = Some e /\ v = g e) \/ c !! b = Some v.
Proof.
  induction ws as [|w ws IH]; cbn; [by right|]. destruct (ctx_walk m root w) as [e|] eqn:E; [|exact IH].
  destruct (decide (b = w)) as [->|Hne]; [rewrite lookup_insert_eq; intros [= <-]; left; by exists e|]. by rewrite lookup_insert_ne by congruence.
Qed.

Lemma sim_poll_gsts bit m (u : SimUnit) : (Z.land (fst (sim_read32 0 m u)) bit =? 0) = false -> poll_gsts_bit SIM_BASE bit m u = (true, u).
Proof. intros E. apply poll_now; [done|]. cbn [unit_read32 sim_unit]. unfold sim_read32 in *. cbn [fst] in E. by rewrite E. Qed.

Lemma sim_poll_iqh t m (u : SimUnit) : uv_head (su_view u) = t -> poll_iqh_reaches SIM_BASE t m u = (true, u).
Proof. intros E. apply poll_now; [done|]. cbn [unit_read64 sim_unit sim_read64]. by rewrite E, Z.eqb_refl. Qed.

(** The three command writes. *)
Lemma sim_srtp m u (w := su_view u) : sim_write32 (SIM_BASE + VTD_GCMD) GCMD_BIT_SRTP m u =
  sim_view {| uv_rtaddr := uv_rtaddr w; uv_root := uv_rtaddr w; uv_iqa := uv_iqa w; uv_qi := uv_qi w; uv_te := uv_te w; uv_head := uv_head w |} true u.
Proof. unfold sim_write32. rewrite Z.eqb_refl. done. Qed.
Lemma sim_qie m u (w := su_view u) : sim_write32 (SIM_BASE + VTD_GCMD) GCMD_BIT_QIE m u =
  sim_view {| uv_rtaddr := uv_rtaddr w; uv_root := uv_root w; uv_iqa := uv_iqa w; uv_qi := true; uv_te := uv_te w; uv_head := 0 |} (su_rtps u) u.
Proof. unfold sim_write32. rewrite Z.eqb_refl. done. Qed.
Lemma sim_te m u (w := su_view u) : sim_write32 (SIM_BASE + VTD_GCMD) GCMD_BIT_TE m u =
  sim_regs {| uv_rtaddr := uv_rtaddr w; uv_root := uv_root w; uv_iqa := uv_iqa w; uv_qi := uv_qi w; uv_te := true; uv_head := uv_head w |} (su_rtps u)
    (sim_fill id m (uv_root w) (su_watched u) (su_cache u)) (sim_fill fst m (uv_root w) (su_watched u) (su_tlb u)) u.
Proof. unfold sim_write32. rewrite Z.eqb_refl. done. Qed.

Lemma next_slot_ne t : slot_ok t -> iq_next t <> t.
Proof. unfold slot_ok, iq_next. change INV_QUEUE_BYTES with 4096. change INV_QUEUE_ENTRY_BYTES with 16. intros [? ?]. destruct (Z.leb_spec 4096 (t + 16)); [|lia]. intros <-. lia. Qed.

Lemma sim_consume_one n m q t c tl : slot_ok t ->
  sim_consume (Datatypes.S (Datatypes.S n)) m q t (iq_next t) c tl =
  (iq_next t, filter (fun '(_, e) => evicts (entry m q (t / 8)) e = false) c, filter (fun '(_, d) => tlb_evicts (entry m q (t / 8)) d = false) tl).
Proof. intros Hslot. cbn [sim_consume]. pose proof (next_slot_ne t Hslot). rewrite (proj2 (Z.eqb_neq t (iq_next t))), Z.eqb_refl by congruence. done. Qed.

(** What a filled cache holds. *)
Lemma sim_fill_cached m root ws (c : gmap Z (Z * Z)) b e : sim_fill id m root ws c !! b = Some e -> ctx_walk m root b = Some e \/ c !! b = Some e.
Proof. intros [(e' & Hw & ->)|Hc]%sim_fill_some; [by left|by right]. Qed.
Lemma sim_fill_tlb m root ws (c : gmap Z Z) b d : sim_fill fst m root ws c !! b = Some d -> (exists f, ctx_walk m root b = Some (d, f)) \/ c !! b = Some d.
Proof. intros [([d' f] & Hw & ->)|Hc]%sim_fill_some; [left; by exists f|by right]. Qed.

#[global] Instance sim_unit_laws : VtdUnitLaws SimUnit SIM_BASE.
Proof.
  refine {| unit_view := su_view; unit_cached := fun u b => su_cache u !! b; unit_tlb := fun u b => su_tlb u !! b |}.
  - intros v m u Hte u'. unfold u'. cbn [unit_write64 sim_unit]. unfold sim_write64. rewrite Z.eqb_refl. split; [|done]. cbn. by rewrite Hte.
  - intros m u Hte. cbn [unit_write32 sim_unit]. rewrite sim_srtp. eexists. split; [apply sim_poll_gsts|]; cbn; [by destruct (uv_qi _), (uv_te _)|by rewrite Hte].
  - intros v m u Hte Hqi u'. unfold u'. cbn [unit_write64 sim_unit]. unfold sim_write64. rewrite Z.eqb_refl.
    change (SIM_BASE + VTD_IQA =? SIM_BASE + VTD_RTADDR) with false. change (SIM_BASE + VTD_IQT =? SIM_BASE + VTD_RTADDR) with false. change (SIM_BASE + VTD_IQT =? SIM_BASE + VTD_IQA) with false.
    cbn [su_view sim_view sim_regs uv_qi]. rewrite Hqi, andb_false_r. split; [|done]. cbn. by rewrite Hte.
  - intros m u Hte Hqi. cbn [unit_write32 sim_unit]. rewrite sim_qie. eexists. split; [apply sim_poll_gsts|]; cbn; [by destruct (su_rtps u), (uv_te _)|by rewrite Hte].
  - intros m u t Hqi Hhead Hslot t' q. cbn [unit_write64 sim_unit]. unfold sim_write64. change (SIM_BASE + VTD_IQT =? SIM_BASE + VTD_RTADDR) with false. change (SIM_BASE + VTD_IQT =? SIM_BASE + VTD_IQA) with false.
    rewrite Z.eqb_refl, Hqi, Hhead. cbn [andb]. fold q. rewrite (sim_consume_one 254 m q t (su_cache u) (su_tlb u) Hslot : sim_consume 256 m q t t' (su_cache u) (su_tlb u) = _). fold t'.
    set (c := filter _ (su_cache u)). set (tl := filter _ (su_tlb u)).
    assert (forall b e, c !! b = Some e -> su_cache u !! b = Some e /\ evicts (entry m q (t / 8)) e = false) as Hc by (intros b e [? ?]%map_lookup_filter_Some; done).
    assert (forall b d, tl !! b = Some d -> su_tlb u !! b = Some d /\ tlb_evicts (entry m q (t / 8)) d = false) as Htl by (intros b e [? ?]%map_lookup_filter_Some; done).
    destruct (uv_te (su_view u)) eqn:Hte; (eexists; split; [apply sim_poll_iqh; reflexivity|]; split; [done|]; cbn [su_cache su_tlb sim_regs]; split).
    + intros b e [Hw|Hx]%sim_fill_cached; [by left|right; by apply Hc].
    + intros b d [(f & Hw)|Hx]%sim_fill_tlb; [left; split; [done|exists f; by left]|right; by apply Htl].
    + intros b e Hx. right. by apply Hc.
    + intros b d Hx. right. by apply Htl.
  - intros m u. cbn [unit_write32 sim_unit]. rewrite sim_te. eexists. split; [apply sim_poll_gsts; cbn; by destruct (su_rtps u), (uv_qi _)|]. split; [done|]. cbn [su_cache su_tlb sim_regs]. split.
    + intros b e. apply sim_fill_cached.
    + intros b d [(f & Hw)|Hx]%sim_fill_tlb; [left; exists f; by left|by right].
Defined.

(** ** The theorem on a concrete machine *)

Fixpoint vtd_run {U S : Type} `{MmioUnit U} `{PtSource S} (ops : list VtdOp) (a : VtdAbs) (st : VtdBackend * S * phys_mem * U) : run (VtdAbs * (VtdBackend * S * phys_mem * U)) :=
  match ops with
  | [] => Done (a, st)
  | op :: ops => '(an, st) ← vtd_step op st; vtd_run ops (abs_next op an a) st
  end.

Lemma run_reach {U S : Type} `{MmioUnit U} `{PtSource S} ops st0 a st a' st' : vtd_reach st0 a st -> Forall vtd_op_ok ops -> vtd_run ops a st = Done (a', st') -> vtd_reach st0 a' st'.
Proof.
  revert a st. induction ops as [|op ops IH]; intros a st Hr Hops E; cbn in E; [by injection E as <- <-|]. apply Forall_cons in Hops as [Hop Hops].
  run_inv. destruct a0 as [an st1]. eapply IH; [|done|exact E]. by eapply reach_step.
Qed.

Definition demo_unit : SimUnit := {| su_view := {| uv_rtaddr := 0; uv_root := 0; uv_iqa := 0; uv_qi := false; uv_te := false; uv_head := 0 |}; su_rtps := false; su_cache := ∅; su_tlb := ∅; su_watched := [0x18; 0x19; 0x118] |}.
Definition demo_boot : result VtdActivateError unit * VtdBackend * phys_mem * SimUnit := vtd_activate_hardware (vtd_prepare_activation SIM_BASE 0x10000 0x11000 vtd_new) ∅ demo_unit.

(** Two devices of bus 0 and one of bus 1 in domain 7, with translation on; one of bus 0 leaves, and the one of bus 1, which takes the bus's table away. *)
Definition demo_vtd_ops : list VtdOp :=
  [VoDomain 7; VoProvision 7; VoEnable; VoInstall 0x18 7 0x100000 Bits48Level4 UntranslatedAndTranslated; VoInstall 0x19 7 0x100000 Bits48Level4 UntranslatedAndTranslated;
   VoInstall 0x118 7 0x100000 Bits48Level4 UntranslatedAndTranslated; VoInstall 0x19 7 0x100000 Bits48Level4 UntranslatedAndTranslated; VoRelease 0x18; VoRelease 0x118].
Definition demo_run_from (boot : result VtdActivateError unit * VtdBackend * phys_mem * SimUnit) := let '(_, b, m, u) := boot in vtd_run demo_vtd_ops abs_init (b, demo_frames, m, u).

Lemma demo_vtd_params : vtd_params (src_avail demo_frames) SIM_BASE 0x10000 0x11000.
Proof.
  assert (forall x, x < 0x100000 -> ~ fs_avail demo_frames x) as Hn by (intros x Hx (i & [Hi _] & _ & ->); unfold frame_addr in Hx; cbn [Paging.demo_frames FrameAlloc.base] in Hx; lia).
  split; [split; [done|lia]|split; [done|lia]|done|done|]. split; apply Hn; lia.
Qed.

(** The caches hold the device that stayed and none that left. *)
Lemma demo_vtd_check : exists a b s m u, demo_run_from demo_boot = Done (a, (b, s, m, u)) /\
  map (ctx_walk m 0x10000) [0x18; 0x19; 0x118] = [None; Some (7, 0x100000); None] /\ map bct_phys (vb_bus_tables b) = [0x101000] /\
  map (fun x => su_cache u !! x) [0x18; 0x19; 0x118] = [None; Some (7, 0x100000); None] /\ map (fun x => su_tlb u !! x) [0x18; 0x19; 0x118] = [None; Some 7; None].
Proof.
  assert (match demo_run_from demo_boot with Done (_, (b, _, m, u)) => bool_decide (map (ctx_walk m 0x10000) [0x18; 0x19; 0x118] = [None; Some (7, 0x100000); None] /\ map bct_phys (vb_bus_tables b) = [0x101000] /\
    map (fun x => su_cache u !! x) [0x18; 0x19; 0x118] = [None; Some (7, 0x100000); None] /\ map (fun x => su_tlb u !! x) [0x18; 0x19; 0x118] = [None; Some 7; None]) | Panicked => false end = true) as Hb by (vm_compute; reflexivity).
  destruct (demo_run_from demo_boot) as [[a [[[b s] m] u]]|]; [|discriminate Hb]. apply bool_decide_eq_true in Hb as (Hw & Ht & Hc). by exists a, b, s, m, u.
Qed.

Lemma demo_boot_eq : vtd_activate_hardware (vtd_prepare_activation SIM_BASE 0x10000 0x11000 vtd_new) ∅ demo_unit = demo_boot.
Proof. unfold demo_boot. reflexivity. Qed.

Lemma demo_vtd_ops_ok : Forall vtd_op_ok demo_vtd_ops.
Proof. unfold demo_vtd_ops. repeat constructor; unfold is_u16, is_u64; lia. Qed.

Lemma demo_reach boot r b0 m0 u0 a st : boot = (r, b0, m0, u0) -> demo_run_from boot = Done (a, st) -> vtd_reach (b0, demo_frames, m0, u0) a st.
Proof. intros -> E. cbn [demo_run_from] in E. eapply run_reach; [apply reach_init|exact demo_vtd_ops_ok|exact E]. Qed.


(** ** When a command write drops the queue

    A unit whose enables follow the last command written, as the specification's
    register description has it: raising the translation bit alone turns the
    invalidation queue off. *)

Record LevelUnit := { lu_unit : SimUnit }.
Definition level_write32 (a v : Z) (m : phys_mem) (u : LevelUnit) : LevelUnit :=
  let x := sim_write32 a v m (lu_unit u) in
  let w := su_view x in
  {| lu_unit := if a =? SIM_BASE + VTD_GCMD then
       sim_view {| uv_rtaddr := uv_rtaddr w; uv_root := uv_root w; uv_iqa := uv_iqa w; uv_qi := negb (Z.land v GCMD_BIT_QIE =? 0); uv_te := negb (Z.land v GCMD_BIT_TE =? 0); uv_head := uv_head w |} (su_rtps x) x
     else x |}.
#[global] Instance level_unit : MmioUnit LevelUnit := {|
  unit_write32 := level_write32;
  unit_write64 := fun a v m u => {| lu_unit := sim_write64 a v m (lu_unit u) |};
  unit_read32 := fun a m u => (fst (sim_read32 a m (lu_unit u)), u);
  unit_read64 := fun a m u => (fst (sim_read64 a m (lu_unit u)), u);
|}.

Definition level_run : run (VtdAbs * (VtdBackend * BitmapFrameAllocator * phys_mem * LevelUnit)) :=
  let '(_, b, m, u) := vtd_activate_hardware (vtd_prepare_activation SIM_BASE 0x10000 0x11000 vtd_new) ∅ {| lu_unit := demo_unit |} in
  vtd_run [VoDomain 7; VoInstall 0x18 7 0x120000 Bits48Level4 UntranslatedAndTranslated; VoEnable; VoRelease 0x18] abs_init (b, demo_frames, m, u).

(** There the release of the device succeeds, its entry is gone from the
    tables, and the unit still translates for it. *)
Example enable_drops_queue :
  match level_run with
  | Done (a, (b, s, m, u)) => vs_bound a !! 0x18 = None /\ vb_attachments b = [] /\ ctx_walk m 0x10000 0x18 = None /\
      su_cache (lu_unit u) !! 0x18 = Some (7, 0x120000) /\ su_tlb (lu_unit u) !! 0x18 = Some 7
  | Panicked => False
  end.
Proof. vm_compute. repeat split. Qed.

(** ** When the invalidation does not drain *)

(** A unit whose queue head stays where the activation left it. *)
Record StuckUnit := { stuck_writes : Z }.
#[global] Instance stuck_unit : MmioUnit StuckUnit := {|
  unit_write32 := fun _ _ _ u => {| stuck_writes := stuck_writes u + 1 |};
  unit_write64 := fun _ _ _ u => {| stuck_writes := stuck_writes u + 1 |};
  unit_read32 := fun _ _ u => (u32_max, u);
  unit_read64 := fun _ _ u => (INV_QUEUE_ENTRY_BYTES, u);
|}.

Definition stuck_install : run (result VtdAttachError Z * VtdBackend * BitmapFrameAllocator * phys_mem * StuckUnit) :=
  let '(_, b, m, u) := vtd_activate_hardware (vtd_prepare_activation SIM_BASE 0x10000 0x11000 vtd_new) ∅ {| stuck_writes := 0 |} in
  install_device_entry_with_alloc 0x18 7 0x120000 Bits48Level4 UntranslatedAndTranslated (snd (vtd_install_domain 7 b)) demo_frames m u.

(** The installation reports the timeout and gives the context table's frame
    back, but the root entry it wrote still points at that frame, and the
    device's entry in it is present: the next owner of the frame writes the
    unit's tables. *)
Example timeout_leaves_root_entry :
  match stuck_install with
  | Done (r, b, s, m, _) => r = Err VtInvalidationTimeout /\ vb_bus_tables b = [] /\ vb_attachments b = [] /\ root_at m 0x10000 0 = Some 0x100000 /\ ctx_walk m 0x10000 0x18 = Some (7, 0x120000) /\
      match fs_alloc s with Done (f, _) => f = Some 0x100000 | Panicked => False end
  | Panicked => False
  end.
Proof. vm_compute. repeat split. Qed.

(** ** Devices that are already recorded

    A device recorded with the trait's [attach_device] can not get an entry: the
    installation refuses it before it writes anything, and the context table
    taken for it goes back. *)

Lemma attached_refused {U : Type} `{MmioUnit U} bdf d slpt f w t b m (u : U) : vtd_has_attachment b bdf = true -> exists e, vtd_install_device_entry bdf d slpt f w t b m u = (Err e, b, m, u).
Proof.
  intros Ha. unfold vtd_install_device_entry. rewrite Ha. destruct (negb (vb_activated b)); [by eexists|]. destruct (_ || _); [by eexists|]. destruct (negb (vtd_has_domain b d)); by eexists.
Qed.

(** Memory outside the frames that were free at the start. *)
Definition same_outside (av0 : Z -> Prop) (m m' : phys_mem) : Prop := forall x i, ~ av0 x -> entry m' x i = entry m x i.

#[global] Instance same_outside_preorder av0 : PreOrder (same_outside av0).
Proof. split; [by intros m x i|]. intros m1 m2 m3 H1 H2 x i Hx. by rewrite (H2 x i Hx), (H1 x i Hx). Qed.

Lemma zero_same_outside (av0 : Z -> Prop) f m : av0 f -> same_outside av0 m (zero_table f m).
Proof. intros Hf x i Hx. rewrite entry_zero. destruct (Z.eqb_spec x f) as [->|]; done. Qed.

Lemma attached_install_inert {U S : Type} `{MmioUnit U} `{PtSourceLaws S} av0 pts bdf d slpt w t b (s : S) m (u : U) : vtd_has_attachment b bdf = true -> vb_bus_tables b = [] -> ledger av0 s pts ->
  exists s' m' e, install_device_entry_with_alloc bdf d slpt w t b s m u = Done (Err e, b, s', m', u) /\ ledger av0 s' pts /\ same_outside av0 m m'.
Proof.
  intros Hatt Hnone Hl. unfold install_device_entry_with_alloc, acquire_bus_context_table. rewrite Hnone. cbn [position list_find].
  destruct (ledger_alloc av0 s _ m Hl) as [(f & s' & E & Hl' & Hav & Hal)|(s' & E & Hl' & _)]; rewrite E; cbn [mbind run_bind].
  - rewrite Hal. cbn [negb Z.eqb app mbind run_bind]. set (b1 := vb_set_tables _ _). destruct (attached_refused bdf d slpt f w t b1 (zero_table f m) u) as [e ->]; [exact Hatt|].
    unfold release_bus_context_table. cbn [b1 vb_bus_tables vb_set_tables]. unfold position. cbn [list_find bct_bus]. rewrite decide_True by apply Z.eqb_refl. cbn [bct_refcount bct_phys Z.ltb Z.compare Pos.compare Pos.compare_cont].
    destruct (ledger_free _ _ _ _ Hl') as (s2 & E2 & Hl2). rewrite E2. cbn [mbind run_bind]. eexists _, _, _. split; [|split; [exact Hl2|by apply zero_same_outside]].
    do 5 f_equal. destruct b. cbn in Hnone. subst. done.
  - eexists _, _, _. split; [reflexivity|]. split; [done|]. done.
Qed.

(** Releasing a device that has no context table drops its record and stops. *)
Lemma release_recorded {U S : Type} `{MmioUnit U} `{PtSource S} bdf b (s : S) m (u : U) : vb_bus_tables b = [] ->
  exists l, release_device_entry_with_alloc bdf b s m u = Done (Err UnknownBus, vb_set_attachments l b, s, m, u) /\
    (l = vb_attachments b /\ vtd_has_attachment b bdf = false \/ exists d, vb_attachments b ≡ₚ {| va_bdf := bdf; va_domain := d |} :: l).
Proof.
  intros Hnone. unfold release_device_entry_with_alloc. destruct (position _ (vb_attachments b)) as [[i [x d]]|] eqn:E.
  - apply position_some in E as [Hi Hx]. cbn in Hx. apply Z.eqb_eq in Hx as ->. unfold bus_context_table_phys. cbn [vb_bus_tables vb_set_attachments]. rewrite Hnone. cbn.
    eexists. split; [reflexivity|]. right. exists d. by apply swap_remove_perm.
  - apply position_none in E. exists (vb_attachments b). split; [by destruct b|]. by left.
Qed.
