(* ===== verification/Amdvi.v ===== *)
(** * The AMD-Vi backend (omni-kernel: bare_metal/iommu/amdvi.rs)

    The encoders of device-table and page-table entries, of base registers and
    of commands; the backend's record; the activation of the unit; the
    installation of a device-table entry; and the trait's operations. *)

From Stdlib Require Import ZArith Lia.
From stdpp Require Import base numbers list sets gmap.
From S2P Require Import Prelude FrameAlloc Paging DriverDma Iommu.

(** ** Registers and commands *)

Definition AMD_DEVICE_TABLE_BASE : Z := 0x000.
Definition AMD_COMMAND_BUFFER_BASE : Z := 0x008.
Definition AMD_EVENT_LOG_BASE : Z := 0x010.
Definition AMD_CONTROL : Z := 0x018.
Definition AMD_COMMAND_BUFFER_HEAD : Z := 0x2000.
Definition AMD_COMMAND_BUFFER_TAIL : Z := 0x2008.
Definition AMD_EVENT_LOG_HEAD : Z := 0x2010.
Definition AMD_EVENT_LOG_TAIL : Z := 0x2018.
Definition AMD_STATUS : Z := 0x2020.

Definition CTRL_BIT_IOMMU_EN : Z := Z.shiftl 1 0.
Definition CTRL_BIT_EVENT_LOG_EN : Z := Z.shiftl 1 2.
Definition CTRL_BIT_CMD_BUF_EN : Z := Z.shiftl 1 12.
Definition STATUS_BIT_EVENT_LOG_RUN : Z := Z.shiftl 1 3.
Definition STATUS_BIT_CMD_BUF_RUN : Z := Z.shiftl 1 4.

Definition CMD_BUFFER_ENTRY_BYTES : Z := 16.
Definition CMD_BUFFER_ENTRY_COUNT : Z := 256.
Definition CMD_BUFFER_BYTES : Z := CMD_BUFFER_ENTRY_COUNT * CMD_BUFFER_ENTRY_BYTES.
Definition CMD_BUFFER_LENGTH_ENCODING : Z := 8.
Definition EVENT_LOG_LENGTH_ENCODING : Z := 8.
Definition DEVICE_TABLE_SIZE_ENCODING : Z := 0.
Definition DEVICE_TABLE_BYTES : Z := 4096.
Definition CMD_OPCODE_INVALIDATE_DEVTAB : Z := 0x2.
Definition CMD_OPCODE_INVALIDATE_IOMMU_PAGES : Z := 0x3.
Definition CMD_OPCODE_INVALIDATE_ALL : Z := 0x8.
Definition AMDVI_ACTIVATION_POLL_LIMIT : Z := 1000000.
Definition DEVICE_TABLE_ENTRY_BYTES : Z := 32.

(** ** Errors *)

Inductive AmdViError := AeAddressMisaligned | AeUnknownDomain | AeUnsupportedFlags.
Definition amd_error_to_iommu (e : AmdViError) : IommuError :=
  match e with AeAddressMisaligned => IeAddressMisaligned | AeUnknownDomain => IeInvalidDomain | AeUnsupportedFlags => IeUnsupported end.

Inductive AmdViActivateError := AaNotPrepared | AaCmdBufStartTimeout | AaEventLogStartTimeout | AaInvalidationTimeout | AaTranslationEnableTimeout.
Definition amd_activate_to_iommu (_ : AmdViActivateError) : IommuError := IeActivationFailed.

Inductive AmdViAttachError := AtNotActivated | AtDomainNotInstalled | AtAlreadyAttached | AtAddressMisaligned | AtDeviceTableTooSmall | AtUnsupportedMode | AtInvalidationTimeout.
Definition amd_attach_to_iommu (e : AmdViAttachError) : IommuError :=
  match e with
  | AtNotActivated | AtInvalidationTimeout => IeActivationFailed
  | AtDomainNotInstalled => IeInvalidDomain
  | AtAlreadyAttached | AtUnsupportedMode => IeUnsupported
  | AtAddressMisaligned => IeAddressMisaligned
  | AtDeviceTableTooSmall => IeDomainTableFull
  end.

(** ** Device-table entries: four words *)

Definition ADDR_MASK : Z := 0x000FFFFFFFFFF000.
Definition DTE_BIT_V : Z := Z.shiftl 1 0.
Definition DTE_BIT_TV : Z := Z.shiftl 1 1.
Definition DTE_BIT_IR : Z := Z.shiftl 1 61.
Definition DTE_BIT_IW : Z := Z.shiftl 1 62.

Record DeviceTableEntry := { q0 : Z; q1 : Z; q2 : Z; q3 : Z }.
Definition dte_is_valid (e : DeviceTableEntry) : bool := negb (Z.land (q0 e) DTE_BIT_V =? 0).
Definition dte_translation_valid (e : DeviceTableEntry) : bool := negb (Z.land (q0 e) DTE_BIT_TV =? 0).
Definition dte_page_table_root (e : DeviceTableEntry) : Z := Z.land (q0 e) ADDR_MASK.
Definition dte_mode_raw (e : DeviceTableEntry) : Z := Z.land (Z.shiftr (q0 e) 9) 7.
Definition dte_domain_id (e : DeviceTableEntry) : Z := Z.land (q1 e) 0xFFFF.
Definition dte_allows_read (e : DeviceTableEntry) : bool := negb (Z.land (q0 e) DTE_BIT_IR =? 0).
Definition dte_allows_write (e : DeviceTableEntry) : bool := negb (Z.land (q0 e) DTE_BIT_IW =? 0).

Inductive PageMode := NoTranslation | Level1 | Level2 | Level3 | Level4 | Level5 | Level6.
#[global] Instance PageMode_eq_dec : EqDecision PageMode.
Proof. solve_decision. Defined.
Definition mode_as_u8 (m : PageMode) : Z := match m with NoTranslation => 0 | Level1 => 1 | Level2 => 2 | Level3 => 3 | Level4 => 4 | Level5 => 5 | Level6 => 6 end.
Definition mode_from_raw (raw : Z) : PageMode :=
  if raw =? 1 then Level1 else if raw =? 2 then Level2 else if raw =? 3 then Level3 else if raw =? 4 then Level4 else if raw =? 5 then Level5 else if raw =? 6 then Level6 else NoTranslation.

Definition encode_device_table_entry (page_table_root domain : Z) (mode : PageMode) (flags : Z) : result AmdViError DeviceTableEntry :=
  if negb (Z.land page_table_root 0xFFF =? 0) then Err AeAddressMisaligned else
  let qword0 := Z.lor (Z.lor (Z.lor (Z.land page_table_root ADDR_MASK) (Z.shiftl (Z.land (mode_as_u8 mode) 7) 9)) DTE_BIT_V) DTE_BIT_TV in
  let qword0 := if flags_contain flags IOMMU_READ then Z.lor qword0 DTE_BIT_IR else qword0 in
  let qword0 := if flags_contain flags IOMMU_WRITE then Z.lor qword0 DTE_BIT_IW else qword0 in
  Ok {| q0 := qword0; q1 := domain; q2 := 0; q3 := 0 |}.
Definition encode_device_table_entry_blocked (domain : Z) : DeviceTableEntry := {| q0 := DTE_BIT_V; q1 := domain; q2 := 0; q3 := 0 |}.
Definition encode_device_table_entry_absent : DeviceTableEntry := {| q0 := 0; q1 := 0; q2 := 0; q3 := 0 |}.

(** [IoPageTableEntry(u64)] *)
Definition IOPTE_BIT_PR : Z := Z.shiftl 1 0.
Definition IOPTE_BIT_FC : Z := Z.shiftl 1 61.
Definition IOPTE_BIT_IR : Z := Z.shiftl 1 62.
Definition IOPTE_BIT_IW : Z := Z.shiftl 1 63.
Definition iopte_is_present (e : Z) : bool := negb (Z.land e IOPTE_BIT_PR =? 0).
Definition iopte_output_address (e : Z) : Z := Z.land e ADDR_MASK.
Definition iopte_next_level (e : Z) : Z := Z.land (Z.shiftr e 9) 7.

Definition encode_iopte (phys flags : Z) : result AmdViError Z :=
  if negb (Z.land phys 0xFFF =? 0) then Err AeAddressMisaligned else
  let bits := Z.land phys ADDR_MASK in
  let bits := if flags_contain flags IOMMU_READ || flags_contain flags IOMMU_WRITE then Z.lor (Z.lor bits IOPTE_BIT_PR) IOPTE_BIT_IR else bits in
  let bits := if flags_contain flags IOMMU_WRITE then Z.lor bits IOPTE_BIT_IW else bits in
  let bits := if flags_contain flags IOMMU_COHERENT then Z.lor bits IOPTE_BIT_FC else bits in
  Ok bits.

Definition encode_pde (next_table_phys : Z) (next_level : PageMode) (flags : Z) : result AmdViError Z :=
  if negb (Z.land next_table_phys 0xFFF =? 0) then Err AeAddressMisaligned else
  if decide (next_level = NoTranslation) then Err AeUnsupportedFlags else
  let bits := Z.land next_table_phys ADDR_MASK in
  let bits := Z.lor bits IOPTE_BIT_PR in
  let bits := Z.lor bits (Z.shiftl (Z.land (mode_as_u8 next_level) 7) 9) in
  let bits := if flags_contain flags IOMMU_READ || flags_contain flags IOMMU_WRITE then Z.lor bits IOPTE_BIT_IR else bits in
  let bits := if flags_contain flags IOMMU_WRITE then Z.lor bits IOPTE_BIT_IW else bits in
  let bits := if flags_contain flags IOMMU_COHERENT then Z.lor bits IOPTE_BIT_FC else bits in
  Ok bits.

(** ** Registers and commands *)

Definition encode_device_table_base (table_phys size : Z) : Z := Z.lor (Z.land table_phys ADDR_MASK) (Z.land size 0x1FF).
Definition encode_command_buffer_base (buf_phys com_len : Z) : Z := Z.lor (Z.land buf_phys ADDR_MASK) (Z.shiftl (Z.land com_len 0xF) 56).
Definition encode_event_log_base (log_phys event_len : Z) : Z := Z.lor (Z.land log_phys ADDR_MASK) (Z.shiftl (Z.land event_len 0xF) 56).
Definition encode_invalidate_devtab_entry (device_id : Z) : Z * Z := (Z.lor (Z.shiftl CMD_OPCODE_INVALIDATE_DEVTAB 60) (Z.land device_id 0xFFFF), 0).
Definition encode_invalidate_iommu_pages_domain (domain : Z) : Z * Z := (Z.lor (Z.shiftl CMD_OPCODE_INVALIDATE_IOMMU_PAGES 60) (Z.shiftl domain 32), 1).
Definition dte_offset (bdf : Z) : Z := bdf * DEVICE_TABLE_ENTRY_BYTES.

Definition efr_hats (efr : Z) : Z := Z.land (Z.shiftr efr 22) 3.
Definition efr_highest_supported_mode (efr : Z) : PageMode :=
  let h := efr_hats efr in if h =? 0 then Level4 else if h =? 1 then Level5 else if h =? 2 then Level6 else NoTranslation.

(** ** The backend *)

Record AmdViAttachment := { aa_bdf : Z; aa_domain : Z }.
Record AmdMapping := { am_domain : Z; am_iova : Z; am_phys : Z; am_len : Z; am_leaf_iopte : Z }.

Record AmdViBackend := {
  ab_domains : list Z;
  ab_mappings : list AmdMapping;
  ab_unit_base : Z;
  ab_device_table_phys : Z;
  ab_command_buffer_phys : Z;
  ab_event_log_phys : Z;
  ab_command_buffer_tail : Z;
  ab_activated : bool;
  ab_attachments : list AmdViAttachment;
  ab_domain_pts : DomainPageTables;
  ab_translation : bool;
}.

Definition amd_new : AmdViBackend :=
  {| ab_domains := []; ab_mappings := []; ab_unit_base := 0; ab_device_table_phys := 0; ab_command_buffer_phys := 0; ab_event_log_phys := 0; ab_command_buffer_tail := 0;
     ab_activated := false; ab_attachments := []; ab_domain_pts := []; ab_translation := false |}.

Definition ab_set_domains (x : list Z) (b : AmdViBackend) : AmdViBackend :=
  {| ab_domains := x; ab_mappings := ab_mappings b; ab_unit_base := ab_unit_base b; ab_device_table_phys := ab_device_table_phys b; ab_command_buffer_phys := ab_command_buffer_phys b; ab_event_log_phys := ab_event_log_phys b;
     ab_command_buffer_tail := ab_command_buffer_tail b; ab_activated := ab_activated b; ab_attachments := ab_attachments b; ab_domain_pts := ab_domain_pts b; ab_translation := ab_translation b |}.
Definition ab_set_mappings (x : list AmdMapping) (b : AmdViBackend) : AmdViBackend :=
  {| ab_domains := ab_domains b; ab_mappings := x; ab_unit_base := ab_unit_base b; ab_device_table_phys := ab_device_table_phys b; ab_command_buffer_phys := ab_command_buffer_phys b; ab_event_log_phys := ab_event_log_phys b;
     ab_command_buffer_tail := ab_command_buffer_tail b; ab_activated := ab_activated b; ab_attachments := ab_attachments b; ab_domain_pts := ab_domain_pts b; ab_translation := ab_translation b |}.
Definition ab_set_tail (x : Z) (b : AmdViBackend) : AmdViBackend :=
  {| ab_domains := ab_domains b; ab_mappings := ab_mappings b; ab_unit_base := ab_unit_base b; ab_device_table_phys := ab_device_table_phys b; ab_command_buffer_phys := ab_command_buffer_phys b; ab_event_log_phys := ab_event_log_phys b;
     ab_command_buffer_tail := x; ab_activated := ab_activated b; ab_attachments := ab_attachments b; ab_domain_pts := ab_domain_pts b; ab_translation := ab_translation b |}.
Definition ab_set_flags (activated translation : bool) (b : AmdViBackend) : AmdViBackend :=
  {| ab_domains := ab_domains b; ab_mappings := ab_mappings b; ab_unit_base := ab_unit_base b; ab_device_table_phys := ab_device_table_phys b; ab_command_buffer_phys := ab_command_buffer_phys b; ab_event_log_phys := ab_event_log_phys b;
     ab_command_buffer_tail := ab_command_buffer_tail b; ab_activated := activated; ab_attachments := ab_attachments b; ab_domain_pts := ab_domain_pts b; ab_translation := translation |}.
Definition ab_set_attachments (x : list AmdViAttachment) (b : AmdViBackend) : AmdViBackend :=
  {| ab_domains := ab_domains b; ab_mappings := ab_mappings b; ab_unit_base := ab_unit_base b; ab_device_table_phys := ab_device_table_phys b; ab_command_buffer_phys := ab_command_buffer_phys b; ab_event_log_phys := ab_event_log_phys b;
     ab_command_buffer_tail := ab_command_buffer_tail b; ab_activated := ab_activated b; ab_attachments := x; ab_domain_pts := ab_domain_pts b; ab_translation := ab_translation b |}.
Definition ab_set_pts (x : DomainPageTables) (b : AmdViBackend) : AmdViBackend :=
  {| ab_domains := ab_domains b; ab_mappings := ab_mappings b; ab_unit_base := ab_unit_base b; ab_device_table_phys := ab_device_table_phys b; ab_command_buffer_phys := ab_command_buffer_phys b; ab_event_log_phys := ab_event_log_phys b;
     ab_command_buffer_tail := ab_command_buffer_tail b; ab_activated := ab_activated b; ab_attachments := ab_attachments b; ab_domain_pts := x; ab_translation := ab_translation b |}.

Definition amd_has_attachment (b : AmdViBackend) (bdf : Z) : bool := existsb (fun a => aa_bdf a =? bdf) (ab_attachments b).
Definition amd_has_domain (b : AmdViBackend) (id : Z) : bool := existsb (fun d => d =? id) (ab_domains b).

Definition amd_prepare_activation (unit_base device_table_phys command_buffer_phys event_log_phys : Z) (b : AmdViBackend) : AmdViBackend :=
  let same := (ab_unit_base b =? unit_base) && (ab_device_table_phys b =? device_table_phys) && (ab_command_buffer_phys b =? command_buffer_phys) && (ab_event_log_phys b =? event_log_phys) in
  {| ab_domains := ab_domains b; ab_mappings := ab_mappings b; ab_unit_base := unit_base; ab_device_table_phys := device_table_phys; ab_command_buffer_phys := command_buffer_phys; ab_event_log_phys := event_log_phys;
     ab_command_buffer_tail := 0; ab_activated := if same then ab_activated b else false; ab_attachments := ab_attachments b; ab_domain_pts := ab_domain_pts b; ab_translation := if same then ab_translation b else false |}.

Section Frames.
Context {S : Type} `{PtSource S}.

Definition amd_provision_domain_pt (domain : Z) (b : AmdViBackend) (s : S) (m : phys_mem) : run (result DomainPtError Z * AmdViBackend * S * phys_mem) :=
  '(r, t, s, m) ← provision domain (ab_domain_pts b) s m; Done (r, ab_set_pts t b, s, m).
Definition amd_release_domain_pt (domain : Z) (b : AmdViBackend) (s : S) : run (result DomainPtError unit * AmdViBackend * S) :=
  '(r, t, s) ← release domain (ab_domain_pts b) s; Done (r, ab_set_pts t b, s).
End Frames.

(** ** The live unit *)

Definition write_cmd_entry (buf slot lo hi : Z) (m : phys_mem) : phys_mem :=
  let pa := wrap64 (buf + slot * CMD_BUFFER_ENTRY_BYTES) in
  poke64 (wrap64 (pa + 8)) hi (poke64 pa lo m).

Definition write_dte_at (dev_table byte_offset : Z) (e : DeviceTableEntry) (m : phys_mem) : phys_mem :=
  let pa := wrap64 (dev_table + byte_offset) in
  poke64 (wrap64 (pa + 24)) (q3 e) (poke64 (wrap64 (pa + 16)) (q2 e) (poke64 (wrap64 (pa + 8)) (q1 e) (poke64 pa (q0 e) m))).

Section Live.
Context {U : Type} `{MmioUnit U}.

Definition poll_status_bit (unit_base bit : Z) (m : phys_mem) (u : U) : bool * U :=
  poll_upto AMDVI_ACTIVATION_POLL_LIMIT (fun u => let '(status, u) := unit_read64 (unit_base + AMD_STATUS) m u in (negb (Z.land status bit =? 0), u)) u.
Definition poll_cmd_head_reaches (unit_base tail_byte_offset : Z) (m : phys_mem) (u : U) : bool * U :=
  poll_upto AMDVI_ACTIVATION_POLL_LIMIT (fun u => let '(head, u) := unit_read64 (unit_base + AMD_COMMAND_BUFFER_HEAD) m u in (head =? tail_byte_offset, u)) u.

Definition amd_activate_hardware (b : AmdViBackend) (m : phys_mem) (u : U) : result AmdViActivateError unit * AmdViBackend * phys_mem * U :=
  if (ab_unit_base b =? 0) || (ab_device_table_phys b =? 0) || (ab_command_buffer_phys b =? 0) || (ab_event_log_phys b =? 0) then (Err AaNotPrepared, b, m, u) else
  let base := ab_unit_base b in
  let u := unit_write64 (base + AMD_DEVICE_TABLE_BASE) (encode_device_table_base (ab_device_table_phys b) DEVICE_TABLE_SIZE_ENCODING) m u in
  let u := unit_write64 (base + AMD_COMMAND_BUFFER_BASE) (encode_command_buffer_base (ab_command_buffer_phys b) CMD_BUFFER_LENGTH_ENCODING) m u in
  let u := unit_write64 (base + AMD_EVENT_LOG_BASE) (encode_event_log_base (ab_event_log_phys b) EVENT_LOG_LENGTH_ENCODING) m u in
  let u := unit_write64 (base + AMD_COMMAND_BUFFER_HEAD) 0 m u in
  let u := unit_write64 (base + AMD_COMMAND_BUFFER_TAIL) 0 m u in
  let u := unit_write64 (base + AMD_EVENT_LOG_HEAD) 0 m u in
  let u := unit_write64 (base + AMD_EVENT_LOG_TAIL) 0 m u in
  let b := ab_set_tail 0 b in
  let u := unit_write64 (base + AMD_CONTROL) (Z.lor CTRL_BIT_CMD_BUF_EN CTRL_BIT_EVENT_LOG_EN) m u in
  let '(ok, u) := poll_status_bit base STATUS_BIT_CMD_BUF_RUN m u in
  if negb ok then (Err AaCmdBufStartTimeout, b, m, u) else
  let '(ok, u) := poll_status_bit base STATUS_BIT_EVENT_LOG_RUN m u in
  if negb ok then (Err AaEventLogStartTimeout, b, m, u) else
  let '(lo, hi) := encode_invalidate_devtab_entry 0 in
  let m := write_cmd_entry (ab_command_buffer_phys b) 0 lo hi m in
  let next_tail := CMD_BUFFER_ENTRY_BYTES in
  let u := unit_write64 (base + AMD_COMMAND_BUFFER_TAIL) next_tail m u in
  let b := ab_set_tail next_tail b in
  let '(ok, u) := poll_cmd_head_reaches base next_tail m u in
  if negb ok then (Err AaInvalidationTimeout, b, m, u) else
  (Ok (), ab_set_flags true (ab_translation b) b, m, u).

Definition submit_cmd_descriptor (lo hi : Z) (b : AmdViBackend) (m : phys_mem) (u : U) : bool * AmdViBackend * phys_mem * U :=
  let slot := ab_command_buffer_tail b / CMD_BUFFER_ENTRY_BYTES in
  let m := write_cmd_entry (ab_command_buffer_phys b) slot lo hi m in
  let next_tail := wrap64 (ab_command_buffer_tail b + CMD_BUFFER_ENTRY_BYTES) in
  let next_tail := if CMD_BUFFER_BYTES <=? next_tail then 0 else next_tail in
  let u := unit_write64 (ab_unit_base b + AMD_COMMAND_BUFFER_TAIL) next_tail m u in
  let b := ab_set_tail next_tail b in
  let '(ok, u) := poll_cmd_head_reaches (ab_unit_base b) next_tail m u in
  (ok, b, m, u).

Definition amd_enable_translation (b : AmdViBackend) (m : phys_mem) (u : U) : result AmdViActivateError unit * AmdViBackend * phys_mem * U :=
  if negb (ab_activated b) then (Err AaNotPrepared, b, m, u) else
  if ab_translation b then (Ok (), b, m, u) else
  let base := ab_unit_base b in
  let '(current_ctrl, u) := unit_read64 (base + AMD_CONTROL) m u in
  let u := unit_write64 (base + AMD_CONTROL) (Z.lor current_ctrl CTRL_BIT_IOMMU_EN) m u in
  let '(ok, b, m, u) := submit_cmd_descriptor (Z.shiftl CMD_OPCODE_INVALIDATE_ALL 60) 0 b m u in
  if negb ok then (Err AaTranslationEnableTimeout, b, m, u) else
  (Ok (), ab_set_flags (ab_activated b) true b, m, u).

Definition amd_install_device_entry (bdf domain iopt_phys flags : Z) (mode : PageMode) (b : AmdViBackend) (m : phys_mem) (u : U) : result AmdViAttachError unit * AmdViBackend * phys_mem * U :=
  if negb (ab_activated b) then (Err AtNotActivated, b, m, u) else
  if negb (Z.land iopt_phys 0xFFF =? 0) then (Err AtAddressMisaligned, b, m, u) else
  if negb (amd_has_domain b domain) then (Err AtDomainNotInstalled, b, m, u) else
  if amd_has_attachment b bdf then (Err AtAlreadyAttached, b, m, u) else
  if decide (mode = NoTranslation) then (Err AtUnsupportedMode, b, m, u) else
  let dte_byte_offset := dte_offset bdf in
  if DEVICE_TABLE_BYTES <? dte_byte_offset + DEVICE_TABLE_ENTRY_BYTES then (Err AtDeviceTableTooSmall, b, m, u) else
  match encode_device_table_entry iopt_phys domain mode flags with
  | Err _ => (Err AtAddressMisaligned, b, m, u)
  | Ok dte =>
      let m := write_dte_at (ab_device_table_phys b) dte_byte_offset dte m in
      let '(dt_lo, dt_hi) := encode_invalidate_devtab_entry bdf in
      let '(ok, b, m, u) := submit_cmd_descriptor dt_lo dt_hi b m u in
      if negb ok then (Err AtInvalidationTimeout, b, m, u) else
      let '(pg_lo, pg_hi) := encode_invalidate_iommu_pages_domain domain in
      let '(ok, b, m, u) := submit_cmd_descriptor pg_lo pg_hi b m u in
      if negb ok then (Err AtInvalidationTimeout, b, m, u) else
      (Ok (), ab_set_attachments (ab_attachments b ++ [{| aa_bdf := bdf; aa_domain := domain |}]) b, m, u)
  end.
End Live.

(** ** The trait's operations *)

Definition amd_install_domain (id : Z) (b : AmdViBackend) : result IommuError unit * AmdViBackend :=
  (Ok (), if negb (amd_has_domain b id) then ab_set_domains (ab_domains b ++ [id]) b else b).

Definition amd_map (id iova phys len flags : Z) (b : AmdViBackend) : result IommuError unit * AmdViBackend :=
  if negb (amd_has_domain b id) then (Err IeInvalidDomain, b) else
  if negb (Z.land iova 0xFFF =? 0) || negb (Z.land phys 0xFFF =? 0) || negb (Z.land len 0xFFF =? 0) || (len =? 0) then (Err IeAddressMisaligned, b) else
  match encode_iopte phys flags with
  | Err e => (Err (amd_error_to_iommu e), b)
  | Ok leaf => (Ok (), ab_set_mappings (ab_mappings b ++ [{| am_domain := id; am_iova := iova; am_phys := phys; am_len := len; am_leaf_iopte := leaf |}]) b)
  end.

Definition amd_unmap (id iova len : Z) (b : AmdViBackend) : result IommuError unit * AmdViBackend :=
  if negb (amd_has_domain b id) then (Err IeInvalidDomain, b) else
  if negb (Z.land iova 0xFFF =? 0) || negb (Z.land len 0xFFF =? 0) || (len =? 0) then (Err IeAddressMisaligned, b) else
  let kept := List.filter (fun x => negb ((am_domain x =? id) && (am_iova x =? iova) && (am_len x =? len))) (ab_mappings b) in
  let b' := ab_set_mappings kept b in
  if Nat.eqb (length kept) (length (ab_mappings b)) then (Err IeUnmapFailed, b') else (Ok (), b').

Definition amd_flush (id : Z) (b : AmdViBackend) : result IommuError unit * AmdViBackend :=
  if negb (amd_has_domain b id) then (Err IeInvalidDomain, b) else (Ok (), b).

Definition amd_attach_device (bdf domain : Z) (b : AmdViBackend) : result IommuError unit * AmdViBackend :=
  if negb (amd_has_domain b domain) then (Err IeInvalidDomain, b) else
  if amd_has_attachment b bdf then (Err IeUnsupported, b) else
  (Ok (), ab_set_attachments (ab_attachments b ++ [{| aa_bdf := bdf; aa_domain := domain |}]) b).

Definition amd_detach_device (bdf : Z) (b : AmdViBackend) : result IommuError unit * AmdViBackend :=
  let kept := List.filter (fun a => negb (aa_bdf a =? bdf)) (ab_attachments b) in
  let b' := ab_set_attachments kept b in
  if Nat.eqb (length kept) (length (ab_attachments b)) then (Err IeUnsupported, b') else (Ok (), b').

#[global] Instance amd_backend : IommuBackend AmdViBackend := {|
  iommu_install_domain := amd_install_domain;
  iommu_map := amd_map;
  iommu_unmap := amd_unmap;
  iommu_flush := amd_flush;
|}.
#[global] Instance amd_devices : IommuDevices AmdViBackend := {|
  backend_vendor := fun _ => VAmd;
  iommu_attach := amd_attach_device;
  iommu_detach := amd_detach_device;
|}.

(** ** What the encoders write and the unit reads *)

(** Domain, page-table root, mode, and the read and write permissions. *)
Definition Dte : Type := Z * Z * Z * bool * bool.

Definition dte_read (e : DeviceTableEntry) : option Dte :=
  if dte_is_valid e && dte_translation_valid e then Some (dte_domain_id e, dte_page_table_root e, dte_mode_raw e, dte_allows_read e, dte_allows_write e) else None.

Lemma b2z_bit x k : 0 <= k -> negb (Z.land x (Z.shiftl 1 k) =? 0) = Z.testbit x k.
Proof. intros Hk. by rewrite land_bit_zero, negb_involutive. Qed.

(** The first word as a sum of its fields. *)
Lemma dte_word root mode (r w : bool) : root mod 4096 = 0 -> 0 <= root < 2 ^ 52 -> 0 <= mode < 8 ->
  let x := root + mode * 512 + 3 + Z.b2z r * 2 ^ 61 + Z.b2z w * 2 ^ 62 in
  (let q := Z.lor (Z.lor (Z.lor (Z.land root ADDR_MASK) (Z.shiftl mode 9)) DTE_BIT_V) DTE_BIT_TV in
   let q := if r then Z.lor q DTE_BIT_IR else q in if w then Z.lor q DTE_BIT_IW else q) = x /\
  Z.testbit x 0 = true /\ Z.testbit x 1 = true /\ Z.testbit x 61 = r /\ Z.testbit x 62 = w /\ Z.land x ADDR_MASK = root /\ Z.land (Z.shiftr x 9) 7 = mode.
Proof.
  intros Ha Hr Hm x. apply Z.mod_divide in Ha as [k Hk]; [|lia]. assert (0 <= k < 2 ^ 40) as Hkr by lia.
  change ADDR_MASK with (Z.shiftl (2 ^ 40 - 1) 12).
  assert (forall y c, Z.land (k * 4096 + y + c * 2 ^ 52) (Z.shiftl (2 ^ 40 - 1) 12) = root \/ ~ 0 <= y < 4096) as Haddr.
  { intros y c. destruct (decide (0 <= y < 4096)); [left|by right]. rewrite land_field by lia. change (2 ^ 12) with 4096. replace (k * 4096 + y + c * 2 ^ 52) with (y + (k + c * 2 ^ 40) * 4096) by lia.
    rewrite Z.div_add, Z.div_small, Z.add_0_l by lia. rewrite Z.mod_add, Z.mod_small by lia. lia. }
  assert (Z.land root (Z.shiftl (2 ^ 40 - 1) 12) = root) as -> by (destruct (Haddr 0 0) as [E|]; [replace (k * 4096 + 0 + 0 * 2 ^ 52) with root in E by lia; done|lia]).
  assert (x = k * 4096 + (mode * 512 + 3) + (Z.b2z r * 2 ^ 9 + Z.b2z w * 2 ^ 10) * 2 ^ 52) as Ex by (unfold x; lia).
  set (rz := Z.b2z r) in *. set (wz := Z.b2z w) in *. assert (0 <= rz <= 1 /\ 0 <= wz <= 1) as [Hrz Hwz] by (unfold rz, wz; destruct r, w; cbn; lia).
  split_and!.
  - cbv zeta. rewrite <- (Z.lor_assoc _ DTE_BIT_V), <- (Z.lor_assoc root), Z.shiftl_mul_pow2 by lia. change (Z.lor DTE_BIT_V DTE_BIT_TV) with 3. rewrite (lor_add (mode * 2 ^ 9) 3 9) by (rewrite ?Z.mod_mul; lia).
    rewrite (lor_add root (mode * 2 ^ 9 + 3) 12) by (rewrite ?Hk, ?Z.mod_mul; lia). change DTE_BIT_IR with (2 ^ 61). change DTE_BIT_IW with (2 ^ 62). assert (0 <= root + (mode * 2 ^ 9 + 3) < 2 ^ 53) as Hlo by lia.
    rewrite Ex, <- Hk. set (lo := root + (mode * 2 ^ 9 + 3)) in *. replace (root + (mode * 512 + 3)) with lo by (unfold lo; lia).
    assert ((if r then Z.lor lo (2 ^ 61) else lo) = lo + rz * 2 ^ 61) as -> by (unfold rz; destruct r; cbn [Z.b2z]; [rewrite Z.lor_comm, (lor_add (2 ^ 61) lo 61) by (done || lia); lia|lia]).
    unfold wz. destruct w; cbn [Z.b2z]; [rewrite Z.lor_comm, (lor_add (2 ^ 62) _ 62) by (done || lia); lia|lia].
  - apply (Z.testbit_unique x 0 true 0 (k * 2048 + mode * 256 + 1 + (rz * 2 ^ 9 + wz * 2 ^ 10) * 2 ^ 51)); [lia|]. rewrite Ex. cbn [Z.b2z]. lia.
  - apply (Z.testbit_unique x 1 true 1 (k * 1024 + mode * 128 + (rz * 2 ^ 9 + wz * 2 ^ 10) * 2 ^ 50)); [lia|]. rewrite Ex. cbn [Z.b2z]. lia.
  - apply (Z.testbit_unique x 61 r (root + mode * 512 + 3) wz); [lia|]. fold rz. rewrite Ex. lia.
  - apply (Z.testbit_unique x 62 w (root + mode * 512 + 3 + rz * 2 ^ 61) 0); [lia|]. fold wz. rewrite Ex. lia.
  - rewrite Ex. destruct (Haddr (mode * 512 + 3) (rz * 2 ^ 9 + wz * 2 ^ 10)) as [E|]; [exact E|lia].
  - rewrite Ex, Z.shiftr_div_pow2 by lia. change (2 ^ 9) with 512 at 2. replace (k * 4096 + (mode * 512 + 3) + (rz * 2 ^ 9 + wz * 2 ^ 10) * 2 ^ 52) with (3 + (mode + (k + (rz * 2 ^ 9 + wz * 2 ^ 10) * 2 ^ 40) * 8) * 512) by lia.
    change 7 with (2 ^ 3 - 1). rewrite land_ones_mod by lia. change (2 ^ 9) with 512. rewrite Z.div_add by lia. change (3 / 512) with 0. change (2 ^ 3) with 8. rewrite Z.add_0_l, Z.mod_add, Z.mod_small by lia. done.
Qed.

Lemma encode_dte_spec root d mode flags : root mod 4096 = 0 -> 0 <= root < 2 ^ 52 -> is_u16 d ->
  exists e, encode_device_table_entry root d mode flags = Ok e /\ dte_read e = Some (d, root, mode_as_u8 mode, flags_contain flags IOMMU_READ, flags_contain flags IOMMU_WRITE).
Proof.
  intros Ha Hr Hd. unfold encode_device_table_entry. rewrite land_page, Ha. cbn [negb Z.eqb]. eexists. split; [reflexivity|]. assert (0 <= mode_as_u8 mode < 8) as Hm by (destruct mode; cbn; lia).
  assert (Z.land (mode_as_u8 mode) 7 = mode_as_u8 mode) as -> by (by destruct mode).
  destruct (dte_word root (mode_as_u8 mode) (flags_contain flags IOMMU_READ) (flags_contain flags IOMMU_WRITE) Ha Hr Hm) as (E & H0 & H1 & H61 & H62 & Haddr & Hmode). cbn zeta in E.
  unfold dte_read, dte_is_valid, dte_translation_valid, dte_domain_id, dte_page_table_root, dte_mode_raw, dte_allows_read, dte_allows_write. cbn [q0 q1]. rewrite E.
  unfold DTE_BIT_V, DTE_BIT_TV, DTE_BIT_IR, DTE_BIT_IW. rewrite !b2z_bit, H0, H1, H61, H62, Haddr, Hmode by lia. cbn [andb]. change 0xFFFF with (2 ^ 16 - 1). rewrite land_ones_mod, Z.mod_small by (unfold is_u16 in Hd; lia). done.
Qed.

(** ** Memory *)

Definition dte_at (m : phys_mem) (table bdf : Z) : option Dte :=
  dte_read {| q0 := entry m table (4 * bdf); q1 := entry m table (4 * bdf + 1); q2 := entry m table (4 * bdf + 2); q3 := entry m table (4 * bdf + 3) |}.

(** Decide comparisons of indices without splitting on them. *)
Ltac zeq := repeat match goal with |- context [?a =? ?b] =>
  first [replace (a =? b) with true by (symmetry; apply Z.eqb_eq; lia) | replace (a =? b) with false by (symmetry; apply Z.eqb_neq; lia)] end.

(** Four words at slot [k] of the device table. *)
Lemma write_dte_slot f k e m : f mod 4096 = 0 -> 0 <= f < 2 ^ 52 -> 0 <= k < 128 ->
  let m' := write_dte_at f (dte_offset k) e m in
  dte_at m' f k = dte_read e /\ (forall j, j <> k -> dte_at m' f j = dte_at m f j) /\ forall x i, x <> f -> entry m' x i = entry m x i.
Proof.
  intros Ha Hf Hk m'. assert (m' = set_entry f (4 * k + 3) (q3 e) (set_entry f (4 * k + 2) (q2 e) (set_entry f (4 * k + 1) (q1 e) (set_entry f (4 * k) (q0 e) m)))) as Em.
  { unfold m', write_dte_at, dte_offset, poke64, wrap64. change DEVICE_TABLE_ENTRY_BYTES with 32.
    assert (forall c, 0 <= c < 4 -> (f + k * 32 + c * 8) mod 2 ^ 64 = f + (4 * k + c) * 8) as Hw by (intros c Hc; rewrite Z.mod_small by lia; lia).
    assert (forall c, 0 <= c < 4 -> (f + (4 * k + c) * 8) mod 4096 = (4 * k + c) * 8) as Hm by (intros c Hc; rewrite Z.add_mod, Ha, Z.add_0_l, Z.mod_mod, Z.mod_small by lia; done).
    pose proof (Hw 0 ltac:(lia)) as W0. pose proof (Hw 1 ltac:(lia)) as W1. pose proof (Hw 2 ltac:(lia)) as W2. pose proof (Hw 3 ltac:(lia)) as W3.
    rewrite Z.mul_0_l, Z.add_0_r in W0. replace ((f + k * 32) mod 2 ^ 64) with (f + k * 32) by (rewrite Z.mod_small; lia).
    change 8 with (1 * 8) at 3 4 5. rewrite W1. change 16 with (2 * 8). rewrite W2. change 24 with (3 * 8). rewrite W3.
    replace (f + k * 32) with (f + (4 * k + 0) * 8) by lia. rewrite !Hm, !Z.div_mul by lia. rewrite Z.add_0_r. repeat f_equal; lia. }
  rewrite Em. split_and!.
  - unfold dte_at. rewrite !entry_set, !Z.eqb_refl. zeq. cbn [andb]. by destruct e.
  - intros j Hj. unfold dte_at. rewrite !entry_set, !Z.eqb_refl. zeq. done.
  - intros x i Hx. rewrite !entry_set, (proj2 (Z.eqb_neq x f) Hx). done.
Qed.

Lemma dte_at_ext m m' t k : (forall i, entry m' t i = entry m t i) -> dte_at m' t k = dte_at m t k.
Proof. intros E. unfold dte_at. by rewrite !E. Qed.

Lemma write_cmd_frame f k lo hi m : f mod 4096 = 0 -> 0 <= f < 2 ^ 52 -> 0 <= k < 256 ->
  let m' := write_cmd_entry f k lo hi m in (entry m' f (2 * k) = lo /\ entry m' f (2 * k + 1) = hi) /\ forall x i, x <> f -> entry m' x i = entry m x i.
Proof.
  intros Ha Hf Hk m'. unfold m', write_cmd_entry, poke64, wrap64. change CMD_BUFFER_ENTRY_BYTES with 16. rewrite (Z.mod_small (f + k * 16)), (Z.mod_small (f + k * 16 + 8)) by lia.
  assert (forall x, 0 <= x < 4096 -> (f + x) mod 4096 = x) as Hm by (intros x Hx; rewrite Z.add_mod, Ha, Z.add_0_l, Z.mod_mod, Z.mod_small by lia; done).
  replace (f + k * 16 + 8) with (f + (k * 16 + 8)) by lia. rewrite !Hm by lia. replace (f + (k * 16 + 8) - (k * 16 + 8)) with f by lia. replace (f + k * 16 - k * 16) with f by lia.
  replace (k * 16 / 8) with (2 * k) by (replace (k * 16) with (2 * k * 8) by lia; by rewrite Z.div_mul).
  replace ((k * 16 + 8) / 8) with (2 * k + 1) by (replace (k * 16 + 8) with ((2 * k + 1) * 8) by lia; by rewrite Z.div_mul). split.
  - rewrite !entry_set, !Z.eqb_refl. destruct (Z.eqb_spec (2 * k) (2 * k + 1)); [lia|done].
  - intros x i Hx. rewrite !entry_set. by destruct (Z.eqb_spec x f).
Qed.

(** ** The unit's side

    As the comments of amdvi.rs cite it: commands are consumed in order,
    [INVALIDATE_DEVTAB_ENTRY] drops the cached entry of its device,
    [INVALIDATE_IOMMU_PAGES] with the size bit the cached translations of its
    domain and [INVALIDATE_ALL] everything, and while the unit is enabled it may
    cache any entry the device table holds and any translation it can make
    through the table or a cached entry.  A cached translation is named by its
    device, the domain it is tagged with and the page-table root it was made
    from. *)

Definition amd_evicts (lo dev : Z) : bool :=
  let op := Z.shiftr lo 60 in (op =? CMD_OPCODE_INVALIDATE_ALL) || (op =? CMD_OPCODE_INVALIDATE_DEVTAB) && (Z.land lo 0xFFFF =? dev).

Definition amd_tlb_evicts (lo hi d : Z) : bool :=
  let op := Z.shiftr lo 60 in (op =? CMD_OPCODE_INVALIDATE_ALL) || (op =? CMD_OPCODE_INVALIDATE_IOMMU_PAGES) && (Z.land hi 1 =? 1) && (Z.land (Z.shiftr lo 32) 0xFFFF =? d).

Definition dte_dom (e : Dte) : Z := let '(d, _, _, _, _) := e in d.
Definition dte_root (e : Dte) : Z := let '(_, r, _, _, _) := e in r.

Record AmdView := { av_devtab : Z; av_cmdbuf : Z; av_run : bool; av_en : bool; av_head : Z }.

Definition cmd_next (t : Z) : Z := if CMD_BUFFER_BYTES <=? t + CMD_BUFFER_ENTRY_BYTES then 0 else t + CMD_BUFFER_ENTRY_BYTES.
Definition cmd_slot_ok (t : Z) : Prop := 0 <= t < CMD_BUFFER_BYTES /\ t mod CMD_BUFFER_ENTRY_BYTES = 0.

Class AmdUnitLaws (U : Type) `{MmioUnit U} (base : Z) := {
  amd_view : U -> AmdView;
  amd_cached : U -> Z -> option Dte;
  amd_tlb : U -> gset (Z * Z * Z);
  amd_law_setup : forall dt cb el m u, av_run (amd_view u) = false -> av_en (amd_view u) = false ->
    let u' := unit_write64 (base + AMD_EVENT_LOG_TAIL) 0 m (unit_write64 (base + AMD_EVENT_LOG_HEAD) 0 m (unit_write64 (base + AMD_COMMAND_BUFFER_TAIL) 0 m (unit_write64 (base + AMD_COMMAND_BUFFER_HEAD) 0 m
      (unit_write64 (base + AMD_EVENT_LOG_BASE) el m (unit_write64 (base + AMD_COMMAND_BUFFER_BASE) cb m (unit_write64 (base + AMD_DEVICE_TABLE_BASE) dt m u)))))) in
    amd_view u' = {| av_devtab := dt; av_cmdbuf := cb; av_run := false; av_en := false; av_head := 0 |} /\ amd_cached u' = amd_cached u /\ amd_tlb u' = amd_tlb u;
  amd_law_start : forall m u, av_run (amd_view u) = false -> av_en (amd_view u) = false ->
    exists u1 u2, poll_status_bit base STATUS_BIT_CMD_BUF_RUN m (unit_write64 (base + AMD_CONTROL) (Z.lor CTRL_BIT_CMD_BUF_EN CTRL_BIT_EVENT_LOG_EN) m u) = (true, u1) /\
      poll_status_bit base STATUS_BIT_EVENT_LOG_RUN m u1 = (true, u2) /\
      amd_view u2 = {| av_devtab := av_devtab (amd_view u); av_cmdbuf := av_cmdbuf (amd_view u); av_run := true; av_en := false; av_head := av_head (amd_view u) |} /\ amd_cached u2 = amd_cached u /\ amd_tlb u2 = amd_tlb u;
  amd_law_drain : forall m u t, av_run (amd_view u) = true -> av_head (amd_view u) = t -> cmd_slot_ok t ->
    let t' := cmd_next t in
    let q := Z.land (av_cmdbuf (amd_view u)) ADDR_MASK in
    exists u', poll_cmd_head_reaches base t' m (unit_write64 (base + AMD_COMMAND_BUFFER_TAIL) t' m u) = (true, u') /\
      amd_view u' = {| av_devtab := av_devtab (amd_view u); av_cmdbuf := av_cmdbuf (amd_view u); av_run := true; av_en := av_en (amd_view u); av_head := t' |} /\
      (forall b e, amd_cached u' b = Some e ->
        (av_en (amd_view u) = true /\ dte_at m (Z.land (av_devtab (amd_view u)) ADDR_MASK) b = Some e) \/ (amd_cached u b = Some e /\ amd_evicts (entry m q (t / 8)) b = false)) /\
      forall b d r, (b, d, r) ∈ amd_tlb u' ->
        (av_en (amd_view u) = true /\ exists e, (dte_at m (Z.land (av_devtab (amd_view u)) ADDR_MASK) b = Some e \/ amd_cached u b = Some e) /\ dte_dom e = d /\ dte_root e = r) \/
        ((b, d, r) ∈ amd_tlb u /\ amd_tlb_evicts (entry m q (t / 8)) (entry m q (t / 8 + 1)) d = false);
  amd_law_enable : forall m u, av_run (amd_view u) = true ->
    let '(ctrl, u1) := unit_read64 (base + AMD_CONTROL) m u in
    let u' := unit_write64 (base + AMD_CONTROL) (Z.lor ctrl CTRL_BIT_IOMMU_EN) m u1 in
    amd_view u' = {| av_devtab := av_devtab (amd_view u); av_cmdbuf := av_cmdbuf (amd_view u); av_run := true; av_en := true; av_head := av_head (amd_view u) |} /\
      (forall b e, amd_cached u' b = Some e -> dte_at m (Z.land (av_devtab (amd_view u)) ADDR_MASK) b = Some e \/ amd_cached u b = Some e) /\
      forall b d r, (b, d, r) ∈ amd_tlb u' ->
        (exists e, (dte_at m (Z.land (av_devtab (amd_view u)) ADDR_MASK) b = Some e \/ amd_cached u b = Some e) /\ dte_dom e = d /\ dte_root e = r) \/ (b, d, r) ∈ amd_tlb u;
}.

Record amd_params (av0 : Z -> Prop) (base table cmd log : Z) : Prop := {
  ap_table : table mod 4096 = 0 /\ 0 < table < 2 ^ 52;
  ap_cmd : cmd mod 4096 = 0 /\ 0 < cmd < 2 ^ 52;
  ap_base : base <> 0;
  ap_log : log <> 0;
  ap_ne : table <> cmd;
  ap_free : ~ av0 table;
}.

(** The abstract state: installed domains, the device table's entries, the recorded attachments, and whether translation was enabled. *)
Record AmdAbs := { as_domains : gset Z; as_dte : gmap Z Dte; as_att : gset Z; as_enabled : bool }.
Definition amd_abs_init : AmdAbs := {| as_domains := ∅; as_dte := ∅; as_att := ∅; as_enabled := false |}.

(** A cached translation a device may use: under the domain of the device's
    entry it was made from the root of that entry. *)
Definition tlb_fits (dte : gmap Z Dte) (x d r : Z) : Prop := forall e, dte !! x = Some e -> dte_dom e = d -> dte_root e = r.

Section Inv.
Context {U S : Type} {base : Z} `{AmdUnitLaws U base} `{PtSourceLaws S}.

Record amd_unit_ok (table cmd tail : Z) (en : bool) (dte : gmap Z Dte) (tb : Z -> Z -> Z -> Prop) (u : U) : Prop := {
  auo_table : av_devtab (amd_view u) = encode_device_table_base table DEVICE_TABLE_SIZE_ENCODING;
  auo_cmd : av_cmdbuf (amd_view u) = encode_command_buffer_base cmd CMD_BUFFER_LENGTH_ENCODING;
  auo_run : av_run (amd_view u) = true;
  auo_head : av_head (amd_view u) = tail;
  auo_slot : cmd_slot_ok tail;
  auo_en : av_en (amd_view u) = en;
  auo_cached : forall b e, 0 <= b < 128 -> amd_cached u b = Some e -> dte !! b = Some e;
  auo_tlb : forall b d r, 0 <= b < 128 -> (b, d, r) ∈ amd_tlb u -> tb b d r;
}.

Record amd_inv (av0 : Z -> Prop) (table cmd log : Z) (a : AmdAbs) (b : AmdViBackend) (s : S) (m : phys_mem) (u : U) : Prop := {
  ai_base : ab_unit_base b = base /\ ab_device_table_phys b = table /\ ab_command_buffer_phys b = cmd;
  ai_act : ab_activated b = true;
  ai_unit : amd_unit_ok table cmd (ab_command_buffer_tail b) (ab_translation b) (as_dte a) (tlb_fits (as_dte a)) u;
  ai_en : ab_translation b = as_enabled a;
  ai_dte : forall x, 0 <= x < 128 -> dte_at m table x = as_dte a !! x;
  ai_att : forall x, amd_has_attachment b x = true <-> x ∈ as_att a;
  ai_dom : forall d, amd_has_domain b d = true <-> d ∈ as_domains a;
  ai_pts : pts_ok (ab_domain_pts b);
  ai_ledger : ledger av0 s (pts_held (ab_domain_pts b));
}.
End Inv.

Lemma addr_base f x : f mod 4096 = 0 -> 0 <= f < 2 ^ 52 -> 0 <= x < 16 -> Z.land (Z.lor (Z.land f ADDR_MASK) (Z.shiftl x 56)) ADDR_MASK = f.
Proof.
  intros Ha Hf Hx. apply Z.mod_divide in Ha as [k ->]; [|lia]. change ADDR_MASK with (Z.shiftl (2 ^ 40 - 1) 12). rewrite (land_field (k * 4096)) by lia. change (2 ^ 12) with 4096. rewrite Z.div_mul, Z.mod_small by lia.
  rewrite Z.lor_comm, Z.shiftl_mul_pow2, (lor_add (x * 2 ^ 56) (k * 4096) 56) by (rewrite ?Z.mod_mul; lia). rewrite land_field by lia. change (2 ^ 12) with 4096.
  replace (x * 2 ^ 56 + k * 4096) with ((k + x * 2 ^ 4 * 2 ^ 40) * 4096) by lia. rewrite Z.div_mul, Z.mod_add, Z.mod_small by lia. done.
Qed.

Lemma cmd_next_ok t : cmd_slot_ok t -> cmd_slot_ok (cmd_next t).
Proof.
  unfold cmd_slot_ok, cmd_next. change CMD_BUFFER_BYTES with 4096. change CMD_BUFFER_ENTRY_BYTES with 16. intros [Hr Hm]. destruct (Z.leb_spec 4096 (t + 16)); [done|]. split; [lia|].
  rewrite Z.add_mod, Hm by lia. done.
Qed.

Lemma devtab_evicts b : is_u16 b -> amd_evicts (fst (encode_invalidate_devtab_entry b)) b = true.
Proof.
  unfold is_u16. intros Hb. unfold amd_evicts, encode_invalidate_devtab_entry. cbn [fst]. change 0xFFFF with (2 ^ 16 - 1). rewrite (land_ones_mod b), (Z.mod_small b) by lia. rewrite Z.shiftl_mul_pow2 by lia.
  change CMD_OPCODE_INVALIDATE_DEVTAB with 2. rewrite (lor_add (2 * 2 ^ 60) b 60) by (rewrite ?Z.mod_mul; lia). rewrite Z.shiftr_div_pow2, Z.div_add_l, (Z.div_small b) by lia.
  rewrite land_ones_mod by lia. replace (2 * 2 ^ 60 + b) with (b + 2 ^ 45 * 2 ^ 16) by lia. rewrite Z.mod_add, Z.mod_small, !Z.eqb_refl by lia. done.
Qed.

Lemma pages_evicts d : is_u16 d -> let c := encode_invalidate_iommu_pages_domain d in amd_tlb_evicts (fst c) (snd c) d = true.
Proof.
  intros Hd. cbv zeta. unfold is_u16 in Hd. unfold amd_tlb_evicts, encode_invalidate_iommu_pages_domain. cbn [fst snd]. rewrite !Z.shiftl_mul_pow2 by lia.
  change CMD_OPCODE_INVALIDATE_IOMMU_PAGES with 3. rewrite (lor_add (3 * 2 ^ 60) (d * 2 ^ 32) 60) by (rewrite ?Z.mod_mul; lia). rewrite !Z.shiftr_div_pow2 by lia.
  rewrite Z.div_add_l, (Z.div_small (d * 2 ^ 32)) by lia. replace (3 * 2 ^ 60 + d * 2 ^ 32) with ((d + 3 * 2 ^ 12 * 2 ^ 16) * 2 ^ 32) by lia. rewrite Z.div_mul by lia.
  change 0xFFFF with (2 ^ 16 - 1). rewrite land_ones_mod by lia. rewrite Z.mod_add, Z.mod_small, (Z.eqb_refl d) by lia. done.
Qed.

(** ** Histories *)

Inductive AmdOp :=
| AoDomain (id : Z)
| AoProvision (domain : Z)
| AoReleasePt (domain : Z)
| AoInstall (bdf domain iopt flags : Z) (mode : PageMode)
| AoEnable
| AoAttach (bdf domain : Z)
| AoDetach (bdf : Z).

Definition amd_op_ok (op : AmdOp) : Prop :=
  match op with AoInstall bdf d iopt _ _ => is_u16 bdf /\ is_u16 d /\ 0 <= iopt < 2 ^ 52 | _ => True end.

Inductive AmdAnswer :=
| AsInstall (r : result AmdViAttachError unit)
| AsEnable (r : result AmdViActivateError unit)
| AsProvision (r : result DomainPtError Z)
| AsReleasePt (r : result DomainPtError unit)
| AsTrait (r : result IommuError unit).

Definition amd_abs_next (op : AmdOp) (an : AmdAnswer) (a : AmdAbs) : AmdAbs :=
  match op, an with
  | AoDomain id, _ => {| as_domains := {[id]} ∪ as_domains a; as_dte := as_dte a; as_att := as_att a; as_enabled := as_enabled a |}
  | AoInstall bdf d iopt flags mode, AsInstall (Ok _) =>
      {| as_domains := as_domains a; as_dte := <[bdf := (d, iopt, mode_as_u8 mode, flags_contain flags IOMMU_READ, flags_contain flags IOMMU_WRITE)]> (as_dte a); as_att := {[bdf]} ∪ as_att a; as_enabled := as_enabled a |}
  | AoAttach bdf _, AsTrait (Ok _) => {| as_domains := as_domains a; as_dte := as_dte a; as_att := {[bdf]} ∪ as_att a; as_enabled := as_enabled a |}
  | AoDetach bdf, AsTrait (Ok _) => {| as_domains := as_domains a; as_dte := as_dte a; as_att := as_att a ∖ {[bdf]}; as_enabled := as_enabled a |}
  | AoEnable, AsEnable (Ok _) => {| as_domains := as_domains a; as_dte := as_dte a; as_att := as_att a; as_enabled := true |}
  | _, _ => a
  end.

Section Ops.
Context {U S : Type} {base : Z} `{AmdUnitLaws U base} `{PtSourceLaws S}.

Abbreviation amd_state := (AmdViBackend * S * phys_mem * U)%type.

Definition amd_step (op : AmdOp) (st : amd_state) : run (AmdAnswer * amd_state) :=
  let '(b, s, m, u) := st in
  match op with
  | AoDomain id => let '(r, b) := amd_install_domain id b in Done (AsTrait r, (b, s, m, u))
  | AoProvision d => '(r, b, s, m) ← amd_provision_domain_pt d b s m; Done (AsProvision r, (b, s, m, u))
  | AoReleasePt d => '(r, b, s) ← amd_release_domain_pt d b s; Done (AsReleasePt r, (b, s, m, u))
  | AoInstall bdf d iopt flags mode => let '(r, b, m, u) := amd_install_device_entry bdf d iopt flags mode b m u in Done (AsInstall r, (b, s, m, u))
  | AoEnable => let '(r, b, m, u) := amd_enable_translation b m u in Done (AsEnable r, (b, s, m, u))
  | AoAttach bdf d => let '(r, b) := amd_attach_device bdf d b in Done (AsTrait r, (b, s, m, u))
  | AoDetach bdf => let '(r, b) := amd_detach_device bdf b in Done (AsTrait r, (b, s, m, u))
  end.

Inductive amd_reach (st0 : amd_state) : AmdAbs -> amd_state -> Prop :=
| amd_reach_init : amd_reach st0 amd_abs_init st0
| amd_reach_step a st op an st' : amd_reach st0 a st -> amd_op_ok op -> amd_step op st = Done (an, st') -> amd_reach st0 (amd_abs_next op an a) st'.

Definition amd_answer_ok (op : AmdOp) (an : AmdAnswer) (a : AmdAbs) (st : amd_state) : Prop :=
  let '(b, s, m, u) := st in
  match op, an with
  | AoInstall bdf d iopt _ mode, AsInstall r =>
      r = if negb (iopt mod 4096 =? 0) then Err AtAddressMisaligned else if bool_decide (d ∉ as_domains a) then Err AtDomainNotInstalled else
          if bool_decide (bdf ∈ as_att a) then Err AtAlreadyAttached else if bool_decide (mode = NoTranslation) then Err AtUnsupportedMode else
          if 128 <=? bdf then Err AtDeviceTableTooSmall else Ok ()
  | AoAttach bdf d, AsTrait r => r = if bool_decide (d ∉ as_domains a) then Err IeInvalidDomain else if bool_decide (bdf ∈ as_att a) then Err IeUnsupported else Ok ()
  | AoDetach bdf, AsTrait r => r = if bool_decide (bdf ∈ as_att a) then Ok () else Err IeUnsupported
  | AoDomain _, AsTrait r => r = Ok ()
  | AoEnable, AsEnable r => r = Ok ()
  | AoProvision d, AsProvision (Ok _) => is_provisioned (ab_domain_pts b) d = false
  | AoProvision d, AsProvision (Err AlreadyProvisioned) => is_provisioned (ab_domain_pts b) d = true
  | AoProvision d, AsProvision (Err FrameAllocFailed) => is_provisioned (ab_domain_pts b) d = false /\ forall x, ~ src_avail s x
  | AoReleasePt d, AsReleasePt (Ok _) => is_provisioned (ab_domain_pts b) d = true
  | AoReleasePt d, AsReleasePt (Err NotProvisioned) => is_provisioned (ab_domain_pts b) d = false
  | _, _ => False
  end.

Context (av0 : Z -> Prop) (table cmd log : Z) (Hparams : amd_params av0 base table cmd log).

(** One command: the buffer's page changes, and the unit has dropped what it evicts. *)
Lemma submit_cmd_spec lo hi b m u en dte dte' (tb tb' : Z -> Z -> Z -> Prop) : ab_unit_base b = base -> ab_command_buffer_phys b = cmd -> amd_unit_ok table cmd (ab_command_buffer_tail b) en dte tb u ->
  (forall x, 0 <= x < 128 -> dte_at m table x = dte' !! x) -> (forall x e, 0 <= x < 128 -> dte !! x = Some e -> amd_evicts lo x = false -> dte' !! x = Some e) ->
  (forall x e, dte' !! x = Some e \/ dte !! x = Some e -> tb' x (dte_dom e) (dte_root e)) -> (forall x d r, tb x d r -> amd_tlb_evicts lo hi d = false -> tb' x d r) ->
  exists m' u', submit_cmd_descriptor lo hi b m u = (true, ab_set_tail (cmd_next (ab_command_buffer_tail b)) b, m', u') /\
    amd_unit_ok table cmd (cmd_next (ab_command_buffer_tail b)) en dte' tb' u' /\ (forall x, 0 <= x < 128 -> dte_at m' table x = dte' !! x).
Proof using Hparams.
  intros Eb Ec [Ht Hc Hrun Hhead Hslot Hen Hcache Htlb] Hdte Hkeep Hfill Htk. destruct (ap_cmd _ _ _ _ _ Hparams) as [Hca Hcr]. destruct (ap_table _ _ _ _ _ Hparams) as [Hta Htr]. set (t := ab_command_buffer_tail b) in *.
  pose proof Hslot as [Hr Hm]. change CMD_BUFFER_BYTES with 4096 in Hr. change CMD_BUFFER_ENTRY_BYTES with 16 in Hm. pose proof (Z.div_mod t 16 ltac:(lia)) as Ediv.
  unfold submit_cmd_descriptor. fold t. change CMD_BUFFER_ENTRY_BYTES with 16. rewrite Ec.
  destruct (write_cmd_frame cmd (t / 16) lo hi m Hca ltac:(lia) ltac:(split; [apply Z.div_pos; lia|apply Z.div_lt_upper_bound; lia])) as ([E1 E2] & Ex). set (m' := write_cmd_entry cmd (t / 16) lo hi m) in *.
  assert (forall x, 0 <= x < 128 -> dte_at m' table x = dte' !! x) as Hdte' by (intros x Hx; rewrite (dte_at_ext m m') by (intros i; apply Ex; apply (ap_ne _ _ _ _ _ Hparams)); by apply Hdte).
  assert ((if CMD_BUFFER_BYTES <=? wrap64 (t + 16) then 0 else wrap64 (t + 16)) = cmd_next t) as -> by (unfold cmd_next, wrap64; change CMD_BUFFER_ENTRY_BYTES with 16; rewrite Z.mod_small by lia; done).
  destruct (amd_law_drain m' u t Hrun Hhead Hslot) as (u' & Edrain & Hview & Hcd & Htd). cbn [ab_unit_base ab_set_tail]. rewrite Eb, Edrain. exists m', u'. split; [done|]. split; [|done].
  assert (Z.land (av_devtab (amd_view u)) ADDR_MASK = table) as Etab.
  { rewrite Ht. unfold encode_device_table_base. change (Z.land DEVICE_TABLE_SIZE_ENCODING 0x1FF) with (Z.shiftl 0 56). apply addr_base; lia. }
  assert (Z.land (av_cmdbuf (amd_view u)) ADDR_MASK = cmd) as Ecmd by (rewrite Hc; unfold encode_command_buffer_base; apply addr_base; done || lia).
  replace (t / 8) with (2 * (t / 16)) in * by (apply (Z.div_unique t 8 (2 * (t / 16)) 0); lia). rewrite Ecmd, E1, E2, Etab in *.
  split; rewrite ?Hview; cbn; [done|done|done|done|by apply cmd_next_ok|done| |].
  - intros x e Hx He. destruct (Hcd x e He) as [[_ Hw]|[Hold Hev]]; [by rewrite Hdte' in Hw|]. apply (Hkeep x e Hx); [by apply Hcache|done].
  - intros x d r Hx Hd. destruct (Htd x d r Hd) as [[_ (e & Hw & <- & <-)]|[Hold Hev]]; [|by eapply Htk; [apply Htlb|]].
    apply Hfill. destruct Hw as [Hw|Hw]; [left; by rewrite Hdte' in Hw|right; by apply Hcache].
Qed.

Lemma has_attachment_app b x bdf d : amd_has_attachment (ab_set_attachments (ab_attachments b ++ [{| aa_bdf := bdf; aa_domain := d |}]) b) x = true <-> x = bdf \/ amd_has_attachment b x = true.
Proof using Type. unfold amd_has_attachment. cbn. rewrite existsb_app, orb_true_iff. cbn. rewrite orb_false_r, Z.eqb_eq. naive_solver. Qed.

Lemma amd_install_spec bdf d iopt flags mode a b s m u : amd_inv av0 table cmd log a b s m u -> is_u16 bdf -> is_u16 d -> 0 <= iopt < 2 ^ 52 ->
  exists r b' m' u', amd_install_device_entry bdf d iopt flags mode b m u = (r, b', m', u') /\ amd_answer_ok (AoInstall bdf d iopt flags mode) (AsInstall r) a (b, s, m, u) /\
    amd_inv av0 table cmd log (amd_abs_next (AoInstall bdf d iopt flags mode) (AsInstall r) a) b' s m' u'.
Proof using Hparams.
  intros Hinv Hb Hd Hi. pose proof Hinv as [(Eb & Et & Ec) Hact Hu Hen Hdte Hatt Hdom Hpts Hl]. unfold amd_install_device_entry. cbn [amd_answer_ok]. rewrite Hact, land_page. cbn [negb].
  destruct (Z.eqb_spec (iopt mod 4096) 0) as [Ha|Ha]; cbn [negb]; [|by eexists _, _, _, _].
  destruct (amd_has_domain b d) eqn:Edm; cbn [negb]; [apply Hdom in Edm; rewrite bool_decide_eq_false_2 by tauto|rewrite bool_decide_eq_true_2 by (rewrite <- Hdom; congruence); by eexists _, _, _, _].
  destruct (amd_has_attachment b bdf) eqn:Eat; [apply Hatt in Eat; rewrite bool_decide_eq_true_2 by done; by eexists _, _, _, _|rewrite bool_decide_eq_false_2 by (rewrite <- Hatt; congruence)].
  destruct (decide (mode = NoTranslation)) as [Em|Em]; [rewrite bool_decide_eq_true_2 by done; by eexists _, _, _, _|rewrite bool_decide_eq_false_2 by done].
  unfold dte_offset at 1. change DEVICE_TABLE_BYTES with 4096. change DEVICE_TABLE_ENTRY_BYTES with 32.
  destruct (Z.leb_spec 128 bdf) as [Hge|Hlt]; [rewrite (proj2 (Z.ltb_lt 4096 (bdf * 32 + 32))) by lia; by eexists _, _, _, _|rewrite (proj2 (Z.ltb_ge 4096 (bdf * 32 + 32))) by lia].
  destruct (encode_dte_spec iopt d mode flags Ha Hi Hd) as (e & -> & Hread). rewrite Et. destruct (ap_table _ _ _ _ _ Hparams) as [Hta Htr]. unfold is_u16 in Hb.
  destruct (write_dte_slot table bdf e m Hta ltac:(lia) ltac:(lia)) as (E1 & E2 & _). set (m1 := write_dte_at table (dte_offset bdf) e m) in *. pose proof (devtab_evicts bdf Hb) as Hev. pose proof (pages_evicts d Hd) as Hevp. cbv zeta in Hevp.
  destruct (encode_invalidate_devtab_entry bdf) as [dlo dhi]. cbn [fst] in Hev. destruct (encode_invalidate_iommu_pages_domain d) as [plo phi]. cbn [fst snd] in Hevp.
  set (x := (d, iopt, mode_as_u8 mode, flags_contain flags IOMMU_READ, flags_contain flags IOMMU_WRITE)) in *.
  assert (forall y, 0 <= y < 128 -> dte_at m1 table y = <[bdf := x]> (as_dte a) !! y) as Hd1 by (intros y Hy; destruct (decide (y = bdf)) as [->|Hne]; [by rewrite E1, lookup_insert_eq|rewrite E2, lookup_insert_ne by done; by apply Hdte]).
  (* between the two commands a translation of the device itself may still be the old one *)
  set (dte' := <[bdf := x]> (as_dte a)) in *. set (mid := fun y dy r => (y = bdf /\ dy = d) \/ tlb_fits dte' y dy r).
  assert (forall y e', dte' !! y = Some e' -> tlb_fits dte' y (dte_dom e') (dte_root e')) as Hself by (intros y e' Hy e2 Hy2 _; congruence).
  assert (forall y dy r, (forall e', as_dte a !! y = Some e' -> dte_dom e' = dy -> dte_root e' = r) -> mid y dy r) as Hmid.
  { intros y dy r Hy. destruct (decide (y = bdf)) as [->|Hne]; [destruct (decide (dy = d)) as [->|Hd']; [by left|]|]; right; intros e' He' Hdy.
    - unfold dte' in He'. rewrite lookup_insert_eq in He'. injection He' as <-. by destruct Hd'.
    - unfold dte' in He'. rewrite lookup_insert_ne in He' by congruence. by apply Hy. }
  destruct (submit_cmd_spec dlo dhi b m1 u (ab_translation b) _ dte' _ mid Eb Ec Hu Hd1) as (m2 & u2 & Es2 & Hu2 & Hd2).
  { intros y e' Hy Hye Hne. unfold dte'. rewrite lookup_insert_ne by (intros ->; congruence). done. }
  { intros y e' [Hy|Hy]; [right; by apply Hself|]. apply Hmid. intros e2 Hy2 _. congruence. }
  { intros y dy r Hy _. by apply Hmid. }
  rewrite Es2. cbn [negb].
  destruct (submit_cmd_spec plo phi (ab_set_tail (cmd_next (ab_command_buffer_tail b)) b) m2 u2 (ab_translation b) dte' dte' mid (tlb_fits dte') Eb Ec Hu2 Hd2) as (m3 & u3 & Es3 & Hu3 & Hd3); [done|intros y e' [Hy|Hy]; by apply Hself| |].
  { intros y dy r [[-> ->]|Hy] Hne; [congruence|done]. }
  rewrite Es3. cbn [negb]. eexists _, _, _, _. split; [reflexivity|]. split; [done|].
  cbn [amd_abs_next]. split; cbn [as_dte as_att as_domains as_enabled]; [done|done|exact Hu3|exact Hen|exact Hd3| |exact Hdom|done|done]. intros y. rewrite elem_of_union, elem_of_singleton, <- Hatt. exact (has_attachment_app b y bdf d).
Qed.

Lemma detach_spec b bdf : 
  amd_detach_device bdf b = (if amd_has_attachment b bdf then Ok () else Err IeUnsupported, snd (amd_detach_device bdf b)) /\
  forall x, amd_has_attachment (snd (amd_detach_device bdf b)) x = true <-> amd_has_attachment b x = true /\ x <> bdf.
Proof using Type.
  unfold amd_detach_device, amd_has_attachment. set (l := ab_attachments b). cbv zeta.
  assert (Nat.eqb (length (List.filter (fun a => negb (aa_bdf a =? bdf)) l)) (length l) = negb (existsb (fun a => aa_bdf a =? bdf) l)) as ->.
  { induction l as [|c l IH]; [done|]. cbn. destruct (aa_bdf c =? bdf) eqn:E; cbn; [|exact IH]. apply Nat.eqb_neq. pose proof (List.filter_length_le (fun a => negb (aa_bdf a =? bdf)) l). lia. }
  destruct (existsb (fun a => aa_bdf a =? bdf) l); cbn [negb snd]; (split; [done|]); intros x; cbn; rewrite !existsb_exists; setoid_rewrite List.filter_In; (split; [intros (c & [Hin Hn] & Hx); apply negb_true_iff, Z.eqb_neq in Hn; apply Z.eqb_eq in Hx; subst; split; [exists c; split; [done|apply Z.eqb_refl]|done]|]);
    intros [(c & Hin & Hx) Hne]; apply Z.eqb_eq in Hx; subst; exists c; (split; [split; [done|]|apply Z.eqb_refl]); by apply negb_true_iff, Z.eqb_neq.
Qed.

Lemma amd_has_domain_app b d id : amd_has_domain (snd (amd_install_domain id b)) d = true <-> d = id \/ amd_has_domain b d = true.
Proof using Type.
  unfold amd_install_domain. cbn [snd]. destruct (amd_has_domain b id) eqn:E; cbn [negb].
  - split; [by right|]. intros [->|?]; done.
  - unfold amd_has_domain. cbn. rewrite existsb_app, orb_true_iff. cbn. rewrite orb_false_r, Z.eqb_eq. naive_solver.
Qed.

(** Registering or dropping a domain's root frame keeps the device table. *)
Lemma amd_inv_pts a b s s' m m' (u : U) t : amd_inv av0 table cmd log a b s m u -> pts_ok t -> ledger av0 s' (pts_held t) -> (m' = m \/ exists f, m' = zero_table f m /\ av0 f) ->
  amd_inv av0 table cmd log a (ab_set_pts t b) s' m' u.
Proof using Hparams.
  intros [Hb Ha Hu He Hd Hat Hdm Hp Hl] Hpt Hl' Hm. split; try done. destruct Hm as [->|(f & -> & Hav)]; [done|]. intros x Hx. rewrite (dte_at_ext m); [by apply Hd|].
  intros i. rewrite entry_zero. destruct (Z.eqb_spec table f) as [->|]; [|done]. by destruct (ap_free _ _ _ _ _ Hparams).
Qed.

(** Enabling turns the unit on and drops what it cached before. *)
Lemma amd_enable_spec a b (s : S) m (u : U) : amd_inv av0 table cmd log a b s m u ->
  exists b' m' u', amd_enable_translation b m u = (Ok (), b', m', u') /\
    amd_inv av0 table cmd log {| as_domains := as_domains a; as_dte := as_dte a; as_att := as_att a; as_enabled := true |} b' s m' u'.
Proof using Hparams.
  intros Hinv. pose proof Hinv as [(Eb & Et & Ec) Hact [U1 U2 U3 U4 U5 U6 U7 U8] Hen Hdte Hatt Hdom Hpts Hl]. unfold amd_enable_translation. rewrite Hact. cbn [negb].
  destruct (ab_translation b) eqn:Ete.
  { eexists _, _, _. split; [reflexivity|]. destruct a as [ad adt aa ae]. cbn in Hen. subst ae. exact Hinv. }
  pose proof (amd_law_enable m u U3) as Hlaw. rewrite Eb. destruct (unit_read64 (base + AMD_CONTROL) m u) as [ctrl u1]. cbv zeta in Hlaw. destruct Hlaw as (V & C & T).
  set (u2 := unit_write64 _ _ m u1) in *. destruct (ap_table _ _ _ _ _ Hparams) as [Hta Htr].
  assert (Z.land (av_devtab (amd_view u)) ADDR_MASK = table) as Etab.
  { rewrite U1. unfold encode_device_table_base. change (Z.land DEVICE_TABLE_SIZE_ENCODING 0x1FF) with (Z.shiftl 0 56). apply addr_base; lia. }
  rewrite Etab in *. assert (forall y e, as_dte a !! y = Some e -> tlb_fits (as_dte a) y (dte_dom e) (dte_root e)) as Hself by (intros y e Hy e2 Hy2 _; congruence).
  assert (amd_unit_ok table cmd (ab_command_buffer_tail b) true (as_dte a) (tlb_fits (as_dte a)) u2) as Hu2.
  { split; rewrite ?V; cbn; try done.
    - intros x e Hx He. destruct (C x e He) as [Hw|Hold]; [by rewrite Hdte in Hw|by apply U7].
    - intros x d r Hx He. destruct (T x d r He) as [(e & Hw & <- & <-)|Hold]; [|by apply U8]. apply Hself. destruct Hw as [Hw|Hw]; [by rewrite Hdte in Hw|by apply U7]. }
  destruct (submit_cmd_spec (Z.shiftl CMD_OPCODE_INVALIDATE_ALL 60) 0 b m u2 true _ (as_dte a) _ (tlb_fits (as_dte a)) Eb Ec Hu2 Hdte) as (m3 & u3 & E3 & Hu3 & Hd3); [done|intros x e [?|?]; by apply Hself|done|].
  rewrite E3. cbn [negb]. eexists _, _, _. split; [reflexivity|]. split; cbn; done.
Qed.

Lemma amd_step_ok op a st : (let '(b, s, m, u) := st in amd_inv av0 table cmd log a b s m u) -> amd_op_ok op ->
  exists an st', amd_step op st = Done (an, st') /\ amd_answer_ok op an a st /\ let '(b, s, m, u) := st' in amd_inv av0 table cmd log (amd_abs_next op an a) b s m u.
Proof using Hparams.
  destruct st as [[[b s] m] u]. intros Hinv Hop. pose proof Hinv as [Hb Ha Hu He Hd Hat Hdm Hp Hl]. destruct op as [id|d|d|bdf d iopt flags mode| |bdf d|bdf]; cbn [amd_step].
  - eexists _, _. split; [reflexivity|]. split; [done|]. cbn [amd_abs_next]. assert (forall d, amd_has_domain (snd (amd_install_domain id b)) d = true <-> d ∈ {[id]} ∪ as_domains a) as Hdm'.
    { intros d. rewrite elem_of_union, elem_of_singleton, <- Hdm. apply amd_has_domain_app. } cbn [amd_install_domain snd] in Hdm'. destruct (amd_has_domain b id); cbn [negb] in *; split; try done.
  - unfold amd_provision_domain_pt. destruct (provision_spec av0 (ab_domain_pts b) [] s m d Hp) as (r & t & s' & m' & E & Hok & Hl' & Hr); [by rewrite app_nil_r|]. rewrite app_nil_r in Hl'. rewrite E. cbn [mbind run_bind].
    eexists _, _. split; [reflexivity|]. split; [destruct r as [f|[]]; cbn; naive_solver|]. cbn [amd_abs_next]. apply (amd_inv_pts a b s s' m m'); [done|done|done|]. destruct r as [f|[]]; [right; exists f|left; tauto|done|left; tauto|done].
    destruct Hr as (_ & -> & -> & _). split; [done|]. apply (lg_all _ _ _ Hl'). right. unfold pts_held. rewrite map_app. apply elem_of_app. right. by left.
  - unfold amd_release_domain_pt. destruct (release_spec av0 (ab_domain_pts b) [] s d Hp) as (r & t & s' & E & Hok & Hl' & Hr); [by rewrite app_nil_r|]. rewrite app_nil_r in Hl'. rewrite E. cbn [mbind run_bind].
    eexists _, _. split; [reflexivity|]. split; [destruct r as [[]|[]]; cbn; try (exact (False_ind _ Hr)); [destruct Hr as (f & Hpm); apply is_provisioned_spec; rewrite (Permutation_map _ Hpm); by left|exact (proj1 Hr)]|]. cbn [amd_abs_next]. apply (amd_inv_pts a b s s' m m); [done|done|done|by left].
  - destruct Hop as (H3 & H4 & H5). destruct (amd_install_spec bdf d iopt flags mode a b s m u Hinv H3 H4 H5) as (r & b' & m' & u' & E & Hans & Hinv'). rewrite E. by eexists _, _.
  - destruct (amd_enable_spec a b s m u Hinv) as (b' & m' & u' & E & Hinv'). rewrite E. eexists _, _. split; [reflexivity|]. split; [done|exact Hinv'].
  - unfold amd_attach_device. cbn [amd_answer_ok]. destruct (amd_has_domain b d) eqn:Edm; cbn [negb].
    2:{ eexists _, _. split; [reflexivity|]. split; [|done]. rewrite bool_decide_eq_true_2 by (rewrite <- Hdm; congruence). done. }
    apply Hdm in Edm. destruct (amd_has_attachment b bdf) eqn:Eat.
    + eexists _, _. split; [reflexivity|]. split; [|done]. apply Hat in Eat. rewrite bool_decide_eq_false_2, bool_decide_eq_true_2 by tauto. done.
    + eexists _, _. split; [reflexivity|]. split; [rewrite !bool_decide_eq_false_2; [done|rewrite <- Hat; congruence|tauto]|]. cbn [amd_abs_next]. split; try done. intros x. cbn [as_att]. rewrite elem_of_union, elem_of_singleton, <- Hat. apply has_attachment_app.
  - destruct (detach_spec b bdf) as [E Hx]. rewrite E. eexists _, _. split; [reflexivity|]. split.
    + cbn [amd_answer_ok]. destruct (amd_has_attachment b bdf) eqn:Eat; [rewrite bool_decide_eq_true_2 by (by apply Hat)|rewrite bool_decide_eq_false_2 by (rewrite <- Hat; congruence)]; done.
    + destruct (amd_has_attachment b bdf) eqn:Eat; cbn [amd_abs_next].
      * unfold amd_detach_device in *. cbv zeta in *. destruct (Nat.eqb _ _); cbn [snd] in *; (split; try done); intros x; cbn [as_att]; rewrite elem_of_difference, elem_of_singleton, <- Hat; apply Hx.
      * assert (forall x, amd_has_attachment (snd (amd_detach_device bdf b)) x = true <-> x ∈ as_att a) as Hx' by (intros x; rewrite Hx, <- Hat; split; [tauto|intros Hy; split; [done|congruence]]).
        unfold amd_detach_device in *. cbv zeta in *. destruct (Nat.eqb _ _); cbn [snd] in *; split; done.
Qed.

Lemma amd_reach_inv st0 a st : (let '(b, s, m, u) := st0 in amd_inv av0 table cmd log amd_abs_init b s m u) -> amd_reach st0 a st ->
  let '(b, s, m, u) := st in amd_inv av0 table cmd log a b s m u.
Proof using Hparams.
  intros Hinit Hr. induction Hr as [|a st op an st' Hr IH Hop E]; [done|]. destruct (amd_step_ok op a st IH Hop) as (an' & st'' & E' & _ & Hinv). rewrite E in E'. injection E' as <- <-. exact Hinv.
Qed.

Lemma amd_activate_spec s m (u : U) : src_wf s -> (forall x, av0 x <-> src_avail s x) -> av_run (amd_view u) = false -> av_en (amd_view u) = false -> (forall x, amd_cached u x = None) -> amd_tlb u = ∅ ->
  (forall x, 0 <= x < 128 -> dte_at m table x = None) ->
  exists b' m' u', amd_activate_hardware (amd_prepare_activation base table cmd log amd_new) m u = (Ok (), b', m', u') /\ amd_inv av0 table cmd log amd_abs_init b' s m' u'.
Proof using Hparams.
  intros Hwf Hav Hrun Hen Hcache Htlb Hdte. destruct (ap_table _ _ _ _ _ Hparams) as [Hta Htr]. destruct (ap_cmd _ _ _ _ _ Hparams) as [Hca Hcr]. pose proof (ap_base _ _ _ _ _ Hparams) as Hb. pose proof (ap_log _ _ _ _ _ Hparams) as Hlog.
  unfold amd_activate_hardware, amd_prepare_activation. cbn [ab_unit_base ab_device_table_phys ab_command_buffer_phys ab_event_log_phys amd_new].
  rewrite (proj2 (Z.eqb_neq base 0)), (proj2 (Z.eqb_neq table 0)), (proj2 (Z.eqb_neq cmd 0)), (proj2 (Z.eqb_neq log 0)) by (done || lia). cbn [orb].
  destruct (amd_law_setup (encode_device_table_base table DEVICE_TABLE_SIZE_ENCODING) (encode_command_buffer_base cmd CMD_BUFFER_LENGTH_ENCODING) (encode_event_log_base log EVENT_LOG_LENGTH_ENCODING) m u Hrun Hen) as (V1 & C1 & T1). cbn zeta in V1, C1, T1.
  set (u1 := unit_write64 (base + AMD_EVENT_LOG_TAIL) 0 m _) in *. destruct (amd_law_start m u1) as (u2 & u3 & E2 & E3 & V3 & C3 & T3); [by rewrite V1|by rewrite V1|]. rewrite E2. cbn [negb]. rewrite E3. cbn [negb].
  destruct (encode_invalidate_devtab_entry 0) as [lo hi]. cbn [ab_set_tail ab_command_buffer_phys].
  destruct (write_cmd_frame cmd 0 lo hi m Hca ltac:(lia) ltac:(lia)) as (_ & Ex). set (m' := write_cmd_entry cmd 0 lo hi m) in *.
  destruct (amd_law_drain m' u3 0) as (u4 & E4 & V4 & C4 & T4); [by rewrite V3|by rewrite V3, V1|done|]. change (cmd_next 0) with CMD_BUFFER_ENTRY_BYTES in *. rewrite E4. cbn [negb].
  assert ((if (0 =? base) && (0 =? table) && (0 =? cmd) && (0 =? log) then false else false) = false) as Efl by (by destruct (_ && _)).
  eexists _, _, _. split; [reflexivity|]. split; cbn; [done|done| |exact Efl| | | |constructor|].
  - split; rewrite ?V4; cbn; [by rewrite V3, V1|by rewrite V3, V1|done|done|done|rewrite V3; symmetry; exact Efl| |].
    + intros x e _ He. destruct (C4 x e He) as [[Ht _]|[Ho _]]; [by rewrite V3 in Ht|]. rewrite C3, C1, Hcache in Ho. done.
    + intros x d r _ He. destruct (T4 x d r He) as [[Ht _]|[Ho _]]; [by rewrite V3 in Ht|]. rewrite T3, T1, Htlb in Ho. set_solver.
  - intros x Hx. rewrite (dte_at_ext m m') by (intros i; apply Ex; apply (ap_ne _ _ _ _ _ Hparams)). by rewrite Hdte.
  - intros x. split; [done|set_solver].
  - intros x. split; [done|set_solver].
  - split; [done|constructor|by intros ? ?%elem_of_nil|]. intros x. rewrite Hav, elem_of_nil. tauto.
Qed.
End Ops.


(** ** A unit that keeps the contract

    It consumes every command at once and, while it is enabled, caches the
    entries and the translations of a few devices that keep asking. *)

Definition AMD_SIM_BASE : Z := 0xFEB80000.

Record AmdSim := { asu_view : AmdView; asu_cache : gmap Z Dte; asu_tlb : gset (Z * Z * Z); asu_watched : list Z }.
Definition asu_set (v : AmdView) (c : gmap Z Dte) (t : gset (Z * Z * Z)) (u : AmdSim) : AmdSim := {| asu_view := v; asu_cache := c; asu_tlb := t; asu_watched := asu_watched u |}.
Definition asu_regs (v : AmdView) (u : AmdSim) : AmdSim := asu_set v (asu_cache u) (asu_tlb u) u.

Definition asu_fill (m : phys_mem) (table : Z) (ws : list Z) (c : gmap Z Dte) : gmap Z Dte :=
  foldr (fun w c => match dte_at m table w with Some e => <[w := e]> c | None => c end) c ws.
Definition asu_fill_tlb (m : phys_mem) (table : Z) (ws : list Z) (t : gset (Z * Z * Z)) : gset (Z * Z * Z) :=
  foldr (fun w t => match dte_at m table w with Some e => {[(w, dte_dom e, dte_root e)]} ∪ t | None => t end) t ws.

Fixpoint asu_consume (fuel : nat) (m : phys_mem) (q head tail : Z) (c : gmap Z Dte) (t : gset (Z * Z * Z)) : Z * gmap Z Dte * gset (Z * Z * Z) :=
  match fuel with
  | O => (head, c, t)
  | Datatypes.S fuel =>
      if head =? tail then (head, c, t) else
      asu_consume fuel m q (cmd_next head) tail (filter (fun '(b, _) => amd_evicts (entry m q (head / 8)) b = false) c)
        (filter (fun x => amd_tlb_evicts (entry m q (head / 8)) (entry m q (head / 8 + 1)) x.1.2 = false) t)
  end.

Definition asu_write64 (a v : Z) (m : phys_mem) (u : AmdSim) : AmdSim :=
  let w := asu_view u in
  let off := a - AMD_SIM_BASE in
  let table := Z.land (av_devtab w) ADDR_MASK in
  if off =? AMD_DEVICE_TABLE_BASE then asu_regs {| av_devtab := v; av_cmdbuf := av_cmdbuf w; av_run := av_run w; av_en := av_en w; av_head := av_head w |} u
  else if off =? AMD_COMMAND_BUFFER_BASE then asu_regs {| av_devtab := av_devtab w; av_cmdbuf := v; av_run := av_run w; av_en := av_en w; av_head := av_head w |} u
  else if off =? AMD_COMMAND_BUFFER_HEAD then asu_regs {| av_devtab := av_devtab w; av_cmdbuf := av_cmdbuf w; av_run := av_run w; av_en := av_en w; av_head := v |} u
  else if off =? AMD_CONTROL then
    let w' := {| av_devtab := av_devtab w; av_cmdbuf := av_cmdbuf w; av_run := negb (Z.land v CTRL_BIT_CMD_BUF_EN =? 0); av_en := negb (Z.land v CTRL_BIT_IOMMU_EN =? 0); av_head := av_head w |} in
    if av_en w' then asu_set w' (asu_fill m table (asu_watched u) (asu_cache u)) (asu_fill_tlb m table (asu_watched u) (asu_tlb u)) u else asu_regs w' u
  else if (off =? AMD_COMMAND_BUFFER_TAIL) && av_run w then
    let '(head, c, t) := asu_consume 256 m (Z.land (av_cmdbuf w) ADDR_MASK) (av_head w) v (asu_cache u) (asu_tlb u) in
    let w' := {| av_devtab := av_devtab w; av_cmdbuf := av_cmdbuf w; av_run := av_run w; av_en := av_en w; av_head := head |} in
    if av_en w then asu_set w' (asu_fill m table (asu_watched u) c) (asu_fill_tlb m table (asu_watched u) t) u else asu_set w' c t u
  else u.

Definition asu_read64 (a : Z) (m : phys_mem) (u : AmdSim) : Z * AmdSim :=
  let w := asu_view u in
  let off := a - AMD_SIM_BASE in
  (if off =? AMD_COMMAND_BUFFER_HEAD then av_head w
   else if off =? AMD_STATUS then (if av_run w then Z.lor STATUS_BIT_CMD_BUF_RUN STATUS_BIT_EVENT_LOG_RUN else 0)
   else Z.lor (if av_run w then Z.lor CTRL_BIT_CMD_BUF_EN CTRL_BIT_EVENT_LOG_EN else 0) (if av_en w then CTRL_BIT_IOMMU_EN else 0), u).

#[global] Instance amd_sim_unit : MmioUnit AmdSim := {| unit_write32 := fun _ _ _ u => u; unit_write64 := asu_write64; unit_read32 := fun _ _ u => (0, u); unit_read64 := asu_read64 |}.

Lemma asu_fill_some m table ws c b e : asu_fill m table ws c !! b = Some e -> dte_at m table b = Some e \/ c !! b = Some e.
Proof.
  induction ws as [|w ws IH]; cbn; [by right|]. destruct (dte_at m table w) as [e'|] eqn:E; [|exact IH].
  destruct (decide (b = w)) as [->|Hne]; [rewrite lookup_insert_eq; intros [= <-]; by left|]. by rewrite lookup_insert_ne by congruence.
Qed.

Lemma asu_fill_tlb_some m table ws t b d r : (b, d, r) ∈ asu_fill_tlb m table ws t -> (exists e, dte_at m table b = Some e /\ dte_dom e = d /\ dte_root e = r) \/ (b, d, r) ∈ t.
Proof.
  induction ws as [|w ws IH]; cbn; [by right|]. destruct (dte_at m table w) as [e'|] eqn:E; [|exact IH].
  rewrite elem_of_union, elem_of_singleton. intros [[= -> -> ->]|Hin]; [left; by exists e'|by apply IH].
Qed.

Lemma cmd_next_ne t : cmd_slot_ok t -> cmd_next t <> t.
Proof. unfold cmd_slot_ok, cmd_next. change CMD_BUFFER_BYTES with 4096. change CMD_BUFFER_ENTRY_BYTES with 16. intros [? ?]. destruct (Z.leb_spec 4096 (t + 16)); [|lia]. intros <-. lia. Qed.

Lemma asu_consume_one n m q t c tl : cmd_slot_ok t ->
  asu_consume (Datatypes.S (Datatypes.S n)) m q t (cmd_next t) c tl = (cmd_next t, filter (fun '(b, _) => amd_evicts (entry m q (t / 8)) b = false) c,
    filter (fun x => amd_tlb_evicts (entry m q (t / 8)) (entry m q (t / 8 + 1)) x.1.2 = false) tl).
Proof. intros Hslot. cbn [asu_consume]. pose proof (cmd_next_ne t Hslot). rewrite (proj2 (Z.eqb_neq t (cmd_next t))), Z.eqb_refl by congruence. done. Qed.

Lemma asu_at off v m u : asu_write64 (AMD_SIM_BASE + off) v m u =
  (let w := asu_view u in
  if off =? AMD_DEVICE_TABLE_BASE then asu_regs {| av_devtab := v; av_cmdbuf := av_cmdbuf w; av_run := av_run w; av_en := av_en w; av_head := av_head w |} u
  else if off =? AMD_COMMAND_BUFFER_BASE then asu_regs {| av_devtab := av_devtab w; av_cmdbuf := v; av_run := av_run w; av_en := av_en w; av_head := av_head w |} u
  else if off =? AMD_COMMAND_BUFFER_HEAD then asu_regs {| av_devtab := av_devtab w; av_cmdbuf := av_cmdbuf w; av_run := av_run w; av_en := av_en w; av_head := v |} u
  else asu_write64 (AMD_SIM_BASE + off) v m u).
Proof. unfold asu_write64. rewrite Z.add_simpl_l. by destruct (off =? AMD_DEVICE_TABLE_BASE), (off =? AMD_COMMAND_BUFFER_BASE), (off =? AMD_COMMAND_BUFFER_HEAD). Qed.

(** Writes that do nothing while the unit is stopped. *)
Lemma asu_inert off v m u : av_run (asu_view u) = false -> off = AMD_COMMAND_BUFFER_TAIL \/ off = AMD_EVENT_LOG_BASE \/ off = AMD_EVENT_LOG_HEAD \/ off = AMD_EVENT_LOG_TAIL -> asu_write64 (AMD_SIM_BASE + off) v m u = u.
Proof. intros Hrun Hoff. unfold asu_write64. rewrite Z.add_simpl_l, Hrun, andb_false_r. destruct Hoff as [->|[->|[->| ->]]]; reflexivity. Qed.

Lemma asu_control v m u (w := asu_view u) : asu_write64 (AMD_SIM_BASE + AMD_CONTROL) v m u =
  (let w' := {| av_devtab := av_devtab w; av_cmdbuf := av_cmdbuf w; av_run := negb (Z.land v CTRL_BIT_CMD_BUF_EN =? 0); av_en := negb (Z.land v CTRL_BIT_IOMMU_EN =? 0); av_head := av_head w |} in
   let table := Z.land (av_devtab w) ADDR_MASK in
   if av_en w' then asu_set w' (asu_fill m table (asu_watched u) (asu_cache u)) (asu_fill_tlb m table (asu_watched u) (asu_tlb u)) u else asu_regs w' u).
Proof. unfold asu_write64. rewrite Z.add_simpl_l. done. Qed.

Lemma asu_drain_laws m u t (t' := cmd_next t) (q := Z.land (av_cmdbuf (asu_view u)) ADDR_MASK) (u' := asu_write64 (AMD_SIM_BASE + AMD_COMMAND_BUFFER_TAIL) t' m u) (table := Z.land (av_devtab (asu_view u)) ADDR_MASK) :
  av_run (asu_view u) = true -> av_head (asu_view u) = t -> cmd_slot_ok t ->
  asu_view u' = {| av_devtab := av_devtab (asu_view u); av_cmdbuf := av_cmdbuf (asu_view u); av_run := true; av_en := av_en (asu_view u); av_head := t' |} /\
  (forall b e, asu_cache u' !! b = Some e -> (av_en (asu_view u) = true /\ dte_at m table b = Some e) \/ (asu_cache u !! b = Some e /\ amd_evicts (entry m q (t / 8)) b = false)) /\
  forall b d r, (b, d, r) ∈ asu_tlb u' ->
    (av_en (asu_view u) = true /\ exists e, (dte_at m table b = Some e \/ asu_cache u !! b = Some e) /\ dte_dom e = d /\ dte_root e = r) \/
    ((b, d, r) ∈ asu_tlb u /\ amd_tlb_evicts (entry m q (t / 8)) (entry m q (t / 8 + 1)) d = false).
Proof.
  intros Hrun Hhead Hslot. unfold u', asu_write64. rewrite Z.add_simpl_l. cbn [Z.eqb Pos.eqb AMD_COMMAND_BUFFER_TAIL AMD_DEVICE_TABLE_BASE AMD_COMMAND_BUFFER_BASE AMD_COMMAND_BUFFER_HEAD AMD_CONTROL].
  rewrite Hrun, Hhead. cbn [andb]. fold q. rewrite (asu_consume_one 254 m q t (asu_cache u) (asu_tlb u) Hslot : asu_consume 256 m q t t' (asu_cache u) (asu_tlb u) = _). fold t'. set (c := filter _ (asu_cache u)). set (tl := filter _ (asu_tlb u)).
  assert (forall b e, c !! b = Some e -> asu_cache u !! b = Some e /\ amd_evicts (entry m q (t / 8)) b = false) as Hc by (intros b e [? ?]%map_lookup_filter_Some; done).
  assert (forall b d r, (b, d, r) ∈ tl -> (b, d, r) ∈ asu_tlb u /\ amd_tlb_evicts (entry m q (t / 8)) (entry m q (t / 8 + 1)) d = false) as Htl by (intros b d r [? ?]%elem_of_filter; done).
  cbv zeta. fold table. destruct (av_en (asu_view u)) eqn:Hen; cbn [asu_view asu_cache asu_tlb asu_set]; (split; [done|split]).
  - intros b e [Hw|Hx]%asu_fill_some; [by left|right; by apply Hc].
  - intros b d r [(e & Hw & He)|Hx]%asu_fill_tlb_some; [left; split; [done|]; exists e; split; [by left|done]|right; by apply Htl].
  - intros b e Hx. right. by apply Hc.
  - intros b d r Hx. right. by apply Htl.
Qed.

#[global] Instance amd_sim_laws : AmdUnitLaws AmdSim AMD_SIM_BASE.
Proof.
  refine {| amd_view := asu_view; amd_cached := fun u b => asu_cache u !! b; amd_tlb := asu_tlb |}.
  - intros dt cb el m u Hrun Hen u'. unfold u'. cbn [unit_write64 amd_sim_unit].
    rewrite (asu_at AMD_DEVICE_TABLE_BASE). cbv zeta. cbn [Z.eqb Pos.eqb AMD_DEVICE_TABLE_BASE]. set (u1 := asu_regs _ u).
    rewrite (asu_at AMD_COMMAND_BUFFER_BASE). cbv zeta. cbn [Z.eqb Pos.eqb AMD_DEVICE_TABLE_BASE AMD_COMMAND_BUFFER_BASE]. set (u2 := asu_regs _ u1).
    rewrite (asu_inert AMD_EVENT_LOG_BASE) by (done || tauto). rewrite (asu_at AMD_COMMAND_BUFFER_HEAD). cbv zeta. cbn [Z.eqb Pos.eqb AMD_DEVICE_TABLE_BASE AMD_COMMAND_BUFFER_BASE AMD_COMMAND_BUFFER_HEAD]. set (u3 := asu_regs _ u2).
    rewrite (asu_inert AMD_COMMAND_BUFFER_TAIL) by (done || tauto). rewrite (asu_inert AMD_EVENT_LOG_HEAD) by (done || tauto). rewrite (asu_inert AMD_EVENT_LOG_TAIL) by (done || tauto).
    cbn. by rewrite Hrun, Hen.
  - intros m u Hrun Hen. eexists _, _. split; [apply poll_now; [done|]|split; [apply poll_now; [done|]|]].
    + cbn [unit_read64 amd_sim_unit]. unfold asu_read64. rewrite Z.add_simpl_l. reflexivity.
    + cbn [unit_read64 amd_sim_unit]. unfold asu_read64. rewrite Z.add_simpl_l. reflexivity.
    + cbn [unit_write64 amd_sim_unit]. rewrite asu_control. done.
  - intros m u t Hrun Hhead Hslot t' q. pose proof (asu_drain_laws m u t Hrun Hhead Hslot) as Hd. cbn [unit_write64 amd_sim_unit]. fold t' in Hd. set (u' := asu_write64 _ t' m u) in *. destruct Hd as (Hv & Hc & Ht).
    exists u'. split; [|done]. apply poll_now; [done|]. cbn [unit_read64 amd_sim_unit]. unfold asu_read64. rewrite Z.add_simpl_l, Hv. cbn [av_head]. change (AMD_COMMAND_BUFFER_HEAD =? AMD_COMMAND_BUFFER_HEAD) with true. cbv iota. by rewrite Z.eqb_refl.
  - intros m u Hrun. cbn [unit_read64 unit_write64 amd_sim_unit]. unfold asu_read64. rewrite Z.add_simpl_l. cbn [Z.eqb Pos.eqb AMD_COMMAND_BUFFER_HEAD AMD_CONTROL AMD_STATUS]. rewrite Hrun. cbv zeta. rewrite asu_control.
    assert (forall x, x = 0 \/ x = CTRL_BIT_IOMMU_EN -> negb (Z.land (Z.lor (Z.lor (Z.lor CTRL_BIT_CMD_BUF_EN CTRL_BIT_EVENT_LOG_EN) x) CTRL_BIT_IOMMU_EN) CTRL_BIT_CMD_BUF_EN =? 0) = true /\
      negb (Z.land (Z.lor (Z.lor (Z.lor CTRL_BIT_CMD_BUF_EN CTRL_BIT_EVENT_LOG_EN) x) CTRL_BIT_IOMMU_EN) CTRL_BIT_IOMMU_EN =? 0) = true) as Hbits by (intros x [->| ->]; done).
    destruct (Hbits (if av_en (asu_view u) then CTRL_BIT_IOMMU_EN else 0)) as [-> ->]; [destruct (av_en _); tauto|]. cbn [av_en asu_view asu_set]. split; [done|]. cbn [asu_cache asu_tlb asu_set]. split.
    + intros b e. apply asu_fill_some.
    + intros b d r [(e & Hw & He)|Hx]%asu_fill_tlb_some; [left; exists e; split; [by left|done]|by right].
Defined.

(** ** The theorem on a concrete machine *)

Fixpoint amd_run {U S : Type} `{MmioUnit U} `{PtSource S} (ops : list AmdOp) (a : AmdAbs) (st : AmdViBackend * S * phys_mem * U) : run (AmdAbs * (AmdViBackend * S * phys_mem * U)) :=
  match ops with
  | [] => Done (a, st)
  | op :: ops => '(an, st) ← amd_step op st; amd_run ops (amd_abs_next op an a) st
  end.

Lemma amd_run_reach {U S : Type} `{MmioUnit U} `{PtSource S} ops st0 a st a' st' : amd_reach st0 a st -> Forall amd_op_ok ops -> amd_run ops a st = Done (a', st') -> amd_reach st0 a' st'.
Proof.
  revert a st. induction ops as [|op ops IH]; intros a st Hr Hops E; cbn in E; [by injection E as <- <-|]. apply Forall_cons in Hops as [Hop Hops].
  run_inv. destruct a0 as [an st1]. eapply IH; [|done|exact E]. by eapply amd_reach_step.
Qed.

Definition demo_amd_unit : AmdSim := {| asu_view := {| av_devtab := 0; av_cmdbuf := 0; av_run := false; av_en := false; av_head := 0 |}; asu_cache := ∅; asu_tlb := ∅; asu_watched := [0x18] |}.
Definition demo_amd_boot : result AmdViActivateError unit * AmdViBackend * phys_mem * AmdSim := amd_activate_hardware (amd_prepare_activation AMD_SIM_BASE 0x10000 0x11000 0x12000 amd_new) ∅ demo_amd_unit.

(** With translation on, a device gets its entry, its attachment is dropped and it gets another; the domain's root is given back; a device of another bus is refused. *)
Definition demo_amd_ops : list AmdOp :=
  [AoDomain 7; AoProvision 7; AoEnable; AoInstall 0x18 7 0x200000 3 Level4; AoInstall 0x118 7 0x100000 3 Level4; AoDetach 0x18; AoInstall 0x18 7 0x100000 3 Level4; AoDetach 0x18; AoReleasePt 7].
Definition demo_amd_from (boot : result AmdViActivateError unit * AmdViBackend * phys_mem * AmdSim) := let '(_, b, m, u) := boot in amd_run demo_amd_ops amd_abs_init (b, demo_frames, m, u).

(** The entry survives its attachment and its page table's frame; the caches hold the second entry only. *)
Lemma demo_amd_check : exists a b s m u, demo_amd_from demo_amd_boot = Done (a, (b, s, m, u)) /\
  dte_at m 0x10000 0x18 = Some (7, 0x100000, 4, true, true) /\ ab_attachments b = [] /\ ab_domain_pts b = [] /\ match fs_alloc s with Done (f, _) => f = Some 0x100000 | Panicked => False end /\
  asu_cache u !! 0x18 = Some (7, 0x100000, 4, true, true) /\ elements (asu_tlb u) = [(0x18, 7, 0x100000)].
Proof.
  assert (match demo_amd_from demo_amd_boot with
          | Done (_, (b, s, m, u)) => bool_decide (dte_at m 0x10000 0x18 = Some (7, 0x100000, 4, true, true)) && (match ab_attachments b with [] => true | _ => false end) && (match ab_domain_pts b with [] => true | _ => false end) &&
              (match fs_alloc s with Done (f, _) => bool_decide (f = Some 0x100000) | Panicked => false end) &&
              bool_decide (asu_cache u !! 0x18 = Some (7, 0x100000, 4, true, true) /\ elements (asu_tlb u) = [(0x18, 7, 0x100000)])
          | Panicked => false end = true) as Hb by (vm_compute; reflexivity).
  destruct (demo_amd_from demo_amd_boot) as [[a [[[b s] m] u]]|]; [|discriminate Hb]. apply andb_true_iff in Hb as [[[[Hw%bool_decide_eq_true Ha]%andb_true_iff Hd]%andb_true_iff Hf]%andb_true_iff Hc%bool_decide_eq_true].
  exists a, b, s, m, u. split; [done|]. split; [done|]. split; [by destruct (ab_attachments b)|]. split; [by destruct (ab_domain_pts b)|]. split; [|done]. destruct (fs_alloc s) as [[f ?]|]; [|done]. by apply bool_decide_eq_true in Hf.
Qed.

Lemma demo_amd_reach boot r b0 m0 u0 a st : boot = (r, b0, m0, u0) -> demo_amd_from boot = Done (a, st) -> amd_reach (b0, demo_frames, m0, u0) a st.
Proof. intros -> E. cbn [demo_amd_from] in E. eapply amd_run_reach; [apply amd_reach_init| |exact E]. unfold demo_amd_ops. repeat constructor; unfold is_u16; lia. Qed.

Lemma demo_amd_boot_eq : amd_activate_hardware (amd_prepare_activation AMD_SIM_BASE 0x10000 0x11000 0x12000 amd_new) ∅ demo_amd_unit = demo_amd_boot.
Proof. unfold demo_amd_boot. reflexivity. Qed.

Lemma demo_amd_params : amd_params (src_avail demo_frames) AMD_SIM_BASE 0x10000 0x11000 0x12000.
Proof.
  split; [split; [done|lia]|split; [done|lia]|done|done|done|]. intros (i & [Hi _] & _ & Hx). unfold frame_addr in Hx. cbn [Paging.demo_frames FrameAlloc.base] in Hx. lia.
Qed.

