(* ===== verification/IommuKind.v ===== *)
(** * The kernel's IOMMU and the devices of a driver
    (omni-kernel: bare_metal/iommu/mod.rs; syscall_entry.rs: the device
    binding of driver_load and tear_down_pci_bindings)

    [IommuKind] dispatches to the pass-through, VT-d and AMD-Vi backends; a
    driver's PCI devices are recorded with it when the driver is loaded and
    dropped when it exits. *)

From Stdlib Require Import ZArith Lia.
From stdpp Require Import base numbers list sets gmap.
From S2P Require Import Prelude FrameAlloc CapScope Paging DriverDma Iommu Vtd Amdvi.

(** ** Dispatch *)

Inductive IommuKind := KPassthrough | KIntel (b : VtdBackend) | KAmd (b : AmdViBackend).

Definition new_passthrough : IommuKind := KPassthrough.

(** [match self]: the backend's operation, and its state put back. *)
Definition kind_dispatch {R} (p : unit -> R) (i : VtdBackend -> R * VtdBackend) (a : AmdViBackend -> R * AmdViBackend) (k : IommuKind) : R * IommuKind :=
  match k with
  | KPassthrough => (p (), KPassthrough)
  | KIntel b => let '(r, b) := i b in (r, KIntel b)
  | KAmd b => let '(r, b) := a b in (r, KAmd b)
  end.

#[global] Instance iommu_kind_backend : IommuBackend IommuKind := {|
  iommu_install_domain := fun id => kind_dispatch (fun _ => Ok ()) (iommu_install_domain id) (iommu_install_domain id);
  iommu_map := fun id iova phys len flags => kind_dispatch (fun _ => passthrough_map iova phys len) (iommu_map id iova phys len flags) (iommu_map id iova phys len flags);
  iommu_unmap := fun id iova len => kind_dispatch (fun _ => passthrough_unmap iova len) (iommu_unmap id iova len) (iommu_unmap id iova len);
  iommu_flush := fun id => kind_dispatch (fun _ => Ok ()) (iommu_flush id) (iommu_flush id);
|}.

#[global] Instance iommu_kind_devices : IommuDevices IommuKind := {|
  backend_vendor := fun k => match k with KPassthrough => VPassthrough | KIntel b => backend_vendor b | KAmd b => backend_vendor b end;
  iommu_attach := fun bdf domain => kind_dispatch (fun _ => Ok ()) (iommu_attach bdf domain) (iommu_attach bdf domain);
  iommu_detach := fun bdf => kind_dispatch (fun _ => Ok ()) (iommu_detach bdf) (iommu_detach bdf);
|}.

Definition install_backend_for_vendor (vendor : IommuVendor) : IommuKind :=
  match vendor with VPassthrough => new_passthrough | VIntel => KIntel vtd_new | VAmd => KAmd amd_new end.

Definition iommu_domain_pt_root_phys (domain : Z) (k : IommuKind) : option Z :=
  match k with KIntel b => pt_root_phys (vb_domain_pts b) domain | KAmd b => pt_root_phys (ab_domain_pts b) domain | KPassthrough => None end.
Definition iommu_hardware_activated (k : IommuKind) : bool := match k with KIntel b => vb_activated b | KAmd b => ab_activated b | KPassthrough => false end.
Definition iommu_translation_enabled (k : IommuKind) : bool := match k with KIntel b => vb_translation b | KAmd b => ab_translation b | KPassthrough => false end.

Definition prepare_vt_d_unit (unit_base root_table_phys invalidation_queue_phys : Z) (k : IommuKind) : result IommuError unit * IommuKind :=
  match k with
  | KIntel b => (Ok (), KIntel (vtd_prepare_activation unit_base root_table_phys invalidation_queue_phys b))
  | _ => (Err IeUnsupported, k)
  end.
Definition prepare_amd_vi_unit (unit_base device_table_phys command_buffer_phys event_log_phys : Z) (k : IommuKind) : result IommuError unit * IommuKind :=
  match k with
  | KAmd b => (Ok (), KAmd (amd_prepare_activation unit_base device_table_phys command_buffer_phys event_log_phys b))
  | _ => (Err IeUnsupported, k)
  end.

Definition map_result {E E' A B} (f : A -> B) (g : E -> E') (r : result E A) : result E' B := match r with Ok x => Ok (f x) | Err e => Err (g e) end.

Section Live.
Context {U : Type} `{MmioUnit U}.

(** [iommu_unit_base()] is the global written by the boot probe. *)
Definition activate_intel_vt_d (iommu_unit_base : Z) (k : IommuKind) (m : phys_mem) (u : U) : result IommuError bool * IommuKind * phys_mem * U :=
  if iommu_unit_base =? 0 then (Ok false, k, m, u) else
  match k with
  | KIntel b => let '(r, b, m, u) := vtd_activate_hardware b m u in (map_result (fun _ => true) vtd_activate_to_iommu r, KIntel b, m, u)
  | _ => (Ok false, k, m, u)
  end.
Definition activate_amd_vi (iommu_unit_base : Z) (k : IommuKind) (m : phys_mem) (u : U) : result IommuError bool * IommuKind * phys_mem * U :=
  if iommu_unit_base =? 0 then (Ok false, k, m, u) else
  match k with
  | KAmd b => let '(r, b, m, u) := amd_activate_hardware b m u in (map_result (fun _ => true) amd_activate_to_iommu r, KAmd b, m, u)
  | _ => (Ok false, k, m, u)
  end.

Definition iommu_enable_translation (k : IommuKind) (m : phys_mem) (u : U) : result IommuError bool * IommuKind * phys_mem * U :=
  match k with
  | KIntel b => let '(r, b, u) := vtd_enable_translation b m u in (map_result (fun _ => true) vtd_activate_to_iommu r, KIntel b, m, u)
  | KAmd b => let '(r, b, m, u) := amd_enable_translation b m u in (map_result (fun _ => true) amd_activate_to_iommu r, KAmd b, m, u)
  | KPassthrough => (Ok false, k, m, u)
  end.

Definition install_amd_vi_device_entry (bdf domain iopt_phys flags : Z) (mode : PageMode) (k : IommuKind) (m : phys_mem) (u : U) : result IommuError bool * IommuKind * phys_mem * U :=
  match k with
  | KAmd b => let '(r, b, m, u) := amd_install_device_entry bdf domain iopt_phys flags mode b m u in (map_result (fun _ => true) amd_attach_to_iommu r, KAmd b, m, u)
  | _ => (Ok false, k, m, u)
  end.
Definition install_vt_d_device_entry (bdf domain slpt_phys context_table_phys : Z) (width : AddressWidth) (translation : TranslationType) (k : IommuKind) (m : phys_mem) (u : U) : result IommuError bool * IommuKind * phys_mem * U :=
  match k with
  | KIntel b => let '(r, b, m, u) := vtd_install_device_entry bdf domain slpt_phys context_table_phys width translation b m u in (map_result (fun _ => true) vtd_attach_to_iommu r, KIntel b, m, u)
  | _ => (Ok false, k, m, u)
  end.

Context {S : Type} `{PtSource S}.

Definition iommu_provision_domain_pt (domain : Z) (k : IommuKind) (s : S) (m : phys_mem) : run (result DomainPtError Z * IommuKind * S * phys_mem) :=
  match k with
  | KIntel b => '(r, b, s, m) ← vtd_provision_domain_pt domain b s m; Done (r, KIntel b, s, m)
  | KAmd b => '(r, b, s, m) ← amd_provision_domain_pt domain b s m; Done (r, KAmd b, s, m)
  | KPassthrough => Done (Ok 0, k, s, m)
  end.
Definition iommu_release_domain_pt (domain : Z) (k : IommuKind) (s : S) : run (result DomainPtError unit * IommuKind * S) :=
  match k with
  | KIntel b => '(r, b, s) ← vtd_release_domain_pt domain b s; Done (r, KIntel b, s)
  | KAmd b => '(r, b, s) ← amd_release_domain_pt domain b s; Done (r, KAmd b, s)
  | KPassthrough => Done (Ok (), k, s)
  end.

Definition install_vt_d_device_entry_managed (bdf domain slpt_phys : Z) (width : AddressWidth) (translation : TranslationType) (k : IommuKind) (s : S) (m : phys_mem) (u : U) : run (result IommuError bool * IommuKind * S * phys_mem * U) :=
  match k with
  | KIntel b => '(r, b, s, m, u) ← install_device_entry_with_alloc bdf domain slpt_phys width translation b s m u; Done (map_result (fun _ => true) vtd_attach_to_iommu r, KIntel b, s, m, u)
  | _ => Done (Ok false, k, s, m, u)
  end.
Definition release_vt_d_device_entry_managed (bdf : Z) (k : IommuKind) (s : S) (m : phys_mem) (u : U) : run (result IommuError bool * IommuKind * S * phys_mem * U) :=
  match k with
  | KIntel b => '(r, b, s, m, u) ← release_device_entry_with_alloc bdf b s m u; Done (map_result (fun _ => true) (fun _ => IeUnsupported) r, KIntel b, s, m, u)
  | _ => Done (Ok false, k, s, m, u)
  end.

(** ** The devices of a driver (syscall_entry.rs)

    [bs_bound] is [pcb.bound_pci_devices] of each process, [bs_vendor] the
    global tag written by the boot probe. *)

Record BindState := { bs_kind : IommuKind; bs_vendor : Z; bs_bound : gmap Z (list Z); bs_src : S; bs_mem : phys_mem; bs_unit : U }.

Definition bs_set (k : IommuKind) (bd : gmap Z (list Z)) (s : S) (m : phys_mem) (u : U) (st : BindState) : BindState :=
  {| bs_kind := k; bs_vendor := bs_vendor st; bs_bound := bd; bs_src := s; bs_mem := m; bs_unit := u |}.

(** [for bdf in bdfs { if iommu_attach_device(bdf, domain_id).is_ok() { push } }] *)
Fixpoint attach_loop (bdfs : list Z) (domain : Z) (bound : list Z) (any : bool) (k : IommuKind) : list Z * bool * IommuKind :=
  match bdfs with
  | [] => (bound, any, k)
  | bdf :: l =>
      let '(r, k) := iommu_attach bdf domain k in
      match r with
      | Ok _ => attach_loop l domain (bound ++ [bdf]) true k
      | Err _ => attach_loop l domain bound any k
      end
  end.

(** The live installation of every bound device. *)
Fixpoint install_bound_loop (vendor : IommuVendor) (domain slpt : Z) (l : list Z) (any : bool) (k : IommuKind) (s : S) (m : phys_mem) (u : U) : run (bool * IommuKind * S * phys_mem * U) :=
  match l with
  | [] => Done (any, k, s, m, u)
  | bdf :: l =>
      '(r, k, s, m, u) ←
        (match vendor with
         | VIntel => install_vt_d_device_entry_managed bdf domain slpt Bits48Level4 UntranslatedAndTranslated k s m u
         | VAmd => let '(r, k, m, u) := install_amd_vi_device_entry bdf domain slpt (flags_union IOMMU_READ IOMMU_WRITE) Level4 k m u in Done (r, k, s, m, u)
         | VPassthrough => Done (Ok false, k, s, m, u)
         end);
      install_bound_loop vendor domain slpt l (match r with Ok true => true | _ => any end) k s m u
  end.

(** The block of [driver_load] that binds the manifest's devices. *)
Definition bind_pci_devices (task_id : Z) (pci_devices : list Resource) (st : BindState) : run BindState :=
  let domain_id := domain_for_task task_id in
  let bdfs := pci_bdfs_from_resources pci_devices in
  let '(r, k) := iommu_install_domain domain_id (bs_kind st) in
  let domain_install_ok := match r with Ok _ => true | Err _ => false end in
  let '(bd, any, k) :=
    match domain_install_ok, bs_bound st !! task_id with
    | true, Some bound => let '(bound, any, k) := attach_loop bdfs domain_id bound false k in (<[task_id := bound]> (bs_bound st), any, k)
    | _, _ => (bs_bound st, false, k)
    end in
  if negb any then Done (bs_set k bd (bs_src st) (bs_mem st) (bs_unit st) st) else
  '(_, k, s, m) ← iommu_provision_domain_pt domain_id k (bs_src st) (bs_mem st);
  match iommu_domain_pt_root_phys domain_id k with
  | None => Done (bs_set k bd s m (bs_unit st) st)
  | Some slpt_phys =>
      let bound := default [] (bd !! task_id) in
      '(any_install_ok, k, s, m, u) ← install_bound_loop (vendor_from_u8 (bs_vendor st)) domain_id slpt_phys bound false k s m (bs_unit st);
      if (any_install_ok : bool) then let '(_, k, m, u) := iommu_enable_translation k m u in Done (bs_set k bd s m u st) else Done (bs_set k bd s m u st)
  end.

Fixpoint release_loop (l : list Z) (k : IommuKind) (s : S) (m : phys_mem) (u : U) : run (IommuKind * S * phys_mem * U) :=
  match l with
  | [] => Done (k, s, m, u)
  | bdf :: l => '(_, k, s, m, u) ← release_vt_d_device_entry_managed bdf k s m u; release_loop l k s m u
  end.

Fixpoint detach_loop (l : list Z) (k : IommuKind) : IommuKind :=
  match l with [] => k | bdf :: l => detach_loop l (snd (iommu_detach bdf k)) end.

Definition tear_down_pci_bindings (task : Z) (st : BindState) : run BindState :=
  let domain_id := domain_for_task task in
  match bs_bound st !! task with
  | None => Done st
  | Some bdfs =>
      let bd := <[task := []]> (bs_bound st) in
      '(k, s, m, u) ← (if decide (vendor_from_u8 (bs_vendor st) = VIntel) then release_loop bdfs (bs_kind st) (bs_src st) (bs_mem st) (bs_unit st) else Done (bs_kind st, bs_src st, bs_mem st, bs_unit st));
      let k := detach_loop bdfs k in
      match iommu_domain_pt_root_phys domain_id k with
      | Some _ => '(_, k, s) ← iommu_release_domain_pt domain_id k s; Done (bs_set k bd s m u st)
      | None => Done (bs_set k bd s m u st)
      end
  end.
End Live.

(** ** What the kernel has recorded *)

Definition k_attached (k : IommuKind) : list (Z * Z) :=
  match k with KIntel b => map (fun a => (va_bdf a, va_domain a)) (vb_attachments b) | KAmd b => map (fun a => (aa_bdf a, aa_domain a)) (ab_attachments b) | KPassthrough => [] end.
Definition k_pts (k : IommuKind) : DomainPageTables := match k with KIntel b => vb_domain_pts b | KAmd b => ab_domain_pts b | KPassthrough => [] end.
Definition k_has_domain (k : IommuKind) (d : Z) : bool := match k with KIntel b => vtd_has_domain b d | KAmd b => amd_has_domain b d | KPassthrough => true end.
Definition k_records (k : IommuKind) : bool := match k with KPassthrough => false | _ => true end.

(** No translation, and no device has an entry of the backend's own. *)
Definition k_quiet (k : IommuKind) : Prop :=
  match k with KIntel b => vb_bus_tables b = [] /\ vb_translation b = false | KAmd b => ab_translation b = false | KPassthrough => True end.

(** The two states have the same backend and the same page-table roots. *)
Record same_backend (k k' : IommuKind) : Prop := {
  sb_records : k_records k' = k_records k;
  sb_pts : k_pts k' = k_pts k;
  sb_domains : forall d, k_has_domain k d = true -> k_has_domain k' d = true;
  sb_quiet : k_quiet k -> k_quiet k';
}.

#[global] Instance same_backend_preorder : PreOrder same_backend.
Proof. split; [by intros k; split|]. intros k1 k2 k3 [A1 B1 C1 D1] [A2 B2 C2 D2]. split; [congruence|congruence|auto|auto]. Qed.

Lemma k_has_attached_intel b bdf : vtd_has_attachment b bdf = true <-> bdf ∈ (k_attached (KIntel b)).*1.
Proof.
  unfold vtd_has_attachment. cbn. rewrite existsb_exists, list_elem_of_fmap. setoid_rewrite list_elem_of_In. setoid_rewrite in_map_iff. split.
  - intros (a & Ha & He%Z.eqb_eq). exists (va_bdf a, va_domain a). split; [done|]. by exists a.
  - intros (p & -> & a & <- & Ha). exists a. split; [done|]. apply Z.eqb_refl.
Qed.
Lemma k_has_attached_amd b bdf : amd_has_attachment b bdf = true <-> bdf ∈ (k_attached (KAmd b)).*1.
Proof.
  unfold amd_has_attachment. cbn. rewrite existsb_exists, list_elem_of_fmap. setoid_rewrite list_elem_of_In. setoid_rewrite in_map_iff. split.
  - intros (a & Ha & He%Z.eqb_eq). exists (aa_bdf a, aa_domain a). split; [done|]. by exists a.
  - intros (p & -> & a & <- & Ha). exists a. split; [done|]. apply Z.eqb_refl.
Qed.

Lemma k_install_domain d k : exists k', iommu_install_domain d k = (Ok (), k') /\ same_backend k k' /\ k_attached k' = k_attached k /\ k_has_domain k' d = true.
Proof.
  destruct k as [|b|b]; cbn; [by exists KPassthrough| |]; (eexists; split; [reflexivity|]).
  - destruct (vtd_has_domain b d) eqn:E; cbn; [done|]. split_and!; [|done|].
    + split; [done|done| |done]. intros x Hx. cbn in *. unfold vtd_has_domain in *. cbn. by rewrite existsb_app, Hx.
    + unfold vtd_has_domain. cbn. rewrite existsb_app. cbn. by rewrite Z.eqb_refl, orb_true_r.
  - destruct (amd_has_domain b d) eqn:E; cbn; [done|]. split_and!; [|done|].
    + split; [done|done| |done]. intros x Hx. cbn in *. unfold amd_has_domain in *. cbn. by rewrite existsb_app, Hx.
    + unfold amd_has_domain. cbn. rewrite existsb_app. cbn. by rewrite Z.eqb_refl, orb_true_r.
Qed.

(** A device is recorded when it is not yet, by the backends that keep a record. *)
Lemma k_attach bdf d k : k_has_domain k d = true ->
  exists r k', iommu_attach bdf d k = (r, k') /\ same_backend k k' /\
    match r with
    | Ok _ => (k_records k = true -> bdf ∉ (k_attached k).*1) /\ k_attached k' = if k_records k then k_attached k ++ [(bdf, d)] else []
    | Err _ => k' = k /\ k_records k = true /\ bdf ∈ (k_attached k).*1
    end.
Proof.
  intros Hd. destruct k as [|b|b]; cbn in *; [by eexists _, _| |].
  - unfold vtd_attach_device. rewrite Hd. cbn [negb]. destruct (vtd_has_attachment b bdf) eqn:E; [eexists _, _; split; [reflexivity|]; split_and!; [done|done|done|by apply k_has_attached_intel]|]. eexists _, _. split; [reflexivity|]. split; [done|]. cbn. split; [|by rewrite map_app].
    intros _ Hin. change (bdf ∈ (k_attached (KIntel b)).*1) in Hin. apply k_has_attached_intel in Hin. congruence.
  - unfold amd_attach_device. rewrite Hd. cbn [negb]. destruct (amd_has_attachment b bdf) eqn:E; [eexists _, _; split; [reflexivity|]; split_and!; [done|done|done|by apply k_has_attached_amd]|]. eexists _, _. split; [reflexivity|]. split; [done|]. cbn. split; [|by rewrite map_app].
    intros _ Hin. change (bdf ∈ (k_attached (KAmd b)).*1) in Hin. apply k_has_attached_amd in Hin. congruence.
Qed.

(** The devices of a list that nobody has, each taken once. *)
Fixpoint untaken (l taken : list Z) : list Z :=
  match l with [] => [] | x :: l => if decide (x ∈ taken) then untaken l taken else x :: untaken l (taken ++ [x]) end.
Definition newly_bound (k : IommuKind) (l : list Z) : list Z := if k_records k then untaken l (k_attached k).*1 else l.

Lemma untaken_spec l : forall taken, NoDup (untaken l taken) /\ forall x, x ∈ untaken l taken <-> x ∈ l /\ x ∉ taken.
Proof.
  induction l as [|y l IH]; intros taken; cbn [untaken]; [split; [constructor|set_solver]|]. destruct (decide (y ∈ taken)) as [Hy|Hy].
  - destruct (IH taken) as [Hn Hx]. split; [done|]. set_solver.
  - destruct (IH (taken ++ [y])) as [Hn Hx]. split; [constructor; [set_solver|done]|]. intros x. rewrite elem_of_cons, Hx. destruct (decide (x = y)) as [->|]; set_solver.
Qed.

Lemma attach_loop_spec d l : forall bound any k, k_has_domain k d = true ->
  exists k', attach_loop l d bound any k = (bound ++ newly_bound k l, any || negb (bool_decide (newly_bound k l = [])), k') /\ same_backend k k' /\
    (k_records k = true -> k_attached k' = k_attached k ++ map (fun x => (x, d)) (newly_bound k l) /\ (NoDup (k_attached k).*1 -> NoDup (k_attached k').*1)).
Proof.
  induction l as [|bdf l IH]; intros bound any k Hd; cbn [attach_loop].
  - assert (newly_bound k [] = []) as -> by (unfold newly_bound; by destruct (k_records k)). exists k. rewrite app_nil_r, orb_false_r. split_and!; [done|done|]. intros _. cbn. by rewrite app_nil_r.
  - destruct (k_attach bdf d k Hd) as (r & k1 & E & Hs & Hr). rewrite E. destruct r as [[]|e].
    + destruct Hr as [Hnew Hatt]. destruct (IH (bound ++ [bdf]) true k1 (sb_domains _ _ Hs _ Hd)) as (k' & E' & Hs' & Hrec).
      assert (newly_bound k (bdf :: l) = bdf :: newly_bound k1 l) as Hn.
      { unfold newly_bound. rewrite (sb_records _ _ Hs), Hatt. destruct (k_records k); [|done]. cbn [untaken]. destruct (decide _) as [Hin|_]; [by destruct (Hnew eq_refl)|]. by rewrite fmap_app. }
      exists k'. rewrite E', Hn, <- app_assoc. split_and!; [by rewrite orb_true_r|by etransitivity|]. intros Hk. specialize (Hnew Hk). rewrite Hk in Hatt.
      destruct Hrec as [Hrec Hnd]; [by rewrite (sb_records _ _ Hs)|]. rewrite Hatt in Hrec, Hnd. split; [by rewrite Hrec, <- app_assoc|]. intros Hn'. apply Hnd.
      rewrite fmap_app. apply NoDup_app. split; [done|]. split; [|apply NoDup_singleton]. by intros x Hx ->%list_elem_of_singleton.
    + destruct Hr as [-> Hr]. assert (newly_bound k (bdf :: l) = newly_bound k l) as ->; [|exact (IH bound any k Hd)].
      unfold newly_bound. destruct Hr as [-> Hin]. cbn [untaken]. by rewrite decide_True.
Qed.

(** ** The devices that go *)

(** The records of the devices of [l] may go, the others stay. *)
Record forgets (l : list Z) (k k' : IommuKind) : Prop := {
  fg_backend : same_backend k k';
  fg_kept : forall p, p ∈ k_attached k -> p.1 ∉ l -> p ∈ k_attached k';
  fg_old : forall p, p ∈ k_attached k' -> p ∈ k_attached k;
  fg_nodup : NoDup (k_attached k).*1 -> NoDup (k_attached k').*1;
}.

Lemma forgets_refl l k : forgets l k k.
Proof. by split. Qed.
Lemma forgets_cons bdf l k k1 k2 : forgets [bdf] k k1 -> forgets l k1 k2 -> forgets (bdf :: l) k k2.
Proof.
  intros [S1 K1 O1 N1] [S2 K2 O2 N2]. split; [by etransitivity| |auto|auto]. intros p Hp Hn. apply not_elem_of_cons in Hn as [Hb Hl]. apply K2; [|done]. apply K1; [done|]. by rewrite list_elem_of_singleton.
Qed.

Lemma filter_forgets (l : list (Z * Z)) bdf : 
  let l' := List.filter (fun p => negb (p.1 =? bdf)) l in
  (forall p, p ∈ l' <-> p ∈ l /\ p.1 <> bdf) /\ (NoDup l.*1 -> NoDup l'.*1).
Proof.
  cbn. split.
  - intros p. rewrite !list_elem_of_In, filter_In, negb_true_iff, Z.eqb_neq. done.
  - induction l as [|[x d] l IH]; [done|]. cbn. rewrite NoDup_cons. intros [Hx Hn]. destruct (x =? bdf); cbn; [by apply IH|]. constructor; [|by apply IH].
    intros (p & Hp & Hin)%list_elem_of_fmap. apply Hx, list_elem_of_fmap. exists p. split; [done|]. apply list_elem_of_In in Hin. apply list_elem_of_In. by apply filter_In in Hin as [? _].
Qed.

Lemma map_filter {X Y} (f : X -> Y) (p : Y -> bool) l : map f (List.filter (fun x => p (f x)) l) = List.filter p (map f l).
Proof. induction l as [|x l IH]; [done|]. cbn. destruct (p (f x)); cbn; by rewrite IH. Qed.

Lemma k_detach bdf k : let k' := snd (iommu_detach bdf k) in same_backend k k' /\ k_attached k' = List.filter (fun p => negb (p.1 =? bdf)) (k_attached k).
Proof.
  destruct k as [|b|b]; cbn; [done| |].
  - unfold vtd_detach_device. cbv zeta. destruct (Nat.eqb _ _); cbn; (split; [done|]); by rewrite <- (map_filter (fun a => (va_bdf a, va_domain a)) (fun p => negb (p.1 =? bdf))).
  - unfold amd_detach_device. cbv zeta. destruct (Nat.eqb _ _); cbn; (split; [done|]); by rewrite <- (map_filter (fun a => (aa_bdf a, aa_domain a)) (fun p => negb (p.1 =? bdf))).
Qed.

Lemma detach_loop_spec l : forall k, forgets l k (detach_loop l k) /\ forall p, p ∈ k_attached (detach_loop l k) -> p.1 ∉ l.
Proof.
  induction l as [|bdf l IH]; intros k; cbn [detach_loop]; [split; [apply forgets_refl|by intros p _ ?%elem_of_nil]|].
  destruct (k_detach bdf k) as [Hs Ha]. destruct (filter_forgets (k_attached k) bdf) as [Hin Hnd]. rewrite <- Ha in Hin, Hnd. destruct (IH (snd (iommu_detach bdf k))) as [Hf Hgone]. split.
  - apply (forgets_cons _ _ _ (snd (iommu_detach bdf k))); [|done]. split; [done| |by intros p [? _]%Hin|done]. intros p Hp Hn. apply Hin. split; [done|]. by rewrite list_elem_of_singleton in Hn.
  - intros p Hp. rewrite not_elem_of_cons. split; [|by apply Hgone]. by apply (fg_old _ _ _ Hf), Hin in Hp as [_ ?].
Qed.

Section Quiet.
Context {U S : Type} `{MmioUnit U} `{PtSourceLaws S}.

(** No device has a context table, so the release of one only drops its record. *)
Lemma k_release bdf k (s : S) m (u : U) : k_quiet k -> exists r k', release_vt_d_device_entry_managed bdf k s m u = Done (r, k', s, m, u) /\ forgets [bdf] k k'.
Proof.
  intros Hq. destruct k as [|b|b]; cbn; [by eexists _, _| |by eexists _, _]. destruct Hq as [Hn _]. destruct (release_recorded bdf b s m u Hn) as (l & -> & Hl). cbn. eexists _, _. split; [reflexivity|].
  assert (same_backend (KIntel b) (KIntel (vb_set_attachments l b))) as Hs by done. destruct Hl as [[-> _]|[d Hp]]; [split; [done|by intros|by intros|by intros]|].
  apply (Permutation_map (fun a => (va_bdf a, va_domain a))) in Hp. cbn in Hp. split; [done|..]; cbn [k_attached vb_set_attachments vb_attachments].
  - intros p Hin Hne. rewrite Hp in Hin. apply elem_of_cons in Hin as [->|?]; [|done]. destruct Hne. by apply list_elem_of_singleton.
  - intros p Hin. rewrite Hp. by right.
  - rewrite Hp. cbn. intros [_ ?]%NoDup_cons. done.
Qed.

Lemma release_loop_spec l : forall k (s : S) m (u : U), k_quiet k -> exists k', release_loop l k s m u = Done (k', s, m, u) /\ forgets l k k'.
Proof.
  induction l as [|bdf l IH]; intros k s m u Hq; cbn [release_loop]; [exists k; split; [done|apply forgets_refl]|].
  destruct (k_release bdf k s m u Hq) as (r & k1 & E & Hf). rewrite E. cbn [mbind run_bind]. destruct (IH k1 s m u (sb_quiet _ _ (fg_backend _ _ _ Hf) Hq)) as (k' & E' & Hf').
  exists k'. split; [exact E'|]. by eapply forgets_cons.
Qed.

(** Every installation is refused: the device is on record already. *)
Lemma k_install_refused vendor av0 pts bdf d slpt k (s : S) m (u : U) : k_quiet k -> (k_records k = true -> bdf ∈ (k_attached k).*1) -> ledger av0 s pts ->
  exists r s' m', (match vendor with
     | VIntel => install_vt_d_device_entry_managed bdf d slpt Bits48Level4 UntranslatedAndTranslated k s m u
     | VAmd => let '(r, k, m, u) := install_amd_vi_device_entry bdf d slpt (flags_union IOMMU_READ IOMMU_WRITE) Level4 k m u in Done (r, k, s, m, u)
     | VPassthrough => Done (Ok false, k, s, m, u)
     end) = Done (r, k, s', m', u) /\ r <> Ok true /\ ledger av0 s' pts /\ same_outside av0 m m'.
Proof.
  intros Hq Hin Hl. destruct vendor; [| |by eexists _, _, _].
  - destruct k as [|b|b]; [by eexists _, _, _| |by eexists _, _, _]. destruct Hq as [Hn _]. specialize (Hin eq_refl). apply k_has_attached_intel in Hin. cbn [install_vt_d_device_entry_managed].
    destruct (attached_install_inert av0 pts bdf d slpt Bits48Level4 UntranslatedAndTranslated b s m u Hin Hn Hl) as (s' & m' & e & E & Hl' & Hm). rewrite E. cbn. by eexists _, _, _.
  - destruct k as [|b|b]; [by eexists _, _, _|by eexists _, _, _|]. specialize (Hin eq_refl). apply k_has_attached_amd in Hin. cbn [install_amd_vi_device_entry].
    assert (exists e, amd_install_device_entry bdf d slpt (flags_union IOMMU_READ IOMMU_WRITE) Level4 b m u = (Err e, b, m, u)) as [e E]; [|rewrite E; by eexists _, _, _].
    unfold amd_install_device_entry. rewrite Hin. repeat (destruct (negb _); [by eexists|]). by eexists.
Qed.

Lemma install_bound_spec vendor av0 pts d slpt l : forall any k (s : S) m (u : U), k_quiet k -> (k_records k = true -> forall x, x ∈ l -> x ∈ (k_attached k).*1) -> ledger av0 s pts ->
  exists s' m', install_bound_loop vendor d slpt l any k s m u = Done (any, k, s', m', u) /\ ledger av0 s' pts /\ same_outside av0 m m'.
Proof.
  induction l as [|bdf l IH]; intros any k s m u Hq Hin Hl; cbn [install_bound_loop]; [by eexists _, _|].
  destruct (k_install_refused vendor av0 pts bdf d slpt k s m u Hq) as (r & s1 & m1 & E & Hr & Hl1 & Hm1); [intros Hk; apply (Hin Hk); by left|done|]. rewrite E. cbn [mbind run_bind].
  destruct (IH any k s1 m1 u Hq) as (s2 & m2 & E2 & Hl2 & Hm2); [intros Hk x Hx; apply (Hin Hk); by right|done|]. eexists _, _.
  split; [|split; [exact Hl2|by etransitivity]]. rewrite <- E2. f_equal. by destruct r as [[]|].
Qed.
End Quiet.

(** ** Page-table roots *)

Section Roots.
Context {S : Type} `{PtSourceLaws S}.

Lemma k_provision av0 d k (s : S) m : pts_ok (k_pts k) -> ledger av0 s (pts_held (k_pts k)) ->
  exists r k' s' m', iommu_provision_domain_pt d k s m = Done (r, k', s', m') /\ k_records k' = k_records k /\ k_attached k' = k_attached k /\ (k_quiet k -> k_quiet k') /\
    pts_ok (k_pts k') /\ ledger av0 s' (pts_held (k_pts k')) /\ same_outside av0 m m' /\ (forall x, is_provisioned (k_pts k') x = true -> x = d \/ is_provisioned (k_pts k) x = true).
Proof.
  intros Hok Hl. assert (forall t, t = k_pts k -> exists r t' s' m', provision d t s m = Done (r, t', s', m') /\ pts_ok t' /\ ledger av0 s' (pts_held t') /\ same_outside av0 m m' /\
    forall x, is_provisioned t' x = true -> x = d \/ is_provisioned t x = true) as Hp.
  { intros t ->. rewrite <- (app_nil_r (pts_held _)) in Hl. destruct (provision_spec av0 _ [] s m d Hok Hl) as (r & t' & s' & m' & E & Hok' & Hl' & Hr). rewrite app_nil_r in Hl'. eexists _, _, _, _. split; [exact E|]. split; [done|]. split; [done|].
    destruct r as [f|[]]; [|destruct Hr as (_ & -> & -> & _); split; [done|by auto]|done|destruct Hr as (_ & -> & -> & ->); split; [done|by auto]|done].
    destruct Hr as (_ & -> & -> & _). split.
    - apply zero_same_outside, (lg_all _ _ _ Hl'). right. unfold pts_held. rewrite map_app. apply elem_of_app. right. by left.
    - intros x. unfold is_provisioned. rewrite existsb_app, orb_true_iff. cbn. rewrite orb_false_r, Z.eqb_eq. intros [?|?]; auto. }
  destruct k as [|b|b]; cbn; [eexists _, _, _, _; split; [reflexivity|]; split_and!; auto; done| |];
    destruct (Hp _ eq_refl) as (r & t' & s' & m' & E & Hok' & Hl' & Hm & Hx); cbn [k_pts] in E; [unfold vtd_provision_domain_pt|unfold amd_provision_domain_pt]; rewrite E; cbn; eexists _, _, _, _; split; try reflexivity; auto 10.
Qed.

Lemma k_release_root av0 d k (s : S) : pts_ok (k_pts k) -> ledger av0 s (pts_held (k_pts k)) ->
  exists r k' s', iommu_release_domain_pt d k s = Done (r, k', s') /\ k_records k' = k_records k /\ k_attached k' = k_attached k /\ (k_quiet k -> k_quiet k') /\
    pts_ok (k_pts k') /\ ledger av0 s' (pts_held (k_pts k')) /\ (forall x, is_provisioned (k_pts k') x = true -> is_provisioned (k_pts k) x = true /\ x <> d).
Proof.
  intros Hok Hl. assert (forall t, t = k_pts k -> exists r t' s', release d t s = Done (r, t', s') /\ pts_ok t' /\ ledger av0 s' (pts_held t') /\
    forall x, is_provisioned t' x = true -> is_provisioned t x = true /\ x <> d) as Hp.
  { intros t ->. rewrite <- (app_nil_r (pts_held _)) in Hl. destruct (release_spec av0 _ [] s d Hok Hl) as (r & t' & s' & E & Hok' & Hl' & Hr). rewrite app_nil_r in Hl'. eexists _, _, _. split; [exact E|]. split; [done|]. split; [done|].
    destruct r as [[]|[]]; [|done|done|done|destruct Hr as (Hn & -> & ->); intros x Hx; split; [done|intros ->; congruence]].
    destruct Hr as [f Hp]. intros x Hx. apply is_provisioned_spec in Hx. rewrite is_provisioned_spec, (Permutation_map de_domain Hp). cbn. split; [by right|]. intros ->.
    unfold pts_ok in Hok. rewrite (Permutation_map de_domain Hp) in Hok. by apply NoDup_cons in Hok as [? _]. }
  destruct k as [|b|b]; cbn; [eexists _, _, _; split; [reflexivity|]; split_and!; auto; done| |];
    destruct (Hp _ eq_refl) as (r & t' & s' & E & Hok' & Hl' & Hx); cbn [k_pts] in E; [unfold vtd_release_domain_pt|unfold amd_release_domain_pt]; rewrite E; cbn; eexists _, _, _; split; try reflexivity; auto 10.
Qed.
End Roots.

(** ** Drivers are loaded and exit *)

Section History.
Context {U S : Type} `{MmioUnit U} `{PtSourceLaws S}.
Abbreviation bind_state := (@BindState U S).

(** A process is created with no device, a driver's devices are bound to it,
    and it exits. *)
Inductive BindOp := BoSpawn (task : Z) | BoLoad (task : Z) (pci_devices : list Resource) | BoExit (task : Z).

Definition bind_step (op : BindOp) (st : bind_state) : run bind_state :=
  match op with
  | BoSpawn t => Done (match bs_bound st !! t with None => bs_set (bs_kind st) (<[t := []]> (bs_bound st)) (bs_src st) (bs_mem st) (bs_unit st) st | Some _ => st end)
  | BoLoad t devs => bind_pci_devices t devs st
  | BoExit t => tear_down_pci_bindings t st
  end.

Inductive bind_reach (st0 : bind_state) : bind_state -> Prop :=
  | br_start : bind_reach st0 st0
  | br_step op st st' : bind_reach st0 st -> bind_step op st = Done st' -> bind_reach st0 st'.

(** What an operation does to the lists of bound devices. *)
Definition bound_next (op : BindOp) (k : IommuKind) (bd : gmap Z (list Z)) : gmap Z (list Z) :=
  match op with
  | BoSpawn t => match bd !! t with None => <[t := []]> bd | Some _ => bd end
  | BoLoad t devs => match bd !! t with None => bd | Some l => <[t := l ++ newly_bound k (pci_bdfs_from_resources devs)]> bd end
  | BoExit t => match bd !! t with None => bd | Some _ => <[t := []]> bd end
  end.

(** Every bound device with the domain of its process. *)
Definition domain_pairs (t : Z) (l : list Z) : list (Z * Z) := map (fun x => (x, domain_for_task t)) l.
Definition all_bound (bd : gmap Z (list Z)) : list (Z * Z) := map_to_list bd ≫= (fun '(t, l) => domain_pairs t l).

Lemma all_bound_at bd t l : bd !! t = Some l -> all_bound bd ≡ₚ domain_pairs t l ++ all_bound (delete t bd).
Proof. intros Ht. unfold all_bound. by rewrite <- (map_to_list_delete bd t l Ht). Qed.

Lemma all_bound_insert bd t l : all_bound (<[t := l]> bd) ≡ₚ domain_pairs t l ++ all_bound (delete t bd).
Proof. rewrite (all_bound_at _ t l) by apply lookup_insert_eq. by rewrite delete_insert_eq. Qed.

Lemma all_bound_elem bd x d : (x, d) ∈ all_bound bd <-> exists t l, bd !! t = Some l /\ x ∈ l /\ d = domain_for_task t.
Proof.
  unfold all_bound, domain_pairs. rewrite list_elem_of_bind. split.
  - intros ([t l] & (y & [= -> ->] & Hy)%list_elem_of_fmap & Hin%elem_of_map_to_list). by exists t, l.
  - intros (t & l & Hl & Hx & ->). exists (t, l). split; [|by apply elem_of_map_to_list]. apply list_elem_of_fmap. by exists x.
Qed.

Record bind_inv (av0 : Z -> Prop) (m0 : phys_mem) (u0 : U) (st : bind_state) : Prop := {
  bi_quiet : k_quiet (bs_kind st);
  bi_unit : bs_unit st = u0;
  bi_mem : same_outside av0 m0 (bs_mem st);
  bi_pts : pts_ok (k_pts (bs_kind st));
  bi_ledger : ledger av0 (bs_src st) (pts_held (k_pts (bs_kind st)));
  bi_bound : k_records (bs_kind st) = true -> k_attached (bs_kind st) ≡ₚ all_bound (bs_bound st) /\ NoDup (k_attached (bs_kind st)).*1;
  bi_owned : forall d, is_provisioned (k_pts (bs_kind st)) d = true -> exists t l, bs_bound st !! t = Some l /\ l <> [] /\ d = domain_for_task t;
}.

(** What the operations keep, with the state they leave. *)
Definition step_done (av0 : Z -> Prop) (m0 : phys_mem) (u0 : U) (op : BindOp) (st : bind_state) : Prop :=
  exists st', bind_step op st = Done st' /\ bind_inv av0 m0 u0 st' /\ bs_bound st' = bound_next op (bs_kind st) (bs_bound st) /\ k_records (bs_kind st') = k_records (bs_kind st).

Lemma owned_grows (bd : gmap Z (list Z)) t l new d : bd !! t = Some l -> (exists t l, bd !! t = Some l /\ l <> [] /\ d = domain_for_task t) ->
  exists t' l', <[t := l ++ new]> bd !! t' = Some l' /\ l' <> [] /\ d = domain_for_task t'.
Proof.
  intros Ht (t1 & l1 & Hl1 & Hne & ->). destruct (decide (t1 = t)) as [->|Hd]; [|exists t1, l1; by rewrite lookup_insert_ne].
  exists t, (l ++ new). rewrite lookup_insert_eq. split_and!; [done| |done]. rewrite Ht in Hl1. injection Hl1 as ->. by destruct l1.
Qed.

Lemma bind_ok av0 m0 u0 t devs st : bind_inv av0 m0 u0 st -> step_done av0 m0 u0 (BoLoad t devs) st.
Proof.
  intros [Hq Hu Hm Hp Hl Hb Ho]. unfold step_done, bind_step, bind_pci_devices. cbv zeta. cbn [bound_next].
  destruct (k_install_domain (domain_for_task t) (bs_kind st)) as (k1 & E1 & Hs1 & Ha1 & Hd1). rewrite E1.
  assert (newly_bound k1 = newly_bound (bs_kind st)) as En by (unfold newly_bound; by rewrite (sb_records _ _ Hs1), Ha1).
  destruct (bs_bound st !! t) as [l|] eqn:Et; cbn [negb].
  2:{ eexists. split; [reflexivity|]. split_and!; [|done|exact (sb_records _ _ Hs1)]. split; cbn; [by apply Hs1|done|done|by rewrite (sb_pts _ _ Hs1)|by rewrite (sb_pts _ _ Hs1)|by rewrite (sb_records _ _ Hs1), Ha1|by rewrite (sb_pts _ _ Hs1)]. }
  set (new := newly_bound (bs_kind st) (pci_bdfs_from_resources devs)) in *.
  destruct (attach_loop_spec (domain_for_task t) (pci_bdfs_from_resources devs) l false k1 Hd1) as (k2 & E2 & Hs2 & Hrec). rewrite En in E2, Hrec. fold new in E2, Hrec. rewrite E2. cbn [orb].
  assert (same_backend (bs_kind st) k2) as Hs by (by etransitivity). rewrite (sb_records _ _ Hs1), Ha1 in Hrec.
  assert (k_records (bs_kind st) = true -> k_attached k2 ≡ₚ all_bound (<[t := l ++ new]> (bs_bound st)) /\ NoDup (k_attached k2).*1) as Hb2.
  { intros Hk. destruct (Hrec Hk) as [Hatt Hnd], (Hb Hk) as [Hperm Hn]. split; [|auto]. rewrite Hatt, Hperm, (all_bound_at _ _ _ Et), all_bound_insert. unfold domain_pairs. rewrite map_app, <- !app_assoc. by apply Permutation_app_head, Permutation_app_comm. }
  destruct (bool_decide_reflect (new = [])) as [Hnil|Hne]; cbn [negb].
  { eexists. split; [reflexivity|]. split_and!; [|done|exact (sb_records _ _ Hs)]. split; cbn; [by apply Hs|done|done|by rewrite (sb_pts _ _ Hs)|by rewrite (sb_pts _ _ Hs)|by rewrite (sb_records _ _ Hs)|]. rewrite (sb_pts _ _ Hs). intros d Hd. by apply owned_grows, Ho. }
  destruct (k_provision av0 (domain_for_task t) k2 (bs_src st) (bs_mem st)) as (r & k3 & s3 & m3 & E3 & R3 & A3 & Q3 & P3 & L3 & M3 & O3); [by rewrite (sb_pts _ _ Hs)|by rewrite (sb_pts _ _ Hs)|]. rewrite E3. cbn [mbind run_bind].
  assert (forall s m u, bs_unit st = u -> ledger av0 s (pts_held (k_pts k3)) -> same_outside av0 m0 m -> bind_inv av0 m0 u0 (bs_set k3 (<[t := l ++ new]> (bs_bound st)) s m u st)) as Hinv.
  { intros s m u <- Hl' Hm'. split; cbn; [by apply Q3, Hs|done|done|done|done|by rewrite R3, (sb_records _ _ Hs), A3|]. intros d [->|Hd]%O3; [|rewrite (sb_pts _ _ Hs) in Hd; by apply owned_grows, Ho].
    exists t, (l ++ new). rewrite lookup_insert_eq. split_and!; [done| |done]. intros [_ ?]%app_nil. done. }
  assert (k_records k3 = k_records (bs_kind st)) as R by (by rewrite R3, (sb_records _ _ Hs)). assert (same_outside av0 m0 m3) as Hm3 by (by etransitivity).
  destruct (iommu_domain_pt_root_phys (domain_for_task t) k3) as [slpt|] eqn:Er.
  2:{ eexists. split; [reflexivity|]. split_and!; [by apply Hinv|done|done]. }
  rewrite lookup_insert_eq. change (default [] (Some (l ++ new))) with (l ++ new).
  destruct (install_bound_spec (vendor_from_u8 (bs_vendor st)) av0 (pts_held (k_pts k3)) (domain_for_task t) slpt (l ++ new) false k3 s3 m3 (bs_unit st)) as (s4 & m4 & E4 & L4 & M4); [by apply Q3, Hs| |done|].
  { intros Hk x Hx. rewrite R in Hk. destruct (Hb2 Hk) as [Hperm _]. rewrite A3, Hperm, list_elem_of_fmap. exists (x, domain_for_task t). split; [done|]. apply all_bound_elem. exists t, (l ++ new). by rewrite lookup_insert_eq. }
  rewrite E4. cbn [mbind run_bind]. eexists. split; [reflexivity|]. split_and!; [|done|done]. apply Hinv; [done|done|by etransitivity].
Qed.

Lemma unbind_ok av0 m0 u0 t st : bind_inv av0 m0 u0 st -> step_done av0 m0 u0 (BoExit t) st.
Proof.
  intros Hi. pose proof Hi as [Hq Hu Hm Hp Hl Hb Ho]. unfold step_done, bind_step, tear_down_pci_bindings. cbv zeta. cbn [bound_next].
  destruct (bs_bound st !! t) as [l|] eqn:Et; [|by exists st].
  assert (exists k1, (if decide (vendor_from_u8 (bs_vendor st) = VIntel) then release_loop l (bs_kind st) (bs_src st) (bs_mem st) (bs_unit st) else Done (bs_kind st, bs_src st, bs_mem st, bs_unit st))
    = Done (k1, bs_src st, bs_mem st, bs_unit st) /\ forgets l (bs_kind st) k1) as (k1 & E1 & F1).
  { destruct (decide _); [by apply release_loop_spec|]. exists (bs_kind st). split; [done|apply forgets_refl]. }
  rewrite E1. cbn [mbind run_bind]. destruct (detach_loop_spec l k1) as [F2 Hgone]. set (k2 := detach_loop l k1) in *.
  assert (same_backend (bs_kind st) k2) as Hs by (etransitivity; [apply F1|apply F2]).
  assert (k_records (bs_kind st) = true -> k_attached k2 ≡ₚ all_bound (<[t := []]> (bs_bound st)) /\ NoDup (k_attached k2).*1) as Hb2.
  { intros Hk. destruct (Hb Hk) as [Hperm Hn]. assert (NoDup (k_attached k2).*1) as Hn2 by (by apply F2, F1). split; [|done]. rewrite all_bound_insert. cbn.
    rewrite (all_bound_at _ _ _ Et) in Hperm. assert (NoDup (domain_pairs t l ++ all_bound (delete t (bs_bound st))).*1) as Hn3 by (by rewrite <- Hperm).
    rewrite fmap_app in Hn3. apply NoDup_app in Hn3 as (_ & Hdis & Hn3). apply NoDup_Permutation; [by apply NoDup_fmap_1 in Hn2|by apply NoDup_fmap_1 in Hn3|]. intros p. split.
    - intros Hp2. pose proof (Hgone _ Hp2) as Hg. apply (fg_old _ _ _ F2), (fg_old _ _ _ F1) in Hp2. rewrite Hperm in Hp2. apply elem_of_app in Hp2 as [Hin|]; [|done]. apply list_elem_of_fmap in Hin as (x & -> & Hx). by destruct Hg.
    - intros Hp2. assert (p.1 ∉ l) as Hnl.
      { intros Hx. destruct (Hdis p.1); [|apply list_elem_of_fmap; by exists p]. apply list_elem_of_fmap. exists (p.1, domain_for_task t). split; [done|]. apply list_elem_of_fmap. by exists p.1. }
      apply F2; [|done]. apply F1; [|done]. rewrite Hperm. apply elem_of_app. by right. }
  assert (forall k3 s3, k_records k3 = k_records k2 -> k_attached k3 = k_attached k2 -> k_quiet k3 -> pts_ok (k_pts k3) -> ledger av0 s3 (pts_held (k_pts k3)) ->
    (forall x, is_provisioned (k_pts k3) x = true -> is_provisioned (k_pts k2) x = true /\ x <> domain_for_task t) -> bind_inv av0 m0 u0 (bs_set k3 (<[t := []]> (bs_bound st)) s3 (bs_mem st) (bs_unit st) st)) as Hinv.
  { intros k3 s3 R3 A3 Q3 P3 L3 O3. split; cbn; [done|done|done|done|done|by rewrite R3, (sb_records _ _ Hs), A3|]. intros d [Hd Hne]%O3. rewrite (sb_pts _ _ Hs) in Hd.
    destruct (Ho d Hd) as (t1 & l1 & Hl1 & Hnn & ->). exists t1, l1. split_and!; [|done|done]. rewrite lookup_insert_ne; [done|]. congruence. }
  rewrite <- (sb_pts _ _ Hs) in Hl, Hp. apply (sb_quiet _ _ Hs) in Hq.
  destruct (iommu_domain_pt_root_phys (domain_for_task t) k2) as [f|] eqn:Er.
  - destruct (k_release_root av0 (domain_for_task t) k2 (bs_src st) Hp Hl) as (r & k3 & s3 & E3 & R3 & A3 & Q3 & P3 & L3 & O3). rewrite E3. cbn [mbind run_bind].
    eexists. split; [reflexivity|]. split_and!; [by apply Hinv; auto|done|]. cbn. by rewrite R3, (sb_records _ _ Hs).
  - eexists. split; [reflexivity|]. split_and!; [|done|exact (sb_records _ _ Hs)]. apply Hinv; [done|done|done|done|done|]. intros x Hx. split; [done|]. intros ->.
    destruct k2 as [|b|b]; cbn [iommu_domain_pt_root_phys k_pts] in Er, Hx; [done| |]; apply pt_root_phys_none in Er; congruence.
Qed.

Lemma bind_step_ok av0 m0 u0 op st : bind_inv av0 m0 u0 st -> step_done av0 m0 u0 op st.
Proof.
  intros Hi. destruct op as [t|t devs|t]; [|by apply bind_ok|by apply unbind_ok]. unfold step_done. cbn [bind_step bound_next]. destruct (bs_bound st !! t) as [l|] eqn:E; [by exists st|].
  eexists. split; [reflexivity|]. split_and!; [|done|done]. destruct Hi as [Hq Hu Hm Hp Hl Hb Ho]. split; cbn; [done|done|done|done|done| |].
  - intros Hk. destruct (Hb Hk) as [Hperm Hn]. split; [|done]. rewrite all_bound_insert. cbn. by rewrite delete_id.
  - intros d (t1 & l1 & Hl1 & Hne & ->)%Ho. exists t1, l1. split_and!; [|done|done]. rewrite lookup_insert_ne; [done|]. congruence.
Qed.

Lemma bind_reach_inv st0 st av0 : bind_inv av0 (bs_mem st0) (bs_unit st0) st0 -> bind_reach st0 st -> bind_inv av0 (bs_mem st0) (bs_unit st0) st /\ k_records (bs_kind st) = k_records (bs_kind st0).
Proof.
  intros Hi. induction 1 as [|op st st' _ [IH Hk] E]; [done|]. destruct (bind_step_ok _ _ _ op st IH) as (st1 & E1 & Hi1 & _ & Hk1). rewrite E in E1. injection E1 as <-. split; [done|]. congruence.
Qed.

(** Nothing bound: nothing on record and every frame back. *)
Lemma all_idle av0 m0 u0 st : bind_inv av0 m0 u0 st -> (forall t l, bs_bound st !! t = Some l -> l = []) -> k_attached (bs_kind st) = [] /\ k_pts (bs_kind st) = [].
Proof.
  intros [Hq Hu Hm Hp Hl Hb Ho] Hidle. split.
  - destruct (k_records (bs_kind st)) eqn:Hk; [|by destruct (bs_kind st)]. destruct (Hb eq_refl) as [Hperm _]. destruct (k_attached (bs_kind st)) as [|[x d] q]; [done|].
    assert ((x, d) ∈ all_bound (bs_bound st)) as (t & l & Ht & Hx & _)%all_bound_elem by (rewrite <- Hperm; by left). rewrite (Hidle t l Ht) in Hx. by apply elem_of_nil in Hx.
  - destruct (k_pts (bs_kind st)) as [|e q] eqn:E; [done|]. destruct (Ho (de_domain e)) as (t & l & Ht & Hne & _); [cbn; by rewrite Z.eqb_refl|]. by destruct (Hne (Hidle t l Ht)).
Qed.
End History.

(** C12: over every history of processes created, drivers loaded with any list of
    PCI devices and processes that exit, from a kernel whose IOMMU (pass-through,
    VT-d or AMD-Vi, activated or not) has nothing on record: every operation
    returns; under VT-d and AMD-Vi a load binds exactly the listed devices
    nobody has, each once, while pass-through, which keeps no record, binds the
    list as it is, repetitions and devices of other drivers included; an exit
    clears the process's list; VT-d and AMD-Vi have on record exactly the bound
    devices, each with its process's domain and no device twice; a domain has a
    page-table root only while one of its processes has a device, the roots are
    distinct frames and with the free ones they are the frames free at the
    start, all of which are back when nothing is bound; and no register of the
    unit is touched, translation stays off and no memory but those frames
    changes. *)
Theorem driver_binding_exact {U S : Type} `{MmioUnit U} `{PtSourceLaws S} (st0 st : @BindState U S)
    (Hwf : src_wf (bs_src st0)) (Hq : k_quiet (bs_kind st0)) (Ha : k_attached (bs_kind st0) = []) (Hp : k_pts (bs_kind st0) = []) (Hb : bs_bound st0 = ∅) (Hr : bind_reach st0 st) :
  (forall op, exists st', bind_step op st = Done st' /\ bs_bound st' = bound_next op (bs_kind st) (bs_bound st)) /\
  (forall l, if k_records (bs_kind st) then NoDup (newly_bound (bs_kind st) l) /\ (forall x, x ∈ newly_bound (bs_kind st) l <-> x ∈ l /\ x ∉ (all_bound (bs_bound st)).*1) else newly_bound (bs_kind st) l = l) /\
  (k_records (bs_kind st0) = true -> k_attached (bs_kind st) ≡ₚ all_bound (bs_bound st) /\ NoDup (k_attached (bs_kind st)).*1) /\
  (forall d, is_provisioned (k_pts (bs_kind st)) d = true -> exists t l, bs_bound st !! t = Some l /\ l <> [] /\ d = domain_for_task t) /\
  NoDup (pts_held (k_pts (bs_kind st))) /\
  (forall x, src_avail (bs_src st0) x <-> src_avail (bs_src st) x \/ x ∈ pts_held (k_pts (bs_kind st))) /\
  ((forall t l, bs_bound st !! t = Some l -> l = []) -> k_attached (bs_kind st) = [] /\ forall x, src_avail (bs_src st) x <-> src_avail (bs_src st0) x) /\
  bs_unit st = bs_unit st0 /\ iommu_translation_enabled (bs_kind st) = false /\ same_outside (src_avail (bs_src st0)) (bs_mem st0) (bs_mem st).
Proof.
  assert (bind_inv (src_avail (bs_src st0)) (bs_mem st0) (bs_unit st0) st0) as Hi0.
  { split; [done|done|done| | | |]; rewrite ?Hp, ?Ha, ?Hb; [constructor|by apply ledger_empty| |done]. intros _. split; [|constructor]. unfold all_bound. by rewrite map_to_list_empty. }
  destruct (bind_reach_inv _ _ _ Hi0 Hr) as [Hi Hk]. rewrite <- Hk. pose proof Hi as [Iq Iu Im Ip Il Ib Io].
  split_and!; [| |exact Ib|exact Io|by apply Il|by apply Il| |done| |done].
  - intros op. destruct (bind_step_ok _ _ _ op st Hi) as (st' & E & _ & Hn & _). by exists st'.
  - intros l. unfold newly_bound. destruct (k_records (bs_kind st)) eqn:Er; [|done]. destruct (untaken_spec l (k_attached (bs_kind st)).*1) as [Hn Hx]. split; [done|].
    intros x. rewrite Hx. destruct (Ib eq_refl) as [Hperm _]. by rewrite Hperm.
  - intros Hidle. destruct (all_idle _ _ _ _ Hi Hidle) as [Hatt Hpts]. split; [done|]. intros x. rewrite (lg_all _ _ _ Il), Hpts, elem_of_nil. tauto.
  - by destruct (bs_kind st) as [|b|b]; cbn in *; [|destruct Iq|].
Qed.

(** An activated VT-d unit; two drivers that name the same device, and the first of them exits. *)
Definition demo_bind_st : @BindState SimUnit BitmapFrameAllocator :=
  {| bs_kind := KIntel (vb_set_flags true false (vtd_prepare_activation SIM_BASE 0x10000 0x11000 vtd_new)); bs_vendor := TAG_INTEL; bs_bound := ∅; bs_src := demo_frames; bs_mem := ∅; bs_unit := demo_unit |}.
Definition demo_bind_ops : list BindOp :=
  [BoSpawn 4; BoSpawn 5; BoLoad 4 [PciDevice 0 0 3 0; PciDevice 0 1 3 0]; BoLoad 5 [PciDevice 0 0 3 0; PciDevice 0 0 4 0; PciDevice 0 0 4 0]; BoExit 4].

Fixpoint bind_run {U S : Type} `{MmioUnit U} `{PtSource S} (ops : list BindOp) (st : @BindState U S) : run (@BindState U S) :=
  match ops with [] => Done st | op :: ops => st ← bind_step op st; bind_run ops st end.

Lemma bind_run_reach {U S : Type} `{MmioUnit U} `{PtSource S} ops (st0 : @BindState U S) : forall st st', bind_reach st0 st -> bind_run ops st = Done st' -> bind_reach st0 st'.
Proof. induction ops as [|op ops IH]; intros st st' Hr E; cbn in E; [by injection E as <-|]. run_inv. eapply IH; [|exact E]. by eapply br_step. Qed.

Definition demo_bind_ok (st : @BindState SimUnit BitmapFrameAllocator) : bool :=
  bool_decide (bs_bound st !! 4 = Some []) && bool_decide (bs_bound st !! 5 = Some [0x20]) && bool_decide (k_attached (bs_kind st) = [(0x20, 5)]) && bool_decide (pts_held (k_pts (bs_kind st)) = [0x101000]).

Lemma demo_bind_check : exists st, bind_run demo_bind_ops demo_bind_st = Done st /\ demo_bind_ok st = true.
Proof.
  assert (match bind_run demo_bind_ops demo_bind_st with Done st => demo_bind_ok st | Panicked => false end = true) as Hb by (vm_compute; reflexivity).
  destruct (bind_run demo_bind_ops demo_bind_st) as [st|]; [|discriminate Hb]. by exists st.
Qed.

Lemma driver_binding_exact_witness : exists st, bind_run demo_bind_ops demo_bind_st = Done st /\ demo_bind_ok st = true /\ iommu_translation_enabled (bs_kind st) = false.
Proof.
  destruct demo_bind_check as (st & E & Hok). exists st. split; [exact E|]. split; [exact Hok|].
  refine (proj1 (proj2 (proj2 (proj2 (proj2 (proj2 (proj2 (proj2 (proj2 (driver_binding_exact demo_bind_st st _ _ _ _ _ _)))))))))).
  - exact demo_frames_wf.
  - split; reflexivity.
  - reflexivity.
  - reflexivity.
  - reflexivity.
  - exact (bind_run_reach demo_bind_ops demo_bind_st demo_bind_st st (br_start _) E).
Defined.
