(* ===== verification/NetChannel.v ===== *)
(** * The channel between network drivers and the network service
    (omni-types: net_channel.rs; the counters of the drivers' driver.rs)

    Requests, responses and the packet counters, shared by the virtio and the
    e1000e driver. *)

From Stdlib Require Import ZArith Lia.
From stdpp Require Import base numbers list.
From S2P Require Import Prelude Ring.

Inductive NetRequest :=
| SendFrame (bytes_iova bytes_len : Z)
| GetLinkState
| GetMac
| SetPromisc (on : bool).

Inductive NetResponse := NetOk | NetFrameTooLarge | NetLinkDown | NetNotSupported | NetInvalidArgument.

Record LinkState := { ls_up : bool; ls_speed_mbps : Z; ls_duplex_full : bool; ls_mac : list Z }.

Record DriverStats := { tx_packets : Z; rx_packets : Z; tx_bytes : Z; rx_bytes : Z; tx_errors : Z; rx_errors : Z }.
Definition stats_default : DriverStats := {| tx_packets := 0; rx_packets := 0; tx_bytes := 0; rx_bytes := 0; tx_errors := 0; rx_errors := 0 |}.

(** The three updates the drivers make; every counter saturates. *)
Definition stats_tx (len : Z) (s : DriverStats) : DriverStats :=
  {| tx_packets := saturating_add64 (tx_packets s) 1; rx_packets := rx_packets s; tx_bytes := saturating_add64 (tx_bytes s) len; rx_bytes := rx_bytes s; tx_errors := tx_errors s; rx_errors := rx_errors s |}.
Definition stats_tx_error (s : DriverStats) : DriverStats :=
  {| tx_packets := tx_packets s; rx_packets := rx_packets s; tx_bytes := tx_bytes s; rx_bytes := rx_bytes s; tx_errors := saturating_add64 (tx_errors s) 1; rx_errors := rx_errors s |}.
Definition stats_rx (len : Z) (s : DriverStats) : DriverStats :=
  {| tx_packets := tx_packets s; rx_packets := saturating_add64 (rx_packets s) 1; tx_bytes := tx_bytes s; rx_bytes := saturating_add64 (rx_bytes s) len; tx_errors := tx_errors s; rx_errors := rx_errors s |}.
Definition stats_rx_error (s : DriverStats) : DriverStats :=
  {| tx_packets := tx_packets s; rx_packets := rx_packets s; tx_bytes := tx_bytes s; rx_bytes := rx_bytes s; tx_errors := tx_errors s; rx_errors := saturating_add64 (rx_errors s) 1 |}.

(** [x.is_power_of_two()]: exactly one bit is set. *)
Definition is_power_of_two (x : Z) : bool := (0 <? x) && (Z.land x (x - 1) =? 0).

(** Clearing the lowest bit of a number that is not a power of two leaves one. *)
Lemma is_power_of_two_spec x : is_power_of_two x = true -> exists k, 0 <= k /\ x = 2 ^ k.
Proof.
  unfold is_power_of_two. intros [Hx%Z.ltb_lt H%Z.eqb_eq]%andb_true_iff. exists (Z.log2 x). split; [apply Z.log2_nonneg|].
  destruct (Z.log2_spec x Hx) as [Hlo Hhi]. destruct (Z.eq_dec x (2 ^ Z.log2 x)) as [|Hne]; [done|exfalso].
  assert (Z.log2 (x - 1) = Z.log2 x) as Hl by (apply Z.log2_unique; [apply Z.log2_nonneg|lia]).
  assert (Z.testbit (Z.land x (x - 1)) (Z.log2 x) = true) as Ht.
  { rewrite Z.land_spec, Z.bit_log2 by done. rewrite <- Hl, Z.bit_log2; [done|]. assert (0 < 2 ^ Z.log2 x) by (apply Z.pow_pos_nonneg; [lia|apply Z.log2_nonneg]). lia. }
  by rewrite H, Z.testbit_0_l in Ht.
Qed.

(** A power of two divides every larger one. *)
Lemma power_of_two_divides x k : is_power_of_two x = true -> x <= 2 ^ k -> 0 <= k -> (x | 2 ^ k).
Proof.
  intros (j & Hj & ->)%is_power_of_two_spec Hle Hk. assert (j <= k) as Hjk by (apply (Z.pow_le_mono_r_iff 2); lia).
  exists (2 ^ (k - j)). rewrite <- Z.pow_add_r by lia. f_equal. lia.
Qed.

(** ** What the two drivers share *)

(** [v[i] = x], which panics out of bounds. *)
Definition store_run {A} (l : list A) (i : nat) (x : A) : run (list A) := if (i <? length l)%nat then Done (<[i := x]> l) else Panicked.

Lemma ring_slot (m a : Z) : 0 < m -> 0 <= a mod m < m /\ (Z.to_nat (a mod m) < Z.to_nat m)%nat.
Proof. intros Hm. pose proof (Z.mod_pos_bound a m Hm). split; lia. Qed.

Lemma slot_ne (m a b : Z) : 0 < m -> a < b < a + m -> Z.to_nat (a mod m) <> Z.to_nat (b mod m).
Proof. intros Hm Hab E. apply (mod_distinct m a b Hm Hab). pose proof (ring_slot m a Hm). pose proof (ring_slot m b Hm). lia. Qed.

Lemma index_done {A} (l : list A) i x : l !! i = Some x -> index_run l i = Done x.
Proof. intros E. unfold index_run. by rewrite E. Qed.
Lemma store_done {A} (l : list A) i x : (i < length l)%nat -> store_run l i x = Done (<[i := x]> l).
Proof. intros E. unfold store_run. by rewrite (proj2 (Nat.ltb_lt _ _)). Qed.

Lemma slice_take (data : list Z) k : 0 <= k -> slice_get data 0 k = if k <=? Z.of_nat (length data) then Some (take (Z.to_nat k) data) else None.
Proof. intros Hk. unfold slice_get. rewrite (proj2 (Z.leb_le 0 k)) by done. cbn [andb]. destruct (k <=? _); [|done]. by rewrite Z.sub_0_r. Qed.
