(* ===== verification/Virtio.v ===== *)
(** * The virtio network driver
    (omni-driver-net-virtio: virtqueue.rs, ring.rs, tx_rx.rs, features.rs,
    device_status.rs, driver.rs)

    The split virtqueue with its free list kept inside the descriptor table,
    the framing of packets, the pool of receive buffers and the driver over
    them; and, on the other side of the rings, a device that takes buffers in
    the order they are made available and completes them in any order. *)

From Stdlib Require Import ZArith Lia.
From stdpp Require Import base numbers list gmap.
From S2P Require Import Prelude Ring NetChannel.

(** ** Sizes and constants *)

Definition RX_QUEUE_IDX : Z := 0.
Definition TX_QUEUE_IDX : Z := 1.
Definition DEFAULT_RX_QUEUE_DEPTH : Z := 256.
Definition DEFAULT_TX_QUEUE_DEPTH : Z := 256.
Definition VIRTQ_DESC_BYTES : Z := 16.
Definition VIRTQ_AVAIL_FIXED_BYTES : Z := 6.
Definition VIRTQ_USED_FIXED_BYTES : Z := 6.
Definition VIRTQ_USED_ELEM_BYTES : Z := 8.
Definition MAX_QUEUE_DEPTH : Z := 4096.

Definition is_valid_queue_depth (depth : Z) : bool := (1 <=? depth) && (depth <=? MAX_QUEUE_DEPTH) && is_power_of_two depth.

Definition descriptor_table_bytes (queue_size : Z) : option Z := checked_mul64 queue_size VIRTQ_DESC_BYTES.
Definition avail_ring_bytes (queue_size : Z) : option Z := match checked_mul64 queue_size 2 with Some v => checked_add64 v VIRTQ_AVAIL_FIXED_BYTES | None => None end.
Definition used_ring_bytes (queue_size : Z) : option Z := match checked_mul64 queue_size VIRTQ_USED_ELEM_BYTES with Some v => checked_add64 v VIRTQ_USED_FIXED_BYTES | None => None end.

Definition VIRTIO_F_VERSION_1 : Z := Z.shiftl 1 32.
Definition VIRTIO_NET_F_MAC : Z := Z.shiftl 1 5.
Definition VIRTIO_NET_F_STATUS : Z := Z.shiftl 1 16.
Definition VIRTIO_NET_F_CSUM : Z := Z.shiftl 1 0.
Definition VIRTIO_NET_F_MRG_RXBUF : Z := Z.shiftl 1 15.
Definition REQUIRED_FEATURES : Z := Z.lor (Z.lor VIRTIO_F_VERSION_1 VIRTIO_NET_F_MAC) VIRTIO_NET_F_STATUS.

Definition STATUS_RESET : Z := 0x00.
Definition STATUS_ACKNOWLEDGE : Z := 0x01.
Definition STATUS_DRIVER : Z := 0x02.
Definition STATUS_DRIVER_OK : Z := 0x04.
Definition STATUS_FEATURES_OK : Z := 0x08.
Definition STATUS_NEEDS_RESET : Z := 0x40.
Definition STATUS_FAILED : Z := 0x80.

(** ** The split virtqueue (ring.rs) *)

Definition VIRTQ_DESC_F_NEXT : Z := 0x0001.
Definition VIRTQ_DESC_F_WRITE : Z := 0x0002.

Record VirtqDesc := { vd_addr : Z; vd_len : Z; vd_flags : Z; vd_next : Z }.
Record VirtqUsedElem := { ue_id : Z; ue_len : Z }.

Record SplitVirtqueue := {
  desc_table : list VirtqDesc;
  avail_idx : Z;
  avail_ring : list Z;
  used_elems : list VirtqUsedElem;
  used_idx : Z;
  queue_size : Z;
  free_head : Z;
  num_free : Z;
  last_used_idx : Z;
}.

Definition sv_new (queue_size : Z) : run SplitVirtqueue :=
  if negb (0 <? queue_size) then Panicked else
  Done {| desc_table := map (fun i => {| vd_addr := 0; vd_len := 0; vd_flags := 0; vd_next := (i + 1) mod queue_size |}) (seqZ 0 queue_size);
          avail_idx := 0; avail_ring := replicate (Z.to_nat queue_size) 0; used_elems := replicate (Z.to_nat queue_size) {| ue_id := 0; ue_len := 0 |};
          used_idx := 0; queue_size := queue_size; free_head := 0; num_free := queue_size; last_used_idx := 0 |}.

Definition wrap16 (x : Z) : Z := x mod 2 ^ 16.

Definition sv_add_buffer (buf_addr len : Z) (writable : bool) (q : SplitVirtqueue) : run (option Z * SplitVirtqueue) :=
  if num_free q =? 0 then Done (None, q) else
  let idx := free_head q in
  d ← index_run (desc_table q) (Z.to_nat idx);
  let next_free := vd_next d in
  let flags := if writable then VIRTQ_DESC_F_WRITE else 0 in
  table ← store_run (desc_table q) (Z.to_nat idx) {| vd_addr := buf_addr; vd_len := len; vd_flags := flags; vd_next := 0 |};
  let avail_slot := avail_idx q mod queue_size q in
  ring ← store_run (avail_ring q) (Z.to_nat avail_slot) idx;
  n ← sub64 (num_free q) 1;
  Done (Some idx, {| desc_table := table; avail_idx := wrap16 (avail_idx q + 1); avail_ring := ring; used_elems := used_elems q; used_idx := used_idx q;
                     queue_size := queue_size q; free_head := next_free; num_free := n; last_used_idx := last_used_idx q |}).

Definition sv_pop_used (q : SplitVirtqueue) : run (option (Z * Z) * SplitVirtqueue) :=
  if last_used_idx q =? used_idx q then Done (None, q) else
  let slot := last_used_idx q mod queue_size q in
  elem ← index_run (used_elems q) (Z.to_nat slot);
  let desc_idx := wrap16 (ue_id elem) in
  d ← index_run (desc_table q) (Z.to_nat desc_idx);
  let table := <[Z.to_nat desc_idx := {| vd_addr := vd_addr d; vd_len := vd_len d; vd_flags := vd_flags d; vd_next := free_head q |}]> (desc_table q) in
  Done (Some (desc_idx, ue_len elem),
        {| desc_table := table; avail_idx := avail_idx q; avail_ring := avail_ring q; used_elems := used_elems q; used_idx := used_idx q;
           queue_size := queue_size q; free_head := desc_idx; num_free := Z.min (num_free q + 1) 65535; last_used_idx := wrap16 (last_used_idx q + 1) |}).

Definition sv_is_full (q : SplitVirtqueue) : bool := num_free q =? 0.
Definition sv_desc (index : Z) (q : SplitVirtqueue) : option VirtqDesc := desc_table q !! Z.to_nat index.

Definition simulate_device_completion (desc_idx bytes_written : Z) (q : SplitVirtqueue) : run SplitVirtqueue :=
  let slot := used_idx q mod queue_size q in
  elems ← store_run (used_elems q) (Z.to_nat slot) {| ue_id := desc_idx; ue_len := bytes_written |};
  Done {| desc_table := desc_table q; avail_idx := avail_idx q; avail_ring := avail_ring q; used_elems := elems; used_idx := wrap16 (used_idx q + 1);
          queue_size := queue_size q; free_head := free_head q; num_free := num_free q; last_used_idx := last_used_idx q |}.

(** ** Frames and receive buffers (tx_rx.rs) *)

Definition MAX_FRAME_SIZE : Z := 1514.
Definition MIN_FRAME_SIZE : Z := 14.
Definition VIRTIO_NET_HDR_SIZE : Z := 10.

Inductive NetDriverError := QueueFull | FrameTooLarge | NoBuffersAvailable | InvalidFrame.

Definition validate_frame_size (len : Z) : result NetDriverError unit :=
  if (MIN_FRAME_SIZE <=? len) && (len <=? MAX_FRAME_SIZE) then Ok () else Err FrameTooLarge.

Definition prepare_tx_frame (frame : list Z) : result NetDriverError (list Z) :=
  if bool_decide (frame = []) then Err InvalidFrame else
  _ ← validate_frame_size (Z.of_nat (length frame));
  total ← ok_or (checked_add64 VIRTIO_NET_HDR_SIZE (Z.of_nat (length frame))) FrameTooLarge;
  let buf := replicate (Z.to_nat total) 0 in
  Ok (take (Z.to_nat VIRTIO_NET_HDR_SIZE) buf ++ frame).

Definition strip_rx_header (data : list Z) : option (list Z) := slice_get data VIRTIO_NET_HDR_SIZE (Z.of_nat (length data)).

Record RxBuffer := { rb_id : Z; rb_data : list Z; rb_in_use : bool }.
Record RxBufferPool := { pool_buffers : list RxBuffer; pool_buffer_size : Z }.

Definition pool_new (count buffer_size : Z) : run RxBufferPool :=
  if negb (0 <? count) then Panicked else if negb (0 <? buffer_size) then Panicked else
  Done {| pool_buffers := map (fun i => {| rb_id := i; rb_data := replicate (Z.to_nat buffer_size) 0; rb_in_use := false |}) (seqZ 0 count); pool_buffer_size := buffer_size |}.

Definition with_in_use (u : bool) (b : RxBuffer) : RxBuffer := {| rb_id := rb_id b; rb_data := rb_data b; rb_in_use := u |}.
Definition with_buffers (bs : list RxBuffer) (p : RxBufferPool) : RxBufferPool := {| pool_buffers := bs; pool_buffer_size := pool_buffer_size p |}.

(** [iter_mut().find(|b| !b.in_use)]: the first free buffer, marked in place. *)
Definition pool_allocate (p : RxBufferPool) : option Z * RxBufferPool :=
  match list_find (fun b => rb_in_use b = false) (pool_buffers p) with
  | Some (i, b) => (Some (rb_id b), with_buffers (<[i := with_in_use true b]> (pool_buffers p)) p)
  | None => (None, p)
  end.

Definition pool_release (id : Z) (p : RxBufferPool) : RxBufferPool := with_buffers (alter (with_in_use false) (Z.to_nat id) (pool_buffers p)) p.
Definition pool_get (id : Z) (p : RxBufferPool) : option (list Z) := rb_data <$> pool_buffers p !! Z.to_nat id.

(** [get_mut(id)] and a write of [bytes] at the start of the buffer. *)
Definition pool_write (id : Z) (bytes : list Z) (p : RxBufferPool) : RxBufferPool :=
  with_buffers (alter (fun b => {| rb_id := rb_id b; rb_data := take (length (rb_data b)) (bytes ++ drop (length bytes) (rb_data b)); rb_in_use := rb_in_use b |}) (Z.to_nat id) (pool_buffers p)) p.

(** ** The driver (driver.rs) *)

Definition DEFAULT_LINK_SPEED_MBPS : Z := 1000.
Definition DEFAULT_RX_BUFFER_SIZE : Z := 2048.

Inductive VirtioState := VsUninitialized | VsReset | VsAcknowledged | VsFeaturesNegotiated | VsFeaturesLocked | VsVirtqueuesConfigured | VsMacAcquired | VsReady | VsError.

Record VirtioNetDriver := {
  vn_state : VirtioState;
  vn_mac : list Z;
  vn_link_up : bool;
  vn_tx_queue : SplitVirtqueue;
  vn_rx_queue : SplitVirtqueue;
  vn_rx_pool : RxBufferPool;
  vn_stats : DriverStats;
}.

Definition vn_set (link : bool) (tx rx : SplitVirtqueue) (p : RxBufferPool) (st : DriverStats) (d : VirtioNetDriver) : VirtioNetDriver :=
  {| vn_state := vn_state d; vn_mac := vn_mac d; vn_link_up := link; vn_tx_queue := tx; vn_rx_queue := rx; vn_rx_pool := p; vn_stats := st |}.

Definition virtio_new (queue_size rx_buffer_count : Z) : run VirtioNetDriver :=
  tx ← sv_new queue_size;
  rx ← sv_new queue_size;
  p ← pool_new rx_buffer_count DEFAULT_RX_BUFFER_SIZE;
  Done {| vn_state := VsUninitialized; vn_mac := replicate 6 0; vn_link_up := false; vn_tx_queue := tx; vn_rx_queue := rx; vn_rx_pool := p; vn_stats := stats_default |}.

Definition virtio_send_frame (frame : list Z) (d : VirtioNetDriver) : run (result NetDriverError unit * VirtioNetDriver) :=
  match prepare_tx_frame frame with
  | Err e => Done (Err e, d)
  | Ok prepared =>
      if sv_is_full (vn_tx_queue d) then Done (Err QueueFull, vn_set (vn_link_up d) (vn_tx_queue d) (vn_rx_queue d) (vn_rx_pool d) (stats_tx_error (vn_stats d)) d) else
      let len := wrap32 (Z.of_nat (length prepared)) in
      '(idx, tx) ← sv_add_buffer 0 len false (vn_tx_queue d);
      match idx with
      | None => Done (Err QueueFull, vn_set (vn_link_up d) tx (vn_rx_queue d) (vn_rx_pool d) (vn_stats d) d)
      | Some _ => Done (Ok (), vn_set (vn_link_up d) tx (vn_rx_queue d) (vn_rx_pool d) (stats_tx (Z.of_nat (length frame)) (vn_stats d)) d)
      end
  end.

Definition virtio_handle_request (req : NetRequest) (d : VirtioNetDriver) : run (NetResponse * VirtioNetDriver) :=
  match req with
  | SendFrame bytes_iova bytes_len =>
      if bytes_len =? 0 then Done (NetInvalidArgument, d) else
      if negb (vn_link_up d) then Done (NetLinkDown, d) else
      let synthetic_frame := replicate (Z.to_nat bytes_len) 0 in
      '(r, d) ← virtio_send_frame synthetic_frame d;
      Done (match r with Ok _ => NetOk | Err FrameTooLarge | Err QueueFull => NetFrameTooLarge | Err _ => NetInvalidArgument end, d)
  | GetLinkState | GetMac => Done (NetOk, d)
  | _ => Done (NetNotSupported, d)
  end.

Definition virtio_poll_rx (d : VirtioNetDriver) : run (option (list Z) * VirtioNetDriver) :=
  '(r, rx) ← sv_pop_used (vn_rx_queue d);
  match r with
  | None => Done (None, vn_set (vn_link_up d) (vn_tx_queue d) rx (vn_rx_pool d) (vn_stats d) d)
  | Some (desc_idx, bytes_written) =>
      let buf_id := desc_idx in
      let read_len := if 0 <? bytes_written then Z.min bytes_written (pool_buffer_size (vn_rx_pool d)) else pool_buffer_size (vn_rx_pool d) in
      let frame := data ← pool_get buf_id (vn_rx_pool d); slice ← slice_get data 0 read_len; strip_rx_header slice in
      let pool := pool_release buf_id (vn_rx_pool d) in
      let stats := match frame with Some f => stats_rx (Z.of_nat (length f)) (vn_stats d) | None => stats_rx_error (vn_stats d) end in
      Done (frame, vn_set (vn_link_up d) (vn_tx_queue d) rx pool stats d)
  end.

(** [while self.tx_queue.pop_used().is_some() {}] *)
Fixpoint drain_used (fuel : nat) (q : SplitVirtqueue) : run SplitVirtqueue :=
  match fuel with
  | O => Panicked
  | S n => '(r, q) ← sv_pop_used q; match r with Some _ => drain_used n q | None => Done q end
  end.

(** As many rounds as completions, and the one that finds none. *)
Definition drain_fuel (q : SplitVirtqueue) : nat := S (Z.to_nat (wrap16 (used_idx q - last_used_idx q))).

Definition virtio_poll_tx_completions (d : VirtioNetDriver) : run VirtioNetDriver :=
  tx ← drain_used (drain_fuel (vn_tx_queue d)) (vn_tx_queue d);
  Done (vn_set (vn_link_up d) tx (vn_rx_queue d) (vn_rx_pool d) (vn_stats d) d).

Definition link_state_snapshot (d : VirtioNetDriver) : LinkState :=
  {| ls_up := vn_link_up d; ls_speed_mbps := if vn_link_up d then DEFAULT_LINK_SPEED_MBPS else 0; ls_duplex_full := vn_link_up d; ls_mac := vn_mac d |}.

(** ** A device on the other side of a queue

    The device reads the available ring up to the driver's index, holds the
    buffers it has read, and completes any of them with any length. *)

Record QueueDev := { dev_avail : Z; dev_held : list Z }.
Definition dev_new : QueueDev := {| dev_avail := 0; dev_held := [] |}.

(** The next available descriptor with what it says, if there is one. *)
Definition dev_fetch (q : SplitVirtqueue) (v : QueueDev) : option (Z * VirtqDesc) * QueueDev :=
  if dev_avail v =? avail_idx q then (None, v) else
  match avail_ring q !! Z.to_nat (dev_avail v mod queue_size q) with
  | Some id => match desc_table q !! Z.to_nat id with
      | Some d => (Some (id, d), {| dev_avail := wrap16 (dev_avail v + 1); dev_held := dev_held v ++ [id] |})
      | None => (None, v) end
  | None => (None, v)
  end.

Definition dev_complete (k : nat) (len : Z) (q : SplitVirtqueue) (v : QueueDev) : run (SplitVirtqueue * QueueDev) :=
  match dev_held v !! k with
  | Some id => q ← simulate_device_completion id len q; Done (q, {| dev_avail := dev_avail v; dev_held := delete k (dev_held v) |})
  | None => Done (q, v)
  end.

(** ** What a queue promises

    Buffers are free, made available, held by the device or completed; they
    leave the first, second and last of these states in order, the third in
    any order. *)

Record QueueSpec := { qs_free : list Z; qs_avail : list Z; qs_held : list Z; qs_done : list (Z * Z); qs_bufs : Z -> VirtqDesc }.
Definition qs_new (n : Z) : QueueSpec := {| qs_free := seqZ 0 n; qs_avail := []; qs_held := []; qs_done := []; qs_bufs := fun _ => {| vd_addr := 0; vd_len := 0; vd_flags := 0; vd_next := 0 |} |}.

Definition qs_add (addr len : Z) (writable : bool) (s : QueueSpec) : option Z * QueueSpec :=
  match qs_free s with
  | [] => (None, s)
  | id :: free =>
      let d := {| vd_addr := addr; vd_len := len; vd_flags := if writable then VIRTQ_DESC_F_WRITE else 0; vd_next := 0 |} in
      (Some id, {| qs_free := free; qs_avail := qs_avail s ++ [id]; qs_held := qs_held s; qs_done := qs_done s; qs_bufs := fun i => if i =? id then d else qs_bufs s i |})
  end.
Definition qs_pop (s : QueueSpec) : option (Z * Z) * QueueSpec :=
  match qs_done s with
  | [] => (None, s)
  | (id, len) :: rest => (Some (id, len), {| qs_free := id :: qs_free s; qs_avail := qs_avail s; qs_held := qs_held s; qs_done := rest; qs_bufs := qs_bufs s |})
  end.
Definition qs_fetch (s : QueueSpec) : option (Z * VirtqDesc) * QueueSpec :=
  match qs_avail s with
  | [] => (None, s)
  | id :: rest => (Some (id, qs_bufs s id), {| qs_free := qs_free s; qs_avail := rest; qs_held := qs_held s ++ [id]; qs_done := qs_done s; qs_bufs := qs_bufs s |})
  end.
Definition qs_complete (k : nat) (len : Z) (s : QueueSpec) : QueueSpec :=
  match qs_held s !! k with
  | Some id => {| qs_free := qs_free s; qs_avail := qs_avail s; qs_held := delete k (qs_held s); qs_done := qs_done s ++ [(id, len)]; qs_bufs := qs_bufs s |}
  | None => s
  end.
(** Everything completed becomes free. *)
Definition qs_drain (s : QueueSpec) : QueueSpec :=
  {| qs_free := rev (qs_done s).*1 ++ qs_free s; qs_avail := qs_avail s; qs_held := qs_held s; qs_done := []; qs_bufs := qs_bufs s |}.

(** Every descriptor is in exactly one of the four states. *)
Definition qs_all (s : QueueSpec) : list Z := qs_free s ++ qs_avail s ++ qs_held s ++ (qs_done s).*1.

(** The free list threaded through the table. *)
Fixpoint free_chain (t : list VirtqDesc) (h : Z) (l : list Z) : Prop :=
  match l with [] => True | x :: l => h = x /\ exists d, t !! Z.to_nat x = Some d /\ free_chain t (vd_next d) l end.

(** [f] counts what the device has read, [c] what it has completed, [p] what
    the driver has taken back. *)
Record queue_rel (n : Z) (q : SplitVirtqueue) (v : QueueDev) (s : QueueSpec) (f p : Z) : Prop := {
  qr_size : queue_size q = n;
  qr_n : 0 < n <= 4096 /\ (n | 2 ^ 16);
  qr_table : length (desc_table q) = Z.to_nat n;
  qr_ring : length (avail_ring q) = Z.to_nat n;
  qr_elems : length (used_elems q) = Z.to_nat n;
  qr_all : qs_all s ≡ₚ seqZ 0 n;
  qr_chain : free_chain (desc_table q) (free_head q) (qs_free s);
  qr_free : num_free q = Z.of_nat (length (qs_free s));
  qr_counts : 0 <= f /\ 0 <= p;
  qr_avail_idx : avail_idx q = (f + Z.of_nat (length (qs_avail s))) mod 2 ^ 16;
  qr_dev : dev_avail v = f mod 2 ^ 16 /\ dev_held v = qs_held s;
  qr_avail : forall i id, qs_avail s !! i = Some id -> avail_ring q !! Z.to_nat ((f + Z.of_nat i) mod n) = Some id;
  qr_used_idx : used_idx q = (p + Z.of_nat (length (qs_done s))) mod 2 ^ 16;
  qr_last : last_used_idx q = p mod 2 ^ 16;
  qr_done : forall i e, qs_done s !! i = Some e -> used_elems q !! Z.to_nat ((p + Z.of_nat i) mod n) = Some {| ue_id := e.1; ue_len := e.2 |};
  qr_bufs : forall id, id ∈ qs_avail s \/ id ∈ qs_held s -> desc_table q !! Z.to_nat id = Some (qs_bufs s id);
}.

Section Queue.
Context (n : Z).

Lemma all_bounds s : qs_all s ≡ₚ seqZ 0 n -> (forall x, x ∈ qs_all s -> 0 <= x < n) /\ NoDup (qs_all s) /\ (0 <= n -> Z.of_nat (length (qs_all s)) = n).
Proof. intros Hp. split; [|split]; [intros x; rewrite Hp; rewrite elem_of_seqZ; lia|rewrite Hp; apply NoDup_seqZ|intros Hn; rewrite Hp, length_seqZ; lia]. Qed.

Lemma free_chain_insert t h l i d : free_chain t h l -> (forall x, x ∈ l -> 0 <= x) -> 0 <= i -> i ∉ l -> free_chain (<[Z.to_nat i := d]> t) h l.
Proof.
  revert h. induction l as [|x l IH]; intros h Hc Hpos Hi Hn; [done|]. cbn in *. destruct Hc as (-> & e & He & Hc). apply not_elem_of_cons in Hn as [Hx Hn].
  split; [done|]. exists e. rewrite list_lookup_insert_ne; [|intros E; pose proof (Hpos x ltac:(by left)); lia]. split; [done|]. apply IH; [done|intros y Hy; apply Hpos; by right|done|done].
Qed.

Lemma mod_mod_divide a m : (m | 2 ^ 16) -> 0 < m -> (a mod 2 ^ 16) mod m = a mod m.
Proof. intros Hd Hm. symmetry. by apply Znumtheory.Zmod_div_mod; [lia|lia|]. Qed.

Lemma qs_new_all m : qs_all (qs_new m) = seqZ 0 m.
Proof. unfold qs_all, qs_new. cbn. by rewrite app_nil_r. Qed.

(** Position [k] of a window of [a] entries that ends before the next lap. *)
Lemma idx_differ a b : 0 <= a <= b -> b < a + 2 ^ 16 -> (a mod 2 ^ 16 =? b mod 2 ^ 16) = (a =? b).
Proof.
  intros Hab Hb. destruct (Z.eqb_spec a b) as [->|Hne]; [apply Z.eqb_refl|]. apply Z.eqb_neq. apply mod_distinct; lia.
Qed.

Lemma wrap16_next a : wrap16 (a mod 2 ^ 16 + 1) = (a + 1) mod 2 ^ 16.
Proof. unfold wrap16. by rewrite Z.add_mod_idemp_l by lia. Qed.
End Queue.

Lemma sv_new_rel n : is_valid_queue_depth n = true -> exists q, sv_new n = Done q /\ queue_rel n q dev_new (qs_new n) 0 0.
Proof.
  unfold is_valid_queue_depth, MAX_QUEUE_DEPTH. intros Hv. apply andb_true_iff in Hv as [[H1%Z.leb_le H2%Z.leb_le]%andb_true_iff H3].
  unfold sv_new. rewrite (proj2 (Z.ltb_lt 0 n)) by lia. cbn [negb]. eexists. split; [reflexivity|].
  split; cbn [desc_table avail_idx avail_ring used_elems used_idx queue_size free_head num_free last_used_idx qs_new qs_free qs_avail qs_held qs_done qs_bufs dev_new dev_avail dev_held]; try done.
  - split; [lia|]. by apply (power_of_two_divides n 16); [|change (2 ^ 16) with 65536; lia|lia].
  - by rewrite length_map, length_seqZ.
  - by rewrite length_replicate.
  - by rewrite length_replicate.
  - by rewrite qs_new_all.
  - assert (forall m a, 0 <= a -> a + Z.of_nat m = n -> free_chain (map (fun i => {| vd_addr := 0; vd_len := 0; vd_flags := 0; vd_next := (i + 1) mod n |}) (seqZ 0 n)) a (seqZ a (Z.of_nat m))) as Hc; [|specialize (Hc (Z.to_nat n) 0); rewrite Z2Nat.id in Hc by lia; apply Hc; lia].
    induction m as [|m IH]; intros a Ha Hm; [done|]. rewrite (seqZ_cons a) by lia. cbn [free_chain]. split; [done|]. eexists. split; [rewrite list_lookup_fmap, lookup_seqZ_lt by lia; reflexivity|].
    cbn [vd_next]. replace (Z.pred (Z.of_nat (Datatypes.S m))) with (Z.of_nat m) by lia. replace (0 + Z.of_nat (Z.to_nat a)) with a by lia.
    destruct m as [|m]; [done|]. rewrite Z.mod_small by lia. apply (IH (Z.succ a)); lia.
  - rewrite length_seqZ. lia.
  - intros id [?%elem_of_nil|?%elem_of_nil]; done.
Qed.

Section Steps.
Context (n : Z).

Lemma qs_counts s : 0 <= n -> qs_all s ≡ₚ seqZ 0 n -> Z.of_nat (length (qs_free s)) + Z.of_nat (length (qs_avail s)) + Z.of_nat (length (qs_held s)) + Z.of_nat (length (qs_done s)) = n.
Proof. intros Hn Hp. destruct (all_bounds n s Hp) as (_ & _ & Hl). specialize (Hl Hn). unfold qs_all in Hl. rewrite !length_app, length_fmap in Hl. lia. Qed.

Lemma sv_add_spec addr len w q v s f p : queue_rel n q v s f p ->
  exists q', sv_add_buffer addr len w q = Done (fst (qs_add addr len w s), q') /\ queue_rel n q' v (snd (qs_add addr len w s)) f p.
Proof.
  intros R. pose proof R as [Rn [Rb Rd] Rt Rr Re Ra Rc Rf [R0 R1] Ri Rv Rav Ru Rl Rdn Rbf]. unfold sv_add_buffer, qs_add.
  destruct (qs_free s) as [|id free] eqn:Efree; [rewrite Rf; cbn; by exists q|]. rewrite Rf. cbn [length]. rewrite (proj2 (Z.eqb_neq _ 0)) by lia.
  cbn [free_chain] in Rc. destruct Rc as (-> & d & Hd & Rc). pose proof (qs_counts s ltac:(lia) Ra) as Hcnt. rewrite Efree in Hcnt. cbn [length] in Hcnt.
  destruct (all_bounds n s Ra) as (Hb & Hnd & _). assert (0 <= id < n) as Hid by (apply Hb; unfold qs_all; rewrite Efree; by left).
  unfold qs_all in Hnd. rewrite Efree in Hnd. apply NoDup_cons in Hnd as [Hni Hnd]. rewrite !not_elem_of_app in Hni. destruct Hni as (Hn1 & Hn2 & Hn3 & Hn4).
  rewrite (index_done _ _ _ Hd). cbn [mbind run_bind]. rewrite (store_done (desc_table q)) by lia. cbn [mbind run_bind]. rewrite Ri, Rn, (mod_mod_divide _ n) by (done || lia).
  destruct (ring_slot n (f + Z.of_nat (length (qs_avail s)))) as [_ Hsl]; [lia|]. rewrite (store_done (avail_ring q)) by lia. cbn [mbind run_bind]. unfold sub64. rewrite (proj2 (Z.leb_le 1 _)) by lia. cbn [mbind run_bind].
  eexists. split; [reflexivity|]. cbn [fst snd]. split; cbn [desc_table avail_idx avail_ring used_elems used_idx queue_size free_head num_free last_used_idx qs_free qs_avail qs_held qs_done qs_bufs]; rewrite ?length_insert; try done.
  - rewrite <- Ra. unfold qs_all. cbn [qs_free qs_avail qs_held qs_done]. rewrite Efree, <- app_assoc. cbn [app]. rewrite (app_assoc free), (app_assoc free (qs_avail s)). cbn. by rewrite <- Permutation_middle.
  - apply free_chain_insert; [done| |lia|done]. intros x Hx. assert (0 <= x < n); [|lia]. apply Hb. unfold qs_all. rewrite Efree. right. apply elem_of_app. by left.
  - lia.
  - rewrite wrap16_next, length_app. cbn. f_equal. lia.
  - intros i x Hx. apply lookup_app_Some in Hx as [Hx|[Hi Hx]].
    + pose proof (lookup_lt_Some _ _ _ Hx) as Hlt. rewrite list_lookup_insert_ne; [by apply Rav|]. apply not_eq_sym, slot_ne; lia.
    + destruct (i - length (qs_avail s))%nat eqn:Ei; [|done]. cbn in Hx. injection Hx as <-. replace i with (length (qs_avail s)) by lia. apply list_lookup_insert_eq. lia.
  - intros x Hx. destruct (Z.eqb_spec x id) as [->|Hne]; [apply list_lookup_insert_eq; lia|].
    assert (x ∈ qs_avail s \/ x ∈ qs_held s) as Hx' by (destruct Hx as [[?|Hx1]%elem_of_app|?]; [by left| |by right]; by apply list_elem_of_singleton in Hx1).
    rewrite list_lookup_insert_ne; [by apply Rbf|]. assert (0 <= x < n); [|lia]. apply Hb. unfold qs_all. rewrite !elem_of_app. tauto.
Qed.

Lemma sv_pop_spec q v s f p : queue_rel n q v s f p ->
  exists q', sv_pop_used q = Done (fst (qs_pop s), q') /\ queue_rel n q' v (snd (qs_pop s)) f (if bool_decide (qs_done s = []) then p else p + 1).
Proof.
  intros R. pose proof R as [Rn [Rb Rd] Rt Rr Re Ra Rc Rf [R0 R1] Ri Rv Rav Ru Rl Rdn Rbf]. pose proof (qs_counts s ltac:(lia) Ra) as Hcnt. unfold sv_pop_used, qs_pop.
  rewrite Rl, Ru, idx_differ by lia. destruct (qs_done s) as [|[id len] rest] eqn:Edone; cbn [length]; [rewrite Z.add_0_r, Z.eqb_refl; by exists q|].
  rewrite (proj2 (Z.eqb_neq p _)) by lia. cbn [length] in Hcnt. rewrite Rn, (mod_mod_divide p n) by (done || lia). pose proof (Rdn 0%nat _ eq_refl) as H0. rewrite Z.add_0_r in H0. cbn [fst snd] in H0. rewrite (index_done _ _ _ H0). cbn [mbind run_bind ue_id ue_len].
  destruct (all_bounds n s Ra) as (Hb & Hnd & _). assert (0 <= id < n) as Hid by (apply Hb; unfold qs_all; rewrite Edone; apply elem_of_app; right; apply elem_of_app; right; apply elem_of_app; right; by left).
  assert (wrap16 id = id) as -> by (unfold wrap16; apply Z.mod_small; lia). destruct (lookup_lt_is_Some_2 (desc_table q) (Z.to_nat id)) as [d Hd]; [lia|]. rewrite (index_done _ _ _ Hd). cbn [mbind run_bind].
  unfold qs_all in Hnd. rewrite Edone in Hnd. cbn [fmap list_fmap fst] in Hnd. rewrite !app_assoc in Hnd. rewrite <- Permutation_middle in Hnd. apply NoDup_cons in Hnd as [Hni _]. rewrite !not_elem_of_app in Hni. destruct Hni as [[[Hn1 Hn2] Hn3] Hn4].
  rewrite bool_decide_eq_false_2 by done. eexists. split; [reflexivity|]. split; cbn [desc_table avail_idx avail_ring used_elems used_idx queue_size free_head num_free last_used_idx qs_free qs_avail qs_held qs_done qs_bufs snd length]; rewrite ?length_insert; try done.
  - rewrite <- Ra. unfold qs_all. cbn [qs_free qs_avail qs_held qs_done]. rewrite Edone. cbn [fmap list_fmap fst]. rewrite !app_assoc. by rewrite <- (Permutation_middle (((qs_free s) ++ qs_avail s) ++ qs_held s)).
  - cbn [free_chain]. split; [done|]. eexists. split; [apply list_lookup_insert_eq; lia|]. cbn [vd_next]. apply free_chain_insert; [done| |lia|done].
    intros x Hx. assert (0 <= x < n); [|lia]. apply Hb. unfold qs_all. apply elem_of_app. by left.
  - rewrite Rf. lia.
  - lia.
  - f_equal. lia.
  - by rewrite wrap16_next.
  - intros i e Hi. specialize (Rdn (S i) e Hi). by replace (p + 1 + Z.of_nat i) with (p + Z.of_nat (S i)) by lia.
  - intros x Hx. assert (x <> id) as Hne by (intros ->; tauto). rewrite list_lookup_insert_ne; [by apply Rbf|]. assert (0 <= x < n); [|lia]. apply Hb. unfold qs_all. rewrite !elem_of_app. tauto.
Qed.

Lemma dev_fetch_spec q v s f p : queue_rel n q v s f p ->
  exists v', dev_fetch q v = (fst (qs_fetch s), v') /\ queue_rel n q v' (snd (qs_fetch s)) (if bool_decide (qs_avail s = []) then f else f + 1) p.
Proof.
  intros R. pose proof R as [Rn [Rb Rd] Rt Rr Re Ra Rc Rf [R0 R1] Ri [Rv Rh] Rav Ru Rl Rdn Rbf]. pose proof (qs_counts s ltac:(lia) Ra) as Hcnt. unfold dev_fetch, qs_fetch.
  rewrite Rv, Ri, idx_differ by lia. destruct (qs_avail s) as [|id rest] eqn:Eav; cbn [length]; [rewrite Z.add_0_r, Z.eqb_refl; by exists v|].
  rewrite (proj2 (Z.eqb_neq f _)) by lia. cbn [length] in Hcnt. rewrite Rn, (mod_mod_divide f n) by (done || lia). pose proof (Rav 0%nat _ eq_refl) as H0. rewrite Z.add_0_r in H0. rewrite H0.
  rewrite (Rbf id) by (left; by left). rewrite bool_decide_eq_false_2 by done. eexists. split; [reflexivity|].
  split; cbn [snd qs_free qs_avail qs_held qs_done qs_bufs dev_avail dev_held]; try done.
  - rewrite <- Ra. unfold qs_all. cbn [qs_free qs_avail qs_held qs_done]. rewrite Eav, <- (app_assoc (qs_held s)). cbn [app]. apply Permutation_app_head. rewrite <- (Permutation_middle (qs_held s)). symmetry. apply Permutation_middle.
  - lia.
  - rewrite Ri. f_equal. cbn [length]. lia.
  - by rewrite wrap16_next, Rh.
  - intros i x Hi. specialize (Rav (S i) x Hi). by replace (f + 1 + Z.of_nat i) with (f + Z.of_nat (S i)) by lia.
  - intros x Hx. apply Rbf. destruct Hx as [Hx|[Hx|Hx%list_elem_of_singleton]%elem_of_app]; [left; by right|by right|left; subst; by left].
Qed.

Lemma dev_complete_spec k len q v s f p : queue_rel n q v s f p ->
  exists q' v', dev_complete k len q v = Done (q', v') /\ queue_rel n q' v' (qs_complete k len s) f p.
Proof.
  intros R. pose proof R as [Rn [Rb Rd] Rt Rr Re Ra Rc Rf [R0 R1] Ri [Rv Rh] Rav Ru Rl Rdn Rbf]. pose proof (qs_counts s ltac:(lia) Ra) as Hcnt. unfold dev_complete, qs_complete. rewrite Rh.
  destruct (qs_held s !! k) as [id|] eqn:Ek; [|by exists q, v]. pose proof (delete_Permutation _ _ _ Ek) as Hperm. apply Permutation_length in Hperm as Hlen. cbn [length] in Hlen.
  unfold simulate_device_completion. rewrite Ru, Rn, (mod_mod_divide _ n) by (done || lia). destruct (ring_slot n (p + Z.of_nat (length (qs_done s)))) as [_ Hsl]; [lia|].
  rewrite store_done by lia. cbn [mbind run_bind]. eexists _, _. split; [reflexivity|].
  split; cbn [desc_table avail_idx avail_ring used_elems used_idx queue_size free_head num_free last_used_idx qs_free qs_avail qs_held qs_done qs_bufs dev_avail dev_held]; rewrite ?length_insert; try done.
  - rewrite <- Ra. unfold qs_all. cbn [qs_free qs_avail qs_held qs_done]. rewrite fmap_app. cbn [fmap list_fmap fst]. rewrite (Permutation_app_comm (qs_done s).*1). cbn [app].
    do 2 apply Permutation_app_head. etransitivity; [symmetry; apply Permutation_middle|]. symmetry. exact (Permutation_app_tail (qs_done s).*1 Hperm).
  - rewrite wrap16_next, length_app. cbn [length]. f_equal. lia.
  - intros i e He. apply lookup_app_Some in He as [He|[Hi He]].
    + pose proof (lookup_lt_Some _ _ _ He). rewrite list_lookup_insert_ne; [by apply Rdn|]. apply not_eq_sym, slot_ne; lia.
    + destruct (i - length (qs_done s))%nat eqn:Ei; [|done]. cbn in He. injection He as <-. replace i with (length (qs_done s)) by lia. apply list_lookup_insert_eq. lia.
  - intros x [Hx|Hx]; apply Rbf; [by left|right]. rewrite Hperm. by right.
Qed.

Lemma drain_used_spec m : forall q v s f p, queue_rel n q v s f p -> length (qs_done s) = m ->
  exists q' p', drain_used (S m) q = Done q' /\ queue_rel n q' v (qs_drain s) f p'.
Proof.
  induction m as [|m IH]; intros q v s f p R Hm; cbn [drain_used]; destruct (sv_pop_spec q v s f p R) as (q1 & E1 & R1); rewrite E1; cbn [mbind run_bind]; unfold qs_pop in *.
  - apply nil_length_inv in Hm. rewrite Hm in *. cbn [fst snd] in *. exists q1, p. split; [done|]. destruct s. cbn in *. subst. unfold qs_drain. cbn. done.
  - destruct (qs_done s) as [|[id len] rest] eqn:Ed; [done|]. cbn [fst snd] in *. destruct (IH _ _ _ _ _ R1) as (q' & p' & E & R'); [cbn in *; lia|]. exists q', p'. split; [exact E|].
    unfold qs_drain in *. cbn [qs_free qs_avail qs_held qs_done qs_bufs] in R'. rewrite Ed. cbn [fmap list_fmap fst rev]. by rewrite <- app_assoc.
Qed.

Lemma drain_fuel_exact q v s f p : queue_rel n q v s f p -> drain_fuel q = S (length (qs_done s)).
Proof.
  intros R. pose proof R as [_ [Rb _] _ _ _ Ra _ _ _ _ _ _ Ru Rl _ _]. pose proof (qs_counts s ltac:(lia) Ra) as Hcnt. unfold drain_fuel. f_equal. rewrite Ru, Rl. unfold wrap16.
  rewrite <- Zminus_mod, Z.mod_small by lia. lia.
Qed.
End Steps.

(** ** The driver and its device *)

Inductive VdOp :=
| VdRequest (req : NetRequest)
| VdSend (frame : list Z)
| VdPollRx
| VdPollTx
| VdPost (addr len : Z)
| VdAllocate
| VdLink (up : bool)
| VdFetch (rx : bool)
| VdComplete (rx : bool) (k : nat) (len : Z)
| VdDma (id : Z) (bytes : list Z).

Inductive VdAnswer := VdResponse (r : NetResponse) | VdSent (r : result NetDriverError unit) | VdFrame (f : option (list Z)) | VdId (id : option Z) | VdDesc (d : option (Z * VirtqDesc)) | VdNone.

Record VdState := { vd_driver : VirtioNetDriver; vd_tx_dev : QueueDev; vd_rx_dev : QueueDev }.
Definition on_driver (d : VirtioNetDriver) (st : VdState) : VdState := {| vd_driver := d; vd_tx_dev := vd_tx_dev st; vd_rx_dev := vd_rx_dev st |}.
Definition set_tx (tx : SplitVirtqueue) (d : VirtioNetDriver) : VirtioNetDriver := vn_set (vn_link_up d) tx (vn_rx_queue d) (vn_rx_pool d) (vn_stats d) d.
Definition set_rx (rx : SplitVirtqueue) (d : VirtioNetDriver) : VirtioNetDriver := vn_set (vn_link_up d) (vn_tx_queue d) rx (vn_rx_pool d) (vn_stats d) d.
Definition set_pool (p : RxBufferPool) (d : VirtioNetDriver) : VirtioNetDriver := vn_set (vn_link_up d) (vn_tx_queue d) (vn_rx_queue d) p (vn_stats d) d.

Definition vd_step (op : VdOp) (st : VdState) : run (VdAnswer * VdState) :=
  let d := vd_driver st in
  match op with
  | VdRequest req => '(r, d) ← virtio_handle_request req d; Done (VdResponse r, on_driver d st)
  | VdSend frame => '(r, d) ← virtio_send_frame frame d; Done (VdSent r, on_driver d st)
  | VdPollRx => '(f, d) ← virtio_poll_rx d; Done (VdFrame f, on_driver d st)
  | VdPollTx => d ← virtio_poll_tx_completions d; Done (VdNone, on_driver d st)
  | VdPost addr len => '(id, rx) ← sv_add_buffer addr len true (vn_rx_queue d); Done (VdId id, on_driver (set_rx rx d) st)
  | VdAllocate => let '(id, p) := pool_allocate (vn_rx_pool d) in Done (VdId id, on_driver (set_pool p d) st)
  | VdLink up => Done (VdNone, on_driver (vn_set up (vn_tx_queue d) (vn_rx_queue d) (vn_rx_pool d) (vn_stats d) d) st)
  | VdFetch true => let '(r, v) := dev_fetch (vn_rx_queue d) (vd_rx_dev st) in Done (VdDesc r, {| vd_driver := d; vd_tx_dev := vd_tx_dev st; vd_rx_dev := v |})
  | VdFetch false => let '(r, v) := dev_fetch (vn_tx_queue d) (vd_tx_dev st) in Done (VdDesc r, {| vd_driver := d; vd_tx_dev := v; vd_rx_dev := vd_rx_dev st |})
  | VdComplete true k len => '(q, v) ← dev_complete k len (vn_rx_queue d) (vd_rx_dev st); Done (VdNone, {| vd_driver := set_rx q d; vd_tx_dev := vd_tx_dev st; vd_rx_dev := v |})
  | VdComplete false k len => '(q, v) ← dev_complete k len (vn_tx_queue d) (vd_tx_dev st); Done (VdNone, {| vd_driver := set_tx q d; vd_tx_dev := v; vd_rx_dev := vd_rx_dev st |})
  | VdDma id bytes => Done (VdNone, on_driver (set_pool (pool_write id bytes (vn_rx_pool d)) d) st)
  end.

Fixpoint vd_run (ops : list VdOp) (st : VdState) : run (list VdAnswer * VdState) :=
  match ops with
  | [] => Done ([], st)
  | op :: ops => '(a, st) ← vd_step op st; '(l, st) ← vd_run ops st; Done (a :: l, st)
  end.

(** *** What the driver promises *)

Record VdSpec := { vs_tx : QueueSpec; vs_rx : QueueSpec; vs_pool : RxBufferPool; vs_link : bool; vs_stats : DriverStats }.

(** A frame of [len] bytes is queued with ten bytes of header. *)
Definition send_spec (len : Z) (s : VdSpec) : result NetDriverError unit * VdSpec :=
  if len =? 0 then (Err InvalidFrame, s) else
  if negb ((MIN_FRAME_SIZE <=? len) && (len <=? MAX_FRAME_SIZE)) then (Err FrameTooLarge, s) else
  match qs_add 0 (len + VIRTIO_NET_HDR_SIZE) false (vs_tx s) with
  | (None, _) => (Err QueueFull, {| vs_tx := vs_tx s; vs_rx := vs_rx s; vs_pool := vs_pool s; vs_link := vs_link s; vs_stats := stats_tx_error (vs_stats s) |})
  | (Some _, tx) => (Ok (), {| vs_tx := tx; vs_rx := vs_rx s; vs_pool := vs_pool s; vs_link := vs_link s; vs_stats := stats_tx len (vs_stats s) |})
  end.

Definition request_spec (req : NetRequest) (s : VdSpec) : NetResponse * VdSpec :=
  match req with
  | SendFrame _ len =>
      if len =? 0 then (NetInvalidArgument, s) else if negb (vs_link s) then (NetLinkDown, s) else
      let '(r, s) := send_spec len s in (match r with Ok _ => NetOk | Err _ => NetFrameTooLarge end, s)
  | GetLinkState | GetMac => (NetOk, s)
  | SetPromisc _ => (NetNotSupported, s)
  end.

(** The oldest completed buffer: what follows the header among the bytes the
    device says it wrote, or in the whole buffer if it says none. *)
Definition poll_spec (s : VdSpec) : option (list Z) * VdSpec :=
  match qs_pop (vs_rx s) with
  | (None, _) => (None, s)
  | (Some (id, w), rx) =>
      let n := if 0 <? w then Z.min w (pool_buffer_size (vs_pool s)) else pool_buffer_size (vs_pool s) in
      let frame := match pool_get id (vs_pool s) with
                   | Some data => if (VIRTIO_NET_HDR_SIZE <=? n) && (n <=? Z.of_nat (length data)) then Some (drop 10 (take (Z.to_nat n) data)) else None
                   | None => None end in
      (frame, {| vs_tx := vs_tx s; vs_rx := rx; vs_pool := pool_release id (vs_pool s); vs_link := vs_link s;
                 vs_stats := match frame with Some f => stats_rx (Z.of_nat (length f)) (vs_stats s) | None => stats_rx_error (vs_stats s) end |})
  end.

Definition with_tx (q : QueueSpec) (s : VdSpec) : VdSpec := {| vs_tx := q; vs_rx := vs_rx s; vs_pool := vs_pool s; vs_link := vs_link s; vs_stats := vs_stats s |}.
Definition with_rx (q : QueueSpec) (s : VdSpec) : VdSpec := {| vs_tx := vs_tx s; vs_rx := q; vs_pool := vs_pool s; vs_link := vs_link s; vs_stats := vs_stats s |}.
Definition with_pool (p : RxBufferPool) (s : VdSpec) : VdSpec := {| vs_tx := vs_tx s; vs_rx := vs_rx s; vs_pool := p; vs_link := vs_link s; vs_stats := vs_stats s |}.

Definition vd_spec (op : VdOp) (s : VdSpec) : VdAnswer * VdSpec :=
  match op with
  | VdRequest req => let '(r, s) := request_spec req s in (VdResponse r, s)
  | VdSend frame => let '(r, s) := send_spec (Z.of_nat (length frame)) s in (VdSent r, s)
  | VdPollRx => let '(f, s) := poll_spec s in (VdFrame f, s)
  | VdPollTx => (VdNone, with_tx (qs_drain (vs_tx s)) s)
  | VdPost addr len => let '(id, rx) := qs_add addr len true (vs_rx s) in (VdId id, with_rx rx s)
  | VdAllocate => let '(id, p) := pool_allocate (vs_pool s) in (VdId id, with_pool p s)
  | VdLink up => (VdNone, {| vs_tx := vs_tx s; vs_rx := vs_rx s; vs_pool := vs_pool s; vs_link := up; vs_stats := vs_stats s |})
  | VdFetch true => let '(r, q) := qs_fetch (vs_rx s) in (VdDesc r, with_rx q s)
  | VdFetch false => let '(r, q) := qs_fetch (vs_tx s) in (VdDesc r, with_tx q s)
  | VdComplete true k len => (VdNone, with_rx (qs_complete k len (vs_rx s)) s)
  | VdComplete false k len => (VdNone, with_tx (qs_complete k len (vs_tx s)) s)
  | VdDma id bytes => (VdNone, with_pool (pool_write id bytes (vs_pool s)) s)
  end.

Fixpoint vd_spec_run (ops : list VdOp) (s : VdSpec) : list VdAnswer * VdSpec :=
  match ops with [] => ([], s) | op :: ops => let '(a, s) := vd_spec op s in let '(l, s) := vd_spec_run ops s in (a :: l, s) end.

Definition vd_op_ok (op : VdOp) : Prop := match op with VdRequest (SendFrame _ len) => is_u16 len | _ => True end.

Record vd_rel (n : Z) (st : VdState) (s : VdSpec) : Prop := {
  vr_tx : exists f p, queue_rel n (vn_tx_queue (vd_driver st)) (vd_tx_dev st) (vs_tx s) f p;
  vr_rx : exists f p, queue_rel n (vn_rx_queue (vd_driver st)) (vd_rx_dev st) (vs_rx s) f p;
  vr_pool : vn_rx_pool (vd_driver st) = vs_pool s;
  vr_link : vn_link_up (vd_driver st) = vs_link s;
  vr_stats : vn_stats (vd_driver st) = vs_stats s;
}.

Section Driver.
Context (n : Z).

Lemma prepare_spec frame : prepare_tx_frame frame =
  if Z.of_nat (length frame) =? 0 then Err InvalidFrame else
  if negb ((MIN_FRAME_SIZE <=? Z.of_nat (length frame)) && (Z.of_nat (length frame) <=? MAX_FRAME_SIZE)) then Err FrameTooLarge else Ok (replicate 10 0 ++ frame).
Proof.
  unfold prepare_tx_frame, validate_frame_size. destruct frame as [|b frame]; [done|]. set (l := Z.of_nat (length (b :: frame))). assert (0 < l) by (unfold l; cbn; lia).
  rewrite bool_decide_eq_false_2 by done. rewrite (proj2 (Z.eqb_neq l 0)) by lia. destruct (_ && _) eqn:E; [|done]. cbn [negb mbind result_bind]. apply andb_true_iff in E as [_ E%Z.leb_le]. unfold MAX_FRAME_SIZE in E.
  unfold checked_add64. rewrite (proj2 (Z.ltb_lt _ _)) by (unfold VIRTIO_NET_HDR_SIZE; lia). cbn [ok_or mbind result_bind]. do 2 f_equal.
  rewrite take_replicate. f_equal. change (Z.to_nat VIRTIO_NET_HDR_SIZE) with 10%nat. unfold VIRTIO_NET_HDR_SIZE. lia.
Qed.

Lemma send_frame_spec frame st s : vd_rel n st s ->
  exists d, virtio_send_frame frame (vd_driver st) = Done (fst (send_spec (Z.of_nat (length frame)) s), d) /\ vd_rel n (on_driver d st) (snd (send_spec (Z.of_nat (length frame)) s)).
Proof.
  intros R. pose proof R as [(f & p & Rt) (f' & p' & Rr) Rp Rl Rs]. unfold virtio_send_frame, send_spec. rewrite prepare_spec.
  destruct (Z.of_nat (length frame) =? 0); [exists (vd_driver st); destruct st; by split|]. destruct (_ && _) eqn:E; cbn [negb]; [|exists (vd_driver st); destruct st; by split].
  apply andb_true_iff in E as [_ E%Z.leb_le]. unfold MAX_FRAME_SIZE in E. unfold sv_is_full. rewrite (qr_free _ _ _ _ _ _ Rt).
  assert (wrap32 (Z.of_nat (length (replicate 10 0 ++ frame))) = Z.of_nat (length frame) + VIRTIO_NET_HDR_SIZE) as -> by (unfold wrap32; rewrite length_app, length_replicate; rewrite Z.mod_small by lia; unfold VIRTIO_NET_HDR_SIZE; lia).
  destruct (sv_add_spec n 0 (Z.of_nat (length frame) + VIRTIO_NET_HDR_SIZE) false _ _ _ _ _ Rt) as (q' & Eq & Rq). unfold qs_add in *. destruct (qs_free (vs_tx s)) as [|id free] eqn:Ef; cbn [length].
  - cbn. eexists. split; [reflexivity|]. split; cbn; [by exists f, p|by exists f', p'|done|done|by rewrite Rs].
  - rewrite (proj2 (Z.eqb_neq _ 0)) by lia. rewrite Eq. cbn [mbind run_bind fst snd]. eexists. split; [reflexivity|]. split; cbn; [by exists f, p|by exists f', p'|done|done|by rewrite Rs].
Qed.

Lemma request_ok req st s : vd_rel n st s -> vd_op_ok (VdRequest req) ->
  exists d, virtio_handle_request req (vd_driver st) = Done (fst (request_spec req s), d) /\ vd_rel n (on_driver d st) (snd (request_spec req s)).
Proof.
  intros R Hok. assert (vd_rel n (on_driver (vd_driver st) st) s) as R0 by (destruct st; exact R). destruct req as [iova len| | |on]; cbn [virtio_handle_request request_spec]; try (by exists (vd_driver st)).
  destruct (len =? 0) eqn:E0; [by exists (vd_driver st)|]. rewrite (vr_link _ _ _ R). destruct (vs_link s); cbn [negb]; [|by exists (vd_driver st)].
  destruct (send_frame_spec (replicate (Z.to_nat len) 0) st s R) as (d & E & Rd). rewrite length_replicate, Z2Nat.id in E, Rd by (cbn in Hok; unfold is_u16 in Hok; lia). rewrite E. cbn [mbind run_bind].
  exists d. unfold send_spec in *. rewrite E0 in *. destruct (negb _); [by split|]. destruct (qs_add _ _ _ _) as [[]]; by split.
Qed.

Lemma strip_spec data : strip_rx_header data = if VIRTIO_NET_HDR_SIZE <=? Z.of_nat (length data) then Some (drop 10 data) else None.
Proof.
  unfold strip_rx_header, slice_get. rewrite Z.leb_refl, andb_true_r. destruct (Z.leb_spec VIRTIO_NET_HDR_SIZE (Z.of_nat (length data))) as [Hle|]; [|done]. unfold VIRTIO_NET_HDR_SIZE in *.
  f_equal. change (Z.to_nat 10) with 10%nat. apply take_ge. rewrite length_drop. lia.
Qed.

Lemma poll_rx_ok st s : vd_rel n st s -> 0 <= pool_buffer_size (vs_pool s) ->
  exists d, virtio_poll_rx (vd_driver st) = Done (fst (poll_spec s), d) /\ vd_rel n (on_driver d st) (snd (poll_spec s)).
Proof.
  intros R Hb. pose proof R as [(f & p & Rt) (f' & p' & Rr) Rp Rl Rs]. unfold virtio_poll_rx, poll_spec. destruct (sv_pop_spec n _ _ _ _ _ Rr) as (q' & Eq & Rq). rewrite Eq. cbn [mbind run_bind].
  unfold qs_pop in *. destruct (qs_done (vs_rx s)) as [|[id w] rest] eqn:Ed; cbn [fst snd] in *; [eexists; split; [reflexivity|]; split; cbn; [by exists f, p|by eexists _, _|done|done|done]|].
  rewrite Rp. set (k := if 0 <? w then Z.min w (pool_buffer_size (vs_pool s)) else pool_buffer_size (vs_pool s)). assert (0 <= k) as Hk by (unfold k; destruct (Z.ltb_spec 0 w); lia).
  assert ((data ← pool_get id (vs_pool s); slice ← slice_get data 0 k; strip_rx_header slice) =
    match pool_get id (vs_pool s) with Some data => if (VIRTIO_NET_HDR_SIZE <=? k) && (k <=? Z.of_nat (length data)) then Some (drop 10 (take (Z.to_nat k) data)) else None | None => None end) as ->.
  { destruct (pool_get id (vs_pool s)) as [data|]; [|done]. cbn [mbind option_bind]. rewrite slice_take by done. destruct (Z.leb_spec k (Z.of_nat (length data))) as [Hle|]; cbn [mbind option_bind]; [|by rewrite andb_false_r].
    rewrite strip_spec, length_take, andb_true_r. by replace (Z.of_nat (Z.to_nat k `min` length data)) with k by lia. }
  eexists. split; [reflexivity|]. split; cbn; [by exists f, p|by eexists _, _|done|done|by rewrite Rs].
Qed.

Lemma pool_size_kept op s : pool_buffer_size (vs_pool (snd (vd_spec op s))) = pool_buffer_size (vs_pool s).
Proof.
  destruct op as [req|frame| | |a l| |up|[]|[] k l|id bs]; cbn; try done; unfold request_spec, send_spec, poll_spec.
  - destruct req; cbn; try done. destruct (_ =? 0); [done|]. destruct (negb _); [done|]. destruct (negb _); [done|]. by destruct (qs_add _ _ _ _) as [[]].
  - destruct (_ =? 0); [done|]. destruct (negb _); [done|]. by destruct (qs_add _ _ _ _) as [[]].
  - by destruct (qs_pop _) as [[[]|] ?].
  - by destruct (qs_add _ _ _ _).
  - unfold pool_allocate. by destruct (list_find _ _) as [[]|].
  - by destruct (qs_fetch _).
  - by destruct (qs_fetch _).
Qed.

Lemma vd_step_ok op st s : vd_rel n st s -> 0 <= pool_buffer_size (vs_pool s) -> vd_op_ok op -> exists st', vd_step op st = Done (fst (vd_spec op s), st') /\ vd_rel n st' (snd (vd_spec op s)).
Proof.
  intros R Hb Hok. pose proof R as [(f & p & Rt) (f' & p' & Rr) Rp Rl Rs]. destruct op as [req|frame| | |a l| |up|[]|[] k l|id bs]; cbn [vd_step vd_spec].
  - destruct (request_ok req st s R Hok) as (d & E & Rd). rewrite E. destruct (request_spec req s). cbn in *. by eexists.
  - destruct (send_frame_spec frame st s R) as (d & E & Rd). rewrite E. destruct (send_spec _ s). cbn in *. by eexists.
  - destruct (poll_rx_ok st s R Hb) as (d & E & Rd). rewrite E. destruct (poll_spec s). cbn in *. by eexists.
  - unfold virtio_poll_tx_completions. rewrite (drain_fuel_exact n _ _ _ _ _ Rt). destruct (drain_used_spec n _ _ _ _ _ _ Rt eq_refl) as (q' & p2 & E & Rq). rewrite E. cbn [mbind run_bind]. eexists. split; [reflexivity|]. split; cbn; [by eexists _, _|by eexists _, _|done|done|done].
  - destruct (sv_add_spec n a l true _ _ _ _ _ Rr) as (q' & E & Rq). rewrite E. destruct (qs_add a l true (vs_rx s)). cbn in *. eexists. split; [reflexivity|]. split; cbn; [by eexists _, _|by eexists _, _|done|done|done].
  - rewrite Rp. destruct (pool_allocate (vs_pool s)). eexists. split; [reflexivity|]. split; cbn; [by eexists _, _|by eexists _, _|done|done|done].
  - eexists. split; [reflexivity|]. split; cbn; [by eexists _, _|by eexists _, _|done|done|done].
  - destruct (dev_fetch_spec n _ _ _ _ _ Rr) as (v' & E & Rq). rewrite E. destruct (qs_fetch (vs_rx s)). cbn in *. eexists. split; [reflexivity|]. split; cbn; [by eexists _, _|by eexists _, _|done|done|done].
  - destruct (dev_fetch_spec n _ _ _ _ _ Rt) as (v' & E & Rq). rewrite E. destruct (qs_fetch (vs_tx s)). cbn in *. eexists. split; [reflexivity|]. split; cbn; [by eexists _, _|by eexists _, _|done|done|done].
  - destruct (dev_complete_spec n k l _ _ _ _ _ Rr) as (q' & v' & E & Rq). rewrite E. cbn [mbind run_bind]. eexists. split; [reflexivity|]. split; cbn; [by eexists _, _|by eexists _, _|done|done|done].
  - destruct (dev_complete_spec n k l _ _ _ _ _ Rt) as (q' & v' & E & Rq). rewrite E. cbn [mbind run_bind]. eexists. split; [reflexivity|]. split; cbn; [by eexists _, _|by eexists _, _|done|done|done].
  - eexists. split; [reflexivity|]. split; cbn; [by eexists _, _|by eexists _, _|by rewrite Rp|done|done].
Qed.

Lemma vd_run_ok ops : forall st s, vd_rel n st s -> 0 <= pool_buffer_size (vs_pool s) -> Forall vd_op_ok ops ->
  exists st', vd_run ops st = Done (fst (vd_spec_run ops s), st') /\ vd_rel n st' (snd (vd_spec_run ops s)).
Proof.
  induction ops as [|op ops IH]; intros st s R Hb Hops; [by exists st|]. apply Forall_cons in Hops as [Hop Hops]. destruct (vd_step_ok op st s R Hb Hop) as (st1 & E1 & R1). cbn [vd_run vd_spec_run]. rewrite E1. cbn [mbind run_bind].
  pose proof (pool_size_kept op s) as Hk. destruct (vd_spec op s) as [a s1]. cbn [fst snd] in *. destruct (IH st1 s1 R1) as (st' & E & R'); [lia|done|]. rewrite E. cbn [mbind run_bind]. destruct (vd_spec_run ops s1). by exists st'.
Qed.
End Driver.

Definition vs_boot (n : Z) (p : RxBufferPool) : VdSpec := {| vs_tx := qs_new n; vs_rx := qs_new n; vs_pool := p; vs_link := false; vs_stats := stats_default |}.

(** C14: the virtio network driver with its device. For every valid queue depth
    and over every interleaving of what the network service asks, what the
    driver polls and posts, and what a device does that reads available
    buffers in order and completes any it holds, in any order and with any
    length: nothing panics; every descriptor is free, available, with the
    device or completed, and in one of these only; the device reads in order
    exactly the buffers that were queued, with their address, length and
    direction; completions come back in order with the device's lengths and
    free their descriptors; and answers, frames handed up and counters are
    those of [vd_spec], which knows nothing of rings, indices and free lists. *)
Theorem virtio_driver_exact (n count : Z) (ops : list VdOp) (Hn : is_valid_queue_depth n = true) (Hc : 0 < count) (Hops : Forall vd_op_ok ops) :
  exists d p, virtio_new n count = Done d /\ pool_new count DEFAULT_RX_BUFFER_SIZE = Done p /\
    let '(answers, s) := vd_spec_run ops (vs_boot n p) in
    exists st, vd_run ops {| vd_driver := d; vd_tx_dev := dev_new; vd_rx_dev := dev_new |} = Done (answers, st) /\
      qs_all (vs_tx s) ≡ₚ seqZ 0 n /\ qs_all (vs_rx s) ≡ₚ seqZ 0 n /\
      num_free (vn_tx_queue (vd_driver st)) = Z.of_nat (length (qs_free (vs_tx s))) /\ num_free (vn_rx_queue (vd_driver st)) = Z.of_nat (length (qs_free (vs_rx s))) /\
      (forall id, id ∈ qs_avail (vs_tx s) \/ id ∈ qs_held (vs_tx s) -> sv_desc id (vn_tx_queue (vd_driver st)) = Some (qs_bufs (vs_tx s) id)) /\
      (forall id, id ∈ qs_avail (vs_rx s) \/ id ∈ qs_held (vs_rx s) -> sv_desc id (vn_rx_queue (vd_driver st)) = Some (qs_bufs (vs_rx s) id)) /\
      vn_rx_pool (vd_driver st) = vs_pool s /\ vn_link_up (vd_driver st) = vs_link s /\ vn_stats (vd_driver st) = vs_stats s.
Proof.
  destruct (sv_new_rel n Hn) as (q & Eq & Rq). destruct (pool_new count DEFAULT_RX_BUFFER_SIZE) as [p|] eqn:Ep; [|unfold pool_new in Ep; by rewrite (proj2 (Z.ltb_lt 0 count)) in Ep].
  unfold virtio_new. rewrite Eq. cbn [mbind run_bind]. rewrite Ep. cbn [mbind run_bind]. eexists _, p. split; [reflexivity|]. split; [done|].
  assert (pool_buffer_size p = 2048) as Hb by (unfold pool_new in Ep; rewrite (proj2 (Z.ltb_lt 0 count)) in Ep by done; by injection Ep as <-).
  set (st0 := {| vd_driver := _; vd_tx_dev := _; vd_rx_dev := _ |}). assert (vd_rel n st0 (vs_boot n p)) as R0 by (split; [by exists 0, 0|by exists 0, 0|done|done|done]).
  destruct (vd_run_ok n ops st0 _ R0) as (st & E & R); [cbn; lia|done|]. destruct (vd_spec_run ops (vs_boot n p)) as [answers s]. cbn [fst snd] in *. exists st. split; [done|].
  pose proof R as [(f & g & Rt) (f' & g' & Rr) Rp Rl Rs]. split_and!; [by apply Rt|by apply Rr|by apply Rt|by apply Rr|by apply Rt|by apply Rr|done|done|done].
Qed.

(** Two buffers of a queue of two come back in the other order; a third frame finds the queue full. *)
Definition demo_vd_ops : list VdOp :=
  [VdLink true; VdRequest (SendFrame 0 60); VdRequest (SendFrame 0 1514); VdRequest (SendFrame 0 60); VdRequest (SendFrame 0 1515);
   VdFetch false; VdFetch false; VdComplete false 1 0; VdPollTx; VdPost 0x4000 2048; VdFetch true; VdDma 0 (replicate 10 0 ++ [1; 2; 3]); VdComplete true 0 13; VdPollRx; VdPollRx].
Definition demo_vd_answers : list VdAnswer :=
  [VdNone; VdResponse NetOk; VdResponse NetOk; VdResponse NetFrameTooLarge; VdResponse NetFrameTooLarge;
   VdDesc (Some (0, {| vd_addr := 0; vd_len := 70; vd_flags := 0; vd_next := 0 |})); VdDesc (Some (1, {| vd_addr := 0; vd_len := 1524; vd_flags := 0; vd_next := 0 |}));
   VdNone; VdNone; VdId (Some 0); VdDesc (Some (0, {| vd_addr := 0x4000; vd_len := 2048; vd_flags := 2; vd_next := 0 |})); VdNone; VdNone; VdFrame (Some [1; 2; 3]); VdFrame None].

Lemma virtio_driver_exact_witness : exists d st, virtio_new 2 1 = Done d /\ vd_run demo_vd_ops {| vd_driver := d; vd_tx_dev := dev_new; vd_rx_dev := dev_new |} = Done (demo_vd_answers, st) /\
  num_free (vn_tx_queue (vd_driver st)) = 1.
Proof.
  destruct (virtio_driver_exact 2 1 demo_vd_ops) as (d & p & Ed & Ep & H); [reflexivity|lia|repeat constructor; unfold is_u16; lia|].
  vm_compute in Ep. injection Ep as <-. assert (Ea : fst (vd_spec_run demo_vd_ops (vs_boot 2 {| pool_buffers := [{| rb_id := 0; rb_data := replicate 2048 0; rb_in_use := false |}]; pool_buffer_size := 2048 |})) = demo_vd_answers) by (vm_compute; reflexivity).
  assert (Ef : length (qs_free (vs_tx (snd (vd_spec_run demo_vd_ops (vs_boot 2 {| pool_buffers := [{| rb_id := 0; rb_data := replicate 2048 0; rb_in_use := false |}]; pool_buffer_size := 2048 |}))))) = 1%nat) by (vm_compute; reflexivity).
  exists d. revert H Ea Ef. change (rb_data _) with (replicate 2048 0). destruct (vd_spec_run _ _) as [answers s]. cbn [fst snd]. intros (st & E & _ & _ & Hf & _) -> Ef. exists st. split; [exact Ed|]. split; [exact E|]. rewrite Hf, Ef. reflexivity.
Defined.

(** ** Departures *)

(** A completion of no bytes hands up the whole buffer less ten bytes, a frame
    longer than any the driver would send. *)
Example empty_completion_is_a_frame :
  match virtio_new 2 1 with
  | Done d => match vd_run [VdPost 0 2048; VdFetch true; VdComplete true 0 0; VdPollRx] {| vd_driver := d; vd_tx_dev := dev_new; vd_rx_dev := dev_new |} with
    | Done ([_; _; _; VdFrame (Some f)], _) => length f = 2038%nat
    | _ => False end
  | Panicked => False
  end.
Proof. vm_compute. reflexivity. Qed.

(** Polling does not post the buffer again: after one frame the device has
    nothing to receive into. *)
Example polled_buffer_not_posted :
  match virtio_new 2 1 with
  | Done d => match vd_run [VdPost 0 2048; VdFetch true; VdComplete true 0 70; VdPollRx; VdFetch true] {| vd_driver := d; vd_tx_dev := dev_new; vd_rx_dev := dev_new |} with
    | Done ([_; _; _; _; VdDesc None], st) => num_free (vn_rx_queue (vd_driver st)) = 2
    | _ => False end
  | Panicked => False
  end.
Proof. vm_compute. reflexivity. Qed.
