(* ===== verification/E1000e.v ===== *)
(** * The e1000e network driver
    (omni-driver-e1000e: ring_config.rs, controller_regs.rs, interrupts.rs,
    pci_ids.rs, ring.rs, driver.rs)

    The two descriptor rings, with head and tail, and the driver over them;
    and a controller that writes the descriptors it has been given. *)

From Stdlib Require Import ZArith Lia.
From stdpp Require Import base numbers list.
From S2P Require Import Prelude Ring NetChannel.

(** ** Configuration and registers *)

Definition MIN_RING_DEPTH : Z := 1.
Definition MAX_RING_DEPTH : Z := 4096.
Definition DEFAULT_RX_RING_DEPTH : Z := 256.
Definition DEFAULT_TX_RING_DEPTH : Z := 256.
Definition MIN_RX_BUFFER_COUNT : Z := 1.
Definition MAX_RX_BUFFER_COUNT : Z := 8192.
Definition DEFAULT_RX_BUFFER_COUNT : Z := 512.
Definition RX_DESCRIPTOR_BYTES : Z := 16.
Definition TX_DESCRIPTOR_BYTES : Z := 16.
Definition RX_BUFFER_BYTES : Z := 2048.

Definition is_valid_ring_depth (depth : Z) : bool := (MIN_RING_DEPTH <=? depth) && (depth <=? MAX_RING_DEPTH) && is_power_of_two depth.
Definition is_valid_rx_buffer_count (count : Z) : bool := (MIN_RX_BUFFER_COUNT <=? count) && (count <=? MAX_RX_BUFFER_COUNT).
Definition rx_ring_bytes (depth : Z) : option Z := checked_mul64 depth RX_DESCRIPTOR_BYTES.
Definition tx_ring_bytes (depth : Z) : option Z := checked_mul64 depth TX_DESCRIPTOR_BYTES.

Definition RCTL_EN_BIT : Z := Z.shiftl 1 1.
Definition RCTL_BAM_BIT : Z := Z.shiftl 1 15.
Definition RCTL_SECRC_BIT : Z := Z.shiftl 1 26.
Definition rctl_enable_value : Z := Z.lor (Z.lor RCTL_EN_BIT RCTL_BAM_BIT) RCTL_SECRC_BIT.
Definition TCTL_EN_BIT : Z := Z.shiftl 1 1.
Definition TCTL_PSP_BIT : Z := Z.shiftl 1 3.
Definition TCTL_CT_SHIFT : Z := 4.
Definition TCTL_COLD_SHIFT : Z := 12.
Definition TCTL_CT_DEFAULT : Z := 0x0F.
Definition TCTL_COLD_DEFAULT_FD : Z := 0x40.
Definition tctl_enable_value : Z :=
  Z.lor (Z.lor (Z.lor TCTL_EN_BIT TCTL_PSP_BIT) (Z.shiftl TCTL_CT_DEFAULT TCTL_CT_SHIFT)) (Z.shiftl TCTL_COLD_DEFAULT_FD TCTL_COLD_SHIFT).

Definition TXDW_BIT : Z := Z.shiftl 1 0.
Definition LSC_BIT : Z := Z.shiftl 1 2.
Definition RXT0_BIT : Z := Z.shiftl 1 7.
Definition ENABLED_IMS : Z := Z.lor (Z.lor RXT0_BIT TXDW_BIT) LSC_BIT.
Definition icr_has_rx (icr : Z) : bool := negb (Z.land icr RXT0_BIT =? 0).
Definition icr_has_tx (icr : Z) : bool := negb (Z.land icr TXDW_BIT =? 0).
Definition icr_has_link_change (icr : Z) : bool := negb (Z.land icr LSC_BIT =? 0).

Definition INTEL_PCI_VENDOR_ID : Z := 0x8086.
Definition E1000E_DEVICE_IDS : list Z := [0x10D3; 0x153A; 0x153B; 0x15A1; 0x15A3].
Definition is_e1000e_device (vendor device : Z) : bool :=
  if negb (vendor =? INTEL_PCI_VENDOR_ID) then false else existsb (fun d => device =? d) E1000E_DEVICE_IDS.

(** ** Descriptor rings (ring.rs) *)

Record RxDescriptor := { rd_buffer_addr : Z; rd_length : Z; rd_checksum : Z; rd_status : Z; rd_errors : Z; rd_special : Z }.
Record TxDescriptor := { td_buffer_addr : Z; td_length : Z; td_cso : Z; td_cmd : Z; td_status : Z; td_css : Z; td_special : Z }.
Definition rx_default : RxDescriptor := {| rd_buffer_addr := 0; rd_length := 0; rd_checksum := 0; rd_status := 0; rd_errors := 0; rd_special := 0 |}.
Definition tx_default : TxDescriptor := {| td_buffer_addr := 0; td_length := 0; td_cso := 0; td_cmd := 0; td_status := 0; td_css := 0; td_special := 0 |}.

Definition RX_STATUS_DD : Z := 0x01.
Definition RX_STATUS_EOP : Z := 0x02.
Definition TX_CMD_EOP : Z := 0x01.
Definition TX_CMD_IFCS : Z := 0x02.
Definition TX_CMD_RS : Z := 0x08.
Definition TX_STATUS_DD : Z := 0x01.

Record RxDescriptorRing := { rr_descriptors : list RxDescriptor; rr_count : Z; rr_head : Z; rr_tail : Z }.
Record TxDescriptorRing := { tr_descriptors : list TxDescriptor; tr_count : Z; tr_head : Z; tr_tail : Z; tr_tx_free : Z }.

(** [(i + 1) % count] in [u16]. *)
Definition next_index (i count : Z) : run Z := j ← add16 i 1; if count =? 0 then Panicked else Done (j mod count).

Definition rx_new (count : Z) : RxDescriptorRing :=
  let count := Z.max count 1 in {| rr_descriptors := replicate (Z.to_nat count) rx_default; rr_count := count; rr_head := 0; rr_tail := 0 |}.

Definition rx_is_full (r : RxDescriptorRing) : run bool := t ← next_index (rr_tail r) (rr_count r); Done (t =? rr_head r).

Definition post_buffer (buf_addr len : Z) (r : RxDescriptorRing) : run (option Z * RxDescriptorRing) :=
  next_tail ← next_index (rr_tail r) (rr_count r);
  full ← rx_is_full r;
  if (next_tail =? rr_head r) && full then Done (None, r) else
  let slot := Z.to_nat (rr_tail r) in
  d ← index_run (rr_descriptors r) slot;
  l ← store_run (rr_descriptors r) slot {| rd_buffer_addr := buf_addr; rd_length := len; rd_checksum := rd_checksum d; rd_status := 0; rd_errors := 0; rd_special := rd_special d |};
  Done (Some (rr_tail r), {| rr_descriptors := l; rr_count := rr_count r; rr_head := rr_head r; rr_tail := rr_tail r |}).

Definition advance_tail (r : RxDescriptorRing) : run RxDescriptorRing :=
  t ← next_index (rr_tail r) (rr_count r); Done {| rr_descriptors := rr_descriptors r; rr_count := rr_count r; rr_head := rr_head r; rr_tail := t |}.
Definition advance_head (r : RxDescriptorRing) : run RxDescriptorRing :=
  h ← next_index (rr_head r) (rr_count r); Done {| rr_descriptors := rr_descriptors r; rr_count := rr_count r; rr_head := h; rr_tail := rr_tail r |}.

Definition reap_rx (r : RxDescriptorRing) : run (option (Z * Z) * RxDescriptorRing) :=
  if rr_tail r =? rr_head r then Done (None, r) else
  let head_idx := Z.to_nat (rr_head r) in
  d ← index_run (rr_descriptors r) head_idx;
  let status := rd_status d in
  if (Z.land status RX_STATUS_DD =? 0) || (Z.land status RX_STATUS_EOP =? 0) then Done (None, r) else
  let length := rd_length d in
  let returned_idx := rr_head r in
  l ← store_run (rr_descriptors r) head_idx rx_default;
  r ← advance_head {| rr_descriptors := l; rr_count := rr_count r; rr_head := rr_head r; rr_tail := rr_tail r |};
  Done (Some (returned_idx, length), r).

Definition tx_new (count : Z) : TxDescriptorRing :=
  let count := Z.max count 1 in
  {| tr_descriptors := replicate (Z.to_nat count) tx_default; tr_count := count; tr_head := 0; tr_tail := 0; tr_tx_free := saturating_sub count 1 |}.

Definition tx_is_full (r : TxDescriptorRing) : bool := tr_tx_free r =? 0.

Definition submit_tx (buf_addr len : Z) (r : TxDescriptorRing) : run (option Z * TxDescriptorRing) :=
  if tx_is_full r then Done (None, r) else
  l ← store_run (tr_descriptors r) (Z.to_nat (tr_tail r))
        {| td_buffer_addr := buf_addr; td_length := len; td_cso := 0; td_cmd := Z.lor (Z.lor TX_CMD_EOP TX_CMD_IFCS) TX_CMD_RS; td_status := 0; td_css := 0; td_special := 0 |};
  let submitted_idx := tr_tail r in
  t ← next_index (tr_tail r) (tr_count r);
  n ← sub64 (tr_tx_free r) 1;
  Done (Some submitted_idx, {| tr_descriptors := l; tr_count := tr_count r; tr_head := tr_head r; tr_tail := t; tr_tx_free := n |}).

(** The walk from head to tail, up to the first descriptor that is not done. *)
Fixpoint reap_tx_loop (fuel : nat) (r : TxDescriptorRing) (reaped : Z) : run (Z * TxDescriptorRing) :=
  match fuel with
  | O => Panicked
  | S n =>
      if tr_head r =? tr_tail r then Done (reaped, r) else
      let head_idx := Z.to_nat (tr_head r) in
      d ← index_run (tr_descriptors r) head_idx;
      if Z.land (td_status d) TX_STATUS_DD =? 0 then Done (reaped, r) else
      l ← store_run (tr_descriptors r) head_idx tx_default;
      h ← next_index (tr_head r) (tr_count r);
      c ← sub64 (tr_count r) 1;
      let tx_free := Z.min (Z.min (tr_tx_free r + 1) 65535) c in
      reaped ← add16 reaped 1;
      reap_tx_loop n {| tr_descriptors := l; tr_count := tr_count r; tr_head := h; tr_tail := tr_tail r; tr_tx_free := tx_free |} reaped
  end.
(** At most [count - 1] descriptors are in flight, and one round finds none. *)
Definition reap_tx (r : TxDescriptorRing) : run (Z * TxDescriptorRing) := reap_tx_loop (Z.to_nat (tr_count r)) r 0.

(** ** The driver (driver.rs) *)

Inductive E1000eState := EsUninitialized | EsReset | EsConfigured | EsReady | EsError.
#[global] Instance E1000eState_eq_dec : EqDecision E1000eState.
Proof. solve_decision. Defined.

Inductive E1000eError := EeQueueFull | EeFrameTooLarge | EeNoBuffersAvailable | EeInvalidFrame | EeNotReady.

Definition MAX_FRAME_BYTES : Z := 1514.
Definition MIN_FRAME_BYTES : Z := 14.

Record E1000eDriver := {
  ed_state : E1000eState;
  ed_mac : list Z;
  ed_link_up : bool;
  ed_tx_ring : TxDescriptorRing;
  ed_rx_ring : RxDescriptorRing;
  ed_rx_buffers : list (list Z);
  ed_stats : DriverStats;
  ed_rx_buffer_size : Z;
  ed_next_rx_buf : Z;
}.

Definition ed_set (tx : TxDescriptorRing) (rx : RxDescriptorRing) (st : DriverStats) (next : Z) (d : E1000eDriver) : E1000eDriver :=
  {| ed_state := ed_state d; ed_mac := ed_mac d; ed_link_up := ed_link_up d; ed_tx_ring := tx; ed_rx_ring := rx; ed_rx_buffers := ed_rx_buffers d; ed_stats := st; ed_rx_buffer_size := ed_rx_buffer_size d; ed_next_rx_buf := next |}.

Definition e1000e_new (rx_ring_size tx_ring_size rx_buffer_size : Z) : E1000eDriver :=
  let rx_buffer_size := Z.max rx_buffer_size 1 in
  let rx_ring := rx_new rx_ring_size in
  {| ed_state := EsReady; ed_mac := replicate 6 0; ed_link_up := false; ed_tx_ring := tx_new tx_ring_size; ed_rx_ring := rx_ring;
     ed_rx_buffers := replicate (Z.to_nat (rr_count rx_ring)) (replicate (Z.to_nat rx_buffer_size) 0); ed_stats := stats_default; ed_rx_buffer_size := rx_buffer_size; ed_next_rx_buf := 0 |}.

Definition tx_failed (e : E1000eError) (d : E1000eDriver) : result E1000eError unit * E1000eDriver := (Err e, ed_set (ed_tx_ring d) (ed_rx_ring d) (stats_tx_error (ed_stats d)) (ed_next_rx_buf d) d).

(** [send_frame] and [send_frame_iova]: the same code with the address of the
    caller's slice or the one the request names. *)
Definition e1000e_send_frame (buf_addr : Z) (frame : list Z) (d : E1000eDriver) : run (result E1000eError unit * E1000eDriver) :=
  if negb (bool_decide (ed_state d = EsReady)) then Done (Err EeNotReady, d) else
  if Z.of_nat (length frame) <? MIN_FRAME_BYTES then Done (tx_failed EeInvalidFrame d) else
  if MAX_FRAME_BYTES <? Z.of_nat (length frame) then Done (tx_failed EeFrameTooLarge d) else
  if tx_is_full (ed_tx_ring d) then Done (tx_failed EeQueueFull d) else
  let len := Z.of_nat (length frame) mod 2 ^ 16 in
  '(r, tx) ← submit_tx buf_addr len (ed_tx_ring d);
  match r with
  | None => Done (Err EeQueueFull, ed_set tx (ed_rx_ring d) (ed_stats d) (ed_next_rx_buf d) d)
  | Some _ => Done (Ok (), ed_set tx (ed_rx_ring d) (stats_tx (Z.of_nat (length frame)) (ed_stats d)) (ed_next_rx_buf d) d)
  end.

Definition e1000e_handle_request (req : NetRequest) (d : E1000eDriver) : run (NetResponse * E1000eDriver) :=
  if negb (bool_decide (ed_state d = EsReady)) then Done (NetNotSupported, d) else
  match req with
  | SendFrame bytes_iova bytes_len =>
      let synthetic_frame := replicate (Z.to_nat bytes_len) 0 in
      '(r, d) ← e1000e_send_frame bytes_iova synthetic_frame d;
      Done (match r with
            | Ok _ => NetOk
            | Err EeFrameTooLarge => NetFrameTooLarge
            | Err EeQueueFull | Err EeInvalidFrame | Err EeNoBuffersAvailable => NetInvalidArgument
            | Err EeNotReady => NetNotSupported end, d)
  | GetLinkState => Done (if ed_link_up d then NetOk else NetLinkDown, d)
  | GetMac => Done (NetOk, d)
  | SetPromisc _ => Done (NetNotSupported, d)
  end.

Section Driver.
(** The heap address of the driver's buffer [i] ([rx_buffers[i].as_ptr()]). *)
Context (buf_ptr : Z -> Z).

Definition e1000e_poll_rx (d : E1000eDriver) : run (option (list Z) * E1000eDriver) :=
  if negb (bool_decide (ed_state d = EsReady)) then Done (None, d) else
  '(r, rx) ← reap_rx (ed_rx_ring d);
  match r with
  | None => Done (None, ed_set (ed_tx_ring d) rx (ed_stats d) (ed_next_rx_buf d) d)
  | Some (_, bytes_received) =>
      let copy_len := Z.min bytes_received (ed_rx_buffer_size d) in
      if (length (ed_rx_buffers d) =? 0)%nat then Panicked else
      let buf_idx := ed_next_rx_buf d mod Z.of_nat (length (ed_rx_buffers d)) in
      buf ← index_run (ed_rx_buffers d) (Z.to_nat buf_idx);
      match slice_get buf 0 copy_len with
      | None => Panicked
      | Some frame =>
          let stats := stats_rx copy_len (ed_stats d) in
          let iova := buf_ptr buf_idx in
          '(slot, rx) ← post_buffer iova (ed_rx_buffer_size d mod 2 ^ 16) rx;
          rx ← (match slot with Some _ => advance_tail rx | None => Done rx end);
          Done (Some frame, ed_set (ed_tx_ring d) rx stats (wrap64 (ed_next_rx_buf d + 1)) d)
      end
  end.

Definition e1000e_poll_tx_completions (d : E1000eDriver) : run (Z * E1000eDriver) :=
  '(n, tx) ← reap_tx (ed_tx_ring d); Done (n, ed_set tx (ed_rx_ring d) (ed_stats d) (ed_next_rx_buf d) d).
End Driver.

(** ** The controller's side *)

(** How many descriptors lie between head and tail, and the [k]-th of them. *)
Definition ring_used (head tail count : Z) : Z := (tail - head) mod count.
Definition hw_slot (k : nat) (head count : Z) : nat := Z.to_nat ((head + Z.of_nat k) mod count).

Definition hw_tx_read (k : nat) (r : TxDescriptorRing) : option TxDescriptor :=
  if Z.of_nat k <? ring_used (tr_head r) (tr_tail r) (tr_count r) then tr_descriptors r !! hw_slot k (tr_head r) (tr_count r) else None.
Definition hw_rx_read (k : nat) (r : RxDescriptorRing) : option RxDescriptor :=
  if Z.of_nat k <? ring_used (rr_head r) (rr_tail r) (rr_count r) then rr_descriptors r !! hw_slot k (rr_head r) (rr_count r) else None.

(** The write-back of a sent frame sets [DD]; that of a received frame
    everything but the address. *)
Definition tx_done (d : TxDescriptor) : TxDescriptor :=
  {| td_buffer_addr := td_buffer_addr d; td_length := td_length d; td_cso := td_cso d; td_cmd := td_cmd d; td_status := Z.lor (td_status d) TX_STATUS_DD; td_css := td_css d; td_special := td_special d |}.
Definition rx_filled (len checksum status errors special : Z) (d : RxDescriptor) : RxDescriptor :=
  {| rd_buffer_addr := rd_buffer_addr d; rd_length := len; rd_checksum := checksum; rd_status := status; rd_errors := errors; rd_special := special |}.
Definition hw_tx_done (k : nat) (r : TxDescriptorRing) : TxDescriptorRing :=
  if Z.of_nat k <? ring_used (tr_head r) (tr_tail r) (tr_count r) then
    {| tr_descriptors := alter tx_done (hw_slot k (tr_head r) (tr_count r)) (tr_descriptors r); tr_count := tr_count r; tr_head := tr_head r; tr_tail := tr_tail r; tr_tx_free := tr_tx_free r |} else r.
Definition hw_rx_fill (k : nat) (len checksum status errors special : Z) (r : RxDescriptorRing) : RxDescriptorRing :=
  if Z.of_nat k <? ring_used (rr_head r) (rr_tail r) (rr_count r) then
    {| rr_descriptors := alter (rx_filled len checksum status errors special) (hw_slot k (rr_head r) (rr_count r)) (rr_descriptors r); rr_count := rr_count r; rr_head := rr_head r; rr_tail := rr_tail r |} else r.

(** ** Rings as queues *)

(** A frame in flight: its address, its length, and whether it has been sent. *)
Definition TxEntry : Type := Z * Z * bool.
Definition tx_entry_desc (e : TxEntry) : TxDescriptor :=
  let '(addr, len, dn) := e in {| td_buffer_addr := addr; td_length := len; td_cso := 0; td_cmd := 0x0B; td_status := Z.b2z dn; td_css := 0; td_special := 0 |}.
Definition rx_posted (addr len : Z) : RxDescriptor := {| rd_buffer_addr := addr; rd_length := len; rd_checksum := 0; rd_status := 0; rd_errors := 0; rd_special := 0 |}.
Definition rx_complete (d : RxDescriptor) : bool := Z.testbit (rd_status d) 0 && Z.testbit (rd_status d) 1.

Record tx_rel (n : Z) (r : TxDescriptorRing) (h : Z) (l : list TxEntry) : Prop := {
  tx_n : 0 < n <= 4096;
  tx_count : tr_count r = n;
  tx_len : length (tr_descriptors r) = Z.to_nat n;
  tx_room : Z.of_nat (length l) < n;
  tx_head : tr_head r = h mod n;
  tx_tail : tr_tail r = (h + Z.of_nat (length l)) mod n;
  tx_free_ok : tr_tx_free r = n - 1 - Z.of_nat (length l);
  tx_at : forall i e, l !! i = Some e -> tr_descriptors r !! Z.to_nat ((h + Z.of_nat i) mod n) = Some (tx_entry_desc e);
}.

Record rx_rel (n : Z) (r : RxDescriptorRing) (h : Z) (l : list RxDescriptor) : Prop := {
  rx_n : 0 < n <= 4096;
  rx_count : rr_count r = n;
  rx_len : length (rr_descriptors r) = Z.to_nat n;
  rx_room : Z.of_nat (length l) < n;
  rx_head : rr_head r = h mod n;
  rx_tail : rr_tail r = (h + Z.of_nat (length l)) mod n;
  rx_at : forall i d, l !! i = Some d -> rr_descriptors r !! Z.to_nat ((h + Z.of_nat i) mod n) = Some d;
  rx_idle : forall j, Z.of_nat (length l) <= j < n -> rr_descriptors r !! Z.to_nat ((h + j) mod n) = Some rx_default;
}.

Lemma next_index_done n k : 0 < n <= 4096 -> next_index (k mod n) n = Done ((k + 1) mod n).
Proof.
  intros Hn. pose proof (Z.mod_pos_bound k n ltac:(lia)). unfold next_index, add16. rewrite (proj2 (Z.ltb_lt _ _)) by lia. cbn [mbind run_bind].
  rewrite (proj2 (Z.eqb_neq n 0)) by lia. by rewrite Z.add_mod_idemp_l by lia.
Qed.

Lemma mod_eqb n a b : 0 < n -> a <= b < a + n -> (b mod n =? a mod n) = (a =? b).
Proof.
  intros Hn Hab. destruct (Z.eqb_spec a b) as [->|Hne]; [apply Z.eqb_refl|]. apply Z.eqb_neq. intros E. by apply (mod_distinct n a b); [lia|lia|].
Qed.

Lemma ring_used_len n h k : 0 < n -> 0 <= k < n -> ring_used (h mod n) ((h + k) mod n) n = k.
Proof. intros Hn Hk. unfold ring_used. rewrite <- Zminus_mod. rewrite Z.mod_small by lia. lia. Qed.

Lemma hw_slot_eq n h k : 0 < n -> hw_slot k (h mod n) n = Z.to_nat ((h + Z.of_nat k) mod n).
Proof. intros Hn. unfold hw_slot. by rewrite Z.add_mod_idemp_l by lia. Qed.

Lemma tx_new_rel n : 0 < n <= 4096 -> tx_rel n (tx_new n) 0 [].
Proof.
  intros Hn. unfold tx_new. rewrite Z.max_l by lia. split; cbn; try done; try lia. - by rewrite length_replicate. - unfold saturating_sub. lia.
Qed.
Lemma rx_new_rel n : 0 < n <= 4096 -> rx_rel n (rx_new n) 0 [].
Proof.
  intros Hn. unfold rx_new. rewrite Z.max_l by lia. split; cbn; try done; try lia. - by rewrite length_replicate. - intros j Hj. rewrite Z.mod_small by lia. apply lookup_replicate_2. lia.
Qed.

Lemma alter_oob {A} (f : A -> A) k (l : list A) : (length l <= k)%nat -> alter f k l = l.
Proof. revert k. induction l as [|x l IH]; intros [|k] H; cbn in *; try done; [lia|]. f_equal. apply IH. lia. Qed.

Lemma land_bit_eqb x k : 0 <= k -> (Z.land x (2 ^ k) =? 0) = negb (Z.testbit x k).
Proof.
  intros Hk. destruct (Z.testbit x k) eqn:E; cbn.
  - apply Z.eqb_neq. intros H. apply (f_equal (fun y => Z.testbit y k)) in H. rewrite Z.land_spec, E, Z.pow2_bits_true, Z.testbit_0_l in H by done. done.
  - apply Z.eqb_eq. apply Z.bits_inj'. intros j Hj. rewrite Z.land_spec, Z.testbit_0_l, Z.pow2_bits_eqb by done. destruct (Z.eqb_spec k j) as [<-|]; [by rewrite E|apply andb_false_r].
Qed.

Section Rings.
Context (n : Z).

Lemma tx_full_spec r h l : tx_rel n r h l -> tx_is_full r = (Z.of_nat (length l) =? n - 1).
Proof. intros R. unfold tx_is_full. rewrite (tx_free_ok _ _ _ _ R). destruct (Z.eqb_spec (Z.of_nat (length l)) (n - 1)); [apply Z.eqb_eq; lia|apply Z.eqb_neq; lia]. Qed.

Lemma submit_tx_spec addr len r h l : tx_rel n r h l -> Z.of_nat (length l) <> n - 1 ->
  exists i r', submit_tx addr len r = Done (Some i, r') /\ tx_rel n r' h (l ++ [(addr, len, false)]).
Proof.
  intros R Hroom. pose proof R as [Hn Rc Rl Rr Rh Rt Rf Ra]. unfold submit_tx. rewrite (tx_full_spec _ _ _ R), (proj2 (Z.eqb_neq _ _)) by done.
  rewrite Rt. pose proof (ring_slot n (h + Z.of_nat (length l)) ltac:(lia)) as [_ Hp]. rewrite store_done by lia. cbn [mbind run_bind]. rewrite Rc, next_index_done by done. cbn [mbind run_bind].
  unfold sub64. rewrite (proj2 (Z.leb_le 1 _)) by lia. cbn [mbind run_bind]. eexists _, _. split; [reflexivity|].
  split; cbn [tr_descriptors tr_count tr_head tr_tail tr_tx_free]; rewrite ?length_insert, ?length_app; cbn [length]; try done; try lia.
  - f_equal. lia.
  - intros i e He. apply lookup_app_Some in He as [He|[Hi He]].
    + pose proof (lookup_lt_Some _ _ _ He). rewrite list_lookup_insert_ne; [by apply Ra|]. apply not_eq_sym, slot_ne; lia.
    + destruct (i - length l)%nat eqn:Ei; [|done]. cbn in He. injection He as <-. replace i with (length l) by lia. apply list_lookup_insert_eq. lia.
Qed.

(** The frames sent at the front of the queue, and what is behind them. *)
Fixpoint sent_prefix (l : list TxEntry) : Z * list TxEntry :=
  match l with (_, true) :: l' => let '(k, rest) := sent_prefix l' in (k + 1, rest) | _ => (0, l) end.

Lemma reap_tx_spec fuel : forall r h l c, tx_rel n r h l -> (length l < fuel)%nat -> 0 <= c -> c + Z.of_nat (length l) < 2 ^ 16 ->
  exists r' h', reap_tx_loop fuel r c = Done (c + fst (sent_prefix l), r') /\ tx_rel n r' h' (snd (sent_prefix l)).
Proof.
  induction fuel as [|fuel IH]; intros r h l c R Hf Hc Hb; [lia|]. pose proof R as [Hn Rc Rl Rr Rh Rt Rf Ra]. cbn [reap_tx_loop]. rewrite Rh, Rt, Z.eqb_sym, mod_eqb by lia.
  destruct l as [|[[a ln] dn] l]; cbn [length] in *; [rewrite Z.add_0_r, Z.eqb_refl; exists r, h; split; [cbn; by rewrite Z.add_0_r|done]|].
  rewrite (proj2 (Z.eqb_neq h _)) by lia. pose proof (Ra 0%nat _ eq_refl) as H0. rewrite Z.add_0_r in H0. rewrite (index_done _ _ _ H0). cbn [mbind run_bind tx_entry_desc td_status].
  destruct dn; cbn [Z.b2z sent_prefix]; [|exists r, h; split; [cbn; by rewrite Z.add_0_r|done]]. change (Z.land 1 TX_STATUS_DD =? 0) with false. cbn iota.
  pose proof (ring_slot n h ltac:(lia)) as [_ Hp]. rewrite store_done by lia. cbn [mbind run_bind]. rewrite Rc, next_index_done by done. cbn [mbind run_bind]. unfold sub64. rewrite (proj2 (Z.leb_le 1 n)) by lia. cbn [mbind run_bind].
  unfold add16. rewrite (proj2 (Z.ltb_lt _ _)) by lia. cbn [mbind run_bind].
  match goal with |- context [reap_tx_loop fuel ?r1 _] => assert (tx_rel n r1 (h + 1) l) as R1 end.
  { split; cbn [tr_descriptors tr_count tr_head tr_tail tr_tx_free]; rewrite ?length_insert; try done; try lia.
    - f_equal. lia.
    - intros i e He. pose proof (lookup_lt_Some _ _ _ He). rewrite list_lookup_insert_ne by (apply slot_ne; lia). specialize (Ra (S i) e He). by replace (h + 1 + Z.of_nat i) with (h + Z.of_nat (S i)) by lia. }
  destruct (IH _ _ _ (c + 1) R1) as (r' & h' & E & R'); [lia|lia|lia|]. exists r', h'. destruct (sent_prefix l) as [k rest]. cbn [fst snd] in *. split; [|done]. rewrite E. do 2 f_equal. lia.
Qed.

Lemma hw_tx_done_spec k r h l : tx_rel n r h l -> tx_rel n (hw_tx_done k r) h (alter (fun e => (e.1, true)) k l).
Proof.
  intros R. pose proof R as [Hn Rc Rl Rr Rh Rt Rf Ra]. unfold hw_tx_done. rewrite Rc, Rh, Rt, ring_used_len, hw_slot_eq by lia. destruct (Z.ltb_spec (Z.of_nat k) (Z.of_nat (length l))) as [Hk|Hk].
  - split; cbn [tr_descriptors tr_count tr_head tr_tail tr_tx_free]; rewrite ?length_alter; try done.
    intros i e He. destruct (decide (i = k)) as [->|Hne].
    + rewrite list_lookup_alter_eq in He. destruct (l !! k) as [[[a ln] dn]|] eqn:Ek; [|done]. injection He as <-. rewrite list_lookup_alter_eq, (Ra _ _ Ek). cbn. unfold tx_done. cbn. by destruct dn.
    + rewrite list_lookup_alter_ne in He by done. pose proof (lookup_lt_Some _ _ _ He). rewrite list_lookup_alter_ne; [by apply Ra|].
      destruct (Nat.lt_ge_cases k i); [apply slot_ne; lia|apply not_eq_sym, slot_ne; lia].
  - by rewrite (alter_oob (A := TxEntry)) by lia.
Qed.

(** The oldest descriptor, as the controller sees it. *)
Lemma hw_tx_read_spec k r h l : tx_rel n r h l -> hw_tx_read k r = tx_entry_desc <$> l !! k.
Proof.
  intros R. pose proof R as [Hn Rc Rl Rr Rh Rt Rf Ra]. unfold hw_tx_read. rewrite Rc, Rh, Rt, ring_used_len, hw_slot_eq by lia. destruct (Z.ltb_spec (Z.of_nat k) (Z.of_nat (length l))) as [Hk|Hk].
  - destruct (lookup_lt_is_Some_2 l k) as [e He]; [lia|]. by rewrite (Ra _ _ He), He.
  - by rewrite lookup_ge_None_2 by lia.
Qed.

Lemma hw_rx_read_spec k r h l : rx_rel n r h l -> hw_rx_read k r = l !! k.
Proof.
  intros R. pose proof R as [Hn Rc Rl Rr Rh Rt Ra Ri]. unfold hw_rx_read. rewrite Rc, Rh, Rt, ring_used_len, hw_slot_eq by lia. destruct (Z.ltb_spec (Z.of_nat k) (Z.of_nat (length l))) as [Hk|Hk].
  - destruct (lookup_lt_is_Some_2 l k) as [e He]; [lia|]. by rewrite (Ra _ _ He), He.
  - by rewrite lookup_ge_None_2 by lia.
Qed.

Lemma hw_rx_fill_spec k len ck st er sp r h l : rx_rel n r h l -> rx_rel n (hw_rx_fill k len ck st er sp r) h (alter (rx_filled len ck st er sp) k l).
Proof.
  intros R. pose proof R as [Hn Rc Rl Rr Rh Rt Ra Ri]. unfold hw_rx_fill. rewrite Rc, Rh, Rt, ring_used_len, hw_slot_eq by lia. destruct (Z.ltb_spec (Z.of_nat k) (Z.of_nat (length l))) as [Hk|Hk].
  - split; cbn [rr_descriptors rr_count rr_head rr_tail]; rewrite ?length_alter; try done.
    + intros i e He. destruct (decide (i = k)) as [->|Hne].
      * rewrite list_lookup_alter_eq in He |- *. destruct (l !! k) as [d|] eqn:Ek; [|done]. injection He as <-. by rewrite (Ra _ _ Ek).
      * rewrite list_lookup_alter_ne in He by done. pose proof (lookup_lt_Some _ _ _ He). rewrite list_lookup_alter_ne; [by apply Ra|].
        destruct (Nat.lt_ge_cases k i); [apply slot_ne; lia|apply not_eq_sym, slot_ne; lia].
    + intros j Hj. rewrite list_lookup_alter_ne by (apply slot_ne; lia). by apply Ri.
  - by rewrite alter_oob by lia.
Qed.

(** Posting a buffer and moving the tail. *)
Definition post_advance (addr len : Z) (r : RxDescriptorRing) : run (option Z * RxDescriptorRing) :=
  '(slot, r) ← post_buffer addr len r; r ← (match slot with Some _ => advance_tail r | None => Done r end); Done (slot, r).
Definition post_spec (addr len : Z) (l : list RxDescriptor) : list RxDescriptor := if Z.of_nat (length l) =? n - 1 then l else l ++ [rx_posted addr len].

Lemma post_advance_spec addr len r h l : rx_rel n r h l ->
  exists o r', post_advance addr len r = Done (o, r') /\ (bool_decide (is_Some o) = negb (Z.of_nat (length l) =? n - 1)) /\ rx_rel n r' h (post_spec addr len l).
Proof.
  intros R. pose proof R as [Hn Rc Rl Rr Rh Rt Ra Ri]. unfold post_advance, post_buffer, rx_is_full, post_spec. rewrite Rc, Rt, next_index_done by done. cbn [mbind run_bind]. rewrite Rh.
  replace (_ =? h mod n) with (Z.of_nat (length l) =? n - 1).
  2:{ destruct (Z.eqb_spec (Z.of_nat (length l)) (n - 1)) as [E|E].
      - symmetry. apply Z.eqb_eq. replace (h + Z.of_nat (length l) + 1) with (h + 1 * n) by lia. apply Z_mod_plus_full.
      - symmetry. rewrite mod_eqb by lia. apply Z.eqb_neq. lia. }
  rewrite andb_diag. destruct (Z.eqb_spec (Z.of_nat (length l)) (n - 1)) as [E|E]; [eexists _, _; split; [reflexivity|by split]|].
  pose proof (Ri (Z.of_nat (length l)) ltac:(lia)) as Hd. rewrite (index_done _ _ _ Hd). cbn [mbind run_bind]. pose proof (ring_slot n (h + Z.of_nat (length l)) ltac:(lia)) as [_ Hp]. rewrite store_done by lia. cbn [mbind run_bind].
  unfold advance_tail. cbn [rr_tail rr_count rr_descriptors rr_head]. rewrite next_index_done by done. cbn [mbind run_bind]. eexists _, _. split; [reflexivity|split; [done|]].
  split; cbn [rr_descriptors rr_count rr_head rr_tail]; rewrite ?length_insert, ?length_app; cbn [length]; try done; try lia.
  - f_equal. lia.
  - intros i e He. apply lookup_app_Some in He as [He|[Hi He]].
    + pose proof (lookup_lt_Some _ _ _ He). rewrite list_lookup_insert_ne; [by apply Ra|]. apply not_eq_sym, slot_ne; lia.
    + destruct (i - length l)%nat eqn:Ei; [|done]. cbn in He. injection He as <-. replace i with (length l) by lia. apply list_lookup_insert_eq. lia.
  - intros j Hj. rewrite list_lookup_insert_ne by (apply slot_ne; lia). apply Ri. lia.
Qed.

Definition reap_spec (l : list RxDescriptor) : option Z * list RxDescriptor :=
  match l with d :: l' => if rx_complete d then (Some (rd_length d), l') else (None, l) | [] => (None, l) end.

Lemma rx_complete_land d : (Z.land (rd_status d) RX_STATUS_DD =? 0) || (Z.land (rd_status d) RX_STATUS_EOP =? 0) = negb (rx_complete d).
Proof.
  unfold rx_complete. change RX_STATUS_DD with (2 ^ 0). change RX_STATUS_EOP with (2 ^ 1). rewrite (land_bit_eqb _ 0), (land_bit_eqb _ 1) by done. by destruct (Z.testbit _ 0), (Z.testbit _ 1).
Qed.

Lemma reap_rx_spec r h l : rx_rel n r h l ->
  exists o r' h', reap_rx r = Done (o, r') /\ snd <$> o = fst (reap_spec l) /\ rx_rel n r' h' (snd (reap_spec l)).
Proof.
  intros R. pose proof R as [Hn Rc Rl Rr Rh Rt Ra Ri]. unfold reap_rx. rewrite Rh, Rt, mod_eqb by lia. destruct l as [|d l]; cbn [length] in *.
  { rewrite Z.add_0_r, Z.eqb_refl. by eexists _, _, h. }
  rewrite (proj2 (Z.eqb_neq h _)) by lia. pose proof (Ra 0%nat _ eq_refl) as H0. rewrite Z.add_0_r in H0. rewrite (index_done _ _ _ H0). cbn [mbind run_bind reap_spec]. rewrite rx_complete_land.
  destruct (rx_complete d); cbn [negb]; [|by eexists _, _, h]. pose proof (ring_slot n h ltac:(lia)) as [_ Hp]. rewrite store_done by lia. cbn [mbind run_bind]. unfold advance_head. cbn [rr_head rr_count rr_descriptors rr_tail].
  rewrite Rc, next_index_done by done. cbn [mbind run_bind]. eexists _, _, (h + 1). split; [reflexivity|split; [done|]].
  split; cbn [snd rr_descriptors rr_count rr_head rr_tail]; rewrite ?length_insert; try done; try lia.
  - f_equal. lia.
  - intros i e He. pose proof (lookup_lt_Some _ _ _ He). rewrite list_lookup_insert_ne by (apply slot_ne; lia). specialize (Ra (S i) e He). by replace (h + 1 + Z.of_nat i) with (h + Z.of_nat (S i)) by lia.
  - intros j Hj. destruct (decide (j = n - 1)) as [->|Hne].
    + replace (h + 1 + (n - 1)) with (h + 1 * n) by lia. rewrite Z_mod_plus_full. apply list_lookup_insert_eq. lia.
    + rewrite list_lookup_insert_ne by (apply slot_ne; lia). specialize (Ri (j + 1) ltac:(lia)). by replace (h + 1 + j) with (h + (j + 1)) by lia.
Qed.
End Rings.

(** ** The driver with its controller *)

Inductive EdOp :=
| EdRequest (req : NetRequest)
| EdSend (addr : Z) (frame : list Z)
| EdPollRx
| EdPollTx
| EdPost (addr len : Z)
| EdLink (up : bool)
| EdBring (state : E1000eState)
| EdTxRead (k : nat)
| EdTxDone (k : nat)
| EdRxRead (k : nat)
| EdRxFill (k : nat) (len checksum status errors special : Z)
| EdDma (i : nat) (bytes : list Z).

Inductive EdAnswer :=
| EdResponse (r : NetResponse) | EdSent (r : result E1000eError unit) | EdFrame (f : option (list Z)) | EdCount (n : Z) | EdPosted (ok : bool)
| EdTxDesc (d : option TxDescriptor) | EdRxDesc (d : option RxDescriptor) | EdNone.

(** A DMA write of [bytes] at the start of a buffer. *)
Definition dma_write (bytes buf : list Z) : list Z := take (length buf) (bytes ++ drop (length bytes) buf).

Definition ed_outside (state : E1000eState) (link : bool) (bufs : list (list Z)) (d : E1000eDriver) : E1000eDriver :=
  {| ed_state := state; ed_mac := ed_mac d; ed_link_up := link; ed_tx_ring := ed_tx_ring d; ed_rx_ring := ed_rx_ring d; ed_rx_buffers := bufs;
     ed_stats := ed_stats d; ed_rx_buffer_size := ed_rx_buffer_size d; ed_next_rx_buf := ed_next_rx_buf d |}.

(** *** What the driver promises: a queue of frames to send and one of buffers
    to receive into *)

Record EdSpec := { es_state : E1000eState; es_link : bool; es_tx : list TxEntry; es_rx : list RxDescriptor; es_bufs : list (list Z); es_polled : Z; es_stats : DriverStats }.

Definition es_set (tx : list TxEntry) (rx : list RxDescriptor) (polled : Z) (st : DriverStats) (s : EdSpec) : EdSpec :=
  {| es_state := es_state s; es_link := es_link s; es_tx := tx; es_rx := rx; es_bufs := es_bufs s; es_polled := polled; es_stats := st |}.

Section Spec.
Context (buf_ptr : Z -> Z) (nt nr size : Z).

Definition ed_step (op : EdOp) (d : E1000eDriver) : run (EdAnswer * E1000eDriver) :=
  match op with
  | EdRequest req => '(r, d) ← e1000e_handle_request req d; Done (EdResponse r, d)
  | EdSend addr frame => '(r, d) ← e1000e_send_frame addr frame d; Done (EdSent r, d)
  | EdPollRx => '(f, d) ← e1000e_poll_rx buf_ptr d; Done (EdFrame f, d)
  | EdPollTx => '(n, d) ← e1000e_poll_tx_completions d; Done (EdCount n, d)
  | EdPost addr len => '(slot, rx) ← post_advance addr len (ed_rx_ring d); Done (EdPosted (bool_decide (is_Some slot)), ed_set (ed_tx_ring d) rx (ed_stats d) (ed_next_rx_buf d) d)
  | EdLink up => Done (EdNone, ed_outside (ed_state d) up (ed_rx_buffers d) d)
  | EdBring state => Done (EdNone, ed_outside state (ed_link_up d) (ed_rx_buffers d) d)
  | EdTxRead k => Done (EdTxDesc (hw_tx_read k (ed_tx_ring d)), d)
  | EdTxDone k => Done (EdNone, ed_set (hw_tx_done k (ed_tx_ring d)) (ed_rx_ring d) (ed_stats d) (ed_next_rx_buf d) d)
  | EdRxRead k => Done (EdRxDesc (hw_rx_read k (ed_rx_ring d)), d)
  | EdRxFill k len ck st er sp => Done (EdNone, ed_set (ed_tx_ring d) (hw_rx_fill k len ck st er sp (ed_rx_ring d)) (ed_stats d) (ed_next_rx_buf d) d)
  | EdDma i bytes => Done (EdNone, ed_outside (ed_state d) (ed_link_up d) (alter (dma_write bytes) i (ed_rx_buffers d)) d)
  end.

Fixpoint ed_run (ops : list EdOp) (d : E1000eDriver) : run (list EdAnswer * E1000eDriver) :=
  match ops with [] => Done ([], d) | op :: ops => '(a, d) ← ed_step op d; '(l, d) ← ed_run ops d; Done (a :: l, d) end.

Definition es_ready (s : EdSpec) : bool := bool_decide (es_state s = EsReady).

Definition es_send (addr len : Z) (s : EdSpec) : result E1000eError unit * EdSpec :=
  let failed e := (Err e, es_set (es_tx s) (es_rx s) (es_polled s) (stats_tx_error (es_stats s)) s) in
  if negb (es_ready s) then (Err EeNotReady, s) else
  if len <? MIN_FRAME_BYTES then failed EeInvalidFrame else
  if MAX_FRAME_BYTES <? len then failed EeFrameTooLarge else
  if Z.of_nat (length (es_tx s)) =? nt - 1 then failed EeQueueFull else
  (Ok (), es_set (es_tx s ++ [(addr, len, false)]) (es_rx s) (es_polled s) (stats_tx len (es_stats s)) s).

Definition es_request (req : NetRequest) (s : EdSpec) : NetResponse * EdSpec :=
  if negb (es_ready s) then (NetNotSupported, s) else
  match req with
  | SendFrame iova len => let '(r, s) := es_send iova len s in (match r with Ok _ => NetOk | Err EeFrameTooLarge => NetFrameTooLarge | Err _ => NetInvalidArgument end, s)
  | GetLinkState => (if es_link s then NetOk else NetLinkDown, s)
  | GetMac => (NetOk, s)
  | SetPromisc _ => (NetNotSupported, s)
  end.

(** The frame is read from the buffers in turn, one more at each poll, and the
    buffer it was read from goes to the back of the queue. *)
Definition es_poll_rx (s : EdSpec) : option (list Z) * EdSpec :=
  if negb (es_ready s) then (None, s) else
  match reap_spec (es_rx s) with
  | (None, _) => (None, s)
  | (Some len, rest) =>
      let i := es_polled s mod nr in
      let k := Z.min len size in
      (Some (take (Z.to_nat k) (default [] (es_bufs s !! Z.to_nat i))), es_set (es_tx s) (rest ++ [rx_posted (buf_ptr i) (size mod 2 ^ 16)]) (es_polled s + 1) (stats_rx k (es_stats s)) s)
  end.

Definition ed_spec (op : EdOp) (s : EdSpec) : EdAnswer * EdSpec :=
  match op with
  | EdRequest req => let '(r, s) := es_request req s in (EdResponse r, s)
  | EdSend addr frame => let '(r, s) := es_send addr (Z.of_nat (length frame)) s in (EdSent r, s)
  | EdPollRx => let '(f, s) := es_poll_rx s in (EdFrame f, s)
  | EdPollTx => let '(k, rest) := sent_prefix (es_tx s) in (EdCount k, es_set rest (es_rx s) (es_polled s) (es_stats s) s)
  | EdPost addr len => (EdPosted (negb (Z.of_nat (length (es_rx s)) =? nr - 1)), es_set (es_tx s) (post_spec nr addr len (es_rx s)) (es_polled s) (es_stats s) s)
  | EdLink up => (EdNone, {| es_state := es_state s; es_link := up; es_tx := es_tx s; es_rx := es_rx s; es_bufs := es_bufs s; es_polled := es_polled s; es_stats := es_stats s |})
  | EdBring state => (EdNone, {| es_state := state; es_link := es_link s; es_tx := es_tx s; es_rx := es_rx s; es_bufs := es_bufs s; es_polled := es_polled s; es_stats := es_stats s |})
  | EdTxRead k => (EdTxDesc (tx_entry_desc <$> es_tx s !! k), s)
  | EdTxDone k => (EdNone, es_set (alter (fun e => (e.1, true)) k (es_tx s)) (es_rx s) (es_polled s) (es_stats s) s)
  | EdRxRead k => (EdRxDesc (es_rx s !! k), s)
  | EdRxFill k len ck st er sp => (EdNone, es_set (es_tx s) (alter (rx_filled len ck st er sp) k (es_rx s)) (es_polled s) (es_stats s) s)
  | EdDma i bytes => (EdNone, {| es_state := es_state s; es_link := es_link s; es_tx := es_tx s; es_rx := es_rx s; es_bufs := alter (dma_write bytes) i (es_bufs s); es_polled := es_polled s; es_stats := es_stats s |})
  end.

Fixpoint ed_spec_run (ops : list EdOp) (s : EdSpec) : list EdAnswer * EdSpec :=
  match ops with [] => ([], s) | op :: ops => let '(a, s) := ed_spec op s in let '(l, s) := ed_spec_run ops s in (a :: l, s) end.

(** Lengths are 16 bits wide. *)
Definition ed_op_ok (op : EdOp) : Prop :=
  match op with EdRequest (SendFrame _ len) => is_u16 len | EdPost _ len => is_u16 len | EdRxFill _ len _ _ _ _ => is_u16 len | _ => True end.

Record ed_rel (d : E1000eDriver) (s : EdSpec) : Prop := {
  er_state : ed_state d = es_state s;
  er_link : ed_link_up d = es_link s;
  er_tx : exists h, tx_rel nt (ed_tx_ring d) h (es_tx s);
  er_rx : exists h, rx_rel nr (ed_rx_ring d) h (es_rx s);
  er_bufs : ed_rx_buffers d = es_bufs s;
  er_lens : length (es_bufs s) = Z.to_nat nr /\ Forall (fun b => length b = Z.to_nat size) (es_bufs s);
  er_size : 0 < size /\ ed_rx_buffer_size d = size;
  er_next : (nr | 2 ^ 64) /\ ed_next_rx_buf d = es_polled s mod 2 ^ 64;
  er_stats : ed_stats d = es_stats s;
  er_rxlen : Forall (fun r => 0 <= rd_length r) (es_rx s);
}.
End Spec.

Section Steps.
Context (buf_ptr : Z -> Z) (nt nr size : Z).
Notation rel := (ed_rel nt nr size).

Ltac ed_split := split; cbn; first [done | by eexists | idtac].

Lemma es_send_ok addr frame d s : rel d s ->
  exists d', e1000e_send_frame addr frame d = Done (fst (es_send nt addr (Z.of_nat (length frame)) s), d') /\ rel d' (snd (es_send nt addr (Z.of_nat (length frame)) s)).
Proof.
  intros R. pose proof R as [Rs Rl [h Rt] [g Rr] Rb Rn Rz Rx Rc Ri]. unfold e1000e_send_frame, es_send, es_ready. rewrite Rs. destruct (negb _); [by exists d|]. set (l := Z.of_nat (length frame)).
  destruct (Z.ltb_spec l MIN_FRAME_BYTES); [eexists; split; [reflexivity|]; ed_split; by rewrite Rc|]. destruct (Z.ltb_spec MAX_FRAME_BYTES l) as [|Hl]; [eexists; split; [reflexivity|]; ed_split; by rewrite Rc|].
  rewrite (tx_full_spec nt _ _ _ Rt). destruct (Z.eqb_spec (Z.of_nat (length (es_tx s))) (nt - 1)) as [|Hne]; [eexists; split; [reflexivity|]; ed_split; by rewrite Rc|].
  rewrite (Z.mod_small l) by (unfold MAX_FRAME_BYTES in Hl; lia). destruct (submit_tx_spec nt addr l _ _ _ Rt Hne) as (i & r' & E & R'). rewrite E. cbn [mbind run_bind]. eexists. split; [reflexivity|]. ed_split. by rewrite Rc.
Qed.

Lemma es_request_ok req d s : rel d s -> ed_op_ok (EdRequest req) ->
  exists d', e1000e_handle_request req d = Done (fst (es_request nt req s), d') /\ rel d' (snd (es_request nt req s)).
Proof.
  intros R Hok. unfold e1000e_handle_request, es_request, es_ready. rewrite (er_state _ _ _ _ _ R). destruct (negb (bool_decide (es_state s = EsReady))) eqn:Er; [by exists d|].
  destruct req as [iova len| | |on]; try (by exists d); [|rewrite (er_link _ _ _ _ _ R); by exists d].
  destruct (es_send_ok iova (replicate (Z.to_nat len) 0) d s R) as (d' & E & R'). rewrite length_replicate, Z2Nat.id in E, R' by (cbn in Hok; unfold is_u16 in Hok; lia). rewrite E. cbn [mbind run_bind].
  exists d'. unfold es_send, es_ready in *. rewrite Er in *. destruct (_ <? _); [by split|]. destruct (_ <? _); [by split|]. destruct (_ =? _); by split.
Qed.

Lemma ed_bounds d s : rel d s -> 0 < nt <= 4096 /\ 0 < nr <= 4096.
Proof. intros R. destruct (er_tx _ _ _ _ _ R) as [h Rt]. destruct (er_rx _ _ _ _ _ R) as [g Rr]. split; [by apply Rt|by apply Rr]. Qed.

Lemma es_poll_rx_ok d s : rel d s -> exists d', e1000e_poll_rx buf_ptr d = Done (fst (es_poll_rx buf_ptr nr size s), d') /\ rel d' (snd (es_poll_rx buf_ptr nr size s)).
Proof.
  intros R. pose proof (ed_bounds d s R) as [_ Hn]. pose proof R as [Rs Rl [h Rt] [g Rr] Rb [Rn Rf] [Rz Rsz] [Rd Rx] Rc Ri]. unfold e1000e_poll_rx, es_poll_rx, es_ready. rewrite Rs. destruct (negb _); [by exists d|].
  destruct (reap_rx_spec nr _ _ _ Rr) as (o & r' & g' & E & Ho & R'). rewrite E. cbn [mbind run_bind]. destruct (es_rx s) as [|dsc rest] eqn:Erx; cbn [reap_spec fst snd] in *.
  { destruct o as [[]|]; [done|]. eexists. split; [reflexivity|]. split; cbn; rewrite ?Erx; first [done | by eexists]. }
  destruct (rx_complete dsc); cbn [fst snd] in *; destruct o as [[i ln]|]; try done; [|eexists; split; [reflexivity|]; split; cbn; rewrite ?Erx; first [done | by eexists]].
  injection Ho as ->. apply Forall_cons in Ri as [Hln Ri]. rewrite Rb, Rsz, Rn, Rx. rewrite (proj2 (Nat.eqb_neq _ 0)) by lia. rewrite Z2Nat.id by lia.
  replace ((es_polled s mod 2 ^ 64) mod nr) with (es_polled s mod nr) by (apply Znumtheory.Zmod_div_mod; [lia|lia|done]).
  destruct (lookup_lt_is_Some_2 (es_bufs s) (Z.to_nat (es_polled s mod nr))) as [buf Hbuf]; [rewrite Rn; pose proof (Z.mod_pos_bound (es_polled s) nr ltac:(lia)); lia|].
  rewrite (index_done _ _ _ Hbuf), Hbuf. cbn [mbind run_bind default]. assert (length buf = Z.to_nat size) as Hsz by (rewrite Forall_lookup in Rf; by apply (Rf _ _ Hbuf)).
  rewrite slice_take by lia. rewrite (proj2 (Z.leb_le _ _)) by lia. destruct (post_advance_spec nr (buf_ptr (es_polled s mod nr)) (size mod 2 ^ 16) _ _ _ R') as (o2 & r2 & E2 & Ho2 & R2). cbn [snd] in *.
  pose proof (rx_room _ _ _ _ Rr) as Hroom. cbn [length] in Hroom. unfold post_spec in R2. rewrite (proj2 (Z.eqb_neq _ _)) in R2 by lia.
  unfold post_advance in E2. destruct (post_buffer _ _ r') as [[slot r3]|]; [|done]. cbn [mbind run_bind] in E2 |- *. destruct (match slot with Some _ => advance_tail r3 | None => Done r3 end) as [r4|]; [|done]. cbn [mbind run_bind] in E2 |- *. injection E2 as -> ->.
  eexists. split; [reflexivity|]. split; cbn; first [done | by eexists | idtac]; [split; [done|]; unfold wrap64; by rewrite Z.add_mod_idemp_l by lia|by rewrite Rc|].
  apply Forall_app. split; [done|]. apply Forall_singleton. cbn. apply Z.mod_pos_bound. lia.
Qed.

Lemma dma_write_length bytes buf : length (dma_write bytes buf) = length buf.
Proof. unfold dma_write. rewrite length_take, length_app, length_drop. lia. Qed.

Lemma Forall_alter_with {A} (P : A -> Prop) f i (l : list A) : (forall x, P x -> P (f x)) -> Forall P l -> Forall P (alter f i l).
Proof. intros Hf. revert i. induction l as [|x l IH]; intros [|i] H; cbn; try done; apply Forall_cons in H as [Hx H]; apply Forall_cons; eauto. Qed.

Lemma ed_step_ok op d s : rel d s -> ed_op_ok op -> exists d', ed_step buf_ptr op d = Done (fst (ed_spec buf_ptr nt nr size op s), d') /\ rel d' (snd (ed_spec buf_ptr nt nr size op s)).
Proof.
  intros R Hok. pose proof (ed_bounds d s R) as [Ht Hn]. pose proof R as [Rs Rl [h Rt] [g Rr] Rb [Rn Rf] Rz Rx Rc Ri]. destruct op as [req|addr frame| | |addr len|up|state|k|k|k|k len ck st er sp|i bytes]; cbn [ed_step ed_spec].
  - destruct (es_request_ok req d s R Hok) as (d' & E & R'). rewrite E. destruct (es_request nt req s). by exists d'.
  - destruct (es_send_ok addr frame d s R) as (d' & E & R'). rewrite E. destruct (es_send nt addr _ s). by exists d'.
  - destruct (es_poll_rx_ok d s R) as (d' & E & R'). rewrite E. destruct (es_poll_rx buf_ptr nr size s). by exists d'.
  - unfold e1000e_poll_tx_completions, reap_tx. pose proof Rt as [_ Tc _ Tr _ _ _ _]. rewrite Tc. destruct (reap_tx_spec nt (Z.to_nat nt) _ _ _ 0 Rt) as (r' & h' & E & R'); [lia|lia|lia|]. rewrite E. cbn [mbind run_bind].
    destruct (sent_prefix (es_tx s)) as [n rest]. cbn [fst snd] in *. eexists. split; [reflexivity|]. ed_split.
  - destruct (post_advance_spec nr addr len _ _ _ Rr) as (o & r' & E & Ho & R'). rewrite E. cbn [mbind run_bind]. eexists. split; [by rewrite Ho|]. ed_split. unfold post_spec. destruct (_ =? _); [done|]. apply Forall_app. split; [done|]. apply Forall_singleton. cbn in *. unfold is_u16 in Hok. lia.
  - eexists. split; [reflexivity|]. ed_split.
  - eexists. split; [reflexivity|]. ed_split.
  - rewrite (hw_tx_read_spec nt k _ _ _ Rt). by exists d.
  - eexists. split; [reflexivity|]. ed_split. exists h. by apply hw_tx_done_spec.
  - rewrite (hw_rx_read_spec nr k _ _ _ Rr). by exists d.
  - eexists. split; [reflexivity|]. ed_split; [exists g; by apply hw_rx_fill_spec|]. apply Forall_alter_with; [|done]. intros r _. cbn in *. unfold is_u16 in Hok. lia.
  - eexists. split; [reflexivity|]. ed_split; [by rewrite Rb|]. rewrite length_alter. split; [done|]. apply Forall_alter_with; [|done]. intros b Hb. by rewrite dma_write_length.
Qed.

Lemma ed_run_ok ops : forall d s, rel d s -> Forall ed_op_ok ops -> exists d', ed_run buf_ptr ops d = Done (fst (ed_spec_run buf_ptr nt nr size ops s), d') /\ rel d' (snd (ed_spec_run buf_ptr nt nr size ops s)).
Proof.
  induction ops as [|op ops IH]; intros d s R Hops; [by exists d|]. apply Forall_cons in Hops as [Hop Hops]. destruct (ed_step_ok op d s R Hop) as (d1 & E1 & R1). cbn [ed_run ed_spec_run]. rewrite E1. cbn [mbind run_bind].
  destruct (ed_spec buf_ptr nt nr size op s) as [a s1]. cbn [fst snd] in *. destruct (IH d1 s1 R1 Hops) as (d' & E & R'). rewrite E. cbn [mbind run_bind]. destruct (ed_spec_run buf_ptr nt nr size ops s1). by exists d'.
Qed.
End Steps.

Definition es_boot (nr size : Z) : EdSpec :=
  {| es_state := EsReady; es_link := false; es_tx := []; es_rx := []; es_bufs := replicate (Z.to_nat nr) (replicate (Z.to_nat size) 0); es_polled := 0; es_stats := stats_default |}.

Lemma ring_depth_bounds n : is_valid_ring_depth n = true -> 0 < n <= 4096 /\ (n | 2 ^ 64).
Proof.
  unfold is_valid_ring_depth, MIN_RING_DEPTH, MAX_RING_DEPTH. intros [[H1%Z.leb_le H2%Z.leb_le]%andb_true_iff H3]%andb_true_iff. split; [lia|]. apply (power_of_two_divides n 64); [done|lia|lia].
Qed.

Lemma e1000e_new_rel nt nr size : is_valid_ring_depth nt = true -> is_valid_ring_depth nr = true -> 0 < size -> ed_rel nt nr size (e1000e_new nr nt size) (es_boot nr size).
Proof.
  intros [Ht _]%ring_depth_bounds [Hr Hd]%ring_depth_bounds Hs. unfold e1000e_new. rewrite Z.max_l by lia.
  split; cbn; try done; [exists 0; by apply tx_new_rel|exists 0; by apply rx_new_rel|by rewrite Z.max_l by lia|rewrite length_replicate; split; [done|]].
  apply Forall_replicate. by rewrite length_replicate.
Qed.

(** C15: the e1000e driver with its controller. For all valid ring depths and
    over every interleaving of requests, sends, polls and posts with a
    controller that reads the descriptors between head and tail, sends frames
    in any order and fills buffers in any order with any status: nothing
    panics; the controller sees exactly the frames submitted and not yet
    reaped, in order, and the buffers posted and not yet polled, in order;
    frames are reaped from the front as far as they have been sent; at most
    one less than a ring's depth is ever in it; and answers, frames handed up
    and counters are those of [ed_spec], which has queues for rings. *)
Theorem e1000e_driver_exact (buf_ptr : Z -> Z) (nt nr size : Z) (ops : list EdOp)
  (Ht : is_valid_ring_depth nt = true) (Hr : is_valid_ring_depth nr = true) (Hs : 0 < size) (Hops : Forall ed_op_ok ops) :
  let '(answers, s) := ed_spec_run buf_ptr nt nr size ops (es_boot nr size) in
  exists d, ed_run buf_ptr ops (e1000e_new nr nt size) = Done (answers, d) /\
    Z.of_nat (length (es_tx s)) < nt /\ Z.of_nat (length (es_rx s)) < nr /\ tr_tx_free (ed_tx_ring d) = nt - 1 - Z.of_nat (length (es_tx s)) /\
    (forall k, hw_tx_read k (ed_tx_ring d) = tx_entry_desc <$> es_tx s !! k) /\ (forall k, hw_rx_read k (ed_rx_ring d) = es_rx s !! k) /\
    ed_state d = es_state s /\ ed_link_up d = es_link s /\ ed_rx_buffers d = es_bufs s /\ ed_stats d = es_stats s.
Proof.
  destruct (ed_run_ok buf_ptr nt nr size ops _ _ (e1000e_new_rel nt nr size Ht Hr Hs) Hops) as (d & E & R). destruct (ed_spec_run _ _ _ _ ops _) as [answers s]. cbn [fst snd] in *. exists d.
  pose proof R as [Rs Rl [h Rt] [g Rr] Rb _ _ _ Rc _]. split_and!; [done|by apply Rt|by apply Rr|by apply Rt| | |done..]; intros k; [by apply (hw_tx_read_spec nt k _ _ _ Rt)|by apply (hw_rx_read_spec nr k _ _ _ Rr)].
Qed.

(** Two frames fill a ring of four with one to spare; the second is sent
    first, and both are reaped once the first has been. *)
Definition demo_ed_ops : list EdOp :=
  [EdRequest GetLinkState; EdRequest (SendFrame 0x5000 60); EdRequest (SendFrame 0x6000 1514); EdRequest (SendFrame 0 13); EdRequest (SendFrame 0 1515); EdTxRead 0; EdTxDone 1; EdPollTx; EdTxDone 0; EdPollTx;
   EdPost 100 4; EdPost 101 4; EdRxFill 0 3 0 1 0 0; EdPollRx; EdRxFill 0 3 0 3 0 0; EdDma 0 [7; 8; 9]; EdPollRx; EdRxRead 1].
Definition demo_ed_answers : list EdAnswer :=
  [EdResponse NetLinkDown; EdResponse NetOk; EdResponse NetOk; EdResponse NetInvalidArgument; EdResponse NetFrameTooLarge; EdTxDesc (Some (tx_entry_desc (0x5000, 60, false))); EdNone; EdCount 0; EdNone; EdCount 2;
   EdPosted true; EdPosted true; EdNone; EdFrame None; EdNone; EdNone; EdFrame (Some [7; 8; 9]); EdRxDesc (Some (rx_posted 100 4))].

Lemma e1000e_driver_exact_witness : exists d, ed_run (Z.add 100) demo_ed_ops (e1000e_new 4 4 4) = Done (demo_ed_answers, d) /\ tr_tx_free (ed_tx_ring d) = 3.
Proof.
  pose proof (e1000e_driver_exact (Z.add 100) 4 4 4 demo_ed_ops eq_refl eq_refl ltac:(lia) ltac:(repeat constructor; unfold is_u16; lia)) as H.
  assert (Ea : fst (ed_spec_run (Z.add 100) 4 4 4 demo_ed_ops (es_boot 4 4)) = demo_ed_answers) by (vm_compute; reflexivity).
  assert (Ef : es_tx (snd (ed_spec_run (Z.add 100) 4 4 4 demo_ed_ops (es_boot 4 4))) = []) by (vm_compute; reflexivity).
  destruct (ed_spec_run _ _ _ _ _ _) as [answers s]. cbn [fst snd] in *. subst answers. destruct H as (d & E & _ & _ & Hf & _). exists d. split; [exact E|]. rewrite Hf, Ef. reflexivity.
Defined.

(** ** Departures *)

(** With a buffer per ring slot but one slot always empty, the buffer a poll
    reads is not the one the descriptor names: the first three frames of a
    ring of four are read from the buffers 0, 1 and 2, and the fourth, which
    the controller wrote to buffer 0, from buffer 3, where nothing ever was. *)
Example fourth_frame_is_not_received :
  match ed_run (Z.add 100) ([EdPost 100 4; EdPost 101 4; EdPost 102 4; EdPost 103 4; EdRxFill 0 1 0 3 0 0; EdPollRx; EdRxFill 0 1 0 3 0 0; EdPollRx; EdRxFill 0 1 0 3 0 0; EdPollRx]
      ++ [EdRxRead 0; EdDma 0 [42]; EdRxFill 0 1 0 3 0 0; EdPollRx]) (e1000e_new 4 4 4) with
  | Done (answers, _) => drop 3 answers = [EdPosted false; EdNone; EdFrame (Some [0]); EdNone; EdFrame (Some [0]); EdNone; EdFrame (Some [0]); EdRxDesc (Some (rx_posted 100 4)); EdNone; EdNone; EdFrame (Some [0])]
  | Panicked => False
  end.
Proof. vm_compute. reflexivity. Qed.

(** A ring of one is valid and full from the start. *)
Example ring_of_one_is_full :
  is_valid_ring_depth 1 = true /\ match ed_run (Z.add 100) [EdPost 100 4; EdRequest (SendFrame 0 60)] (e1000e_new 1 1 4) with Done (answers, _) => answers = [EdPosted false; EdResponse NetInvalidArgument] | Panicked => False end.
Proof. split; reflexivity. Qed.
