(* ===== verification/Gguf.v ===== *)
(** * The model file parser
    (omni-runtime: gguf.rs)

    A reader of a byte slice with a moving position, and the file format as a
    relation between headers and bytes, which the parser decides. *)

From Stdlib Require Import ZArith Lia.
From stdpp Require Import base numbers list.
From S2P Require Import Prelude Str.

Definition GGUF_MAGIC : Z := 0x46554746.
Definition GGUF_DEFAULT_ALIGNMENT : Z := 32.
Definition GGUF_VERSION_3 : Z := 3.
Definition MAX_STRING_LEN : Z := 1024 * 1024.
Definition MAX_TENSOR_COUNT : Z := 100000.

(** ** Data

    A float is its bit pattern, a string its bytes. *)

Inductive GgufMetadataValue :=
| GvU8 (v : Z) | GvI8 (v : Z) | GvU16 (v : Z) | GvI16 (v : Z) | GvU32 (v : Z) | GvI32 (v : Z) | GvF32 (bits : Z) | GvU64 (v : Z) | GvI64 (v : Z) | GvF64 (bits : Z)
| GvBool (b : bool) | GvString (s : str) | GvArray (l : list GgufMetadataValue).

Inductive GgufMetadataValueType := GtU8 | GtI8 | GtU16 | GtI16 | GtU32 | GtI32 | GtF32 | GtBool | GtString | GtArray | GtU64 | GtI64 | GtF64.

Definition value_type_from_u32 (v : Z) : option GgufMetadataValueType :=
  match v with
  | 0 => Some GtU8 | 1 => Some GtI8 | 2 => Some GtU16 | 3 => Some GtI16 | 4 => Some GtU32 | 5 => Some GtI32 | 6 => Some GtF32 | 7 => Some GtBool
  | 8 => Some GtString | 9 => Some GtArray | 10 => Some GtU64 | 11 => Some GtI64 | 12 => Some GtF64 | _ => None
  end.

Inductive GgufDtype :=
| GdF32 | GdF16 | GdQ4_0 | GdQ4_1 | GdQ5_0 | GdQ5_1 | GdQ8_0 | GdQ8_1 | GdQ2_K | GdQ3_K | GdQ4_K | GdQ5_K | GdQ6_K | GdI8 | GdI16 | GdI32 | GdI64 | GdF64 | GdBf16.

Definition dtype_from_u32 (v : Z) : option GgufDtype :=
  match v with
  | 0 => Some GdF32 | 1 => Some GdF16 | 2 => Some GdQ4_0 | 3 => Some GdQ4_1 | 6 => Some GdQ5_0 | 7 => Some GdQ5_1 | 8 => Some GdQ8_0 | 9 => Some GdQ8_1
  | 10 => Some GdQ2_K | 11 => Some GdQ3_K | 12 => Some GdQ4_K | 13 => Some GdQ5_K | 14 => Some GdQ6_K | 16 => Some GdI8 | 17 => Some GdI16 | 18 => Some GdI32
  | 19 => Some GdI64 | 20 => Some GdF64 | 30 => Some GdBf16 | _ => None
  end.

Record GgufTensorInfo := { ti_name : str; ti_n_dimensions : Z; ti_dimensions : list Z; ti_dtype : GgufDtype; ti_offset : Z }.
Record GgufHeader := { gh_version : Z; gh_tensor_count : Z; gh_metadata : list (str * GgufMetadataValue); gh_tensors : list GgufTensorInfo; gh_data_offset : Z }.

(** The messages of the [OmniError::internal] the parser returns. *)
Inductive GgufError :=
| GeEndOfData (width : Z) | GePosition (width : Z) | GeMagic | GeVersion | GeTensorCount | GeMetadataCount | GeDimensions | GeDtype
| GeStringLength | GeStringPosition | GeStringEnd | GeUtf8 | GeValueType | GeElementType | GeElementCount | GeNestedArray.

(** ** Readers: a slice and a position to a value and the next position *)

Definition Reader (A : Type) : Type := list Z -> Z -> run (result GgufError (A * Z)).
#[global] Instance reader_ret : MRet Reader := fun A a data pos => Done (Ok (a, pos)).
#[global] Instance reader_bind : MBind Reader := fun A B f r data pos =>
  x ← r data pos; match x with Ok (a, pos) => f a data pos | Err e => Done (Err e) end.
Definition rd_err {A} (e : GgufError) : Reader A := fun _ _ => Done (Err e).

Definition read_u8 : Reader Z := fun data pos =>
  match data !! Z.to_nat pos with
  | None => Done (Err (GeEndOfData 1))
  | Some byte => pos ← add64 pos 1; Done (Ok (byte, pos))
  end.

(** The little-endian readers differ in their width only. *)
Definition read_num_le (width : nat) : Reader Z := fun data pos =>
  match checked_add64 pos (Z.of_nat width) with
  | None => Done (Err (GePosition (Z.of_nat width)))
  | Some e => match slice_get data pos e with
      | None => Done (Err (GeEndOfData (Z.of_nat width)))
      | Some bytes => Done (Ok (from_le_bytes bytes, e)) end
  end.
Definition read_u16_le : Reader Z := read_num_le 2.
Definition read_u32_le : Reader Z := read_num_le 4.
Definition read_u64_le : Reader Z := read_num_le 8.

(** [v as iN]. *)
Definition as_signed (bits v : Z) : Z := if v <? 2 ^ (bits - 1) then v else v - 2 ^ bits.
Definition read_i32_le : Reader Z := v ← read_u32_le; mret (as_signed 32 v).
Definition read_i64_le : Reader Z := v ← read_u64_le; mret (as_signed 64 v).
Definition read_f32_le : Reader Z := read_u32_le.
Definition read_f64_le : Reader Z := read_u64_le.
Definition read_bool : Reader bool := v ← read_u8; mret (negb (v =? 0)).

Definition take_str (len : Z) : Reader str := fun data pos =>
  match checked_add64 pos len with
  | None => Done (Err GeStringPosition)
  | Some e => match slice_get data pos e with
      | None => Done (Err GeStringEnd)
      | Some bytes => if utf8_valid bytes then Done (Ok (bytes, e)) else Done (Err GeUtf8) end
  end.
Definition read_string : Reader str :=
  len ← read_u64_le;
  if MAX_STRING_LEN <? len then rd_err GeStringLength else take_str len.

Definition read_value_of_type (t : GgufMetadataValueType) : Reader GgufMetadataValue :=
  match t with
  | GtU8 => v ← read_u8; mret (GvU8 v)
  | GtI8 => v ← read_u8; mret (GvI8 (as_signed 8 v))
  | GtU16 => v ← read_u16_le; mret (GvU16 v)
  | GtI16 => v ← read_u16_le; mret (GvI16 (as_signed 16 v))
  | GtU32 => v ← read_u32_le; mret (GvU32 v)
  | GtI32 => v ← read_i32_le; mret (GvI32 v)
  | GtF32 => v ← read_f32_le; mret (GvF32 v)
  | GtU64 => v ← read_u64_le; mret (GvU64 v)
  | GtI64 => v ← read_i64_le; mret (GvI64 v)
  | GtF64 => v ← read_f64_le; mret (GvF64 v)
  | GtBool => v ← read_bool; mret (GvBool v)
  | GtString => v ← read_string; mret (GvString v)
  | GtArray => rd_err GeNestedArray
  end.

(** [for _ in 0..n { v.push(r()?) }] *)
Fixpoint read_n {A} (n : nat) (r : Reader A) : Reader (list A) :=
  match n with O => mret [] | S n => x ← r; l ← read_n n r; mret (x :: l) end.

Definition read_metadata_value : Reader GgufMetadataValue :=
  type_raw ← read_u32_le;
  match value_type_from_u32 type_raw with
  | None => rd_err GeValueType
  | Some GtArray =>
      elem_type_raw ← read_u32_le;
      match value_type_from_u32 elem_type_raw with
      | None => rd_err GeElementType
      | Some elem_type =>
          count ← read_u64_le;
          if MAX_TENSOR_COUNT <? count then rd_err GeElementCount else
          elements ← read_n (Z.to_nat count) (read_value_of_type elem_type);
          mret (GvArray elements)
      end
  | Some vtype => read_value_of_type vtype
  end.

Definition read_kv : Reader (str * GgufMetadataValue) := key ← read_string; value ← read_metadata_value; mret (key, value).

Definition read_tensor_info : Reader GgufTensorInfo :=
  name ← read_string;
  n_dimensions ← read_u32_le;
  if 8 <? n_dimensions then rd_err GeDimensions else
  dimensions ← read_n (Z.to_nat n_dimensions) read_u64_le;
  dtype_raw ← read_u32_le;
  match dtype_from_u32 dtype_raw with
  | None => rd_err GeDtype
  | Some dtype =>
      offset ← read_u64_le;
      mret {| ti_name := name; ti_n_dimensions := n_dimensions; ti_dimensions := dimensions; ti_dtype := dtype; ti_offset := offset |}
  end.

(** [(value + align - 1) & !(align - 1)] *)
Definition align_up_to (value align : Z) : run Z :=
  s ← add64 value align; s ← sub64 s 1; m ← sub64 align 1; Done (Z.land s (not64 m)).

(** [align_up(pos, GGUF_DEFAULT_ALIGNMENT)], which leaves the position. *)
Definition read_data_offset : Reader Z := fun data pos => o ← align_up_to pos GGUF_DEFAULT_ALIGNMENT; Done (Ok (o, pos)).

Definition read_header : Reader GgufHeader :=
  magic ← read_u32_le;
  if negb (magic =? GGUF_MAGIC) then rd_err GeMagic else
  version ← read_u32_le;
  if negb (version =? 2) && negb (version =? GGUF_VERSION_3) then rd_err GeVersion else
  tensor_count ← read_u64_le;
  metadata_kv_count ← read_u64_le;
  if MAX_TENSOR_COUNT <? tensor_count then rd_err GeTensorCount else
  if MAX_TENSOR_COUNT <? metadata_kv_count then rd_err GeMetadataCount else
  metadata ← read_n (Z.to_nat metadata_kv_count) read_kv;
  tensors ← read_n (Z.to_nat tensor_count) read_tensor_info;
  data_offset ← read_data_offset;
  mret {| gh_version := version; gh_tensor_count := tensor_count; gh_metadata := metadata; gh_tensors := tensors; gh_data_offset := data_offset |}.

Definition parse_gguf (data : list Z) : run (result GgufError GgufHeader) :=
  r ← read_header data 0; Done (match r with Ok (h, _) => Ok h | Err e => Err e end).

(** ** The format *)

Definition value_type_code (t : GgufMetadataValueType) : Z :=
  match t with GtU8 => 0 | GtI8 => 1 | GtU16 => 2 | GtI16 => 3 | GtU32 => 4 | GtI32 => 5 | GtF32 => 6 | GtBool => 7 | GtString => 8 | GtArray => 9 | GtU64 => 10 | GtI64 => 11 | GtF64 => 12 end.
Definition dtype_code (d : GgufDtype) : Z :=
  match d with
  | GdF32 => 0 | GdF16 => 1 | GdQ4_0 => 2 | GdQ4_1 => 3 | GdQ5_0 => 6 | GdQ5_1 => 7 | GdQ8_0 => 8 | GdQ8_1 => 9 | GdQ2_K => 10 | GdQ3_K => 11 | GdQ4_K => 12 | GdQ5_K => 13
  | GdQ6_K => 14 | GdI8 => 16 | GdI16 => 17 | GdI32 => 18 | GdI64 => 19 | GdF64 => 20 | GdBf16 => 30
  end.

(** A format relates values to their bytes. *)
Definition format (A : Type) : Type := A -> list Z -> Prop.
Definition f_le (width : nat) : format Z := fun v bs => 0 <= v < 2 ^ (8 * Z.of_nat width) /\ bs = to_le_bytes width v.
Definition f_signed (width : nat) : format Z := fun v bs => let n := 8 * Z.of_nat width in - 2 ^ (n - 1) <= v < 2 ^ (n - 1) /\ bs = to_le_bytes width (v mod 2 ^ n).
Definition f_bool : format bool := fun b bs => exists x, is_u8 x /\ bs = [x] /\ b = negb (x =? 0).
Definition f_string : format str := fun s bs => Z.of_nat (length s) <= 1048576 /\ utf8_valid s = true /\ bs = to_le_bytes 8 (Z.of_nat (length s)) ++ s.
Definition f_list {A} (f : format A) : format (list A) := fun l bs => exists bss, Forall2 f l bss /\ bs = concat bss.

Definition f_scalar (t : GgufMetadataValueType) : format GgufMetadataValue := fun v bs =>
  match t, v with
  | GtU8, GvU8 v => f_le 1 v bs | GtI8, GvI8 v => f_signed 1 v bs | GtU16, GvU16 v => f_le 2 v bs | GtI16, GvI16 v => f_signed 2 v bs
  | GtU32, GvU32 v => f_le 4 v bs | GtI32, GvI32 v => f_signed 4 v bs | GtF32, GvF32 v => f_le 4 v bs | GtU64, GvU64 v => f_le 8 v bs | GtI64, GvI64 v => f_signed 8 v bs
  | GtF64, GvF64 v => f_le 8 v bs | GtBool, GvBool b => f_bool b bs | GtString, GvString s => f_string s bs | _, _ => False
  end.
(** A type and a value of it; an array is a type, a count and that many values
    of the type. *)
Definition f_value : format GgufMetadataValue := fun v bs =>
  (exists t b, bs = to_le_bytes 4 (value_type_code t) ++ b /\ f_scalar t v b) \/
  (exists t l b, v = GvArray l /\ Z.of_nat (length l) <= 100000 /\ f_list (f_scalar t) l b /\
     bs = to_le_bytes 4 (value_type_code GtArray) ++ to_le_bytes 4 (value_type_code t) ++ to_le_bytes 8 (Z.of_nat (length l)) ++ b).
Definition f_kv : format (str * GgufMetadataValue) := fun '(k, v) bs => exists b1 b2, f_string k b1 /\ f_value v b2 /\ bs = b1 ++ b2.
Definition f_tensor : format GgufTensorInfo := fun t bs => exists b1 b2 b3,
  f_string (ti_name t) b1 /\ f_list (f_le 8) (ti_dimensions t) b2 /\ f_le 8 (ti_offset t) b3 /\
  ti_n_dimensions t = Z.of_nat (length (ti_dimensions t)) /\ ti_n_dimensions t <= 8 /\
  bs = b1 ++ to_le_bytes 4 (ti_n_dimensions t) ++ b2 ++ to_le_bytes 4 (dtype_code (ti_dtype t)) ++ b3.
(** The next multiple of 32. *)
Definition padded (n : Z) : Z := (n + 31) / 32 * 32.

(** A file, behind the four bytes [magic] that tell its kind.  The repository's
    comment at [GGUF_MAGIC] says what they are on disk; GGUF files begin with
    the letters of their name. *)
Definition documented_magic : list Z := [0x46; 0x55; 0x47; 0x47].
Definition gguf_letters : list Z := [0x47; 0x47; 0x55; 0x46].
Definition f_header (magic : list Z) : format GgufHeader := fun h bs => exists b1 b2,
  (gh_version h = 2 \/ gh_version h = 3) /\ gh_tensor_count h = Z.of_nat (length (gh_tensors h)) /\
  Z.of_nat (length (gh_metadata h)) <= 100000 /\ Z.of_nat (length (gh_tensors h)) <= 100000 /\
  f_list f_kv (gh_metadata h) b1 /\ f_list f_tensor (gh_tensors h) b2 /\ gh_data_offset h = padded (Z.of_nat (length bs)) /\
  bs = magic ++ to_le_bytes 4 (gh_version h) ++ to_le_bytes 8 (gh_tensor_count h) ++ to_le_bytes 8 (Z.of_nat (length (gh_metadata h))) ++ b1 ++ b2.

(** ** Readers that decide a format *)

Section Exact.
Context (data : list Z).

(** At [pos] the reader [r] takes the one value of the format [P] that the
    data continue with, and fails if there is none. *)
Definition exact_at {A} (pos : Z) (r : Reader A) (P : format A) : Prop :=
  0 <= pos <= Z.of_nat (length data) ->
  match r data pos with
  | Done (Ok (a, p)) => exists bs, bs `prefix_of` drop (Z.to_nat pos) data /\ p = pos + Z.of_nat (length bs) /\ P a bs /\
      (forall a' bs', P a' bs' -> bs' `prefix_of` drop (Z.to_nat pos) data -> a' = a /\ bs' = bs)
  | Done (Err _) => forall a bs, P a bs -> ~ bs `prefix_of` drop (Z.to_nat pos) data
  | Panicked => False
  end.

Lemma prefix_of_app {A} (a b s : list A) : a ++ b `prefix_of` s <-> a `prefix_of` s /\ b `prefix_of` drop (length a) s.
Proof.
  split.
  - intros [t ->]. rewrite <- app_assoc. split; [by eexists|]. rewrite drop_app_length. by eexists.
  - intros [[t ->] [u Hu]]. rewrite drop_app_length in Hu. subst. exists u. by rewrite app_assoc.
Qed.

Lemma prefix_same_length {A} (a b s : list A) : a `prefix_of` s -> b `prefix_of` s -> length a = length b -> a = b.
Proof. intros [t ->] [u E] Hl. by apply app_inj_1 in E as [-> _]. Qed.

Lemma prefix_room pos bs : 0 <= pos <= Z.of_nat (length data) -> bs `prefix_of` drop (Z.to_nat pos) data -> pos + Z.of_nat (length bs) <= Z.of_nat (length data).
Proof. intros Hp H. apply prefix_length in H. rewrite length_drop in H. lia. Qed.

Lemma exact_bind {A B} pos (r : Reader A) (f : A -> Reader B) (P : format A) (Q : A -> list Z -> format B) :
  exact_at pos r P -> (forall a b1, P a b1 -> exact_at (pos + Z.of_nat (length b1)) (f a) (Q a b1)) ->
  exact_at pos (a ← r; f a) (fun b bs => exists a b1 b2, bs = b1 ++ b2 /\ P a b1 /\ Q a b1 b b2).
Proof.
  intros Hr Hf Hp. specialize (Hr Hp). unfold mbind, reader_bind. destruct (r data pos) as [[[a p]|e]|]; cbn [mbind run_bind] in *; [| |done].
  - destruct Hr as (b1 & Hb1 & -> & HP & Hu). pose proof (prefix_room _ _ Hp Hb1). specialize (Hf a b1 HP ltac:(lia)).
    replace (drop (Z.to_nat (pos + Z.of_nat (length b1))) data) with (drop (length b1) (drop (Z.to_nat pos) data)) in Hf by (rewrite drop_drop; f_equal; lia).
    destruct (f a data _) as [[[b p]|e]|]; [| |done].
    + destruct Hf as (b2 & Hb2 & -> & HQ & Hv). exists (b1 ++ b2). split; [by apply prefix_of_app|]. split; [rewrite length_app; lia|]. split; [by exists a, b1, b2|].
      intros b' bs' (a' & b1' & b2' & -> & HP' & HQ') [H1 H2]%prefix_of_app. destruct (Hu a' b1' HP' H1) as [-> ->]. by destruct (Hv b' b2' HQ' H2) as [-> ->].
    + intros b' bs' (a' & b1' & b2' & -> & HP' & HQ') [H1 H2]%prefix_of_app. destruct (Hu a' b1' HP' H1) as [-> ->]. by apply (Hf b' b2').
  - intros b' bs' (a' & b1' & b2' & -> & HP' & HQ') [H1 H2]%prefix_of_app. by apply (Hr a' b1').
Qed.

Lemma exact_iff {A} pos (r : Reader A) (P Q : format A) : exact_at pos r P -> (forall a bs, P a bs <-> Q a bs) -> exact_at pos r Q.
Proof.
  intros Hr Hpq Hp. specialize (Hr Hp). destruct (r data pos) as [[[a p]|e]|]; [| |done].
  - destruct Hr as (bs & H1 & H2 & H3 & H4). exists bs. split_and!; [done|done|by apply Hpq|]. intros a' bs' H5%Hpq. by apply H4.
  - intros a bs H%Hpq. exact (Hr a bs H).
Qed.

Lemma exact_ret {A} pos (a : A) : exact_at pos (mret a) (fun x bs => x = a /\ bs = []).
Proof. intros Hp. cbn. exists []. split_and!; [apply prefix_nil|cbn; lia|done|done|]. by intros a' bs' [-> ->]. Qed.

Lemma exact_err {A} pos e : exact_at pos (rd_err e : Reader A) (fun _ _ => False).
Proof. intros Hp. cbn. done. Qed.

Lemma exact_fmap {A B} pos (r : Reader A) (f : A -> B) (P : format A) : exact_at pos r P -> exact_at pos (a ← r; mret (f a)) (fun b bs => exists a, P a bs /\ b = f a).
Proof.
  intros Hr. eapply exact_iff; [apply (exact_bind _ _ _ _ (fun a _ b bs => b = f a /\ bs = []) Hr); intros a b1 _; apply exact_ret|].
  intros b bs. split; [intros (a & b1 & b2 & -> & HP & -> & ->); rewrite app_nil_r; by exists a|]. intros (a & HP & ->). exists a, bs, []. by rewrite app_nil_r.
Qed.

Lemma exact_if {A} pos (c : bool) (r1 r2 : Reader A) (P Q : format A) : exact_at pos r1 P -> exact_at pos r2 Q -> exact_at pos (if c then r1 else r2) (fun a bs => if c then P a bs else Q a bs).
Proof. by destruct c. Qed.

Lemma exact_n {A} (r : Reader A) (P : format A) n : (forall pos, exact_at pos r P) -> forall pos, exact_at pos (read_n n r) (fun l bs => length l = n /\ f_list P l bs).
Proof.
  intros Hr. induction n as [|n IH]; intros pos; cbn [read_n].
  - eapply exact_iff; [apply exact_ret|]. intros l bs. split; [intros [-> ->]; split; [done|]; exists []; by split|]. intros [Hl (bss & H & ->)]. apply nil_length_inv in Hl as ->. inversion H. done.
  - eapply exact_iff.
    + apply (exact_bind pos r _ P (fun x _ l bs => exists l', (length l' = n /\ f_list P l' bs) /\ l = x :: l')); [apply Hr|]. intros a b1 _. apply exact_fmap, IH.
    + intros l bs. split.
      * intros (a & b1 & b2 & -> & HP & l' & [<- (bss & H & ->)] & ->). split; [done|]. exists (b1 :: bss). split; [by constructor|done].
      * intros [Hl (bss & H & ->)]. destruct l as [|a l]; [done|]. injection Hl as Hl. inversion H as [|? b1 ? bss' HP H']; subst. exists a, b1, (concat bss'). split; [done|]. split; [done|]. exists l. split; [|done]. split; [done|]. by exists bss'.
Qed.
End Exact.

(** ** Numbers, strings, values *)

Lemma value_type_from_code v t : value_type_from_u32 v = Some t <-> v = value_type_code t.
Proof.
  split; [|intros ->; by destruct t]. unfold value_type_from_u32. intros H. repeat (destruct v as [|v|v]; try done; try (injection H as <-; done)).
Qed.
Lemma dtype_from_code v d : dtype_from_u32 v = Some d <-> v = dtype_code d.
Proof.
  split; [|intros ->; by destruct d]. unfold dtype_from_u32. intros H. repeat (destruct v as [|v|v]; try done; try (injection H as <-; done)).
Qed.
Lemma value_type_code_u32 t : 0 <= value_type_code t < 2 ^ 32.
Proof. destruct t; cbn; lia. Qed.
Lemma dtype_code_u32 d : 0 <= dtype_code d < 2 ^ 32.
Proof. destruct d; cbn; lia. Qed.

Section Leaves.
Context (data : list Z) (Hd : Forall is_u8 data) (Hl : Z.of_nat (length data) < 2 ^ 63).
Notation exact := (exact_at data).

Lemma slice_at pos n : 0 <= pos <= Z.of_nat (length data) -> slice_get data pos (pos + Z.of_nat n) =
  if pos + Z.of_nat n <=? Z.of_nat (length data) then Some (take n (drop (Z.to_nat pos) data)) else None.
Proof. intros Hp. unfold slice_get. rewrite (proj2 (Z.leb_le pos _)) by lia. cbn [andb]. destruct (_ <=? _); [|done]. do 3 f_equal. lia. Qed.

Lemma le_inj n v w : 0 <= v < 2 ^ (8 * Z.of_nat n) -> 0 <= w < 2 ^ (8 * Z.of_nat n) -> to_le_bytes n v = to_le_bytes n w -> v = w.
Proof. intros Hv Hw E. apply (f_equal from_le_bytes) in E. rewrite !from_to_le_bytes, !Z.mod_small in E by done. done. Qed.

(** A field of fixed width holds one number. *)
Lemma exact_field {A} pos n (r : Reader A) (f : format A) (g : list Z -> A) :
  (forall a bs, f a bs -> length bs = n) -> (forall bs a, Forall is_u8 bs -> length bs = n -> f a bs <-> a = g bs) ->
  (0 <= pos <= Z.of_nat (length data) -> r data pos = if pos + Z.of_nat n <=? Z.of_nat (length data) then Done (Ok (g (take n (drop (Z.to_nat pos) data)), pos + Z.of_nat n)) else r data pos) ->
  (0 <= pos -> Z.of_nat (length data) < pos + Z.of_nat n -> exists e, r data pos = Done (Err e)) -> exact pos r f.
Proof.
  intros Hn Hg Hr He Hp. specialize (Hr Hp). destruct (Z.leb_spec (pos + Z.of_nat n) (Z.of_nat (length data))) as [Hle|Hgt].
  - rewrite Hr. set (bs := take n (drop (Z.to_nat pos) data)). assert (length bs = n) as Hbn by (unfold bs; rewrite length_take, length_drop; lia).
    assert (bs `prefix_of` drop (Z.to_nat pos) data) as Hpre by apply prefix_take. exists bs. split; [done|]. split; [by rewrite Hbn|].
    assert (Forall is_u8 bs) as Hbs by (by apply Forall_take, Forall_drop). split; [by apply (Hg bs _ Hbs Hbn)|].
    intros a' bs' Ha Hb. assert (bs' = bs) as -> by (apply (prefix_same_length _ _ _ Hb Hpre); by rewrite (Hn _ _ Ha)). split; [|done]. by apply (Hg bs).
  - destruct He as [e He]; [lia|lia|]. rewrite He. intros a bs Ha Hb. pose proof (prefix_room data _ _ Hp Hb). rewrite (Hn _ _ Ha) in *. lia.
Qed.

Lemma f_le_iff n bs v : Forall is_u8 bs -> length bs = n -> f_le n v bs <-> v = from_le_bytes bs.
Proof.
  intros Hbs Hn. split; [intros [Hv ->]; by rewrite from_to_le_bytes, Z.mod_small|]. intros ->. split; [|by rewrite <- Hn, to_from_le_bytes].
  rewrite <- Hn. by apply from_le_bytes_bound.
Qed.

Lemma f_le_length n v bs : f_le n v bs -> length bs = n.
Proof. intros [_ ->]. apply to_le_bytes_length. Qed.

Lemma exact_le pos n : Z.of_nat n <= 8 -> exact pos (read_num_le n) (f_le n).
Proof.
  intros Hn. apply (exact_field pos n _ _ from_le_bytes (f_le_length n)).
  - intros bs a. by apply f_le_iff.
  - intros Hp. unfold read_num_le, checked_add64. rewrite (proj2 (Z.ltb_lt _ _)) by lia. rewrite slice_at by done. by destruct (_ <=? _).
  - intros Hp Hgt. unfold read_num_le, checked_add64. destruct (_ <? _); [|by eexists]. unfold slice_get. rewrite (proj2 (Z.leb_gt _ (Z.of_nat (length data)))), andb_false_r by lia. by eexists.
Qed.

Lemma exact_u8 pos : exact pos read_u8 (f_le 1).
Proof.
  apply (exact_field pos 1 _ _ from_le_bytes (f_le_length 1)).
  - intros bs a. by apply f_le_iff.
  - intros Hp. unfold read_u8. destruct (Z.leb_spec (pos + Z.of_nat 1) (Z.of_nat (length data))) as [Hle|]; [|done].
    destruct (lookup_lt_is_Some_2 data (Z.to_nat pos)) as [b Hb]; [lia|]. rewrite Hb. rewrite add64_done by lia. cbn [mbind run_bind]. rewrite (drop_S _ _ _ Hb). cbn [take from_le_bytes]. rewrite take_0. cbn [from_le_bytes]. by rewrite Z.add_0_r.
  - intros Hp Hgt. unfold read_u8. rewrite lookup_ge_None_2 by lia. by eexists.
Qed.

(** Two's complement. *)
Lemma f_signed_iff n v bs : (0 < n)%nat -> f_signed n v bs <-> exists u, f_le n u bs /\ v = as_signed (8 * Z.of_nat n) u.
Proof.
  intros Hn. unfold f_signed, f_le, as_signed. set (k := 8 * Z.of_nat n). assert (2 ^ k = 2 * 2 ^ (k - 1)) as E by (rewrite <- Z.pow_succ_r by lia; f_equal; lia). pose proof (Z.pow_pos_nonneg 2 (k - 1) ltac:(lia) ltac:(lia)). split.
  - intros [Hv ->]. exists (v mod 2 ^ k). split; [split; [apply Z.mod_pos_bound; lia|done]|]. destruct (Z.ltb_spec (v mod 2 ^ k) (2 ^ (k - 1))) as [Hlt|Hge]; destruct (Z.lt_ge_cases v 0) as [Hneg|Hpos].
    + assert (v mod 2 ^ k = v + 2 ^ k) as Em by (symmetry; apply (Z.mod_unique_pos _ _ (-1)); lia). lia.
    + by rewrite Z.mod_small by lia.
    + assert (v mod 2 ^ k = v + 2 ^ k) as Em by (symmetry; apply (Z.mod_unique_pos _ _ (-1)); lia). lia.
    + rewrite Z.mod_small in Hge by lia. lia.
  - intros (u & [Hu ->] & ->). destruct (Z.ltb_spec u (2 ^ (k - 1))) as [Hlt|Hge]; (split; [lia|]); f_equal.
    + by rewrite Z.mod_small by lia.
    + apply (Z.mod_unique_pos _ _ (-1)); lia.
Qed.

Lemma exact_take_str pos len : 0 <= len <= MAX_STRING_LEN -> exact pos (take_str len) (fun s bs => bs = s /\ Z.of_nat (length s) = len /\ utf8_valid s = true).
Proof.
  intros Hlen Hp. unfold take_str, checked_add64. unfold MAX_STRING_LEN in *. rewrite (proj2 (Z.ltb_lt _ _)) by lia. pose proof (slice_at pos (Z.to_nat len) Hp) as Es. rewrite Z2Nat.id in Es by lia. rewrite Es.
  destruct (Z.leb_spec (pos + len) (Z.of_nat (length data))) as [Hle|Hgt].
  - set (bs := take _ _). assert (Z.of_nat (length bs) = len) as Hbn by (unfold bs; rewrite length_take, length_drop; lia). assert (bs `prefix_of` drop (Z.to_nat pos) data) as Hpre by apply prefix_take. destruct (utf8_valid bs) eqn:Ev.
    + exists bs. split_and!; [done|lia|done|done|done|]. intros a' bs' (-> & Ha & _) Hb. assert (a' = bs) as -> by (apply (prefix_same_length _ _ _ Hb Hpre); lia). done.
    + intros a bs' (-> & Ha & Hv) Hb. assert (a = bs) as -> by (apply (prefix_same_length _ _ _ Hb Hpre); lia). by rewrite Ev in Hv.
  - intros a bs' (-> & Ha & Hv) Hb. pose proof (prefix_room data _ _ Hp Hb). lia.
Qed.

Lemma exact_string pos : exact pos read_string f_string.
Proof.
  unfold read_string. eapply exact_iff.
  - apply (exact_bind data pos read_u64_le _ (f_le 8) (fun len _ s bs => if MAX_STRING_LEN <? len then False else bs = s /\ Z.of_nat (length s) = len /\ utf8_valid s = true)); [by apply exact_le|].
    intros len b1 [Hlen _]. destruct (Z.ltb_spec MAX_STRING_LEN len); [apply exact_err|]. apply exact_take_str. lia.
  - intros s bs. unfold f_string. split.
    + intros (len & b1 & b2 & -> & [_ ->] & H). destruct (Z.ltb_spec MAX_STRING_LEN len); [done|]. by destruct H as (-> & <- & Hv).
    + intros (Hs & Hv & ->). eexists _, _, s. split; [done|]. split; [split; [|done]|]; [unfold MAX_STRING_LEN in Hs; cbn; lia|]. by rewrite (proj2 (Z.ltb_ge _ _)).
Qed.

Lemma exact_bool pos : exact pos read_bool f_bool.
Proof.
  eapply exact_iff; [apply (exact_fmap data pos _ (fun v => negb (v =? 0)) _ (exact_u8 pos))|]. intros b bs. unfold f_le, f_bool, is_u8. split.
  - intros (a & [Ha ->] & ->). exists a. change (2 ^ (8 * Z.of_nat 1)) with 256 in Ha. split; [done|]. cbn. by rewrite Z.mod_small.
  - intros (x & Hx & -> & ->). exists x. split; [|done]. split; [done|]. cbn. by rewrite Z.mod_small.
Qed.

Lemma exact_signed pos n (r : Reader Z) bits : (0 < n)%nat -> bits = 8 * Z.of_nat n -> exact pos r (f_le n) -> exact pos (v ← r; mret (as_signed bits v)) (f_signed n).
Proof. intros Hn -> Hr. eapply exact_iff; [apply (exact_fmap data pos _ (as_signed _) _ Hr)|]. intros v bs. symmetry. by apply f_signed_iff. Qed.

Lemma exact_map {A B} pos (r : Reader A) (c : A -> B) (f : format A) (g : format B) :
  exact pos r f -> (forall v bs, (exists a, f a bs /\ v = c a) <-> g v bs) -> exact pos (v ← r; mret (c v)) g.
Proof. intros Hr Hiff. eapply exact_iff; [by apply (exact_fmap data pos r c f)|done]. Qed.

Ltac scalar := intros v bs; split; [intros (a & H & ->); cbn; rewrite ?f_signed_iff by lia; (exact H || by exists a)|];
  destruct v; cbn; rewrite ?f_signed_iff by lia; try done; first [intros (a & H & ->) | intros H]; (by eexists).

Lemma exact_scalar t pos : exact pos (read_value_of_type t) (f_scalar t).
Proof.
  destruct t; cbn [read_value_of_type].
  - apply (exact_map _ _ GvU8 (f_le 1)); [apply exact_u8|scalar].
  - apply (exact_map _ _ (fun v => GvI8 (as_signed 8 v)) (f_le 1)); [apply exact_u8|scalar].
  - apply (exact_map _ _ GvU16 (f_le 2)); [by apply exact_le|scalar].
  - apply (exact_map _ _ (fun v => GvI16 (as_signed 16 v)) (f_le 2)); [by apply exact_le|scalar].
  - apply (exact_map _ _ GvU32 (f_le 4)); [by apply exact_le|scalar].
  - apply (exact_map _ _ GvI32 (f_signed 4)); [apply exact_signed; [lia|done|by apply exact_le]|]. intros v bs. split; [by intros (a & H & ->)|]. destruct v; try done. by eexists.
  - apply (exact_map _ _ GvF32 (f_le 4)); [by apply exact_le|scalar].
  - apply (exact_map _ _ GvBool f_bool); [apply exact_bool|]. intros v bs. split; [by intros (a & H & ->)|]. destruct v; try done. by eexists.
  - apply (exact_map _ _ GvString f_string); [apply exact_string|]. intros v bs. split; [by intros (a & H & ->)|]. destruct v; try done. by eexists.
  - eapply exact_iff; [apply exact_err|]. intros v bs. by destruct v.
  - apply (exact_map _ _ GvU64 (f_le 8)); [by apply exact_le|scalar].
  - apply (exact_map _ _ GvI64 (f_signed 8)); [apply exact_signed; [lia|done|by apply exact_le]|]. intros v bs. split; [by intros (a & H & ->)|]. destruct v; try done. by eexists.
  - apply (exact_map _ _ GvF64 (f_le 8)); [by apply exact_le|scalar].
Qed.

(** A code, then what the code announces. *)
Lemma exact_tag {T B} pos (from : Z -> option T) (code : T -> Z) (e : GgufError) (k : T -> Reader B) (f : T -> format B) :
  (forall v t, from v = Some t <-> v = code t) -> (forall t, 0 <= code t < 2 ^ 32) -> (forall t pos, exact pos (k t) (f t)) ->
  exact pos (raw ← read_u32_le; match from raw with None => rd_err e | Some t => k t end) (fun b bs => exists t b2, bs = to_le_bytes 4 (code t) ++ b2 /\ f t b b2).
Proof.
  intros Hfrom Hcode Hk. eapply exact_iff.
  - apply (exact_bind data pos read_u32_le _ (f_le 4) (fun raw _ b bs => match from raw with None => False | Some t => f t b bs end)); [by apply exact_le|].
    intros raw b1 _. destruct (from raw); [apply Hk|apply exact_err].
  - intros b bs. split.
    + intros (raw & b1 & b2 & -> & [_ ->] & H). destruct (from raw) as [t|] eqn:E; [|done]. apply Hfrom in E as ->. by exists t, b2.
    + intros (t & b2 & -> & H). exists (code t), (to_le_bytes 4 (code t)), b2. split; [done|]. split; [by split|]. by rewrite (proj2 (Hfrom (code t) t) eq_refl).
Qed.

(** A count within the limit, then what is read with it. *)
Lemma exact_count {B} pos n limit (e : GgufError) (k : Z -> Reader B) (f : Z -> format B) : Z.of_nat n <= 8 ->
  (forall c pos, 0 <= c <= limit -> exact pos (k c) (f c)) ->
  exact pos (c ← read_num_le n; if limit <? c then rd_err e else k c) (fun b bs => exists c b2, 0 <= c < 2 ^ (8 * Z.of_nat n) /\ c <= limit /\ bs = to_le_bytes n c ++ b2 /\ f c b b2).
Proof.
  intros Hn Hk. eapply exact_iff.
  - apply (exact_bind data pos (read_num_le n) _ (f_le n) (fun c _ b bs => if limit <? c then False else f c b bs)); [by apply exact_le|].
    intros c b1 [Hc _]. destruct (Z.ltb_spec limit c); [apply exact_err|apply Hk; lia].
  - intros b bs. split.
    + intros (c & b1 & b2 & -> & [Hc ->] & H). destruct (Z.ltb_spec limit c); [done|]. by exists c, b2.
    + intros (c & b2 & Hc & Hle & -> & H). exists c, (to_le_bytes n c), b2. split; [done|]. split; [by split|]. by rewrite (proj2 (Z.ltb_ge _ _)).
Qed.

Lemma exact_array t pos :
  exact pos (count ← read_u64_le; if MAX_TENSOR_COUNT <? count then rd_err GeElementCount else elements ← read_n (Z.to_nat count) (read_value_of_type t); mret (GvArray elements))
    (fun v bs => exists l b, v = GvArray l /\ Z.of_nat (length l) <= MAX_TENSOR_COUNT /\ f_list (f_scalar t) l b /\ bs = to_le_bytes 8 (Z.of_nat (length l)) ++ b).
Proof.
  eapply exact_iff.
  - apply (exact_count pos 8 MAX_TENSOR_COUNT _ _ (fun c v bs => exists l, (length l = Z.to_nat c /\ f_list (f_scalar t) l bs) /\ v = GvArray l)); [done|].
    intros c pos' _. apply exact_fmap, exact_n. intros q. apply exact_scalar.
  - intros v bs. split.
    + intros (c & b2 & Hc & Hle & -> & l & [Hn Hl'] & ->). exists l, b2. replace (Z.of_nat (length l)) with c by lia. done.
    + intros (l & b & -> & Hle & Hl' & ->). exists (Z.of_nat (length l)), b. split; [unfold MAX_TENSOR_COUNT in Hle; cbn; lia|]. split; [done|]. split; [done|]. exists l. by rewrite Nat2Z.id.
Qed.

Lemma exact_value pos : exact pos read_metadata_value f_value.
Proof.
  eapply exact_iff.
  - apply (exact_tag pos value_type_from_u32 value_type_code _
      (fun vtype => match vtype with
         | GtArray => elem_type_raw ← read_u32_le;
             match value_type_from_u32 elem_type_raw with
             | None => rd_err GeElementType
             | Some elem_type => count ← read_u64_le; if MAX_TENSOR_COUNT <? count then rd_err GeElementCount else elements ← read_n (Z.to_nat count) (read_value_of_type elem_type); mret (GvArray elements) end
         | t => read_value_of_type t end)
      (fun vtype v bs => match vtype with
         | GtArray => exists t b2, bs = to_le_bytes 4 (value_type_code t) ++ b2 /\ exists l b, v = GvArray l /\ Z.of_nat (length l) <= MAX_TENSOR_COUNT /\ f_list (f_scalar t) l b /\ b2 = to_le_bytes 8 (Z.of_nat (length l)) ++ b
         | t => f_scalar t v bs end) value_type_from_code value_type_code_u32).
    intros t p. pose proof (exact_scalar t p) as H. destruct t; try exact H. apply (exact_tag p value_type_from_u32 value_type_code); [exact value_type_from_code|exact value_type_code_u32|]. intros t q. apply exact_array.
  - intros v bs. unfold f_value. split.
    + intros (t & b2 & -> & H). destruct t; try (left; by eexists _, b2). destruct H as (t & b3 & -> & l & b & -> & Hn & Hl' & ->). right. by exists t, l, b.
    + intros [(t & b & -> & H)|(t & l & b & -> & Hn & Hl' & ->)].
      * exists t, b. split; [done|]. destruct t; try done; by destruct v.
      * exists GtArray. eexists. split; [done|]. eexists t, _. split; [done|]. by exists l, b.
Qed.

Lemma exact_kv pos : exact pos read_kv f_kv.
Proof.
  eapply exact_iff.
  - apply (exact_bind data pos read_string _ f_string (fun k _ kv bs => exists v, f_value v bs /\ kv = (k, v))); [apply exact_string|]. intros k b1 _. apply exact_fmap, exact_value.
  - intros [k v] bs. unfold f_kv. split.
    + intros (k' & b1 & b2 & -> & H & v' & Hv & [= -> ->]). by exists b1, b2.
    + intros (b1 & b2 & Hk & Hv & ->). exists k, b1, b2. split; [done|]. split; [done|]. by exists v.
Qed.

Lemma exact_tensor pos : exact pos read_tensor_info f_tensor.
Proof.
  unfold read_tensor_info. eapply exact_iff.
  - apply (exact_bind data pos read_string _ f_string (fun name _ t bs => exists n b2, 0 <= n < 2 ^ (8 * Z.of_nat 4) /\ n <= 8 /\ bs = to_le_bytes 4 n ++ b2 /\
      exists dims b3 b4, b2 = b3 ++ b4 /\ (length dims = Z.to_nat n /\ f_list (f_le 8) dims b3) /\ exists d b5, b4 = to_le_bytes 4 (dtype_code d) ++ b5 /\ exists o, f_le 8 o b5 /\ t = {| ti_name := name; ti_n_dimensions := n; ti_dimensions := dims; ti_dtype := d; ti_offset := o |})); [apply exact_string|].
    intros name b1 _. apply (exact_count _ 4 8 GeDimensions _ (fun n t bs => exists dims b3 b4, bs = b3 ++ b4 /\ (length dims = Z.to_nat n /\ f_list (f_le 8) dims b3) /\ exists d b5, b4 = to_le_bytes 4 (dtype_code d) ++ b5 /\ exists o, f_le 8 o b5 /\ t = {| ti_name := name; ti_n_dimensions := n; ti_dimensions := dims; ti_dtype := d; ti_offset := o |})); [done|].
    intros n p _. apply (exact_bind data p _ _ _ (fun dims _ t bs => exists d b5, bs = to_le_bytes 4 (dtype_code d) ++ b5 /\ exists o, f_le 8 o b5 /\ t = {| ti_name := name; ti_n_dimensions := n; ti_dimensions := dims; ti_dtype := d; ti_offset := o |})); [apply exact_n; intros q; by apply exact_le|].
    intros dims b3 _. apply (exact_tag _ dtype_from_u32 dtype_code); [exact dtype_from_code|exact dtype_code_u32|]. intros d q. apply exact_fmap. by apply exact_le.
  - intros [name n dims d o] bs. unfold f_tensor. cbn [ti_name ti_n_dimensions ti_dimensions ti_dtype ti_offset]. split.
    + intros (nm & b1 & b2 & -> & Hs & n' & b3 & Hn & Hle & -> & dm & b4 & b5 & -> & [Hl' Hf] & d' & b6 & -> & o' & Ho & [= -> -> -> -> ->]).
      exists b1, b4, b6. split_and!; try done. by rewrite Hl', Z2Nat.id by lia.
    + intros (b1 & b2 & b3 & Hs & Hf & Ho & Hn & Hle & ->). exists name, b1. eexists. split; [done|]. split; [done|]. exists n. eexists. split; [cbn; lia|]. split; [done|]. split; [done|].
      exists dims, b2. eexists. split; [done|]. split; [split; [lia|done]|]. exists d, b3. split; [done|]. by exists o.
Qed.

(** The position is the sum of all that was read. *)
Lemma align_up_padded pos : 0 <= pos <= Z.of_nat (length data) -> align_up_to pos GGUF_DEFAULT_ALIGNMENT = Done (padded pos).
Proof.
  intros Hp. unfold align_up_to, GGUF_DEFAULT_ALIGNMENT, padded. rewrite add64_done by lia. cbn [mbind run_bind]. unfold sub64. rewrite !(proj2 (Z.leb_le _ _)) by lia. cbn [mbind run_bind]. f_equal.
  change (32 - 1) with (2 ^ 5 - 1). rewrite land_not_mask by (unfold is_u64; lia). replace (pos + 32 - 1) with (pos + 31) by lia. change (2 ^ 5) with 32. pose proof (Z.div_mod (pos + 31) 32 ltac:(lia)). lia.
Qed.

Lemma exact_data_offset pos : exact pos read_data_offset (fun o bs => o = padded pos /\ bs = []).
Proof. intros Hp. unfold read_data_offset. rewrite align_up_padded by done. cbn [mbind run_bind]. exists []. split_and!; [apply prefix_nil|cbn; lia|done|done|]. by intros a' bs' [-> ->]. Qed.
End Leaves.

Section Header.
Context (data : list Z) (Hd : Forall is_u8 data) (Hl : Z.of_nat (length data) < 2 ^ 63).
Notation exact := (exact_at data).
Notation mk v tc md ts o := {| gh_version := v; gh_tensor_count := tc; gh_metadata := md; gh_tensors := ts; gh_data_offset := o |}.

Lemma exact_tensors v tc md n pos :
  exact pos (tensors ← read_n n read_tensor_info; data_offset ← read_data_offset; mret (mk v tc md tensors data_offset))
    (fun h bs => exists ts, (length ts = n /\ f_list f_tensor ts bs) /\ h = mk v tc md ts (padded (pos + Z.of_nat (length bs)))).
Proof.
  eapply exact_iff.
  - apply (exact_bind data pos _ _ (fun l bs => length l = n /\ f_list f_tensor l bs) (fun ts b1 h bs => exists o, (o = padded (pos + Z.of_nat (length b1)) /\ bs = []) /\ h = mk v tc md ts o)); [apply exact_n; intros q; by apply exact_tensor|].
    intros ts b1 _. apply (exact_fmap data _ _ (fun o => mk v tc md ts o)). by apply exact_data_offset.
  - intros h bs. split.
    + intros (ts & b1 & b2 & -> & Hts & o & [-> ->] & ->). rewrite app_nil_r. by exists ts.
    + intros (ts & Hts & ->). exists ts, bs, []. rewrite app_nil_r. split; [done|]. split; [done|]. by eexists.
Qed.

Lemma exact_lists v tc n m pos :
  exact pos (metadata ← read_n m read_kv; tensors ← read_n n read_tensor_info; data_offset ← read_data_offset; mret (mk v tc metadata tensors data_offset))
    (fun h bs => exists md ts b1 b2, bs = b1 ++ b2 /\ (length md = m /\ f_list f_kv md b1) /\ (length ts = n /\ f_list f_tensor ts b2) /\ h = mk v tc md ts (padded (pos + Z.of_nat (length bs)))).
Proof.
  eapply exact_iff.
  - apply (exact_bind data pos _ _ (fun l bs => length l = m /\ f_list f_kv l bs) (fun md b1 h bs => exists ts, (length ts = n /\ f_list f_tensor ts bs) /\ h = mk v tc md ts (padded (pos + Z.of_nat (length b1) + Z.of_nat (length bs))))); [apply exact_n; intros q; by apply exact_kv|].
    intros md b1 _. apply exact_tensors.
  - intros h bs. split.
    + intros (md & b1 & b2 & -> & Hmd & ts & Hts & ->). exists md, ts, b1, b2. split_and!; try done; try apply Hmd; try apply Hts. f_equal. f_equal. rewrite length_app. lia.
    + intros (md & ts & b1 & b2 & -> & Hmd & Hts & ->). exists md, b1, b2. split; [done|]. split; [done|]. exists ts. split; [done|]. f_equal. f_equal. rewrite length_app. lia.
Qed.

(** A number that is tested. *)
Lemma exact_guard {B} pos n (test : Z -> bool) (e : GgufError) (k : Z -> Reader B) (f : Z -> format B) : Z.of_nat n <= 8 ->
  (forall c, exact (pos + Z.of_nat n) (k c) (f c)) ->
  exact pos (c ← read_num_le n; if test c then rd_err e else k c) (fun b bs => exists c b2, 0 <= c < 2 ^ (8 * Z.of_nat n) /\ test c = false /\ bs = to_le_bytes n c ++ b2 /\ f c b b2).
Proof.
  intros Hn Hk. eapply exact_iff.
  - apply (exact_bind data pos (read_num_le n) _ (f_le n) (fun c _ b bs => if test c then False else f c b bs)); [by apply exact_le|].
    intros c b1 [_ ->]. rewrite to_le_bytes_length. destruct (test c); [apply exact_err|apply Hk].
  - intros b bs. split.
    + intros (c & b1 & b2 & -> & [Hc ->] & H). destruct (test c) eqn:E; [done|]. by exists c, b2.
    + intros (c & b2 & Hc & Ht & -> & H). exists c, (to_le_bytes n c), b2. split; [done|]. split; [by split|]. by rewrite Ht.
Qed.

Lemma exact_counts v pos :
  exact pos (tensor_count ← read_u64_le; metadata_kv_count ← read_u64_le;
      if MAX_TENSOR_COUNT <? tensor_count then rd_err GeTensorCount else if MAX_TENSOR_COUNT <? metadata_kv_count then rd_err GeMetadataCount else
      metadata ← read_n (Z.to_nat metadata_kv_count) read_kv; tensors ← read_n (Z.to_nat tensor_count) read_tensor_info; data_offset ← read_data_offset; mret (mk v tensor_count metadata tensors data_offset))
    (fun h bs => exists md ts b1 b2, bs = to_le_bytes 8 (Z.of_nat (length ts)) ++ to_le_bytes 8 (Z.of_nat (length md)) ++ b1 ++ b2 /\
      Z.of_nat (length md) <= MAX_TENSOR_COUNT /\ Z.of_nat (length ts) <= MAX_TENSOR_COUNT /\ f_list f_kv md b1 /\ f_list f_tensor ts b2 /\
      h = mk v (Z.of_nat (length ts)) md ts (padded (pos + Z.of_nat (length bs)))).
Proof.
  eapply exact_iff.
  - apply (exact_bind data pos read_u64_le _ (f_le 8) (fun tc b0 h bs => exists mc b', 0 <= mc < 2 ^ 64 /\ bs = to_le_bytes 8 mc ++ b' /\ tc <= MAX_TENSOR_COUNT /\ mc <= MAX_TENSOR_COUNT /\
      exists md ts b1 b2, b' = b1 ++ b2 /\ (length md = Z.to_nat mc /\ f_list f_kv md b1) /\ (length ts = Z.to_nat tc /\ f_list f_tensor ts b2) /\ h = mk v tc md ts (padded (pos + 16 + Z.of_nat (length b'))))); [by apply exact_le|].
    intros tc b0 [Htc ->]. rewrite to_le_bytes_length. eapply exact_iff.
    + apply (exact_bind data _ read_u64_le _ (f_le 8) (fun mc _ h bs => if MAX_TENSOR_COUNT <? tc then False else if MAX_TENSOR_COUNT <? mc then False else
        exists md ts b1 b2, bs = b1 ++ b2 /\ (length md = Z.to_nat mc /\ f_list f_kv md b1) /\ (length ts = Z.to_nat tc /\ f_list f_tensor ts b2) /\ h = mk v tc md ts (padded (pos + 16 + Z.of_nat (length bs))))); [by apply exact_le|].
      intros mc b1 [Hmc ->]. rewrite to_le_bytes_length. apply exact_if; [apply exact_err|]. apply exact_if; [apply exact_err|].
      replace (pos + 16) with (pos + Z.of_nat 8 + Z.of_nat 8) by lia. apply exact_lists.
    + intros h bs. split.
      * intros (mc & b1 & b2 & -> & [Hmc ->] & H). destruct (Z.ltb_spec MAX_TENSOR_COUNT tc); [done|]. destruct (Z.ltb_spec MAX_TENSOR_COUNT mc); [done|]. by exists mc, b2.
      * intros (mc & b' & Hmc & -> & Htc' & Hmc' & H). exists mc, (to_le_bytes 8 mc), b'. split; [done|]. split; [by split|]. by rewrite !(proj2 (Z.ltb_ge _ _)).
  - intros h bs. split.
    + intros (tc & b0 & b2 & -> & [Htc ->] & mc & b' & Hmc & -> & Htc' & Hmc' & md & ts & b3 & b4 & -> & [Lm Fm] & [Lt Ft] & ->).
      replace mc with (Z.of_nat (length md)) by lia. replace tc with (Z.of_nat (length ts)) by lia. exists md, ts, b3, b4. split_and!; try done; try lia. f_equal. f_equal. rewrite !length_app, !to_le_bytes_length. lia.
    + intros (md & ts & b1 & b2 & -> & Hm & Ht & Fm & Ft & ->). exists (Z.of_nat (length ts)). do 2 eexists. split; [done|]. unfold MAX_TENSOR_COUNT in *. split; [split; [cbn; lia|done]|].
      exists (Z.of_nat (length md)), (b1 ++ b2). split; [cbn; lia|]. split; [done|]. split; [done|]. split; [done|].
      exists md, ts, b1, b2. split_and!; try done; try lia. f_equal. f_equal. rewrite !length_app, !to_le_bytes_length. lia.
Qed.

Lemma exact_header : exact 0 read_header (f_header (to_le_bytes 4 GGUF_MAGIC)).
Proof.
  unfold read_header. eapply exact_iff.
  - apply (exact_guard 0 4 (fun m => negb (m =? GGUF_MAGIC)) GeMagic _ (fun _ h bs => exists v b2, 0 <= v < 2 ^ (8 * Z.of_nat 4) /\ negb (v =? 2) && negb (v =? GGUF_VERSION_3) = false /\ bs = to_le_bytes 4 v ++ b2 /\
      exists md ts b1 b2', b2 = to_le_bytes 8 (Z.of_nat (length ts)) ++ to_le_bytes 8 (Z.of_nat (length md)) ++ b1 ++ b2' /\ Z.of_nat (length md) <= MAX_TENSOR_COUNT /\ Z.of_nat (length ts) <= MAX_TENSOR_COUNT /\
        f_list f_kv md b1 /\ f_list f_tensor ts b2' /\ h = mk v (Z.of_nat (length ts)) md ts (padded (8 + Z.of_nat (length b2))))); [done|].
    intros _. apply (exact_guard _ 4 (fun v => negb (v =? 2) && negb (v =? GGUF_VERSION_3)) GeVersion _ (fun v h b2 => exists md ts b1 b2', b2 = to_le_bytes 8 (Z.of_nat (length ts)) ++ to_le_bytes 8 (Z.of_nat (length md)) ++ b1 ++ b2' /\ Z.of_nat (length md) <= MAX_TENSOR_COUNT /\ Z.of_nat (length ts) <= MAX_TENSOR_COUNT /\
        f_list f_kv md b1 /\ f_list f_tensor ts b2' /\ h = mk v (Z.of_nat (length ts)) md ts (padded (8 + Z.of_nat (length b2))))); [done|]. intros v. exact (exact_counts v 8).
  - intros h bs. unfold f_header. split.
    + intros (m & b2 & Hm & Em & -> & v & b3 & Hv & Ev & -> & md & ts & b4 & b5 & -> & Lm & Lt & Fm & Ft & ->). apply negb_false_iff, Z.eqb_eq in Em as ->.
      exists b4, b5. cbn [gh_version gh_tensor_count gh_metadata gh_tensors gh_data_offset]. split_and!; try done.
      * unfold GGUF_VERSION_3 in Ev. destruct (Z.eqb_spec v 2); [by left|]. destruct (Z.eqb_spec v 3); [by right|done].
      * f_equal. rewrite !length_app, !to_le_bytes_length. lia.
    + destruct h as [v tc md ts o]. cbn [gh_version gh_tensor_count gh_metadata gh_tensors gh_data_offset]. intros (b1 & b2 & Hv & -> & Lm & Lt & Fm & Ft & -> & ->). exists GGUF_MAGIC. eexists. split; [unfold GGUF_MAGIC; cbn; lia|]. split; [done|]. split; [done|].
      exists v. eexists. split; [cbn; lia|]. split; [by destruct Hv as [-> | ->]|]. split; [done|]. exists md, ts, b1, b2. split_and!; try done. f_equal. f_equal. rewrite !length_app, !to_le_bytes_length. lia.
Qed.
End Header.

(** The first four bytes decide. *)
Lemma magic_checked magic rest : Forall is_u8 magic -> length magic = 4%nat -> magic <> to_le_bytes 4 GGUF_MAGIC -> parse_gguf (magic ++ rest) = Done (Err GeMagic).
Proof.
  intros Hu Hl Hne. destruct magic as [|a [|b [|c [|d [|]]]]]; try done. unfold parse_gguf, read_header, read_u32_le, mbind, reader_bind, read_num_le.
  change (checked_add64 0 (Z.of_nat 4)) with (Some 4). cbv iota beta. unfold slice_get. rewrite (proj2 (Z.leb_le 0 4)), (proj2 (Z.leb_le 4 _)) by (rewrite ?length_app; cbn [length]; lia). cbn [andb].
  change (take _ (drop _ ([a; b; c; d] ++ rest))) with [a; b; c; d]. cbn [mbind run_bind].
  destruct (Z.eqb_spec (from_le_bytes [a; b; c; d]) GGUF_MAGIC) as [E|]; [|done]. destruct Hne. rewrite <- E. symmetry. by apply (to_from_le_bytes [a; b; c; d]).
Qed.

(** C29: the parser of model files. On every slice of bytes the parser returns,
    never panics, and it accepts exactly the slices that begin with the four
    bytes 46 47 55 46 and, behind them, the rest of a file of the format:
    version 2 or 3, at most 100000 metadata entries, tensors and values in an
    array, strings of at most 1 MiB of UTF-8 text, at most eight dimensions.  It
    returns the one header there is: the version, the metadata with every value
    of the type its tag says, the tensors with as many dimensions as announced,
    and as data offset the next multiple of 32 after what it read.  Those four
    bytes are not the format's: a slice that begins with any other four bytes
    is refused as [GeMagic], so every file with the bytes that the comment of
    the constant gives (46 55 47 47), and every file that begins with GGUF
    (47 47 55 46), is refused whatever follows. *)
Theorem gguf_exact (data : list Z) (Hd : Forall is_u8 data) (Hl : Z.of_nat (length data) < 2 ^ 63) :
  (exists r, parse_gguf data = Done r) /\ (forall h, parse_gguf data = Done (Ok h) <-> exists bs rest, data = bs ++ rest /\ f_header [0x46; 0x47; 0x55; 0x46] h bs) /\
  (forall magic, length magic = 4%nat -> magic <> [0x46; 0x47; 0x55; 0x46] -> magic `prefix_of` data -> parse_gguf data = Done (Err GeMagic)) /\
  (forall magic h bs rest, magic = documented_magic \/ magic = gguf_letters -> f_header magic h bs -> data = bs ++ rest -> parse_gguf data = Done (Err GeMagic)).
Proof.
  assert (forall magic, length magic = 4%nat -> magic <> [0x46; 0x47; 0x55; 0x46] -> magic `prefix_of` data -> parse_gguf data = Done (Err GeMagic)) as Hm.
  { intros magic H4 Hne [rest E]. rewrite E in Hd |- *. apply Forall_app in Hd as [Hd _]. by apply magic_checked. }
  assert ((exists r, parse_gguf data = Done r) /\ (forall h, parse_gguf data = Done (Ok h) <-> exists bs rest, data = bs ++ rest /\ f_header [0x46; 0x47; 0x55; 0x46] h bs)) as [H1 H2].
  { pose proof (exact_header data Hd Hl ltac:(lia)) as H. change (to_le_bytes 4 GGUF_MAGIC) with [0x46; 0x47; 0x55; 0x46] in H. unfold parse_gguf. change (drop (Z.to_nat 0) data) with data in H. destruct (read_header data 0) as [[[h p]|e]|]; cbn [mbind run_bind]; [| |done].
    - destruct H as (bs & [rest ->] & _ & Hf & Hu). split; [by eexists|]. intros h'. split; [intros [= <-]; by exists bs, rest|]. intros (bs' & rest' & E & Hf'). do 2 f_equal. symmetry. apply (Hu h' bs' Hf'). by exists rest'.
    - split; [by eexists|]. intros h'. split; [done|]. intros (bs' & rest' & -> & Hf'). exfalso. apply (H h' bs' Hf'). by eexists. }
  split; [exact H1|]. split; [exact H2|]. split; [exact Hm|].
  intros magic h bs rest Hor (b1 & b2 & _ & _ & _ & _ & _ & _ & _ & Eb) E. apply (Hm magic); [by destruct Hor as [-> | ->]|by destruct Hor as [-> | ->]|]. rewrite E, Eb, <- app_assoc. by eexists.
Qed.

(** Two metadata entries, an array of two signed bytes and a string, one
    tensor of two dimensions, and data behind them. *)
Definition demo_gguf_header : GgufHeader :=
  {| gh_version := 3; gh_tensor_count := 1; gh_metadata := [([97], GvArray [GvI8 (-1); GvI8 5]); ([98], GvString [104; 105])];
     gh_tensors := [{| ti_name := [119]; ti_n_dimensions := 2; ti_dimensions := [4096; 32000]; ti_dtype := GdF16; ti_offset := 64 |}]; gh_data_offset := 128 |}.
Definition demo_gguf : list Z :=
  [0x46; 0x47; 0x55; 0x46; 3; 0; 0; 0; 1; 0; 0; 0; 0; 0; 0; 0; 2; 0; 0; 0; 0; 0; 0; 0]
  ++ [1; 0; 0; 0; 0; 0; 0; 0; 97; 9; 0; 0; 0; 1; 0; 0; 0; 2; 0; 0; 0; 0; 0; 0; 0; 255; 5]
  ++ [1; 0; 0; 0; 0; 0; 0; 0; 98; 8; 0; 0; 0; 2; 0; 0; 0; 0; 0; 0; 0; 104; 105]
  ++ [1; 0; 0; 0; 0; 0; 0; 0; 119; 2; 0; 0; 0; 0; 16; 0; 0; 0; 0; 0; 0; 0; 125; 0; 0; 0; 0; 0; 0; 1; 0; 0; 0; 64; 0; 0; 0; 0; 0; 0; 0] ++ repeat 7 50.

Lemma gguf_exact_witness : exists bs rest, demo_gguf = bs ++ rest /\ f_header [0x46; 0x47; 0x55; 0x46] demo_gguf_header bs.
Proof.
  destruct (gguf_exact demo_gguf) as (_ & H & _); [repeat (constructor; [unfold is_u8; lia|]); constructor|vm_compute; reflexivity|]. apply (H demo_gguf_header). vm_compute. reflexivity.
Defined.

(** ** Departures *)

(** The magic number is off by one: its bytes spell FGUF, and a file that
    begins with GGUF is refused. *)
Example gguf_magic_refused : to_le_bytes 4 GGUF_MAGIC = [0x46; 0x47; 0x55; 0x46] /\ parse_gguf ([0x47; 0x47; 0x55; 0x46] ++ to_le_bytes 4 3 ++ repeat 0 16) = Done (Err GeMagic).
Proof. split; vm_compute; reflexivity. Qed.

(** A tensor offset need not be a multiple of the alignment. *)
Example offset_not_aligned : exists h t, parse_gguf (to_le_bytes 4 GGUF_MAGIC ++ to_le_bytes 4 3 ++ to_le_bytes 8 1 ++ repeat 0 8 ++ repeat 0 8 ++ repeat 0 4 ++ repeat 0 4 ++ to_le_bytes 8 33) = Done (Ok h) /\ gh_tensors h = [t] /\ ti_offset t = 33.
Proof. eexists _, _. split; [vm_compute; reflexivity|]. by split. Qed.
