(* ===== verification/Bpe.v ===== *)
(** * The byte-pair tokenizer
    (omni-runtime: bpe.rs)

    Vocabulary, merge rules, encoding and decoding. *)

From Stdlib Require Import ZArith Lia.
From stdpp Require Import base numbers list gmap strings.
From S2P Require Import Prelude Str.

Record SpecialTokens := { st_bos : Z; st_eos : Z; st_pad : Z; st_unk : Z }.

Record BpeVocabulary := {
  token_to_id : gmap (list Z) Z;
  id_to_token : gmap Z (list Z);
  bv_merges : list (list Z * list Z);
  special_tokens : SpecialTokens;
  vocab_size : Z;
}.

(** The loop of [new], which fills both maps. *)
Fixpoint insert_tokens (tokens : list (Z * list Z)) (t2i : gmap (list Z) Z) (i2t : gmap Z (list Z)) : gmap (list Z) Z * gmap Z (list Z) :=
  match tokens with
  | [] => (t2i, i2t)
  | (id, bytes) :: tokens => insert_tokens tokens (<[bytes := id]> t2i) (<[id := bytes]> i2t)
  end.

Definition bpe_new (tokens : list (Z * list Z)) (merges : list (list Z * list Z)) (special : SpecialTokens) : BpeVocabulary :=
  let '(t2i, i2t) := insert_tokens tokens ∅ ∅ in
  {| token_to_id := t2i; id_to_token := i2t; bv_merges := merges; special_tokens := special; vocab_size := Z.min (Z.of_nat (length tokens)) u32_max |}.

Definition token_id (v : BpeVocabulary) (token : list Z) : option Z := token_to_id v !! token.
Definition token_bytes (v : BpeVocabulary) (id : Z) : option (list Z) := id_to_token v !! id.

Abbreviation merge_map := (gmap (list Z * list Z) Z).

(** [iter().enumerate().map(..).collect()]: of two equal rules the later one stays. *)
Fixpoint index_merges (i : Z) (merges : list (list Z * list Z)) (m : merge_map) : merge_map :=
  match merges with [] => m | rule :: merges => index_merges (i + 1) merges (<[rule := i]> m) end.
Definition build_merge_index (v : BpeVocabulary) : merge_map := index_merges 0 (bv_merges v) ∅.

(** The scan over adjacent pairs for the best priority, leftmost first. *)
Fixpoint scan_pairs (index : merge_map) (tokens : list (list Z)) (i : nat) (best : Z * option nat) : Z * option nat :=
  match tokens with
  | ltok :: ((rtok :: _) as rest) =>
      let best := match index !! (ltok, rtok) with Some priority => if priority <? fst best then (priority, Some i) else best | None => best end in
      scan_pairs index rest (S i) best
  | _ => best
  end.

(** [tokens.remove(pos + 1)], appended to [tokens[pos]]. *)
Definition merge_at (pos : nat) (tokens : list (list Z)) : run (list (list Z)) :=
  match tokens !! S pos with
  | None => Panicked
  | Some rtok => Done (alter (fun t => t ++ rtok) pos (delete (S pos) tokens))
  end.

Fixpoint merge_loop (fuel : nat) (index : merge_map) (tokens : list (list Z)) : run (list (list Z)) :=
  match fuel with
  | O => Panicked
  | S n => match snd (scan_pairs index tokens 0 (u64_max, None)) with
      | None => Done tokens
      | Some pos => tokens ← merge_at pos tokens; merge_loop n index tokens end
  end.

(** A text of [n] bytes is merged at most [n - 1] times. *)
Definition encode (v : BpeVocabulary) (text : str) : run (list Z) :=
  if bool_decide (text = []) then Done [] else
  tokens ← merge_loop (length text) (build_merge_index v) (map (fun b => [b]) text);
  Done (map (fun t => default (st_unk (special_tokens v)) (token_id v t)) tokens).

Definition encode_with_special (v : BpeVocabulary) (text : str) : run (list Z) :=
  ids ← encode v text; Done (st_bos (special_tokens v) :: ids ++ [st_eos (special_tokens v)]).

Definition skipped (s : SpecialTokens) (id : Z) : bool := (id =? st_bos s) || (id =? st_eos s) || (id =? st_pad s).
Fixpoint decode_bytes (v : BpeVocabulary) (ids : list Z) : list Z :=
  match ids with
  | [] => []
  | id :: ids => if skipped (special_tokens v) id then decode_bytes v ids else default REPLACEMENT (token_bytes v id) ++ decode_bytes v ids
  end.
Definition decode (v : BpeVocabulary) (ids : list Z) : str := from_utf8_lossy (decode_bytes v ids).

Definition minimal_tokens : list (Z * list Z) :=
  map (fun b => (b, [b])) (seqZ 0 256)
  ++ [(256, lit "<|bos|>"); (257, lit "<|eos|>"); (258, lit "<|pad|>"); (259, lit "<|unk|>"); (260, lit "he"); (261, lit "ll"); (262, lit "hell"); (263, lit "o "); (264, lit "th"); (265, lit "the")].
Definition minimal_merges : list (list Z * list Z) :=
  [(lit "h", lit "e"); (lit "l", lit "l"); (lit "he", lit "ll"); (lit "o", lit " "); (lit "t", lit "h"); (lit "th", lit "e")].
Definition minimal_special : SpecialTokens := {| st_bos := 256; st_eos := 257; st_pad := 258; st_unk := 259 |}.
Definition minimal_test_vocab : BpeVocabulary := bpe_new minimal_tokens minimal_merges minimal_special.

(** ** What a merge is

    The rules in their order: the place of a rule is its priority, 0 first.  A
    step merges one pair that is a rule, and no other pair of the list is an
    earlier rule, or the same rule further to the left. *)
Inductive bpe_step (merges : list (list Z * list Z)) : list (list Z) -> list (list Z) -> Prop :=
| bpe_merge l1 a b l2 p : merges !! p = Some (a, b) ->
    (forall m1 c d m2 q, l1 ++ a :: b :: l2 = m1 ++ c :: d :: m2 -> merges !! q = Some (c, d) -> (p < q \/ p = q /\ length l1 <= length m1)%nat) ->
    bpe_step merges (l1 ++ a :: b :: l2) (l1 ++ (a ++ b) :: l2).

(** No pair is a rule. *)
Definition bpe_final (merges : list (list Z * list Z)) (l : list (list Z)) : Prop := forall l1 a b l2, l = l1 ++ a :: b :: l2 -> (a, b) ∉ merges.

(** The same with the priorities of a map, as the loop has them. *)

(** The priority of the pair at position [k]. *)
Definition pair_prio (index : merge_map) (l : list (list Z)) (k : nat) : option Z :=
  match l !! k, l !! S k with Some a, Some b => index !! (a, b) | _, _ => None end.

(** The pair merged has the best priority and is the first of that priority. *)
Inductive index_step (index : merge_map) : list (list Z) -> list (list Z) -> Prop :=
| index_merge l1 a b l2 p : index !! (a, b) = Some p ->
    (forall k q, pair_prio index (l1 ++ a :: b :: l2) k = Some q -> p <= q) ->
    (forall k q, (k < length l1)%nat -> pair_prio index (l1 ++ a :: b :: l2) k = Some q -> p < q) ->
    index_step index (l1 ++ a :: b :: l2) (l1 ++ (a ++ b) :: l2).

(** No pair has a rule. *)
Definition index_final (index : merge_map) (l : list (list Z)) : Prop := forall k, pair_prio index l k = None.

Lemma pair_prio_split (index : merge_map) l k p : pair_prio index l k = Some p -> exists l1 a b l2, l = l1 ++ a :: b :: l2 /\ length l1 = k /\ index !! (a, b) = Some p.
Proof.
  unfold pair_prio. destruct (l !! k) as [a|] eqn:Ea; [|done]. destruct (l !! S k) as [b|] eqn:Eb; [|done]. intros H. exists (take k l), a, b, (drop (S (S k)) l).
  split; [|split; [apply length_take_le; apply lookup_lt_Some in Ea; lia|done]]. rewrite <- (take_drop k l) at 1. f_equal. by rewrite (drop_S _ _ _ Ea), (drop_S _ _ _ Eb).
Qed.

Lemma index_merges_lookup pr merges : forall i m,
  index_merges i merges m !! pr = match list_find (fun x => x = pr) (rev merges) with Some (k, _) => Some (i + Z.of_nat (length merges) - 1 - Z.of_nat k) | None => m !! pr end.
Proof.
  induction merges as [|x merges IH]; intros i m; cbn [index_merges rev length]; [done|]. rewrite IH.
  destruct (list_find _ (rev merges)) as [[k y]|] eqn:E.
  - rewrite (list_find_app_l _ _ _ _ _ E). f_equal. lia.
  - rewrite list_find_app_r by done. cbn. destruct (decide (x = pr)) as [->|Hne]; cbn; [rewrite lookup_insert_eq, length_rev; f_equal; lia|by rewrite lookup_insert_ne].
Qed.

Lemma index_sound v a b p : build_merge_index v !! (a, b) = Some p -> (a, b) ∈ bv_merges v /\ 0 <= p < Z.of_nat (length (bv_merges v)).
Proof.
  unfold build_merge_index. rewrite index_merges_lookup. destruct (list_find _ _) as [[k y]|] eqn:E; [|by rewrite lookup_empty]. intros [= <-]. apply list_find_Some in E as (Hk & -> & _).
  apply lookup_lt_Some in Hk as Hlt. rewrite length_rev in Hlt. split; [|lia]. apply list_elem_of_lookup_2 in Hk. apply list_elem_of_In, in_rev, list_elem_of_In. done.
Qed.

Lemma index_complete v a b : (a, b) ∈ bv_merges v -> is_Some (build_merge_index v !! (a, b)).
Proof.
  intros H. unfold build_merge_index. rewrite index_merges_lookup. destruct (list_find _ _) as [[k y]|] eqn:E; [by eexists|]. exfalso. apply list_find_None in E. rewrite Forall_forall in E. apply (E (a, b)); [|done].
  apply list_elem_of_In. rewrite <- in_rev. by apply list_elem_of_In.
Qed.

(** When no rule is given twice the map holds the places. *)
Lemma index_places v pr p : NoDup (bv_merges v) -> build_merge_index v !! pr = Some p <-> 0 <= p /\ bv_merges v !! Z.to_nat p = Some pr.
Proof.
  intros Hnd. assert (forall p, build_merge_index v !! pr = Some p -> 0 <= p /\ bv_merges v !! Z.to_nat p = Some pr) as Hone.
  { intros q. unfold build_merge_index. rewrite index_merges_lookup. destruct (list_find _ _) as [[k y]|] eqn:E; [|by rewrite lookup_empty]. intros [= <-]. apply list_find_Some in E as (Hk & -> & _).
    rewrite rev_alt in Hk. apply reverse_lookup_Some in Hk as [Hk Hlt]. split; [lia|]. rewrite <- Hk. f_equal. lia. }
  split; [apply Hone|]. intros [H0 Hp]. destruct pr as [a b]. destruct (index_complete v a b ltac:(by eapply list_elem_of_lookup_2)) as [q Hq]. rewrite Hq. destruct (Hone q Hq) as [H1 Hq'].
  pose proof (NoDup_lookup _ _ _ _ Hnd Hp Hq'). f_equal. lia.
Qed.

(** The pair at a position, and a pair between two parts. *)
Lemma pair_prio_mid index l1 a b l2 : pair_prio index (l1 ++ a :: b :: l2) (length l1) = index !! (a, b).
Proof. unfold pair_prio. rewrite !lookup_app_r by lia. replace (S (length l1) - length l1)%nat with 1%nat by lia. by rewrite Nat.sub_diag. Qed.

Lemma index_step_rules v l l' : NoDup (bv_merges v) -> index_step (build_merge_index v) l l' <-> bpe_step (bv_merges v) l l'.
Proof.
  intros Hnd. split.
  - intros [l1 a b l2 p Hab Hmin Hleft]. apply (index_places v _ _ Hnd) in Hab as [H0 Hab]. apply (bpe_merge _ l1 a b l2 (Z.to_nat p) Hab). intros m1 c d m2 q E Hq.
    assert (pair_prio (build_merge_index v) (l1 ++ a :: b :: l2) (length m1) = Some (Z.of_nat q)) as Hpq by (rewrite E, pair_prio_mid; apply (index_places v _ _ Hnd); split; [lia|by rewrite Nat2Z.id]).
    pose proof (Hmin _ _ Hpq). destruct (Nat.lt_ge_cases (length m1) (length l1)) as [Hlt|Hge]; [pose proof (Hleft _ _ Hlt Hpq); lia|]. lia.
  - intros [l1 a b l2 p Hab Hmin]. apply (index_merge _ l1 a b l2 (Z.of_nat p)); [apply (index_places v _ _ Hnd); split; [lia|by rewrite Nat2Z.id]|..].
    1: intros k q Hq. 2: intros k q Hk Hq.
    all: destruct (pair_prio_split _ _ _ _ Hq) as (m1 & c & d & m2 & E & Em & Hcd); apply (index_places v _ _ Hnd) in Hcd as [H0 Hcd]; specialize (Hmin m1 c d m2 _ E Hcd); lia.
Qed.

Lemma index_final_rules v l : NoDup (bv_merges v) -> index_final (build_merge_index v) l <-> bpe_final (bv_merges v) l.
Proof.
  intros Hnd. split.
  - intros Hf l1 a b l2 -> Hin. specialize (Hf (length l1)). rewrite pair_prio_mid in Hf. destruct (index_complete v a b Hin) as [p Hp]. by rewrite Hp in Hf.
  - intros Hf k. destruct (pair_prio _ l k) as [p|] eqn:E; [|done]. destruct (pair_prio_split _ _ _ _ E) as (l1 & a & b & l2 & -> & _ & Hab). apply index_sound in Hab as [Hab _]. by destruct (Hf l1 a b l2 eq_refl).
Qed.

Lemma index_steps_rules v l l' : NoDup (bv_merges v) -> rtc (index_step (build_merge_index v)) l l' <-> rtc (bpe_step (bv_merges v)) l l'.
Proof. intros Hnd. split; induction 1 as [|? ? ? H ? IH]; try apply rtc_refl; (eapply rtc_l; [|exact IH]); by apply (index_step_rules v _ _ Hnd). Qed.

(** ** The scan *)

Section Merging.
Context (index : merge_map).

Lemma pair_prio_cons a l k : pair_prio index (a :: l) (S k) = pair_prio index l k.
Proof. done. Qed.

Lemma scan_cons a b l i best : scan_pairs index (a :: b :: l) i best =
  scan_pairs index (b :: l) (S i) (match index !! (a, b) with Some priority => if priority <? fst best then (priority, Some i) else best | None => best end).
Proof. done. Qed.

Lemma scan_spec l : forall i bp bo,
  (scan_pairs index l i (bp, bo) = (bp, bo) /\ forall k p, pair_prio index l k = Some p -> bp <= p) \/
  (exists k p, scan_pairs index l i (bp, bo) = (p, Some (i + k)%nat) /\ pair_prio index l k = Some p /\ p < bp /\
     (forall k' p', pair_prio index l k' = Some p' -> p <= p') /\ (forall k' p', (k' < k)%nat -> pair_prio index l k' = Some p' -> p < p')).
Proof.
  induction l as [|a [|b l] IH]; intros i bp bo; [left; split; [done|]; by intros []|left; split; [done|]; by intros []|]. rewrite scan_cons.
  assert (pair_prio index (a :: b :: l) 0 = index !! (a, b)) as H0 by done. destruct (index !! (a, b)) as [q|] eqn:Eq; cbn [fst]; [destruct (Z.ltb_spec q bp) as [Hlt|Hge]|].
  - right. destruct (IH (S i) q (Some i)) as [[E Hall]|(k & p & E & Hk & Hp & Hmin & Hleft)].
    + exists 0%nat, q. rewrite E, Nat.add_0_r. split_and!; [done|done|done| |lia]. intros [|k'] p' Hk'; [rewrite H0 in Hk'; injection Hk'; lia|by apply (Hall k')].
    + exists (S k), p. split_and!; [rewrite E; do 2 f_equal; lia|done|lia| |].
      * intros [|k'] p' Hk'; [rewrite H0 in Hk'; injection Hk'; lia|by apply (Hmin k')].
      * intros [|k'] p' Hlt' Hk'; [rewrite H0 in Hk'; injection Hk'; lia|apply (Hleft k'); [lia|done]].
  - destruct (IH (S i) bp bo) as [[E Hall]|(k & p & E & Hk & Hp & Hmin & Hleft)].
    + left. split; [done|]. intros [|k'] p' Hk'; [rewrite H0 in Hk'; injection Hk'; lia|by apply (Hall k')].
    + right. exists (S k), p. split_and!; [rewrite E; do 2 f_equal; lia|done|lia| |].
      * intros [|k'] p' Hk'; [rewrite H0 in Hk'; injection Hk'; lia|by apply (Hmin k')].
      * intros [|k'] p' Hlt' Hk'; [rewrite H0 in Hk'; injection Hk'; lia|apply (Hleft k'); [lia|done]].
  - destruct (IH (S i) bp bo) as [[E Hall]|(k & p & E & Hk & Hp & Hmin & Hleft)].
    + left. split; [done|]. intros [|k'] p' Hk'; [by rewrite H0 in Hk'|by apply (Hall k')].
    + right. exists (S k), p. split_and!; [rewrite E; do 2 f_equal; lia|done|lia| |].
      * intros [|k'] p' Hk'; [by rewrite H0 in Hk'|by apply (Hmin k')].
      * intros [|k'] p' Hlt' Hk'; [by rewrite H0 in Hk'|apply (Hleft k'); [lia|done]].
Qed.

Lemma merge_at_split l1 a b l2 : merge_at (length l1) (l1 ++ a :: b :: l2) = Done (l1 ++ (a ++ b) :: l2).
Proof.
  unfold merge_at. rewrite lookup_app_r by lia. replace (S (length l1) - length l1)%nat with 1%nat by lia. cbn [lookup list_lookup]. f_equal.
  replace (delete (S (length l1)) (l1 ++ a :: b :: l2)) with (l1 ++ a :: l2).
  - rewrite alter_app_r_alt by lia. by rewrite Nat.sub_diag.
  - rewrite delete_take_drop. rewrite take_app_ge, drop_app_ge by lia. replace (S (length l1) - length l1)%nat with 1%nat by lia. replace (S (S (length l1)) - length l1)%nat with 2%nat by lia. cbn. by rewrite <- app_assoc.
Qed.

(** With as much fuel as tokens the loop ends, after steps that each are the
    best merge, in a list with nothing to merge. *)
Lemma merge_loop_spec fuel : forall l, (forall k p, pair_prio index l k = Some p -> p < u64_max) -> (forall a b p, index !! (a, b) = Some p -> p < u64_max) ->
  (length l <= fuel)%nat -> l <> [] -> exists l', merge_loop fuel index l = Done l' /\ rtc (index_step index) l l' /\ index_final index l' /\ concat l' = concat l /\ l' <> [].
Proof.
  induction fuel as [|fuel IH]; intros l Hp Hi Hf Hne; [by destruct l; cbn in *; [|lia]|]. cbn [merge_loop]. destruct (scan_spec l 0 u64_max None) as [[E Hall]|(k & p & E & Hk & Hlt & Hmin & Hleft)]; rewrite E; cbn [snd].
  - exists l. split_and!; [done|apply rtc_refl| |done|done]. intros k. destruct (pair_prio index l k) as [p|] eqn:Ek; [|done]. specialize (Hp k p Ek). specialize (Hall k p Ek). lia.
  - destruct (pair_prio_split _ _ _ _ Hk) as (l1 & a & b & l2 & -> & <- & Hab). rewrite Nat.add_0_l, merge_at_split. cbn [mbind run_bind].
    destruct (IH (l1 ++ (a ++ b) :: l2)) as (l' & E' & Hs & Hfin & Hc & Hne').
    + intros k q Hq. destruct (pair_prio_split _ _ _ _ Hq) as (m1 & x & y & m2 & _ & _ & Hxy). by apply (Hi x y).
    + done.
    + rewrite !length_app in *. cbn in *. lia.
    + by destruct l1.
    + exists l'. split_and!; [done| |done| |done].
      * eapply rtc_l; [|done]. by apply (index_merge _ _ _ _ _ p).
      * rewrite Hc, !concat_app. cbn. by rewrite <- app_assoc.
Qed.

(** A step is determined. *)
Lemma index_step_det l l1 l2 : index_step index l l1 -> index_step index l l2 -> l1 = l2.
Proof.
  intros H1 H2. destruct H1 as [m1 a b m2 p Hab Hmin Hleft]. inversion H2 as [n1 c d n2 q Hcd Hmin' Hleft' E].
  assert (pair_prio index (m1 ++ a :: b :: m2) (length m1) = Some p) as Ha by (unfold pair_prio; rewrite !lookup_app_r by lia; replace (S (length m1) - length m1)%nat with 1%nat by lia; by rewrite Nat.sub_diag).
  assert (pair_prio index (m1 ++ a :: b :: m2) (length n1) = Some q) as Hc by (rewrite <- E; unfold pair_prio; rewrite !lookup_app_r by lia; replace (S (length n1) - length n1)%nat with 1%nat by lia; by rewrite Nat.sub_diag).
  rewrite E in Hmin', Hleft'. assert (p = q) as -> by (pose proof (Hmin _ _ Hc); pose proof (Hmin' _ _ Ha); lia). assert (length n1 = length m1) as Hlen.
  { destruct (Nat.lt_trichotomy (length n1) (length m1)) as [Hn|[Hn|Hn]]; [|done|]; [pose proof (Hleft _ _ Hn Hc)|pose proof (Hleft' _ _ Hn Ha)]; lia. }
  apply app_inj_1 in E as [-> [= -> -> ->]]; done.
Qed.
Lemma final_stuck l l' : index_final index l -> ~ index_step index l l'.
Proof. intros Hf H. destruct H as [m1 a b m2 p Hab _ _]. specialize (Hf (length m1)). unfold pair_prio in Hf. rewrite !lookup_app_r in Hf by lia. replace (S (length m1) - length m1)%nat with 1%nat in Hf by lia. rewrite Nat.sub_diag in Hf. cbn in Hf. by rewrite Hab in Hf. Qed.

Lemma final_unique l l1 l2 : rtc (index_step index) l l1 -> index_final index l1 -> rtc (index_step index) l l2 -> index_final index l2 -> l1 = l2.
Proof.
  intros H1 Hf1. induction H1 as [l|l m l1 Hs H1 IH]; intros H2 Hf2; inversion H2 as [|? m' ? Hs' H2']; subst; [done|by apply final_stuck in Hs'|by apply final_stuck in Hs|].
  apply IH; [done| |done]. by rewrite (index_step_det _ _ _ Hs Hs').
Qed.
End Merging.

(** ** The vocabulary *)

(** What a token of a text can be: a byte, or the result of a rule. *)
Definition text_token (merges : list (list Z * list Z)) (t : list Z) : Prop := (exists b, is_u8 b /\ t = [b]) \/ (exists l r, (l, r) ∈ merges /\ t = l ++ r).

(** Identifiers and tokens match one to one, every byte and every result of a
    rule is a token, none of these has the number of a special token, and no
    rule is given twice. *)
Record vocab_ok (tokens : list (Z * list Z)) (merges : list (list Z * list Z)) (special : SpecialTokens) : Prop := {
  vk_ids : NoDup tokens.*1;
  vk_bytes : NoDup tokens.*2;
  vk_single : forall b, is_u8 b -> [b] ∈ tokens.*2;
  vk_merged : forall l r, (l, r) ∈ merges -> l ++ r ∈ tokens.*2;
  vk_special : forall id t, (id, t) ∈ tokens -> text_token merges t -> skipped special id = false;
  vk_rules : NoDup merges;
  vk_len : Z.of_nat (length merges) < 2 ^ 63;
}.

Lemma insert_tokens_lookup tokens : forall t2i i2t, NoDup tokens.*1 -> NoDup tokens.*2 ->
  (forall id t, (id, t) ∈ tokens -> fst (insert_tokens tokens t2i i2t) !! t = Some id /\ snd (insert_tokens tokens t2i i2t) !! id = Some t) /\
  (forall t, t ∉ tokens.*2 -> fst (insert_tokens tokens t2i i2t) !! t = t2i !! t) /\ (forall id, id ∉ tokens.*1 -> snd (insert_tokens tokens t2i i2t) !! id = i2t !! id).
Proof.
  induction tokens as [|[id t] tokens IH]; intros t2i i2t Hi Hb; cbn [insert_tokens]; [split_and!; [by intros ? ? ?%elem_of_nil|done|done]|].
  cbn in Hi, Hb. apply NoDup_cons in Hi as [Hi1 Hi]. apply NoDup_cons in Hb as [Hb1 Hb]. destruct (IH (<[t := id]> t2i) (<[id := t]> i2t) Hi Hb) as (H1 & H2 & H3). split_and!.
  - intros id' t' [[= -> ->]|H]%elem_of_cons; [|by apply H1]. split; [by rewrite H2, lookup_insert_eq|by rewrite H3, lookup_insert_eq].
  - intros t' [Hne Hn]%not_elem_of_cons. by rewrite H2, lookup_insert_ne by done.
  - intros id' [Hne Hn]%not_elem_of_cons. by rewrite H3, lookup_insert_ne by done.
Qed.

Section Vocabulary.
Context (tokens : list (Z * list Z)) (merges : list (list Z * list Z)) (special : SpecialTokens) (Hok : vocab_ok tokens merges special).
Notation v := (bpe_new tokens merges special).

Lemma bpe_new_fields : token_to_id v = fst (insert_tokens tokens ∅ ∅) /\ id_to_token v = snd (insert_tokens tokens ∅ ∅) /\ bv_merges v = merges /\ special_tokens v = special.
Proof. unfold bpe_new. by destruct (insert_tokens tokens ∅ ∅). Qed.

Lemma text_token_known t : text_token merges t -> exists id, token_id v t = Some id /\ token_bytes v id = Some t /\ skipped special id = false.
Proof.
  intros Ht. assert (t ∈ tokens.*2) as [[id t'] [-> Hin]]%list_elem_of_fmap by (destruct Ht as [(b & Hb & ->)|(l & r & Hlr & ->)]; [by apply (vk_single _ _ _ Hok)|by apply (vk_merged _ _ _ Hok)]).
  destruct bpe_new_fields as (E1 & E2 & _ & _). destruct (insert_tokens_lookup tokens ∅ ∅ (vk_ids _ _ _ Hok) (vk_bytes _ _ _ Hok)) as (H & _ & _). destruct (H id t' Hin) as [H1 H2].
  exists id. unfold token_id, token_bytes. rewrite E1, E2. split; [done|]. split; [done|]. by apply (vk_special _ _ _ Hok id t').
Qed.

Lemma step_text_tokens l l' : index_step (build_merge_index v) l l' -> Forall (text_token merges) l -> Forall (text_token merges) l'.
Proof.
  intros [l1 a b l2 p Hab _ _] H. apply Forall_app in H as [H1 H2]. apply Forall_cons in H2 as [Ha H2]. apply Forall_cons in H2 as [Hb H2]. apply Forall_app. split; [done|]. apply Forall_cons. split; [|done].
  right. apply index_sound in Hab as [Hab _]. destruct bpe_new_fields as (_ & _ & E & _). rewrite E in Hab. by exists a, b.
Qed.

Lemma steps_text_tokens l l' : rtc (index_step (build_merge_index v)) l l' -> Forall (text_token merges) l -> Forall (text_token merges) l'.
Proof. induction 1; [done|]. intros H1. eauto using step_text_tokens. Qed.

Lemma decode_ids toks ids : Forall2 (fun t id => token_id v t = Some id /\ token_bytes v id = Some t /\ skipped special id = false) toks ids -> decode_bytes v ids = concat toks.
Proof.
  destruct bpe_new_fields as (_ & _ & _ & E). induction 1 as [|t id toks ids (H1 & H2 & H3) H IH]; [done|]. cbn [decode_bytes concat]. rewrite E, H3, H2. cbn [default]. by rewrite IH.
Qed.

Lemma known_ids toks : Forall (text_token merges) toks -> Forall2 (fun t id => token_id v t = Some id /\ token_bytes v id = Some t /\ skipped special id = false) toks (map (fun t => default (st_unk (special_tokens v)) (token_id v t)) toks).
Proof. induction 1 as [|t toks Ht H IH]; cbn; constructor; [|done]. destruct (text_token_known t Ht) as (id & E & H1 & H2). rewrite E. by split. Qed.

Lemma decode_bytes_app l1 l2 : decode_bytes v (l1 ++ l2) = decode_bytes v l1 ++ decode_bytes v l2.
Proof. induction l1 as [|id l1 IH]; [done|]. cbn [app decode_bytes]. rewrite IH. destruct (skipped _ id); [done|]. by rewrite app_assoc. Qed.

Lemma concat_singletons (text : list Z) : concat (map (fun b => [b]) text) = text.
Proof. induction text as [|b text IH]; [done|]. cbn. by rewrite IH. Qed.

Lemma encode_spec text : Forall is_u8 text -> exists toks ids, encode v text = Done ids /\ rtc (index_step (build_merge_index v)) (map (fun b => [b]) text) toks /\ index_final (build_merge_index v) toks /\ concat toks = text /\
  Forall2 (fun t id => token_id v t = Some id /\ token_bytes v id = Some t /\ skipped special id = false) toks ids.
Proof.
  intros Hu. unfold encode. destruct (decide (text = [])) as [->|Hne]; [exists [], []; by split_and!; [done|apply rtc_refl|done|done|constructor]|]. rewrite bool_decide_eq_false_2 by done.
  assert (forall a b p, build_merge_index v !! (a, b) = Some p -> p < u64_max) as Hi.
  { intros a b p Hp. apply index_sound in Hp as [_ Hp]. destruct bpe_new_fields as (_ & _ & E & _). rewrite E in Hp. pose proof (vk_len _ _ _ Hok). unfold u64_max. lia. }
  destruct (merge_loop_spec (build_merge_index v) (length text) (map (fun b => [b]) text)) as (toks & E & Hs & Hfin & Hc & _).
  - intros k p Hp. destruct (pair_prio_split _ _ _ _ Hp) as (l1 & a & b & l2 & _ & _ & Hab). by apply (Hi a b).
  - done.
  - by rewrite length_map.
  - by destruct text.
  - rewrite E. cbn [mbind run_bind]. exists toks. eexists. split; [done|]. rewrite concat_singletons in Hc. split_and!; [done|done|done|]. apply known_ids. apply (steps_text_tokens _ _ Hs).
    apply Forall_map. eapply Forall_impl; [done|]. intros b Hb. left. by exists b.
Qed.
End Vocabulary.

(** C30: the tokenizer. With a vocabulary in which tokens and numbers match one to
    one, that has every byte and the result of every rule, under numbers that
    are not those of the marks, and rules that are all different (of a rule given twice the code takes the last
    place): encoding any text returns; it is the only list of tokens reachable
    from the single bytes by steps that each merge a pair of the earliest rule
    in the list of rules there is, the leftmost such pair, in which no pair is
    a rule any more; its tokens are the text cut in pieces, each under its own
    number and none of them unknown; and decoding gives the text back, with and
    without the marks of its beginning and end. *)
Theorem bpe_exact (tokens : list (Z * list Z)) (merges : list (list Z * list Z)) (special : SpecialTokens) (text : str)
  (Hok : vocab_ok tokens merges special) (Hu : Forall is_u8 text) (Hv : utf8_valid text = true) :
  let v := bpe_new tokens merges special in
  exists toks ids, encode v text = Done ids /\
    rtc (bpe_step merges) (map (fun b => [b]) text) toks /\ bpe_final merges toks /\
    (forall toks', rtc (bpe_step merges) (map (fun b => [b]) text) toks' -> bpe_final merges toks' -> toks' = toks) /\
    concat toks = text /\ Forall2 (fun t id => token_id v t = Some id /\ token_bytes v id = Some t) toks ids /\
    decode v ids = text /\ exists ids', encode_with_special v text = Done ids' /\ decode v ids' = text.
Proof.
  cbv zeta. destruct (encode_spec tokens merges special Hok text Hu) as (toks & ids & E & Hs & Hf & Hc & Hids). exists toks, ids. destruct (bpe_new_fields tokens merges special) as (_ & _ & Em & Es).
  assert (decode_bytes (bpe_new tokens merges special) ids = text) as Hd by (by rewrite (decode_ids tokens merges special toks ids Hids)).
  pose proof (vk_rules _ _ _ Hok) as Hnd. rewrite <- Em in Hnd. pose proof (index_steps_rules _ (map (fun b => [b]) text) toks Hnd) as Hst. pose proof (index_final_rules _ toks Hnd) as Hfi. rewrite Em in Hst, Hfi.
  split_and!; [done|by apply Hst|by apply Hfi| |done| |..].
  - intros toks' Hs' Hf'. rewrite <- Em in Hs', Hf'. apply (index_steps_rules _ _ _ Hnd) in Hs'. apply (index_final_rules _ _ Hnd) in Hf'. apply (final_unique _ _ _ _ Hs' Hf' Hs Hf).
  - eapply Forall2_impl; [done|]. intros t id (H1 & H2 & _). by split.
  - unfold decode. rewrite Hd. by apply from_utf8_lossy_valid.
  - unfold encode_with_special. rewrite E, Es. cbn [mbind run_bind]. eexists. split; [done|]. unfold decode. cbn [decode_bytes]. rewrite Es.
    assert (skipped special (st_bos special) = true) as -> by (unfold skipped; by rewrite Z.eqb_refl). rewrite decode_bytes_app, Hd. cbn [decode_bytes]. rewrite Es.
    assert (skipped special (st_eos special) = true) as -> by (unfold skipped; by rewrite Z.eqb_refl, orb_true_r). rewrite app_nil_r. by apply from_utf8_lossy_valid.
Qed.

Lemma minimal_vocab_ok : vocab_ok minimal_tokens minimal_merges minimal_special.
Proof.
  split.
  - apply (bool_decide_unpack _). vm_compute. exact I.
  - apply (bool_decide_unpack _). vm_compute. exact I.
  - intros b Hb. unfold minimal_tokens. rewrite fmap_app. apply elem_of_app. left. apply list_elem_of_fmap. exists (b, [b]). split; [done|]. apply list_elem_of_fmap. exists b. split; [done|]. apply elem_of_seqZ. unfold is_u8 in Hb. lia.
  - assert (Forall (fun '(l, r) => l ++ r ∈ minimal_tokens.*2) minimal_merges) as H by (apply (bool_decide_unpack _); vm_compute; exact I). rewrite Forall_forall in H. intros l r Hlr. exact (H _ Hlr).
  - intros id t Hin Ht. destruct (skipped minimal_special id) eqn:Es; [|done]. exfalso.
    assert (Forall (fun '(id, t) => skipped minimal_special id = true -> length t = 7%nat) minimal_tokens) as H by (apply (bool_decide_unpack _); vm_compute; exact I). rewrite Forall_forall in H. specialize (H _ Hin Es). cbn in H.
    assert (Forall (fun '(l, r) => length (l ++ r) <> 7%nat) minimal_merges) as Hm by (apply (bool_decide_unpack _); vm_compute; exact I). rewrite Forall_forall in Hm. destruct Ht as [(b & _ & ->)|(l & r & Hlr & ->)]; [done|by apply (Hm _ Hlr)].
  - apply (bool_decide_unpack _). vm_compute. exact I.
  - cbn. lia.
Qed.

Lemma bpe_exact_witness : exists ids, encode minimal_test_vocab (lit "hello") = Done ids /\ ids = [262; 111] /\ decode minimal_test_vocab ids = lit "hello".
Proof.
  destruct (bpe_exact minimal_tokens minimal_merges minimal_special (lit "hello") minimal_vocab_ok) as (toks & ids & E & _ & _ & _ & _ & _ & Hd & _); [repeat constructor; unfold is_u8; lia|vm_compute; reflexivity|].
  exists ids. split; [exact E|]. split; [|exact Hd]. assert (Hc : encode (bpe_new minimal_tokens minimal_merges minimal_special) (lit "hello") = Done [262; 111]) by (vm_compute; reflexivity). rewrite Hc in E. injection E as <-. reflexivity.
Defined.

(** ** Departures *)

(** A rule given twice has the priority of its last place: the first rule of
    the table loses against the second. *)
Example repeated_rule_loses :
  merge_loop 3 (build_merge_index (bpe_new [] [(lit "a", lit "b"); (lit "b", lit "c"); (lit "a", lit "b")] minimal_special)) [lit "a"; lit "b"; lit "c"] = Done [lit "a"; lit "bc"] /\
  merge_loop 3 (build_merge_index (bpe_new [] [(lit "a", lit "b"); (lit "b", lit "c")] minimal_special)) [lit "a"; lit "b"; lit "c"] = Done [lit "ab"; lit "c"].
Proof. split; vm_compute; reflexivity. Qed.
